(* ===== verification/_CoqProject ===== *)
-Q . S2P
Prelude.v
Ids.v
Bytes.v
Bucket.v
Prog.v
Scylla.v
DeliveryTypes.v
DeliveryRepo.v
DeliveryRepoSpec.v
MessageStore.v
Sequence.v
Conversation.v
Outbox.v
ConversationService.v
Submission.v
ConversationInv.v
SubmissionSpec.v
DeliveryServices.v
Sync.v
SyncPages.v
CircuitBreaker.v
Bulkhead.v
Drain.v
Retry.v
AuditEvent.v
AuditValidation.v
Dedup.v
IngestQueue.v
Pipeline.v
AuditIngest.v
Base64url.v
AuditQuery.v
Base32.v
AuthStore.v
AuthTokens.v
AccessTokens.v
AuthInv.v
AuthTokensSpec.v
Totp.v
MfaFactors.v
Mfa.v
MfaSpec.v
KeyDirectory.v
KeyDirectorySpec.v
Devices.v
DevicesSpec.v
AuthServer.v
AuthServerSpec.v
AuthRuns.v
AuthExamples.v
FilesTypes.v
FilesText.v
AuditPages.v
FilesValidation.v
FilesDb.v
FilesRepo.v
FilesUpload.v
FilesLifecycle.v
FilesServer.v
FilesLogic.v
FilesContracts.v
FilesRuns.v
FilesInv.v
FilesFinalize.v
FilesSpec.v
FilesExamples.v
Http.v
Credentials.v
RoutePolicy.v
RateLimiter.v
Gateway.v
GatewaySpec.v
TokenValidators.v
GatewayRuns.v
GatewayExamples.v
Scheduler.v
Connections.v
DeliveryPlane.v
DeliveryPlaneSpec.v
Envelopes.v
