(* ===== verification/Prelude.v ===== *)
(** * SecureCloud: a verification development of its service core

    SecureCloud (directory [src/]) is a set of C++ services behind an HTTP gateway:
    [auth], [messaging], [files] and [audit], with [gateway] in front, [common] shared
    by all of them and a desktop [client].  This development models the four services,
    which carry the program's own state machines, and the perimeter and the resilience
    layer of the gateway, as executable definitions, and proves what makes them correct.

    ** The program and its files

    Messaging keeps conversations and their members, accepts end-to-end encrypted
    messages, numbers them, queues them for every recipient device, tracks delivery
    and reading per device, and lets devices catch up.  Its state is in ScyllaDB
    tables; its services are stateless but for lock stripes and sequence counters.

    - [Ids]: the identifiers of [messaging/domain/message_types.hpp] and
      [conversation_types.hpp], UUID text and UUID version 7.
    - [Bucket]: [domain/message_bucket.cpp], the UTC month a message is filed under.
    - [Scylla]: [db/scylla_types.cpp]; the database is the class [CqlTable], any type
      with the documented laws of writes and partition scans; [GTable] is an instance
      built on finite maps, on which everything evaluates; what repositories share, a table
      that represents a map of entities.
    - [DeliveryTypes]: delivery and read states and their transitions
      ([delivery_types.hpp], [read_receipt_types.hpp],
      [delivery_state_transition_guard.cpp], [delivery_lifecycle.cpp]).
    - [DeliveryRepo], [DeliveryRepoSpec]: [scylla_delivery_state_repository.cpp] and its
      refinement to maps of records.
    - [MessageStore]: [scylla_message_repository.cpp].
    - [Sequence]: the class of sequence allocators and its two implementations, and the
      interleaving of allocations with saves as a step relation.
    - [Conversation], [ConversationService], [ConversationInv]: entities, the repository
      classes with their in-memory instances, authorization, the operations of
      [conversation_service.cpp] as programs of repository calls, which take no lock
      between them, and their invariants.
    - [Outbox]: [scylla_outbox_repository.cpp].
    - [Submission], [SubmissionSpec]: [submission_validator.cpp],
      [submission_fingerprint.cpp], [idempotency_guard.cpp],
      [scylla_idempotency_repository.cpp] and [message_submission_service.cpp], in an
      error monad in which every database call may answer, fail before or fail after it
      took effect.
    - [Envelopes]: [protocol_version_policy.cpp], [e2e_envelope_validator.cpp] and
      [recipient_device_resolution_service.cpp]: the rules for an envelope, and the cache
      of the devices the auth service lists.
    - [DeliveryServices]: [delivery_service.cpp] and [read_receipt_service.cpp].
    - [Sync], [SyncPages]: [sync_types.hpp], [scylla_sync_cursor_repository.cpp],
      [sync_cursor_manager.cpp] and [message_sync_service.cpp].
    - [Scheduler]: [delivery/bounded_delivery_scheduler.cpp], the queues of delivery tasks
      and the round robin over devices, and its refinement to a plan.
    - [Connections]: [device_connection_registry.cpp],
      [presence_coordinator.cpp] and [connection_lifecycle_manager.cpp]: which devices are
      connected and which users are present.
    - [DeliveryPlane], [DeliveryPlaneSpec]: [delivery_worker.cpp],
      [outbox_delivery_consumer.cpp], [realtime_delivery_accelerator.cpp] and
      [durable_delivery_recovery_service.cpp], the way of a stored message to a device,
      over the repository, the outbox, the scheduler and the registry.

    The gateway lets a request in, or not, and routes it:

    - [Http], [Credentials]: requests and responses, [bearer_token_extractor.cpp],
      [scope_matcher.cpp], [header_sanitizer.cpp].
    - [RoutePolicy]: [gateway_security_policy.cpp], the rules of the routes.
    - [RateLimiter]: [rate_limiter_middleware.cpp], token buckets in binary64.
    - [Gateway], [GatewaySpec], [GatewayRuns], [GatewayExamples]: the
      middlewares in the order of [main.cpp], [router.cpp] and the deployed routes, as
      programs of threads, and what every run guarantees.
    - [TokenValidators]: the two ways to check a token, [auth_service_token_validator.cpp]
      with its cache and [local_token_verifier.cpp], and the choice [main.cpp] makes.

    It guards its upstream calls with four mechanisms of [gateway/http/resilience]:

    - [CircuitBreaker]: [circuit_breaker.cpp], with the rules of its class comment as a
      relation.
    - [Bulkhead]: [bulkhead_manager.cpp], the pools and leases, and the lock-free
      counter as a machine of threads that load and compare-and-swap.
    - [Drain]: [drain_manager.cpp] and the flags of [health_status_manager.cpp] as an
      interleaving of requests with the thread that drains.
    - [Retry]: [retry_policy.cpp] and [deadline_manager.cpp].

    Audit ingests events from the other services at least once and stores each once, in
    ClickHouse, through a pipeline of threads; queries page through them.

    - [Bytes]: characters and big-endian fields, shared with the rest.
    - [AuditEvent], [AuditValidation]: [audit/domain]: events, the canonical fingerprint,
      the validator and the guard against secrets in metadata.
    - [Dedup]: [bounded_deduplication_cache.cpp] and its refinement to a lifecycle per
      event.
    - [IngestQueue], [Pipeline]: the queue as a monitor, and the stages of
      [ingestion_pipeline.cpp] with their threads as a step relation.
    - [AuditIngest]: [audit_ingestion_service.cpp], any number of calls sharing the cache
      and the pipeline, and batches.
    - [Base64url], [AuditQuery]: page tokens, authorization and normalization of
      filters, execution of queries.
    - [AuditPages]: [clickhouse_query_builder.cpp], the text and the parameters of the
      queries.

    Auth keeps accounts, devices with their public keys, sessions, refresh tokens and
    second factors in PostgreSQL, and attempt counters, recovery codes and pairing codes
    in memory behind mutexes.

    - [Prog]: programs of transactions and locked sections, what they do alone, in a pool
      of threads and under failures, and a rely-guarantee logic with ownership of what
      can be taken once.  The handlers of [auth] are such programs.
    - [AuthStore]: [auth/repository], every statement on the tables.
    - [AuthTokens]: [session_manager.cpp], [token_manager.cpp].
    - [Base32], [Totp], [MfaFactors], [Mfa]: [base32.cpp], [totp_engine.cpp],
      [mfa_secret_protector.cpp], [recovery_code_generator.cpp],
      [totp_authenticator.cpp], [mfa_manager.cpp].
    - [AccessTokens]: [token_claims.cpp] and [token_crypto.cpp], access tokens and their
      claims, and the validators of keys and signatures of [auth/crypto].
    - [KeyDirectory], [Devices]: [prekey_manager.cpp], [crypto_directory_manager.cpp], [device_manager.cpp].
    - [AuthServer]: the fifteen handlers of [auth_service_impl.cpp] that change state,
      and [credential_verifier.cpp].
    - [AuthInv], [AuthTokensSpec], [MfaSpec], [KeyDirectorySpec],
      [DevicesSpec], [AuthServerSpec]: the invariant of the tables, how rows may move,
      and a specification of every program; [AuthRuns]: the theorems about whole runs of
      the server; [AuthExamples]: a server to run them on.

    Files keeps the metadata of encrypted files in a database and their bytes in an object
    store, uploaded in chunks and assembled into versions.

    - [FilesTypes], [FilesText], [FilesValidation]: [files/domain] and the text forms of
      [db/pqxx_mappers.cpp].
    - [FilesDb], [FilesRepo]: [db/pqxx_compat.hpp], the database the service is built
      with, and [files/repository].
    - [FilesUpload], [FilesLifecycle], [FilesServer]: sessions, chunks, assembly,
      finalization, lifecycle, downloads, the seven handlers and the outbox relay.
    - [FilesLogic], [FilesContracts], [FilesInv], [FilesFinalize],
      [FilesRuns], [FilesSpec], [FilesExamples]: the logic of its
      transactions, the contracts, the invariant, histories, and a service to run.

    ** How the code is modelled

    A function that throws or answers an error code returns [result]; a handler returns
    the state it leaves also when it throws.  Unsigned integers are [Z] with [u32] and
    [u64] written where C++ wraps, casts to signed parameters are [i32] and [i64].
    Clocks, random bytes, hash functions, SHA-256, the JSON printer, the device status
    checker and, in [Submission], the envelope validator are arguments.  Objects behind interfaces are
    type classes ([CqlTable], [ConversationRepository], [MembershipRepository],
    [SequenceAllocator]) with laws; services are proved against the classes, and the
    implementations are instances.  A call that holds a lock for its whole length is
    one step; where the code does not, the interleaving is a step relation
    ([seq_step], [Cas.step], [drain_step], the stages of [Pipeline], [ingest_step]), a
    pool of programs ([pool_step]) or an argument ([others] of [wait_loop]).  In [Prog] a
    transaction is atomic, and it may also fail before or after it took effect; a section
    under a mutex is atomic.  In [DeliveryPlane] the clocks are part of the state.

    ** What is proved

    - Submission: whatever database calls fail, a message that is answered as accepted is
      stored with its queue records, states, outbox event and idempotency record; from
      then on, while the record lives, a submission with its token stores nothing more:
      one that passes the checks is answered with the same message or, for other
      content, refused as a conflict; the fingerprint does not depend on the order of the targets.
    - Envelopes, under any interleaving with changes in the auth service: an accepted one
      is its caller's, encrypted as the policy asks for, and addressed to devices the auth
      service listed as active, to all of them; that of an honest client is accepted,
      whatever the cache holds; the cache of devices stays within its capacity and holds
      answers of the auth service only.
    - Conversations: the invariants of direct and group conversations hold after any
      calls that come one after the other, and under any interleaving direct
      conversations keep their members; nothing changes without the authority the policy asks for; a direct
      conversation is unique per pair; the last member who leaves closes the group.
    - Delivery: states never regress, in the guard and in the stored rows; the
      acknowledgement and receipt handlers meet their contracts on every branch; queue
      and states refine maps; the summaries aggregate the rows.
    - Numbering and synchronisation: stored messages are numbered uniquely under every
      interleaving, failure and restart; cursors only move forward and versions prevent
      lost updates; pages are sound, envelopes reach only the device they are addressed
      to, and a client that pages through a gap-free month receives all of it.
    - Stores: messages, outbox events, queue records, states and cursors written are
      read back, in order.
    - Resilience: the breaker behaves as documented while probes have a verdict, trips
      and fails fast; bulkheads never exceed their capacity, under any interleaving; draining
      admits nobody and ends with no request in flight; retries are bounded by attempts
      and by the deadline.
    - Audit: an ingestion that reports success has been stored, whatever fails; one call
      at a time works on an event; the cache refines a lifecycle and stays in its bounds;
      every envelope that enters the pipeline is answered once and the pipeline stays
      bounded; no text of a caller is part of a query, whose parameters are bound to the
      values of the filter; nobody reads events outside their scope; page tokens survive printing and parsing, bound to
      their filter; fingerprints identify payloads.
    - Auth, for every run of the server (any threads, any interleaving, any failures of
      transactions): the tables keep their invariant; a refresh token is used once; a
      challenge is passed once and only with a good credential; a one-time prekey is
      handed out once and bundles carry valid signatures; a login had the right
      password; after a logout, or the revocation of a device, was answered, no later
      request is let in; a device is authorized only through a second factor or its
      pairing code.  Access tokens are read back as they were written.  For calls alone: a replayed
      token ends its session and its family, three wrong codes lock a challenge.  Codes
      are those of RFC 4226 and 6238 and are accepted exactly in the drift window.
    - Delivery plane, under any interleaving: every envelope handed to a channel is, bit
      for bit, the one saved for the device of that channel, and no saved record is lost;
      a worker that is not disturbed settles the record of its task as the outcome calls
      for.  The scheduler refines a plan of queues, keeps its bounds, hands the tasks of a
      device out in order, and serves every device after a bounded number of turns.
    - Connections: the registry stays within its limits and consistent with its index
      under any interleaving; sessions, channels and presence agree when calls come one
      after the other.
    - Gateway, for every run of the server with either validator: a handler runs only on
      requests the policy opens, or for an identity the validator vouched for, for the
      session the client named, and the rule accepts, and sees
      no identity header of the client; sensitive handlers need a second factor; the rules
      that apply are the ones the precedence says; the limiter stays bounded; cached
      answers are positive, fresh and of the same token.
    - Files, for every history with failures of the object store: available files have
      intact versions; finalization, chunks and downloads meet their contracts, downloads
      reassemble the file; a file moves along its lifecycle only, and the moves are
      recorded; a repeated finalization answers with what was published; the relay marks
      its batch and nothing else.
    - Text forms: identifiers, buckets, base32 and enumerations survive printing and
      parsing.

    Theorems that show where the code does not do what it means to are stated the same
    way and stand next to the component they concern: a half-open breaker that locks up
    ([half_open_locks_up]), an acknowledgement that overwrites a read
    ([ack_race_regresses_read]) or misses its record in the next month
    ([ack_in_next_month_leaves_pending]), a read device that counts as pending
    ([read_device_counts_as_pending]), a group nobody can close
    ([self_removal_leaves_group_open]), calls on a conversation that overtake each other
    ([leave_races_add], [rename_reopens_group], [direct_created_twice]), outbox rows that hide others
    ([published_rows_hide_pending]), a retry that stores a message twice
    ([retry_after_partial_failure_duplicates]), fingerprints that collide
    ([fingerprint_ambiguous]), a device locked out by a new month
    ([new_month_locks_device_out]), messages hidden behind lost numbers
    ([lost_numbers_hide_messages]); a batch that leaks its reservations
    ([batch_throw_leaks_reservation]), a stored event reported as failed
    ([persisted_result_claims_failure]), page tokens no query accepts
    ([default_window_token_refused]), a lookup only the service itself may make
    ([lookup_by_id_is_global]); a one-time password accepted twice
    ([used_code_accepted_again]), a second factor that a lookup misses
    ([enabled_mfa_hidden]), ten digits that do not fit ([ten_digits_wrap]) and
    revocations of devices that leave tokens, sessions or keys
    ([revoked_device_keeps_tokens], [revoked_device_keeps_sessions],
    [revoked_device_keeps_keys]); a deleted file that comes back
    ([deleted_file_comes_back]), events that are not sent again
    ([refused_batch_is_not_retried]), files that expire early or never
    ([expires_early], [expiry_starved]), a completed transfer that is cancelled
    ([completed_transfer_cancelled]); a question mark that evades the second factor
    ([question_mark_evades_mfa]), rules for routes that do not exist
    ([device_registration_without_mfa], [file_scopes_of_routes]), an address the client
    chooses ([forwarded_address_evades_limit]); a device that comes back for another user
    and is not counted ([user_change_exceeds_limit]), a sweep that ends a new session
    ([sweep_ends_new_session]), a retry without its delay ([scheduled_time_ignored]) and
    sent twice ([retry_is_sent_twice]), a delivery taken back
    ([delivered_goes_back_to_queued]), events that block the others
    ([other_events_block_consumer]), and a revoked device that comes back into the cache
    ([invalidation_overtaken]).

    ** Bounds and fuel

    [Uuid.parse_loop] has fuel for the 36 characters of a UUID (16 bytes and 4 dashes,
    one unit more); the walk over months in [Bucket] has days/28 + 1 units, since no
    month is shorter than 28 days, and is proved to end for every day of the epoch;
    [execute] of [Retry] has one unit per configured attempt and is proved to end with a
    result; [wait_loop] counts the 20 retries of the code; programs of [Prog] are finite
    trees and need no fuel.  Theorems about stored numbers
    assume sequence numbers below 2^63, which CQL's signed [bigint] orders like the
    service does, times not before 1970, and LIMIT values that fit in 32 bits; each
    states the bound it needs.  The bulkhead machine touches a single atomic counter,
    whose accesses are totally ordered whatever memory order the code asks for; the
    drain machine touches a flag and a counter and is sequentially consistent, which is
    stronger than the acquire and release orders of the code.

    ** Not modelled

    Wire formats and gRPC adapters, HTTP parsing and serving, the proxies that translate
    HTTP to gRPC, TLS, processes and threads as such (their calls are modelled, one by one
    and interleaved), start-up and configuration parsing, driver and migration code,
    metrics and logs: translation without state of its own, or libraries the sources only
    call.  Floating-point jitter of retry delays, the JSON parser, the regular expression
    engine beyond the expressions of the routes, and the cryptographic primitives are
    parameters or left out.  Sessions of ScyllaDB fail only in [Submission] and [Sync];
    elsewhere in messaging a database call answers.  Of [auth], the handlers that only
    read, password hashing and the connection pool; of [audit], the ClickHouse client, the
    guard on its statements, what ClickHouse makes of a query and the text form of rows,
    and the gRPC service; of [files], the
    capabilities, which are checked by a parameter, and the S3 client; of [messaging],
    the ScyllaDB conversation repositories, whose contract is the class the in-memory ones
    implement, and the worker pool; of [gateway], streaming of request
    bodies; and the desktop client, which is user interface over these services. *)

From stdpp Require Export base list gmap strings fin_maps.
From stdpp Require Import sorting.
From Stdlib Require Export ZArith Lia.

#[global] Open Scope Z_scope.

(** ** Machine integers

    Unsigned arithmetic of C++ wraps at the width of the type; [wrap w z] is the
    value an unsigned [w]-bit variable holds after [z] is assigned to it. *)

Definition wrap (w z : Z) : Z := z mod 2 ^ w.

Definition u32 (z : Z) : Z := wrap 32 z.
Definition u64 (z : Z) : Z := wrap 64 z.

Definition in_u32 (z : Z) : Prop := 0 <= z < 2 ^ 32.
Definition in_u64 (z : Z) : Prop := 0 <= z < 2 ^ 64.

Lemma u32_small z : in_u32 z -> u32 z = z.
Proof. intros ?. by apply Z.mod_small. Qed.

Lemma u64_small z : in_u64 z -> u64 z = z.
Proof. intros ?. by apply Z.mod_small. Qed.

Lemma u32_range z : in_u32 (u32 z).
Proof. unfold u32, wrap, in_u32. by apply Z.mod_pos_bound. Qed.

Lemma u64_range z : in_u64 (u64 z).
Proof. unfold u64, wrap, in_u64. by apply Z.mod_pos_bound. Qed.

(** A signed 64-bit variable keeps the same bits in two's complement. *)
Definition i64 (z : Z) : Z := if u64 z <? 2 ^ 63 then u64 z else u64 z - 2 ^ 64.

Lemma u64_i64 z : u64 (i64 z) = u64 z.
Proof.
  unfold i64. pose proof (u64_range z) as Hr. unfold u64, wrap, in_u64 in *.
  destruct (Z.ltb_spec (z mod 2 ^ 64) (2 ^ 63)).
  - apply Z.mod_small. lia.
  - replace (z mod 2 ^ 64 - 2 ^ 64) with (z mod 2 ^ 64 + (-1) * 2 ^ 64) by lia.
    rewrite Z.mod_add by lia. by apply Z.mod_small.
Qed.

Lemma i64_small z : 0 <= z < 2 ^ 63 -> i64 z = z.
Proof.
  intros Hz. unfold i64. rewrite u64_small by (unfold in_u64; lia).
  by rewrite (proj2 (Z.ltb_lt _ _)) by lia.
Qed.

(** The cast of a [size_t] to a signed 32-bit parameter. *)
Definition i32 (z : Z) : Z := if u32 z <? 2 ^ 31 then u32 z else u32 z - 2 ^ 32.

Lemma i32_small z : 0 <= z < 2 ^ 31 -> i32 z = z.
Proof.
  intros Hz. unfold i32. rewrite u32_small by (unfold in_u32; lia).
  by rewrite (proj2 (Z.ltb_lt _ _)) by lia.
Qed.

(** [std::chrono::duration_cast<milliseconds>] of a nanosecond count truncates
    toward zero. *)
Definition ns_per_ms : Z := 1000000.
Definition to_ms (ns : Z) : Z := Z.quot ns ns_per_ms.

Lemma to_ms_nonneg ns : 0 <= ns -> 0 <= to_ms ns.
Proof. intros ?. unfold to_ms, ns_per_ms. apply Z.quot_pos; lia. Qed.

Lemma to_ms_mono a b : a <= b -> to_ms a <= to_ms b.
Proof. intros ?. unfold to_ms, ns_per_ms. apply Z.quot_le_mono; lia. Qed.

Lemma to_ms_mul ms : to_ms (ms * ns_per_ms) = ms.
Proof. unfold to_ms, ns_per_ms. apply Z.quot_mul. lia. Qed.

(** A time point of the stores, which keep whole milliseconds. *)
Definition from_ms (ms : Z) : Z := ms * ns_per_ms.

(** What a time point is after it was stored and read back. *)
Definition stored_time (tp : Z) : Z := from_ms (to_ms tp).

Lemma stored_time_from_ms ms : stored_time (from_ms ms) = from_ms ms.
Proof. unfold stored_time, from_ms. by rewrite to_ms_mul. Qed.

Lemma to_ms_stored_time tp : to_ms (stored_time tp) = to_ms tp.
Proof. unfold stored_time, from_ms. by rewrite to_ms_mul. Qed.

(** A list of calls on an object, executed one after the other. *)
Definition exec_all {Op St : Type} (step : Op -> St -> St) (ops : list Op) (s : St) : St :=
  foldl (fun s op => step op s) s ops.

Lemma exec_all_nil {Op St} (step : Op -> St -> St) s : exec_all step [] s = s.
Proof. done. Qed.

Lemma exec_all_cons {Op St} (step : Op -> St -> St) op l s :
  exec_all step (op :: l) s = exec_all step l (step op s).
Proof. done. Qed.

Lemma exec_all_app {Op St} (step : Op -> St -> St) l1 l2 s :
  exec_all step (l1 ++ l2) s = exec_all step l2 (exec_all step l1 s).
Proof. apply foldl_app. Qed.

(** The invariant rule for call sequences: an invariant every call preserves
    holds after any sequence of calls. *)
Lemma exec_all_inv {Op St} (step : Op -> St -> St) (I : St -> Prop) (ok : Op -> Prop) :
  (forall op s, ok op -> I s -> I (step op s)) ->
  forall ops s, Forall ok ops -> I s -> I (exec_all step ops s).
Proof.
  intros Hstep ops. induction ops as [|op ops IH]; intros s Hok HI; [done|].
  apply Forall_cons in Hok as [??]. apply IH; auto.
Qed.

#[global] Arguments exec_all : simpl never.

(** ** Results

    A C++ function that throws, or that returns a result struct with an error
    code, returns [Err]; [bind] is the propagation of the error to the caller. *)

Inductive result (E A : Type) : Type :=
| Ok (a : A)
| Err (e : E).
#[global] Arguments Ok {E A} a.
#[global] Arguments Err {E A} e.

Definition bind {E A B} (r : result E A) (k : A -> result E B) : result E B :=
  match r with
  | Ok a => k a
  | Err e => Err e
  end.

Declare Scope result_scope.
Delimit Scope result_scope with result.
Notation "'let?' x ':=' r 'in' k" := (bind r (fun x => k))
  (at level 10, x pattern, r at level 100, k at level 200) : result_scope.
#[global] Open Scope result_scope.

Definition is_ok {E A} (r : result E A) : bool := match r with Ok _ => true | Err _ => false end.

Lemma bind_ok {E A B} (r : result E A) (k : A -> result E B) b :
  bind r k = Ok b <-> exists a, r = Ok a /\ k a = Ok b.
Proof.
  destruct r as [a|e]; cbn; split; try done; [by exists a|by intros (? & [= ->] & ?)|].
  by intros (? & ? & ?).
Qed.

Lemma bind_eq {E A B} (r : result E A) a (k : A -> result E B) b : r = Ok a -> k a = b -> bind r k = b.
Proof. by intros -> <-. Qed.

(** A loop that fills a vector and stops at the first exception. *)
Fixpoint map_result {E A B} (f : A -> result E B) (l : list A) : result E (list B) :=
  match l with
  | [] => Ok []
  | a :: l => let? b := f a in let? bs := map_result f l in Ok (b :: bs)
  end.

Lemma map_result_ok {E A B} (f : A -> result E B) (g : A -> B) l :
  (forall a, a ∈ l -> f a = Ok (g a)) -> map_result f l = Ok (g <$> l).
Proof.
  induction l as [|a l IH]; intros Hf; [done|]. cbn. rewrite Hf by left. cbn.
  by rewrite IH by (intros; apply Hf; by right).
Qed.

Lemma map_result_fmap {E A B C} (f : B -> result E C) (g : A -> B) l :
  map_result f (g <$> l) = map_result (fun a => f (g a)) l.
Proof. induction l as [|a l IH]; [done|]. cbn. by destruct (f (g a)); cbn; rewrite ?IH. Qed.

(** The exceptions of the C++ standard library the sources throw. *)
Inductive exn := invalid_argument | logic_error | runtime_error | bad_variant_access | out_of_range.

#[export] Instance exn_eq_dec : EqDecision exn.
Proof. solve_decision. Defined.

(** ** Counting the entries of a map *)

Section map_count.
Context `{Countable K} {V : Type} (P : V -> bool).
Implicit Types m : gmap K V.

Definition map_count m : Z := Z.of_nat (size (filter (fun kv : K * V => P kv.2 = true) m)).

(** What an optional entry contributes to the count. *)
Definition counted (o : option V) : Z := if from_option P false o then 1 else 0.

Lemma map_count_empty : map_count ∅ = 0.
Proof. unfold map_count. by rewrite map_filter_empty, map_size_empty. Qed.

Lemma map_count_nonneg m : 0 <= map_count m.
Proof. unfold map_count. lia. Qed.

Lemma map_count_insert_fresh m i x :
  m !! i = None -> map_count (<[i := x]> m) = map_count m + counted (Some x).
Proof.
  intros Hi. unfold map_count, counted. cbn. destruct (P x) eqn:HP.
  - rewrite map_filter_insert_True by done.
    rewrite map_size_insert_None by (apply map_lookup_filter_None; by left). lia.
  - rewrite map_filter_insert_False by (cbn; congruence). rewrite delete_id by done. lia.
Qed.

Lemma map_count_delete m i : map_count (delete i m) = map_count m - counted (m !! i).
Proof.
  destruct (m !! i) as [x|] eqn:Hi.
  - rewrite <- (insert_delete_id m i x Hi) at 2.
    rewrite map_count_insert_fresh by apply lookup_delete_eq. lia.
  - rewrite delete_id by done. cbn. lia.
Qed.

Lemma map_count_insert m i x :
  map_count (<[i := x]> m) = map_count m - counted (m !! i) + counted (Some x).
Proof.
  rewrite <- insert_delete_eq, map_count_insert_fresh by apply lookup_delete_eq.
  by rewrite map_count_delete.
Qed.

Lemma map_count_zero m : (forall i x, m !! i = Some x -> P x = false) -> map_count m = 0.
Proof.
  intros Hm. unfold map_count.
  assert (filter (fun kv : K * V => P kv.2 = true) m = ∅) as ->; [|by rewrite map_size_empty].
  apply map_empty. intros i. apply map_lookup_filter_None. right. intros x Hx.
  apply Hm in Hx. cbn. congruence.
Qed.

(** An entry that is counted makes the count positive. *)
Lemma map_count_pos m i x : m !! i = Some x -> P x = true -> 1 <= map_count m.
Proof.
  intros Hi HP. rewrite <- (insert_delete_id m i x Hi).
  rewrite map_count_insert_fresh by apply lookup_delete_eq.
  pose proof (map_count_nonneg (delete i m)). unfold counted. cbn. rewrite HP. lia.
Qed.

End map_count.

(** ** Filtering *)

Lemma filter_all {A} (P : A -> Prop) `{forall x, Decision (P x)} l : Forall P l -> filter P l = l.
Proof. induction 1 as [|x l Hx _ IH]; [done|]. by rewrite filter_cons_True, IH. Qed.

Lemma filter_none {A} (P : A -> Prop) `{forall x, Decision (P x)} l : Forall (fun x => ~ P x) l -> filter P l = [].
Proof. induction 1 as [|x l Hx _ IH]; [done|]. by rewrite filter_cons_False, IH. Qed.

Lemma NoDup_filter_bool {A} (f : A -> bool) l : NoDup l -> NoDup (List.filter f l).
Proof. intros H. apply NoDup_ListNoDup. apply NoDup_ListNoDup in H. by apply List.NoDup_filter. Qed.

(** ** Sorting by a key *)

(** Lists with distinct keys that are permutations of each other sort to one list. *)
Lemma merge_sort_keyed_unique {A K : Type} (R : relation A) `{!RelDecision R, !Total R, !Transitive R}
    (key : A -> K) l l' :
  (forall a b, R a b -> R b a -> key a = key b) -> NoDup (key <$> l) -> l ≡ₚ l' ->
  merge_sort R l = merge_sort R l'.
Proof.
  intros Hanti Hnd Hperm. eapply (StronglySorted_unique_strong R).
  - intros x y Hx Hy H1 H2. rewrite merge_sort_Permutation in Hx. rewrite merge_sort_Permutation, <- Hperm in Hy.
    apply list_elem_of_lookup in Hx as [i Hi], Hy as [j Hj].
    assert (i = j) as <-; [|congruence].
    eapply NoDup_lookup; [exact Hnd|rewrite list_lookup_fmap, Hi; reflexivity|].
    rewrite list_lookup_fmap, Hj. cbn. f_equal. symmetry. auto.
  - apply StronglySorted_merge_sort; apply _.
  - apply StronglySorted_merge_sort; apply _.
  - by rewrite !merge_sort_Permutation.
Qed.

(** ** Automation *)

Create HintDb sc discriminated.

(** Boolean tests of the source, turned into the propositions they decide. *)
Ltac bool_to_prop :=
  repeat match goal with
  | H : _ && _ = true |- _ => apply andb_true_iff in H as [? ?]
  | H : _ || _ = false |- _ => apply orb_false_iff in H as [? ?]
  | H : negb _ = true |- _ => apply negb_true_iff in H
  | H : negb _ = false |- _ => apply negb_false_iff in H
  | H : bool_decide _ = true |- _ => apply bool_decide_eq_true in H
  | H : bool_decide _ = false |- _ => apply bool_decide_eq_false in H
  | H : (_ <=? _) = true |- _ => apply Z.leb_le in H
  | H : (_ <=? _) = false |- _ => apply Z.leb_gt in H
  | H : (_ <? _) = true |- _ => apply Z.ltb_lt in H
  | H : (_ <? _) = false |- _ => apply Z.ltb_ge in H
  | H : (_ =? _) = true |- _ => apply Z.eqb_eq in H
  | H : (_ =? _) = false |- _ => apply Z.eqb_neq in H
  end.

(** Case analysis on the tests of a definition's body, goal and hypotheses. *)
Ltac split_ifs :=
  repeat match goal with
  | |- context [if ?b then _ else _] => destruct b eqn:?
  | H : context [if ?b then _ else _] |- _ => destruct b eqn:?
  end; bool_to_prop.
