(* ===== verification/Ids.v ===== *)
(** * Identifier value objects of the messaging service

    Models the identifier classes of [src/messaging/domain/message_types.hpp]
    ([DeviceId], [MessageId]) and [conversation_types.hpp] ([ConversationId],
    [UserId], [DirectPair]).  [MessageId] and [ConversationId] are two classes
    with the same body, sixteen bytes with the UUIDv7 layout and its text form;
    the body is modelled once, on lists of bytes, and used by both. *)

From S2P Require Import Prelude.
From Stdlib Require Import Ascii.
From stdpp Require Import pretty.
#[local] Open Scope Z_scope.

(** ** Characters *)

Definition code (c : ascii) : Z := Z.of_N (N_of_ascii c).
Definition chr (z : Z) : ascii := ascii_of_N (Z.to_N z).

Definition chars (s : string) : list ascii := String.list_ascii_of_string s.
Definition of_chars (l : list ascii) : string := String.string_of_list_ascii l.

Lemma chars_of_chars l : chars (of_chars l) = l.
Proof. apply String.list_ascii_of_string_of_list_ascii. Qed.

Lemma of_chars_chars s : of_chars (chars s) = s.
Proof. apply String.string_of_list_ascii_of_string. Qed.

Lemma chars_inj s1 s2 : chars s1 = chars s2 -> s1 = s2.
Proof. intros H. by rewrite <- (of_chars_chars s1), H, of_chars_chars. Qed.

Lemma chars_append s1 s2 : chars (String.append s1 s2) = chars s1 ++ chars s2.
Proof. unfold chars. induction s1 as [|a s1 IH]; [done|].
  change (String.append (String a s1) s2) with (String a (String.append s1 s2)). cbn. by rewrite IH. Qed.

(** [std::to_string] of an unsigned number. *)
Definition decimal (z : Z) : string := pretty (Z.to_N z).

(** ** Sixteen bytes and their text *)

Module Uuid.

(** The range of the C++ type [std::array<uint8_t, 16>]. *)
Definition wf (bytes : list Z) : Prop :=
  length bytes = 16%nat /\ Forall (fun b => 0 <= b < 256) bytes.

Definition nil : list Z := replicate 16 0.

(** The lambda [hex_val] of [from_string]; [-1] marks a character that is no
    hexadecimal digit. *)
Definition hex_val (c : ascii) : Z :=
  let z := code c in
  if (code "0" <=? z) && (z <=? code "9") then z - code "0"
  else if (code "a" <=? z) && (z <=? code "f") then z - code "a" + 10
  else if (code "A" <=? z) && (z <=? code "F") then z - code "A" + 10
  else -1.

(** A hexadecimal digit as [std::hex] prints it. *)
Definition hex_digit (d : Z) : ascii :=
  if d <? 10 then chr (code "0" + d) else chr (code "a" + d - 10).

Definition high_nibble (b : Z) : Z := Z.shiftr b 4.
Definition low_nibble (b : Z) : Z := Z.land b 15.

(** [std::setw(2)] with fill ['0'] on a byte. *)
Definition hex2 (b : Z) : list ascii := [hex_digit (high_nibble b); hex_digit (low_nibble b)].

Definition dash_at (i : nat) : bool := ((i =? 8) || (i =? 13) || (i =? 18) || (i =? 23))%nat.

(** One turn of the parsing loop: two digits make a byte. *)
Definition parse_pair (hi lo : Z) : option Z :=
  if (hi <? 0) || (lo <? 0) then None else Some (wrap 8 (Z.lor (Z.shiftl hi 4) lo)).

Definition char_at (sv : list ascii) (i : nat) : ascii := default zero (sv !! i).

(** [for (i = 0; i < 36;)] with its two exits; [fuel] bounds the turns. *)
Fixpoint parse_loop (fuel i : nat) (sv : list ascii) : option (list Z) :=
  match fuel with
  | O => None
  | S fuel =>
      if (36 <=? i)%nat then Some []
      else if dash_at i then parse_loop fuel (i + 1) sv
      else
        match parse_pair (hex_val (char_at sv i)) (hex_val (char_at sv (i + 1))) with
        | None => None
        | Some b =>
            match parse_loop fuel (i + 2) sv with
            | Some bs => Some (b :: bs)
            | None => None
            end
        end
  end.

Definition from_chars (sv : list ascii) : option (list Z) :=
  if negb (length sv =? 36)%nat then None
  else if negb (Ascii.eqb (char_at sv 8) "-" && Ascii.eqb (char_at sv 13) "-"
                && Ascii.eqb (char_at sv 18) "-" && Ascii.eqb (char_at sv 23) "-")
  then None
  else parse_loop 21 0 sv.

Definition from_string (s : string) : option (list Z) := from_chars (chars s).

Definition print_dash (i : nat) : list ascii :=
  if ((i =? 4) || (i =? 6) || (i =? 8) || (i =? 10))%nat then ["-"%char] else [].

Fixpoint print_loop (i : nat) (bytes : list Z) : list ascii :=
  match bytes with
  | [] => []
  | b :: bs => print_dash i ++ hex2 b ++ print_loop (i + 1) bs
  end.

Definition to_string (bytes : list Z) : string := of_chars (print_loop 0 bytes).

Definition is_nil (bytes : list Z) : bool := bool_decide (bytes = nil).

(** [generate_v7]: the clock in milliseconds and the ten bytes of [RAND_bytes]
    are its inputs. *)
Definition generate_v7 (now_ms : Z) (rand_bytes : list Z) : list Z :=
  let r i := default 0 (rand_bytes !! i) in
  [ Z.land (Z.shiftr (u64 now_ms) 40) 255; Z.land (Z.shiftr (u64 now_ms) 32) 255;
    Z.land (Z.shiftr (u64 now_ms) 24) 255; Z.land (Z.shiftr (u64 now_ms) 16) 255;
    Z.land (Z.shiftr (u64 now_ms) 8) 255; Z.land (u64 now_ms) 255;
    Z.lor 112 (Z.land (r 0%nat) 15); r 1%nat;
    Z.lor 128 (Z.land (r 2%nat) 63);
    r 3%nat; r 4%nat; r 5%nat; r 6%nat; r 7%nat; r 8%nat; r 9%nat ].

(** *** Digits *)

(** All bytes, to check a fact about a byte by evaluation. *)
Definition all_bytes : list Z := Z.of_nat <$> seq 0 256.

Lemma byte_check (P : Z -> bool) :
  forallb P all_bytes = true -> forall b, 0 <= b < 256 -> P b = true.
Proof.
  intros HP b Hb. rewrite forallb_forall in HP. apply HP.
  apply list_elem_of_In, list_elem_of_fmap. exists (Z.to_nat b). split; [lia|].
  apply elem_of_seq. lia.
Qed.

Lemma parse_pair_hex2 b :
  0 <= b < 256 ->
  parse_pair (hex_val (hex_digit (high_nibble b))) (hex_val (hex_digit (low_nibble b))) = Some b.
Proof.
  intros Hb.
  assert (H : bool_decide (parse_pair (hex_val (hex_digit (high_nibble b)))
                             (hex_val (hex_digit (low_nibble b))) = Some b) = true).
  { revert b Hb. apply byte_check. vm_compute. reflexivity. }
  by apply bool_decide_eq_true in H.
Qed.

#[global] Arguments hex_val : simpl never.
#[global] Arguments hex_digit : simpl never.
#[global] Arguments parse_pair : simpl never.
#[global] Arguments high_nibble : simpl never.
#[global] Arguments low_nibble : simpl never.

Lemma wf_split bytes :
  wf bytes ->
  exists b0 b1 b2 b3 b4 b5 b6 b7 b8 b9 b10 b11 b12 b13 b14 b15,
    bytes = [b0; b1; b2; b3; b4; b5; b6; b7; b8; b9; b10; b11; b12; b13; b14; b15] /\
    Forall (fun b => 0 <= b < 256) bytes.
Proof.
  intros [Hlen Hall]. do 16 (destruct bytes as [|? bytes]; [done|]).
  destruct bytes; [|done]. naive_solver.
Qed.

Lemma from_to_string bytes : wf bytes -> from_string (to_string bytes) = Some bytes.
Proof.
  intros Hwf. unfold from_string, to_string. rewrite chars_of_chars.
  apply wf_split in Hwf as (b0&b1&b2&b3&b4&b5&b6&b7&b8&b9&b10&b11&b12&b13&b14&b15&->&Hall).
  repeat (apply Forall_cons in Hall as [? Hall]).
  unfold from_chars. cbn. rewrite !parse_pair_hex2 by done. done.
Qed.

Lemma to_string_inj a b : wf a -> wf b -> to_string a = to_string b -> a = b.
Proof.
  intros Ha Hb H. apply (f_equal from_string) in H.
  rewrite !from_to_string in H by done. congruence.
Qed.

(** *** Parsing accepts either case and prints lower case *)

Definition lower (c : ascii) : ascii :=
  if (code "A" <=? code c) && (code c <=? code "Z") then chr (code c + 32) else c.

Definition ascii_check (P : ascii -> bool) : bool := forallb P (chr <$> all_bytes).

Lemma ascii_check_sound P : ascii_check P = true -> forall c, P c = true.
Proof.
  intros HP c. unfold ascii_check in HP. rewrite forallb_forall in HP. apply HP.
  apply list_elem_of_In, list_elem_of_fmap. exists (code c). split.
  { unfold chr, code. by rewrite N2Z.id, ascii_N_embedding. }
  apply list_elem_of_fmap. exists (Z.to_nat (code c)).
  pose proof (N_ascii_bounded c) as Hb. unfold code in *. split; [lia|]. apply elem_of_seq. lia.
Qed.

Lemma hex_val_digit c :
  0 <= hex_val c -> hex_val c < 16 /\ hex_digit (hex_val c) = lower c.
Proof.
  intros Hc.
  assert (H : (hex_val c <? 0) || ((hex_val c <? 16) && Ascii.eqb (hex_digit (hex_val c)) (lower c)) = true)
    by (clear Hc; revert c; apply ascii_check_sound; vm_compute; reflexivity).
  apply orb_true_iff in H as [H|H]; bool_to_prop; [lia|]. by rewrite <- Ascii.eqb_eq.
Qed.

Definition nibbles : list Z := Z.of_nat <$> seq 0 16.

Lemma nibble_pair h l :
  0 <= h < 16 -> 0 <= l < 16 ->
  let b := wrap 8 (Z.lor (Z.shiftl h 4) l) in
  0 <= b < 256 /\ high_nibble b = h /\ low_nibble b = l.
Proof.
  intros Hh Hl.
  assert (Hin : forall z, 0 <= z < 16 -> In z nibbles).
  { intros z Hz. apply list_elem_of_In, list_elem_of_fmap. exists (Z.to_nat z). split; [lia|].
    apply elem_of_seq. lia. }
  assert (H : forallb (fun h => forallb (fun l =>
            let b := wrap 8 (Z.lor (Z.shiftl h 4) l) in
            (0 <=? b) && (b <? 256) && (high_nibble b =? h) && (low_nibble b =? l)) nibbles) nibbles = true)
    by (vm_compute; reflexivity).
  rewrite forallb_forall in H. specialize (H h (Hin h Hh)). rewrite forallb_forall in H.
  specialize (H l (Hin l Hl)). cbn zeta in *. bool_to_prop. lia.
Qed.

Lemma parse_pair_inv c d b :
  parse_pair (hex_val c) (hex_val d) = Some b -> 0 <= b < 256 /\ hex2 b = [lower c; lower d].
Proof.
  unfold parse_pair. destruct ((hex_val c <? 0) || (hex_val d <? 0)) eqn:Hneg; [done|].
  intros [= <-]. bool_to_prop.
  destruct (hex_val_digit c) as [? Hc]; [lia|]. destruct (hex_val_digit d) as [? Hd]; [lia|].
  destruct (nibble_pair (hex_val c) (hex_val d)) as (Hb & Hh & Hl); [lia..|].
  split; [done|]. unfold hex2. by rewrite Hh, Hl, Hc, Hd.
Qed.

Lemma from_chars_inv sv bytes :
  from_chars sv = Some bytes -> wf bytes /\ print_loop 0 bytes = lower <$> sv.
Proof.
  unfold from_chars. destruct (Nat.eqb_spec (length sv) 36) as [Hlen|]; cbn [negb]; [|done].
  do 36 (destruct sv as [|? sv]; [done|]). destruct sv; [clear Hlen|done].
  unfold char_at. cbn [lookup list_lookup default].
  match goal with |- context [if ?t then None else _] => destruct t eqn:Hdash; [done|] end.
  bool_to_prop. repeat match goal with H : Ascii.eqb _ _ = true |- _ => apply Ascii.eqb_eq in H; cbn in H; subst end.
  cbn. intros Hparse.
  repeat match type of Hparse with
  | context [parse_pair (hex_val ?c) (hex_val ?d)] =>
      destruct (parse_pair (hex_val c) (hex_val d)) as [?b|] eqn:?Hp; [|done]
  end.
  injection Hparse as <-.
  repeat match goal with
  | Hp : parse_pair _ _ = Some _ |- _ => apply parse_pair_inv in Hp as [? Hp]
  end.
  split; [split; [done|]; by repeat (apply Forall_cons; split; [done|])|].
  cbn [print_loop print_dash Nat.add Nat.eqb orb app].
  repeat match goal with Hp : hex2 _ = _ |- _ => rewrite Hp; clear Hp end. done.
Qed.

(** *** Acceptance *)

(** The character test of [UserId::is_valid_format]. *)
Definition is_hex (c : ascii) : bool :=
  let z := code c in
  ((code "0" <=? z) && (z <=? code "9")) || ((code "a" <=? z) && (z <=? code "f"))
  || ((code "A" <=? z) && (z <=? code "F")).

Definition is_valid_chars (sv : list ascii) : bool :=
  if negb (length sv =? 36)%nat then false
  else if negb (Ascii.eqb (char_at sv 8) "-" && Ascii.eqb (char_at sv 13) "-"
                && Ascii.eqb (char_at sv 18) "-" && Ascii.eqb (char_at sv 23) "-")
  then false
  else forallb (fun i => dash_at i || is_hex (char_at sv i)) (seq 0 36).

Lemma is_hex_hex_val c : is_hex c = (0 <=? hex_val c).
Proof.
  apply Bool.eqb_true_iff. revert c. apply (ascii_check_sound (fun c => Bool.eqb (is_hex c) (0 <=? hex_val c))).
  vm_compute. reflexivity.
Qed.

Lemma parse_pair_is_hex c d :
  match parse_pair (hex_val c) (hex_val d) with
  | Some _ => is_hex c = true /\ is_hex d = true
  | None => is_hex c && is_hex d = false
  end.
Proof.
  rewrite !is_hex_hex_val. unfold parse_pair. rewrite !Z.leb_antisym.
  by destruct (hex_val c <? 0), (hex_val d <? 0).
Qed.

Lemma is_valid_chars_from_chars sv : is_valid_chars sv = bool_decide (is_Some (from_chars sv)).
Proof.
  unfold is_valid_chars, from_chars.
  destruct (Nat.eqb_spec (length sv) 36) as [Hlen|]; cbn [negb]; [|done].
  do 36 (destruct sv as [|? sv]; [done|]). destruct sv; [clear Hlen|done].
  unfold char_at. cbn [lookup list_lookup default].
  match goal with |- context [if ?t then None else _] => destruct t; [done|] end.
  cbn -[is_hex].
  repeat match goal with
  | |- context [parse_pair (hex_val ?c) (hex_val ?d)] =>
      pose proof (parse_pair_is_hex c d) as Hp;
      destruct (parse_pair (hex_val c) (hex_val d));
      [destruct Hp as [-> ->]; cbn -[is_hex]
      |rewrite bool_decide_eq_false_2 by (by intros [??]);
       apply andb_false_iff in Hp as [Hp|Hp]; rewrite Hp, ?andb_false_r; done]
  end.
  done.
Qed.

(** *** The UUIDv7 layout *)

(** [std::array]'s [operator<]: lexicographic on the bytes. *)
Fixpoint bytes_ltb (a b : list Z) : bool :=
  match a, b with
  | x :: a, y :: b => if x <? y then true else if y <? x then false else bytes_ltb a b
  | [], _ :: _ => true
  | _, [] => false
  end.

(** The number a big-endian byte string spells. *)
Fixpoint be (l : list Z) : Z :=
  match l with
  | [] => 0
  | b :: l => b * 256 ^ Z.of_nat (length l) + be l
  end.

Definition is_byte (b : Z) : Prop := 0 <= b < 256.

Lemma be_bound l : Forall is_byte l -> 0 <= be l < 256 ^ Z.of_nat (length l).
Proof.
  induction 1 as [|b l Hb _ IH]; [done|]. cbn [be length].
  rewrite Nat2Z.inj_succ, Z.pow_succ_r by lia. unfold is_byte in Hb. nia.
Qed.

Lemma be_lt_bytes_ltb l1 l2 t1 t2 :
  Forall is_byte l1 -> Forall is_byte l2 -> length l1 = length l2 ->
  be l1 < be l2 -> bytes_ltb (l1 ++ t1) (l2 ++ t2) = true.
Proof.
  intros H1. revert l2. induction H1 as [|x l1 Hx H1 IH]; intros [|y l2] H2 Hlen Hlt; try done.
  apply Forall_cons in H2 as [Hy H2]. cbn [be app bytes_ltb length] in *. injection Hlen as Hlen.
  rewrite Hlen in Hlt. pose proof (be_bound l1 H1) as B1. pose proof (be_bound l2 H2) as B2.
  rewrite Hlen in B1.
  destruct (Z.ltb_spec x y); [done|]. destruct (Z.ltb_spec y x); [exfalso; nia|].
  apply IH; auto. nia.
Qed.

Lemma land_255 z : Z.land z 255 = z mod 256.
Proof. change 255 with (Z.ones 8). by rewrite Z.land_ones. Qed.

(** The six leading bytes are the clock, kept to forty-eight bits. *)
Lemma generate_v7_prefix now_ms rnd :
  exists pre suf, generate_v7 now_ms rnd = pre ++ suf /\ length pre = 6%nat /\
    Forall is_byte pre /\ be pre = now_ms mod 2 ^ 48.
Proof.
  eexists [_; _; _; _; _; _], _. split; [reflexivity|]. split; [done|].
  rewrite !land_255, !Z.shiftr_div_pow2 by lia. unfold u64, wrap. split.
  - repeat (constructor; [unfold is_byte; apply Z.mod_pos_bound; lia|]). constructor.
  - cbn [be length]. change (2 ^ 64) with 18446744073709551616.
    change (2 ^ 40) with 1099511627776. change (2 ^ 32) with 4294967296.
    change (2 ^ 24) with 16777216. change (2 ^ 16) with 65536. change (2 ^ 8) with 256.
    change (2 ^ 48) with 281474976710656. cbn.
    Z.to_euclidean_division_equations. lia.
Qed.

Lemma generate_v7_wf now_ms rnd :
  length rnd = 10%nat -> Forall is_byte rnd -> wf (generate_v7 now_ms rnd).
Proof.
  intros Hlen Hall. do 10 (destruct rnd as [|? rnd]; [done|]).
  repeat (apply Forall_cons in Hall as [? Hall]). split; [done|].
  unfold generate_v7, default. cbn [lookup list_lookup id].
  assert (Hv : forall r, is_byte r -> is_byte (Z.lor 112 (Z.land r 15)) /\ is_byte (Z.lor 128 (Z.land r 63))).
  { intros r Hr.
    assert (Hchk : let P b := (0 <=? b) && (b <? 256) in
                P (Z.lor 112 (Z.land r 15)) && P (Z.lor 128 (Z.land r 63)) = true)
      by (clear - Hr; revert r Hr; apply (byte_check (fun r =>
                let P b := (0 <=? b) && (b <? 256) in
                P (Z.lor 112 (Z.land r 15)) && P (Z.lor 128 (Z.land r 63)))); vm_compute; reflexivity).
    cbn zeta in Hchk. unfold is_byte. bool_to_prop. lia. }
  rewrite !land_255.
  repeat (constructor; [first [done | apply Z.mod_pos_bound; lia | by apply Hv]|]). constructor.
Qed.
Lemma version_variant rnd :
  Forall is_byte rnd ->
  high_nibble (Z.lor 112 (Z.land (default 0 (rnd !! 0%nat)) 15)) = 7 /\
  Z.shiftr (Z.lor 128 (Z.land (default 0 (rnd !! 2%nat)) 63)) 6 = 2.
Proof.
  intros Hall.
  assert (Hd : forall i, is_byte (default 0 (rnd !! i))).
  { intros i. destruct (rnd !! i) eqn:Hi; cbn; [|unfold is_byte; lia].
    by eapply Forall_lookup_1 in Hi. }
  assert (Hchk : forall b, is_byte b ->
            (high_nibble (Z.lor 112 (Z.land b 15)) =? 7) && (Z.shiftr (Z.lor 128 (Z.land b 63)) 6 =? 2) = true).
  { apply (byte_check (fun b => (high_nibble (Z.lor 112 (Z.land b 15)) =? 7)
                                && (Z.shiftr (Z.lor 128 (Z.land b 63)) 6 =? 2))).
    vm_compute. reflexivity. }
  pose proof (Hchk _ (Hd 0%nat)). pose proof (Hchk _ (Hd 2%nat)). bool_to_prop. done.
Qed.

(** The text form of an identifier and its parser are inverse: what
    [to_string] prints, [from_string] reads back; whatever [from_string] accepts
    are sixteen bytes whose text form is the input in lower case; and the
    validator of user ids accepts exactly what the parser accepts. *)
Theorem uuid_text_roundtrip :
  (forall bytes, wf bytes -> from_string (to_string bytes) = Some bytes) /\
  (forall s bytes, from_string s = Some bytes ->
     wf bytes /\ chars (to_string bytes) = lower <$> chars s) /\
  (forall s, is_valid_chars (chars s) = true <-> is_Some (from_string s)).
Proof.
  split; [exact from_to_string|]. split.
  - intros s bytes Hs. apply from_chars_inv in Hs as [Hwf Hp]. split; [done|].
    unfold to_string. by rewrite chars_of_chars.
  - intros s. rewrite is_valid_chars_from_chars. apply bool_decide_eq_true.
Qed.

(** A generated identifier is a well-formed version 7, variant 10 UUID whose
    leading 48 bits are the clock in milliseconds, so identifiers generated at
    different milliseconds compare, as arrays, in the order of their clocks. *)
Theorem generate_v7_layout_and_order (now_ms : Z) (rnd : list Z)
    (Hlen : length rnd = 10%nat) (Hrnd : Forall is_byte rnd) (Hnow : 0 <= now_ms < 2 ^ 48) :
  let id := generate_v7 now_ms rnd in
  wf id /\ be (take 6 id) = now_ms /\
  (exists b, id !! 6%nat = Some b /\ high_nibble b = 7) /\
  (exists b, id !! 8%nat = Some b /\ Z.shiftr b 6 = 2) /\
  (forall later rnd', now_ms < later < 2 ^ 48 -> bytes_ltb id (generate_v7 later rnd') = true).
Proof.
  cbn zeta. split; [by apply generate_v7_wf|].
  destruct (generate_v7_prefix now_ms rnd) as (pre & suf & Heq & Hpre & Hb & Hbe).
  rewrite Z.mod_small in Hbe by done. split.
  { rewrite Heq, <- Hpre, take_app_length. done. }
  pose proof (version_variant rnd Hrnd) as [Hver Hvar].
  split; [eexists; split; [reflexivity|apply Hver]|].
  split; [eexists; split; [reflexivity|apply Hvar]|].
  intros later rnd' Hlater.
  destruct (generate_v7_prefix later rnd') as (pre' & suf' & -> & Hpre' & Hb' & Hbe').
  rewrite Z.mod_small in Hbe' by lia. rewrite Heq.
  apply be_lt_bytes_ltb; [done..|congruence|lia].
Qed.

Lemma generate_v7_layout_and_order_witness :
  bytes_ltb (generate_v7 1700000000000 (replicate 10 255)) (generate_v7 1700000000001 (replicate 10 0))
  = true.
Proof.
  apply (generate_v7_layout_and_order 1700000000000 (replicate 10 255)).
  - reflexivity.
  - repeat constructor; lia.
  - lia.
  - lia.
Defined.

End Uuid.

(** ** Strongly typed identifiers *)

(** [class DeviceId] wraps a string. *)
Record DeviceId := mkDeviceId { device_str : string }.
(** [class UserId] wraps a string; [from_string] admits the UUID text form only,
    the constructor admits any string. *)
Record UserId := mkUserId { user_str : string }.
(** [class MessageId] and [class ConversationId] wrap sixteen bytes. *)
Record MessageId := mkMessageId { message_bytes : list Z }.
Record ConversationId := mkConversationId { conversation_bytes : list Z }.

#[export] Instance DeviceId_eq_dec : EqDecision DeviceId.
Proof. solve_decision. Defined.
#[export] Instance UserId_eq_dec : EqDecision UserId.
Proof. solve_decision. Defined.
#[export] Instance MessageId_eq_dec : EqDecision MessageId.
Proof. solve_decision. Defined.
#[export] Instance ConversationId_eq_dec : EqDecision ConversationId.
Proof. solve_decision. Defined.
#[export] Program Instance DeviceId_countable : Countable DeviceId :=
  inj_countable' device_str mkDeviceId _.
Next Obligation. by intros []. Qed.
#[export] Program Instance UserId_countable : Countable UserId :=
  inj_countable' user_str mkUserId _.
Next Obligation. by intros []. Qed.
#[export] Program Instance MessageId_countable : Countable MessageId :=
  inj_countable' message_bytes mkMessageId _.
Next Obligation. by intros []. Qed.
#[export] Program Instance ConversationId_countable : Countable ConversationId :=
  inj_countable' conversation_bytes mkConversationId _.
Next Obligation. by intros []. Qed.

Definition DeviceId_empty (d : DeviceId) : bool := bool_decide (device_str d = EmptyString).
Definition UserId_empty (u : UserId) : bool := bool_decide (user_str u = EmptyString).

Definition is_valid_format (s : string) : bool := Uuid.is_valid_chars (chars s).

Definition UserId_from_string (s : string) : option UserId :=
  if negb (is_valid_format s) then None else Some (mkUserId s).

Definition MessageId_from_string (s : string) : option MessageId :=
  mkMessageId <$> Uuid.from_string s.
Definition MessageId_to_string (m : MessageId) : string := Uuid.to_string (message_bytes m).
Definition ConversationId_from_string (s : string) : option ConversationId :=
  mkConversationId <$> Uuid.from_string s.
Definition ConversationId_to_string (c : ConversationId) : string :=
  Uuid.to_string (conversation_bytes c).

(** ** [DirectPair] *)

Record DirectPair := mkDirectPair { user_a : UserId; user_b : UserId }.

#[export] Instance DirectPair_eq_dec : EqDecision DirectPair.
Proof. solve_decision. Defined.
#[export] Program Instance DirectPair_countable : Countable DirectPair :=
  inj_countable' (fun p => (user_a p, user_b p)) (fun p => mkDirectPair p.1 p.2) _.
Next Obligation. by intros []. Qed.

(** [std::string]'s [operator<] on the wrapped strings. *)
Definition UserId_ltb (u v : UserId) : bool := String.ltb (user_str u) (user_str v).

(** The constructor; [None] is [std::invalid_argument]. *)
Definition direct_pair (first second : UserId) : option DirectPair :=
  if bool_decide (first = second) then None
  else if UserId_ltb first second then Some (mkDirectPair first second)
  else Some (mkDirectPair second first).

Lemma UserId_ltb_antisym u v : u <> v -> UserId_ltb v u = negb (UserId_ltb u v).
Proof.
  destruct u as [u], v as [v]. intros Hne. unfold UserId_ltb, String.ltb. cbn.
  rewrite (String.compare_antisym v u). destruct (String.compare u v) eqn:Hc; [|done..].
  apply String.compare_eq_iff in Hc. congruence.
Qed.

Lemma direct_pair_sym u v : direct_pair u v = direct_pair v u.
Proof.
  unfold direct_pair. destruct (decide (u = v)) as [->|Hne]; [done|].
  rewrite !bool_decide_eq_false_2 by congruence. rewrite (UserId_ltb_antisym u v) by done.
  by destruct (UserId_ltb u v).
Qed.

(** The canonical pair of a direct conversation: construction fails exactly
    on identical users, otherwise the stored users are ordered, and two
    constructions give the same pair exactly when they name the same two users,
    in either order, so the pair is a key of the unordered pair. *)
Theorem direct_pair_canonical (u v u' v' : UserId) :
  (direct_pair u v = None <-> u = v) /\
  (forall p, direct_pair u v = Some p -> UserId_ltb (user_a p) (user_b p) = true) /\
  (u <> v ->
   (direct_pair u v = direct_pair u' v' <-> (u' = u /\ v' = v) \/ (u' = v /\ v' = u))).
Proof.
  split; [|split].
  - unfold direct_pair. split; [|intros ->; by rewrite bool_decide_eq_true_2].
    split_ifs; naive_solver.
  - intros p. unfold direct_pair. split_ifs; intros [= <-]; [done|]. cbn.
    rewrite UserId_ltb_antisym by done. by apply negb_true_iff.
  - intros Hne. split; [|intros [[-> ->]|[-> ->]]; [done|apply direct_pair_sym]].
    unfold direct_pair. rewrite (bool_decide_eq_false_2 (u = v)) by done.
    split_ifs; naive_solver.
Qed.
