(* ===== verification/Bytes.v ===== *)
(** * Bytes: big-endian integers and length-prefixed strings

    The byte encodings the audit service feeds to SHA-256 and packs into page
    tokens ([audit/domain/event_payload_fingerprint.cpp],
    [audit/query/audit_page_cursor.cpp]), and the lemmas that make them uniquely
    decodable: a field of known width, or a string behind its length, can be split
    off the front of a byte string in one way only. *)

From S2P Require Import Prelude Ids.
From Stdlib Require Import Ascii.

(** ** Characters as bytes *)

Definition bytes_of (s : string) : list Z := code <$> chars s.
Definition str_size (s : string) : Z := Z.of_nat (length (chars s)).
Definition string_of (bytes : list Z) : string := of_chars (chr <$> bytes).

Lemma code_range c : 0 <= code c < 256.
Proof.
  unfold code. pose proof (N_ascii_bounded c). lia.
Qed.

Lemma chr_code c : chr (code c) = c.
Proof. unfold chr, code. rewrite N2Z.id. apply ascii_N_embedding. Qed.

Lemma code_chr z : 0 <= z < 256 -> code (chr z) = z.
Proof. intros Hz. unfold chr, code. rewrite N_ascii_embedding; lia. Qed.

Lemma code_inj c d : code c = code d -> c = d.
Proof. intros H. by rewrite <- (chr_code c), H, chr_code. Qed.

Lemma length_bytes_of s : Z.of_nat (length (bytes_of s)) = str_size s.
Proof. unfold bytes_of, str_size. by rewrite length_fmap. Qed.

Lemma bytes_of_byte s : Forall Uuid.is_byte (bytes_of s).
Proof. apply Forall_fmap, Forall_true. intros c. apply code_range. Qed.

Lemma string_of_bytes_of s : string_of (bytes_of s) = s.
Proof.
  unfold string_of, bytes_of. rewrite <- list_fmap_compose.
  rewrite (list_fmap_ext _ id) by (intros ? c _; apply chr_code).
  by rewrite list_fmap_id, of_chars_chars.
Qed.

Lemma bytes_of_inj s1 s2 : bytes_of s1 = bytes_of s2 -> s1 = s2.
Proof. intros H. by rewrite <- (string_of_bytes_of s1), H, string_of_bytes_of. Qed.

Lemma bytes_of_string_of l : Forall Uuid.is_byte l -> bytes_of (string_of l) = l.
Proof.
  intros Hl. unfold string_of, bytes_of. rewrite chars_of_chars, <- list_fmap_compose.
  rewrite <- (list_fmap_id l) at 2. apply list_fmap_ext. intros i z Hz.
  apply code_chr. eapply (Forall_lookup_1 _ _ _ _ Hl Hz).
Qed.

Lemma str_size_nonneg s : 0 <= str_size s.
Proof. unfold str_size. lia. Qed.

(** ** Big-endian integers *)

(** [n] bytes of [v], the most significant first: the unrolled shifts of
    [update_uint32_be] and [update_int64_be] and the loops of [hash_uint64]. *)
Fixpoint be_bytes (n : nat) (v : Z) : list Z :=
  match n with
  | O => []
  | S n => Z.land (Z.shiftr v (8 * Z.of_nat n)) 255 :: be_bytes n v
  end.

Lemma length_be_bytes n v : length (be_bytes n v) = n.
Proof. induction n as [|n IH]; [done|]. cbn. by rewrite IH. Qed.

Lemma be_bytes_byte n v : Forall Uuid.is_byte (be_bytes n v).
Proof.
  induction n as [|n IH]; constructor; [|done]. rewrite Uuid.land_255.
  apply Z.mod_pos_bound. lia.
Qed.

Lemma be_be_bytes n v : Uuid.be (be_bytes n v) = v mod 2 ^ (8 * Z.of_nat n).
Proof.
  induction n as [|n IH]; [by rewrite Z.mod_1_r|].
  cbn [be_bytes Uuid.be]. rewrite length_be_bytes, IH, Uuid.land_255, Z.shiftr_div_pow2 by lia.
  replace (8 * Z.of_nat (S n)) with (8 * Z.of_nat n + 8) by lia.
  rewrite Z.pow_add_r by lia. change 256 with (2 ^ 8). rewrite <- Z.pow_mul_r by lia.
  rewrite Z.rem_mul_r by lia. lia.
Qed.

Lemma be_bytes_inj n v w :
  be_bytes n v = be_bytes n w -> v mod 2 ^ (8 * Z.of_nat n) = w mod 2 ^ (8 * Z.of_nat n).
Proof. intros H. by rewrite <- !be_be_bytes, H. Qed.

(** ** Splitting fields off the front *)

Lemma app_same_length {A} (a b x y : list A) :
  length a = length b -> a ++ x = b ++ y -> a = b /\ x = y.
Proof. intros Hlen H. by apply app_inj_1 in H. Qed.

Lemma cons_split {A} (a b : A) x y : a :: x = b :: y -> a = b /\ x = y.
Proof. by intros [=]. Qed.

Lemma be_bytes_split n v w x y :
  be_bytes n v ++ x = be_bytes n w ++ y ->
  v mod 2 ^ (8 * Z.of_nat n) = w mod 2 ^ (8 * Z.of_nat n) /\ x = y.
Proof.
  intros H. apply app_same_length in H as [H ->]; [|by rewrite !length_be_bytes].
  split; [by apply be_bytes_inj|done].
Qed.

(** [update_string] and [hash_string]: four bytes of length, then the characters. *)
Definition framed_string (s : string) : list Z := be_bytes 4 (u32 (str_size s)) ++ bytes_of s.

Lemma framed_string_split s t x y :
  in_u32 (str_size s) -> in_u32 (str_size t) ->
  framed_string s ++ x = framed_string t ++ y -> s = t /\ x = y.
Proof.
  intros Hs Ht H. unfold framed_string in H. rewrite <- !app_assoc in H.
  apply be_bytes_split in H as [Hlen H].
  rewrite !u32_small in Hlen by done.
  change (2 ^ (8 * Z.of_nat 4)) with (2 ^ 32) in Hlen. rewrite !Z.mod_small in Hlen by done.
  apply app_same_length in H as [H ->].
  - split; [by apply bytes_of_inj|done].
  - rewrite <- !length_bytes_of in Hlen. lia.
Qed.

#[global] Arguments framed_string : simpl never.
