(* ===== verification/Bucket.v ===== *)
(** * Monthly partition buckets

    Models [src/messaging/domain/message_bucket.cpp]: the [YYYYMM] bucket of a
    message, the key of its partition in the message store. *)

From S2P Require Import Prelude Ids.
From Stdlib Require Import Ascii.

(** ** The value object *)

Record MessageBucket := mkBucket { bucket_value : string; bucket_year : Z; bucket_month : Z }.

#[export] Instance MessageBucket_eq_dec : EqDecision MessageBucket.
Proof. solve_decision. Defined.
#[export] Program Instance MessageBucket_countable : Countable MessageBucket :=
  inj_countable' (fun b => (bucket_value b, bucket_year b, bucket_month b))
                 (fun t => mkBucket t.1.1 t.1.2 t.2) _.
Next Obligation. by intros []. Qed.

(** The default constructor: an uninitialised bucket. *)
Definition empty_bucket : MessageBucket := mkBucket EmptyString 0 0.

Definition digit (d : Z) : ascii := chr (code "0" + d).

(** [std::setw(4)] of a year under 10000 and [std::setw(2)] of a month, fill ['0']. *)
Definition format_year_month (year month : Z) : string :=
  of_chars [digit (year / 1000 mod 10); digit (year / 100 mod 10); digit (year / 10 mod 10);
            digit (year mod 10); digit (month / 10 mod 10); digit (month mod 10)].

Definition from_year_month (year month : Z) : result exn MessageBucket :=
  if (year <? 1970) || (9999 <? year) then Err invalid_argument
  else if (month <? 1) || (12 <? month) then Err invalid_argument
  else Ok (mkBucket (format_year_month year month) year month).

(** ** The calendar [gmtime_r] computes *)

Definition is_leap (y : Z) : bool := (y mod 4 =? 0) && (negb (y mod 100 =? 0) || (y mod 400 =? 0)).

Definition days_in_month (y m : Z) : Z :=
  if m =? 2 then (if is_leap y then 29 else 28)
  else if (m =? 4) || (m =? 6) || (m =? 9) || (m =? 11) then 30 else 31.

Definition next_month (ym : Z * Z) : Z * Z :=
  let (y, m) := ym in if m =? 12 then (y + 1, 1) else (y, m + 1).

(** Walks from month [ym], [d] days after its first, to the month of that day and
    the days since its first. *)
Fixpoint month_walk (fuel : nat) (ym : Z * Z) (d : Z) : Z * Z * Z :=
  match fuel with
  | O => (ym, d)
  | S fuel =>
      if d <? days_in_month ym.1 ym.2 then (ym, d)
      else month_walk fuel (next_month ym) (d - days_in_month ym.1 ym.2)
  end.

(** Year, month and days since its first of a day counted from 1970-01-01; [None]
    before it. A month has at least 28 days, which bounds the walk. *)
Definition utc_date (days : Z) : option (Z * Z * Z) :=
  if days <? 0 then None else Some (month_walk (S (Z.to_nat (days / 28))) (1970, 1) days).

Definition utc_year_month (days : Z) : option (Z * Z) := fst <$> utc_date days.

Definition ns_per_s : Z := 1000000000.

(** [to_time_t] truncates the nanosecond count of the time point to seconds. A
    time before 1970 has a year [from_year_month] refuses. *)
Definition from_time_point (tp : Z) : result exn MessageBucket :=
  let tt := Z.quot tp ns_per_s in
  match utc_year_month (tt / 86400) with
  | None => Err invalid_argument
  | Some (year, month) => from_year_month year month
  end.

(** ** Parsing and stepping *)

Definition is_digit (c : ascii) : bool := negb ((code c <? code "0") || (code "9" <? code c)).
Definition digit_val (c : ascii) : Z := code c - code "0".

Definition bucket_from_string (s : string) : option MessageBucket :=
  match chars s with
  | [c0; c1; c2; c3; c4; c5] =>
      if negb (forallb is_digit [c0; c1; c2; c3; c4; c5]) then None
      else
        let year := digit_val c0 * 1000 + digit_val c1 * 100 + digit_val c2 * 10 + digit_val c3 in
        let month := digit_val c4 * 10 + digit_val c5 in
        if (year <? 1970) || (9999 <? year) || (month <? 1) || (12 <? month) then None
        else Some (mkBucket s year month)
  | _ => None
  end.

Definition bucket_empty (b : MessageBucket) : bool := bool_decide (bucket_value b = EmptyString).

Definition next_bucket (b : MessageBucket) : result exn MessageBucket :=
  if bucket_empty b then Err logic_error
  else
    let m := bucket_month b + 1 in
    if 12 <? m then from_year_month (bucket_year b + 1) 1 else from_year_month (bucket_year b) m.

Definition previous_bucket (b : MessageBucket) : result exn MessageBucket :=
  if bucket_empty b then Err logic_error
  else
    let m := bucket_month b - 1 in
    if m <? 1 then from_year_month (bucket_year b - 1) 12 else from_year_month (bucket_year b) m.

(** ** Well-formed buckets *)

(** What every constructor but the default one establishes. *)
Definition bucket_wf (b : MessageBucket) : Prop :=
  from_year_month (bucket_year b) (bucket_month b) = Ok b.

Lemma from_year_month_ok y m :
  1970 <= y <= 9999 -> 1 <= m <= 12 ->
  from_year_month y m = Ok (mkBucket (format_year_month y m) y m).
Proof.
  intros Hy Hm. unfold from_year_month.
  rewrite (proj2 (Z.ltb_ge y 1970)), (proj2 (Z.ltb_ge 9999 y)),
    (proj2 (Z.ltb_ge m 1)), (proj2 (Z.ltb_ge 12 m)) by lia. done.
Qed.

Lemma from_year_month_inv y m b :
  from_year_month y m = Ok b ->
  1970 <= y <= 9999 /\ 1 <= m <= 12 /\ b = mkBucket (format_year_month y m) y m.
Proof. unfold from_year_month. split_ifs; try done. intros [= <-]. auto with lia. Qed.

Lemma from_year_month_wf y m b : from_year_month y m = Ok b -> bucket_wf b.
Proof. intros H. pose proof H as (_ & _ & ->)%from_year_month_inv. exact H. Qed.

Lemma bucket_wf_inv b :
  bucket_wf b -> 1970 <= bucket_year b <= 9999 /\ 1 <= bucket_month b <= 12 /\
    bucket_value b = format_year_month (bucket_year b) (bucket_month b).
Proof. intros (? & ? & Hb)%from_year_month_inv. rewrite Hb at 5. auto. Qed.

Lemma bucket_wf_nonempty b : bucket_wf b -> bucket_empty b = false.
Proof.
  intros (_ & _ & Hv)%bucket_wf_inv. unfold bucket_empty. by rewrite Hv, bool_decide_eq_false_2.
Qed.

Lemma bucket_wf_eq b1 b2 :
  bucket_wf b1 -> bucket_wf b2 -> bucket_year b1 = bucket_year b2 ->
  bucket_month b1 = bucket_month b2 -> b1 = b2.
Proof. unfold bucket_wf. intros H1 H2 Hy Hm. rewrite Hy, Hm in H1. congruence. Qed.

(** ** Digits *)

Definition is_dec (d : Z) : Prop := 0 <= d < 10.

Lemma code_digit d : is_dec d -> code (digit d) = 48 + d.
Proof.
  intros Hd. unfold is_dec, digit in *. change (code "0") with 48. unfold code, chr.
  rewrite N_ascii_embedding; lia.
Qed.

Lemma digit_val_digit d : is_dec d -> digit_val (digit d) = d.
Proof. intros Hd. unfold digit_val. rewrite code_digit by done. change (code "0") with 48. lia. Qed.

Lemma is_digit_digit d : is_dec d -> is_digit (digit d) = true.
Proof.
  intros Hd. unfold is_digit. rewrite code_digit by done. unfold is_dec in Hd.
  change (code "0") with 48. change (code "9") with 57. rewrite (proj2 (Z.ltb_ge _ _)), (proj2 (Z.ltb_ge _ _)) by lia. done.
Qed.

Lemma digit_digit_val c : is_digit c = true -> is_dec (digit_val c) /\ digit (digit_val c) = c.
Proof.
  unfold is_digit, digit_val, digit, is_dec. change (code "0") with 48. change (code "9") with 57.
  intros H. bool_to_prop. split; [lia|].
  replace (48 + (code c - 48)) with (code c) by lia. unfold chr, code.
  by rewrite N2Z.id, ascii_N_embedding.
Qed.

Lemma is_dec_mod z : is_dec (z mod 10).
Proof. by apply Z.mod_pos_bound. Qed.
#[local] Hint Resolve is_dec_mod : sc.

(** The number a list of decimal digits spells. *)
Fixpoint dec (l : list Z) : Z :=
  match l with
  | [] => 0
  | d :: l => d * 10 ^ Z.of_nat (length l) + dec l
  end.

Lemma dec_bound l : Forall is_dec l -> 0 <= dec l < 10 ^ Z.of_nat (length l).
Proof.
  induction 1 as [|d l Hd _ IH]; [done|]. cbn [dec length].
  rewrite Nat2Z.inj_succ, Z.pow_succ_r by lia. unfold is_dec in Hd. nia.
Qed.

(** Digit strings of one length compare as the numbers they spell. *)
Lemma compare_digits l1 l2 :
  Forall is_dec l1 -> Forall is_dec l2 -> length l1 = length l2 ->
  String.compare (of_chars (digit <$> l1)) (of_chars (digit <$> l2)) = Z.compare (dec l1) (dec l2).
Proof.
  intros H1. revert l2. induction H1 as [|x l1 Hx H1 IH]; intros [|y l2] H2 Hlen; try done.
  apply Forall_cons in H2 as [Hy H2]. injection Hlen as Hlen.
  pose proof (dec_bound l1 H1) as B1. pose proof (dec_bound l2 H2) as B2.
  cbn [fmap list_fmap of_chars String.string_of_list_ascii String.compare dec]. unfold Ascii.compare.
  pose proof (code_digit x Hx) as Cx. pose proof (code_digit y Hy) as Cy. unfold code in Cx, Cy.
  rewrite Hlen in *. rewrite <- N2Z.inj_compare, Cx, Cy. fold (of_chars (digit <$> l1)).
  unfold of_chars in IH. rewrite IH by done.
  destruct (Z.compare_spec (48 + x) (48 + y)); symmetry.
  - assert (x = y) as -> by lia. destruct (Z.compare_spec (dec l1) (dec l2)).
    + apply Z.compare_eq_iff. lia.
    + apply Z.compare_lt_iff. lia.
    + apply Z.compare_gt_iff. lia.
  - apply Z.compare_lt_iff. nia.
  - apply Z.compare_gt_iff. nia.
Qed.

Definition year_month_digits (y m : Z) : list Z :=
  [y / 1000 mod 10; y / 100 mod 10; y / 10 mod 10; y mod 10; m / 10 mod 10; m mod 10].

Lemma year_month_digits_dec y m :
  0 <= y <= 9999 -> 0 <= m <= 99 ->
  Forall is_dec (year_month_digits y m) /\ dec (year_month_digits y m) = 100 * y + m.
Proof.
  intros Hy Hm. split.
  - unfold year_month_digits. repeat (constructor; [auto with sc|]). constructor.
  - cbn. Z.to_euclidean_division_equations. lia.
Qed.

Lemma bucket_compare b1 b2 :
  bucket_wf b1 -> bucket_wf b2 ->
  String.compare (bucket_value b1) (bucket_value b2)
  = Z.compare (12 * bucket_year b1 + bucket_month b1) (12 * bucket_year b2 + bucket_month b2).
Proof.
  intros (Hy1 & Hm1 & ->)%bucket_wf_inv (Hy2 & Hm2 & ->)%bucket_wf_inv.
  destruct (year_month_digits_dec (bucket_year b1) (bucket_month b1)) as [F1 D1]; [lia..|].
  destruct (year_month_digits_dec (bucket_year b2) (bucket_month b2)) as [F2 D2]; [lia..|].
  pose proof (compare_digits _ _ F1 F2 eq_refl) as Hc. rewrite D1, D2 in Hc.
  unfold format_year_month, year_month_digits in *. cbn [fmap list_fmap] in Hc. rewrite Hc.
  destruct (Z.compare_spec (100 * bucket_year b1 + bucket_month b1)
                           (100 * bucket_year b2 + bucket_month b2)); symmetry.
  - apply Z.compare_eq_iff. lia.
  - apply Z.compare_lt_iff. lia.
  - apply Z.compare_gt_iff. lia.
Qed.

(** ** Text round trip *)

Lemma bucket_from_to_string b : bucket_wf b -> bucket_from_string (bucket_value b) = Some b.
Proof.
  intros Hwf. pose proof Hwf as (Hy & Hm & Hv)%bucket_wf_inv. unfold bucket_from_string.
  rewrite Hv. unfold format_year_month. rewrite chars_of_chars. cbn [forallb].
  rewrite !is_digit_digit, !digit_val_digit by auto with sc. cbn [negb andb].
  match goal with |- (if (?y <? _) || _ || (?m <? _) || _ then _ else _) = _ =>
    replace y with (bucket_year b) by (Z.to_euclidean_division_equations; lia);
    replace m with (bucket_month b) by (Z.to_euclidean_division_equations; lia) end.
  rewrite (proj2 (Z.ltb_ge _ _)), (proj2 (Z.ltb_ge _ _)), (proj2 (Z.ltb_ge _ _)),
    (proj2 (Z.ltb_ge _ _)) by lia. cbn [orb].
  f_equal. unfold bucket_wf in Hwf. rewrite from_year_month_ok in Hwf by done.
  injection Hwf as Hwf. exact Hwf.
Qed.

Lemma format_digits d0 d1 d2 d3 d4 d5 :
  is_dec d0 -> is_dec d1 -> is_dec d2 -> is_dec d3 -> is_dec d4 -> is_dec d5 ->
  format_year_month (d0 * 1000 + d1 * 100 + d2 * 10 + d3) (d4 * 10 + d5)
  = of_chars [digit d0; digit d1; digit d2; digit d3; digit d4; digit d5].
Proof.
  unfold is_dec, format_year_month. intros.
  set (y := d0 * 1000 + d1 * 100 + d2 * 10 + d3). set (m := d4 * 10 + d5).
  replace (y / 1000 mod 10) with d0 by (unfold y; Z.to_euclidean_division_equations; lia).
  replace (y / 100 mod 10) with d1 by (unfold y; Z.to_euclidean_division_equations; lia).
  replace (y / 10 mod 10) with d2 by (unfold y; Z.to_euclidean_division_equations; lia).
  replace (y mod 10) with d3 by (unfold y; Z.to_euclidean_division_equations; lia).
  replace (m / 10 mod 10) with d4 by (unfold m; Z.to_euclidean_division_equations; lia).
  replace (m mod 10) with d5 by (unfold m; Z.to_euclidean_division_equations; lia).
  done.
Qed.

Lemma bucket_from_string_wf s b : bucket_from_string s = Some b -> bucket_wf b /\ bucket_value b = s.
Proof.
  unfold bucket_from_string. destruct (chars s) as [|c0 [|c1 [|c2 [|c3 [|c4 [|c5 [|]]]]]]] eqn:Hs; try done.
  destruct (forallb _ _) eqn:Hd; cbn [negb]; [|done]. cbn in Hd. bool_to_prop.
  repeat match goal with H : is_digit _ = true |- _ => apply digit_digit_val in H as [? ?] end.
  split_ifs; [done|]. intros [= <-]. split; [|done].
  unfold bucket_wf. cbn. rewrite from_year_month_ok by lia. f_equal. f_equal.
  rewrite format_digits by done. apply chars_inj. rewrite chars_of_chars, Hs. congruence.
Qed.

(** ** The calendar *)

(** The [n]-th month after January 1970, and the day number of its first day. *)
Definition nth_month (n : nat) : Z * Z := (1970 + Z.of_nat n / 12, Z.of_nat n mod 12 + 1).

Fixpoint month_first (n : nat) : Z :=
  match n with
  | O => 0
  | S n => month_first n + days_in_month (nth_month n).1 (nth_month n).2
  end.

Lemma next_nth_month n : next_month (nth_month n) = nth_month (S n).
Proof.
  unfold next_month, nth_month. rewrite Nat2Z.inj_succ.
  destruct (Z.eqb_spec (Z.of_nat n mod 12 + 1) 12); f_equal; Z.to_euclidean_division_equations; lia.
Qed.

Lemma days_in_month_bound y m : 28 <= days_in_month y m <= 31.
Proof. unfold days_in_month. split_ifs; lia. Qed.

Lemma month_first_mono n k : month_first n + 28 * Z.of_nat k <= month_first (n + k).
Proof.
  induction k as [|k IH]; [rewrite Nat.add_0_r; lia|]. rewrite Nat.add_succ_r. cbn [month_first].
  pose proof (days_in_month_bound (nth_month (n + k)).1 (nth_month (n + k)).2). lia.
Qed.

Lemma month_walk_spec fuel n d :
  month_first n <= d -> d - month_first n < 28 * Z.of_nat fuel ->
  exists n', month_walk fuel (nth_month n) (d - month_first n) = (nth_month n', d - month_first n') /\
             month_first n' <= d < month_first (S n').
Proof.
  revert n. induction fuel as [|fuel IH]; intros n Hge Hlt; [lia|]. cbn [month_walk].
  pose proof (days_in_month_bound (nth_month n).1 (nth_month n).2).
  destruct (Z.ltb_spec (d - month_first n) (days_in_month (nth_month n).1 (nth_month n).2)).
  - exists n. split; [done|]. cbn [month_first]. lia.
  - destruct (IH (S n)) as (n' & Hw & Hr); [cbn [month_first]; lia..|]. exists n'. split; [|done].
    rewrite next_nth_month, <- Hw. f_equal. cbn [month_first]. lia.
Qed.

Lemma utc_date_spec d :
  0 <= d -> exists n, utc_date d = Some (nth_month n, d - month_first n) /\ month_first n <= d < month_first (S n).
Proof.
  intros Hd. unfold utc_date. rewrite (proj2 (Z.ltb_ge _ _)) by lia.
  destruct (month_walk_spec (S (Z.to_nat (d / 28))) 0 d) as (n & Hw & Hr); cbn [month_first]; [lia| |].
  - Z.to_euclidean_division_equations. lia.
  - exists n. split; [|done]. cbn [month_first] in Hw. rewrite Z.sub_0_r in Hw. by rewrite <- Hw.
Qed.

Lemma utc_year_month_spec d :
  0 <= d -> exists n, utc_year_month d = Some (nth_month n) /\ month_first n <= d < month_first (S n).
Proof.
  intros Hd. destruct (utc_date_spec d Hd) as (n & Hn & Hr). exists n. unfold utc_year_month. by rewrite Hn.
Qed.

(** The day is in one month only, and later days are in no earlier month. *)
Lemma month_of_day_mono n n' d d' :
  month_first n <= d < month_first (S n) -> month_first n' <= d' < month_first (S n') ->
  d <= d' -> (n <= n')%nat.
Proof.
  intros Hn Hn' Hd. destruct (Nat.le_gt_cases n n') as [|Hgt]; [done|].
  pose proof (month_first_mono (S n') (n - S n')) as Hm.
  replace (S n' + (n - S n'))%nat with n in Hm by lia. lia.
Qed.

Definition day_of (tp : Z) : Z := Z.quot tp ns_per_s / 86400.

Lemma day_of_mono a b : a <= b -> day_of a <= day_of b.
Proof.
  intros H. unfold day_of. apply Z.div_le_mono; [lia|]. unfold ns_per_s. apply Z.quot_le_mono; lia.
Qed.

Lemma from_time_point_month tp b :
  from_time_point tp = Ok b ->
  exists n, (bucket_year b, bucket_month b) = nth_month n /\
            month_first n <= day_of tp < month_first (S n) /\ bucket_wf b.
Proof.
  unfold from_time_point. fold (day_of tp). destruct (Z.ltb_spec (day_of tp) 0).
  - unfold utc_year_month, utc_date. by rewrite (proj2 (Z.ltb_lt _ _)) by lia.
  - destruct (utc_year_month_spec (day_of tp)) as (n & -> & Hr); [done|].
    intros Hb. exists n. pose proof Hb as ?%from_year_month_wf.
    apply from_year_month_inv in Hb as (_ & _ & ->). done.
Qed.

Lemma from_time_point_total tp : 0 <= tp < 2 ^ 63 -> exists b, from_time_point tp = Ok b.
Proof.
  intros Htp. unfold from_time_point. fold (day_of tp).
  assert (Hd : 0 <= day_of tp <= 106752)
    by (unfold day_of, ns_per_s; Z.to_euclidean_division_equations; lia).
  destruct (utc_year_month_spec (day_of tp)) as (n & -> & Hr); [lia|].
  pose proof (month_first_mono 0 n) as Hm. cbn [month_first Nat.add] in Hm.
  eexists. unfold nth_month. apply from_year_month_ok; Z.to_euclidean_division_equations; lia.
Qed.

(** ** Stepping *)

Definition month_no (b : MessageBucket) : Z := 12 * bucket_year b + bucket_month b.

Lemma next_bucket_inv b c :
  bucket_wf b -> next_bucket b = Ok c -> bucket_wf c /\ month_no c = month_no b + 1.
Proof.
  intros Hb. unfold next_bucket. rewrite bucket_wf_nonempty by done.
  apply bucket_wf_inv in Hb as (Hy & Hm & _). unfold month_no.
  split_ifs; intros Hc; pose proof Hc as ?%from_year_month_wf;
    apply from_year_month_inv in Hc as (? & ? & ->); (split; [done|]); cbn; lia.
Qed.

Lemma previous_bucket_inv b c :
  bucket_wf b -> previous_bucket b = Ok c -> bucket_wf c /\ month_no b = month_no c + 1.
Proof.
  intros Hb. unfold previous_bucket. rewrite bucket_wf_nonempty by done.
  apply bucket_wf_inv in Hb as (Hy & Hm & _). unfold month_no.
  split_ifs; intros Hc; pose proof Hc as ?%from_year_month_wf;
    apply from_year_month_inv in Hc as (? & ? & ->); (split; [done|]); cbn; lia.
Qed.

(** Consecutive well-formed buckets are each other's neighbours. *)
Lemma next_previous b c :
  bucket_wf b -> bucket_wf c -> month_no c = month_no b + 1 ->
  next_bucket b = Ok c /\ previous_bucket c = Ok b.
Proof.
  intros Hb Hc Hn. unfold next_bucket, previous_bucket. rewrite !bucket_wf_nonempty by done.
  pose proof Hb as (? & ? & _)%bucket_wf_inv. pose proof Hc as (? & ? & _)%bucket_wf_inv.
  unfold month_no, bucket_wf in *. rewrite <- Hb, <- Hc.
  split; split_ifs; f_equal; lia.
Qed.

Lemma next_bucket_end b :
  bucket_wf b -> next_bucket b = Err invalid_argument <-> month_no b = 12 * 9999 + 12.
Proof.
  intros Hb. unfold next_bucket, month_no. rewrite bucket_wf_nonempty by done.
  apply bucket_wf_inv in Hb as (Hy & Hm & _). unfold from_year_month.
  split_ifs; (split; intros; try done; lia).
Qed.

Lemma previous_bucket_end b :
  bucket_wf b -> previous_bucket b = Err invalid_argument <-> month_no b = 12 * 1970 + 1.
Proof.
  intros Hb. unfold previous_bucket, month_no. rewrite bucket_wf_nonempty by done.
  apply bucket_wf_inv in Hb as (Hy & Hm & _). unfold from_year_month.
  split_ifs; (split; intros; try done; lia).
Qed.

Lemma string_compare_eq s1 s2 : String.compare s1 s2 = Eq <-> s1 = s2.
Proof.
  split; [apply String.compare_eq_iff|intros ->].
  pose proof (String.compare_antisym s2 s2). by destruct (String.compare s2 s2).
Qed.

(** The text determines the month. *)
Lemma bucket_value_is b s y m :
  bucket_wf b -> from_year_month y m = Ok (mkBucket s y m) ->
  bucket_value b = s <-> month_no b = 12 * y + m.
Proof.
  intros Hb Hs. pose proof (from_year_month_wf _ _ _ Hs) as Hwf.
  pose proof (bucket_compare _ _ Hb Hwf) as Hc. cbn in Hc. unfold month_no.
  rewrite <- Z.compare_eq_iff, <- Hc. symmetry. apply string_compare_eq.
Qed.

(** ** Claims *)

(** A bucket and its text are in bijection: parsing the text of a well-formed
    bucket gives the bucket back, and every string the parser accepts is the text
    of the well-formed bucket it returns. *)
Theorem bucket_text_roundtrip :
  (forall b, bucket_wf b -> bucket_from_string (bucket_value b) = Some b) /\
  (forall s b, bucket_from_string s = Some b -> bucket_wf b /\ bucket_value b = s).
Proof. split; [exact bucket_from_to_string|exact bucket_from_string_wf]. Qed.

(** The partition of a message follows its time.  Every time from 1970 to the
    end of the 64-bit nanosecond clock has a bucket; the bucket is the calendar
    month whose days contain the time; and of two times the later one is in the
    same bucket or in one whose text sorts strictly after. *)
Theorem bucket_of_time (tp : Z) (Htp : 0 <= tp < 2 ^ 63) :
  exists b, from_time_point tp = Ok b /\ bucket_wf b /\
    (exists n, (bucket_year b, bucket_month b) = nth_month n /\
               month_first n <= day_of tp < month_first (S n)) /\
    forall tp' b', tp <= tp' -> from_time_point tp' = Ok b' ->
      b' = b \/ String.ltb (bucket_value b) (bucket_value b') = true.
Proof.
  destruct (from_time_point_total tp Htp) as [b Hb]. exists b. split; [done|].
  apply from_time_point_month in Hb as (n & Hym & Hr & Hwf). split; [done|].
  split; [by exists n|]. intros tp' b' Hle (n' & Hym' & Hr' & Hwf')%from_time_point_month.
  pose proof (month_of_day_mono _ _ _ _ Hr Hr' (day_of_mono _ _ Hle)) as Hn.
  injection Hym as Hy Hm. injection Hym' as Hy' Hm'.
  destruct (decide (n = n')) as [<-|Hne]; [left; apply bucket_wf_eq; congruence|right].
  unfold String.ltb. rewrite bucket_compare by done.
  rewrite (proj2 (Z.compare_lt_iff _ _)); [done|]. rewrite Hy, Hm, Hy', Hm'.
  Z.to_euclidean_division_equations. lia.
Qed.

Lemma bucket_of_time_witness :
  exists b, from_time_point 1700000000000000000 = Ok b /\ bucket_wf b.
Proof.
  destruct (bucket_of_time 1700000000000000000) as (b & Hb & Hwf & _); [lia|].
  exists b. exact (conj Hb Hwf).
Defined.

(** [next_bucket] and [previous_bucket] are inverse: where stepping forward
    stays in the supported years stepping back returns to the bucket and
    conversely; stepping forward is strictly later in the text order; only the two
    end months have no neighbour. *)
Theorem bucket_steps_inverse (b : MessageBucket) (Hb : bucket_wf b) :
  (forall c, next_bucket b = Ok c -> bucket_wf c /\ previous_bucket c = Ok b /\
     String.ltb (bucket_value b) (bucket_value c) = true) /\
  (forall c, previous_bucket b = Ok c -> bucket_wf c /\ next_bucket c = Ok b) /\
  (next_bucket b = Err invalid_argument <-> bucket_value b = "999912") /\
  (previous_bucket b = Err invalid_argument <-> bucket_value b = "197001").
Proof.
  split_and!.
  - intros c Hc. destruct (next_bucket_inv b c Hb Hc) as (Hwf & Heq).
    split; [done|]. split; [by apply next_previous|]. unfold month_no in Heq.
    unfold String.ltb. rewrite bucket_compare by done. by rewrite (proj2 (Z.compare_lt_iff _ _)) by lia.
  - intros c Hc. destruct (previous_bucket_inv b c Hb Hc) as (Hwf & Heq).
    split; [done|]. by apply next_previous.
  - rewrite (bucket_value_is b "999912" 9999 12 Hb eq_refl). by apply next_bucket_end.
  - rewrite (bucket_value_is b "197001" 1970 1 Hb eq_refl). by apply previous_bucket_end.
Qed.

Lemma bucket_steps_inverse_witness :
  previous_bucket (mkBucket "202601" 2026 1) = Ok (mkBucket "202512" 2025 12).
Proof.
  apply (bucket_steps_inverse (mkBucket "202512" 2025 12)); reflexivity.
Defined.
