(* ===== verification/Prog.v ===== *)
(** * Handlers that share a database

    The services keep their state in PostgreSQL and in a few maps behind mutexes; a
    handler is a sequence of transactions and locked sections, between which other
    handlers run, and a transaction may fail before or after it took effect.  This
    file holds what such components share: programs of transactions, what they do
    alone and in a pool of threads, and a rely-guarantee logic for the pool. *)

From S2P Require Import Prelude.

(** ** Programs *)

(** A step reads the state it finds, leaves [f] of it and goes on with [k] of it.
    [Atomic] is a section under a mutex; [Tx] a transaction, with the program that goes
    on when the connection fails. *)
Inductive prog (S R : Type) : Type :=
  | Ret (r : R)
  | Atomic (f : S -> S) (k : S -> prog S R)
  | Tx (f : S -> S) (k : S -> prog S R) (lost : prog S R).
Arguments Ret {S R} r.
Arguments Atomic {S R} f k.
Arguments Tx {S R} f k lost.

Fixpoint pbind {S A B} (p : prog S A) (g : A -> prog S B) : prog S B :=
  match p with
  | Ret a => g a
  | Atomic f k => Atomic f (fun s => pbind (k s) g)
  | Tx f k lost => Tx f (fun s => pbind (k s) g) (pbind lost g)
  end.

Declare Scope prog_scope.
Delimit Scope prog_scope with prog.
Notation "'let*' x := p 'in' k" := (pbind p (fun x => k))
  (at level 10, x pattern, p at level 100, k at level 200) : prog_scope.
Notation "'try*' x := p 'in' k" := (pbind p (fun r => match r with Ok x => k | Err e => Ret (Err e) end))
  (at level 10, x pattern, p at level 100, k at level 200) : prog_scope.
#[global] Open Scope prog_scope.

(** A transaction that throws is rolled back; a lost connection is reported as
    [failure]. *)
Definition committed {S E A} (t : S -> result E A * S) (s : S) : S :=
  let '(r, s') := t s in if is_ok r then s' else s.

Definition transaction {S E A} (failure : E) (t : S -> result E A * S) : prog S (result E A) :=
  Tx (committed t) (fun s => Ret (fst (t s))) (Ret (Err failure)).

Definition locked {S A} (f : S -> A * S) : prog S A := Atomic (fun s => snd (f s)) (fun s => Ret (fst (f s))).

(** What a program does with nobody else around and no failures. *)
Fixpoint solo {S R} (p : prog S R) (s : S) : R * S :=
  match p with
  | Ret r => (r, s)
  | Atomic f k | Tx f k _ => solo (k s) (f s)
  end.

Lemma solo_bind {S A B} (p : prog S A) (g : A -> prog S B) s :
  solo (pbind p g) s = (let '(a, s') := solo p s in solo (g a) s').
Proof. revert s. induction p as [a|f k IH|f k IH lost _]; intros s; cbn [pbind solo]; [done|apply IH|apply IH]. Qed.

(** One program after the other. *)
Fixpoint solo_all {S R} (l : list (prog S R)) (s : S) : list R * S :=
  match l with
  | [] => ([], s)
  | p :: l => let '(r, s) := solo p s in let '(rs, s) := solo_all l s in (r :: rs, s)
  end.

(** A program alone whose transactions fail where the script says so, before they took
    effect. *)
Fixpoint scripted {S R} (p : prog S R) (script : list bool) (s : S) : R * S :=
  match p with
  | Ret r => (r, s)
  | Atomic f k => scripted (k s) script (f s)
  | Tx f k lost =>
      match script with
      | false :: script => scripted lost script s
      | true :: script => scripted (k s) script (f s)
      | [] => scripted (k s) [] (f s)
      end
  end.

Lemma solo_transaction {S E A R} (failure : E) (t : S -> result E A * S) (k : result E A -> prog S R) s :
  solo (pbind (transaction failure t) k) s = solo (k (fst (t s))) (committed t s).
Proof. done. Qed.

Lemma solo_locked {S A R} (f : S -> A * S) (k : A -> prog S R) s : solo (pbind (locked f) k) s = solo (k (fst (f s))) (snd (f s)).
Proof. done. Qed.

(** ** Programs one after the other, with failures

    [alone p s r s'] is a run of [p] from [s] with nobody else around, in which any
    transaction may fail; [alone_post] is what holds at the end of all of them. *)

Inductive alone {S R : Type} : prog S R -> S -> R -> S -> Prop :=
  | alone_ret r s : alone (Ret r) s r s
  | alone_atomic f k s r s' : alone (k s) (f s) r s' -> alone (Atomic f k) s r s'
  | alone_tx f k lost s r s' : alone (k s) (f s) r s' -> alone (Tx f k lost) s r s'
  | alone_lost f k lost s r s' : alone lost s r s' -> alone (Tx f k lost) s r s'
  | alone_unknown f k lost s r s' : alone lost (f s) r s' -> alone (Tx f k lost) s r s'.

Fixpoint alone_post {S R} (p : prog S R) (Q : R -> S -> Prop) (s : S) : Prop :=
  match p with
  | Ret r => Q r s
  | Atomic f k => alone_post (k s) Q (f s)
  | Tx f k lost => alone_post (k s) Q (f s) /\ alone_post lost Q s /\ alone_post lost Q (f s)
  end.

Lemma alone_post_sound {S R} (p : prog S R) Q s r s' : alone_post p Q s -> alone p s r s' -> Q r s'.
Proof. intros Hp Ha. induction Ha; cbn [alone_post] in Hp; auto; destruct Hp as (? & ? & ?); auto. Qed.

Lemma alone_post_mono {S R} (p : prog S R) (Q Q' : R -> S -> Prop) s :
  (forall r s, Q r s -> Q' r s) -> alone_post p Q s -> alone_post p Q' s.
Proof.
  intros HQ. revert s. induction p as [r|f k IH|f k IH lost IHl]; intros s Hp; cbn [alone_post] in *; [auto|auto|].
  destruct Hp as (? & ? & ?). auto.
Qed.

Lemma alone_post_bind {S A B} (p : prog S A) (g : A -> prog S B) Q s :
  alone_post p (fun a s => alone_post (g a) Q s) s -> alone_post (pbind p g) Q s.
Proof.
  revert s. induction p as [a|f k IH|f k IH lost IHl]; intros s Hp; cbn [alone_post pbind] in *; [auto|auto|].
  destruct Hp as (? & ? & ?). auto.
Qed.

(** A run without failures is one of the runs. *)
Lemma solo_alone {S R} (p : prog S R) s : alone p s (fst (solo p s)) (snd (solo p s)).
Proof. revert s. induction p as [r|f k IH|f k IH lost _]; intros s; cbn [solo]; constructor; apply IH. Qed.

(** Calls one after the other. *)
Inductive one_by_one {S Req Resp : Type} (serve : Req -> prog S Resp) : S -> S -> Prop :=
  | calls_done s : one_by_one serve s s
  | calls_next req s r s1 s2 : alone (serve req) s r s1 -> one_by_one serve s1 s2 -> one_by_one serve s s2.

Lemma one_by_one_inv {S Req Resp : Type} (serve : Req -> prog S Resp) (I : S -> Prop) (G : S -> S -> Prop) `{!PreOrder G} :
  (forall req s, I s -> alone_post (serve req) (fun _ s' => I s' /\ G s s') s) ->
  forall s s', one_by_one serve s s' -> I s -> I s' /\ G s s'.
Proof.
  intros Hserve s s' Hr. induction Hr as [s|req s r s1 s2 Ha _ IH]; intros HI; [by split|].
  destruct (alone_post_sound _ _ _ _ _ (Hserve req s HI) Ha) as [HI1 HG1]. destruct (IH HI1) as [HI2 HG2].
  split; [done|by transitivity s1].
Qed.

Lemma one_by_one_keeps {S Req Resp : Type} (serve : Req -> prog S Resp) (I : S -> Prop) :
  (forall req s, I s -> alone_post (serve req) (fun _ s' => I s') s) -> forall s s', one_by_one serve s s' -> I s -> I s'.
Proof.
  intros Hserve s s' Hr. induction Hr as [s|req s r s1 s2 Ha _ IH]; intros HI; [done|].
  apply IH. by apply (alone_post_sound _ _ _ _ _ (Hserve req s HI) Ha).
Qed.

(** ** Threads *)

Section pool.
Context {S Req Resp : Type} (serve : Req -> prog S Resp).

(** One step of one program; a transaction may also fail, before it took effect or
    after. *)
Inductive prog_step : prog S Resp -> S -> prog S Resp -> S -> Prop :=
  | step_atomic f k s : prog_step (Atomic f k) s (k s) (f s)
  | step_tx f k lost s : prog_step (Tx f k lost) s (k s) (f s)
  | step_lost f k lost s : prog_step (Tx f k lost) s lost s
  | step_unknown f k lost s : prog_step (Tx f k lost) s lost (f s).

(** The threads that serve requests, and what they share. *)
Record Pool := mkPool { threads : list (Req * prog S Resp); shared : S }.

Inductive pool_step : Pool -> Pool -> Prop :=
  | pool_arrive req l s : pool_step (mkPool l s) (mkPool (l ++ [(req, serve req)]) s)
  | pool_run i req p p' l s s' :
      l !! i = Some (req, p) -> prog_step p s p' s' -> pool_step (mkPool l s) (mkPool (<[i := (req, p')]> l) s').

(** A scripted run is a run of the pool. *)
Lemma scripted_steps req l p script s :
  let '(r, s') := scripted p script s in rtc pool_step (mkPool (l ++ [(req, p)]) s) (mkPool (l ++ [(req, Ret r)]) s').
Proof.
  revert script s. induction p as [r|f k IH|f k IH lost IHl]; intros script s; cbn [scripted]; [done|..].
  - specialize (IH s script (f s)). destruct (scripted _ _ _) as [r s']. eapply rtc_l; [|exact IH].
    replace (l ++ [(req, k s)]) with (<[length l := (req, k s)]> (l ++ [(req, Atomic f k)])) by (by rewrite insert_app_r_alt, Nat.sub_diag).
    eapply pool_run; [by apply list_lookup_middle|constructor].
  - assert (Hi : forall p' : prog S Resp, l ++ [(req, p')] = <[length l := (req, p')]> (l ++ [(req, Tx f k lost)])) by (intros; by rewrite insert_app_r_alt, Nat.sub_diag).
    destruct script as [|[] script].
    + specialize (IH s [] (f s)). destruct (scripted _ _ _) as [r s']. eapply rtc_l; [|exact IH]. rewrite (Hi (k s)).
      eapply pool_run; [by apply list_lookup_middle|constructor].
    + specialize (IH s script (f s)). destruct (scripted _ _ _) as [r s']. eapply rtc_l; [|exact IH]. rewrite (Hi (k s)).
      eapply pool_run; [by apply list_lookup_middle|constructor].
    + specialize (IHl script s). destruct (scripted _ _ _) as [r s']. eapply rtc_l; [|exact IHl]. rewrite (Hi lost).
      eapply pool_run; [by apply list_lookup_middle|constructor].
Qed.

(** The first [n] steps of a program, without failures. *)
Fixpoint advance (n : nat) (p : prog S Resp) (s : S) : prog S Resp * S :=
  match n, p with
  | Datatypes.S n, (Atomic f k | Tx f k _) => advance n (k s) (f s)
  | _, _ => (p, s)
  end.

Lemma advance_pool n i req p l s :
  l !! i = Some (req, p) ->
  rtc pool_step (mkPool l s) (mkPool (<[i := (req, fst (advance n p s))]> l) (snd (advance n p s))).
Proof.
  revert p l s. induction n as [|n IH]; intros p l s Hi; [cbn; by rewrite list_insert_id|].
  destruct p as [r|f k|f k lost]; cbn [advance fst snd]; [by rewrite list_insert_id|..];
    (eapply rtc_l; [eapply pool_run; [done|constructor]|]); (replace (<[i := (req, fst (advance n (k s) (f s)))]> l)
      with (<[i := (req, fst (advance n (k s) (f s)))]> (<[i := (req, k s)]> l)) by apply list_insert_insert_eq);
    apply IH, list_lookup_insert_eq; by eapply lookup_lt_Some.
Qed.

Lemma scripted_pool req script l s :
  rtc pool_step (mkPool l s) (mkPool (l ++ [(req, Ret (fst (scripted (serve req) script s)))]) (snd (scripted (serve req) script s))).
Proof.
  pose proof (scripted_steps req l (serve req) script s) as H. destruct (scripted _ _ _) as [r s']. eapply rtc_l; [apply pool_arrive|done].
Qed.

End pool.

(** ** A rely-guarantee logic with ownership

    [I] holds between steps; [G] is what every step of every thread keeps to.  Some
    resources can be taken once: [free x s] tells whether [x] can still be taken, and
    never becomes true again.  A judgement carries the resources the program has taken,
    and they grow in the steps that take them. *)
Section owned.
Context {S Req Resp X : Type} (serve : Req -> prog S Resp).
Context (I : S -> Prop) (G : S -> S -> Prop) `{!PreOrder G} (free : X -> S -> Prop).
Context (Hfree : forall x s s', ~ free x s -> G s s' -> ~ free x s').

(** What a program owns after a step from [s] to [s']. *)
Definition takes (K K' : list X) (s s' : S) : Prop := forall x, x ∈ K' -> x ∈ K \/ (free x s /\ ~ free x s').

Fixpoint wpx {R} (p : prog S R) (K : list X) (Q : R -> list X -> S -> Prop) (s : S) : Prop :=
  match p with
  | Ret r => Q r K s
  | Atomic f k => forall s', G s s' -> I s' ->
      I (f s') /\ G s' (f s') /\ exists K', takes K K' s' (f s') /\ wpx (k s') K' Q (f s')
  | Tx f k lost => forall s', G s s' -> I s' ->
      I (f s') /\ G s' (f s') /\ (exists K', takes K K' s' (f s') /\ wpx (k s') K' Q (f s')) /\
      wpx lost K Q s' /\ wpx lost K Q (f s')
  end.

Lemma takes_refl K s s' : takes K K s s'.
Proof. by left. Qed.

Definition xstable {R} (Q : R -> list X -> S -> Prop) : Prop := forall r K s s', Q r K s -> G s s' -> I s' -> Q r K s'.

Lemma wpx_later {R} (p : prog S R) K Q s s' : xstable Q -> wpx p K Q s -> G s s' -> I s' -> wpx p K Q s'.
Proof.
  intros HQ Hp Hs HI. destruct p as [r|f k|f k lost]; cbn [wpx] in *; [by eapply HQ|..]; intros s'' Hs''; apply Hp;
    by transitivity s'.
Qed.

Lemma wpx_mono {R} (p : prog S R) K (Q Q' : R -> list X -> S -> Prop) s :
  (forall r K s, Q r K s -> Q' r K s) -> wpx p K Q s -> wpx p K Q' s.
Proof.
  intros HQ. revert K s. induction p as [r|f k IH|f k IH lost IHl]; intros K s Hp; cbn [wpx] in *; [by apply HQ|..];
    intros s' Hs HI; specialize (Hp s' Hs HI); [destruct Hp as (? & ? & K' & ? & ?)|destruct Hp as (? & ? & (K' & ? & ?) & ? & ?)];
    split_and!; eauto.
Qed.

Lemma wpx_bind {A B} (p : prog S A) (g : A -> prog S B) K Q s :
  wpx p K (fun a K s => wpx (g a) K Q s) s -> wpx (pbind p g) K Q s.
Proof.
  revert K s. induction p as [a|f k IH|f k IH lost IHl]; intros K s Hp; cbn [wpx pbind] in *; [done|..];
    intros s' Hs HI; specialize (Hp s' Hs HI); [destruct Hp as (? & ? & K' & ? & ?)|destruct Hp as (? & ? & (K' & ? & ?) & ? & ?)];
    split_and!; eauto.
Qed.

(** A program does not touch what its caller has taken. *)
Lemma wpx_frame {R} (p : prog S R) F K Q s :
  wpx p K Q s -> wpx p (F ++ K) (fun r K' s => exists K'', K' = F ++ K'' /\ Q r K'' s) s.
Proof.
  assert (Htakes : forall K K' s s', takes K K' s s' -> takes (F ++ K) (F ++ K') s s').
  { intros K0 K' s0 s' Ht x [Hx|Hx]%elem_of_app; [left; apply elem_of_app; by left|]. destruct (Ht x Hx); [left; apply elem_of_app|]; auto. }
  revert K s. induction p as [r|f k IH|f k IH lost IHl]; intros K s Hp; cbn [wpx] in *; [by exists K|..];
    intros s' Hs HI; specialize (Hp s' Hs HI); [destruct Hp as (? & ? & K' & ? & ?)|destruct Hp as (? & ? & (K' & ? & ?) & ? & ?)];
    split_and!; eauto.
Qed.

(** The invariant holds at the end, too, and the state has only moved forward. *)
Lemma wpx_inv {R} (p : prog S R) K Q s :
  I s -> wpx p K Q s -> wpx p K (fun r K s' => Q r K s' /\ I s' /\ G s s') s.
Proof using PreOrder0.
  intros HI Hp. assert (Hgen : forall s0, I s0 -> G s s0 -> wpx p K Q s0 -> wpx p K (fun r K s' => Q r K s' /\ I s' /\ G s s') s0).
  { clear HI Hp. revert K. induction p as [r|f k IH|f k IH lost IHl]; intros K s0 HI0 Hs0 Hp; cbn [wpx] in *; [done|..];
      intros s' Hs HI; specialize (Hp s' Hs HI); assert (G s s') by (by transitivity s0).
    - destruct Hp as (HI' & HG & K' & Ht & Hk). split_and!; [done|done|]. exists K'. split; [done|]. apply IH; [done|by transitivity s'|done].
    - destruct Hp as (HI' & HG & (K' & Ht & Hk) & Hl & Hl'). assert (G s (f s')) by (by transitivity s').
      split_and!; [done|done| |by apply IHl|by apply IHl]. exists K'. split; [done|]. by apply IH. }
  by apply Hgen.
Qed.

(** The postcondition of the request that thread [i] serves. *)
Context (Q : nat -> Req -> Resp -> list X -> S -> Prop) (HQ : forall i req, xstable (Q i req)).
Context (Hserve : forall i req s, I s -> wpx (serve req) [] (Q i req) s).

(** Every thread has its resources; no resource has two owners. *)
Definition owns (w : Pool) (Ks : list (list X)) : Prop :=
  I (shared w) /\ length Ks = length (threads w) /\
  (forall i req p K, threads w !! i = Some (req, p) -> Ks !! i = Some K ->
     wpx p K (Q i req) (shared w) /\ forall x, x ∈ K -> ~ free x (shared w)) /\
  (forall i j K K' x, Ks !! i = Some K -> Ks !! j = Some K' -> x ∈ K -> x ∈ K' -> i = j).

Lemma prog_step_owned i req p K s p' s' :
  I s -> wpx p K (Q i req) s -> prog_step p s p' s' ->
  I s' /\ G s s' /\ exists K', takes K K' s s' /\ wpx p' K' (Q i req) s'.
Proof using PreOrder0.
  intros HI Hp Hstep. assert (G s s) by reflexivity.
  destruct Hstep; cbn [wpx] in Hp; specialize (Hp s ltac:(done) HI); [by intuition| | |];
    destruct Hp as (? & ? & (K' & ? & ?) & ? & ?); split_and!; try done; eauto using takes_refl.
Qed.

Lemma pool_step_owned w w' Ks : pool_step serve w w' -> owns w Ks -> exists Ks', owns w' Ks'.
Proof using All.
  intros Hstep (HI & Hlen & Hl & Hd). destruct Hstep as [req l s|i req p p' l s s' Hi Hstep]; cbn [shared threads] in *.
  - exists (Ks ++ [[]]). split_and!; cbn [shared threads]; [done|rewrite !length_app; cbn; lia|..].
    + intros j req' q K Hj HK. apply lookup_app_Some in Hj as [Hj|[Hge Hj]].
      * rewrite lookup_app_l in HK by (rewrite Hlen; by eapply lookup_lt_Some). by eapply Hl.
      * apply list_lookup_singleton_Some in Hj as [Hz [= <- <-]]. rewrite lookup_app_r in HK by lia.
        apply list_lookup_singleton_Some in HK as [_ <-]. split; [by apply Hserve|]. by intros ? ?%elem_of_nil.
    + intros j j' K K' x HK HK' Hx Hx'. apply lookup_app_Some in HK as [HK|[_ HK]]; [|apply list_lookup_singleton_Some in HK as [_ <-]; by apply elem_of_nil in Hx].
      apply lookup_app_Some in HK' as [HK'|[_ HK']]; [|apply list_lookup_singleton_Some in HK' as [_ <-]; by apply elem_of_nil in Hx'].
      by eapply Hd.
  - assert (HKi : exists K, Ks !! i = Some K) by (apply lookup_lt_is_Some; rewrite Hlen; by eapply lookup_lt_Some). destruct HKi as [K HK].
    destruct (Hl _ _ _ _ Hi HK) as [Hp Htaken]. destruct (prog_step_owned _ _ _ _ _ _ _ HI Hp Hstep) as (HI' & HG & K' & Ht & Hp').
    exists (<[i := K']> Ks). split_and!; cbn [shared threads]; [done|by rewrite !length_insert|..].
    + intros j req' q Kj Hj HKj. apply list_lookup_insert_Some in Hj as [(<- & [= <- <-] & _)|[Hne Hj]].
      * rewrite list_lookup_insert_eq in HKj by (by eapply lookup_lt_Some). injection HKj as <-. split; [done|].
        intros x Hx. destruct (Ht x Hx) as [Hold|[_ ?]]; [|done]. by eapply Hfree; [apply Htaken|].
      * rewrite list_lookup_insert_ne in HKj by done. destruct (Hl _ _ _ _ Hj HKj) as [Hq Hqt]. split; [by eapply wpx_later|].
        intros x Hx. by eapply Hfree; [apply Hqt|].
    + assert (Hother : forall j Kj x, j <> i -> Ks !! j = Some Kj -> x ∈ Kj -> x ∈ K' -> False).
      { intros j Kj x Hne HKj Hx Hx'. destruct (Ht x Hx') as [Hold|[Hf _]]; [by apply Hne; eapply Hd|].
        assert (Hj : is_Some (l !! j)) by (apply lookup_lt_is_Some; rewrite <- Hlen; by eapply lookup_lt_Some).
        destruct Hj as [[req' q] Hj]. destruct (Hl _ _ _ _ Hj HKj) as [_ Hno]. by apply (Hno x). }
      intros j j' Kj Kj' x Hj Hj' Hx Hx'. apply list_lookup_insert_Some in Hj as [(<- & <- & _)|[Hne Hj]];
        apply list_lookup_insert_Some in Hj' as [(<- & <- & _)|[Hne' Hj']]; [done| | |by eapply Hd].
      * destruct (Hother j' Kj' x); auto.
      * destruct (Hother j Kj x); auto.
Qed.

Lemma pool_reachable_owned w w' Ks : rtc (pool_step serve) w w' -> owns w Ks -> exists Ks', owns w' Ks'.
Proof using All.
  intros Hr. revert Ks. induction Hr as [|w w1 w' Hstep _ IH]; intros Ks Hok; [by exists Ks|].
  destruct (pool_step_owned _ _ _ Hstep Hok) as [Ks' Hok']. by eapply IH.
Qed.

(** The answers of a pool, with what each of them took; two answers took nothing in
    common. *)
Lemma owns_answers w Ks :
  owns w Ks -> exists own : nat -> list X,
    (forall i req r, threads w !! i = Some (req, Ret r) -> Q i req r (own i) (shared w)) /\
    (forall i j x, x ∈ own i -> x ∈ own j -> i = j).
Proof.
  intros (_ & Hlen & Hl & Hd). exists (fun i => default [] (Ks !! i)). split.
  - intros i req r Hi. destruct (Ks !! i) as [K|] eqn:HK; [by apply (Hl _ _ _ _ Hi HK)|].
    apply lookup_ge_None in HK. rewrite Hlen in HK. apply lookup_lt_Some in Hi. lia.
  - intros i j x Hx Hx'. destruct (Ks !! i) eqn:HK; [|by apply elem_of_nil in Hx]. destruct (Ks !! j) eqn:HK'; [|by apply elem_of_nil in Hx'].
    by eapply Hd.
Qed.

Lemma owns_nil s : I s -> owns (mkPool [] s) [].
Proof. intros HI. split_and!; [done|done|by intros|by intros]. Qed.
End owned.

(** What only grows can be added to the invariant. *)
Lemma wpx_strengthen {S X R : Type} (I J : S -> Prop) (G : S -> S -> Prop) (free : X -> S -> Prop) (p : prog S R) K Q s :
  (forall s s', J s -> G s s' -> J s') -> wpx I G free p K Q s -> wpx (fun s => I s /\ J s) G free p K Q s.
Proof.
  intros HJ. revert K s. induction p as [r|f k IH|f k IH lost IHl]; intros K s Hp; cbn [wpx] in *; [done|..];
    intros s' Hs [HI HJ']; specialize (Hp s' Hs HI).
  - destruct Hp as (HI' & HG & K' & Ht & Hk). split_and!; [done|by eapply HJ|done|]. exists K'. auto.
  - destruct Hp as (HI' & HG & (K' & Ht & Hk) & Hl & Hl'). split_and!; [done|by eapply HJ|done| |auto|auto]. exists K'. auto.
Qed.

(** From a state on, the threads that were there keep their postconditions, and those
    that arrive later have postconditions that mention that state. *)
Lemma owns_strengthen {S Req Resp X : Type} (I J : S -> Prop) (G : S -> S -> Prop) (free : X -> S -> Prop)
    (Q Q' : nat -> Req -> Resp -> list X -> S -> Prop) w Ks :
  (forall s s', J s -> G s s' -> J s') -> J (shared w) ->
  (forall i req r K s, (i < length (threads w))%nat -> Q i req r K s -> Q' i req r K s) ->
  owns I G free Q w Ks -> owns (fun s => I s /\ J s) G free Q' w Ks.
Proof.
  intros HJ HJw HQ (HI & Hlen & Hl & Hd). split_and!; [done|done|done| |done]. intros i req p K Hi HK.
  destruct (Hl i req p K Hi HK) as [Hp Hx]. split; [|done]. apply wpx_strengthen; [done|]. eapply wpx_mono; [|exact Hp].
  intros r K' s. apply HQ. by eapply lookup_lt_Some.
Qed.

(** ** The logic without ownership *)

Section plain.
Context {S : Type} (I : S -> Prop) (G : S -> S -> Prop) `{!PreOrder G}.

Fixpoint wpr {R} (p : prog S R) (Q : R -> S -> Prop) (s : S) : Prop :=
  match p with
  | Ret r => Q r s
  | Atomic f k => forall s', G s s' -> I s' -> I (f s') /\ G s' (f s') /\ wpr (k s') Q (f s')
  | Tx f k lost => forall s', G s s' -> I s' -> I (f s') /\ G s' (f s') /\ wpr (k s') Q (f s') /\ wpr lost Q s' /\ wpr lost Q (f s')
  end.

Lemma wpr_mono {R} (p : prog S R) (Q Q' : R -> S -> Prop) s : (forall r s, Q r s -> Q' r s) -> wpr p Q s -> wpr p Q' s.
Proof.
  intros HQ. revert s. induction p as [r|f k IH|f k IH lost IHl]; intros s Hp; cbn [wpr] in *; [by apply HQ|..]; intros s' Hs HI;
    destruct (Hp s' Hs HI) as (? & ? & Hk); split_and!; auto; destruct Hk as (? & ? & ?); auto.
Qed.

(** Inside a program, the invariant and what has happened since its start are known. *)
Lemma wpr_bind {A B} (p : prog S A) (g : A -> prog S B) Q s :
  I s -> wpr p (fun a s' => I s' -> G s s' -> wpr (g a) Q s') s -> wpr (pbind p g) Q s.
Proof using PreOrder0.
  intros HI. assert (Hgen : forall s0, I s0 -> G s s0 -> wpr p (fun a s' => I s' -> G s s' -> wpr (g a) Q s') s0 -> wpr (pbind p g) Q s0); [|by apply Hgen].
  induction p as [a|f k IH|f k IH lost IHl]; intros s0 HI0 Hs0 Hp; cbn [wpr pbind] in *; [by apply Hp|..]; intros s' Hs HI';
    destruct (Hp s' Hs HI') as (Hf & HG & Hk); assert (G s s') by (by transitivity s0); assert (G s (f s')) by (by transitivity s'); split_and!; auto.
  - apply IH; [done|done|]. apply Hk.
  - destruct Hk as (_ & Hl & _). by apply IHl.
  - destruct Hk as (_ & _ & Hl). by apply IHl.
Qed.

Lemma wpr_locked {A R} (f : S -> A * S) (k : A -> prog S R) Q s :
  (forall s', G s s' -> I s' -> I (snd (f s')) /\ G s' (snd (f s')) /\ wpr (k (fst (f s'))) Q (snd (f s'))) ->
  wpr (pbind (locked f) k) Q s.
Proof. intros H s' Hs HI. by apply H. Qed.

Lemma wpr_wpx {R} (p : prog S R) Q s : wpr p Q s -> wpx I G (fun (_ : Empty_set) _ => False) p [] (fun r _ s => Q r s) s.
Proof.
  revert s. induction p as [r|f k IH|f k IH lost IHl]; intros s Hp; cbn [wpx wpr] in *; [done|..]; intros s' Hs HI;
    destruct (Hp s' Hs HI) as (? & ? & Hk); split_and!; auto.
  - exists []. split; [by intros []|by apply IH].
  - exists []. split; [by intros []|apply IH, Hk].
  - apply IHl, Hk.
  - apply IHl, Hk.
Qed.

(** The invariant holds in every state a pool reaches, and every answer has its
    postcondition. *)
Lemma pool_wpr {Req Resp} (serve : Req -> prog S Resp) (Q : Req -> Resp -> S -> Prop) s w :
  (forall req r s s', Q req r s -> G s s' -> I s' -> Q req r s') ->
  (forall req s, I s -> wpr (serve req) (Q req) s) -> I s -> rtc (pool_step serve) (mkPool [] s) w ->
  I (shared w) /\ forall i req r, threads w !! i = Some (req, Ret r) -> Q req r (shared w).
Proof using PreOrder0.
  intros Hstable Hserve HI Hr.
  destruct (pool_reachable_owned serve I G (fun (_ : Empty_set) _ => False) (fun x => match x with end)
              (fun _ req r _ s => Q req r s) (fun _ req r _ s s' HQ Hs Hi => Hstable req r s s' HQ Hs Hi)
              (fun _ req s Hi => wpr_wpx _ _ _ (Hserve req s Hi)) _ _ [] Hr) as [Ks Hown]; [by apply owns_nil|].
  split; [apply Hown|]. intros i req r Hi. destruct (owns_answers I G _ _ _ _ Hown) as (own & Hans & _). by eapply Hans.
Qed.

End plain.

(** A run depends only on how the requests that arrived are served. *)
Lemma pool_among {S Req Resp : Type} (P : Req -> Prop) (serve serve' : Req -> prog S Resp) s w :
  (forall req, P req -> serve' req = serve req) -> rtc (pool_step serve) (mkPool [] s) w -> Forall P (threads w).*1 ->
  rtc (pool_step serve') (mkPool [] s) w.
Proof.
  intros Hsame Hr. revert w Hr. apply (rtc_ind_r (fun w => Forall P (threads w).*1 -> rtc (pool_step serve') (mkPool [] s) w)); [done|].
  intros w w' _ Hstep IH Hall. eapply rtc_r.
  - apply IH. destruct Hstep as [req l s1|i req p p' l s1 s2 Hi _]; cbn [threads] in *.
    + rewrite fmap_app in Hall. by apply Forall_app in Hall as [? _].
    + rewrite list_fmap_insert in Hall. cbn [fst] in Hall. by rewrite list_insert_id in Hall by (by rewrite list_lookup_fmap, Hi).
  - destruct Hstep as [req l s1|i req p p' l s1 s2 Hi Hs]; cbn [threads] in *.
    + rewrite fmap_app in Hall. apply Forall_app in Hall as [_ Hreq]. cbn in Hreq. apply Forall_cons in Hreq as [Hreq _].
      rewrite <-(Hsame req Hreq). constructor.
    + by eapply pool_run.
Qed.
