(* ===== verification/Scylla.v ===== *)
(** * CQL values, rows and tables

    [ScyllaValue] and [ScyllaRow] are the classes of
    [src/messaging/db/scylla_types.cpp].  The database itself is external: a
    table is any type with the operations of [CqlTable] and the documented
    behaviour of CQL as laws, and the repositories are proved against that class.
    [GTable] is a finite-map table that satisfies the laws, on which the
    repositories can be evaluated.

    The second part is what the repositories share: a table whose stored rows are the
    column lists of entities represents a finite map of entities.  The parameters of its
    section are the columns a repository writes for an entity, the condition under which
    an entity may stand at a key, and the decoder of a selected row, which gives back the
    entity. *)

From S2P Require Import Prelude.
From stdpp Require Import sorting.
#[local] Open Scope Z_scope.

(** ** Values *)

Inductive ScyllaValue :=
| VNull
| VString (s : string)
| VInt (z : Z)
| VInt64 (z : Z)
| VBool (b : bool)
| VBlob (bytes : list Z)
| VStrings (l : list string).

#[export] Instance ScyllaValue_eq_dec : EqDecision ScyllaValue.
Proof. solve_decision. Defined.

Definition value_is_null (v : ScyllaValue) : bool := match v with VNull => true | _ => false end.

Definition as_string (v : ScyllaValue) : result exn string :=
  match v with VString s => Ok s | _ => Err bad_variant_access end.
Definition as_int (v : ScyllaValue) : result exn Z :=
  match v with VInt z => Ok z | _ => Err bad_variant_access end.
Definition as_int64 (v : ScyllaValue) : result exn Z :=
  match v with VInt64 z => Ok z | VInt z => Ok z | _ => Err bad_variant_access end.
Definition as_timestamp (v : ScyllaValue) : result exn Z := as_int64 v.
Definition as_bool (v : ScyllaValue) : result exn bool :=
  match v with VBool b => Ok b | _ => Err bad_variant_access end.
Definition as_blob (v : ScyllaValue) : result exn (list Z) :=
  match v with VBlob b => Ok b | _ => Err bad_variant_access end.
Definition as_string_list (v : ScyllaValue) : result exn (list string) :=
  match v with VStrings l => Ok l | _ => Err bad_variant_access end.

(** ** Rows *)

Record ScyllaRow := mkScyllaRow { column_names : list string; row_values : list ScyllaValue }.

(** [name_to_index_] maps a name to the last position it has in [column_names_]. *)
Fixpoint index_of (name : string) (names : list string) (i : nat) : option nat :=
  match names with
  | [] => None
  | n :: names =>
      match index_of name names (S i) with
      | Some j => Some j
      | None => if String.eqb n name then Some i else None
      end
  end.

Definition find_column_index (row : ScyllaRow) (name : string) : result exn nat :=
  match index_of name (column_names row) 0 with Some i => Ok i | None => Err out_of_range end.

Definition get_at (row : ScyllaRow) (i : nat) : result exn ScyllaValue :=
  match row_values row !! i with Some v => Ok v | None => Err out_of_range end.

Definition get (row : ScyllaRow) (name : string) : result exn ScyllaValue :=
  let? i := find_column_index row name in get_at row i.

Definition is_null (row : ScyllaRow) (name : string) : result exn bool :=
  let? v := get row name in Ok (value_is_null v).

Definition has_column (row : ScyllaRow) (name : string) : bool :=
  match index_of name (column_names row) 0 with Some _ => true | None => false end.

Definition get_string row name := let? v := get row name in as_string v.
Definition get_int row name := let? v := get row name in as_int v.
Definition get_int64 row name := let? v := get row name in as_int64 v.
Definition get_timestamp row name := let? v := get row name in as_timestamp v.
Definition get_bool row name := let? v := get row name in as_bool v.
Definition get_blob row name := let? v := get row name in as_blob v.
Definition get_string_list row name := let? v := get row name in as_string_list v.

(** Reads a nullable column: [None] for NULL. *)
Definition nullable {A} (row : ScyllaRow) (name : string)
    (read : ScyllaRow -> string -> result exn A) : result exn (option A) :=
  let? n := is_null row name in
  if n then Ok None else let? a := read row name in Ok (Some a).

(** ** Tables *)

(** The regular columns of a stored row; an absent column is NULL. *)
Abbreviation Cells := (gmap string ScyllaValue).

(** The row a SELECT of the columns [cols] returns for stored columns [cells]. *)
Definition select (cols : list string) (cells : Cells) : ScyllaRow :=
  mkScyllaRow cols ((fun c => default VNull (cells !! c)) <$> cols).

(** The order of the clustering key, ascending. *)
Class ClusterOrder (C : Type) := {
  cle : relation C;
  #[global] cle_dec :: RelDecision cle;
  #[global] cle_preorder :: PreOrder cle;
  #[global] cle_antisymm :: AntiSymm (=) cle;
  #[global] cle_total :: Total cle;
}.

(** What CQL documents of a table with partition key [P] and clustering key [C]:
    a write stores the named columns of one row and leaves the other columns and
    the other rows alone (every write of the repositories sets a column that is
    not NULL, for which INSERT and UPDATE are the same upsert), and a SELECT of a
    partition returns its rows once each, in clustering order. *)
Class CqlTable (T P C : Type) `{ClusterOrder C} := {
  cells : P -> C -> T -> option Cells;
  upsert : P -> C -> Cells -> T -> T;
  scan : P -> T -> list (C * Cells);
  cells_upsert : forall p c r t, cells p c (upsert p c r t) = Some (r ∪ default ∅ (cells p c t));
  cells_upsert_ne : forall p c p' c' r t,
    (p, c) <> (p', c') -> cells p' c' (upsert p c r t) = cells p' c' t;
  scan_spec : forall p t c r, (c, r) ∈ scan p t <-> cells p c t = Some r;
  scan_nodup : forall p t, NoDup (scan p t).*1;
  scan_sorted : forall p t, StronglySorted cle (scan p t).*1;
}.

(** A call to the database: it answers, or it throws without having taken effect, or
    it throws after it took effect. *)
Inductive CallOutcome := Answers | FailsBefore | FailsAfter.

(** A bound LIMIT is a 32-bit integer, and CQL refuses one that is not positive. *)
Definition limit_param (limit : Z) : result exn nat :=
  if i32 limit <=? 0 then Err runtime_error else Ok (Z.to_nat (i32 limit)).

Lemma limit_param_ok limit : 0 < limit < 2 ^ 31 -> limit_param limit = Ok (Z.to_nat limit).
Proof.
  intros Hl. unfold limit_param. rewrite i32_small by lia. by rewrite (proj2 (Z.leb_gt _ _)) by lia.
Qed.

(** ** Reading selected rows *)

Lemma index_of_ge name names i j : index_of name names i = Some j -> (i <= j)%nat.
Proof.
  revert i. induction names as [|n names IH]; intros i; cbn; [done|].
  destruct (index_of name names (S i)) eqn:Hj; [|destruct (String.eqb n name)]; intros [= <-]; [|lia].
  apply IH in Hj. lia.
Qed.

Lemma index_of_spec name names i :
  name ∈ names -> exists j, index_of name names i = Some (i + j)%nat /\ names !! j = Some name.
Proof.
  revert i. induction names as [|n names IH]; intros i Hin; [by apply not_elem_of_nil in Hin|]. cbn.
  destruct (decide (name ∈ names)) as [Hin'|Hnin].
  - destruct (IH (S i) Hin') as (j & -> & Hj). exists (S j). split; [f_equal; lia|done].
  - assert (index_of name names (S i) = None) as ->.
    { clear -Hnin. revert i. induction names as [|n names IH]; intros i; [done|]. cbn.
      apply not_elem_of_cons in Hnin as [Hne Hnin]. rewrite IH by done.
      destruct (String.eqb_spec n name); [congruence|done]. }
    apply elem_of_cons in Hin as [->|]; [|done].
    rewrite String.eqb_refl. exists 0%nat. split; [f_equal; lia|done].
Qed.

(** A selected column reads as what is stored, NULL when nothing is. *)
Lemma get_select name cols cells :
  name ∈ cols -> get (select cols cells) name = Ok (default VNull (cells !! name)).
Proof.
  intros Hin. unfold get, find_column_index, select. cbn [column_names].
  destruct (index_of_spec name cols 0 Hin) as (j & -> & Hj). cbn. unfold get_at. cbn.
  by rewrite list_lookup_fmap, Hj.
Qed.

Lemma has_column_select name cols cells : name ∈ cols -> has_column (select cols cells) name = true.
Proof.
  intros Hin. unfold has_column. cbn. by destruct (index_of_spec name cols 0 Hin) as (j & -> & _).
Qed.

(** ** Column lists *)

Definition mk_cells (l : list (string * ScyllaValue)) : Cells := list_to_map l.

Fixpoint column (name : string) (l : list (string * ScyllaValue)) : option ScyllaValue :=
  match l with
  | [] => None
  | (n, v) :: l => if String.eqb n name then Some v else column name l
  end.

Lemma lookup_mk_cells name l : mk_cells l !! name = column name l.
Proof.
  unfold mk_cells. induction l as [|[n v] l IH]; [done|]. cbn.
  destruct (String.eqb_spec n name) as [->|Hne]; [by rewrite lookup_insert_eq|].
  by rewrite lookup_insert_ne.
Qed.

(** Reading a column of a row whose stored columns are known. *)
Lemma get_select_cells name cols l :
  bool_decide (name ∈ cols) = true ->
  get (select cols (mk_cells l)) name = Ok (default VNull (column name l)).
Proof. intros Hin%bool_decide_eq_true. by rewrite get_select, lookup_mk_cells. Qed.

Section read_cells.
Context (name : string) (cols : list string) (l : list (string * ScyllaValue)).
Hypothesis Hin : bool_decide (name ∈ cols) = true.

Lemma get_cell v : column name l = Some v -> get (select cols (mk_cells l)) name = Ok v.
Proof. intros H. rewrite get_select_cells by done. by rewrite H. Qed.

Lemma get_string_cell s :
  column name l = Some (VString s) -> get_string (select cols (mk_cells l)) name = Ok s.
Proof. intros H%get_cell. unfold get_string. by rewrite H. Qed.

Lemma get_int_cell z : column name l = Some (VInt z) -> get_int (select cols (mk_cells l)) name = Ok z.
Proof. intros H%get_cell. unfold get_int. by rewrite H. Qed.

Lemma get_int64_cell z :
  column name l = Some (VInt64 z) -> get_int64 (select cols (mk_cells l)) name = Ok z.
Proof. intros H%get_cell. unfold get_int64. by rewrite H. Qed.

Lemma get_timestamp_cell z :
  column name l = Some (VInt64 z) -> get_timestamp (select cols (mk_cells l)) name = Ok z.
Proof. intros H%get_cell. unfold get_timestamp. by rewrite H. Qed.

Lemma nullable_cell {A} (read : ScyllaRow -> string -> result exn A) v o :
  column name l = Some v ->
  (if value_is_null v then o = None
   else exists a, o = Some a /\ read (select cols (mk_cells l)) name = Ok a) ->
  nullable (select cols (mk_cells l)) name read = Ok o.
Proof.
  intros H%get_cell. unfold nullable, is_null. rewrite H. cbn.
  destruct (value_is_null v); [by intros ->|]. by intros (a & -> & ->).
Qed.

End read_cells.

Lemma mk_cells_app l1 l2 : mk_cells l1 ∪ mk_cells l2 = mk_cells (l1 ++ l2).
Proof. unfold mk_cells. by rewrite list_to_map_app. Qed.

(** The columns [l] after the columns [upd] were written over them. *)
Definition override (upd l : list (string * ScyllaValue)) : list (string * ScyllaValue) :=
  (fun kv => (kv.1, default kv.2 (column kv.1 upd))) <$> l.

Lemma column_override name upd l :
  column name (override upd l)
  = match column name l with Some v => Some (default v (column name upd)) | None => None end.
Proof.
  induction l as [|[n v] l IH]; [done|]. cbn. destruct (String.eqb_spec n name) as [->|]; done.
Qed.

Lemma mk_cells_override upd l :
  (forall name, is_Some (column name upd) -> is_Some (column name l)) ->
  mk_cells upd ∪ mk_cells l = mk_cells (override upd l).
Proof.
  intros Hsub. apply map_eq. intros name. rewrite lookup_union, !lookup_mk_cells, column_override.
  specialize (Hsub name). destruct (column name upd) as [v|], (column name l) as [v'|]; cbn; try done.
  by destruct Hsub.
Qed.

Lemma column_is_Some name l : is_Some (column name l) <-> name ∈ l.*1.
Proof.
  induction l as [|[n v] l IH]; cbn.
  - split; [by intros []|by intros ?%not_elem_of_nil].
  - destruct (String.eqb_spec n name) as [->|Hne]; rewrite elem_of_cons; [naive_solver|].
    rewrite IH. naive_solver.
Qed.

(** ** A finite-map table *)

#[export] Program Instance Z_cluster : ClusterOrder Z := {| cle := Z.le |}.

#[export] Program Instance string_cluster : ClusterOrder string := {| cle := String.le |}.

Definition prod_cle {A B} `{ClusterOrder A, ClusterOrder B} : relation (A * B) :=
  fun x y => cle x.1 y.1 /\ (x.1 = y.1 -> cle x.2 y.2).

#[export] Program Instance prod_cluster {A B} `{EqDecision A, ClusterOrder A, ClusterOrder B} :
  ClusterOrder (A * B) := {| cle := prod_cle |}.
Next Obligation.
  intros A B EA CA CB [a b] [a' b']. unfold prod_cle. cbn.
  destruct (decide (cle a a')); [|right; naive_solver].
  destruct (decide (a = a')); [|left; naive_solver].
  destruct (decide (cle b b')); [left|right]; naive_solver.
Defined.
Next Obligation.
  intros A B EA CA CB. split.
  - intros [a b]. split; reflexivity.
  - intros [a b] [a' b'] [a'' b''] [H1 H2] [H3 H4]. unfold prod_cle in *. cbn in *.
    split; [by transitivity a'|]. intros <-.
    assert (a = a') as <- by (by apply (anti_symm cle)). transitivity b'; auto.
Qed.
Next Obligation.
  intros A B EA CA CB [a b] [a' b'] [H1 H2] [H3 H4]. cbn in *.
  assert (a = a') as <- by (by apply (anti_symm cle)). f_equal. apply (anti_symm cle); auto.
Qed.
Next Obligation.
  intros A B EA CA CB [a b] [a' b']. unfold prod_cle. cbn.
  destruct (decide (a = a')) as [<-|Hne].
  - destruct (total cle b b'); [left|right]; split; auto; reflexivity.
  - destruct (total cle a a'); [left|right]; split; try done; congruence.
Qed.

Section gtable.
Context {P C : Type} `{EqDecision P, Countable P, EqDecision C, Countable C, !ClusterOrder C}.

Definition GTable : Type := gmap (P * C) Cells.

Definition row_le : relation (C * Cells) := fun x y => cle x.1 y.1.
#[local] Instance row_le_dec : RelDecision row_le.
Proof. intros x y. unfold row_le. apply _. Defined.

Definition gscan (p : P) (t : GTable) : list (C * Cells) :=
  merge_sort row_le (omap (fun kv => if decide (kv.1.1 = p) then Some (kv.1.2, kv.2) else None)
                          (map_to_list t)).

Lemma elem_of_gscan p t c r : (c, r) ∈ gscan p t <-> t !! (p, c) = Some r.
Proof.
  unfold gscan. rewrite merge_sort_Permutation, list_elem_of_omap. split.
  - intros ([[p' c'] r'] & Hin & Hd). cbn in Hd. case_decide; [|done]. simplify_eq.
    by apply elem_of_map_to_list.
  - intros Hl. exists ((p, c), r). split; [by apply elem_of_map_to_list|]. cbn. by rewrite decide_True.
Qed.

Lemma omap_partition_nodup p (l : list (P * C * Cells)) :
  NoDup l.*1 ->
  NoDup (omap (fun kv => if decide (kv.1.1 = p) then Some (kv.1.2, kv.2) else None) l).*1.
Proof.
  induction l as [|[[p' c] r] l IH]; intros Hnd; [constructor|].
  cbn in *. apply NoDup_cons in Hnd as [Hnin Hnd]. case_decide as Hp; [|by apply IH]. cbn.
  apply NoDup_cons. split; [|by apply IH]. intros Hin. apply Hnin.
  apply list_elem_of_fmap in Hin as ([c' r'] & Hc & Hin). cbn in Hc. subst.
  apply list_elem_of_omap in Hin as ([[p'' c''] r''] & Hin & Hd). cbn in Hd. case_decide; [|done].
  simplify_eq. apply list_elem_of_fmap. by exists ((p, c'), r').
Qed.

Lemma gscan_nodup p t : NoDup (gscan p t).*1.
Proof.
  unfold gscan. rewrite merge_sort_Permutation. apply omap_partition_nodup, NoDup_fst_map_to_list.
Qed.

Lemma gscan_sorted p t : StronglySorted cle (gscan p t).*1.
Proof.
  assert (StronglySorted row_le (gscan p t)) as Hs.
  { unfold gscan. eapply StronglySorted_merge_sort.
    - intros x y z. unfold row_le. apply transitivity.
    - intros x y. unfold row_le. apply (total cle). }
  induction Hs as [|[c r] l _ IH Hall]; [constructor|]. cbn. constructor; [done|].
  apply Forall_fmap. exact Hall.
Qed.

#[export] Program Instance gtable_cql : CqlTable GTable P C := {|
  cells p c t := t !! (p, c);
  upsert p c r t := <[(p, c) := r ∪ default ∅ (t !! (p, c))]> t;
  scan := gscan;
|}.
Next Obligation. intros. apply lookup_insert_eq. Qed.
Next Obligation. intros. by apply lookup_insert_ne. Qed.
Next Obligation. intros. apply elem_of_gscan. Qed.
Next Obligation. intros. apply gscan_nodup. Qed.
Next Obligation. intros. apply gscan_sorted. Qed.

End gtable.
#[global] Arguments GTable P C {_ _ _ _}.

(** ** [omap] with a function that always answers *)

Section omap_total.
Context {A B : Type} (f : A -> option B) (g : A -> bool) (h : B -> bool).

Lemma omap_take_total l n :
  (forall a, a ∈ l -> is_Some (f a)) -> omap f (take n l) = take n (omap f l).
Proof.
  revert n. induction l as [|a l IH]; intros n Hl; [by destruct n|].
  destruct n as [|n]; [done|]. cbn. destruct (Hl a) as [b Hb]; [left|]. rewrite Hb. cbn.
  rewrite IH; [done|]. intros. apply Hl. by right.
Qed.

Lemma omap_filter_total l :
  (forall a b, a ∈ l -> f a = Some b -> g a = h b) -> (forall a, a ∈ l -> is_Some (f a)) ->
  omap f (List.filter g l) = List.filter h (omap f l).
Proof.
  induction l as [|a l IH]; intros Hgh Hl; [done|]. cbn. destruct (Hl a) as [b Hb]; [left|].
  rewrite (Hgh a b) by (done || left). rewrite Hb. cbn.
  assert (omap f (List.filter g l) = List.filter h (omap f l)) as <-.
  { apply IH; intros; [eapply Hgh|apply Hl]; try done; by right. }
  destruct (h b); cbn; [by rewrite Hb|done].
Qed.

End omap_total.

(** ** Representation *)

Section entity_table.
Context {T P C E : Type} `{Countable P, Countable C, HO : !ClusterOrder C, HT : !CqlTable T P C}.
Context (columns : E -> list (string * ScyllaValue)) (at_key : P * C -> E -> Prop).
Context (decode : P -> C * Cells -> result exn E).
Hypothesis decode_columns : forall p c e, at_key (p, c) e -> decode p (c, mk_cells (columns e)) = Ok e.
Implicit Types (t : T) (m : gmap (P * C) E) (p : P) (c : C).

Definition table_repr t m : Prop :=
  (forall p c, cells p c t = (fun e => mk_cells (columns e)) <$> m !! (p, c)) /\ map_Forall at_key m.

Lemma table_repr_at t m p c e : table_repr t m -> m !! (p, c) = Some e -> at_key (p, c) e.
Proof. intros [_ Hm] He. exact (map_Forall_lookup_1 _ _ _ _ Hm He). Qed.

(** Writing columns that turn the row at a key into the columns of [e]. *)
Lemma table_repr_upsert t m p c cols e :
  table_repr t m -> at_key (p, c) e ->
  mk_cells cols ∪ default ∅ (cells p c t) = mk_cells (columns e) ->
  table_repr (upsert p c (mk_cells cols) t) (<[(p, c) := e]> m).
Proof.
  intros [Hc Hm] He Hcols. split; [|by apply map_Forall_insert_2].
  intros p' c'. destruct (decide ((p, c) = (p', c'))) as [[= <- <-]|Hne].
  - by rewrite cells_upsert, Hcols, lookup_insert_eq.
  - by rewrite cells_upsert_ne, lookup_insert_ne.
Qed.

(** Entities that have the same columns, as rows inserted whole have. *)
Lemma table_repr_insert t m p c cols e :
  (forall e', at_key (p, c) e' -> (columns e').*1 ⊆ cols.*1) ->
  table_repr t m -> at_key (p, c) e -> mk_cells cols = mk_cells (columns e) ->
  table_repr (upsert p c (mk_cells cols) t) (<[(p, c) := e]> m).
Proof.
  intros Hsame Hr He Hcols. apply table_repr_upsert; [done..|].
  rewrite <- Hcols. destruct Hr as [Hc Hm]. rewrite Hc. destruct (m !! (p, c)) as [e'|] eqn:He'; cbn.
  - apply map_eq. intros n. rewrite lookup_union, !lookup_mk_cells.
    pose proof (Hsame e' (map_Forall_lookup_1 _ _ _ _ Hm He') n) as Hn.
    rewrite <- !column_is_Some in Hn. destruct (column n cols), (column n (columns e')); try done.
    destruct Hn as [? [=]]. by eexists.
  - by rewrite map_union_empty.
Qed.

(** The entities of a partition, in clustering order. *)
Definition entities_of (m : gmap (P * C) E) p (l : list (C * Cells)) : list E :=
  omap (fun cr : C * Cells => m !! (p, cr.1)) l.
Definition entities m p t : list E := entities_of m p (scan p t).

Lemma scan_entity t m p c r :
  table_repr t m -> (c, r) ∈ scan p t -> exists e, m !! (p, c) = Some e /\ r = mk_cells (columns e).
Proof.
  intros [Hc _] Hin. apply scan_spec in Hin. rewrite Hc in Hin.
  apply fmap_Some in Hin as (e & Hl & ->). by exists e.
Qed.

Lemma scan_total t m p (x : C * Cells) : table_repr t m -> x ∈ scan p t -> is_Some (m !! (p, x.1)).
Proof.
  intros Hr Hin. destruct x as [c r]. destruct (scan_entity t m p c r) as (e & He & _); [done..|]. by exists e.
Qed.

Lemma decode_rows t m p l :
  table_repr t m -> (forall x, x ∈ l -> x ∈ scan p t) -> map_result (decode p) l = Ok (entities_of m p l).
Proof.
  intros Hr. induction l as [|[c r] l IH]; intros Hl; [done|].
  destruct (scan_entity t m p c r) as (e & He & ->); [done|apply Hl; left|].
  unfold entities_of in *. cbn. rewrite He, decode_columns by (by eapply table_repr_at). cbn.
  rewrite IH by (intros; apply Hl; by right). done.
Qed.

Lemma elem_of_entities t m p e : table_repr t m -> e ∈ entities m p t <-> exists c, m !! (p, c) = Some e.
Proof.
  intros Hr. unfold entities, entities_of. rewrite list_elem_of_omap. split.
  - intros ([c r] & _ & He). by exists c.
  - intros [c He]. exists (c, mk_cells (columns e)). split; [|done].
    apply scan_spec. destruct Hr as [Hc _]. by rewrite Hc, He.
Qed.

Lemma entities_take t m p n l :
  table_repr t m -> (forall x, x ∈ l -> x ∈ scan p t) -> entities_of m p (take n l) = take n (entities_of m p l).
Proof. intros Hr Hl. apply omap_take_total. intros x Hx. eapply scan_total; [done|]. by apply Hl. Qed.

Lemma entities_filter t m p (g : C -> bool) (h : E -> bool) l :
  table_repr t m -> (forall x, x ∈ l -> x ∈ scan p t) ->
  (forall c e, at_key (p, c) e -> g c = h e) ->
  entities_of m p (List.filter (fun x => g x.1) l) = List.filter h (entities_of m p l).
Proof.
  intros Hr Hl Hgh. apply omap_filter_total.
  - intros [c r] e Hx He. apply Hgh. eapply table_repr_at; [done|]. exact He.
  - intros x Hx. eapply scan_total; [done|]. by apply Hl.
Qed.

(** The entities stand in the order of their keys, each key once. *)
Lemma entities_clusters t m p (cluster : E -> C) :
  table_repr t m -> (forall c e, at_key (p, c) e -> cluster e = c) -> cluster <$> entities m p t = (scan p t).*1.
Proof.
  intros Hr Hk. unfold entities.
  assert (Hl : forall x, x ∈ scan p t -> x ∈ scan p t) by done. revert Hl.
  generalize (scan p t) at 1 3 4 as l. induction l as [|[c r] l IH]; intros Hl; [done|].
  destruct (scan_entity t m p c r) as (e & He & _); [done|apply Hl; left|].
  unfold entities_of in *. cbn. rewrite He. cbn. f_equal.
  - apply Hk. by eapply table_repr_at.
  - apply IH. intros. apply Hl. by right.
Qed.

End entity_table.
