(* ===== verification/DeliveryTypes.v ===== *)
(** * Delivery states and their transition guard

    Models the enumerations of [src/messaging/domain/message_types.hpp],
    [envelope_types.hpp], [delivery_types.hpp], [read_receipt_types.hpp] with
    their text forms, the state machine of
    [src/messaging/service/delivery_state_transition_guard.cpp] in both its
    overloads, the helpers of [delivery_lifecycle.cpp] and the retry decision of
    [delivery_retry_policy.cpp].  Error results keep their code; the message text
    is dropped. *)

From S2P Require Import Prelude Ids.

(** ** Enumerations *)

Inductive MessagePriority := Normal | Urgent | Emergency.
Inductive DeliveryState := Queued | Delivering | Delivered | Read | RetryWait | Expired.
Inductive DeliveryAttemptResult := Success | RecipientOffline | TransientFailure | TerminalFailure.
Inductive ReadState := RS_Unread | RS_Read.
Inductive E2EProtocolVersion := ProtoUnspecified | V1_Signal_PQXDH_DoubleRatchet | V2_Hybrid_PostQuantum.
Inductive E2EAlgorithm := AlgoUnspecified | XChaCha20_Poly1305 | AES_256_GCM.

(** The [v1::DeliveryState] of the wire format. *)
Inductive ProtoDeliveryState :=
| DELIVERY_STATE_UNSPECIFIED | DELIVERY_STATE_QUEUED | DELIVERY_STATE_DELIVERING
| DELIVERY_STATE_DELIVERED | DELIVERY_STATE_READ | DELIVERY_STATE_RETRY_WAIT | DELIVERY_STATE_EXPIRED.

(** The [v1::MessagingErrorCode] a [ServiceResult] fails with. *)
Inductive MessagingErrorCode :=
| UNSPECIFIED | CONVERSATION_NOT_FOUND | NOT_A_PARTICIPANT | DEVICE_REVOKED | IDEMPOTENCY_CONFLICT
| PAYLOAD_TOO_LARGE | QUEUE_CAPACITY_EXCEEDED | CURSOR_OUT_OF_BOUNDS | INVALID_TARGET_DEVICE
| MESSAGE_EXPIRED.

Inductive ReceiptType := RECEIPT_TYPE_UNSPECIFIED | RECEIPT_TYPE_DELIVERY | RECEIPT_TYPE_READ.

#[export] Instance MessagePriority_eq_dec : EqDecision MessagePriority.
Proof. solve_decision. Defined.
#[export] Instance DeliveryState_eq_dec : EqDecision DeliveryState.
Proof. solve_decision. Defined.
#[export] Instance DeliveryAttemptResult_eq_dec : EqDecision DeliveryAttemptResult.
Proof. solve_decision. Defined.
#[export] Instance ReadState_eq_dec : EqDecision ReadState.
Proof. solve_decision. Defined.
#[export] Instance E2EProtocolVersion_eq_dec : EqDecision E2EProtocolVersion.
Proof. solve_decision. Defined.
#[export] Instance E2EAlgorithm_eq_dec : EqDecision E2EAlgorithm.
Proof. solve_decision. Defined.
#[export] Instance ProtoDeliveryState_eq_dec : EqDecision ProtoDeliveryState.
Proof. solve_decision. Defined.
#[export] Instance MessagingErrorCode_eq_dec : EqDecision MessagingErrorCode.
Proof. solve_decision. Defined.
#[export] Instance ReceiptType_eq_dec : EqDecision ReceiptType.
Proof. solve_decision. Defined.

(** [ServiceResult<T>]: a value or an error code. *)
Definition ServiceResult (A : Type) : Type := result MessagingErrorCode A.

(** ** Text forms *)

Definition priority_to_string (p : MessagePriority) : string :=
  match p with Normal => "NORMAL" | Urgent => "URGENT" | Emergency => "EMERGENCY" end.

Definition message_priority_from_string (s : string) : option MessagePriority :=
  if String.eqb s "NORMAL" then Some Normal
  else if String.eqb s "URGENT" then Some Urgent
  else if String.eqb s "EMERGENCY" then Some Emergency
  else None.

Definition delivery_state_to_string (s : DeliveryState) : string :=
  match s with
  | Queued => "QUEUED"
  | Delivering => "DELIVERING"
  | Delivered => "DELIVERED"
  | Read => "READ"
  | RetryWait => "RETRY_WAIT"
  | Expired => "EXPIRED"
  end.

Definition delivery_state_from_string (s : string) : option DeliveryState :=
  if String.eqb s "QUEUED" || String.eqb s "PENDING" then Some Queued
  else if String.eqb s "DELIVERING" then Some Delivering
  else if String.eqb s "DELIVERED" then Some Delivered
  else if String.eqb s "READ" then Some Read
  else if String.eqb s "RETRY_WAIT" then Some RetryWait
  else if String.eqb s "EXPIRED" then Some Expired
  else None.

Definition attempt_result_to_string (r : DeliveryAttemptResult) : string :=
  match r with
  | Success => "SUCCESS"
  | RecipientOffline => "RECIPIENT_OFFLINE"
  | TransientFailure => "TRANSIENT_FAILURE"
  | TerminalFailure => "TERMINAL_FAILURE"
  end.

Definition delivery_attempt_result_from_string (s : string) : option DeliveryAttemptResult :=
  if String.eqb s "SUCCESS" then Some Success
  else if String.eqb s "RECIPIENT_OFFLINE" then Some RecipientOffline
  else if String.eqb s "TRANSIENT_FAILURE" then Some TransientFailure
  else if String.eqb s "TERMINAL_FAILURE" then Some TerminalFailure
  else None.

Definition read_state_to_string (s : ReadState) : string :=
  match s with RS_Unread => "UNREAD" | RS_Read => "READ" end.

Definition read_state_from_string (s : string) : option ReadState :=
  if String.eqb s "UNREAD" then Some RS_Unread
  else if String.eqb s "READ" then Some RS_Read
  else None.

(** [static_cast<int32_t>] of the protocol version. *)
Definition protocol_version_to_int (v : E2EProtocolVersion) : Z :=
  match v with ProtoUnspecified => 0 | V1_Signal_PQXDH_DoubleRatchet => 1 | V2_Hybrid_PostQuantum => 2 end.

Definition e2e_protocol_version_from_int (z : Z) : option E2EProtocolVersion :=
  if z =? 1 then Some V1_Signal_PQXDH_DoubleRatchet
  else if z =? 2 then Some V2_Hybrid_PostQuantum
  else None.

Definition algorithm_to_string (a : E2EAlgorithm) : string :=
  match a with
  | XChaCha20_Poly1305 => "XChaCha20-Poly1305"
  | AES_256_GCM => "AES-256-GCM"
  | AlgoUnspecified => "UNSPECIFIED"
  end.

Definition e2e_algorithm_from_string (s : string) : option E2EAlgorithm :=
  if String.eqb s "XChaCha20-Poly1305" || String.eqb s "xchacha20-poly1305"
     || String.eqb s "XCHACHA20_POLY1305" then Some XChaCha20_Poly1305
  else if String.eqb s "AES-256-GCM" || String.eqb s "aes-256-gcm" || String.eqb s "AES_256_GCM"
  then Some AES_256_GCM
  else None.

(** ** The transition guard *)

Definition can_transition (current next : DeliveryState) : bool :=
  match current with
  | Queued => match next with Delivering | Expired => true | _ => false end
  | Delivering => match next with Delivered | RetryWait | Expired => true | _ => false end
  | RetryWait => match next with Delivering | Expired => true | _ => false end
  | Delivered => match next with Read => true | _ => false end
  | Read | Expired => false
  end.

Definition is_regression (current candidate : DeliveryState) : bool :=
  if bool_decide (current = candidate) then false
  else
    match current with
    | Delivered => match candidate with Queued | Delivering | RetryWait => true | _ => false end
    | Read => match candidate with Delivered | Delivering | RetryWait | Queued => true | _ => false end
    | Expired =>
        match candidate with Queued | Delivering | RetryWait | Delivered | Read => true | _ => false end
    | Delivering => match candidate with Queued => true | _ => false end
    | RetryWait => match candidate with Queued => true | _ => false end
    | Queued => false
    end.

Definition is_idempotent (current candidate : DeliveryState) : bool := bool_decide (current = candidate).

Definition is_terminal (s : DeliveryState) : bool :=
  match s with Delivered | Read | Expired => true | _ => false end.

Definition validate_transition (current next : DeliveryState) : ServiceResult unit :=
  if is_idempotent current next then Ok tt
  else if bool_decide (current = Expired) then Err MESSAGE_EXPIRED
  else if is_regression current next then Err UNSPECIFIED
  else if negb (can_transition current next) then Err UNSPECIFIED
  else Ok tt.

(** *** The overloads on the wire enumeration *)

Definition can_transition_v1 (current next : ProtoDeliveryState) : bool :=
  match current with
  | DELIVERY_STATE_QUEUED =>
      match next with DELIVERY_STATE_DELIVERING | DELIVERY_STATE_EXPIRED => true | _ => false end
  | DELIVERY_STATE_DELIVERING =>
      match next with
      | DELIVERY_STATE_DELIVERED | DELIVERY_STATE_RETRY_WAIT | DELIVERY_STATE_EXPIRED => true
      | _ => false
      end
  | DELIVERY_STATE_RETRY_WAIT =>
      match next with DELIVERY_STATE_DELIVERING | DELIVERY_STATE_EXPIRED => true | _ => false end
  | DELIVERY_STATE_DELIVERED => match next with DELIVERY_STATE_READ => true | _ => false end
  | DELIVERY_STATE_READ | DELIVERY_STATE_EXPIRED | DELIVERY_STATE_UNSPECIFIED => false
  end.

Definition is_regression_v1 (current candidate : ProtoDeliveryState) : bool :=
  if bool_decide (current = candidate) then false
  else
    match current with
    | DELIVERY_STATE_DELIVERED =>
        match candidate with
        | DELIVERY_STATE_QUEUED | DELIVERY_STATE_DELIVERING | DELIVERY_STATE_RETRY_WAIT => true
        | _ => false
        end
    | DELIVERY_STATE_READ =>
        match candidate with
        | DELIVERY_STATE_DELIVERED | DELIVERY_STATE_DELIVERING | DELIVERY_STATE_RETRY_WAIT
        | DELIVERY_STATE_QUEUED => true
        | _ => false
        end
    | DELIVERY_STATE_EXPIRED =>
        match candidate with
        | DELIVERY_STATE_QUEUED | DELIVERY_STATE_DELIVERING | DELIVERY_STATE_RETRY_WAIT
        | DELIVERY_STATE_DELIVERED | DELIVERY_STATE_READ => true
        | _ => false
        end
    | DELIVERY_STATE_DELIVERING | DELIVERY_STATE_RETRY_WAIT =>
        match candidate with DELIVERY_STATE_QUEUED => true | _ => false end
    | DELIVERY_STATE_QUEUED | DELIVERY_STATE_UNSPECIFIED => false
    end.

Definition is_idempotent_v1 (current candidate : ProtoDeliveryState) : bool :=
  bool_decide (current = candidate) && bool_decide (current <> DELIVERY_STATE_UNSPECIFIED).

Definition is_terminal_v1 (s : ProtoDeliveryState) : bool :=
  match s with
  | DELIVERY_STATE_DELIVERED | DELIVERY_STATE_READ | DELIVERY_STATE_EXPIRED => true
  | _ => false
  end.

Definition validate_transition_v1 (current next : ProtoDeliveryState) : ServiceResult unit :=
  if is_idempotent_v1 current next then Ok tt
  else if bool_decide (current = DELIVERY_STATE_EXPIRED) then Err MESSAGE_EXPIRED
  else if is_regression_v1 current next then Err UNSPECIFIED
  else if negb (can_transition_v1 current next) then Err UNSPECIFIED
  else Ok tt.

(** *** Read states *)

Definition can_transition_read (current next : ReadState) : bool :=
  match current with
  | RS_Unread => bool_decide (next = RS_Read)
  | RS_Read => false
  end.

Definition is_read_idempotent (current candidate : ReadState) : bool := bool_decide (current = candidate).

Definition is_read_regression (current candidate : ReadState) : bool :=
  bool_decide (current = RS_Read) && bool_decide (candidate = RS_Unread).

Definition validate_read_transition (current next : ReadState) : ServiceResult unit :=
  if is_read_idempotent current next then Ok tt
  else if is_read_regression current next then Err UNSPECIFIED
  else if negb (can_transition_read current next) then Err UNSPECIFIED
  else Ok tt.

(** ** [delivery_lifecycle.cpp] *)

Definition to_proto_delivery_state (s : DeliveryState) : ProtoDeliveryState :=
  match s with
  | Queued => DELIVERY_STATE_QUEUED
  | Delivering => DELIVERY_STATE_DELIVERING
  | Delivered => DELIVERY_STATE_DELIVERED
  | Read => DELIVERY_STATE_READ
  | RetryWait => DELIVERY_STATE_RETRY_WAIT
  | Expired => DELIVERY_STATE_EXPIRED
  end.

Definition from_proto_delivery_state (s : ProtoDeliveryState) : option DeliveryState :=
  match s with
  | DELIVERY_STATE_QUEUED => Some Queued
  | DELIVERY_STATE_DELIVERING => Some Delivering
  | DELIVERY_STATE_DELIVERED => Some Delivered
  | DELIVERY_STATE_READ => Some Read
  | DELIVERY_STATE_RETRY_WAIT => Some RetryWait
  | DELIVERY_STATE_EXPIRED => Some Expired
  | DELIVERY_STATE_UNSPECIFIED => None
  end.

Definition k_default_page_limit : Z := 50.
Definition k_max_page_limit : Z := 100.

Definition is_valid_sequence (sequence : Z) : bool := 0 <=? sequence.

Definition is_valid_cursor_progression (current_sequence new_sequence : Z) : bool :=
  is_valid_sequence new_sequence && (current_sequence <? new_sequence).

Definition is_valid_page_limit (limit : Z) : bool := (1 <=? limit) && (limit <=? k_max_page_limit).

Definition sanitize_page_limit (requested_limit : Z) : Z :=
  if requested_limit =? 0 then k_default_page_limit else Z.min requested_limit k_max_page_limit.

Definition is_valid_receipt_type (t : ReceiptType) : bool :=
  match t with RECEIPT_TYPE_DELIVERY | RECEIPT_TYPE_READ => true | RECEIPT_TYPE_UNSPECIFIED => false end.

(** ** [delivery_retry_policy.cpp] *)

Definition is_retryable (max_retry_attempts : Z) (res : DeliveryAttemptResult) (attempt_count : Z)
    (expires_at : option Z) (now : Z) : bool :=
  if bool_decide (res = Success) || bool_decide (res = TerminalFailure) then false
  else if max_retry_attempts <=? attempt_count then false
  else
    match expires_at with
    | Some e => if e <=? now then false else true
    | None => true
    end.

(** ** Text forms are inverse to their parsers *)

Lemma priority_text p : message_priority_from_string (priority_to_string p) = Some p.
Proof. by destruct p. Qed.
Lemma delivery_state_text s : delivery_state_from_string (delivery_state_to_string s) = Some s.
Proof. by destruct s. Qed.
Lemma attempt_result_text r : delivery_attempt_result_from_string (attempt_result_to_string r) = Some r.
Proof. by destruct r. Qed.
Lemma read_state_text s : read_state_from_string (read_state_to_string s) = Some s.
Proof. by destruct s. Qed.
Lemma algorithm_text a :
  a <> AlgoUnspecified -> e2e_algorithm_from_string (algorithm_to_string a) = Some a.
Proof. by destruct a. Qed.
Lemma protocol_version_int v :
  v <> ProtoUnspecified -> e2e_protocol_version_from_int (protocol_version_to_int v) = Some v.
Proof. by destruct v. Qed.

(** ** The state machine under any sequence of attempts *)

(** A device state on which a client validates each requested state and keeps the
    current one when the guard refuses. *)
Definition attempt (next s : DeliveryState) : DeliveryState :=
  if is_ok (validate_transition s next) then next else s.

(** Where a delivery can still go: [s] reaches [s'] through accepted attempts. *)
Definition reaches (s s' : DeliveryState) : Prop := exists attempts, exec_all attempt attempts s = s'.

Lemma reaches_refl s : reaches s s.
Proof. by exists []. Qed.

(** A set of states no accepted attempt leaves is never left. *)
Lemma attempts_stay (S : DeliveryState -> Prop) attempts s :
  (forall s n, S s -> S (attempt n s)) -> S s -> S (exec_all attempt attempts s).
Proof.
  intros Hstep Hs. apply (exec_all_inv attempt S (fun _ => True)); [|by apply Forall_true|done].
  intros n s' _. apply Hstep.
Qed.

(** No regression, made inductive by the terminal states. *)
Definition beyond (s0 s : DeliveryState) : bool :=
  negb (is_regression s0 s) &&
  match s0 with
  | Expired | Read => bool_decide (s = s0)
  | Delivered => bool_decide (s = Delivered) || bool_decide (s = Read)
  | _ => true
  end.

Lemma attempts_beyond attempts s : beyond s (exec_all attempt attempts s) = true.
Proof.
  apply (attempts_stay (fun s' => beyond s s' = true)); [|by destruct s].
  intros s' n. destruct s, s', n; vm_compute; congruence.
Qed.

(** From the initial state every state is reached by one accepted path. *)
Lemma queued_reaches s : reaches Queued s.
Proof.
  destruct s.
  - by exists [].
  - by exists [Delivering].
  - by exists [Delivering; Delivered].
  - by exists [Delivering; Delivered; Read].
  - by exists [Delivering; RetryWait].
  - by exists [Expired].
Qed.

(** Delivery states never regress.  Whatever states are requested of a
    delivery, in any order, applying those the guard validates never takes it to a
    state the guard calls a regression of where it was; an expired delivery stays
    expired, a delivered one is delivered or read for ever; and no state is
    unreachable from the queue. *)
Theorem delivery_never_regresses (attempts : list DeliveryState) (s : DeliveryState) :
  let s' := exec_all attempt attempts s in
  is_regression s s' = false /\
  (s = Expired -> s' = Expired) /\
  (s = Read -> s' = Read) /\
  (s = Delivered -> s' = Delivered \/ s' = Read) /\
  (is_terminal s = true -> is_terminal s' = true) /\
  reaches Queued s.
Proof.
  cbn zeta. pose proof (attempts_beyond attempts s) as Hb.
  split_and!; [..|apply queued_reaches];
    destruct (exec_all attempt attempts s), s; vm_compute in Hb |- *; intros; try done; auto.
Qed.

(** The guard's verdict, and the agreement of its two overloads.  A
    transition validates exactly when it is a no-op or an edge of the life cycle,
    an edge is never a regression, and the only other error than the generic one is
    the expiry of the current state; and the overload on the wire enumeration
    decides every question as the one on domain states does. *)
Theorem guard_verdict_and_overloads (c n : DeliveryState) :
  (is_ok (validate_transition c n) = true <-> c = n \/ can_transition c n = true) /\
  (can_transition c n = true -> is_regression c n = false /\ is_idempotent c n = false) /\
  (validate_transition c n = Err MESSAGE_EXPIRED <-> c = Expired /\ n <> Expired) /\
  from_proto_delivery_state (to_proto_delivery_state c) = Some c /\
  can_transition_v1 (to_proto_delivery_state c) (to_proto_delivery_state n) = can_transition c n /\
  is_regression_v1 (to_proto_delivery_state c) (to_proto_delivery_state n) = is_regression c n /\
  is_idempotent_v1 (to_proto_delivery_state c) (to_proto_delivery_state n) = is_idempotent c n /\
  is_terminal_v1 (to_proto_delivery_state c) = is_terminal c /\
  validate_transition_v1 (to_proto_delivery_state c) (to_proto_delivery_state n) = validate_transition c n.
Proof. destruct c, n; vm_compute; intuition congruence. Qed.
