(* ===== verification/DeliveryRepo.v ===== *)
(** * The delivery state repository

    Models [src/messaging/repository/scylla_delivery_state_repository.cpp] over
    the two CQL tables it writes, [pending_deliveries_by_device] and
    [delivery_state_by_message] (keys from
    [db/migrations/V002__create_messaging_tables.cql]).  Every operation holds the
    repository's mutex, so operations are functions on the repository state.  A
    failure of the database session propagates out of every operation and is not
    modelled; the exceptions of the row accessors are. *)

From S2P Require Import Prelude Ids Scylla DeliveryTypes.
From stdpp Require Import sorting.
#[local] Open Scope Z_scope.

(** ** Entities *)

Record DeviceDeliveryRecord := mkDeliveryRecord {
  dr_device_id : DeviceId;
  dr_delivery_bucket : string;
  dr_accepted_at : Z;
  dr_message_id : MessageId;
  dr_conversation_id : ConversationId;
  dr_message_sequence : Z;
  dr_message_priority : MessagePriority;
  dr_delivery_state : DeliveryState;
  dr_attempt_count : Z;
  dr_next_retry_at : option Z;
  dr_ciphertext_blob : string;
  dr_ephemeral_public_key : list Z;
  dr_iv : list Z;
  dr_auth_tag : list Z;
  dr_algorithm : E2EAlgorithm;
  dr_protocol_version : E2EProtocolVersion;
  dr_one_time_prekey_id : option string;
}.

Record RecipientDeliveryState := mkRecipientState {
  rs_message_id : MessageId;
  rs_recipient_device_id : DeviceId;
  rs_recipient_user_id : UserId;
  rs_delivery_state : DeliveryState;
  rs_delivered_at : option Z;
  rs_read_at : option Z;
}.

Record LogicalRecipientReadStatus := mkReadStatus {
  lr_user_id : UserId;
  lr_read_state : ReadState;
  lr_read_at : option Z;
  lr_reader_device_id : option DeviceId;
}.

Record DeviceDeliveryStatus := mkDeviceStatus {
  ds_device_id : DeviceId;
  ds_recipient_user_id : UserId;
  ds_delivery_state : DeliveryState;
  ds_accepted_at : option Z;
  ds_delivered_at : option Z;
  ds_attempt_count : Z;
}.

Record MessageDeliverySummary := mkSummary {
  su_message_id : MessageId;
  su_conversation_id : ConversationId;
  su_total_targets : Z;
  su_delivered_targets : Z;
  su_pending_targets : Z;
  su_expired_targets : Z;
  su_device_statuses : list DeviceDeliveryStatus;
  su_recipient_read_statuses : list LogicalRecipientReadStatus;
}.

(** The default-constructed (nil) identifiers. *)
Definition nil_message_id : MessageId := mkMessageId Uuid.nil.
Definition nil_conversation_id : ConversationId := mkConversationId Uuid.nil.

(** Bytes of a [std::string] and back. *)
Definition blob_of_string (s : string) : list Z := code <$> chars s.
Definition string_of_blob (b : list Z) : string := of_chars (chr <$> b).

(** ** Rows *)

(** A column tested with [has_column] and [is_null] before it is read. *)
Definition optional_column {A} (row : ScyllaRow) (name : string)
    (read : ScyllaRow -> string -> result exn A) : result exn (option A) :=
  if has_column row name then nullable row name read else Ok None.

Definition row_to_delivery_record (row : ScyllaRow) : result exn DeviceDeliveryRecord :=
  let? device_id := get_string row "device_id" in
  let? delivery_bucket := get_string row "delivery_bucket" in
  let? accepted_at := get_timestamp row "accepted_at" in
  let? message_id := get_string row "message_id" in
  let? conversation_id := get_string row "conversation_id" in
  let? message_sequence := get_int64 row "message_sequence" in
  let? message_priority := get_string row "message_priority" in
  let? delivery_state := get_string row "delivery_state" in
  let? attempt_count := get_int row "attempt_count" in
  let? next_retry_at := nullable row "next_retry_at" get_timestamp in
  let? ciphertext_blob := optional_column row "ciphertext_blob" get_blob in
  let? ephemeral_public_key := optional_column row "ephemeral_public_key" get_blob in
  let? iv := optional_column row "iv" get_blob in
  let? auth_tag := optional_column row "auth_tag" get_blob in
  let? algorithm := optional_column row "algorithm" get_string in
  let? protocol_version := optional_column row "protocol_version" get_int in
  let? one_time_prekey_id := optional_column row "one_time_prekey_id" get_string in
  Ok {| dr_device_id := mkDeviceId device_id;
        dr_delivery_bucket := delivery_bucket;
        dr_accepted_at := from_ms accepted_at;
        dr_message_id := default nil_message_id (MessageId_from_string message_id);
        dr_conversation_id := default nil_conversation_id (ConversationId_from_string conversation_id);
        dr_message_sequence := u64 message_sequence;
        dr_message_priority := default Normal (message_priority_from_string message_priority);
        dr_delivery_state := default Queued (delivery_state_from_string delivery_state);
        dr_attempt_count := attempt_count;
        dr_next_retry_at := from_ms <$> next_retry_at;
        dr_ciphertext_blob := string_of_blob (default [] ciphertext_blob);
        dr_ephemeral_public_key := default [] ephemeral_public_key;
        dr_iv := default [] iv;
        dr_auth_tag := default [] auth_tag;
        dr_algorithm := default XChaCha20_Poly1305 (algorithm ≫= e2e_algorithm_from_string);
        dr_protocol_version :=
          default V1_Signal_PQXDH_DoubleRatchet (protocol_version ≫= e2e_protocol_version_from_int);
        dr_one_time_prekey_id := one_time_prekey_id |}.

Definition row_to_recipient_state (row : ScyllaRow) : result exn RecipientDeliveryState :=
  let? message_id := get_string row "message_id" in
  let? recipient_device_id := get_string row "recipient_device_id" in
  let? recipient_user_id := get_string row "recipient_user_id" in
  let? delivery_state := get_string row "delivery_state" in
  let? delivered_at := nullable row "delivered_at" get_timestamp in
  let? read_at := nullable row "read_at" get_timestamp in
  Ok {| rs_message_id := default nil_message_id (MessageId_from_string message_id);
        rs_recipient_device_id := mkDeviceId recipient_device_id;
        rs_recipient_user_id := mkUserId recipient_user_id;
        rs_delivery_state := default Queued (delivery_state_from_string delivery_state);
        rs_delivered_at := from_ms <$> delivered_at;
        rs_read_at := from_ms <$> read_at |}.

(** Bound parameters: a NULL for an absent time or an empty blob. *)
Definition timestamp_param (tp : option Z) : ScyllaValue :=
  match tp with Some t => VInt64 (to_ms t) | None => VNull end.
Definition blob_param (b : list Z) : ScyllaValue :=
  match b with [] => VNull | _ => VBlob b end.
Definition string_param (s : option string) : ScyllaValue :=
  match s with Some s => VString s | None => VNull end.

(** The regular columns [prep_insert_pending_] binds. *)
Definition pending_columns (r : DeviceDeliveryRecord) : list (string * ScyllaValue) :=
  [ ("conversation_id", VString (ConversationId_to_string (dr_conversation_id r)));
    ("message_sequence", VInt64 (i64 (dr_message_sequence r)));
    ("message_priority", VString (priority_to_string (dr_message_priority r)));
    ("delivery_state", VString (delivery_state_to_string (dr_delivery_state r)));
    ("attempt_count", VInt (dr_attempt_count r));
    ("next_retry_at", timestamp_param (dr_next_retry_at r));
    ("ciphertext_blob", blob_param (blob_of_string (dr_ciphertext_blob r)));
    ("ephemeral_public_key", blob_param (dr_ephemeral_public_key r));
    ("iv", blob_param (dr_iv r));
    ("auth_tag", blob_param (dr_auth_tag r));
    ("algorithm", VString (algorithm_to_string (dr_algorithm r)));
    ("protocol_version", VInt (protocol_version_to_int (dr_protocol_version r)));
    ("one_time_prekey_id", string_param (dr_one_time_prekey_id r)) ].

(** The columns [prep_insert_recipient_state_] binds. *)
Definition state_columns (s : RecipientDeliveryState) : list (string * ScyllaValue) :=
  [ ("recipient_user_id", VString (user_str (rs_recipient_user_id s)));
    ("delivery_state", VString (delivery_state_to_string (rs_delivery_state s)));
    ("delivered_at", timestamp_param (rs_delivered_at s));
    ("read_at", timestamp_param (rs_read_at s)) ].

(** Primary keys of the two tables. *)
Abbreviation PendingPartition := (string * string)%type.
Abbreviation PendingCluster := (Z * string)%type.

Definition pending_partition (r : DeviceDeliveryRecord) : PendingPartition :=
  (device_str (dr_device_id r), dr_delivery_bucket r).
Definition pending_cluster (r : DeviceDeliveryRecord) : PendingCluster :=
  (to_ms (dr_accepted_at r), MessageId_to_string (dr_message_id r)).

Definition pending_key_columns (p : PendingPartition) (c : PendingCluster) : list (string * ScyllaValue) :=
  [("device_id", VString p.1); ("delivery_bucket", VString p.2);
   ("accepted_at", VInt64 c.1); ("message_id", VString c.2)].

Definition state_key_columns (p c : string) : list (string * ScyllaValue) :=
  [("message_id", VString p); ("recipient_device_id", VString c)].

(** The selected columns. *)
Definition pending_select : list string :=
  ["device_id"; "delivery_bucket"; "accepted_at"; "message_id"; "conversation_id"; "message_sequence";
   "message_priority"; "delivery_state"; "attempt_count"; "next_retry_at"; "ciphertext_blob";
   "ephemeral_public_key"; "iv"; "auth_tag"; "algorithm"; "protocol_version"; "one_time_prekey_id"].

Definition state_select : list string :=
  ["message_id"; "recipient_device_id"; "recipient_user_id"; "delivery_state"; "delivered_at"; "read_at"].

Definition pending_row (p : PendingPartition) (cr : PendingCluster * Cells) : ScyllaRow :=
  select pending_select (mk_cells (pending_key_columns p cr.1) ∪ cr.2).
Definition state_row (p : string) (cr : string * Cells) : ScyllaRow :=
  select state_select (mk_cells (state_key_columns p cr.1) ∪ cr.2).

(** ** Iteration of [std::map<UserId, _>] in key order *)

Definition user_le {V} : relation (UserId * V) := fun x y => String.le (user_str x.1) (user_str y.1).
#[export] Instance user_le_dec {V} : RelDecision (@user_le V).
Proof. intros x y. unfold user_le. apply _. Defined.

Definition in_user_order {V} (m : gmap UserId V) : list V := (merge_sort user_le (map_to_list m)).*2.

(** ** Aggregation of a message's rows *)

(** [read_status_map[user]] default-constructs the entry. *)
Definition no_read_status : LogicalRecipientReadStatus :=
  mkReadStatus (mkUserId EmptyString) RS_Unread None None.

(** The branch of the summary loop that tracks the read status of a user. *)
Definition merge_read (user : UserId) (device : DeviceId) (row_read_at : option Z)
    (status : LogicalRecipientReadStatus) : LogicalRecipientReadStatus :=
  let status := mkReadStatus user (lr_read_state status) (lr_read_at status) (lr_reader_device_id status) in
  match row_read_at with
  | None => status
  | Some at_ =>
      if negb (bool_decide (lr_read_state status = RS_Read))
         || match lr_read_at status with None => true | Some t => at_ <? t end
      then mkReadStatus user RS_Read (Some at_) (Some device)
      else status
  end.

Record SummaryAcc := mkAcc {
  acc_total : Z; acc_delivered : Z; acc_pending : Z; acc_expired : Z;
  acc_devices : list DeviceDeliveryStatus;
  acc_reads : gmap UserId LogicalRecipientReadStatus;
}.

Definition summary_row (row : ScyllaRow) (acc : SummaryAcc) : result exn SummaryAcc :=
  let? device_id := get_string row "recipient_device_id" in
  let? user_id := get_string row "recipient_user_id" in
  let? state := get_string row "delivery_state" in
  let? delivered_at := nullable row "delivered_at" get_timestamp in
  let? read_at := nullable row "read_at" get_timestamp in
  let device := mkDeviceId device_id in
  let user := mkUserId user_id in
  let delivery_state := default Queued (delivery_state_from_string state) in
  let status := mkDeviceStatus device user delivery_state None (from_ms <$> delivered_at) 0 in
  Ok {| acc_total := u32 (acc_total acc + 1);
        acc_delivered :=
          if bool_decide (delivery_state = Delivered) then u32 (acc_delivered acc + 1) else acc_delivered acc;
        acc_expired :=
          if bool_decide (delivery_state = Delivered) then acc_expired acc
          else if bool_decide (delivery_state = Expired) then u32 (acc_expired acc + 1)
          else acc_expired acc;
        acc_pending :=
          if bool_decide (delivery_state = Delivered) then acc_pending acc
          else if bool_decide (delivery_state = Expired) then acc_pending acc
          else u32 (acc_pending acc + 1);
        acc_devices := acc_devices acc ++ [status];
        acc_reads :=
          <[user := merge_read user device (from_ms <$> read_at)
                      (default no_read_status (acc_reads acc !! user))]> (acc_reads acc) |}.

Fixpoint summary_loop (rows : list ScyllaRow) (acc : SummaryAcc) : result exn SummaryAcc :=
  match rows with
  | [] => Ok acc
  | row :: rows => let? acc := summary_row row acc in summary_loop rows acc
  end.

(** ** The repository *)

Section repository.
Context {TP TS : Type}.
Context `{!CqlTable TP PendingPartition PendingCluster, !CqlTable TS string string}.

Record DeliveryStateRepository := mkRepo { pending_table : TP; state_table : TS }.

Definition set_pending (t : TP) (repo : DeliveryStateRepository) : DeliveryStateRepository :=
  mkRepo t (state_table repo).
Definition set_states (t : TS) (repo : DeliveryStateRepository) : DeliveryStateRepository :=
  mkRepo (pending_table repo) t.

Definition save_pending_one (r : DeviceDeliveryRecord) (repo : DeliveryStateRepository)
    : DeliveryStateRepository :=
  set_pending (upsert (pending_partition r) (pending_cluster r) (mk_cells (pending_columns r))
                 (pending_table repo)) repo.

Definition save_pending_deliveries (records : list DeviceDeliveryRecord)
    (repo : DeliveryStateRepository) : DeliveryStateRepository :=
  exec_all save_pending_one records repo.

Definition fetch_pending_for_device (device_id : DeviceId) (delivery_bucket : string) (limit : Z)
    (repo : DeliveryStateRepository) : result exn (list DeviceDeliveryRecord) :=
  let p := (device_str device_id, delivery_bucket) in
  let? limit := limit_param limit in
  map_result row_to_delivery_record (pending_row p <$> take limit (scan p (pending_table repo))).

Definition update_device_delivery_status (device_id : DeviceId) (delivery_bucket : string)
    (accepted_at : Z) (message_id : MessageId) (state : DeliveryState) (attempt_count : Z)
    (next_retry : option Z) (repo : DeliveryStateRepository) : DeliveryStateRepository :=
  set_pending
    (upsert (device_str device_id, delivery_bucket) (to_ms accepted_at, MessageId_to_string message_id)
       (mk_cells [("delivery_state", VString (delivery_state_to_string state));
                  ("attempt_count", VInt attempt_count);
                  ("next_retry_at", timestamp_param next_retry)])
       (pending_table repo)) repo.

Definition save_state_one (s : RecipientDeliveryState) (repo : DeliveryStateRepository)
    : DeliveryStateRepository :=
  set_states (upsert (MessageId_to_string (rs_message_id s)) (device_str (rs_recipient_device_id s))
                (mk_cells (state_columns s)) (state_table repo)) repo.

Definition save_recipient_delivery_states (states : list RecipientDeliveryState)
    (repo : DeliveryStateRepository) : DeliveryStateRepository :=
  exec_all save_state_one states repo.

Definition update_state_row (message_id : MessageId) (device_id : DeviceId)
    (cols : list (string * ScyllaValue)) (repo : DeliveryStateRepository) : DeliveryStateRepository :=
  set_states (upsert (MessageId_to_string message_id) (device_str device_id) (mk_cells cols)
                (state_table repo)) repo.

Definition record_delivery_ack (message_id : MessageId) (device_id : DeviceId) (delivered_at : Z)
    (repo : DeliveryStateRepository) : DeliveryStateRepository :=
  update_state_row message_id device_id
    [("delivery_state", VString "DELIVERED"); ("delivered_at", VInt64 (to_ms delivered_at))] repo.

Definition record_read_ack (message_id : MessageId) (device_id : DeviceId) (read_at : Z)
    (repo : DeliveryStateRepository) : DeliveryStateRepository :=
  update_state_row message_id device_id
    [("delivery_state", VString "READ"); ("read_at", VInt64 (to_ms read_at))] repo.

Definition message_rows (message_id : MessageId) (repo : DeliveryStateRepository) : list ScyllaRow :=
  state_row (MessageId_to_string message_id) <$> scan (MessageId_to_string message_id) (state_table repo).

Definition get_delivery_states_for_message (message_id : MessageId) (repo : DeliveryStateRepository)
    : result exn (list RecipientDeliveryState) :=
  map_result row_to_recipient_state (message_rows message_id repo).

(** SELECT by the full primary key: at most one row. *)
Definition single_state_row (message_id : MessageId) (device_id : DeviceId)
    (repo : DeliveryStateRepository) : option ScyllaRow :=
  let p := MessageId_to_string message_id in
  let c := device_str device_id in
  (fun r => state_row p (c, r)) <$> cells p c (state_table repo).

Definition update_delivery_state_monotonic (message_id : MessageId) (device_id : DeviceId)
    (new_state : DeliveryState) (updated_at : Z) (repo : DeliveryStateRepository)
    : result exn (bool * DeliveryStateRepository) :=
  match single_state_row message_id device_id repo with
  | None => Ok (false, repo)
  | Some row =>
      let? text := get_string row "delivery_state" in
      let current_state := default Queued (delivery_state_from_string text) in
      if is_idempotent current_state new_state then Ok (true, repo)
      else if is_regression current_state new_state || negb (can_transition current_state new_state)
      then Ok (false, repo)
      else
        let? delivered_at := nullable row "delivered_at" get_timestamp in
        let delivered_param :=
          match delivered_at with
          | Some ms => VInt64 ms
          | None => if bool_decide (new_state = Delivered) then VInt64 (to_ms updated_at) else VNull
          end in
        Ok (true, update_state_row message_id device_id
                    [("delivery_state", VString (delivery_state_to_string new_state));
                     ("delivered_at", delivered_param)] repo)
  end.

Definition get_message_delivery_summary (message_id : MessageId) (repo : DeliveryStateRepository)
    : result exn (option MessageDeliverySummary) :=
  match message_rows message_id repo with
  | [] => Ok None
  | rows =>
      let? acc := summary_loop rows (mkAcc 0 0 0 0 [] ∅) in
      Ok (Some {| su_message_id := message_id;
                  su_conversation_id := nil_conversation_id;
                  su_total_targets := acc_total acc;
                  su_delivered_targets := acc_delivered acc;
                  su_pending_targets := acc_pending acc;
                  su_expired_targets := acc_expired acc;
                  su_device_statuses := acc_devices acc;
                  su_recipient_read_statuses := in_user_order (acc_reads acc) |})
  end.

End repository.
#[global] Arguments DeliveryStateRepository : clear implicits.

(** ** Rows decode to what was stored *)

(** What the C++ types and the constructors of the entities guarantee, together
    with the enumerators the service accepts. *)
Definition record_wf (r : DeviceDeliveryRecord) : Prop :=
  Uuid.wf (message_bytes (dr_message_id r)) /\ Uuid.wf (conversation_bytes (dr_conversation_id r)) /\
  in_u64 (dr_message_sequence r) /\ dr_algorithm r <> AlgoUnspecified /\
  dr_protocol_version r <> ProtoUnspecified.

(** A record after a trip through the store: times are whole milliseconds. *)
Definition stored_record (r : DeviceDeliveryRecord) : DeviceDeliveryRecord :=
  {| dr_device_id := dr_device_id r; dr_delivery_bucket := dr_delivery_bucket r;
     dr_accepted_at := stored_time (dr_accepted_at r); dr_message_id := dr_message_id r;
     dr_conversation_id := dr_conversation_id r; dr_message_sequence := dr_message_sequence r;
     dr_message_priority := dr_message_priority r; dr_delivery_state := dr_delivery_state r;
     dr_attempt_count := dr_attempt_count r; dr_next_retry_at := stored_time <$> dr_next_retry_at r;
     dr_ciphertext_blob := dr_ciphertext_blob r; dr_ephemeral_public_key := dr_ephemeral_public_key r;
     dr_iv := dr_iv r; dr_auth_tag := dr_auth_tag r; dr_algorithm := dr_algorithm r;
     dr_protocol_version := dr_protocol_version r; dr_one_time_prekey_id := dr_one_time_prekey_id r |}.

Definition stored_state (s : RecipientDeliveryState) : RecipientDeliveryState :=
  {| rs_message_id := rs_message_id s; rs_recipient_device_id := rs_recipient_device_id s;
     rs_recipient_user_id := rs_recipient_user_id s; rs_delivery_state := rs_delivery_state s;
     rs_delivered_at := stored_time <$> rs_delivered_at s; rs_read_at := stored_time <$> rs_read_at s |}.

Lemma string_of_blob_of_string s : string_of_blob (blob_of_string s) = s.
Proof.
  unfold string_of_blob, blob_of_string. rewrite <- list_fmap_compose.
  transitivity (of_chars (chars s)); [|apply of_chars_chars]. f_equal.
  rewrite <- (list_fmap_id (chars s)) at 2. apply list_fmap_ext. intros _ c _. cbn.
  unfold chr, code. by rewrite N2Z.id, Ascii.ascii_N_embedding.
Qed.

Lemma message_id_text m :
  Uuid.wf (message_bytes m) -> MessageId_from_string (MessageId_to_string m) = Some m.
Proof.
  intros H. unfold MessageId_from_string, MessageId_to_string. rewrite Uuid.from_to_string by done.
  by destruct m.
Qed.

Lemma conversation_id_text c :
  Uuid.wf (conversation_bytes c) -> ConversationId_from_string (ConversationId_to_string c) = Some c.
Proof.
  intros H. unfold ConversationId_from_string, ConversationId_to_string.
  rewrite Uuid.from_to_string by done. by destruct c.
Qed.

(** Reading back a bound parameter. *)
Section read_params.
Context (name : string) (cols : list string) (l : list (string * ScyllaValue)).
Hypothesis Hin : bool_decide (name ∈ cols) = true.

Lemma nullable_timestamp_cell tp :
  column name l = Some (timestamp_param tp) ->
  nullable (select cols (mk_cells l)) name get_timestamp = Ok (to_ms <$> tp).
Proof.
  intros H. eapply nullable_cell; [done..|]. destruct tp as [t|]; cbn; [|done].
  exists (to_ms t). split; [done|]. by apply get_timestamp_cell.
Qed.

Lemma optional_column_cell {A} (read : ScyllaRow -> string -> result exn A) o :
  nullable (select cols (mk_cells l)) name read = Ok o ->
  optional_column (select cols (mk_cells l)) name read = Ok o.
Proof.
  intros H. unfold optional_column. rewrite has_column_select; [done|]. by apply bool_decide_eq_true in Hin.
Qed.

Lemma blob_cell b :
  column name l = Some (blob_param b) ->
  optional_column (select cols (mk_cells l)) name get_blob = Ok (match b with [] => None | _ => Some b end).
Proof.
  intros H. apply optional_column_cell. eapply nullable_cell; [done..|]. destruct b as [|x b]; cbn; [done|].
  eexists. split; [done|]. unfold get_blob. by erewrite get_cell by done.
Qed.

Lemma string_cell o :
  column name l = Some (string_param o) ->
  optional_column (select cols (mk_cells l)) name get_string = Ok o.
Proof.
  intros H. apply optional_column_cell. eapply nullable_cell; [done..|]. destruct o; cbn; [|done].
  eexists. split; [done|]. by apply get_string_cell.
Qed.

Lemma int_cell z :
  column name l = Some (VInt z) -> optional_column (select cols (mk_cells l)) name get_int = Ok (Some z).
Proof.
  intros H. apply optional_column_cell. eapply nullable_cell; [done..|]. cbn.
  eexists. split; [done|]. by apply get_int_cell.
Qed.

End read_params.

(** Steps through the reads of a row with known columns. *)
Ltac read_with lem := eapply bind_eq; [eapply lem; [vm_compute; reflexivity|reflexivity]|cbv beta].

Lemma default_blob {A} (b : list A) : default [] (match b with [] => None | _ => Some b end) = b.
Proof. by destruct b. Qed.

Lemma stored_time_opt tp : from_ms <$> (to_ms <$> tp) = stored_time <$> (tp : option Z).
Proof. by destruct tp. Qed.

Lemma decode_pending r :
  record_wf r ->
  row_to_delivery_record (pending_row (pending_partition r) (pending_cluster r, mk_cells (pending_columns r)))
  = Ok (stored_record r).
Proof.
  intros (Hm & Hc & Hs & Ha & Hp). unfold pending_row. cbn [fst snd]. rewrite mk_cells_app.
  unfold row_to_delivery_record.
  do 2 read_with get_string_cell. read_with get_timestamp_cell. do 2 read_with get_string_cell.
  read_with get_int64_cell. do 2 read_with get_string_cell. read_with get_int_cell.
  read_with (fun n c l H => nullable_timestamp_cell n c l H (dr_next_retry_at r)).
  read_with (fun n c l H => blob_cell n c l H (blob_of_string (dr_ciphertext_blob r))).
  read_with (fun n c l H => blob_cell n c l H (dr_ephemeral_public_key r)).
  read_with (fun n c l H => blob_cell n c l H (dr_iv r)).
  read_with (fun n c l H => blob_cell n c l H (dr_auth_tag r)).
  read_with (fun n c l H => string_cell n c l H (Some (algorithm_to_string (dr_algorithm r)))).
  read_with int_cell.
  read_with (fun n c l H => string_cell n c l H (dr_one_time_prekey_id r)).
  unfold pending_partition, pending_cluster. cbn [mbind option_bind fst snd].
  rewrite !default_blob, !stored_time_opt, string_of_blob_of_string, u64_i64, u64_small,
    priority_text, delivery_state_text, algorithm_text, protocol_version_int,
    message_id_text, conversation_id_text by done.
  unfold stored_record. cbn. by destruct (dr_device_id r).
Qed.

Lemma decode_state s :
  Uuid.wf (message_bytes (rs_message_id s)) ->
  row_to_recipient_state (state_row (MessageId_to_string (rs_message_id s))
                            (device_str (rs_recipient_device_id s), mk_cells (state_columns s)))
  = Ok (stored_state s).
Proof.
  intros Hm. unfold state_row. cbn [fst snd]. rewrite mk_cells_app. unfold row_to_recipient_state.
  do 4 read_with get_string_cell.
  read_with (fun n c l H => nullable_timestamp_cell n c l H (rs_delivered_at s)).
  read_with (fun n c l H => nullable_timestamp_cell n c l H (rs_read_at s)).
  rewrite message_id_text, delivery_state_text, !stored_time_opt by done.
  unfold stored_state. cbn. by destruct (rs_recipient_device_id s), (rs_recipient_user_id s).
Qed.
