(* ===== verification/DeliveryRepoSpec.v ===== *)
(** * What the delivery state repository promises

    The two tables of [DeliveryRepo] refine finite maps of entities: [PendingOp]
    and [StateOp] are the writes of the repository, [pending_spec] and
    [state_spec] their effect on the maps, and the refinement theorems say that
    every read of the repository answers from the maps. *)

From S2P Require Import Prelude Ids Scylla DeliveryTypes DeliveryRepo.
From stdpp Require Import sorting.
#[local] Open Scope Z_scope.

(** ** Columns overwritten by an UPDATE *)

Definition set_status (state : DeliveryState) (attempts : Z) (next_retry : option Z)
    (r : DeviceDeliveryRecord) : DeviceDeliveryRecord :=
  {| dr_device_id := dr_device_id r; dr_delivery_bucket := dr_delivery_bucket r;
     dr_accepted_at := dr_accepted_at r; dr_message_id := dr_message_id r;
     dr_conversation_id := dr_conversation_id r; dr_message_sequence := dr_message_sequence r;
     dr_message_priority := dr_message_priority r; dr_delivery_state := state;
     dr_attempt_count := attempts; dr_next_retry_at := next_retry;
     dr_ciphertext_blob := dr_ciphertext_blob r; dr_ephemeral_public_key := dr_ephemeral_public_key r;
     dr_iv := dr_iv r; dr_auth_tag := dr_auth_tag r; dr_algorithm := dr_algorithm r;
     dr_protocol_version := dr_protocol_version r; dr_one_time_prekey_id := dr_one_time_prekey_id r |}.

Definition set_state (state : DeliveryState) (delivered_at read_at : option Z)
    (s : RecipientDeliveryState) : RecipientDeliveryState :=
  {| rs_message_id := rs_message_id s; rs_recipient_device_id := rs_recipient_device_id s;
     rs_recipient_user_id := rs_recipient_user_id s; rs_delivery_state := state;
     rs_delivered_at := delivered_at; rs_read_at := read_at |}.

Lemma timestamp_param_stored tp : timestamp_param (stored_time <$> tp) = timestamp_param tp.
Proof. destruct tp; cbn; [by rewrite to_ms_stored_time|done]. Qed.

Lemma stored_time_idemp tp : stored_time (stored_time tp) = stored_time tp.
Proof. apply stored_time_from_ms. Qed.

Lemma stored_record_idemp r : stored_record (stored_record r) = stored_record r.
Proof.
  unfold stored_record. cbn. f_equal; [apply stored_time_idemp|].
  destruct (dr_next_retry_at r); cbn; [by rewrite stored_time_idemp|done].
Qed.

Lemma stored_state_idemp s : stored_state (stored_state s) = stored_state s.
Proof.
  unfold stored_state. cbn. f_equal.
  - destruct (rs_delivered_at s); cbn; [by rewrite stored_time_idemp|done].
  - destruct (rs_read_at s); cbn; [by rewrite stored_time_idemp|done].
Qed.

Lemma pending_columns_stored r : pending_columns (stored_record r) = pending_columns r.
Proof. unfold pending_columns. cbn. by rewrite timestamp_param_stored. Qed.

Lemma state_columns_stored s : state_columns (stored_state s) = state_columns s.
Proof. unfold state_columns. cbn. by rewrite !timestamp_param_stored. Qed.

(** An INSERT of all columns replaces the row. *)
Lemma insert_over_pending r r0 :
  mk_cells (pending_columns r) ∪ mk_cells (pending_columns r0) = mk_cells (pending_columns r).
Proof. by rewrite mk_cells_override by (intros name; rewrite !column_is_Some; done). Qed.

Lemma insert_over_state s s0 :
  mk_cells (state_columns s) ∪ mk_cells (state_columns s0) = mk_cells (state_columns s).
Proof. by rewrite mk_cells_override by (intros name; rewrite !column_is_Some; done). Qed.

Lemma update_over_pending state attempts next_retry r :
  mk_cells [("delivery_state", VString (delivery_state_to_string state));
            ("attempt_count", VInt attempts); ("next_retry_at", timestamp_param next_retry)]
  ∪ mk_cells (pending_columns r)
  = mk_cells (pending_columns (set_status state attempts next_retry r)).
Proof.
  rewrite mk_cells_override; [done|]. intros name. rewrite !column_is_Some. cbn. set_solver.
Qed.

Lemma update_over_state cols s s' :
  cols.*1 ⊆ (state_columns s).*1 -> override cols (state_columns s) = state_columns s' ->
  mk_cells cols ∪ mk_cells (state_columns s) = mk_cells (state_columns s').
Proof.
  intros Hsub Ho. rewrite mk_cells_override; [by rewrite Ho|].
  intros name. rewrite !column_is_Some. apply Hsub.
Qed.

(** ** The maps *)

Abbreviation PendingMap := (gmap (PendingPartition * PendingCluster) DeviceDeliveryRecord).
Abbreviation StateMap := (gmap (string * string) RecipientDeliveryState).

Definition pending_key (r : DeviceDeliveryRecord) : PendingPartition * PendingCluster :=
  (pending_partition r, pending_cluster r).
Definition state_key (s : RecipientDeliveryState) : string * string :=
  (MessageId_to_string (rs_message_id s), device_str (rs_recipient_device_id s)).

Inductive PendingOp :=
| SavePending (r : DeviceDeliveryRecord)
| UpdateStatus (device : DeviceId) (bucket : string) (accepted_at : Z) (message : MessageId)
    (state : DeliveryState) (attempts : Z) (next_retry : option Z).

Definition update_key (device : DeviceId) (bucket : string) (accepted_at : Z) (message : MessageId) :=
  ((device_str device, bucket), (to_ms accepted_at, MessageId_to_string message)).

Definition pending_spec (op : PendingOp) (m : PendingMap) : PendingMap :=
  match op with
  | SavePending r => <[pending_key r := stored_record r]> m
  | UpdateStatus d b a mid state attempts next_retry =>
      match m !! update_key d b a mid with
      | Some r => <[update_key d b a mid := set_status state attempts (stored_time <$> next_retry) r]> m
      | None => m
      end
  end.

(** Saved records are well formed, and only rows of the queue are updated (an
    UPDATE of a missing row would create one without its other columns). *)
Definition pending_admissible (op : PendingOp) (m : PendingMap) : Prop :=
  match op with
  | SavePending r => record_wf r
  | UpdateStatus d b a mid _ _ _ => is_Some (m !! update_key d b a mid)
  end.

(** Effect of [update_delivery_state_monotonic] on the entity it finds. *)
Definition advance (new_state : DeliveryState) (updated_at : Z) (s : RecipientDeliveryState)
    : RecipientDeliveryState :=
  if bool_decide (rs_delivery_state s = new_state) then s
  else
    set_state new_state
      (match rs_delivered_at s with
       | Some d => Some d
       | None => if bool_decide (new_state = Delivered) then Some (stored_time updated_at) else None
       end)
      (rs_read_at s) s.

Inductive StateOp :=
| SaveState (s : RecipientDeliveryState)
| DeliveryAck (message : MessageId) (device : DeviceId) (delivered_at : Z)
| ReadAck (message : MessageId) (device : DeviceId) (read_at : Z)
| Monotonic (message : MessageId) (device : DeviceId) (new_state : DeliveryState) (updated_at : Z).

Definition row_key (message : MessageId) (device : DeviceId) : string * string :=
  (MessageId_to_string message, device_str device).

Definition state_spec (op : StateOp) (m : StateMap) : StateMap :=
  match op with
  | SaveState s => <[state_key s := stored_state s]> m
  | DeliveryAck mid dev t =>
      match m !! row_key mid dev with
      | Some s => <[row_key mid dev := set_state Delivered (Some (stored_time t)) (rs_read_at s) s]> m
      | None => m
      end
  | ReadAck mid dev t =>
      match m !! row_key mid dev with
      | Some s => <[row_key mid dev := set_state Read (rs_delivered_at s) (Some (stored_time t)) s]> m
      | None => m
      end
  | Monotonic mid dev new_state t =>
      match m !! row_key mid dev with
      | Some s =>
          if is_ok (validate_transition (rs_delivery_state s) new_state)
          then <[row_key mid dev := advance new_state t s]> m
          else m
      | None => m
      end
  end.

Definition state_admissible (op : StateOp) (m : StateMap) : Prop :=
  match op with
  | SaveState s => Uuid.wf (message_bytes (rs_message_id s))
  | DeliveryAck mid dev _ | ReadAck mid dev _ => is_Some (m !! row_key mid dev)
  | Monotonic _ _ _ _ => True
  end.

Section refinement.
Context {TP TS : Type}.
Context `{!CqlTable TP PendingPartition PendingCluster, !CqlTable TS string string}.
#[local] Abbreviation repo_t := (DeliveryStateRepository TP TS).
Implicit Type repo : repo_t.

(** ** Representation *)

Definition record_at (k : PendingPartition * PendingCluster) (r : DeviceDeliveryRecord) : Prop :=
  record_wf r /\ stored_record r = r /\ pending_key r = k.

Definition state_at (k : string * string) (s : RecipientDeliveryState) : Prop :=
  Uuid.wf (message_bytes (rs_message_id s)) /\ stored_state s = s /\ state_key s = k.

Definition pending_repr (repo : repo_t) (m : PendingMap) : Prop :=
  table_repr pending_columns record_at (pending_table repo) m.

Definition state_repr (repo : repo_t) (m : StateMap) : Prop :=
  table_repr state_columns state_at (state_table repo) m.

Definition pending_step (op : PendingOp) (repo : repo_t) : repo_t :=
  match op with
  | SavePending r => save_pending_one r repo
  | UpdateStatus d b a mid state attempts next_retry =>
      update_device_delivery_status d b a mid state attempts next_retry repo
  end.

Lemma record_at_stored r : record_wf r -> record_at (pending_key r) (stored_record r).
Proof.
  intros Hwf. split; [exact Hwf|]. split; [apply stored_record_idemp|].
  unfold pending_key, pending_partition, pending_cluster. cbn. by rewrite to_ms_stored_time.
Qed.

Lemma state_at_stored s : Uuid.wf (message_bytes (rs_message_id s)) -> state_at (state_key s) (stored_state s).
Proof. intros Hwf. split; [done|]. split; [apply stored_state_idemp|done]. Qed.

(** Storing [r] at [k], where the new row's columns are those of [r]. *)
Lemma pending_repr_upsert repo m p c cols r :
  pending_repr repo m -> record_at (p, c) r ->
  mk_cells cols ∪ default ∅ (cells p c (pending_table repo)) = mk_cells (pending_columns r) ->
  pending_repr (set_pending (upsert p c (mk_cells cols) (pending_table repo)) repo) (<[(p, c) := r]> m).
Proof. apply table_repr_upsert. Qed.

Lemma state_repr_upsert repo m p c cols s :
  state_repr repo m -> state_at (p, c) s ->
  mk_cells cols ∪ default ∅ (cells p c (state_table repo)) = mk_cells (state_columns s) ->
  state_repr (set_states (upsert p c (mk_cells cols) (state_table repo)) repo) (<[(p, c) := s]> m).
Proof. apply table_repr_upsert. Qed.

(** ** The pending queue *)

Lemma pending_sim op repo m :
  pending_repr repo m -> pending_admissible op m -> pending_repr (pending_step op repo) (pending_spec op m).
Proof.
  intros Hrepr Hadm. pose proof Hrepr as [Hc Hm]. destruct op as [r|d b a mid st n nr]; cbn in *.
  - apply pending_repr_upsert; [done|by apply record_at_stored|].
    rewrite Hc, pending_columns_stored. destruct (m !! _); cbn; [apply insert_over_pending|by rewrite map_union_empty].
  - destruct Hadm as [r Hr]. rewrite Hr. pose proof (map_Forall_lookup_1 _ _ _ _ Hm Hr) as (Hwf & Hst & Hk).
    apply pending_repr_upsert; [done| |].
    + split; [done|]. split; [|done]. rewrite <- Hst. unfold stored_record, set_status. cbn. f_equal.
      * apply stored_time_idemp.
      * destruct nr; cbn; [by rewrite stored_time_idemp|done].
    + unfold update_key in Hr. rewrite Hc, Hr. cbn [default fmap option_fmap option_map id].
      rewrite <- (timestamp_param_stored nr). apply update_over_pending.
Qed.

(** The rows of a partition as entities, in clustering order. *)
Definition pending_list (p : PendingPartition) (repo : repo_t) (m : PendingMap) : list DeviceDeliveryRecord :=
  entities m p (pending_table repo).

Lemma decode_pending_row (p : PendingPartition) (c : PendingCluster) r :
  record_at (p, c) r -> row_to_delivery_record (pending_row p (c, mk_cells (pending_columns r))) = Ok r.
Proof.
  intros (Hwf & Hst & Hk). unfold pending_key in Hk. injection Hk as <- <-. by rewrite decode_pending, Hst.
Qed.

Lemma fetch_pending_spec repo m device bucket limit :
  pending_repr repo m -> 0 < limit < 2 ^ 31 ->
  fetch_pending_for_device device bucket limit repo
  = Ok (take (Z.to_nat limit) (pending_list (device_str device, bucket) repo m)).
Proof.
  intros Hrepr Hl. unfold fetch_pending_for_device. rewrite limit_param_ok by done. cbn [bind].
  rewrite map_result_fmap. unfold pending_list, entities.
  rewrite <- (entities_take _ _ _ _ _ (Z.to_nat limit) _ Hrepr) by done.
  eapply (decode_rows _ _ (fun p cr => row_to_delivery_record (pending_row p cr)) decode_pending_row); [exact Hrepr|].
  intros x Hx. by apply elem_of_take in Hx as (i & Hx%list_elem_of_lookup_2 & _).
Qed.

Lemma elem_of_pending_list repo m p r :
  pending_repr repo m -> r ∈ pending_list p repo m <-> exists c : PendingCluster, m !! (p, c) = Some r.
Proof. apply elem_of_entities. Qed.

Lemma pending_list_clusters repo m p :
  pending_repr repo m -> pending_cluster <$> pending_list p repo m = (scan p (pending_table repo)).*1.
Proof.
  intros Hrepr. eapply entities_clusters; [exact Hrepr|]. intros c r (_ & _ & Hk). by apply (f_equal snd) in Hk.
Qed.

(** ** The delivery states *)

Lemma update_state_repr repo m mid dev s cols s' :
  state_repr repo m -> m !! row_key mid dev = Some s -> state_at (row_key mid dev) s' ->
  cols.*1 ⊆ (state_columns s).*1 -> override cols (state_columns s) = state_columns s' ->
  state_repr (update_state_row mid dev cols repo) (<[row_key mid dev := s']> m).
Proof.
  intros Hrepr Hs Hat Hsub Ho. apply state_repr_upsert; [done..|]. destruct Hrepr as [Hc _].
  unfold row_key in Hs. rewrite Hc, Hs. cbn [default fmap option_fmap option_map id].
  by apply update_over_state.
Qed.

Lemma state_at_set k s st d r :
  state_at k s -> stored_time <$> d = d -> stored_time <$> r = r -> state_at k (set_state st d r s).
Proof.
  intros (Hwf & Hst & Hk) Hd Hr. split; [done|]. split; [|done]. unfold stored_state, set_state. cbn.
  by rewrite Hd, Hr.
Qed.

(** The times of a stored entity are whole milliseconds. *)
Lemma state_at_times k s :
  state_at k s -> stored_time <$> rs_delivered_at s = rs_delivered_at s
                  /\ stored_time <$> rs_read_at s = rs_read_at s.
Proof. intros (_ & Hst & _). rewrite <- Hst at 2 4. done. Qed.

Lemma delivery_ack_sim repo m mid dev t s :
  state_repr repo m -> m !! row_key mid dev = Some s ->
  state_repr (record_delivery_ack mid dev t repo)
    (<[row_key mid dev := set_state Delivered (Some (stored_time t)) (rs_read_at s) s]> m).
Proof.
  intros Hrepr Hs. pose proof Hrepr as [_ Hm]. pose proof (map_Forall_lookup_1 _ _ _ _ Hm Hs) as Hat.
  destruct (state_at_times _ _ Hat) as [Hd Hr].
  eapply update_state_repr; [done..| | |].
  - apply state_at_set; [done|cbn; by rewrite stored_time_idemp|done].
  - cbn. set_solver.
  - unfold state_columns. cbn. by rewrite to_ms_stored_time.
Qed.

Lemma read_ack_sim repo m mid dev t s :
  state_repr repo m -> m !! row_key mid dev = Some s ->
  state_repr (record_read_ack mid dev t repo)
    (<[row_key mid dev := set_state Read (rs_delivered_at s) (Some (stored_time t)) s]> m).
Proof.
  intros Hrepr Hs. pose proof Hrepr as [_ Hm]. pose proof (map_Forall_lookup_1 _ _ _ _ Hm Hs) as Hat.
  destruct (state_at_times _ _ Hat) as [Hd Hr].
  eapply update_state_repr; [done..| | |].
  - apply state_at_set; [done|done|cbn; by rewrite stored_time_idemp].
  - cbn. set_solver.
  - unfold state_columns. cbn. by rewrite to_ms_stored_time.
Qed.

Lemma save_state_sim repo m s :
  state_repr repo m -> Uuid.wf (message_bytes (rs_message_id s)) ->
  state_repr (save_state_one s repo) (<[state_key s := stored_state s]> m).
Proof.
  intros Hrepr Hwf. apply state_repr_upsert; [done|by apply state_at_stored|].
  destruct Hrepr as [Hc _]. rewrite Hc, state_columns_stored.
  destruct (m !! _); cbn; [apply insert_over_state|by rewrite map_union_empty].
Qed.

(** The columns a SELECT returns for a represented entity. *)
Lemma state_row_reads k s :
  state_at k s ->
  let row := state_row k.1 (k.2, mk_cells (state_columns s)) in
  row_to_recipient_state row = Ok s /\
  get_string row "recipient_device_id" = Ok (device_str (rs_recipient_device_id s)) /\
  get_string row "recipient_user_id" = Ok (user_str (rs_recipient_user_id s)) /\
  get_string row "delivery_state" = Ok (delivery_state_to_string (rs_delivery_state s)) /\
  nullable row "delivered_at" get_timestamp = Ok (to_ms <$> rs_delivered_at s) /\
  nullable row "read_at" get_timestamp = Ok (to_ms <$> rs_read_at s).
Proof.
  intros (Hwf & Hst & <-). cbn zeta. unfold state_key. cbn [fst snd].
  split; [by rewrite decode_state, Hst|]. unfold state_row. cbn [fst snd]. rewrite mk_cells_app.
  split_and!; first [apply get_string_cell | apply nullable_timestamp_cell];
    first [vm_compute; reflexivity | reflexivity].
Qed.

Lemma monotonic_sim repo m mid dev new_state t :
  state_repr repo m ->
  exists repo',
    update_delivery_state_monotonic mid dev new_state t repo
    = Ok (from_option (fun s => is_ok (validate_transition (rs_delivery_state s) new_state)) false
            (m !! row_key mid dev), repo') /\
    state_repr repo' (state_spec (Monotonic mid dev new_state t) m).
Proof.
  intros Hrepr. pose proof Hrepr as [Hc Hm]. unfold update_delivery_state_monotonic, single_state_row.
  rewrite Hc. fold (row_key mid dev). cbn [state_spec].
  destruct (m !! row_key mid dev) as [s|] eqn:Hs; cbn [fmap option_fmap option_map from_option];
    [|by exists repo].
  pose proof (map_Forall_lookup_1 _ _ _ _ Hm Hs) as Hat.
  destruct (state_at_times _ _ Hat) as [Hd Hr].
  destruct (state_row_reads _ _ Hat) as (_ & _ & _ & Hstate & Hdel & _).
  unfold row_key in Hstate, Hdel. cbn [fst snd] in Hstate, Hdel. rewrite Hstate. cbn [bind].
  rewrite delivery_state_text. cbn [default id]. unfold validate_transition, advance.
  destruct (is_idempotent (rs_delivery_state s) new_state) eqn:Hid.
  { exists repo. split; [done|]. unfold is_idempotent in Hid. rewrite Hid. cbn. by rewrite insert_id. }
  unfold is_idempotent in Hid. rewrite Hid.
  destruct (is_regression (rs_delivery_state s) new_state) eqn:Hreg; cbn [orb].
  { exists repo. destruct (bool_decide (rs_delivery_state s = Expired)); by split. }
  destruct (can_transition (rs_delivery_state s) new_state) eqn:Hcan; cbn [negb].
  2:{ exists repo. destruct (bool_decide (rs_delivery_state s = Expired)); by split. }
  rewrite Hdel. cbn [bind]. rewrite (bool_decide_eq_false_2 (rs_delivery_state s = Expired))
    by (intros He; by rewrite He in Hcan).
  cbn [is_ok]. eexists. split; [done|].
  eapply update_state_repr; [done..| | |].
  - apply state_at_set; [done| |done].
    destruct (rs_delivered_at s); [done|]. destruct (bool_decide (new_state = Delivered)); cbn; [|done]. by rewrite stored_time_idemp.
  - cbn. set_solver.
  - unfold state_columns. cbn. destruct (rs_delivered_at s); cbn; [done|].
    destruct (bool_decide (new_state = Delivered)); cbn; [|done]. by rewrite to_ms_stored_time.
Qed.

Definition state_step (op : StateOp) (repo : repo_t) : result exn repo_t :=
  match op with
  | SaveState s => Ok (save_recipient_delivery_states [s] repo)
  | DeliveryAck mid dev t => Ok (record_delivery_ack mid dev t repo)
  | ReadAck mid dev t => Ok (record_read_ack mid dev t repo)
  | Monotonic mid dev new_state t =>
      let? r := update_delivery_state_monotonic mid dev new_state t repo in Ok r.2
  end.

Lemma state_sim op repo m :
  state_repr repo m -> state_admissible op m ->
  exists repo', state_step op repo = Ok repo' /\ state_repr repo' (state_spec op m).
Proof.
  intros Hrepr Hadm. destruct op as [s|mid dev t|mid dev t|mid dev st t]; cbn [state_step].
  - eexists. split; [done|]. by apply save_state_sim.
  - destruct Hadm as [s Hs]. cbn. rewrite Hs. eexists. split; [done|]. by apply delivery_ack_sim.
  - destruct Hadm as [s Hs]. cbn. rewrite Hs. eexists. split; [done|]. by apply read_ack_sim.
  - destruct (monotonic_sim repo m mid dev st t Hrepr) as (repo' & -> & Hrepr'). cbn [bind snd].
    by exists repo'.
Qed.

(** ** Reads of the delivery states *)

Definition state_list (mid : MessageId) (repo : repo_t) (m : StateMap) : list RecipientDeliveryState :=
  entities m (MessageId_to_string mid) (state_table repo).

Lemma state_scan_in_map repo m (p c : string) r :
  state_repr repo m -> (c, r) ∈ scan p (state_table repo) ->
  exists s, m !! (p, c) = Some s /\ r = mk_cells (state_columns s) /\ state_at (p, c) s.
Proof.
  intros Hrepr Hin. destruct (scan_entity _ _ _ _ _ _ _ Hrepr Hin) as (s & Hs & ->). exists s.
  split; [done|]. split; [done|]. by eapply table_repr_at.
Qed.

Lemma get_states_spec repo m mid :
  state_repr repo m -> get_delivery_states_for_message mid repo = Ok (state_list mid repo m).
Proof.
  intros Hrepr. unfold get_delivery_states_for_message, message_rows. rewrite map_result_fmap.
  eapply (decode_rows _ _ (fun p cr => row_to_recipient_state (state_row p cr))); [|exact Hrepr|done].
  intros p c s Hat. exact (proj1 (state_row_reads (p, c) s Hat)).
Qed.

Lemma elem_of_state_list repo m mid s :
  state_repr repo m ->
  s ∈ state_list mid repo m <-> exists dev, m !! (MessageId_to_string mid, dev) = Some s.
Proof. apply elem_of_entities. Qed.

Lemma state_list_devices repo m mid :
  state_repr repo m ->
  (fun s => device_str (rs_recipient_device_id s)) <$> state_list mid repo m
  = (scan (MessageId_to_string mid) (state_table repo)).*1.
Proof.
  intros Hrepr. eapply entities_clusters; [exact Hrepr|]. intros c s (_ & _ & Hk). by apply (f_equal snd) in Hk.
Qed.

Lemma state_list_nodup repo m mid :
  state_repr repo m -> NoDup (rs_recipient_device_id <$> state_list mid repo m).
Proof.
  intros Hrepr. apply (NoDup_fmap_1 device_str). rewrite <- list_fmap_compose.
  pose proof (state_list_devices repo m mid Hrepr) as H. unfold compose. rewrite H. apply scan_nodup.
Qed.

End refinement.

(** ** Aggregation *)

(** The read status of a user after the states [l] were seen: the earliest read
    of any of the user's devices, and the device that reported it. *)
Definition read_status_of (l : list RecipientDeliveryState) (u : UserId)
    (st : LogicalRecipientReadStatus) : Prop :=
  lr_user_id st = u /\ (exists s, s ∈ l /\ rs_recipient_user_id s = u) /\
  match lr_read_at st with
  | None =>
      lr_read_state st = RS_Unread /\ lr_reader_device_id st = None /\
      forall s, s ∈ l -> rs_recipient_user_id s = u -> rs_read_at s = None
  | Some t =>
      lr_read_state st = RS_Read /\
      (exists s, s ∈ l /\ rs_recipient_user_id s = u /\ rs_read_at s = Some t /\
                 lr_reader_device_id st = Some (rs_recipient_device_id s)) /\
      forall s t', s ∈ l -> rs_recipient_user_id s = u -> rs_read_at s = Some t' -> t <= t'
  end.

Definition reads_of (l : list RecipientDeliveryState) (reads : gmap UserId LogicalRecipientReadStatus) : Prop :=
  forall u, match reads !! u with
            | Some st => read_status_of l u st
            | None => forall s, s ∈ l -> rs_recipient_user_id s <> u
            end.

Lemma reads_of_nil : reads_of [] ∅.
Proof. intros u. rewrite lookup_empty. by intros s ?%not_elem_of_nil. Qed.

(** Whether the aggregation of one row is done by a given merge function. *)
Definition merges (merge : RecipientDeliveryState -> LogicalRecipientReadStatus -> LogicalRecipientReadStatus) : Prop :=
  forall l s,
    (forall st, read_status_of l (rs_recipient_user_id s) st ->
       read_status_of (l ++ [s]) (rs_recipient_user_id s) (merge s st)) /\
    ((forall s', s' ∈ l -> rs_recipient_user_id s' <> rs_recipient_user_id s) ->
       read_status_of (l ++ [s]) (rs_recipient_user_id s) (merge s no_read_status)).

Lemma read_status_of_other l s u st :
  rs_recipient_user_id s <> u -> read_status_of l u st -> read_status_of (l ++ [s]) u st.
Proof.
  intros Hne (Hu & (s0 & Hs0 & Hu0) & Hr). split; [done|].
  split; [exists s0; rewrite elem_of_app; auto|].
  destruct (lr_read_at st) as [t|].
  - destruct Hr as (Hst & (s1 & Hs1 & ?) & Hmin). split; [done|].
    split; [exists s1; rewrite elem_of_app; auto|].
    intros s' t' [Hin|Hin%list_elem_of_singleton]%elem_of_app; [by apply Hmin|congruence].
  - destruct Hr as (? & ? & Hnone). split; [done|]. split; [done|].
    intros s' [Hin|Hin%list_elem_of_singleton]%elem_of_app; [by apply Hnone|congruence].
Qed.

Lemma reads_of_step merge l s reads :
  merges merge -> reads_of l reads ->
  reads_of (l ++ [s])
    (<[rs_recipient_user_id s :=
         merge s (default no_read_status (reads !! rs_recipient_user_id s))]> reads).
Proof.
  intros Hmerge Hreads u. destruct (Hmerge l s) as [Hsome Hnone].
  destruct (decide (rs_recipient_user_id s = u)) as [<-|Hne].
  - rewrite lookup_insert_eq. specialize (Hreads (rs_recipient_user_id s)).
    destruct (reads !! rs_recipient_user_id s) as [st|]; cbn; auto.
  - rewrite lookup_insert_ne by done. specialize (Hreads u).
    destruct (reads !! u) as [st|]; [by apply read_status_of_other|].
    intros s' [Hin|Hin%list_elem_of_singleton]%elem_of_app; [by apply Hreads|congruence].
Qed.

(** Extending the seen states by one row of the same user. *)
Lemma read_status_of_snoc l s st :
  lr_user_id st = rs_recipient_user_id s ->
  match rs_read_at s, lr_read_at st with
  | None, None =>
      lr_read_state st = RS_Unread /\ lr_reader_device_id st = None /\
      forall s', s' ∈ l -> rs_recipient_user_id s' = rs_recipient_user_id s -> rs_read_at s' = None
  | ro, Some t =>
      lr_read_state st = RS_Read /\ from_option (fun t' => t <= t') True ro /\
      ((ro = Some t /\ lr_reader_device_id st = Some (rs_recipient_device_id s)) \/
       exists s', s' ∈ l /\ rs_recipient_user_id s' = rs_recipient_user_id s /\ rs_read_at s' = Some t /\
                  lr_reader_device_id st = Some (rs_recipient_device_id s')) /\
      forall s' t', s' ∈ l -> rs_recipient_user_id s' = rs_recipient_user_id s ->
                    rs_read_at s' = Some t' -> t <= t'
  | Some _, None => False
  end ->
  read_status_of (l ++ [s]) (rs_recipient_user_id s) st.
Proof.
  intros Hu H. split; [done|]. split; [exists s; rewrite elem_of_app, list_elem_of_singleton; auto|].
  destruct (lr_read_at st) as [t|] eqn:Ht; destruct (rs_read_at s) as [t0|] eqn:Hs; try done.
  1,2: destruct H as (Hst & Hle & Hfrom & Hmin); cbn in Hle; split; [done|]; split;
    [|intros s' t' [Hin|Hin%list_elem_of_singleton]%elem_of_app; [by apply Hmin|subst; intros _; congruence]];
    destruct Hfrom as [[Hro Hd]|(s' & ? & ? & ? & ?)];
    [exists s|exists s']; rewrite elem_of_app, list_elem_of_singleton; split_and!; auto; congruence.
  destruct H as (? & ? & Hnone). split; [done|]. split; [done|].
  intros s' [Hin|Hin%list_elem_of_singleton]%elem_of_app; [by apply Hnone|by subst].
Qed.

Lemma merge_read_merges :
  merges (fun s => merge_read (rs_recipient_user_id s) (rs_recipient_device_id s) (rs_read_at s)).
Proof.
  intros l s. split.
  - intros [u rs ra rd] (Hu & Hex & Hst). cbn in Hu, Hst. subst u. unfold merge_read. cbn.
    destruct (rs_read_at s) as [t|] eqn:Hs.
    + destruct ra as [t0|].
      * destruct Hst as (-> & Hfrom & Hmin). cbn. destruct (Z.ltb_spec t t0);
          apply read_status_of_snoc; cbn; rewrite ?Hs; try done; split_and!; auto; try lia.
        intros s' t' ???. pose proof (Hmin s' t'). naive_solver lia.
      * destruct Hst as (-> & -> & Hnone). cbn. apply read_status_of_snoc; cbn; rewrite ?Hs; try done.
        split_and!; auto; [lia|]. intros s' t' Hin Hu Ht. rewrite Hnone in Ht by done. done.
    + apply read_status_of_snoc; [done|]. rewrite Hs. cbn. destruct ra; [|done].
      destruct Hst as (-> & Hfrom & Hmin). split_and!; auto.
  - intros Hno. unfold merge_read, no_read_status. cbn.
    destruct (rs_read_at s) as [t|] eqn:Hs; apply read_status_of_snoc; cbn; rewrite ?Hs; try done.
    + split_and!; auto; [lia|]. intros s' t' Hin Hu. by destruct (Hno s' Hin).
    + split_and!; auto. intros s' Hin Hu. by destruct (Hno s' Hin).
Qed.

(** ** The summary *)

(** The loop body on a decoded row. *)
Definition summary_entity (s : RecipientDeliveryState) (acc : SummaryAcc) : SummaryAcc :=
  let st := rs_delivery_state s in
  {| acc_total := u32 (acc_total acc + 1);
     acc_delivered := if bool_decide (st = Delivered) then u32 (acc_delivered acc + 1) else acc_delivered acc;
     acc_expired :=
       if bool_decide (st = Delivered) then acc_expired acc
       else if bool_decide (st = Expired) then u32 (acc_expired acc + 1) else acc_expired acc;
     acc_pending :=
       if bool_decide (st = Delivered) then acc_pending acc
       else if bool_decide (st = Expired) then acc_pending acc else u32 (acc_pending acc + 1);
     acc_devices := acc_devices acc ++
       [mkDeviceStatus (rs_recipient_device_id s) (rs_recipient_user_id s) st None (rs_delivered_at s) 0];
     acc_reads :=
       <[rs_recipient_user_id s :=
           merge_read (rs_recipient_user_id s) (rs_recipient_device_id s) (rs_read_at s)
             (default no_read_status (acc_reads acc !! rs_recipient_user_id s))]> (acc_reads acc) |}.

Definition acc0 : SummaryAcc := mkAcc 0 0 0 0 [] ∅.

(** How many states satisfy a test, as the 32-bit counters count. *)
Definition count_states (P : DeliveryState -> bool) (l : list RecipientDeliveryState) : Z :=
  Z.of_nat (length (filter (fun s => P (rs_delivery_state s) = true) l)).

Lemma count_states_snoc P l s :
  count_states P (l ++ [s]) = count_states P l + (if P (rs_delivery_state s) then 1 else 0).
Proof.
  unfold count_states. rewrite filter_app, length_app.
  destruct (P (rs_delivery_state s)) eqn:HP.
  - rewrite filter_cons_True by done. cbn. lia.
  - rewrite filter_cons_False by congruence. cbn. lia.
Qed.

Lemma u32_add_1 z : u32 (u32 z + 1) = u32 (z + 1).
Proof. unfold u32, wrap. by rewrite Zplus_mod_idemp_l. Qed.

Definition device_status (s : RecipientDeliveryState) : DeviceDeliveryStatus :=
  mkDeviceStatus (rs_recipient_device_id s) (rs_recipient_user_id s) (rs_delivery_state s) None
    (rs_delivered_at s) 0.

Definition is_pending (st : DeliveryState) : bool :=
  negb (bool_decide (st = Delivered)) && negb (bool_decide (st = Expired)).

Lemma summary_entities_spec l :
  let acc := exec_all summary_entity l acc0 in
  acc_total acc = u32 (Z.of_nat (length l)) /\
  acc_delivered acc = u32 (count_states (fun st => bool_decide (st = Delivered)) l) /\
  acc_expired acc = u32 (count_states (fun st => bool_decide (st = Expired)) l) /\
  acc_pending acc = u32 (count_states is_pending l) /\
  acc_devices acc = device_status <$> l /\
  reads_of l (acc_reads acc).
Proof.
  cbn zeta. induction l as [|s l (H1 & H2 & H3 & H4 & H5 & H6)] using rev_ind.
  { split_and!; try done. apply reads_of_nil. }
  rewrite exec_all_app, exec_all_cons, exec_all_nil, !count_states_snoc, length_app, fmap_app.
  cbn [summary_entity acc_total acc_delivered acc_expired acc_pending acc_devices acc_reads length].
  rewrite H1, H2, H3, H4, H5, !u32_add_1. split_and!; try done.
  - f_equal. lia.
  - destruct (rs_delivery_state s); cbn [bool_decide]; by rewrite ?Z.add_0_r.
  - destruct (rs_delivery_state s); cbn [bool_decide]; by rewrite ?Z.add_0_r.
  - destruct (rs_delivery_state s); cbn [bool_decide]; by rewrite ?Z.add_0_r.
  - exact (reads_of_step _ l s _ merge_read_merges H6).
Qed.

Lemma elem_of_in_user_order {V} (m : gmap UserId V) v :
  v ∈ in_user_order m <-> exists u, m !! u = Some v.
Proof.
  unfold in_user_order. rewrite merge_sort_Permutation, list_elem_of_fmap. split.
  - intros ([u v'] & -> & Hin%elem_of_map_to_list). by exists u.
  - intros [u Hu]. exists (u, v). split; [done|]. by apply elem_of_map_to_list.
Qed.

Lemma length_in_user_order {V} (m : gmap UserId V) : length (in_user_order m) = size m.
Proof.
  unfold in_user_order. by rewrite length_fmap, merge_sort_Permutation, length_map_to_list.
Qed.

Section summary.
Context {TP TS : Type}.
Context `{!CqlTable TP PendingPartition PendingCluster, !CqlTable TS string string}.
#[local] Abbreviation repo_t := (DeliveryStateRepository TP TS).
Implicit Type repo : repo_t.

Lemma summary_row_spec k s acc :
  state_at k s ->
  summary_row (state_row k.1 (k.2, mk_cells (state_columns s))) acc = Ok (summary_entity s acc).
Proof.
  intros Hat. destruct (state_row_reads _ _ Hat) as (_ & Hdev & Husr & Hst & Hdel & Hread).
  destruct (state_at_times _ _ Hat) as [Hd Hr].
  unfold summary_row. rewrite Hdev, Husr, Hst, Hdel, Hread. cbn [bind].
  rewrite !stored_time_opt, Hd, Hr, delivery_state_text.
  unfold summary_entity. cbn. by destruct (rs_recipient_device_id s), (rs_recipient_user_id s).
Qed.

Lemma summary_loop_spec repo m mid acc :
  state_repr repo m ->
  summary_loop (message_rows mid repo) acc = Ok (exec_all summary_entity (state_list mid repo m) acc).
Proof.
  intros Hrepr. unfold message_rows, state_list, entities, entities_of.
  assert (Hall : forall x : string * Cells, x ∈ scan (MessageId_to_string mid) (state_table repo) ->
            exists s, m !! (MessageId_to_string mid, x.1) = Some s /\ x.2 = mk_cells (state_columns s)
                      /\ state_at (MessageId_to_string mid, x.1) s).
  { intros [c r] Hin. by apply (state_scan_in_map repo). }
  revert acc. induction (scan _ (state_table repo)) as [|[c r] l IH]; intros acc; [done|].
  cbn -[state_row summary_row].
  destruct (Hall (c, r)) as (s & Hs & Hr & Hat); [left|]. cbn [fst snd] in Hs, Hr. subst r.
  pose proof (summary_row_spec _ _ acc Hat) as Hrow. cbn [fst snd] in Hrow.
  rewrite Hrow, Hs. cbn [bind]. rewrite IH by (intros; apply Hall; by right). by rewrite exec_all_cons.
Qed.

Lemma message_rows_nil repo m mid :
  state_repr repo m -> message_rows mid repo = [] <-> state_list mid repo m = [].
Proof.
  intros Hrepr. rewrite <- !length_zero_iff_nil. unfold message_rows. rewrite length_fmap.
  pose proof (state_list_devices repo m mid Hrepr) as H. apply (f_equal length) in H.
  rewrite !length_fmap in H. by rewrite H.
Qed.

Definition summary_of (mid : MessageId) (l : list RecipientDeliveryState) : MessageDeliverySummary :=
  let acc := exec_all summary_entity l acc0 in
  mkSummary mid nil_conversation_id (acc_total acc) (acc_delivered acc) (acc_pending acc)
    (acc_expired acc) (acc_devices acc) (in_user_order (acc_reads acc)).

Lemma get_summary_spec repo m mid :
  state_repr repo m ->
  let l := state_list mid repo m in
  get_message_delivery_summary mid repo = Ok (match l with [] => None | _ => Some (summary_of mid l) end).
Proof.
  intros Hrepr. cbn zeta. unfold get_message_delivery_summary. fold acc0.
  pose proof (message_rows_nil repo m mid Hrepr) as Hnil.
  pose proof (summary_loop_spec repo m mid acc0 Hrepr) as Hloop.
  destruct (message_rows mid repo) as [|row rows].
  - by rewrite (proj1 Hnil eq_refl).
  - rewrite Hloop. cbn [bind]. destruct (state_list mid repo m) eqn:Hl; [|done]. by destruct Hnil as [_ Hn]; discriminate Hn.
Qed.

End summary.

(** ** Claims *)

Fixpoint pending_all_admissible (ops : list PendingOp) (m : PendingMap) : Prop :=
  match ops with
  | [] => True
  | op :: ops => pending_admissible op m /\ pending_all_admissible ops (pending_spec op m)
  end.

Fixpoint state_all_admissible (ops : list StateOp) (m : StateMap) : Prop :=
  match ops with
  | [] => True
  | op :: ops => state_admissible op m /\ state_all_admissible ops (state_spec op m)
  end.

Section claims.
Context {TP TS : Type}.
Context `{!CqlTable TP PendingPartition PendingCluster, !CqlTable TS string string}.
#[local] Abbreviation repo_t := (DeliveryStateRepository TP TS).

Fixpoint state_steps (ops : list StateOp) (repo : repo_t) : result exn repo_t :=
  match ops with
  | [] => Ok repo
  | op :: ops => let? repo := state_step op repo in state_steps ops repo
  end.

Lemma pending_sims ops (repo : repo_t) m :
  pending_repr repo m -> pending_all_admissible ops m ->
  pending_repr (exec_all pending_step ops repo) (exec_all pending_spec ops m).
Proof.
  revert repo m. induction ops as [|op ops IH]; intros repo m Hrepr Hadm; [done|].
  destruct Hadm as [Hop Hadm]. rewrite !exec_all_cons. apply IH; [by apply pending_sim|done].
Qed.

Lemma state_sims ops (repo : repo_t) m :
  state_repr repo m -> state_all_admissible ops m ->
  exists repo', state_steps ops repo = Ok repo' /\ state_repr repo' (exec_all state_spec ops m).
Proof.
  revert repo m. induction ops as [|op ops IH]; intros repo m Hrepr Hadm; [by exists repo|].
  destruct Hadm as [Hop Hadm]. rewrite !exec_all_cons. cbn [state_steps].
  destruct (state_sim op repo m Hrepr Hop) as (repo1 & -> & Hrepr1). cbn [bind]. by apply IH.
Qed.

(** The pending queue refines a map of entities.  After any sequence of
    saves of well-formed records and status updates of queued records, from an
    empty table, a fetch for a device and bucket with a positive limit never
    throws; it returns the first [limit] entries of the list of exactly the records the map holds for the
    device and bucket, without duplicates, oldest first and by message id within a
    millisecond. *)
Theorem pending_queue_refines_map (ops : list PendingOp) (repo : repo_t)
    (device : DeviceId) (bucket : string) (limit : Z) (Hlimit : 0 < limit < 2 ^ 31)
    (Hempty : pending_repr repo ∅) (Hops : pending_all_admissible ops ∅) :
  let m := exec_all pending_spec ops ∅ in
  exists all,
    fetch_pending_for_device device bucket limit (exec_all pending_step ops repo) = Ok (take (Z.to_nat limit) all) /\
    StronglySorted cle (pending_cluster <$> all) /\ NoDup all /\
    forall r, r ∈ all <-> pending_partition r = (device_str device, bucket) /\ m !! pending_key r = Some r.
Proof.
  cbn zeta. pose proof (pending_sims ops repo ∅ Hempty Hops) as Hrepr.
  exists (pending_list (device_str device, bucket) (exec_all pending_step ops repo) (exec_all pending_spec ops ∅)).
  split; [by apply fetch_pending_spec|].
  rewrite pending_list_clusters by done. split; [apply scan_sorted|]. split.
  - apply (NoDup_fmap_1 pending_cluster). rewrite pending_list_clusters by done. apply scan_nodup.
  - intros r. rewrite elem_of_pending_list by done. split.
    + intros [c Hc]. destruct Hrepr as [_ Hm].
      pose proof (map_Forall_lookup_1 _ _ _ _ Hm Hc) as (_ & _ & Hk). rewrite Hk.
      split; [|done]. unfold pending_key in Hk. congruence.
    + intros [Hp Hr]. exists (pending_cluster r). unfold pending_key in Hr. by rewrite Hp in Hr.
Qed.

(** The delivery states refine a map of entities.  After any sequence of
    saves, delivery and read acknowledgements of saved rows and monotonic updates,
    none of which throws, the states read for a message are exactly the ones of the
    map, each device once. *)
Theorem delivery_states_refine_map (ops : list StateOp) (repo : repo_t) (mid : MessageId)
    (Hempty : state_repr repo ∅) (Hops : state_all_admissible ops ∅) :
  let m := exec_all state_spec ops ∅ in
  exists repo' states,
    state_steps ops repo = Ok repo' /\ get_delivery_states_for_message mid repo' = Ok states /\
    NoDup (rs_recipient_device_id <$> states) /\
    forall s, s ∈ states <-> MessageId_to_string (rs_message_id s) = MessageId_to_string mid
                             /\ m !! state_key s = Some s.
Proof.
  cbn zeta. destruct (state_sims ops repo ∅ Hempty Hops) as (repo' & Hrun & Hrepr).
  exists repo', (state_list mid repo' (exec_all state_spec ops ∅)). split; [done|].
  split; [by apply get_states_spec|]. split; [by apply state_list_nodup|].
  intros s. rewrite elem_of_state_list by done. split.
  - intros [c Hc]. destruct Hrepr as [_ Hm].
    pose proof (map_Forall_lookup_1 _ _ _ _ Hm Hc) as (_ & _ & Hk). rewrite Hk.
    split; [|done]. unfold state_key in Hk. congruence.
  - intros [Hp Hr]. exists (device_str (rs_recipient_device_id s)). unfold state_key in Hr. by rewrite Hp in Hr.
Qed.

(** One monotonic update takes every entity to one the guard allows, and keeps
    its reader, its read time and a delivery time it already has. *)
Definition entity_le (s s' : RecipientDeliveryState) : Prop :=
  beyond (rs_delivery_state s) (rs_delivery_state s') = true /\
  rs_recipient_user_id s' = rs_recipient_user_id s /\ rs_read_at s' = rs_read_at s /\
  (is_Some (rs_delivered_at s) -> rs_delivered_at s' = rs_delivered_at s).

#[global] Instance entity_le_preorder : PreOrder entity_le.
Proof.
  split.
  - intros s. split; [by destruct (rs_delivery_state s)|done].
  - intros s1 s2 s3 (H1 & H2 & H3 & H4) (H5 & H6 & H7 & H8). split_and!; try congruence.
    + revert H1 H5. destruct (rs_delivery_state s1), (rs_delivery_state s2), (rs_delivery_state s3);
        vm_compute; congruence.
    + intros Hd. rewrite H8; [by apply H4|]. by rewrite H4.
Qed.

Lemma advance_le new_state t s :
  is_ok (validate_transition (rs_delivery_state s) new_state) = true -> entity_le s (advance new_state t s).
Proof.
  intros Hok. unfold advance. case_bool_decide; [reflexivity|]. split_and!; cbn; try done.
  - revert Hok. destruct (rs_delivery_state s), new_state; vm_compute; congruence.
  - intros [d ->]. done.
Qed.

Definition map_le (m m' : StateMap) : Prop :=
  forall k, match m !! k with
            | Some s => exists s', m' !! k = Some s' /\ entity_le s s'
            | None => m' !! k = None
            end.

Lemma monotonic_map_le m mid dev st t : map_le m (state_spec (Monotonic mid dev st t) m).
Proof.
  intros k. cbn. destruct (m !! row_key mid dev) as [s|] eqn:Hs.
  - destruct (is_ok _) eqn:Hok.
    + destruct (decide (row_key mid dev = k)) as [<-|Hne].
      * rewrite Hs, lookup_insert_eq. eexists. split; [done|]. by apply advance_le.
      * rewrite lookup_insert_ne by done. destruct (m !! k) as [s'|]; [|done]. by exists s'.
    + destruct (m !! k) as [s'|]; [|done]. by exists s'.
  - destruct (m !! k) as [s'|]; [|done]. by exists s'.
Qed.

(** Monotonic updates only advance.  Any sequence of
    [update_delivery_state_monotonic] calls runs without exception and creates or
    drops no row; every row moves only forward in the sense of the guard (expired
    stays expired, read stays read, delivered stays delivered or read), and its
    recipient, its read time and a delivery time it has are never changed. *)
Theorem monotonic_updates_advance (calls : list (MessageId * DeviceId * DeliveryState * Z))
    (repo : repo_t) (m : StateMap) (Hrepr : state_repr repo m) :
  let ops := (fun c => Monotonic c.1.1.1 c.1.1.2 c.1.2 c.2) <$> calls in
  exists repo' m', state_steps ops repo = Ok repo' /\ state_repr repo' m' /\ map_le m m'.
Proof.
  cbn zeta. revert repo m Hrepr.
  induction calls as [|[[[mid dev] st] t] calls IH]; intros repo m Hrepr.
  { exists repo, m. split; [done|]. split; [done|]. intros k. destruct (m !! k) as [s|]; [|done]. by exists s. }
  cbn [fmap list_fmap state_steps fst snd].
  destruct (state_sim (Monotonic mid dev st t) repo m Hrepr I) as (repo1 & -> & Hrepr1). cbn [bind].
  destruct (IH repo1 _ Hrepr1) as (repo' & m' & Hrun & Hrepr' & Hle). exists repo', m'.
  split; [done|]. split; [done|]. intros k. pose proof (monotonic_map_le m mid dev st t k) as Hk.
  specialize (Hle k). destruct (m !! k) as [s|].
  - destruct Hk as (s1 & Hs1 & Hle1). rewrite Hs1 in Hle. destruct Hle as (s2 & Hs2 & Hle2).
    exists s2. split; [done|]. by transitivity s1.
  - by rewrite Hk in Hle.
Qed.

(** The delivery summary of a message counts its rows and aggregates reads
    per user: the totals are the number of rows in each class (all states but
    delivered and expired count as pending), there is one device status per row,
    and one read status per recipient user, which is read exactly when a device of
    the user reported a read, with the earliest such time and its device. *)
Theorem summary_aggregates (repo : repo_t) (m : StateMap) (mid : MessageId) (Hrepr : state_repr repo m) :
  exists l, get_delivery_states_for_message mid repo = Ok l /\
  (l = [] -> get_message_delivery_summary mid repo = Ok None) /\
  (l <> [] -> exists su, get_message_delivery_summary mid repo = Ok (Some su) /\
     su_total_targets su = u32 (Z.of_nat (length l)) /\
     su_delivered_targets su = u32 (count_states (fun st => bool_decide (st = Delivered)) l) /\
     su_expired_targets su = u32 (count_states (fun st => bool_decide (st = Expired)) l) /\
     su_pending_targets su = u32 (count_states is_pending l) /\
     su_device_statuses su = device_status <$> l /\
     (forall st, st ∈ su_recipient_read_statuses su -> read_status_of l (lr_user_id st) st) /\
     (forall s, s ∈ l -> exists st, st ∈ su_recipient_read_statuses su /\ lr_user_id st = rs_recipient_user_id s)).
Proof.
  exists (state_list mid repo m). split; [by apply get_states_spec|].
  pose proof (get_summary_spec repo m mid Hrepr) as ->.
  destruct (summary_entities_spec (state_list mid repo m)) as (H1 & H2 & H3 & H4 & H5 & H6).
  split; [by intros ->|]. intros Hne.
  exists (summary_of mid (state_list mid repo m)). split; [by destruct (state_list mid repo m)|]. cbn.
  split_and!; try done.
  - intros st [u Hu]%elem_of_in_user_order. specialize (H6 u). rewrite Hu in H6.
    pose proof H6 as [<- _]. done.
  - intros s Hs. specialize (H6 (rs_recipient_user_id s)).
    destruct (acc_reads _ !! rs_recipient_user_id s) as [st|] eqn:Hst; [|by destruct (H6 s Hs)].
    exists st. split; [apply elem_of_in_user_order; eauto|]. by destruct H6.
Qed.

End claims.

(** ** The claims on a concrete store *)

Definition gmap_repo : Type := DeliveryStateRepository (GTable PendingPartition PendingCluster) (GTable string string).
Definition empty_repo : gmap_repo := mkRepo ∅ ∅.

Lemma empty_pending_repr : pending_repr empty_repo ∅.
Proof. split; [done|apply map_Forall_empty]. Qed.
Lemma empty_state_repr : state_repr empty_repo ∅.
Proof. split; [done|apply map_Forall_empty]. Qed.

Definition sample_record (bucket : string) (accepted_at : Z) : DeviceDeliveryRecord :=
  {| dr_device_id := mkDeviceId "device-1"; dr_delivery_bucket := bucket; dr_accepted_at := accepted_at;
     dr_message_id := nil_message_id; dr_conversation_id := nil_conversation_id;
     dr_message_sequence := 7; dr_message_priority := Urgent; dr_delivery_state := Queued;
     dr_attempt_count := 0; dr_next_retry_at := None; dr_ciphertext_blob := "abc";
     dr_ephemeral_public_key := []; dr_iv := [1; 2]; dr_auth_tag := []; dr_algorithm := AES_256_GCM;
     dr_protocol_version := V2_Hybrid_PostQuantum; dr_one_time_prekey_id := None |}.

Definition sample_state (device : string) (state : DeliveryState) : RecipientDeliveryState :=
  {| rs_message_id := nil_message_id; rs_recipient_device_id := mkDeviceId device;
     rs_recipient_user_id := mkUserId "user-1"; rs_delivery_state := state;
     rs_delivered_at := None; rs_read_at := None |}.

Lemma nil_uuid_wf : Uuid.wf Uuid.nil.
Proof. split; [done|]. apply Forall_replicate. lia. Qed.

Lemma sample_record_wf bucket accepted_at : record_wf (sample_record bucket accepted_at).
Proof. repeat split; try apply nil_uuid_wf; try done. Qed.

Lemma pending_queue_refines_map_witness :
  exists all, fetch_pending_for_device (mkDeviceId "device-1") "202601" 5
    (exec_all pending_step [SavePending (sample_record "202601" 2000000); SavePending (sample_record "202601" 1000000);
       UpdateStatus (mkDeviceId "device-1") "202601" 2000000 nil_message_id Delivering 1 None] empty_repo)
    = Ok (take 5 all).
Proof.
  edestruct (pending_queue_refines_map
    [SavePending (sample_record "202601" 2000000); SavePending (sample_record "202601" 1000000);
     UpdateStatus (mkDeviceId "device-1") "202601" 2000000 nil_message_id Delivering 1 None]
    empty_repo (mkDeviceId "device-1") "202601" 5) as (all & Hall & _).
  - lia.
  - apply empty_pending_repr.
  - split; [apply sample_record_wf|]. split; [apply sample_record_wf|]. split; [|exact I].
    vm_compute. eexists. reflexivity.
  - exists all. exact Hall.
Defined.

Lemma delivery_states_refine_map_witness :
  exists repo' states,
    state_steps [SaveState (sample_state "d1" Queued); DeliveryAck nil_message_id (mkDeviceId "d1") 5000000;
                 ReadAck nil_message_id (mkDeviceId "d1") 7000000;
                 Monotonic nil_message_id (mkDeviceId "d1") Queued 8000000] empty_repo = Ok repo' /\
    get_delivery_states_for_message nil_message_id repo' = Ok states.
Proof.
  destruct (delivery_states_refine_map
    [SaveState (sample_state "d1" Queued); DeliveryAck nil_message_id (mkDeviceId "d1") 5000000;
     ReadAck nil_message_id (mkDeviceId "d1") 7000000; Monotonic nil_message_id (mkDeviceId "d1") Queued 8000000]
    empty_repo nil_message_id) as (repo' & states & H1 & H2 & _).
  - apply empty_state_repr.
  - split; [apply nil_uuid_wf|]. split; [vm_compute; eexists; reflexivity|].
    split; [vm_compute; eexists; reflexivity|]. split; exact I.
  - exists repo', states. split; [exact H1|exact H2].
Defined.

(** A store with one queued device. *)
Definition queued_repo : gmap_repo := save_state_one (sample_state "d1" Queued) empty_repo.
Lemma queued_repr : state_repr queued_repo {[ ("00000000-0000-0000-0000-000000000000", "d1") := sample_state "d1" Queued ]}.
Proof. exact (save_state_sim empty_repo ∅ (sample_state "d1" Queued) empty_state_repr nil_uuid_wf). Qed.

Lemma monotonic_updates_advance_witness :
  exists repo' m', state_steps [Monotonic nil_message_id (mkDeviceId "d1") Delivering 1;
                                Monotonic nil_message_id (mkDeviceId "d1") Queued 2] queued_repo = Ok repo' /\
    state_repr repo' m'.
Proof.
  destruct (monotonic_updates_advance
    [(nil_message_id, mkDeviceId "d1", Delivering, 1); (nil_message_id, mkDeviceId "d1", Queued, 2)]
    queued_repo _ queued_repr) as (repo' & m' & H1 & H2 & _).
  exists repo', m'. split; [exact H1|exact H2].
Defined.

Lemma summary_aggregates_witness :
  exists l, get_delivery_states_for_message nil_message_id queued_repo = Ok l.
Proof.
  destruct (summary_aggregates queued_repo _ nil_message_id queued_repr) as (l & Hl & _).
  exists l. exact Hl.
Defined.

(** A read message is reported as undelivered: [record_read_ack] writes READ
    without consulting the guard, so a device goes from QUEUED to READ although the
    guard refuses that transition, and the summary then counts the device as
    pending and none as delivered. *)
Theorem read_device_counts_as_pending :
  let repo := record_read_ack nil_message_id (mkDeviceId "d1") 7000000 queued_repo in
  can_transition Queued Read = false /\
  (exists s, get_delivery_states_for_message nil_message_id repo = Ok [s] /\ rs_delivery_state s = Read) /\
  exists su, get_message_delivery_summary nil_message_id repo = Ok (Some su) /\
    su_total_targets su = 1 /\ su_delivered_targets su = 0 /\ su_pending_targets su = 1.
Proof.
  cbn zeta. split; [done|]. split; (eexists; split; [vm_compute; reflexivity|]); done.
Qed.
