(* ===== verification/MessageStore.v ===== *)
(** * The message store

    Models [src/messaging/domain/message_entity.hpp] and
    [src/messaging/repository/scylla_message_repository.cpp] over the table
    [messages_by_conversation] (partition: conversation and monthly bucket;
    clustering: sequence, then message id), and shows that the repository is a map of
    messages read in sequence order. *)

From S2P Require Import Prelude Ids Bucket Scylla DeliveryTypes DeliveryRepo DeliveryRepoSpec.
From stdpp Require Import sorting.
#[local] Open Scope Z_scope.

(** ** Entities *)

Record CiphertextEnvelope := mkCiphertext { ce_ciphertext : string; ce_envelope_version : Z }.

Record MessageEntity := mkMessage {
  me_conversation_id : ConversationId;
  me_message_bucket : MessageBucket;
  me_message_sequence : Z;
  me_message_id : MessageId;
  me_sender_user_id : UserId;
  me_sender_device_id : DeviceId;
  me_priority : MessagePriority;
  me_accepted_at : Z;
  me_envelope : CiphertextEnvelope;
  me_file_reference_ids : list string;
}.

Abbreviation MessagePartition := (string * string)%type.
Abbreviation MessageCluster := (Z * string)%type.

Definition partition_key (c : ConversationId) (b : MessageBucket) : MessagePartition :=
  (ConversationId_to_string c, bucket_value b).

(** The regular columns [prep_save_message_] binds. *)
Definition message_columns (e : MessageEntity) : list (string * ScyllaValue) :=
  [ ("sender_user_id", VString (user_str (me_sender_user_id e)));
    ("sender_device_id", VString (device_str (me_sender_device_id e)));
    ("message_priority", VString (priority_to_string (me_priority e)));
    ("accepted_at", VInt64 (to_ms (me_accepted_at e)));
    ("ciphertext_envelope", VString (ce_ciphertext (me_envelope e)));
    ("envelope_version", VInt (ce_envelope_version (me_envelope e)));
    ("file_reference_ids", VStrings (me_file_reference_ids e)) ].

Definition message_key_columns (p : MessagePartition) (c : MessageCluster) : list (string * ScyllaValue) :=
  [("conversation_id", VString p.1); ("message_bucket", VString p.2);
   ("message_sequence", VInt64 c.1); ("message_id", VString c.2)].

Definition message_select : list string :=
  ["conversation_id"; "message_bucket"; "message_sequence"; "message_id"; "sender_user_id"; "sender_device_id";
   "message_priority"; "accepted_at"; "ciphertext_envelope"; "envelope_version"; "file_reference_ids"].

Definition message_row (p : MessagePartition) (cr : MessageCluster * Cells) : ScyllaRow :=
  select message_select (mk_cells (message_key_columns p cr.1) ∪ cr.2).

Definition row_to_message_entity (row : ScyllaRow) : result exn MessageEntity :=
  let? conversation_id := get_string row "conversation_id" in
  let? message_bucket := get_string row "message_bucket" in
  let? message_sequence := get_int64 row "message_sequence" in
  let? message_id := get_string row "message_id" in
  let? sender_user_id := get_string row "sender_user_id" in
  let? sender_device_id := get_string row "sender_device_id" in
  let? message_priority := get_string row "message_priority" in
  let? accepted_at := get_timestamp row "accepted_at" in
  let? ciphertext := get_string row "ciphertext_envelope" in
  let? envelope_version := get_int row "envelope_version" in
  let? file_reference_ids := nullable row "file_reference_ids" get_string_list in
  Ok {| me_conversation_id := default nil_conversation_id (ConversationId_from_string conversation_id);
        me_message_bucket := default empty_bucket (bucket_from_string message_bucket);
        me_message_sequence := u64 message_sequence;
        me_message_id := default nil_message_id (MessageId_from_string message_id);
        me_sender_user_id := mkUserId sender_user_id;
        me_sender_device_id := mkDeviceId sender_device_id;
        me_priority := default Normal (message_priority_from_string message_priority);
        me_accepted_at := from_ms accepted_at;
        me_envelope := mkCiphertext ciphertext envelope_version;
        me_file_reference_ids := default [] file_reference_ids |}.

(** A selected row, decoded. *)
Definition decode_row (p : MessagePartition) (cr : MessageCluster * Cells) : result exn MessageEntity :=
  row_to_message_entity (message_row p cr).

(** ** Operations *)

Section repository.
Context {T : Type} `{!CqlTable T MessagePartition MessageCluster}.
Implicit Type t : T.

Definition message_partition (e : MessageEntity) : MessagePartition :=
  partition_key (me_conversation_id e) (me_message_bucket e).
Definition message_cluster (e : MessageEntity) : MessageCluster :=
  (i64 (me_message_sequence e), MessageId_to_string (me_message_id e)).

Definition save_message (e : MessageEntity) t : T :=
  upsert (message_partition e) (message_cluster e) (mk_cells (message_columns e)) t.

(** The statement goes through the secondary index on [message_id] within one
    partition; the first row is taken. *)
Definition find_by_id (conversation_id : ConversationId) (message_bucket : MessageBucket) (message_id : MessageId) t
    : result exn (option MessageEntity) :=
  let p := partition_key conversation_id message_bucket in
  match List.filter (fun cr : MessageCluster * Cells => String.eqb cr.1.2 (MessageId_to_string message_id))
          (scan p t) with
  | [] => Ok None
  | cr :: _ => let? e := decode_row p cr in Ok (Some e)
  end.

Definition in_range (from_sequence to_sequence : Z) (c : MessageCluster) : bool :=
  (i64 from_sequence <=? c.1) && (c.1 <=? i64 to_sequence).

Definition list_messages_by_sequence_range (conversation_id : ConversationId) (message_bucket : MessageBucket)
    (from_sequence to_sequence limit : Z) t : result exn (list MessageEntity) :=
  let p := partition_key conversation_id message_bucket in
  let? limit := limit_param limit in
  map_result (decode_row p)
    (take limit (List.filter (fun cr : MessageCluster * Cells => in_range from_sequence to_sequence cr.1) (scan p t))).

(** ORDER BY message_sequence DESC LIMIT 1: the last row of the partition. *)
Definition get_last_sequence (conversation_id : ConversationId) (message_bucket : MessageBucket) t : result exn Z :=
  let p := partition_key conversation_id message_bucket in
  match last (scan p t) with
  | None => Ok 0
  | Some cr =>
      let? seq := get_int64 (select ["message_sequence"] (mk_cells (message_key_columns p cr.1) ∪ cr.2))
                    "message_sequence" in
      Ok (u64 seq)
  end.

End repository.

(** ** Rows decode to what was stored *)

(** Identifiers and buckets as their constructors make them, a sequence number a
    [bigint] orders as the service does. *)
Definition message_wf (e : MessageEntity) : Prop :=
  Uuid.wf (conversation_bytes (me_conversation_id e)) /\ Uuid.wf (message_bytes (me_message_id e)) /\
  bucket_wf (me_message_bucket e) /\ 0 <= me_message_sequence e < 2 ^ 63.

Definition stored_message (e : MessageEntity) : MessageEntity :=
  {| me_conversation_id := me_conversation_id e; me_message_bucket := me_message_bucket e;
     me_message_sequence := me_message_sequence e; me_message_id := me_message_id e;
     me_sender_user_id := me_sender_user_id e; me_sender_device_id := me_sender_device_id e;
     me_priority := me_priority e; me_accepted_at := stored_time (me_accepted_at e);
     me_envelope := me_envelope e; me_file_reference_ids := me_file_reference_ids e |}.

Definition message_key (e : MessageEntity) : MessagePartition * MessageCluster :=
  (message_partition e, message_cluster e).

Definition message_at (k : MessagePartition * MessageCluster) (e : MessageEntity) : Prop :=
  message_wf e /\ stored_message e = e /\ message_key e = k.

Abbreviation MessageMap := (gmap (MessagePartition * MessageCluster) MessageEntity).

Lemma message_sequence_i64 e : message_wf e -> i64 (me_message_sequence e) = me_message_sequence e.
Proof. intros (_ & _ & _ & ?). by apply i64_small. Qed.

Lemma decode_message p c e : message_at (p, c) e -> decode_row p (c, mk_cells (message_columns e)) = Ok e.
Proof.
  intros ((Hc & Hm & Hb & Hs) & He & Hk). unfold message_key in Hk. injection Hk as <- <-.
  unfold decode_row, message_row. cbn [fst snd]. rewrite mk_cells_app. unfold row_to_message_entity.
  do 2 read_with get_string_cell. read_with get_int64_cell. do 4 read_with get_string_cell.
  read_with get_timestamp_cell. read_with get_string_cell. read_with get_int_cell.
  eapply bind_eq.
  { eapply (nullable_cell "file_reference_ids" message_select) with (o := Some (me_file_reference_ids e));
      [vm_compute; reflexivity|reflexivity|].
    eexists. split; [done|]. unfold get_string_list. by erewrite get_cell by (vm_compute; reflexivity). }
  cbv beta. unfold message_partition, message_cluster, partition_key. cbn [fst snd].
  rewrite conversation_id_text, message_id_text, bucket_from_to_string, priority_text, u64_i64, u64_small
    by (done || (unfold in_u64; lia)).
  transitivity (Ok (E := exn) (stored_message e)); [|by rewrite He].
  unfold stored_message. cbn. by destruct (me_sender_user_id e), (me_sender_device_id e), (me_envelope e).
Qed.

(** ** Refinement *)

Definition message_spec (e : MessageEntity) (m : MessageMap) : MessageMap := <[message_key e := stored_message e]> m.

Lemma stored_message_at e : message_wf e -> message_at (message_key e) (stored_message e).
Proof.
  intros Hwf. split; [exact Hwf|]. split; [|done].
  unfold stored_message. cbn. by rewrite stored_time_idemp.
Qed.

(** The greatest element of a sorted list is its last. *)
Lemma sorted_last {A} (R : relation A) `{!Reflexive R} l x y :
  StronglySorted R l -> last l = Some x -> y ∈ l -> R y x.
Proof.
  induction 1 as [|a l Hs IH Hall]; intros Hl Hy; [by apply not_elem_of_nil in Hy|].
  destruct l as [|b l]; cbn in Hl.
  - injection Hl as ->. apply list_elem_of_singleton in Hy as ->. reflexivity.
  - apply elem_of_cons in Hy as [->|Hy]; [|by apply IH].
    rewrite Forall_forall in Hall. apply Hall. by apply last_Some_elem_of.
Qed.

Section refinement.
Context {T : Type} `{!CqlTable T MessagePartition MessageCluster}.
Implicit Types (t : T) (m : MessageMap) (c : ConversationId) (b : MessageBucket).

Definition message_repr t m : Prop := table_repr message_columns message_at t m.

Lemma save_message_repr t m e : message_wf e -> message_repr t m -> message_repr (save_message e t) (message_spec e m).
Proof.
  intros Hwf Hr. unfold save_message, message_spec. apply table_repr_insert; [done|done|by apply stored_message_at|].
  unfold message_columns. cbn. by rewrite to_ms_stored_time.
Qed.

Lemma save_messages_repr es t m :
  Forall message_wf es -> message_repr t m ->
  message_repr (exec_all save_message es t) (exec_all message_spec es m).
Proof.
  revert t m. induction es as [|e es IH]; intros t m Hwf Hr; [done|]. rewrite !exec_all_cons.
  apply Forall_cons in Hwf as [He Hwf]. apply IH; [done|]. by apply save_message_repr.
Qed.

Abbreviation messages t m c b := (entities (T := T) m (partition_key c b) t).

Lemma elem_of_messages t m c b e :
  message_repr t m -> e ∈ messages t m c b <-> message_partition e = partition_key c b /\ m !! message_key e = Some e.
Proof.
  intros Hr. rewrite (elem_of_entities _ _ _ _ _ _ Hr). split.
  - intros [k He]. pose proof (table_repr_at _ _ _ _ _ _ _ Hr He) as (_ & _ & Hk).
    split; [by apply (f_equal fst) in Hk|by rewrite Hk].
  - intros [Hp He]. exists (message_cluster e). unfold message_key in He. by rewrite Hp in He.
Qed.

Lemma messages_sorted t m c b :
  message_repr t m -> StronglySorted Z.le (me_message_sequence <$> messages t m c b) /\ NoDup (messages t m c b).
Proof.
  intros Hr.
  assert (message_cluster <$> messages t m c b = (scan (partition_key c b) t).*1) as Hcl.
  { eapply entities_clusters; [exact Hr|]. intros k e (_ & _ & Hk). by apply (f_equal snd) in Hk. }
  pose proof (scan_sorted (C := MessageCluster) (partition_key c b) t) as Hs. pose proof (scan_nodup (C := MessageCluster) (partition_key c b) t) as Hnd.
  rewrite <- Hcl in Hs, Hnd. split; [|by apply NoDup_fmap_1 in Hnd].
  assert (Hwf : Forall message_wf (messages t m c b)).
  { apply Forall_forall. intros e He%(elem_of_messages _ _ _ _ _ Hr). destruct He as [_ He].
    unfold message_key in He. by destruct (table_repr_at _ _ _ _ _ _ _ Hr He). }
  clear -Hs Hwf. revert Hs Hwf. generalize (messages t m c b) as l.
  induction l as [|e l IH]; intros Hs Hwf; [constructor|].
  apply Forall_cons in Hwf as [He Hl]. apply StronglySorted_inv in Hs as [Hs Hall].
  constructor; [by apply IH|]. apply Forall_forall. intros n (e' & -> & Hin)%list_elem_of_fmap.
  rewrite Forall_forall in Hall. rewrite Forall_forall in Hl. destruct (Hall (message_cluster e')) as [Hle _]; [by apply list_elem_of_fmap_2|].
  cbn in Hle.
  by rewrite !message_sequence_i64 in Hle by auto.
Qed.

Lemma list_range_spec t m c b from to limit :
  message_repr t m -> 0 <= from < 2 ^ 63 -> 0 <= to < 2 ^ 63 -> 0 < limit < 2 ^ 31 ->
  list_messages_by_sequence_range c b from to limit t
  = Ok (take (Z.to_nat limit) (List.filter
          (fun e => (from <=? me_message_sequence e) && (me_message_sequence e <=? to)) (messages t m c b))).
Proof.
  intros Hr Hf Ht Hl. unfold list_messages_by_sequence_range. rewrite limit_param_ok by done. cbn [bind].
  set (rows := List.filter _ _).
  assert (Hrows : forall x : MessageCluster * Cells, x ∈ rows -> x ∈ scan (partition_key c b) t).
  { intros x Hx. apply list_elem_of_In, filter_In in Hx as [Hx _]. by apply list_elem_of_In. }
  erewrite (decode_rows _ _ decode_row decode_message); [|exact Hr|].
  - rewrite (entities_take _ _ _ _ _ _ _ Hr Hrows). do 2 f_equal. unfold rows.
    eapply (entities_filter _ _ _ _ _ (in_range from to)); [exact Hr|done|].
    intros k e (Hwf & _ & Hk). apply (f_equal snd) in Hk. cbn in Hk. subst k.
    unfold in_range, message_cluster. cbn. by rewrite message_sequence_i64, !i64_small.
  - intros x Hx. apply Hrows. by apply elem_of_take in Hx as (i & Hx%list_elem_of_lookup_2 & _).
Qed.

Lemma find_by_id_spec t m c b mid :
  message_repr t m -> Uuid.wf (message_bytes mid) ->
  find_by_id c b mid t = Ok (List.find (fun e => bool_decide (me_message_id e = mid)) (messages t m c b)).
Proof.
  intros Hr Hmid. unfold find_by_id. set (rows := List.filter _ _).
  assert (Hrows : forall x : MessageCluster * Cells, x ∈ rows -> x ∈ scan (partition_key c b) t).
  { intros x Hx. apply list_elem_of_In, filter_In in Hx as [Hx _]. by apply list_elem_of_In. }
  assert (entities_of m (partition_key c b) rows
          = List.filter (fun e => bool_decide (me_message_id e = mid)) (messages t m c b)) as Hf.
  { eapply (entities_filter _ _ _ _ _ (fun k => String.eqb k.2 (MessageId_to_string mid))); [exact Hr|done|].
    intros k e ((_ & Hw & _) & _ & Hk). apply (f_equal snd) in Hk. cbn in Hk. subst k. cbn.
    destruct (String.eqb_spec (MessageId_to_string (me_message_id e)) (MessageId_to_string mid)) as [Heq|Hne].
    - apply Uuid.to_string_inj in Heq; [|done..]. symmetry. apply bool_decide_eq_true.
      destruct (me_message_id e), mid. cbn in Heq. by subst.
    - symmetry. apply bool_decide_eq_false. congruence. }
  assert (forall (p : MessageEntity -> bool) l, List.find p l = head (List.filter p l)) as ->.
  { intros p l. induction l as [|e l IH]; [done|]. cbn. by destruct (p e). }
  rewrite <- Hf. destruct rows as [|[k r] rows]; [done|].
  destruct (scan_entity _ _ t m (partition_key c b) k r Hr) as (e & He & ->); [apply Hrows; left|].
  rewrite (decode_message _ _ _ (table_repr_at _ _ _ _ _ _ _ Hr He)). unfold entities_of. cbn. by rewrite He.
Qed.

Lemma get_last_sequence_spec t m c b :
  message_repr t m ->
  exists n, get_last_sequence c b t = Ok n /\ 0 <= n < 2 ^ 63 /\
    (forall e, e ∈ messages t m c b -> me_message_sequence e <= n) /\
    (n = 0 \/ exists e, e ∈ messages t m c b /\ me_message_sequence e = n).
Proof.
  intros Hr. unfold get_last_sequence. destruct (last (scan (partition_key c b) t)) as [[k r]|] eqn:Hlast.
  - destruct (scan_entity _ _ t m (partition_key c b) k r Hr) as (e & He & ->); [by apply last_Some_elem_of|].
    pose proof (table_repr_at _ _ _ _ _ _ _ Hr He) as (Hwf & _ & Hk). pose proof Hwf as (_ & _ & _ & Hs).
    cbn [fst snd]. rewrite mk_cells_app. rewrite (get_int64_cell "message_sequence" ["message_sequence"] _ eq_refl k.1) by reflexivity. cbn [bind].
    apply (f_equal snd) in Hk. cbn in Hk. subst k. change (message_cluster e).1 with (i64 (me_message_sequence e)).
    exists (me_message_sequence e). rewrite u64_i64, u64_small by (unfold in_u64; lia).
    split; [done|]. split; [done|]. split; [|right; exists e; split; [|done]; eapply elem_of_entities; [exact Hr|by eexists]].
    intros e' [Hp' He']%(elem_of_messages _ _ _ _ _ Hr). unfold message_key in He'. rewrite Hp' in He'.
    pose proof (table_repr_at _ _ _ _ _ _ _ Hr He') as (Hwf' & _).
    assert (cle (message_cluster e') (message_cluster e)) as [Hle _].
    { eapply (sorted_last cle (scan (partition_key c b) t).*1); [apply scan_sorted| |].
      - by rewrite fmap_last, Hlast.
      - apply list_elem_of_fmap. exists (message_cluster e', mk_cells (message_columns e')). split; [done|].
        apply scan_spec. destruct Hr as [Hc _]. by rewrite Hc, He'. }
    cbn in Hle. by rewrite !message_sequence_i64 in Hle.
  - exists 0. split_and!; [done|lia|lia| |by left]. apply last_None in Hlast.
    intros e He. unfold entities in He. rewrite Hlast in He. by apply not_elem_of_nil in He.
Qed.

(** The message store is read in sequence order.  After any saves of
    well-formed messages into an empty table, the messages of a conversation and month
    form a list that is sorted by sequence number, has no duplicates and contains
    exactly the last message saved under each key of that partition; a range query
    returns the first [limit] messages of the list whose number is in the range, the
    last sequence is the greatest number of the list (0 when it is empty), and a
    message is found by its identifier exactly when it is in the list. *)
Theorem message_store_reads (es : list MessageEntity) t c b (from to limit : Z)
    (Hempty : message_repr t ∅) (Hwf : Forall message_wf es)
    (Hfrom : 0 <= from < 2 ^ 63) (Hto : 0 <= to < 2 ^ 63) (Hlimit : 0 < limit < 2 ^ 31) :
  let m := exec_all message_spec es ∅ in
  let t' := exec_all save_message es t in
  exists all,
    (StronglySorted Z.le (me_message_sequence <$> all) /\ NoDup all /\
     forall e, e ∈ all <-> message_partition e = partition_key c b /\ m !! message_key e = Some e) /\
    list_messages_by_sequence_range c b from to limit t'
    = Ok (take (Z.to_nat limit) (List.filter
            (fun e => (from <=? me_message_sequence e) && (me_message_sequence e <=? to)) all)) /\
    (exists n, get_last_sequence c b t' = Ok n /\ (forall e, e ∈ all -> me_message_sequence e <= n) /\
       (n = 0 \/ exists e, e ∈ all /\ me_message_sequence e = n)) /\
    forall mid, Uuid.wf (message_bytes mid) ->
      find_by_id c b mid t' = Ok (List.find (fun e => bool_decide (me_message_id e = mid)) all).
Proof.
  cbn zeta. pose proof (save_messages_repr es t ∅ Hwf Hempty) as Hr.
  exists (messages (exec_all save_message es t) (exec_all message_spec es ∅) c b).
  destruct (messages_sorted _ _ c b Hr) as [Hs Hnd].
  split; [split; [done|]; split; [done|]; intros e; by apply elem_of_messages|].
  split; [by apply list_range_spec|]. split; [|by intros; apply find_by_id_spec].
  destruct (get_last_sequence_spec _ _ c b Hr) as (n & Hn & _ & H1 & H2). by exists n.
Qed.

End refinement.

(** ** Witness *)

Definition sample_message (sequence : Z) : MessageEntity :=
  {| me_conversation_id := nil_conversation_id; me_message_bucket := mkBucket "202601" 2026 1;
     me_message_sequence := sequence; me_message_id := nil_message_id; me_sender_user_id := mkUserId "u";
     me_sender_device_id := mkDeviceId "d"; me_priority := Normal; me_accepted_at := 0;
     me_envelope := mkCiphertext "x" 1; me_file_reference_ids := [] |}.

Lemma empty_message_repr : message_repr (∅ : GTable MessagePartition MessageCluster) ∅.
Proof. split; [|apply map_Forall_empty]. intros p c. cbn. by rewrite lookup_empty. Qed.

Lemma sample_message_wf sequence : 0 <= sequence < 2 ^ 63 -> message_wf (sample_message sequence).
Proof. intros Hs. split; [apply nil_uuid_wf|]. split; [apply nil_uuid_wf|]. by split. Qed.

Lemma message_store_reads_witness :
  exists n, get_last_sequence nil_conversation_id (mkBucket "202601" 2026 1)
    (exec_all save_message [sample_message 7; sample_message 3] (∅ : GTable MessagePartition MessageCluster)) = Ok n.
Proof.
  destruct (message_store_reads [sample_message 7; sample_message 3] (∅ : GTable MessagePartition MessageCluster)
    nil_conversation_id (mkBucket "202601" 2026 1) 1 9 10) as (all & _ & _ & (n & Hn & _) & _).
  - apply empty_message_repr.
  - repeat constructor; apply sample_message_wf; lia.
  - lia.
  - lia.
  - lia.
  - exists n. exact Hn.
Defined.
