(* ===== verification/Sequence.v ===== *)
(** * Sequence numbers

    Models [src/messaging/service/sequence_allocator_interface.hpp] as a class, and
    its two implementations, [conversation_sequence_allocator.cpp] (counters in
    striped maps, started from the message store) and
    [in_memory_sequence_allocator.cpp], as instances.  Each call runs under the lock
    of its stripe, so calls are atomic; the interleaving of allocations with the
    saves that follow them is the step relation of the last section. *)

From S2P Require Import Prelude Ids Bucket Scylla DeliveryTypes DeliveryRepo DeliveryRepoSpec MessageStore.
From stdpp Require Import sorting.
#[local] Open Scope Z_scope.

(** ** The interface *)

(** What the constructors of identifiers and buckets guarantee. *)
Definition key_wf (c : ConversationId) (b : MessageBucket) : Prop :=
  Uuid.wf (conversation_bytes c) /\ bucket_wf b.

(** [A] is the state of the allocator, [R] the store it may read.  [current] is the
    number the allocator is at: what [peek_sequence] answers, one less than what
    [allocate_sequence] answers.  An allocation moves its own key by one, and from
    then on that key no longer depends on the store. *)
Class SequenceAllocator (A R : Type) := {
  allocate_sequence : ConversationId -> MessageBucket -> R -> A -> result exn (Z * A);
  peek_sequence : ConversationId -> MessageBucket -> R -> A -> result exn (Z * A);
  current : ConversationId -> MessageBucket -> R -> A -> result exn Z;
  allocate_spec : forall c b r a n, key_wf c b -> current c b r a = Ok n ->
    exists a', allocate_sequence c b r a = Ok (u64 (n + 1), a') /\
      (forall r', current c b r' a' = Ok (u64 (n + 1))) /\
      forall c' b' r', key_wf c' b' -> (c', b') <> (c, b) -> current c' b' r' a' = current c' b' r' a;
  allocate_throws : forall c b r a e, current c b r a = Err e -> allocate_sequence c b r a = Err e;
  peek_spec : forall c b r a n, key_wf c b -> current c b r a = Ok n ->
    exists a', peek_sequence c b r a = Ok (n, a') /\
      current c b r a' = Ok n /\
      forall c' b' r', key_wf c' b' -> (c', b') <> (c, b) -> current c' b' r' a' = current c' b' r' a;
}.

(** ** Keys *)

Definition make_key (c : ConversationId) (b : MessageBucket) : string :=
  String.append (ConversationId_to_string c) (String.append ":" (bucket_value b)).

Lemma conversation_text_length c :
  Uuid.wf (conversation_bytes c) -> length (chars (ConversationId_to_string c)) = 36%nat.
Proof.
  intros Hwf. pose proof (Uuid.from_to_string _ Hwf) as H. unfold ConversationId_to_string.
  unfold Uuid.from_string, Uuid.from_chars in H.
  destruct (Nat.eqb_spec (length (chars (Uuid.to_string (conversation_bytes c)))) 36); [done|discriminate].
Qed.

Lemma bucket_value_inj b b' : bucket_wf b -> bucket_wf b' -> bucket_value b = bucket_value b' -> b = b'.
Proof.
  intros Hb Hb' Heq. apply bucket_from_to_string in Hb, Hb'. rewrite Heq in Hb. congruence.
Qed.

Lemma conversation_text_inj c c' :
  Uuid.wf (conversation_bytes c) -> Uuid.wf (conversation_bytes c') ->
  ConversationId_to_string c = ConversationId_to_string c' -> c = c'.
Proof.
  intros Hc Hc' Heq. apply Uuid.to_string_inj in Heq; [|done..]. destruct c, c'. cbn in Heq. by subst.
Qed.

Lemma make_key_inj c b c' b' : key_wf c b -> key_wf c' b' -> make_key c b = make_key c' b' -> (c, b) = (c', b').
Proof.
  intros [Hc Hb] [Hc' Hb'] Heq. apply (f_equal chars) in Heq. unfold make_key in Heq. rewrite !chars_append in Heq.
  apply app_inj_1 in Heq as [H1 H2]; [|by rewrite !conversation_text_length].
  apply chars_inj, conversation_text_inj in H1; [|done..].
  cbn in H2. injection H2 as H2. apply chars_inj, bucket_value_inj in H2; [|done..]. by subst.
Qed.

Lemma partition_key_inj c b c' b' :
  key_wf c b -> key_wf c' b' -> partition_key c b = partition_key c' b' -> (c, b) = (c', b').
Proof.
  intros [Hc Hb] [Hc' Hb'] [= H1 H2]. apply conversation_text_inj in H1; [|done..].
  apply bucket_value_inj in H2; [|done..]. by subst.
Qed.

(** ** [ConversationSequenceAllocator] *)

Definition kNumStripes : Z := 64.

(** The array of stripes; an index that is absent has an empty counter map. *)
Record ConversationSequenceAllocator := mkAllocator { stripes_ : gmap Z (gmap string Z) }.

Section allocator.
Context (hash : string -> Z).
Context {T : Type} `{!CqlTable T MessagePartition MessageCluster}.
Implicit Types (a : ConversationSequenceAllocator) (t : T).

(** [std::hash<std::string>{}(key) % kNumStripes] on a [size_t]. *)
Definition get_stripe_index (key : string) : Z := u64 (hash key) mod kNumStripes.

Definition counters (i : Z) a : gmap string Z := default ∅ (stripes_ a !! i).

Definition find_counter (key : string) a : option Z := counters (get_stripe_index key) a !! key.

Definition set_counter (key : string) (n : Z) a : ConversationSequenceAllocator :=
  let i := get_stripe_index key in mkAllocator (<[i := <[key := n]> (counters i a)]> (stripes_ a)).

Definition conversation_allocate (c : ConversationId) (b : MessageBucket) t a
    : result exn (Z * ConversationSequenceAllocator) :=
  let key := make_key c b in
  let? a1 :=
    match find_counter key a with
    | Some _ => Ok a
    | None => let? last_seq := get_last_sequence c b t in Ok (set_counter key last_seq a)
    end in
  let next := u64 (default 0 (find_counter key a1) + 1) in
  Ok (next, set_counter key next a1).

Definition conversation_peek (c : ConversationId) (b : MessageBucket) t a
    : result exn (Z * ConversationSequenceAllocator) :=
  let key := make_key c b in
  match find_counter key a with
  | None => let? last_seq := get_last_sequence c b t in Ok (last_seq, set_counter key last_seq a)
  | Some n => Ok (n, a)
  end.

Definition invalidate (c : ConversationId) (b : MessageBucket) a : ConversationSequenceAllocator :=
  let key := make_key c b in
  let i := get_stripe_index key in mkAllocator (<[i := delete key (counters i a)]> (stripes_ a)).

Definition clear a : ConversationSequenceAllocator := mkAllocator ((fun _ => ∅) <$> stripes_ a).

(** What the two calls answer, before the increment. *)
Definition conversation_current (c : ConversationId) (b : MessageBucket) t a : result exn Z :=
  match find_counter (make_key c b) a with Some n => Ok n | None => get_last_sequence c b t end.

Lemma find_set_counter key key' n a :
  find_counter key' (set_counter key n a) = if decide (key = key') then Some n else find_counter key' a.
Proof.
  unfold find_counter, set_counter, counters. cbn. case_decide as Hk.
  - subst. by rewrite lookup_insert_eq; cbn; rewrite lookup_insert_eq.
  - destruct (decide (get_stripe_index key = get_stripe_index key')) as [Hi|Hi].
    + rewrite Hi, lookup_insert_eq. cbn. by rewrite lookup_insert_ne.
    + by rewrite lookup_insert_ne.
Qed.

Lemma find_counter_clear key a : find_counter key (clear a) = None.
Proof.
  unfold find_counter, counters, clear. cbn. rewrite lookup_fmap.
  destruct (stripes_ a !! _); cbn; by rewrite lookup_empty.
Qed.

Lemma find_counter_invalidate c b key a :
  find_counter key (invalidate c b a) = if decide (make_key c b = key) then None else find_counter key a.
Proof.
  unfold find_counter, invalidate, counters. cbn. case_decide as Hk.
  - subst. rewrite lookup_insert_eq. cbn. by rewrite lookup_delete_eq.
  - destruct (decide (get_stripe_index (make_key c b) = get_stripe_index key)) as [Hi|Hi].
    + rewrite Hi, lookup_insert_eq. cbn. by rewrite lookup_delete_ne.
    + by rewrite lookup_insert_ne.
Qed.

End allocator.

#[export] Program Instance conversation_sequences (hash : string -> Z)
    `{!CqlTable T MessagePartition MessageCluster} : SequenceAllocator ConversationSequenceAllocator T := {|
  allocate_sequence := conversation_allocate hash;
  peek_sequence := conversation_peek hash;
  current := conversation_current hash;
|}.
Next Obligation.
  intros hash T HT c b t a n Hwf Hn. unfold conversation_allocate, conversation_current in *.
  destruct (find_counter hash (make_key c b) a) as [n'|] eqn:Hf.
  - simplify_eq. cbn. rewrite Hf. cbn. eexists. split; [done|]. split.
    + intros r'. by rewrite find_set_counter, decide_True.
    + intros c' b' r' Hwf' Hne. rewrite find_set_counter, decide_False; [done|].
      intros Hk. apply make_key_inj in Hk; [congruence|done..].
  - rewrite Hn. cbn. rewrite find_set_counter, decide_True by done. cbn. eexists. split; [done|]. split.
    + intros r'. by rewrite find_set_counter, decide_True.
    + intros c' b' r' Hwf' Hne. rewrite !find_set_counter.
      rewrite !decide_False by (intros Hk; apply make_key_inj in Hk; [congruence|done..]). done.
Qed.
Next Obligation.
  intros hash T HT c b t a e He. unfold conversation_allocate, conversation_current in *.
  destruct (find_counter hash (make_key c b) a); [done|]. by rewrite He.
Qed.
Next Obligation.
  intros hash T HT c b t a n Hwf Hn. unfold conversation_peek, conversation_current in *.
  destruct (find_counter hash (make_key c b) a) as [n'|] eqn:Hf.
  - simplify_eq. eexists. split; [done|]. by rewrite Hf.
  - rewrite Hn. cbn. eexists. split; [done|]. rewrite find_set_counter, decide_True by done. split; [done|].
    intros c' b' r' Hwf' Hne. rewrite find_set_counter, decide_False; [done|].
    intros Hk. apply make_key_inj in Hk; [congruence|done..].
Qed.

(** ** [InMemorySequenceAllocator] *)

Record InMemorySequenceAllocator := mkInMemory { counters_ : gmap string Z }.

Definition in_memory_allocate (c : ConversationId) (b : MessageBucket) (s : InMemorySequenceAllocator)
    : Z * InMemorySequenceAllocator :=
  let key := make_key c b in
  let next := u64 (default 0 (counters_ s !! key) + 1) in
  (next, mkInMemory (<[key := next]> (counters_ s))).

Definition in_memory_peek (c : ConversationId) (b : MessageBucket) (s : InMemorySequenceAllocator) : Z :=
  default 0 (counters_ s !! make_key c b).

Definition set_sequence (c : ConversationId) (b : MessageBucket) (sequence : Z) (s : InMemorySequenceAllocator)
    : InMemorySequenceAllocator :=
  mkInMemory (<[make_key c b := sequence]> (counters_ s)).

#[export] Program Instance in_memory_sequences {R} : SequenceAllocator InMemorySequenceAllocator R := {|
  allocate_sequence c b _ s := Ok (in_memory_allocate c b s);
  peek_sequence c b _ s := Ok (in_memory_peek c b s, s);
  current c b _ s := Ok (in_memory_peek c b s);
|}.
Next Obligation.
  intros R c b r s n Hwf [= <-]. eexists. split; [done|]. cbn. unfold in_memory_peek. cbn. split.
  - intros _. by rewrite lookup_insert_eq.
  - intros c' b' _ Hwf' Hne. rewrite lookup_insert_ne; [done|].
    intros Hk. apply make_key_inj in Hk; [congruence|done..].
Qed.
Next Obligation. done. Qed.
Next Obligation. intros R c b r s n Hwf [= <-]. eexists. split; [done|]. done. Qed.

(** ** Consecutive numbers, for any allocator *)

Section consecutive.
Context {A R : Type} `{!SequenceAllocator A R}.
Implicit Types (a : A) (r : R) (c : ConversationId) (b : MessageBucket).

(** Calls in the order the locks serialise them, each with the store it finds. *)
Abbreviation Request := (R * (ConversationId * MessageBucket))%type.

Fixpoint allocate_all (reqs : list Request) a : result exn (list Z * A) :=
  match reqs with
  | [] => Ok ([], a)
  | (r, (c, b)) :: reqs =>
      let? (n, a1) := allocate_sequence c b r a in
      let? (ns, a2) := allocate_all reqs a1 in
      Ok (n :: ns, a2)
  end.

(** The numbers given to one key, and the store its first call finds. *)
Definition numbers_of c b (reqs : list Request) (ns : list Z) : list Z :=
  omap (fun x : Request * Z => if decide (x.1.2 = (c, b)) then Some x.2 else None) (zip reqs ns).

Definition first_store c b (reqs : list Request) : option R :=
  fst <$> List.find (fun q : Request => bool_decide (q.2 = (c, b))) reqs.

Definition consecutive (n : Z) (k : nat) : list Z := (fun i => u64 (n + 1 + Z.of_nat i)) <$> seq 0 k.
#[local] Arguments consecutive : simpl never.

Lemma consecutive_S n k : consecutive n (S k) = u64 (n + 1) :: consecutive (u64 (n + 1)) k.
Proof.
  unfold consecutive. rewrite <- cons_seq, fmap_cons. f_equal; [f_equal; lia|].
  rewrite <- fmap_S_seq, <- list_fmap_compose. apply list_fmap_ext. intros _ i _. cbn.
  unfold u64, wrap. rewrite <- !Z.add_assoc, (Z.add_comm ((_ + _) mod _)).
  rewrite Z.add_mod_idemp_r by lia. f_equal. lia.
Qed.

(** A key whose number no longer depends on the store counts up from it. *)
Lemma allocate_all_cached reqs a ns a' c b n :
  Forall (fun q : Request => key_wf q.2.1 q.2.2) reqs -> key_wf c b ->
  (forall r, current c b r a = Ok n) -> allocate_all reqs a = Ok (ns, a') ->
  numbers_of c b reqs ns = consecutive n (length (numbers_of c b reqs ns)).
Proof.
  intros Hwf Hcb. revert a ns n. induction Hwf as [|[r [c' b']] reqs Hq Hwf IH]; intros a ns n Hcur Hrun; [done|].
  cbn in Hq, Hrun. destruct (current c' b' r a) as [n'|e] eqn:Hn.
  2:{ rewrite (allocate_throws _ _ _ _ _ Hn) in Hrun. done. }
  destruct (allocate_spec _ _ _ _ _ Hq Hn) as (a1 & Ha & Hsame & Hother). rewrite Ha in Hrun. cbn in Hrun.
  apply bind_ok in Hrun as ([ns' a2] & Hrun & [= <- <-]).
  unfold numbers_of in *. cbn. destruct (decide ((c', b') = (c, b))) as [[= -> ->]|Hne]; cbn.
  - rewrite Hcur in Hn. injection Hn as <-. rewrite consecutive_S. f_equal. by eapply IH.
  - eapply IH; [|done]. intros r'. by rewrite Hother by congruence.
Qed.

Lemma allocate_all_total reqs a :
  Forall (fun q : Request => key_wf q.2.1 q.2.2) reqs ->
  (forall q c b, q ∈ reqs -> key_wf c b -> is_ok (current c b q.1 a) = true) ->
  exists ns a', allocate_all reqs a = Ok (ns, a') /\ length ns = length reqs.
Proof.
  intros Hwf. revert a. induction Hwf as [|[r [c b]] reqs Hq Hwf IH]; intros a Hcur; [by exists [], a|].
  cbn in Hq |- *. destruct (current c b r a) as [n|e] eqn:Hn.
  2:{ specialize (Hcur (r, (c, b)) c b ltac:(left) Hq). cbn in Hcur. by rewrite Hn in Hcur. }
  destruct (allocate_spec _ _ _ _ _ Hq Hn) as (a1 & -> & Hsame & Hother). cbn.
  destruct (IH a1) as (ns & a2 & -> & Hlen); [|cbn; eexists _, _; split; [done|]; cbn; by rewrite Hlen].
  intros q c' b' Hin Hwf'. destruct (decide ((c', b') = (c, b))) as [[= -> ->]|Hne]; [by rewrite Hsame|].
  rewrite Hother by done. apply Hcur; [by right|done].
Qed.

(** Sequence numbers are consecutive.  Whatever calls for whatever conversations
    and months are serialised, and whatever is stored in between, an allocator that
    can read its starting points answers every call, and the numbers it gives to one
    conversation and month are consecutive from the number it was at when the first of
    those calls was made: no gap, no repetition (in 64-bit arithmetic), and calls for
    other keys do not matter. *)
Theorem allocations_consecutive (reqs : list Request) a
    (Hwf : Forall (fun q : Request => key_wf q.2.1 q.2.2) reqs)
    (Hread : forall q c b, q ∈ reqs -> key_wf c b -> is_ok (current c b q.1 a) = true) :
  exists ns a', allocate_all reqs a = Ok (ns, a') /\ length ns = length reqs /\
    forall c b, key_wf c b ->
      match first_store c b reqs with
      | None => numbers_of c b reqs ns = []
      | Some r => exists n, current c b r a = Ok n /\
          numbers_of c b reqs ns = consecutive n (length (numbers_of c b reqs ns))
      end.
Proof.
  destruct (allocate_all_total reqs a Hwf Hread) as (ns & a' & Hrun & Hlen).
  exists ns, a'. split; [done|]. split; [done|]. intros c b Hcb. clear Hread Hlen. revert a ns Hrun.
  induction Hwf as [|[r [c' b']] reqs Hq Hwf IH]; intros a ns Hrun; [done|].
  cbn in Hq, Hrun. destruct (current c' b' r a) as [n'|e] eqn:Hn.
  2:{ rewrite (allocate_throws _ _ _ _ _ Hn) in Hrun. done. }
  destruct (allocate_spec _ _ _ _ _ Hq Hn) as (a1 & Ha & Hsame & Hother). rewrite Ha in Hrun. cbn in Hrun.
  apply bind_ok in Hrun as ([ns' a2] & Hrun & [= <- <-]).
  unfold first_store, numbers_of in *. cbn. destruct (decide ((c', b') = (c, b))) as [[= -> ->]|Hne]; cbn.
  - rewrite bool_decide_eq_true_2 by done. cbn. exists n'. split; [done|]. rewrite consecutive_S. f_equal.
    by eapply allocate_all_cached.
  - rewrite bool_decide_eq_false_2 by done. specialize (IH a1 ns' Hrun).
    destruct (fst <$> List.find _ reqs) as [r'|]; [|done]. destruct IH as (n & Hcn & Hns).
    exists n. split; [|done]. by rewrite <- Hcn, Hother by congruence.
Qed.

End consecutive.

(** ** Numbers of stored messages *)

Section interleaving.
Context (hash : string -> Z).
Context {T : Type} `{!CqlTable T MessagePartition MessageCluster}.

(** Submitting threads between the allocation of a number and the save of the
    message that carries it. *)
Record SeqState := mkSeq {
  seq_alloc : ConversationSequenceAllocator;
  seq_store : T;
  in_flight : gmap nat MessageEntity;
}.

Inductive seq_step : SeqState -> SeqState -> Prop :=
  | step_allocate i e n a' s :
      in_flight s !! i = None -> message_wf e ->
      conversation_allocate hash (me_conversation_id e) (me_message_bucket e) (seq_store s) (seq_alloc s) = Ok (n, a') ->
      me_message_sequence e = n ->
      seq_step s (mkSeq a' (seq_store s) (<[i := e]> (in_flight s)))
  | step_save i e s :
      in_flight s !! i = Some e ->
      seq_step s (mkSeq (seq_alloc s) (save_message e (seq_store s)) (delete i (in_flight s)))
  | step_lose i s :      (** the save failed, or the thread gave up before it *)
      seq_step s (mkSeq (seq_alloc s) (seq_store s) (delete i (in_flight s)))
  | step_peek c b n a' s :
      key_wf c b -> conversation_peek hash c b (seq_store s) (seq_alloc s) = Ok (n, a') ->
      seq_step s (mkSeq a' (seq_store s) (in_flight s))
  | step_restart s :     (** the process is restarted: counters and threads are gone *)
      seq_step s (mkSeq (mkAllocator ∅) (seq_store s) ∅).

Definition entity_key (e : MessageEntity) : string := make_key (me_conversation_id e) (me_message_bucket e).

(** Two messages of one partition with the same number. *)
Definition clash (e e' : MessageEntity) : Prop :=
  message_partition e = message_partition e' /\ me_message_sequence e = me_message_sequence e'.

Definition below (e : MessageEntity) (a : ConversationSequenceAllocator) : Prop :=
  forall n, find_counter hash (entity_key e) a = Some n -> me_message_sequence e <= n.

Record seq_inv (s : SeqState) (m : MessageMap) : Prop := {
  inv_repr : message_repr (seq_store s) m;
  inv_stored : forall k e, m !! k = Some e -> 1 <= me_message_sequence e /\ below e (seq_alloc s);
  inv_flight : forall i e, in_flight s !! i = Some e ->
    message_wf e /\ 1 <= me_message_sequence e /\ below e (seq_alloc s) /\
    is_Some (find_counter hash (entity_key e) (seq_alloc s));
  inv_flight_unique : forall i j e e',
    in_flight s !! i = Some e -> in_flight s !! j = Some e' -> clash e e' -> i = j;
  inv_flight_fresh : forall i k e e', in_flight s !! i = Some e -> m !! k = Some e' -> ~ clash e e';
  inv_unique : forall k k' e e', m !! k = Some e -> m !! k' = Some e' -> clash e e' -> k = k';
  inv_counter : forall c b n, key_wf c b -> find_counter hash (make_key c b) (seq_alloc s) = Some n -> 0 <= n < 2 ^ 63;
}.

Lemma wf_key e : message_wf e -> key_wf (me_conversation_id e) (me_message_bucket e).
Proof. intros (? & _ & ? & _). by split. Qed.

Lemma stored_at_wf s m k e : seq_inv s m -> m !! k = Some e -> message_wf e /\ message_key e = k.
Proof.
  intros Hi He. destruct k as [p c]. by destruct (table_repr_at _ _ _ _ _ _ _ (inv_repr _ _ Hi) He) as (? & _ & ?).
Qed.

Lemma same_partition e e' :
  message_wf e -> message_wf e' -> message_partition e = message_partition e' -> entity_key e = entity_key e'.
Proof.
  intros He He' Hp. apply partition_key_inj in Hp; [|by apply wf_key..].
  unfold entity_key. by injection Hp as -> ->.
Qed.

(** The number an allocator is at bounds every number handed out for the key. *)
Lemma current_bound s m c b :
  seq_inv s m -> key_wf c b ->
  exists n, conversation_current hash c b (seq_store s) (seq_alloc s) = Ok n /\ 0 <= n < 2 ^ 63 /\
    (forall k e, m !! k = Some e -> entity_key e = make_key c b -> me_message_sequence e <= n) /\
    (forall i e, in_flight s !! i = Some e -> entity_key e = make_key c b -> me_message_sequence e <= n).
Proof.
  intros Hi Hwf. unfold conversation_current.
  destruct (find_counter hash (make_key c b) (seq_alloc s)) as [n|] eqn:Hn.
  - exists n. split; [done|]. split; [by eapply inv_counter|]. split.
    + intros k e He Hk. destruct (inv_stored _ _ Hi _ _ He) as [_ Hb]. apply Hb. by rewrite Hk.
    + intros i e He Hk. destruct (inv_flight _ _ Hi _ _ He) as (_ & _ & Hb & _). apply Hb. by rewrite Hk.
  - destruct (get_last_sequence_spec _ _ c b (inv_repr _ _ Hi)) as (n & Hl & Hr & Hmax & _).
    exists n. split; [done|]. split; [done|]. split.
    + intros k e He Hk. apply Hmax. apply elem_of_messages; [apply Hi|].
      destruct (stored_at_wf _ _ _ _ Hi He) as [Hw <-]. split; [|done].
      apply make_key_inj in Hk; [|by apply wf_key|done]. unfold message_partition. by injection Hk as -> ->.
    + intros i e He Hk. destruct (inv_flight _ _ Hi _ _ He) as (_ & _ & _ & Hs). rewrite Hk, Hn in Hs. by destruct Hs.
Qed.

Lemma allocate_counter c b (t : T) a n a' :
  conversation_allocate hash c b t a = Ok (n, a') ->
  exists n0, conversation_current hash c b t a = Ok n0 /\ n = u64 (n0 + 1) /\
    forall key, find_counter hash key a' = if decide (make_key c b = key) then Some n else find_counter hash key a.
Proof.
  unfold conversation_allocate, conversation_current. intros H. apply bind_ok in H as (a1 & Ha1 & [= Hn <-]).
  destruct (find_counter hash (make_key c b) a) as [n0|] eqn:Hf.
  - injection Ha1 as <-. rewrite Hf in Hn |- *. cbn in Hn |- *. subst n. exists n0. split; [done|]. split; [done|].
    intros key. by rewrite find_set_counter.
  - apply bind_ok in Ha1 as (n0 & Hl & [= <-]).
    assert (find_counter hash (make_key c b) (set_counter hash (make_key c b) n0 a) = Some n0) as Hs
      by (by rewrite find_set_counter, decide_True).
    rewrite Hs in Hn |- *. cbn in Hn |- *. subst n.
    exists n0. split; [done|]. split; [done|].
    intros key. rewrite !find_set_counter. by case_decide.
Qed.

Lemma peek_counter c b (t : T) a n a' :
  conversation_peek hash c b t a = Ok (n, a') ->
  conversation_current hash c b t a = Ok n /\
  forall key, find_counter hash key a' = if decide (make_key c b = key) then Some n else find_counter hash key a.
Proof.
  unfold conversation_peek, conversation_current.
  destruct (find_counter hash (make_key c b) a) as [n0|] eqn:Hf; intros H.
  - injection H as <- <-. split; [done|]. intros key. case_decide; [by subst|done].
  - apply bind_ok in H as (n0 & Hl & [= <- <-]). split; [done|]. intros key. by rewrite find_set_counter.
Qed.

(** A counter that moves to [n], at least as far as all numbers of its key. *)
Lemma below_moved e a a' key n :
  below e a -> (entity_key e = key -> me_message_sequence e <= n) ->
  (forall k, find_counter hash k a' = if decide (key = k) then Some n else find_counter hash k a) -> below e a'.
Proof.
  intros Hb Hn Ha' n'. rewrite Ha'. case_decide as Hk; [|apply Hb]. intros [= <-]. by apply Hn.
Qed.

Lemma step_allocate_inv s m i e n a' :
  seq_inv s m -> in_flight s !! i = None -> message_wf e ->
  conversation_allocate hash (me_conversation_id e) (me_message_bucket e) (seq_store s) (seq_alloc s) = Ok (n, a') ->
  me_message_sequence e = n ->
  seq_inv (mkSeq a' (seq_store s) (<[i := e]> (in_flight s))) m.
Proof.
  intros Hi Hfree Hwf Ha Hn. pose proof (wf_key _ Hwf) as Hkey.
  destruct (current_bound s m _ _ Hi Hkey) as (n0 & Hcur & Hr & Hst & Hfl).
  destruct (allocate_counter _ _ _ _ _ _ Ha) as (n1 & Hcur' & Hn1 & Ha').
  assert (n1 = n0) as -> by congruence. rewrite u64_small in Hn1 by (unfold in_u64; lia).
  assert (Hold : forall j e', in_flight s !! j = Some e' -> ~ clash e e').
  { intros j e' He' [Hp Hs]. destruct (inv_flight _ _ Hi _ _ He') as (Hw' & _).
    specialize (Hfl j e' He' (eq_sym (same_partition _ _ Hwf Hw' Hp))). lia. }
  split; cbn; try apply Hi.
  - intros k e' He'. destruct (inv_stored _ _ Hi _ _ He') as [H1 H2]. split; [done|].
    eapply below_moved; [done| |done]. intros Hk. specialize (Hst _ _ He' Hk). lia.
  - intros j e' [[-> <-]|[Hj He']]%lookup_insert_Some.
    + split; [done|]. split; [lia|]. split.
      * intros n'. rewrite Ha', decide_True by done. intros [= <-]. lia.
      * by rewrite Ha', decide_True.
    + destruct (inv_flight _ _ Hi _ _ He') as (H1 & H2 & H3 & H4). split_and!; [done|done| |].
      * eapply below_moved; [done| |done]. intros Hk. specialize (Hfl _ _ He' Hk). lia.
      * rewrite Ha'. by case_decide.
  - intros j j' e1 e2 [[-> <-]|[Hj H1]]%lookup_insert_Some [[-> <-]|[Hj' H2]]%lookup_insert_Some Hc; try done.
    + by destruct (Hold _ _ H2 Hc).
    + destruct (Hold _ _ H1). by destruct Hc.
    + by eapply inv_flight_unique.
  - intros j k e1 e2 [[-> <-]|[Hj H1]]%lookup_insert_Some H2; [|by eapply inv_flight_fresh].
    intros [Hp Hs]. destruct (stored_at_wf _ _ _ _ Hi H2) as [Hw2 _].
    specialize (Hst _ _ H2 (eq_sym (same_partition _ _ Hwf Hw2 Hp))). lia.
  - intros c b n' Hcb. rewrite Ha'. case_decide; [|by eapply inv_counter]. intros [= <-].
    destruct Hwf as (_ & _ & _ & ?). lia.
Qed.

Lemma step_save_inv s m i e :
  seq_inv s m -> in_flight s !! i = Some e ->
  seq_inv (mkSeq (seq_alloc s) (save_message e (seq_store s)) (delete i (in_flight s))) (message_spec e m).
Proof.
  intros Hi He. destruct (inv_flight _ _ Hi _ _ He) as (Hwf & H1 & H2 & H3). unfold message_spec.
  split; cbn; try apply Hi.
  - apply save_message_repr; [done|apply Hi].
  - intros k e' [[<- <-]|[_ He']]%lookup_insert_Some; [by split|by eapply inv_stored].
  - intros j e' [_ He']%lookup_delete_Some. by eapply inv_flight.
  - intros j j' e1 e2 [_ Hj]%lookup_delete_Some [_ Hj']%lookup_delete_Some. by eapply inv_flight_unique.
  - intros j k e1 e2 [Hne Hj]%lookup_delete_Some [[<- <-]|[_ H4]]%lookup_insert_Some; [|by eapply inv_flight_fresh].
    intros Hc. apply Hne. symmetry. by eapply inv_flight_unique.
  - intros k k' e1 e2 [[<- <-]|[Hk Hs1]]%lookup_insert_Some [[<- <-]|[Hk' Hs2]]%lookup_insert_Some Hc; try done.
    + by destruct (inv_flight_fresh _ _ Hi _ _ _ _ He Hs2 Hc).
    + destruct (inv_flight_fresh _ _ Hi _ _ _ _ He Hs1). by destruct Hc.
    + by eapply inv_unique.
Qed.

Lemma step_peek_inv s m c b n a' :
  seq_inv s m -> key_wf c b -> conversation_peek hash c b (seq_store s) (seq_alloc s) = Ok (n, a') ->
  seq_inv (mkSeq a' (seq_store s) (in_flight s)) m.
Proof.
  intros Hi Hcb Ha. destruct (current_bound s m _ _ Hi Hcb) as (n0 & Hcur & Hr & Hst & Hfl).
  destruct (peek_counter _ _ _ _ _ _ Ha) as (Hcur' & Ha'). assert (n = n0) as -> by congruence.
  split; cbn; try apply Hi.
  - intros k e' He'. destruct (inv_stored _ _ Hi _ _ He') as [H1 H2]. split; [done|].
    eapply below_moved; [done| |done]. intros Hk. by eapply Hst.
  - intros j e' He'. destruct (inv_flight _ _ Hi _ _ He') as (H1 & H2 & H3 & H4). split_and!; [done|done| |].
    + eapply below_moved; [done| |done]. intros Hk. by eapply Hfl.
    + rewrite Ha'. by case_decide.
  - intros c' b' n' Hcb'. rewrite Ha'. case_decide; [|by eapply inv_counter]. by intros [= <-].
Qed.

Lemma seq_step_inv s s' m : seq_step s s' -> seq_inv s m -> exists m', seq_inv s' m'.
Proof.
  intros Hstep Hi. destruct Hstep as [i e n a' s Hf Hwf Ha Hn|i e s He|i s|c b n a' s Hcb Ha|s].
  - exists m. by eapply step_allocate_inv.
  - exists (message_spec e m). by apply step_save_inv.
  - exists m. split; cbn; try apply Hi.
    + intros j e [_ He]%lookup_delete_Some. by eapply inv_flight.
    + intros j j' e1 e2 [_ Hj]%lookup_delete_Some [_ Hj']%lookup_delete_Some. by eapply inv_flight_unique.
    + intros j k e1 e2 [_ Hj]%lookup_delete_Some. by eapply inv_flight_fresh.
  - exists m. by eapply step_peek_inv.
  - exists m. split; cbn; try apply Hi; try done.
    intros k e He. destruct (inv_stored _ _ Hi _ _ He) as [H1 _]. split; [done|]. intros n.
    unfold find_counter, counters. cbn. by rewrite lookup_empty.
Qed.

Lemma seq_steps_inv s s' m : rtc seq_step s s' -> seq_inv s m -> exists m', seq_inv s' m'.
Proof.
  intros Hsteps. revert m. induction Hsteps as [|s1 s2 s3 Hstep _ IH]; intros m Hi; [by exists m|].
  destruct (seq_step_inv _ _ _ Hstep Hi) as [m' Hi']. by eapply IH.
Qed.

Lemma sorted_filter_take {A} (R : relation A) (g : A -> bool) n l :
  StronglySorted R l -> StronglySorted R (take n (List.filter g l)).
Proof.
  intros Hs. assert (StronglySorted R (List.filter g l)) as Hf.
  { induction Hs as [|x l Hs IH Hall]; [constructor|]. cbn. destruct (g x); [|done]. constructor; [done|].
    rewrite Forall_forall in Hall. apply Forall_forall. intros y [Hy _]%list_elem_of_In%filter_In. apply Hall. by apply list_elem_of_In. }
  clear Hs. revert n. induction Hf as [|x l' Hs IH Hall]; intros n; [by destruct n; constructor|].
  destruct n as [|n]; [constructor|]. cbn. constructor; [apply IH|]. by apply Forall_take.
Qed.

Lemma messages_strict s m c b :
  seq_inv s m ->
  StronglySorted (fun e e' => me_message_sequence e < me_message_sequence e') (entities m (partition_key c b) (seq_store s)).
Proof.
  intros Hi. destruct (messages_sorted _ _ c b (inv_repr _ _ Hi)) as [Hs Hnd].
  assert (Hin : forall e, e ∈ entities m (partition_key c b) (seq_store s) ->
    message_partition e = partition_key c b /\ m !! message_key e = Some e).
  { intros e. apply elem_of_messages, Hi. }
  revert Hin Hs Hnd. generalize (entities m (partition_key c b) (seq_store s)) as l.
  induction l as [|e l IH]; intros Hin Hs Hnd; [constructor|].
  apply StronglySorted_inv in Hs as [Hs Hall]. apply NoDup_cons in Hnd as [Hnin Hnd].
  constructor; [apply IH; [intros; apply Hin; by right|done..]|].
  rewrite Forall_forall in Hall. apply Forall_forall. intros e' He'.
  assert (me_message_sequence e <= me_message_sequence e') as Hle by (apply Hall; by apply list_elem_of_fmap_2).
  destruct (Hin e) as [Hp He]; [left|]. destruct (Hin e') as [Hp' He'2]; [by right|].
  destruct (decide (me_message_sequence e = me_message_sequence e')) as [Heq|]; [|lia].
  assert (message_key e = message_key e') as Hk by (eapply (inv_unique _ _ Hi); [done..|split; congruence]).
  destruct Hnin. assert (e = e') as -> by congruence. done.
Qed.

Lemma seq_reachable_inv s s' :
  seq_alloc s = mkAllocator ∅ -> in_flight s = ∅ -> message_repr (seq_store s) ∅ -> rtc seq_step s s' ->
  exists m, seq_inv s' m.
Proof.
  intros Halloc Hflight Hempty Hsteps. apply (seq_steps_inv s s' ∅ Hsteps).
  split; try done; try by rewrite Hflight; intros.
  rewrite Halloc. intros c' b' n _. unfold find_counter, counters. cbn. by rewrite lookup_empty.
Qed.

(** C7.  Stored messages are numbered uniquely.  From an empty store and a fresh
    allocator, whatever threads allocate numbers and save, or fail to save, the messages
    that carry them, in whatever interleaving, and however often the process is
    restarted, every range query of a conversation and month answers messages in
    strictly increasing sequence, from 1: no two stored messages share a number. *)
Theorem stored_sequences_unique (s s' : SeqState) c b (from to limit : Z)
    (Halloc : seq_alloc s = mkAllocator ∅) (Hflight : in_flight s = ∅) (Hempty : message_repr (seq_store s) ∅)
    (Hsteps : rtc seq_step s s')
    (Hfrom : 0 <= from < 2 ^ 63) (Hto : 0 <= to < 2 ^ 63) (Hlimit : 0 < limit < 2 ^ 31) :
  exists msgs, list_messages_by_sequence_range c b from to limit (seq_store s') = Ok msgs /\
    StronglySorted (fun e e' => me_message_sequence e < me_message_sequence e') msgs /\
    Forall (fun e => 1 <= me_message_sequence e) msgs.
Proof.
  destruct (seq_reachable_inv s s' Halloc Hflight Hempty Hsteps) as [m Hi].
  eexists. split; [by apply list_range_spec; [apply Hi|..]|]. split; [by apply sorted_filter_take, messages_strict|].
  apply Forall_forall. intros e He. apply elem_of_take in He as (k & He%list_elem_of_lookup_2 & _).
  apply list_elem_of_In, filter_In in He as [He _]. apply list_elem_of_In in He.
  apply elem_of_messages in He as [_ He]; [|apply Hi]. by apply (inv_stored _ _ Hi) in He as [? _].
Qed.

End interleaving.

(** ** Witnesses *)

#[local] Abbreviation table := (GTable MessagePartition MessageCluster).
#[local] Abbreviation january := (mkBucket "202601" 2026 1).

Lemma allocations_consecutive_witness :
  exists ns a', allocate_all (A := InMemorySequenceAllocator) (R := unit)
    [(tt, (nil_conversation_id, january)); (tt, (nil_conversation_id, january))] (mkInMemory ∅) = Ok (ns, a').
Proof.
  destruct (allocations_consecutive (A := InMemorySequenceAllocator) (R := unit)
    [(tt, (nil_conversation_id, january)); (tt, (nil_conversation_id, january))] (mkInMemory ∅))
    as (ns & a' & Hrun & _).
  - apply Forall_forall. intros q [->|[->|[]%not_elem_of_nil]%elem_of_cons]%elem_of_cons; split; (apply nil_uuid_wf || done).
  - reflexivity.
  - exists ns, a'. exact Hrun.
Defined.

Definition empty_seq_state : SeqState (T := table) := mkSeq (mkAllocator ∅) ∅ ∅.

(** Two threads allocate, the second saves first, the first is lost in a restart. *)
Definition seq_run : SeqState (T := table) :=
  mkSeq (mkAllocator ∅) (save_message (sample_message 2) ∅) ∅.

Definition counted_to (n : Z) : ConversationSequenceAllocator :=
  set_counter (fun _ => 0) (make_key nil_conversation_id january) n (mkAllocator ∅).

Lemma allocate_twice :
  conversation_allocate (T := table) (fun _ => 0) nil_conversation_id january ∅ (mkAllocator ∅) = Ok (1, counted_to 1) /\
  conversation_allocate (T := table) (fun _ => 0) nil_conversation_id january ∅ (counted_to 1) = Ok (2, counted_to 2).
Proof. split; vm_compute; reflexivity. Qed.

Lemma seq_run_reachable : rtc (seq_step (fun _ => 0)) empty_seq_state seq_run.
Proof.
  destruct allocate_twice as [H1 H2].
  eapply rtc_l; [apply (step_allocate _ 0 (sample_message 1) 1 (counted_to 1))|]; [done|apply sample_message_wf; lia|exact H1|done|].
  eapply rtc_l; [apply (step_allocate _ 1 (sample_message 2) 2 (counted_to 2))|]; [done|apply sample_message_wf; lia|exact H2|done|].
  eapply rtc_l; [apply (step_save _ 1 (sample_message 2)); done|].
  eapply rtc_l; [apply step_restart|]. apply rtc_refl.
Qed.

Lemma stored_sequences_unique_witness :
  exists msgs, list_messages_by_sequence_range nil_conversation_id january 1 9 10 (seq_store seq_run) = Ok msgs /\
    Forall (fun e => 1 <= me_message_sequence e) msgs.
Proof.
  destruct (stored_sequences_unique (fun _ => 0) empty_seq_state seq_run nil_conversation_id january 1 9 10)
    as (msgs & Hrun & _ & Hpos).
  - reflexivity.
  - reflexivity.
  - apply empty_message_repr.
  - apply seq_run_reachable.
  - lia.
  - lia.
  - lia.
  - exists msgs. split; assumption.
Defined.
