(* ===== verification/Conversation.v ===== *)
(** * Conversations: entities, life cycle and repositories

    Models the enumerations and entities of [src/messaging/domain]
    ([conversation_types.hpp], [conversation_entity.hpp],
    [conversation_participant_entity.hpp], [group_metadata_entity.hpp],
    [outbox_event.hpp]), the rules of [conversation_lifecycle.cpp], the contracts
    [IConversationRepository] and [IMembershipRepository] as type classes, and the
    in-memory repositories as their instances. *)

From S2P Require Import Prelude Ids DeliveryTypes.
From stdpp Require Import sorting.
From Stdlib Require Import Ascii.
#[local] Open Scope Z_scope.

(** ** Enumerations *)

Inductive ConversationType := Direct | Group.
Inductive GroupStatus := GroupActive | GroupClosed.
Inductive MembershipStatus := Active | Left | Removed.
Inductive ParticipantRole := Member | Admin.
Inductive OutboxEventType :=
| ConversationCreated | ParticipantJoined | ParticipantLeft | ParticipantRemoved
| GroupMetadataUpdated | ConversationClosed | MessageSent | MessageDelivered | MessageRead.

#[export] Instance ConversationType_eq_dec : EqDecision ConversationType.
Proof. solve_decision. Defined.
#[export] Instance GroupStatus_eq_dec : EqDecision GroupStatus.
Proof. solve_decision. Defined.
#[export] Instance MembershipStatus_eq_dec : EqDecision MembershipStatus.
Proof. solve_decision. Defined.
#[export] Instance ParticipantRole_eq_dec : EqDecision ParticipantRole.
Proof. solve_decision. Defined.
#[export] Instance OutboxEventType_eq_dec : EqDecision OutboxEventType.
Proof. solve_decision. Defined.

Definition event_type_to_string (t : OutboxEventType) : string :=
  match t with
  | ConversationCreated => "ConversationCreated"
  | ParticipantJoined => "ParticipantJoined"
  | ParticipantLeft => "ParticipantLeft"
  | ParticipantRemoved => "ParticipantRemoved"
  | GroupMetadataUpdated => "GroupMetadataUpdated"
  | ConversationClosed => "ConversationClosed"
  | MessageSent => "MessageSent"
  | MessageDelivered => "MessageDelivered"
  | MessageRead => "MessageRead"
  end.

Definition event_type_from_string (s : string) : option OutboxEventType :=
  if String.eqb s "ConversationCreated" then Some ConversationCreated
  else if String.eqb s "ParticipantJoined" then Some ParticipantJoined
  else if String.eqb s "ParticipantLeft" then Some ParticipantLeft
  else if String.eqb s "ParticipantRemoved" then Some ParticipantRemoved
  else if String.eqb s "GroupMetadataUpdated" then Some GroupMetadataUpdated
  else if String.eqb s "ConversationClosed" then Some ConversationClosed
  else if String.eqb s "MessageSent" then Some MessageSent
  else if String.eqb s "MessageDelivered" then Some MessageDelivered
  else if String.eqb s "MessageRead" then Some MessageRead
  else None.

(** ** Entities *)

Record ConversationEntity := mkConversation {
  cv_conversation_id : ConversationId;
  cv_type : ConversationType;
  cv_created_by_user_id : UserId;
  cv_created_at : Z;
  cv_metadata_version : Z;
}.

Record Participant := mkParticipant {
  pt_conversation_id : ConversationId;
  pt_user_id : UserId;
  pt_role : ParticipantRole;
  pt_status : MembershipStatus;
  pt_joined_at : Z;
  pt_left_at : option Z;
  pt_membership_version : Z;
}.

Record GroupMetadata := mkGroupMetadata {
  gm_conversation_id : ConversationId;
  gm_title : string;
  gm_status : GroupStatus;
  gm_created_at : Z;
  gm_updated_at : Z;
  gm_metadata_version : Z;
}.

Record OutboxEvent := mkOutboxEvent {
  ev_event_id : string;
  ev_conversation_id : ConversationId;
  ev_event_type : OutboxEventType;
  ev_payload_json : string;
  ev_created_at : Z;
}.

#[export] Instance Participant_eq_dec : EqDecision Participant.
Proof. solve_decision. Defined.

(** ** [ConversationLifecycleManager] *)

Definition is_valid_group_transition (current new : GroupStatus) : bool :=
  if bool_decide (current = new) then true
  else match current with GroupActive => bool_decide (new = GroupClosed) | GroupClosed => false end.

Definition is_valid_membership_transition (current new : MembershipStatus) : bool :=
  if bool_decide (current = new) then true
  else
    match current with
    | Active => bool_decide (new = Left) || bool_decide (new = Removed)
    | Left | Removed => bool_decide (new = Active)
    end.

Definition is_valid_direct_participant_count (n : nat) : bool := (n =? 2)%nat.
Definition is_valid_group_initial_participant_count (n : nat) : bool := ((1 <=? n) && (n <=? 500))%nat.

Definition is_blank (c : ascii) : bool :=
  (code c =? 32) || (code c =? 9) || (code c =? 13) || (code c =? 10).

Definition is_valid_group_title (title : string) : bool :=
  let l := chars title in
  if bool_decide (l = []) || (255 <? length l)%nat then false else existsb (fun c => negb (is_blank c)) l.

(** ** Contracts *)

(** What the services rely on of a conversation repository: a save is what a later
    find returns, and changes nothing else. *)
Class ConversationRepository (C : Type) := {
  save_conversation : ConversationEntity -> C -> C;
  find_conversation_by_id : ConversationId -> C -> option ConversationEntity;
  save_direct_conversation : DirectPair -> ConversationId -> C -> C;
  find_direct_conversation : DirectPair -> C -> option ConversationId;
  save_group_metadata : GroupMetadata -> C -> C;
  find_group_metadata : ConversationId -> C -> option GroupMetadata;
  find_save_conversation : forall cv id c,
    find_conversation_by_id id (save_conversation cv c)
    = if decide (cv_conversation_id cv = id) then Some cv else find_conversation_by_id id c;
  find_save_direct : forall p id p' c,
    find_direct_conversation p' (save_direct_conversation p id c)
    = if decide (p = p') then Some id else find_direct_conversation p' c;
  find_save_metadata : forall gm id c,
    find_group_metadata id (save_group_metadata gm c)
    = if decide (gm_conversation_id gm = id) then Some gm else find_group_metadata id c;
  conversation_save_direct : forall p id id' c,
    find_conversation_by_id id' (save_direct_conversation p id c) = find_conversation_by_id id' c;
  conversation_save_metadata : forall gm id c,
    find_conversation_by_id id (save_group_metadata gm c) = find_conversation_by_id id c;
  direct_save_conversation : forall cv p c,
    find_direct_conversation p (save_conversation cv c) = find_direct_conversation p c;
  direct_save_metadata : forall gm p c,
    find_direct_conversation p (save_group_metadata gm c) = find_direct_conversation p c;
  metadata_save_conversation : forall cv id c,
    find_group_metadata id (save_conversation cv c) = find_group_metadata id c;
  metadata_save_direct : forall p i id c,
    find_group_metadata id (save_direct_conversation p i c) = find_group_metadata id c;
}.

(** What the services rely on of a membership repository. *)
Class MembershipRepository (M : Type) := {
  repo_add_participant : Participant -> M -> M;
  repo_update_participant : Participant -> M -> M;
  find_participant : ConversationId -> UserId -> M -> option Participant;
  list_active_participants : ConversationId -> M -> list Participant;
  touch_user_conversation : UserId -> ConversationId -> ConversationType -> MembershipStatus -> Z -> M -> M;
  find_add_participant : forall p c u m,
    find_participant c u (repo_add_participant p m)
    = if decide ((pt_conversation_id p, pt_user_id p) = (c, u)) then Some p else find_participant c u m;
  find_update_participant : forall p c u m,
    find_participant c u (repo_update_participant p m)
    = if decide ((pt_conversation_id p, pt_user_id p) = (c, u)) then Some p else find_participant c u m;
  elem_of_list_active : forall p c m,
    p ∈ list_active_participants c m <->
    exists u, find_participant c u m = Some p /\ pt_status p = Active;
  find_touch : forall u c t s a c' u' m,
    find_participant c' u' (touch_user_conversation u c t s a m) = find_participant c' u' m;
}.

(** ** The in-memory repositories *)

Record InMemoryConversationRepository := mkConvRepo {
  conversations_ : gmap ConversationId ConversationEntity;
  direct_pairs_ : gmap DirectPair ConversationId;
  group_metadata_ : gmap ConversationId GroupMetadata;
}.

Definition empty_conversations : InMemoryConversationRepository := mkConvRepo ∅ ∅ ∅.

#[export] Program Instance in_memory_conversations : ConversationRepository InMemoryConversationRepository := {|
  save_conversation cv c :=
    mkConvRepo (<[cv_conversation_id cv := cv]> (conversations_ c)) (direct_pairs_ c) (group_metadata_ c);
  find_conversation_by_id id c := conversations_ c !! id;
  save_direct_conversation p id c :=
    mkConvRepo (conversations_ c) (<[p := id]> (direct_pairs_ c)) (group_metadata_ c);
  find_direct_conversation p c := direct_pairs_ c !! p;
  save_group_metadata gm c :=
    mkConvRepo (conversations_ c) (direct_pairs_ c) (<[gm_conversation_id gm := gm]> (group_metadata_ c));
  find_group_metadata id c := group_metadata_ c !! id;
|}.
Next Obligation. intros. cbn. case_decide; simplify_map_eq; done. Qed.
Next Obligation. intros. cbn. case_decide; simplify_map_eq; done. Qed.
Next Obligation. intros. cbn. case_decide; simplify_map_eq; done. Qed.
Next Obligation. done. Qed.
Next Obligation. done. Qed.
Next Obligation. done. Qed.
Next Obligation. done. Qed.
Next Obligation. done. Qed.
Next Obligation. done. Qed.

Record UserConversationSummary := mkUserConversation {
  uc_conversation_id : ConversationId;
  uc_type : ConversationType;
  uc_membership_status : MembershipStatus;
  uc_last_activity_at : Z;
}.

Record InMemoryMembershipRepository := mkMemberRepo {
  participants_ : gmap (ConversationId * UserId) Participant;
  user_inboxes_ : gmap UserId (list UserConversationSummary);
}.

Definition empty_memberships : InMemoryMembershipRepository := mkMemberRepo ∅ ∅.

(** Newest activity first, then greater conversation id first. *)
Definition inbox_le : relation UserConversationSummary := fun a b =>
  uc_last_activity_at b < uc_last_activity_at a \/
  (uc_last_activity_at a = uc_last_activity_at b /\
   Uuid.bytes_ltb (conversation_bytes (uc_conversation_id a)) (conversation_bytes (uc_conversation_id b)) = false).
#[export] Instance inbox_le_dec : RelDecision inbox_le.
Proof. intros a b. unfold inbox_le. apply _. Defined.

Definition set_participant (p : Participant) (m : InMemoryMembershipRepository) : InMemoryMembershipRepository :=
  mkMemberRepo (<[(pt_conversation_id p, pt_user_id p) := p]> (participants_ m)) (user_inboxes_ m).

(** [list_participants] iterates an [unordered_map]; the order of the model is
    the order of [map_to_list]. *)
Definition list_participants (c : ConversationId) (m : InMemoryMembershipRepository) : list Participant :=
  (filter (fun kp => kp.1.1 = c) (map_to_list (participants_ m))).*2.

Definition list_active (c : ConversationId) (m : InMemoryMembershipRepository) : list Participant :=
  (filter (fun kp => kp.1.1 = c /\ pt_status kp.2 = Active) (map_to_list (participants_ m))).*2.

Definition touch (u : UserId) (c : ConversationId) (t : ConversationType) (s : MembershipStatus) (activity_at : Z)
    (m : InMemoryMembershipRepository) : InMemoryMembershipRepository :=
  let inbox := default [] (user_inboxes_ m !! u) in
  let kept := filter (fun e => uc_conversation_id e <> c) inbox in
  mkMemberRepo (participants_ m)
    (<[u := merge_sort inbox_le (kept ++ [mkUserConversation c t s activity_at])]> (user_inboxes_ m)).

#[export] Program Instance in_memory_memberships : MembershipRepository InMemoryMembershipRepository := {|
  repo_add_participant := set_participant;
  repo_update_participant := set_participant;
  find_participant c u m := participants_ m !! (c, u);
  list_active_participants := list_active;
  touch_user_conversation := touch;
|}.
Next Obligation. intros. cbn. case_decide; simplify_map_eq; done. Qed.
Next Obligation. intros. cbn. case_decide; simplify_map_eq; done. Qed.
Next Obligation.
  intros p c m. unfold list_active. rewrite list_elem_of_fmap. split.
  - intros ([[c' u] p'] & -> & [[Hc Hs] Hin%elem_of_map_to_list]%list_elem_of_filter). cbn in *. subst. by exists u.
  - intros (u & Hu & Hs). exists ((c, u), p). split; [done|].
    apply list_elem_of_filter. split; [done|]. by apply elem_of_map_to_list.
Qed.
Next Obligation. done. Qed.
