(* ===== verification/Outbox.v ===== *)
(** * The transactional outbox

    Models [src/messaging/repository/outbox_repository_interface.hpp] and
    [src/messaging/repository/scylla_outbox_repository.cpp] over the table
    [messaging_outbox_events] (partition: hourly bucket; clustering: creation time,
    then event id), shows what a fetch returns, and that the LIMIT of its statement
    counts published rows. *)

From S2P Require Import Prelude Ids Bucket Scylla DeliveryTypes DeliveryRepo DeliveryRepoSpec Conversation.
From stdpp Require Import sorting.
#[local] Open Scope Z_scope.

Inductive OutboxPublishStatus := OutboxPending | OutboxPublished | OutboxFailed.

#[export] Instance OutboxPublishStatus_eq_dec : EqDecision OutboxPublishStatus.
Proof. solve_decision. Defined.

Definition publish_status_to_string (s : OutboxPublishStatus) : string :=
  match s with OutboxPending => "PENDING" | OutboxPublished => "PUBLISHED" | OutboxFailed => "FAILED" end.

Definition outbox_publish_status_from_string (s : string) : option OutboxPublishStatus :=
  if String.eqb s "PENDING" then Some OutboxPending
  else if String.eqb s "PUBLISHED" then Some OutboxPublished
  else if String.eqb s "FAILED" then Some OutboxFailed
  else None.

Definition two_digits (z : Z) : string := of_chars [digit (z / 10 mod 10); digit (z mod 10)].

(** The hour of a time since 1970 and before the year 10000, YYYYMMDDHH. *)
Definition outbox_bucket_from_time_point (tp : Z) : option string :=
  let tt := Z.quot tp ns_per_s in
  (fun '(year, month, day) =>
     String.append (format_year_month year month)
       (String.append (two_digits (day + 1)) (two_digits (tt mod 86400 / 3600)))) <$> utc_date (tt / 86400).

Record OutboxEventRecord := mkOutboxRecord {
  or_outbox_bucket : string;
  or_created_at : Z;
  or_event_id : string;
  or_conversation_id : ConversationId;
  or_event_type : string;
  or_payload_json : string;
  or_published_at : option Z;
  or_publish_status : OutboxPublishStatus;
}.

Abbreviation OutboxCluster := (Z * string)%type.

Definition outbox_columns (r : OutboxEventRecord) : list (string * ScyllaValue) :=
  [ ("conversation_id", VString (ConversationId_to_string (or_conversation_id r)));
    ("event_type", VString (or_event_type r));
    ("payload_json", VString (or_payload_json r));
    ("published_at", timestamp_param (or_published_at r));
    ("publish_status", VString (publish_status_to_string (or_publish_status r))) ].

Definition outbox_key_columns (p : string) (c : OutboxCluster) : list (string * ScyllaValue) :=
  [("outbox_bucket", VString p); ("created_at", VInt64 c.1); ("event_id", VString c.2)].

Definition outbox_select : list string :=
  ["outbox_bucket"; "created_at"; "event_id"; "conversation_id"; "event_type"; "payload_json"; "published_at";
   "publish_status"].

Definition row_to_outbox_record (row : ScyllaRow) : result exn OutboxEventRecord :=
  let? outbox_bucket := get_string row "outbox_bucket" in
  let? created_at := get_timestamp row "created_at" in
  let? event_id := get_string row "event_id" in
  let? conversation_id := get_string row "conversation_id" in
  let? event_type := get_string row "event_type" in
  let? payload_json := get_string row "payload_json" in
  let? published_at := nullable row "published_at" get_timestamp in
  let? publish_status := get_string row "publish_status" in
  Ok {| or_outbox_bucket := outbox_bucket; or_created_at := from_ms created_at; or_event_id := event_id;
        or_conversation_id := default nil_conversation_id (ConversationId_from_string conversation_id);
        or_event_type := event_type; or_payload_json := payload_json;
        or_published_at := from_ms <$> published_at;
        or_publish_status := default OutboxPending (outbox_publish_status_from_string publish_status) |}.

Definition decode_outbox_row (p : string) (cr : OutboxCluster * Cells) : result exn OutboxEventRecord :=
  row_to_outbox_record (select outbox_select (mk_cells (outbox_key_columns p cr.1) ∪ cr.2)).

(** The row an event is enqueued as. *)
Definition outbox_record (bucket : string) (e : OutboxEvent) : OutboxEventRecord :=
  {| or_outbox_bucket := bucket; or_created_at := ev_created_at e; or_event_id := ev_event_id e;
     or_conversation_id := ev_conversation_id e; or_event_type := event_type_to_string (ev_event_type e);
     or_payload_json := ev_payload_json e; or_published_at := None; or_publish_status := OutboxPending |}.

(** The loop that keeps the pending records of the rows, up to [limit] of them. *)
Fixpoint pending_loop (rows : list (result exn OutboxEventRecord)) (limit kept : nat)
    : result exn (list OutboxEventRecord) :=
  match rows with
  | [] => Ok []
  | row :: rows =>
      let? record := row in
      if bool_decide (or_publish_status record = OutboxPending) then
        if (limit <=? S kept)%nat then Ok [record]
        else let? rest := pending_loop rows limit (S kept) in Ok (record :: rest)
      else pending_loop rows limit kept
  end.

Section repository.
Context {T : Type} `{!CqlTable T string OutboxCluster}.
Implicit Type t : T.

(** [None] is a time outside the years the model of the calendar covers. *)
Definition outbox_bucket_of (outbox_bucket : string) (e : OutboxEvent) : option string :=
  if bool_decide (outbox_bucket = EmptyString) then outbox_bucket_from_time_point (ev_created_at e)
  else Some outbox_bucket.

Definition enqueue_row (r : OutboxEventRecord) t : T :=
  upsert (or_outbox_bucket r) (to_ms (or_created_at r), or_event_id r) (mk_cells (outbox_columns r)) t.

Definition enqueue_event (e : OutboxEvent) (outbox_bucket : string) t : option T :=
  (fun bucket => enqueue_row (outbox_record bucket e) t) <$> outbox_bucket_of outbox_bucket e.

Definition fetch_pending_events (outbox_bucket : string) (limit : Z) t : result exn (list OutboxEventRecord) :=
  let? n := limit_param limit in
  pending_loop (decode_outbox_row outbox_bucket <$> take n (scan outbox_bucket t)) (Z.to_nat limit) 0.

Definition mark_event_published (outbox_bucket : string) (created_at : Z) (event_id : string) (published_at : Z) t : T :=
  upsert outbox_bucket (to_ms created_at, event_id)
    (mk_cells [("publish_status", VString (publish_status_to_string OutboxPublished));
               ("published_at", VInt64 (to_ms published_at))]) t.

End repository.

(** ** Rows decode to what was stored *)

Definition stored_outbox (r : OutboxEventRecord) : OutboxEventRecord :=
  {| or_outbox_bucket := or_outbox_bucket r; or_created_at := stored_time (or_created_at r);
     or_event_id := or_event_id r; or_conversation_id := or_conversation_id r; or_event_type := or_event_type r;
     or_payload_json := or_payload_json r; or_published_at := stored_time <$> or_published_at r;
     or_publish_status := or_publish_status r |}.

Definition outbox_key (r : OutboxEventRecord) : string * OutboxCluster :=
  (or_outbox_bucket r, (to_ms (or_created_at r), or_event_id r)).

Definition outbox_at (k : string * OutboxCluster) (r : OutboxEventRecord) : Prop :=
  Uuid.wf (conversation_bytes (or_conversation_id r)) /\ stored_outbox r = r /\ outbox_key r = k.

Abbreviation OutboxMap := (gmap (string * OutboxCluster) OutboxEventRecord).

Lemma publish_status_text s : outbox_publish_status_from_string (publish_status_to_string s) = Some s.
Proof. by destruct s. Qed.

Lemma decode_outbox p c r : outbox_at (p, c) r -> decode_outbox_row p (c, mk_cells (outbox_columns r)) = Ok r.
Proof.
  intros (Hc & He & Hk). unfold outbox_key in Hk. injection Hk as <- <-.
  unfold decode_outbox_row. cbn [fst snd]. rewrite mk_cells_app. unfold row_to_outbox_record.
  read_with get_string_cell. read_with get_timestamp_cell. do 4 read_with get_string_cell.
  read_with (fun n c l H => nullable_timestamp_cell n c l H (or_published_at r)). read_with get_string_cell.
  rewrite conversation_id_text, publish_status_text, stored_time_opt by done. cbn [fst snd default id].
  transitivity (Ok (E := exn) (stored_outbox r)); [done|by rewrite He].
Qed.

Lemma stored_outbox_at r :
  Uuid.wf (conversation_bytes (or_conversation_id r)) -> outbox_at (outbox_key r) (stored_outbox r).
Proof.
  intros Hwf. split; [done|]. unfold stored_outbox, outbox_key. cbn. rewrite to_ms_stored_time. split; [|done].
  rewrite stored_time_idemp. f_equal. destruct (or_published_at r); cbn; [by rewrite stored_time_idemp|done].
Qed.

(** ** Refinement *)

Definition published (at_ : Z) (r : OutboxEventRecord) : OutboxEventRecord :=
  {| or_outbox_bucket := or_outbox_bucket r; or_created_at := or_created_at r; or_event_id := or_event_id r;
     or_conversation_id := or_conversation_id r; or_event_type := or_event_type r; or_payload_json := or_payload_json r;
     or_published_at := Some (stored_time at_); or_publish_status := OutboxPublished |}.

Definition is_pending_event (r : OutboxEventRecord) : bool := bool_decide (or_publish_status r = OutboxPending).

Inductive OutboxOp :=
| Enqueue (bucket : string) (e : OutboxEvent)
| MarkPublished (bucket : string) (created_at : Z) (event_id : string) (at_ : Z).

Definition outbox_spec (op : OutboxOp) (m : OutboxMap) : OutboxMap :=
  match op with
  | Enqueue bucket e => let r := outbox_record bucket e in <[outbox_key r := stored_outbox r]> m
  | MarkPublished bucket created_at event_id at_ => alter (published at_) (bucket, (to_ms created_at, event_id)) m
  end.

(** Events of conversations whose identifier has sixteen bytes; marks of events that
    were enqueued. *)
Definition outbox_admissible (op : OutboxOp) (m : OutboxMap) : Prop :=
  match op with
  | Enqueue bucket e => bucket <> EmptyString /\ Uuid.wf (conversation_bytes (ev_conversation_id e))
  | MarkPublished bucket created_at event_id _ => is_Some (m !! (bucket, (to_ms created_at, event_id)))
  end.

Fixpoint outbox_all_admissible (ops : list OutboxOp) (m : OutboxMap) : Prop :=
  match ops with
  | [] => True
  | op :: ops => outbox_admissible op m /\ outbox_all_admissible ops (outbox_spec op m)
  end.

Section refinement.
Context {T : Type} `{!CqlTable T string OutboxCluster}.
Implicit Types (t : T) (m : OutboxMap).

Definition outbox_repr t m : Prop := table_repr outbox_columns outbox_at t m.

Definition outbox_step (op : OutboxOp) t : T :=
  match op with
  | Enqueue bucket e => default t (enqueue_event e bucket t)
  | MarkPublished bucket created_at event_id at_ => mark_event_published bucket created_at event_id at_ t
  end.

Lemma enqueue_row_repr t m r :
  Uuid.wf (conversation_bytes (or_conversation_id r)) -> outbox_repr t m ->
  outbox_repr (enqueue_row r t) (<[outbox_key r := stored_outbox r]> m).
Proof.
  intros Hwf Hr. apply table_repr_insert; [done|done|by apply stored_outbox_at|].
  unfold outbox_columns. cbn. destruct (or_published_at r); cbn; by rewrite ?to_ms_stored_time.
Qed.

Lemma outbox_sim op t m :
  outbox_repr t m -> outbox_admissible op m -> outbox_repr (outbox_step op t) (outbox_spec op m).
Proof.
  intros Hr Hadm. destruct op as [bucket e|bucket created event at_]; cbn in *.
  - destruct Hadm as [Hb Hwf]. unfold enqueue_event, outbox_bucket_of. rewrite bool_decide_eq_false_2 by done. cbn.
    by apply (enqueue_row_repr t m (outbox_record bucket e)).
  - destruct Hadm as [r He]. unfold mark_event_published.
    pose proof (table_repr_at _ _ _ _ _ _ _ Hr He) as (Hwf & Hst & Hk).
    assert (alter (published at_) (bucket, (to_ms created, event)) m
            = <[(bucket, (to_ms created, event)) := published at_ r]> m) as ->
      by (by rewrite <- (insert_id m _ _ He) at 1; rewrite alter_insert_eq).
    apply table_repr_upsert; [done| |].
    + split; [done|]. split; [|done]. rewrite <- Hst. unfold stored_outbox, published. cbn. by rewrite !stored_time_idemp.
    + destruct Hr as [Hc _]. rewrite Hc, He. cbn [default fmap option_fmap option_map id].
      rewrite mk_cells_override.
      * unfold override, outbox_columns, published. cbn. by rewrite to_ms_stored_time.
      * intros name. rewrite !column_is_Some. cbn. set_solver.
Qed.

Lemma outbox_sims ops t m :
  outbox_repr t m -> outbox_all_admissible ops m ->
  outbox_repr (exec_all outbox_step ops t) (exec_all outbox_spec ops m).
Proof.
  revert t m. induction ops as [|op ops IH]; intros t m Hr Hadm; [done|]. destruct Hadm as [Hop Hops].
  rewrite !exec_all_cons. apply IH; [|done]. by apply outbox_sim.
Qed.

Lemma pending_loop_spec (l : list OutboxEventRecord) limit kept :
  (kept + length l <= limit)%nat -> pending_loop (Ok <$> l) limit kept = Ok (List.filter is_pending_event l).
Proof.
  revert kept. induction l as [|r l IH]; intros kept Hlen; [done|]. cbn in *. unfold is_pending_event at 1.
  destruct (bool_decide (or_publish_status r = OutboxPending)); [|apply IH; lia].
  destruct (Nat.leb_spec limit (S kept)).
  - destruct l; [done|cbn in Hlen; lia].
  - by rewrite IH by lia.
Qed.

Lemma decode_rows_fmap t m p l :
  outbox_repr t m -> (forall x, x ∈ l -> x ∈ scan p t) -> decode_outbox_row p <$> l = Ok <$> entities_of m p l.
Proof.
  intros Hr. induction l as [|[c r] l IH]; intros Hl; [done|].
  destruct (scan_entity _ _ t m p c r Hr) as (e & He & ->); [apply Hl; left|].
  rewrite fmap_cons, (decode_outbox _ _ _ (table_repr_at _ _ _ _ _ _ _ Hr He)). unfold entities_of. cbn.
  rewrite He. cbn. f_equal. apply IH. intros. apply Hl. by right.
Qed.

Lemma fetch_spec t m bucket limit :
  outbox_repr t m -> 0 < limit < 2 ^ 31 ->
  fetch_pending_events bucket limit t
  = Ok (List.filter is_pending_event (take (Z.to_nat limit) (entities m bucket t))).
Proof.
  intros Hr Hl. unfold fetch_pending_events. rewrite limit_param_ok by done. cbn [bind].
  assert (Hin : forall x : OutboxCluster * Cells, x ∈ take (Z.to_nat limit) (scan bucket t) -> x ∈ scan bucket t).
  { intros x Hx. by apply elem_of_take in Hx as (i & Hx%list_elem_of_lookup_2 & _). }
  rewrite (decode_rows_fmap t m) by done. rewrite (entities_take _ _ _ _ _ _ _ Hr) by done.
  apply pending_loop_spec. rewrite length_take. lia.
Qed.

(** The outbox refines a map of events.  After any sequence of enqueued events
    and of marks of enqueued events, from an empty table, the rows of an hour are a
    list without duplicates, oldest first, of exactly the records of the map, and a
    fetch returns, without exception, the pending ones among the first [limit] rows. *)
Theorem outbox_refines_map (ops : list OutboxOp) t (bucket : string) (limit : Z)
    (Hempty : outbox_repr t ∅) (Hops : outbox_all_admissible ops ∅) (Hlimit : 0 < limit < 2 ^ 31) :
  let m := exec_all outbox_spec ops ∅ in
  exists all,
    fetch_pending_events bucket limit (exec_all outbox_step ops t)
    = Ok (List.filter is_pending_event (take (Z.to_nat limit) all)) /\
    StronglySorted cle ((fun r => (outbox_key r).2) <$> all) /\ NoDup all /\
    forall r, r ∈ all <-> or_outbox_bucket r = bucket /\ m !! outbox_key r = Some r.
Proof.
  cbn zeta. pose proof (outbox_sims ops t ∅ Hempty Hops) as Hr.
  exists (entities (exec_all outbox_spec ops ∅) bucket (exec_all outbox_step ops t)).
  split; [by apply fetch_spec|].
  assert ((fun r => (outbox_key r).2) <$> entities (exec_all outbox_spec ops ∅) bucket (exec_all outbox_step ops t)
          = (scan bucket (exec_all outbox_step ops t)).*1) as Hcl.
  { eapply entities_clusters; [exact Hr|]. intros c r (_ & _ & Hk). by rewrite Hk. }
  rewrite Hcl. split; [apply scan_sorted|]. split.
  - apply (NoDup_fmap_1 (fun r => (outbox_key r).2)). rewrite Hcl. apply scan_nodup.
  - intros r. rewrite (elem_of_entities _ _ _ _ _ _ Hr). split.
    + intros [c Hc]. pose proof (table_repr_at _ _ _ _ _ _ _ Hr Hc) as (_ & _ & Hk).
      split; [by apply (f_equal fst) in Hk|by rewrite Hk].
    + intros [<- Hm]. by exists (outbox_key r).2.
Qed.

End refinement.

(** ** Concrete runs *)

#[local] Abbreviation table := (GTable string OutboxCluster).

Lemma empty_outbox_repr : outbox_repr (∅ : table) ∅.
Proof. split; [|apply map_Forall_empty]. intros p c. cbn. by rewrite lookup_empty. Qed.

Definition sample_event (id : string) (created_at : Z) : OutboxEvent :=
  mkOutboxEvent id nil_conversation_id MessageSent "{}" created_at.

(** Two events of an hour are published, then a third is enqueued. *)
Definition outbox_run : list OutboxOp :=
  [Enqueue "2026010112" (sample_event "a" 1000000); Enqueue "2026010112" (sample_event "b" 2000000);
   MarkPublished "2026010112" 1000000 "a" 5000000; MarkPublished "2026010112" 2000000 "b" 5000000;
   Enqueue "2026010112" (sample_event "c" 3000000)].

Lemma outbox_run_admissible : outbox_all_admissible outbox_run ∅.
Proof.
  repeat split; try done; try apply nil_uuid_wf; eexists; vm_compute; reflexivity.
Qed.

Lemma outbox_refines_map_witness :
  exists all, fetch_pending_events "2026010112" 10 (exec_all outbox_step outbox_run (∅ : table))
              = Ok (List.filter is_pending_event (take 10 all)).
Proof.
  destruct (outbox_refines_map outbox_run (∅ : table) "2026010112" 10) as (all & Hall & _).
  - apply empty_outbox_repr.
  - apply outbox_run_admissible.
  - lia.
  - exists all. exact Hall.
Defined.

(** Published rows hide pending events.  The rows of published events stay in the
    table and the LIMIT of the fetch counts them, so once the first [limit] events of
    an hour have been published a pending event of that hour is no longer returned,
    although a fetch with a greater limit still shows it. *)
Theorem published_rows_hide_pending :
  let t := exec_all outbox_step outbox_run (∅ : table) in
  fetch_pending_events "2026010112" 2 t = Ok [] /\
  match fetch_pending_events "2026010112" 3 t with
  | Ok [r] => or_event_id r = "c" /\ or_publish_status r = OutboxPending
  | _ => False
  end.
Proof. split; vm_compute; [reflexivity|by split]. Qed.
