(* ===== verification/ConversationService.v ===== *)
(** * Conversation authorization and service

    Models [src/messaging/service/conversation_authorization_service.cpp] and
    [conversation_service.cpp] over the repository contracts of [Conversation].
    The clock and the generated identifiers are arguments of each operation; error
    results keep their code and drop the message.

    The service holds no lock across the calls it makes: every operation is given as the
    program of its repository calls (the names in [_calls]), one step per call, between
    which other operations may run; and as the function of the state that this program
    computes when it runs alone, which the checks of other services use. *)

From S2P Require Import Prelude Ids Prog DeliveryTypes Conversation.

(** Outcome of an authorization check: [AuthorizationResult]. *)
Definition AuthorizationResult : Type := ServiceResult unit.

(** An event's identifier and time, taken from the generator and the clock. *)
Record Stamp := mkStamp { st_event_id : string; st_now : Z }.

Section service.
Context {C M : Type} `{!ConversationRepository C, !MembershipRepository M}.

Record ConversationState := mkState {
  conversation_repo : C;
  membership_repo : M;
  outbox_events : list OutboxEvent;
}.
Implicit Type s : ConversationState.

(** ** [ConversationAuthorizationService] *)

(** The guard every check shares: the caller is an active participant. *)
Definition active_participant (caller : UserId) (conv_id : ConversationId) s : option Participant :=
  match find_participant conv_id caller (membership_repo s) with
  | Some p => if bool_decide (pt_status p = Active) then Some p else None
  | None => None
  end.

Definition group_closed (conv_id : ConversationId) s : bool :=
  match find_group_metadata conv_id (conversation_repo s) with
  | Some meta => bool_decide (gm_status meta = GroupClosed)
  | None => false
  end.

Definition can_view_conversation (caller : UserId) (conv_id : ConversationId) s : AuthorizationResult :=
  match find_conversation_by_id conv_id (conversation_repo s) with
  | None => Err CONVERSATION_NOT_FOUND
  | Some _ =>
      match active_participant caller conv_id s with
      | None => Err NOT_A_PARTICIPANT
      | Some _ => Ok tt
      end
  end.

Definition can_send_message (caller : UserId) (conv_id : ConversationId) s : AuthorizationResult :=
  match find_conversation_by_id conv_id (conversation_repo s) with
  | None => Err CONVERSATION_NOT_FOUND
  | Some conv =>
      if bool_decide (cv_type conv = Group) && group_closed conv_id s then Err CONVERSATION_NOT_FOUND
      else
        match active_participant caller conv_id s with
        | None => Err NOT_A_PARTICIPANT
        | Some _ => Ok tt
        end
  end.

(** [can_update_metadata] and [can_close_conversation] have the body of
    [can_add_participant] with other message texts. *)
Definition can_administer (caller : UserId) (conv_id : ConversationId) s : AuthorizationResult :=
  match find_conversation_by_id conv_id (conversation_repo s) with
  | None => Err CONVERSATION_NOT_FOUND
  | Some conv =>
      if bool_decide (cv_type conv = Direct) then Err UNSPECIFIED
      else if group_closed conv_id s then Err UNSPECIFIED
      else
        match active_participant caller conv_id s with
        | None => Err NOT_A_PARTICIPANT
        | Some p => if negb (bool_decide (pt_role p = Admin)) then Err UNSPECIFIED else Ok tt
        end
  end.

Definition can_add_participant (caller : UserId) (conv_id : ConversationId) s : AuthorizationResult :=
  can_administer caller conv_id s.
Definition can_update_metadata (caller : UserId) (conv_id : ConversationId) s : AuthorizationResult :=
  can_administer caller conv_id s.
Definition can_close_conversation (caller : UserId) (conv_id : ConversationId) s : AuthorizationResult :=
  can_administer caller conv_id s.

Definition can_add_target (caller : UserId) (conv_id : ConversationId) (target : UserId) s : AuthorizationResult :=
  let? _ := can_add_participant caller conv_id s in
  match active_participant target conv_id s with
  | Some _ => Err UNSPECIFIED
  | None => Ok tt
  end.

Definition other_admins (caller : UserId) (l : list Participant) : nat :=
  length (filter (fun p => pt_user_id p <> caller /\ pt_role p = Admin) l).
Definition other_members (caller : UserId) (l : list Participant) : nat :=
  length (filter (fun p => pt_user_id p <> caller /\ pt_role p <> Admin) l).

Definition can_leave_conversation (caller : UserId) (conv_id : ConversationId) s : AuthorizationResult :=
  match find_conversation_by_id conv_id (conversation_repo s) with
  | None => Err CONVERSATION_NOT_FOUND
  | Some conv =>
      if bool_decide (cv_type conv = Direct) then Err UNSPECIFIED
      else
        match active_participant caller conv_id s with
        | None => Err NOT_A_PARTICIPANT
        | Some p =>
            let l := list_active_participants conv_id (membership_repo s) in
            if bool_decide (pt_role p = Admin)
               && ((other_admins caller l =? 0)%nat && (0 <? other_members caller l)%nat)
            then Err UNSPECIFIED
            else Ok tt
        end
  end.

Definition can_remove_participant (caller : UserId) (conv_id : ConversationId) (target : UserId) s
    : AuthorizationResult :=
  match find_conversation_by_id conv_id (conversation_repo s) with
  | None => Err CONVERSATION_NOT_FOUND
  | Some conv =>
      if bool_decide (cv_type conv = Direct) then Err UNSPECIFIED
      else if group_closed conv_id s then Err UNSPECIFIED
      else if bool_decide (caller = target) then can_leave_conversation caller conv_id s
      else
        match active_participant caller conv_id s with
        | None => Err NOT_A_PARTICIPANT
        | Some p =>
            if negb (bool_decide (pt_role p = Admin)) then Err UNSPECIFIED
            else
              match active_participant target conv_id s with
              | None => Err NOT_A_PARTICIPANT
              | Some _ => Ok tt
              end
        end
  end.

(** ** [ConversationService] *)

Definition set_conversations (c : C) s : ConversationState := mkState c (membership_repo s) (outbox_events s).
Definition set_memberships (m : M) s : ConversationState := mkState (conversation_repo s) m (outbox_events s).

Definition record_outbox_event (st : Stamp) (conv_id : ConversationId) (type : OutboxEventType)
    (payload_json : string) s : ConversationState :=
  mkState (conversation_repo s) (membership_repo s)
    (outbox_events s ++ [mkOutboxEvent (st_event_id st) conv_id type payload_json (st_now st)]).

(** [add_participant] followed by [touch_user_conversation]. *)
Definition enroll (conv_id : ConversationId) (type : ConversationType) (role : ParticipantRole) (now : Z)
    (user : UserId) s : ConversationState :=
  set_memberships
    (touch_user_conversation user conv_id type Active now
       (repo_add_participant (mkParticipant conv_id user role Active now None 1) (membership_repo s))) s.

Definition quote (s : string) : string := String.append (String (Ascii.ascii_of_nat 34) s) (String (Ascii.ascii_of_nat 34) EmptyString).
Definition json_field (name value : string) : string := String.append (quote name) (String.append ":" (quote value)).

Definition create_direct_conversation (caller recipient : UserId) (conv_id : ConversationId) (now : Z)
    (st : Stamp) s : result exn (ServiceResult ConversationEntity * ConversationState) :=
  if bool_decide (caller = recipient) then Ok (Err UNSPECIFIED, s)
  else
    match direct_pair caller recipient with
    | None => Err invalid_argument
    | Some dp =>
        match find_direct_conversation dp (conversation_repo s)
                ≫= (fun id => find_conversation_by_id id (conversation_repo s)) with
        | Some existing => Ok (Ok existing, s)
        | None =>
            let conv := mkConversation conv_id Direct caller now 1 in
            let s := set_conversations (save_direct_conversation dp conv_id
                                          (save_conversation conv (conversation_repo s))) s in
            let part u := mkParticipant conv_id u Member Active now None 1 in
            let s := set_memberships (repo_add_participant (part recipient)
                                        (repo_add_participant (part caller) (membership_repo s))) s in
            let s := set_memberships
                       (touch_user_conversation recipient conv_id Direct Active now
                          (touch_user_conversation caller conv_id Direct Active now (membership_repo s))) s in
            Ok (Ok conv,
                record_outbox_event st conv_id ConversationCreated
                  (String.append "{" (String.append (json_field "type" "direct")
                     (String.append "," (String.append (json_field "creator" (user_str caller)) "}")))) s)
        end
    end.

(** The loop over the initial participants; [added] is the set of texts seen. *)
Fixpoint enroll_members (conv_id : ConversationId) (now : Z) (added : gset string) (users : list UserId) s
    : ConversationState :=
  match users with
  | [] => s
  | u :: users =>
      if bool_decide (user_str u ∈ added) then enroll_members conv_id now added users s
      else enroll_members conv_id now ({[ user_str u ]} ∪ added) users (enroll conv_id Group Member now u s)
  end.

Definition title_length_ok (title : string) : bool :=
  negb (bool_decide (chars title = []) || (256 <? length (chars title))%nat).

Definition create_group_conversation (caller : UserId) (title : string) (initial : list UserId)
    (conv_id : ConversationId) (now : Z) (st : Stamp) s : ServiceResult ConversationEntity * ConversationState :=
  if negb (title_length_ok title) then (Err UNSPECIFIED, s)
  else
    let conv := mkConversation conv_id Group caller now 1 in
    let meta := mkGroupMetadata conv_id title GroupActive now now 1 in
    let s := set_conversations (save_group_metadata meta (save_conversation conv (conversation_repo s))) s in
    let s := enroll conv_id Group Admin now caller s in
    let s := enroll_members conv_id now {[ user_str caller ]} initial s in
    (Ok conv,
     record_outbox_event st conv_id ConversationCreated
       (String.append "{" (String.append (json_field "type" "group")
          (String.append "," (String.append (json_field "creator" (user_str caller))
             (String.append "," (String.append (json_field "title" title) "}")))))) s).

(** A membership entity with a new standing. *)
Definition with_status (status : MembershipStatus) (joined_at : Z) (left_at : option Z) (p : Participant)
    : Participant :=
  mkParticipant (pt_conversation_id p) (pt_user_id p) (pt_role p) status joined_at left_at
    (u64 (pt_membership_version p + 1)).

Definition add_participant (caller : UserId) (conv_id : ConversationId) (target : UserId) (now : Z)
    (st : Stamp) s : ServiceResult unit * ConversationState :=
  match can_add_participant caller conv_id s with
  | Err e => (Err e, s)
  | Ok _ =>
      let joined s :=
        let s := set_memberships (touch_user_conversation target conv_id Group Active now (membership_repo s)) s in
        (Ok tt, record_outbox_event st conv_id ParticipantJoined
                  (String.append "{" (String.append (json_field "user_id" (user_str target)) "}")) s) in
      match find_participant conv_id target (membership_repo s) with
      | Some existing =>
          if bool_decide (pt_status existing = Active) then (Ok tt, s)
          else joined (set_memberships (repo_update_participant (with_status Active now None existing)
                                          (membership_repo s)) s)
      | None =>
          joined (set_memberships (repo_add_participant (mkParticipant conv_id target Member Active now None 1)
                                     (membership_repo s)) s)
      end
  end.

Definition remove_participant (caller : UserId) (conv_id : ConversationId) (target : UserId) (now : Z)
    (st : Stamp) s : ServiceResult unit * ConversationState :=
  match can_remove_participant caller conv_id target s with
  | Err e => (Err e, s)
  | Ok _ =>
      match find_participant conv_id target (membership_repo s) with
      | None => (Err NOT_A_PARTICIPANT, s)
      | Some existing =>
          let m := repo_update_participant (with_status Removed (pt_joined_at existing) (Some now) existing)
                     (membership_repo s) in
          let s := set_memberships (touch_user_conversation target conv_id Group Removed now m) s in
          (Ok tt, record_outbox_event st conv_id ParticipantRemoved
                    (String.append "{" (String.append (json_field "user_id" (user_str target))
                       (String.append "," (String.append (json_field "removed_by" (user_str caller)) "}")))) s)
      end
  end.

Definition close_group (meta : GroupMetadata) (now : Z) : GroupMetadata :=
  mkGroupMetadata (gm_conversation_id meta) (gm_title meta) GroupClosed (gm_created_at meta) now
    (u64 (gm_metadata_version meta + 1)).

Definition leave_conversation (caller : UserId) (conv_id : ConversationId) (now : Z) (st st' : Stamp) s
    : ServiceResult unit * ConversationState :=
  match can_leave_conversation caller conv_id s with
  | Err e => (Err e, s)
  | Ok _ =>
      match find_participant conv_id caller (membership_repo s) with
      | None => (Err NOT_A_PARTICIPANT, s)
      | Some existing =>
          let m := repo_update_participant (with_status Left (pt_joined_at existing) (Some now) existing)
                     (membership_repo s) in
          let s := set_memberships (touch_user_conversation caller conv_id Group Left now m) s in
          let s := record_outbox_event st conv_id ParticipantLeft
                     (String.append "{" (String.append (json_field "user_id" (user_str caller)) "}")) s in
          if bool_decide (list_active_participants conv_id (membership_repo s) = []) then
            match find_group_metadata conv_id (conversation_repo s) with
            | None => (Ok tt, s)
            | Some meta =>
                let s := set_conversations (save_group_metadata (close_group meta now) (conversation_repo s)) s in
                (Ok tt, record_outbox_event st' conv_id ConversationClosed
                          (String.append "{" (String.append (json_field "reason" "all_participants_left") "}")) s)
            end
          else (Ok tt, s)
      end
  end.

Definition update_group_metadata (caller : UserId) (conv_id : ConversationId) (new_title : string) (now : Z)
    (st : Stamp) s : ServiceResult GroupMetadata * ConversationState :=
  if negb (title_length_ok new_title) then (Err UNSPECIFIED, s)
  else
    match can_update_metadata caller conv_id s with
    | Err e => (Err e, s)
    | Ok _ =>
        match find_group_metadata conv_id (conversation_repo s) with
        | None => (Err CONVERSATION_NOT_FOUND, s)
        | Some meta =>
            let updated := mkGroupMetadata (gm_conversation_id meta) new_title (gm_status meta)
                             (gm_created_at meta) now (u64 (gm_metadata_version meta + 1)) in
            let s := set_conversations (save_group_metadata updated (conversation_repo s)) s in
            (Ok updated,
             record_outbox_event st conv_id GroupMetadataUpdated
               (String.append "{" (String.append (json_field "new_title" new_title)
                  (String.append "," (String.append (json_field "updated_by" (user_str caller)) "}")))) s)
        end
    end.

Record ConversationDetails := mkDetails {
  de_conversation : ConversationEntity;
  de_group_metadata : option GroupMetadata;
  de_active_participants : list Participant;
}.

Definition get_conversation (caller : UserId) (conv_id : ConversationId) s : ServiceResult ConversationDetails :=
  let? _ := can_view_conversation caller conv_id s in
  match find_conversation_by_id conv_id (conversation_repo s) with
  | None => Err CONVERSATION_NOT_FOUND
  | Some conv =>
      Ok (mkDetails conv
            (if bool_decide (cv_type conv = Group) then find_group_metadata conv_id (conversation_repo s) else None)
            (list_active_participants conv_id (membership_repo s)))
  end.

(** ** The calls, one by one *)

#[local] Abbreviation cprog := (prog ConversationState).

Definition read_call {A} (f : ConversationState -> A) : cprog A := Atomic (fun s => s) (fun s => Ret (f s)).
Definition write_call (f : ConversationState -> ConversationState) : cprog unit := Atomic f (fun _ => Ret tt).

Definition find_conversation_call (id : ConversationId) : cprog (option ConversationEntity) :=
  read_call (fun s => find_conversation_by_id id (conversation_repo s)).
Definition group_closed_call (id : ConversationId) : cprog bool := read_call (group_closed id).
Definition active_participant_call (u : UserId) (id : ConversationId) : cprog (option Participant) := read_call (active_participant u id).
Definition find_participant_call (id : ConversationId) (u : UserId) : cprog (option Participant) :=
  read_call (fun s => find_participant id u (membership_repo s)).
Definition list_active_call (id : ConversationId) : cprog (list Participant) :=
  read_call (fun s => list_active_participants id (membership_repo s)).
Definition find_metadata_call (id : ConversationId) : cprog (option GroupMetadata) :=
  read_call (fun s => find_group_metadata id (conversation_repo s)).
Definition conversations_call (f : C -> C) : cprog unit := write_call (fun s => set_conversations (f (conversation_repo s)) s).
Definition memberships_call (f : M -> M) : cprog unit := write_call (fun s => set_memberships (f (membership_repo s)) s).
Definition record_call (st : Stamp) (id : ConversationId) (type : OutboxEventType) (payload_json : string) : cprog unit :=
  write_call (record_outbox_event st id type payload_json).

Definition can_administer_calls (caller : UserId) (conv_id : ConversationId) : cprog AuthorizationResult :=
  let* found := find_conversation_call conv_id in
  match found with
  | None => Ret (Err CONVERSATION_NOT_FOUND)
  | Some conv =>
      if bool_decide (cv_type conv = Direct) then Ret (Err UNSPECIFIED)
      else
        let* closed := group_closed_call conv_id in
        if closed then Ret (Err UNSPECIFIED)
        else
          let* p := active_participant_call caller conv_id in
          match p with
          | None => Ret (Err NOT_A_PARTICIPANT)
          | Some p => Ret (if negb (bool_decide (pt_role p = Admin)) then Err UNSPECIFIED else Ok tt)
          end
  end.

Definition can_leave_calls (caller : UserId) (conv_id : ConversationId) : cprog AuthorizationResult :=
  let* found := find_conversation_call conv_id in
  match found with
  | None => Ret (Err CONVERSATION_NOT_FOUND)
  | Some conv =>
      if bool_decide (cv_type conv = Direct) then Ret (Err UNSPECIFIED)
      else
        let* p := active_participant_call caller conv_id in
        match p with
        | None => Ret (Err NOT_A_PARTICIPANT)
        | Some p =>
            if bool_decide (pt_role p = Admin) then
              let* l := list_active_call conv_id in
              Ret (if (other_admins caller l =? 0)%nat && (0 <? other_members caller l)%nat then Err UNSPECIFIED else Ok tt)
            else Ret (Ok tt)
        end
  end.

Definition can_remove_calls (caller : UserId) (conv_id : ConversationId) (target : UserId) : cprog AuthorizationResult :=
  let* found := find_conversation_call conv_id in
  match found with
  | None => Ret (Err CONVERSATION_NOT_FOUND)
  | Some conv =>
      if bool_decide (cv_type conv = Direct) then Ret (Err UNSPECIFIED)
      else
        let* closed := group_closed_call conv_id in
        if closed then Ret (Err UNSPECIFIED)
        else if bool_decide (caller = target) then can_leave_calls caller conv_id
        else
          let* p := active_participant_call caller conv_id in
          match p with
          | None => Ret (Err NOT_A_PARTICIPANT)
          | Some p =>
              if negb (bool_decide (pt_role p = Admin)) then Ret (Err UNSPECIFIED)
              else
                let* q := active_participant_call target conv_id in
                Ret (match q with None => Err NOT_A_PARTICIPANT | Some _ => Ok tt end)
          end
  end.

Definition enroll_calls (conv_id : ConversationId) (type : ConversationType) (role : ParticipantRole) (now : Z) (user : UserId) : cprog unit :=
  let* _ := memberships_call (repo_add_participant (mkParticipant conv_id user role Active now None 1)) in
  memberships_call (touch_user_conversation user conv_id type Active now).

Definition create_direct_calls (caller recipient : UserId) (conv_id : ConversationId) (now : Z) (st : Stamp)
    : cprog (result exn (ServiceResult ConversationEntity)) :=
  if bool_decide (caller = recipient) then Ret (Ok (Err UNSPECIFIED))
  else
    match direct_pair caller recipient with
    | None => Ret (Err invalid_argument)
    | Some dp =>
        let* existing_id := read_call (fun s => find_direct_conversation dp (conversation_repo s)) in
        let* existing := match existing_id with Some id => find_conversation_call id | None => Ret None end in
        match existing with
        | Some conv => Ret (Ok (Ok conv))
        | None =>
            let conv := mkConversation conv_id Direct caller now 1 in
            let part u := mkParticipant conv_id u Member Active now None 1 in
            let* _ := conversations_call (save_conversation conv) in
            let* _ := conversations_call (save_direct_conversation dp conv_id) in
            let* _ := memberships_call (repo_add_participant (part caller)) in
            let* _ := memberships_call (repo_add_participant (part recipient)) in
            let* _ := memberships_call (touch_user_conversation caller conv_id Direct Active now) in
            let* _ := memberships_call (touch_user_conversation recipient conv_id Direct Active now) in
            let* _ := record_call st conv_id ConversationCreated
                        (String.append "{" (String.append (json_field "type" "direct")
                           (String.append "," (String.append (json_field "creator" (user_str caller)) "}")))) in
            Ret (Ok (Ok conv))
        end
    end.

Fixpoint enroll_members_calls (conv_id : ConversationId) (now : Z) (added : gset string) (users : list UserId) : cprog unit :=
  match users with
  | [] => Ret tt
  | u :: users =>
      if bool_decide (user_str u ∈ added) then enroll_members_calls conv_id now added users
      else let* _ := enroll_calls conv_id Group Member now u in enroll_members_calls conv_id now ({[ user_str u ]} ∪ added) users
  end.

Definition create_group_calls (caller : UserId) (title : string) (initial : list UserId) (conv_id : ConversationId) (now : Z) (st : Stamp)
    : cprog (ServiceResult ConversationEntity) :=
  if negb (title_length_ok title) then Ret (Err UNSPECIFIED)
  else
    let conv := mkConversation conv_id Group caller now 1 in
    let* _ := conversations_call (save_conversation conv) in
    let* _ := conversations_call (save_group_metadata (mkGroupMetadata conv_id title GroupActive now now 1)) in
    let* _ := enroll_calls conv_id Group Admin now caller in
    let* _ := enroll_members_calls conv_id now {[ user_str caller ]} initial in
    let* _ := record_call st conv_id ConversationCreated
                (String.append "{" (String.append (json_field "type" "group")
                   (String.append "," (String.append (json_field "creator" (user_str caller))
                      (String.append "," (String.append (json_field "title" title) "}")))))) in
    Ret (Ok conv).

Definition add_participant_calls (caller : UserId) (conv_id : ConversationId) (target : UserId) (now : Z) (st : Stamp)
    : cprog (ServiceResult unit) :=
  let* auth := can_administer_calls caller conv_id in
  match auth with
  | Err e => Ret (Err e)
  | Ok _ =>
      let joined :=
        let* _ := memberships_call (touch_user_conversation target conv_id Group Active now) in
        let* _ := record_call st conv_id ParticipantJoined
                    (String.append "{" (String.append (json_field "user_id" (user_str target)) "}")) in
        Ret (Ok tt) in
      let* existing := find_participant_call conv_id target in
      match existing with
      | Some existing =>
          if bool_decide (pt_status existing = Active) then Ret (Ok tt)
          else let* _ := memberships_call (repo_update_participant (with_status Active now None existing)) in joined
      | None => let* _ := memberships_call (repo_add_participant (mkParticipant conv_id target Member Active now None 1)) in joined
      end
  end.

Definition remove_participant_calls (caller : UserId) (conv_id : ConversationId) (target : UserId) (now : Z) (st : Stamp)
    : cprog (ServiceResult unit) :=
  let* auth := can_remove_calls caller conv_id target in
  match auth with
  | Err e => Ret (Err e)
  | Ok _ =>
      let* existing := find_participant_call conv_id target in
      match existing with
      | None => Ret (Err NOT_A_PARTICIPANT)
      | Some existing =>
          let* _ := memberships_call (repo_update_participant (with_status Removed (pt_joined_at existing) (Some now) existing)) in
          let* _ := memberships_call (touch_user_conversation target conv_id Group Removed now) in
          let* _ := record_call st conv_id ParticipantRemoved
                      (String.append "{" (String.append (json_field "user_id" (user_str target))
                         (String.append "," (String.append (json_field "removed_by" (user_str caller)) "}")))) in
          Ret (Ok tt)
      end
  end.

Definition leave_conversation_calls (caller : UserId) (conv_id : ConversationId) (now : Z) (st st' : Stamp) : cprog (ServiceResult unit) :=
  let* auth := can_leave_calls caller conv_id in
  match auth with
  | Err e => Ret (Err e)
  | Ok _ =>
      let* existing := find_participant_call conv_id caller in
      match existing with
      | None => Ret (Err NOT_A_PARTICIPANT)
      | Some existing =>
          let* _ := memberships_call (repo_update_participant (with_status Left (pt_joined_at existing) (Some now) existing)) in
          let* _ := memberships_call (touch_user_conversation caller conv_id Group Left now) in
          let* _ := record_call st conv_id ParticipantLeft
                      (String.append "{" (String.append (json_field "user_id" (user_str caller)) "}")) in
          let* active := list_active_call conv_id in
          if bool_decide (active = []) then
            let* meta := find_metadata_call conv_id in
            match meta with
            | None => Ret (Ok tt)
            | Some meta =>
                let* _ := conversations_call (save_group_metadata (close_group meta now)) in
                let* _ := record_call st' conv_id ConversationClosed
                            (String.append "{" (String.append (json_field "reason" "all_participants_left") "}")) in
                Ret (Ok tt)
            end
          else Ret (Ok tt)
      end
  end.

Definition update_metadata_calls (caller : UserId) (conv_id : ConversationId) (new_title : string) (now : Z) (st : Stamp)
    : cprog (ServiceResult GroupMetadata) :=
  if negb (title_length_ok new_title) then Ret (Err UNSPECIFIED)
  else
    let* auth := can_administer_calls caller conv_id in
    match auth with
    | Err e => Ret (Err e)
    | Ok _ =>
        let* meta := find_metadata_call conv_id in
        match meta with
        | None => Ret (Err CONVERSATION_NOT_FOUND)
        | Some meta =>
            let updated := mkGroupMetadata (gm_conversation_id meta) new_title (gm_status meta)
                             (gm_created_at meta) now (u64 (gm_metadata_version meta + 1)) in
            let* _ := conversations_call (save_group_metadata updated) in
            let* _ := record_call st conv_id GroupMetadataUpdated
                        (String.append "{" (String.append (json_field "new_title" new_title)
                           (String.append "," (String.append (json_field "updated_by" (user_str caller)) "}")))) in
            Ret (Ok updated)
        end
    end.

(** ** The calls of one operation alone *)

Lemma solo_can_administer u c s : solo (can_administer_calls u c) s = (can_administer u c s, s).
Proof.
  unfold can_administer_calls, can_administer. cbn. destruct (find_conversation_by_id c _) as [cv|]; [|done].
  destruct (bool_decide _); [done|]. cbn. destruct (group_closed c s); [done|]. cbn. by destruct (active_participant u c s).
Qed.

Lemma solo_can_leave u c s : solo (can_leave_calls u c) s = (can_leave_conversation u c s, s).
Proof.
  unfold can_leave_calls, can_leave_conversation. cbn. destruct (find_conversation_by_id c _) as [cv|]; [|done].
  destruct (bool_decide _); [done|]. cbn. destruct (active_participant u c s) as [p|]; [|done]. by destruct (bool_decide (pt_role p = Admin)).
Qed.

Lemma solo_can_remove u c t s : solo (can_remove_calls u c t) s = (can_remove_participant u c t s, s).
Proof.
  unfold can_remove_calls, can_remove_participant. cbn. destruct (find_conversation_by_id c _) as [cv|]; [|done].
  destruct (bool_decide _); [done|]. cbn. destruct (group_closed c s); [done|]. destruct (bool_decide (u = t)); [apply solo_can_leave|]. cbn.
  destruct (active_participant u c s) as [p|]; [|done]. by destruct (negb _).
Qed.

Lemma solo_enroll_members c now added users s : solo (enroll_members_calls c now added users) s = (tt, enroll_members c now added users s).
Proof.
  revert added s. induction users as [|u users IH]; intros added s; cbn [enroll_members_calls enroll_members]; [done|].
  destruct (bool_decide _); [apply IH|]. cbn. apply IH.
Qed.

Lemma solo_create_direct u v c now st s :
  solo (create_direct_calls u v c now st) s
  = match create_direct_conversation u v c now st s with Ok r => (Ok (fst r), snd r) | Err e => (Err e, s) end.
Proof.
  unfold create_direct_calls, create_direct_conversation. destruct (bool_decide _); [done|]. destruct (direct_pair u v) as [dp|]; [|done]. cbn.
  destruct (find_direct_conversation dp _) as [id|]; cbn; [|done]. by destruct (find_conversation_by_id id _).
Qed.

Lemma solo_create_group u title initial c now st s :
  solo (create_group_calls u title initial c now st) s = create_group_conversation u title initial c now st s.
Proof.
  unfold create_group_calls, create_group_conversation. destruct (negb _); [done|]. cbn. by rewrite solo_bind, solo_enroll_members.
Qed.

Lemma solo_add_participant u c t now st s : solo (add_participant_calls u c t now st) s = add_participant u c t now st s.
Proof.
  unfold add_participant_calls, add_participant, can_add_participant. rewrite solo_bind, solo_can_administer. destruct (can_administer u c s); [|done]. cbn.
  destruct (find_participant c t _) as [p|]; [|done]. by destruct (bool_decide _).
Qed.

Lemma solo_remove_participant u c t now st s : solo (remove_participant_calls u c t now st) s = remove_participant u c t now st s.
Proof.
  unfold remove_participant_calls, remove_participant. rewrite solo_bind, solo_can_remove. destruct (can_remove_participant u c t s); [|done]. cbn.
  by destruct (find_participant c t _).
Qed.

Lemma solo_leave_conversation u c now st st' s : solo (leave_conversation_calls u c now st st') s = leave_conversation u c now st st' s.
Proof.
  unfold leave_conversation_calls, leave_conversation. rewrite solo_bind, solo_can_leave. destruct (can_leave_conversation u c s); [|done]. cbn.
  destruct (find_participant c u _) as [p|]; [|done]. cbn. destruct (bool_decide _); [|done]. cbn. by destruct (find_group_metadata c _).
Qed.

Lemma solo_update_metadata u c title now st s : solo (update_metadata_calls u c title now st) s = update_group_metadata u c title now st s.
Proof.
  unfold update_metadata_calls, update_group_metadata, can_update_metadata. destruct (negb _); [done|]. rewrite solo_bind, solo_can_administer.
  destruct (can_administer u c s); [|done]. cbn. by destruct (find_group_metadata c _).
Qed.

End service.
#[global] Arguments ConversationState : clear implicits.
