(* ===== verification/Submission.v ===== *)
(** * Message submission

    Models [src/messaging/domain/submission_types.hpp] and [idempotency_types.hpp],
    the checks of [src/messaging/service/submission_validator.cpp], the fingerprint of
    [src/messaging/domain/submission_fingerprint.cpp] (SHA-256 is a parameter), the
    idempotency records of [src/messaging/repository/scylla_idempotency_repository.cpp]
    with the guard of [src/messaging/service/idempotency_guard.cpp], and
    [src/messaging/service/message_submission_service.cpp], whose calls to the database
    may each fail, before or after they took effect. *)

From S2P Require Import Prelude Ids Bucket Scylla DeliveryTypes DeliveryRepo DeliveryRepoSpec MessageStore Sequence Conversation Outbox ConversationService.
From stdpp Require Import sorting.
#[local] Open Scope Z_scope.

(** ** Commands *)

Record DeviceDeliveryTarget := mkTarget {
  tg_recipient_user_id : UserId;
  tg_recipient_device_id : DeviceId;
  tg_ciphertext_blob : string;
  tg_ephemeral_public_key : list Z;
  tg_iv : list Z;
  tg_auth_tag : list Z;
  tg_algorithm : string;
  tg_protocol_version : E2EProtocolVersion;
  tg_one_time_prekey_id : option string;
}.

Record MessageSubmissionCommand := mkSubmission {
  sc_caller_user_id : UserId;
  sc_sender_device_id : DeviceId;
  sc_conversation_id : ConversationId;
  sc_client_idempotency_token : string;
  sc_priority : MessagePriority;
  sc_expires_at : option Z;
  sc_protocol_version : E2EProtocolVersion;
  sc_delivery_targets : list DeviceDeliveryTarget;
}.

Record MessageSubmissionResponse := mkSubmissionResponse {
  sr_message_id : MessageId;
  sr_conversation_id : ConversationId;
  sr_message_sequence : Z;
  sr_accepted_at : Z;
  sr_initial_state : ProtoDeliveryState;
  sr_is_replay : bool;
}.

(** ** [SubmissionValidator] *)

Definition kMaxDeviceIdLength : nat := 128.
Definition kMaxIdempotencyTokenLength : nat := 128.
Definition kMaxDeliveryTargets : nat := 256.
Definition kMaxPayloadSizeBytes : Z := 16 * 1024 * 1024.
Definition kMinAuthTagSize : nat := 16.
Definition kMinXChaChaIvSize : nat := 24.
Definition kMinAesGcmIvSize : nat := 12.

Definition str_size (s : string) : nat := length (chars s).

Definition is_printable_ascii (s : string) : bool :=
  forallb (fun c => negb ((code c <? 32) || (126 <? code c))) (chars s).

(** One turn of the loop over the targets; the error, or the devices seen so far. *)
Definition validate_target (t : DeviceDeliveryTarget) (seen : gset string) : ServiceResult (gset string) :=
  let device := device_str (tg_recipient_device_id t) in
  if UserId_empty (tg_recipient_user_id t) then Err UNSPECIFIED
  else if negb (is_valid_format (user_str (tg_recipient_user_id t))) then Err UNSPECIFIED
  else if DeviceId_empty (tg_recipient_device_id t) then Err UNSPECIFIED
  else if (kMaxDeviceIdLength <? str_size device)%nat then Err UNSPECIFIED
  else if negb (is_printable_ascii device) then Err UNSPECIFIED
  else if bool_decide (device ∈ seen) then Err UNSPECIFIED
  else if bool_decide (tg_ciphertext_blob t = EmptyString) then Err UNSPECIFIED
  else if kMaxPayloadSizeBytes <? Z.of_nat (str_size (tg_ciphertext_blob t)) then Err PAYLOAD_TOO_LARGE
  else if negb (String.eqb (tg_algorithm t) "XChaCha20-Poly1305") && negb (String.eqb (tg_algorithm t) "AES-256-GCM")
  then Err INVALID_TARGET_DEVICE
  else if (length (tg_auth_tag t) <? kMinAuthTagSize)%nat then Err INVALID_TARGET_DEVICE
  else if String.eqb (tg_algorithm t) "XChaCha20-Poly1305" && (length (tg_iv t) <? kMinXChaChaIvSize)%nat
  then Err INVALID_TARGET_DEVICE
  else if String.eqb (tg_algorithm t) "AES-256-GCM" && (length (tg_iv t) <? kMinAesGcmIvSize)%nat
  then Err INVALID_TARGET_DEVICE
  else if bool_decide (tg_ephemeral_public_key t = []) then Err INVALID_TARGET_DEVICE
  else Ok ({[ device ]} ∪ seen).

Fixpoint validate_targets (l : list DeviceDeliveryTarget) (seen : gset string) : ServiceResult unit :=
  match l with
  | [] => Ok tt
  | t :: l => let? seen := validate_target t seen in validate_targets l seen
  end.

Definition validate (now : Z) (cmd : MessageSubmissionCommand) : ServiceResult unit :=
  let device := device_str (sc_sender_device_id cmd) in
  let token := sc_client_idempotency_token cmd in
  if UserId_empty (sc_caller_user_id cmd) then Err UNSPECIFIED
  else if negb (is_valid_format (user_str (sc_caller_user_id cmd))) then Err UNSPECIFIED
  else if DeviceId_empty (sc_sender_device_id cmd) then Err UNSPECIFIED
  else if (kMaxDeviceIdLength <? str_size device)%nat then Err UNSPECIFIED
  else if negb (is_printable_ascii device) then Err UNSPECIFIED
  else if Uuid.is_nil (conversation_bytes (sc_conversation_id cmd)) then Err UNSPECIFIED
  else if bool_decide (token = EmptyString) then Err UNSPECIFIED
  else if (kMaxIdempotencyTokenLength <? str_size token)%nat then Err UNSPECIFIED
  else if negb (is_printable_ascii token) then Err UNSPECIFIED
  else if from_option (fun e => e <=? now) false (sc_expires_at cmd) then Err MESSAGE_EXPIRED
  else if bool_decide (sc_delivery_targets cmd = []) then Err UNSPECIFIED
  else if (kMaxDeliveryTargets <? length (sc_delivery_targets cmd))%nat then Err UNSPECIFIED
  else validate_targets (sc_delivery_targets cmd) ∅.

(** ** The fingerprint *)

(** The comparison [std::sort] is given: device, then user. *)
Definition target_le : relation DeviceDeliveryTarget := fun a b =>
  if decide (device_str (tg_recipient_device_id a) = device_str (tg_recipient_device_id b))
  then String.le (user_str (tg_recipient_user_id a)) (user_str (tg_recipient_user_id b))
  else String.le (device_str (tg_recipient_device_id a)) (device_str (tg_recipient_device_id b)).

#[export] Instance target_le_dec : RelDecision target_le.
Proof. intros a b. unfold target_le. case_decide; apply _. Defined.

Section fingerprint.
Context (sha256_hex : string -> string).

Definition target_repr (t : DeviceDeliveryTarget) : string :=
  String.append (device_str (tg_recipient_device_id t)) (String.append ":" (sha256_hex (tg_ciphertext_blob t))).

Fixpoint targets_repr (l : list DeviceDeliveryTarget) : string :=
  match l with
  | [] => EmptyString
  | [t] => target_repr t
  | t :: l => String.append (target_repr t) (String.append ";" (targets_repr l))
  end.

Definition canonical_payload (cmd : MessageSubmissionCommand) : string :=
  String.append (ConversationId_to_string (sc_conversation_id cmd)) (String.append "|"
    (String.append (device_str (sc_sender_device_id cmd)) (String.append "|"
      (String.append (priority_to_string (sc_priority cmd)) (String.append "|"
        (targets_repr (merge_sort target_le (sc_delivery_targets cmd)))))))).

Definition calculate_submission_fingerprint (cmd : MessageSubmissionCommand) : string :=
  sha256_hex (canonical_payload cmd).

End fingerprint.

(** ** Idempotency records *)

Inductive SubmissionStatus := Processing | Committed | Failed.

#[export] Instance SubmissionStatus_eq_dec : EqDecision SubmissionStatus.
Proof. solve_decision. Defined.

Definition submission_status_to_string (s : SubmissionStatus) : string :=
  match s with Processing => "PROCESSING" | Committed => "COMMITTED" | Failed => "FAILED" end.

Definition submission_status_from_string (s : string) : option SubmissionStatus :=
  if String.eqb s "PROCESSING" then Some Processing
  else if String.eqb s "COMMITTED" then Some Committed
  else if String.eqb s "FAILED" then Some Failed
  else None.

Record IdempotencyRecord := mkIdem {
  ir_sender_device_id : DeviceId;
  ir_idempotency_key : string;
  ir_message_id : MessageId;
  ir_conversation_id : ConversationId;
  ir_message_sequence : Z;
  ir_submission_status : SubmissionStatus;
  ir_created_at : Z;
  ir_request_fingerprint : string;
}.

Definition idem_columns (r : IdempotencyRecord) : list (string * ScyllaValue) :=
  [ ("message_id", VString (MessageId_to_string (ir_message_id r)));
    ("conversation_id", VString (ConversationId_to_string (ir_conversation_id r)));
    ("message_sequence", VInt64 (i64 (ir_message_sequence r)));
    ("submission_status", VString (submission_status_to_string (ir_submission_status r)));
    ("created_at", VInt64 (to_ms (ir_created_at r)));
    ("request_fingerprint", VString (ir_request_fingerprint r)) ].

Definition idem_select : list string :=
  ["sender_device_id"; "idempotency_key"; "message_id"; "conversation_id"; "message_sequence"; "submission_status";
   "created_at"; "request_fingerprint"].

Definition row_to_idempotency_record (row : ScyllaRow) : result exn IdempotencyRecord :=
  let? sender_device_id := get_string row "sender_device_id" in
  let? idempotency_key := get_string row "idempotency_key" in
  let? message_id := get_string row "message_id" in
  let? conversation_id := get_string row "conversation_id" in
  let? message_sequence := get_int64 row "message_sequence" in
  let? submission_status := get_string row "submission_status" in
  let? created_at := get_timestamp row "created_at" in
  let? request_fingerprint := optional_column row "request_fingerprint" get_string in
  Ok {| ir_sender_device_id := mkDeviceId sender_device_id; ir_idempotency_key := idempotency_key;
        ir_message_id := default nil_message_id (MessageId_from_string message_id);
        ir_conversation_id := default nil_conversation_id (ConversationId_from_string conversation_id);
        ir_message_sequence := u64 message_sequence;
        ir_submission_status := default Processing (submission_status_from_string submission_status);
        ir_created_at := from_ms created_at;
        ir_request_fingerprint := default EmptyString request_fingerprint |}.

Section idempotency_repository.
Context {T : Type} `{!CqlTable T string string}.
Implicit Type t : T.

Definition find_submission (sender_device_id : DeviceId) (idempotency_key : string) t
    : result exn (option IdempotencyRecord) :=
  let p := device_str sender_device_id in
  match cells p idempotency_key t with
  | None => Ok None
  | Some r =>
      let? record := row_to_idempotency_record
        (select idem_select (mk_cells [("sender_device_id", VString p); ("idempotency_key", VString idempotency_key)] ∪ r)) in
      Ok (Some record)
  end.

Definition save_submission (r : IdempotencyRecord) t : T :=
  upsert (device_str (ir_sender_device_id r)) (ir_idempotency_key r) (mk_cells (idem_columns r)) t.

End idempotency_repository.

(** ** The guard *)

Inductive IdempotencyAction := ProceedNew | ReturnCached (cached_record : IdempotencyRecord) | RejectConflict | IdemRetryWait.

Definition evaluate_record (cmd : MessageSubmissionCommand) (request_fingerprint : string)
    (opt_record : option IdempotencyRecord) : IdempotencyAction :=
  match opt_record with
  | None => ProceedNew
  | Some record =>
      if negb (bool_decide (ir_conversation_id record = sc_conversation_id cmd)) then RejectConflict
      else if negb (bool_decide (ir_request_fingerprint record = EmptyString))
              && negb (bool_decide (ir_request_fingerprint record = request_fingerprint))
      then RejectConflict
      else
        match ir_submission_status record with
        | Committed => ReturnCached record
        | Processing => IdemRetryWait
        | Failed => ProceedNew
        end
  end.

Definition processing_record (cmd : MessageSubmissionCommand) (fingerprint : string) (message_id : MessageId) (now : Z)
    : IdempotencyRecord :=
  mkIdem (sc_sender_device_id cmd) (sc_client_idempotency_token cmd) message_id (sc_conversation_id cmd) 0
    Processing now fingerprint.

Definition committed_record (cmd : MessageSubmissionCommand) (fingerprint : string) (message_id : MessageId)
    (sequence accepted_at : Z) : IdempotencyRecord :=
  mkIdem (sc_sender_device_id cmd) (sc_client_idempotency_token cmd) message_id (sc_conversation_id cmd) sequence
    Committed accepted_at fingerprint.

Definition failed_record (r : IdempotencyRecord) : IdempotencyRecord :=
  mkIdem (ir_sender_device_id r) (ir_idempotency_key r) (ir_message_id r) (ir_conversation_id r)
    (ir_message_sequence r) Failed (ir_created_at r) (ir_request_fingerprint r).

(** ** The service *)

(** Clocks and generated identifiers of one submission. *)
Record SubmissionInput := mkInput {
  in_validation_time : Z;
  in_message_id : MessageId;
  in_accepted_at : Z;
  in_processing_time : Z;
  in_event_id : MessageId;
}.

Section service.
Context {C M A T TI TP TS TO : Type}.
Context `{!ConversationRepository C, !MembershipRepository M}.
Context `{!CqlTable T MessagePartition MessageCluster, !SequenceAllocator A T}.
Context `{!CqlTable TI string string, !CqlTable TP PendingPartition PendingCluster, !CqlTable TS string string}.
Context `{!CqlTable TO string OutboxCluster}.
Context (sha256_hex : string -> string).
(** The envelope validator, when one is installed. *)
Context (envelope_check : option (MessageSubmissionCommand -> list UserId -> ServiceResult unit)).

Record SubmissionWorld := mkWorld {
  w_conversations : ConversationState C M;
  w_allocator : A;
  w_messages : T;
  w_idempotency : TI;
  w_delivery : DeliveryStateRepository TP TS;
  w_outbox : TO;
}.
Implicit Type w : SubmissionWorld.

Definition set_allocator (a : A) w :=
  mkWorld (w_conversations w) a (w_messages w) (w_idempotency w) (w_delivery w) (w_outbox w).
Definition on_messages (f : T -> T) w :=
  mkWorld (w_conversations w) (w_allocator w) (f (w_messages w)) (w_idempotency w) (w_delivery w) (w_outbox w).
Definition on_idempotency (f : TI -> TI) w :=
  mkWorld (w_conversations w) (w_allocator w) (w_messages w) (f (w_idempotency w)) (w_delivery w) (w_outbox w).
Definition on_delivery (f : DeliveryStateRepository TP TS -> DeliveryStateRepository TP TS) w :=
  mkWorld (w_conversations w) (w_allocator w) (w_messages w) (w_idempotency w) (f (w_delivery w)) (w_outbox w).
Definition on_outbox (f : TO -> TO) w :=
  mkWorld (w_conversations w) (w_allocator w) (w_messages w) (w_idempotency w) (w_delivery w) (f (w_outbox w)).

(** A computation that may throw, and keeps what it did before.  The plan is the
    outcome of each call to the database in turn; calls beyond its end answer. *)
Definition Eff (X : Type) : Type :=
  SubmissionWorld -> list CallOutcome -> result exn X * SubmissionWorld * list CallOutcome.

Definition ret {X} (x : X) : Eff X := fun w plan => (Ok x, w, plan).
Definition eff_bind {X Y} (m : Eff X) (k : X -> Eff Y) : Eff Y := fun w plan =>
  match m w plan with
  | (Ok x, w', plan') => k x w' plan'
  | (Err e, w', plan') => (Err e, w', plan')
  end.
Definition lift {X} (r : result exn X) : Eff X := fun w plan => (r, w, plan).

Local Notation "'let!' x ':=' m 'in' k" := (eff_bind m (fun x => k))
  (at level 10, x pattern, m at level 100, k at level 200).

Definition next_outcome (plan : list CallOutcome) : CallOutcome := default Answers (head plan).

Definition write (f : SubmissionWorld -> SubmissionWorld) : Eff unit := fun w plan =>
  match next_outcome plan with
  | Answers => (Ok tt, f w, tail plan)
  | FailsBefore => (Err runtime_error, w, tail plan)
  | FailsAfter => (Err runtime_error, f w, tail plan)
  end.

Definition read {X} (f : SubmissionWorld -> result exn X) : Eff X := fun w plan =>
  match next_outcome plan with
  | Answers => (f w, w, tail plan)
  | _ => (Err runtime_error, w, tail plan)
  end.

Fixpoint write_each {X} (f : X -> SubmissionWorld -> SubmissionWorld) (l : list X) : Eff unit :=
  match l with
  | [] => ret tt
  | x :: l => let! _ := write (f x) in write_each f l
  end.

Definition evaluate_submission (cmd : MessageSubmissionCommand) (fingerprint : string) : Eff IdempotencyAction :=
  let! record := read (fun w => find_submission (sc_sender_device_id cmd) (sc_client_idempotency_token cmd) (w_idempotency w)) in
  ret (evaluate_record cmd fingerprint record).

Definition mark_record (r : IdempotencyRecord) : Eff unit := write (on_idempotency (save_submission r)).

Definition mark_failed (device : DeviceId) (token : string) : Eff unit :=
  let! record := read (fun w => find_submission device token (w_idempotency w)) in
  match record with
  | Some r => mark_record (failed_record r)
  | None => ret tt
  end.

(** The allocation reads the store when it has no counter for the key. *)
Definition allocate (c : ConversationId) (b : MessageBucket) : Eff Z :=
  let! r := read (fun w => allocate_sequence c b (w_messages w) (w_allocator w)) in
  fun w plan => (Ok r.1, set_allocator r.2 w, plan).

(** *** What is persisted *)

Definition front_ciphertext (cmd : MessageSubmissionCommand) : string :=
  match sc_delivery_targets cmd with t :: _ => tg_ciphertext_blob t | [] => EmptyString end.

Definition message_of (cmd : MessageSubmissionCommand) (i : SubmissionInput) (b : MessageBucket) (sequence : Z)
    : MessageEntity :=
  {| me_conversation_id := sc_conversation_id cmd; me_message_bucket := b; me_message_sequence := sequence;
     me_message_id := in_message_id i; me_sender_user_id := sc_caller_user_id cmd;
     me_sender_device_id := sc_sender_device_id cmd; me_priority := sc_priority cmd;
     me_accepted_at := in_accepted_at i;
     me_envelope := mkCiphertext (front_ciphertext cmd) (protocol_version_to_int (sc_protocol_version cmd));
     me_file_reference_ids := [] |}.

Definition pending_of (cmd : MessageSubmissionCommand) (i : SubmissionInput) (b : MessageBucket) (sequence : Z)
    (t : DeviceDeliveryTarget) : DeviceDeliveryRecord :=
  {| dr_device_id := tg_recipient_device_id t; dr_delivery_bucket := bucket_value b;
     dr_accepted_at := in_accepted_at i; dr_message_id := in_message_id i;
     dr_conversation_id := sc_conversation_id cmd; dr_message_sequence := sequence;
     dr_message_priority := sc_priority cmd; dr_delivery_state := Queued; dr_attempt_count := 0;
     dr_next_retry_at := None; dr_ciphertext_blob := tg_ciphertext_blob t;
     dr_ephemeral_public_key := tg_ephemeral_public_key t; dr_iv := tg_iv t; dr_auth_tag := tg_auth_tag t;
     dr_algorithm := default XChaCha20_Poly1305 (e2e_algorithm_from_string (tg_algorithm t));
     dr_protocol_version := tg_protocol_version t; dr_one_time_prekey_id := tg_one_time_prekey_id t |}.

Definition state_of (i : SubmissionInput) (t : DeviceDeliveryTarget) : RecipientDeliveryState :=
  mkRecipientState (in_message_id i) (tg_recipient_device_id t) (tg_recipient_user_id t) Queued None None.

Definition event_of (cmd : MessageSubmissionCommand) (i : SubmissionInput) (sequence : Z) : OutboxEvent :=
  mkOutboxEvent (MessageId_to_string (in_event_id i)) (sc_conversation_id cmd) MessageSent
    (String.append "{" (String.append (json_field "message_id" (MessageId_to_string (in_message_id i)))
      (String.append "," (String.append (quote "sequence") (String.append ":" (String.append (decimal sequence)
        (String.append "," (String.append (json_field "sender_user_id" (user_str (sc_caller_user_id cmd)))
          (String.append "," (String.append (json_field "sender_device_id" (device_str (sc_sender_device_id cmd)))
            (String.append "," (String.append (quote "recipient_device_count")
              (String.append ":" (String.append (decimal (Z.of_nat (length (sc_delivery_targets cmd)))) "}"))))))))))))))
    (in_accepted_at i).

(** The body of the [try]. *)
Definition persist (cmd : MessageSubmissionCommand) (fingerprint : string) (i : SubmissionInput)
    : Eff (ServiceResult MessageSubmissionResponse) :=
  let! b := lift (from_time_point (in_accepted_at i)) in
  let! sequence := allocate (sc_conversation_id cmd) b in
  let! _ := write (on_messages (save_message (message_of cmd i b sequence))) in
  let! _ := write_each (fun t => on_delivery (save_pending_one (pending_of cmd i b sequence t))) (sc_delivery_targets cmd) in
  let! _ := write_each (fun t => on_delivery (save_state_one (state_of i t))) (sc_delivery_targets cmd) in
  let! _ := write (on_outbox (fun t => default t (enqueue_event (event_of cmd i sequence) EmptyString t))) in
  let! _ := mark_record (committed_record cmd fingerprint (in_message_id i) sequence (in_accepted_at i)) in
  ret (Ok (mkSubmissionResponse (in_message_id i) (sc_conversation_id cmd) sequence (in_accepted_at i)
             DELIVERY_STATE_QUEUED false)).

(** The [catch]: what was done stays done, and the record is marked failed. *)
Definition try_persist (cmd : MessageSubmissionCommand) (fingerprint : string) (i : SubmissionInput)
    : Eff (ServiceResult MessageSubmissionResponse) := fun w plan =>
  match persist cmd fingerprint i w plan with
  | (Ok r, w', plan') => (Ok r, w', plan')
  | (Err _, w', plan') =>
      (let! _ := mark_failed (sc_sender_device_id cmd) (sc_client_idempotency_token cmd) in ret (Err UNSPECIFIED))
        w' plan'
  end.

(** The bounded wait for a submission in flight; [others] is what the other threads
    do while this one sleeps. *)
Fixpoint wait_loop (others : nat -> SubmissionWorld -> SubmissionWorld) (retries : nat)
    (cmd : MessageSubmissionCommand) (fingerprint : string) : Eff IdempotencyAction :=
  match retries with
  | O => ret IdemRetryWait
  | S retries =>
      let! _ := (fun w plan => (Ok tt, others retries w, plan)) in
      let! action := evaluate_submission cmd fingerprint in
      match action with
      | IdemRetryWait => wait_loop others retries cmd fingerprint
      | _ => ret action
      end
  end.

(** The users the envelopes must cover. *)
Definition participants_of (cmd : MessageSubmissionCommand) w : list UserId :=
  match pt_user_id <$> list_active_participants (sc_conversation_id cmd) (membership_repo (w_conversations w)) with
  | [] => foldl (fun l t => if bool_decide (tg_recipient_user_id t ∈ l) then l else l ++ [tg_recipient_user_id t])
            [sc_caller_user_id cmd] (sc_delivery_targets cmd)
  | l => l
  end.

(** The checks before the idempotency evaluation. *)
Definition check_submission (cmd : MessageSubmissionCommand) (i : SubmissionInput) w : ServiceResult unit :=
  let? _ := validate (in_validation_time i) cmd in
  let? _ := can_send_message (sc_caller_user_id cmd) (sc_conversation_id cmd) (w_conversations w) in
  match envelope_check with
  | None => Ok tt
  | Some check => check cmd (participants_of cmd w)
  end.

Definition submit_message (others : nat -> SubmissionWorld -> SubmissionWorld) (cmd : MessageSubmissionCommand)
    (i : SubmissionInput) : Eff (ServiceResult MessageSubmissionResponse) := fun w plan =>
  match check_submission cmd i w with
  | Err e => (Ok (Err e), w, plan)
  | Ok _ =>
      let fingerprint := calculate_submission_fingerprint sha256_hex cmd in
      (let! action0 := evaluate_submission cmd fingerprint in
       let! action := (match action0 with IdemRetryWait => wait_loop others 20 cmd fingerprint | _ => ret action0 end) in
       match action with
       | ReturnCached r =>
           ret (Ok (mkSubmissionResponse (ir_message_id r) (ir_conversation_id r) (ir_message_sequence r)
                      (ir_created_at r) DELIVERY_STATE_QUEUED true))
       | RejectConflict => ret (Err IDEMPOTENCY_CONFLICT)
       | IdemRetryWait => ret (Err QUEUE_CAPACITY_EXCEEDED)
       | ProceedNew =>
           let! _ := mark_record (processing_record cmd fingerprint (in_message_id i) (in_processing_time i)) in
           try_persist cmd fingerprint i
       end) w plan
  end.

End service.
