(* ===== verification/ConversationInv.v ===== *)
(** * Invariants of the conversation service

    [reachable] holds of the states the service reaches when its operations, by any
    callers, run one after the other and identifiers of new conversations are fresh.  The
    invariant [conv_ok] is proved by rule induction.

    The service takes no lock, so operations may also overlap, repository call by
    repository call.  Direct conversations keep their participants then, too
    ([direct_conversations_undisturbed]); the invariant of groups does not survive
    ([leave_races_add], [rename_reopens_group]). *)

From S2P Require Import Prelude Ids Prog DeliveryTypes Conversation ConversationService.

Section invariant.
Context {C M : Type} `{!ConversationRepository C, !MembershipRepository M}.
#[local] Abbreviation state := (ConversationState C M).
Implicit Type s : state.

(** ** Views of the state *)

Definition conv s (c : ConversationId) : option ConversationEntity := find_conversation_by_id c (conversation_repo s).
Definition meta s (c : ConversationId) : option GroupMetadata := find_group_metadata c (conversation_repo s).
Definition part s (c : ConversationId) (u : UserId) : option Participant := find_participant c u (membership_repo s).
Definition direct s (p : DirectPair) : option ConversationId := find_direct_conversation p (conversation_repo s).

Definition is_active s c u : Prop := exists p, part s c u = Some p /\ pt_status p = Active.
Definition is_active_admin s c u : Prop :=
  exists p, part s c u = Some p /\ pt_status p = Active /\ pt_role p = Admin.

(** ** The step relation *)

Inductive ConvOp :=
| OpCreateDirect (caller recipient : UserId) (id : ConversationId) (now : Z) (st : Stamp)
| OpCreateGroup (caller : UserId) (title : string) (initial : list UserId) (id : ConversationId) (now : Z) (st : Stamp)
| OpAdd (caller : UserId) (id : ConversationId) (target : UserId) (now : Z) (st : Stamp)
| OpRemove (caller : UserId) (id : ConversationId) (target : UserId) (now : Z) (st : Stamp)
| OpLeave (caller : UserId) (id : ConversationId) (now : Z) (st st' : Stamp)
| OpUpdateMetadata (caller : UserId) (id : ConversationId) (title : string) (now : Z) (st : Stamp).

Inductive ConvReply :=
| Created (r : result exn (ServiceResult ConversationEntity))
| Changed (r : ServiceResult unit)
| Updated (r : ServiceResult GroupMetadata).

(** The repository calls of an operation. *)
Definition conv_calls (op : ConvOp) : prog state ConvReply :=
  match op with
  | OpCreateDirect caller recipient id now st => let* r := create_direct_calls caller recipient id now st in Ret (Created r)
  | OpCreateGroup caller title initial id now st => let* r := create_group_calls caller title initial id now st in Ret (Created (Ok r))
  | OpAdd caller id target now st => let* r := add_participant_calls caller id target now st in Ret (Changed r)
  | OpRemove caller id target now st => let* r := remove_participant_calls caller id target now st in Ret (Changed r)
  | OpLeave caller id now st st' => let* r := leave_conversation_calls caller id now st st' in Ret (Changed r)
  | OpUpdateMetadata caller id title now st => let* r := update_metadata_calls caller id title now st in Ret (Updated r)
  end.

(** The state an operation leaves when nothing overlaps with it. *)
Definition conv_step (op : ConvOp) s : state :=
  match op with
  | OpCreateDirect caller recipient id now st =>
      match create_direct_conversation caller recipient id now st s with Ok r => r.2 | Err _ => s end
  | OpCreateGroup caller title initial id now st => (create_group_conversation caller title initial id now st s).2
  | OpAdd caller id target now st => (add_participant caller id target now st s).2
  | OpRemove caller id target now st => (remove_participant caller id target now st s).2
  | OpLeave caller id now st st' => (leave_conversation caller id now st st' s).2
  | OpUpdateMetadata caller id title now st => (update_group_metadata caller id title now st s).2
  end.

Definition op_id (op : ConvOp) : ConversationId :=
  match op with
  | OpCreateDirect _ _ id _ _ | OpCreateGroup _ _ _ id _ _ | OpAdd _ id _ _ _
  | OpRemove _ id _ _ _ | OpLeave _ id _ _ _ | OpUpdateMetadata _ id _ _ _ => id
  end.

Lemma solo_conv_calls op s : snd (solo (conv_calls op) s) = conv_step op s.
Proof.
  destruct op as [u v c now st|u title initial c now st|u c t now st|u c t now st|u c now st st'|u c title now st]; cbn [conv_calls conv_step]; rewrite solo_bind.
  - rewrite solo_create_direct. by destruct (create_direct_conversation u v c now st s) as [[]|].
  - rewrite solo_create_group. by destruct (create_group_conversation u title initial c now st s).
  - rewrite solo_add_participant. by destruct (add_participant u c t now st s).
  - rewrite solo_remove_participant. by destruct (remove_participant u c t now st s).
  - rewrite solo_leave_conversation. by destruct (leave_conversation u c now st st' s).
  - rewrite solo_update_metadata. by destruct (update_group_metadata u c title now st s).
Qed.

(** A generated identifier is not in use. *)
Definition op_fresh (op : ConvOp) s : Prop :=
  match op with
  | OpCreateDirect _ _ id _ _ | OpCreateGroup _ _ _ id _ _ => conv s id = None
  | _ => True
  end.

Definition empty_state s : Prop :=
  (forall c, conv s c = None) /\ (forall c, meta s c = None) /\ (forall c u, part s c u = None) /\
  (forall p, direct s p = None).

Inductive reachable : state -> Prop :=
| reachable_init s : empty_state s -> reachable s
| reachable_step s op : reachable s -> op_fresh op s -> reachable (snd (solo (conv_calls op) s)).

Lemma reachable_conv_step s op : reachable s -> op_fresh op s -> reachable (conv_step op s).
Proof. intros Hs Hf. rewrite <- solo_conv_calls. by constructor. Qed.

(** ** The invariant *)

(** Participants are stored under their own key. *)
Definition keyed s c : Prop :=
  forall u p, part s c u = Some p -> pt_conversation_id p = c /\ pt_user_id p = u.

(** A group with an active participant has an active admin; a closed group has no
    active participant. *)
Definition group_ok s c : Prop :=
  ((exists u, is_active s c u) -> exists u, is_active_admin s c u) /\
  (group_closed c s = true -> forall u, ~ is_active s c u).

(** A direct conversation has two participants, both active. *)
Definition direct_ok s c : Prop :=
  exists a b, a <> b /\ is_active s c a /\ is_active s c b /\
    forall u p, part s c u = Some p -> u = a \/ u = b.

Definition conv_ok s c : Prop :=
  keyed s c /\
  match conv s c with
  | None => (forall u, part s c u = None) /\ meta s c = None
  | Some cv =>
      cv_conversation_id cv = c /\
      match cv_type cv with
      | Group => group_ok s c /\ (forall gm, meta s c = Some gm -> gm_conversation_id gm = c)
      | Direct => direct_ok s c /\ meta s c = None
      end
  end.

(** The index of direct conversations points to direct conversations of the pair. *)
Definition index_ok s : Prop :=
  forall dp id, direct s dp = Some id ->
    exists cv, conv s id = Some cv /\ cv_type cv = Direct /\
               is_active s id (user_a dp) /\ is_active s id (user_b dp).

Definition service_inv s : Prop := (forall c, conv_ok s c) /\ index_ok s.

(** ** Framing: an operation touches one conversation *)

Definition same_conv s s' c : Prop :=
  conv s' c = conv s c /\ meta s' c = meta s c /\ forall u, part s' c u = part s c u.

Lemma same_conv_refl s c : same_conv s s c.
Proof. by repeat split. Qed.

Lemma is_active_same s s' c u : same_conv s s' c -> is_active s' c u <-> is_active s c u.
Proof. intros (_ & _ & Hp). unfold is_active. by rewrite Hp. Qed.

Lemma is_active_admin_same s s' c u : same_conv s s' c -> is_active_admin s' c u <-> is_active_admin s c u.
Proof. intros (_ & _ & Hp). unfold is_active_admin. by rewrite Hp. Qed.

Lemma group_closed_meta s c :
  group_closed c s = match meta s c with Some gm => bool_decide (gm_status gm = GroupClosed) | None => false end.
Proof. done. Qed.

Lemma conv_ok_same s s' c : same_conv s s' c -> conv_ok s c -> conv_ok s' c.
Proof.
  intros Hsame. pose proof Hsame as (Hc & Hm & Hp). intros (Hk & Hok). split.
  { intros u p. rewrite Hp. apply Hk. }
  rewrite Hc. destruct (conv s c) as [cv|].
  - split; [apply Hok|]. destruct Hok as [_ Hok]. destruct (cv_type cv).
    + destruct Hok as [(a & b & Hne & Ha & Hb & Honly) Hmeta]. rewrite Hm. split; [|done].
      exists a, b. rewrite !(is_active_same s s') by done. split_and!; try done.
      intros u p. rewrite Hp. apply Honly.
    + destruct Hok as [[Hadm Hcl] Hmeta]. rewrite Hm. split; [|done]. split.
      * intros [u Hu]. rewrite (is_active_same s s') in Hu by done.
        destruct Hadm as [v Hv]; [by exists u|]. exists v. by rewrite (is_active_admin_same s s').
      * rewrite group_closed_meta, Hm, <- group_closed_meta. intros Hclosed u.
        rewrite (is_active_same s s') by done. by apply Hcl.
  - destruct Hok as [Hnone Hmeta]. rewrite Hm. split; [|done]. intros u. by rewrite Hp.
Qed.

(** ** Rewriting with the repository laws *)

Ltac repo_simpl :=
  repeat first
    [ rewrite find_touch | rewrite find_add_participant | rewrite find_update_participant
    | rewrite find_save_conversation | rewrite find_save_direct | rewrite find_save_metadata
    | rewrite conversation_save_direct | rewrite conversation_save_metadata
    | rewrite direct_save_conversation | rewrite direct_save_metadata
    | rewrite metadata_save_conversation | rewrite metadata_save_direct
    | progress cbn [membership_repo conversation_repo set_memberships set_conversations record_outbox_event
                    enroll pt_conversation_id pt_user_id cv_conversation_id gm_conversation_id with_status
                    close_group fst snd] ].

Lemma part_enroll s c t r now v c' u :
  part (enroll c t r now v s) c' u
  = if decide ((c, v) = (c', u)) then Some (mkParticipant c v r Active now None 1) else part s c' u.
Proof. unfold part. repo_simpl. done. Qed.

Lemma conv_enroll s c t r now v c' : conv (enroll c t r now v s) c' = conv s c'.
Proof. done. Qed.
Lemma meta_enroll s c t r now v c' : meta (enroll c t r now v s) c' = meta s c'.
Proof. done. Qed.
Lemma direct_enroll s c t r now v p : direct (enroll c t r now v s) p = direct s p.
Proof. done. Qed.

(** Enrolling the initial members adds active members that are not in [added]. *)
Lemma enroll_members_spec c now added users s :
  let s' := enroll_members c now added users s in
  conversation_repo s' = conversation_repo s /\
  (forall c' u, c' <> c -> part s' c' u = part s c' u) /\
  (forall u, user_str u ∈ added -> part s' c u = part s c u) /\
  (forall u, part s' c u = part s c u \/ part s' c u = Some (mkParticipant c u Member Active now None 1)).
Proof.
  cbn zeta. revert added s. induction users as [|v users IH]; intros added s; cbn [enroll_members].
  { split_and!; auto. }
  case_bool_decide as Hin; [apply IH|].
  destruct (IH ({[ user_str v ]} ∪ added) (enroll c Group Member now v s)) as (H1 & H2 & H3 & H4).
  split_and!; [done|..].
  - intros c' u Hne. rewrite H2, part_enroll by done. rewrite decide_False by congruence. done.
  - intros u Hu. rewrite H3 by set_solver. rewrite part_enroll, decide_False; [done|]. intros [= ->]. done.
  - intros u. destruct (H4 u) as [Heq|Hmem]; [|by right]. rewrite Heq, part_enroll.
    case_decide as Hd; [|by left]. injection Hd as ->. by right.
Qed.

(** ** What authorization establishes *)

Lemma active_participant_spec s u c p :
  active_participant u c s = Some p <-> part s c u = Some p /\ pt_status p = Active.
Proof.
  unfold active_participant. fold (part s c u). destruct (part s c u) as [q|]; [|naive_solver].
  case_bool_decide; naive_solver.
Qed.

Lemma can_administer_ok s u c :
  can_administer u c s = Ok tt ->
  (exists cv, conv s c = Some cv /\ cv_type cv = Group) /\ group_closed c s = false /\ is_active_admin s c u.
Proof.
  unfold can_administer. fold (conv s c). destruct (conv s c) as [cv|]; [|done].
  case_bool_decide as Ht; [done|]. destruct (group_closed c s); [done|].
  destruct (active_participant u c s) as [p|] eqn:Hp; [|done].
  apply active_participant_spec in Hp as [Hp Ha]. case_bool_decide as Hr; [|done]. intros _.
  split_and!; [exists cv; by destruct (cv_type cv)|done|by exists p].
Qed.

Lemma can_leave_ok s u c :
  can_leave_conversation u c s = Ok tt ->
  (exists cv, conv s c = Some cv /\ cv_type cv = Group) /\
  exists p, part s c u = Some p /\ pt_status p = Active /\
    (pt_role p = Admin ->
     let l := list_active_participants c (membership_repo s) in
     other_admins u l = 0%nat -> other_members u l = 0%nat).
Proof.
  unfold can_leave_conversation. fold (conv s c). destruct (conv s c) as [cv|]; [|done].
  case_bool_decide as Ht; [done|].
  destruct (active_participant u c s) as [p|] eqn:Hp; [|done].
  apply active_participant_spec in Hp as [Hp Ha]. intros Hok.
  split; [exists cv; by destruct (cv_type cv)|]. exists p. split_and!; [done..|].
  intros Hr. cbn zeta. intros H0. rewrite (bool_decide_eq_true_2 _ Hr), H0 in Hok.
  cbn [Nat.eqb andb] in Hok. destruct (Nat.ltb_spec 0 (other_members u (list_active_participants c (membership_repo s))));
    [done|lia].
Qed.

Lemma can_remove_ok s u c t :
  can_remove_participant u c t s = Ok tt ->
  (exists cv, conv s c = Some cv /\ cv_type cv = Group) /\ group_closed c s = false /\
  (u = t -> can_leave_conversation u c s = Ok tt) /\
  (u <> t -> is_active_admin s c u /\ is_active s c t).
Proof.
  unfold can_remove_participant. fold (conv s c). destruct (conv s c) as [cv|]; [|done].
  case_bool_decide as Ht; [done|]. destruct (group_closed c s); [done|].
  assert (exists cv', Some cv = Some cv' /\ cv_type cv' = Group) as Hg by (exists cv; by destruct (cv_type cv)).
  case_bool_decide as Hu; [done|].
  destruct (active_participant u c s) as [p|] eqn:Hp; [|done].
  apply active_participant_spec in Hp as [Hp Ha]. case_bool_decide as Hr; [cbn|done].
  destruct (active_participant t c s) as [q|] eqn:Hq; [|done].
  apply active_participant_spec in Hq as [Hq Haq]. intros _. split_and!; try done.
  intros _. split; [by exists p|by exists q].
Qed.

(** ** Deactivating a participant keeps an admin *)

Lemma other_admins_pos u l : other_admins u l <> 0%nat -> exists p, p ∈ l /\ pt_user_id p <> u /\ pt_role p = Admin.
Proof.
  unfold other_admins. intros Hne.
  destruct (filter (fun p => pt_user_id p <> u /\ pt_role p = Admin) l) as [|p l'] eqn:Hf; [done|].
  assert (p ∈ filter (fun p => pt_user_id p <> u /\ pt_role p = Admin) l) as Hin by (rewrite Hf; left).
  apply list_elem_of_filter in Hin as [[? ?] ?]. by exists p.
Qed.

Lemma other_members_pos u l p : p ∈ l -> pt_user_id p <> u -> pt_role p <> Admin -> other_members u l <> 0%nat.
Proof.
  intros Hin Hu Hr Hlen. unfold other_members in Hlen. apply length_zero_iff_nil in Hlen.
  assert (p ∈ filter (fun p => pt_user_id p <> u /\ pt_role p <> Admin) l) as Hf by (by apply list_elem_of_filter).
  rewrite Hlen in Hf. by apply not_elem_of_nil in Hf.
Qed.

Lemma leave_keeps_admin s c u v :
  keyed s c -> group_ok s c -> can_leave_conversation u c s = Ok tt ->
  is_active s c v -> v <> u -> exists w, w <> u /\ is_active_admin s c w.
Proof.
  intros Hk [Hadm _] Hok (q & Hq & Hqa) Hne.
  apply can_leave_ok in Hok as (_ & p & Hp & Hpa & Hrole). cbn zeta in Hrole.
  assert (Hqin : q ∈ list_active_participants c (membership_repo s)).
  { apply elem_of_list_active. by exists v. }
  destruct (Hk v q Hq) as [_ Hqu].
  destruct (decide (pt_role p = Admin)) as [Hr|Hr].
  - destruct (decide (pt_role q = Admin)) as [Hqr|Hqr].
    { exists v. split; [done|]. by exists q. }
    destruct (decide (other_admins u (list_active_participants c (membership_repo s)) = 0%nat)) as [H0|H0].
    { exfalso. apply (other_members_pos u _ q Hqin); [congruence|done|]. by apply Hrole. }
    apply other_admins_pos in H0 as (w & Hw & Hwu & Hwr).
    apply elem_of_list_active in Hw as (wu & Hwf & Hwa). destruct (Hk wu w Hwf) as [_ <-].
    exists (pt_user_id w). split; [done|]. by exists w.
  - destruct Hadm as (w & pw & Hw & Hwa & Hwr); [exists v; by exists q|].
    exists w. split; [|by exists pw]. intros ->. congruence.
Qed.

(** ** Effects of the operations *)

(** One participant entity is replaced, conversations and the index are kept. *)
Definition replaces s s' c u (p' : Participant) : Prop :=
  (forall c', conv s' c' = conv s c') /\ (forall dp, direct s' dp = direct s dp) /\
  (forall c' u', part s' c' u' = if decide ((c, u) = (c', u')) then Some p' else part s c' u') /\
  pt_conversation_id p' = c /\ pt_user_id p' = u.

Lemma add_effect s u c t now st :
  keyed s c ->
  let s' := (add_participant u c t now st s).2 in
  s' = s \/
  (can_administer u c s = Ok tt /\ ~ is_active s c t /\ (forall c', meta s' c' = meta s c') /\
   exists p', replaces s s' c t p' /\ pt_status p' = Active).
Proof.
  intros Hk. cbn zeta. unfold add_participant, can_add_participant.
  destruct (can_administer u c s) as [[]|e] eqn:Hok; [|by left]. fold (part s c t).
  destruct (part s c t) as [q|] eqn:Hq.
  - destruct (Hk t q Hq) as [Hqc Hqt]. case_bool_decide as Ha; [by left|]. right.
    split; [done|]. split; [intros (q' & Hq' & ?); congruence|]. split; [done|].
    exists (with_status Active now None q). split; [|done].
    unfold replaces, part. repo_simpl. split_and!; try done. intros c' u'. repo_simpl. by rewrite Hqc, Hqt.
  - right. split; [done|]. split; [intros (q' & Hq' & ?); congruence|]. split; [done|].
    exists (mkParticipant c t Member Active now None 1). split; [|done].
    unfold replaces, part. repo_simpl. split_and!; try done. intros c' u'. by repo_simpl.
Qed.

Lemma remove_effect s u c t now st :
  keyed s c ->
  let s' := (remove_participant u c t now st s).2 in
  s' = s \/
  (can_remove_participant u c t s = Ok tt /\ (forall c', meta s' c' = meta s c') /\
   exists p', replaces s s' c t p' /\ pt_status p' <> Active).
Proof.
  intros Hk. cbn zeta. unfold remove_participant.
  destruct (can_remove_participant u c t s) as [[]|e] eqn:Hok; [|by left]. fold (part s c t).
  destruct (part s c t) as [q|] eqn:Hq; [|by left]. destruct (Hk t q Hq) as [Hqc Hqt]. right.
  split; [done|]. split; [done|].
  exists (with_status Removed (pt_joined_at q) (Some now) q). split; [|done].
  unfold replaces, part. repo_simpl. split_and!; try done. intros c' u'. repo_simpl. by rewrite Hqc, Hqt.
Qed.

Lemma leave_effect s u c now st st' :
  keyed s c ->
  let s' := (leave_conversation u c now st st' s).2 in
  s' = s \/
  (can_leave_conversation u c s = Ok tt /\
   (exists p', replaces s s' c u p' /\ pt_status p' <> Active) /\
   ((forall c', meta s' c' = meta s c') \/
    ((forall v, ~ is_active s' c v) /\
     exists gm, meta s c = Some gm /\
       forall c', meta s' c' = if decide (gm_conversation_id gm = c') then Some (close_group gm now) else meta s c'))).
Proof.
  intros Hk. cbn zeta. unfold leave_conversation.
  destruct (can_leave_conversation u c s) as [[]|e] eqn:Hok; [|by left]. fold (part s c u).
  destruct (part s c u) as [q|] eqn:Hq; [|by left]. destruct (Hk u q Hq) as [Hqc Hqt]. right.
  split; [done|]. case_bool_decide as Hnil.
  - destruct (find_group_metadata _ _) as [gm|] eqn:Hgm.
    + split.
      { exists (with_status Left (pt_joined_at q) (Some now) q). split; [|done].
        unfold replaces, part, conv, direct. cbn [snd]. repo_simpl.
        split_and!; try done; intros; repo_simpl; try done. by rewrite Hqc, Hqt. }
      right. split.
      { intros v (p & Hp & Ha). cbn in Hnil.
        assert (p ∈ []) as Hin; [rewrite <- Hnil; apply elem_of_list_active; by exists v|].
        by apply not_elem_of_nil in Hin. }
      exists gm. split; [exact Hgm|]. intros c'. unfold meta. cbn [snd]. by repo_simpl.
    + split; [|by left]. exists (with_status Left (pt_joined_at q) (Some now) q). split; [|done].
      unfold replaces, part. cbn [snd]. repo_simpl. split_and!; try done.
      intros c' u'. repo_simpl. by rewrite Hqc, Hqt.
  - split; [|by left]. exists (with_status Left (pt_joined_at q) (Some now) q). split; [|done].
    unfold replaces, part. cbn [snd]. repo_simpl. split_and!; try done.
    intros c' u'. repo_simpl. by rewrite Hqc, Hqt.
Qed.

Lemma update_effect s u c title now st :
  (forall gm, meta s c = Some gm -> gm_conversation_id gm = c) ->
  let s' := (update_group_metadata u c title now st s).2 in
  s' = s \/
  (can_administer u c s = Ok tt /\ (forall c', conv s' c' = conv s c') /\
   (forall dp, direct s' dp = direct s dp) /\ (forall c' v, part s' c' v = part s c' v) /\
   exists gm gm', meta s c = Some gm /\ gm_status gm' = gm_status gm /\ gm_conversation_id gm' = c /\
     forall c', meta s' c' = if decide (c = c') then Some gm' else meta s c').
Proof.
  intros Hkey. cbn zeta. unfold update_group_metadata, can_update_metadata.
  destruct (title_length_ok title); cbn [negb]; [|by left].
  destruct (can_administer u c s) as [[]|e] eqn:Hok; [|by left].
  destruct (find_group_metadata c (conversation_repo s)) as [gm|] eqn:Hgm; [|by left].
  pose proof (Hkey gm Hgm) as Hid. right. split; [done|].
  unfold conv, direct, meta. cbn [snd]. split_and!; try (intros; by repo_simpl).
  exists gm, (mkGroupMetadata (gm_conversation_id gm) title (gm_status gm) (gm_created_at gm) now
               (u64 (gm_metadata_version gm + 1))).
  split; [done|]. split; [done|]. split; [exact Hid|].
  intros c'. repo_simpl. by rewrite Hid.
Qed.

(** ** Preservation *)

Lemma replaces_frame s s' c u p' c' :
  replaces s s' c u p' -> (forall c', c' <> c -> meta s' c' = meta s c') -> c' <> c -> same_conv s s' c'.
Proof.
  intros (Hc & _ & Hp & _) Hm Hne. split_and!; [apply Hc|by apply Hm|].
  intros v. by rewrite Hp, decide_False by congruence.
Qed.

Lemma replaces_active_other s s' c u p' v :
  replaces s s' c u p' -> v <> u -> is_active s' c v <-> is_active s c v.
Proof. intros (_ & _ & Hp & _) Hne. unfold is_active. by rewrite Hp, decide_False by congruence. Qed.

Lemma replaces_admin_other s s' c u p' v :
  replaces s s' c u p' -> v <> u -> is_active_admin s' c v <-> is_active_admin s c v.
Proof. intros (_ & _ & Hp & _) Hne. unfold is_active_admin. by rewrite Hp, decide_False by congruence. Qed.

Lemma replaces_part s s' c u p' : replaces s s' c u p' -> part s' c u = Some p'.
Proof. intros (_ & _ & Hp & _). by rewrite Hp, decide_True. Qed.

Lemma replaces_keyed s s' c u p' c' : replaces s s' c u p' -> keyed s c' -> keyed s' c'.
Proof.
  intros (_ & _ & Hp & Hpc & Hpu) Hk v q. rewrite Hp. case_decide as Hd; [|apply Hk].
  injection Hd as <- <-. by intros [= <-].
Qed.

(** A group stays well formed when one entity is replaced and group and index are
    kept, if some admin is left whenever somebody is. *)
Lemma replaces_conv_ok s s' c u p' :
  replaces s s' c u p' -> conv_ok s c -> (exists cv, conv s c = Some cv /\ cv_type cv = Group) ->
  (forall gm, meta s' c = Some gm -> gm_conversation_id gm = c) -> group_ok s' c -> conv_ok s' c.
Proof.
  intros Hrep (Hk & Hok) (cv & Hcv & Ht) Hmeta Hgrp. split; [by eapply replaces_keyed|].
  pose proof Hrep as (Hc & _). rewrite Hc. rewrite Hcv in *. rewrite Ht in *. by destruct Hok.
Qed.

Lemma conv_ok_group s c cv :
  conv_ok s c -> conv s c = Some cv -> cv_type cv = Group ->
  keyed s c /\ group_ok s c /\ (forall gm, meta s c = Some gm -> gm_conversation_id gm = c).
Proof. intros (Hk & Hok) Hcv Ht. rewrite Hcv, Ht in Hok. by destruct Hok as (_ & ? & ?). Qed.

(** Operations other than creation refuse direct conversations. *)
Lemma index_replaces s s' c u p' :
  service_inv s -> replaces s s' c u p' -> (exists cv, conv s c = Some cv /\ cv_type cv = Group) -> index_ok s'.
Proof.
  intros [_ Hidx] Hrep (cv & Hcv & Ht) dp id. pose proof Hrep as (Hc & Hd & _ & _). rewrite Hd. intros Hdp.
  destruct (Hidx dp id Hdp) as (cv' & Hcv' & Ht' & Ha & Hb).
  exists cv'. rewrite Hc. split; [done|]. split; [done|].
  assert (id <> c) by congruence. pose proof Hrep as (_ & _ & Hp & _).
  unfold is_active. rewrite !Hp, !decide_False by congruence. done.
Qed.

Lemma replaces_inv s s' c u p' :
  service_inv s -> replaces s s' c u p' -> (exists cv, conv s c = Some cv /\ cv_type cv = Group) ->
  (forall c', c' <> c -> meta s' c' = meta s c') ->
  (forall gm, meta s' c = Some gm -> gm_conversation_id gm = c) -> group_ok s' c -> service_inv s'.
Proof.
  intros Hinv Hrep Hg Hm Hmc Hok. split; [|by eapply index_replaces].
  intros c'. destruct (decide (c' = c)) as [->|Hne].
  - eapply replaces_conv_ok; [done|apply Hinv|done..].
  - eapply conv_ok_same; [by eapply replaces_frame|apply Hinv].
Qed.

Lemma add_inv s u c t now st : service_inv s -> service_inv (add_participant u c t now st s).2.
Proof.
  intros Hinv. destruct (add_effect s u c t now st) as [->|(Hok & Hna & Hm & p' & Hrep & Ha)];
    [apply Hinv|done|].
  apply can_administer_ok in Hok as ((cv & Hcv & Ht) & Hopen & Hadm).
  destruct (conv_ok_group s c cv) as (Hk & Hgrp & Hmk); [apply Hinv|done..|].
  eapply replaces_inv; [done..|by exists cv|auto|rewrite Hm; done|]. split.
  - intros _. exists u. rewrite replaces_admin_other; [done..|]. intros ->.
    apply Hna. destruct Hadm as (p & ? & ? & _). by exists p.
  - rewrite group_closed_meta, Hm, <- group_closed_meta, Hopen. done.
Qed.

(** The remaining admin after [u] was deactivated. *)
Lemma deactivate_group_ok s s' c u p' :
  keyed s c -> group_ok s c -> replaces s s' c u p' -> pt_status p' <> Active ->
  (forall v, is_active s c v -> v <> u -> exists w, w <> u /\ is_active_admin s c w) ->
  (group_closed c s' = true -> forall v, ~ is_active s' c v) -> group_ok s' c.
Proof.
  intros Hk Hgrp Hrep Hp' Hleft Hclosed. split; [|done]. intros [v Hv].
  assert (v <> u) as Hvu.
  { intros ->. destruct Hv as (q & Hq & Ha). rewrite (replaces_part _ _ _ _ _ Hrep) in Hq. congruence. }
  rewrite replaces_active_other in Hv by done. destruct (Hleft v Hv Hvu) as (w & Hw & Hwa).
  exists w. by rewrite replaces_admin_other.
Qed.

Lemma remove_inv s u c t now st : service_inv s -> service_inv (remove_participant u c t now st s).2.
Proof.
  intros Hinv. destruct (remove_effect s u c t now st) as [->|(Hok & Hm & p' & Hrep & Ha)];
    [apply Hinv|done|].
  apply can_remove_ok in Hok as ((cv & Hcv & Ht) & Hopen & Hself & Hother).
  destruct (conv_ok_group s c cv) as (Hk & Hgrp & Hmk); [apply Hinv|done..|].
  eapply replaces_inv; [done..|by exists cv|auto|rewrite Hm; done|].
  eapply deactivate_group_ok; [done..| |].
  - intros v Hv Hvt. destruct (decide (u = t)) as [->|Hut].
    + by apply (leave_keeps_admin s c t v); auto.
    + exists u. split; [done|]. by apply Hother.
  - by rewrite group_closed_meta, Hm, <- group_closed_meta, Hopen.
Qed.

Lemma leave_inv s u c now st st' : service_inv s -> service_inv (leave_conversation u c now st st' s).2.
Proof.
  intros Hinv. destruct (leave_effect s u c now st st') as [->|(Hok & (p' & Hrep & Ha) & Hmeta)];
    [apply Hinv|done|].
  pose proof Hok as ((cv & Hcv & Ht) & _)%can_leave_ok.
  destruct (conv_ok_group s c cv) as (Hk & Hgrp & Hmk); [apply Hinv|done..|].
  set (s' := (leave_conversation u c now st st' s).2) in *.
  assert (Hoff : forall c', c' <> c -> meta s' c' = meta s c').
  { intros c' Hne. destruct Hmeta as [Hm|(_ & gm & Hgm & Hm)]; [done|].
    rewrite Hm, decide_False; [done|]. rewrite (Hmk gm Hgm). congruence. }
  eapply replaces_inv; [done..|by exists cv|done| |].
  - destruct Hmeta as [Hm|(_ & gm & Hgm & Hm)]; rewrite Hm; [done|].
    pose proof (Hmk gm Hgm) as Hid. rewrite decide_True by done. by intros ? [= <-].
  - eapply deactivate_group_ok; [done..| |].
    + intros v Hv Hvu. by eapply leave_keeps_admin.
    + destruct Hmeta as [Hm|[Hnone _]]; [|done].
      rewrite group_closed_meta, Hm, <- group_closed_meta. intros Hcl v Hv.
      destruct Hgrp as [_ Hcl']. eapply (Hcl' Hcl u). apply can_leave_ok in Hok as (_ & p & ? & ? & _).
      by exists p.
Qed.

(** Metadata of a group is stored under the group's identifier. *)
Lemma meta_keyed s c gm : service_inv s -> meta s c = Some gm -> gm_conversation_id gm = c.
Proof.
  intros [Hconv _] Hgm. destruct (Hconv c) as [_ H].
  destruct (conv s c) as [cv|]; [|destruct H; congruence].
  destruct H as [_ H]. destruct (cv_type cv); [destruct H; congruence|by apply H].
Qed.

Lemma update_inv s u c title now st : service_inv s -> service_inv (update_group_metadata u c title now st s).2.
Proof.
  intros Hinv. destruct (update_effect s u c title now st) as
    [->|(Hok & Hc & Hd & Hp & gm & gm' & Hgm & Hst & Hid & Hm)]; [by intros; eapply meta_keyed|done|].
  apply can_administer_ok in Hok as ((cv & Hcv & Ht) & Hopen & Hadm).
  set (s' := (update_group_metadata u c title now st s).2) in *.
  assert (Hact : forall c' v, is_active s' c' v <-> is_active s c' v) by (intros; unfold is_active; by rewrite Hp).
  split.
  - intros c'. destruct (decide (c' = c)) as [->|Hne].
    2:{ apply (conv_ok_same s); [|apply Hinv]. split_and!; [apply Hc| |intros; apply Hp].
        by rewrite Hm, decide_False by congruence. }
    destruct (conv_ok_group s c cv) as (Hk & (Hga & _) & Hmk); [apply Hinv|done..|].
    destruct Hinv as [Hconv _]. destruct (Hconv c) as [_ H]. rewrite Hcv, Ht in H.
    split; [intros v p; rewrite Hp; apply Hk|]. rewrite Hc, Hcv, Ht. split; [apply H|]. split.
    + split.
      * intros [v Hv]. rewrite Hact in Hv. destruct Hga as [w Hw]; [by exists v|]. exists w.
        unfold is_active_admin. by rewrite Hp.
      * rewrite group_closed_meta in Hopen |- *. rewrite Hm, decide_True, Hst by done.
        rewrite Hgm in Hopen. by rewrite Hopen.
    + intros g. rewrite Hm, decide_True by done. by intros [= <-].
  - intros dp id. rewrite Hd. intros Hdp. destruct Hinv as [_ Hidx].
    destruct (Hidx dp id Hdp) as (cv' & ?). exists cv'. by rewrite Hc, !Hact.
Qed.

(** A fresh conversation has neither participants nor metadata. *)
Lemma fresh_conv s c : service_inv s -> conv s c = None -> (forall u, part s c u = None) /\ meta s c = None.
Proof. intros [Hconv _] Hnone. destruct (Hconv c) as [_ H]. by rewrite Hnone in H. Qed.

Lemma create_group_inv s u title initial c now st :
  service_inv s -> conv s c = None -> service_inv (create_group_conversation u title initial c now st s).2.
Proof.
  intros Hinv Hfresh. pose proof (fresh_conv s c Hinv Hfresh) as [Hnop Hnom].
  unfold create_group_conversation. destruct (title_length_ok title); cbn [negb]; [|done]. cbn [snd].
  set (cv := mkConversation c Group u now 1). set (gm := mkGroupMetadata c title GroupActive now now 1).
  set (s1 := enroll c Group Admin now u (set_conversations _ s)).
  destruct (enroll_members_spec c now {[ user_str u ]} initial s1) as (H1 & H2 & H3 & H4).
  set (s2 := enroll_members c now {[ user_str u ]} initial s1) in *.
  match goal with |- service_inv ?x => set (s' := x) end.
  assert (Hp : forall c' v, part s' c' v = part s2 c' v) by done.
  assert (Hc : forall c', conv s' c' = if decide (c = c') then Some cv else conv s c').
  { intros c'. unfold conv, s', record_outbox_event. cbn [conversation_repo]. rewrite H1. unfold s1. by repo_simpl. }
  assert (Hm : forall c', meta s' c' = if decide (c = c') then Some gm else meta s c').
  { intros c'. unfold meta, s', record_outbox_event. cbn [conversation_repo]. rewrite H1. unfold s1. by repo_simpl. }
  assert (Hd : forall dp, direct s' dp = direct s dp).
  { intros dp. unfold direct, s', record_outbox_event. cbn [conversation_repo]. rewrite H1. unfold s1. by repo_simpl. }
  assert (Hoff : forall c' v, c' <> c -> part s' c' v = part s c' v).
  { intros c' v Hne. rewrite Hp, H2 by done. unfold s1. rewrite part_enroll, decide_False by congruence. done. }
  assert (Hadm : is_active_admin s' c u).
  { eexists. rewrite Hp, H3 by set_solver. unfold s1. by rewrite part_enroll, decide_True. }
  split.
  - intros c'. destruct (decide (c' = c)) as [->|Hne].
    2:{ apply (conv_ok_same s); [|apply Hinv].
        split_and!; [by rewrite Hc, decide_False by congruence|by rewrite Hm, decide_False by congruence|auto]. }
    split.
    + intros v p. rewrite Hp. destruct (H4 v) as [->| ->]; [|by intros [= <-]].
      unfold s1. rewrite part_enroll. case_decide as Hdec; [injection Hdec as <-; by intros [= <-]|].
      intros Hpv. change (part s c v = Some p) in Hpv. by rewrite Hnop in Hpv.
    + rewrite Hc, decide_True by done. split; [done|]. cbn. split.
      * split; [intros _; by exists u|]. rewrite group_closed_meta, Hm, decide_True by done. done.
      * rewrite Hm, decide_True by done. by intros ? [= <-].
  - intros dp id. rewrite Hd. intros Hdp. destruct Hinv as [_ Hidx].
    destruct (Hidx dp id Hdp) as (cv' & Hcv' & Hrest). exists cv'.
    assert (id <> c) by congruence. unfold is_active. rewrite !Hoff, Hc, decide_False by congruence. done.
Qed.

Lemma create_direct_inv s u v c now st :
  service_inv s -> conv s c = None -> service_inv (conv_step (OpCreateDirect u v c now st) s).
Proof.
  intros Hinv Hfresh. pose proof (fresh_conv s c Hinv Hfresh) as [Hnop Hnom].
  cbn [conv_step]. unfold create_direct_conversation. case_bool_decide as Huv; [done|].
  destruct (direct_pair u v) as [dp|] eqn:Hdp; [|done].
  destruct (find_direct_conversation dp _ ≫= _) as [ex|]; [done|]. cbn [snd].
  match goal with |- service_inv ?x => set (s' := x) end.
  set (cv := mkConversation c Direct u now 1).
  assert (Hc : forall c', conv s' c' = if decide (c = c') then Some cv else conv s c').
  { intros c'. unfold conv, s'. by repo_simpl. }
  assert (Hm : forall c', meta s' c' = meta s c').
  { intros c'. unfold meta, s'. by repo_simpl. }
  assert (Hd : forall dp', direct s' dp' = if decide (dp = dp') then Some c else direct s dp').
  { intros dp'. unfold direct, s'. by repo_simpl. }
  assert (Hp : forall c' w, part s' c' w =
            if decide ((c, v) = (c', w)) then Some (mkParticipant c v Member Active now None 1)
            else if decide ((c, u) = (c', w)) then Some (mkParticipant c u Member Active now None 1)
            else part s c' w).
  { intros c' w. unfold part, s'. by repo_simpl. }
  assert (Hoff : forall c' w, c' <> c -> part s' c' w = part s c' w).
  { intros c' w Hne. by rewrite Hp, !decide_False by congruence. }
  assert (Hu : is_active s' c u).
  { eexists. rewrite Hp, decide_False, decide_True by congruence. done. }
  assert (Hv : is_active s' c v) by (eexists; by rewrite Hp, decide_True).
  split.
  - intros c'. destruct (decide (c' = c)) as [->|Hne].
    2:{ apply (conv_ok_same s); [|apply Hinv].
        split_and!; [by rewrite Hc, decide_False by congruence|done|auto]. }
    split.
    + intros w p. rewrite Hp. case_decide as H1; [injection H1 as <-; by intros [= <-]|].
      case_decide as H2; [injection H2 as <-; by intros [= <-]|]. by rewrite Hnop.
    + rewrite Hc, decide_True by done. split; [done|]. cbn. split; [|by rewrite Hm].
      exists u, v. split_and!; [done..|]. intros w p. rewrite Hp.
      case_decide as H1; [injection H1 as <-; by right|].
      case_decide as H2; [injection H2 as <-; by left|]. by rewrite Hnop.
  - intros dp' id. rewrite Hd. case_decide as Hdec.
    + intros [= <-]. subst dp'. exists cv. rewrite Hc, decide_True by done.
      unfold direct_pair in Hdp. rewrite bool_decide_eq_false_2 in Hdp by done.
      destruct (UserId_ltb u v); injection Hdp as <-; cbn; done.
    + intros Hidp. destruct Hinv as [_ Hidx]. destruct (Hidx dp' id Hidp) as (cv' & Hcv' & Hrest).
      exists cv'. assert (id <> c) by congruence. unfold is_active.
      rewrite !Hoff, Hc, decide_False by congruence. done.
Qed.

Lemma empty_state_inv s : empty_state s -> service_inv s.
Proof.
  intros (Hc & Hm & Hp & Hd). split.
  - intros c. split; [intros u p; by rewrite Hp|]. rewrite Hc. split; [done|apply Hm].
  - intros dp id. by rewrite Hd.
Qed.

Lemma reachable_inv s : reachable s -> service_inv s.
Proof.
  induction 1 as [s Hs|s op _ IH Hfresh]; [by apply empty_state_inv|]. rewrite solo_conv_calls.
  destruct op; cbn [conv_step].
  - by apply create_direct_inv.
  - by apply create_group_inv.
  - by apply add_inv.
  - by apply remove_inv.
  - by apply leave_inv.
  - by apply update_inv.
Qed.

Lemma step_frame s op : service_inv s -> forall c, c <> op_id op -> same_conv s (conv_step op s) c.
Proof.
  intros Hinv c' Hne.
  destruct op as [u v c now st|u title initial c now st|u c t now st|u c t now st|u c now st st'|u c title now st];
    cbn [conv_step op_id] in *.
  - unfold create_direct_conversation. case_bool_decide; [done|]. destruct (direct_pair u v) as [dp|]; [|done].
    destruct (find_direct_conversation dp _ ≫= _); [done|]. cbn [snd].
    unfold same_conv, conv, meta, part. split_and!; intros; repo_simpl; rewrite ?decide_False by congruence; done.
  - unfold create_group_conversation. destruct (title_length_ok title); cbn [negb snd]; [|done].
    match goal with |- context [enroll_members c now ?a ?l ?x] =>
      destruct (enroll_members_spec c now a l x) as (H1 & H2 & _) end.
    split_and!.
    + unfold conv, record_outbox_event. cbn [conversation_repo]. rewrite H1. repo_simpl. by rewrite decide_False by congruence.
    + unfold meta, record_outbox_event. cbn [conversation_repo]. rewrite H1. repo_simpl. by rewrite decide_False by congruence.
    + intros w. etransitivity; [apply H2; congruence|]. rewrite part_enroll, decide_False by congruence. done.
  - destruct (add_effect s u c t now st) as [->|(_ & _ & Hm & p' & Hrep & _)]; [apply Hinv|done|].
    eapply replaces_frame; eauto.
  - destruct (remove_effect s u c t now st) as [->|(_ & Hm & p' & Hrep & _)]; [apply Hinv|done|].
    eapply replaces_frame; eauto.
  - destruct (leave_effect s u c now st st') as [->|(_ & (p' & Hrep & _) & Hm)]; [apply Hinv|done|].
    eapply replaces_frame; [done| |done]. intros c'' Hc''.
    destruct Hm as [Hm|(_ & gm & Hgm & Hm)]; [done|]. rewrite Hm, decide_False; [done|].
    rewrite (meta_keyed s c gm); congruence.
  - destruct (update_effect s u c title now st) as [->|(_ & Hc & _ & Hp & gm & gm' & _ & _ & _ & Hm)];
      [by intros; eapply meta_keyed|done|].
    split_and!; [done| |done]. by rewrite Hm, decide_False by congruence.
Qed.

Lemma pair_users u v dp :
  direct_pair u v = Some dp -> (user_a dp = u /\ user_b dp = v) \/ (user_a dp = v /\ user_b dp = u).
Proof. unfold direct_pair. split_ifs; intros [= <-]; auto. Qed.

Lemma create_direct_result s u v id now st :
  u <> v ->
  exists cv s' dp, create_direct_conversation u v id now st s = Ok (Ok cv, s') /\ direct_pair u v = Some dp /\
    exists id', direct s' dp = Some id' /\ conv s' id' = Some cv.
Proof.
  intros Huv. unfold create_direct_conversation. rewrite bool_decide_eq_false_2 by done.
  destruct (direct_pair u v) as [dp|] eqn:Hdp.
  2:{ unfold direct_pair in Hdp. rewrite bool_decide_eq_false_2 in Hdp by done. by destruct (UserId_ltb u v). }
  fold (direct s dp). destruct (direct s dp) as [id'|] eqn:Hid; cbn [mbind option_bind].
  - fold (conv s id'). destruct (conv s id') as [cv|] eqn:Hcv.
    + exists cv, s, dp. split_and!; try done. by exists id'.
    + eexists _, _, dp. split; [reflexivity|]. split; [done|]. exists id.
      unfold direct, conv. repo_simpl. by rewrite !decide_True.
  - eexists _, _, dp. split; [reflexivity|]. split; [done|]. exists id.
    unfold direct, conv. repo_simpl. by rewrite !decide_True.
Qed.

Lemma create_direct_again s u v dp id cv id' now st :
  u <> v -> direct_pair u v = Some dp -> direct s dp = Some id -> conv s id = Some cv ->
  create_direct_conversation u v id' now st s = Ok (Ok cv, s).
Proof.
  intros Huv Hdp Hd Hc. unfold create_direct_conversation. rewrite bool_decide_eq_false_2, Hdp by done.
  unfold direct, conv in *. rewrite Hd. cbn. by rewrite Hc.
Qed.

(** ** Claims *)

(** C3.  In every state the conversation service reaches by operations that run one
    after the other, with fresh identifiers for new conversations, a group that has an
    active participant has an active admin, a closed group has no active participant,
    and a direct conversation has exactly its two participants, both active; the index
    of direct conversations leads to the conversation of the pair.  (The service takes
    no lock: operations that overlap can leave a group without an admin, see
    [leave_races_add].) *)
Theorem conversation_invariants s (Hs : reachable s) :
  (forall c cv, conv s c = Some cv -> cv_type cv = Group ->
     ((exists u, is_active s c u) -> exists u, is_active_admin s c u) /\
     (group_closed c s = true -> forall u, ~ is_active s c u)) /\
  (forall c cv, conv s c = Some cv -> cv_type cv = Direct ->
     exists a b, a <> b /\ is_active s c a /\ is_active s c b /\ forall u, is_active s c u -> u = a \/ u = b) /\
  (forall dp id, direct s dp = Some id ->
     exists cv, conv s id = Some cv /\ cv_type cv = Direct /\ is_active s id (user_a dp) /\ is_active s id (user_b dp)).
Proof.
  apply reachable_inv in Hs as [Hconv Hidx]. split_and!; [..|exact Hidx]; intros c cv Hcv Ht.
  - destruct (conv_ok_group s c cv) as (_ & Hg & _); [apply Hconv|done..].
  - destruct (Hconv c) as [_ H]. rewrite Hcv, Ht in H. destruct H as (_ & (a & b & Hne & Ha & Hb & Honly) & _).
    exists a, b. split_and!; [done..|]. intros u (p & Hp & _). by eapply Honly.
Qed.

(** Nobody changes a conversation without authority.  In a reachable state, an
    operation that runs alone and changes anything concerns only the conversation it names, and:
    participants are added and metadata updated only by an active admin of an open
    group; a participant is removed only by an active admin of the open group, or by
    itself being active; only an active participant leaves. *)
Theorem changes_need_authority s (op : ConvOp) (Hs : reachable s) (Hfresh : op_fresh op s)
    (Hchanged : conv_step op s <> s) :
  (forall c, c <> op_id op -> same_conv s (conv_step op s) c) /\
  match op with
  | OpAdd u c _ _ _ | OpUpdateMetadata u c _ _ _ => group_closed c s = false /\ is_active_admin s c u
  | OpRemove u c t _ _ =>
      group_closed c s = false /\ (is_active_admin s c u \/ (u = t /\ is_active s c u))
  | OpLeave u c _ _ _ => is_active s c u
  | OpCreateDirect _ _ c _ _ | OpCreateGroup _ _ _ c _ _ => conv s c = None
  end.
Proof.
  apply reachable_inv in Hs. split; [by apply step_frame|].
  destruct op as [u v c now st|u title initial c now st|u c t now st|u c t now st|u c now st st'|u c title now st];
    cbn [conv_step op_fresh] in *; try done.
  - destruct (add_effect s u c t now st) as [|(Hok & _)]; [apply Hs|done|].
    by apply can_administer_ok in Hok as (_ & ? & ?).
  - destruct (remove_effect s u c t now st) as [|(Hok & _)]; [apply Hs|done|].
    apply can_remove_ok in Hok as (_ & Hopen & Hself & Hother). split; [done|].
    destruct (decide (u = t)) as [<-|Hne]; [right|left; by apply Hother].
    destruct (can_leave_ok s u c) as (_ & p & ? & ? & _); [auto|]. split; [done|]. by exists p.
  - destruct (leave_effect s u c now st st') as [|(Hok & _)]; [apply Hs|done|].
    apply can_leave_ok in Hok as (_ & p & ? & ? & _). by exists p.
  - destruct (update_effect s u c title now st) as [|(Hok & _)]; [by intros; eapply meta_keyed|done|].
    by apply can_administer_ok in Hok as (_ & ? & ?).
Qed.

(** Direct conversations are unique.  Creating one between two users in a
    reachable state succeeds, leaves both active in it, and from then on creating it
    again, by either user and whatever the clock and the generated identifier, returns
    the same conversation and changes nothing. *)
Theorem direct_conversation_unique s (u v : UserId) (id : ConversationId) (now : Z) (st : Stamp)
    (Hs : reachable s) (Hfresh : conv s id = None) (Huv : u <> v) :
  exists cv s', create_direct_conversation u v id now st s = Ok (Ok cv, s') /\
    cv_type cv = Direct /\ is_active s' (cv_conversation_id cv) u /\ is_active s' (cv_conversation_id cv) v /\
    forall id' now' st',
      create_direct_conversation u v id' now' st' s' = Ok (Ok cv, s') /\
      create_direct_conversation v u id' now' st' s' = Ok (Ok cv, s').
Proof.
  pose proof (reachable_inv s Hs) as Hinv.
  pose proof (create_direct_inv s u v id now st Hinv Hfresh) as Hinv'. cbn [conv_step] in Hinv'.
  destruct (create_direct_result s u v id now st Huv) as (cv & s' & dp & Hrun & Hdp & id0 & Hidx & Hcv).
  rewrite Hrun in Hinv'. cbn [snd] in Hinv'. exists cv, s'. split; [done|].
  destruct Hinv' as [Hconv' Hidx']. destruct (Hidx' dp _ Hidx) as (cv' & Hcv' & Ht & Ha & Hb).
  assert (cv' = cv) as -> by congruence. split; [done|].
  assert (cv_conversation_id cv = id0) as ->.
  { destruct (Hconv' id0) as [_ H]. rewrite Hcv in H. apply H. }
  pose proof (pair_users u v dp Hdp) as Hus.
  split_and!; [by destruct Hus as [[Ea Eb]|[Ea Eb]]; rewrite Ea in Ha; rewrite Eb in Hb..|].
  intros id' now' st'. split; eapply create_direct_again; try done.
  by rewrite direct_pair_sym.
Qed.

(** The sole active participant may leave, admin or not. *)
Lemma sole_can_leave s u c cv :
  keyed s c -> conv s c = Some cv -> cv_type cv = Group -> is_active s c u ->
  (forall v, is_active s c v -> v = u) -> can_leave_conversation u c s = Ok tt.
Proof.
  intros Hk Hcv Ht (p & Hp & Ha) Honly. unfold can_leave_conversation. fold (conv s c). rewrite Hcv, Ht.
  rewrite bool_decide_eq_false_2 by done.
  rewrite (proj2 (active_participant_spec s u c p)) by done.
  assert (other_members u (list_active_participants c (membership_repo s)) = 0%nat) as ->.
  2:{ by rewrite !andb_false_r. }
  unfold other_members. apply length_zero_iff_nil.
  destruct (filter _ _) as [|q l] eqn:Hf; [done|]. exfalso.
  assert (q ∈ filter (fun p => pt_user_id p <> u /\ pt_role p <> Admin)
                (list_active_participants c (membership_repo s))) as Hin by (rewrite Hf; left).
  apply list_elem_of_filter in Hin as [[Hqu _] Hq]. apply elem_of_list_active in Hq as (v & Hv & Hva). apply Hqu. destruct (Hk v q Hv) as [_ ->].
  apply Honly. by exists q.
Qed.

Lemma leave_last s u c gm now st st' :
  keyed s c -> can_leave_conversation u c s = Ok tt -> meta s c = Some gm ->
  (forall v, is_active s c v -> v = u) -> gm_conversation_id gm = c ->
  exists s', leave_conversation u c now st st' s = (Ok tt, s') /\
    (forall v, ~ is_active s' c v) /\ group_closed c s' = true.
Proof.
  intros Hk Hok Hgm Honly Hid. pose proof Hok as (_ & p & Hp & _ & _)%can_leave_ok.
  destruct (Hk u p Hp) as [Hpc Hpu]. unfold leave_conversation. rewrite Hok. fold (part s c u). rewrite Hp.
  match goal with |- context [bool_decide (list_active_participants c (membership_repo ?x) = [])] => set (s1 := x) end.
  assert (Hnone : forall v, ~ is_active s1 c v).
  { intros v (q & Hq & Hqa). unfold part, s1 in Hq. revert Hq. repo_simpl. rewrite Hpc, Hpu.
    case_decide as Hd; [by intros [= <-]|]. intros Hq. apply Hd. f_equal. symmetry. apply Honly. by exists q. }
  rewrite bool_decide_eq_true_2.
  2:{ destruct (list_active_participants c (membership_repo s1)) as [|q l] eqn:Hl; [done|].
      assert (q ∈ list_active_participants c (membership_repo s1)) as Hq by (rewrite Hl; left).
      apply elem_of_list_active in Hq as (v & Hv & Hva). destruct (Hnone v). by exists q. }
  change (find_group_metadata c (conversation_repo s1)) with (meta s c). rewrite Hgm.
  eexists. split; [reflexivity|]. split; [exact Hnone|].
  rewrite group_closed_meta. unfold meta. repo_simpl. by rewrite Hid, decide_True.
Qed.

(** The last one out closes the door.  When the only active participant of a
    group with metadata leaves, the operation succeeds, nobody is active afterwards
    and the group is closed, so that no message can be sent to it any more. *)
Theorem last_leave_closes s (u : UserId) (c : ConversationId) (cv : ConversationEntity) (gm : GroupMetadata)
    (now : Z) (st st' : Stamp)
    (Hs : reachable s) (Hcv : conv s c = Some cv) (Hgroup : cv_type cv = Group) (Hgm : meta s c = Some gm)
    (Hu : is_active s c u) (Honly : forall v, is_active s c v -> v = u) :
  exists s', leave_conversation u c now st st' s = (Ok tt, s') /\
    (forall v, ~ is_active s' c v) /\ group_closed c s' = true /\
    forall v, is_ok (can_send_message v c s') = false.
Proof.
  pose proof (reachable_inv s Hs) as Hinv.
  destruct (conv_ok_group s c cv) as (Hk & Hgrp & Hmk); [apply Hinv|done..|].
  assert (Hok : can_leave_conversation u c s = Ok tt) by by apply (sole_can_leave s u c cv).
  destruct (leave_last s u c gm now st st') as (s' & Hrun & Hnone & Hcl); [done..|by apply Hmk|].
  exists s'. split_and!; [done..|]. intros v. unfold can_send_message.
  destruct (find_conversation_by_id c (conversation_repo s')) as [cv'|]; [|done].
  rewrite Hcl. destruct (bool_decide _ && true); [done|].
  destruct (active_participant v c s') as [p|] eqn:Hp; [|done].
  apply active_participant_spec in Hp. destruct (Hnone v). by exists p.
Qed.

(** ** Operations that overlap *)

Definition creates (op : ConvOp) : bool := match op with OpCreateDirect _ _ _ _ _ | OpCreateGroup _ _ _ _ _ _ => true | _ => false end.

Definition is_direct s c : Prop := exists cv, conv s c = Some cv /\ cv_type cv = Direct.
Definition is_group s c : Prop := exists cv, conv s c = Some cv /\ cv_type cv = Group.

Section overlap.
Context (s0 : state).

(** What the membership and metadata operations keep, step by step: the conversations, the
    index, and everything about direct conversations. *)
Record undisturbed s : Prop := {
  un_conv c : conv s c = conv s0 c; un_direct dp : direct s dp = direct s0 dp; un_keyed c : keyed s c;
  un_meta_keyed c gm : meta s c = Some gm -> gm_conversation_id gm = c;
  un_part c u : is_direct s0 c -> part s c u = part s0 c u; un_meta c : is_direct s0 c -> meta s c = meta s0 c }.

Definition any_step (_ _ : state) : Prop := True.
#[export] Instance any_step_preorder : PreOrder any_step.
Proof. by split. Qed.

Abbreviation calmly := (wpr undisturbed any_step).

Lemma calmly_read {A R} (f : state -> A) (k : A -> prog state R) Q s :
  (forall s', undisturbed s' -> calmly (k (f s')) Q s') -> calmly (pbind (read_call f) k) Q s.
Proof. intros Hk s' _ HI. by split_and!; [| |apply Hk]. Qed.

Lemma calmly_write {R} (f : state -> state) (k : unit -> prog state R) Q s :
  (forall s', undisturbed s' -> undisturbed (f s')) -> (forall s', undisturbed s' -> calmly (k tt) Q s') -> calmly (pbind (write_call f) k) Q s.
Proof. intros Hf Hk s' _ HI. split_and!; [by apply Hf|done|by apply Hk, Hf]. Qed.

Lemma group_not_direct c : is_group s0 c -> ~ is_direct s0 c.
Proof. intros (cv & Hc & Ht) (cv' & Hc' & Ht'). congruence. Qed.

Lemma record_undisturbed st c type payload s : undisturbed s -> undisturbed (record_outbox_event st c type payload s).
Proof. by destruct 1. Qed.

Lemma touch_undisturbed u c t st now s : undisturbed s -> undisturbed (set_memberships (touch_user_conversation u c t st now (membership_repo s)) s).
Proof.
  intros [H1 H2 H3 H4 H5 H6]. constructor; [done|done| |done| |done].
  - intros c' u' p. unfold part. repo_simpl. apply H3.
  - intros c' u' Hd. unfold part. repo_simpl. by apply H5.
Qed.

(** Any participant of a group may be written. *)
Lemma participant_undisturbed c p (f : M -> M) s :
  is_group s0 c -> pt_conversation_id p = c ->
  (forall c' u' m, find_participant c' u' (f m) = if decide ((pt_conversation_id p, pt_user_id p) = (c', u')) then Some p else find_participant c' u' m) ->
  undisturbed s -> undisturbed (set_memberships (f (membership_repo s)) s).
Proof.
  intros Hg Hp Hf [H1 H2 H3 H4 H5 H6]. constructor; [done|done| |done| |done].
  - intros c' u' q. unfold part. cbn [membership_repo set_memberships]. rewrite Hf. case_decide as Hd; [|apply H3]. intros [= <-]. by injection Hd as -> ->.
  - intros c' u' Hd. unfold part. cbn [membership_repo set_memberships]. rewrite Hf. rewrite decide_False; [by apply H5|].
    intros Heq. injection Heq as Hc _. apply (group_not_direct c); [done|]. by rewrite <- Hp, Hc.
Qed.

Lemma metadata_undisturbed c gm s :
  is_group s0 c -> gm_conversation_id gm = c -> undisturbed s -> undisturbed (set_conversations (save_group_metadata gm (conversation_repo s)) s).
Proof.
  intros Hg Hid [H1 H2 H3 H4 H5 H6]. constructor; [..|done|].
  - intros c'. unfold conv. repo_simpl. apply H1.
  - intros dp. unfold direct. repo_simpl. apply H2.
  - done.
  - intros c' gm'. unfold meta. repo_simpl. case_decide as Hd; [by intros [= <-]|apply H4].
  - intros c' Hd. unfold meta. repo_simpl. rewrite decide_False; [by apply H6|]. intros Heq. apply (group_not_direct c); [done|]. by rewrite <- Hid, Heq.
Qed.

(** A check that lets an operation pass has found a group. *)
Definition found_group (c : ConversationId) (r : AuthorizationResult) (_ : state) : Prop := is_ok r = true -> is_group s0 c.

Lemma calmly_group {R} c (k : ConversationEntity -> prog state R) (e : prog state R) (e' : prog state R) Q s :
  (forall s', undisturbed s' -> calmly e Q s' /\ calmly e' Q s') -> (forall cv s', undisturbed s' -> is_group s0 c -> calmly (k cv) Q s') ->
  calmly (let* found := find_conversation_call c in
          match found with None => e | Some cv => if bool_decide (cv_type cv = Direct) then e' else k cv end) Q s.
Proof.
  intros He Hk. apply calmly_read. intros s' Hs'. fold (conv s' c). destruct (conv s' c) as [cv|] eqn:Hc; [|by apply He].
  case_bool_decide as Ht; [by apply He|]. apply Hk; [done|]. rewrite (un_conv s' Hs') in Hc. exists cv. split; [done|]. by destruct (cv_type cv).
Qed.

Lemma can_administer_calm u c s : calmly (can_administer_calls u c) (found_group c) s.
Proof.
  apply calmly_group; [by intros|]. intros cv s1 _ Hg. apply calmly_read. intros s2 _. destruct (group_closed c s2); [done|].
  apply calmly_read. intros s3 _. destruct (active_participant u c s3); [|done]. by intros _.
Qed.

Lemma can_leave_calm u c s : calmly (can_leave_calls u c) (found_group c) s.
Proof.
  apply calmly_group; [by intros|]. intros cv s1 _ Hg. apply calmly_read. intros s2 _. destruct (active_participant u c s2); [|done].
  case_match; [|by intros _]. apply calmly_read. intros s3 _. by intros _.
Qed.

Lemma can_remove_calm u c t s : calmly (can_remove_calls u c t) (found_group c) s.
Proof.
  apply calmly_group; [by intros|]. intros cv s1 _ Hg. apply calmly_read. intros s2 _. destruct (group_closed c s2); [done|].
  case_bool_decide; [apply can_leave_calm|]. apply calmly_read. intros s3 _. destruct (active_participant u c s3); [|done].
  case_match; [done|]. apply calmly_read. intros s4 _. by intros _.
Qed.

(** The rest of an operation after its check. *)
Lemma calmly_checked {R} c (check : prog state AuthorizationResult) (k : AuthorizationResult -> prog state R) Q s :
  undisturbed s -> (forall s, calmly check (found_group c) s) -> (forall e s', undisturbed s' -> calmly (k (Err e)) Q s') ->
  (forall s', undisturbed s' -> is_group s0 c -> calmly (k (Ok tt)) Q s') -> calmly (pbind check k) Q s.
Proof.
  intros HI Hc Herr Hok. apply (wpr_bind _ _); [done|]. eapply wpr_mono; [|apply Hc]. intros [[]|e] s' Hf HI' _; [|by apply Herr]. apply Hok; [done|]. by apply Hf.
Qed.

Lemma find_participant_calm {R} c u (k : option Participant -> prog state R) Q s :
  (forall s', undisturbed s' -> calmly (k None) Q s') ->
  (forall p s', undisturbed s' -> pt_conversation_id p = c -> calmly (k (Some p)) Q s') -> calmly (pbind (find_participant_call c u) k) Q s.
Proof.
  intros Hnone Hsome. apply calmly_read. intros s' Hs'. fold (part s' c u). destruct (part s' c u) as [p|] eqn:Hp; [|by apply Hnone].
  apply Hsome; [done|]. by apply (un_keyed s' Hs' c u).
Qed.

Definition no_claim {R} (_ : R) (_ : state) : Prop := True.

Lemma add_calm u c t now st s : undisturbed s -> calmly (add_participant_calls u c t now st) no_claim s.
Proof.
  intros HI. apply (calmly_checked c); [done|apply can_administer_calm|done|]. intros s1 _ Hg.
  assert (Hjoined : forall s2, calmly (let* _ := memberships_call (touch_user_conversation t c Group Active now) in
      let* _ := record_call st c ParticipantJoined (String.append "{" (String.append (json_field "user_id" (user_str t)) "}")) in
      Ret (Ok tt : ServiceResult unit)) no_claim s2).
  { intros s2. apply calmly_write; [intros; by apply touch_undisturbed|]. intros s3 _. apply calmly_write; [intros; by apply record_undisturbed|done]. }
  apply find_participant_calm.
  - intros s2 _. apply calmly_write; [|by intros; apply Hjoined]. intros s3. apply (participant_undisturbed c (mkParticipant c t Member Active now None 1)); [done|done|]. intros. apply find_add_participant.
  - intros p s2 _ Hp. case_match; [done|]. apply calmly_write; [|by intros; apply Hjoined]. intros s3.
    apply (participant_undisturbed c (with_status Active now None p)); [done|done|]. intros. apply find_update_participant.
Qed.

Lemma remove_calm u c t now st s : undisturbed s -> calmly (remove_participant_calls u c t now st) no_claim s.
Proof.
  intros HI. apply (calmly_checked c); [done|apply can_remove_calm|done|]. intros s1 _ Hg. apply find_participant_calm; [done|]. intros p s2 _ Hp.
  apply calmly_write; [intros s3; apply (participant_undisturbed c (with_status Removed (pt_joined_at p) (Some now) p)); [done|done|]; intros; apply find_update_participant|].
  intros s3 _. apply calmly_write; [intros; by apply touch_undisturbed|]. intros s4 _. apply calmly_write; [intros; by apply record_undisturbed|done].
Qed.

Lemma leave_calm u c now st st' s : undisturbed s -> calmly (leave_conversation_calls u c now st st') no_claim s.
Proof.
  intros HI. apply (calmly_checked c); [done|apply can_leave_calm|done|]. intros s1 _ Hg. apply find_participant_calm; [done|]. intros p s2 _ Hp.
  apply calmly_write; [intros s3; apply (participant_undisturbed c (with_status Left (pt_joined_at p) (Some now) p)); [done|done|]; intros; apply find_update_participant|].
  intros s3 _. apply calmly_write; [intros; by apply touch_undisturbed|]. intros s4 _. apply calmly_write; [intros; by apply record_undisturbed|]. intros s5 _.
  apply calmly_read. intros s6 _. case_bool_decide; [|done]. apply calmly_read. intros s7 Hs7. fold (meta s7 c). destruct (meta s7 c) as [gm|] eqn:Hm; [|done].
  apply calmly_write; [|intros s8 _; apply calmly_write; [intros; by apply record_undisturbed|done]].
  intros s8. apply (metadata_undisturbed c); [done|]. exact (un_meta_keyed s7 Hs7 c gm Hm).
Qed.

Lemma update_calm u c title now st s : undisturbed s -> calmly (update_metadata_calls u c title now st) no_claim s.
Proof.
  intros HI. unfold update_metadata_calls. case_match; [done|]. apply (calmly_checked c); [done|apply can_administer_calm|done|]. intros s1 _ Hg.
  apply calmly_read. intros s2 Hs2. fold (meta s2 c). destruct (meta s2 c) as [gm|] eqn:Hm; [|done].
  apply calmly_write; [|intros s3 _; apply calmly_write; [intros; by apply record_undisturbed|done]].
  intros s3. apply (metadata_undisturbed c); [done|]. exact (un_meta_keyed s2 Hs2 c gm Hm).
Qed.

Lemma conv_calm op s : creates op = false -> undisturbed s -> calmly (conv_calls op) no_claim s.
Proof.
  intros Hop HI. assert (Hret : forall {R R'} (p : prog state R) (g : R -> R'), calmly p no_claim s -> calmly (let* r := p in Ret (g r)) no_claim s).
  { intros R R' p g Hp. apply (wpr_bind _ _); [done|]. eapply wpr_mono; [|exact Hp]. done. }
  destruct op; try done; cbn [conv_calls]; apply Hret; [by apply add_calm|by apply remove_calm|by apply leave_calm|by apply update_calm].
Qed.
End overlap.

(** C4.  Membership and metadata operations of any number of callers, however their
    repository calls interleave, leave direct conversations alone: from any state the
    service reached, no conversation appears, disappears or changes its type, the index
    of direct conversations stays, and a direct conversation keeps exactly its two
    participants, both active, with the very entries they had. *)
Theorem direct_conversations_undisturbed s w (Hs : reachable s) (Hr : rtc (pool_step conv_calls) (mkPool [] s) w)
    (Hops : Forall (fun op => creates op = false) (threads w).*1) :
  (forall c, conv (shared w) c = conv s c) /\ (forall dp, direct (shared w) dp = direct s dp) /\
  (forall c cv, conv s c = Some cv -> cv_type cv = Direct ->
     (forall u, part (shared w) c u = part s c u) /\ meta (shared w) c = None /\
     exists a b, a <> b /\ is_active (shared w) c a /\ is_active (shared w) c b /\ forall u p, part (shared w) c u = Some p -> u = a \/ u = b).
Proof.
  apply reachable_inv in Hs. pose proof (proj1 Hs) as Hconv.
  set (serve := fun op => if creates op then Ret (Changed (Ok tt)) else conv_calls op).
  assert (Hr' : rtc (pool_step serve) (mkPool [] s) w).
  { apply (pool_among (fun op => creates op = false) conv_calls); [|done|done]. intros op Hop. unfold serve. by rewrite Hop. }
  destruct (pool_wpr (undisturbed s) any_step serve (fun _ => no_claim) s w) as [HI _]; [done| | |done|].
  - intros op s' HI. unfold serve. destruct (creates op) eqn:Hop; [done|]. by apply conv_calm.
  - constructor; try done; [apply Hconv|]. intros c gm Hm. by eapply meta_keyed.
  - split; [apply HI|]. split; [apply HI|]. intros c cv Hc Ht. assert (Hd : is_direct s c) by by exists cv.
    destruct (Hconv c) as [_ H]. rewrite Hc, Ht in H. destruct H as (_ & (a & b & Hne & Ha & Hb & Honly) & Hm).
    assert (Hp : forall u, part (shared w) c u = part s c u) by (intros; by apply HI). split; [done|]. split; [by rewrite (un_meta _ _ HI c Hd)|].
    exists a, b. unfold is_active. rewrite !Hp. split_and!; [done..|]. intros u p. rewrite Hp. apply Honly.
Qed.

End invariant.

(** ** The claims on the in-memory repositories *)

Definition mem_state : Type := ConversationState InMemoryConversationRepository InMemoryMembershipRepository.
Definition mem_empty : mem_state := mkState empty_conversations empty_memberships [].

Lemma mem_empty_reachable : reachable mem_empty.
Proof. apply reachable_init. by repeat split. Qed.

Definition alice := mkUserId "alice".
Definition bob := mkUserId "bob".
Definition conv_1 := mkConversationId (replicate 16 1).
Definition stamp_0 := mkStamp "event" 0.

(** Alice creates a group of her own. *)
Definition solo_group : mem_state := conv_step (OpCreateGroup alice "team" [] conv_1 5 stamp_0) mem_empty.
Lemma solo_group_reachable : reachable solo_group.
Proof. by apply reachable_conv_step; [apply mem_empty_reachable|]. Qed.

Lemma solo_group_only v p : part solo_group conv_1 v = Some p -> v = alice.
Proof.
  unfold part, solo_group. cbn [conv_step]. unfold create_group_conversation. cbn. intros Hp.
  apply lookup_insert_Some in Hp as [[Hv _]|[_ Hp]]; [congruence|by rewrite lookup_empty in Hp].
Qed.

Lemma conversation_invariants_witness :
  (exists u, is_active_admin (conv_step (OpAdd alice conv_1 bob 6 stamp_0) solo_group) conv_1 u).
Proof.
  destruct (conversation_invariants (conv_step (OpAdd alice conv_1 bob 6 stamp_0) solo_group)) as [H _].
  - apply reachable_conv_step; [apply solo_group_reachable|exact I].
  - eapply (H conv_1); [vm_compute; reflexivity..|]. exists bob. eexists. split; [vm_compute; reflexivity|reflexivity].
Defined.

Lemma changes_need_authority_witness : is_active_admin solo_group conv_1 alice.
Proof.
  apply (changes_need_authority solo_group (OpAdd alice conv_1 bob 6 stamp_0)).
  - apply solo_group_reachable.
  - exact I.
  - intros H. apply (f_equal (fun s => length (outbox_events s))) in H. vm_compute in H. discriminate H.
Defined.

Lemma direct_conversation_unique_witness :
  exists cv s', create_direct_conversation alice bob conv_1 7 stamp_0 mem_empty = Ok (Ok cv, s') /\
    create_direct_conversation bob alice (mkConversationId (replicate 16 2)) 9 stamp_0 s' = Ok (Ok cv, s').
Proof.
  destruct (direct_conversation_unique mem_empty alice bob conv_1 7 stamp_0) as (cv & s' & Hrun & _ & _ & _ & H).
  - apply mem_empty_reachable.
  - reflexivity.
  - discriminate.
  - exists cv, s'. split; [exact Hrun|]. apply H.
Defined.

Lemma last_leave_closes_witness :
  exists s', leave_conversation alice conv_1 8 stamp_0 stamp_0 solo_group = (Ok tt, s') /\ group_closed conv_1 s' = true.
Proof.
  destruct (last_leave_closes solo_group alice conv_1 (mkConversation conv_1 Group alice 5 1)
              (mkGroupMetadata conv_1 "team" GroupActive 5 5 1) 8 stamp_0 stamp_0) as (s' & H1 & _ & H2 & _).
  - apply solo_group_reachable.
  - vm_compute. reflexivity.
  - reflexivity.
  - vm_compute. reflexivity.
  - eexists. split; [vm_compute; reflexivity|reflexivity].
  - intros v (p & Hp & _). apply solo_group_only in Hp. exact Hp.
  - exists s'. split; [exact H1|exact H2].
Defined.

(** The sole participant of a group who removes itself with
    [remove_participant] leaves an open group without participants: nobody can ever
    administer or close it, unlike after [leave_conversation], which closes it. *)
Theorem self_removal_leaves_group_open :
  let s' := conv_step (OpRemove alice conv_1 alice 8 stamp_0) solo_group in
  list_active_participants conv_1 (membership_repo s') = [] /\ group_closed conv_1 s' = false /\
  group_closed conv_1 (conv_step (OpLeave alice conv_1 8 stamp_0 stamp_0) solo_group) = true.
Proof. vm_compute. done. Qed.

(** ** Operations that overlap, on a concrete group *)

Definition pool_of (ops : list ConvOp) (s : mem_state) : @Pool mem_state ConvOp ConvReply := mkPool ((fun op => (op, conv_calls op)) <$> ops) s.

(** Let the thread [i] run on for [n] calls. *)
Definition run_on (i n : nat) (w : @Pool mem_state ConvOp ConvReply) : @Pool mem_state ConvOp ConvReply :=
  match threads w !! i with
  | Some (op, p) => mkPool (<[i := (op, fst (advance n p (shared w)))]> (threads w)) (snd (advance n p (shared w)))
  | None => w
  end.

Lemma run_on_pool i n (w : @Pool mem_state ConvOp ConvReply) : rtc (pool_step conv_calls) w (run_on i n w).
Proof. unfold run_on. destruct (threads w !! i) as [[op p]|] eqn:Hi; [|apply rtc_refl]. destruct w as [l s]. by apply advance_pool. Qed.

Lemma pool_of_pool ops s : rtc (pool_step conv_calls) (mkPool [] s) (pool_of ops s).
Proof.
  induction ops as [|op ops IH] using rev_ind; [apply rtc_refl|]. eapply rtc_r; [exact IH|]. unfold pool_of. rewrite fmap_app. apply pool_arrive.
Qed.

(** Alice, who is alone, has passed the check of [leave_conversation] when she adds Bob
    with another call: Bob ends up in a group without an admin. *)
Definition left_while_adding : @Pool mem_state ConvOp ConvReply :=
  run_on 0 99 (run_on 1 99 (run_on 0 3 (pool_of [OpLeave alice conv_1 8 stamp_0 stamp_0; OpAdd alice conv_1 bob 7 stamp_0] solo_group))).

Lemma left_while_adding_run : rtc (pool_step conv_calls) (mkPool [] solo_group) left_while_adding.
Proof. unfold left_while_adding. do 3 (etransitivity; [|apply run_on_pool]). apply pool_of_pool. Qed.

Lemma leave_races_add :
  rtc (pool_step conv_calls) (mkPool [] solo_group) left_while_adding /\
  (threads left_while_adding).*2 = [Ret (Changed (Ok tt)); Ret (Changed (Ok tt))] /\
  pt_user_id <$> list_active_participants conv_1 (membership_repo (shared left_while_adding)) = [bob] /\
  pt_role <$> list_active_participants conv_1 (membership_repo (shared left_while_adding)) = [Member].
Proof. split; [apply left_while_adding_run|]. vm_compute. done. Qed.

(** Alice has read the metadata to change the title when she leaves with another call, which
    closes the group: the old status is written back with the new title. *)
Definition left_while_renaming : @Pool mem_state ConvOp ConvReply :=
  run_on 0 99 (run_on 1 99 (run_on 0 4 (pool_of [OpUpdateMetadata alice conv_1 "new" 8 stamp_0; OpLeave alice conv_1 7 stamp_0 stamp_0] solo_group))).

Lemma left_while_renaming_run : rtc (pool_step conv_calls) (mkPool [] solo_group) left_while_renaming.
Proof. unfold left_while_renaming. do 3 (etransitivity; [|apply run_on_pool]). apply pool_of_pool. Qed.

Lemma rename_reopens_group :
  rtc (pool_step conv_calls) (mkPool [] solo_group) left_while_renaming /\
  group_closed conv_1 (shared (run_on 1 99 (run_on 0 4 (pool_of [OpUpdateMetadata alice conv_1 "new" 8 stamp_0; OpLeave alice conv_1 7 stamp_0 stamp_0] solo_group)))) = true /\
  group_closed conv_1 (shared left_while_renaming) = false /\ list_active_participants conv_1 (membership_repo (shared left_while_renaming)) = [].
Proof. split; [apply left_while_renaming_run|]. vm_compute. done. Qed.

(** Two calls that create the conversation of a pair at the same time create two. *)
Definition conv_2 := mkConversationId (replicate 16 2).

Definition created_at_once : @Pool mem_state ConvOp ConvReply :=
  run_on 0 99 (run_on 1 99 (run_on 0 1 (pool_of [OpCreateDirect alice bob conv_1 7 stamp_0; OpCreateDirect bob alice conv_2 8 stamp_0] mem_empty))).

Lemma created_at_once_run : rtc (pool_step conv_calls) (mkPool [] mem_empty) created_at_once.
Proof. unfold created_at_once. do 3 (etransitivity; [|apply run_on_pool]). apply pool_of_pool. Qed.

Lemma direct_created_twice :
  rtc (pool_step conv_calls) (mkPool [] mem_empty) created_at_once /\
  (threads created_at_once).*2 =
    [Ret (Created (Ok (Ok (mkConversation conv_1 Direct alice 7 1)))); Ret (Created (Ok (Ok (mkConversation conv_2 Direct bob 8 1))))] /\
  is_Some (conv (shared created_at_once) conv_1) /\ is_Some (conv (shared created_at_once) conv_2).
Proof. split; [apply created_at_once_run|]. split; [vm_compute; reflexivity|]. split; eexists; vm_compute; reflexivity. Qed.

(** Alice and Bob talk directly; their conversation survives what others do at once. *)
Definition talking : mem_state := conv_step (OpCreateDirect alice bob conv_2 6 stamp_0) solo_group.

Lemma talking_reachable : reachable talking.
Proof. apply reachable_conv_step; [apply solo_group_reachable|reflexivity]. Qed.

Definition busy : @Pool mem_state ConvOp ConvReply :=
  run_on 0 99 (run_on 1 99 (run_on 0 3 (pool_of [OpLeave alice conv_1 8 stamp_0 stamp_0; OpRemove alice conv_2 bob 7 stamp_0] talking))).

Lemma direct_conversations_undisturbed_witness : is_active (shared busy) conv_2 alice /\ is_active (shared busy) conv_2 bob.
Proof.
  destruct (direct_conversations_undisturbed talking busy talking_reachable) as (_ & _ & H).
  - unfold busy. do 3 (etransitivity; [|apply run_on_pool]). apply pool_of_pool.
  - vm_compute. repeat constructor.
  - destruct (H conv_2 (mkConversation conv_2 Direct alice 6 1)) as (Hp & _); [vm_compute; reflexivity|reflexivity|].
    unfold is_active. rewrite !Hp. split; eexists; (split; [vm_compute; reflexivity|reflexivity]).
Defined.
