(* ===== verification/SubmissionSpec.v ===== *)
(** * Properties of message submission

    The idempotency records refine a map; a submission that is answered with success
    has persisted everything, whatever calls to the database failed; without failures
    a token is accepted exactly once; and the fingerprint that tells a replay from a
    conflict. *)

From S2P Require Import Prelude Ids Bucket Scylla DeliveryTypes DeliveryRepo DeliveryRepoSpec MessageStore Sequence Conversation Outbox ConversationService Submission ConversationInv.
From stdpp Require Import sorting.
#[local] Open Scope Z_scope.

(** ** Idempotency records *)

Definition stored_idem (r : IdempotencyRecord) : IdempotencyRecord :=
  mkIdem (ir_sender_device_id r) (ir_idempotency_key r) (ir_message_id r) (ir_conversation_id r)
    (ir_message_sequence r) (ir_submission_status r) (stored_time (ir_created_at r)) (ir_request_fingerprint r).

Definition idem_key (r : IdempotencyRecord) : string * string :=
  (device_str (ir_sender_device_id r), ir_idempotency_key r).

Definition idem_wf (r : IdempotencyRecord) : Prop :=
  Uuid.wf (message_bytes (ir_message_id r)) /\ Uuid.wf (conversation_bytes (ir_conversation_id r)) /\
  in_u64 (ir_message_sequence r).

Definition idem_at (k : string * string) (r : IdempotencyRecord) : Prop :=
  idem_wf r /\ stored_idem r = r /\ idem_key r = k.

Abbreviation IdemMap := (gmap (string * string) IdempotencyRecord).

Lemma submission_status_text s : submission_status_from_string (submission_status_to_string s) = Some s.
Proof. by destruct s. Qed.

Lemma stored_idem_at r : idem_wf r -> idem_at (idem_key r) (stored_idem r).
Proof. intros Hwf. split; [done|]. split; [|done]. unfold stored_idem. cbn. by rewrite stored_time_idemp. Qed.

Section idempotency.
Context {T : Type} `{!CqlTable T string string}.
Implicit Types (t : T) (m : IdemMap).

Definition idem_repr t m : Prop := table_repr idem_columns idem_at t m.

Lemma save_submission_repr t m r :
  idem_wf r -> idem_repr t m -> idem_repr (save_submission r t) (<[idem_key r := stored_idem r]> m).
Proof.
  intros Hwf Hr. apply table_repr_insert; [done|done|by apply stored_idem_at|].
  unfold idem_columns. cbn. by rewrite to_ms_stored_time.
Qed.

Lemma find_submission_spec t m device token :
  idem_repr t m -> find_submission device token t = Ok (m !! (device_str device, token)).
Proof.
  intros Hr. unfold find_submission. destruct (m !! (device_str device, token)) as [r|] eqn:Hm.
  - pose proof (table_repr_at _ _ _ _ _ _ _ Hr Hm) as ((Hi & Hc & Hs) & He & Hk).
    destruct Hr as [Hcells _]. rewrite Hcells, Hm. cbn [fmap option_fmap option_map].
    unfold idem_key in Hk. injection Hk as <- <-. rewrite mk_cells_app. unfold row_to_idempotency_record.
    erewrite bind_eq; [reflexivity| |reflexivity].
    do 4 read_with get_string_cell. read_with get_int64_cell. read_with get_string_cell. read_with get_timestamp_cell.
    read_with (fun n c l H => string_cell n c l H (Some (ir_request_fingerprint r))).
    rewrite message_id_text, conversation_id_text, submission_status_text, u64_i64, u64_small by done.
    transitivity (Ok (E := exn) (stored_idem r)); [|by rewrite He]. unfold stored_idem. cbn.
    by destruct (ir_sender_device_id r).
  - destruct Hr as [Hcells _]. by rewrite Hcells, Hm.
Qed.

(** Saving a record does not touch those under other keys. *)
Lemma find_save_ne r device token t :
  idem_key r <> (device_str device, token) -> find_submission device token (save_submission r t) = find_submission device token t.
Proof. intros Hne. unfold find_submission, save_submission. by rewrite cells_upsert_ne. Qed.

(** A record that is found has the key it was looked up with. *)
Lemma find_submission_key device token t r : find_submission device token t = Ok (Some r) -> idem_key r = (device_str device, token).
Proof.
  unfold find_submission. destruct (cells _ _ t) as [row|]; [|done]. intros (r' & Hrow & [= ->])%bind_ok. unfold row_to_idempotency_record in Hrow.
  set (keys := mk_cells _) in Hrow.
  assert (Hkey : forall name v, keys !! name = Some v -> (keys ∪ row) !! name = Some v) by (intros name v Hv; by apply lookup_union_Some_l).
  assert (Hd : get_string (select idem_select (keys ∪ row)) "sender_device_id" = Ok (device_str device)).
  { unfold get_string, get, get_at. cbn. by rewrite (Hkey _ (VString (device_str device))). }
  assert (Ht : get_string (select idem_select (keys ∪ row)) "idempotency_key" = Ok token).
  { unfold get_string, get, get_at. cbn. by rewrite (Hkey _ (VString token)). }
  rewrite Hd, Ht in Hrow. cbn [bind] in Hrow. repeat (apply bind_ok in Hrow as (? & _ & Hrow)). by injection Hrow as <-.
Qed.

End idempotency.

(** ** Effects *)

Section effects.
Context {C M A T TI TP TS TO : Type}.
Local Abbreviation world := (@SubmissionWorld C M A T TI TP TS TO).
Local Abbreviation eff := (@Eff C M A T TI TP TS TO).

Lemma eff_bind_ok {X Y} (m : eff X) (k : X -> eff Y) w plan y w' plan' :
  eff_bind m k w plan = (Ok y, w', plan') <->
  exists x w1 plan1, m w plan = (Ok x, w1, plan1) /\ k x w1 plan1 = (Ok y, w', plan').
Proof.
  unfold eff_bind. destruct (m w plan) as [[[x|e] w1] plan1]; split.
  - intros H. by exists x, w1, plan1.
  - by intros (? & ? & ? & [= -> -> ->] & ?).
  - done.
  - by intros (? & ? & ? & ? & ?).
Qed.

Lemma eff_bind_run {X Y} (m : eff X) (k : X -> eff Y) w plan x w' plan' :
  m w plan = (Ok x, w', plan') -> eff_bind m k w plan = k x w' plan'.
Proof. unfold eff_bind. by intros ->. Qed.

Lemma write_ok (f : world -> world) w plan w' plan' u : write f w plan = (Ok u, w', plan') -> w' = f w.
Proof. unfold write. destruct (next_outcome plan); [by intros [= _ <- _]|done..]. Qed.

Lemma read_ok {X} (f : world -> result exn X) w plan x w' plan' :
  read f w plan = (Ok x, w', plan') -> f w = Ok x /\ w' = w.
Proof. unfold read. destruct (next_outcome plan); [by intros [= -> <- _]|done..]. Qed.

Lemma write_each_ok {X} (f : X -> world -> world) l w plan w' plan' u :
  write_each f l w plan = (Ok u, w', plan') -> w' = exec_all f l w.
Proof.
  revert w plan. induction l as [|x l IH]; intros w plan; cbn; [by intros [= _ <- _]|].
  intros (u1 & w1 & plan1 & H1%write_ok & H2)%eff_bind_ok. subst. by apply IH in H2.
Qed.

(** Without failures every call takes effect. *)
Lemma write_each_answers {X} (f : X -> world -> world) l w : write_each f l w [] = (Ok tt, exec_all f l w, []).
Proof. revert w. induction l as [|x l IH]; intros w; [done|]. cbn. unfold eff_bind. cbn. apply IH. Qed.

End effects.

(** ** Inserting a list *)

Lemma lookup_insert_all `{Countable K} {X V} (k : X -> K) (v : X -> V) l (m : gmap K V) x :
  NoDup (k <$> l) -> x ∈ l -> exec_all (fun x m => <[k x := v x]> m) l m !! k x = Some (v x).
Proof.
  revert m. induction l as [|y l IH]; intros m Hnd Hx; [by apply not_elem_of_nil in Hx|].
  cbn in Hnd. apply NoDup_cons in Hnd as [Hnin Hnd]. rewrite exec_all_cons.
  apply elem_of_cons in Hx as [->|Hx]; [|by apply IH].
  assert (forall m', exec_all (fun x m => <[k x := v x]> m) l m' !! k y = m' !! k y) as ->; [|apply lookup_insert_eq].
  clear Hnd IH. revert Hnin. induction l as [|z l IH]; intros Hnin m'; [done|]. rewrite exec_all_cons.
  cbn in Hnin. apply not_elem_of_cons in Hnin as [Hne Hnin]. rewrite IH by done. by apply lookup_insert_ne.
Qed.

Lemma NoDup_fmap_fmap {X Y Z'} (f : X -> Y) (g : X -> Z') l :
  (forall x y, g x = g y -> f x = f y) -> NoDup (f <$> l) -> NoDup (g <$> l).
Proof.
  intros Hfg. induction l as [|x l IH]; cbn; [constructor|]. intros [Hnin Hnd]%NoDup_cons.
  apply NoDup_cons. split; [|by apply IH]. intros (y & Hy & Hin)%list_elem_of_fmap. apply Hnin.
  apply list_elem_of_fmap. exists y. split; [by apply Hfg|done].
Qed.

(** ** What validation establishes *)

Definition valid_algorithm (t : DeviceDeliveryTarget) : Prop :=
  tg_algorithm t = "XChaCha20-Poly1305" \/ tg_algorithm t = "AES-256-GCM".

Lemma validate_target_ok t seen seen' :
  validate_target t seen = Ok seen' ->
  (device_str (tg_recipient_device_id t) ∉ seen) /\ seen' = ({[ device_str (tg_recipient_device_id t) ]} ∪ seen) /\
  valid_algorithm t.
Proof.
  unfold validate_target, valid_algorithm. intros H.
  repeat match type of H with (if ?b then _ else _) = _ => destruct b eqn:?; [discriminate H|] end.
  injection H as <-. bool_to_prop. split; [done|]. split; [done|].
  destruct (String.eqb_spec (tg_algorithm t) "XChaCha20-Poly1305"); [by left|].
  destruct (String.eqb_spec (tg_algorithm t) "AES-256-GCM"); [by right|done].
Qed.

Lemma validate_targets_ok l seen :
  validate_targets l seen = Ok tt ->
  NoDup ((fun t => device_str (tg_recipient_device_id t)) <$> l) /\ Forall valid_algorithm l /\
  forall t, t ∈ l -> device_str (tg_recipient_device_id t) ∉ seen.
Proof.
  revert seen. induction l as [|t l IH]; intros seen H.
  { split; [constructor|]. split; [done|]. intros t []%not_elem_of_nil. }
  cbn in H. apply bind_ok in H as (seen' & (Hd & -> & Ha)%validate_target_ok & (Hnd & Hal & Hl)%IH).
  split; [|split].
  - cbn. apply NoDup_cons. split; [|done]. intros (t' & Heq & Ht')%list_elem_of_fmap.
    apply Hl in Ht'. rewrite <- Heq in Ht'. set_solver.
  - by constructor.
  - intros t' [->|Ht']%elem_of_cons; [done|]. apply Hl in Ht'. set_solver.
Qed.

Lemma validate_ok now cmd :
  validate now cmd = Ok tt ->
  NoDup ((fun t => device_str (tg_recipient_device_id t)) <$> sc_delivery_targets cmd) /\
  Forall valid_algorithm (sc_delivery_targets cmd) /\ sc_delivery_targets cmd <> [].
Proof.
  unfold validate. intros H.
  repeat match type of H with (if ?b then _ else _) = _ => destruct b eqn:?; [discriminate H|] end.
  bool_to_prop. by destruct (validate_targets_ok _ _ H) as (? & ? & _).
Qed.

(** ** Submissions *)

(** The maps the stores represent. *)
Record Stores := mkStores {
  st_messages : MessageMap;
  st_idem : IdemMap;
  st_pending : PendingMap;
  st_states : StateMap;
  st_outbox : OutboxMap;
}.

(** Identifiers of the width their types have, protocol versions the wire format
    names, a time of the 64-bit clock. *)
Definition command_wf (cmd : MessageSubmissionCommand) : Prop :=
  Uuid.wf (conversation_bytes (sc_conversation_id cmd)) /\
  Forall (fun t => tg_protocol_version t <> ProtoUnspecified) (sc_delivery_targets cmd).

Definition input_wf (i : SubmissionInput) : Prop :=
  Uuid.wf (message_bytes (in_message_id i)) /\ 0 <= in_accepted_at i < 2 ^ 63.

Section submissions.
Context {C M A T TI TP TS TO : Type}.
Context `{!ConversationRepository C, !MembershipRepository M}.
Context `{!CqlTable T MessagePartition MessageCluster, !SequenceAllocator A T}.
Context `{!CqlTable TI string string, !CqlTable TP PendingPartition PendingCluster, !CqlTable TS string string}.
Context `{!CqlTable TO string OutboxCluster}.
Context (sha256_hex : string -> string).
Context (envelope_check : option (MessageSubmissionCommand -> list UserId -> ServiceResult unit)).
Local Abbreviation world := (@SubmissionWorld C M A T TI TP TS TO).
Implicit Types (w : world) (st : Stores) (cmd : MessageSubmissionCommand) (i : SubmissionInput).

Definition stores_repr w st : Prop :=
  message_repr (w_messages w) (st_messages st) /\ idem_repr (w_idempotency w) (st_idem st) /\
  pending_repr (w_delivery w) (st_pending st) /\ state_repr (w_delivery w) (st_states st) /\
  outbox_repr (w_outbox w) (st_outbox st).

(** The allocator can tell where each conversation and month is, short of the
    greatest number a [bigint] column holds. *)
Definition allocator_ready w : Prop :=
  forall c b, key_wf c b -> exists n, current c b (w_messages w) (w_allocator w) = Ok n /\ 0 <= n < 2 ^ 63 - 1.

(** What an accepted submission leaves in the stores. *)
Definition outbox_row (cmd : MessageSubmissionCommand) i (sequence : Z) (bucket : string) : OutboxEventRecord :=
  outbox_record bucket (event_of cmd i sequence).

Definition persisted (cmd : MessageSubmissionCommand) i (b : MessageBucket) (sequence : Z) (fingerprint : string) st : Prop :=
  st_messages st !! message_key (message_of cmd i b sequence) = Some (stored_message (message_of cmd i b sequence)) /\
  (forall t, t ∈ sc_delivery_targets cmd ->
     st_pending st !! pending_key (pending_of cmd i b sequence t) = Some (stored_record (pending_of cmd i b sequence t)) /\
     st_states st !! state_key (state_of i t) = Some (stored_state (state_of i t))) /\
  (exists bucket, st_outbox st !! outbox_key (outbox_row cmd i sequence bucket)
                  = Some (stored_outbox (outbox_row cmd i sequence bucket))) /\
  st_idem st !! (device_str (sc_sender_device_id cmd), sc_client_idempotency_token cmd)
  = Some (stored_idem (committed_record cmd fingerprint (in_message_id i) sequence (in_accepted_at i))).

Lemma pending_of_wf cmd i b sequence t :
  command_wf cmd -> input_wf i -> 0 <= sequence < 2 ^ 63 -> valid_algorithm t -> t ∈ sc_delivery_targets cmd ->
  record_wf (pending_of cmd i b sequence t).
Proof.
  intros [Hc Hp] [Hm _] Hs Ha Ht. rewrite Forall_forall in Hp. unfold record_wf. cbn.
  split; [done|]. split; [done|]. split; [unfold in_u64; lia|]. split; [|by apply Hp].
  by destruct Ha as [-> | ->].
Qed.

Lemma on_delivery_all {X} (f : X -> DeliveryStateRepository TP TS -> DeliveryStateRepository TP TS) l w :
  exec_all (fun x => on_delivery (f x)) l w = on_delivery (exec_all f l) w.
Proof. revert w. induction l as [|x l IH]; intros w; [by destruct w|]. rewrite !exec_all_cons, IH. done. Qed.

(** Saving the rows of all targets. *)
Lemma save_pendings_repr (repo : DeliveryStateRepository TP TS) m sm (r : DeviceDeliveryTarget -> DeviceDeliveryRecord) l :
  (forall t, t ∈ l -> record_wf (r t)) -> pending_repr repo m -> state_repr repo sm ->
  let repo' := exec_all (fun t => save_pending_one (r t)) l repo in
  pending_repr repo' (exec_all (fun t m => <[pending_key (r t) := stored_record (r t)]> m) l m) /\ state_repr repo' sm.
Proof.
  cbn zeta. revert repo m. induction l as [|t l IH]; intros repo m Hwf Hp Hs; [done|]. rewrite !exec_all_cons.
  apply IH; [intros; apply Hwf; by right| |done].
  apply (pending_sim (SavePending (r t)) repo m Hp). apply Hwf. left.
Qed.

Lemma save_states_repr (repo : DeliveryStateRepository TP TS) pm m (s : DeviceDeliveryTarget -> RecipientDeliveryState) l :
  (forall t, t ∈ l -> Uuid.wf (message_bytes (rs_message_id (s t)))) -> pending_repr repo pm -> state_repr repo m ->
  let repo' := exec_all (fun t => save_state_one (s t)) l repo in
  pending_repr repo' pm /\ state_repr repo' (exec_all (fun t m => <[state_key (s t) := stored_state (s t)]> m) l m).
Proof.
  cbn zeta. revert repo m. induction l as [|t l IH]; intros repo m Hwf Hp Hs; [done|]. rewrite !exec_all_cons.
  apply IH; [intros; apply Hwf; by right|done|].
  apply save_state_sim; [done|]. apply Hwf. left.
Qed.

(** The world after a complete run of the [try] body. *)
Definition persisted_world (cmd : MessageSubmissionCommand) (fingerprint : string) i (b : MessageBucket) (sequence : Z)
    (a : A) w : world :=
  on_idempotency (save_submission (committed_record cmd fingerprint (in_message_id i) sequence (in_accepted_at i)))
    (on_outbox (fun t => default t (enqueue_event (event_of cmd i sequence) EmptyString t))
      (on_delivery (exec_all (fun t => save_state_one (state_of i t)) (sc_delivery_targets cmd))
        (on_delivery (exec_all (fun t => save_pending_one (pending_of cmd i b sequence t)) (sc_delivery_targets cmd))
          (on_messages (save_message (message_of cmd i b sequence)) (set_allocator a w))))).

Definition accepted_response cmd i (sequence : Z) : MessageSubmissionResponse :=
  mkSubmissionResponse (in_message_id i) (sc_conversation_id cmd) sequence (in_accepted_at i) DELIVERY_STATE_QUEUED false.

Lemma persist_ok cmd fingerprint i w plan r w' plan' :
  persist cmd fingerprint i w plan = (Ok r, w', plan') ->
  exists b sequence a, from_time_point (in_accepted_at i) = Ok b /\
    allocate_sequence (sc_conversation_id cmd) b (w_messages w) (w_allocator w) = Ok (sequence, a) /\
    w' = persisted_world cmd fingerprint i b sequence a w /\ r = Ok (accepted_response cmd i sequence).
Proof.
  unfold persist, lift, allocate, mark_record. intros H.
  apply eff_bind_ok in H as (b & w0 & p0 & [= Hb -> _] & H).
  apply eff_bind_ok in H as (sequence & w1 & p1 & Hseq & H).
  apply eff_bind_ok in Hseq as ([n a] & w2 & p2 & Hr & [= <- <- <-]). apply read_ok in Hr as [Ha ->].
  apply eff_bind_ok in H as (u3 & w3 & p3 & ->%write_ok & H).
  apply eff_bind_ok in H as (u4 & w4 & p4 & ->%write_each_ok & H).
  apply eff_bind_ok in H as (u5 & w5 & p5 & ->%write_each_ok & H).
  apply eff_bind_ok in H as (u6 & w6 & p6 & ->%write_ok & H).
  apply eff_bind_ok in H as (u7 & w7 & p7 & ->%write_ok & [= <- <- _]).
  exists b, n, a. split; [done|]. split; [done|]. split; [|done]. unfold persisted_world. by rewrite !on_delivery_all.
Qed.

Lemma persist_answers cmd fingerprint i w b sequence a :
  from_time_point (in_accepted_at i) = Ok b ->
  allocate_sequence (sc_conversation_id cmd) b (w_messages w) (w_allocator w) = Ok (sequence, a) ->
  persist cmd fingerprint i w []
  = (Ok (Ok (accepted_response cmd i sequence)), persisted_world cmd fingerprint i b sequence a w, []).
Proof.
  intros Hb Ha. unfold persist, lift, allocate, mark_record, eff_bind, read, write. cbn. rewrite Hb, Ha. cbn.
  rewrite !write_each_answers, !on_delivery_all. done.
Qed.

Lemma outbox_bucket_some tp : 0 <= tp -> exists bucket, outbox_bucket_from_time_point tp = Some bucket.
Proof.
  intros Htp. unfold outbox_bucket_from_time_point. destruct (utc_date_spec (day_of tp)) as (n & Hn & _).
  - unfold day_of, ns_per_s. Z.to_euclidean_division_equations. lia.
  - unfold day_of in Hn. rewrite Hn. cbn. by eexists.
Qed.

Lemma persisted_world_repr cmd fingerprint i b sequence a w st :
  stores_repr w st -> command_wf cmd -> input_wf i -> bucket_wf b -> 0 <= sequence < 2 ^ 63 ->
  NoDup ((fun t => device_str (tg_recipient_device_id t)) <$> sc_delivery_targets cmd) ->
  Forall valid_algorithm (sc_delivery_targets cmd) ->
  exists st', stores_repr (persisted_world cmd fingerprint i b sequence a w) st' /\
    persisted cmd i b sequence fingerprint st'.
Proof.
  intros (Hm & Hi & Hp & Hs & Ho) Hcmd Hin Hb Hseq Hnd Hal. pose proof Hcmd as [Hc _]. pose proof Hin as [Hmid Htime].
  set (l := sc_delivery_targets cmd) in *.
  destruct (save_pendings_repr (w_delivery w) (st_pending st) (st_states st) (pending_of cmd i b sequence) l) as [Hp1 Hs1];
    [|done|done|].
  { intros t Ht. rewrite Forall_forall in Hal. by apply pending_of_wf; auto. }
  destruct (save_states_repr _ _ _ (state_of i) l (fun _ _ => Hmid) Hp1 Hs1) as [Hp2 Hs2].
  destruct (outbox_bucket_some (in_accepted_at i)) as [bucket Hbucket]; [lia|].
  exists (mkStores (message_spec (message_of cmd i b sequence) (st_messages st))
    (<[idem_key (committed_record cmd fingerprint (in_message_id i) sequence (in_accepted_at i)) :=
       stored_idem (committed_record cmd fingerprint (in_message_id i) sequence (in_accepted_at i))]> (st_idem st))
    (exec_all (fun t m => <[pending_key (pending_of cmd i b sequence t) := stored_record (pending_of cmd i b sequence t)]> m)
       l (st_pending st))
    (exec_all (fun t m => <[state_key (state_of i t) := stored_state (state_of i t)]> m) l (st_states st))
    (<[outbox_key (outbox_row cmd i sequence bucket) := stored_outbox (outbox_row cmd i sequence bucket)]> (st_outbox st))).
  split.
  - unfold stores_repr, persisted_world. cbn. split; [by apply save_message_repr|].
    split; [apply save_submission_repr; [split; [done|split; [done|]]; unfold in_u64; cbn; lia|done]|].
    split; [done|]. split; [done|]. unfold enqueue_event, outbox_bucket_of. cbn. rewrite Hbucket. cbn.
    by apply (enqueue_row_repr _ _ (outbox_row cmd i sequence bucket)).
  - unfold persisted. cbn. split; [apply lookup_insert_eq|]. split; [|split; [exists bucket|]; apply lookup_insert_eq].
    intros t Ht. split.
    + apply (lookup_insert_all (fun t => pending_key (pending_of cmd i b sequence t))
        (fun t => stored_record (pending_of cmd i b sequence t))); [|done].
      eapply NoDup_fmap_fmap; [|exact Hnd]. by intros t1 t2 [= ?].
    + apply (lookup_insert_all (fun t => state_key (state_of i t)) (fun t => stored_state (state_of i t))); [|done].
      eapply NoDup_fmap_fmap; [|exact Hnd]. by intros t1 t2 [= ?].
Qed.

Definition world_ok w : Prop := (exists st, stores_repr w st) /\ allocator_ready w.

Lemma wait_loop_ok others n cmd fingerprint w plan action w' plan' :
  (forall k w, world_ok w -> world_ok (others k w)) -> world_ok w ->
  wait_loop others n cmd fingerprint w plan = (Ok action, w', plan') -> world_ok w'.
Proof.
  intros Hothers. revert w plan. induction n as [|n IH]; intros w plan Hw H; cbn [wait_loop] in H; [by inversion H; subst|].
  apply eff_bind_ok in H as (u & w1 & p1 & Hs & H). inversion Hs; subst; clear Hs. specialize (Hothers n w Hw) as Hw1.
  apply eff_bind_ok in H as (a & w2 & p2 & He & H). unfold evaluate_submission in He.
  apply eff_bind_ok in He as (r & w3 & p3 & [_ ->]%read_ok & Hret). inversion Hret; subst; clear Hret.
  destruct (evaluate_record cmd fingerprint r); try (by inversion H; subst). by eapply IH.
Qed.

Lemma processing_record_wf cmd fingerprint i :
  command_wf cmd -> input_wf i -> idem_wf (processing_record cmd fingerprint (in_message_id i) (in_processing_time i)).
Proof. intros [Hc _] [Hm _]. split; [done|]. split; [done|]. unfold in_u64. cbn. lia. Qed.

Lemma mark_record_repr r w st :
  stores_repr w st -> idem_wf r ->
  stores_repr (on_idempotency (save_submission r) w)
    (mkStores (st_messages st) (<[idem_key r := stored_idem r]> (st_idem st)) (st_pending st) (st_states st) (st_outbox st)).
Proof. intros (Hm & Hi & Hp & Hs & Ho) Hwf. unfold stores_repr. cbn. split_and!; try done. by apply save_submission_repr. Qed.

Lemma allocation_bound w c b sequence a :
  allocator_ready w -> key_wf c b -> allocate_sequence c b (w_messages w) (w_allocator w) = Ok (sequence, a) ->
  exists n, current c b (w_messages w) (w_allocator w) = Ok n /\ sequence = n + 1 /\ 0 <= n < 2 ^ 63 - 1.
Proof.
  intros Hready Hk Ha. destruct (Hready c b Hk) as (n & Hn & Hr).
  destruct (allocate_spec _ _ _ _ _ Hk Hn) as (a' & Ha' & _). rewrite Ha' in Ha. injection Ha as <- _.
  exists n. split; [done|]. split; [|done]. apply u64_small. unfold in_u64. lia.
Qed.

(** C1.  Acceptance is durable.  Whatever calls to the database fail, before or after
    they took effect, and whatever other threads do while a submission waits: when
    [submit_message] answers that a message was newly accepted, the message, the queue
    entry and the delivery state of every target, the outbox event and the committed
    idempotency record are all stored, and the answer carries their identifier and
    number. *)
Theorem accepted_submission_is_durable others cmd i w plan resp w' plan'
    (Hw : world_ok w) (Hothers : forall k w, world_ok w -> world_ok (others k w))
    (Hcmd : command_wf cmd) (Hin : input_wf i)
    (Hrun : submit_message sha256_hex envelope_check others cmd i w plan = (Ok (Ok resp), w', plan'))
    (Hnew : sr_is_replay resp = false) :
  exists st b sequence, stores_repr w' st /\ from_time_point (in_accepted_at i) = Ok b /\
    resp = accepted_response cmd i sequence /\
    persisted cmd i b sequence (calculate_submission_fingerprint sha256_hex cmd) st.
Proof.
  unfold submit_message in Hrun. destruct (check_submission envelope_check cmd i w) as [[]|e] eqn:Hcheck; [|done].
  unfold check_submission in Hcheck. apply bind_ok in Hcheck as ([] & (Hnd & Hal & _)%validate_ok & _).
  set (fp := calculate_submission_fingerprint sha256_hex cmd) in *.
  apply eff_bind_ok in Hrun as (action0 & w1 & p1 & He & Hrun). unfold evaluate_submission in He.
  apply eff_bind_ok in He as (r0 & w0 & p0 & [_ ->]%read_ok & [= <- <- _]).
  apply eff_bind_ok in Hrun as (action & w2 & p2 & Hwait & Hrun).
  assert (Hw2 : world_ok w2).
  { destruct (evaluate_record cmd fp r0); try (by injection Hwait as _ <- _). by eapply wait_loop_ok. }
  destruct action as [|cached| |]; [|by inversion Hrun; subst..].
  apply eff_bind_ok in Hrun as (u3 & w3 & p3 & ->%write_ok & Hrun).
  destruct Hw2 as [[st Hst] Hready]. unfold try_persist in Hrun.
  destruct (persist cmd fp i _ p3) as [[[r|e] w4] p4] eqn:Hp.
  2:{ apply eff_bind_ok in Hrun as (u5 & w5 & p5 & _ & H5). done. }
  injection Hrun as -> -> ->. apply persist_ok in Hp as (b & sequence & a & Hb & Ha & -> & [= ->]).
  pose proof (mark_record_repr _ _ _ Hst (processing_record_wf cmd fp i Hcmd Hin)) as Hst1.
  destruct (from_time_point_month _ _ Hb) as (_ & _ & _ & Hbw).
  destruct (allocation_bound w2 (sc_conversation_id cmd) b sequence a) as (n & _ & -> & Hn);
    [done|by split; [apply Hcmd|]|done|].
  destruct (persisted_world_repr cmd fp i b (n + 1) a _ _ Hst1 Hcmd Hin Hbw) as (st' & Hr' & Hp'); [lia|done..|].
  by exists st', b, (n + 1).
Qed.

Lemma evaluate_answers cmd fp w st :
  stores_repr w st ->
  evaluate_submission cmd fp w []
  = (Ok (evaluate_record cmd fp (st_idem st !! (device_str (sc_sender_device_id cmd), sc_client_idempotency_token cmd))),
     w, []).
Proof.
  intros (_ & Hi & _). unfold evaluate_submission, eff_bind, read. cbn. by rewrite (find_submission_spec _ _ _ _ Hi).
Qed.

(** A submission without failures is decided by its record. *)
Lemma submit_answers others cmd i w st :
  stores_repr w st -> check_submission envelope_check cmd i w = Ok tt ->
  let fp := calculate_submission_fingerprint sha256_hex cmd in
  submit_message sha256_hex envelope_check others cmd i w []
  = match evaluate_record cmd fp (st_idem st !! (device_str (sc_sender_device_id cmd), sc_client_idempotency_token cmd)) with
    | ReturnCached r =>
        (Ok (Ok (mkSubmissionResponse (ir_message_id r) (ir_conversation_id r) (ir_message_sequence r) (ir_created_at r)
                   DELIVERY_STATE_QUEUED true)), w, [])
    | RejectConflict => (Ok (Err IDEMPOTENCY_CONFLICT), w, [])
    | ProceedNew =>
        try_persist cmd fp i
          (on_idempotency (save_submission (processing_record cmd fp (in_message_id i) (in_processing_time i))) w) []
    | IdemRetryWait => submit_message sha256_hex envelope_check others cmd i w []
    end.
Proof.
  intros Hst Hcheck. cbn zeta. unfold submit_message. rewrite Hcheck.
  rewrite (eff_bind_run _ _ _ _ _ _ _ (evaluate_answers cmd _ w st Hst)).
  destruct (evaluate_record cmd _ _); done.
Qed.

(** ** What later submissions leave alone *)

Section later.
Context (device : DeviceId) (token : string).

Definition record_in w : result exn (option IdempotencyRecord) := find_submission device token (w_idempotency w).

(** A computation after which the record under the key is the same. *)
Definition leaves_record {X} (m : @Eff C M A T TI TP TS TO X) : Prop :=
  forall w plan, record_in (m w plan).1.2 = record_in w.

Lemma leaves_ret {X} (x : X) : leaves_record (ret x).
Proof. done. Qed.

Lemma leaves_bind {X Y} (m : @Eff C M A T TI TP TS TO X) (k : X -> @Eff C M A T TI TP TS TO Y) :
  leaves_record m -> (forall x, leaves_record (k x)) -> leaves_record (eff_bind m k).
Proof.
  intros Hm Hk w plan. unfold eff_bind. specialize (Hm w plan). destruct (m w plan) as [[[x|e] w1] plan1]; [|done]. cbn in Hm. by rewrite Hk.
Qed.

Lemma leaves_read {X} (f : world -> result exn X) : leaves_record (read f).
Proof. intros w plan. unfold read. by destruct (next_outcome plan). Qed.

Lemma leaves_write (f : world -> world) : (forall w, record_in (f w) = record_in w) -> leaves_record (write f).
Proof. intros Hf w plan. unfold write. by destruct (next_outcome plan); cbn. Qed.

Lemma leaves_write_each {X} (f : X -> world -> world) l : (forall x w, record_in (f x w) = record_in w) -> leaves_record (write_each f l).
Proof. intros Hf. induction l as [|x l IH]; [apply leaves_ret|]. apply leaves_bind; [by apply leaves_write|done]. Qed.

Lemma leaves_mark r : idem_key r <> (device_str device, token) -> leaves_record (mark_record r).
Proof. intros Hr. apply leaves_write. intros w. by apply find_save_ne. Qed.

Lemma leaves_persist cmd fp i :
  (device_str (sc_sender_device_id cmd), sc_client_idempotency_token cmd) <> (device_str device, token) -> leaves_record (persist cmd fp i).
Proof.
  intros Hk. unfold persist, lift, allocate. apply leaves_bind; [done|]. intros b.
  apply leaves_bind; [apply leaves_bind; [apply leaves_read|done]|]. intros sequence.
  apply leaves_bind; [by apply leaves_write|]. intros _. apply leaves_bind; [by apply leaves_write_each|]. intros _.
  apply leaves_bind; [by apply leaves_write_each|]. intros _. apply leaves_bind; [by apply leaves_write|]. intros _.
  apply leaves_bind; [by apply leaves_mark|]. intros _. apply leaves_ret.
Qed.

Lemma leaves_mark_failed d tok : (device_str d, tok) <> (device_str device, token) -> leaves_record (mark_failed d tok).
Proof.
  intros Hk w plan. unfold mark_failed, eff_bind, read. destruct (next_outcome plan); [|done..].
  destruct (find_submission d tok (w_idempotency w)) as [[r|]|] eqn:Hf; [|done..]. apply leaves_mark.
  apply find_submission_key in Hf. unfold idem_key, failed_record in *. cbn in *. congruence.
Qed.

Lemma leaves_try_persist cmd fp i :
  (device_str (sc_sender_device_id cmd), sc_client_idempotency_token cmd) <> (device_str device, token) -> leaves_record (try_persist cmd fp i).
Proof.
  intros Hk w plan. unfold try_persist. pose proof (leaves_persist cmd fp i Hk w plan) as Hp. destruct (persist cmd fp i w plan) as [[[r|e] w1] plan1]; [done|].
  cbn in Hp. rewrite <- Hp. apply leaves_bind; [by apply leaves_mark_failed|]. intros _. apply leaves_ret.
Qed.

Lemma leaves_wait others n cmd fp : (forall k w, record_in (others k w) = record_in w) -> leaves_record (wait_loop others n cmd fp).
Proof.
  intros Ho. induction n as [|n IH]; cbn [wait_loop]; [apply leaves_ret|]. apply leaves_bind; [intros w plan; apply Ho|]. intros _.
  apply leaves_bind; [apply leaves_bind; [apply leaves_read|intros; apply leaves_ret]|]. intros act. destruct act; [apply leaves_ret..|done].
Qed.

(** A submission with another token, or of another device, leaves the record alone,
    whatever calls fail. *)
Lemma leaves_submit others cmd i :
  (forall k w, record_in (others k w) = record_in w) ->
  (device_str (sc_sender_device_id cmd), sc_client_idempotency_token cmd) <> (device_str device, token) ->
  leaves_record (submit_message sha256_hex envelope_check others cmd i).
Proof.
  intros Ho Hk w plan. unfold submit_message. destruct (check_submission envelope_check cmd i w); [|done].
  apply leaves_bind; [apply leaves_bind; [apply leaves_read|intros; apply leaves_ret]|]. intros act.
  apply leaves_bind; [destruct act; [apply leaves_ret..|by apply leaves_wait]|]. intros act'.
  destruct act'; [|apply leaves_ret..]. apply leaves_bind; [by apply leaves_mark|]. intros _. by apply leaves_try_persist.
Qed.

(** With a committed record, a submission under its key changes nothing; its answer is
    the one of the record, unless the checks or the lookup fail. *)
Definition replay_answer (r : IdempotencyRecord) : MessageSubmissionResponse :=
  mkSubmissionResponse (ir_message_id r) (ir_conversation_id r) (ir_message_sequence r) (ir_created_at r) DELIVERY_STATE_QUEUED true.

Lemma submit_committed others cmd i w plan r :
  record_in w = Ok (Some r) -> ir_submission_status r = Committed -> ir_request_fingerprint r <> EmptyString ->
  sc_sender_device_id cmd = device -> sc_client_idempotency_token cmd = token ->
  submit_message sha256_hex envelope_check others cmd i w plan
  = match check_submission envelope_check cmd i w, next_outcome plan with
    | Err e, _ => (Ok (Err e), w, plan)
    | Ok _, Answers =>
        (Ok (if bool_decide (sc_conversation_id cmd = ir_conversation_id r /\ calculate_submission_fingerprint sha256_hex cmd = ir_request_fingerprint r)
             then Ok (replay_answer r) else Err IDEMPOTENCY_CONFLICT), w, tail plan)
    | Ok _, _ => (Err runtime_error, w, tail plan)
    end.
Proof.
  intros Hr Hc Hfp Hd Ht. unfold submit_message. destruct (check_submission envelope_check cmd i w) as [[]|e]; [|done].
  unfold evaluate_submission, eff_bind, read. unfold record_in in Hr. rewrite Hd, Ht, Hr. destruct (next_outcome plan); [|done..]. cbn.
  rewrite (bool_decide_eq_false_2 (ir_request_fingerprint r = EmptyString)) by done. cbn [negb andb].
  destruct (decide (ir_conversation_id r = sc_conversation_id cmd)) as [Hconv|Hconv].
  - rewrite (bool_decide_eq_true_2 (ir_conversation_id r = _)) by done. cbn [negb].
    destruct (decide (ir_request_fingerprint r = calculate_submission_fingerprint sha256_hex cmd)) as [Hf|Hf].
    + rewrite (bool_decide_eq_true_2 _ Hf), (bool_decide_eq_true_2 (_ /\ _)) by done. cbn [negb]. by rewrite Hc.
    + rewrite (bool_decide_eq_false_2 _ Hf), (bool_decide_eq_false_2 (_ /\ _)) by (intros [_ ?]; congruence). done.
  - rewrite (bool_decide_eq_false_2 _ Hconv), (bool_decide_eq_false_2 (_ /\ _)) by (intros [? _]; congruence). done.
Qed.

(** What may happen after a state: submissions one after the other, of any devices, with
    any failures, and anything else that does not write idempotency records. *)
Inductive afterwards : world -> world -> Prop :=
| afterwards_refl w : afterwards w w
| afterwards_submission w cmd i plan w1 :
    afterwards (submit_message sha256_hex envelope_check (fun _ w => w) cmd i w plan).1.2 w1 -> afterwards w w1
| afterwards_other w w1 w2 : w_idempotency w1 = w_idempotency w -> afterwards w1 w2 -> afterwards w w2.

Lemma afterwards_record w w' r :
  afterwards w w' -> record_in w = Ok (Some r) -> ir_submission_status r = Committed -> ir_request_fingerprint r <> EmptyString -> record_in w' = Ok (Some r).
Proof.
  intros Ha. induction Ha as [w|w cmd i plan w1 _ IH|w w1 w2 He _ IH]; intros Hr Hc Hfp; [done| |].
  - apply IH; [|done|done].
    destruct (decide ((device_str (sc_sender_device_id cmd), sc_client_idempotency_token cmd) = (device_str device, token))) as [Hk|Hk].
    + injection Hk as Hd Ht. rewrite (submit_committed _ cmd i w plan r Hr Hc Hfp); [|destruct device, (sc_sender_device_id cmd); cbn in Hd; by subst|done].
      destruct (check_submission envelope_check cmd i w); [|done]. by destruct (next_outcome plan).
    + by rewrite leaves_submit.
  - apply IH; [|done|done]. unfold record_in. by rewrite He.
Qed.
End later.

(** C2.  Exactly once per token.  Without failures of the database, a submission that
    passes the checks and whose token is unused (or whose previous attempt failed) is
    accepted under the next number of its conversation and month.  From then on, after any
    further submissions one after the other, of any devices, with any calls to the database
    failing before or after they took effect, and after anything else that writes no
    idempotency record: a submission of the same device with the same token changes
    nothing.  If it does not pass the checks it gets their error, if the lookup of its
    record fails it throws; otherwise it returns the same message and number when it is for
    the same conversation with the same fingerprint, and is refused as a conflict when it
    is not.  (The hash, SHA-256 in hexadecimal, is never the empty text.) *)
Theorem submission_exactly_once others cmd i w st
    (Hsha : forall s, sha256_hex s <> EmptyString)
    (Hst : stores_repr w st) (Hready : allocator_ready w) (Hcmd : command_wf cmd) (Hin : input_wf i)
    (Hcheck : check_submission envelope_check cmd i w = Ok tt)
    (Hnew : evaluate_record cmd (calculate_submission_fingerprint sha256_hex cmd)
              (st_idem st !! (device_str (sc_sender_device_id cmd), sc_client_idempotency_token cmd)) = ProceedNew) :
  exists b n w', from_time_point (in_accepted_at i) = Ok b /\
    current (sc_conversation_id cmd) b (w_messages w) (w_allocator w) = Ok n /\
    submit_message sha256_hex envelope_check others cmd i w [] = (Ok (Ok (accepted_response cmd i (n + 1))), w', []) /\
    forall w'' others' cmd' i' plan, afterwards w' w'' ->
      sc_sender_device_id cmd' = sc_sender_device_id cmd -> sc_client_idempotency_token cmd' = sc_client_idempotency_token cmd ->
      submit_message sha256_hex envelope_check others' cmd' i' w'' plan
      = match check_submission envelope_check cmd' i' w'', next_outcome plan with
        | Err e, _ => (Ok (Err e), w'', plan)
        | Ok _, Answers =>
            (Ok (if bool_decide (sc_conversation_id cmd' = sc_conversation_id cmd /\
                                 calculate_submission_fingerprint sha256_hex cmd' = calculate_submission_fingerprint sha256_hex cmd)
                 then Ok (mkSubmissionResponse (in_message_id i) (sc_conversation_id cmd) (n + 1) (stored_time (in_accepted_at i))
                            DELIVERY_STATE_QUEUED true)
                 else Err IDEMPOTENCY_CONFLICT), w'', tail plan)
        | Ok _, _ => (Err runtime_error, w'', tail plan)
        end.
Proof.
  pose proof (submit_answers others cmd i w st Hst Hcheck) as Hrun. cbn zeta in Hrun. rewrite Hnew in Hrun.
  set (fp := calculate_submission_fingerprint sha256_hex cmd) in *.
  pose proof (mark_record_repr _ _ _ Hst (processing_record_wf cmd fp i Hcmd Hin)) as Hst1.
  destruct (from_time_point_total (in_accepted_at i)) as [b Hb]; [apply Hin|].
  destruct (from_time_point_month _ _ Hb) as (_ & _ & _ & Hbw).
  assert (key_wf (sc_conversation_id cmd) b) as Hk by (split; [apply Hcmd|done]).
  destruct (Hready _ _ Hk) as (n & Hn & Hr). destruct (allocate_spec _ _ _ _ _ Hk Hn) as (a & Ha & _).
  rewrite u64_small in Ha by (unfold in_u64; lia).
  unfold try_persist in Hrun. erewrite persist_answers in Hrun by (done || exact Ha).
  apply bind_ok in Hcheck as ([] & (Hnd & Hal & _)%validate_ok & _).
  destruct (persisted_world_repr cmd fp i b (n + 1) a _ _ Hst1 Hcmd Hin Hbw) as (st' & Hr' & Hp'); [lia|done..|].
  destruct Hp' as (_ & _ & _ & Hidem).
  eexists b, n, _. split; [done|]. split; [done|]. split; [exact Hrun|].
  intros w'' others' cmd' i' plan Hafter Hd Ht.
  eapply afterwards_record in Hafter; [|unfold record_in; rewrite (find_submission_spec _ _ _ _ (proj1 (proj2 Hr'))), Hidem; reflexivity|done|apply Hsha].
  by rewrite (submit_committed _ _ others' cmd' i' w'' plan _ Hafter eq_refl (Hsha _) Hd Ht).
Qed.

End submissions.

(** ** The fingerprint *)

Lemma target_le_antisym a b :
  target_le a b -> target_le b a -> device_str (tg_recipient_device_id a) = device_str (tg_recipient_device_id b).
Proof.
  unfold target_le. intros H1 H2. destruct (decide (_ = _)) as [Heq|Hne]; [done|].
  rewrite decide_False in H2 by congruence. by apply (anti_symm String.le).
Qed.

#[local] Instance target_le_total : Total target_le.
Proof.
  intros a b. unfold target_le. destruct (decide (_ = _)) as [Heq|Hne].
  - rewrite decide_True by done. apply (total String.le).
  - rewrite decide_False by congruence. apply (total String.le).
Qed.

#[local] Instance target_le_transitive : Transitive target_le.
Proof.
  intros a b c. unfold target_le. intros H1 H2.
  destruct (decide (device_str (tg_recipient_device_id a) = device_str (tg_recipient_device_id b))) as [Hab|Hab],
    (decide (device_str (tg_recipient_device_id b) = device_str (tg_recipient_device_id c))) as [Hbc|Hbc].
  - rewrite decide_True by congruence. by etransitivity.
  - rewrite decide_False by congruence. by rewrite Hab.
  - rewrite decide_False by congruence. by rewrite <- Hbc.
  - case_decide as Hac; [|by etransitivity].
    destruct Hab. apply (anti_symm String.le); [done|]. by rewrite Hac.
Qed.

(** Distinct recipient devices have one sorted order. *)
Lemma sorted_targets_unique l l' :
  NoDup ((fun t => device_str (tg_recipient_device_id t)) <$> l) -> l ≡ₚ l' ->
  merge_sort target_le l = merge_sort target_le l'.
Proof.
  intros Hnd. apply (merge_sort_keyed_unique target_le (fun t => device_str (tg_recipient_device_id t))); [|done].
  apply target_le_antisym.
Qed.

Lemma append_inj_1 a b c d : chars a = chars b -> String.append a c = String.append b d -> c = d.
Proof.
  intros Hab H. apply (f_equal chars) in H. rewrite !chars_append, Hab in H. apply app_inv_head in H. by apply chars_inj.
Qed.

(** The fingerprint of a valid command does not depend on the order of its
    targets, and what it hashes determines, among the commands of one device, the
    conversation and the priority. *)
Theorem fingerprint_canonical (sha256_hex : string -> string) (now : Z) (cmd cmd' : MessageSubmissionCommand)
    (Hvalid : validate now cmd = Ok tt)
    (Hconv : Uuid.wf (conversation_bytes (sc_conversation_id cmd)) /\ Uuid.wf (conversation_bytes (sc_conversation_id cmd')))
    (Hdevice : sc_sender_device_id cmd' = sc_sender_device_id cmd) :
  (sc_conversation_id cmd' = sc_conversation_id cmd -> sc_priority cmd' = sc_priority cmd ->
   sc_delivery_targets cmd ≡ₚ sc_delivery_targets cmd' ->
   calculate_submission_fingerprint sha256_hex cmd' = calculate_submission_fingerprint sha256_hex cmd) /\
  (canonical_payload sha256_hex cmd' = canonical_payload sha256_hex cmd ->
   sc_conversation_id cmd' = sc_conversation_id cmd /\ sc_priority cmd' = sc_priority cmd).
Proof.
  destruct (validate_ok _ _ Hvalid) as (Hnd & _ & _). split.
  - intros Hc Hp Hperm. unfold calculate_submission_fingerprint, canonical_payload.
    by rewrite Hc, Hp, Hdevice, (sorted_targets_unique _ _ Hnd Hperm).
  - unfold canonical_payload. intros H. destruct Hconv as [Hc Hc'].
    assert (chars (ConversationId_to_string (sc_conversation_id cmd'))
            = chars (ConversationId_to_string (sc_conversation_id cmd))) as Hconv.
    { apply (f_equal chars) in H. rewrite !chars_append in H.
      apply app_inj_1 in H as [H _]; [done|]. by rewrite !conversation_text_length. }
    apply append_inj_1 in H; [|done]. apply append_inj_1 in H; [|done]. rewrite Hdevice in H.
    apply append_inj_1 in H; [|done]. apply append_inj_1 in H; [|done].
    split; [by apply chars_inj, conversation_text_inj in Hconv|].
    destruct (sc_priority cmd), (sc_priority cmd'); done.
Qed.

(** ** A concrete service *)

#[local] Abbreviation mem_world := (@SubmissionWorld InMemoryConversationRepository InMemoryMembershipRepository
  ConversationSequenceAllocator (GTable MessagePartition MessageCluster) (GTable string string)
  (GTable PendingPartition PendingCluster) (GTable string string) (GTable string OutboxCluster)).

#[local] Instance mem_allocator :
  SequenceAllocator ConversationSequenceAllocator (GTable MessagePartition MessageCluster) :=
  conversation_sequences (fun _ => 0).

Definition sender : UserId := mkUserId "00000000-0000-7000-8000-000000000001".
Definition recipient : UserId := mkUserId "00000000-0000-7000-8000-000000000002".

(** A group with its creator, and empty stores. *)
Definition world_0 : mem_world :=
  mkWorld (conv_step (OpCreateGroup sender "team" [] conv_1 5 stamp_0) mem_empty) (mkAllocator ∅) ∅ ∅ (mkRepo ∅ ∅) ∅.

Definition target_to (device blob : string) : DeviceDeliveryTarget :=
  mkTarget recipient (mkDeviceId device) blob [1] (replicate 24 0) (replicate 16 0) "XChaCha20-Poly1305"
    V1_Signal_PQXDH_DoubleRatchet None.

Definition command_with (targets : list DeviceDeliveryTarget) : MessageSubmissionCommand :=
  mkSubmission sender (mkDeviceId "d") conv_1 "token" Normal None V1_Signal_PQXDH_DoubleRatchet targets.

Definition hello : MessageSubmissionCommand := command_with [target_to "r" "hello"].

(** The submission in January 2026 under message id [byte], sixteen times. *)
Definition input_with (byte : Z) : SubmissionInput :=
  mkInput 0 (mkMessageId (replicate 16 byte)) 1769000000000000000 1769000000000000000 nil_message_id.

Definition zero_hash (s : string) : string :=
  "0000000000000000000000000000000000000000000000000000000000000000".

Definition alone (k : nat) (w : mem_world) : mem_world := w.

Definition submit_hello (byte : Z) (w : mem_world) (plan : list CallOutcome) :=
  submit_message zero_hash None alone hello (input_with byte) w plan.

Lemma hello_wf : command_wf hello.
Proof. split; [split; [done|]; apply Forall_replicate; lia|]. by repeat constructor. Qed.

Lemma input_with_wf byte : 0 <= byte < 256 -> input_wf (input_with byte).
Proof. intros Hb. split; [split; [done|]; by apply Forall_replicate|]. cbn. lia. Qed.

Lemma world_0_stores : stores_repr world_0 (mkStores ∅ ∅ ∅ ∅ ∅).
Proof.
  split; [apply empty_message_repr|]. split.
  { split; [|apply map_Forall_empty]. intros p c. cbn. by rewrite lookup_empty. }
  split; [apply empty_pending_repr|]. split; [|apply empty_outbox_repr].
  split; [|apply map_Forall_empty]. intros p c. cbn. by rewrite lookup_empty.
Qed.

Lemma world_0_ready : allocator_ready world_0.
Proof.
  intros c b _. exists 0. split; [|lia]. change (get_last_sequence c b (∅ : GTable MessagePartition MessageCluster) = Ok 0).
  destruct (get_last_sequence_spec _ _ c b empty_message_repr) as (n & Hn & _ & _ & [->|(e & He & _)]); [done|].
  apply (elem_of_messages _ _ _ _ _ empty_message_repr) in He as [_ He]. by rewrite lookup_empty in He.
Qed.

Definition accepted_world : mem_world := (submit_hello 7 world_0 []).1.2.

Lemma accepted_run : submit_hello 7 world_0 [] = (Ok (Ok (accepted_response hello (input_with 7) 1)), accepted_world, []).
Proof.
  assert ((submit_hello 7 world_0 []).1.1 = Ok (Ok (accepted_response hello (input_with 7) 1))) as Hr
    by (vm_compute; reflexivity).
  assert ((submit_hello 7 world_0 []).2 = []) as Hp by (vm_compute; reflexivity).
  unfold accepted_world. destruct (submit_hello 7 world_0 []) as [[r w] p]. cbn in *. by subst.
Qed.

Lemma accepted_submission_is_durable_witness :
  exists st b sequence, stores_repr accepted_world st /\
    persisted hello (input_with 7) b sequence (calculate_submission_fingerprint zero_hash hello) st.
Proof.
  destruct (accepted_submission_is_durable zero_hash None alone hello (input_with 7) world_0 []
    (accepted_response hello (input_with 7) 1) accepted_world []) as (st & b & sequence & Hst & _ & _ & Hp).
  - split; [exists (mkStores ∅ ∅ ∅ ∅ ∅); exact world_0_stores|exact world_0_ready].
  - intros k w Hw. exact Hw.
  - exact hello_wf.
  - apply input_with_wf. lia.
  - exact accepted_run.
  - reflexivity.
  - exists st, b, sequence. split; assumption.
Defined.

(** The submission again, after one of another token. *)
Definition other_hello : MessageSubmissionCommand :=
  mkSubmission sender (mkDeviceId "d") conv_1 "another" Normal None V1_Signal_PQXDH_DoubleRatchet [target_to "r" "hello"].

Definition later_world : mem_world := (submit_message zero_hash None alone other_hello (input_with 8) accepted_world [FailsAfter]).1.2.

Lemma submission_exactly_once_witness :
  submit_message zero_hash None alone hello (input_with 9) later_world []
  = (Ok (Ok (mkSubmissionResponse (mkMessageId (replicate 16 7)) conv_1 1 (stored_time 1769000000000000000) DELIVERY_STATE_QUEUED true)), later_world, []).
Proof.
  destruct (submission_exactly_once zero_hash None alone hello (input_with 7) world_0 (mkStores ∅ ∅ ∅ ∅ ∅))
    as (b & n & w' & _ & _ & Hrun & Hlater).
  - discriminate.
  - exact world_0_stores.
  - exact world_0_ready.
  - exact hello_wf.
  - apply input_with_wf. lia.
  - vm_compute. reflexivity.
  - reflexivity.
  - pose proof accepted_run as Hacc. unfold submit_hello in Hacc. rewrite Hrun in Hacc.
    assert (Hinj : forall r W, (Ok (Ok (accepted_response hello (input_with 7) (n + 1))), w', @nil CallOutcome)
      = (Ok (E := exn) (Ok (E := MessagingErrorCode) (accepted_response hello (input_with 7) r)), W, []) -> n + 1 = r /\ w' = W).
    { intros r W H. split; [exact (f_equal (fun x => match x.1.1 with Ok (Ok y) => sr_message_sequence y | _ => 0 end) H)|exact (f_equal (fun x => x.1.2) H)]. }
    destruct (Hinj _ _ Hacc) as [Hn Hw]. rewrite Hn, Hw in Hlater. clear Hrun Hn Hw Hacc Hinj.
    rewrite (Hlater later_world alone hello (input_with 9) []);
      [|apply (afterwards_submission _ _ accepted_world other_hello (input_with 8) [FailsAfter]), afterwards_refl|reflexivity|reflexivity].
    assert (Hcheck : check_submission None hello (input_with 9) later_world = Ok tt) by (vm_compute; reflexivity). rewrite Hcheck. reflexivity.
Defined.

Lemma fingerprint_canonical_witness :
  calculate_submission_fingerprint zero_hash (command_with [target_to "s" "b"; target_to "r" "a"])
  = calculate_submission_fingerprint zero_hash (command_with [target_to "r" "a"; target_to "s" "b"]).
Proof.
  destruct (fingerprint_canonical zero_hash 0 (command_with [target_to "r" "a"; target_to "s" "b"])
    (command_with [target_to "s" "b"; target_to "r" "a"])) as [Hperm _].
  - vm_compute. reflexivity.
  - split; apply hello_wf.
  - reflexivity.
  - apply Hperm; [reflexivity|reflexivity|apply Permutation_swap].
Defined.

(** ** Where it falls short *)

(** The message, its rows and then the outbox event: the event cannot be written. *)
Definition outbox_down : list CallOutcome := [Answers; Answers; Answers; Answers; Answers; Answers; FailsBefore].

Definition stored_ids (w : mem_world) : result exn (list (Z * MessageId)) :=
  let? l := list_messages_by_sequence_range conv_1 (mkBucket "202601" 2026 1) 0 100 10 (w_messages w) in
  Ok ((fun e => (me_message_sequence e, me_message_id e)) <$> l).

(** A retry after a partial failure stores the message twice: the submission fails at
    its outbox event, after the message was stored; the record is marked failed, so the
    retry of the same submission is accepted as new, and two messages remain, each
    with its own number, identifier and queue entry. *)
Theorem retry_after_partial_failure_duplicates :
  let failed := submit_hello 7 world_0 outbox_down in
  let retried := submit_hello 8 failed.1.2 [] in
  failed.1.1 = Ok (Err UNSPECIFIED) /\
  retried.1.1 = Ok (Ok (accepted_response hello (input_with 8) 2)) /\
  stored_ids retried.1.2 = Ok [(1, mkMessageId (replicate 16 7)); (2, mkMessageId (replicate 16 8))] /\
  match fetch_pending_for_device (mkDeviceId "r") "202601" 10 (w_delivery retried.1.2) with
  | Ok l => length l = 2%nat
  | Err _ => False
  end.
Proof. split_and!; vm_compute; reflexivity. Qed.

(** Two commands for different devices that pass validation and have the same
    fingerprint, whatever the hash: device identifiers may contain the separators of
    the canonical form, so one target can spell two. *)
Theorem fingerprint_ambiguous (sha256_hex : string -> string)
    (Hhex : forall s, str_size (sha256_hex s) = 64%nat /\ is_printable_ascii (sha256_hex s) = true) :
  let two := command_with [target_to "a" "x"; target_to "b" "y"] in
  let one := command_with [target_to (String.append "a:" (String.append (sha256_hex "x") ";b")) "y"] in
  validate 0 two = Ok tt /\ validate 0 one = Ok tt /\
  calculate_submission_fingerprint sha256_hex one = calculate_submission_fingerprint sha256_hex two.
Proof.
  destruct (Hhex "x") as [Hlen Hprint]. cbn zeta. split; [vm_compute; reflexivity|].
  set (device := String.append "a:" (String.append (sha256_hex "x") ";b")).
  assert (Hchars : chars device = chars "a:" ++ chars (sha256_hex "x") ++ chars ";b")
    by (unfold device; by rewrite !chars_append).
  split.
  - assert (str_size device = 68%nat) as Hsize.
    { unfold str_size in *. rewrite Hchars, !length_app, Hlen. reflexivity. }
    assert (is_printable_ascii device = true) as Hp.
    { unfold is_printable_ascii in *. rewrite Hchars, !forallb_app, Hprint. reflexivity. }
    assert (device <> EmptyString) as Hne by (intros Heq; rewrite Heq in Hsize; discriminate).
    unfold validate, command_with. cbn [sc_delivery_targets sc_caller_user_id sc_sender_device_id sc_conversation_id
      sc_client_idempotency_token sc_expires_at]. cbn [validate_targets].
    replace (validate_target (target_to device "y") ∅) with (Ok (E := MessagingErrorCode) ({[ device ]} ∪ (∅ : gset string))).
    { vm_compute. reflexivity. }
    unfold validate_target, DeviceId_empty, target_to. cbn [tg_recipient_device_id tg_recipient_user_id device_str].
    rewrite Hsize, Hp, (bool_decide_eq_false_2 (device = _)) by done.
    rewrite (bool_decide_eq_false_2 (device ∈ ∅)) by set_solver. done.
  - unfold calculate_submission_fingerprint, canonical_payload. cbn [command_with sc_delivery_targets].
    replace (merge_sort target_le [target_to "a" "x"; target_to "b" "y"]) with [target_to "a" "x"; target_to "b" "y"]
      by (vm_compute; reflexivity).
    change (merge_sort target_le [target_to device "y"]) with [target_to device "y"].
    do 7 f_equal. apply chars_inj. cbn [targets_repr]. unfold target_repr. cbn [target_to tg_recipient_device_id
      tg_ciphertext_blob device_str]. rewrite !chars_append, Hchars. by rewrite <- !app_assoc.
Qed.
