(* ===== verification/DeliveryServices.v ===== *)
(** * Delivery acknowledgements and read receipts

    Models [src/messaging/service/delivery_service.cpp] and
    [read_receipt_service.cpp] over the delivery repository of [DeliveryRepo] and
    the membership contract of [Conversation].  The clock, the generated event
    identifier, the device status checker and the JSON printer ([nlohmann::json],
    a third-party library) are arguments.  The outbox repository is the list of
    enqueued events.  A handler returns the state it leaves also when it throws. *)

From S2P Require Import Prelude Ids Bucket Scylla DeliveryTypes DeliveryRepo DeliveryRepoSpec Conversation.
#[local] Open Scope Z_scope.

(** ** Commands and responses *)

Record DeliveryAckCommand := mkAckCommand {
  ac_message_id : MessageId;
  ac_recipient_device_id : DeviceId;
  ac_caller_user_id : UserId;
  ac_caller_device_id : DeviceId;
  ac_delivered_at : Z;
  ac_conversation_id : option ConversationId;
}.

Record DeliveryAckResponse := mkAckResponse {
  ar_message_id : MessageId;
  ar_state : ProtoDeliveryState;
  ar_recorded_at : Z;
  ar_is_idempotent_replay : bool;
}.

Record ReadReceiptCommand := mkReceiptCommand {
  rc_message_id : MessageId;
  rc_conversation_id : ConversationId;
  rc_caller_user_id : UserId;
  rc_caller_device_id : DeviceId;
  rc_reader_device_id : DeviceId;
  rc_read_at : Z;
}.

Record ReadReceiptResponse := mkReceiptResponse {
  rr_message_id : MessageId;
  rr_conversation_id : ConversationId;
  rr_reader_user_id : UserId;
  rr_reader_device_id : DeviceId;
  rr_state : ProtoDeliveryState;
  rr_recorded_at : Z;
  rr_is_idempotent_replay : bool;
}.

Record MessageReadStatusResponse := mkReadStatusResponse {
  ms_message_id : MessageId;
  ms_conversation_id : ConversationId;
  ms_total_recipients : Z;
  ms_read_recipients : Z;
  ms_recipient_read_statuses : list LogicalRecipientReadStatus;
}.

Inductive JsonValue := JString (s : string) | JInt (z : Z).

(** The first state of the device in a message's fan-out. *)
Definition find_target (device : DeviceId) (states : list RecipientDeliveryState) : option RecipientDeliveryState :=
  List.find (fun s => bool_decide (rs_recipient_device_id s = device)) states.

(** A time the client sent, or the clock when it sent none. *)
Definition effective_time (sent now : Z) : Z := if 0 <? sent then sent else now.

Section services.
Context {TP TS M : Type}.
Context `{!CqlTable TP PendingPartition PendingCluster, !CqlTable TS string string, !MembershipRepository M}.
#[local] Abbreviation repo_t := (DeliveryStateRepository TP TS).

(** The dump of a JSON object, and the checker of device status. *)
Variable dump : list (string * JsonValue) -> string.
Variable device_status_checker : option (DeviceId -> bool).

Record DeliveryEnv := mkEnv {
  env_repo : option repo_t;
  env_outbox : option (list OutboxEvent);
}.

Definition device_revoked (d : DeviceId) : bool :=
  match device_status_checker with Some check => negb (check d) | None => false end.

Definition enqueue (e : OutboxEvent) (env : DeliveryEnv) : DeliveryEnv :=
  mkEnv (env_repo env) ((fun l => l ++ [e]) <$> env_outbox env).

Definition set_repo (repo : repo_t) (env : DeliveryEnv) : DeliveryEnv := mkEnv (Some repo) (env_outbox env).

(** The search of the first hundred pending records for the message. *)
Definition find_pending (mid : MessageId) (l : list DeviceDeliveryRecord) : option DeviceDeliveryRecord :=
  List.find (fun r => bool_decide (dr_message_id r = mid)) l.

(** Steps 6 to 8: commit, pending queue, outbox. *)
Definition commit_ack (cmd : DeliveryAckCommand) (target : RecipientDeliveryState) (delivered_at : Z)
    (event_id : MessageId) (repo : repo_t) (env : DeliveryEnv)
    : DeliveryEnv * result exn (ServiceResult DeliveryAckResponse) :=
  let repo1 := record_delivery_ack (ac_message_id cmd) (ac_recipient_device_id cmd) delivered_at repo in
  match from_time_point delivered_at with
  | Err e => (set_repo repo1 env, Err e)
  | Ok bucket =>
      match fetch_pending_for_device (ac_recipient_device_id cmd) (bucket_value bucket) 100 repo1 with
      | Err e => (set_repo repo1 env, Err e)
      | Ok pending =>
          let found := find_pending (ac_message_id cmd) pending in
          let repo2 :=
            match found with
            | Some rec =>
                update_device_delivery_status (ac_recipient_device_id cmd) (dr_delivery_bucket rec)
                  (dr_accepted_at rec) (ac_message_id cmd) Delivered (dr_attempt_count rec) None repo1
            | None => repo1
            end in
          let given := default nil_conversation_id (ac_conversation_id cmd) in
          let resolved :=
            match found with
            | Some rec => if bool_decide (given = nil_conversation_id) then dr_conversation_id rec else given
            | None => given
            end in
          let event :=
            mkOutboxEvent (MessageId_to_string event_id) resolved MessageDelivered
              (dump [("message_id", JString (MessageId_to_string (ac_message_id cmd)));
                     ("recipient_device_id", JString (device_str (ac_recipient_device_id cmd)));
                     ("recipient_user_id", JString (user_str (rs_recipient_user_id target)));
                     ("delivered_at_unix_ms", JInt (to_ms delivered_at))]) delivered_at in
          (enqueue event (set_repo repo2 env),
           Ok (Ok (mkAckResponse (ac_message_id cmd) DELIVERY_STATE_DELIVERED delivered_at false)))
      end
  end.

Definition acknowledge_delivery (cmd : DeliveryAckCommand) (now : Z) (event_id : MessageId) (env : DeliveryEnv)
    : DeliveryEnv * result exn (ServiceResult DeliveryAckResponse) :=
  let fail e := (env, Ok (Err e)) in
  match env_repo env with
  | None => fail UNSPECIFIED
  | Some repo =>
      if DeviceId_empty (ac_recipient_device_id cmd) then fail INVALID_TARGET_DEVICE
      else
        let delivered_at := effective_time (ac_delivered_at cmd) now in
        match get_delivery_states_for_message (ac_message_id cmd) repo with
        | Err e => (env, Err e)
        | Ok states =>
            match find_target (ac_recipient_device_id cmd) states with
            | None => fail INVALID_TARGET_DEVICE
            | Some target =>
                if negb (bool_decide (rs_recipient_user_id target = ac_caller_user_id cmd)) then fail NOT_A_PARTICIPANT
                else if negb (DeviceId_empty (ac_caller_device_id cmd))
                        && negb (bool_decide (ac_caller_device_id cmd = ac_recipient_device_id cmd))
                then fail INVALID_TARGET_DEVICE
                else if device_revoked (ac_recipient_device_id cmd) then fail DEVICE_REVOKED
                else if bool_decide (rs_delivery_state target = Delivered)
                        || bool_decide (rs_delivery_state target = Read)
                then
                  (env, Ok (Ok (mkAckResponse (ac_message_id cmd)
                                 (if bool_decide (rs_delivery_state target = Read) then DELIVERY_STATE_READ
                                  else DELIVERY_STATE_DELIVERED)
                                 (default delivered_at (rs_delivered_at target)) true)))
                else if bool_decide (rs_delivery_state target = Expired) then fail MESSAGE_EXPIRED
                else commit_ack cmd target delivered_at event_id repo env
            end
        end
  end.

(** *** Read receipts *)

(** The membership check the three operations share. *)
Definition not_active_member (membership : option M) (c : ConversationId) (u : UserId) : bool :=
  match membership with
  | None => false
  | Some m =>
      if bool_decide (c = nil_conversation_id) then false
      else
        match find_participant c u m with
        | Some p => negb (bool_decide (pt_status p = Active))
        | None => true
        end
  end.

Definition record_read_receipt (membership : option M) (cmd : ReadReceiptCommand) (now : Z) (event_id : MessageId)
    (env : DeliveryEnv) : DeliveryEnv * result exn (ServiceResult ReadReceiptResponse) :=
  let fail e := (env, Ok (Err e)) in
  match env_repo env with
  | None => fail UNSPECIFIED
  | Some repo =>
      if bool_decide (rc_message_id cmd = nil_message_id) then fail INVALID_TARGET_DEVICE
      else if DeviceId_empty (rc_reader_device_id cmd) then fail INVALID_TARGET_DEVICE
      else if UserId_empty (rc_caller_user_id cmd) then fail NOT_A_PARTICIPANT
      else if negb (DeviceId_empty (rc_caller_device_id cmd))
              && negb (bool_decide (rc_caller_device_id cmd = rc_reader_device_id cmd))
      then fail INVALID_TARGET_DEVICE
      else if not_active_member membership (rc_conversation_id cmd) (rc_caller_user_id cmd)
      then fail NOT_A_PARTICIPANT
      else if device_revoked (rc_reader_device_id cmd) then fail DEVICE_REVOKED
      else
        match get_delivery_states_for_message (rc_message_id cmd) repo with
        | Err e => (env, Err e)
        | Ok states =>
            if bool_decide (length states = 0%nat) then fail INVALID_TARGET_DEVICE
            else
              match find_target (rc_reader_device_id cmd) states with
              | None => fail INVALID_TARGET_DEVICE
              | Some target =>
                  if negb (bool_decide (rs_recipient_user_id target = rc_caller_user_id cmd))
                  then fail NOT_A_PARTICIPANT
                  else if bool_decide (rs_delivery_state target = Expired) then fail MESSAGE_EXPIRED
                  else
                    let read_at := effective_time (rc_read_at cmd) now in
                    let resp at_ replay :=
                      mkReceiptResponse (rc_message_id cmd) (rc_conversation_id cmd) (rc_caller_user_id cmd)
                        (rc_reader_device_id cmd) DELIVERY_STATE_READ at_ replay in
                    match rs_read_at target with
                    | Some t => (env, Ok (Ok (resp t true)))
                    | None =>
                        let env1 := set_repo (record_read_ack (rc_message_id cmd) (rc_reader_device_id cmd)
                                                read_at repo) env in
                        let event :=
                          mkOutboxEvent (MessageId_to_string event_id) (rc_conversation_id cmd) MessageRead
                            (dump [("message_id", JString (MessageId_to_string (rc_message_id cmd)));
                                   ("conversation_id", JString (ConversationId_to_string (rc_conversation_id cmd)));
                                   ("reader_device_id", JString (device_str (rc_reader_device_id cmd)));
                                   ("reader_user_id", JString (user_str (rc_caller_user_id cmd)));
                                   ("read_at_unix_ms", JInt (to_ms read_at))]) read_at in
                        (enqueue event env1, Ok (Ok (resp read_at false)))
                    end
              end
        end
  end.

(** The loop body of the read aggregation. *)
Definition merge_status (s : RecipientDeliveryState) (status : LogicalRecipientReadStatus)
    : LogicalRecipientReadStatus :=
  let user := rs_recipient_user_id s in
  match rs_read_at s with
  | Some t =>
      if match lr_read_at status with None => true | Some t' => t <? t' end
      then mkReadStatus user RS_Read (Some t) (Some (rs_recipient_device_id s))
      else mkReadStatus user RS_Read (lr_read_at status) (lr_reader_device_id status)
  | None =>
      mkReadStatus user
        (if negb (bool_decide (lr_read_state status = RS_Read)) then RS_Unread else lr_read_state status)
        (lr_read_at status) (lr_reader_device_id status)
  end.

Definition aggregate_step (s : RecipientDeliveryState) (m : gmap UserId LogicalRecipientReadStatus)
    : gmap UserId LogicalRecipientReadStatus :=
  <[rs_recipient_user_id s := merge_status s (default no_read_status (m !! rs_recipient_user_id s))]> m.

Definition get_message_read_status (membership : option M) (conversation_id : ConversationId)
    (message_id : MessageId) (caller : UserId) (env : DeliveryEnv)
    : result exn (ServiceResult MessageReadStatusResponse) :=
  match env_repo env with
  | None => Ok (Err UNSPECIFIED)
  | Some repo =>
      if UserId_empty caller then Ok (Err NOT_A_PARTICIPANT)
      else if not_active_member membership conversation_id caller then Ok (Err NOT_A_PARTICIPANT)
      else
        let? states := get_delivery_states_for_message message_id repo in
        if bool_decide (length states = 0%nat) then Ok (Err INVALID_TARGET_DEVICE)
        else
          let user_map := exec_all aggregate_step states ∅ in
          let statuses := in_user_order user_map in
          Ok (Ok (mkReadStatusResponse message_id conversation_id
                    (u32 (Z.of_nat (size user_map)))
                    (u32 (Z.of_nat (length (List.filter (fun st => bool_decide (lr_read_state st = RS_Read)) statuses))))
                    statuses))
  end.

Definition service_delivery_summary (membership : option M) (conversation_id : ConversationId)
    (message_id : MessageId) (caller : UserId) (env : DeliveryEnv)
    : result exn (ServiceResult MessageDeliverySummary) :=
  match env_repo env with
  | None => Ok (Err UNSPECIFIED)
  | Some repo =>
      if UserId_empty caller then Ok (Err NOT_A_PARTICIPANT)
      else if not_active_member membership conversation_id caller then Ok (Err NOT_A_PARTICIPANT)
      else
        let? su := get_message_delivery_summary message_id repo in
        match su with
        | None => Ok (Err INVALID_TARGET_DEVICE)
        | Some su =>
            Ok (Ok (mkSummary (su_message_id su) conversation_id (su_total_targets su) (su_delivered_targets su)
                      (su_pending_targets su) (su_expired_targets su) (su_device_statuses su)
                      (su_recipient_read_statuses su)))
        end
  end.

End services.

(** ** Properties *)

Section proofs.
Context {TP TS M : Type}.
Context `{!CqlTable TP PendingPartition PendingCluster, !CqlTable TS string string, !MembershipRepository M}.
#[local] Abbreviation repo_t := (DeliveryStateRepository TP TS).
#[local] Abbreviation env_t := (@DeliveryEnv TP TS).
Context (dump : list (string * JsonValue) -> string) (checker : option (DeviceId -> bool)).
Implicit Types (repo : repo_t) (env : env_t).

Lemma find_target_spec repo m mid dev :
  state_repr repo m -> find_target dev (state_list mid repo m) = m !! row_key mid dev.
Proof.
  intros Hrepr.
  assert (Hkey : forall s, s ∈ state_list mid repo m -> rs_recipient_device_id s = dev -> m !! row_key mid dev = Some s).
  { intros s Hs Hd. apply elem_of_state_list in Hs as [c Hc]; [|done]. destruct Hrepr as [_ Hm].
    pose proof (map_Forall_lookup_1 _ _ _ _ Hm Hc) as (_ & _ & Hk). unfold state_key in Hk.
    unfold row_key. rewrite <- Hd. congruence. }
  unfold find_target. destruct (List.find _ _) as [s|] eqn:Hf.
  - apply List.find_some in Hf as [Hin Hd%bool_decide_eq_true]. symmetry. apply Hkey; [|done]. by apply list_elem_of_In.
  - destruct (m !! row_key mid dev) as [s|] eqn:Hs; [|done]. exfalso.
    assert (s ∈ state_list mid repo m) as Hin.
    { apply elem_of_state_list; [done|]. by exists (device_str dev). }
    apply list_elem_of_In in Hin. pose proof (List.find_none _ _ Hf s Hin) as Hd.
    apply bool_decide_eq_false in Hd. apply Hd. destruct Hrepr as [_ Hm].
    pose proof (map_Forall_lookup_1 _ _ _ _ Hm Hs) as (_ & _ & Hk). unfold state_key, row_key in Hk.
    injection Hk as _ Hdev. destruct (rs_recipient_device_id s), dev. cbn in Hdev. congruence.
Qed.

(** The pending record that is found is updated in place. *)
Lemma update_found_repr repo pm dev bucket limit l rec state :
  pending_repr repo pm -> 0 < limit < 2 ^ 31 ->
  fetch_pending_for_device dev bucket limit repo = Ok l -> rec ∈ l ->
  exists pm', pending_repr (update_device_delivery_status dev (dr_delivery_bucket rec) (dr_accepted_at rec)
                              (dr_message_id rec) state (dr_attempt_count rec) None repo) pm'.
Proof.
  intros Hrepr Hlim Hf Hin. rewrite (fetch_pending_spec repo pm) in Hf by done. injection Hf as <-.
  apply elem_of_take in Hin as (i & Hin%list_elem_of_lookup_2 & _).
  apply elem_of_pending_list in Hin as [c Hc]; [|done]. pose proof Hrepr as [_ Hm].
  pose proof (map_Forall_lookup_1 _ _ _ _ Hm Hc) as (_ & _ & Hk).
  eexists. apply (pending_sim (UpdateStatus dev (dr_delivery_bucket rec) (dr_accepted_at rec)
                                 (dr_message_id rec) state (dr_attempt_count rec) None)); [done|].
  cbn. exists rec. unfold update_key, pending_key, pending_partition, pending_cluster in *. congruence.
Qed.

(** What a committed acknowledgement leaves. *)
Definition acked (d : Z) (s : RecipientDeliveryState) : RecipientDeliveryState :=
  set_state Delivered (Some (stored_time d)) (rs_read_at s) s.

Lemma commit_ack_spec cmd s d eid repo env m pm :
  state_repr repo m -> pending_repr repo pm -> 0 <= d < 2 ^ 63 ->
  m !! row_key (ac_message_id cmd) (ac_recipient_device_id cmd) = Some s ->
  exists repo' pm' event,
    commit_ack dump cmd s d eid repo env
    = (mkEnv (Some repo') ((fun l => l ++ [event]) <$> env_outbox env),
       Ok (Ok (mkAckResponse (ac_message_id cmd) DELIVERY_STATE_DELIVERED d false))) /\
    state_repr repo' (<[row_key (ac_message_id cmd) (ac_recipient_device_id cmd) := acked d s]> m) /\
    pending_repr repo' pm' /\ ev_event_type event = MessageDelivered.
Proof.
  intros Hs Hp Hd Hrow. unfold commit_ack.
  destruct (from_time_point_total d Hd) as [b Hb]. rewrite Hb.
  pose proof (delivery_ack_sim repo m _ _ d s Hs Hrow) as Hs1.
  set (repo1 := record_delivery_ack _ _ d repo) in *.
  assert (Hp1 : pending_repr repo1 pm) by exact Hp.
  destruct (fetch_pending_for_device _ _ 100 repo1) as [l|e] eqn:Hf.
  2:{ by rewrite (fetch_pending_spec repo1 pm) in Hf by (done || lia). }
  destruct (find_pending (ac_message_id cmd) l) as [rec|] eqn:Hfind.
  - unfold find_pending in Hfind. apply List.find_some in Hfind as [Hin Hmid%bool_decide_eq_true].
    apply list_elem_of_In in Hin.
    destruct (update_found_repr repo1 pm _ _ 100 l rec Delivered Hp1 ltac:(lia) Hf Hin) as [pm' Hp'].
    rewrite Hmid in Hp'. eexists _, pm', _. split; [reflexivity|]. split; [exact Hs1|]. split; [exact Hp'|]. done.
  - eexists _, pm, _. split; [reflexivity|]. split; [exact Hs1|]. split; [exact Hp1|]. done.
Qed.

(** The guards an acknowledgement passes. *)
Definition may_ack (cmd : DeliveryAckCommand) (s : RecipientDeliveryState) : Prop :=
  rs_recipient_user_id s = ac_caller_user_id cmd /\
  (DeviceId_empty (ac_caller_device_id cmd) = true \/ ac_caller_device_id cmd = ac_recipient_device_id cmd) /\
  device_revoked checker (ac_recipient_device_id cmd) = false /\ rs_delivery_state s <> Expired.

(** An acknowledgement of a delivered or read row is a replay. *)
Lemma ack_replay cmd now eid env repo m s :
  env_repo env = Some repo -> state_repr repo m ->
  m !! row_key (ac_message_id cmd) (ac_recipient_device_id cmd) = Some s ->
  DeviceId_empty (ac_recipient_device_id cmd) = false -> may_ack cmd s ->
  rs_delivery_state s = Delivered \/ rs_delivery_state s = Read ->
  exists resp, acknowledge_delivery dump checker cmd now eid env = (env, Ok (Ok resp)) /\
    ar_is_idempotent_replay resp = true /\
    ar_recorded_at resp = default (effective_time (ac_delivered_at cmd) now) (rs_delivered_at s).
Proof.
  intros Henv Hrepr Hs Hne (Huser & Hdev & Hrev & _) Hst. unfold acknowledge_delivery.
  rewrite Henv, Hne, (get_states_spec repo m), (find_target_spec repo m), Hs by done.
  rewrite (bool_decide_eq_true_2 _ Huser). cbn [negb].
  assert (negb (DeviceId_empty (ac_caller_device_id cmd))
          && negb (bool_decide (ac_caller_device_id cmd = ac_recipient_device_id cmd)) = false) as ->.
  { destruct Hdev as [-> | Hdev]; [done|]. rewrite (bool_decide_eq_true_2 _ Hdev). apply andb_false_r. }
  rewrite Hrev. assert (bool_decide (rs_delivery_state s = Delivered) || bool_decide (rs_delivery_state s = Read) = true) as ->.
  { destruct Hst as [-> | ->]; done. }
  eexists. split; [reflexivity|]. done.
Qed.

(** A refusing branch: the answer is an error and the state is kept. *)
Ltac refused := eexists _, _; split; reflexivity.

(** Delivery acknowledgements.  In a store whose rows represent entities, and
    for times of the 64-bit clock, [acknowledge_delivery] never throws.  It refuses
    without any effect, or it succeeds; it succeeds only for a device the message
    was sent to, on behalf of its own user and from the device itself when the caller
    names one, if the device is not revoked and the delivery has not expired.  A
    replay has no effect; the first acknowledgement marks exactly that row delivered
    with its time and enqueues one event; and after a success every repetition is a
    replay without effect. *)
Theorem acknowledge_delivery_contract (cmd : DeliveryAckCommand) (now : Z) (eid : MessageId) env repo
    (m : StateMap) (pm : PendingMap)
    (Henv : env_repo env = Some repo) (Hs : state_repr repo m) (Hp : pending_repr repo pm)
    (Htime : 0 <= effective_time (ac_delivered_at cmd) now < 2 ^ 63) :
  let d := effective_time (ac_delivered_at cmd) now in
  let k := row_key (ac_message_id cmd) (ac_recipient_device_id cmd) in
  exists env' res, acknowledge_delivery dump checker cmd now eid env = (env', Ok res) /\
  match res with
  | Err _ => env' = env
  | Ok resp =>
      exists s, m !! k = Some s /\ may_ack cmd s /\
      (if ar_is_idempotent_replay resp
       then env' = env /\ (rs_delivery_state s = Delivered \/ rs_delivery_state s = Read)
       else is_terminal (rs_delivery_state s) = false /\ ar_recorded_at resp = d /\
            exists repo' pm' event, env' = mkEnv (Some repo') ((fun l => l ++ [event]) <$> env_outbox env) /\
              state_repr repo' (<[k := acked d s]> m) /\ pending_repr repo' pm' /\
              ev_event_type event = MessageDelivered) /\
      forall now' eid', exists resp', acknowledge_delivery dump checker cmd now' eid' env' = (env', Ok (Ok resp')) /\
        ar_is_idempotent_replay resp' = true
  end.
Proof.
  cbn zeta. unfold acknowledge_delivery at 1. rewrite Henv.
  destruct (DeviceId_empty (ac_recipient_device_id cmd)) eqn:Hne; [refused|].
  rewrite (get_states_spec repo m), (find_target_spec repo m) by done.
  destruct (m !! row_key (ac_message_id cmd) (ac_recipient_device_id cmd)) as [s|] eqn:Hrow; [|refused].
  case_bool_decide as Huser; cbn [negb]; [|refused].
  destruct (negb (DeviceId_empty _) && negb _) eqn:Hdev; [refused|].
  destruct (device_revoked checker _) eqn:Hrev; [refused|].
  assert (Hdev' : DeviceId_empty (ac_caller_device_id cmd) = true \/ ac_caller_device_id cmd = ac_recipient_device_id cmd).
  { apply andb_false_iff in Hdev as [Hd%negb_false_iff|Hd%negb_false_iff]; [by left|right].
    by apply bool_decide_eq_true in Hd. }
  destruct (bool_decide (rs_delivery_state s = Delivered) || bool_decide (rs_delivery_state s = Read)) eqn:Hdone.
  - assert (Hst : rs_delivery_state s = Delivered \/ rs_delivery_state s = Read).
    { apply orb_true_iff in Hdone as [H%bool_decide_eq_true|H%bool_decide_eq_true]; auto. }
    assert (Hmay : may_ack cmd s) by (split_and!; try done; by destruct Hst as [-> | ->]).
    eexists _, _. split; [reflexivity|]. exists s. split; [done|]. split; [done|]. split; [done|].
    intros now' eid'. destruct (ack_replay cmd now' eid' env repo m s) as (resp & -> & Hr & _); try done. by exists resp.
  - apply orb_false_iff in Hdone as [Hnd%bool_decide_eq_false Hnr%bool_decide_eq_false].
    destruct (bool_decide (rs_delivery_state s = Expired)) eqn:Hexp; [refused|].
    apply bool_decide_eq_false in Hexp.
    destruct (commit_ack_spec cmd s _ eid repo env m pm Hs Hp Htime Hrow) as (repo' & pm' & event & -> & Hs' & Hp' & Hev).
    eexists _, _. split; [reflexivity|]. exists s. split; [done|]. split; [by split_and!|]. cbn [ar_is_idempotent_replay].
    split. { split; [by destruct (rs_delivery_state s)|]. split; [done|]. by exists repo', pm', event. }
    intros now' eid'.
    edestruct (ack_replay cmd now' eid') as (resp & -> & Hr & _);
      [reflexivity|exact Hs'|apply lookup_insert_eq|done|by split_and!|by left|]. by exists resp.
Qed.

(** *** Read receipts *)

Definition read_marked (t : Z) (s : RecipientDeliveryState) : RecipientDeliveryState :=
  set_state Read (rs_delivered_at s) (Some (stored_time t)) s.

(** The guards a read receipt passes. *)
Definition may_read (membership : option M) (cmd : ReadReceiptCommand) (s : RecipientDeliveryState) : Prop :=
  rs_recipient_user_id s = rc_caller_user_id cmd /\
  (DeviceId_empty (rc_caller_device_id cmd) = true \/ rc_caller_device_id cmd = rc_reader_device_id cmd) /\
  not_active_member membership (rc_conversation_id cmd) (rc_caller_user_id cmd) = false /\
  device_revoked checker (rc_reader_device_id cmd) = false /\ rs_delivery_state s <> Expired.

(** The guards that look at the command only. *)
Definition receipt_command_ok (cmd : ReadReceiptCommand) : bool :=
  negb (bool_decide (rc_message_id cmd = nil_message_id)) &&
  negb (DeviceId_empty (rc_reader_device_id cmd)) && negb (UserId_empty (rc_caller_user_id cmd)).

Lemma state_list_nonempty repo m mid dev s :
  state_repr repo m -> m !! row_key mid dev = Some s -> length (state_list mid repo m) <> 0%nat.
Proof.
  intros Hrepr Hs. destruct (state_list mid repo m) eqn:Hl; [|done].
  assert (s ∈ state_list mid repo m) as Hin.
  { apply elem_of_state_list; [done|]. by exists (device_str dev). }
  rewrite Hl in Hin. by apply not_elem_of_nil in Hin.
Qed.

(** A receipt that passes all guards, on a row that is already read or not. *)
Lemma receipt_accepted membership cmd now eid env repo m s :
  env_repo env = Some repo -> state_repr repo m ->
  m !! row_key (rc_message_id cmd) (rc_reader_device_id cmd) = Some s ->
  receipt_command_ok cmd = true -> may_read membership cmd s ->
  exists env' resp,
    record_read_receipt dump checker membership cmd now eid env = (env', Ok (Ok resp)) /\
    match rs_read_at s with
    | Some t => env' = env /\ rr_is_idempotent_replay resp = true /\ rr_recorded_at resp = t
    | None =>
        let t := effective_time (rc_read_at cmd) now in
        rr_is_idempotent_replay resp = false /\ rr_recorded_at resp = t /\
        exists repo' event, env' = mkEnv (Some repo') ((fun l => l ++ [event]) <$> env_outbox env) /\
          state_repr repo' (<[row_key (rc_message_id cmd) (rc_reader_device_id cmd) := read_marked t s]> m) /\
          ev_event_type event = MessageRead
    end.
Proof.
  intros Henv Hrepr Hs Hcmd (Huser & Hdev & Hmem & Hrev & Hexp). unfold record_read_receipt. rewrite Henv.
  unfold receipt_command_ok in Hcmd. bool_to_prop.
  rewrite (bool_decide_eq_false_2 (rc_message_id cmd = nil_message_id)) by done.
  assert (negb (DeviceId_empty (rc_caller_device_id cmd))
          && negb (bool_decide (rc_caller_device_id cmd = rc_reader_device_id cmd)) = false) as ->.
  { destruct Hdev as [-> | Hdev]; [done|]. rewrite (bool_decide_eq_true_2 _ Hdev). apply andb_false_r. }
  repeat match goal with H : _ = false |- _ => rewrite H; clear H end.
  rewrite (get_states_spec repo m) by done.
  rewrite (bool_decide_eq_false_2 (length (state_list (rc_message_id cmd) repo m) = 0%nat))
    by (by eapply state_list_nonempty).
  rewrite (find_target_spec repo m), Hs by done.
  rewrite (bool_decide_eq_true_2 _ Huser), (bool_decide_eq_false_2 _ Hexp). cbn [negb].
  destruct (rs_read_at s) as [t|] eqn:Hread.
  - eexists _, _. split; [reflexivity|]. done.
  - eexists _, _. split; [reflexivity|]. cbn. split; [done|]. split; [done|].
    eexists _, _. split; [reflexivity|]. split; [by apply read_ack_sim|done].
Qed.

(** A receipt that no guard refuses satisfies them all. *)
Lemma receipt_guards membership cmd s :
  negb (DeviceId_empty (rc_caller_device_id cmd))
  && negb (bool_decide (rc_caller_device_id cmd = rc_reader_device_id cmd)) = false ->
  not_active_member membership (rc_conversation_id cmd) (rc_caller_user_id cmd) = false ->
  device_revoked checker (rc_reader_device_id cmd) = false ->
  negb (bool_decide (rs_recipient_user_id s = rc_caller_user_id cmd)) = false ->
  bool_decide (rs_delivery_state s = Expired) = false -> may_read membership cmd s.
Proof.
  intros Hdev Hmem Hrev Huser Hexp. bool_to_prop. split_and!; try done.
  apply andb_false_iff in Hdev as [Hd|Hd]; bool_to_prop; auto.
Qed.

(** Read receipts.  In a store whose rows represent entities
    [record_read_receipt] never throws.  It refuses without any effect, or it
    succeeds; it succeeds only for a device the message was sent to, on behalf of its
    own user and from the device itself when the caller names one, for an active
    member of the conversation named, if the device is not revoked and the delivery
    has not expired.  The first receipt marks exactly that row read with its time and
    enqueues one event; later ones report the time first recorded and change
    nothing. *)
Theorem read_receipt_contract (membership : option M) (cmd : ReadReceiptCommand) (now : Z) (eid : MessageId)
    env repo (m : StateMap) (Henv : env_repo env = Some repo) (Hs : state_repr repo m) :
  let k := row_key (rc_message_id cmd) (rc_reader_device_id cmd) in
  let t := effective_time (rc_read_at cmd) now in
  exists env' res, record_read_receipt dump checker membership cmd now eid env = (env', Ok res) /\
  match res with
  | Err _ => env' = env
  | Ok resp =>
      exists s, m !! k = Some s /\ may_read membership cmd s /\
      (if rr_is_idempotent_replay resp then env' = env /\ rs_read_at s = Some (rr_recorded_at resp)
       else rs_read_at s = None /\ rr_recorded_at resp = t /\
            exists repo' event, env' = mkEnv (Some repo') ((fun l => l ++ [event]) <$> env_outbox env) /\
              state_repr repo' (<[k := read_marked t s]> m) /\ ev_event_type event = MessageRead) /\
      forall now' eid', exists resp',
        record_read_receipt dump checker membership cmd now' eid' env' = (env', Ok (Ok resp')) /\
        rr_is_idempotent_replay resp' = true
  end.
Proof.
  cbn zeta.
  destruct (receipt_command_ok cmd) eqn:Hcmd.
  2:{ unfold record_read_receipt. rewrite Henv. unfold receipt_command_ok in Hcmd.
      destruct (bool_decide (rc_message_id cmd = nil_message_id)); [refused|].
      destruct (DeviceId_empty (rc_reader_device_id cmd)); [refused|].
      destruct (UserId_empty (rc_caller_user_id cmd)); [refused|done]. }
  destruct (m !! row_key (rc_message_id cmd) (rc_reader_device_id cmd)) as [s|] eqn:Hrow.
  2:{ unfold record_read_receipt. rewrite Henv, (get_states_spec repo m), (find_target_spec repo m), Hrow by done.
      repeat match goal with |- context [if ?b then _ else _] => destruct b; [refused|] end. refused. }
  assert (Hmay : may_read membership cmd s \/
            exists e, record_read_receipt dump checker membership cmd now eid env = (env, Ok (Err e))).
  { unfold record_read_receipt. rewrite Henv, (get_states_spec repo m), (find_target_spec repo m), Hrow by done.
    repeat match goal with |- context [if ?b then _ else _] => destruct b eqn:?; [right; by eexists|] end.
    left. apply receipt_guards. all: done. }
  destruct Hmay as [Hmay|[e ->]]; [|refused].
  destruct (receipt_accepted membership cmd now eid env repo m s) as (env' & resp & -> & Hres); try done.
  eexists _, _. split; [reflexivity|]. exists s. split; [done|]. split; [done|].
  destruct (rs_read_at s) as [t|] eqn:Hread.
  - destruct Hres as (-> & -> & ->). split; [done|]. intros now' eid'.
    destruct (receipt_accepted membership cmd now' eid' env repo m s) as (env'' & resp' & -> & Hres'); try done.
    rewrite Hread in Hres'. destruct Hres' as (-> & Hr & _). by exists resp'.
  - destruct Hres as (-> & -> & repo' & event & -> & Hrepr' & Hev). split.
    { split; [done|]. split; [done|]. by exists repo', event. }
    intros now' eid'.
    edestruct (receipt_accepted membership cmd now' eid') as (env'' & resp' & -> & Hres');
      [reflexivity|exact Hrepr'|apply lookup_insert_eq|done| |].
    { destruct Hmay as (? & ? & ? & ? & ?). by split_and!. }
    cbn in Hres'. destruct Hres' as (-> & Hr & _). by exists resp'.
Qed.

(** *** Aggregation of reads *)

Lemma merge_status_merges : merges merge_status.
Proof.
  intros l s. split.
  - intros [u rs ra rd] (Hu & Hex & Hst). cbn in Hu, Hst. subst u. unfold merge_status. cbn.
    destruct (rs_read_at s) as [t|] eqn:Hs.
    + destruct ra as [t0|].
      * destruct Hst as (-> & Hfrom & Hmin). destruct (Z.ltb_spec t t0);
          apply read_status_of_snoc; cbn; rewrite ?Hs; try done; split_and!; auto; try lia.
        intros s' t' ???. pose proof (Hmin s' t'). naive_solver lia.
      * destruct Hst as (-> & -> & Hnone). apply read_status_of_snoc; cbn; rewrite ?Hs; try done.
        split_and!; auto; [lia|]. intros s' t' Hin Hu Ht. rewrite Hnone in Ht by done. done.
    + apply read_status_of_snoc; [done|]. rewrite Hs. cbn. destruct ra.
      * destruct Hst as (-> & Hfrom & Hmin). split_and!; auto.
      * destruct Hst as (-> & -> & Hnone). by split_and!.
  - intros Hno. unfold merge_status, no_read_status. cbn.
    destruct (rs_read_at s) as [t|] eqn:Hs; apply read_status_of_snoc; cbn; rewrite ?Hs; try done.
    + split_and!; auto; [lia|]. intros s' t' Hin Hu. by destruct (Hno s' Hin).
    + split_and!; auto. intros s' Hin Hu. by destruct (Hno s' Hin).
Qed.

Lemma aggregate_reads_of l : reads_of l (exec_all aggregate_step l ∅).
Proof.
  induction l as [|s l IH] using rev_ind; [apply reads_of_nil|].
  rewrite exec_all_app, exec_all_cons, exec_all_nil. exact (reads_of_step _ l s _ merge_status_merges IH).
Qed.

(** Read status of a message.  When the caller may see it, the answer has one
    status per recipient user of the message's fan-out; a user is read exactly when
    some device of the user reported a read, with the earliest such time and its
    device, and the number of readers is the number of such users. *)
Theorem read_status_aggregates (membership : option M) (c : ConversationId) (mid : MessageId) (caller : UserId)
    env repo (m : StateMap) (Henv : env_repo env = Some repo) (Hs : state_repr repo m)
    (Hcaller : UserId_empty caller = false) (Hmember : not_active_member membership c caller = false)
    (Hsome : exists dev, is_Some (m !! row_key mid dev)) :
  exists l resp, get_delivery_states_for_message mid repo = Ok l /\
    get_message_read_status membership c mid caller env = Ok (Ok resp) /\
    (forall st, st ∈ ms_recipient_read_statuses resp -> read_status_of l (lr_user_id st) st) /\
    (forall s, s ∈ l -> exists st, st ∈ ms_recipient_read_statuses resp /\ lr_user_id st = rs_recipient_user_id s) /\
    ms_total_recipients resp = u32 (Z.of_nat (length (ms_recipient_read_statuses resp))) /\
    ms_read_recipients resp = u32 (Z.of_nat (length (List.filter
      (fun st => bool_decide (is_Some (lr_read_at st))) (ms_recipient_read_statuses resp)))).
Proof.
  destruct Hsome as [dev [s0 Hs0]]. exists (state_list mid repo m).
  pose proof (aggregate_reads_of (state_list mid repo m)) as Hreads.
  unfold get_message_read_status. rewrite Henv, Hcaller, Hmember, (get_states_spec repo m) by done. cbn [bind].
  rewrite bool_decide_eq_false_2 by (by eapply state_list_nonempty).
  eexists. split; [done|]. split; [reflexivity|]. cbn.
  set (um := exec_all aggregate_step (state_list mid repo m) ∅) in *.
  assert (Hst : forall st, st ∈ in_user_order um -> read_status_of (state_list mid repo m) (lr_user_id st) st).
  { intros st [u Hu]%elem_of_in_user_order. specialize (Hreads u). rewrite Hu in Hreads.
    pose proof Hreads as [<- _]. done. }
  split_and!; [done| |by rewrite length_in_user_order|].
  - intros s Hs'. specialize (Hreads (rs_recipient_user_id s)).
    destruct (um !! rs_recipient_user_id s) as [st|] eqn:Hst'; [|by destruct (Hreads s Hs')].
    exists st. split; [apply elem_of_in_user_order; eauto|]. by destruct Hreads.
  - do 2 f_equal. f_equal. apply List.filter_ext_in. intros st Hin%list_elem_of_In.
    destruct (Hst st Hin) as (_ & _ & H). destruct (lr_read_at st) as [t|].
    + destruct H as (-> & _). done.
    + destruct H as (-> & _). done.
Qed.

End proofs.

(** ** The claims on a concrete store *)

Definition no_dump (fields : list (string * JsonValue)) : string := EmptyString.
Definition msg_1 : MessageId := mkMessageId (replicate 16 1).
Definition state_1 (state : DeliveryState) : RecipientDeliveryState :=
  {| rs_message_id := msg_1; rs_recipient_device_id := mkDeviceId "d1"; rs_recipient_user_id := mkUserId "user-1";
     rs_delivery_state := state; rs_delivered_at := None; rs_read_at := None |}.

Lemma msg_1_wf : Uuid.wf (message_bytes msg_1).
Proof. split; [done|]. apply Forall_replicate. lia. Qed.

Definition service_repo : gmap_repo := save_state_one (state_1 Queued) empty_repo.
Definition service_env : @DeliveryEnv (GTable PendingPartition PendingCluster) (GTable string string) :=
  mkEnv (Some service_repo) (Some []).

Lemma service_state_repr : state_repr service_repo (<[state_key (state_1 Queued) := state_1 Queued]> ∅).
Proof. exact (save_state_sim empty_repo ∅ (state_1 Queued) empty_state_repr msg_1_wf). Qed.

Definition ack_command (delivered_at : Z) : DeliveryAckCommand :=
  mkAckCommand msg_1 (mkDeviceId "d1") (mkUserId "user-1") (mkDeviceId "d1") delivered_at None.
Definition read_command : ReadReceiptCommand :=
  mkReceiptCommand msg_1 nil_conversation_id (mkUserId "user-1") (mkDeviceId "d1") (mkDeviceId "d1") 5000000000.

Lemma acknowledge_delivery_contract_witness :
  exists env' res, acknowledge_delivery no_dump None (ack_command 4000000000) 0 msg_1 service_env = (env', Ok res).
Proof.
  destruct (acknowledge_delivery_contract no_dump None (ack_command 4000000000) 0 msg_1 service_env service_repo
              _ ∅ eq_refl service_state_repr) as (env' & res & H & _).
  - apply empty_pending_repr.
  - vm_compute. split; [discriminate|reflexivity].
  - exists env', res. exact H.
Defined.

Lemma read_receipt_contract_witness :
  exists env' res, record_read_receipt no_dump None (None : option InMemoryMembershipRepository) read_command 0 msg_1
                     service_env = (env', Ok res).
Proof.
  destruct (read_receipt_contract no_dump None (None : option InMemoryMembershipRepository) read_command 0 msg_1
              service_env service_repo _ eq_refl service_state_repr) as (env' & res & H & _).
  exists env', res. exact H.
Defined.

Lemma read_status_aggregates_witness :
  exists resp, get_message_read_status (None : option InMemoryMembershipRepository) nil_conversation_id msg_1
                 (mkUserId "user-1") service_env = Ok (Ok resp).
Proof.
  destruct (read_status_aggregates (None : option InMemoryMembershipRepository) nil_conversation_id msg_1
              (mkUserId "user-1") service_env service_repo _ eq_refl service_state_repr) as (l & resp & _ & H & _).
  - reflexivity.
  - reflexivity.
  - exists (mkDeviceId "d1"), (state_1 Queued). reflexivity.
  - exists resp. exact H.
Defined.

(** An acknowledgement whose delivery time falls in a later month than the
    acceptance of the message succeeds, but leaves the record of the pending queue,
    which is kept under the month of acceptance, in its queued state. *)
Theorem ack_in_next_month_leaves_pending :
  let record := {| dr_device_id := mkDeviceId "d1"; dr_delivery_bucket := "202601"; dr_accepted_at := 1769900000000000000;
                   dr_message_id := msg_1; dr_conversation_id := nil_conversation_id; dr_message_sequence := 1;
                   dr_message_priority := Normal; dr_delivery_state := Queued; dr_attempt_count := 0;
                   dr_next_retry_at := None; dr_ciphertext_blob := EmptyString; dr_ephemeral_public_key := [];
                   dr_iv := []; dr_auth_tag := []; dr_algorithm := AES_256_GCM;
                   dr_protocol_version := V1_Signal_PQXDH_DoubleRatchet; dr_one_time_prekey_id := None |} in
  let env := mkEnv (Some (save_pending_one record service_repo)) None in
  from_time_point (dr_accepted_at record) = Ok (mkBucket "202601" 2026 1) /\
  match acknowledge_delivery no_dump None (ack_command 1770100000000000000) 0 msg_1 env with
  | (mkEnv (Some repo') _, Ok (Ok resp)) =>
      ar_is_idempotent_replay resp = false /\
      fetch_pending_for_device (mkDeviceId "d1") "202601" 100 repo' = Ok [record]
  | _ => False
  end.
Proof. cbn zeta. split; [vm_compute; reflexivity|]. vm_compute. split; reflexivity. Qed.

(** Acknowledgements and receipts of one device are serialised by different
    locks.  When a receipt is recorded between the check and the commit of an
    acknowledgement, the row goes from READ back to DELIVERED, a regression of the
    guard; the time of the read is kept. *)
Theorem ack_race_regresses_read :
  match record_read_receipt no_dump None (None : option InMemoryMembershipRepository) read_command 0 msg_1 service_env with
  | (mkEnv (Some repo1) outbox, Ok (Ok _)) =>
      match commit_ack no_dump (ack_command 6000000000) (state_1 Queued) 6000000000 msg_1 repo1 (mkEnv (Some repo1) outbox) with
      | (mkEnv (Some repo2) _, Ok (Ok _)) =>
          exists s, get_delivery_states_for_message msg_1 repo1 = Ok [s] /\ rs_delivery_state s = Read /\
          exists s', get_delivery_states_for_message msg_1 repo2 = Ok [s'] /\ rs_delivery_state s' = Delivered /\
            is_regression (rs_delivery_state s) (rs_delivery_state s') = true /\ rs_read_at s' = Some 5000000000
      | _ => False
      end
  | _ => False
  end.
Proof.
  vm_compute. eexists. split; [reflexivity|]. split; [reflexivity|]. eexists. split; [reflexivity|]. done.
Qed.
