(* ===== verification/Sync.v ===== *)
(** * Device synchronisation

    Models [src/messaging/domain/sync_types.hpp], [service/sync_commands.hpp],
    [repository/scylla_sync_cursor_repository.cpp] (table [sync_state_by_device]:
    partition [device_id], clustering [conversation_id]),
    [service/sync_cursor_manager.cpp] and [service/message_sync_service.cpp].

    The readings of the clock are arguments, in the order the code takes them; error
    texts are not modelled.  A call returns the state it leaves also when it throws. *)

From S2P Require Import Prelude Ids Bucket Scylla DeliveryTypes DeliveryRepo DeliveryRepoSpec MessageStore Sequence Conversation ConversationService.
From stdpp Require Import sorting.
#[local] Open Scope Z_scope.

(** ** Cursors *)

Record DeviceSyncCursor := mkCursor {
  sy_device_id : DeviceId;
  sy_conversation_id : ConversationId;
  sy_last_synced_sequence : Z;
  sy_last_sync_at : Z;
  sy_sync_version : Z;
}.

(** The value of a default-initialised cursor. *)
Definition no_cursor : DeviceSyncCursor := mkCursor (mkDeviceId EmptyString) nil_conversation_id 0 0 1.

Definition can_advance_to (new_seq : Z) (c : DeviceSyncCursor) : bool := sy_last_synced_sequence c <=? new_seq.

Definition advance_to (new_seq now : Z) (c : DeviceSyncCursor) : result exn DeviceSyncCursor :=
  if negb (can_advance_to new_seq c) then Err invalid_argument
  else Ok (mkCursor (sy_device_id c) (sy_conversation_id c) new_seq now (i32 (sy_sync_version c + 1))).

Definition create_initial (d : DeviceId) (c : ConversationId) (now : Z) : DeviceSyncCursor := mkCursor d c 0 now 1.

(** ** The cursor repository *)

Definition cursor_columns (c : DeviceSyncCursor) : list (string * ScyllaValue) :=
  [ ("last_synced_sequence", VInt64 (i64 (sy_last_synced_sequence c)));
    ("last_sync_at", VInt64 (to_ms (sy_last_sync_at c)));
    ("sync_version", VInt (sy_sync_version c)) ].

Definition cursor_key_columns (p c : string) : list (string * ScyllaValue) :=
  [("device_id", VString p); ("conversation_id", VString c)].

Definition cursor_select : list string :=
  ["device_id"; "conversation_id"; "last_synced_sequence"; "last_sync_at"; "sync_version"].

Definition row_to_sync_cursor (row : ScyllaRow) : result exn DeviceSyncCursor :=
  let? device_id := get_string row "device_id" in
  let? conversation_id := get_string row "conversation_id" in
  let? last_synced_sequence := get_int64 row "last_synced_sequence" in
  let? last_sync_at := get_timestamp row "last_sync_at" in
  let? sync_version := get_int row "sync_version" in
  Ok {| sy_device_id := mkDeviceId device_id;
        sy_conversation_id := default nil_conversation_id (ConversationId_from_string conversation_id);
        sy_last_synced_sequence := u64 last_synced_sequence;
        sy_last_sync_at := from_ms last_sync_at;
        sy_sync_version := sync_version |}.

Definition decode_cursor (p : string) (cr : string * Cells) : result exn DeviceSyncCursor :=
  row_to_sync_cursor (select cursor_select (mk_cells (cursor_key_columns p cr.1) ∪ cr.2)).

Section cursor_repository.
Context {TC : Type} `{!CqlTable TC string string}.
Implicit Type t : TC.

(** SELECT by the full primary key: at most one row. *)
Definition get_sync_cursor (d : DeviceId) (c : ConversationId) t : result exn (option DeviceSyncCursor) :=
  match cells (device_str d) (ConversationId_to_string c) t with
  | None => Ok None
  | Some r => let? cur := decode_cursor (device_str d) (ConversationId_to_string c, r) in Ok (Some cur)
  end.

Definition list_sync_cursors_by_device (d : DeviceId) t : result exn (list DeviceSyncCursor) :=
  map_result (decode_cursor (device_str d)) (scan (device_str d) t).

Definition upsert_sync_cursor (cur : DeviceSyncCursor) t : TC :=
  upsert (device_str (sy_device_id cur)) (ConversationId_to_string (sy_conversation_id cur))
    (mk_cells (cursor_columns cur)) t.

End cursor_repository.

(** ** [SyncCursorManager] *)

Inductive SyncCursorUpdateStatus :=
| UpdateSuccess | RegressionRejected | OutOfBoundsRejected | VersionConflict | InvalidCursor | UpdateStorageError.

#[export] Instance SyncCursorUpdateStatus_eq_dec : EqDecision SyncCursorUpdateStatus.
Proof. solve_decision. Defined.

Record SyncCursorUpdateOutcome := mkUpdateOutcome {
  uo_status : SyncCursorUpdateStatus;
  uo_cursor : DeviceSyncCursor;
}.

(** The command, with the readings of the clock and the fate of the one write. *)
Record UpdateCall := mkUpdateCall {
  uc_device_id : DeviceId;
  uc_conversation_id : ConversationId;
  uc_new_sequence : Z;
  uc_expected_version : Z;
  uc_ceiling_at : Z;
  uc_initial_at : Z;
  uc_advance_at : Z;
  uc_upsert : CallOutcome;
}.

Section manager.
Context {TC T A : Type} `{!CqlTable TC string string}.
Context `{!CqlTable T MessagePartition MessageCluster, !SequenceAllocator A T}.

(** The cursor repository, the optional allocator, and whether the manager was given
    the message repository; the messages themselves are the argument [store]. *)
Record SyncCursorManager := mkManager {
  cursor_repo_ : TC;
  sequence_allocator_ : option A;
  has_message_repo : bool;
}.
Implicit Type m : SyncCursorManager.

Definition set_cursors (t : TC) m := mkManager t (sequence_allocator_ m) (has_message_repo m).
Definition set_allocator_ (a : A) m := mkManager (cursor_repo_ m) (Some a) (has_message_repo m).

Definition get_cursor (d : DeviceId) (c : ConversationId) (now : Z) m : result exn DeviceSyncCursor :=
  if DeviceId_empty d || Uuid.is_nil (conversation_bytes c) then Ok (create_initial d c now)
  else
    let? existing := get_sync_cursor d c (cursor_repo_ m) in
    Ok (default (create_initial d c now) existing).

Definition list_cursors (d : DeviceId) m : result exn (list DeviceSyncCursor) :=
  if DeviceId_empty d then Ok [] else list_sync_cursors_by_device d (cursor_repo_ m).

(** [peek_sequence] of the allocator, 0 without one. *)
Definition peek_ceiling (c : ConversationId) (b : MessageBucket) (store : T) m : result exn Z * SyncCursorManager :=
  match sequence_allocator_ m with
  | None => (Ok 0, m)
  | Some a =>
      match peek_sequence c b store a with
      | Ok (n, a') => (Ok n, set_allocator_ a' m)
      | Err e => (Err e, m)
      end
  end.

Definition get_conversation_sequence_ceiling (c : ConversationId) (now : Z) (store : T) m
    : result exn Z * SyncCursorManager :=
  match from_time_point now with
  | Err e => (Err e, m)
  | Ok current_bucket =>
      let '(peeked, m1) := peek_ceiling c current_bucket store m in
      (let? ceiling := peeked in
       if (ceiling =? 0) && has_message_repo m then
         let? ceiling := get_last_sequence c current_bucket store in
         if ceiling =? 0 then let? prev_bucket := previous_bucket current_bucket in get_last_sequence c prev_bucket store
         else Ok ceiling
       else Ok ceiling, m1)
  end.

Definition update_cursor (q : UpdateCall) (store : T) m : result exn SyncCursorUpdateOutcome * SyncCursorManager :=
  let d := uc_device_id q in
  let c := uc_conversation_id q in
  if DeviceId_empty d then (Ok (mkUpdateOutcome InvalidCursor no_cursor), m)
  else if Uuid.is_nil (conversation_bytes c) then (Ok (mkUpdateOutcome InvalidCursor no_cursor), m)
  else
    let '(rc, m1) := get_conversation_sequence_ceiling c (uc_ceiling_at q) store m in
    match rc with
    | Err e => (Err e, m1)
    | Ok ceiling =>
        if ceiling <? uc_new_sequence q then (Ok (mkUpdateOutcome OutOfBoundsRejected no_cursor), m1)
        else
          match get_cursor d c (uc_initial_at q) m1 with
          | Err e => (Err e, m1)
          | Ok cursor =>
              if negb (can_advance_to (uc_new_sequence q) cursor) then
                (Ok (mkUpdateOutcome RegressionRejected cursor), m1)
              else if (0 <? uc_expected_version q) && negb (sy_sync_version cursor =? uc_expected_version q) then
                (Ok (mkUpdateOutcome VersionConflict cursor), m1)
              else
                match advance_to (uc_new_sequence q) (uc_advance_at q) cursor with
                | Err _ => (Ok (mkUpdateOutcome UpdateStorageError cursor), m1)
                | Ok cursor =>
                    let saved := set_cursors (upsert_sync_cursor cursor (cursor_repo_ m1)) m1 in
                    match uc_upsert q with
                    | Answers => (Ok (mkUpdateOutcome UpdateSuccess cursor), saved)
                    | FailsBefore => (Ok (mkUpdateOutcome UpdateStorageError cursor), m1)
                    | FailsAfter => (Ok (mkUpdateOutcome UpdateStorageError cursor), saved)
                    end
                end
          end
    end.

End manager.
#[global] Arguments SyncCursorManager TC A : clear implicits.

(** ** [MessageSyncService] *)

Definition k_min_sync_batch_size : Z := 1.
Definition k_default_sync_batch_size : Z := 50.
Definition k_max_sync_batch_size : Z := 500.

Definition clamp_sync_batch_size (requested : Z) : Z :=
  if requested <? k_min_sync_batch_size then k_default_sync_batch_size
  else if k_max_sync_batch_size <? requested then k_max_sync_batch_size
  else requested.

Inductive SyncMessagesStatus :=
| SyncSuccess | NotAuthorized | ConversationNotFound | CursorOutOfBounds | InvalidArguments | SyncStorageError.

#[export] Instance SyncMessagesStatus_eq_dec : EqDecision SyncMessagesStatus.
Proof. solve_decision. Defined.

Record SyncDeviceMessagesCommand := mkSyncCommand {
  sn_device_id : DeviceId;
  sn_conversation_id : option ConversationId;
  sn_since_sequence : Z;
  sn_max_messages : Z;
}.

Record SyncMessagesResult := mkSyncResult {
  sr_status : SyncMessagesStatus;
  sr_device_id : DeviceId;
  sr_conversation_id : option ConversationId;
  sr_messages : list MessageEntity;
  sr_device_envelopes : gmap MessageId DeviceDeliveryRecord;
  sr_untargeted_messages : gset MessageId;
  sr_cursor : DeviceSyncCursor;
  sr_has_more : bool;
  sr_next_sequence : Z;
  sr_latest_sequence : Z;
}.

Definition sync_failure (st : SyncMessagesStatus) (cmd : SyncDeviceMessagesCommand) : SyncMessagesResult :=
  mkSyncResult st (sn_device_id cmd) (sn_conversation_id cmd) [] ∅ ∅ no_cursor false 0 0.

(** The readings of the clock of one call. *)
Record SyncClock := mkSyncClock { ck_cursor : Z; ck_ceiling : Z; ck_query : Z }.

(** Where the page starts: the position asked for, or the cursor. *)
Definition effective_since (cmd : SyncDeviceMessagesCommand) (cursor : DeviceSyncCursor) : Z :=
  if 0 <? sn_since_sequence cmd then sn_since_sequence cmd else sy_last_synced_sequence cursor.

(** The page of messages after the extra one was dropped, and whether more follow. *)
Definition page_boundary (batch_size ceiling : Z) (fetched : list MessageEntity) : list MessageEntity * bool :=
  if batch_size <? Z.of_nat (length fetched) then (removelast fetched, true)
  else
    match last fetched with
    | Some e => (fetched, me_message_sequence e <? ceiling)
    | None => (fetched, false)
    end.

(** [rec->delivery_state] after the recorded state of the device was merged in
    ([Pending] of the source is an alias of [Queued]). *)
Definition with_state (s : option RecipientDeliveryState) (r : DeviceDeliveryRecord) : DeviceDeliveryRecord :=
  match s with
  | Some s => if bool_decide (rs_delivery_state s = Queued) then r
              else set_status (rs_delivery_state s) (dr_attempt_count r) (dr_next_retry_at r) r
  | None => r
  end.

(** [std::unordered_map::emplace] keeps an entry that is already there. *)
Definition emplace (id : MessageId) (r : DeviceDeliveryRecord) (m : gmap MessageId DeviceDeliveryRecord) :=
  match m !! id with Some _ => m | None => <[id := r]> m end.

(** The envelopes of the device, and the messages it was not a target of. *)
Abbreviation Envelopes := (gmap MessageId DeviceDeliveryRecord * gset MessageId)%type.

Section sync_service.
Context {TC T A C M TP TS : Type}.
Context `{!CqlTable TC string string, !CqlTable T MessagePartition MessageCluster, !SequenceAllocator A T}.
Context `{!ConversationRepository C, !MembershipRepository M}.
Context `{!CqlTable TP PendingPartition PendingCluster, !CqlTable TS string string}.
(** The first row the secondary index on [message_id] finds for a device, across the
    partitions of the table. *)
Context (index_lookup : DeviceId -> MessageId -> TP -> option (PendingPartition * (PendingCluster * Cells))).
#[local] Abbreviation repo_t := (DeliveryStateRepository TP TS).

Definition get_delivery_record_for_device (d : DeviceId) (id : MessageId) (repo : repo_t)
    : result exn (option DeviceDeliveryRecord) :=
  match index_lookup d id (pending_table repo) with
  | None => Ok None
  | Some (p, cr) => let? r := row_to_delivery_record (pending_row p cr) in Ok (Some r)
  end.

Definition envelope_step (d : DeviceId) (repo : repo_t) (msg : MessageEntity) (acc : Envelopes) : result exn Envelopes :=
  let? rec := get_delivery_record_for_device d (me_message_id msg) repo in
  let? states := get_delivery_states_for_message (me_message_id msg) repo in
  let matching_state := List.find (fun s => bool_decide (rs_recipient_device_id s = d)) states in
  match rec with
  | Some r => Ok (emplace (me_message_id msg) (with_state matching_state r) acc.1, acc.2)
  | None =>
      if negb (bool_decide (states = [])) && bool_decide (matching_state = None) then
        Ok (acc.1, {[me_message_id msg]} ∪ acc.2)
      else Ok acc
  end.

Fixpoint envelope_loop (d : DeviceId) (repo : repo_t) (msgs : list MessageEntity) (acc : Envelopes)
    : result exn Envelopes :=
  match msgs with
  | [] => Ok acc
  | msg :: msgs => let? acc := envelope_step d repo msg acc in envelope_loop d repo msgs acc
  end.

(** Step 5: the previous bucket first, then the current one. *)
Definition fetch_messages (c : ConversationId) (effective_since batch_size now : Z) (store : T)
    : result exn (list MessageEntity) :=
  let from_seq := u64 (effective_since + 1) in
  let to_seq := u64 (effective_since + batch_size + 1) in
  let? current_bucket := from_time_point now in
  let? prev_bucket := previous_bucket current_bucket in
  let? fetched := list_messages_by_sequence_range c prev_bucket from_seq to_seq (batch_size + 1) store in
  if Z.of_nat (length fetched) <=? batch_size then
    let needed := batch_size + 1 - Z.of_nat (length fetched) in
    let next_from :=
      match last fetched with None => from_seq | Some e => u64 (me_message_sequence e + 1) end in
    let? curr := list_messages_by_sequence_range c current_bucket next_from to_seq needed store in
    Ok (fetched ++ curr)
  else Ok fetched.

(** Steps 5 and 6, and the envelopes of the device. *)
Definition read_page (cmd : SyncDeviceMessagesCommand) (c : ConversationId) (effective_since ceiling : Z)
    (cursor : DeviceSyncCursor) (now : Z) (store : T) (delivery : option repo_t) : result exn SyncMessagesResult :=
  let batch_size := clamp_sync_batch_size (sn_max_messages cmd) in
  let? fetched := fetch_messages c effective_since batch_size now store in
  let '(page, has_more) := page_boundary batch_size ceiling fetched in
  let next_seq :=
    match last page with None => u64 (effective_since + 1) | Some e => u64 (me_message_sequence e + 1) end in
  let? envelopes :=
    match delivery with
    | None => Ok (∅, ∅)
    | Some repo => envelope_loop (sn_device_id cmd) repo page (∅, ∅)
    end in
  Ok (mkSyncResult SyncSuccess (sn_device_id cmd) (sn_conversation_id cmd) page envelopes.1 envelopes.2 cursor
        has_more next_seq ceiling).

Definition sync_messages (auth : option (ConversationState C M)) (delivery : option repo_t) (caller : UserId)
    (cmd : SyncDeviceMessagesCommand) (ck : SyncClock) (store : T) (m : SyncCursorManager TC A)
    : result exn SyncMessagesResult * SyncCursorManager TC A :=
  if DeviceId_empty (sn_device_id cmd) then (Ok (sync_failure InvalidArguments cmd), m)
  else
    match sn_conversation_id cmd with
    | None => (Ok (sync_failure InvalidArguments cmd), m)
    | Some c =>
        if Uuid.is_nil (conversation_bytes c) then (Ok (sync_failure InvalidArguments cmd), m)
        else
          match (match auth with Some s => can_view_conversation caller c s | None => Ok tt end) with
          | Err CONVERSATION_NOT_FOUND => (Ok (sync_failure ConversationNotFound cmd), m)
          | Err _ => (Ok (sync_failure NotAuthorized cmd), m)
          | Ok _ =>
              match get_cursor (sn_device_id cmd) c (ck_cursor ck) m with
              | Err e => (Err e, m)
              | Ok cursor =>
                  let effective_since := effective_since cmd cursor in
                  let '(rc, m1) := get_conversation_sequence_ceiling c (ck_ceiling ck) store m in
                  match rc with
                  | Err e => (Err e, m1)
                  | Ok ceiling =>
                      if (ceiling <? effective_since) && (0 <? ceiling) then
                        (Ok (sync_failure CursorOutOfBounds cmd), m1)
                      else if (ceiling <=? effective_since) || (ceiling =? 0) then
                        (Ok (mkSyncResult SyncSuccess (sn_device_id cmd) (sn_conversation_id cmd) [] ∅ ∅ cursor false
                               (u64 (effective_since + 1)) ceiling), m1)
                      else (read_page cmd c effective_since ceiling cursor (ck_query ck) store delivery, m1)
                  end
              end
          end
    end.

End sync_service.

(** ** The cursor table is a map *)

Definition cursor_key (c : DeviceSyncCursor) : string * string :=
  (device_str (sy_device_id c), ConversationId_to_string (sy_conversation_id c)).

Definition stored_cursor (c : DeviceSyncCursor) : DeviceSyncCursor :=
  mkCursor (sy_device_id c) (sy_conversation_id c) (sy_last_synced_sequence c) (stored_time (sy_last_sync_at c))
    (sy_sync_version c).

Definition cursor_wf (c : DeviceSyncCursor) : Prop :=
  Uuid.wf (conversation_bytes (sy_conversation_id c)) /\ 0 <= sy_last_synced_sequence c < 2 ^ 63.

Definition cursor_at (k : string * string) (c : DeviceSyncCursor) : Prop :=
  cursor_wf c /\ stored_cursor c = c /\ cursor_key c = k.

Abbreviation CursorMap := (gmap (string * string) DeviceSyncCursor).

Lemma decode_cursor_columns p c cur : cursor_at (p, c) cur -> decode_cursor p (c, mk_cells (cursor_columns cur)) = Ok cur.
Proof.
  intros ((Hc & Hs) & He & Hk). unfold cursor_key in Hk. injection Hk as <- <-.
  unfold decode_cursor. cbn [fst snd]. rewrite mk_cells_app. unfold row_to_sync_cursor.
  do 2 read_with get_string_cell. read_with get_int64_cell. read_with get_timestamp_cell. read_with get_int_cell.
  rewrite conversation_id_text, u64_i64, u64_small by (done || (unfold in_u64; lia)).
  transitivity (Ok (E := exn) (stored_cursor cur)); [|by rewrite He].
  unfold stored_cursor. cbn. by destruct (sy_device_id cur).
Qed.

Lemma stored_cursor_at c : cursor_wf c -> cursor_at (cursor_key c) (stored_cursor c).
Proof. intros Hwf. split; [exact Hwf|]. split; [|done]. unfold stored_cursor. cbn. by rewrite stored_time_idemp. Qed.

Section cursor_table.
Context {TC : Type} `{!CqlTable TC string string}.
Implicit Types (t : TC) (m : CursorMap).

Definition cursor_repr t m : Prop := table_repr cursor_columns cursor_at t m.

Lemma get_sync_cursor_spec t m d c :
  cursor_repr t m -> get_sync_cursor d c t = Ok (m !! (device_str d, ConversationId_to_string c)).
Proof.
  intros Hr. pose proof Hr as [Hc _]. unfold get_sync_cursor. rewrite Hc.
  destruct (m !! _) as [cur|] eqn:Hm; [|done]. cbn [fmap option_fmap option_map].
  by rewrite decode_cursor_columns by (by eapply table_repr_at).
Qed.

Lemma list_sync_cursors_spec t m d :
  cursor_repr t m -> list_sync_cursors_by_device d t = Ok (entities m (device_str d) t).
Proof. intros Hr. unfold list_sync_cursors_by_device. by eapply (decode_rows _ _ decode_cursor decode_cursor_columns). Qed.

Lemma upsert_sync_cursor_repr t m c :
  cursor_wf c -> cursor_repr t m -> cursor_repr (upsert_sync_cursor c t) (<[cursor_key c := stored_cursor c]> m).
Proof.
  intros Hwf Hr. unfold upsert_sync_cursor. apply table_repr_insert; [done|done|by apply stored_cursor_at|].
  unfold cursor_columns. cbn. by rewrite to_ms_stored_time.
Qed.

End cursor_table.

(** ** Cursor updates *)

Definition update_wf (q : UpdateCall) : Prop :=
  Uuid.wf (conversation_bytes (uc_conversation_id q)) /\ 0 <= uc_new_sequence q < 2 ^ 63.

(** A cursor that came after another: not behind it, and of a later version. *)
Definition older (a b : DeviceSyncCursor) : Prop :=
  sy_last_synced_sequence a <= sy_last_synced_sequence b /\ sy_sync_version a < sy_sync_version b.

Definition not_newer (a b : DeviceSyncCursor) : Prop :=
  sy_last_synced_sequence a <= sy_last_synced_sequence b /\ sy_sync_version a <= sy_sync_version b.

(** Versions that [n] more updates keep within [int32_t]. *)
Definition versions_ok (n : Z) (m : CursorMap) : Prop := map_Forall (fun _ c => 0 <= sy_sync_version c < 2 ^ 31 - n) m.

Section updates.
Context {TC T A : Type} `{!CqlTable TC string string}.
Context `{!CqlTable T MessagePartition MessageCluster, !SequenceAllocator A T}.
Context (has_repo : bool).
Implicit Types (t : TC) (m : CursorMap) (mg : SyncCursorManager TC A).

(** Calls in the order the stripe locks serialise them, each with the messages and the
    allocator it finds. *)
Abbreviation Update := (UpdateCall * (T * option A))%type.

Fixpoint run_updates (calls : list Update) t : list (result exn SyncCursorUpdateOutcome) * TC :=
  match calls with
  | [] => ([], t)
  | (q, (store, a)) :: calls =>
      let '(r, mg) := update_cursor q store (mkManager t a has_repo) in
      let '(rs, t') := run_updates calls (cursor_repo_ mg) in
      (r :: rs, t')
  end.

(** The cursors that successful updates of one device and conversation answered. *)
Definition accepted_by (d : DeviceId) (c : ConversationId) (x : Update * result exn SyncCursorUpdateOutcome)
    : option DeviceSyncCursor :=
  if decide (uc_device_id x.1.1 = d /\ uc_conversation_id x.1.1 = c) then
    match x.2 with Ok (mkUpdateOutcome UpdateSuccess cur) => Some cur | _ => None end
  else None.

Definition accepted (d : DeviceId) (c : ConversationId) (calls : list Update)
    (rs : list (result exn SyncCursorUpdateOutcome)) : list DeviceSyncCursor :=
  omap (accepted_by d c) (zip calls rs).

Definition cursor_of m (d : DeviceId) (c : ConversationId) (now : Z) : DeviceSyncCursor :=
  default (create_initial d c now) (m !! (device_str d, ConversationId_to_string c)).

(** The condition for a successful answer, apart from the write. *)
Definition admits (q : UpdateCall) (store : T) (a : option A) t (cur : DeviceSyncCursor) : Prop :=
  sy_last_synced_sequence cur = uc_new_sequence q /\
  (uc_expected_version q <= 0 \/ sy_sync_version cur = uc_expected_version q + 1) /\
  exists ceiling,
    (get_conversation_sequence_ceiling (uc_conversation_id q) (uc_ceiling_at q) store (mkManager t a has_repo)).1 = Ok ceiling /\
    uc_new_sequence q <= ceiling.

Lemma ceiling_keeps_cursors c now (store : T) mg :
  cursor_repo_ (get_conversation_sequence_ceiling c now store mg).2 = cursor_repo_ mg.
Proof.
  unfold get_conversation_sequence_ceiling, peek_ceiling. destruct (from_time_point now) as [b|]; [|done].
  destruct (sequence_allocator_ mg) as [a|]; [|done]. by destruct (peek_sequence c b store a) as [[n a']|].
Qed.

Lemma get_cursor_spec d c now mg m :
  cursor_repr (cursor_repo_ mg) m -> DeviceId_empty d = false -> Uuid.is_nil (conversation_bytes c) = false ->
  get_cursor d c now mg = Ok (cursor_of m d c now).
Proof. intros Hr Hd Hc. unfold get_cursor. rewrite Hd, Hc. cbn [orb]. by rewrite (get_sync_cursor_spec _ _ _ _ Hr). Qed.

Lemma cursor_of_ids m d c now t :
  cursor_repr t m -> Uuid.wf (conversation_bytes c) -> cursor_key (cursor_of m d c now) = (device_str d, ConversationId_to_string c).
Proof.
  intros Hr Hc. unfold cursor_of. destruct (m !! _) as [cur|] eqn:Hm; [|done]. cbn.
  by destruct (table_repr_at _ _ _ _ _ _ _ Hr Hm) as (_ & _ & ?).
Qed.

Lemma cursor_of_wf m d c now t : cursor_repr t m -> Uuid.wf (conversation_bytes c) -> cursor_wf (cursor_of m d c now).
Proof.
  intros Hr Hc. unfold cursor_of. destruct (m !! _) as [cur|] eqn:Hm; [|by split].
  by destruct (table_repr_at _ _ _ _ _ _ _ Hr Hm).
Qed.

Lemma cursor_of_version m d c now n : versions_ok n m -> n < 2 ^ 31 - 1 -> 0 <= sy_sync_version (cursor_of m d c now) < 2 ^ 31 - n.
Proof.
  intros Hv Hn. unfold cursor_of. destruct (m !! _) as [cur|] eqn:Hm; [|cbn; lia].
  exact (map_Forall_lookup_1 _ _ _ _ Hv Hm).
Qed.

(** One call: nothing is written and nothing is accepted, or the cursor of the key is
    replaced by a newer one, which is the one answered if the call succeeds. *)
Lemma update_step q (store : T) a t m n :
  cursor_repr t m -> update_wf q -> versions_ok n m -> 1 <= n < 2 ^ 31 - 1 ->
  let '(r, mg) := update_cursor q store (mkManager t a has_repo) in
  (cursor_repo_ mg = t /\ forall cur, r <> Ok (mkUpdateOutcome UpdateSuccess cur)) \/
  exists cur,
    cursor_key cur = (device_str (uc_device_id q), ConversationId_to_string (uc_conversation_id q)) /\
    cursor_repr (cursor_repo_ mg) (<[cursor_key cur := stored_cursor cur]> m) /\
    older (cursor_of m (uc_device_id q) (uc_conversation_id q) (uc_initial_at q)) cur /\
    0 <= sy_sync_version cur < 2 ^ 31 - (n - 1) /\ admits q store a t cur /\
    forall cur', r = Ok (mkUpdateOutcome UpdateSuccess cur') -> cur' = cur.
Proof.
  intros Hr [Hc Hs] Hv Hn. unfold update_cursor.
  destruct (DeviceId_empty (uc_device_id q)) eqn:Hd; [by left|].
  destruct (Uuid.is_nil (conversation_bytes (uc_conversation_id q))) eqn:Hnil; [by left|].
  pose proof (ceiling_keeps_cursors (uc_conversation_id q) (uc_ceiling_at q) store (mkManager t a has_repo)) as Hk.
  destruct (get_conversation_sequence_ceiling _ _ _ _) as [rc m1] eqn:Hceil. cbn in Hk.
  destruct rc as [ceiling|e]; [|by left]. destruct (Z.ltb_spec ceiling (uc_new_sequence q)); [by left|].
  rewrite <- Hk in Hr. rewrite (get_cursor_spec _ _ _ _ _ Hr Hd Hnil).
  set (cur0 := cursor_of m _ _ _).
  pose proof (cursor_of_wf m (uc_device_id q) (uc_conversation_id q) (uc_initial_at q) _ Hr Hc) as [Hw0 Hs0].
  pose proof (cursor_of_version m (uc_device_id q) (uc_conversation_id q) (uc_initial_at q) n Hv ltac:(lia)) as Hv0.
  pose proof (cursor_of_ids m (uc_device_id q) (uc_conversation_id q) (uc_initial_at q) _ Hr Hc) as Hk0.
  fold cur0 in Hw0, Hs0, Hv0, Hk0.
  destruct (can_advance_to (uc_new_sequence q) cur0) eqn:Hadv; cbn [negb]; [|by left].
  destruct ((0 <? uc_expected_version q) && negb (sy_sync_version cur0 =? uc_expected_version q)) eqn:Hexp; [by left|].
  unfold advance_to. rewrite Hadv. cbn [negb]. unfold can_advance_to in Hadv. bool_to_prop.
  rewrite i32_small by lia. set (cur := mkCursor _ _ _ _ _).
  assert (cursor_wf cur) as Hw by done.
  assert (older cur0 cur /\ 0 <= sy_sync_version cur < 2 ^ 31 - (n - 1)) as [Ho Hv1] by (unfold older; cbn; lia).
  assert (admits q store a t cur) as Ha.
  { split; [done|]. split; [|exists ceiling; by rewrite Hceil].
    apply andb_false_iff in Hexp as [?|?]; bool_to_prop; cbn; lia. }
  destruct (uc_upsert q); [right; exists cur|by left|right; exists cur];
    (split; [done|]; split; [by apply upsert_sync_cursor_repr|]; split_and!; try done; lia || congruence).
Qed.

#[local] Instance not_newer_preorder : PreOrder not_newer.
Proof. split; [done|]. intros x y z [] []. split; lia. Qed.

Lemma not_newer_initial m d c now now' : not_newer (cursor_of m d c now) (cursor_of m d c now').
Proof. unfold cursor_of. by destruct (m !! _). Qed.

(** Replacing the cursor of some key by a newer one. *)
Lemma cursor_of_insert m d c now cur now0 d0 c0 :
  cursor_key cur = (device_str d0, ConversationId_to_string c0) -> older (cursor_of m d0 c0 now0) cur ->
  not_newer (cursor_of m d c now) (cursor_of (<[cursor_key cur := stored_cursor cur]> m) d c now).
Proof.
  intros Hk Ho. unfold cursor_of at 2. destruct (decide (cursor_key cur = (device_str d, ConversationId_to_string c))) as [He|He].
  - rewrite He, lookup_insert_eq. cbn. rewrite Hk in He.
    transitivity (cursor_of m d c now0); [apply not_newer_initial|].
    unfold cursor_of in *. rewrite He in Ho. destruct Ho, (m !! (device_str d, _)); cbn in *; split; cbn; lia.
  - by rewrite lookup_insert_ne.
Qed.

Lemma versions_ok_insert m n cur k :
  versions_ok n m -> 0 <= sy_sync_version cur < 2 ^ 31 - (n - 1) -> versions_ok (n - 1) (<[k := stored_cursor cur]> m).
Proof.
  intros Hv Hc. apply map_Forall_insert_2; [done|]. eapply map_Forall_impl; [exact Hv|]. cbn. lia.
Qed.

Lemma run_updates_spec calls t m d c now :
  cursor_repr t m -> Forall (fun x : Update => update_wf x.1) calls ->
  versions_ok (Z.of_nat (length calls)) m -> Z.of_nat (length calls) < 2 ^ 31 - 1 -> Uuid.wf (conversation_bytes c) ->
  let '(rs, t') := run_updates calls t in
  exists m', cursor_repr t' m' /\ not_newer (cursor_of m d c now) (cursor_of m' d c now) /\
    StronglySorted older (accepted d c calls rs) /\
    Forall (fun cur => older (cursor_of m d c now) cur /\ not_newer cur (cursor_of m' d c now)) (accepted d c calls rs) /\
    Forall2 (fun (x : Update) r => forall cur, r = Ok (mkUpdateOutcome UpdateSuccess cur) ->
      exists t0, admits x.1 x.2.1 x.2.2 t0 cur) calls rs.
Proof.
  intros Hr Hwf. revert t m Hr. induction Hwf as [|[q [store a]] calls Hq Hwf IH]; intros t m Hr Hv Hn Hc.
  { exists m. split_and!; try done; constructor. }
  cbn [run_updates length fst] in *. pose proof (update_step q store a t m _ Hr Hq Hv ltac:(lia)) as Hstep.
  destruct (update_cursor q store _) as [r mg]. destruct Hstep as [[<- Hno]|(cur & Hk & Hr1 & Ho & Hv1 & Ha & Hcur)].
  - assert (versions_ok (Z.of_nat (length calls)) m) as Hv' by (eapply map_Forall_impl; [exact Hv|]; cbn; lia).
    specialize (IH _ m Hr Hv' ltac:(lia) Hc). destruct (run_updates calls _) as [rs t'].
    destruct IH as (m' & Hr' & Hle & Hs & Hf & H2). exists m'. unfold accepted, accepted_by in *. cbn.
    assert ((if decide (uc_device_id q = d /\ uc_conversation_id q = c)
             then match r with Ok (mkUpdateOutcome UpdateSuccess cur) => Some cur | _ => None end else None) = None) as ->.
    { case_decide; [|done]. destruct r as [[[] cur]|]; try done. by destruct (Hno cur). }
    split_and!; try done. constructor; [|done]. intros cur ->. by destruct (Hno cur).
  - pose proof (versions_ok_insert m _ cur (cursor_key cur) Hv Hv1) as Hv'.
    replace (Z.of_nat (S (length calls)) - 1) with (Z.of_nat (length calls)) in Hv' by lia.
    specialize (IH _ _ Hr1 Hv' ltac:(lia) Hc). destruct (run_updates calls _) as [rs t'].
    destruct IH as (m' & Hr' & Hle & Hs & Hf & H2). exists m'.
    pose proof (cursor_of_insert m d c now cur _ _ _ Hk Ho) as Hle0.
    split; [done|]. split; [by etransitivity|]. unfold accepted, accepted_by in *. cbn.
    assert (Forall (fun cur' => older (cursor_of m d c now) cur' /\ not_newer cur' (cursor_of m' d c now))
              (omap (accepted_by d c) (zip calls rs))) as Hf'.
    { eapply Forall_impl; [exact Hf|]. cbn. intros x [[] ?]. destruct Hle0. unfold older. split; [lia|done]. }
    assert (Forall2 (fun (x : Update) r => forall cur, r = Ok (mkUpdateOutcome UpdateSuccess cur) ->
      exists t0, admits x.1 x.2.1 x.2.2 t0 cur) ((q, (store, a)) :: calls) (r :: rs)) as H2'.
    { constructor; [|done]. intros cur' He. rewrite (Hcur _ He). by exists t. }
    case_decide as Hkey; [|done]. destruct r as [[[] cur']|]; try done. destruct Hkey as [<- <-].
    rewrite (Hcur _ eq_refl) in *. cbn.
    assert (not_newer cur (cursor_of (<[cursor_key cur:=stored_cursor cur]> m) (uc_device_id q) (uc_conversation_id q) now)) as Hn1.
    { unfold cursor_of. by rewrite Hk, lookup_insert_eq. }
    split_and!; [constructor; [done|]|constructor; [|done]|done].
    + eapply Forall_impl; [exact Hf|]. cbn. intros x [[] _]. destruct Hn1. unfold older. lia.
    + split; [|by etransitivity]. destruct (not_newer_initial m (uc_device_id q) (uc_conversation_id q) now (uc_initial_at q)), Ho.
      unfold older. lia.
Qed.

(** C8.  A device's position in a conversation only moves forward, and no update is
    lost.  Whatever updates are made, for whatever devices and conversations, with
    whatever failures of the write, and whatever the message store and the allocator
    hold at each call: the cursor of a device and conversation never goes back; the
    positions the successful updates of it answered are non-decreasing, of strictly
    increasing versions (so of two updates that expect the same version at most one
    succeeds) and not ahead of the final cursor; and each successful update was for
    the requested position, at most the ceiling found by the call, and found the
    version it expected. *)
Theorem cursors_progress (calls : list Update) t m d c (now : Z)
    (Hrepr : cursor_repr t m) (Hwf : Forall (fun x : Update => update_wf x.1) calls)
    (Hversions : versions_ok (Z.of_nat (length calls)) m) (Hcalls : Z.of_nat (length calls) < 2 ^ 31 - 1)
    (Hd : DeviceId_empty d = false) (Hnil : Uuid.is_nil (conversation_bytes c) = false)
    (Hc : Uuid.wf (conversation_bytes c)) :
  let '(rs, t') := run_updates calls t in
  exists before after,
    (forall a, get_cursor d c now (mkManager (A := A) t a has_repo) = Ok before) /\
    (forall a, get_cursor d c now (mkManager (A := A) t' a has_repo) = Ok after) /\
    not_newer before after /\ StronglySorted older (accepted d c calls rs) /\
    Forall (fun cur => older before cur /\ not_newer cur after) (accepted d c calls rs) /\
    Forall2 (fun (x : Update) r => forall cur, r = Ok (mkUpdateOutcome UpdateSuccess cur) ->
      exists t0, admits x.1 x.2.1 x.2.2 t0 cur) calls rs.
Proof.
  pose proof (run_updates_spec calls t m d c now Hrepr Hwf Hversions Hcalls Hc) as H.
  destruct (run_updates calls t) as [rs t']. destruct H as (m' & Hr' & H).
  exists (cursor_of m d c now), (cursor_of m' d c now).
  split; [intros a; by apply get_cursor_spec|]. split; [intros a; by apply get_cursor_spec|]. exact H.
Qed.

End updates.

(** ** Witness *)

#[local] Abbreviation messages_t := (GTable MessagePartition MessageCluster).
#[local] Abbreviation cursors_t := (GTable string string).

Definition conv_1 : ConversationId := mkConversationId (replicate 16 1).
Definition device_1 : DeviceId := mkDeviceId "d1".
Definition january_2026 : MessageBucket := mkBucket "202601" 2026 1.
Definition february_2026 : MessageBucket := mkBucket "202602" 2026 2.
Definition december_2025 : MessageBucket := mkBucket "202512" 2025 12.
Definition in_january : Z := 1767300000 * ns_per_s.
Definition in_february : Z := 1770000000 * ns_per_s.

Lemma conv_1_wf : Uuid.wf (conversation_bytes conv_1).
Proof. split; [done|]. repeat constructor; lia. Qed.

Lemma empty_cursor_repr : cursor_repr (∅ : cursors_t) ∅.
Proof. split; [|apply map_Forall_empty]. intros p c. cbn. by rewrite lookup_empty. Qed.

(** An allocator that handed out [n] numbers in the month [b]. *)
Definition allocator_at (b : MessageBucket) (n : Z) : InMemorySequenceAllocator :=
  set_sequence conv_1 b n (mkInMemory ∅).

Definition update_to (n version : Z) : UpdateCall :=
  mkUpdateCall device_1 conv_1 n version in_january in_january in_january Answers.

Definition two_updates : list (UpdateCall * (messages_t * option InMemorySequenceAllocator)) :=
  [(update_to 3 1, (∅, Some (allocator_at january_2026 5))); (update_to 4 1, (∅, Some (allocator_at january_2026 5)))].

Lemma cursors_progress_witness :
  let '(rs, t') := run_updates true two_updates (∅ : cursors_t) in
  exists after, (forall a, get_cursor device_1 conv_1 in_january
      (mkManager (A := InMemorySequenceAllocator) t' a true) = Ok after) /\
    Forall (fun cur => not_newer cur after) (accepted device_1 conv_1 two_updates rs).
Proof.
  pose proof (cursors_progress true two_updates (∅ : cursors_t) ∅ device_1 conv_1 in_january empty_cursor_repr) as H.
  destruct (run_updates true two_updates (∅ : cursors_t)) as [rs t'].
  destruct H as (before & after & _ & Hafter & _ & _ & Hacc & _).
  - repeat constructor; cbn; lia.
  - apply map_Forall_empty.
  - cbn. lia.
  - reflexivity.
  - reflexivity.
  - apply conv_1_wf.
  - exists after. split; [exact Hafter|]. eapply Forall_impl; [exact Hacc|]. intros cur Hcur. apply Hcur.
Defined.
