(* ===== verification/SyncPages.v ===== *)
(** * Pages of messages

    What [MessageSyncService::sync_messages] of [Sync] answers: the page that is read
    from the two monthly buckets, the envelopes that go with it, and the loop of a
    client that asks for page after page. *)

From S2P Require Import Prelude Ids Bucket Scylla DeliveryTypes DeliveryRepo DeliveryRepoSpec MessageStore Sequence Conversation ConversationService Sync.
From stdpp Require Import sorting.
#[local] Open Scope Z_scope.

(** ** Pages *)

Lemma clamp_range requested : 1 <= clamp_sync_batch_size requested <= 500.
Proof.
  unfold clamp_sync_batch_size, k_min_sync_batch_size, k_max_sync_batch_size, k_default_sync_batch_size.
  split_ifs; lia.
Qed.

(** A list of messages numbered consecutively from [k]. *)
Definition numbered (k : Z) (l : list MessageEntity) : Prop :=
  me_message_sequence <$> l = seqZ k (Z.of_nat (length l)).

Lemma numbered_cons k e l : numbered k (e :: l) <-> me_message_sequence e = k /\ numbered (k + 1) l.
Proof.
  unfold numbered. cbn [length fmap list_fmap]. rewrite (seqZ_cons k) by lia.
  replace (Z.succ k) with (k + 1) by lia. replace (Z.pred (Z.of_nat (S (length l)))) with (Z.of_nat (length l)) by lia.
  split; [by intros [= -> ->]|by intros [-> ->]].
Qed.

Lemma numbered_last k l e : numbered k l -> last l = Some e -> me_message_sequence e = k + Z.of_nat (length l) - 1.
Proof.
  revert k. induction l as [|x l IH]; intros k Hn Hl; [done|]. apply numbered_cons in Hn as [Hx Hn].
  destruct l as [|y l]; [injection Hl as <-; cbn; lia|]. rewrite (IH (k + 1) Hn Hl). cbn [length]. lia.
Qed.

Lemma numbered_drop k l n : numbered k l -> (n <= length l)%nat -> numbered (k + Z.of_nat n) (drop n l).
Proof.
  revert k l. induction n as [|n IH]; intros k l Hn Hle; [by rewrite Z.add_0_r|].
  destruct l as [|x l]; [cbn in Hle; lia|]. apply numbered_cons in Hn as [_ Hn]. cbn [drop].
  replace (k + Z.of_nat (S n)) with (k + 1 + Z.of_nat n) by lia. apply IH; [done|]. cbn in Hle. lia.
Qed.

Lemma numbered_take k l n : numbered k l -> numbered k (take n l).
Proof.
  revert k l. induction n as [|n IH]; intros k l Hn; [done|]. destruct l as [|x l]; [done|].
  apply numbered_cons in Hn as [Hx Hn]. cbn [take]. apply numbered_cons. split; [done|]. by apply IH.
Qed.

Definition between (from to : Z) (e : MessageEntity) : bool :=
  (from <=? me_message_sequence e) && (me_message_sequence e <=? to).

Lemma filter_numbered_from k l from to :
  numbered k l -> from <= k -> List.filter (between from to) l = take (Z.to_nat (to - k + 1)) l.
Proof.
  revert k. induction l as [|e l IH]; intros k Hn Hk; [by rewrite take_nil|]. apply numbered_cons in Hn as [He Hn].
  cbn. rewrite (IH (k + 1) Hn) by lia. unfold between. rewrite He, (proj2 (Z.leb_le from k)) by lia. cbn.
  destruct (Z.leb_spec k to).
  - replace (Z.to_nat (to - k + 1)) with (S (Z.to_nat (to - (k + 1) + 1))) by lia. done.
  - by replace (Z.to_nat (to - k + 1)) with 0%nat by lia; replace (Z.to_nat (to - (k + 1) + 1)) with 0%nat by lia.
Qed.

Lemma filter_numbered k l from to :
  numbered k l -> k <= from ->
  List.filter (between from to) l = take (Z.to_nat (to - from + 1)) (drop (Z.to_nat (from - k)) l).
Proof.
  revert k. induction l as [|e l IH]; intros k Hn Hk; [by rewrite drop_nil, take_nil|].
  destruct (decide (k = from)) as [->|Hne].
  - rewrite Z.sub_diag. cbn [Z.to_nat drop]. by apply filter_numbered_from.
  - apply numbered_cons in Hn as [He Hn]. cbn. unfold between at 1.
    rewrite He, (proj2 (Z.leb_gt from k)) by lia. cbn. rewrite (IH (k + 1) Hn) by lia.
    by replace (Z.to_nat (from - k)) with (S (Z.to_nat (from - (k + 1)))) by lia.
Qed.

Lemma removelast_take {A} n (l : list A) : (n < length l)%nat -> removelast (take (S n) l) = take n l.
Proof.
  revert l. induction n as [|n IH]; intros [|x l] Hl; cbn in Hl; try lia; [done|].
  change (take (S (S n)) (x :: l)) with (x :: take (S n) l). destruct (take (S n) l) eqn:Ht.
  - destruct l; cbn in *; [lia|done].
  - change (removelast (x :: a :: l0)) with (x :: removelast (a :: l0)). rewrite <- Ht, IH by lia. done.
Qed.

Section pages.
Context {TC T A C M TP TS : Type}.
Context `{!CqlTable TC string string, !CqlTable T MessagePartition MessageCluster, !SequenceAllocator A T}.
Context `{!ConversationRepository C, !MembershipRepository M}.
Context `{!CqlTable TP PendingPartition PendingCluster, !CqlTable TS string string}.
Context (index_lookup : DeviceId -> MessageId -> TP -> option (PendingPartition * (PendingCluster * Cells))).
#[local] Abbreviation repo_t := (DeliveryStateRepository TP TS).
#[local] Abbreviation messages m c b t := (entities (T := T) m (partition_key c b) t).
Implicit Types (store : T) (mm : MessageMap) (mg : SyncCursorManager TC A).

(** What the two queries of a page fetch. *)
Definition previous_part (since batch : Z) (prev : list MessageEntity) : list MessageEntity :=
  take (Z.to_nat (batch + 1)) (List.filter (between (since + 1) (since + batch + 1)) prev).

Definition fetched (since batch : Z) (prev cur : list MessageEntity) : list MessageEntity :=
  let p := previous_part since batch prev in
  let from := match last p with None => since + 1 | Some e => me_message_sequence e + 1 end in
  if Z.of_nat (length p) <=? batch then
    p ++ take (Z.to_nat (batch + 1 - Z.of_nat (length p))) (List.filter (between from (since + batch + 1)) cur)
  else p.

Lemma elem_of_filter_take n g (l : list MessageEntity) e : e ∈ take n (List.filter g l) -> g e = true /\ e ∈ l.
Proof.
  intros He. apply elem_of_take in He as (i & He%list_elem_of_lookup_2 & _).
  apply list_elem_of_In, filter_In in He as [He Hg]. split; [done|]. by apply list_elem_of_In.
Qed.

Lemma fetch_messages_spec store mm c since batch now b p :
  message_repr store mm -> from_time_point now = Ok b -> previous_bucket b = Ok p ->
  0 <= since < 2 ^ 62 -> 1 <= batch <= 500 ->
  fetch_messages c since batch now store = Ok (fetched since batch (messages mm c p store) (messages mm c b store)).
Proof.
  intros Hr Hb Hp Hs Hbatch. unfold fetch_messages. rewrite !u64_small by (unfold in_u64; lia). rewrite Hb. cbn [bind].
  rewrite Hp. cbn [bind]. rewrite (list_range_spec _ _ _ _ _ _ _ Hr) by lia. cbn [bind].
  unfold fetched, previous_part. set (l := take _ _).
  assert (Hl : forall e, last l = Some e -> since + 1 <= me_message_sequence e <= since + batch + 1).
  { intros e He%last_Some_elem_of. apply elem_of_filter_take in He as [Hg _]. unfold between in Hg. bool_to_prop. lia. }
  change (take (Z.to_nat (batch + 1)) (List.filter (between (since + 1) (since + batch + 1)) (messages mm c p store))) with l.
  destruct (Z.leb_spec (Z.of_nat (length l)) batch); [|done].
  assert (match last l with None => since + 1 | Some e => u64 (me_message_sequence e + 1) end
          = match last l with None => since + 1 | Some e => me_message_sequence e + 1 end) as ->.
  { destruct (last l) as [e|] eqn:He; [|done]. specialize (Hl e eq_refl). apply u64_small. unfold in_u64. lia. }
  rewrite (list_range_spec _ _ _ _ _ _ _ Hr); [done| |lia|lia].
  destruct (last l) as [e|] eqn:He; [specialize (Hl e eq_refl)|]; lia.
Qed.

(** The page of a month that is numbered without gaps. *)
Lemma page_numbered since batch l :
  numbered 1 l -> 0 <= since < Z.of_nat (length l) -> 1 <= batch ->
  page_boundary batch (Z.of_nat (length l)) (fetched since batch [] l)
  = (take (Z.to_nat batch) (drop (Z.to_nat since) l), since + batch <? Z.of_nat (length l)).
Proof.
  intros Hn Hs Hb. unfold fetched. assert (previous_part since batch [] = []) as -> by apply take_nil. cbn [last length app].
  rewrite (proj2 (Z.leb_le (Z.of_nat 0) batch)) by lia. rewrite (filter_numbered 1) by (done || lia).
  replace (Z.to_nat (batch + 1 - Z.of_nat 0)) with (S (Z.to_nat batch)) by lia.
  replace (Z.to_nat (since + batch + 1 - (since + 1) + 1)) with (S (Z.to_nat batch)) by lia.
  replace (Z.to_nat (since + 1 - 1)) with (Z.to_nat since) by lia. rewrite take_take, Nat.min_id.
  assert (Hlen : length (drop (Z.to_nat since) l) = (length l - Z.to_nat since)%nat) by apply length_drop.
  unfold page_boundary. rewrite length_take, Hlen. destruct (Z.ltb_spec (since + batch) (Z.of_nat (length l))).
  - rewrite (proj2 (Z.ltb_lt _ _)) by lia. rewrite removelast_take by lia. done.
  - rewrite (proj2 (Z.ltb_ge _ _)) by lia. rewrite !take_ge by lia.
    destruct (last (drop (Z.to_nat since) l)) as [e|] eqn:He.
    + pose proof (numbered_last _ _ _ (numbered_drop 1 l (Z.to_nat since) Hn ltac:(lia)) He) as Hse.
      rewrite Hse, Hlen, (proj2 (Z.ltb_ge _ _)) by lia. done.
    + apply last_None in He. rewrite He in Hlen. cbn in Hlen. lia.
Qed.

(** *** Envelopes *)

(** What CQL documents of the query through the index: the row it finds is a row of
    the table for the device and message, and it finds one if there is any. *)
Definition index_ok (t : TP) : Prop :=
  forall d id,
    match index_lookup d id t with
    | Some (p, (c, r)) => p.1 = device_str d /\ c.2 = MessageId_to_string id /\ cells p c t = Some r
    | None => forall (p : PendingPartition) (c : PendingCluster), p.1 = device_str d -> c.2 = MessageId_to_string id -> cells p c t = None
    end.

Definition has_record (mp : PendingMap) (d : DeviceId) (id : MessageId) : Prop :=
  exists k r, mp !! k = Some r /\ dr_device_id r = d /\ dr_message_id r = id.

Lemma device_record_spec (repo : repo_t) mp d id :
  pending_repr repo mp -> index_ok (pending_table repo) -> Uuid.wf (message_bytes id) ->
  (exists k r, get_delivery_record_for_device index_lookup d id repo = Ok (Some r) /\
     mp !! k = Some r /\ dr_device_id r = d /\ dr_message_id r = id) \/
  (get_delivery_record_for_device index_lookup d id repo = Ok None /\ ~ has_record mp d id).
Proof.
  intros [Hc Hm] Hidx Hid. specialize (Hidx d id). unfold get_delivery_record_for_device.
  destruct (index_lookup d id _) as [[p [c ce]]|].
  - left. destruct Hidx as (Hp & Hcid & Hce). rewrite Hc in Hce. apply fmap_Some in Hce as (r & Hr & ->).
    destruct (map_Forall_lookup_1 _ _ _ _ Hm Hr) as (Hwf & Hst & Hk). unfold pending_key in Hk. injection Hk as <- <-.
    exists (pending_key r), r. rewrite decode_pending, Hst by done. split; [done|]. split; [done|].
    cbn in Hp, Hcid. destruct Hwf as (Hwm & _). apply Uuid.to_string_inj in Hcid; [|done..].
    destruct (dr_device_id r), (dr_message_id r), d, id. cbn in *. by subst.
  - right. split; [done|]. intros (k & r & Hr & <- & <-).
    destruct (map_Forall_lookup_1 _ _ _ _ Hm Hr) as (_ & _ & <-).
    specialize (Hidx (pending_partition r) (pending_cluster r) eq_refl eq_refl).
    unfold pending_key in Hr. by rewrite Hc, Hr in Hidx.
Qed.

Record envelopes_ok (mp : PendingMap) (ms : StateMap) (d : DeviceId) (ids : list MessageId) (acc : Envelopes) : Prop := {
  envelope_addressed : forall id r, acc.1 !! id = Some r -> id ∈ ids /\
    exists k r0 st, mp !! k = Some r0 /\ dr_device_id r0 = d /\ dr_message_id r0 = id /\
      r = set_status st (dr_attempt_count r0) (dr_next_retry_at r0) r0;
  envelope_complete : forall id, id ∈ ids -> has_record mp d id -> is_Some (acc.1 !! id);
  untargeted_iff : forall id, id ∈ acc.2 <-> id ∈ ids /\ ~ has_record mp d id /\
    (exists dev, is_Some (ms !! (MessageId_to_string id, dev))) /\ ms !! row_key id d = None;
}.

Lemma with_state_shape s r : exists st, with_state s r = set_status st (dr_attempt_count r) (dr_next_retry_at r) r.
Proof.
  unfold with_state. destruct s as [s|]; [|by exists (dr_delivery_state r); destruct r].
  case_bool_decide; [by exists (dr_delivery_state r); destruct r|by eexists].
Qed.

Lemma matching_state_None (repo : repo_t) ms d id :
  state_repr repo ms ->
  List.find (fun s => bool_decide (rs_recipient_device_id s = d)) (state_list id repo ms) = None <-> ms !! row_key id d = None.
Proof.
  intros Hs. split.
  - intros Hf. destruct (ms !! row_key id d) as [st|] eqn:Hst; [|done].
    assert (st ∈ state_list id repo ms) as Hin%list_elem_of_In by (apply elem_of_state_list; [done|by eexists]).
    apply (find_none _ _ Hf) in Hin. destruct Hs as [_ Hm].
    destruct (map_Forall_lookup_1 _ _ _ _ Hm Hst) as (_ & _ & [= _ Hd]). bool_to_prop. destruct Hin.
    destruct (rs_recipient_device_id st), d. cbn in Hd. by subst.
  - intros Hn. destruct (List.find _ _) as [st|] eqn:Hf; [|done]. apply find_some in Hf as [Hin%list_elem_of_In Hd].
    apply elem_of_state_list in Hin as [dev Hdev]; [|done]. bool_to_prop. destruct Hs as [_ Hm].
    destruct (map_Forall_lookup_1 _ _ _ _ Hm Hdev) as (_ & _ & [= _ Hk]). subst dev. unfold row_key in Hn. congruence.
Qed.

(** The device has a record of the message. *)
Lemma envelope_found mp ms d ids acc id k r s :
  envelopes_ok mp ms d ids acc -> mp !! k = Some r -> dr_device_id r = d -> dr_message_id r = id ->
  envelopes_ok mp ms d (ids ++ [id]) (emplace id (with_state s r) acc.1, acc.2).
Proof.
  intros [H1 H2 H3] Hr Hd Hm. assert (has_record mp d id) as Hhas by (by exists k, r).
  assert (Hmono : forall i, i ∈ ids -> i ∈ ids ++ [id]) by (intros i Hi; apply elem_of_app; by left).
  unfold emplace. split; cbn [fst snd].
  - intros i r'. destruct (acc.1 !! id) as [r1|] eqn:Hold; [intros Hi; destruct (H1 _ _ Hi); by split; [apply Hmono|]|].
    intros [[<- <-]|[_ Hi]]%lookup_insert_Some; [|destruct (H1 _ _ Hi); by split; [apply Hmono|]].
    split; [apply elem_of_app; right; left|]. destruct (with_state_shape s r) as [st Hst].
    exists k, r, st. by rewrite Hst.
  - intros i [Hi|Hi%list_elem_of_singleton]%elem_of_app Hh.
    + specialize (H2 i Hi Hh). destruct (acc.1 !! id) eqn:Hold; [done|].
      destruct (decide (id = i)) as [<-|]; [by rewrite lookup_insert_eq|by rewrite lookup_insert_ne].
    + subst i. destruct (acc.1 !! id) eqn:Hold; [by rewrite Hold|by rewrite lookup_insert_eq].
  - intros i. rewrite H3, elem_of_app, list_elem_of_singleton. naive_solver.
Qed.

(** It has none; the message is untargeted when it was sent to other devices only. *)
Lemma envelope_missing mp ms d ids acc id (untargeted : bool) :
  envelopes_ok mp ms d ids acc -> ~ has_record mp d id ->
  untargeted = true <-> (exists dev, is_Some (ms !! (MessageId_to_string id, dev))) /\ ms !! row_key id d = None ->
  envelopes_ok mp ms d (ids ++ [id]) (if untargeted then (acc.1, {[id]} ∪ acc.2) else acc).
Proof.
  intros [H1 H2 H3] Hno Hun.
  assert (Hsame : (if untargeted then (acc.1, {[id]} ∪ acc.2) else acc).1 = acc.1) by (by destruct untargeted).
  split; rewrite ?Hsame.
  - intros i r Hi. destruct (H1 _ _ Hi). split; [apply elem_of_app; by left|done].
  - intros i [Hi|Hi%list_elem_of_singleton]%elem_of_app Hh; [by apply H2|by subst].
  - intros i. destruct untargeted; cbn [snd].
    + rewrite elem_of_union, elem_of_singleton, H3, elem_of_app, list_elem_of_singleton. naive_solver.
    + rewrite H3, elem_of_app, list_elem_of_singleton. split; [naive_solver|].
      intros ([?| ->] & ? & Ha & Hn); [done|]. pose proof (proj2 Hun (conj Ha Hn)). done.
Qed.

Lemma any_target (repo : repo_t) ms id :
  state_repr repo ms -> (exists dev, is_Some (ms !! (MessageId_to_string id, dev))) <-> state_list id repo ms <> [].
Proof.
  intros Hs. split.
  - intros (dev & st & Hst) Hnil. assert (st ∈ state_list id repo ms) as Hin by (apply elem_of_state_list; [done|by eexists]).
    rewrite Hnil in Hin. by apply not_elem_of_nil in Hin.
  - destruct (state_list id repo ms) as [|st l] eqn:Hl; [done|]. intros _.
    assert (st ∈ state_list id repo ms) as Hin by (rewrite Hl; left). apply elem_of_state_list in Hin as [dev Hdev]; [|done].
    by exists dev, st.
Qed.

Lemma envelope_step_ok (repo : repo_t) mp ms d ids msg acc :
  pending_repr repo mp -> state_repr repo ms -> index_ok (pending_table repo) ->
  Uuid.wf (message_bytes (me_message_id msg)) -> envelopes_ok mp ms d ids acc ->
  exists acc', envelope_step index_lookup d repo msg acc = Ok acc' /\ envelopes_ok mp ms d (ids ++ [me_message_id msg]) acc'.
Proof.
  intros Hp Hs Hidx Hid Hacc. unfold envelope_step. set (id := me_message_id msg) in *.
  rewrite (get_states_spec _ _ _ Hs).
  destruct (device_record_spec repo mp d id Hp Hidx Hid) as [(k & r & -> & Hr & Hd & Hm)|[-> Hno]]; cbn [bind].
  - eexists. split; [done|]. by eapply envelope_found.
  - set (u := negb _ && _). exists (if u then (acc.1, {[id]} ∪ acc.2) else acc). split; [by destruct u|].
    apply envelope_missing; [done..|]. unfold u. rewrite andb_true_iff, negb_true_iff, bool_decide_eq_false, bool_decide_eq_true.
    by rewrite any_target, matching_state_None.
Qed.

Lemma envelope_loop_ok (repo : repo_t) mp ms d msgs ids acc :
  pending_repr repo mp -> state_repr repo ms -> index_ok (pending_table repo) ->
  Forall (fun e => Uuid.wf (message_bytes (me_message_id e))) msgs -> envelopes_ok mp ms d ids acc ->
  exists acc', envelope_loop index_lookup d repo msgs acc = Ok acc' /\ envelopes_ok mp ms d (ids ++ (me_message_id <$> msgs)) acc'.
Proof.
  intros Hp Hs Hidx Hwf. revert ids acc. induction Hwf as [|msg msgs Hm _ IH]; intros ids acc Hacc.
  - exists acc. cbn. by rewrite app_nil_r.
  - cbn [envelope_loop]. destruct (envelope_step_ok repo mp ms d ids msg acc Hp Hs Hidx Hm Hacc) as (acc1 & -> & Hacc1).
    cbn [bind]. destruct (IH _ _ Hacc1) as (acc2 & -> & Hacc2). exists acc2. split; [done|].
    by rewrite <- app_assoc in Hacc2.
Qed.

Lemma envelopes_ok_empty mp ms d : envelopes_ok mp ms d [] (∅, ∅).
Proof.
  split; cbn [fst snd].
  - intros id r. by rewrite lookup_empty.
  - intros id Hid. by apply not_elem_of_nil in Hid.
  - intros id. split; [by intros ?%not_elem_of_empty|intros [Hid _]; by apply not_elem_of_nil in Hid].
Qed.

(** *** Whole calls *)

Definition delivery_ok (delivery : option repo_t) (mp : PendingMap) (ms : StateMap) : Prop :=
  match delivery with
  | None => mp = ∅ /\ ms = ∅
  | Some repo => pending_repr repo mp /\ state_repr repo ms /\ index_ok (pending_table repo)
  end.

Definition next_after (since : Z) (page : list MessageEntity) : Z :=
  match last page with None => since + 1 | Some e => me_message_sequence e + 1 end.

Section call.
Context (store : T) (mm : MessageMap) (delivery : option repo_t) (mp : PendingMap) (ms : StateMap).
Context (c : ConversationId) (now : Z) (b p : MessageBucket).
Hypothesis Hstore : message_repr store mm.
Hypothesis Hdelivery : delivery_ok delivery mp ms.
Hypothesis Hbucket : from_time_point now = Ok b.
Hypothesis Hprevious : previous_bucket b = Ok p.

Definition page_of (since batch ceiling : Z) : list MessageEntity * bool :=
  page_boundary batch ceiling (fetched since batch (messages mm c p store) (messages mm c b store)).

Lemma elem_of_fetched since batch prev cur e :
  e ∈ fetched since batch prev cur -> (e ∈ prev \/ e ∈ cur) /\ since < me_message_sequence e <= since + batch + 1.
Proof.
  assert (Hprev : forall x, x ∈ previous_part since batch prev -> x ∈ prev /\ since < me_message_sequence x <= since + batch + 1).
  { intros x [Hg Hx]%elem_of_filter_take. split; [done|]. unfold between in Hg. bool_to_prop. lia. }
  unfold fetched. destruct (Z.leb_spec (Z.of_nat (length (previous_part since batch prev))) batch); [|by naive_solver].
  intros [He|[Hg Hcur]%elem_of_filter_take]%elem_of_app; [by naive_solver|]. split; [by right|].
  unfold between in Hg. bool_to_prop. destruct (last (previous_part since batch prev)) as [x|] eqn:Hl; [|lia].
  apply last_Some_elem_of, Hprev in Hl as [_ Hx]. lia.
Qed.

Lemma elem_of_removelast {X} (l : list X) x : x ∈ removelast l -> x ∈ l.
Proof.
  induction l as [|y l IH]; [done|]. destruct l as [|z l]; [by intros ?%not_elem_of_nil|].
  change (removelast (y :: z :: l)) with (y :: removelast (z :: l)).
  intros [->|Hx]%elem_of_cons; [left|right; by apply IH].
Qed.

Lemma elem_of_page since batch ceiling e :
  e ∈ (page_of since batch ceiling).1 ->
  (e ∈ messages mm c p store \/ e ∈ messages mm c b store) /\ since < me_message_sequence e <= since + batch + 1.
Proof.
  intros He. apply (elem_of_fetched since batch). unfold page_of, page_boundary in He.
  destruct (_ <? _); [by apply elem_of_removelast|]. by destruct (last _).
Qed.

Lemma page_messages_wf since batch ceiling :
  Forall (fun e => Uuid.wf (message_bytes (me_message_id e))) (page_of since batch ceiling).1.
Proof.
  apply Forall_forall. intros e [He _]%elem_of_page.
  destruct He as [He|He]; apply (elem_of_messages _ _ _ _ _ Hstore) in He as [_ He]; unfold message_key in He;
    by destruct (table_repr_at _ _ _ _ _ _ _ Hstore He) as ((_ & ? & _) & _).
Qed.

Lemma read_page_spec cmd since ceiling cursor :
  0 <= since < 2 ^ 62 ->
  let page := page_of since (clamp_sync_batch_size (sn_max_messages cmd)) ceiling in
  exists env, envelopes_ok mp ms (sn_device_id cmd) (me_message_id <$> page.1) env /\
    read_page index_lookup cmd c since ceiling cursor now store delivery
    = Ok (mkSyncResult SyncSuccess (sn_device_id cmd) (sn_conversation_id cmd) page.1 env.1 env.2 cursor page.2
            (next_after since page.1) ceiling).
Proof.
  intros Hs page. pose proof (clamp_range (sn_max_messages cmd)) as Hb. unfold read_page.
  rewrite (fetch_messages_spec _ _ _ _ _ _ _ _ Hstore Hbucket Hprevious) by lia. cbn [bind].
  assert (exists env, envelopes_ok mp ms (sn_device_id cmd) (me_message_id <$> page.1) env /\
    match delivery with None => Ok (∅, ∅) | Some repo => envelope_loop index_lookup (sn_device_id cmd) repo page.1 (∅, ∅) end = Ok env)
    as (env & Henv & Hrun).
  { destruct delivery as [repo|]; cbn in Hdelivery.
    - destruct Hdelivery as (Hp & Hst & Hidx).
      destruct (envelope_loop_ok repo mp ms (sn_device_id cmd) page.1 [] (∅, ∅)) as (env & Hrun & Henv);
        [done..|apply page_messages_wf|apply envelopes_ok_empty|]. by exists env.
    - destruct Hdelivery as [-> ->]. exists (∅, ∅). split; [|done]. split; cbn [fst snd].
      + intros id r. by rewrite lookup_empty.
      + intros id _ (k & r & Hk & _). by rewrite lookup_empty in Hk.
      + intros id. split; [by intros ?%not_elem_of_empty|]. intros (_ & _ & (dev & st & Hst) & _). by rewrite lookup_empty in Hst. }
  exists env. split; [done|]. fold (page_of since (clamp_sync_batch_size (sn_max_messages cmd)) ceiling). fold page.
  assert (Hnext : match last page.1 with None => u64 (since + 1) | Some e => u64 (me_message_sequence e + 1) end = next_after since page.1).
  { unfold next_after. destruct (last page.1) as [e|] eqn:Hl; [|apply u64_small; unfold in_u64; lia].
    apply last_Some_elem_of, elem_of_page in Hl as [_ Hl]. apply u64_small. unfold in_u64. lia. }
  destruct page as [l more]. cbn [fst snd] in *. by rewrite Hrun, Hnext.
Qed.

(** The answer of a call that is allowed and finds a cursor and a ceiling. *)
Lemma sync_messages_spec (auth : option (ConversationState C M)) caller cmd ck mg mg1 cursor ceiling :
  ck_query ck = now -> sn_conversation_id cmd = Some c ->
  get_cursor (sn_device_id cmd) c (ck_cursor ck) mg = Ok cursor ->
  get_conversation_sequence_ceiling c (ck_ceiling ck) store mg = (Ok ceiling, mg1) ->
  let since := effective_since cmd cursor in
  0 <= since < 2 ^ 62 ->
  let page := page_of since (clamp_sync_batch_size (sn_max_messages cmd)) ceiling in
  exists r mg', sync_messages index_lookup auth delivery caller cmd ck store mg = (Ok r, mg') /\
    (sr_status r = SyncSuccess ->
      sr_cursor r = cursor /\ sr_latest_sequence r = ceiling /\ mg' = mg1 /\
      envelopes_ok mp ms (sn_device_id cmd) (me_message_id <$> sr_messages r)
        (sr_device_envelopes r, sr_untargeted_messages r) /\
      sr_next_sequence r = next_after since (sr_messages r) /\
      if (ceiling <=? since) || (ceiling =? 0) then sr_messages r = [] /\ sr_has_more r = false
      else sr_messages r = page.1 /\ sr_has_more r = page.2) /\
    (DeviceId_empty (sn_device_id cmd) = false -> Uuid.is_nil (conversation_bytes c) = false ->
     match auth with Some s => can_view_conversation caller c s = Ok tt | None => True end -> since <= ceiling ->
     sr_status r = SyncSuccess).
Proof.
  intros Hq Hconv Hcur Hceil since Hs page. unfold sync_messages. rewrite Hconv.
  destruct (DeviceId_empty (sn_device_id cmd)); [by eexists _, _|].
  destruct (Uuid.is_nil (conversation_bytes c)); [by eexists _, _|].
  destruct (match auth with Some s => can_view_conversation caller c s | None => Ok tt end) as [[]|e] eqn:Hauth.
  2:{ assert (match auth with Some s => can_view_conversation caller c s = Ok tt | None => True end -> False) as Hno
        by (destruct auth; congruence).
      destruct e; by eexists _, _. }
  rewrite Hcur, Hceil. fold since.
  destruct ((ceiling <? since) && (0 <? ceiling)) eqn:Hout.
  { eexists _, _. split; [done|]. split; [done|]. intros. bool_to_prop. lia. }
  destruct ((ceiling <=? since) || (ceiling =? 0)).
  - eexists _, _. split; [done|]. split; [|done]. intros _. split_and!; try done; [apply envelopes_ok_empty|].
    unfold next_after. cbn. apply u64_small. unfold in_u64. lia.
  - rewrite Hq. destruct (read_page_spec cmd since ceiling cursor Hs) as (env & Henv & ->).
    eexists _, _. split; [done|]. split; [|done]. intros _. split_and!; try done. by destruct env.
Qed.

End call.

End pages.

(** ** Pages over the reachable stores *)

Definition before (e e' : MessageEntity) : Prop := me_message_sequence e < me_message_sequence e'.

Lemma sorted_app_before l1 l2 :
  StronglySorted before l1 -> StronglySorted before l2 -> (forall x y, x ∈ l1 -> y ∈ l2 -> before x y) ->
  StronglySorted before (l1 ++ l2).
Proof.
  intros H1 H2. induction H1 as [|x l1 H1 IH Hall]; intros Hlt; [done|]. cbn. constructor.
  - apply IH. intros. apply Hlt; [by right|done].
  - apply Forall_app. split; [done|]. apply Forall_forall. intros y Hy. apply Hlt; [left|done].
Qed.

Lemma sorted_le_last l e x : StronglySorted before l -> last l = Some e -> x ∈ l -> me_message_sequence x <= me_message_sequence e.
Proof.
  intros Hs Hl Hx. set (le := fun a b => me_message_sequence a <= me_message_sequence b).
  assert (Reflexive le) by (intros y; unfold le; lia). apply (sorted_last le l e x); [|done..]. unfold le.
  clear -Hs. induction Hs as [|y l Hs IH Hall]; constructor; [done|]. eapply Forall_impl; [exact Hall|]. unfold before. lia.
Qed.

Lemma fetched_sorted since batch prev cur :
  StronglySorted before prev -> StronglySorted before cur -> StronglySorted before (fetched since batch prev cur).
Proof.
  intros Hp Hc. unfold fetched. pose proof (sorted_filter_take before (between (since + 1) (since + batch + 1)) (Z.to_nat (batch + 1)) prev Hp) as H1.
  fold (previous_part since batch prev) in H1. destruct (_ <=? batch); [|done].
  apply sorted_app_before; [done|by apply sorted_filter_take|]. intros x y Hx [Hg _]%elem_of_filter_take.
  unfold between in Hg. bool_to_prop. unfold before.
  destruct (last (previous_part since batch prev)) as [e|] eqn:Hl.
  - pose proof (sorted_le_last _ _ _ H1 Hl Hx). lia.
  - apply last_None in Hl. rewrite Hl in Hx. by apply not_elem_of_nil in Hx.
Qed.

Lemma length_fetched since batch prev cur : 1 <= batch -> Z.of_nat (length (fetched since batch prev cur)) <= batch + 1.
Proof.
  intros Hb. unfold fetched. destruct (Z.leb_spec (Z.of_nat (length (previous_part since batch prev))) batch).
  - rewrite length_app, length_take. lia.
  - unfold previous_part. rewrite length_take. lia.
Qed.

Lemma removelast_sorted l : StronglySorted before l -> StronglySorted before (removelast l).
Proof.
  induction 1 as [|x l Hs IH Hall]; [constructor|]. destruct l as [|y l]; [constructor|].
  change (removelast (x :: y :: l)) with (x :: removelast (y :: l)). constructor; [done|].
  rewrite Forall_forall in Hall. apply Forall_forall. intros z Hz. apply Hall. by apply elem_of_removelast.
Qed.

Lemma page_boundary_spec batch ceiling l :
  1 <= batch -> Z.of_nat (length l) <= batch + 1 -> StronglySorted before l ->
  let '(page, more) := page_boundary batch ceiling l in
  StronglySorted before page /\ Z.of_nat (length page) <= batch /\
  (more = false -> forall e, last page = Some e -> ceiling <= me_message_sequence e).
Proof.
  intros Hb Hl Hs. unfold page_boundary. destruct (Z.ltb_spec batch (Z.of_nat (length l))).
  - split; [by apply removelast_sorted|]. split; [|done].
    destruct l as [|x l] using rev_ind; [cbn in *; lia|]. rewrite removelast_last. rewrite length_app in Hl. cbn in Hl. lia.
  - destruct (last l) as [e|] eqn:He.
    + split; [done|]. split; [done|]. intros Hm e' He'. rewrite He in He'. injection He' as <-. bool_to_prop. lia.
    + split; [done|]. split; [done|]. intros _ e He'. congruence.
Qed.

Section page_claims.
Context (hash : string -> Z).
Context {TC T C M TP TS : Type}.
Context `{!CqlTable TC string string, HT : !CqlTable T MessagePartition MessageCluster}.
Context `{!ConversationRepository C, !MembershipRepository M}.
Context `{!CqlTable TP PendingPartition PendingCluster, !CqlTable TS string string}.
Context (index_lookup : DeviceId -> MessageId -> TP -> option (PendingPartition * (PendingCluster * Cells))).
#[local] Instance sequences : SequenceAllocator ConversationSequenceAllocator T := conversation_sequences hash.
#[local] Abbreviation manager := (SyncCursorManager TC ConversationSequenceAllocator).

Lemma ceiling_reachable (s : SeqState (T := T)) mm c now b p (mg : manager) :
  seq_inv hash s mm -> key_wf c b -> from_time_point now = Ok b -> previous_bucket b = Ok p ->
  sequence_allocator_ mg = Some (seq_alloc s) ->
  exists n mg1, get_conversation_sequence_ceiling c now (seq_store s) mg = (Ok n, mg1).
Proof.
  intros Hi Hk Hb Hp Ha. unfold get_conversation_sequence_ceiling, peek_ceiling. rewrite Hb, Ha.
  destruct (current_bound hash s mm c b Hi Hk) as (n & Hn & _).
  destruct (@peek_spec _ _ sequences c b (seq_store s) (seq_alloc s) n Hk Hn) as (a' & -> & _). cbn [bind].
  destruct ((n =? 0) && has_message_repo mg); [|by eexists _, _].
  destruct (get_last_sequence_spec _ _ c b (inv_repr _ _ _ Hi)) as (n1 & -> & _). cbn [bind].
  destruct (n1 =? 0); [|by eexists _, _]. rewrite Hp. cbn [bind].
  destruct (get_last_sequence_spec _ _ c p (inv_repr _ _ _ Hi)) as (n2 & -> & _). by eexists _, _.
Qed.

Lemma message_place (s : SeqState (T := T)) mm c b e :
  seq_inv hash s mm -> key_wf c b -> e ∈ entities mm (partition_key c b) (seq_store s) ->
  me_conversation_id e = c /\ me_message_bucket e = b.
Proof.
  intros Hi Hk He. apply (elem_of_messages _ _ _ _ _ (inv_repr _ _ _ Hi)) in He as [Hp He].
  destruct (stored_at_wf hash s mm _ _ Hi He) as [Hw _].
  apply partition_key_inj in Hp; [|by apply wf_key|done]. by injection Hp.
Qed.

(** The circumstances of a call: the store and the allocator are those of a state
    the submitting threads can reach, the tables of cursors and deliveries represent
    maps, and the clock stands in the month after [p]. *)
Record sync_setting (s : SeqState (T := T)) (c : ConversationId) (cmd : SyncDeviceMessagesCommand) (ck : SyncClock)
    (cursors : CursorMap) (delivery : option (DeliveryStateRepository TP TS)) (mp : PendingMap) (ms : StateMap)
    (mg : manager) (b p : MessageBucket) : Prop := {
  set_reachable : exists s0, seq_alloc s0 = mkAllocator ∅ /\ in_flight s0 = ∅ /\
    message_repr (seq_store s0) ∅ /\ rtc (seq_step hash) s0 s;
  set_allocator : sequence_allocator_ mg = Some (seq_alloc s);
  set_cursors_repr : cursor_repr (cursor_repo_ mg) cursors;
  set_delivery : delivery_ok index_lookup delivery mp ms;
  set_conversation : sn_conversation_id cmd = Some c /\ Uuid.wf (conversation_bytes c);
  set_query_month : from_time_point (ck_query ck) = Ok b /\ bucket_wf b /\ previous_bucket b = Ok p /\ bucket_wf p;
  set_ceiling_month : from_time_point (ck_ceiling ck) = Ok b;
  set_since : forall cursor, get_cursor (sn_device_id cmd) c (ck_cursor ck) mg = Ok cursor ->
    0 <= effective_since cmd cursor < 2 ^ 62;
}.

Lemma get_cursor_total d c now (mg : manager) cursors :
  cursor_repr (cursor_repo_ mg) cursors -> exists cursor, get_cursor d c now mg = Ok cursor.
Proof.
  intros Hr. unfold get_cursor. destruct (_ || _); [by eexists|]. rewrite (get_sync_cursor_spec _ _ _ _ Hr). by eexists.
Qed.

Lemma page_of_sound (s : SeqState (T := T)) mm c b p since batch ceiling :
  seq_inv hash s mm -> key_wf c b -> key_wf c p -> 1 <= batch ->
  let page := page_of (seq_store s) mm c b p since batch ceiling in
  StronglySorted before page.1 /\ Z.of_nat (length page.1) <= batch /\
  (page.2 = false -> forall e, last page.1 = Some e -> ceiling <= me_message_sequence e) /\
  Forall (fun e => me_conversation_id e = c /\ (me_message_bucket e = b \/ me_message_bucket e = p) /\
                since < me_message_sequence e <= since + batch + 1) page.1.
Proof.
  intros Hi Hb Hp Hbatch page.
  pose proof (page_boundary_spec batch ceiling (fetched since batch (entities mm (partition_key c p) (seq_store s))
                (entities mm (partition_key c b) (seq_store s)))) as Hpb.
  fold (page_of (seq_store s) mm c b p since batch ceiling) in Hpb. fold page in Hpb.
  assert (Hin : forall e, e ∈ page.1 -> me_conversation_id e = c /\ (me_message_bucket e = b \/ me_message_bucket e = p) /\
                since < me_message_sequence e <= since + batch + 1).
  { intros e [[He|He] Hr]%elem_of_page.
    - destruct (message_place s mm c p e Hi) as [-> ->]; [done..|]. auto.
    - destruct (message_place s mm c b e Hi) as [-> ->]; [done..|]. auto. }
  destruct page as [l more]. destruct Hpb as (H1 & H2 & H3);
    [lia|apply length_fetched; lia|apply fetched_sorted; apply (messages_strict hash), Hi|].
  split_and!; try done. by apply Forall_forall.
Qed.

(** What is known of every call in such a setting. *)
Lemma sync_call s c cmd ck cursors delivery mp ms (mg : manager) b p (auth : option (ConversationState C M)) caller :
  sync_setting s c cmd ck cursors delivery mp ms mg b p ->
  exists mm cursor ceiling r mg', seq_inv hash s mm /\
    sync_messages index_lookup auth delivery caller cmd ck (seq_store s) mg = (Ok r, mg') /\
    (sr_status r = SyncSuccess ->
      let since := effective_since cmd cursor in
      let page := page_of (seq_store s) mm c b p since (clamp_sync_batch_size (sn_max_messages cmd)) ceiling in
      sr_cursor r = cursor /\ sr_latest_sequence r = ceiling /\
      envelopes_ok mp ms (sn_device_id cmd) (me_message_id <$> sr_messages r)
        (sr_device_envelopes r, sr_untargeted_messages r) /\
      sr_next_sequence r = next_after since (sr_messages r) /\
      if (ceiling <=? since) || (ceiling =? 0) then sr_messages r = [] /\ sr_has_more r = false
      else sr_messages r = page.1 /\ sr_has_more r = page.2).
Proof.
  intros [(s0 & Ha0 & Hf0 & He0 & Hsteps) Ha Hcur Hdel [Hconv Hc] (Hq & Hb & Hprev & Hp) Hceil Hsince].
  destruct (seq_reachable_inv hash _ _ Ha0 Hf0 He0 Hsteps) as [mm Hi].
  destruct (get_cursor_total (sn_device_id cmd) c (ck_cursor ck) mg cursors Hcur) as [cursor Hcursor].
  destruct (ceiling_reachable s mm c (ck_ceiling ck) b p mg) as (ceiling & mg1 & Hceiling); [done..|].
  destruct (sync_messages_spec index_lookup (seq_store s) mm delivery mp ms c (ck_query ck) b p (inv_repr _ _ _ Hi) Hdel Hq
              Hprev auth caller cmd ck mg mg1 cursor ceiling eq_refl Hconv Hcursor Hceiling (Hsince _ Hcursor))
    as (r & mg' & Hrun & Hok & _).
  exists mm, cursor, ceiling, r, mg'. split; [exact Hi|]. split; [exact Hrun|]. intros Hst. naive_solver.
Qed.

(** A page of messages is sound.  Whatever the submitting threads did, a call
    of sync_messages does not throw, and when it succeeds, the messages it answers are
    stored messages of the conversation, of the current or the previous month; at most
    as many as asked for, and at most 500; in strictly increasing sequence, all after
    the position the call started from; the next position is that of the last message;
    and if no more follow, the last message has reached the ceiling. *)
Theorem sync_page_sound s c cmd ck cursors delivery mp ms (mg : manager) b p
    (auth : option (ConversationState C M)) caller
    (Hset : sync_setting s c cmd ck cursors delivery mp ms mg b p) :
  exists r mg', sync_messages index_lookup auth delivery caller cmd ck (seq_store s) mg = (Ok r, mg') /\
    (sr_status r = SyncSuccess ->
      let since := effective_since cmd (sr_cursor r) in
      let batch := clamp_sync_batch_size (sn_max_messages cmd) in
      (Z.of_nat (length (sr_messages r)) <= batch /\ batch <= 500) /\
      StronglySorted before (sr_messages r) /\
      Forall (fun e => me_conversation_id e = c /\ (me_message_bucket e = b \/ me_message_bucket e = p) /\
                since < me_message_sequence e <= since + batch + 1) (sr_messages r) /\
      sr_next_sequence r = next_after since (sr_messages r) /\
      (sr_has_more r = false -> forall e, last (sr_messages r) = Some e ->
        sr_latest_sequence r <= me_message_sequence e)).
Proof.
  destruct (sync_call s c cmd ck cursors delivery mp ms mg b p auth caller Hset)
    as (mm & cursor & ceiling & r & mg' & Hi & Hrun & Hok).
  exists r, mg'. split; [exact Hrun|]. intros Hst. destruct (Hok Hst) as (Hrc & Hrl & _ & Hnext & Hpage). rewrite Hrc, Hrl.
  pose proof (clamp_range (sn_max_messages cmd)) as Hrange. destruct Hset as [_ _ _ _ [_ Hc] (_ & Hb & _ & Hp) _ _]. cbn zeta.
  destruct ((ceiling <=? effective_since cmd cursor) || (ceiling =? 0)).
  { destruct Hpage as [Hm Hmore]. rewrite Hm, Hmore in *. split_and!; try done; cbn; try lia; constructor. }
  rewrite Hnext. destruct Hpage as [-> ->].
  destruct (page_of_sound s mm c b p (effective_since cmd cursor) (clamp_sync_batch_size (sn_max_messages cmd)) ceiling)
    as (H1 & H2 & H3 & H4); [done..|lia|]. split_and!; try done; lia.
Qed.

(** Envelopes are addressed.  Whatever a successful synchronisation answers,
    every envelope in it belongs to a message of the page and is the stored record of
    that message for the calling device, with at most its delivery state updated; every
    message of the page for which the device has a record comes with its envelope; and
    the messages marked as untargeted are exactly those of the page that have no record
    for the device, were sent to some device, and not to this one.  A device is never
    given the envelope of another device. *)
Theorem envelopes_addressed s c cmd ck cursors delivery mp ms (mg : manager) b p
    (auth : option (ConversationState C M)) caller
    (Hset : sync_setting s c cmd ck cursors delivery mp ms mg b p) :
  exists r mg', sync_messages index_lookup auth delivery caller cmd ck (seq_store s) mg = (Ok r, mg') /\
    (sr_status r = SyncSuccess ->
      envelopes_ok mp ms (sn_device_id cmd) (me_message_id <$> sr_messages r)
        (sr_device_envelopes r, sr_untargeted_messages r)).
Proof.
  destruct (sync_call s c cmd ck cursors delivery mp ms mg b p auth caller Hset)
    as (mm & cursor & ceiling & r & mg' & _ & Hrun & Hok).
  exists r, mg'. split; [exact Hrun|]. intros Hst. by destruct (Hok Hst) as (_ & _ & ? & _).
Qed.

End page_claims.

(** ** Draining a conversation *)

Section draining.
Context {TC T A C M TP TS : Type}.
Context `{!CqlTable TC string string, !CqlTable T MessagePartition MessageCluster, !SequenceAllocator A T}.
Context `{!ConversationRepository C, !MembershipRepository M}.
Context `{!CqlTable TP PendingPartition PendingCluster, !CqlTable TS string string}.
Context (index_lookup : DeviceId -> MessageId -> TP -> option (PendingPartition * (PendingCluster * Cells))).
Context (auth : option (ConversationState C M)) (delivery : option (DeliveryStateRepository TP TS)).
Context (caller : UserId) (ck : SyncClock) (store : T).
Implicit Types (mg : SyncCursorManager TC A) (cmd : SyncDeviceMessagesCommand).

(** A client that asks for the next page, from the position the last answer gave it,
    as long as more messages follow. *)
Fixpoint drain (fuel : nat) cmd mg : option (list MessageEntity) :=
  match fuel with
  | O => None
  | S fuel =>
      match sync_messages index_lookup auth delivery caller cmd ck store mg with
      | (Err _, _) => None
      | (Ok r, mg') =>
          if decide (sr_status r = SyncSuccess) then
            if sr_has_more r then
              app (sr_messages r) <$>
                drain fuel (mkSyncCommand (sn_device_id cmd) (sn_conversation_id cmd) (sr_next_sequence r - 1)
                              (sn_max_messages cmd)) mg'
            else Some (sr_messages r)
          else None
      end
  end.

Lemma ceiling_current c now b mg a n :
  from_time_point now = Ok b -> key_wf c b -> sequence_allocator_ mg = Some a -> current c b store a = Ok n -> 0 < n ->
  exists a', get_conversation_sequence_ceiling c now store mg = (Ok n, set_allocator_ a' mg) /\ current c b store a' = Ok n.
Proof.
  intros Hb Hk Ha Hn Hpos. unfold get_conversation_sequence_ceiling, peek_ceiling. rewrite Hb, Ha.
  destruct (peek_spec c b store a n Hk Hn) as (a' & -> & Hn' & _). cbn [bind]. exists a'.
  by rewrite (proj2 (Z.eqb_neq n 0)) by lia.
Qed.

(** The circumstances of the loop: the conversation has messages in the current month
    only, they are numbered from 1 without a gap, nothing is in flight, and the caller
    may read it. *)
Record drain_setting (c : ConversationId) (d : DeviceId) mg (mm : MessageMap) (mp : PendingMap) (ms : StateMap)
    (b p : MessageBucket) (cursor : DeviceSyncCursor) (l : list MessageEntity) : Prop := {
  dset_store : message_repr store mm;
  dset_delivery : delivery_ok index_lookup delivery mp ms;
  dset_ids : DeviceId_empty d = false /\ Uuid.is_nil (conversation_bytes c) = false;
  dset_month : from_time_point (ck_query ck) = Ok b /\ from_time_point (ck_ceiling ck) = Ok b /\ previous_bucket b = Ok p;
  dset_key : key_wf c b;
  dset_auth : match auth with Some s => can_view_conversation caller c s = Ok tt | None => True end;
  dset_messages : l = entities mm (partition_key c b) store /\ entities mm (partition_key c p) store = [];
  dset_numbered : numbered 1 l /\ 0 < Z.of_nat (length l) < 2 ^ 62;
  dset_current : exists a, sequence_allocator_ mg = Some a /\ current c b store a = Ok (Z.of_nat (length l));
  dset_cursor : get_cursor d c (ck_cursor ck) mg = Ok cursor;
}.

(** One call of the loop. *)
Lemma drain_page c d mg mm mp ms b p cursor l cmd since :
  drain_setting c d mg mm mp ms b p cursor l -> sn_conversation_id cmd = Some c -> sn_device_id cmd = d ->
  effective_since cmd cursor = since -> 0 <= since <= Z.of_nat (length l) ->
  let batch := clamp_sync_batch_size (sn_max_messages cmd) in
  exists r mg', sync_messages index_lookup auth delivery caller cmd ck store mg = (Ok r, mg') /\
    drain_setting c d mg' mm mp ms b p cursor l /\ sr_status r = SyncSuccess /\
    sr_messages r = take (Z.to_nat batch) (drop (Z.to_nat since) l) /\
    sr_has_more r = (since + batch <? Z.of_nat (length l)) /\ sr_next_sequence r = next_after since (sr_messages r).
Proof.
  intros Hset Hconv Hd Hsince Hs batch. pose proof Hset as [Hst Hdel [Hde Hnil] (Hq & Hce & Hp) Hk Hau [Hl Hpe] [Hn Hlen] (a & Ha & Hcur) Hc].
  destruct (ceiling_current c (ck_ceiling ck) b mg a _ Hce Hk Ha Hcur) as (a' & Hceil & Hcur'); [lia|].
  subst d. destruct (sync_messages_spec index_lookup store mm delivery mp ms c (ck_query ck) b p Hst Hdel Hq Hp auth caller cmd ck mg
              _ cursor _ eq_refl Hconv Hc Hceil ltac:(rewrite Hsince; lia)) as (r & mg' & Hrun & Hok & Hsucc).
  rewrite Hsince in Hok, Hsucc. assert (sr_status r = SyncSuccess) as Hr by (apply Hsucc; [done..|lia]).
  destruct (Hok Hr) as (_ & _ & -> & _ & Hnext & Hpage). exists r, (set_allocator_ a' mg).
  split; [exact Hrun|]. split.
  { destruct Hset. split; try done. exists a'. split; [done|exact Hcur']. }
  split; [done|]. pose proof (clamp_range (sn_max_messages cmd)) as Hb. fold batch in Hb, Hpage.
  assert (page_of store mm c b p since batch (Z.of_nat (length l)) = page_boundary batch (Z.of_nat (length l)) (fetched since batch [] l)) as Hpo
    by (unfold page_of; by rewrite Hpe, <- Hl).
  rewrite Hpo in Hpage. rewrite (proj2 (Z.eqb_neq (Z.of_nat (length l)) 0)), orb_false_r in Hpage by lia.
  destruct (Z.leb_spec (Z.of_nat (length l)) since).
  - destruct Hpage as [Hm Hmore]. rewrite drop_ge, take_nil by lia. rewrite Hmore.
    split; [done|]. split; [|done]. symmetry. apply Z.ltb_ge. lia.
  - rewrite page_numbered in Hpage by (done || lia). rewrite Hnext. by destruct Hpage as [-> ->].
Qed.

Lemma drain_all fuel c d mg mm mp ms b p cursor l cmd since :
  drain_setting c d mg mm mp ms b p cursor l -> sn_conversation_id cmd = Some c -> sn_device_id cmd = d ->
  effective_since cmd cursor = since -> 0 <= since <= Z.of_nat (length l) ->
  Z.of_nat (length l) - since < Z.of_nat fuel -> drain fuel cmd mg = Some (drop (Z.to_nat since) l).
Proof.
  revert mg cmd since. induction fuel as [|fuel IH]; intros mg cmd since Hset Hconv Hd Hsince Hs Hfuel; [lia|].
  cbn [drain]. destruct (drain_page _ _ _ _ _ _ _ _ _ _ cmd since Hset Hconv Hd Hsince Hs)
    as (r & mg' & -> & Hset' & Hr & Hm & Hmore & Hnext). rewrite decide_True by done. rewrite Hmore.
  pose proof (clamp_range (sn_max_messages cmd)) as Hb. set (batch := clamp_sync_batch_size (sn_max_messages cmd)) in *.
  destruct (Z.ltb_spec (since + batch) (Z.of_nat (length l))) as [Hlt|Hge].
  - assert (Hnx : sr_next_sequence r = since + batch + 1).
    { rewrite Hnext, Hm. destruct Hset as [_ _ _ _ _ _ _ [Hn _] _ _].
      pose proof (numbered_drop 1 l (Z.to_nat since) Hn ltac:(lia)) as Hnd.
      unfold next_after. destruct (last _) as [e|] eqn:He.
      - assert (numbered (1 + Z.of_nat (Z.to_nat since)) (take (Z.to_nat batch) (drop (Z.to_nat since) l))) as Hnt
          by (by apply numbered_take). rewrite (numbered_last _ _ _ Hnt He), length_take, length_drop. lia.
      - apply last_None, (f_equal length) in He. rewrite length_take, length_drop in He. cbn in He. lia. }
    rewrite (IH mg' _ (since + batch) Hset'); [|done|done| |lia|lia].
    + cbn. rewrite Hm. f_equal. replace (Z.to_nat (since + batch)) with (Z.to_nat since + Z.to_nat batch)%nat by lia.
      rewrite <- drop_drop. apply take_drop.
    + unfold effective_since. cbn [sn_since_sequence]. rewrite Hnx, (proj2 (Z.ltb_lt _ _)) by lia. lia.
  - by rewrite Hm, take_ge by (rewrite length_drop; lia).
Qed.

(** C9.  Synchronisation is complete.  In a conversation whose messages are in the
    current month, numbered without a gap, and not being added to, a client that asks
    for page after page, with any page size, ends and has received every message after
    the position it started from (its cursor, or the position it named), once each and
    in order: a number of calls above the number of messages is always enough. *)
Theorem sync_drains fuel c d mg mm mp ms b p cursor l cmd
    (Hset : drain_setting c d mg mm mp ms b p cursor l) (Hconv : sn_conversation_id cmd = Some c)
    (Hd : sn_device_id cmd = d) (Hsince : 0 <= effective_since cmd cursor <= Z.of_nat (length l))
    (Hfuel : (length l < fuel)%nat) :
  drain fuel cmd mg = Some (drop (Z.to_nat (effective_since cmd cursor)) l).
Proof. eapply drain_all; [done..|lia]. Qed.

End draining.

(** ** Witnesses *)

(** The index query on finite-map tables. *)
Definition gindex (d : DeviceId) (id : MessageId) (t : GTable PendingPartition PendingCluster)
    : option (PendingPartition * (PendingCluster * Cells)) :=
  match List.find (fun kv : PendingPartition * PendingCluster * Cells =>
                     String.eqb kv.1.1.1 (device_str d) && String.eqb kv.1.2.2 (MessageId_to_string id)) (map_to_list (M := gmap (PendingPartition * PendingCluster) Cells) t) with
  | Some (p, c, r) => Some (p, (c, r))
  | None => None
  end.

Lemma gindex_ok t : index_ok gindex t.
Proof.
  intros d id. unfold gindex. destruct (List.find _ _) as [[[p c] r]|] eqn:Hf.
  - apply find_some in Hf as [Hin%list_elem_of_In Hk]. apply (elem_of_map_to_list (M := gmap (PendingPartition * PendingCluster))) in Hin. apply andb_true_iff in Hk as [H1 H2].
    apply String.eqb_eq in H1, H2. done.
  - intros p c Hp Hc. cbn. destruct (t !! (p, c)) as [r|] eqn:Hr; [|done].
    apply (elem_of_map_to_list (M := gmap (PendingPartition * PendingCluster))), list_elem_of_In in Hr. apply (find_none _ _ Hf) in Hr. cbn in Hr.
    rewrite Hp, Hc, !String.eqb_refl in Hr. done.
Qed.

Definition message_in (b : MessageBucket) (sequence : Z) : MessageEntity :=
  {| me_conversation_id := conv_1; me_message_bucket := b; me_message_sequence := sequence;
     me_message_id := mkMessageId (replicate 16 sequence); me_sender_user_id := mkUserId "u";
     me_sender_device_id := mkDeviceId "d"; me_priority := Normal; me_accepted_at := 0;
     me_envelope := mkCiphertext "x" 1; me_file_reference_ids := [] |}.

#[local] Abbreviation messages_t := (GTable MessagePartition MessageCluster).
#[local] Abbreviation cursors_t := (GTable string string).

Definition at_time (now : Z) : SyncClock := mkSyncClock now now now.
Definition sync_command (since max : Z) : SyncDeviceMessagesCommand := mkSyncCommand device_1 (Some conv_1) since max.
Definition sync_plain {A} `{!SequenceAllocator A messages_t} :=
  sync_messages (TC := cursors_t) (T := messages_t) (A := A) (C := InMemoryConversationRepository)
    (M := InMemoryMembershipRepository) (TS := GTable string string) gindex None None (mkUserId "u").

Lemma message_in_wf b sequence : bucket_wf b -> 0 <= sequence < 256 -> message_wf (message_in b sequence).
Proof.
  intros Hb Hs. split; [apply conv_1_wf|]. split; [|split; [done|cbn; lia]].
  split; [done|]. repeat constructor; lia.
Qed.

Lemma months_2026 :
  from_time_point in_january = Ok january_2026 /\ from_time_point in_february = Ok february_2026 /\
  previous_bucket january_2026 = Ok december_2025 /\ previous_bucket february_2026 = Ok january_2026.
Proof. split_and!; vm_compute; reflexivity. Qed.

(** One message was submitted. *)
Definition allocator_1 : ConversationSequenceAllocator :=
  set_counter (fun _ => 0) (make_key conv_1 january_2026) 1 (mkAllocator ∅).
Definition one_message : SeqState (T := messages_t) :=
  mkSeq allocator_1 (save_message (message_in january_2026 1) ∅) ∅.
Definition manager_1 : SyncCursorManager cursors_t ConversationSequenceAllocator := mkManager ∅ (Some allocator_1) true.

Lemma one_message_reachable :
  rtc (seq_step (fun _ => 0)) (mkSeq (mkAllocator ∅) ∅ ∅) one_message.
Proof.
  eapply rtc_l; [apply (step_allocate _ 0 (message_in january_2026 1) 1 allocator_1)|];
    [done|apply message_in_wf; [done|lia]|vm_compute; reflexivity|done|].
  eapply rtc_l; [apply (step_save _ 0 (message_in january_2026 1)); done|]. apply rtc_refl.
Qed.

Definition device_record : DeviceDeliveryRecord :=
  {| dr_device_id := device_1; dr_delivery_bucket := "202601"; dr_accepted_at := 0;
     dr_message_id := mkMessageId (replicate 16 1); dr_conversation_id := conv_1; dr_message_sequence := 1;
     dr_message_priority := Normal; dr_delivery_state := Queued; dr_attempt_count := 0; dr_next_retry_at := None;
     dr_ciphertext_blob := "x"; dr_ephemeral_public_key := []; dr_iv := []; dr_auth_tag := [];
     dr_algorithm := XChaCha20_Poly1305; dr_protocol_version := V1_Signal_PQXDH_DoubleRatchet; dr_one_time_prekey_id := None |}.

(** The records of the device, and a second target of the message. *)
Definition deliveries : gmap_repo :=
  save_state_one (mkRecipientState (mkMessageId (replicate 16 1)) device_1 (mkUserId "u1") Delivered None None)
    (save_pending_one device_record empty_repo).

Lemma deliveries_ok :
  exists mp ms, delivery_ok gindex (Some deliveries) mp ms.
Proof.
  exists (pending_spec (SavePending device_record) ∅),
    (state_spec (SaveState (mkRecipientState (mkMessageId (replicate 16 1)) device_1 (mkUserId "u1") Delivered None None)) ∅).
  split; [|split; [|apply gindex_ok]].
  - apply (pending_sim (SavePending device_record) empty_repo ∅ empty_pending_repr).
    split; [apply (message_in_wf january_2026 1); [done|lia]|]. split; [apply conv_1_wf|]. split; [done|]. done.
  - apply save_state_sim; [|apply (message_in_wf january_2026 1); [done|lia]].
    exact empty_state_repr.
Qed.

Lemma one_message_setting mp ms :
  delivery_ok gindex (Some deliveries) mp ms ->
  sync_setting (TC := cursors_t) (fun _ => 0) gindex one_message conv_1 (sync_command 0 10) (at_time in_january) ∅
    (Some deliveries) mp ms manager_1 january_2026 december_2025.
Proof.
  destruct months_2026 as (H1 & _ & H2 & _). intros Hd. split.
  - exists (mkSeq (mkAllocator ∅) ∅ ∅). split_and!; [done|done|apply empty_message_repr|apply one_message_reachable].
  - done.
  - apply empty_cursor_repr.
  - exact Hd.
  - split; [done|apply conv_1_wf].
  - split_and!; [exact H1|done|exact H2|done].
  - exact H1.
  - intros cursor Hc. vm_compute in Hc. injection Hc as <-. vm_compute. split; [discriminate|reflexivity].
Qed.

Lemma sync_page_sound_witness :
  exists r mg', sync_messages (SequenceAllocator0 := conversation_sequences (fun _ => 0)) (C := InMemoryConversationRepository)
      (M := InMemoryMembershipRepository) gindex None (Some deliveries) (mkUserId "u") (sync_command 0 10) (at_time in_january)
      (seq_store one_message) manager_1 = (Ok r, mg') /\
    (sr_status r = SyncSuccess -> StronglySorted before (sr_messages r)).
Proof.
  destruct deliveries_ok as (mp & ms & Hd).
  destruct (sync_page_sound (C := InMemoryConversationRepository) (M := InMemoryMembershipRepository) (fun _ => 0) gindex
    one_message conv_1 (sync_command 0 10) (at_time in_january) ∅ (Some deliveries) mp ms manager_1 january_2026 december_2025
    None (mkUserId "u") (one_message_setting mp ms Hd)) as (r & mg' & Hrun & Hr).
  exists r, mg'. split; [exact Hrun|]. intros Hs. apply (Hr Hs).
Defined.

Lemma envelopes_addressed_witness :
  exists mp ms r mg', sync_messages (SequenceAllocator0 := conversation_sequences (fun _ => 0)) (C := InMemoryConversationRepository)
      (M := InMemoryMembershipRepository) gindex None (Some deliveries) (mkUserId "u") (sync_command 0 10) (at_time in_january)
      (seq_store one_message) manager_1 = (Ok r, mg') /\
    (sr_status r = SyncSuccess ->
     envelopes_ok mp ms device_1 (me_message_id <$> sr_messages r) (sr_device_envelopes r, sr_untargeted_messages r)).
Proof.
  destruct deliveries_ok as (mp & ms & Hd). exists mp, ms.
  exact (envelopes_addressed (C := InMemoryConversationRepository) (M := InMemoryMembershipRepository) (fun _ => 0) gindex
    one_message conv_1 (sync_command 0 10) (at_time in_january) ∅ (Some deliveries) mp ms manager_1 january_2026 december_2025
    None (mkUserId "u") (one_message_setting mp ms Hd)).
Defined.

Definition january_store : messages_t := save_message (message_in january_2026 1) ∅.
Definition january_manager : SyncCursorManager cursors_t InMemorySequenceAllocator :=
  mkManager ∅ (Some (allocator_at january_2026 1)) true.

Lemma sync_drains_witness :
  drain (C := InMemoryConversationRepository) (M := InMemoryMembershipRepository) (TS := GTable string string)
    gindex None None (mkUserId "u") (at_time in_january) january_store 2 (sync_command 0 10) january_manager
  = Some [message_in january_2026 1].
Proof.
  destruct months_2026 as (H1 & _ & H2 & _).
  apply (sync_drains (C := InMemoryConversationRepository) (M := InMemoryMembershipRepository) (TS := GTable string string)
    gindex None None (mkUserId "u") (at_time in_january) january_store 2 conv_1 device_1 january_manager
    (message_spec (message_in january_2026 1) ∅) ∅ ∅ january_2026 december_2025 (create_initial device_1 conv_1 in_january)
    [message_in january_2026 1]).
  - split.
    + apply save_message_repr; [apply message_in_wf; [done|lia]|apply empty_message_repr].
    + split; reflexivity.
    + split; vm_compute; reflexivity.
    + split_and!; [exact H1|exact H1|exact H2].
    + split; [apply conv_1_wf|reflexivity].
    + exact I.
    + split; vm_compute; reflexivity.
    + split; [vm_compute; reflexivity|cbn [length]; lia].
    + exists (allocator_at january_2026 1). split; [reflexivity|]. vm_compute. reflexivity.
    + vm_compute. reflexivity.
  - reflexivity.
  - reflexivity.
  - vm_compute. split; discriminate.
  - cbn. lia.
Defined.

(** ** What the sequence numbers of a new month do to a device *)

(** Three messages in January, the first of February, and a device that has synchronised
    January. *)
Definition rollover_store : messages_t :=
  save_message (message_in february_2026 1) (exec_all save_message (message_in january_2026 <$> [1; 2; 3]) ∅).
Definition rollover_cursors : cursors_t := upsert_sync_cursor (mkCursor device_1 conv_1 3 0 2) ∅.
Definition rollover_manager : SyncCursorManager cursors_t InMemorySequenceAllocator :=
  mkManager rollover_cursors (Some (allocator_at february_2026 1)) true.

Definition sync_status {A} (x : result exn SyncMessagesResult * A) : option SyncMessagesStatus :=
  match x.1 with Ok r => Some (sr_status r) | Err _ => None end.
Definition update_status {A} (x : result exn SyncCursorUpdateOutcome * A) : option SyncCursorUpdateStatus :=
  match x.1 with Ok r => Some (uo_status r) | Err _ => None end.

(** Sequence numbers start again from 1 in every month, while a cursor has no month.
    After the turn of the month, a device that has received all messages of the month
    before is refused the new one (its cursor is beyond the new ceiling), and cannot
    move its cursor to it either. *)
Theorem new_month_locks_device_out :
  sync_status (sync_plain (sync_command 0 10) (at_time in_february) rollover_store rollover_manager) = Some CursorOutOfBounds /\
  update_status (update_cursor (mkUpdateCall device_1 conv_1 1 0 in_february in_february in_february Answers)
    rollover_store rollover_manager) = Some RegressionRejected.
Proof. split; vm_compute; reflexivity. Qed.

(** The window of a page is a range of numbers as wide as the page.  When so many
    consecutive numbers were allocated and lost, the answer is empty and says that
    nothing follows, although a later message is stored. *)
Theorem lost_numbers_hide_messages :
  match sync_plain (sync_command 1 1) (at_time in_january)
          (exec_all save_message (message_in january_2026 <$> [1; 4]) ∅)
          (mkManager ∅ (Some (allocator_at january_2026 4)) true) with
  | (Ok r, _) => sr_status r = SyncSuccess /\ sr_messages r = [] /\ sr_has_more r = false /\ sr_latest_sequence r = 4
  | (Err _, _) => False
  end.
Proof. vm_compute. split_and!; reflexivity. Qed.
