(* ===== verification/CircuitBreaker.v ===== *)
(** * The gateway's circuit breaker

    Models [src/gateway/http/resilience/circuit_breaker.{hpp,cpp}]: the three
    state machine [CircuitBreaker], guarding one downstream service, and the
    [CircuitBreakerRegistry] that owns one breaker per service.

    A [steady_clock::time_point] is a count of nanoseconds; every operation that
    reads the clock takes the value it reads as its argument [now].  The mutex
    serialises the operations, so a concurrent run is a sequence of them. *)

From S2P Require Import Prelude.

(** ** Data *)

Inductive CircuitState := Closed | Open | HalfOpen.

#[export] Instance CircuitState_eq_dec : EqDecision CircuitState.
Proof. solve_decision. Defined.

Definition CircuitState_to_string (state : CircuitState) : string :=
  match state with
  | Closed => "CLOSED"
  | Open => "OPEN"
  | HalfOpen => "HALF_OPEN"
  end.

Record GatewayCircuitBreakerConfig := {
  cb_enabled : bool;
  cb_failure_threshold : Z;
  cb_recovery_timeout_ms : Z;
  cb_half_open_probe_count : Z
}.

(** What [gateway_config.cpp] accepts: thresholds at least one, all in 32 bits. *)
Definition cb_config_ok (cfg : GatewayCircuitBreakerConfig) : Prop :=
  1 <= cb_failure_threshold cfg < 2 ^ 32 /\
  0 <= cb_recovery_timeout_ms cfg < 2 ^ 32 /\
  1 <= cb_half_open_probe_count cfg < 2 ^ 32.

(** [::grpc::StatusCode], the standard codes of gRPC. *)
Inductive StatusCode :=
  | OK | CANCELLED | UNKNOWN | INVALID_ARGUMENT | DEADLINE_EXCEEDED | NOT_FOUND
  | ALREADY_EXISTS | PERMISSION_DENIED | RESOURCE_EXHAUSTED | FAILED_PRECONDITION
  | ABORTED | OUT_OF_RANGE | UNIMPLEMENTED | INTERNAL | UNAVAILABLE | DATA_LOSS
  | UNAUTHENTICATED.

#[export] Instance StatusCode_eq_dec : EqDecision StatusCode.
Proof. solve_decision. Defined.

Record CircuitBreaker := {
  state_ : CircuitState;
  consecutive_failures_ : Z;
  half_open_probes_in_flight_ : Z;
  open_time_ : Z
}.

(** The member initialisers: closed, no failure counted. *)
Definition CircuitBreaker_new : CircuitBreaker :=
  {| state_ := Closed; consecutive_failures_ := 0;
     half_open_probes_in_flight_ := 0; open_time_ := 0 |}.

(** ** Operations *)

Section operations.
Context (config_ : GatewayCircuitBreakerConfig).

Definition is_transient_failure (status : StatusCode) : bool :=
  bool_decide (status = UNAVAILABLE) || bool_decide (status = DEADLINE_EXCEEDED).

(** Milliseconds since the circuit opened. *)
Definition elapsed_ms (now : Z) (cb : CircuitBreaker) : Z := to_ms (now - open_time_ cb).

Definition allow_request (now : Z) (cb : CircuitBreaker) : bool * CircuitBreaker :=
  if negb (cb_enabled config_) then (true, cb) else
  match state_ cb with
  | Closed => (true, cb)
  | Open =>
      if cb_recovery_timeout_ms config_ <=? elapsed_ms now cb then
        (true, {| state_ := HalfOpen; consecutive_failures_ := consecutive_failures_ cb;
                  half_open_probes_in_flight_ := 1; open_time_ := open_time_ cb |})
      else (false, cb)
  | HalfOpen =>
      if half_open_probes_in_flight_ cb <? cb_half_open_probe_count config_ then
        (true, {| state_ := HalfOpen; consecutive_failures_ := consecutive_failures_ cb;
                  half_open_probes_in_flight_ := u32 (half_open_probes_in_flight_ cb + 1);
                  open_time_ := open_time_ cb |})
      else (false, cb)
  end.

Definition record_success (cb : CircuitBreaker) : CircuitBreaker :=
  if negb (cb_enabled config_) then cb else
  match state_ cb with
  | HalfOpen => {| state_ := Closed; consecutive_failures_ := 0;
                   half_open_probes_in_flight_ := 0; open_time_ := open_time_ cb |}
  | Closed => {| state_ := Closed; consecutive_failures_ := 0;
                 half_open_probes_in_flight_ := half_open_probes_in_flight_ cb;
                 open_time_ := open_time_ cb |}
  | Open => cb
  end.

Definition record_failure (is_transient : bool) (now : Z) (cb : CircuitBreaker) : CircuitBreaker :=
  if negb is_transient then cb else
  if negb (cb_enabled config_) then cb else
  match state_ cb with
  | HalfOpen => {| state_ := Open; consecutive_failures_ := consecutive_failures_ cb;
                   half_open_probes_in_flight_ := 0; open_time_ := now |}
  | Closed =>
      let failures := u32 (consecutive_failures_ cb + 1) in
      if cb_failure_threshold config_ <=? failures then
        {| state_ := Open; consecutive_failures_ := failures;
           half_open_probes_in_flight_ := 0; open_time_ := now |}
      else
        {| state_ := Closed; consecutive_failures_ := failures;
           half_open_probes_in_flight_ := half_open_probes_in_flight_ cb;
           open_time_ := open_time_ cb |}
  | Open => cb
  end.

Definition record_status (status : StatusCode) (now : Z) (cb : CircuitBreaker) : CircuitBreaker :=
  if bool_decide (status = OK) then record_success cb
  else record_failure (is_transient_failure status) now cb.

(** The observer [state()]: an open circuit whose window has elapsed reads as
    half-open without being changed. *)
Definition state (now : Z) (cb : CircuitBreaker) : CircuitState :=
  match state_ cb with
  | Open => if cb_recovery_timeout_ms config_ <=? elapsed_ms now cb then HalfOpen else Open
  | s => s
  end.

Definition remaining_recovery_time_sec (now : Z) (cb : CircuitBreaker) : Z :=
  match state_ cb with
  | Open =>
      if cb_recovery_timeout_ms config_ <=? elapsed_ms now cb then 0
      else u32 (u64 (u64 (cb_recovery_timeout_ms config_ - elapsed_ms now cb) + 999) / 1000)
  | _ => 0
  end.

Definition reset (cb : CircuitBreaker) : CircuitBreaker :=
  {| state_ := Closed; consecutive_failures_ := 0;
     half_open_probes_in_flight_ := 0; open_time_ := open_time_ cb |}.

(** The calls a breaker receives. *)
Inductive CbCall :=
  | CAllow (now : Z)
  | CStatus (status : StatusCode) (now : Z)
  | CReset.

Definition cb_step (c : CbCall) (cb : CircuitBreaker) : CircuitBreaker :=
  match c with
  | CAllow now => (allow_request now cb).2
  | CStatus status now => record_status status now cb
  | CReset => reset cb
  end.

(** The answer of a call; only [allow_request] has one. *)
Definition cb_answer (c : CbCall) (cb : CircuitBreaker) : option bool :=
  match c with
  | CAllow now => Some (allow_request now cb).1
  | _ => None
  end.

(** The answers of a sequence of calls, in order. *)
Fixpoint cb_answers (cs : list CbCall) (cb : CircuitBreaker) : list (option bool) :=
  match cs with
  | [] => []
  | c :: cs => cb_answer c cb :: cb_answers cs (cb_step c cb)
  end.

End operations.

(** ** The registry: one breaker per service name, shared by its users *)

Definition registry_get (service_name : string) (breakers_ : gmap string CircuitBreaker)
  : option CircuitBreaker := breakers_ !! service_name.

Definition get_or_create (service_name : string) (breakers_ : gmap string CircuitBreaker)
  : CircuitBreaker * gmap string CircuitBreaker :=
  match breakers_ !! service_name with
  | Some cb => (cb, breakers_)
  | None => (CircuitBreaker_new, <[service_name := CircuitBreaker_new]> breakers_)
  end.

Definition registry_new : gmap string CircuitBreaker :=
  foldl (fun m name => (get_or_create name m).2) ∅ ["auth"; "messaging"; "files"; "audit"]%string.

Definition reset_all (breakers_ : gmap string CircuitBreaker) : gmap string CircuitBreaker :=
  reset <$> breakers_.

(** A call on the breaker a client obtained by [get_or_create]. *)
Definition registry_call (cfg : GatewayCircuitBreakerConfig) (service_name : string) (c : CbCall)
    (breakers_ : gmap string CircuitBreaker) : gmap string CircuitBreaker :=
  let '(cb, m) := get_or_create service_name breakers_ in
  <[service_name := cb_step cfg c cb]> m.

(** ** Invariant

    The fields a state does not use hold what the transitions leave there: the
    counter stays below the threshold while the circuit is closed, and the probe
    counter is positive and within its budget while it is half-open. *)

Definition cb_inv (cfg : GatewayCircuitBreakerConfig) (cb : CircuitBreaker) : Prop :=
  match state_ cb with
  | Closed => 0 <= consecutive_failures_ cb < cb_failure_threshold cfg /\
              half_open_probes_in_flight_ cb = 0
  | Open => half_open_probes_in_flight_ cb = 0
  | HalfOpen => 1 <= half_open_probes_in_flight_ cb <= cb_half_open_probe_count cfg
  end.

Ltac cb_unfold :=
  unfold cb_step, cb_answer, allow_request, record_status, record_success, record_failure, reset in *.

(** Case analysis on the configuration, the state and the tests of one call. *)
Ltac cb_cases cb :=
  cb_unfold; destruct cb as [[| |] ? ? ?]; cbn in *; split_ifs; cbn in *; try done.

Section proofs.
Context (cfg : GatewayCircuitBreakerConfig).
Context (Hcfg : cb_config_ok cfg).

Lemma cb_inv_new : cb_inv cfg CircuitBreaker_new.
Proof. destruct Hcfg. cbn. lia. Qed.

Lemma cb_inv_step c cb : cb_inv cfg cb -> cb_inv cfg (cb_step cfg c cb).
Proof.
  destruct Hcfg as (? & ? & ?). unfold cb_inv. intros Hinv.
  destruct c; cb_cases cb; try lia.
  all: rewrite u32_small in * by (unfold in_u32; lia); lia.
Qed.

Lemma cb_inv_exec cs : cb_inv cfg (exec_all (cb_step cfg) cs CircuitBreaker_new).
Proof.
  apply (exec_all_inv _ (cb_inv cfg) (fun _ => True)).
  - intros ???. apply cb_inv_step.
  - by apply Forall_true.
  - apply cb_inv_new.
Qed.

(** ** Fail fast

    While the window of an open circuit has not elapsed, no call but [reset]
    changes the breaker and no request is admitted. *)

Definition within_window (cb : CircuitBreaker) (c : CbCall) : Prop :=
  match c with
  | CAllow now => elapsed_ms now cb < cb_recovery_timeout_ms cfg
  | CStatus _ _ => True
  | CReset => False
  end.

Lemma open_call_unchanged c cb :
  cb_enabled cfg = true -> state_ cb = Open -> within_window cb c ->
  cb_step cfg c cb = cb /\ cb_answer cfg c cb <> Some true.
Proof.
  intros He Hs Hw. destruct c; cb_unfold; unfold within_window in Hw; rewrite ?He, ?Hs; cbn.
  - rewrite (proj2 (Z.leb_gt _ _)) by done. done.
  - split_ifs; done.
  - done.
Qed.

Lemma open_window_answers cs cb :
  cb_enabled cfg = true -> state_ cb = Open -> Forall (within_window cb) cs ->
  exec_all (cb_step cfg) cs cb = cb /\ Some true ∉ cb_answers cfg cs cb.
Proof.
  intros He Hs. induction cs as [|c cs IH]; intros Hw; cbn.
  { split; [done|]. apply not_elem_of_nil. }
  rewrite exec_all_cons.
  apply Forall_cons in Hw as [Hc Hcs].
  destruct (open_call_unchanged c cb He Hs Hc) as [-> Ha].
  destruct (IH Hcs) as [-> ?]. split; [done|]. by apply not_elem_of_cons.
Qed.

(** ** Consecutive failures *)

Lemma record_unavailable_closed t cb :
  cb_enabled cfg = true -> state_ cb = Closed -> 0 <= consecutive_failures_ cb ->
  consecutive_failures_ cb + 1 < cb_failure_threshold cfg ->
  state_ (cb_step cfg (CStatus UNAVAILABLE t) cb) = Closed /\
  consecutive_failures_ (cb_step cfg (CStatus UNAVAILABLE t) cb) = consecutive_failures_ cb + 1.
Proof.
  destruct Hcfg as (? & ? & ?). intros He Hs Hpos Hlt.
  assert (Hu : u32 (consecutive_failures_ cb + 1) = consecutive_failures_ cb + 1).
  { apply u32_small. unfold in_u32. lia. }
  cbn. unfold record_status, record_failure. cbn. rewrite He, Hs, Hu. cbn.
  by rewrite (proj2 (Z.leb_gt _ _)) by lia.
Qed.

Lemma consecutive_failures_count times : forall cb,
  cb_enabled cfg = true -> state_ cb = Closed -> 0 <= consecutive_failures_ cb ->
  consecutive_failures_ cb + Z.of_nat (length times) < cb_failure_threshold cfg ->
  let cb' := exec_all (cb_step cfg) (CStatus UNAVAILABLE <$> times) cb in
  state_ cb' = Closed /\
  consecutive_failures_ cb' = consecutive_failures_ cb + Z.of_nat (length times).
Proof.
  induction times as [|t ts IH]; intros cb He Hs Hpos Hlt; cbn [length fmap list_fmap] in *.
  { rewrite exec_all_nil. split; [done|lia]. }
  destruct (record_unavailable_closed t cb) as [Hs' Hf']; [done..|lia|].
  rewrite exec_all_cons. destruct (IH (cb_step cfg (CStatus UNAVAILABLE t) cb)) as [-> ->]; try done.
  all: rewrite Hf'; try lia. split; [done|lia].
Qed.

End proofs.

(** ** Abstract specification

    The breaker of the class comment in [circuit_breaker.hpp], rule by rule: each state
    carries just the datum that belongs to it, counters are mathematical integers, and a
    recovery trial ends in [Closed] or in [Open].  The comment says nothing of a probe
    that ends in an error of another kind, and neither do the rules. *)

Inductive Breaker :=
  | BClosed (failures : Z)
  | BOpen (since : Z)
  | BHalfOpen (probes : Z).

Inductive documented (cfg : GatewayCircuitBreakerConfig) : CbCall -> option bool -> Breaker -> Breaker -> Prop :=
  | closed_admits now n : documented cfg (CAllow now) (Some true) (BClosed n) (BClosed n)
  | open_rejects now since : to_ms (now - since) < cb_recovery_timeout_ms cfg ->
      documented cfg (CAllow now) (Some false) (BOpen since) (BOpen since)
  | open_recovers now since : cb_recovery_timeout_ms cfg <= to_ms (now - since) ->
      documented cfg (CAllow now) (Some true) (BOpen since) (BHalfOpen 1)
  | probe_admitted now probes : probes < cb_half_open_probe_count cfg ->
      documented cfg (CAllow now) (Some true) (BHalfOpen probes) (BHalfOpen (probes + 1))
  | probes_exhausted now probes : cb_half_open_probe_count cfg <= probes ->
      documented cfg (CAllow now) (Some false) (BHalfOpen probes) (BHalfOpen probes)
  | success_clears now n : documented cfg (CStatus OK now) None (BClosed n) (BClosed 0)
  | failure_counted status now n : is_transient_failure status = true -> n + 1 < cb_failure_threshold cfg ->
      documented cfg (CStatus status now) None (BClosed n) (BClosed (n + 1))
  | failure_trips status now n : is_transient_failure status = true -> cb_failure_threshold cfg <= n + 1 ->
      documented cfg (CStatus status now) None (BClosed n) (BOpen now)
  | other_error_ignored status now n : status <> OK -> is_transient_failure status = false ->
      documented cfg (CStatus status now) None (BClosed n) (BClosed n)
  | probe_succeeds now probes : documented cfg (CStatus OK now) None (BHalfOpen probes) (BClosed 0)
  | probe_fails status now probes : is_transient_failure status = true ->
      documented cfg (CStatus status now) None (BHalfOpen probes) (BOpen now)
  | late_result status now since : documented cfg (CStatus status now) None (BOpen since) (BOpen since)
  | reset_closes b : documented cfg CReset None b (BClosed 0).

(** The answers the rules allow to a sequence of calls. *)
Inductive documented_run (cfg : GatewayCircuitBreakerConfig) : list CbCall -> list (option bool) -> Breaker -> Prop :=
  | run_end b : documented_run cfg [] [] b
  | run_call c cs a answers b b' : documented cfg c a b b' -> documented_run cfg cs answers b' ->
      documented_run cfg (c :: cs) (a :: answers) b.

Definition cb_abs (cb : CircuitBreaker) : Breaker :=
  match state_ cb with
  | Closed => BClosed (consecutive_failures_ cb)
  | Open => BOpen (open_time_ cb)
  | HalfOpen => BHalfOpen (half_open_probes_in_flight_ cb)
  end.

(** A status that says how a probe went. *)
Definition conclusive (status : StatusCode) : Prop := status = OK \/ is_transient_failure status = true.

(** Every status that is reported while the circuit is half-open is conclusive. *)
Definition conclusive_probes (cfg : GatewayCircuitBreakerConfig) (cs : list CbCall) (cb : CircuitBreaker) : Prop :=
  forall before status now after, cs = before ++ CStatus status now :: after ->
    state_ (exec_all (cb_step cfg) before cb) = HalfOpen -> conclusive status.

Lemma conclusive_probes_cons cfg c cs cb :
  conclusive_probes cfg (c :: cs) cb ->
  (forall status now, c = CStatus status now -> state_ cb = HalfOpen -> conclusive status) /\ conclusive_probes cfg cs (cb_step cfg c cb).
Proof.
  intros H. split.
  - intros status now ->. by apply (H [] status now cs).
  - intros before status now after -> Hs. apply (H (c :: before) status now after); [done|]. by rewrite exec_all_cons.
Qed.

Section refinement.
Context (cfg : GatewayCircuitBreakerConfig).
Context (Hcfg : cb_config_ok cfg) (Hen : cb_enabled cfg = true).

Lemma allow_documented now cb :
  cb_inv cfg cb -> documented cfg (CAllow now) (cb_answer cfg (CAllow now) cb) (cb_abs cb) (cb_abs (cb_step cfg (CAllow now) cb)).
Proof.
  destruct Hcfg as (? & ? & ?). unfold cb_inv, cb_abs. intros Hinv. cb_unfold. rewrite Hen. destruct cb as [[| |] n p t]; cbn in *.
  - constructor.
  - unfold elapsed_ms. cbn. destruct (Z.leb_spec (cb_recovery_timeout_ms cfg) (to_ms (now - t))); cbn; by constructor.
  - destruct (Z.ltb_spec p (cb_half_open_probe_count cfg)); cbn; [|by constructor].
    rewrite u32_small by (unfold in_u32; lia). by constructor.
Qed.

Lemma status_documented status now cb :
  cb_inv cfg cb -> (state_ cb = HalfOpen -> conclusive status) ->
  documented cfg (CStatus status now) None (cb_abs cb) (cb_abs (cb_step cfg (CStatus status now) cb)).
Proof.
  destruct Hcfg as (? & ? & ?). unfold cb_inv, cb_abs, conclusive. intros Hinv Hconc. cb_unfold.
  destruct (decide (status = OK)) as [->|Hok]; [rewrite bool_decide_true by done|rewrite bool_decide_false by done]; rewrite Hen;
    destruct cb as [[| |] n p t]; cbn in *; try by constructor.
  - destruct (is_transient_failure status) eqn:Ht; cbn; [|by constructor]. rewrite u32_small by (unfold in_u32; lia).
    destruct (Z.leb_spec (cb_failure_threshold cfg) (n + 1)); cbn; by constructor.
  - destruct (is_transient_failure status); cbn; constructor.
  - destruct (Hconc eq_refl) as [?|Ht]; [done|]. rewrite Ht. by constructor.
Qed.

Lemma calls_documented cs : forall cb,
  cb_inv cfg cb -> conclusive_probes cfg cs cb -> documented_run cfg cs (cb_answers cfg cs cb) (cb_abs cb).
Proof.
  induction cs as [|c cs IH]; intros cb Hinv Hc; cbn [cb_answers]; [constructor|].
  apply conclusive_probes_cons in Hc as [Hhead Htail]. econstructor; [|by apply IH; [apply cb_inv_step|]].
  destruct c as [now|status now|]; [by apply allow_documented|apply status_documented; [done|by apply (Hhead status now)]|constructor].
Qed.

End refinement.

(** ** Tripping and the half-open state *)

Section trip.
Context (cfg : GatewayCircuitBreakerConfig).
Context (Hcfg : cb_config_ok cfg) (Hen : cb_enabled cfg = true).

(** The breaker after as many consecutive failures as the threshold asks for. *)
Lemma trip_state times t :
  Z.of_nat (length times) + 1 = cb_failure_threshold cfg ->
  let cb := exec_all (cb_step cfg) (CStatus UNAVAILABLE <$> times ++ [t]) CircuitBreaker_new in
  state_ cb = Open /\ open_time_ cb = t.
Proof using Hcfg Hen.
  intros Hlen. cbn zeta. rewrite fmap_app, exec_all_app. cbn [fmap list_fmap].
  destruct (consecutive_failures_count cfg Hcfg times CircuitBreaker_new) as [Hs Hf];
    [done..|cbn; lia|cbn; lia|].
  rewrite exec_all_cons, exec_all_nil. revert Hs Hf.
  generalize (exec_all (cb_step cfg) (CStatus UNAVAILABLE <$> times) CircuitBreaker_new).
  intros cb Hs Hf. destruct Hcfg as (? & ? & ?). cbn in Hf. cbn.
  unfold record_status, record_failure. cbn. rewrite Hen, Hs, Hf. cbn.
  rewrite u32_small by (unfold in_u32; lia). by rewrite (proj2 (Z.leb_le _ _)) by lia.
Qed.

(** A call that neither reports a verdict on the service nor resets. *)
Definition no_verdict (c : CbCall) : Prop :=
  match c with
  | CAllow _ => True
  | CStatus status _ => status <> OK /\ is_transient_failure status = false
  | CReset => False
  end.

Lemma half_open_exhausted cs : forall cb,
  state_ cb = HalfOpen -> cb_half_open_probe_count cfg <= half_open_probes_in_flight_ cb ->
  Forall no_verdict cs ->
  exec_all (cb_step cfg) cs cb = cb /\ Some true ∉ cb_answers cfg cs cb.
Proof using Hen.
  intros cb Hs Hp. induction cs as [|c cs IH]; intros Hv; cbn.
  { split; [done|]. apply not_elem_of_nil. }
  apply Forall_cons in Hv as [Hc Hcs]. rewrite exec_all_cons.
  assert (Hstep : cb_step cfg c cb = cb /\ cb_answer cfg c cb <> Some true).
  { destruct c as [now|status now|]; cb_unfold; cbn in Hc; rewrite ?Hen, ?Hs; cbn; [|..|done].
    - by rewrite (proj2 (Z.ltb_ge _ _)) by lia.
    - destruct Hc as [Hok ->]. by rewrite bool_decide_false by done. }
  destruct Hstep as [-> Ha], (IH Hcs) as [-> ?]. split; [done|]. by apply not_elem_of_cons.
Qed.

End trip.

(** ** Properties *)

(** C38.  The breaker behaves as its class comment says.  For every enabled breaker whose
    threshold and probe budget are positive, every sequence of calls and every clock, the
    answers of [allow_request] are those of the documented breaker: it opens at the
    threshold of consecutive transient failures, fails fast until the recovery timeout,
    then admits its budget of probes, and the first verdict closes it or opens it again.
    The comment does not say what an error of another kind means for a probe, so the
    statement asks that every status reported while the circuit is half-open is a
    success or a transient failure. *)
Theorem breaker_refines_spec (cfg : GatewayCircuitBreakerConfig) (cs : list CbCall) :
  cb_config_ok cfg -> cb_enabled cfg = true -> conclusive_probes cfg cs CircuitBreaker_new ->
  documented_run cfg cs (cb_answers cfg cs CircuitBreaker_new) (BClosed 0).
Proof.
  intros Hcfg Hen Hc. apply (calls_documented cfg Hcfg Hen); [by apply cb_inv_new|done].
Qed.

Definition default_config : GatewayCircuitBreakerConfig :=
  {| cb_enabled := true; cb_failure_threshold := 5;
     cb_recovery_timeout_ms := 5000; cb_half_open_probe_count := 1 |}.

Lemma default_config_ok : cb_config_ok default_config.
Proof. unfold cb_config_ok; cbn; lia. Qed.

Lemma breaker_refines_spec_witness :
  let cs := [CStatus UNAVAILABLE 1; CStatus UNAVAILABLE 2; CStatus DEADLINE_EXCEEDED 3;
             CStatus UNAVAILABLE 4; CStatus UNAVAILABLE 5; CAllow 6;
             CAllow 6000000000; CAllow 6000000001; CStatus OK 6000000002; CAllow 7000000000] in
  cb_answers default_config cs CircuitBreaker_new
    = [None; None; None; None; None; Some false; Some true; Some false; None; Some true] /\
  documented_run default_config cs (cb_answers default_config cs CircuitBreaker_new) (BClosed 0).
Proof.
  split; [vm_compute; reflexivity|].
  apply (breaker_refines_spec default_config); [apply default_config_ok|reflexivity|]. intros before status now after Hcs _.
  assert (Hin : CStatus status now ∈ [CStatus UNAVAILABLE 1; CStatus UNAVAILABLE 2; CStatus DEADLINE_EXCEEDED 3;
    CStatus UNAVAILABLE 4; CStatus UNAVAILABLE 5; CAllow 6; CAllow 6000000000; CAllow 6000000001; CStatus OK 6000000002; CAllow 7000000000])
    by (rewrite Hcs; apply elem_of_app; right; left).
  rewrite !elem_of_cons, elem_of_nil in Hin. unfold conclusive.
  repeat (destruct Hin as [Hin|Hin]; [first [discriminate Hin|injection Hin as -> _; by auto]|]). destruct Hin.
Defined.

(** Tripping and failing fast: [failure_threshold] consecutive transient
    failures open the circuit, and from then on no request is admitted, whatever
    is called (short of [reset]), as long as every [allow_request] comes before
    the recovery timeout has elapsed. *)
Theorem breaker_trips_and_fails_fast (cfg : GatewayCircuitBreakerConfig)
    (times : list Z) (t : Z) (cs : list CbCall) :
  cb_config_ok cfg -> cb_enabled cfg = true ->
  Z.of_nat (length times) + 1 = cb_failure_threshold cfg ->
  let cb := exec_all (cb_step cfg) (CStatus UNAVAILABLE <$> times ++ [t]) CircuitBreaker_new in
  Forall (within_window cfg cb) cs ->
  state_ (exec_all (cb_step cfg) cs cb) = Open /\ open_time_ cb = t /\
  Some true ∉ cb_answers cfg cs cb.
Proof.
  intros Hcfg Hen Hlen cb Hcs.
  destruct (trip_state cfg Hcfg Hen times t Hlen) as [Hs Ht].
  destruct (open_window_answers cfg cs cb Hen Hs Hcs) as [-> ?]. done.
Qed.

Lemma breaker_trips_and_fails_fast_witness :
  let cb := exec_all (cb_step default_config) (CStatus UNAVAILABLE <$> [1; 2; 3; 4] ++ [5])
              CircuitBreaker_new in
  state_ (exec_all (cb_step default_config) [CAllow 6; CStatus OK 7; CAllow 4999000000] cb) = Open /\
  open_time_ cb = 5 /\
  Some true ∉ cb_answers default_config [CAllow 6; CStatus OK 7; CAllow 4999000000] cb.
Proof.
  apply (breaker_trips_and_fails_fast default_config [1; 2; 3; 4] 5);
    [apply default_config_ok|reflexivity|reflexivity|].
  repeat constructor.
Defined.

(** A half-open circuit can lock up for ever: with the default budget of one
    probe, a probe that ends in a non-transient error (such as a login answered
    UNAUTHENTICATED) leaves the budget spent and the state half-open; no later
    request is admitted, at any time, since only a verdict of an admitted request
    or [reset] could change the state. *)
Theorem half_open_locks_up (cfg : GatewayCircuitBreakerConfig)
    (times : list Z) (t t_probe t_reply : Z) (cs : list CbCall) :
  cb_config_ok cfg -> cb_enabled cfg = true -> cb_half_open_probe_count cfg = 1 ->
  Z.of_nat (length times) + 1 = cb_failure_threshold cfg ->
  cb_recovery_timeout_ms cfg <= to_ms (t_probe - t) ->
  let cb := exec_all (cb_step cfg)
              ((CStatus UNAVAILABLE <$> times ++ [t]) ++ [CAllow t_probe; CStatus UNAUTHENTICATED t_reply])
              CircuitBreaker_new in
  Forall no_verdict cs ->
  state_ cb = HalfOpen /\ exec_all (cb_step cfg) cs cb = cb /\ Some true ∉ cb_answers cfg cs cb.
Proof.
  intros Hcfg Hen Hone Hlen Hel cb Hcs. subst cb. rewrite exec_all_app.
  destruct (trip_state cfg Hcfg Hen times t Hlen) as [Hs Ht]. revert Hs Ht.
  generalize (exec_all (cb_step cfg) (CStatus UNAVAILABLE <$> times ++ [t]) CircuitBreaker_new).
  intros cb Hs Ht. rewrite !exec_all_cons, exec_all_nil. cbn.
  unfold allow_request, record_status, record_failure, elapsed_ms. cbn.
  rewrite Hen, Hs, Ht. cbn. rewrite (proj2 (Z.leb_le _ _)) by done. cbn.
  split; [done|]. apply (half_open_exhausted cfg Hen); [done|cbn; by rewrite Hone|done].
Qed.

Lemma half_open_locks_up_witness :
  let cb := exec_all (cb_step default_config)
              ((CStatus UNAVAILABLE <$> [1; 2; 3; 4] ++ [5])
                 ++ [CAllow 6000000000; CStatus UNAUTHENTICATED 6000000001])
              CircuitBreaker_new in
  let cs := [CAllow 7000000000; CStatus UNAUTHENTICATED 8000000000; CAllow 900000000000000] in
  state_ cb = HalfOpen /\ exec_all (cb_step default_config) cs cb = cb /\
  Some true ∉ cb_answers default_config cs cb.
Proof.
  apply (half_open_locks_up default_config [1; 2; 3; 4] 5 6000000000 6000000001);
    [apply default_config_ok|reflexivity|reflexivity|reflexivity| |].
  - vm_compute. discriminate.
  - repeat constructor; discriminate.
Defined.
