(* ===== verification/Bulkhead.v ===== *)
(** * Workload bulkheads of the gateway

    Models [src/gateway/http/resilience/bulkhead_manager.{hpp,cpp}]: the
    lock-free counter [WorkloadBulkhead], the RAII [BulkheadLease] that owns a
    slot, and the [BulkheadManager] with its four pools.

    Two views are given.  [Module Cas] runs any number of threads through the
    atomic accesses of [try_acquire] and [release] in every interleaving; the
    manager below uses the linearised operations, which a run of a single thread
    through [Cas] implements. *)

From S2P Require Import Prelude.

(** ** [WorkloadBulkhead] *)

Record WorkloadBulkhead := { max_concurrent_ : Z; active_count_ : Z }.

Definition WorkloadBulkhead_new (max_concurrent : Z) : WorkloadBulkhead :=
  {| max_concurrent_ := max_concurrent; active_count_ := 0 |}.

Definition try_acquire (b : WorkloadBulkhead) : bool * WorkloadBulkhead :=
  if max_concurrent_ b <=? active_count_ b then (false, b)
  else (true, {| max_concurrent_ := max_concurrent_ b;
                 active_count_ := u32 (active_count_ b + 1) |}).

(** [fetch_sub] wraps below zero; the store of zero that follows repairs it. *)
Definition bulkhead_release (b : WorkloadBulkhead) : WorkloadBulkhead :=
  {| max_concurrent_ := max_concurrent_ b;
     active_count_ := if active_count_ b =? 0 then 0 else u32 (active_count_ b - 1) |}.

Definition available_slots (b : WorkloadBulkhead) : Z :=
  if active_count_ b <? max_concurrent_ b then max_concurrent_ b - active_count_ b else 0.

Definition set_max_concurrent (max_concurrent : Z) (b : WorkloadBulkhead) : WorkloadBulkhead :=
  {| max_concurrent_ := max_concurrent; active_count_ := active_count_ b |}.

(** ** Interleavings of the lock-free loop *)

Module Cas.

(** Where a thread stands in [try_acquire] or [release]. *)
Inductive Pc :=
  | Idle                    (** outside both operations, owns no slot *)
  | Loop (current : Z)      (** in the loop, with the value last read *)
  | Held                    (** [try_acquire] returned true *)
  | StoreZero.              (** [fetch_sub] returned zero; the store is next *)

Record State := { active : Z; threads : gmap nat Pc }.

Definition goto (i : nat) (pc : Pc) (v : Z) (s : State) : State :=
  {| active := v; threads := <[i := pc]> (threads s) |}.

(** One atomic access (or local test) of thread [i].  [compare_exchange_weak]
    may fail even when the values agree, and then reloads [current]. *)
Inductive step (max : Z) : State -> State -> Prop :=
  | step_load i s :
      threads s !! i = Some Idle ->
      step max s (goto i (Loop (active s)) (active s) s)
  | step_reject i s current :
      threads s !! i = Some (Loop current) -> max <= current ->
      step max s (goto i Idle (active s) s)
  | step_cas_ok i s current :
      threads s !! i = Some (Loop current) -> current < max -> active s = current ->
      step max s (goto i Held (u32 (current + 1)) s)
  | step_cas_fail i s current :
      threads s !! i = Some (Loop current) -> current < max ->
      step max s (goto i (Loop (active s)) (active s) s)
  | step_fetch_sub i s :
      threads s !! i = Some Held -> active s <> 0 ->
      step max s (goto i Idle (u32 (active s - 1)) s)
  | step_fetch_sub_zero i s :
      threads s !! i = Some Held -> active s = 0 ->
      step max s (goto i StoreZero (u32 (active s - 1)) s)
  | step_store_zero i s :
      threads s !! i = Some StoreZero ->
      step max s (goto i Idle 0 s).

Definition is_held (pc : Pc) : bool := match pc with Held => true | _ => false end.
Definition is_store (pc : Pc) : bool := match pc with StoreZero => true | _ => false end.

(** The threads that own a slot. *)
Definition holders (s : State) : Z := map_count is_held (threads s).

Definition init (s : State) : Prop :=
  active s = 0 /\ forall i pc, threads s !! i = Some pc -> pc = Idle.

Definition inv (max : Z) (s : State) : Prop :=
  active s = holders s /\ holders s <= max /\
  (forall i, threads s !! i <> Some StoreZero).

Lemma active_goto i pc v s : active (goto i pc v s) = v.
Proof. done. Qed.

Lemma holders_goto i pc pc' v s :
  threads s !! i = Some pc ->
  holders (goto i pc' v s) = holders s - counted is_held (Some pc) + counted is_held (Some pc').
Proof. intros Hi. unfold holders, goto. cbn [threads]. by rewrite map_count_insert, Hi. Qed.

Lemma goto_no_store i pc v s :
  (forall j, threads s !! j <> Some StoreZero) -> pc <> StoreZero ->
  forall j, threads (goto i pc v s) !! j <> Some StoreZero.
Proof.
  intros Hs Hpc j. cbn. destruct (decide (i = j)) as [->|Hne].
  - rewrite lookup_insert_eq. congruence.
  - by rewrite lookup_insert_ne.
Qed.

Lemma init_inv max s : 0 <= max -> init s -> inv max s.
Proof.
  intros Hmax [Ha Hidle].
  assert (Hh : holders s = 0).
  { apply map_count_zero. intros i pc Hi. by apply Hidle in Hi as ->. }
  repeat split; [lia..|]. intros i Hi. by apply Hidle in Hi.
Qed.

Lemma step_inv max s s' : 0 <= max < 2 ^ 32 -> step max s s' -> inv max s -> inv max s'.
Proof.
  intros Hmax Hstep (Ha & Hle & Hz).
  pose proof (map_count_nonneg is_held (threads s)) as Hpos. fold (holders s) in Hpos.
  destruct Hstep as [i s Hi|i s c Hi Hc|i s c Hi Hc He|i s c Hi Hc|i s Hi Hnz|i s Hi Hz0|i s Hi].
  7: by apply Hz in Hi.
  6: { pose proof (map_count_pos is_held (threads s) i Held Hi eq_refl) as H1.
       fold (holders s) in H1. lia. }
  all: unfold inv; erewrite holders_goto by exact Hi; rewrite active_goto.
  all: rewrite ?u32_small by (unfold in_u32; lia).
  all: split; [|split; [|by apply goto_no_store]]; unfold counted; cbn; lia.
Qed.

(** A run of one thread through [try_acquire] with no interference. *)
Lemma solo_try_acquire max v i s :
  active s = v -> threads s !! i = Some Idle ->
  exists s', rtc (step max) s s' /\
    let r := try_acquire {| max_concurrent_ := max; active_count_ := v |} in
    active s' = active_count_ r.2 /\
    threads s' !! i = Some (if r.1 then Held else Idle).
Proof.
  intros <- Hi.
  pose proof (step_load max i s Hi) as Hload.
  assert (Hl : threads (goto i (Loop (active s)) (active s) s) !! i = Some (Loop (active s)))
    by apply lookup_insert_eq.
  unfold try_acquire. cbn. destruct (Z.leb_spec max (active s)) as [Hge|Hlt].
  - eexists. split; [eapply rtc_l; [exact Hload|]; apply rtc_once; eapply step_reject; eauto|].
    cbn. split; [done|]. apply lookup_insert_eq.
  - eexists. split; [eapply rtc_l; [exact Hload|]; apply rtc_once; by eapply step_cas_ok|].
    cbn. split; [done|]. apply lookup_insert_eq.
Qed.

End Cas.

(** ** Leases and the manager *)

Inductive WorkloadCategory := Auth | Messaging | Files | Emergency.

#[export] Instance WorkloadCategory_eq_dec : EqDecision WorkloadCategory.
Proof. solve_decision. Defined.

Definition WorkloadCategory_to_string (category : WorkloadCategory) : string :=
  match category with
  | Auth => "Auth" | Messaging => "Messaging" | Files => "Files" | Emergency => "Emergency"
  end.

(** The pointer [bulkhead_] names the pool it points into. *)
Record BulkheadLease := {
  bulkhead_ : option WorkloadCategory;
  category_ : WorkloadCategory;
  acquired_ : bool
}.

Definition BulkheadLease_default : BulkheadLease :=
  {| bulkhead_ := None; category_ := Auth; acquired_ := false |}.

Record GatewayBulkheadConfig := {
  auth_max_concurrent : Z;
  messaging_max_concurrent : Z;
  files_max_concurrent : Z;
  emergency_reserved_slots : Z
}.

Record BulkheadManager := {
  auth_bulkhead_ : WorkloadBulkhead;
  messaging_bulkhead_ : WorkloadBulkhead;
  files_bulkhead_ : WorkloadBulkhead;
  emergency_bulkhead_ : WorkloadBulkhead
}.

Definition BulkheadManager_new (config : GatewayBulkheadConfig) : BulkheadManager :=
  {| auth_bulkhead_ := WorkloadBulkhead_new (auth_max_concurrent config);
     messaging_bulkhead_ := WorkloadBulkhead_new (messaging_max_concurrent config);
     files_bulkhead_ := WorkloadBulkhead_new (files_max_concurrent config);
     emergency_bulkhead_ := WorkloadBulkhead_new (emergency_reserved_slots config) |}.

Definition get_bulkhead (category : WorkloadCategory) (m : BulkheadManager) : WorkloadBulkhead :=
  match category with
  | Auth => auth_bulkhead_ m
  | Messaging => messaging_bulkhead_ m
  | Files => files_bulkhead_ m
  | Emergency => emergency_bulkhead_ m
  end.

(** Assignment through the reference [get_bulkhead] returns. *)
Definition set_bulkhead (category : WorkloadCategory) (b : WorkloadBulkhead) (m : BulkheadManager)
  : BulkheadManager :=
  match category with
  | Auth => {| auth_bulkhead_ := b; messaging_bulkhead_ := messaging_bulkhead_ m;
               files_bulkhead_ := files_bulkhead_ m; emergency_bulkhead_ := emergency_bulkhead_ m |}
  | Messaging => {| auth_bulkhead_ := auth_bulkhead_ m; messaging_bulkhead_ := b;
                    files_bulkhead_ := files_bulkhead_ m; emergency_bulkhead_ := emergency_bulkhead_ m |}
  | Files => {| auth_bulkhead_ := auth_bulkhead_ m; messaging_bulkhead_ := messaging_bulkhead_ m;
                files_bulkhead_ := b; emergency_bulkhead_ := emergency_bulkhead_ m |}
  | Emergency => {| auth_bulkhead_ := auth_bulkhead_ m; messaging_bulkhead_ := messaging_bulkhead_ m;
                    files_bulkhead_ := files_bulkhead_ m; emergency_bulkhead_ := b |}
  end.

(** [path.rfind(prefix, 0) == 0]. *)
Definition starts_with (prefix path : string) : bool := String.prefix prefix path.

Definition classify_path (path : string) : WorkloadCategory :=
  if starts_with "/health" path then Emergency
  else if starts_with "/api/v1/messages" path then Messaging
  else if starts_with "/api/v1/files" path then Files
  else Auth.

Definition acquire (category : WorkloadCategory) (m : BulkheadManager) : BulkheadLease * BulkheadManager :=
  let '(acquired, b) := try_acquire (get_bulkhead category m) in
  ({| bulkhead_ := Some category; category_ := category; acquired_ := acquired |},
   set_bulkhead category b m).

Definition acquire_for_path (path : string) (m : BulkheadManager) : BulkheadLease * BulkheadManager :=
  acquire (classify_path path) m.

Definition lease_release (l : BulkheadLease) (m : BulkheadManager) : BulkheadLease * BulkheadManager :=
  match acquired_ l, bulkhead_ l with
  | true, Some c =>
      ({| bulkhead_ := None; category_ := category_ l; acquired_ := false |},
       set_bulkhead c (bulkhead_release (get_bulkhead c m)) m)
  | _, _ => (l, m)
  end.

(** What a move leaves in its source. *)
Definition moved_from (l : BulkheadLease) : BulkheadLease :=
  {| bulkhead_ := None; category_ := category_ l; acquired_ := false |}.

(** The lease variables of the program, and the manager they point into. *)
Record World := { manager : BulkheadManager; leases : gmap nat BulkheadLease }.

Definition lease_of (x : nat) (w : World) : BulkheadLease :=
  default BulkheadLease_default (leases w !! x).

(** [BulkheadLease& operator=(BulkheadLease&&)] with the source already moved
    out: release what the target owns, then take the source's slot. *)
Definition assign (x : nat) (l : BulkheadLease) (w : World) : World :=
  let '(_, m) := lease_release (lease_of x w) (manager w) in
  {| manager := m; leases := <[x := l]> (leases w) |}.

Inductive LeaseOp :=
  | LAcquire (x : nat) (path : string)   (** [x = manager.acquire_for_path(path)] *)
  | LRelease (x : nat)                   (** [x.release()] *)
  | LMove (dst src : nat)                (** [dst = std::move(src)] *)
  | LDestroy (x : nat).                  (** [x] goes out of scope *)

Definition lease_step (op : LeaseOp) (w : World) : World :=
  match op with
  | LAcquire x path =>
      let '(l, m) := acquire_for_path path (manager w) in
      assign x l {| manager := m; leases := leases w |}
  | LRelease x =>
      let '(l, m) := lease_release (lease_of x w) (manager w) in
      {| manager := m; leases := <[x := l]> (leases w) |}
  | LMove dst src =>
      if bool_decide (dst = src) then w else
      let l := lease_of src w in
      let w1 := assign dst l w in
      {| manager := manager w1; leases := <[src := moved_from l]> (leases w1) |}
  | LDestroy x =>
      let '(_, m) := lease_release (lease_of x w) (manager w) in
      {| manager := m; leases := delete x (leases w) |}
  end.

(** ** Leases and counters agree *)

Definition owns (c : WorkloadCategory) (l : BulkheadLease) : bool :=
  acquired_ l && bool_decide (bulkhead_ l = Some c).

Definition live (c : WorkloadCategory) (w : World) : Z := map_count (owns c) (leases w).

Definition owned (c : WorkloadCategory) (l : BulkheadLease) : Z := if owns c l then 1 else 0.

Definition pool_ok (w : World) (c : WorkloadCategory) : Prop :=
  active_count_ (get_bulkhead c (manager w)) = live c w /\
  live c w <= max_concurrent_ (get_bulkhead c (manager w)) < 2 ^ 32.

Lemma get_set_bulkhead c c' b m :
  get_bulkhead c (set_bulkhead c' b m) = if bool_decide (c = c') then b else get_bulkhead c m.
Proof. by destruct c, c'. Qed.

(** What a release does to the pools: the slot the lease owns, if any. *)
Lemma lease_release_pools l m c :
  (forall c', owns c' l = true -> 1 <= active_count_ (get_bulkhead c' m) < 2 ^ 32) ->
  active_count_ (get_bulkhead c (lease_release l m).2)
    = active_count_ (get_bulkhead c m) - owned c l /\
  max_concurrent_ (get_bulkhead c (lease_release l m).2) = max_concurrent_ (get_bulkhead c m) /\
  owned c (lease_release l m).1 = 0.
Proof.
  unfold lease_release, owned, owns. destruct l as [[c0|] cat [|]]; cbn; intros Hown.
  2-4: rewrite ?bool_decide_false by done; repeat split; lia.
  rewrite get_set_bulkhead. specialize (Hown c0). rewrite bool_decide_true in Hown by done.
  specialize (Hown eq_refl). case_bool_decide as Hc; subst.
  - rewrite bool_decide_true by done. unfold bulkhead_release. cbn.
    destruct (Z.eqb_spec (active_count_ (get_bulkhead c0 m)) 0); [lia|].
    rewrite u32_small by (unfold in_u32; lia). repeat split; lia.
  - rewrite bool_decide_false by congruence. repeat split; lia.
Qed.

Lemma acquire_pools cat m c :
  0 <= active_count_ (get_bulkhead cat m) ->
  max_concurrent_ (get_bulkhead cat m) < 2 ^ 32 ->
  let r := acquire cat m in
  active_count_ (get_bulkhead c r.2) = active_count_ (get_bulkhead c m) + owned c r.1 /\
  max_concurrent_ (get_bulkhead c r.2) = max_concurrent_ (get_bulkhead c m) /\
  (owned c r.1 = 1 -> active_count_ (get_bulkhead c m) < max_concurrent_ (get_bulkhead c m)).
Proof.
  intros Hpos Hmax. unfold acquire, owned, owns.
  destruct (try_acquire (get_bulkhead cat m)) as [ok b] eqn:Ht. cbn.
  rewrite get_set_bulkhead. unfold try_acquire in Ht.
  destruct (Z.leb_spec (max_concurrent_ (get_bulkhead cat m)) (active_count_ (get_bulkhead cat m)));
    injection Ht as <- <-; cbn; case_bool_decide as Hc; subst.
  - repeat split; lia.
  - repeat split; lia.
  - rewrite bool_decide_true by done. cbn. rewrite u32_small by (unfold in_u32; lia).
    repeat split; lia.
  - rewrite bool_decide_false by congruence. repeat split; lia.
Qed.

Lemma owns_live w x c : owns c (lease_of x w) = true -> 1 <= live c w.
Proof.
  unfold lease_of. destruct (leases w !! x) as [l|] eqn:Hl; cbn; intros Ho; [|done].
  by eapply map_count_pos.
Qed.

Lemma counted_lease_of w x c : counted (owns c) (leases w !! x) = owned c (lease_of x w).
Proof. unfold counted, owned, lease_of. by destruct (leases w !! x). Qed.

Lemma release_in_world w x c :
  (forall c', pool_ok w c') ->
  let r := lease_release (lease_of x w) (manager w) in
  active_count_ (get_bulkhead c r.2) = live c w - owned c (lease_of x w) /\
  max_concurrent_ (get_bulkhead c r.2) = max_concurrent_ (get_bulkhead c (manager w)) /\
  owned c r.1 = 0.
Proof.
  intros Hok. cbn zeta. destruct (lease_release_pools (lease_of x w) (manager w) c) as (-> & -> & ->).
  - intros c' Ho. destruct (Hok c'). apply owns_live in Ho. lia.
  - destruct (Hok c). lia.
Qed.

Lemma assign_pool_ok x l w c :
  (forall c', active_count_ (get_bulkhead c' (manager w)) = live c' w + owned c' l) ->
  (forall c', live c' w + owned c' l <= max_concurrent_ (get_bulkhead c' (manager w)) < 2 ^ 32) ->
  pool_ok (assign x l w) c.
Proof.
  intros Ha Hm. unfold assign.
  pose proof (lease_release_pools (lease_of x w) (manager w) c) as Hrel.
  destruct (lease_release (lease_of x w) (manager w)) as [l' m] eqn:Hr. cbn [fst snd] in Hrel.
  destruct Hrel as (Hact & Hmax & _).
  { intros c' Ho. apply owns_live in Ho. specialize (Ha c'). specialize (Hm c').
    unfold owned in *. destruct (owns c' l); lia. }
  unfold pool_ok, live. cbn [manager leases].
  rewrite map_count_insert, counted_lease_of, Hact, Hmax.
  specialize (Ha c). specialize (Hm c). fold (live c w).
  replace (counted (owns c) (Some l)) with (owned c l) by done.
  unfold owned in *. destruct (owns c l), (owns c (lease_of x w)); lia.
Qed.

(** A move clears its source and transfers the slot to its target. *)
Definition clear_lease (src : nat) (w : World) : World :=
  {| manager := manager w; leases := <[src := moved_from (lease_of src w)]> (leases w) |}.

Lemma move_as_clear_assign dst src w :
  dst <> src ->
  lease_step (LMove dst src) w = assign dst (lease_of src w) (clear_lease src w).
Proof.
  intros Hne. cbn [lease_step]. rewrite bool_decide_false by done.
  unfold assign, clear_lease. cbn [manager leases].
  assert (lease_of dst {| manager := manager w;
            leases := <[src := moved_from (lease_of src w)]> (leases w) |} = lease_of dst w) as ->.
  { unfold lease_of. cbn. by rewrite lookup_insert_ne by done. }
  destruct (lease_release (lease_of dst w) (manager w)) as [l m]. cbn.
  f_equal. by rewrite insert_insert_ne by done.
Qed.

Lemma live_clear_lease src w c :
  live c (clear_lease src w) = live c w - owned c (lease_of src w).
Proof.
  unfold live. cbn. rewrite map_count_insert, counted_lease_of. unfold counted. cbn. lia.
Qed.

Lemma lease_step_pool_ok op w :
  (forall c, pool_ok w c) -> forall c, pool_ok (lease_step op w) c.
Proof.
  intros Hok c. destruct op as [x path|x|dst src|x]; cbn [lease_step].
  - unfold acquire_for_path. set (cat := classify_path path).
    pose proof (fun c' => acquire_pools cat (manager w) c') as Hacq.
    destruct (acquire cat (manager w)) as [l m]. cbn [fst snd] in Hacq.
    pose proof (map_count_nonneg (owns cat) (leases w)) as Hn. destruct (Hok cat) as [Hc1 Hc2].
    unfold live in Hc1, Hc2.
    apply assign_pool_ok; intros c'; destruct (Hacq c') as (Hx & Hy & Hz); [lia..| |lia|lia|];
      destruct (Hok c') as [H1 H2]; unfold live in *; cbn [manager leases]; rewrite ?Hy; [lia|].
    unfold owned in *. destruct (owns c' l); lia.
  - pose proof (release_in_world w x c Hok) as (Ha & Hm & Ho).
    destruct (lease_release (lease_of x w) (manager w)) as [l m]. cbn [fst snd] in *.
    destruct (Hok c) as [H1 H2]. unfold pool_ok, live in *. cbn [manager leases].
    rewrite map_count_insert, counted_lease_of, Ha, Hm.
    replace (counted (owns c) (Some l)) with (owned c l) by done.
    unfold owned in *. destruct (owns c l), (owns c (lease_of x w)); lia.
  - destruct (decide (dst = src)) as [->|Hne]; [by rewrite bool_decide_true by done|].
    change (pool_ok (lease_step (LMove dst src) w) c). rewrite move_as_clear_assign by done.
    apply assign_pool_ok; intros c'; rewrite live_clear_lease; destruct (Hok c'); cbn [manager clear_lease]; lia.
  - pose proof (release_in_world w x c Hok) as (Ha & Hm & Ho).
    destruct (lease_release (lease_of x w) (manager w)) as [l m]. cbn [fst snd] in *.
    destruct (Hok c) as [H1 H2]. unfold pool_ok, live in *. cbn [manager leases].
    rewrite map_count_delete, counted_lease_of, Ha, Hm. unfold owned. destruct (owns c (lease_of x w)); lia.
Qed.

Definition World_new (config : GatewayBulkheadConfig) : World :=
  {| manager := BulkheadManager_new config; leases := ∅ |}.

Definition configured_max (c : WorkloadCategory) (config : GatewayBulkheadConfig) : Z :=
  match c with
  | Auth => auth_max_concurrent config
  | Messaging => messaging_max_concurrent config
  | Files => files_max_concurrent config
  | Emergency => emergency_reserved_slots config
  end.

Definition bulkhead_config_ok (config : GatewayBulkheadConfig) : Prop :=
  forall c, 0 <= configured_max c config < 2 ^ 32.

Lemma World_new_pool_ok config c : bulkhead_config_ok config -> pool_ok (World_new config) c.
Proof.
  intros Hcfg. specialize (Hcfg c). unfold pool_ok, live. cbn [leases World_new].
  rewrite map_count_empty. destruct c; cbn in *; lia.
Qed.

Lemma lease_release_max l m c :
  max_concurrent_ (get_bulkhead c (lease_release l m).2) = max_concurrent_ (get_bulkhead c m).
Proof.
  unfold lease_release. destruct (acquired_ l), (bulkhead_ l); cbn; try done.
  rewrite get_set_bulkhead. by case_bool_decide; subst.
Qed.

Lemma assign_max x l w c :
  max_concurrent_ (get_bulkhead c (manager (assign x l w)))
    = max_concurrent_ (get_bulkhead c (manager w)).
Proof.
  unfold assign. pose proof (lease_release_max (lease_of x w) (manager w) c).
  by destruct (lease_release (lease_of x w) (manager w)).
Qed.

Lemma lease_step_max op w c :
  max_concurrent_ (get_bulkhead c (manager (lease_step op w)))
    = max_concurrent_ (get_bulkhead c (manager w)).
Proof.
  destruct op as [x path|x|dst src|x]; cbn [lease_step].
  - unfold acquire_for_path, acquire, try_acquire.
    destruct (max_concurrent_ (get_bulkhead (classify_path path) (manager w)) <=?
              active_count_ (get_bulkhead (classify_path path) (manager w))); cbn;
      rewrite assign_max; cbn; rewrite get_set_bulkhead; by case_bool_decide; subst.
  - pose proof (lease_release_max (lease_of x w) (manager w) c).
    by destruct (lease_release (lease_of x w) (manager w)).
  - case_bool_decide; [done|]. cbn. apply assign_max.
  - pose proof (lease_release_max (lease_of x w) (manager w) c).
    by destruct (lease_release (lease_of x w) (manager w)).
Qed.

Lemma lease_run_ok config ops :
  bulkhead_config_ok config ->
  let w := exec_all lease_step ops (World_new config) in
  (forall c, pool_ok w c) /\
  (forall c, max_concurrent_ (get_bulkhead c (manager w)) = configured_max c config).
Proof.
  intros Hcfg.
  apply (exec_all_inv lease_step (fun w => (forall c, pool_ok w c) /\
    forall c, max_concurrent_ (get_bulkhead c (manager w)) = configured_max c config) (fun _ => True)).
  - intros op w _ [Hok Hmax]. split; [by apply lease_step_pool_ok|].
    intros c. by rewrite lease_step_max.
  - by apply Forall_true.
  - split; [intros c; by apply World_new_pool_ok|]. by intros [].
Qed.

(** ** Properties *)

(** The lock-free counter is safe in every interleaving: however the atomic
    accesses of any number of threads interleave, and however often the weak
    compare-exchange fails, the counter equals the number of threads that own a
    slot, that number never exceeds the limit, and the repair of an underflow is
    never reached. *)
Theorem cas_bulkhead_safe (max : Z) (s s' : Cas.State) :
  0 <= max < 2 ^ 32 -> Cas.init s -> rtc (Cas.step max) s s' ->
  Cas.active s' = Cas.holders s' /\ Cas.holders s' <= max /\
  (forall i, Cas.threads s' !! i <> Some Cas.StoreZero).
Proof.
  intros Hmax Hinit Hsteps.
  assert (Hinv : Cas.inv max s) by (apply Cas.init_inv; [lia|done]).
  change (Cas.inv max s'). clear Hinit. induction Hsteps as [|? s1 ? Hstep _ IH]; [done|].
  by eapply IH, Cas.step_inv.
Qed.

Lemma cas_bulkhead_safe_witness :
  let s := {| Cas.active := 0; Cas.threads := {[ 0%nat := Cas.Idle; 1%nat := Cas.Idle ]} |} in
  let s' := {| Cas.active := 1; Cas.threads := {[ 0%nat := Cas.Loop 1; 1%nat := Cas.Held ]} |} in
  rtc (Cas.step 1) s s' /\
  (Cas.active s' = Cas.holders s' /\ Cas.holders s' <= 1 /\
   forall i, Cas.threads s' !! i <> Some Cas.StoreZero).
Proof.
  cbn zeta.
  set (s := {| Cas.active := 0; Cas.threads := {[ 0%nat := Cas.Idle; 1%nat := Cas.Idle ]} |}).
  set (s' := {| Cas.active := 1; Cas.threads := {[ 0%nat := Cas.Loop 1; 1%nat := Cas.Held ]} |}).
  assert (Hrun : rtc (Cas.step 1) s s').
  { eapply rtc_l; [apply (Cas.step_load 1 0); reflexivity|].
    eapply rtc_l; [apply (Cas.step_load 1 1); reflexivity|].
    eapply rtc_l; [apply (Cas.step_cas_ok 1 1 _ 0); reflexivity|].
    eapply rtc_l; [apply (Cas.step_cas_fail 1 0 _ 0); reflexivity|].
    apply rtc_refl. }
  split; [exact Hrun|]. apply (cas_bulkhead_safe 1 s s'); [lia| |exact Hrun].
  split; [reflexivity|]. intros [|[|i]] pc Hi; [by injection Hi as <-|by injection Hi as <-|].
  unfold s in Hi. cbn [Cas.threads] in Hi.
  rewrite lookup_insert_ne, lookup_singleton_ne in Hi by lia. discriminate.
Defined.

(** Exact admission: after any sequence of acquisitions, releases, moves and
    destructions of leases, every pool's counter is the number of leases that own
    a slot in it and stays within the configured limit, and a new request is
    admitted exactly when its own pool has a free slot - however busy the other
    pools are. *)
Theorem bulkhead_admission_exact (config : GatewayBulkheadConfig) (ops : list LeaseOp)
    (path : string) :
  bulkhead_config_ok config ->
  let w := exec_all lease_step ops (World_new config) in
  let c := classify_path path in
  active_count_ (get_bulkhead c (manager w)) = live c w /\
  live c w <= configured_max c config /\
  acquired_ (acquire_for_path path (manager w)).1 = bool_decide (live c w < configured_max c config).
Proof.
  intros Hcfg w c. destruct (lease_run_ok config ops Hcfg) as [Hok Hmax].
  fold w in Hok, Hmax. destruct (Hok c) as [Ha Hle]. rewrite Hmax in Hle.
  split; [done|]. split; [lia|].
  unfold acquire_for_path, acquire, try_acquire. fold c. rewrite Hmax, Ha.
  destruct (Z.leb_spec (configured_max c config) (live c w)); cbn;
    case_bool_decide; try done; lia.
Qed.

Lemma bulkhead_admission_exact_witness :
  let config := {| auth_max_concurrent := 1; messaging_max_concurrent := 2;
                   files_max_concurrent := 1; emergency_reserved_slots := 1 |} in
  let ops := [LAcquire 0 "/api/v1/messages/x"; LAcquire 1 "/api/v1/files/f"; LMove 2 0;
              LDestroy 0; LAcquire 3 "/api/v1/messages"; LRelease 1]%string in
  let w := exec_all lease_step ops (World_new config) in
  (live Messaging w = 2 /\ live Files w = 0) /\
  (active_count_ (get_bulkhead Messaging (manager w)) = live Messaging w /\
   live Messaging w <= 2 /\
   acquired_ (acquire_for_path "/api/v1/messages" (manager w)).1
     = bool_decide (live Messaging w < 2)).
Proof.
  split; [split; vm_compute; reflexivity|].
  apply (bulkhead_admission_exact
           {| auth_max_concurrent := 1; messaging_max_concurrent := 2;
              files_max_concurrent := 1; emergency_reserved_slots := 1 |} _ "/api/v1/messages").
  intros []; cbn; lia.
Defined.
