(* ===== verification/Drain.v ===== *)
(** * Graceful drain of the gateway

    Models [src/gateway/http/resilience/drain_manager.{hpp,cpp}] (with the flags
    of [src/common/src/health/health_status_manager.cpp] it sets): requests take
    a lease by [try_acquire] and give it back when they end, [start_drain] stops
    admission and waits for the requests in flight.

    The model runs any number of request threads and the draining thread through
    their atomic accesses, one access per step, in every interleaving; accesses
    are sequentially consistent.  The condition variable only decides when the
    waiting thread looks at the counter again, so [start_drain] is modelled by
    what it may observe: a counter of zero, or the timeout. *)

From S2P Require Import Prelude.

(** ** The health flags *)

Record HealthStatusManager := {
  is_live_ : bool;
  is_ready_ : bool;
  is_shutting_down_ : bool;
  readiness_evaluator_ : option (option bool)  (** installed; its answer, [None] if it throws *)
}.

Definition set_shutting_down (b : bool) (h : HealthStatusManager) : HealthStatusManager :=
  {| is_live_ := is_live_ h; is_ready_ := is_ready_ h; is_shutting_down_ := b;
     readiness_evaluator_ := readiness_evaluator_ h |}.

Definition set_ready (b : bool) (h : HealthStatusManager) : HealthStatusManager :=
  {| is_live_ := is_live_ h; is_ready_ := b; is_shutting_down_ := is_shutting_down_ h;
     readiness_evaluator_ := readiness_evaluator_ h |}.

Definition evaluate_readiness (h : HealthStatusManager) : bool :=
  if negb (is_live_ h) || negb (is_ready_ h) || is_shutting_down_ h then false else
  match readiness_evaluator_ h with
  | Some (Some answer) => answer
  | Some None => false
  | None => true
  end.

(** ** The drain manager under interleaving *)

(** A request thread in [try_acquire] and after it. *)
Inductive Pc :=
  | Outside          (** before [try_acquire], or after it returned false *)
  | Checked          (** the first load saw [is_draining_ = false] *)
  | Added            (** [fetch_add] done, the double check is next *)
  | BackingOff       (** the double check saw a drain: [decrement_in_flight] is next *)
  | Holding.         (** [try_acquire] returned true; the lease is alive *)

(** The draining thread in [start_drain]. *)
Inductive DrainPc :=
  | NotStarted
  | DrainFlagged         (** [is_draining_] stored *)
  | HealthDown           (** the health manager informed; waiting for the counter *)
  | Returned (ok : bool).

Record DrainState := {
  is_draining_ : bool;
  in_flight_requests_ : Z;
  health_manager_ : option HealthStatusManager;
  drain_pc : DrainPc;
  requests : gmap nat Pc
}.

Definition set_pc (i : nat) (pc : Pc) (count : Z) (s : DrainState) : DrainState :=
  {| is_draining_ := is_draining_ s; in_flight_requests_ := count;
     health_manager_ := health_manager_ s; drain_pc := drain_pc s;
     requests := <[i := pc]> (requests s) |}.

Definition set_drain (b : bool) (h : option HealthStatusManager) (pc : DrainPc) (s : DrainState)
  : DrainState :=
  {| is_draining_ := b; in_flight_requests_ := in_flight_requests_ s;
     health_manager_ := h; drain_pc := pc; requests := requests s |}.

Inductive drain_step : DrainState -> DrainState -> Prop :=
  | try_acquire_reject i s :
      requests s !! i = Some Outside -> is_draining_ s = true ->
      drain_step s s
  | try_acquire_check i s :
      requests s !! i = Some Outside -> is_draining_ s = false ->
      drain_step s (set_pc i Checked (in_flight_requests_ s) s)
  | try_acquire_add i s :
      requests s !! i = Some Checked ->
      drain_step s (set_pc i Added (u64 (in_flight_requests_ s + 1)) s)
  | try_acquire_undo i s :
      requests s !! i = Some Added -> is_draining_ s = true ->
      drain_step s (set_pc i BackingOff (in_flight_requests_ s) s)
  | try_acquire_lease i s :
      requests s !! i = Some Added -> is_draining_ s = false ->
      drain_step s (set_pc i Holding (in_flight_requests_ s) s)
  | back_off_decrement i s :
      requests s !! i = Some BackingOff ->
      drain_step s (set_pc i Outside (u64 (in_flight_requests_ s - 1)) s)
  | lease_release_decrement i s :
      requests s !! i = Some Holding ->
      drain_step s (set_pc i Outside (u64 (in_flight_requests_ s - 1)) s)
  | start_drain_store s :
      drain_pc s = NotStarted ->
      drain_step s (set_drain true (health_manager_ s) DrainFlagged s)
  | start_drain_health s :
      drain_pc s = DrainFlagged ->
      drain_step s (set_drain (is_draining_ s)
                      ((fun h => set_ready false (set_shutting_down true h)) <$> health_manager_ s)
                      HealthDown s)
  | start_drain_empty s :
      drain_pc s = HealthDown -> in_flight_requests_ s = 0 ->
      drain_step s (set_drain (is_draining_ s) (health_manager_ s) (Returned true) s)
  | start_drain_timeout s :
      drain_pc s = HealthDown -> in_flight_requests_ s <> 0 ->
      drain_step s (set_drain (is_draining_ s) (health_manager_ s) (Returned false) s).

(** ** Invariant *)

(** The threads whose increment has not been undone. *)
Definition counts (pc : Pc) : bool :=
  match pc with Added | BackingOff | Holding => true | _ => false end.

Definition in_flight (s : DrainState) : Z := map_count counts (requests s).

Definition drain_inv (n : nat) (s : DrainState) : Prop :=
  size (requests s) = n /\
  in_flight_requests_ s = in_flight s /\
  (drain_pc s <> NotStarted -> is_draining_ s = true) /\
  (drain_pc s = Returned true -> forall i, requests s !! i <> Some Holding) /\
  (forall ok, drain_pc s = Returned ok -> forall h, health_manager_ s = Some h ->
     evaluate_readiness h = false) /\
  (drain_pc s = HealthDown -> forall h, health_manager_ s = Some h -> evaluate_readiness h = false).

Definition drain_init (s : DrainState) : Prop :=
  is_draining_ s = false /\ in_flight_requests_ s = 0 /\ drain_pc s = NotStarted /\
  forall i pc, requests s !! i = Some pc -> pc = Outside.

Lemma in_flight_set_pc i pc pc' v s :
  requests s !! i = Some pc ->
  in_flight (set_pc i pc' v s)
    = in_flight s - counted counts (Some pc) + counted counts (Some pc').
Proof. intros Hi. unfold in_flight, set_pc. cbn [requests]. by rewrite map_count_insert, Hi. Qed.

Lemma size_set_pc i pc pc' v s :
  requests s !! i = Some pc -> size (requests (set_pc i pc' v s)) = size (requests s).
Proof. intros Hi. cbn. by apply map_size_insert_Some. Qed.

Lemma not_holding_set_pc i pc v s :
  pc <> Holding -> (forall j, requests s !! j <> Some Holding) ->
  forall j, requests (set_pc i pc v s) !! j <> Some Holding.
Proof.
  intros Hpc Hs j. cbn. destruct (decide (i = j)) as [->|].
  - rewrite lookup_insert_eq. congruence.
  - by rewrite lookup_insert_ne.
Qed.

Lemma in_flight_bound s : in_flight s <= Z.of_nat (size (requests s)).
Proof.
  unfold in_flight, map_count. apply Nat2Z.inj_le, map_subseteq_size, map_filter_subseteq.
Qed.

Lemma zero_not_holding s :
  in_flight s = 0 -> forall i, requests s !! i <> Some Holding.
Proof.
  intros H0 i Hi. pose proof (map_count_pos counts (requests s) i Holding Hi eq_refl) as Hp.
  unfold in_flight in H0. lia.
Qed.

(** A step of a request thread that changes its counter keeps the count exact. *)
Lemma set_pc_count n i pc pc' v s :
  Z.of_nat n < 2 ^ 64 -> size (requests s) = n ->
  requests s !! i = Some pc -> in_flight_requests_ s = in_flight s ->
  v = u64 (in_flight_requests_ s - counted counts (Some pc) + counted counts (Some pc')) ->
  in_flight_requests_ (set_pc i pc' v s) = in_flight (set_pc i pc' v s).
Proof.
  intros Hn Hsz Hi Hc ->. rewrite (in_flight_set_pc i pc) by done. cbn [in_flight_requests_ set_pc].
  rewrite u64_small; [by rewrite Hc|].
  pose proof (in_flight_bound (set_pc i pc' 0 s)) as Hb.
  rewrite (size_set_pc i pc), (in_flight_set_pc i pc) in Hb by done.
  pose proof (map_count_nonneg counts (requests (set_pc i pc' 0 s))) as Hp.
  fold (in_flight (set_pc i pc' 0 s)) in Hp. rewrite (in_flight_set_pc i pc) in Hp by done.
  unfold in_u64. lia.
Qed.

Lemma drain_init_inv s : drain_init s -> drain_inv (size (requests s)) s.
Proof.
  intros (Hd & Hz & Hpc & Hi). unfold drain_inv. rewrite Hpc.
  split; [done|]. split.
  { rewrite Hz. unfold in_flight. rewrite map_count_zero; [done|]. intros i pc Hl. by apply Hi in Hl as ->. }
  repeat split; naive_solver.
Qed.

Lemma not_ready_after_shutdown h : evaluate_readiness (set_ready false (set_shutting_down true h)) = false.
Proof. unfold evaluate_readiness. cbn. by rewrite orb_true_r. Qed.

Lemma drain_step_inv n s s' :
  Z.of_nat n < 2 ^ 64 -> drain_step s s' -> drain_inv n s -> drain_inv n s'.
Proof.
  intros Hn Hstep (Hsz & Hc & Hdr & Hret & Hrd & Hrd').
  assert (Hin : in_u64 (in_flight_requests_ s)).
  { rewrite Hc. pose proof (in_flight_bound s).
    pose proof (map_count_nonneg counts (requests s)). unfold in_flight, in_u64 in *. lia. }
  destruct Hstep as [i s Hi Hd|i s Hi Hd|i s Hi|i s Hi Hd|i s Hi Hd|i s Hi|i s Hi
                    |s Hp|s Hp|s Hp Hz|s Hp Hz].
  1: done.
  1-6: split; [by erewrite size_set_pc|];
    split; [eapply (set_pc_count n); try done; cbn; rewrite ?Z.sub_0_r, ?Z.add_0_r; try done;
            rewrite ?Z.sub_add; by rewrite u64_small|];
    split; [done|]; split; [|done]; cbn [drain_pc set_pc]; intros Hr.
  1,2,3,5,6: by apply not_holding_set_pc, Hret.
  { rewrite Hdr in Hd by congruence. done. }
  all: unfold drain_inv; cbn [drain_pc set_drain requests in_flight_requests_ health_manager_ is_draining_].
  all: split; [done|]; split; [done|]; split; [intros _; try done; apply Hdr; congruence|].
  - naive_solver.
  - split; [done|]. split; [done|]. intros _ h Hh. apply fmap_Some in Hh as (h0 & _ & ->).
    apply not_ready_after_shutdown.
  - split; [|naive_solver]. intros _. apply zero_not_holding. unfold in_flight in *. cbn in *. congruence.
  - naive_solver.
Qed.

Lemma drain_run_inv s s' :
  Z.of_nat (size (requests s)) < 2 ^ 64 -> drain_init s -> rtc drain_step s s' ->
  drain_inv (size (requests s)) s'.
Proof.
  intros Hn Hinit Hrun. pose proof (drain_init_inv s Hinit) as Hinv.
  revert Hn Hinv. generalize (size (requests s)). intros n Hn Hinv. clear Hinit.
  induction Hrun as [|? s1 ? Hstep _ IH]; [done|]. eapply IH, drain_step_inv; done.
Qed.

(** Once draining, admission is over: the leases alive later are leases alive now. *)
Lemma draining_step_holding s s' i :
  drain_step s s' -> is_draining_ s = true ->
  is_draining_ s' = true /\ (requests s' !! i = Some Holding -> requests s !! i = Some Holding).
Proof.
  intros Hstep Hd. destruct Hstep as [k s Hi Hd'|k s Hi Hd'|k s Hi|k s Hi Hd'|k s Hi Hd'|k s Hi|k s Hi
                    |s Hp|s Hp|s Hp Hz|s Hp Hz]; try congruence; try done.
  all: split; [done|]; cbn; destruct (decide (k = i)) as [->|];
    [by rewrite lookup_insert_eq|by rewrite lookup_insert_ne].
Qed.

(** ** Properties *)

(** Drain safety, in every interleaving of the requests with [start_drain]:
    the counter is the number of requests that incremented it and have not undone
    it; when [start_drain] has returned true no request holds a lease, and none
    ever will; when it has returned at all the gateway does not report ready. *)
Theorem drain_safe (s s' : DrainState) :
  Z.of_nat (size (requests s)) < 2 ^ 64 -> drain_init s -> rtc drain_step s s' ->
  in_flight_requests_ s' = in_flight s' /\
  (drain_pc s' = Returned true -> forall i, requests s' !! i <> Some Holding) /\
  (forall ok h, drain_pc s' = Returned ok -> health_manager_ s' = Some h ->
     evaluate_readiness h = false).
Proof.
  intros Hn Hinit Hrun. destruct (drain_run_inv s s' Hn Hinit Hrun) as (_ & Hc & _ & Hret & Hrd & _).
  split; [done|]. split; [done|]. intros ok h Hok. by apply (Hrd ok).
Qed.

Definition drain_example (pc0 pc1 : Pc) (draining : bool) (count : Z) (dpc : DrainPc) (ready : bool)
  : DrainState :=
  {| is_draining_ := draining; in_flight_requests_ := count;
     health_manager_ := Some {| is_live_ := true; is_ready_ := ready; is_shutting_down_ := negb ready;
                                readiness_evaluator_ := None |};
     drain_pc := dpc; requests := {[ 0%nat := pc0; 1%nat := pc1 ]} |}.

Lemma drain_safe_witness :
  let s := drain_example Outside Outside false 0 NotStarted true in
  let s' := drain_example Outside Outside true 0 (Returned true) false in
  rtc drain_step s s' /\
  (in_flight_requests_ s' = in_flight s' /\
   (drain_pc s' = Returned true -> forall i, requests s' !! i <> Some Holding) /\
   (forall ok h, drain_pc s' = Returned ok -> health_manager_ s' = Some h ->
      evaluate_readiness h = false)).
Proof.
  cbn zeta.
  assert (Hrun : rtc drain_step (drain_example Outside Outside false 0 NotStarted true)
                   (drain_example Outside Outside true 0 (Returned true) false)).
  { (* request 0 is admitted; request 1 passes its first check, the drain starts,
       request 1 backs off, request 0 ends, the drain observes zero *)
    eapply rtc_l; [apply (try_acquire_check 0); reflexivity|].
    eapply rtc_l; [apply (try_acquire_add 0); reflexivity|].
    eapply rtc_l; [apply (try_acquire_lease 0); reflexivity|].
    eapply rtc_l; [apply (try_acquire_check 1); reflexivity|].
    eapply rtc_l; [apply start_drain_store; reflexivity|].
    eapply rtc_l; [apply (try_acquire_add 1); reflexivity|].
    eapply rtc_l; [apply (try_acquire_undo 1); reflexivity|].
    eapply rtc_l; [apply start_drain_health; reflexivity|].
    eapply rtc_l; [apply (back_off_decrement 1); reflexivity|].
    eapply rtc_l; [apply (lease_release_decrement 0); reflexivity|].
    eapply rtc_l; [apply start_drain_empty; reflexivity|].
    apply rtc_refl. }
  split; [exact Hrun|].
  apply (drain_safe (drain_example Outside Outside false 0 NotStarted true));
    [vm_compute; reflexivity| |exact Hrun].
  repeat split. intros [|[|i]] pc Hi; [by injection Hi as <-|by injection Hi as <-|].
  cbn [requests drain_example] in Hi.
  rewrite lookup_insert_ne, lookup_singleton_ne in Hi by lia. discriminate.
Defined.

(** The double check closes the admission race: from any state in which the
    drain flag is set, whatever interleaving follows, a request that holds a lease
    afterwards held it already - no request slips in behind the flag. *)
Theorem draining_admits_no_one (s s' : DrainState) (i : nat) :
  is_draining_ s = true -> rtc drain_step s s' ->
  requests s' !! i = Some Holding -> requests s !! i = Some Holding.
Proof.
  intros Hd Hrun. revert Hd. induction Hrun as [|? s1 ? Hstep _ IH]; intros Hd; [done|].
  destruct (draining_step_holding _ _ i Hstep Hd) as [Hd1 Hback]. auto.
Qed.

Lemma draining_admits_no_one_witness :
  let s := drain_example Holding Checked true 1 HealthDown false in
  let s' := drain_example Holding BackingOff true 2 HealthDown false in
  rtc drain_step s s' /\ requests s !! 0%nat = Some Holding.
Proof.
  cbn zeta.
  assert (Hrun : rtc drain_step (drain_example Holding Checked true 1 HealthDown false)
                   (drain_example Holding BackingOff true 2 HealthDown false)).
  { eapply rtc_l; [apply (try_acquire_add 1); reflexivity|].
    eapply rtc_l; [apply (try_acquire_undo 1); reflexivity|]. apply rtc_refl. }
  split; [exact Hrun|].
  apply (draining_admits_no_one _ _ 0 (eq_refl : is_draining_ (drain_example Holding Checked true 1 HealthDown false) = true) Hrun).
  reflexivity.
Defined.
