(* ===== verification/Retry.v ===== *)
(** * Deadlines and retries of downstream calls

    Models [src/gateway/http/resilience/deadline_manager.cpp] (the deadline and
    budget computations) and [retry_policy.{hpp,cpp}] (the retry loop
    [RetryPolicy::execute] and its predicates).

    The loop talks to its environment: each turn reads the clock, calls the
    downstream service, and may read the clock and a backoff delay.  [Turn] holds
    what the environment supplies in one turn and the loop takes a function
    [env] from attempts to turns, so a theorem about all [env] covers every clock,
    every sequence of answers and every jitter. *)

From S2P Require Import Prelude CircuitBreaker.

(** ** [DeadlineManager] *)

Record GatewayServiceDeadlinesConfig := {
  max_request_deadline_ms : Z;
  min_request_deadline_ms : Z
}.

(** [std::clamp(v, lo, hi)]. *)
Definition clamp (v lo hi : Z) : Z := if v <? lo then lo else if hi <? v then hi else v.

(** [client_timeout] is what [extract_client_timeout] found in the headers. *)
Definition compute_effective_deadline (config_ : GatewayServiceDeadlinesConfig)
    (client_timeout : option Z) (default_timeout : Z) : Z :=
  match client_timeout with
  | None => default_timeout
  | Some t => clamp t (min_request_deadline_ms config_) (max_request_deadline_ms config_)
  end.

Definition compute_downstream_budget (now start_tp effective_deadline service_timeout : Z) : Z :=
  let elapsed := to_ms (now - start_tp) in
  if effective_deadline <=? elapsed then 0
  else Z.min service_timeout (effective_deadline - elapsed).

Definition has_sufficient_budget (now start_tp effective_deadline minimum_required : Z) : bool :=
  let elapsed := to_ms (now - start_tp) in
  if effective_deadline <=? elapsed then false
  else minimum_required <=? effective_deadline - elapsed.

(** ** [RetryPolicy] *)

Inductive OperationIdempotency := SAFE_READONLY | IDEMPOTENT_MUTATION | NON_IDEMPOTENT.

#[export] Instance OperationIdempotency_eq_dec : EqDecision OperationIdempotency.
Proof. solve_decision. Defined.

Record RetryPolicyConfig := {
  max_attempts : Z;
  retry_on_deadline_exceeded : bool
}.

Inductive DependencyErrorKind :=
  | KOk | KTimeout | KServiceUnavailable | KUnauthenticated | KPermissionDenied
  | KInvalidArgument | KNotFound | KInternal.

Record DependencyError := {
  err_kind : DependencyErrorKind;
  err_message : string;
  err_grpc_code : StatusCode
}.

(** [DependencyError::from_grpc_status]. *)
Definition from_grpc_status (code : StatusCode) (message : string) : DependencyError :=
  {| err_kind := match code with
                 | OK => KOk
                 | DEADLINE_EXCEEDED => KTimeout
                 | UNAVAILABLE => KServiceUnavailable
                 | UNAUTHENTICATED => KUnauthenticated
                 | PERMISSION_DENIED => KPermissionDenied
                 | INVALID_ARGUMENT => KInvalidArgument
                 | NOT_FOUND => KNotFound
                 | _ => KInternal
                 end;
     err_message := if String.eqb message "" then "Dependency RPC call failed" else message;
     err_grpc_code := code |}.

Section retry.
Context {T : Type}.
Context (config_ : RetryPolicyConfig).

Definition is_status_retryable (code : StatusCode) : bool :=
  if bool_decide (code = UNAVAILABLE) then true
  else if retry_on_deadline_exceeded config_ && bool_decide (code = DEADLINE_EXCEEDED) then true
  else false.

Definition should_retry (idempotency : OperationIdempotency) (code : StatusCode)
    (current_attempt : Z) : bool :=
  if bool_decide (idempotency = NON_IDEMPOTENT) then false
  else if max_attempts config_ <=? current_attempt then false
  else is_status_retryable code.

(** One turn's inputs: the clock when the budget is computed, the answer of
    [invoker_fn], the backoff delay, the clock when the backoff is weighed. *)
Record Turn := {
  turn_now : Z;
  turn_result : T + DependencyError;
  turn_delay : Z;
  turn_now_after : Z
}.

Definition deadline_exhausted : DependencyError :=
  {| err_kind := KTimeout; err_message := "Request deadline exhausted before dispatch";
     err_grpc_code := DEADLINE_EXCEEDED |}.

(** [RetryPolicy::execute]: the result, and the budgets [invoker_fn] was called
    with, in order.  [None] is the model running out of fuel. *)
Fixpoint execute_loop (fuel : nat) (attempt : Z) (env : Z -> Turn)
    (start_tp effective_deadline service_timeout min_floor : Z) (idempotency : OperationIdempotency)
  : option ((T + DependencyError) * list Z) :=
  match fuel with
  | O => None
  | S fuel =>
      let attempt := u32 (attempt + 1) in
      let t := env attempt in
      let call_budget :=
        compute_downstream_budget (turn_now t) start_tp effective_deadline service_timeout in
      if call_budget <=? 0 then Some (inr deadline_exhausted, []) else
      match turn_result t with
      | inl v => Some (inl v, [call_budget])
      | inr e =>
          if negb (should_retry idempotency (err_grpc_code e) attempt) then
            Some (inr e, [call_budget])
          else if effective_deadline <? to_ms (turn_now_after t - start_tp) + turn_delay t + min_floor then
            Some (inr e, [call_budget])
          else
            match execute_loop fuel attempt env start_tp effective_deadline service_timeout
                    min_floor idempotency with
            | Some (r, budgets) => Some (r, call_budget :: budgets)
            | None => None
            end
      end
  end.

(** Enough fuel for any configuration: one turn per permitted attempt. *)
Definition execute_fuel : nat := Z.to_nat (Z.max 1 (max_attempts config_)).

Definition execute (env : Z -> Turn) (start_tp effective_deadline service_timeout min_floor : Z)
    (idempotency : OperationIdempotency) : option ((T + DependencyError) * list Z) :=
  execute_loop execute_fuel 0 env start_tp effective_deadline service_timeout min_floor idempotency.

(** ** Lemmas *)

Lemma should_retry_attempts idem code n :
  should_retry idem code n = true ->
  n < max_attempts config_ /\ idem <> NON_IDEMPOTENT /\ is_status_retryable code = true.
Proof. unfold should_retry. split_ifs; naive_solver lia. Qed.

Lemma budget_bounds now start dl svc :
  compute_downstream_budget now start dl svc <= Z.max 0 svc /\
  (compute_downstream_budget now start dl svc <= 0 \/
   compute_downstream_budget now start dl svc <= dl - to_ms (now - start)).
Proof. unfold compute_downstream_budget. destruct (Z.leb_spec dl (to_ms (now - start))); lia. Qed.

(** What holds of one finished run that starts after [n] attempts. *)
Definition run_ok (env : Z -> Turn) (start_tp dl svc : Z) (idem : OperationIdempotency) (n : Z)
    (run : (T + DependencyError) * list Z) : Prop :=
  Z.of_nat (length run.2) <= Z.max 1 (max_attempts config_ - n) /\
  (idem = NON_IDEMPOTENT -> (length run.2 <= 1)%nat) /\
  Forall (fun b => 0 < b <= svc) run.2 /\
  (forall k b, run.2 !! k = Some b ->
     b <= dl - to_ms (turn_now (env (n + 1 + Z.of_nat k)) - start_tp)) /\
  (forall k, (S k < length run.2)%nat ->
     exists e, turn_result (env (n + 1 + Z.of_nat k)) = inr e /\
               is_status_retryable (err_grpc_code e) = true).

Lemma run_ok_stop env start dl svc idem n r b :
  0 < b <= svc -> b <= dl - to_ms (turn_now (env (n + 1)) - start) ->
  run_ok env start dl svc idem n (r, [b]).
Proof.
  intros Hb Hd. unfold run_ok. cbn. split; [lia|]. split; [lia|]. split; [|split; [|lia]].
  - apply Forall_cons; split; [done|apply Forall_nil_2].
  - intros [|k] b' Hk; cbn in Hk; [|done]. injection Hk as <-.
    by replace (n + 1 + Z.of_nat 0) with (n + 1) by lia.
Qed.

Lemma run_ok_retry env start dl svc idem n e b run :
  0 < b <= svc -> b <= dl - to_ms (turn_now (env (n + 1)) - start) ->
  turn_result (env (n + 1)) = inr e -> should_retry idem (err_grpc_code e) (n + 1) = true ->
  run_ok env start dl svc idem (n + 1) run ->
  run_ok env start dl svc idem n (run.1, b :: run.2).
Proof.
  intros Hb Hd Hres Hretry (Hlen & _ & Hall & Hbud & Hans).
  apply should_retry_attempts in Hretry as (Hn & Hidem & Hst).
  unfold run_ok. cbn. split; [lia|]. split; [done|]. split; [|split].
  - by apply Forall_cons.
  - intros [|k] b' Hk; cbn in Hk.
    + injection Hk as <-. by replace (n + 1 + Z.of_nat 0) with (n + 1) by lia.
    + apply Hbud in Hk. by replace (n + 1 + Z.of_nat (S k)) with (n + 1 + 1 + Z.of_nat k) by lia.
  - intros [|k] Hk.
    + replace (n + 1 + Z.of_nat 0) with (n + 1) by lia. eauto.
    + replace (n + 1 + Z.of_nat (S k)) with (n + 1 + 1 + Z.of_nat k) by lia. apply Hans. lia.
Qed.

Lemma execute_loop_ok env start dl svc floor idem : forall fuel n,
  max_attempts config_ < 2 ^ 32 -> 0 <= n < 2 ^ 32 - 1 ->
  Z.max 1 (max_attempts config_ - n) <= Z.of_nat fuel ->
  exists run, execute_loop fuel n env start dl svc floor idem = Some run /\
              run_ok env start dl svc idem n run.
Proof.
  intros fuel. induction fuel as [|fuel IH]; intros n Hmax Hn Hfuel; [lia|].
  cbn [execute_loop]. rewrite (u32_small (n + 1)) by (unfold in_u32; lia).
  set (b := compute_downstream_budget (turn_now (env (n + 1))) start dl svc).
  destruct (Z.leb_spec b 0) as [Hb|Hb].
  { eexists. split; [done|]. unfold run_ok. cbn. split; [lia|]. split; [lia|].
    split; [apply Forall_nil_2|]. split; [done|lia]. }
  destruct (budget_bounds (turn_now (env (n + 1))) start dl svc) as [Hb1 Hb2]. fold b in Hb1, Hb2.
  destruct (turn_result (env (n + 1))) as [v|e] eqn:Hres.
  { eexists. split; [done|]. apply run_ok_stop; lia. }
  destruct (should_retry idem (err_grpc_code e) (n + 1)) eqn:Hretry; cbn [negb].
  2: { eexists. split; [done|]. apply run_ok_stop; lia. }
  destruct (dl <? _).
  { eexists. split; [done|]. apply run_ok_stop; lia. }
  pose proof (should_retry_attempts _ _ _ Hretry) as (Hlt & _).
  destruct (IH (n + 1)) as (run & -> & Hrun); [lia..|].
  destruct run as [r budgets]. eexists. split; [done|].
  apply (run_ok_retry env start dl svc idem n e b (r, budgets)); auto; lia.
Qed.

End retry.

(** ** Properties *)

(** The retry loop terminates and keeps its budget: for every clock, every
    sequence of answers and every backoff, [execute] returns a result after at
    most [max_attempts] calls (one at least is always permitted, and exactly one
    at most when the operation is not idempotent); every call is given a positive
    budget that exceeds neither the service timeout nor what is left of the
    request's deadline; and a call is repeated only after an answer whose status
    is retryable. *)
Theorem retry_bounded {T : Type} (cfg : RetryPolicyConfig) (env : Z -> @Turn T)
    (start_tp deadline service_timeout min_floor : Z) (idem : OperationIdempotency) :
  max_attempts cfg < 2 ^ 32 ->
  exists result budgets,
    execute cfg env start_tp deadline service_timeout min_floor idem = Some (result, budgets) /\
    Z.of_nat (length budgets) <= Z.max 1 (max_attempts cfg) /\
    (idem = NON_IDEMPOTENT -> (length budgets <= 1)%nat) /\
    (forall k b, budgets !! k = Some b ->
       0 < b <= service_timeout /\
       b <= deadline - to_ms (turn_now (env (Z.of_nat k + 1)) - start_tp)) /\
    (forall k, (S k < length budgets)%nat ->
       exists e, turn_result (env (Z.of_nat k + 1)) = inr e /\
                 is_status_retryable cfg (err_grpc_code e) = true).
Proof.
  intros Hmax.
  destruct (execute_loop_ok cfg env start_tp deadline service_timeout min_floor idem
              (execute_fuel cfg) 0) as ([result budgets] & Hrun & Hlen & Hidem & Hall & Hbud & Hans);
    [done|lia|unfold execute_fuel; lia|].
  exists result, budgets. cbn in *. rewrite Z.sub_0_r in Hlen.
  split; [done|]. split; [done|]. split; [done|]. split.
  - intros k b Hk. split.
    + rewrite Forall_lookup in Hall. by apply (Hall k).
    + apply Hbud in Hk. by replace (Z.of_nat k + 1) with (0 + 1 + Z.of_nat k) by lia.
  - intros k Hk. apply Hans in Hk. by replace (Z.of_nat k + 1) with (0 + 1 + Z.of_nat k) by lia.
Qed.

Definition example_env (k : Z) : @Turn nat :=
  {| turn_now := k * 100 * ns_per_ms;
     turn_result := if k <? 3 then inr (from_grpc_status UNAVAILABLE "") else inl 7%nat;
     turn_delay := 20; turn_now_after := k * 100 * ns_per_ms + 10 * ns_per_ms |}.

Lemma retry_bounded_witness :
  let cfg := {| max_attempts := 3; retry_on_deadline_exceeded := false |} in
  execute cfg example_env 0 1000 500 50 SAFE_READONLY = Some (inl 7%nat, [500; 500; 500]) /\
  exists result budgets,
    execute cfg example_env 0 1000 500 50 SAFE_READONLY = Some (result, budgets) /\
    Z.of_nat (length budgets) <= 3 /\
    (SAFE_READONLY = NON_IDEMPOTENT -> (length budgets <= 1)%nat) /\
    (forall k b, budgets !! k = Some b ->
       0 < b <= 500 /\ b <= 1000 - to_ms (turn_now (example_env (Z.of_nat k + 1)) - 0)) /\
    (forall k, (S k < length budgets)%nat ->
       exists e, turn_result (example_env (Z.of_nat k + 1)) = inr e /\
                 is_status_retryable cfg (err_grpc_code e) = true).
Proof.
  split; [vm_compute; reflexivity|].
  apply (retry_bounded {| max_attempts := 3; retry_on_deadline_exceeded := false |}
           example_env 0 1000 500 50 SAFE_READONLY). cbn. lia.
Defined.
