(* ===== verification/AuditEvent.v ===== *)
(** * Audit events

    Models the domain of the audit service, [src/audit/domain]: the identifier
    [event_id.{hpp,cpp}], the enumerations [enums.{hpp,cpp}], the record
    [audit_event.hpp] and the payload fingerprint
    [event_payload_fingerprint.cpp], whose SHA-256 is a parameter.  The metadata
    of an event, a [std::unordered_map], is the list of its entries in the order
    the map iterates them. *)

From S2P Require Import Prelude Ids Bytes.
From stdpp Require Import sorting.
#[local] Open Scope Z_scope.

(** ** [EventId] *)

Record EventId := mkEventId { event_bytes : list Z }.

#[export] Instance EventId_eq_dec : EqDecision EventId.
Proof. solve_decision. Defined.

#[export] Program Instance EventId_countable : Countable EventId :=
  inj_countable' event_bytes mkEventId _.
Next Obligation. by intros []. Qed.

Definition EventId_nil : EventId := mkEventId Uuid.nil.
Definition EventId_is_nil (id : EventId) : bool := Uuid.is_nil (event_bytes id).

Definition byte_at (id : EventId) (i : nat) : Z := default 0 (event_bytes id !! i).

Definition EventId_version (id : EventId) : Z := Z.land (Z.shiftr (byte_at id 6) 4) 15.
Definition EventId_variant (id : EventId) : Z := Z.land (Z.shiftr (byte_at id 8) 6) 3.

(** [RAND_bytes] fills all sixteen bytes, of which the last ten are kept. *)
Definition EventId_generate_v7 (now_ms : Z) (raw : list Z) : EventId :=
  mkEventId (Uuid.generate_v7 now_ms (drop 6 raw)).

Definition EventId_from_string (sv : string) : option EventId :=
  match Uuid.from_string sv with
  | None => None
  | Some raw =>
      let id := mkEventId raw in
      if negb (EventId_version id =? 7) || negb (EventId_variant id =? 2) then None else Some id
  end.

Definition EventId_to_string (id : EventId) : string := Uuid.to_string (event_bytes id).

Definition timestamp_ms (id : EventId) : Z :=
  Z.lor (Z.shiftl (byte_at id 0) 40) (Z.lor (Z.shiftl (byte_at id 1) 32)
    (Z.lor (Z.shiftl (byte_at id 2) 24) (Z.lor (Z.shiftl (byte_at id 3) 16)
      (Z.lor (Z.shiftl (byte_at id 4) 8) (byte_at id 5))))).

(** [std::hash<EventId>]: [memcpy] of eight bytes into a [uint64_t] on a
    little-endian machine, then the mixing of the two halves. *)
Fixpoint le_bytes_value (l : list Z) : Z :=
  match l with
  | [] => 0
  | b :: l => Z.lor b (Z.shiftl (le_bytes_value l) 8)
  end.

Definition EventId_hash (id : EventId) : Z :=
  let h1 := le_bytes_value (take 8 (event_bytes id)) in
  let h2 := le_bytes_value (drop 8 (event_bytes id)) in
  Z.lxor h1 (u64 (h2 + 0x9e3779b97f4a7c15 + u64 (Z.shiftl h1 6) + Z.shiftr h1 2)).

(** ** Enumerations *)

Inductive Severity := Info | Warning | Security | Critical.
Inductive ProducerService := Gateway | Auth | Messaging | Files | Audit.
Inductive ActorType := ActorUser | ActorDevice | ActorService | ActorSystem | ActorUnknown.
Inductive TargetType :=
  TargetUser | TargetDevice | TargetConversation | TargetFile | TargetService | TargetUnknown.

#[export] Instance Severity_eq_dec : EqDecision Severity.
Proof. solve_decision. Defined.
#[export] Instance ProducerService_eq_dec : EqDecision ProducerService.
Proof. solve_decision. Defined.
#[export] Instance ActorType_eq_dec : EqDecision ActorType.
Proof. solve_decision. Defined.
#[export] Instance TargetType_eq_dec : EqDecision TargetType.
Proof. solve_decision. Defined.

(** The values of the enumerators. *)
Definition severity_value (s : Severity) : Z :=
  match s with Info => 1 | Warning => 2 | Security => 3 | Critical => 4 end.
Definition producer_value (p : ProducerService) : Z :=
  match p with Gateway => 1 | Auth => 2 | Messaging => 3 | Files => 4 | Audit => 5 end.
Definition actor_value (a : ActorType) : Z :=
  match a with ActorUser => 1 | ActorDevice => 2 | ActorService => 3 | ActorSystem => 4 | ActorUnknown => 5 end.
Definition target_value (t : TargetType) : Z :=
  match t with
  | TargetUser => 1 | TargetDevice => 2 | TargetConversation => 3 | TargetFile => 4
  | TargetService => 5 | TargetUnknown => 6
  end.

Definition severity_to_string (s : Severity) : string :=
  match s with
  | Info => "INFO" | Warning => "WARNING" | Security => "SECURITY" | Critical => "CRITICAL"
  end.

(** A chain of [if (sv == a || sv == b || ...) return x]. *)
Fixpoint first_match {A} (cases : list (list string * A)) (sv : string) : option A :=
  match cases with
  | [] => None
  | (names, x) :: cases => if existsb (String.eqb sv) names then Some x else first_match cases sv
  end.

Definition severity_from_string : string -> option Severity :=
  first_match
    [(["INFO"; "info"; "1"], Info); (["WARNING"; "warning"; "2"], Warning);
     (["SECURITY"; "security"; "3"], Security); (["CRITICAL"; "critical"; "4"], Critical)].

Definition producer_to_string (p : ProducerService) : string :=
  match p with
  | Gateway => "gateway" | Auth => "auth" | Messaging => "messaging" | Files => "files" | Audit => "audit"
  end.

Definition producer_from_string : string -> option ProducerService :=
  first_match
    [(["gateway"; "GATEWAY"; "1"], Gateway); (["auth"; "AUTH"; "2"], Auth);
     (["messaging"; "MESSAGING"; "3"], Messaging); (["files"; "FILES"; "4"], Files);
     (["audit"; "AUDIT"; "5"], Audit)].

Definition actor_type_to_string (a : ActorType) : string :=
  match a with
  | ActorUser => "USER" | ActorDevice => "DEVICE" | ActorService => "SERVICE" | ActorSystem => "SYSTEM"
  | ActorUnknown => "UNKNOWN"
  end.

Definition actor_type_from_string : string -> option ActorType :=
  first_match
    [(["USER"; "user"; "1"], ActorUser); (["DEVICE"; "device"; "2"], ActorDevice);
     (["SERVICE"; "service"; "3"], ActorService); (["SYSTEM"; "system"; "4"], ActorSystem);
     (["UNKNOWN"; "unknown"; "5"], ActorUnknown)].

Definition target_type_to_string (t : TargetType) : string :=
  match t with
  | TargetUser => "USER" | TargetDevice => "DEVICE" | TargetConversation => "CONVERSATION"
  | TargetFile => "FILE" | TargetService => "SERVICE" | TargetUnknown => "UNKNOWN"
  end.

Definition target_type_from_string : string -> option TargetType :=
  first_match
    [(["USER"; "user"; "1"], TargetUser); (["DEVICE"; "device"; "2"], TargetDevice);
     (["CONVERSATION"; "conversation"; "3"], TargetConversation); (["FILE"; "file"; "4"], TargetFile);
     (["SERVICE"; "service"; "5"], TargetService); (["UNKNOWN"; "unknown"; "6"], TargetUnknown)].

(** ** [AuditEvent] *)

Record AuditEvent := mkAuditEvent {
  event_id : EventId;
  occurred_at : Z;
  received_at : option Z;
  event_type : string;
  severity : Severity;
  producer_service : ProducerService;
  producer_instance : string;
  actor_type : ActorType;
  actor_id : string;
  target_type : TargetType;
  target_id : string;
  correlation_id : string;
  causation_id : option string;
  metadata : list (string * string) }.

Definition set_received_at (t : Z) (e : AuditEvent) : AuditEvent :=
  {| event_id := event_id e; occurred_at := occurred_at e; received_at := Some t;
     event_type := event_type e; severity := severity e; producer_service := producer_service e;
     producer_instance := producer_instance e; actor_type := actor_type e; actor_id := actor_id e;
     target_type := target_type e; target_id := target_id e; correlation_id := correlation_id e;
     causation_id := causation_id e; metadata := metadata e |}.

(** ** The payload fingerprint *)

(** The order of [std::map<std::string_view, ...>]. *)
Definition meta_le : relation (string * string) := fun a b => String.le a.1 b.1.

#[export] Instance meta_le_dec : RelDecision meta_le.
Proof. intros a b. unfold meta_le. apply _. Defined.

Definition sorted_meta (l : list (string * string)) : list (string * string) := merge_sort meta_le l.

Definition causation_bytes (o : option string) : list Z :=
  match o with
  | Some s => 1 :: framed_string s
  | None => [0]
  end.

Definition meta_bytes (l : list (string * string)) : list Z :=
  be_bytes 4 (u32 (Z.of_nat (length l)))
  ++ mjoin ((fun kv => framed_string kv.1 ++ framed_string kv.2) <$> l).

(** The bytes [compute] feeds to the digest, in its order. *)
Definition fingerprint_input (e : AuditEvent) : list Z :=
  event_bytes (event_id e) ++ be_bytes 8 (u64 (to_ms (occurred_at e))) ++ framed_string (event_type e)
  ++ severity_value (severity e) :: producer_value (producer_service e)
  :: framed_string (producer_instance e) ++ actor_value (actor_type e) :: framed_string (actor_id e)
  ++ target_value (target_type e) :: framed_string (target_id e) ++ framed_string (correlation_id e)
  ++ causation_bytes (causation_id e) ++ meta_bytes (sorted_meta (metadata e)).

(** A digest is the byte string SHA-256 answers; two of them are compared bytewise. *)
Definition EventPayloadFingerprint := list Z.

Definition compute_fingerprint (sha256 : list Z -> list Z) (e : AuditEvent) : EventPayloadFingerprint :=
  sha256 (fingerprint_input e).

(** ** Text forms *)

Lemma EventId_from_to_string id :
  Uuid.wf (event_bytes id) -> EventId_version id = 7 -> EventId_variant id = 2 ->
  EventId_from_string (EventId_to_string id) = Some id.
Proof.
  intros Hwf Hver Hvar. unfold EventId_from_string, EventId_to_string, Uuid.from_string.
  change (Uuid.from_chars (chars ?s)) with (Uuid.from_string s).
  rewrite Uuid.from_to_string by done. destruct id as [b]. cbn [event_bytes]. by rewrite Hver, Hvar.
Qed.

(** The printed names of the enumerations are among those their parsers accept. *)
Lemma audit_enum_names :
  (forall s, severity_from_string (severity_to_string s) = Some s) /\
  (forall p, producer_from_string (producer_to_string p) = Some p) /\
  (forall a, actor_type_from_string (actor_type_to_string a) = Some a) /\
  (forall t, target_type_from_string (target_type_to_string t) = Some t).
Proof. split_and!; by intros []. Qed.

(** ** What the fingerprint identifies *)

(** The fields of an event have the sizes of their C++ types: sixteen bytes of id,
    milliseconds that fit in [int64_t], strings below 4 GiB, unique metadata keys. *)
Definition text_ok (s : string) : Prop := in_u32 (str_size s).

Record wf_event (e : AuditEvent) : Prop := {
  wf_id : Uuid.wf (event_bytes (event_id e));
  wf_time : - 2 ^ 63 <= to_ms (occurred_at e) < 2 ^ 63;
  wf_texts : Forall text_ok [event_type e; producer_instance e; actor_id e; target_id e; correlation_id e];
  wf_causation : forall s, causation_id e = Some s -> text_ok s;
  wf_keys : NoDup (metadata e).*1;
  wf_meta : Forall (fun kv => text_ok kv.1 /\ text_ok kv.2) (metadata e);
  wf_count : in_u32 (Z.of_nat (length (metadata e))) }.

(** The immutable payload: every field but [received_at], times in milliseconds,
    metadata up to the iteration order. *)
Definition same_payload (e f : AuditEvent) : Prop :=
  event_id e = event_id f /\ to_ms (occurred_at e) = to_ms (occurred_at f) /\
  event_type e = event_type f /\ severity e = severity f /\ producer_service e = producer_service f /\
  producer_instance e = producer_instance f /\ actor_type e = actor_type f /\ actor_id e = actor_id f /\
  target_type e = target_type f /\ target_id e = target_id f /\ correlation_id e = correlation_id f /\
  causation_id e = causation_id f /\ metadata e ≡ₚ metadata f.

#[export] Instance meta_le_total : Total meta_le.
Proof. intros a b. unfold meta_le. apply (total String.le). Qed.

#[export] Instance meta_le_transitive : Transitive meta_le.
Proof. intros a b c. unfold meta_le. by etransitivity. Qed.

Lemma sorted_meta_perm l : sorted_meta l ≡ₚ l.
Proof. apply merge_sort_Permutation. Qed.

Lemma sorted_meta_unique l l' : NoDup l.*1 -> l ≡ₚ l' -> sorted_meta l = sorted_meta l'.
Proof.
  intros Hnd. apply (merge_sort_keyed_unique meta_le fst); [|done].
  intros a b. apply (anti_symm String.le).
Qed.

Lemma u64_signed_inj a b :
  - 2 ^ 63 <= a < 2 ^ 63 -> - 2 ^ 63 <= b < 2 ^ 63 -> u64 a mod 2 ^ 64 = u64 b mod 2 ^ 64 -> a = b.
Proof.
  intros Ha Hb. unfold u64, wrap. rewrite !Z.mod_mod by done. intros H.
  Z.to_euclidean_division_equations. lia.
Qed.

Lemma causation_split o p x y :
  (forall s, o = Some s -> text_ok s) -> (forall s, p = Some s -> text_ok s) ->
  causation_bytes o ++ x = causation_bytes p ++ y -> o = p /\ x = y.
Proof.
  intros Ho Hp. destruct o as [s|], p as [t|]; cbn; intros H; apply cons_split in H as [? H]; try done.
  apply framed_string_split in H as [-> ->]; [done|by apply Ho|by apply Hp].
Qed.

Lemma pairs_split l l' :
  length l = length l' ->
  Forall (fun kv => text_ok kv.1 /\ text_ok kv.2) l -> Forall (fun kv => text_ok kv.1 /\ text_ok kv.2) l' ->
  mjoin ((fun kv => framed_string kv.1 ++ framed_string kv.2) <$> l)
  = mjoin ((fun kv => framed_string kv.1 ++ framed_string kv.2) <$> l') -> l = l'.
Proof.
  intros Hlen H1. revert l' Hlen.
  induction H1 as [|[k v] l [Hk Hv] _ IH]; intros [|[k' v'] l'] Hlen H2 H; try done.
  apply Forall_cons in H2 as [[Hk' Hv'] H2]. cbn in Hlen, Hk, Hv, Hk', Hv', H.
  rewrite <- !app_assoc in H. apply framed_string_split in H as [-> H]; [|done..].
  apply framed_string_split in H as [-> H]; [|done..].
  f_equal. apply IH; [lia|done|done].
Qed.

Lemma meta_bytes_inj l l' :
  in_u32 (Z.of_nat (length l)) -> in_u32 (Z.of_nat (length l')) ->
  Forall (fun kv => text_ok kv.1 /\ text_ok kv.2) l -> Forall (fun kv => text_ok kv.1 /\ text_ok kv.2) l' ->
  meta_bytes l = meta_bytes l' -> l = l'.
Proof.
  intros Hn Hn' H1 H2 H. unfold meta_bytes in H. apply be_bytes_split in H as [Hlen H].
  change (2 ^ (8 * Z.of_nat 4)) with (2 ^ 32) in Hlen.
  rewrite !u32_small, !Z.mod_small in Hlen by done. apply pairs_split in H; [done|lia|done..].
Qed.

Lemma sorted_meta_wf e : wf_event e ->
  in_u32 (Z.of_nat (length (sorted_meta (metadata e)))) /\
  Forall (fun kv => text_ok kv.1 /\ text_ok kv.2) (sorted_meta (metadata e)).
Proof. intros []. by rewrite sorted_meta_perm. Qed.

Lemma severity_value_inj a b : severity_value a = severity_value b -> a = b.
Proof. by destruct a, b. Qed.
Lemma producer_value_inj a b : producer_value a = producer_value b -> a = b.
Proof. by destruct a, b. Qed.
Lemma actor_value_inj a b : actor_value a = actor_value b -> a = b.
Proof. by destruct a, b. Qed.
Lemma target_value_inj a b : target_value a = target_value b -> a = b.
Proof. by destruct a, b. Qed.

(** Peels the next length-prefixed string off both sides of the equation [H]. *)
Ltac peel_string H :=
  apply framed_string_split in H as [? H]; [|assumption..].

Lemma fingerprint_input_inj e f :
  wf_event e -> wf_event f -> fingerprint_input e = fingerprint_input f -> same_payload e f.
Proof.
  intros He Hf H. destruct (sorted_meta_wf e He) as [Hne Hme]. destruct (sorted_meta_wf f Hf) as [Hnf Hmf].
  destruct He as [[Hlen _] Htime Htexts Hcaus _ _ _], Hf as [[Hlen' _] Htime' Htexts' Hcaus' _ _ _].
  rewrite !Forall_cons in Htexts, Htexts'. destruct_and!.
  unfold fingerprint_input in H. repeat (rewrite <- !app_assoc in H; cbn [app] in H).
  apply app_same_length in H as [Hid H]; [|congruence].
  apply be_bytes_split in H as [Ht H]. apply u64_signed_inj in Ht; [|done..].
  peel_string H. apply cons_split in H as [Hsev H]. apply cons_split in H as [Hprod H]. peel_string H. apply cons_split in H as [Hact H]. peel_string H.
  apply cons_split in H as [Htgt H]. peel_string H. peel_string H.
  apply causation_split in H as [Hc H]; [|done..]. apply meta_bytes_inj in H; [|done..].
  unfold same_payload. split_and!; auto using severity_value_inj, producer_value_inj, actor_value_inj, target_value_inj.
  - destruct (event_id e), (event_id f). cbn in Hid. by f_equal.
  - by rewrite <- (sorted_meta_perm (metadata e)), <- (sorted_meta_perm (metadata f)), H.
Qed.

(** The bytes behind an audit fingerprint identify the payload exactly: two
    events with fields of their C++ sizes feed the same bytes to SHA-256 if and only
    if they agree in every field but [received_at], times compared in milliseconds
    and metadata as sets; no shift of characters between neighbouring fields goes
    unnoticed, and the iteration order of the metadata map does not matter. *)
Theorem audit_fingerprint_identifies_payload (e f : AuditEvent) (He : wf_event e) (Hf : wf_event f) :
  fingerprint_input e = fingerprint_input f <-> same_payload e f.
Proof.
  split; [by apply fingerprint_input_inj|].
  intros (Hid & Ht & Htype & Hsev & Hprod & Hinst & Hact & Haid & Htgt & Htid & Hcorr & Hcaus & Hmeta).
  unfold fingerprint_input. rewrite Hid, Ht, Htype, Hsev, Hprod, Hinst, Hact, Haid, Htgt, Htid, Hcorr, Hcaus.
  by rewrite (sorted_meta_unique _ _ (wf_keys _ He) Hmeta).
Qed.

(** An event used to evaluate the definitions. *)
Definition sample_event (type : string) (meta : list (string * string)) : AuditEvent :=
  {| event_id := EventId_generate_v7 1700000000000 (replicate 16 7); occurred_at := from_ms 1700000000000;
     received_at := None; event_type := type; severity := Security; producer_service := Auth;
     producer_instance := "auth-1"; actor_type := ActorUser; actor_id := "u1"; target_type := TargetDevice;
     target_id := "d1"; correlation_id := "c1"; causation_id := None; metadata := meta |}.

Lemma sample_event_wf k v k' v' :
  (forall s, s ∈ [k; v; k'; v'] -> text_ok s) -> k <> k' -> wf_event (sample_event "auth.login" [(k, v); (k', v')]).
Proof.
  intros Hok Hne. constructor.
  - split; [reflexivity|]. repeat (constructor; [vm_compute; split; congruence|]). constructor.
  - split; vm_compute; congruence.
  - repeat (constructor; [split; vm_compute; congruence|]). constructor.
  - intros s [=].
  - cbn [metadata sample_event fmap list_fmap fst]. repeat constructor; set_solver.
  - repeat (constructor; [split; apply Hok; set_solver|]). constructor.
  - split; vm_compute; congruence.
Qed.

Lemma audit_fingerprint_identifies_payload_witness :
  fingerprint_input (sample_event "auth.login" [("ip", "10.0.0.1"); ("agent", "cli")])
  = fingerprint_input (sample_event "auth.login" [("agent", "cli"); ("ip", "10.0.0.1")]).
Proof.
  apply (audit_fingerprint_identifies_payload _ _).
  - apply sample_event_wf; [|congruence].
    apply Forall_forall. repeat (constructor; [split; vm_compute; congruence|]). constructor.
  - apply sample_event_wf; [|congruence].
    apply Forall_forall. repeat (constructor; [split; vm_compute; congruence|]). constructor.
  - repeat (split; [reflexivity|]). apply perm_swap.
Defined.
