(* ===== verification/Dedup.v ===== *)
(** * Deduplication of audit events

    Models [src/audit/ingestion/deduplication_cache.{hpp,cpp}] and the types of
    [idempotency_types.hpp].  The cache is sharded by the hash of the event id; a
    shard keeps the events being persisted, each with the promise its coalesced
    callers wait for, and the committed events in a least-recently-used list that a
    map of list iterators indexes.

    An iterator is the number of a list node, so that a map entry whose node is gone
    is a dangling iterator: dereferencing it, or indexing a shard that does not
    exist, is undefined and has no result ([None]).  Promises live in a store shared
    with the callers.  Every call holds the lock of its shard while it reads and
    writes it and is one step; the metrics counters are not modelled. *)

From S2P Require Import Prelude Ids Bytes AuditEvent.

(** ** Types *)

Inductive IngestionOutcomeStatus :=
  | PersistedNew | DuplicateCommitted | DuplicateCoalesced | IdempotencyConflict | ValidationRejected
  | UnauthorizedProducer | QueueOverloaded | PersistenceFailed | PersistenceAmbiguous.

#[export] Instance IngestionOutcomeStatus_eq_dec : EqDecision IngestionOutcomeStatus.
Proof. solve_decision. Defined.

Record PersistAckResult := mkAck {
  ack_status : IngestionOutcomeStatus;
  ack_event_id : EventId;
  ack_received_at : Z;
  ack_error_code : string;
  ack_diagnostic_message : string }.

Inductive Decision := AcquiredNewInFlight | CoalescedInFlight | AlreadyCommitted | PayloadConflict.

(** A promise and the shared future made from it are one cell of the store. *)
Record DedupAcquireResult := mkAcquire {
  decision : Decision;
  committed_received_at : Z;
  in_flight_future : option nat;
  primary_promise : option nat }.

Definition only_decision (d : Decision) : DedupAcquireResult := mkAcquire d 0 None None.

Record InFlightEntry := mkInFlight { if_fingerprint : EventPayloadFingerprint; if_promise : nat }.

Record CommittedEntry := mkCommitted {
  ce_event_id : EventId;
  ce_fingerprint : EventPayloadFingerprint;
  ce_received_at : Z;
  ce_expires_at : Z }.

Record CacheShard := mkShard {
  in_flight_map : gmap EventId InFlightEntry;
  committed_lru_list : list (nat * CommittedEntry);
  committed_map : gmap EventId nat }.

Record BoundedDeduplicationCache := mkCache {
  shard_capacity_ : Z;
  ttl_ : Z;
  num_shards_ : Z;
  shard_mask_ : Z;
  shards_ : list CacheShard;
  promises : list (option PersistAckResult);
  next_node : nat }.

(** ** Construction *)

Definition empty_shard : CacheShard := mkShard ∅ [] ∅.

Definition bit_ceil (n : Z) : Z := 2 ^ Z.log2_up n.

Definition BoundedDeduplicationCache_new (capacity ttl num_shards : Z) : BoundedDeduplicationCache :=
  let total_capacity := if capacity =? 0 then 1 else capacity in
  let n := bit_ceil (if num_shards =? 0 then 1 else num_shards) in
  {| shard_capacity_ := Z.max 1 (u32 (total_capacity + n - 1) / n);
     ttl_ := ttl; num_shards_ := n; shard_mask_ := n - 1;
     shards_ := replicate (Z.to_nat n) empty_shard; promises := []; next_node := 0 |}.

Definition get_shard_index (c : BoundedDeduplicationCache) (id : EventId) : nat :=
  Z.to_nat (Z.land (EventId_hash id) (shard_mask_ c)).

(** ** The list and its iterators *)

Fixpoint deref (l : list (nat * CommittedEntry)) (it : nat) : option CommittedEntry :=
  match l with
  | [] => None
  | (n, e) :: l => if (n =? it)%nat then Some e else deref l it
  end.

Definition lru_erase (it : nat) (l : list (nat * CommittedEntry)) : list (nat * CommittedEntry) :=
  filter (fun ne => ne.1 <> it) l.

Definition erase_committed (id : EventId) (it : nat) (s : CacheShard) : CacheShard :=
  mkShard (in_flight_map s) (lru_erase it (committed_lru_list s)) (delete id (committed_map s)).

(** [splice] of one node to the front. *)
Definition promote (it : nat) (e : CommittedEntry) (s : CacheShard) : CacheShard :=
  mkShard (in_flight_map s) ((it, e) :: lru_erase it (committed_lru_list s)) (committed_map s).

(** ** Operations *)

Definition set_shard (i : nat) (s : CacheShard) (c : BoundedDeduplicationCache) : BoundedDeduplicationCache :=
  mkCache (shard_capacity_ c) (ttl_ c) (num_shards_ c) (shard_mask_ c) (<[i := s]> (shards_ c)) (promises c) (next_node c).

(** Steps 2 and 3 of [try_acquire]: join the call in flight or reserve the event. *)
Definition inspect_in_flight (i : nat) (s : CacheShard) (id : EventId) (fp : EventPayloadFingerprint)
    (c : BoundedDeduplicationCache) : DedupAcquireResult * BoundedDeduplicationCache :=
  match in_flight_map s !! id with
  | Some entry =>
      if bool_decide (if_fingerprint entry <> fp) then (only_decision PayloadConflict, set_shard i s c)
      else (mkAcquire CoalescedInFlight 0 (Some (if_promise entry)) None, set_shard i s c)
  | None =>
      let promise := length (promises c) in
      let s' := mkShard (<[id := mkInFlight fp promise]> (in_flight_map s)) (committed_lru_list s) (committed_map s) in
      (mkAcquire AcquiredNewInFlight 0 (Some promise) (Some promise),
       mkCache (shard_capacity_ c) (ttl_ c) (num_shards_ c) (shard_mask_ c) (<[i := s']> (shards_ c))
         (promises c ++ [None]) (next_node c))
  end.

Definition try_acquire (id : EventId) (fp : EventPayloadFingerprint) (now : Z) (c : BoundedDeduplicationCache)
    : option (DedupAcquireResult * BoundedDeduplicationCache) :=
  let i := get_shard_index c id in
  s ← shards_ c !! i;
  match committed_map s !! id with
  | Some it =>
      e ← deref (committed_lru_list s) it;
      if ce_expires_at e <=? now then Some (inspect_in_flight i (erase_committed id it s) id fp c)
      else if bool_decide (ce_fingerprint e <> fp) then Some (only_decision PayloadConflict, c)
      else Some (mkAcquire AlreadyCommitted (ce_received_at e) None None, set_shard i (promote it e s) c)
  | None => Some (inspect_in_flight i s id fp c)
  end.

(** The loop that evicts the tail while the map is over the capacity. *)
Fixpoint evict_lru (fuel : nat) (capacity : Z) (s : CacheShard) : CacheShard :=
  match fuel with
  | O => s
  | S fuel =>
      if capacity <? Z.of_nat (size (committed_map s)) then
        match last (committed_lru_list s) with
        | Some (_, tail) =>
            evict_lru fuel capacity
              (mkShard (in_flight_map s) (removelast (committed_lru_list s))
                 (delete (ce_event_id tail) (committed_map s)))
        | None => s
        end
      else s
  end.

(** [set_value]; a promise that is fulfilled already throws, which is caught. *)
Definition set_value (p : nat) (ack : PersistAckResult) (store : list (option PersistAckResult))
    : list (option PersistAckResult) :=
  match store !! p with
  | Some None => <[p := Some ack]> store
  | _ => store
  end.

(** Removal of an older committed entry for the event, then the new front entry. *)
Definition commit_entry (node : nat) (e : CommittedEntry) (s : CacheShard) : CacheShard :=
  let s1 :=
    match committed_map s !! ce_event_id e with
    | Some it => erase_committed (ce_event_id e) it s
    | None => s
    end in
  mkShard (in_flight_map s1) ((node, e) :: committed_lru_list s1) (<[ce_event_id e := node]> (committed_map s1)).

Definition mark_committed (id : EventId) (received_at now : Z) (c : BoundedDeduplicationCache)
    : option BoundedDeduplicationCache :=
  let i := get_shard_index c id in
  s ← shards_ c !! i;
  match in_flight_map s !! id with
  | None => Some c
  | Some entry =>
      let s1 := mkShard (delete id (in_flight_map s)) (committed_lru_list s) (committed_map s) in
      let e := mkCommitted id (if_fingerprint entry) received_at (now + ttl_ c) in
      let s2 := commit_entry (next_node c) e s1 in
      let s3 := evict_lru (S (length (committed_lru_list s2))) (shard_capacity_ c) s2 in
      let ack := mkAck DuplicateCoalesced id received_at EmptyString EmptyString in
      Some (mkCache (shard_capacity_ c) (ttl_ c) (num_shards_ c) (shard_mask_ c) (<[i := s3]> (shards_ c))
              (set_value (if_promise entry) ack (promises c)) (S (next_node c)))
  end.

Definition rollback_in_flight (id : EventId) (failure_result : PersistAckResult) (c : BoundedDeduplicationCache)
    : option BoundedDeduplicationCache :=
  let i := get_shard_index c id in
  s ← shards_ c !! i;
  match in_flight_map s !! id with
  | None => Some c
  | Some entry =>
      let s1 := mkShard (delete id (in_flight_map s)) (committed_lru_list s) (committed_map s) in
      Some (mkCache (shard_capacity_ c) (ttl_ c) (num_shards_ c) (shard_mask_ c) (<[i := s1]> (shards_ c))
              (set_value (if_promise entry) failure_result (promises c)) (next_node c))
  end.

(** The walk of [evict_expired] over the list of one shard: what is kept, the map
    without the expired ids, and their number. *)
Fixpoint evict_walk (now : Z) (l : list (nat * CommittedEntry)) (m : gmap EventId nat)
    : list (nat * CommittedEntry) * gmap EventId nat * Z :=
  match l with
  | [] => ([], m, 0)
  | (n, e) :: l =>
      if ce_expires_at e <=? now then
        let '(kept, m, count) := evict_walk now l (delete (ce_event_id e) m) in (kept, m, count + 1)
      else let '(kept, m, count) := evict_walk now l m in ((n, e) :: kept, m, count)
  end.

Definition evict_shard (now : Z) (s : CacheShard) : CacheShard * Z :=
  let '(kept, m, count) := evict_walk now (committed_lru_list s) (committed_map s) in
  (mkShard (in_flight_map s) kept m, count).

Definition evict_expired (now : Z) (c : BoundedDeduplicationCache) : BoundedDeduplicationCache * Z :=
  (mkCache (shard_capacity_ c) (ttl_ c) (num_shards_ c) (shard_mask_ c)
     ((fun s => (evict_shard now s).1) <$> shards_ c) (promises c) (next_node c),
   foldr Z.add 0 ((fun s => (evict_shard now s).2) <$> shards_ c)).

Definition sum_shards (f : CacheShard -> Z) (c : BoundedDeduplicationCache) : Z :=
  foldr Z.add 0 (f <$> shards_ c).

Definition in_flight_count : BoundedDeduplicationCache -> Z :=
  sum_shards (fun s => Z.of_nat (size (in_flight_map s))).
Definition committed_count : BoundedDeduplicationCache -> Z :=
  sum_shards (fun s => Z.of_nat (size (committed_map s))).
Definition cache_size : BoundedDeduplicationCache -> Z :=
  sum_shards (fun s => Z.of_nat (size (in_flight_map s)) + Z.of_nat (size (committed_map s))).

(** ** Well-formed shards *)

(** The map holds exactly the iterators of the list, one per event id. *)
Record shard_wf (s : CacheShard) : Prop := {
  sw_nodes : NoDup (committed_lru_list s).*1;
  sw_index : forall id n, committed_map s !! id = Some n <->
    exists e, (n, e) ∈ committed_lru_list s /\ ce_event_id e = id }.

(** What the shard remembers of an event that was committed. *)
Definition committed_of (s : CacheShard) (id : EventId) : option CommittedEntry :=
  it ← committed_map s !! id; deref (committed_lru_list s) it.

Lemma deref_elem l it e : NoDup l.*1 -> (it, e) ∈ l -> deref l it = Some e.
Proof.
  induction l as [|[n e'] l IH]; cbn; intros Hnd Hin; [by apply not_elem_of_nil in Hin|].
  apply NoDup_cons in Hnd as [Hn Hnd]. apply elem_of_cons in Hin as [[= -> ->]|Hin].
  - by rewrite Nat.eqb_refl.
  - destruct (Nat.eqb_spec n it) as [->|]; [|by apply IH].
    destruct Hn. apply list_elem_of_fmap. by exists (it, e).
Qed.

Lemma nodup_fst_inj {A B} (l : list (A * B)) a b b' : NoDup l.*1 -> (a, b) ∈ l -> (a, b') ∈ l -> b = b'.
Proof.
  intros Hnd [i Hi]%list_elem_of_lookup [j Hj]%list_elem_of_lookup.
  assert (i = j) as <-; [|congruence].
  eapply NoDup_lookup; [exact Hnd|by rewrite list_lookup_fmap, Hi|by rewrite list_lookup_fmap, Hj].
Qed.

(** A map entry never dangles. *)
Lemma iterator_valid s id it :
  shard_wf s -> committed_map s !! id = Some it ->
  exists e, deref (committed_lru_list s) it = Some e /\ (it, e) ∈ committed_lru_list s /\ ce_event_id e = id.
Proof.
  intros Hwf (e & Hin & Hid)%(sw_index _ Hwf). exists e. split_and!; [|done..].
  apply deref_elem; [apply Hwf|done].
Qed.

Lemma committed_of_spec s id e :
  shard_wf s -> committed_of s id = Some e <-> ce_event_id e = id /\ e ∈ (committed_lru_list s).*2.
Proof.
  intros Hwf. unfold committed_of. split.
  - intros (it & Hit & He)%bind_Some. destruct (iterator_valid s id it Hwf Hit) as (e' & He' & Hin & Hid).
    assert (e' = e) as -> by congruence. split; [done|]. apply list_elem_of_fmap. by exists (it, e).
  - intros [Hid ([it e'] & -> & Hin)%list_elem_of_fmap]. cbn in *. apply bind_Some. exists it. split.
    + apply (sw_index _ Hwf). eauto.
    + apply deref_elem; [apply Hwf|done].
Qed.

(** A list whose entries carry distinct ids, with the map built from it. *)
Lemma shard_size s : shard_wf s -> size (committed_map s) = length (committed_lru_list s).
Proof.
  intros Hwf. set (l := (fun ne : nat * CommittedEntry => (ce_event_id ne.2, ne.1)) <$> committed_lru_list s).
  assert (Hnd : NoDup l.*1).
  { unfold l. rewrite <- list_fmap_compose. apply NoDup_fmap_2_strong; [|apply (NoDup_fmap_1 fst), Hwf].
    intros [n e] [n' e'] H1 H2 Heq. cbn in Heq.
    assert (Hn : committed_map s !! ce_event_id e = Some n) by (apply (sw_index _ Hwf); eauto).
    assert (Hn' : committed_map s !! ce_event_id e = Some n') by (apply (sw_index _ Hwf); eauto).
    assert (n = n') as <- by congruence. f_equal. by eapply nodup_fst_inj; [apply Hwf|..]. }
  replace (committed_map s) with (list_to_map l : gmap EventId nat).
  - rewrite map_size_list_to_map by done. unfold l. by rewrite length_fmap.
  - apply map_eq. intros id. apply option_eq. intros n. rewrite <- elem_of_list_to_map by done.
    rewrite (sw_index _ Hwf). unfold l. rewrite list_elem_of_fmap. split.
    + intros ([n' e] & [= -> ->] & Hin). eauto.
    + intros (e & Hin & <-). by exists (n, e).
Qed.

Lemma elem_lru_erase it ne l : ne ∈ lru_erase it l <-> ne.1 <> it /\ ne ∈ l.
Proof. unfold lru_erase. by rewrite list_elem_of_filter. Qed.

Lemma lru_erase_nodup it l : NoDup l.*1 -> NoDup (lru_erase it l).*1 /\ it ∉ (lru_erase it l).*1.
Proof.
  intros Hnd. split.
  - eapply sublist_NoDup; [exact Hnd|]. apply fmap_sublist, sublist_filter.
  - intros ([n e] & -> & Hin)%list_elem_of_fmap. apply elem_lru_erase in Hin as [Hne _]. done.
Qed.

Lemma erase_committed_wf id it s :
  shard_wf s -> committed_map s !! id = Some it ->
  shard_wf (erase_committed id it s) /\
  (forall e, e ∈ (committed_lru_list (erase_committed id it s)).*2
     <-> e ∈ (committed_lru_list s).*2 /\ ce_event_id e <> id).
Proof.
  intros Hwf Hit. destruct (iterator_valid s id it Hwf Hit) as (e0 & _ & Hin0 & Hid0).
  assert (Hkey : forall n e, (n, e) ∈ committed_lru_list s -> n <> it <-> ce_event_id e <> id).
  { intros n e Hin. assert (Hn : committed_map s !! ce_event_id e = Some n) by (apply (sw_index _ Hwf); eauto).
    split; [intros Hne Heq; congruence|]. intros Hne ->. apply Hne.
    rewrite <- Hid0. f_equal. by eapply nodup_fst_inj; [apply Hwf|..]. }
  split; [constructor|].
  - apply lru_erase_nodup, Hwf.
  - intros id' n. cbn. rewrite lookup_delete_Some, (sw_index _ Hwf). split.
    + intros (Hne & e & Hin & <-). exists e. split; [|done]. apply elem_lru_erase. split; [|done]. by apply (Hkey n e).
    + intros (e & [Hne Hin]%elem_lru_erase & <-). cbn in Hne. split; [|eauto]. symmetry. by apply (Hkey n e).
  - intros e. cbn. rewrite !list_elem_of_fmap. split.
    + intros ([n e'] & -> & [Hne Hin]%elem_lru_erase). cbn in *. split; [by exists (n, e')|]. by apply (Hkey n e').
    + intros (([n e'] & -> & Hin) & Hne). exists (n, e'). split; [done|]. apply elem_lru_erase. split; [|done].
      by apply (Hkey n e').
Qed.

Lemma promote_wf id it e s :
  shard_wf s -> committed_map s !! id = Some it -> deref (committed_lru_list s) it = Some e ->
  shard_wf (promote it e s) /\
  (forall e', e' ∈ (committed_lru_list (promote it e s)).*2 <-> e' ∈ (committed_lru_list s).*2) /\
  length (committed_lru_list (promote it e s)) = length (committed_lru_list s) /\
  (forall n, n ∈ (committed_lru_list (promote it e s)).*1 -> n ∈ (committed_lru_list s).*1).
Proof.
  intros Hwf Hit He. destruct (iterator_valid s id it Hwf Hit) as (e1 & He1 & Hin & Hid).
  assert (e1 = e) as -> by congruence.
  assert (Helem : forall ne, ne ∈ (it, e) :: lru_erase it (committed_lru_list s) <-> ne ∈ committed_lru_list s).
  { intros [n e']. rewrite elem_of_cons, elem_lru_erase. cbn. split.
    - by intros [[= -> ->]|[_ ?]].
    - intros Hn. destruct (decide (n = it)) as [->|]; [|by right]. left. f_equal.
      by eapply nodup_fst_inj; [apply Hwf|..]. }
  assert (Hnd : NoDup ((it, e) :: lru_erase it (committed_lru_list s)).*1).
  { cbn. destruct (lru_erase_nodup it _ (sw_nodes _ Hwf)) as [??]. by constructor. }
  split_and!.
  - constructor; [exact Hnd|]. intros id' n. cbn [committed_map committed_lru_list promote].
    rewrite (sw_index _ Hwf). by setoid_rewrite Helem.
  - intros e'. cbn [committed_lru_list promote]. rewrite !list_elem_of_fmap. by setoid_rewrite Helem.
  - cbn [committed_lru_list promote]. apply Permutation_length, NoDup_Permutation; [|apply (NoDup_fmap_1 fst), Hwf|done].
    by apply (NoDup_fmap_1 fst).
  - intros n. cbn [committed_lru_list promote]. rewrite !list_elem_of_fmap. by setoid_rewrite Helem.
Qed.

(** A new front node for an event that has none. *)
Lemma push_front_wf node e s :
  shard_wf s -> committed_map s !! ce_event_id e = None -> node ∉ (committed_lru_list s).*1 ->
  shard_wf (mkShard (in_flight_map s) ((node, e) :: committed_lru_list s) (<[ce_event_id e := node]> (committed_map s))).
Proof.
  intros Hwf Hnone Hfresh. constructor; cbn.
  - constructor; [done|apply Hwf].
  - intros id n. destruct (decide (id = ce_event_id e)) as [->|Hne].
    + rewrite lookup_insert_eq. split.
      * intros [= ->]. exists e. split; [left|done].
      * intros (e' & [[= -> ->]|Hin]%elem_of_cons & Hid); [done|].
        assert (committed_map s !! ce_event_id e = Some n) by (apply (sw_index _ Hwf); eauto). congruence.
    + rewrite lookup_insert_ne by done. rewrite (sw_index _ Hwf). split.
      * intros (e' & Hin & <-). exists e'. split; [by right|done].
      * intros (e' & [[= -> ->]|Hin]%elem_of_cons & <-); [done|]. eauto.
Qed.

Lemma commit_entry_wf node e s :
  shard_wf s -> node ∉ (committed_lru_list s).*1 ->
  let s' := commit_entry node e s in
  shard_wf s' /\ in_flight_map s' = in_flight_map s /\
  (exists l, committed_lru_list s' = (node, e) :: l /\ l `sublist_of` committed_lru_list s /\
     forall e', e' ∈ l.*2 <-> e' ∈ (committed_lru_list s).*2 /\ ce_event_id e' <> ce_event_id e).
Proof.
  intros Hwf Hfresh. unfold commit_entry. destruct (committed_map s !! ce_event_id e) as [it|] eqn:Hit; cbn.
  - destruct (erase_committed_wf _ _ _ Hwf Hit) as [Hwf1 Hel]. split_and!; [|done|].
    + apply (push_front_wf node e _ Hwf1).
      * cbn. apply lookup_delete_eq.
      * cbn. contradict Hfresh. rewrite list_elem_of_fmap in Hfresh |- *.
        destruct Hfresh as (ne & -> & [_ Hin]%elem_lru_erase). eauto.
    + eexists. split; [done|]. split; [apply sublist_filter|]. apply Hel.
  - split_and!; [by apply push_front_wf|done|]. eexists. split; [done|]. split; [done|].
    intros e'. split; [|tauto]. intros Hin. split; [done|]. intros Heq.
    assert (committed_of s (ce_event_id e) = Some e') as H by by apply committed_of_spec.
    unfold committed_of in H. by rewrite Hit in H.
Qed.

(** Dropping the tail of the list with its map entry. *)
Lemma drop_tail_wf s l n e :
  shard_wf s -> committed_lru_list s = l ++ [(n, e)] ->
  shard_wf (mkShard (in_flight_map s) l (delete (ce_event_id e) (committed_map s))).
Proof.
  intros Hwf Hl.
  assert (Hn : committed_map s !! ce_event_id e = Some n).
  { apply (sw_index _ Hwf). exists e. rewrite Hl. split; [apply elem_of_app; right; left|done]. }
  destruct (erase_committed_wf _ _ _ Hwf Hn) as [Hwf' _]. unfold erase_committed in Hwf'.
  assert (Hlist : lru_erase n (committed_lru_list s) = l); [|by rewrite Hlist in Hwf'].
  pose proof (sw_nodes _ Hwf) as Hnd. rewrite Hl in Hnd |- *. rewrite fmap_app in Hnd. apply NoDup_app in Hnd as (_ & Hd & _).
  unfold lru_erase. rewrite filter_app. rewrite (filter_all _ l).
  - rewrite filter_cons_False by (cbn; congruence). by rewrite app_nil_r.
  - apply Forall_forall. intros [n' e'] Hin Heq. cbn in Heq. subst n'.
    apply (Hd n); [|left]. apply list_elem_of_fmap. by exists (n, e').
Qed.

(** The eviction loop leaves the most recently used entries, at most [capacity] of
    them, and ends within its fuel. *)
Lemma evict_lru_spec fuel capacity s :
  0 <= capacity -> shard_wf s -> (length (committed_lru_list s) < fuel)%nat ->
  let s' := evict_lru fuel capacity s in
  shard_wf s' /\ in_flight_map s' = in_flight_map s /\
  committed_lru_list s' = take (Z.to_nat capacity) (committed_lru_list s) /\
  Z.of_nat (size (committed_map s')) <= capacity.
Proof.
  intros Hcap. revert s. induction fuel as [|fuel IH]; intros s Hwf Hfuel; [lia|].
  cbn zeta in *. cbn [evict_lru]. destruct (Z.ltb_spec capacity (Z.of_nat (size (committed_map s)))) as [Hlt|Hle].
  - rewrite shard_size in Hlt by done. destruct (committed_lru_list s) as [|x l] eqn:Hl using rev_ind;
      [cbn in Hlt; lia|]. clear IHl. destruct x as [n e]. rewrite last_snoc, removelast_last.
    rewrite length_app in Hfuel, Hlt. cbn in Hfuel, Hlt.
    destruct (IH (mkShard (in_flight_map s) l (delete (ce_event_id e) (committed_map s)))) as (Hwf' & Hif & Htake & Hsize).
    + by eapply drop_tail_wf.
    + cbn. lia.
    + split_and!; [done|done| |done]. rewrite Htake. cbn. by rewrite take_app_le by lia.
  - split_and!; [done|done| |done]. rewrite shard_size in Hle by done. by rewrite take_ge by lia.
Qed.

Lemma evict_walk_spec now s kept m count :
  shard_wf s -> evict_walk now (committed_lru_list s) (committed_map s) = (kept, m, count) ->
  kept = filter (fun ne => now < ce_expires_at ne.2) (committed_lru_list s) /\
  shard_wf (mkShard (in_flight_map s) kept m).
Proof.
  intros Hwf Hw.
  assert (Hgen : forall l (m0 m : gmap EventId nat) kept count, evict_walk now l m0 = (kept, m, count) ->
    kept = filter (fun ne => now < ce_expires_at ne.2) l /\
    forall id n, m !! id = Some n <->
      m0 !! id = Some n /\ forall n' e', (n', e') ∈ l -> ce_expires_at e' <= now -> ce_event_id e' <> id).
  { clear. induction l as [|[n e] l IH]; intros m0 m kept count; cbn [evict_walk].
    - intros [= <- <- <-]. split; [done|]. intros id n. split; [|tauto]. intros H. split; [done|].
      intros ?? Hin. by apply not_elem_of_nil in Hin.
    - destruct (Z.leb_spec (ce_expires_at e) now) as [Hexp|Hlive];
        destruct (evict_walk _ _ _) as [[k m1] c1] eqn:Hr; intros [= <- <- <-];
        apply IH in Hr as [-> Hm].
      + rewrite filter_cons_False by (cbn; lia). split; [done|]. intros id n0. rewrite Hm, lookup_delete_Some.
        split.
        * intros ((Hne & H0) & Hall). split; [done|]. intros n' e' [[= -> ->]|Hin]%elem_of_cons Hx; [done|eauto].
        * intros (H0 & Hall). split; [split; [|done]|].
          -- apply (Hall n e); [left|done].
          -- intros n' e' Hin. apply (Hall n' e'). by right.
      + rewrite filter_cons_True by (cbn; lia). split; [done|]. intros id n0. rewrite Hm. split.
        * intros (H0 & Hall). split; [done|]. intros n' e' [[= -> ->]|Hin]%elem_of_cons Hx; [lia|eauto].
        * intros (H0 & Hall). split; [done|]. intros n' e' Hin. apply (Hall n' e'). by right. }
  destruct (Hgen _ _ _ _ _ Hw) as [-> Hm]. split; [done|]. constructor; cbn.
  - eapply sublist_NoDup; [apply Hwf|]. apply fmap_sublist, sublist_filter.
  - intros id n. rewrite Hm, (sw_index _ Hwf). split.
    + intros ((e & Hin & <-) & Hall). exists e. split; [|done]. apply list_elem_of_filter. split; [|done]. cbn.
      destruct (Z.lt_ge_cases now (ce_expires_at e)) as [|Hx]; [done|]. by destruct (Hall n e Hin Hx).
    + intros (e & [Hlive Hin]%list_elem_of_filter & <-). cbn in Hlive. split; [eauto|].
      intros n' e' Hin' Hx Heq. assert (n' = n) as ->.
      { assert (committed_map s !! ce_event_id e = Some n) by (apply (sw_index _ Hwf); eauto).
        assert (committed_map s !! ce_event_id e = Some n') by (apply (sw_index _ Hwf); eauto). congruence. }
      assert (e' = e) as -> by (by eapply nodup_fst_inj; [apply Hwf|..]). lia.
Qed.

(** ** The life of an event in the cache *)

Inductive DedupState :=
  | Unseen
  | InFlight (fp : EventPayloadFingerprint) (promise : nat)
  | Committed (e : CommittedEntry).

#[export] Instance CommittedEntry_eq_dec : EqDecision CommittedEntry.
Proof. solve_decision. Defined.
#[export] Instance DedupState_eq_dec : EqDecision DedupState.
Proof. solve_decision. Defined.

Definition shard_state (s : CacheShard) (id : EventId) : DedupState :=
  match in_flight_map s !! id with
  | Some entry => InFlight (if_fingerprint entry) (if_promise entry)
  | None => match committed_of s id with Some e => Committed e | None => Unseen end
  end.

Definition state_of (c : BoundedDeduplicationCache) (id : EventId) : DedupState :=
  match shards_ c !! get_shard_index c id with
  | Some s => shard_state s id
  | None => Unseen
  end.

Record shard_ok (capacity : Z) (next : nat) (s : CacheShard) : Prop := {
  so_wf : shard_wf s;
  so_nodes : forall n, n ∈ (committed_lru_list s).*1 -> (n < next)%nat;
  so_size : Z.of_nat (size (committed_map s)) <= capacity;
  so_disjoint : forall id, is_Some (in_flight_map s !! id) -> committed_map s !! id = None }.

Record cache_struct (c : BoundedDeduplicationCache) : Prop := {
  cs_len : Z.of_nat (length (shards_ c)) = num_shards_ c;
  cs_mask : shard_mask_ c = num_shards_ c - 1;
  cs_pow : exists k, 0 <= k /\ num_shards_ c = 2 ^ k;
  cs_cap : 1 <= shard_capacity_ c;
  cs_shards : Forall (shard_ok (shard_capacity_ c) (next_node c)) (shards_ c) }.

(** The promise of an event in flight is pending, and belongs to that event alone. *)
Record cache_wf (c : BoundedDeduplicationCache) : Prop := {
  cw_struct : cache_struct c;
  cw_pending : forall id fp p, state_of c id = InFlight fp p -> promises c !! p = Some None;
  cw_owner : forall id id' fp fp' p,
    state_of c id = InFlight fp p -> state_of c id' = InFlight fp' p -> id = id' }.

Lemma shard_lookup c id : cache_struct c -> exists s, shards_ c !! get_shard_index c id = Some s.
Proof.
  intros [Hlen Hmask (k & Hk & Hpow) _ _]. apply lookup_lt_is_Some. unfold get_shard_index.
  rewrite Hmask, Hpow. replace (2 ^ k - 1) with (Z.ones k) by (rewrite Z.ones_equiv; lia).
  rewrite Z.land_ones by done.
  pose proof (Z.mod_pos_bound (EventId_hash id) (2 ^ k) ltac:(lia)). lia.
Qed.

Lemma shard_at_ok c i s : cache_struct c -> shards_ c !! i = Some s -> shard_ok (shard_capacity_ c) (next_node c) s.
Proof. intros Hc Hi. by eapply Forall_lookup_1; [apply Hc|]. Qed.

Lemma shard_ok_mono cap n n' s : (n <= n')%nat -> shard_ok cap n s -> shard_ok cap n' s.
Proof. intros Hle []. constructor; [done| |done..]. intros m Hm. apply so_nodes0 in Hm. lia. Qed.

(** Replacing one shard by another well-formed one. *)
Lemma update_struct c i s' ps n :
  cache_struct c -> (next_node c <= n)%nat -> shard_ok (shard_capacity_ c) n s' ->
  cache_struct (mkCache (shard_capacity_ c) (ttl_ c) (num_shards_ c) (shard_mask_ c) (<[i := s']> (shards_ c)) ps n).
Proof.
  intros [] Hn Hs'. constructor; cbn; [by rewrite length_insert|done..|].
  apply Forall_insert; [|done]. eapply Forall_impl; [done|]. intros s. by apply shard_ok_mono.
Qed.

Lemma update_state c id0 s s' ps n id :
  shards_ c !! get_shard_index c id0 = Some s ->
  state_of (mkCache (shard_capacity_ c) (ttl_ c) (num_shards_ c) (shard_mask_ c)
              (<[get_shard_index c id0 := s']> (shards_ c)) ps n) id
  = if decide (get_shard_index c id = get_shard_index c id0) then shard_state s' id else state_of c id.
Proof.
  intros Hs. unfold state_of. change (get_shard_index (mkCache _ _ _ _ _ _ _) id) with (get_shard_index c id).
  cbn. case_decide as Hi.
  - rewrite Hi, list_lookup_insert_eq by (by eapply lookup_lt_Some). done.
  - by rewrite list_lookup_insert_ne by done.
Qed.

Lemma state_of_shard c id s : shards_ c !! get_shard_index c id = Some s -> state_of c id = shard_state s id.
Proof. unfold state_of. by intros ->. Qed.

Lemma committed_of_ext s s' id :
  shard_wf s -> shard_wf s' ->
  (forall e, ce_event_id e = id -> e ∈ (committed_lru_list s).*2 <-> e ∈ (committed_lru_list s').*2) ->
  committed_of s id = committed_of s' id.
Proof.
  intros Hs Hs' Hext. apply option_eq. intros e. rewrite !committed_of_spec by done. naive_solver.
Qed.

Lemma committed_of_map s id : shard_wf s -> committed_of s id = None <-> committed_map s !! id = None.
Proof.
  intros Hwf. unfold committed_of. destruct (committed_map s !! id) as [it|] eqn:Hit; [|done].
  destruct (iterator_valid s id it Hwf Hit) as (e & He & _). cbn. by rewrite He.
Qed.

(** ** The effect of a call on every event *)

Inductive DedupCall :=
  | TryAcquire (id : EventId) (fp : EventPayloadFingerprint) (now : Z)
  | MarkCommitted (id : EventId) (received_at now : Z)
  | RollbackInFlight (id : EventId) (failure_result : PersistAckResult)
  | EvictExpired (now : Z).

(** A call on the cache, with the answer of [try_acquire]. *)
Definition call (op : DedupCall) (c : BoundedDeduplicationCache)
    : option (option DedupAcquireResult * BoundedDeduplicationCache) :=
  match op with
  | TryAcquire id fp now => r ← try_acquire id fp now c; Some (Some r.1, r.2)
  | MarkCommitted id received now => c' ← mark_committed id received now c; Some (None, c')
  | RollbackInFlight id failure => c' ← rollback_in_flight id failure c; Some (None, c')
  | EvictExpired now => Some (None, (evict_expired now c).1)
  end.

(** The event a call names; [EvictExpired] concerns them all. *)
Definition subject (op : DedupCall) : option EventId :=
  match op with
  | TryAcquire id _ _ | MarkCommitted id _ _ | RollbackInFlight id _ => Some id
  | EvictExpired _ => None
  end.

Definition concerns (op : DedupCall) (id : EventId) : Prop := from_option (eq id) True (subject op).

(** The specification: what the call does to an event it concerns. *)
Definition spec_state (ttl : Z) (fresh : nat) (op : DedupCall) (st : DedupState) : DedupState :=
  match op, st with
  | TryAcquire _ fp _, Unseen => InFlight fp fresh
  | TryAcquire _ fp now, Committed e => if ce_expires_at e <=? now then InFlight fp fresh else st
  | MarkCommitted id received now, InFlight fp _ => Committed (mkCommitted id fp received (now + ttl))
  | RollbackInFlight _ _, InFlight _ _ => Unseen
  | EvictExpired now, Committed e => if ce_expires_at e <=? now then Unseen else st
  | _, _ => st
  end.

(** What [try_acquire] answers. *)
Definition spec_answer (fresh : nat) (fp : EventPayloadFingerprint) (now : Z) (st : DedupState) : DedupAcquireResult :=
  let acquired := mkAcquire AcquiredNewInFlight 0 (Some fresh) (Some fresh) in
  match st with
  | Unseen => acquired
  | InFlight fp' p =>
      if bool_decide (fp' <> fp) then only_decision PayloadConflict else mkAcquire CoalescedInFlight 0 (Some p) None
  | Committed e =>
      if ce_expires_at e <=? now then acquired
      else if bool_decide (ce_fingerprint e <> fp) then only_decision PayloadConflict
      else mkAcquire AlreadyCommitted (ce_received_at e) None None
  end.

(** The promise store after a call: acquiring adds a pending promise, settling
    fulfils the one of the event. *)
Definition spec_promises (op : DedupCall) (st : DedupState) (ps : list (option PersistAckResult))
    : list (option PersistAckResult) :=
  match op, st with
  | TryAcquire _ _ _, Unseen => ps ++ [None]
  | TryAcquire _ _ now, Committed e => if ce_expires_at e <=? now then ps ++ [None] else ps
  | MarkCommitted id received _, InFlight _ p =>
      set_value p (mkAck DuplicateCoalesced id received EmptyString EmptyString) ps
  | RollbackInFlight _ failure, InFlight _ p => set_value p failure ps
  | _, _ => ps
  end.

(** A call that meets its specification: the state of the events it concerns, the
    promises and the answer follow the specification; any other event keeps its state,
    but a commit may evict the least recently used committed entries of its shard. *)
Record call_meets_spec (op : DedupCall) (c : BoundedDeduplicationCache) (r : option DedupAcquireResult)
    (c' : BoundedDeduplicationCache) : Prop := {
  cm_struct : cache_struct c';
  cm_config : ttl_ c' = ttl_ c /\ shard_capacity_ c' = shard_capacity_ c /\ num_shards_ c' = num_shards_ c;
  cm_concerned : forall id, concerns op id ->
    state_of c' id = spec_state (ttl_ c) (length (promises c)) op (state_of c id);
  cm_others : forall id, ~ concerns op id -> state_of c' id <> state_of c id ->
    (exists id' received now, op = MarkCommitted id' received now) /\
    (exists e, state_of c id = Committed e) /\ state_of c' id = Unseen;
  cm_promises : promises c' = from_option (fun id => spec_promises op (state_of c id) (promises c)) (promises c) (subject op);
  cm_answer : forall id fp now, op = TryAcquire id fp now ->
    r = Some (spec_answer (length (promises c)) fp now (state_of c id)) }.

Section calls.
Context (c : BoundedDeduplicationCache) (Hc : cache_struct c).

(** A new in-flight entry leaves the committed entries alone. *)
Lemma inspect_in_flight_ok id fp now s0 s r c' :
  shards_ c !! get_shard_index c id = Some s0 ->
  shard_ok (shard_capacity_ c) (next_node c) s ->
  in_flight_map s = in_flight_map s0 -> committed_map s !! id = None ->
  (forall id', id' <> id -> shard_state s id' = shard_state s0 id') ->
  spec_state (ttl_ c) (length (promises c)) (TryAcquire id fp now) (state_of c id)
    = spec_state (ttl_ c) (length (promises c)) (TryAcquire id fp now) (shard_state s id) ->
  spec_promises (TryAcquire id fp now) (state_of c id) (promises c)
    = spec_promises (TryAcquire id fp now) (shard_state s id) (promises c) ->
  spec_answer (length (promises c)) fp now (state_of c id)
    = spec_answer (length (promises c)) fp now (shard_state s id) ->
  inspect_in_flight (get_shard_index c id) s id fp c = (r, c') ->
  call_meets_spec (TryAcquire id fp now) c (Some r) c'.
Proof.
  intros Hs0 Hok Hif Hnone Hother Hst Hps Han. unfold inspect_in_flight.
  assert (Hcom : committed_of s id = None) by (by apply committed_of_map; [apply Hok|]).
  destruct (in_flight_map s !! id) as [entry|] eqn:Hin; intros Hr.
  - assert (Hnew : shard_state s id = InFlight (if_fingerprint entry) (if_promise entry))
      by (unfold shard_state; by rewrite Hin).
    rewrite Hnew in Hst, Hps, Han.
    assert (c' = set_shard (get_shard_index c id) s c) as -> by (by destruct (bool_decide _); injection Hr).
    constructor.
    + by apply update_struct.
    + done.
    + intros ? ->. unfold set_shard. rewrite (update_state _ _ _ _ _ _ _ Hs0), decide_True by done.
      by rewrite Hst, Hnew.
    + intros id' Hne. unfold set_shard. rewrite (update_state _ _ _ _ _ _ _ Hs0). destruct (decide (_ = get_shard_index c id)) as [Hi|Hi]; [|congruence].
      intros []. rewrite (Hother id' Hne). symmetry. apply state_of_shard. by rewrite Hi.
    + done.
    + intros ? ? ? [= <- <- <-]. rewrite Han. cbn. by destruct (bool_decide _); injection Hr as <-.
  - injection Hr as <- <-.
    assert (Hnew : shard_state s id = Unseen) by (unfold shard_state; by rewrite Hin, Hcom).
    rewrite Hnew in Hst, Hps, Han. constructor.
    + apply update_struct; [done..|]. destruct Hok as [Hwf Hnodes Hsize Hdis].
      constructor; [by destruct Hwf; constructor|done|done|]. cbn. intros id'.
      destruct (decide (id' = id)) as [->|]; [done|]. rewrite lookup_insert_ne by done. apply Hdis.
    + done.
    + intros ? ->. rewrite (update_state _ _ _ _ _ _ _ Hs0), decide_True by done.
      rewrite Hst. unfold shard_state. cbn. by rewrite lookup_insert_eq.
    + intros id' Hne. rewrite (update_state _ _ _ _ _ _ _ Hs0). destruct (decide (_ = get_shard_index c id)) as [Hi|Hi]; [|congruence].
      intros []. transitivity (shard_state s id').
      * unfold shard_state at 1. cbn. by rewrite lookup_insert_ne by done.
      * rewrite (Hother id' Hne). symmetry. apply state_of_shard. by rewrite Hi.
    + done.
    + intros ? ? ? [= <- <- <-]. by rewrite Han.
Qed.

(** Settling an event that is not in flight is no step. *)
Lemma settle_noop op id :
  (exists received now, op = MarkCommitted id received now) \/ (exists failure, op = RollbackInFlight id failure) ->
  (forall fp p, state_of c id <> InFlight fp p) -> call_meets_spec op c None c.
Proof.
  intros Hop Hno.
  assert (Hsub : subject op = Some id) by (by destruct Hop as [(? & ? & ->)|(? & ->)]).
  assert (Hsame : state_of c id = spec_state (ttl_ c) (length (promises c)) op (state_of c id) /\
                  promises c = spec_promises op (state_of c id) (promises c)).
  { destruct (state_of c id) as [|fp p|e]; [|by destruct (Hno fp p)|];
      by destruct Hop as [(? & ? & ->)|(? & ->)]. }
  destruct Hsame as [H1 H2]. constructor; [done|done| |naive_solver| |].
  - unfold concerns. rewrite Hsub. by intros ? ->.
  - by rewrite Hsub.
  - intros ??? ->. by destruct Hop as [(? & ? & [=])|(? & [=])].
Qed.

Lemma try_acquire_ok id fp now :
  exists r c', try_acquire id fp now c = Some (r, c') /\ call_meets_spec (TryAcquire id fp now) c (Some r) c'.
Proof.
  destruct (shard_lookup c id Hc) as [s Hs]. pose proof (shard_at_ok c _ s Hc Hs) as Hok.
  pose proof (so_wf _ _ _ Hok) as Hwf. unfold try_acquire. rewrite Hs. cbn [mbind option_bind].
  pose proof (state_of_shard c id s Hs) as Hst.
  destruct (committed_map s !! id) as [it|] eqn:Hit.
  2:{ destruct (inspect_in_flight _ _ _ _ _) as [r c'] eqn:Hr. exists r, c'. split; [done|].
      by eapply inspect_in_flight_ok; try done; rewrite Hst. }
  destruct (iterator_valid s id it Hwf Hit) as (e & He & Hin & Hid). rewrite He. cbn [mbind option_bind].
  assert (Hidle : in_flight_map s !! id = None).
  { destruct (in_flight_map s !! id) eqn:Hf; [|done].
    pose proof (so_disjoint _ _ _ Hok id ltac:(by rewrite Hf)). congruence. }
  assert (Hcom : state_of c id = Committed e).
  { rewrite Hst. unfold shard_state, committed_of. rewrite Hidle, Hit. cbn. by rewrite He. }
  destruct (ce_expires_at e <=? now) eqn:Hexp; [|destruct (bool_decide (ce_fingerprint e <> fp)) eqn:Hfp].
  - destruct (inspect_in_flight _ _ _ _ _) as [r c'] eqn:Hr. exists r, c'. split; [done|].
    destruct (erase_committed_wf id it s Hwf Hit) as [Hwf' Hel].
    assert (Hnone : committed_map (erase_committed id it s) !! id = None) by apply lookup_delete_eq.
    assert (Hnew : shard_state (erase_committed id it s) id = Unseen).
    { unfold shard_state. apply committed_of_map in Hnone; [|done]. by rewrite Hnone; cbn; rewrite Hidle. }
    apply (inspect_in_flight_ok id fp now s (erase_committed id it s)); try done.
    + destruct Hok as [_ Hnodes Hsize Hdis]. constructor; [done| | |].
      * intros n ([m e'] & -> & [_ Hm]%elem_lru_erase)%list_elem_of_fmap. apply Hnodes, list_elem_of_fmap. eauto.
      * cbn. rewrite map_size_delete, Hit. lia.
      * cbn. intros id' Hf%Hdis. rewrite lookup_delete_None. by right.
    + intros id' Hne. unfold shard_state. cbn.
      rewrite (committed_of_ext (erase_committed id it s) s id' Hwf' Hwf); [done|].
      intros e' <-. rewrite Hel. naive_solver.
    + rewrite Hnew, Hcom. cbn. by rewrite Hexp.
    + rewrite Hnew, Hcom. cbn. by rewrite Hexp.
    + rewrite Hnew, Hcom. cbn. by rewrite Hexp.
  - eexists _, c. split; [done|]. constructor; [done|done| |naive_solver| |].
    + intros ? ->. rewrite Hcom. cbn. by rewrite Hexp.
    + cbn. rewrite Hcom. by rewrite Hexp.
    + intros ??? [= <- <- <-]. rewrite Hcom. cbn. by rewrite Hexp, Hfp.
  - eexists _, _. split; [done|]. destruct (promote_wf id it e s Hwf Hit He) as (Hwf' & Hel & Hlen & Hn).
    assert (Hsame : forall id', shard_state (promote it e s) id' = shard_state s id').
    { intros id'. unfold shard_state. cbn.
      rewrite (committed_of_ext (promote it e s) s id' Hwf' Hwf); [done|]. intros e' _. apply Hel. }
    assert (Hall : forall id', state_of (set_shard (get_shard_index c id) (promote it e s) c) id' = state_of c id').
    { intros id'. unfold set_shard. rewrite (update_state _ _ _ _ _ _ _ Hs). destruct (decide (_ = get_shard_index c id)) as [Hi|Hi]; [|done].
      rewrite Hsame. symmetry. apply state_of_shard. by rewrite Hi. }
    constructor; [|done| | | |].
    + apply update_struct; [done..|]. destruct Hok as [_ Hnodes Hsize Hdis]. constructor; [done| | |done].
      * intros n Hn'. by apply Hnodes, Hn.
      * done.
    + intros ? ->. rewrite Hall, Hcom. cbn. by rewrite Hexp.
    + intros id' _ []. apply Hall.
    + cbn. rewrite Hcom. by rewrite Hexp.
    + intros ??? [= <- <- <-]. rewrite Hcom. cbn. by rewrite Hexp, Hfp.
Qed.

Lemma mark_committed_ok id received now :
  exists c', mark_committed id received now c = Some c' /\ call_meets_spec (MarkCommitted id received now) c None c'.
Proof.
  destruct (shard_lookup c id Hc) as [s Hs]. pose proof (shard_at_ok c _ s Hc Hs) as Hok.
  pose proof (so_wf _ _ _ Hok) as Hwf. unfold mark_committed. rewrite Hs. cbn [mbind option_bind].
  pose proof (state_of_shard c id s Hs) as Hst.
  destruct (in_flight_map s !! id) as [entry|] eqn:Hin.
  2:{ exists c. split; [done|]. apply (settle_noop _ id); [eauto|]. intros fp p. rewrite Hst.
      unfold shard_state. rewrite Hin. by destruct (committed_of s id). }
  eexists. split; [reflexivity|].
  set (e := mkCommitted id (if_fingerprint entry) received (now + ttl_ c)).
  set (s1 := mkShard (delete id (in_flight_map s)) (committed_lru_list s) (committed_map s)).
  assert (Hwf1 : shard_wf s1) by (destruct Hwf; by constructor).
  destruct (commit_entry_wf (next_node c) e s1 Hwf1) as (Hwf2 & Hif2 & l & Hl2 & Hsub & Hel2).
  { intros Hn. apply (so_nodes _ _ _ Hok) in Hn. lia. }
  set (s2 := commit_entry (next_node c) e s1) in *.
  pose proof (cs_cap _ Hc) as Hcap.
  destruct (evict_lru_spec (S (length (committed_lru_list s2))) (shard_capacity_ c) s2) as (Hwf3 & Hif3 & Hl3 & Hsize3);
    [lia|done|lia|].
  set (s3 := evict_lru _ _ s2) in *.
  assert (Hl3' : exists k, committed_lru_list s3 = (next_node c, e) :: take k l).
  { rewrite Hl3, Hl2. exists (pred (Z.to_nat (shard_capacity_ c))). destruct (Z.to_nat (shard_capacity_ c)) eqn:Hz; [lia|done]. }
  destruct Hl3' as [k Hl3'].
  assert (Hkept : forall e', e' ∈ (take k l).*2 -> e' ∈ (committed_lru_list s).*2 /\ ce_event_id e' <> id).
  { intros e' He'. apply Hel2. rewrite <- (take_drop k l), fmap_app. apply elem_of_app. by left. }
  assert (Hif : in_flight_map s3 = delete id (in_flight_map s)) by by rewrite Hif3, Hif2.
  constructor; [|done| | | |done].
  - apply update_struct; [done|lia|]. constructor; [done| |done|].
    + intros n. rewrite Hl3'. cbn. intros [->|Hn]%elem_of_cons; [lia|].
      apply list_elem_of_fmap in Hn as (ne & -> & Hne). enough (ne.1 < next_node c)%nat by lia.
      apply (so_nodes _ _ _ Hok), list_elem_of_fmap. exists ne. split; [done|].
      eapply elem_of_submseteq; [exact Hne|]. etrans; [apply sublist_submseteq, sublist_take|by apply sublist_submseteq].
    + intros id'. rewrite Hif. intros [a Ha]. apply lookup_delete_Some in Ha as [Hne Ha].
      apply committed_of_map; [done|]. apply eq_None_not_Some. intros [e' [Hid' He']%committed_of_spec]; [|done].
      rewrite Hl3' in He'. cbn in He'. apply elem_of_cons in He' as [->|He']; [done|].
      apply Hkept in He' as [He' _]. assert (committed_of s id' = Some e') as Hco by (by apply committed_of_spec).
      pose proof (so_disjoint _ _ _ Hok id' ltac:(by rewrite Ha)) as Hd. apply committed_of_map in Hd; [congruence|done].
  - intros ? ->. rewrite (update_state _ _ _ _ _ _ _ Hs), decide_True by done.
    assert (Hco : committed_of s3 id = Some e).
    { apply committed_of_spec; [done|]. rewrite Hl3'. split; [done|left]. }
    rewrite Hst. unfold shard_state. by rewrite Hin, Hif, lookup_delete_eq, Hco.
  - intros id' Hne. change (id' <> id) in Hne. rewrite (update_state _ _ _ _ _ _ _ Hs).
    destruct (decide (_ = get_shard_index c id)) as [Hi|Hi]; [|congruence]. assert (Hs' : state_of c id' = shard_state s id') by (apply state_of_shard; by rewrite Hi).
    rewrite Hs'. unfold shard_state. rewrite Hif, lookup_delete_ne by done.
    destruct (in_flight_map s !! id') eqn:Hf; [by intros []|]. intros Hdiff. split; [eauto|].
    destruct (committed_of s3 id') as [e'|] eqn:He3.
    + destruct Hdiff. apply committed_of_spec in He3 as [Hid' He3]; [|done]. rewrite Hl3' in He3. cbn in He3.
      apply elem_of_cons in He3 as [->|He3]; [by destruct Hne|]. apply Hkept in He3 as [He3 _].
      assert (committed_of s id' = Some e') as -> by (by apply committed_of_spec). done.
    + destruct (committed_of s id') as [e'|] eqn:He; [eauto|done].
  - cbn. rewrite Hst. unfold shard_state. by rewrite Hin.
Qed.

Lemma rollback_in_flight_ok id failure :
  exists c', rollback_in_flight id failure c = Some c' /\ call_meets_spec (RollbackInFlight id failure) c None c'.
Proof.
  destruct (shard_lookup c id Hc) as [s Hs]. pose proof (shard_at_ok c _ s Hc Hs) as Hok.
  unfold rollback_in_flight. rewrite Hs. cbn [mbind option_bind].
  pose proof (state_of_shard c id s Hs) as Hst.
  destruct (in_flight_map s !! id) as [entry|] eqn:Hin.
  2:{ exists c. split; [done|]. apply (settle_noop _ id); [eauto|]. intros fp p. rewrite Hst.
      unfold shard_state. rewrite Hin. by destruct (committed_of s id). }
  eexists. split; [reflexivity|].
  set (s1 := mkShard (delete id (in_flight_map s)) (committed_lru_list s) (committed_map s)).
  assert (Hco : forall id', committed_of s1 id' = committed_of s id') by done.
  constructor; [|done| | | |done].
  - apply update_struct; [done..|]. destruct Hok as [Hwf Hnodes Hsize Hdis].
    constructor; [by destruct Hwf; constructor|done|done|]. intros id' [a Ha]. cbn in *.
    apply lookup_delete_Some in Ha as [_ Ha]. apply Hdis. by rewrite Ha.
  - intros ? ->. rewrite (update_state _ _ _ _ _ _ _ Hs), decide_True by done.
    assert (Hnone : committed_of s1 id = None).
    { rewrite Hco. apply committed_of_map; [apply Hok|]. apply (so_disjoint _ _ _ Hok). by rewrite Hin. }
    rewrite Hst. unfold shard_state. rewrite Hin, Hnone. cbn. by rewrite lookup_delete_eq.
  - intros id' Hne Hdiff. destruct Hdiff. rewrite (update_state _ _ _ _ _ _ _ Hs).
    destruct (decide (_ = get_shard_index c id)) as [Hi|Hi]; [|done].
    rewrite (state_of_shard c id' s) by by rewrite Hi. unfold shard_state. rewrite Hco. cbn.
    by rewrite lookup_delete_ne by done.
  - cbn. rewrite Hst. unfold shard_state. by rewrite Hin.
Qed.

Lemma evict_shard_ok now s :
  shard_ok (shard_capacity_ c) (next_node c) s ->
  shard_ok (shard_capacity_ c) (next_node c) (evict_shard now s).1 /\
  in_flight_map (evict_shard now s).1 = in_flight_map s /\
  committed_lru_list (evict_shard now s).1 = filter (fun ne => now < ce_expires_at ne.2) (committed_lru_list s).
Proof.
  intros [Hwf Hnodes Hsize Hdis]. unfold evict_shard.
  destruct (evict_walk now (committed_lru_list s) (committed_map s)) as [[kept m] count] eqn:Hw.
  destruct (evict_walk_spec now s kept m count Hwf Hw) as [-> Hwf']. split_and!; [|done..]. constructor; [done| | |].
  - intros n ([n' e] & -> & [_ Hin]%list_elem_of_filter)%list_elem_of_fmap. apply Hnodes, list_elem_of_fmap. eauto.
  - rewrite shard_size in Hsize |- * by done. cbn [committed_lru_list fst].
    pose proof (length_filter (fun ne : nat * CommittedEntry => now < ce_expires_at ne.2) (committed_lru_list s)). lia.
  - intros id Hif. apply committed_of_map; [done|]. apply eq_None_not_Some. intros [e [Hid He]%committed_of_spec]; [|done].
    cbn in Hif, He. apply list_elem_of_fmap in He as (ne & -> & [_ Hin]%list_elem_of_filter).
    assert (Hcom : committed_of s id = Some ne.2).
    { apply committed_of_spec; [done|]. split; [done|]. apply list_elem_of_fmap. eauto. }
    apply Hdis, committed_of_map in Hif; [congruence|done].
Qed.

Lemma evict_expired_ok now : call_meets_spec (EvictExpired now) c None (evict_expired now c).1.
Proof.
  constructor; [|done| | |done|done].
  - destruct Hc. constructor; cbn; [by rewrite length_fmap|done..|]. apply Forall_fmap.
    eapply Forall_impl; [done|]. intros s Hs. by apply evict_shard_ok.
  - intros id _. unfold state_of. change (get_shard_index _ id) with (get_shard_index c id) at 1.
    cbn. rewrite list_lookup_fmap. destruct (shard_lookup c id Hc) as [s Hs]. rewrite Hs. cbn.
    pose proof (shard_at_ok c _ s Hc Hs) as Hok. destruct (evict_shard_ok now s Hok) as (Hok' & Hif & Hl).
    unfold shard_state. rewrite Hif. destruct (in_flight_map s !! id); [done|].
    destruct (committed_of (evict_shard now s).1 id) as [e'|] eqn:He'.
    + apply committed_of_spec in He' as [Hid He']; [|apply Hok']. rewrite Hl in He'.
      apply list_elem_of_fmap in He' as (ne & -> & [Hlive Hin]%list_elem_of_filter).
      assert (committed_of s id = Some ne.2) as ->.
      { apply committed_of_spec; [apply Hok|]. split; [done|]. apply list_elem_of_fmap. eauto. }
      by rewrite (proj2 (Z.leb_gt _ _) Hlive).
    + destruct (committed_of s id) as [e|] eqn:He; [|done].
      destruct (Z.leb_spec (ce_expires_at e) now) as [|Hlive]; [done|].
      apply committed_of_spec in He as [Hid He]; [|apply Hok].
      assert (committed_of (evict_shard now s).1 id = Some e); [|congruence].
      apply committed_of_spec; [apply Hok'|]. split; [done|]. rewrite Hl.
      apply list_elem_of_fmap in He as (ne & -> & Hin). apply list_elem_of_fmap. exists ne. split; [done|].
      by apply list_elem_of_filter.
  - intros id H. by destruct H.
Qed.

Lemma call_ok op : exists r c', call op c = Some (r, c') /\ call_meets_spec op c r c'.
Proof.
  destruct op as [id fp now|id received now|id failure|now]; cbn [call].
  - destruct (try_acquire_ok id fp now) as (r & c' & -> & H). eauto.
  - destruct (mark_committed_ok id received now) as (c' & -> & H). eauto.
  - destruct (rollback_in_flight_ok id failure) as (c' & -> & H). eauto.
  - eexists _, _. split; [done|]. apply evict_expired_ok.
Qed.

End calls.

Arguments call : simpl never.

(** ** Sequences of calls *)

Fixpoint run (ops : list DedupCall) (c : BoundedDeduplicationCache) : option BoundedDeduplicationCache :=
  match ops with
  | [] => Some c
  | op :: ops => r ← call op c; run ops r.2
  end.

Lemma set_value_lookup p q ack ps :
  set_value p ack ps !! q = if decide (p = q) then (match ps !! p with Some None => Some (Some ack) | o => o end) else ps !! q.
Proof.
  unfold set_value. destruct (ps !! p) as [[a|]|] eqn:Hp.
  - case_decide as H; [by rewrite <- H, Hp|done].
  - case_decide as H; [rewrite <- H|by rewrite list_lookup_insert_ne].
    by rewrite list_lookup_insert_eq by (by eapply lookup_lt_Some).
  - case_decide as H; [by rewrite <- H, Hp|done].
Qed.

(** A fulfilled promise keeps its value, and a pending one is fulfilled only by
    settling the event that owns it. *)
Lemma spec_promises_lookup op st ps p v :
  ps !! p = Some v ->
  v <> None \/ ((forall id fp now, op <> TryAcquire id fp now) -> forall fp, st <> InFlight fp p) ->
  spec_promises op st ps !! p = Some v.
Proof.
  intros Hp Hv.
  assert (Hset : forall q ack fp, (forall id fp now, op <> TryAcquire id fp now) -> st = InFlight fp q ->
            set_value q ack ps !! p = Some v).
  { intros q ack fp Hop Hst. rewrite set_value_lookup. case_decide as Hq; [|done]. rewrite Hq, Hp.
    destruct v; [done|]. destruct Hv as [[]|Hv]; [done|]. subst q. by destruct (Hv Hop fp). }
  assert (Happ : (ps ++ [None]) !! p = Some v) by by apply lookup_app_l_Some.
  destruct op, st; cbn; eauto; by destruct (_ <=? _).
Qed.

(** Where an event in flight after a call comes from. *)
Lemma in_flight_origin op c r c' id fp p :
  call_meets_spec op c r c' -> state_of c' id = InFlight fp p ->
  state_of c id = InFlight fp p \/
  ((exists now, op = TryAcquire id fp now) /\ p = length (promises c) /\ promises c' = promises c ++ [None]).
Proof.
  intros [_ _ Hst Hoth Hps _] Hid. destruct (decide (state_of c' id = state_of c id)) as [Heq|Hne]; [left; congruence|].
  destruct (decide (subject op = None \/ subject op = Some id)) as [Hsub|Hsub].
  - assert (Hcon : concerns op id) by (unfold concerns; destruct Hsub as [->| ->]; done).
    rewrite (Hst id Hcon) in Hid, Hne.
    destruct op as [id' fp' now|id' rec now|id' fail|now]; cbn in Hsub; try (destruct Hsub as [[=]|[= ->]]);
      destruct (state_of c id) as [| |e] eqn:He; cbn in *; try done; try (destruct (ce_expires_at e <=? now) eqn:Hx); try done.
    all: injection Hid as -> <-; right; split_and!; [eauto|done|]; by rewrite Hps, He, ?Hx.
  - destruct (Hoth id) as (_ & _ & Hun); [|done|congruence].
    unfold concerns. destruct (subject op) as [id'|]; cbn; [naive_solver|tauto].
Qed.

Lemma promises_grow op c r c' : call_meets_spec op c r c' -> (length (promises c) <= length (promises c'))%nat.
Proof.
  intros Hm. rewrite (cm_promises _ _ _ _ Hm).
  assert (Hset : forall p ack ps, length (set_value p ack ps) = length ps).
  { intros p ack ps. unfold set_value. destruct (ps !! p) as [[]|]; rewrite ?length_insert; done. }
  destruct op as [id fp now|id rec now|id fail|now]; cbn; [..|lia];
    destruct (state_of c id) as [| |e]; cbn; rewrite ?Hset, ?length_app; try (destruct (ce_expires_at e <=? now));
    rewrite ?length_app; cbn; lia.
Qed.

Lemma call_wf op c r c' : cache_wf c -> call_meets_spec op c r c' -> cache_wf c'.
Proof.
  intros [Hs Hpend Hown] Hm. pose proof (in_flight_origin op c r c') as Horig.
  assert (Hlt : forall id fp p, state_of c id = InFlight fp p -> (p < length (promises c))%nat).
  { intros id fp p H. by eapply lookup_lt_Some, Hpend. }
  constructor; [apply Hm| |].
  - intros id fp p Hid. destruct (Horig id fp p Hm Hid) as [Hold|(_ & -> & ->)].
    2:{ by apply list_lookup_middle. }
    rewrite (cm_promises _ _ _ _ Hm). destruct (subject op) as [id'|] eqn:Hsub; cbn; [|by eapply Hpend].
    apply spec_promises_lookup; [by eapply Hpend|]. right. intros Hop fp' Hid'.
    assert (id = id') as <- by by eapply Hown.
    assert (Hcon : concerns op id) by (unfold concerns; by rewrite Hsub).
    pose proof (cm_concerned _ _ _ _ Hm id Hcon) as Hst. rewrite Hid, Hold in Hst.
    by destruct op; try done; destruct (Hop _ _ _ eq_refl).
  - intros id id' fp fp' p Hid Hid'.
    destruct (Horig id fp p Hm Hid) as [H1|((? & H1) & Hp & _)], (Horig id' fp' p Hm Hid') as [H2|((? & H2) & Hp' & _)].
    + by eapply Hown.
    + apply Hlt in H1. lia.
    + apply Hlt in H2. lia.
    + congruence.
Qed.

Lemma run_wf ops c : cache_wf c -> exists c', run ops c = Some c' /\ cache_wf c'.
Proof.
  revert c. induction ops as [|op ops IH]; intros c Hc; [by eexists|].
  destruct (call_ok c (cw_struct _ Hc) op) as (r & c1 & Hcall & Hm). cbn. rewrite Hcall. cbn.
  apply IH. by eapply call_wf.
Qed.

(** The clauses of [run] as an induction rule for what calls preserve. *)
Lemma run_preserves (I : BoundedDeduplicationCache -> Prop) (ok : DedupCall -> Prop) ops c c' :
  (forall op c r c', cache_wf c -> ok op -> I c -> call_meets_spec op c r c' -> I c') ->
  cache_wf c -> Forall ok ops -> I c -> run ops c = Some c' -> I c' /\ cache_wf c'.
Proof.
  intros Hstep Hc Hok. revert c Hc. induction Hok as [|op ops Hop _ IH]; intros c Hc HI; cbn.
  - by intros [= <-].
  - destruct (call_ok c (cw_struct _ Hc) op) as (r & c1 & -> & Hm). cbn. apply IH; [by eapply call_wf|by eapply Hstep].
Qed.

Lemma new_cache_wf capacity ttl num_shards :
  0 <= capacity < 2 ^ 32 -> 0 <= num_shards <= 2 ^ 31 -> cache_wf (BoundedDeduplicationCache_new capacity ttl num_shards).
Proof.
  intros Hcap Hn.
  assert (Hempty : forall id, state_of (BoundedDeduplicationCache_new capacity ttl num_shards) id = Unseen).
  { intros id. unfold state_of. cbn. destruct (_ !! _) as [s|] eqn:Hs; [|done].
    apply lookup_replicate in Hs as [-> _]. done. }
  constructor; [|intros id fp p; by rewrite Hempty|intros id id' fp fp' p; by rewrite Hempty].
  set (m := if num_shards =? 0 then 1 else num_shards).
  pose proof (Z.log2_up_nonneg m) as Hk.
  assert (Hpos : 0 < bit_ceil m) by (apply Z.pow_pos_nonneg; lia).
  constructor; cbn; fold m.
  - rewrite length_replicate. lia.
  - done.
  - by exists (Z.log2_up m).
  - lia.
  - apply Forall_replicate. constructor; cbn.
    + constructor; cbn; [constructor|]. intros id n. rewrite lookup_empty. split; [done|].
      intros (e & Hin & _). by apply not_elem_of_nil in Hin.
    + intros n Hin. by apply not_elem_of_nil in Hin.
    + rewrite map_size_empty. lia.
    + intros id _. apply lookup_empty.
Qed.

(** ** Claims *)

(** From a fresh cache, whatever calls are made, no call dereferences a dangling
    iterator or indexes a missing shard, the shards stay within their capacity, and
    the next call moves every event along its life cycle (unseen, in flight, committed,
    expired or evicted) and answers as the specification says. *)
Theorem dedup_refines_lifecycle (capacity ttl num_shards : Z) (ops : list DedupCall) (op : DedupCall)
    (Hcap : 0 <= capacity < 2 ^ 32) (Hshards : 0 <= num_shards <= 2 ^ 31) :
  exists c r c',
    run ops (BoundedDeduplicationCache_new capacity ttl num_shards) = Some c /\
    call op c = Some (r, c') /\ call_meets_spec op c r c' /\
    Forall (fun s => Z.of_nat (size (committed_map s)) <= shard_capacity_ c) (shards_ c).
Proof.
  destruct (run_wf ops _ (new_cache_wf capacity ttl num_shards Hcap Hshards)) as (c & Hrun & Hwf).
  destruct (call_ok c (cw_struct _ Hwf) op) as (r & c' & Hcall & Hm). exists c, r, c'. split_and!; [done..|].
  eapply Forall_impl; [apply (cs_shards _ (cw_struct _ Hwf))|]. by intros s [].
Qed.

(** Two ids that differ in their last byte. *)
Definition sample_id (b : Z) : EventId := mkEventId (replicate 6 0 ++ [112; 0; 128; 0; 0; 0; 0; 0; 0; b]).

Lemma dedup_refines_lifecycle_witness :
  exists c r c',
    run [TryAcquire (sample_id 1) [9] 0; MarkCommitted (sample_id 1) 5 0] (BoundedDeduplicationCache_new 4 100 2) = Some c /\
    call (TryAcquire (sample_id 1) [9] 50) c = Some (r, c') /\
    call_meets_spec (TryAcquire (sample_id 1) [9] 50) c r c' /\
    Forall (fun s => Z.of_nat (size (committed_map s)) <= shard_capacity_ c) (shards_ c).
Proof. apply (dedup_refines_lifecycle 4 100 2); lia. Defined.

(** [settles id op]: the call ends the flight of [id]. *)
Definition settles (id : EventId) (op : DedupCall) : Prop :=
  match op with
  | MarkCommitted id' _ _ | RollbackInFlight id' _ => id' = id
  | _ => False
  end.

Lemma in_flight_stays ops c c' id fp p :
  cache_wf c -> state_of c id = InFlight fp p -> Forall (fun op => ~ settles id op) ops ->
  run ops c = Some c' -> state_of c' id = InFlight fp p /\ cache_wf c'.
Proof.
  intros Hc Hst Hops. eapply (run_preserves (fun c => state_of c id = InFlight fp p)); [|done..].
  clear. intros op c r c' Hc Hop Hst Hm.
  destruct (decide (state_of c' id = state_of c id)) as [|Hne]; [congruence|].
  destruct (decide (subject op = None \/ subject op = Some id)) as [Hsub|Hsub].
  - assert (Hcon : concerns op id) by (unfold concerns; destruct Hsub as [->| ->]; done).
    rewrite (cm_concerned _ _ _ _ Hm id Hcon), Hst.
    destruct op; cbn in *; try done; destruct Hop; naive_solver.
  - destruct (cm_others _ _ _ _ Hm id) as (_ & (e & He) & _); [|done|congruence].
    unfold concerns. destruct (subject op); cbn; naive_solver.
Qed.

Lemma answered_stays ops c c' p ack :
  cache_wf c -> promises c !! p = Some (Some ack) -> run ops c = Some c' -> promises c' !! p = Some (Some ack).
Proof.
  intros Hc Hp Hrun.
  eapply (run_preserves (fun c => promises c !! p = Some (Some ack)) (fun _ => True)); [|done| |done|done].
  - clear. intros op c r c' Hc _ Hp Hm. rewrite (cm_promises _ _ _ _ Hm).
    destruct (subject op); cbn; [|done]. apply spec_promises_lookup; [done|by left].
  - by apply Forall_true.
Qed.

(** Settling an event in flight fulfils its promise, for good. *)
Lemma settle_answers op c r c' ops c'' id fp p ack :
  cache_wf c -> state_of c id = InFlight fp p -> call_meets_spec op c r c' -> subject op = Some id ->
  spec_promises op (InFlight fp p) (promises c) = set_value p ack (promises c) ->
  run ops c' = Some c'' -> promises c'' !! p = Some (Some ack).
Proof.
  intros Hc Hst Hm Hsub Hspec. apply answered_stays; [by eapply call_wf|].
  rewrite (cm_promises _ _ _ _ Hm), Hsub. cbn. rewrite Hst, Hspec, set_value_lookup, decide_True by done.
  by rewrite (cw_pending _ Hc id fp p Hst).
Qed.

Lemma try_acquire_answer c id fp now :
  cache_wf c -> exists c', try_acquire id fp now c = Some (spec_answer (length (promises c)) fp now (state_of c id), c')
                         /\ cache_wf c'.
Proof.
  intros Hc. destruct (try_acquire_ok c (cw_struct _ Hc) id fp now) as (r & c' & Hr & Hm).
  pose proof (cm_answer _ _ _ _ Hm id fp now eq_refl) as [= ->]. exists c'. split; [done|by eapply call_wf].
Qed.

(** One flight per event: between a call that acquires an event and the call that
    settles it, whatever else happens, nobody acquires the event again; callers with
    the same payload are handed the promise of the first and callers with another
    payload get a conflict.  The call that settles the event, by commit or by
    rollback, answers that promise, and the answer never changes. *)
Theorem dedup_single_flight (c c1 c2 : BoundedDeduplicationCache) (id : EventId) (fp : EventPayloadFingerprint)
    (now : Z) (r : DedupAcquireResult) (ops : list DedupCall)
    (Hwf : cache_wf c) (Hacq : try_acquire id fp now c = Some (r, c1)) (Hown : decision r = AcquiredNewInFlight)
    (Hops : Forall (fun op => ~ settles id op) ops) (Hrun : run ops c1 = Some c2) :
  exists p, primary_promise r = Some p /\
  (forall fp' now', exists c3, try_acquire id fp' now' c2 = Some
     (if bool_decide (fp' = fp) then mkAcquire CoalescedInFlight 0 (Some p) None else only_decision PayloadConflict, c3)) /\
  (forall received now' ops' c4, (c3 ← mark_committed id received now' c2; run ops' c3) = Some c4 ->
     promises c4 !! p = Some (Some (mkAck DuplicateCoalesced id received EmptyString EmptyString))) /\
  (forall failure ops' c4, (c3 ← rollback_in_flight id failure c2; run ops' c3) = Some c4 ->
     promises c4 !! p = Some (Some failure)).
Proof.
  destruct (try_acquire_ok c (cw_struct _ Hwf) id fp now) as (r' & c1' & Hr & Hm).
  rewrite Hacq in Hr. injection Hr as <- <-.
  pose proof (cm_answer _ _ _ _ Hm id fp now eq_refl) as [= Hans].
  pose proof (cm_concerned _ _ _ _ Hm id eq_refl) as Hst1.
  assert (Hfly : state_of c1 id = InFlight fp (length (promises c)) /\ primary_promise r = Some (length (promises c))).
  { subst r. destruct (state_of c id) as [|fp' p|e]; cbn in *; [done| |].
    - by destruct (bool_decide _).
    - destruct (ce_expires_at e <=? now); [done|]. by destruct (bool_decide _). }
  destruct Hfly as [Hfly Hp]. exists (length (promises c)). split; [done|].
  destruct (in_flight_stays ops c1 c2 id fp _ (call_wf _ _ _ _ Hwf Hm) Hfly Hops Hrun) as [Hst2 Hwf2].
  split_and!.
  - intros fp' now'. destruct (try_acquire_answer c2 id fp' now' Hwf2) as (c3 & Hc3 & _). exists c3. rewrite Hc3, Hst2.
    cbn. by repeat case_bool_decide.
  - intros received now' ops' c4 Hrun'. destruct (mark_committed_ok c2 (cw_struct _ Hwf2) id received now') as (c3 & Hc3 & Hm3).
    rewrite Hc3 in Hrun'. by eapply settle_answers.
  - intros failure ops' c4 Hrun'. destruct (rollback_in_flight_ok c2 (cw_struct _ Hwf2) id failure) as (c3 & Hc3 & Hm3).
    rewrite Hc3 in Hrun'. by eapply settle_answers.
Qed.

Lemma dedup_single_flight_witness :
  exists c c1 c2 p, try_acquire (sample_id 1) [9] 0 (BoundedDeduplicationCache_new 4 100 2) = Some (c, c1) /\
    run [TryAcquire (sample_id 2) [7] 0] c1 = Some c2 /\ primary_promise c = Some p.
Proof.
  destruct (try_acquire (sample_id 1) [9] 0 (BoundedDeduplicationCache_new 4 100 2)) as [[r c1]|] eqn:Hacq;
    [|vm_compute in Hacq; discriminate].
  assert (Hwf : cache_wf (BoundedDeduplicationCache_new 4 100 2)) by (apply new_cache_wf; lia).
  destruct (run [TryAcquire (sample_id 2) [7] 0] c1) as [c2|] eqn:Hrun.
  - destruct (dedup_single_flight _ c1 c2 (sample_id 1) [9] 0 r [TryAcquire (sample_id 2) [7] 0] Hwf Hacq) as (p & Hp & _).
    + vm_compute in Hacq. by injection Hacq as <- _.
    + repeat constructor; cbn; tauto.
    + exact Hrun.
    + by exists r, c1, c2, p.
  - exfalso. clear Hwf. vm_compute in Hacq. injection Hacq as <- <-. vm_compute in Hrun. discriminate.
Defined.

(** ** How long a committed event is remembered *)

(** [e] is among the [k] + 1 most recently used entries of its shard. *)
Definition recent (k : nat) (e : CommittedEntry) (l : list (nat * CommittedEntry)) : Prop :=
  exists l1 n l2, l = l1 ++ (n, e) :: l2 /\ (length l1 <= k)%nat.

Definition shard_list (c : BoundedDeduplicationCache) (id : EventId) : list (nat * CommittedEntry) :=
  from_option committed_lru_list [] (shards_ c !! get_shard_index c id).

Lemma recent_filter (P : nat * CommittedEntry -> Prop) `{forall x, base.Decision (P x)} k e l :
  (forall n, (n, e) ∈ l -> P (n, e)) -> recent k e l -> recent k e (filter P l).
Proof.
  intros HP (l1 & n & l2 & -> & Hk). exists (filter P l1), n, (filter P l2).
  rewrite filter_app, filter_cons_True by (apply HP, elem_of_app; right; left). split; [done|].
  pose proof (length_filter P l1). lia.
Qed.

Lemma recent_cons k e x l : recent k e l -> recent (S k) e (x :: l).
Proof. intros (l1 & n & l2 & -> & Hk). exists (x :: l1), n, l2. cbn. split; [done|lia]. Qed.

Lemma recent_take k e m l : (k < m)%nat -> recent k e l -> recent k e (take m l).
Proof.
  intros Hm (l1 & n & l2 & -> & Hk). exists l1, n, (take (m - length l1 - 1) l2). split; [|done].
  rewrite take_app, take_ge by lia. destruct (m - length l1)%nat as [|j] eqn:Hj; [lia|]. cbn. by rewrite Nat.sub_0_r.
Qed.

Lemma recent_weaken k k' e l : (k <= k')%nat -> recent k e l -> recent k' e l.
Proof. intros ? (l1 & n & l2 & -> & ?). exists l1, n, l2. split; [done|lia]. Qed.

Lemma recent_lru_erase k e it l : (it, e) ∉ l -> recent k e l -> recent k e (lru_erase it l).
Proof. intros Hit. apply recent_filter. intros n Hn. cbn. congruence. Qed.

(** The calls after which a committed entry that expires at [t] may still be asked for. *)
Definition before (t : Z) (id : EventId) (op : DedupCall) : Prop :=
  match op with
  | TryAcquire id' _ now => id' = id -> now < t
  | EvictExpired now => now < t
  | _ => True
  end.

Lemma shard_list_update c id0 s' ps n id s :
  shards_ c !! get_shard_index c id0 = Some s ->
  shard_list (mkCache (shard_capacity_ c) (ttl_ c) (num_shards_ c) (shard_mask_ c)
    (<[get_shard_index c id0 := s']> (shards_ c)) ps n) id
  = if decide (get_shard_index c id = get_shard_index c id0) then committed_lru_list s' else shard_list c id.
Proof.
  intros Hs. unfold shard_list. change (get_shard_index (mkCache _ _ _ _ _ _ _) id) with (get_shard_index c id). cbn.
  case_decide as Hi.
  - by rewrite Hi, list_lookup_insert_eq by (by eapply lookup_lt_Some).
  - by rewrite list_lookup_insert_ne by done.
Qed.

Section recency.
Context (c : BoundedDeduplicationCache) (Hc : cache_wf c) (e : CommittedEntry).
#[local] Abbreviation id := (ce_event_id e).
Context (Hcom : state_of c id = Committed e) (k : nat) (Hrec : recent k e (shard_list c id)).

Lemma in_flight_list i s id' fp r c' :
  shards_ c !! get_shard_index c id' = Some s -> i = get_shard_index c id' ->
  forall s', inspect_in_flight i s' id' fp c = (r, c') ->
  shard_list c' id = if decide (get_shard_index c id = i) then committed_lru_list s' else shard_list c id.
Proof.
  intros Hs -> s'. unfold inspect_in_flight.
  destruct (in_flight_map s' !! id') as [entry|]; [destruct (bool_decide _)|]; intros [= _ <-];
    unfold set_shard; by rewrite (shard_list_update _ _ _ _ _ _ _ Hs).
Qed.

(** The shard of [id] and the position of its entry. *)
Lemma own_shard : exists s, shards_ c !! get_shard_index c id = Some s /\ recent k e (committed_lru_list s) /\
  shard_ok (shard_capacity_ c) (next_node c) s /\ in_flight_map s !! id = None.
Proof.
  destruct (shard_lookup c id (cw_struct _ Hc)) as [s Hs]. exists s. split; [done|].
  pose proof Hrec as H. unfold shard_list in H. rewrite Hs in H. split; [done|].
  split; [by eapply shard_at_ok; [apply Hc|]|].
  rewrite (state_of_shard c id s Hs) in Hcom. unfold shard_state in Hcom. by destruct (in_flight_map s !! id).
Qed.

(** What is kept of the position when the shard list does not grow. *)
Lemma recent_keep s : shards_ c !! get_shard_index c id = Some s ->
  recent (S k) e (shard_list c id) /\ shard_list c id = committed_lru_list s.
Proof.
  intros Hs. split; [eapply recent_weaken; [|exact Hrec]; lia|]. unfold shard_list. by rewrite Hs.
Qed.

Lemma try_acquire_recent id' fp now r0 c0 :
  before (ce_expires_at e) id (TryAcquire id' fp now) ->
  try_acquire id' fp now c = Some (r0, c0) -> recent (S k) e (shard_list c0 id).
Proof.
  intros Hbefore Ht. destruct own_shard as (s & Hs & Hr & Hok & Hidle). destruct (recent_keep s Hs) as [Hkeep Hl].
  unfold try_acquire in Ht. destruct (shard_lookup c id' (cw_struct _ Hc)) as [s' Hs']. rewrite Hs' in Ht. cbn in Ht.
  pose proof (shard_at_ok c _ s' (cw_struct _ Hc) Hs') as Hok'.
  destruct (committed_map s' !! id') as [it|] eqn:Hit.
  2:{ injection Ht as Ht. erewrite in_flight_list by done. case_decide as Hi; [|done]. rewrite Hi in Hs. congruence. }
  destruct (iterator_valid s' id' it (so_wf _ _ _ Hok') Hit) as (e' & He' & Hin' & Hid'). rewrite He' in Ht. cbn in Ht.
  destruct (ce_expires_at e' <=? now) eqn:Hexp; [|destruct (bool_decide _); injection Ht as <- <-; [done|]].
  + injection Ht as Ht. erewrite in_flight_list by done. case_decide as Hi; [|done].
    assert (s' = s) as -> by (rewrite Hi in Hs; congruence). cbn. apply recent_lru_erase; [|by rewrite Hl in Hkeep].
    intros Hin. assert (e' = e) as -> by (by eapply nodup_fst_inj; [apply (so_wf _ _ _ Hok)|..]).
    apply Z.leb_le in Hexp. cbn in Hbefore. specialize (Hbefore (eq_sym Hid')). lia.
  + unfold set_shard. rewrite (shard_list_update _ _ _ _ _ _ _ Hs'). case_decide as Hi; [|done].
    assert (s' = s) as -> by (rewrite Hi in Hs; congruence). cbn.
    destruct (decide ((it, e) ∈ committed_lru_list s)) as [Hin|Hin].
    * assert (e' = e) as -> by (by eapply nodup_fst_inj; [apply (so_wf _ _ _ Hok)|..]).
      exists [], it, (lru_erase it (committed_lru_list s)). split; [done|cbn; lia].
    * by apply recent_cons, recent_lru_erase.
Qed.

Lemma mark_committed_recent id' received now c0 :
  Z.of_nat (S k) < shard_capacity_ c ->
  mark_committed id' received now c = Some c0 -> recent (S k) e (shard_list c0 id).
Proof.
  intros Hk Ht. destruct own_shard as (s & Hs & Hr & Hok & Hidle). destruct (recent_keep s Hs) as [Hkeep Hl].
  unfold mark_committed in Ht. destruct (shard_lookup c id' (cw_struct _ Hc)) as [s' Hs']. rewrite Hs' in Ht.
  cbn [mbind option_bind] in Ht. pose proof (shard_at_ok c _ s' (cw_struct _ Hc) Hs') as Hok'.
  destruct (in_flight_map s' !! id') as [entry|] eqn:Hin; apply (inj Some) in Ht; subst c0; [|done].
  cbn zeta. rewrite (shard_list_update _ _ _ _ _ _ _ Hs'). case_decide as Hi; [|done].
  assert (s' = s) as -> by (rewrite Hi in Hs; congruence).
  set (s1 := mkShard _ _ _). set (e1 := mkCommitted _ _ _ _).
  assert (Hwf1 : shard_wf s1) by (destruct (so_wf _ _ _ Hok); by constructor).
  destruct (commit_entry_wf (next_node c) e1 s1 Hwf1) as (Hwf2 & _ & _).
  { intros Hn. apply (so_nodes _ _ _ Hok) in Hn. lia. }
  pose proof (cs_cap _ (cw_struct _ Hc)) as Hcap.
  destruct (evict_lru_spec (S (length (committed_lru_list (commit_entry (next_node c) e1 s1)))) (shard_capacity_ c)
              (commit_entry (next_node c) e1 s1)) as (_ & _ & Hl3 & _); [lia|done|lia|].
  cbn zeta in Hl3. rewrite Hl3. clear Hl3.
  apply recent_take; [lia|]. unfold commit_entry. apply recent_cons. cbn [committed_map s1 ce_event_id e1].
  rewrite (so_disjoint _ _ _ Hok id') by by rewrite Hin. done.
Qed.

Lemma call_recent op r c' :
  Z.of_nat (S k) < shard_capacity_ c -> before (ce_expires_at e) id op ->
  call op c = Some (r, c') -> recent (S k) e (shard_list c' id).
Proof.
  intros Hk Hbefore Hcall. destruct own_shard as (s & Hs & Hr & Hok & Hidle). destruct (recent_keep s Hs) as [Hkeep Hl].
  destruct op as [id' fp now|id' received now|id' failure|now]; unfold call in Hcall.
  - destruct (try_acquire id' fp now c) as [[r0 c0]|] eqn:Ht; [|done]. injection Hcall as <- <-.
    by eapply try_acquire_recent.
  - destruct (mark_committed id' received now c) as [c0|] eqn:Ht; [|done]. injection Hcall as <- <-.
    by eapply mark_committed_recent.
  - destruct (rollback_in_flight id' failure c) as [c0|] eqn:Ht; [|done]. injection Hcall as <- <-. cbn [snd].
    unfold rollback_in_flight in Ht. destruct (shard_lookup c id' (cw_struct _ Hc)) as [s' Hs']. rewrite Hs' in Ht.
    cbn [mbind option_bind] in Ht. destruct (in_flight_map s' !! id') as [entry|]; injection Ht as <-; [|done].
    rewrite (shard_list_update _ _ _ _ _ _ _ Hs'). case_decide as Hi; [|done]. cbn.
    assert (s' = s) as -> by (rewrite Hi in Hs; congruence). by rewrite Hl in Hkeep.
  - injection Hcall as <- <-. cbn [snd]. unfold shard_list.
    change (get_shard_index _ id) with (get_shard_index c id) at 1. cbn. rewrite list_lookup_fmap, Hs. cbn.
    destruct (evict_shard_ok c now s Hok) as (_ & _ & ->). apply recent_filter; [|by rewrite Hl in Hkeep].
    intros n _. exact Hbefore.
Qed.

End recency.

Lemma recent_committed c e k :
  cache_wf c -> recent k e (shard_list c (ce_event_id e)) -> state_of c (ce_event_id e) <> Unseen.
Proof.
  intros Hc (l1 & n & l2 & Hl & _). destruct (shard_lookup c (ce_event_id e) (cw_struct _ Hc)) as [s Hs].
  rewrite (state_of_shard c _ s Hs). unfold shard_state. destruct (in_flight_map s !! _); [done|].
  unfold shard_list in Hl. rewrite Hs in Hl. cbn in Hl.
  assert (committed_of s (ce_event_id e) = Some e) as ->; [|done].
  apply committed_of_spec; [by eapply so_wf, shard_at_ok; [apply Hc|]|]. split; [done|].
  rewrite Hl. apply list_elem_of_fmap. exists (n, e). split; [done|]. apply elem_of_app. right. left.
Qed.

Lemma run_recent ops : forall c c' e k,
  cache_wf c -> state_of c (ce_event_id e) = Committed e -> recent k e (shard_list c (ce_event_id e)) ->
  Z.of_nat (k + length ops) < shard_capacity_ c -> Forall (before (ce_expires_at e) (ce_event_id e)) ops ->
  run ops c = Some c' -> state_of c' (ce_event_id e) = Committed e /\ cache_wf c'.
Proof.
  induction ops as [|op ops IH]; intros c c' e k Hc Hcom Hrec Hk Hops; [by intros [= <-]|].
  apply Forall_cons in Hops as [Hop Hops]. cbn [length] in Hk. cbn [run].
  destruct (call_ok c (cw_struct _ Hc) op) as (r & c1 & Hcall & Hm). rewrite Hcall. cbn [mbind option_bind snd].
  assert (Hrec1 : recent (S k) e (shard_list c1 (ce_event_id e))) by (eapply call_recent; [done..| |done|done]; lia).
  pose proof (call_wf _ _ _ _ Hc Hm) as Hc1. pose proof (recent_committed c1 e (S k) Hc1 Hrec1) as Hseen.
  destruct (cm_config _ _ _ _ Hm) as (_ & Hcap & _).
  eapply (IH c1 c' e (S k)); [done| |done| |done].
  - destruct (decide (state_of c1 (ce_event_id e) = state_of c (ce_event_id e))) as [|Hne]; [congruence|].
    destruct (decide (subject op = None \/ subject op = Some (ce_event_id e))) as [Hsub|Hsub].
    + assert (Hcon : concerns op (ce_event_id e)) by (unfold concerns; destruct Hsub as [->| ->]; done).
      rewrite (cm_concerned _ _ _ _ Hm _ Hcon), Hcom.
      destruct op as [id fp now|id received now|id failure|now]; cbn in *; [|done|done|].
      * destruct Hsub as [[=]|[= ->]]. by rewrite (proj2 (Z.leb_gt _ _) (Hop eq_refl)).
      * by rewrite (proj2 (Z.leb_gt _ _) Hop).
    + destruct (cm_others _ _ _ _ Hm (ce_event_id e)) as (_ & _ & Hun); [|done|done].
      unfold concerns. destruct (subject op); cbn; naive_solver.
  - rewrite Hcap. lia.
Qed.

(** A committed event is remembered: for the time to live of the cache, and as
    long as fewer calls than the capacity of a shard were made since, a resubmission
    with the same payload is answered with the original receive time and one with
    another payload is a conflict, so the event is not persisted a second time. *)
Theorem dedup_remembers (c c1 c2 : BoundedDeduplicationCache) (id : EventId) (fp fp' : EventPayloadFingerprint)
    (p : nat) (received now now' : Z) (ops : list DedupCall)
    (Hwf : cache_wf c) (Hfly : state_of c id = InFlight fp p) (Hmark : mark_committed id received now c = Some c1)
    (Hops : Forall (before (now + ttl_ c) id) ops) (Hfew : Z.of_nat (length ops) < shard_capacity_ c)
    (Hrun : run ops c1 = Some c2) (Hlive : now' < now + ttl_ c) :
  exists c3, try_acquire id fp' now' c2 = Some
    (if bool_decide (fp' = fp) then mkAcquire AlreadyCommitted received None None else only_decision PayloadConflict, c3).
Proof.
  set (e := mkCommitted id fp received (now + ttl_ c)).
  destruct (mark_committed_ok c (cw_struct _ Hwf) id received now) as (c1' & Hc1 & Hm).
  assert (c1' = c1) as -> by congruence.
  pose proof (cm_concerned _ _ _ _ Hm id eq_refl) as Hst. rewrite Hfly in Hst. cbn in Hst. fold e in Hst.
  destruct (cm_config _ _ _ _ Hm) as (_ & Hcap & _).
  assert (Hrec : recent 0 e (shard_list c1 id)).
  { destruct (shard_lookup c id (cw_struct _ Hwf)) as [s Hs]. unfold mark_committed in Hmark. rewrite Hs in Hmark.
    cbn [mbind option_bind] in Hmark. rewrite (state_of_shard c id s Hs) in Hfly. unfold shard_state in Hfly.
    pose proof (shard_at_ok c _ s (cw_struct _ Hwf) Hs) as Hok.
    destruct (in_flight_map s !! id) as [entry|]; [|by destruct (committed_of s id)].
    injection Hfly as Hfp _. apply (inj Some) in Hmark. subst c1. cbn zeta.
    rewrite (shard_list_update _ _ _ _ _ _ _ Hs), decide_True by done. rewrite Hfp. fold e.
    set (s1 := mkShard (delete id _) _ _). pose proof (cs_cap _ (cw_struct _ Hwf)).
    assert (Hwf1 : shard_wf s1) by (destruct (so_wf _ _ _ Hok); by constructor).
    destruct (commit_entry_wf (next_node c) e s1 Hwf1) as (Hwf2 & _ & l & Hl2 & _).
    { intros Hn. apply (so_nodes _ _ _ Hok) in Hn. lia. }
    destruct (evict_lru_spec (S (length (committed_lru_list (commit_entry (next_node c) e s1)))) (shard_capacity_ c)
                (commit_entry (next_node c) e s1)) as (_ & _ & Hl3 & _); [lia|done|lia|].
    cbn zeta in Hl3. rewrite Hl3. apply recent_take; [lia|]. rewrite Hl2. exists [], (next_node c), l. done. }
  destruct (run_recent ops c1 c2 e 0 (call_wf _ _ _ _ Hwf Hm) Hst Hrec) as [Hst2 Hwf2]; [rewrite Hcap; cbn; lia|done|done|].
  destruct (try_acquire_answer c2 id fp' now' Hwf2) as (c3 & Hc3 & _). exists c3. rewrite Hc3.
  change (ce_event_id e) with id in Hst2. rewrite Hst2. cbn. rewrite (proj2 (Z.leb_gt _ _) Hlive).
  by repeat case_bool_decide.
Qed.

Lemma dedup_remembers_witness :
  exists c c1 c2 c3, try_acquire (sample_id 1) [9] 0 (BoundedDeduplicationCache_new 4 100 2) = Some c /\
    mark_committed (sample_id 1) 5 0 c.2 = Some c1 /\ run [TryAcquire (sample_id 2) [7] 0] c1 = Some c2 /\
    try_acquire (sample_id 1) [9] 99 c2 = Some (mkAcquire AlreadyCommitted 5 None None, c3).
Proof.
  assert (Hwf : cache_wf (BoundedDeduplicationCache_new 4 100 2)) by (apply new_cache_wf; lia).
  destruct (run_wf [TryAcquire (sample_id 1) [9] 0] _ Hwf) as (c & Hrun & Hwfc). cbn [run] in Hrun. unfold call in Hrun.
  destruct (try_acquire (sample_id 1) [9] 0 (BoundedDeduplicationCache_new 4 100 2)) as [[r c0]|] eqn:Hacq; [|discriminate].
  injection Hrun as ->.
  destruct (mark_committed (sample_id 1) 5 0 c) as [c1|] eqn:Hmark;
    [|destruct (mark_committed_ok c (cw_struct _ Hwfc) (sample_id 1) 5 0) as (? & ? & _); congruence].
  assert (Hwf1 : cache_wf c1).
  { destruct (mark_committed_ok c (cw_struct _ Hwfc) (sample_id 1) 5 0) as (c1' & Heq & Hm).
    assert (c1' = c1) as -> by congruence. exact (call_wf _ _ _ _ Hwfc Hm). }
  destruct (run_wf [TryAcquire (sample_id 2) [7] 0] c1 Hwf1) as (c2 & Hrun2 & _).
  destruct (dedup_remembers c c1 c2 (sample_id 1) [9] [9] 0 5 0 99 [TryAcquire (sample_id 2) [7] 0] Hwfc) as (c3 & Hc3).
  - vm_compute in Hacq. injection Hacq as _ <-. vm_compute. reflexivity.
  - exact Hmark.
  - repeat constructor. intros Heq. vm_compute in Heq. discriminate.
  - vm_compute in Hacq. injection Hacq as _ <-. vm_compute. reflexivity.
  - exact Hrun2.
  - vm_compute in Hacq. injection Hacq as _ <-. vm_compute. reflexivity.
  - exists (r, c), c1, c2, c3. split; [reflexivity|]. split; [exact Hmark|]. split; [exact Hrun2|exact Hc3].
Defined.

Lemma sum_bounded (l : list Z) b : Forall (fun x => x <= b) l -> foldr Z.add 0 l <= b * Z.of_nat (length l).
Proof. induction 1; cbn [foldr length]; lia. Qed.

(** The memory of the cache is bounded by its configuration: after any calls the
    committed entries number at most the configured capacity rounded up to a multiple
    of the shard count, and the size reported is the sum of both kinds of entries. *)
Theorem dedup_bounded (capacity ttl num_shards : Z) (ops : list DedupCall) (c : BoundedDeduplicationCache)
    (Hcap : 1 <= capacity) (Hshards : 1 <= num_shards <= 2 ^ 31) (Hfit : capacity + bit_ceil num_shards - 1 < 2 ^ 32)
    (Hrun : run ops (BoundedDeduplicationCache_new capacity ttl num_shards) = Some c) :
  committed_count c <= capacity + bit_ceil num_shards - 1 /\
  cache_size c = in_flight_count c + committed_count c.
Proof.
  assert (Hn : 0 < bit_ceil num_shards) by (apply Z.pow_pos_nonneg; [lia|apply Z.log2_up_nonneg]).
  split.
  - set (n := bit_ceil num_shards) in *.
    assert (Hinv : num_shards_ c = n /\ shard_capacity_ c = Z.max 1 (u32 (capacity + n - 1) / n) /\ cache_wf c).
    { eapply (run_preserves (fun c => num_shards_ c = n /\ shard_capacity_ c = Z.max 1 (u32 (capacity + n - 1) / n))
                (fun _ => True)) in Hrun as [[? ?] ?]; [done| |apply new_cache_wf; lia|by apply Forall_true|].
      - intros op c0 r c' _ _ [<- <-] Hm. destruct (cm_config _ _ _ _ Hm) as (_ & -> & ->). done.
      - unfold BoundedDeduplicationCache_new. cbn. by rewrite (proj2 (Z.eqb_neq capacity 0)), (proj2 (Z.eqb_neq num_shards 0)) by lia. }
    destruct Hinv as (HN & HC & Hwf). unfold committed_count, sum_shards. etransitivity.
    + apply (sum_bounded _ (shard_capacity_ c)), Forall_fmap. eapply Forall_impl; [apply (cs_shards _ (cw_struct _ Hwf))|].
      by intros s [].
    + rewrite length_fmap, (cs_len _ (cw_struct _ Hwf)), HN, HC, u32_small by (unfold in_u32; lia).
      assert (1 <= (capacity + n - 1) / n) by (apply Z.div_le_lower_bound; lia).
      rewrite Z.max_r by done. pose proof (Z.mul_div_le (capacity + n - 1) n Hn). lia.
  - unfold cache_size, in_flight_count, committed_count, sum_shards.
    induction (shards_ c) as [|s l IH]; [done|]. cbn [fmap list_fmap foldr]. rewrite IH. lia.
Qed.

Lemma dedup_bounded_witness :
  exists c, run [TryAcquire (sample_id 1) [9] 0; MarkCommitted (sample_id 1) 5 0] (BoundedDeduplicationCache_new 100000 600000 64)
    = Some c /\ committed_count c <= 100063.
Proof.
  destruct (run_wf [TryAcquire (sample_id 1) [9] 0; MarkCommitted (sample_id 1) 5 0] (BoundedDeduplicationCache_new 100000 600000 64))
    as (c & Hrun & _); [apply new_cache_wf; lia|].
  exists c. split; [exact Hrun|].
  refine (Z.le_trans _ _ _ (proj1 (dedup_bounded 100000 600000 64 _ c _ _ _ Hrun)) _); try lia; vm_compute; congruence.
Defined.
