(* ===== verification/IngestQueue.v ===== *)
(** * The bounded queues of the audit pipeline

    Models [src/audit/ingestion/bounded_ingestion_queue.cpp] and the class
    [BoundedBatchQueue] of [batch_aggregator.cpp].  Every operation holds the mutex
    of the queue.  A wait with a timeout releases it and holds it again when it
    returns, with the value its predicate has then; so an operation is one step on
    the state at that moment, and what happened meanwhile are steps of others. *)

From S2P Require Import Prelude.

Section queue.
Context {A : Type}.

(** ** [BoundedIngestionQueue] *)

Record BoundedIngestionQueue := mkQueue {
  capacity_ : nat;
  queue_ : list A;
  shutdown_ : bool;
  total_enqueued_ : Z;
  total_rejected_ : Z;
  peak_watermark_ : nat }.

Definition BoundedIngestionQueue_new (capacity : nat) : BoundedIngestionQueue :=
  mkQueue (if (capacity =? 0)%nat then 1 else capacity) [] false 0 0 0.

Definition reject (q : BoundedIngestionQueue) : bool * BoundedIngestionQueue :=
  (false, mkQueue (capacity_ q) (queue_ q) (shutdown_ q) (total_enqueued_ q) (u64 (total_rejected_ q + 1)) (peak_watermark_ q)).

(** [push_back], the loop that raises the watermark, and the counter. *)
Definition enqueue (item : A) (q : BoundedIngestionQueue) : bool * BoundedIngestionQueue :=
  let l := queue_ q ++ [item] in
  (true, mkQueue (capacity_ q) l (shutdown_ q) (u64 (total_enqueued_ q + 1)) (total_rejected_ q)
           (if (peak_watermark_ q <? length l)%nat then length l else peak_watermark_ q)).

Definition try_push (item : A) (q : BoundedIngestionQueue) : bool * BoundedIngestionQueue :=
  if shutdown_ q || (capacity_ q <=? length (queue_ q))%nat then reject q else enqueue item q.

Definition push_with_timeout (item : A) (q : BoundedIngestionQueue) : bool * BoundedIngestionQueue :=
  let capacity_available := shutdown_ q || (length (queue_ q) <? capacity_ q)%nat in
  if shutdown_ q || negb capacity_available || (capacity_ q <=? length (queue_ q))%nat then reject q else enqueue item q.

Definition set_queue (l : list A) (q : BoundedIngestionQueue) : BoundedIngestionQueue :=
  mkQueue (capacity_ q) l (shutdown_ q) (total_enqueued_ q) (total_rejected_ q) (peak_watermark_ q).

Definition pop (q : BoundedIngestionQueue) : option A * BoundedIngestionQueue :=
  match queue_ q with
  | [] => (None, q)
  | item :: l => (Some item, set_queue l q)
  end.

Definition pop_batch (max_items : nat) (q : BoundedIngestionQueue) : list A * BoundedIngestionQueue :=
  match queue_ q with
  | [] => ([], q)
  | _ :: _ =>
      if (max_items =? 0)%nat then ([], q)
      else
        let batch_size := Nat.min max_items (length (queue_ q)) in
        (take batch_size (queue_ q), set_queue (drop batch_size (queue_ q)) q)
  end.

Definition shutdown (q : BoundedIngestionQueue) : BoundedIngestionQueue :=
  mkQueue (capacity_ q) (queue_ q) true (total_enqueued_ q) (total_rejected_ q) (peak_watermark_ q).

(** ** [BoundedBatchQueue]: the same protocol without the counters *)

Record BoundedBatchQueue := mkBatchQueue {
  bq_capacity : nat;
  bq_queue : list A;
  bq_shutdown : bool }.

Definition BoundedBatchQueue_new (capacity : nat) : BoundedBatchQueue :=
  mkBatchQueue (if (capacity =? 0)%nat then 1 else capacity) [] false.

Definition bq_push_with_timeout (batch : A) (q : BoundedBatchQueue) : bool * BoundedBatchQueue :=
  let capacity_available := bq_shutdown q || (length (bq_queue q) <? bq_capacity q)%nat in
  if bq_shutdown q || negb capacity_available || (bq_capacity q <=? length (bq_queue q))%nat then (false, q)
  else (true, mkBatchQueue (bq_capacity q) (bq_queue q ++ [batch]) (bq_shutdown q)).

Definition bq_try_push (batch : A) (q : BoundedBatchQueue) : bool * BoundedBatchQueue :=
  if bq_shutdown q || (bq_capacity q <=? length (bq_queue q))%nat then (false, q)
  else (true, mkBatchQueue (bq_capacity q) (bq_queue q ++ [batch]) (bq_shutdown q)).

Definition bq_pop (q : BoundedBatchQueue) : option A * BoundedBatchQueue :=
  match bq_queue q with
  | [] => (None, q)
  | batch :: l => (Some batch, mkBatchQueue (bq_capacity q) l (bq_shutdown q))
  end.

Definition bq_set_shutdown (q : BoundedBatchQueue) : BoundedBatchQueue :=
  mkBatchQueue (bq_capacity q) (bq_queue q) true.

(** ** Calls *)

Inductive QueueCall :=
  | TryPush (item : A) | PushWithTimeout (item : A) | Pop | PopBatch (max_items : nat) | Shutdown.

(** A call: what it took out, whether it was a push that was accepted, the new state. *)
Definition queue_call (op : QueueCall) (q : BoundedIngestionQueue) : list A * list A * BoundedIngestionQueue :=
  match op with
  | TryPush item => let '(ok, q') := try_push item q in (if ok then [item] else [], [], q')
  | PushWithTimeout item => let '(ok, q') := push_with_timeout item q in (if ok then [item] else [], [], q')
  | Pop => let '(o, q') := pop q in ([], option_list o, q')
  | PopBatch n => let '(b, q') := pop_batch n q in ([], b, q')
  | Shutdown => ([], [], shutdown q)
  end.

(** A sequence of calls: all items accepted and all items handed out, in order. *)
Fixpoint queue_run (ops : list QueueCall) (q : BoundedIngestionQueue) : list A * list A * BoundedIngestionQueue :=
  match ops with
  | [] => ([], [], q)
  | op :: ops =>
      let '(pushed, popped, q1) := queue_call op q in
      let '(pushed', popped', q2) := queue_run ops q1 in
      (pushed ++ pushed', popped ++ popped', q2)
  end.

(** A push that may wait decides as one that may not, at the moment its wait ends. *)
Lemma push_with_timeout_try_push item q : push_with_timeout item q = try_push item q.
Proof.
  unfold push_with_timeout, try_push. destruct (shutdown_ q); [done|]. cbn [orb].
  destruct (Nat.ltb_spec (length (queue_ q)) (capacity_ q)), (Nat.leb_spec (capacity_ q) (length (queue_ q))); cbn; done || lia.
Qed.

Lemma bq_push_with_timeout_try_push batch q : bq_push_with_timeout batch q = bq_try_push batch q.
Proof.
  unfold bq_push_with_timeout, bq_try_push. destruct (bq_shutdown q); [done|]. cbn [orb].
  destruct (Nat.ltb_spec (length (bq_queue q)) (bq_capacity q)), (Nat.leb_spec (bq_capacity q) (length (bq_queue q))); cbn; done || lia.
Qed.

(** What an accepted push and a refused one did. *)
Lemma try_push_cases item q :
  (try_push item q = enqueue item q /\ shutdown_ q = false /\ (length (queue_ q) < capacity_ q)%nat) \/
  (try_push item q = reject q /\ (shutdown_ q = true \/ (capacity_ q <= length (queue_ q))%nat)).
Proof.
  unfold try_push. destruct (shutdown_ q); cbn; [by right; auto|].
  destruct (Nat.leb_spec (capacity_ q) (length (queue_ q))); [right|left]; split; auto.
Qed.

Record queue_wf (q : BoundedIngestionQueue) : Prop := {
  qw_pos : (1 <= capacity_ q)%nat;
  qw_peak : (length (queue_ q) <= peak_watermark_ q <= capacity_ q)%nat }.

(** One call against the contents of the queue. *)
Lemma queue_call_spec op q pushed popped q' :
  queue_wf q -> queue_call op q = (pushed, popped, q') ->
  queue_wf q' /\ capacity_ q' = capacity_ q /\ queue_ q ++ pushed = popped ++ queue_ q' /\
  (shutdown_ q = true -> shutdown_ q' = true /\ pushed = []) /\
  total_enqueued_ q' = (match pushed with [] => total_enqueued_ q | _ => u64 (total_enqueued_ q + Z.of_nat (length pushed)) end) /\
  (peak_watermark_ q <= peak_watermark_ q')%nat.
Proof.
  intros [Hpos Hpeak].
  assert (Hpush : forall item, (let '(ok, q') := try_push item q in (if ok then [item] else [], [], q')) = (pushed, popped, q') ->
    queue_wf q' /\ capacity_ q' = capacity_ q /\ queue_ q ++ pushed = popped ++ queue_ q' /\
    (shutdown_ q = true -> shutdown_ q' = true /\ pushed = []) /\
    total_enqueued_ q' = (match pushed with [] => total_enqueued_ q | _ => u64 (total_enqueued_ q + Z.of_nat (length pushed)) end) /\
    (peak_watermark_ q <= peak_watermark_ q')%nat).
  { intros item. destruct (try_push_cases item q) as [(-> & Hsd & Hlt)|[-> _]]; intros [= <- <- <-].
    - cbn [capacity_ queue_ shutdown_ total_enqueued_ peak_watermark_].
      assert (Hl : length (queue_ q ++ [item]) = S (length (queue_ q))) by (rewrite length_app; cbn; lia).
      rewrite Hl. destruct (Nat.ltb_spec (peak_watermark_ q) (S (length (queue_ q))));
        split_and!; try done; try lia; try congruence;
        constructor; cbn [capacity_ queue_ peak_watermark_]; rewrite ?Hl; lia.
    - split_and!; cbn; rewrite ?app_nil_r; auto. by constructor. }
  destruct op as [item|item| |n|]; cbn [queue_call]; rewrite ?push_with_timeout_try_push; [apply Hpush|apply Hpush|..].
  - unfold pop. destruct (queue_ q) as [|x l] eqn:Hq; intros [= <- <- <-]; cbn [option_list app].
    + split_and!; rewrite ?Hq; try done; by constructor; rewrite ?Hq.
    + split_and!; rewrite ?app_nil_r; try done; constructor; cbn in *; lia.
  - unfold pop_batch. destruct (queue_ q) as [|x l] eqn:Hq; [|destruct (Nat.eqb_spec n 0)]; intros [= <- <- <-].
    + split_and!; rewrite ?Hq; try done; by constructor; rewrite ?Hq.
    + split_and!; rewrite ?Hq, ?app_nil_r; try done; by constructor; rewrite ?Hq.
    + cbn [capacity_ queue_ shutdown_ total_enqueued_ peak_watermark_ set_queue].
      split_and!; rewrite ?app_nil_r, ?take_drop; try done.
      constructor; cbn [capacity_ queue_ peak_watermark_ set_queue]; [done|]. rewrite length_drop. lia.
  - intros [= <- <- <-]. cbn. split_and!; rewrite ?app_nil_r; try done.
Qed.

Lemma queue_run_spec ops : forall q pushed popped q',
  queue_wf q -> queue_run ops q = (pushed, popped, q') ->
  queue_wf q' /\ capacity_ q' = capacity_ q /\ queue_ q ++ pushed = popped ++ queue_ q' /\
  (shutdown_ q = true -> pushed = []) /\
  u64 (total_enqueued_ q') = u64 (total_enqueued_ q + Z.of_nat (length pushed)).
Proof.
  induction ops as [|op ops IH]; intros q pushed popped q' Hwf; cbn [queue_run].
  - intros [= <- <- <-]. rewrite app_nil_r. cbn. by rewrite Z.add_0_r.
  - destruct (queue_call op q) as [[ps1 po1] q1] eqn:Hcall.
    destruct (queue_run ops q1) as [[ps2 po2] q2] eqn:Hrun. intros [= <- <- <-].
    destruct (queue_call_spec op q ps1 po1 q1 Hwf Hcall) as (Hwf1 & Hc1 & Hq1 & Hs1 & He1 & _).
    destruct (IH _ _ _ _ Hwf1 Hrun) as (Hwf2 & Hc2 & Hq2 & Hs2 & He2). split_and!.
    + done.
    + congruence.
    + by rewrite app_assoc, Hq1, <- app_assoc, Hq2, app_assoc.
    + intros Hs. destruct (Hs1 Hs) as [Hs1' ->]. by rewrite Hs2.
    + rewrite He2, He1, length_app, Nat2Z.inj_add. unfold u64, wrap.
      destruct ps1; cbn [length]; [f_equal; lia|]. rewrite Zplus_mod_idemp_l. f_equal. lia.
Qed.

(** The ingestion queue is a bounded FIFO: after any calls from any threads it
    holds exactly the accepted items not handed out yet, in the order they were
    accepted; it never holds more than its capacity, and the watermark lies between its
    length and that capacity; the enqueue counter counts the accepted items modulo the
    width of [size_t]; once it is shut down nothing is accepted any more, and what it
    holds can still be taken out. *)
Theorem ingestion_queue_fifo (capacity : nat) (ops ops' : list QueueCall) :
  let '(pushed, popped, q) := queue_run ops (BoundedIngestionQueue_new capacity) in
  pushed = popped ++ queue_ q /\
  (length (queue_ q) <= peak_watermark_ q <= Nat.max 1 capacity)%nat /\
  u64 (total_enqueued_ q) = u64 (Z.of_nat (length pushed)) /\
  let '(pushed', popped', q') := queue_run ops' (shutdown q) in
  pushed' = [] /\ queue_ q = popped' ++ queue_ q'.
Proof.
  destruct (queue_run ops _) as [[pushed popped] q] eqn:Hrun.
  assert (Hcap : capacity_ (BoundedIngestionQueue_new capacity) = Nat.max 1 capacity)
    by (destruct capacity; reflexivity).
  destruct (queue_run_spec ops _ _ _ _ ltac:(constructor; rewrite ?Hcap; cbn; lia) Hrun) as (Hwf & Hc & Hq & _ & He).
  rewrite Hcap in Hc. split; [done|]. split; [destruct Hwf; lia|]. split; [done|].
  destruct (queue_run ops' (shutdown q)) as [[pushed' popped'] q'] eqn:Hrun'.
  destruct (queue_run_spec ops' (shutdown q) _ _ _ ltac:(by destruct Hwf; constructor) Hrun') as (_ & _ & Hq' & Hs & _).
  rewrite (Hs eq_refl) in *. rewrite app_nil_r in Hq'. done.
Qed.

End queue.
#[global] Arguments BoundedIngestionQueue : clear implicits.
#[global] Arguments BoundedBatchQueue : clear implicits.
#[global] Arguments QueueCall : clear implicits.
