(* ===== verification/Pipeline.v ===== *)
(** * The ingestion pipeline of the audit service

    Models [src/audit/ingestion/audit_ingestion_pipeline.cpp] with the threads it
    starts: the workers of [validation_worker_pool.cpp], the [BatchAggregator] of
    [batch_aggregator.cpp] and the workers of [insert_worker_pool.cpp], with the
    completions of [acknowledgement_manager.cpp].  The pipeline is a machine whose
    steps are the accesses of one thread to a queue or a flag, in any interleaving,
    with any number of submitting threads and the thread that calls [shutdown].

    The initial state is the one [start] leaves.  An envelope carries the promise its
    submitter waits for; the log [completed] lists the calls of [set_value] on those
    promises.  The clock, the outcome of each insertion and the expiry of a batch are
    free.  The counters of the pools are not modelled. *)

From S2P Require Import Prelude Ids Bytes AuditEvent AuditValidation Dedup IngestQueue.

(** ** Data *)

Record IngestionResult := mkResult {
  success : bool;
  outcome_status : IngestionOutcomeStatus;
  error_code : string;
  error_message : string;
  result_received_at : Z }.

(** The promise is always set; the callback, which nobody sets, is left out. *)
Record IngestionEnvelope := mkEnvelope { envelope_event : AuditEvent; completion_promise : nat }.

Definition IngestionBatch := list IngestionEnvelope.

(** What [insert_batch] does: answers, or throws one of the exceptions the worker
    tells apart. *)
Inductive InsertOutcome :=
  | Inserted | ReturnedFalse | ClickHouseTimeout | ClickHouseConnection | OtherException (what : string).

(** The arguments of [complete_batch_failure], [None] for a success. *)
Definition failure_of (o : InsertOutcome) : option (string * string) :=
  match o with
  | Inserted => None
  | ReturnedFalse => Some ("UNAVAILABLE", "ClickHouse batch persistence returned false")
  | ClickHouseTimeout => Some ("DEADLINE_EXCEEDED", "ClickHouse batch insertion query timed out")
  | ClickHouseConnection => Some ("UNAVAILABLE", "ClickHouse analytical cluster connectivity failure")
  | OtherException what =>
      if contains (chars "timeout") (chars what) || contains (chars "timed out") (chars what)
      then Some ("DEADLINE_EXCEEDED", "ClickHouse batch insertion query timed out")
      else Some ("UNAVAILABLE", "ClickHouse batch persistence failed")
  end.

(** The result [complete_batch_success] and [complete_batch_failure] give an envelope;
    [outcome_status] keeps its default. *)
Definition batch_result (o : InsertOutcome) (now : Z) (env : IngestionEnvelope) : IngestionResult :=
  let received := default now (received_at (envelope_event env)) in
  match failure_of o with
  | None => mkResult true PersistenceFailed EmptyString EmptyString received
  | Some (error_code, error_message) => mkResult false PersistenceFailed error_code error_message received
  end.

(** The result of a persisted event says at once that it succeeded and that it failed. *)
Lemma persisted_result_claims_failure now env :
  success (batch_result Inserted now env) = true /\ outcome_status (batch_result Inserted now env) = PersistenceFailed.
Proof. done. Qed.

Definition rejection (message : string) (now : Z) : IngestionResult :=
  mkResult false PersistenceFailed "INVALID_ARGUMENT" message now.

(** ** Where the threads are

    The flag [drain] tells the loop that empties the queue after shutdown from the
    main loop. *)

Inductive ValidationPc :=
  | VLoop                                          (** at [while (running_)] *)
  | VPop                                           (** about to [pop(50ms)] *)
  | VEmpty                                         (** popped nothing; about to test [is_shutdown] *)
  | VProcess (env : IngestionEnvelope) (drain : bool)   (** in [process_envelope] *)
  | VPush (env : IngestionEnvelope) (drain : bool)      (** about to push to the validated queue *)
  | VFull (env : IngestionEnvelope) (drain : bool)      (** the push was refused; about to test [is_shutdown] *)
  | VDrain                                         (** at the loop that drains the input queue *)
  | VDone.

(** Where [flush_active_batch] returns to. *)
Inductive FlushReturn := ToTimer | ToLoop | ToDrain | ToDone.

Inductive AggregatorPc :=
  | ALoop | APop
  | ATimer                                         (** at the test of the batch age *)
  | AFlush (batch : IngestionBatch) (k : FlushReturn)   (** about to push the batch *)
  | AFull (batch : IngestionBatch) (k : FlushReturn)
  | ADrain
  | AFinal                                         (** at the final flush *)
  | ADone.

Inductive InsertPc :=
  | ILoop | IPop | IEmpty
  | IProcess (batch : IngestionBatch) (drain : bool)
  | IComplete (rest : IngestionBatch) (o : InsertOutcome) (drain : bool)  (** completing one by one *)
  | IDrain | IDone.

(** [stage] counts the steps of [shutdown]: 0 not called, 1 [running_] exchanged,
    2 [accepting_] cleared, 3 input queue shut down, 4 validation pool told to stop,
    5 its workers joined, 6 validated queue shut down, 7 aggregator told to stop,
    8 joined, 9 batch queue shut down, 10 insert pool told to stop, 11 joined. *)
Record Pipeline := mkPipeline {
  accepting : bool;
  input_queue : BoundedIngestionQueue IngestionEnvelope;
  validated_queue : BoundedIngestionQueue IngestionEnvelope;
  batch_queue : BoundedBatchQueue IngestionBatch;
  validation_running : bool;
  aggregator_running : bool;
  insert_running : bool;
  submitting : list IngestionEnvelope;
  validators : list ValidationPc;
  aggregator : AggregatorPc;
  active_batch : list IngestionEnvelope;
  inserters : list InsertPc;
  stage : nat;
  accepted : list IngestionEnvelope;
  completed : list (IngestionEnvelope * IngestionResult) }.

Definition set_accepting (x : bool) (s : Pipeline) : Pipeline :=
  mkPipeline x (input_queue s) (validated_queue s) (batch_queue s) (validation_running s) (aggregator_running s) (insert_running s) (submitting s) (validators s) (aggregator s) (active_batch s) (inserters s) (stage s) (accepted s) (completed s).
Definition set_input_queue (x : BoundedIngestionQueue IngestionEnvelope) (s : Pipeline) : Pipeline :=
  mkPipeline (accepting s) x (validated_queue s) (batch_queue s) (validation_running s) (aggregator_running s) (insert_running s) (submitting s) (validators s) (aggregator s) (active_batch s) (inserters s) (stage s) (accepted s) (completed s).
Definition set_validated_queue (x : BoundedIngestionQueue IngestionEnvelope) (s : Pipeline) : Pipeline :=
  mkPipeline (accepting s) (input_queue s) x (batch_queue s) (validation_running s) (aggregator_running s) (insert_running s) (submitting s) (validators s) (aggregator s) (active_batch s) (inserters s) (stage s) (accepted s) (completed s).
Definition set_batch_queue (x : BoundedBatchQueue IngestionBatch) (s : Pipeline) : Pipeline :=
  mkPipeline (accepting s) (input_queue s) (validated_queue s) x (validation_running s) (aggregator_running s) (insert_running s) (submitting s) (validators s) (aggregator s) (active_batch s) (inserters s) (stage s) (accepted s) (completed s).
Definition set_validation_running (x : bool) (s : Pipeline) : Pipeline :=
  mkPipeline (accepting s) (input_queue s) (validated_queue s) (batch_queue s) x (aggregator_running s) (insert_running s) (submitting s) (validators s) (aggregator s) (active_batch s) (inserters s) (stage s) (accepted s) (completed s).
Definition set_aggregator_running (x : bool) (s : Pipeline) : Pipeline :=
  mkPipeline (accepting s) (input_queue s) (validated_queue s) (batch_queue s) (validation_running s) x (insert_running s) (submitting s) (validators s) (aggregator s) (active_batch s) (inserters s) (stage s) (accepted s) (completed s).
Definition set_insert_running (x : bool) (s : Pipeline) : Pipeline :=
  mkPipeline (accepting s) (input_queue s) (validated_queue s) (batch_queue s) (validation_running s) (aggregator_running s) x (submitting s) (validators s) (aggregator s) (active_batch s) (inserters s) (stage s) (accepted s) (completed s).
Definition set_submitting (x : list IngestionEnvelope) (s : Pipeline) : Pipeline :=
  mkPipeline (accepting s) (input_queue s) (validated_queue s) (batch_queue s) (validation_running s) (aggregator_running s) (insert_running s) x (validators s) (aggregator s) (active_batch s) (inserters s) (stage s) (accepted s) (completed s).
Definition set_validators (x : list ValidationPc) (s : Pipeline) : Pipeline :=
  mkPipeline (accepting s) (input_queue s) (validated_queue s) (batch_queue s) (validation_running s) (aggregator_running s) (insert_running s) (submitting s) x (aggregator s) (active_batch s) (inserters s) (stage s) (accepted s) (completed s).
Definition set_aggregator (x : AggregatorPc) (s : Pipeline) : Pipeline :=
  mkPipeline (accepting s) (input_queue s) (validated_queue s) (batch_queue s) (validation_running s) (aggregator_running s) (insert_running s) (submitting s) (validators s) x (active_batch s) (inserters s) (stage s) (accepted s) (completed s).
Definition set_active_batch (x : list IngestionEnvelope) (s : Pipeline) : Pipeline :=
  mkPipeline (accepting s) (input_queue s) (validated_queue s) (batch_queue s) (validation_running s) (aggregator_running s) (insert_running s) (submitting s) (validators s) (aggregator s) x (inserters s) (stage s) (accepted s) (completed s).
Definition set_inserters (x : list InsertPc) (s : Pipeline) : Pipeline :=
  mkPipeline (accepting s) (input_queue s) (validated_queue s) (batch_queue s) (validation_running s) (aggregator_running s) (insert_running s) (submitting s) (validators s) (aggregator s) (active_batch s) x (stage s) (accepted s) (completed s).
Definition set_stage (x : nat) (s : Pipeline) : Pipeline :=
  mkPipeline (accepting s) (input_queue s) (validated_queue s) (batch_queue s) (validation_running s) (aggregator_running s) (insert_running s) (submitting s) (validators s) (aggregator s) (active_batch s) (inserters s) x (accepted s) (completed s).
Definition set_accepted (x : list IngestionEnvelope) (s : Pipeline) : Pipeline :=
  mkPipeline (accepting s) (input_queue s) (validated_queue s) (batch_queue s) (validation_running s) (aggregator_running s) (insert_running s) (submitting s) (validators s) (aggregator s) (active_batch s) (inserters s) (stage s) x (completed s).
Definition set_completed (x : list (IngestionEnvelope * IngestionResult)) (s : Pipeline) : Pipeline :=
  mkPipeline (accepting s) (input_queue s) (validated_queue s) (batch_queue s) (validation_running s) (aggregator_running s) (insert_running s) (submitting s) (validators s) (aggregator s) (active_batch s) (inserters s) (stage s) (accepted s) x.

Definition put_validator (i : nat) (pc : ValidationPc) (s : Pipeline) : Pipeline :=
  set_validators (<[i := pc]> (validators s)) s.
Definition put_inserter (i : nat) (pc : InsertPc) (s : Pipeline) : Pipeline :=
  set_inserters (<[i := pc]> (inserters s)) s.
Definition complete (env : IngestionEnvelope) (r : IngestionResult) (s : Pipeline) : Pipeline :=
  set_completed (completed s ++ [(env, r)]) s.

Definition after_process (drain : bool) : ValidationPc := if drain then VDrain else VLoop.
Definition after_batch (drain : bool) : InsertPc := if drain then IDrain else ILoop.
Definition flush_return (k : FlushReturn) : AggregatorPc :=
  match k with ToTimer => ATimer | ToLoop => ALoop | ToDrain => ADrain | ToDone => ADone end.

Section pipeline.
Context (capacity : string -> Z) (sizeof_AuditEvent : Z) (max_batch_size : nat).

(** The two checks of [process_envelope], with the message of the first error. *)
Definition validation_error (now : Z) (e : AuditEvent) : option string :=
  match validate capacity sizeof_AuditEvent default_limits now e with
  | err :: _ => Some (err_message err)
  | [] => match inspect e with err :: _ => Some (err_message err) | [] => None end
  end.

(** The pipeline after [start]; a configured count of zero workers means four, and a
    batch size of zero a thousand. *)
Definition Pipeline_start (max_queued workers : nat) : Pipeline :=
  {| accepting := true; input_queue := BoundedIngestionQueue_new max_queued;
     validated_queue := BoundedIngestionQueue_new max_queued; batch_queue := BoundedBatchQueue_new 32;
     validation_running := true; aggregator_running := true; insert_running := true; submitting := [];
     validators := replicate (if (workers =? 0)%nat then 4 else workers) VLoop; aggregator := ALoop;
     active_batch := []; inserters := replicate 2 ILoop; stage := 0; accepted := []; completed := [] |}.

Definition batch_limit : nat := if (max_batch_size =? 0)%nat then 1000 else max_batch_size.

(** [submit]: the test of [accepting_], then [try_push]. *)
Inductive submit_step : Pipeline -> Pipeline -> Prop :=
  | submit_check env s : accepting s = true -> submit_step s (set_submitting (env :: submitting s) s)
  | submit_push l1 env l2 s ok q :
      submitting s = l1 ++ env :: l2 -> try_push env (input_queue s) = (ok, q) ->
      submit_step s (set_accepted (if ok then accepted s ++ [env] else accepted s)
                       (set_input_queue q (set_submitting (l1 ++ l2) s))).

(** A worker of the validation pool. *)
Inductive validation_step (i : nat) : Pipeline -> Pipeline -> Prop :=
  | v_running s : validators s !! i = Some VLoop -> validation_running s = true ->
      validation_step i s (put_validator i VPop s)
  | v_stopped s : validators s !! i = Some VLoop -> validation_running s = false ->
      validation_step i s (put_validator i VDrain s)
  | v_pop s env q : validators s !! i = Some VPop -> pop (input_queue s) = (Some env, q) ->
      validation_step i s (put_validator i (VProcess env false) (set_input_queue q s))
  | v_pop_empty s q : validators s !! i = Some VPop -> pop (input_queue s) = (None, q) ->
      validation_step i s (put_validator i VEmpty (set_input_queue q s))
  | v_empty s : validators s !! i = Some VEmpty ->
      validation_step i s (put_validator i (if shutdown_ (input_queue s) then VDrain else VLoop) s)
  | v_reject s env drain now message : validators s !! i = Some (VProcess env drain) ->
      validation_error now (envelope_event env) = Some message ->
      validation_step i s (put_validator i (after_process drain) (complete env (rejection message now) s))
  | v_accept s env drain now : validators s !! i = Some (VProcess env drain) ->
      validation_error now (envelope_event env) = None ->
      validation_step i s
        (put_validator i (VPush (mkEnvelope (set_received_at now (envelope_event env)) (completion_promise env)) drain) s)
  | v_push s env drain q : validators s !! i = Some (VPush env drain) ->
      push_with_timeout env (validated_queue s) = (true, q) ->
      validation_step i s (put_validator i (after_process drain) (set_validated_queue q s))
  | v_push_full s env drain q : validators s !! i = Some (VPush env drain) ->
      push_with_timeout env (validated_queue s) = (false, q) ->
      validation_step i s (put_validator i (VFull env drain) (set_validated_queue q s))
  | v_full s env drain : validators s !! i = Some (VFull env drain) ->
      validation_step i s
        (put_validator i (if shutdown_ (validated_queue s) then after_process drain else VPush env drain) s)
  | v_drain s env q : validators s !! i = Some VDrain -> pop (input_queue s) = (Some env, q) ->
      validation_step i s (put_validator i (VProcess env true) (set_input_queue q s))
  | v_drained s q : validators s !! i = Some VDrain -> pop (input_queue s) = (None, q) ->
      validation_step i s (put_validator i VDone (set_input_queue q s)).

(** [active_batch_.push_back] and the count trigger; [full] is where the flush
    returns to and [more] where the thread goes on otherwise. *)
Definition add_to_batch (env : IngestionEnvelope) (full : FlushReturn) (more : AggregatorPc) (s : Pipeline) : Pipeline :=
  let batch := active_batch s ++ [env] in
  if (batch_limit <=? length batch)%nat
  then set_aggregator (AFlush batch full) (set_active_batch [] s)
  else set_aggregator more (set_active_batch batch s).

(** [flush_active_batch] from a place where the batch may be empty. *)
Definition flush_active (k : FlushReturn) (s : Pipeline) : Pipeline :=
  match active_batch s with
  | [] => set_aggregator (flush_return k) s
  | batch => set_aggregator (AFlush batch k) (set_active_batch [] s)
  end.

Inductive aggregator_step : Pipeline -> Pipeline -> Prop :=
  | a_running s : aggregator s = ALoop -> aggregator_running s = true -> aggregator_step s (set_aggregator APop s)
  | a_stopped s : aggregator s = ALoop -> aggregator_running s = false -> aggregator_step s (set_aggregator ADrain s)
  | a_pop s env q : aggregator s = APop -> pop (validated_queue s) = (Some env, q) ->
      aggregator_step s (add_to_batch env ToTimer ATimer (set_validated_queue q s))
  | a_pop_empty s q : aggregator s = APop -> pop (validated_queue s) = (None, q) ->
      aggregator_step s (set_aggregator ATimer (set_validated_queue q s))
  | a_young s : aggregator s = ATimer -> aggregator_step s (set_aggregator ALoop s)
  | a_old s : aggregator s = ATimer -> aggregator_step s (flush_active ToLoop s)
  | a_push s batch k q : aggregator s = AFlush batch k ->
      bq_push_with_timeout batch (batch_queue s) = (true, q) ->
      aggregator_step s (set_aggregator (flush_return k) (set_batch_queue q s))
  | a_push_full s batch k q : aggregator s = AFlush batch k ->
      bq_push_with_timeout batch (batch_queue s) = (false, q) ->
      aggregator_step s (set_aggregator (AFull batch k) (set_batch_queue q s))
  | a_full s batch k : aggregator s = AFull batch k ->
      aggregator_step s (set_aggregator (if bq_shutdown (batch_queue s) then flush_return k else AFlush batch k) s)
  | a_drain s env q : aggregator s = ADrain -> pop (validated_queue s) = (Some env, q) ->
      aggregator_step s (add_to_batch env ToDrain ADrain (set_validated_queue q s))
  | a_drained s q : aggregator s = ADrain -> pop (validated_queue s) = (None, q) ->
      aggregator_step s (set_aggregator AFinal (set_validated_queue q s))
  | a_final s : aggregator s = AFinal -> aggregator_step s (flush_active ToDone s).

(** A worker of the insert pool; an empty batch is skipped. *)
Inductive insert_step (i : nat) : Pipeline -> Pipeline -> Prop :=
  | i_running s : inserters s !! i = Some ILoop -> insert_running s = true -> insert_step i s (put_inserter i IPop s)
  | i_stopped s : inserters s !! i = Some ILoop -> insert_running s = false -> insert_step i s (put_inserter i IDrain s)
  | i_pop s batch q : inserters s !! i = Some IPop -> bq_pop (batch_queue s) = (Some batch, q) ->
      insert_step i s (put_inserter i (IProcess batch false) (set_batch_queue q s))
  | i_pop_empty s q : inserters s !! i = Some IPop -> bq_pop (batch_queue s) = (None, q) ->
      insert_step i s (put_inserter i IEmpty (set_batch_queue q s))
  | i_empty s : inserters s !! i = Some IEmpty ->
      insert_step i s (put_inserter i (if bq_shutdown (batch_queue s) then IDrain else ILoop) s)
  | i_insert s batch drain o : inserters s !! i = Some (IProcess batch drain) ->
      insert_step i s (put_inserter i (IComplete batch o drain) s)
  | i_complete s env rest o drain now : inserters s !! i = Some (IComplete (env :: rest) o drain) ->
      insert_step i s (put_inserter i (IComplete rest o drain) (complete env (batch_result o now env) s))
  | i_completed s o drain : inserters s !! i = Some (IComplete [] o drain) ->
      insert_step i s (put_inserter i (after_batch drain) s)
  | i_drain s batch q : inserters s !! i = Some IDrain -> bq_pop (batch_queue s) = (Some batch, q) ->
      insert_step i s (put_inserter i (IProcess batch true) (set_batch_queue q s))
  | i_drained s q : inserters s !! i = Some IDrain -> bq_pop (batch_queue s) = (None, q) ->
      insert_step i s (put_inserter i IDone (set_batch_queue q s)).

(** The first thread that calls [shutdown]; joins wait for the workers.  A further call
    finds the flag set and returns at once. *)
Inductive shutdown_step : Pipeline -> Pipeline -> Prop :=
  | sd_running s : stage s = 0%nat -> shutdown_step s (set_stage 1 s)
  | sd_accepting s : stage s = 1%nat -> shutdown_step s (set_stage 2 (set_accepting false s))
  | sd_input s : stage s = 2%nat -> shutdown_step s (set_stage 3 (set_input_queue (shutdown (input_queue s)) s))
  | sd_validation s : stage s = 3%nat -> shutdown_step s (set_stage 4 (set_validation_running false s))
  | sd_join_validation s : stage s = 4%nat -> Forall (eq VDone) (validators s) -> shutdown_step s (set_stage 5 s)
  | sd_validated s : stage s = 5%nat ->
      shutdown_step s (set_stage 6 (set_validated_queue (shutdown (validated_queue s)) s))
  | sd_aggregator s : stage s = 6%nat -> shutdown_step s (set_stage 7 (set_aggregator_running false s))
  | sd_join_aggregator s : stage s = 7%nat -> aggregator s = ADone -> shutdown_step s (set_stage 8 s)
  | sd_batch s : stage s = 8%nat -> shutdown_step s (set_stage 9 (set_batch_queue (bq_set_shutdown (batch_queue s)) s))
  | sd_insert s : stage s = 9%nat -> shutdown_step s (set_stage 10 (set_insert_running false s))
  | sd_join_insert s : stage s = 10%nat -> Forall (eq IDone) (inserters s) -> shutdown_step s (set_stage 11 s).

Inductive pipeline_step (s s' : Pipeline) : Prop :=
  | step_submit : submit_step s s' -> pipeline_step s s'
  | step_validation i : validation_step i s s' -> pipeline_step s s'
  | step_aggregator : aggregator_step s s' -> pipeline_step s s'
  | step_insert i : insert_step i s s' -> pipeline_step s s'
  | step_shutdown : shutdown_step s s' -> pipeline_step s s'.

(** ** Invariants: the order of the shutdown *)

Definition v_draining (pc : ValidationPc) : bool :=
  match pc with
  | VDrain | VDone | VProcess _ true | VPush _ true | VFull _ true => true
  | _ => false
  end.

Definition a_finishing (pc : AggregatorPc) : bool :=
  match pc with AFinal | ADone | AFlush _ ToDone | AFull _ ToDone => true | _ => false end.

Definition a_draining (pc : AggregatorPc) : bool :=
  match pc with ADrain | AFlush _ ToDrain | AFull _ ToDrain => true | _ => a_finishing pc end.

Definition i_draining (pc : InsertPc) : bool :=
  match pc with IDrain | IDone | IProcess _ true | IComplete _ _ true => true | _ => false end.

Record flags_ok (s : Pipeline) : Prop := {
  f_input : shutdown_ (input_queue s) = (3 <=? stage s)%nat;
  f_validation : validation_running s = negb (4 <=? stage s)%nat;
  f_validated : shutdown_ (validated_queue s) = (6 <=? stage s)%nat;
  f_aggregator : aggregator_running s = negb (7 <=? stage s)%nat;
  f_batch : bq_shutdown (batch_queue s) = (9 <=? stage s)%nat;
  f_insert : insert_running s = negb (10 <=? stage s)%nat;
  f_v_joined : (5 <= stage s)%nat -> Forall (eq VDone) (validators s);
  f_a_joined : (8 <= stage s)%nat -> aggregator s = ADone;
  f_i_joined : (11 <= stage s)%nat -> Forall (eq IDone) (inserters s);
  f_v_drain : Forall (fun pc => v_draining pc = true -> (3 <= stage s)%nat) (validators s);
  f_a_drain : a_draining (aggregator s) = true -> (7 <= stage s)%nat;
  f_i_drain : Forall (fun pc => i_draining pc = true -> (9 <= stage s)%nat) (inserters s) }.

(** Lookups into the lists of workers after a worker moved. *)
Lemma forall_put {A} (P : A -> Prop) l i (x : A) : Forall P l -> P x -> Forall P (<[i := x]> l).
Proof. intros. by apply Forall_insert. Qed.

Lemma pop_shutdown {A} (q q' : BoundedIngestionQueue A) o : pop q = (o, q') -> shutdown_ q' = shutdown_ q.
Proof. unfold pop. destruct (queue_ q); by intros [= _ <-]. Qed.

Lemma push_shutdown {A} (x : A) q q' ok : push_with_timeout x q = (ok, q') -> shutdown_ q' = shutdown_ q.
Proof. unfold push_with_timeout. destruct (_ || _); by intros [= _ <-]. Qed.

Lemma try_push_shutdown {A} (x : A) q q' ok : try_push x q = (ok, q') -> shutdown_ q' = shutdown_ q.
Proof. unfold try_push. destruct (_ || _); by intros [= _ <-]. Qed.

Lemma bq_pop_shutdown {A} (q q' : BoundedBatchQueue A) o : bq_pop q = (o, q') -> bq_shutdown q' = bq_shutdown q.
Proof. unfold bq_pop. destruct (bq_queue q); by intros [= _ <-]. Qed.

Lemma bq_push_shutdown {A} (x : A) q q' ok : bq_push_with_timeout x q = (ok, q') -> bq_shutdown q' = bq_shutdown q.
Proof. unfold bq_push_with_timeout. destruct (_ || _); by intros [= _ <-]. Qed.

(** A worker that moves is not joined yet. *)
Lemma v_not_joined s i pc : flags_ok s -> validators s !! i = Some pc -> pc <> VDone -> (stage s < 5)%nat.
Proof.
  intros Hf Hi Hne. destruct (Nat.lt_ge_cases (stage s) 5) as [|H]; [done|].
  apply (f_v_joined _ Hf) in H. by eapply Forall_lookup_1 in H.
Qed.

Lemma i_not_joined s i pc : flags_ok s -> inserters s !! i = Some pc -> pc <> IDone -> (stage s < 11)%nat.
Proof.
  intros Hf Hi Hne. destruct (Nat.lt_ge_cases (stage s) 11) as [|H]; [done|].
  apply (f_i_joined _ Hf) in H. by eapply Forall_lookup_1 in H.
Qed.

Lemma a_not_joined s : flags_ok s -> aggregator s <> ADone -> (stage s < 8)%nat.
Proof.
  intros Hf Hne. destruct (Nat.lt_ge_cases (stage s) 8) as [|H]; [done|]. by apply (f_a_joined _ Hf) in H.
Qed.

(** The state with one worker moved keeps its flags if the queues keep theirs. *)
Lemma flags_put_validator s i pc pc' :
  flags_ok s -> validators s !! i = Some pc -> pc <> VDone -> (v_draining pc' = true -> (3 <= stage s)%nat) ->
  flags_ok (put_validator i pc' s).
Proof.
  intros Hf Hi Hne Hd. pose proof (v_not_joined s i pc Hf Hi Hne). destruct Hf. constructor; cbn -[Nat.leb]; try done.
  - intros. lia.
  - by apply forall_put.
Qed.

Lemma flags_put_inserter s i pc pc' :
  flags_ok s -> inserters s !! i = Some pc -> pc <> IDone -> (i_draining pc' = true -> (9 <= stage s)%nat) ->
  flags_ok (put_inserter i pc' s).
Proof.
  intros Hf Hi Hne Hd. pose proof (i_not_joined s i pc Hf Hi Hne). destruct Hf. constructor; cbn -[Nat.leb]; try done.
  - intros. lia.
  - by apply forall_put.
Qed.

Lemma flags_set_aggregator s pc :
  flags_ok s -> aggregator s <> ADone -> (a_draining pc = true -> (7 <= stage s)%nat) -> flags_ok (set_aggregator pc s).
Proof.
  intros Hf Hne Hd. pose proof (a_not_joined s Hf Hne). destruct Hf. constructor; cbn -[Nat.leb]; try done. intros. lia.
Qed.

Lemma flags_set_input s q : flags_ok s -> shutdown_ q = shutdown_ (input_queue s) -> flags_ok (set_input_queue q s).
Proof. intros [] Hq. constructor; cbn -[Nat.leb]; try done; congruence. Qed.

Lemma flags_set_validated s q : flags_ok s -> shutdown_ q = shutdown_ (validated_queue s) -> flags_ok (set_validated_queue q s).
Proof. intros [] Hq. constructor; cbn -[Nat.leb]; try done; congruence. Qed.

Lemma flags_set_batch s q : flags_ok s -> bq_shutdown q = bq_shutdown (batch_queue s) -> flags_ok (set_batch_queue q s).
Proof. intros [] Hq. constructor; cbn -[Nat.leb]; try done; congruence. Qed.

Lemma flags_complete s env r : flags_ok s -> flags_ok (complete env r s).
Proof. by intros []. Qed.

Lemma flags_set_active s l : flags_ok s -> flags_ok (set_active_batch l s).
Proof. by intros []. Qed.

Create HintDb flags discriminated.
#[local] Hint Resolve flags_complete flags_set_active flags_set_input flags_set_validated flags_set_batch
  pop_shutdown push_shutdown try_push_shutdown bq_pop_shutdown bq_push_shutdown : flags.

Lemma v_draining_stage s i pc : flags_ok s -> validators s !! i = Some pc -> v_draining pc = true -> (3 <= stage s)%nat.
Proof. intros Hf Hi. by eapply (Forall_lookup_1 _ _ _ _ (f_v_drain _ Hf)). Qed.

Lemma i_draining_stage s i pc : flags_ok s -> inserters s !! i = Some pc -> i_draining pc = true -> (9 <= stage s)%nat.
Proof. intros Hf Hi. by eapply (Forall_lookup_1 _ _ _ _ (f_i_drain _ Hf)). Qed.

Lemma validation_step_flags i s s' : validation_step i s s' -> flags_ok s -> flags_ok s'.
Proof.
  intros Hstep Hf.
  destruct Hstep as [s Hi Hr|s Hi Hr|s env q Hi Hq|s q Hi Hq|s Hi|s env drain now m Hi He|s env drain now Hi He
                    |s env drain q Hi Hq|s env drain q Hi Hq|s env drain Hi|s env q Hi Hq|s q Hi Hq];
    pose proof (v_draining_stage s i _ Hf Hi) as Hdrain; cbn in Hdrain;
    (eapply flags_put_validator; [by eauto with flags|exact Hi|done|]); cbn.
  - done.
  - intros _. pose proof (f_validation _ Hf) as H. rewrite Hr in H.
    destruct (Nat.leb_spec 4 (stage s)); [lia|done].
  - done.
  - done.
  - rewrite (f_input _ Hf). by destruct (Nat.leb_spec 3 (stage s)).
  - by destruct drain.
  - by destruct drain.
  - by destruct drain.
  - by destruct drain.
  - by destruct (shutdown_ (validated_queue s)), drain.
  - done.
  - done.
Qed.

Lemma insert_step_flags i s s' : insert_step i s s' -> flags_ok s -> flags_ok s'.
Proof.
  intros Hstep Hf.
  destruct Hstep as [s Hi Hr|s Hi Hr|s b q Hi Hq|s q Hi Hq|s Hi|s b drain o Hi|s env rest o drain now Hi
                    |s o drain Hi|s b q Hi Hq|s q Hi Hq];
    pose proof (i_draining_stage s i _ Hf Hi) as Hdrain; cbn in Hdrain;
    (eapply flags_put_inserter; [by eauto with flags|exact Hi|done|]); cbn.
  - done.
  - intros _. pose proof (f_insert _ Hf) as H. rewrite Hr in H.
    destruct (Nat.leb_spec 10 (stage s)); [lia|done].
  - done.
  - done.
  - rewrite (f_batch _ Hf). by destruct (Nat.leb_spec 9 (stage s)).
  - by destruct drain.
  - by destruct drain.
  - by destruct drain.
  - done.
  - done.
Qed.

Lemma flags_flush_active s k :
  flags_ok s -> aggregator s <> ADone -> (forall b, a_draining (AFlush b k) = true -> (7 <= stage s)%nat) ->
  (a_draining (flush_return k) = true -> (7 <= stage s)%nat) -> flags_ok (flush_active k s).
Proof.
  intros Hf Hne H1 H2. unfold flush_active. destruct (active_batch s) as [|e l].
  - by apply flags_set_aggregator.
  - apply flags_set_aggregator; [by eauto with flags|done|apply H1].
Qed.

Lemma flags_add_to_batch s env full more :
  flags_ok s -> aggregator s <> ADone -> (forall b, a_draining (AFlush b full) = true -> (7 <= stage s)%nat) ->
  (a_draining more = true -> (7 <= stage s)%nat) -> flags_ok (add_to_batch env full more s).
Proof.
  intros Hf Hne H1 H2. unfold add_to_batch. destruct (_ <=? _)%nat.
  - apply flags_set_aggregator; [by eauto with flags|done|apply H1].
  - apply flags_set_aggregator; [by eauto with flags|done|done].
Qed.

Lemma aggregator_step_flags s s' : aggregator_step s s' -> flags_ok s -> flags_ok s'.
Proof.
  intros Hstep Hf. pose proof (f_a_drain _ Hf) as Hd.
  destruct Hstep as [s Ha Hr|s Ha Hr|s env q Ha Hq|s q Ha Hq|s Ha|s Ha|s b k q Ha Hq|s b k q Ha Hq|s b k Ha
                    |s env q Ha Hq|s q Ha Hq|s Ha]; rewrite Ha in Hd.
  all: lazymatch goal with
  | |- flags_ok (add_to_batch _ _ _ _) => apply flags_add_to_batch
  | |- flags_ok (flush_active _ _) => apply flags_flush_active
  | _ => apply flags_set_aggregator
  end; [by eauto with flags|cbn; congruence|..]; cbn; try (intros; by apply Hd); try done.
  - intros _. pose proof (f_aggregator _ Hf) as H. rewrite Hr in H.
    destruct (Nat.leb_spec 7 (stage s)); [lia|done].
  - destruct k; cbn in *; try done; auto.
  - destruct (bq_shutdown (batch_queue s)), k; cbn in *; try done; auto.
Qed.

Lemma shutdown_step_flags s s' : shutdown_step s s' -> flags_ok s -> flags_ok s'.
Proof.
  intros Hstep Hf.
  destruct Hstep as [s Hs|s Hs|s Hs|s Hs|s Hs Hj|s Hs|s Hs|s Hs Hj|s Hs|s Hs|s Hs Hj]; destruct Hf; rewrite Hs in *;
    constructor; cbn -[Nat.leb] in *; try done; try (by intros; lia); try (by intros; auto with lia);
    try (eapply Forall_impl; [eassumption|]; cbn; intros pc Hpc Hd; specialize (Hpc Hd); lia).
Qed.

Lemma pipeline_step_flags s s' : pipeline_step s s' -> flags_ok s -> flags_ok s'.
Proof.
  intros [H|i H|H|i H|H] Hf.
  - destruct H as [env s Ha|l1 env l2 s ok q Hs Hq]; [by destruct Hf|].
    apply try_push_shutdown in Hq. destruct Hf. constructor; cbn -[Nat.leb]; try done; congruence.
  - by eapply validation_step_flags.
  - by eapply aggregator_step_flags.
  - by eapply insert_step_flags.
  - by eapply shutdown_step_flags.
Qed.

(** ** Invariants: no envelope is lost or duplicated *)

(** How often the promise [n] occurs among envelopes. *)
Fixpoint occ (n : nat) (l : list IngestionEnvelope) : nat :=
  match l with
  | [] => 0
  | e :: l => (if decide (completion_promise e = n) then 1 else 0) + occ n l
  end.

Lemma occ_app n l1 l2 : occ n (l1 ++ l2) = (occ n l1 + occ n l2)%nat.
Proof. induction l1 as [|e l1 IH]; cbn; [done|]. rewrite IH. lia. Qed.

(** What a worker has in its hands. *)
Definition v_hand (pc : ValidationPc) : list IngestionEnvelope :=
  match pc with VProcess env _ | VPush env _ | VFull env _ => [env] | _ => [] end.
Definition a_hand (pc : AggregatorPc) : list IngestionEnvelope :=
  match pc with AFlush batch _ | AFull batch _ => batch | _ => [] end.
Definition i_hand (pc : InsertPc) : list IngestionEnvelope :=
  match pc with IProcess batch _ => batch | IComplete rest _ _ => rest | _ => [] end.

Fixpoint occ_all {A} (n : nat) (hand : A -> list IngestionEnvelope) (l : list A) : nat :=
  match l with
  | [] => 0
  | x :: l => occ n (hand x) + occ_all n hand l
  end.

Lemma occ_all_app {A} n (hand : A -> list IngestionEnvelope) l1 l2 :
  occ_all n hand (l1 ++ l2) = (occ_all n hand l1 + occ_all n hand l2)%nat.
Proof. induction l1 as [|x l1 IH]; cbn; [done|]. rewrite IH. lia. Qed.

Lemma occ_all_insert {A} n (hand : A -> list IngestionEnvelope) l i x y :
  l !! i = Some x -> (occ_all n hand (<[i := y]> l) + occ n (hand x) = occ_all n hand l + occ n (hand y))%nat.
Proof.
  revert i. induction l as [|z l IH]; intros [|i] H; try done.
  - injection H as ->. cbn. lia.
  - specialize (IH i H). change (<[S i := y]> (z :: l)) with (z :: <[i := y]> l). cbn [occ_all]. lia.
Qed.

Definition b_hand (batch : IngestionBatch) : list IngestionEnvelope := batch.

(** Everything in the pipeline that carries the promise [n]. *)
Definition total (n : nat) (s : Pipeline) : nat :=
  occ n (queue_ (input_queue s)) + occ_all n v_hand (validators s) + occ n (queue_ (validated_queue s))
  + occ n (active_batch s) + occ n (a_hand (aggregator s)) + occ_all n b_hand (bq_queue (batch_queue s))
  + occ_all n i_hand (inserters s) + occ n (completed s).*1.

Definition conserved (s : Pipeline) : Prop := forall n, total n s = occ n (accepted s).

Lemma pop_occ n q o q' : pop q = (o, q') -> occ n (queue_ q) = (occ n (option_list o) + occ n (queue_ q'))%nat.
Proof. unfold pop. destruct (queue_ q) eqn:Hq; intros [= <- <-]; cbn; rewrite ?Hq; cbn; lia. Qed.

Lemma push_occ n x q ok q' :
  push_with_timeout x q = (ok, q') -> occ n (queue_ q') = (occ n (queue_ q) + if ok then occ n [x] else 0)%nat.
Proof.
  unfold push_with_timeout. destruct (_ || _); intros [= <- <-]; cbn; rewrite ?occ_app; cbn; lia.
Qed.

Lemma bq_pop_occ n (q q' : BoundedBatchQueue IngestionBatch) o :
  bq_pop q = (o, q') -> occ_all n b_hand (bq_queue q) = (occ n (from_option b_hand [] o) + occ_all n b_hand (bq_queue q'))%nat.
Proof. unfold bq_pop. destruct (bq_queue q) eqn:Hq; intros [= <- <-]; cbn; rewrite ?Hq; cbn; unfold b_hand; lia. Qed.

Lemma bq_push_occ n (x : IngestionBatch) (q q' : BoundedBatchQueue IngestionBatch) ok :
  bq_push_with_timeout x q = (ok, q') ->
  occ_all n b_hand (bq_queue q') = (occ_all n b_hand (bq_queue q) + if ok then occ n x else 0)%nat.
Proof.
  unfold bq_push_with_timeout. destruct (_ || _); intros [= <- <-]; cbn; [lia|].
  rewrite occ_all_app. cbn. unfold b_hand. lia.
Qed.

(** Reduces the counts after a step to those before it. *)
Ltac count_step n :=
  cbn [input_queue validated_queue batch_queue validators active_batch aggregator inserters accepted completed
       put_validator put_inserter set_validators set_inserters set_aggregator set_active_batch set_input_queue
       set_validated_queue set_batch_queue complete set_completed set_stage set_accepting set_validation_running
       set_aggregator_running set_insert_running set_submitting set_accepted];
  repeat match goal with
  | H : pop _ = _ |- _ => apply (pop_occ n) in H
  | H : push_with_timeout _ _ = _ |- _ => apply (push_occ n) in H
  | H : bq_pop _ = _ |- _ => apply (bq_pop_occ n) in H
  | H : bq_push_with_timeout _ _ = _ |- _ => apply (bq_push_occ n) in H
  end;
  rewrite ?fmap_app, ?occ_app.

Lemma validation_step_conserves i s s' : validation_step i s s' -> flags_ok s -> conserved s -> conserved s'.
Proof.
  intros Hstep Hf Hc n. specialize (Hc n). unfold total in *.
  destruct Hstep as [s Hi Hr|s Hi Hr|s env q Hi Hq|s q Hi Hq|s Hi|s env drain now m Hi He|s env drain now Hi He
                    |s env drain q Hi Hq|s env drain q Hi Hq|s env drain Hi|s env q Hi Hq|s q Hi Hq];
    count_step n;
    match goal with |- context [<[i := ?y]> _] => pose proof (occ_all_insert n v_hand _ i _ y Hi) as Hins end.
  - cbn in Hins. lia.
  - cbn in Hins. lia.
  - cbn in Hins, Hq. lia.
  - cbn in Hins, Hq. lia.
  - destruct (shutdown_ (input_queue s)); cbn in *; lia.
  - destruct drain; cbn in *; lia.
  - cbn in *. lia.
  - destruct drain; cbn in *; lia.
  - cbn in *. lia.
  - rewrite (f_validated _ Hf) in *. pose proof (v_not_joined s i _ Hf Hi ltac:(done)).
    destruct (Nat.leb_spec 6 (stage s)); [lia|]. cbn in *. lia.
  - cbn in *. lia.
  - cbn in *. lia.
Qed.

Lemma insert_step_conserves i s s' : insert_step i s s' -> conserved s -> conserved s'.
Proof.
  intros Hstep Hc n. specialize (Hc n). unfold total in *.
  destruct Hstep as [s Hi Hr|s Hi Hr|s b q Hi Hq|s q Hi Hq|s Hi|s b drain o Hi|s env rest o drain now Hi
                    |s o drain Hi|s b q Hi Hq|s q Hi Hq];
    count_step n;
    match goal with |- context [<[i := ?y]> _] => pose proof (occ_all_insert n i_hand _ i _ y Hi) as Hins end;
    try (cbn in *; unfold b_hand in *; lia).
  - destruct (bq_shutdown (batch_queue s)); cbn in *; lia.
  - destruct drain; cbn in *; lia.
Qed.

Lemma flush_active_accepted k s : accepted (flush_active k s) = accepted s.
Proof. unfold flush_active. by destruct (active_batch s). Qed.

Lemma add_to_batch_accepted env full more s : accepted (add_to_batch env full more s) = accepted s.
Proof. unfold add_to_batch. by destruct (_ <=? _)%nat. Qed.

Lemma flush_active_total n k s : a_hand (aggregator s) = [] -> a_hand (flush_return k) = [] -> total n (flush_active k s) = total n s.
Proof.
  intros Ha Hk. unfold flush_active, total. destruct (active_batch s) as [|e l] eqn:Hl; count_step n; rewrite ?Hl, ?Ha, ?Hk; cbn; lia.
Qed.

Lemma add_to_batch_total n env full more s :
  a_hand (aggregator s) = [] -> a_hand more = [] -> total n (add_to_batch env full more s) = (total n s + occ n [env])%nat.
Proof.
  intros Ha Hm. unfold add_to_batch, total. destruct (_ <=? _)%nat; count_step n; rewrite ?Ha, ?Hm; cbn [a_hand]; rewrite ?occ_app; cbn; lia.
Qed.

Lemma aggregator_step_conserves s s' : aggregator_step s s' -> flags_ok s -> conserved s -> conserved s'.
Proof.
  intros Hstep Hf Hc n. specialize (Hc n).
  destruct Hstep as [s Ha Hr|s Ha Hr|s env q Ha Hq|s q Ha Hq|s Ha|s Ha|s b k q Ha Hq|s b k q Ha Hq|s b k Ha
                    |s env q Ha Hq|s q Ha Hq|s Ha].
  - unfold total in *. count_step n. rewrite Ha in Hc. done.
  - unfold total in *. count_step n. rewrite Ha in Hc. done.
  - rewrite add_to_batch_accepted, add_to_batch_total by (cbn; by rewrite ?Ha). unfold total in *. count_step n.
    cbn in Hq |- *. lia.
  - unfold total in *. count_step n. rewrite Ha in Hc. cbn in *. lia.
  - unfold total in *. count_step n. rewrite Ha in Hc. done.
  - by rewrite flush_active_accepted, flush_active_total by by rewrite ?Ha.
  - unfold total in *. count_step n. rewrite Ha in Hc. destruct k; cbn in *; lia.
  - unfold total in *. count_step n. rewrite Ha in Hc. cbn in *. lia.
  - unfold total in *. count_step n. rewrite Ha in Hc. rewrite (f_batch _ Hf).
    pose proof (a_not_joined s Hf ltac:(congruence)). destruct (Nat.leb_spec 9 (stage s)); [lia|]. done.
  - rewrite add_to_batch_accepted, add_to_batch_total by (cbn; by rewrite ?Ha). unfold total in *. count_step n.
    cbn in Hq |- *. lia.
  - unfold total in *. count_step n. rewrite Ha in Hc. cbn in *. lia.
  - by rewrite flush_active_accepted, flush_active_total by by rewrite ?Ha.
Qed.

Lemma pipeline_step_conserves s s' : pipeline_step s s' -> flags_ok s -> conserved s -> conserved s'.
Proof.
  intros [H|i H|H|i H|H] Hf Hc.
  - intros n. specialize (Hc n). unfold total in *. destruct H as [env s Ha|l1 env l2 s ok q Hs Hq]; count_step n; [done|].
    rewrite <- push_with_timeout_try_push in Hq. apply (push_occ n) in Hq.
    destruct ok; rewrite ?occ_app; cbn in *; lia.
  - by eapply validation_step_conserves.
  - by eapply aggregator_step_conserves.
  - by eapply insert_step_conserves.
  - intros n. specialize (Hc n). by destruct H.
Qed.

(** ** Invariants: what is empty once a stage has ended, and the sizes *)

Definition batch_ok (batch : IngestionBatch) : Prop := (1 <= length batch <= batch_limit)%nat.

Record drain_ok (s : Pipeline) : Prop := {
  d_input : VDone ∈ validators s -> queue_ (input_queue s) = [];
  d_validated : a_finishing (aggregator s) = true -> queue_ (validated_queue s) = [];
  d_active : a_finishing (aggregator s) = true -> aggregator s <> AFinal -> active_batch s = [];
  d_batch : IDone ∈ inserters s -> bq_queue (batch_queue s) = [];
  d_workers : length (validators s) <> 0%nat /\ length (inserters s) <> 0%nat;
  d_growing : (length (active_batch s) < batch_limit)%nat;
  d_flushing : forall batch k, aggregator s = AFlush batch k \/ aggregator s = AFull batch k -> batch_ok batch;
  d_batches : Forall batch_ok (bq_queue (batch_queue s));
  d_input_wf : queue_wf (input_queue s);
  d_validated_wf : queue_wf (validated_queue s);
  d_batch_wf : (length (bq_queue (batch_queue s)) <= bq_capacity (batch_queue s))%nat }.

Lemma batch_limit_pos : (1 <= batch_limit)%nat.
Proof. unfold batch_limit. destruct (Nat.eqb_spec max_batch_size 0); lia. Qed.

Lemma queue_wf_pop {A} (q q' : BoundedIngestionQueue A) o : pop q = (o, q') -> queue_wf q -> queue_wf q'.
Proof.
  intros Hq Hwf. destruct (queue_call_spec Pop q [] (option_list o) q' Hwf) as [? _]; [|done]. cbn. by rewrite Hq.
Qed.

Lemma queue_wf_push {A} (x : A) q q' ok : push_with_timeout x q = (ok, q') -> queue_wf q -> queue_wf q'.
Proof.
  intros Hq Hwf. destruct (queue_call_spec (PushWithTimeout x) q (if ok then [x] else []) [] q' Hwf) as [? _]; [|done].
  cbn. by rewrite Hq.
Qed.

Lemma pop_cases {A} (q q' : BoundedIngestionQueue A) o :
  pop q = (o, q') -> match o with Some x => queue_ q = x :: queue_ q' | None => queue_ q = [] /\ queue_ q' = [] end.
Proof. unfold pop. destruct (queue_ q) eqn:Hq; by intros [= <- <-]. Qed.

Lemma bq_pop_cases {A} (q q' : BoundedBatchQueue A) o :
  bq_pop q = (o, q') -> bq_capacity q' = bq_capacity q /\
  match o with Some x => bq_queue q = x :: bq_queue q' | None => bq_queue q = [] /\ bq_queue q' = [] end.
Proof. unfold bq_pop. destruct (bq_queue q) eqn:Hq; by intros [= <- <-]. Qed.

Lemma bq_push_cases {A} (x : A) q q' ok :
  bq_push_with_timeout x q = (ok, q') -> bq_capacity q' = bq_capacity q /\
  (if ok then bq_queue q' = bq_queue q ++ [x] /\ (length (bq_queue q) < bq_capacity q)%nat else bq_queue q' = bq_queue q).
Proof.
  rewrite bq_push_with_timeout_try_push. unfold bq_try_push. destruct (bq_shutdown q); [by intros [= <- <-]|]. cbn [orb].
  destruct (Nat.leb_spec (bq_capacity q) (length (bq_queue q))); by intros [= <- <-].
Qed.

(** A moved worker among the finished ones. *)
Lemma done_put {A} (l : list A) i x y z : l !! i = Some x -> y ∈ <[i := z]> l -> y = z \/ y ∈ l.
Proof.
  intros Hi (j & Hj)%list_elem_of_lookup. destruct (decide (i = j)) as [->|Hne].
  - rewrite list_lookup_insert_eq in Hj by (by eapply lookup_lt_Some). left. congruence.
  - rewrite list_lookup_insert_ne in Hj by done. right. by eapply list_elem_of_lookup_2.
Qed.

Lemma v_done_stage s : flags_ok s -> VDone ∈ validators s -> (3 <= stage s)%nat.
Proof. intros Hf (i & Hi)%list_elem_of_lookup. by eapply v_draining_stage. Qed.

Lemma i_done_stage s : flags_ok s -> IDone ∈ inserters s -> (9 <= stage s)%nat.
Proof. intros Hf (i & Hi)%list_elem_of_lookup. by eapply i_draining_stage. Qed.

Lemma validation_step_drain i s s' : validation_step i s s' -> flags_ok s -> drain_ok s -> drain_ok s'.
Proof.
  intros Hstep Hf Hd.
  destruct Hstep as [s Hi Hr|s Hi Hr|s env q Hi Hq|s q Hi Hq|s Hi|s env drain now m Hi He|s env drain now Hi He
                    |s env drain q Hi Hq|s env drain q Hi Hq|s env drain Hi|s env q Hi Hq|s q Hi Hq];
    pose proof (v_not_joined s i _ Hf Hi ltac:(done)) as Hst;
    assert (Hfin : a_finishing (aggregator s) = true -> False)
      by (intros H; pose proof (f_a_drain _ Hf ltac:(by destruct (aggregator s) as [| | |? []|? []| | |])); lia);
    destruct Hd; constructor;
    cbn [input_queue validated_queue batch_queue validators active_batch aggregator inserters accepted completed
       put_validator set_validators set_input_queue set_validated_queue complete set_completed];
    rewrite ?length_insert; try done; try (by intros; destruct Hfin);
    try (by eapply queue_wf_pop); try (by eapply queue_wf_push);
    try (intros [Heq|Hin]%(done_put _ _ _ _ _ Hi);
         [by first [discriminate Heq|destruct drain; discriminate Heq|destruct (shutdown_ _); try destruct drain; discriminate Heq]|]);
    try (apply pop_cases in Hq); try (by apply d_input0); try (apply d_input0 in Hin; congruence).
  - destruct Hq as [_ Hq]. done.
  - destruct Hq as [_ Hq]. done.
Qed.

Lemma insert_step_drain i s s' : insert_step i s s' -> flags_ok s -> drain_ok s -> drain_ok s'.
Proof.
  intros Hstep Hf Hd.
  destruct Hstep as [s Hi Hr|s Hi Hr|s b q Hi Hq|s q Hi Hq|s Hi|s b drain o Hi|s env rest o drain now Hi
                    |s o drain Hi|s b q Hi Hq|s q Hi Hq];
    try (apply bq_pop_cases in Hq as [Hcap Hq]); destruct Hd; constructor;
    cbn [input_queue validated_queue batch_queue validators active_batch aggregator inserters accepted completed
       put_inserter set_inserters set_batch_queue complete set_completed];
    rewrite ?length_insert; try done;
    try (intros [Heq|Hin]%(done_put _ _ _ _ _ Hi);
         [by first [discriminate Heq|destruct drain; discriminate Heq|destruct (bq_shutdown _); discriminate Heq]|]);
    try (by apply d_batch0); try (apply d_batch0 in Hin; congruence);
    try (match type of Hq with _ /\ _ => destruct Hq as [_ Hq]; rewrite Hq; (done || cbn; lia) end);
    try (rewrite Hq in d_batches0; by apply Forall_cons in d_batches0 as [_ ?]);
    try (rewrite Hq in d_batch_wf0; cbn in d_batch_wf0; lia).
Qed.

(** The aggregator between two of its places, with its queue and batch unchanged. *)
Lemma drain_set_aggregator s pc :
  drain_ok s -> (a_finishing pc = true -> queue_ (validated_queue s) = [] /\ (pc <> AFinal -> active_batch s = [])) ->
  (forall batch k, pc = AFlush batch k \/ pc = AFull batch k -> batch_ok batch) -> drain_ok (set_aggregator pc s).
Proof. intros [] H1 H2. constructor; cbn; try done; intros; by apply H1. Qed.

Lemma drain_set_batch s q :
  drain_ok s -> Forall batch_ok (bq_queue q) -> (length (bq_queue q) <= bq_capacity q)%nat ->
  (IDone ∈ inserters s -> bq_queue q = []) -> drain_ok (set_batch_queue q s).
Proof. intros [] H1 H2 H3. by constructor. Qed.

Lemma drain_set_validated s q :
  drain_ok s -> queue_wf q -> (a_finishing (aggregator s) = true -> queue_ q = []) -> drain_ok (set_validated_queue q s).
Proof. intros [] H1 H2. by constructor. Qed.

Lemma drain_flush_active s k :
  drain_ok s -> (a_finishing (flush_return k) = true -> queue_ (validated_queue s) = []) ->
  (forall b, a_finishing (AFlush b k) = a_finishing (flush_return k)) -> (forall b j, flush_return k <> AFlush b j /\ flush_return k <> AFull b j) ->
  drain_ok (flush_active k s).
Proof.
  intros Hd Hv Hk Hr. pose proof (d_growing _ Hd) as Hg. unfold flush_active. destruct (active_batch s) as [|e l] eqn:Hl.
  - apply drain_set_aggregator; [done| |intros b j; destruct (Hr b j); naive_solver]. by auto.
  - apply drain_set_aggregator.
    + destruct Hd. constructor; cbn; try done. apply batch_limit_pos.
    + rewrite Hk. by auto.
    + intros b j [[= <- _]|[=]]. unfold batch_ok. cbn in *. lia.
Qed.

Lemma drain_add_to_batch s env full more :
  drain_ok s -> a_finishing more = false -> (forall b, a_finishing (AFlush b full) = false) ->
  (forall b j, more <> AFlush b j /\ more <> AFull b j) -> a_finishing (aggregator s) = false ->
  drain_ok (add_to_batch env full more s).
Proof.
  intros Hd Hm Hfull Hr Hfin. pose proof (d_growing _ Hd) as Hg. pose proof batch_limit_pos. unfold add_to_batch.
  destruct (Nat.leb_spec batch_limit (length (active_batch s ++ [env]))) as [Hle|Hlt]; apply drain_set_aggregator.
  - destruct Hd. by constructor.
  - rewrite Hfull. done.
  - intros b j [[= <- _]|[=]]. unfold batch_ok. rewrite length_app in *. cbn in *. lia.
  - destruct Hd. constructor; cbn; try done. by rewrite Hfin.
  - rewrite Hm. done.
  - intros b j. destruct (Hr b j); naive_solver.
Qed.

Lemma aggregator_step_drain s s' : aggregator_step s s' -> flags_ok s -> drain_ok s -> drain_ok s'.
Proof.
  intros Hstep Hf Hd. pose proof (d_flushing _ Hd) as Hb. pose proof (d_validated _ Hd) as Hv. pose proof (d_active _ Hd) as Hact.
  assert (Hjoin : aggregator s <> ADone -> IDone ∈ inserters s -> False).
  { intros H1%a_not_joined H2%i_done_stage; [lia|done|done]. }
  destruct Hstep as [s Ha Hr|s Ha Hr|s env q Ha Hq|s q Ha Hq|s Ha|s Ha|s b k q Ha Hq|s b k q Ha Hq|s b k Ha
                    |s env q Ha Hq|s q Ha Hq|s Ha]; rewrite Ha in *; cbn in Hv, Hact.
  - apply drain_set_aggregator; naive_solver.
  - apply drain_set_aggregator; naive_solver.
  - apply drain_add_to_batch; cbn; rewrite ?Ha; try done.
    apply drain_set_validated; [done|eapply queue_wf_pop; [done|apply Hd]|by rewrite Ha].
  - apply drain_set_aggregator; [|done|naive_solver].
    apply drain_set_validated; [done|eapply queue_wf_pop; [done|apply Hd]|by rewrite Ha].
  - apply drain_set_aggregator; naive_solver.
  - by apply drain_flush_active.
  - specialize (Hb b k (or_introl eq_refl)). apply bq_push_cases in Hq as (Hcap & Hq & Hlt).
    apply drain_set_aggregator; [apply drain_set_batch; [done|..]| |].
    + rewrite Hq. apply Forall_app. split; [apply Hd|by constructor].
    + rewrite Hq, length_app, Hcap. cbn. lia.
    + intros H. by destruct Hjoin.
    + destruct k; cbn in *; try done. intros _. split; [by apply Hv|intros _; by apply Hact].
    + intros b' j. destruct k; cbn; naive_solver.
  - specialize (Hb b k (or_introl eq_refl)). apply bq_push_cases in Hq as (Hcap & Hq).
    apply drain_set_aggregator; [apply drain_set_batch; [done|..]| |].
    + rewrite Hq. apply Hd.
    + rewrite Hq, Hcap. apply Hd.
    + rewrite Hq. apply Hd.
    + destruct k; cbn in *; try done. intros _. split; [by apply Hv|intros _; by apply Hact].
    + intros b' j [[=]|[= <- _]]. done.
  - specialize (Hb b k (or_intror eq_refl)). apply drain_set_aggregator; [done| |].
    + destruct (bq_shutdown (batch_queue s)), k; cbn in *; try done; intros _; (split; [by apply Hv|intros _; by apply Hact]).
    + intros b' j. destruct (bq_shutdown (batch_queue s)); [destruct k; cbn; naive_solver|]. intros [[= <- _]|[=]]. done.
  - apply drain_add_to_batch; cbn; rewrite ?Ha; try done.
    apply drain_set_validated; [done|eapply queue_wf_pop; [done|apply Hd]|by rewrite Ha].
  - apply drain_set_aggregator; [|by apply pop_cases in Hq as [_ ?]|naive_solver].
    apply drain_set_validated; [done|eapply queue_wf_pop; [done|apply Hd]|by rewrite Ha].
  - by apply drain_flush_active.
Qed.

Lemma shutdown_step_drain s s' : shutdown_step s s' -> drain_ok s -> drain_ok s'.
Proof. intros Hstep []. destruct Hstep; constructor; cbn; try done; by destruct d_input_wf0, d_validated_wf0. Qed.

Lemma submit_step_drain s s' : submit_step s s' -> flags_ok s -> drain_ok s -> drain_ok s'.
Proof.
  intros Hstep Hf Hd. destruct Hstep as [env s Ha|l1 env l2 s ok q Hs Hq]; [by destruct Hd|].
  rewrite <- push_with_timeout_try_push in Hq. pose proof (queue_wf_push _ _ _ _ Hq (d_input_wf _ Hd)) as Hwf.
  destruct Hd. constructor; cbn; try done. intros Hdone. pose proof (v_done_stage s Hf Hdone) as Hst.
  assert (Hsd : shutdown_ (input_queue s) = true) by (rewrite (f_input _ Hf); by apply Nat.leb_le).
  unfold push_with_timeout in Hq. rewrite Hsd in Hq. injection Hq as _ <-. cbn. by apply d_input0.
Qed.

(** ** Reachable states *)

Inductive reachable (max_queued workers : nat) : Pipeline -> Prop :=
  | reach_start : reachable max_queued workers (Pipeline_start max_queued workers)
  | reach_step s s' : reachable max_queued workers s -> pipeline_step s s' -> reachable max_queued workers s'.

Lemma start_ok max_queued workers :
  let s := Pipeline_start max_queued workers in flags_ok s /\ conserved s /\ drain_ok s.
Proof.
  assert (Hrep : forall (A : Type) n (hand : A -> list IngestionEnvelope) m x, hand x = [] -> occ_all n hand (replicate m x) = 0%nat).
  { intros A n hand m x Hx. induction m as [|m IH]; cbn; [done|]. by rewrite Hx, IH. }
  assert (Hcap : forall c, queue_wf (BoundedIngestionQueue_new (A := IngestionEnvelope) c)).
  { intros c. constructor; cbn; [|split; [lia|]]; destruct (Nat.eqb_spec c 0); lia. }
  assert (Hw : forall m, (if (m =? 0)%nat then 4%nat else m) <> 0%nat) by (intros m; destruct (Nat.eqb_spec m 0); lia).
  pose proof batch_limit_pos. cbn zeta. split_and!.
  - constructor; try done; cbn [validators inserters stage Pipeline_start]; try lia; by apply Forall_replicate.
  - intros n. unfold total. cbn [input_queue validated_queue batch_queue validators active_batch aggregator inserters accepted completed Pipeline_start].
    by rewrite !Hrep.
  - constructor; cbn; try done; try (by rewrite ?length_replicate); try lia.
    naive_solver.
Qed.

Lemma reachable_ok max_queued workers s :
  reachable max_queued workers s -> flags_ok s /\ conserved s /\ drain_ok s.
Proof.
  induction 1 as [|s s' _ (Hf & Hc & Hd) Hstep]; [apply start_ok|]. split_and!.
  - by eapply pipeline_step_flags.
  - by eapply pipeline_step_conserves.
  - destruct Hstep as [H|i H|H|i H|H].
    + by eapply submit_step_drain.
    + by eapply validation_step_drain.
    + by eapply aggregator_step_drain.
    + by eapply insert_step_drain.
    + by eapply shutdown_step_drain.
Qed.

Lemma occ_all_idle {A} n (hand : A -> list IngestionEnvelope) x l : hand x = [] -> Forall (eq x) l -> occ_all n hand l = 0%nat.
Proof. intros Hx. induction 1 as [|y l <- _ IH]; cbn; [done|]. by rewrite Hx, IH. Qed.

(** Everything is empty once the last pool has been joined. *)
Lemma stopped_total s n : flags_ok s -> drain_ok s -> stage s = 11%nat -> total n s = occ n (completed s).*1.
Proof.
  intros Hf Hd Hs. pose proof (f_v_joined _ Hf ltac:(lia)) as Hv. pose proof (f_a_joined _ Hf ltac:(lia)) as Ha.
  pose proof (f_i_joined _ Hf ltac:(lia)) as Hi. destruct (d_workers _ Hd) as [Hnv Hni]. unfold total.
  rewrite (occ_all_idle n v_hand VDone) by done. rewrite (occ_all_idle n i_hand IDone) by done.
  rewrite (d_input _ Hd), (d_validated _ Hd), (d_active _ Hd), (d_batch _ Hd), Ha; [done|..]; rewrite ?Ha; try done.
  - destruct (inserters s) as [|pc l]; [done|]. apply Forall_cons in Hi as [<- _]. left.
  - destruct (validators s) as [|pc l]; [done|]. apply Forall_cons in Hv as [<- _]. left.
Qed.

(** ** The configured sizes *)

Definition caps (s : Pipeline) : nat * nat * nat :=
  (capacity_ (input_queue s), capacity_ (validated_queue s), bq_capacity (batch_queue s)).

Lemma pop_capacity {A} (q q' : BoundedIngestionQueue A) o : pop q = (o, q') -> capacity_ q' = capacity_ q.
Proof. unfold pop. destruct (queue_ q); by intros [= _ <-]. Qed.

Lemma push_capacity {A} (x : A) q q' ok : push_with_timeout x q = (ok, q') -> capacity_ q' = capacity_ q.
Proof. unfold push_with_timeout. destruct (_ || _); by intros [= _ <-]. Qed.

Lemma pipeline_step_caps s s' : pipeline_step s s' -> caps s' = caps s.
Proof.
  intros [H|i H|H|i H|H]; destruct H; unfold add_to_batch, flush_active;
    try (destruct (_ <=? _)%nat); try (destruct (active_batch _));
    repeat match goal with
    | H : pop _ = _ |- _ => apply pop_capacity in H
    | H : try_push _ _ = _ |- _ => rewrite <- push_with_timeout_try_push in H
    | H : push_with_timeout _ _ = _ |- _ => apply push_capacity in H
    | H : bq_pop _ = _ |- _ => apply bq_pop_cases in H as [H _]
    | H : bq_push_with_timeout _ _ = _ |- _ => apply bq_push_cases in H as [H _]
    end; unfold caps; cbn; congruence.
Qed.

Lemma reachable_caps max_queued workers s :
  reachable max_queued workers s -> caps s = (Nat.max 1 max_queued, Nat.max 1 max_queued, 32%nat).
Proof.
  induction 1 as [|s s' _ IH Hstep]; [by destruct max_queued|]. by rewrite (pipeline_step_caps _ _ Hstep).
Qed.

End pipeline.

(** ** Claims *)

Section claims.
Context (capacity : string -> Z) (sizeof_AuditEvent : Z) (max_batch_size max_queued workers : nat).
#[local] Abbreviation reach := (reachable capacity sizeof_AuditEvent max_batch_size max_queued workers).

(** C39.  The pipeline answers every accepted envelope exactly once.  In every
    interleaving of submitters, workers, aggregator and shutdown, a promise is
    answered or still inside the pipeline as often as its envelope was accepted, so it
    is never answered twice and no envelope is lost on the way, a refused push
    included; and when [shutdown] has returned, all accepted envelopes have been
    answered and nothing is left inside. *)
Theorem pipeline_answers_exactly_once (s : Pipeline) (Hs : reach s) :
  (forall n, (occ n (completed s).*1 <= occ n (accepted s) /\ total n s = occ n (accepted s))%nat) /\
  (stage s = 11%nat -> forall n, occ n (completed s).*1 = occ n (accepted s)).
Proof.
  destruct (reachable_ok _ _ _ _ _ s Hs) as (Hf & Hc & Hd). split.
  - intros n. specialize (Hc n). unfold total in *. lia.
  - intros Hstage n. rewrite <- (Hc n). symmetry. by eapply stopped_total.
Qed.

(** The pipeline's memory is bounded: in every reachable state both envelope
    queues are within the configured length, at most 32 batches wait for insertion,
    and every batch handed to the repository has between one and the configured
    number of events. *)
Theorem pipeline_bounds (s : Pipeline) (Hs : reach s) :
  (length (queue_ (input_queue s)) <= Nat.max 1 max_queued)%nat /\
  (length (queue_ (validated_queue s)) <= Nat.max 1 max_queued)%nat /\
  (length (bq_queue (batch_queue s)) <= 32)%nat /\
  Forall (fun batch => 1 <= length batch <= batch_limit max_batch_size)%nat (bq_queue (batch_queue s)).
Proof.
  destruct (reachable_ok _ _ _ _ _ s Hs) as (_ & _ & Hd). pose proof (reachable_caps _ _ _ _ _ s Hs) as [= <- Hv <-].
  destruct Hd as [_ _ _ _ _ _ _ Hb [_ H1] [_ H2] H3]. split_and!; [lia|lia|lia|exact Hb].
Qed.

End claims.

(** ** A run

    One envelope is accepted, refused by validation, and the pipeline is shut down. *)

Definition sample_envelope : IngestionEnvelope := mkEnvelope (sample_event "login" []) 7.

(** Extends the run [H] by the step the tactic [c] finds. *)
Ltac fwd H c :=
  refine ((fun H2 => _) (reach_step _ _ _ _ _ _ _ H _)); [|c; first [reflexivity|repeat constructor]];
  clear H; rename H2 into H;
  lazymatch type of H with reachable _ _ _ _ _ ?s => let s' := eval vm_compute in s in change s with s' in H end.

Lemma sample_run :
  exists s, reachable str_size 400 10 5 1 s /\ stage s = 11%nat /\ completion_promise <$> accepted s = [7%nat].
Proof.
  pose proof (reach_start str_size 400 10 5 1) as H.
  fwd H ltac:(apply step_submit, (submit_check sample_envelope)).
  fwd H ltac:(apply step_submit; eapply (submit_push [] sample_envelope [])).
  do 4 fwd H ltac:(apply step_shutdown; econstructor).
  fwd H ltac:(eapply (step_validation _ _ _ _ _ 0), v_stopped).
  fwd H ltac:(eapply (step_validation _ _ _ _ _ 0), v_drain).
  fwd H ltac:(eapply (step_validation _ _ _ _ _ 0), (v_reject _ _ _ _ _ _ (from_ms 1700000000000))).
  fwd H ltac:(eapply (step_validation _ _ _ _ _ 0), v_drained).
  do 3 fwd H ltac:(apply step_shutdown; econstructor).
  fwd H ltac:(apply step_aggregator, a_stopped). fwd H ltac:(eapply step_aggregator, a_drained).
  fwd H ltac:(apply step_aggregator, a_final).
  do 3 fwd H ltac:(apply step_shutdown; econstructor).
  fwd H ltac:(eapply (step_insert _ _ _ _ _ 0), i_stopped). fwd H ltac:(eapply (step_insert _ _ _ _ _ 0), i_drained).
  fwd H ltac:(eapply (step_insert _ _ _ _ _ 1), i_stopped). fwd H ltac:(eapply (step_insert _ _ _ _ _ 1), i_drained).
  fwd H ltac:(apply step_shutdown; econstructor).
  eexists. split; [exact H|]. split; reflexivity.
Qed.

Lemma pipeline_answers_exactly_once_witness :
  exists s, reachable str_size 400 10 5 1 s /\ occ 7 (completed s).*1 = 1%nat.
Proof.
  destruct sample_run as (s & Hs & Hstage & Hacc). exists s. split; [exact Hs|].
  rewrite (proj2 (pipeline_answers_exactly_once str_size 400 10 5 1 s Hs) Hstage 7%nat).
  destruct (accepted s) as [|e [|? ?]]; try discriminate Hacc. injection Hacc as He. cbn. rewrite He. reflexivity.
Defined.

Lemma pipeline_bounds_witness :
  exists s, reachable str_size 400 10 5 1 s /\ (length (queue_ (input_queue s)) <= 5)%nat.
Proof.
  destruct sample_run as (s & Hs & _). exists s. split; [exact Hs|].
  apply (pipeline_bounds str_size 400 10 5 1 s Hs).
Defined.
