(* ===== verification/AuditIngest.v ===== *)
(** * Synchronous ingestion of audit events

    Models [src/audit/service/audit_ingestion_service.cpp] with the acknowledgements of
    [src/audit/ingestion/acknowledgement_manager.{hpp,cpp}] ([on_batch_persisted],
    [on_batch_failed] and the reservation guard) over the deduplication cache, and the
    default [insert_batch_classified] of [audit_event_repository_interface.hpp].

    [ingest_single] is a machine of threads: each call runs from its validation to the
    reservation in the cache, through the insertion, to the acknowledgement, and any
    number of calls interleave between those points.  The repository is ClickHouse's
    table of rows, with the outcome of every insertion free: it may commit, fail, be
    ambiguous or throw, and in the last two cases the rows may or may not be there.
    [ingest_batch] is the function of one call. *)

From S2P Require Import Prelude Ids Bytes AuditEvent AuditValidation Dedup IngestQueue Pipeline.

(** ** The repository's answers *)

Inductive RepositoryWriteStatus := WriteCommitted | DeterministicFailure | AmbiguousOutcome.

Record RepositoryBatchWriteResult := mkWrite {
  write_status : RepositoryWriteStatus; write_error_code : string; sanitized_reason : string }.

(** What an insertion did: the answer of [insert_batch_classified] or an exception,
    and whether the rows are in the table. *)
Inductive WriteOutcome := Wrote (r : RepositoryBatchWriteResult) (stored : bool) | Threw (stored : bool).

(** A repository that is right about what it knows: a commit is stored, a
    deterministic failure is not. *)
Definition honest (w : WriteOutcome) : Prop :=
  match w with
  | Wrote r stored =>
      match write_status r with
      | WriteCommitted => stored = true
      | DeterministicFailure => stored = false
      | AmbiguousOutcome => True
      end
  | Threw _ => True
  end.

(** [insert_batch_classified] of the interface, from what [insert_batch] returns. *)
Definition insert_batch_classified (ok : bool) : RepositoryBatchWriteResult :=
  if ok then mkWrite WriteCommitted EmptyString EmptyString
  else mkWrite DeterministicFailure "PERSISTENCE_FAILED" "ClickHouse batch insertion failed".

Definition is_stored (w : WriteOutcome) : bool := match w with Wrote _ b => b | Threw b => b end.

(** ** Results *)

Definition failure_status (r : RepositoryBatchWriteResult) : IngestionOutcomeStatus :=
  match write_status r with AmbiguousOutcome => PersistenceAmbiguous | _ => PersistenceFailed end.

Definition is_committed (r : RepositoryBatchWriteResult) : bool :=
  match write_status r with WriteCommitted => true | _ => false end.

Definition write_result (r : RepositoryBatchWriteResult) (received : Z) : IngestionResult :=
  if is_committed r then mkResult true PersistedNew EmptyString EmptyString received
  else mkResult false (failure_status r) (write_error_code r) (sanitized_reason r) received.

Definition validation_rejected (errors : AuditValidationResult) (now : Z) : IngestionResult :=
  mkResult false ValidationRejected "INVALID_ARGUMENT"
    (match errors with [] => "Validation failed"%string | err :: _ => err_message err end) now.

Definition conflict_result (received : Z) : IngestionResult :=
  mkResult false IdempotencyConflict "ALREADY_EXISTS"
    "Idempotency conflict: event_id already exists with different payload" received.

Definition ack_ok (ack : PersistAckResult) : bool :=
  match ack_status ack with PersistedNew | DuplicateCoalesced => true | _ => false end.

(** What a coalesced caller answers once the future is ready. *)
Definition coalesced_result (ack : PersistAckResult) : IngestionResult :=
  mkResult (ack_ok ack) (if ack_ok ack then DuplicateCoalesced else ack_status ack) (ack_error_code ack)
    (ack_diagnostic_message ack) (ack_received_at ack).

Definition timeout_result (received : Z) : IngestionResult :=
  mkResult false PersistenceAmbiguous "DEADLINE_EXCEEDED" "In-flight persistence acknowledgment timed out" received.

(** The acknowledgement [on_batch_failed] hands to the waiters, and the one of the
    guard when the insertion throws. *)
Definition failure_ack (r : RepositoryBatchWriteResult) (id : EventId) (received : Z) : PersistAckResult :=
  mkAck (failure_status r) id received (write_error_code r) (sanitized_reason r).

Definition guard_ack (id : EventId) (received : Z) : PersistAckResult :=
  mkAck PersistenceFailed id received "REPOSITORY_ERROR" "ClickHouse batch persistence insertion failed".

(** ** [ingest_single] *)

Section ingest.
Context (sha256 : list Z -> list Z) (capacity : string -> Z) (sizeof_AuditEvent : Z) (dedup_enabled : bool).

#[local] Abbreviation fingerprint := (compute_fingerprint sha256).
#[local] Abbreviation check := (validate capacity sizeof_AuditEvent default_limits).

(** Where a call of [ingest_single] for an event stands; the event carries the receive
    time the call settled on. *)
Inductive IngestPc :=
  | Inserting (e : AuditEvent) (steady : Z)                (** owns the reservation *)
  | Acking (e : AuditEvent) (steady : Z) (w : WriteOutcome)   (** the insertion ended *)
  | Direct (e : AuditEvent)                                (** inserts without a reservation *)
  | Waiting (e : AuditEvent) (promise : nat)               (** on the future of another call *)
  | Answered (e : AuditEvent) (r : IngestionResult)
  | Raised (e : AuditEvent).                               (** the exception left the call *)

Record Service := mkService {
  cache : BoundedDeduplicationCache;
  rows : list AuditEvent;
  calls : gmap nat IngestPc }.

Definition set_call (i : nat) (pc : IngestPc) (s : Service) : Service := mkService (cache s) (rows s) (<[i := pc]> (calls s)).
Definition set_cache (c : BoundedDeduplicationCache) (s : Service) : Service := mkService c (rows s) (calls s).

Definition received_or (now : Z) (e : AuditEvent) : Z := default now (received_at e).

(** Where the call goes after [try_acquire]. *)
Definition after_acquire (e : AuditEvent) (steady : Z) (r : DedupAcquireResult) : IngestPc :=
  match decision r, in_flight_future r with
  | AlreadyCommitted, _ => Answered e (mkResult true DuplicateCommitted EmptyString EmptyString (committed_received_at r))
  | PayloadConflict, _ => Answered e (conflict_result (default 0 (received_at e)))
  | CoalescedInFlight, Some p => Waiting e p
  | CoalescedInFlight, None => Direct e
  | AcquiredNewInFlight, _ => Inserting e steady
  end.

(** The call [on_batch_persisted], [on_batch_failed] or the guard makes. *)
Definition settle_call (e : AuditEvent) (steady : Z) (w : WriteOutcome) : DedupCall :=
  let received := default 0 (received_at e) in
  match w with
  | Wrote r _ =>
      if is_committed r then MarkCommitted (event_id e) received steady
      else RollbackInFlight (event_id e) (failure_ack r (event_id e) received)
  | Threw _ => RollbackInFlight (event_id e) (guard_ack (event_id e) received)
  end.

Definition after_settle (e : AuditEvent) (w : WriteOutcome) : IngestPc :=
  match w with
  | Wrote r _ => Answered e (write_result r (default 0 (received_at e)))
  | Threw _ => Raised e
  end.

(** The insertion without a cache catches exceptions itself. *)
Definition direct_result (w : WriteOutcome) (what : string) (received : Z) : IngestionResult :=
  match w with
  | Wrote r _ => write_result r received
  | Threw _ => mkResult false PersistenceFailed "REPOSITORY_ERROR" what received
  end.

Inductive ingest_step : Service -> Service -> Prop :=
  | in_reject s i e now : calls s !! i = None -> is_valid (check now e) = false ->
      ingest_step s (set_call i (Answered e (validation_rejected (check now e) now)) s)
  | in_acquire s i e now steady r c :
      calls s !! i = None -> is_valid (check now e) = true -> dedup_enabled = true ->
      try_acquire (event_id e) (fingerprint e) steady (cache s) = Some (r, c) ->
      ingest_step s (set_call i (after_acquire (set_received_at (received_or now e) e) steady r) (set_cache c s))
  | in_bypass s i e now :
      calls s !! i = None -> is_valid (check now e) = true -> dedup_enabled = false ->
      ingest_step s (set_call i (Direct (set_received_at (received_or now e) e)) s)
  | in_direct s i e w what :
      calls s !! i = Some (Direct e) -> honest w ->
      ingest_step s (mkService (cache s) (if is_stored w then rows s ++ [e] else rows s)
                       (<[i := Answered e (direct_result w what (default 0 (received_at e)))]> (calls s)))
  | in_insert s i e steady w :
      calls s !! i = Some (Inserting e steady) -> honest w ->
      ingest_step s (mkService (cache s) (if is_stored w then rows s ++ [e] else rows s) (<[i := Acking e steady w]> (calls s)))
  | in_settle s i e steady w r c :
      calls s !! i = Some (Acking e steady w) -> call (settle_call e steady w) (cache s) = Some (r, c) ->
      ingest_step s (set_call i (after_settle e w) (set_cache c s))
  | in_wake s i e p ack :
      calls s !! i = Some (Waiting e p) -> promises (cache s) !! p = Some (Some ack) ->
      ingest_step s (set_call i (Answered e (coalesced_result ack)) s)
  | in_timeout s i e p :
      calls s !! i = Some (Waiting e p) ->
      ingest_step s (set_call i (Answered e (timeout_result (default 0 (received_at e)))) s)
  | in_evict s now : ingest_step s (set_cache (evict_expired now (cache s)).1 s).

Inductive ingest_reachable (c0 : BoundedDeduplicationCache) : Service -> Prop :=
  | ir_start : ingest_reachable c0 (mkService c0 [] ∅)
  | ir_step s s' : ingest_reachable c0 s -> ingest_step s s' -> ingest_reachable c0 s'.

(** ** Invariant *)

(** A row of the table with the id and the payload of the event. *)
Definition durable (l : list AuditEvent) (id : EventId) (fp : EventPayloadFingerprint) : Prop :=
  exists row, row ∈ l /\ event_id row = id /\ fingerprint row = fp.

(** The call owns the reservation of its event. *)
Definition owned (pc : IngestPc) : option AuditEvent :=
  match pc with Inserting e _ | Acking e _ _ => Some e | _ => None end.

(** The promise of an event: pending while the event is in flight, and answered
    successfully only once the event is in the table. *)
Definition promise_for (s : Service) (e : AuditEvent) (p : nat) : Prop :=
  state_of (cache s) (event_id e) = InFlight (fingerprint e) p \/
  exists ack, promises (cache s) !! p = Some (Some ack) /\
    (ack_ok ack = true -> durable (rows s) (event_id e) (fingerprint e)).

Record service_ok (s : Service) : Prop := {
  sv_cache : cache_wf (cache s);
  sv_owner : forall i pc e, calls s !! i = Some pc -> owned pc = Some e ->
    exists p, state_of (cache s) (event_id e) = InFlight (fingerprint e) p;
  sv_unique : forall i j pc pc' e e', calls s !! i = Some pc -> calls s !! j = Some pc' ->
    owned pc = Some e -> owned pc' = Some e' -> event_id e = event_id e' -> i = j;
  sv_committed : forall id ce, state_of (cache s) id = Committed ce -> durable (rows s) id (ce_fingerprint ce);
  sv_acking : forall i e steady w, calls s !! i = Some (Acking e steady w) -> honest w /\
    (is_stored w = true -> durable (rows s) (event_id e) (fingerprint e));
  sv_waiting : forall i e p, calls s !! i = Some (Waiting e p) -> promise_for s e p;
  sv_answered : forall i e r, calls s !! i = Some (Answered e r) -> success r = true ->
    durable (rows s) (event_id e) (fingerprint e) }.

Lemma durable_app l l' id fp : durable l id fp -> durable (l ++ l') id fp.
Proof. intros (row & Hin & ?). exists row. split; [by apply elem_of_app; left|done]. Qed.

Lemma fingerprint_received t e : fingerprint (set_received_at t e) = fingerprint e.
Proof. done. Qed.

Lemma write_result_durable r stored received :
  honest (Wrote r stored) -> success (write_result r received) = true -> stored = true.
Proof. unfold write_result, is_committed. cbn. by destruct (write_status r). Qed.

(** Calls and rows: what stays true when the table grows and one call moves. *)
Lemma promise_for_mono s s' e p :
  cache s' = cache s -> (forall id fp, durable (rows s) id fp -> durable (rows s') id fp) ->
  promise_for s e p -> promise_for s' e p.
Proof. intros Hc Hr [H|(ack & H1 & H2)]; unfold promise_for; rewrite Hc; [by left|right; eauto]. Qed.

(** One call moves, the cache stays and the table may grow. *)
Lemma service_ok_move s i pc rows' :
  service_ok s -> (forall id fp, durable (rows s) id fp -> durable rows' id fp) ->
  (forall e, owned pc = Some e -> exists pc0, calls s !! i = Some pc0 /\ owned pc0 = Some e) ->
  (forall e steady w, pc = Acking e steady w -> honest w /\ (is_stored w = true -> durable rows' (event_id e) (fingerprint e))) ->
  (forall e p, pc = Waiting e p -> promise_for s e p) ->
  (forall e r, pc = Answered e r -> success r = true -> durable rows' (event_id e) (fingerprint e)) ->
  service_ok (mkService (cache s) rows' (<[i := pc]> (calls s))).
Proof.
  intros [] Hrows Hown Hack Hwait Hans.
  assert (Hback : forall j pc', <[i := pc]> (calls s) !! j = Some pc' -> forall e, owned pc' = Some e ->
            exists pc0, calls s !! j = Some pc0 /\ owned pc0 = Some e).
  { intros j pc' Hj e He. apply lookup_insert_Some in Hj as [[<- <-]|[_ Hj]]; eauto. }
  constructor; cbn.
  - done.
  - intros j pc' e Hj He. destruct (Hback _ _ Hj _ He) as (pc0 & H0 & H1). by eapply sv_owner0.
  - intros j k pc1 pc2 e e' Hj Hk H1 H2. destruct (Hback _ _ Hj _ H1) as (? & ? & ?), (Hback _ _ Hk _ H2) as (? & ? & ?).
    by eapply sv_unique0.
  - intros id ce Hid. by apply Hrows, sv_committed0.
  - intros j e steady w Hj. apply lookup_insert_Some in Hj as [[_ Hj]|[_ Hj]]; [by eapply Hack|].
    apply sv_acking0 in Hj as [? ?]. eauto.
  - intros j e p Hj. apply (promise_for_mono s); [done|done|].
    apply lookup_insert_Some in Hj as [[_ Hj]|[_ Hj]]; [by apply Hwait|by eapply sv_waiting0].
  - intros j e r Hj Hs. apply lookup_insert_Some in Hj as [[_ Hj]|[_ Hj]]; [by eapply Hans|by eapply Hrows, sv_answered0].
Qed.

(** Where a committed entry after a cache call comes from. *)
Lemma committed_origin op c r c' id ce :
  call_meets_spec op c r c' -> state_of c' id = Committed ce ->
  state_of c id = Committed ce \/
  (exists received now p, op = MarkCommitted id received now /\ state_of c id = InFlight (ce_fingerprint ce) p).
Proof.
  intros Hm Hid. destruct (decide (state_of c' id = state_of c id)) as [Heq|Hne]; [left; congruence|].
  destruct (decide (subject op = None \/ subject op = Some id)) as [Hsub|Hsub].
  - assert (Hcon : concerns op id) by (unfold concerns; destruct Hsub as [->| ->]; done).
    rewrite (cm_concerned _ _ _ _ Hm id Hcon) in Hid, Hne.
    destruct op as [id' fp' now|id' rec now|id' fail|now]; cbn in Hsub; try (destruct Hsub as [[=]|[= ->]]);
      destruct (state_of c id) as [|fp p|e] eqn:He; cbn in *; try done; try (destruct (ce_expires_at e <=? now)); try done.
    injection Hid as <-. right. cbn. eauto.
  - destruct (cm_others _ _ _ _ Hm id) as (_ & _ & Hun); [|done|congruence].
    unfold concerns. destruct (subject op) as [id'|]; cbn; [naive_solver|tauto].
Qed.

(** An event in flight stays so under a call that does not settle it. *)
Lemma call_keeps_flight op c r c' id fp p :
  cache_wf c -> call_meets_spec op c r c' -> call op c = Some (r, c') -> ~ settles id op ->
  state_of c id = InFlight fp p -> state_of c' id = InFlight fp p.
Proof.
  intros Hwf Hm Hcall Hns Hst. apply (in_flight_stays [op] c c' id fp p Hwf Hst); [by repeat constructor|].
  cbn [run]. by rewrite Hcall.
Qed.

(** A call on the cache that settles nothing keeps the invariant. *)
Lemma service_ok_quiet s op r c' :
  service_ok s -> call op (cache s) = Some (r, c') -> (forall id, ~ settles id op) -> service_ok (set_cache c' s).
Proof.
  intros [] Hcall Hq. destruct (call_ok (cache s) (cw_struct _ sv_cache0) op) as (r0 & c0 & Hcall0 & Hm).
  assert (r0 = r /\ c0 = c') as [-> ->] by (rewrite Hcall in Hcall0; by injection Hcall0).
  constructor; cbn; [by eapply call_wf|..].
  - intros i pc e Hi He. destruct (sv_owner0 i pc e Hi He) as [p Hp]. exists p. by eapply call_keeps_flight.
  - done.
  - intros id ce Hid. apply (committed_origin _ _ _ _ _ _ Hm) in Hid as [Hid|(? & ? & ? & -> & _)]; [eauto|].
    by destruct (Hq id).
  - done.
  - intros i e p Hi. destruct (sv_waiting0 i e p Hi) as [Hfly|(ack & H1 & H2)]; [left; by eapply call_keeps_flight|].
    right. exists ack. split; [|done]. cbn. eapply (answered_stays [op]); [exact sv_cache0|done|]. cbn [run]. by rewrite Hcall.
  - done.
Qed.

(** A call that enters the machine as the owner of an event nobody owned. *)
Lemma reserve_ok s i c e t steady p :
  service_ok s -> service_ok (set_cache c s) -> calls s !! i = None ->
  state_of c (event_id e) = InFlight (fingerprint e) p ->
  (forall fp q, state_of (cache s) (event_id e) <> InFlight fp q) ->
  service_ok (set_call i (Inserting (set_received_at t e) steady) (set_cache c s)).
Proof.
  intros Hs [] Hi Hfly Hnot. constructor; cbn in *.
  - done.
  - intros j pc e' Hj He. apply lookup_insert_Some in Hj as [[<- <-]|[_ Hj]]; [|eauto].
    injection He as <-. eauto.
  - assert (Hno : forall j pc e', calls s !! j = Some pc -> owned pc = Some e' -> event_id e' <> event_id e).
    { intros j pc e' Hj He Heq. destruct (sv_owner _ Hs j pc e' Hj He) as [q Hq]. rewrite Heq in Hq. by apply Hnot in Hq. }
    intros j k pc pc' e' e'' Hj Hk He' He'' Heq.
    apply lookup_insert_Some in Hj as [[<- <-]|[Hij Hj]], Hk as [[<- <-]|[Hik Hk]].
    + done.
    + injection He' as <-. by destruct (Hno k pc' e'' Hk He'').
    + injection He'' as <-. by destruct (Hno j pc e' Hj He').
    + by eapply (sv_unique _ Hs).
  - done.
  - intros j e' st w Hj. apply lookup_insert_Some in Hj as [[_ [=]]|[_ Hj]]. eauto.
  - intros j e' q Hj. apply lookup_insert_Some in Hj as [[_ [=]]|[_ Hj]]. by apply sv_waiting0 in Hj.
  - intros j e' r' Hj. apply lookup_insert_Some in Hj as [[_ [=]]|[_ Hj]]. eauto.
Qed.

Lemma acquire_ok s i e now steady r c :
  service_ok s -> calls s !! i = None ->
  try_acquire (event_id e) (fingerprint e) steady (cache s) = Some (r, c) ->
  service_ok (set_call i (after_acquire (set_received_at now e) steady r) (set_cache c s)).
Proof.
  intros Hs Hi Hacq. set (op := TryAcquire (event_id e) (fingerprint e) steady).
  assert (Hcall : call op (cache s) = Some (Some r, c)) by (unfold call, op; by rewrite Hacq).
  pose proof (service_ok_quiet s op _ _ Hs Hcall ltac:(intros id []) ) as Hq.
  destruct (call_ok (cache s) (cw_struct _ (sv_cache _ Hs)) op) as (r0 & c0 & Hcall0 & Hm).
  assert (r0 = Some r /\ c0 = c) as [-> ->] by (rewrite Hcall in Hcall0; by injection Hcall0).
  pose proof (cm_answer _ _ _ _ Hm (event_id e) (fingerprint e) steady eq_refl) as [= Hr].
  pose proof (cm_concerned _ _ _ _ Hm (event_id e) eq_refl) as Hst. cbn in Hst.
  set (e1 := set_received_at now e).
  destruct (decision r) eqn:Hdec.
  -     assert (Hfly : state_of c (event_id e) = InFlight (fingerprint e) (length (promises (cache s))) /\
                   forall fp p, state_of (cache s) (event_id e) <> InFlight fp p).
    { subst r. destruct (state_of (cache s) (event_id e)) as [|fp p|ce]; cbn in *.
      - done.
      - by destruct (bool_decide _).
      - destruct (ce_expires_at ce <=? steady); [done|]. by destruct (bool_decide _). }
    destruct Hfly as [Hfly Hnot].
    assert (after_acquire e1 steady r = Inserting e1 steady) as -> by (unfold after_acquire; by rewrite Hdec).
    by eapply reserve_ok.
  -     assert (Hfut : exists p, in_flight_future r = Some p /\ state_of c (event_id e) = InFlight (fingerprint e) p).
    { subst r. destruct (state_of (cache s) (event_id e)) as [|fp p|ce]; cbn in *; [done| |].
      - destruct (bool_decide_reflect (fp <> fingerprint e)) as [|Hfp%dec_stable]; [done|]. subst fp. eauto.
      - destruct (ce_expires_at ce <=? steady); [done|]. by destruct (bool_decide _). }
    destruct Hfut as (p & Hp & Hfly). unfold after_acquire. rewrite Hdec, Hp.
    apply (service_ok_move (set_cache c s)); try done.
    intros e' p' [= <- <-]. by left.
  -     assert (Hdur : durable (rows s) (event_id e) (fingerprint e)).
    { subst r. destruct (state_of (cache s) (event_id e)) as [|fp p|ce] eqn:He; cbn in *; [done| |].
      - by destruct (bool_decide _).
      - destruct (ce_expires_at ce <=? steady); [done|].
        destruct (bool_decide_reflect (ce_fingerprint ce <> fingerprint e)) as [|Hfp%dec_stable]; [done|].
        rewrite <- Hfp. by eapply sv_committed. }
    unfold after_acquire. rewrite Hdec.
    apply (service_ok_move (set_cache c s)); try done. intros e' r' [= <- <-] _. done.
  - unfold after_acquire. rewrite Hdec. apply (service_ok_move (set_cache c s)); try done.
    by intros e' r' [= <- <-].
Qed.

(** Settling answers the promise of the event; a success only for a stored event. *)
Lemma settle_call_spec e steady w fp p ps :
  exists ack, spec_promises (settle_call e steady w) (InFlight fp p) ps = set_value p ack ps /\
    subject (settle_call e steady w) = Some (event_id e) /\ settles (event_id e) (settle_call e steady w) /\
    (forall id, settles id (settle_call e steady w) -> id = event_id e) /\
    (honest w -> ack_ok ack = true -> is_stored w = true).
Proof.
  unfold settle_call. destruct w as [r stored|stored]; [destruct (is_committed r) eqn:Hr|];
    (eexists; split; [reflexivity|]); cbn; (split; [done|]); (split; [done|]); (split; [by intros id <-|]).
  - unfold is_committed in Hr. by destruct (write_status r).
  - unfold is_committed in Hr. unfold ack_ok, failure_ack, failure_status. cbn. by destruct (write_status r).
  - done.
Qed.

Lemma settle_ok s i e steady w r c :
  service_ok s -> calls s !! i = Some (Acking e steady w) -> call (settle_call e steady w) (cache s) = Some (r, c) ->
  service_ok (set_call i (after_settle e w) (set_cache c s)).
Proof.
  intros Hs Hi Hcall. destruct Hs. destruct (sv_acking0 i e steady w Hi) as [Hhonest Hstored].
  destruct (sv_owner0 i _ e Hi eq_refl) as [p Hp].
  destruct (settle_call_spec e steady w (fingerprint e) p (promises (cache s))) as (ack & Hps & Hsub & _ & Hset & Hack).
  destruct (call_ok (cache s) (cw_struct _ sv_cache0) (settle_call e steady w)) as (r0 & c0 & Hcall0 & Hm).
  assert (r0 = r /\ c0 = c) as [-> ->] by (rewrite Hcall in Hcall0; by injection Hcall0).
  assert (Hno : owned (after_settle e w) = None) by (unfold after_settle; by destruct w).
  assert (Hother : forall j pc e', <[i := after_settle e w]> (calls s) !! j = Some pc -> owned pc = Some e' ->
            i <> j /\ calls s !! j = Some pc /\ event_id e' <> event_id e).
  { intros j pc e' Hj He. apply lookup_insert_Some in Hj as [[<- <-]|[Hij Hj]]; [congruence|]. split_and!; [done..|].
    intros Heq. destruct Hij. by eapply (sv_unique0 i j _ pc e e'). }
  constructor; cbn.
  - by eapply call_wf.
  - intros j pc e' Hj He. destruct (Hother j pc e' Hj He) as (_ & Hj' & Hne).
    destruct (sv_owner0 j pc e' Hj' He) as [q Hq]. exists q. eapply call_keeps_flight; [done..| |done].
    by intros H%Hset.
  - intros j k pc pc' e1 e2 Hj Hk H1 H2. destruct (Hother _ _ _ Hj H1) as (_ & ? & _), (Hother _ _ _ Hk H2) as (_ & ? & _).
    by eapply sv_unique0.
  - intros id ce Hid. apply (committed_origin _ _ _ _ _ _ Hm) in Hid as [Hid|(rec & now & q & Hop & Hid)]; [eauto|].
    assert (id = event_id e) as -> by (apply Hset; by rewrite Hop). rewrite Hp in Hid. injection Hid as <- _.
    apply Hstored. unfold settle_call in Hop. destruct w as [wr stored|]; [|done]. cbn in *.
    unfold is_committed in Hop. by destruct (write_status wr).
  - intros j e' st w' Hj. apply lookup_insert_Some in Hj as [[_ Hj]|[_ Hj]]; [|eauto]. rewrite Hj in Hno. done.
  - intros j e' q Hj. apply lookup_insert_Some in Hj as [[_ Hj]|[_ Hj]].
    { unfold after_settle in Hj. by destruct w. }
    destruct (sv_waiting0 j e' q Hj) as [Hfly|(ack' & H1 & H2)].
    + destruct (decide (event_id e' = event_id e)) as [Heq|Hne].
      * right. rewrite Heq, Hp in Hfly. injection Hfly as Hfp <-. exists ack. split.
        -- cbn. rewrite (cm_promises _ _ _ _ Hm), Hsub. cbn. rewrite Hp, Hps, set_value_lookup, decide_True by done.
           by rewrite (cw_pending _ sv_cache0 _ _ _ Hp).
        -- cbn. rewrite Heq, <- Hfp. auto.
      * left. cbn. eapply call_keeps_flight; [done..| |done]. intros H. by apply Hset in H.
    + right. exists ack'. split; [|done]. cbn. eapply (answered_stays [settle_call e steady w]); [exact sv_cache0|done|].
      cbn [run]. by rewrite Hcall.
  - intros j e' r' Hj Hsucc. apply lookup_insert_Some in Hj as [[_ Hj]|[_ Hj]]; [|eauto].
    unfold after_settle in Hj. destruct w as [wr stored|]; [|done]. injection Hj as <- <-.
    apply Hstored. by eapply write_result_durable.
Qed.

Lemma ingest_step_ok s s' : ingest_step s s' -> service_ok s -> service_ok s'.
Proof.
  intros Hstep Hs.
  assert (Hgrow : forall (w : WriteOutcome) e id fp, durable (rows s) id fp ->
            durable (if is_stored w then rows s ++ [e] else rows s) id fp).
  { intros w e id fp H. destruct (is_stored w); [by apply durable_app|done]. }
  assert (Hnew : forall (w : WriteOutcome) e, is_stored w = true ->
            durable (if is_stored w then rows s ++ [e] else rows s) (event_id e) (fingerprint e)).
  { intros w e ->. exists e. split; [|done]. apply elem_of_app. right. left. }
  destruct Hstep as [s i e now Hi Hv|s i e now steady r c Hi Hv Hen Hacq|s i e now Hi Hv Hen|s i e w what Hi Hh|s i e steady w Hi Hh
                    |s i e steady w r c Hi Hcall|s i e p ack Hi Hp|s i e p Hi|s now].
  - apply service_ok_move; try done. by intros e' r' [= <- <-].
  - by apply acquire_ok.
  - by apply service_ok_move.
  - apply service_ok_move; try done; [apply Hgrow|]. intros e' r' [= <- <-] Hsucc. apply Hnew.
    destruct w as [r stored|]; [|done]. by eapply write_result_durable.
  - apply service_ok_move; try done; [apply Hgrow|by intros e' [= <-]; eauto|].
    intros e' st w' [= <- <- <-]. split; [done|apply Hnew].
  - by eapply settle_ok.
  - apply service_ok_move; try done. intros e' r' [= <- <-] Hsucc.
    destruct (sv_waiting _ Hs i e p Hi) as [Hfly|(ack' & H1 & H2)].
    + rewrite (cw_pending _ (sv_cache _ Hs) _ _ _ Hfly) in Hp. done.
    + apply H2. cbn in Hsucc. congruence.
  - apply service_ok_move; try done. by intros e' r' [= <- <-].
  - eapply (service_ok_quiet s (EvictExpired now)); [done|reflexivity|]. intros id [].
Qed.

Lemma service_start_ok c0 : cache_wf c0 -> (forall id, state_of c0 id = Unseen) -> service_ok (mkService c0 [] ∅).
Proof. intros Hc Hun. constructor; cbn; try done. intros id ce. by rewrite Hun. Qed.

Lemma ingest_reachable_ok c0 s :
  cache_wf c0 -> (forall id, state_of c0 id = Unseen) -> ingest_reachable c0 s -> service_ok s.
Proof. intros Hc Hun. induction 1 as [|s s' _ IH Hstep]; [by apply service_start_ok|by eapply ingest_step_ok]. Qed.

(** No reservation without a call that will settle it. *)
Definition no_orphans (s : Service) : Prop :=
  forall id fp p, state_of (cache s) id = InFlight fp p ->
    exists i pc e, calls s !! i = Some pc /\ owned pc = Some e /\ event_id e = id.

Lemma no_orphans_move s i pc rows' :
  no_orphans s -> (forall pc0 e, calls s !! i = Some pc0 -> owned pc0 = Some e -> owned pc = Some e) ->
  no_orphans (mkService (cache s) rows' (<[i := pc]> (calls s))).
Proof.
  intros Hn Hkeep id fp p Hid. destruct (Hn id fp p Hid) as (j & pc' & e & Hj & He & Hid').
  destruct (decide (i = j)) as [->|Hne].
  - exists j, pc, e. cbn. rewrite lookup_insert_eq. split_and!; [done|by eapply Hkeep|done].
  - exists j, pc', e. cbn. by rewrite lookup_insert_ne.
Qed.

Lemma acquire_no_orphans s i e now steady r c :
  service_ok s -> no_orphans s -> calls s !! i = None ->
  try_acquire (event_id e) (fingerprint e) steady (cache s) = Some (r, c) ->
  no_orphans (set_call i (after_acquire (set_received_at now e) steady r) (set_cache c s)).
Proof.
  intros Hs Hn Hi Hacq id fp p Hid. set (op := TryAcquire (event_id e) (fingerprint e) steady).
  destruct (try_acquire_ok (cache s) (cw_struct _ (sv_cache _ Hs)) (event_id e) (fingerprint e) steady) as (r0 & c0 & Hacq0 & Hm).
  assert (r0 = r /\ c0 = c) as [-> ->] by (rewrite Hacq in Hacq0; by injection Hacq0).
  destruct (in_flight_origin _ _ _ _ id fp p Hm Hid) as [Hold|((t & Hop) & -> & Hgrow)].
  - destruct (Hn id fp p Hold) as (j & pc & e' & Hj & He & Hid'). exists j, pc, e'. cbn.
    rewrite lookup_insert_ne by congruence. done.
  - injection Hop as <- <- _. exists i, (Inserting (set_received_at now e) steady), (set_received_at now e).
    split_and!; [|done|done]. cbn. rewrite lookup_insert_eq. f_equal. unfold after_acquire.
    pose proof (cm_answer _ _ _ _ Hm _ _ _ eq_refl) as [= ->].
    pose proof (cm_promises _ _ _ _ Hm) as Hps. cbn in Hps. rewrite Hgrow in Hps.
    destruct (state_of (cache s) (event_id e)) as [|fp' p'|ce]; cbn in *; [done| |].
    + by apply (f_equal length) in Hps; rewrite length_app in Hps; cbn in Hps; lia.
    + destruct (ce_expires_at ce <=? steady); [done|].
      by apply (f_equal length) in Hps; rewrite length_app in Hps; cbn in Hps; lia.
Qed.

Lemma ingest_step_no_orphans s s' : ingest_step s s' -> service_ok s -> no_orphans s -> no_orphans s'.
Proof.
  intros Hstep Hs Hn.
  destruct Hstep as [s i e now Hi Hv|s i e now steady r c Hi Hv Hen Hacq|s i e now Hi Hv Hen|s i e w what Hi Hh|s i e steady w Hi Hh
                    |s i e steady w r c Hi Hcall|s i e p ack Hi Hp|s i e p Hi|s now].
  - apply no_orphans_move; [done|]. intros ??. by rewrite Hi.
  - by apply acquire_no_orphans.
  - apply no_orphans_move; [done|]. intros ??. by rewrite Hi.
  - apply no_orphans_move; [done|]. intros ??. rewrite Hi. by intros [= <-].
  - apply no_orphans_move; [done|]. intros ??. rewrite Hi. by intros [= <-].
  - destruct (call_ok (cache s) (cw_struct _ (sv_cache _ Hs)) (settle_call e steady w)) as (r0 & c0 & Hcall0 & Hm).
    assert (r0 = r /\ c0 = c) as [-> ->] by (rewrite Hcall in Hcall0; by injection Hcall0).
    destruct (settle_call_spec e steady w [] 0 []) as (_ & _ & Hsub & _ & _).
    intros id fp p Hid. cbn in Hid.
    destruct (in_flight_origin _ _ _ _ id fp p Hm Hid) as [Hold|((t & Hop) & _)].
    2:{ unfold settle_call in Hop. destruct w as [wr ?|?]; [by destruct (is_committed wr)|done]. }
    destruct (Hn id fp p Hold) as (j & pc & e' & Hj & He & <-). exists j, pc, e'. cbn. split_and!; [|done|done].
    rewrite lookup_insert_ne; [done|]. intros <-. rewrite Hi in Hj. injection Hj as <-. injection He as <-.
    assert (Hcon : concerns (settle_call e steady w) (event_id e)) by (unfold concerns; by rewrite Hsub).
    rewrite (cm_concerned _ _ _ _ Hm _ Hcon), Hold in Hid. unfold settle_call in Hid.
    destruct w as [wr ?|?]; [by destruct (is_committed wr)|done].
  - apply no_orphans_move; [done|]. intros ??. rewrite Hi. by intros [= <-].
  - apply no_orphans_move; [done|]. intros ??. rewrite Hi. by intros [= <-].
  - pose proof (evict_expired_ok (cache s) (cw_struct _ (sv_cache _ Hs)) now) as Hm. intros id fp p Hid.
    destruct (in_flight_origin _ _ _ _ id fp p Hm Hid) as [Hold|((t & [=]) & _)]. by apply (Hn id fp p).
Qed.

Lemma ingest_reachable_no_orphans c0 s :
  cache_wf c0 -> (forall id, state_of c0 id = Unseen) -> ingest_reachable c0 s -> no_orphans s.
Proof.
  intros Hc Hun. induction 1 as [|s s' Hs IH Hstep].
  - intros id fp p. cbn. by rewrite Hun.
  - eapply ingest_step_no_orphans; [done| |done]. by eapply ingest_reachable_ok.
Qed.

End ingest.

Lemma new_cache_unseen cap ttl n id : state_of (BoundedDeduplicationCache_new cap ttl n) id = Unseen.
Proof.
  unfold state_of. cbn. destruct (_ !! _) as [s|] eqn:Hs; [|done]. apply lookup_replicate in Hs as [-> _]. done.
Qed.

(** ** Claims on [ingest_single] *)

Section claims.
Context (sha256 : list Z -> list Z) (capacity : string -> Z) (sizeof_AuditEvent : Z) (dedup_enabled : bool).
Context (cap ttl num_shards : Z) (Hcap : 0 <= cap < 2 ^ 32) (Hshards : 0 <= num_shards <= 2 ^ 31).
#[local] Abbreviation reach :=
  (ingest_reachable sha256 capacity sizeof_AuditEvent dedup_enabled (BoundedDeduplicationCache_new cap ttl num_shards)).

(** A success is a promise: whatever calls interleave, time out or throw, a call
    that answered success, be it as a new event, as a duplicate of a committed one or
    coalesced with a call in flight, was for an event of which the table holds a row
    with the same id and payload fingerprint. *)
Theorem ingest_success_is_durable (s : Service) (i : nat) (e : AuditEvent) (r : IngestionResult)
    (Hs : reach s) (Hi : calls s !! i = Some (Answered e r)) (Hok : success r = true) :
  exists row, row ∈ rows s /\ event_id row = event_id e /\ compute_fingerprint sha256 row = compute_fingerprint sha256 e.
Proof.
  assert (Hsv : service_ok sha256 s).
  { eapply ingest_reachable_ok; [by apply new_cache_wf|apply new_cache_unseen|exact Hs]. }
  by eapply sv_answered.
Qed.

(** Reservations are exclusive and never leak: at any moment at most one call is
    persisting a given event, every event in flight has such a call, which will settle
    it also if the insertion throws, and a caller that waits for an event that is no
    longer in flight finds the future answered. *)
Theorem ingest_reservations_exclusive (s : Service) (Hs : reach s) :
  (forall i j pc pc' e e', calls s !! i = Some pc -> calls s !! j = Some pc' -> owned pc = Some e -> owned pc' = Some e' ->
     event_id e = event_id e' -> i = j) /\
  (forall id fp p, state_of (cache s) id = InFlight fp p ->
     exists i pc e, calls s !! i = Some pc /\ owned pc = Some e /\ event_id e = id) /\
  (forall i e p, calls s !! i = Some (Waiting e p) ->
     state_of (cache s) (event_id e) = InFlight (compute_fingerprint sha256 e) p \/
     exists ack, promises (cache s) !! p = Some (Some ack)).
Proof.
  assert (Hwf : cache_wf (BoundedDeduplicationCache_new cap ttl num_shards)) by by apply new_cache_wf.
  pose proof (ingest_reachable_ok _ _ _ _ _ s Hwf (new_cache_unseen cap ttl num_shards) Hs) as Hsv.
  split_and!.
  - apply Hsv.
  - exact (ingest_reachable_no_orphans _ _ _ _ _ s Hwf (new_cache_unseen cap ttl num_shards) Hs).
  - intros i e p Hi. destruct (sv_waiting _ _ Hsv i e p Hi) as [|(ack & ? & _)]; [by left|right; eauto].
Qed.

End claims.

(** ** [ingest_batch] *)

Record BatchIngestionResult := mkBatch {
  accepted_count : Z;
  rejected_count : Z;
  rejected_event_ids : list EventId;
  item_results : list (EventId * IngestionResult) }.

Definition empty_result : BatchIngestionResult := mkBatch 0 0 [] [].

Definition accept_item (id : EventId) (r : IngestionResult) (b : BatchIngestionResult) : BatchIngestionResult :=
  mkBatch (u32 (accepted_count b + 1)) (rejected_count b) (rejected_event_ids b) (item_results b ++ [(id, r)]).

Definition reject_item (id : EventId) (r : IngestionResult) (b : BatchIngestionResult) : BatchIngestionResult :=
  mkBatch (accepted_count b) (u32 (rejected_count b + 1)) (rejected_event_ids b ++ [id]) (item_results b ++ [(id, r)]).

Section batch.
Context (sha256 : list Z -> list Z) (capacity : string -> Z) (sizeof_AuditEvent : Z) (dedup_enabled : bool).
#[local] Abbreviation fingerprint := (compute_fingerprint sha256).
#[local] Abbreviation check := (validate capacity sizeof_AuditEvent default_limits).

(** What the first loop builds up. *)
Record BatchState := mkBatchState {
  bs_result : BatchIngestionResult;
  bs_insert : list AuditEvent;
  bs_waiters : list (EventId * option nat);
  bs_cache : BoundedDeduplicationCache }.

Definition batch_item (now steady : Z) (evt : AuditEvent) (b : BatchState) : option BatchState :=
  let errors := check now evt in
  if negb (is_valid errors) then
    Some (mkBatchState (reject_item (event_id evt) (validation_rejected errors now) (bs_result b)) (bs_insert b)
            (bs_waiters b) (bs_cache b))
  else
    let received := received_or now evt in
    let prepared := set_received_at received evt in
    if negb dedup_enabled then
      Some (mkBatchState (bs_result b) (bs_insert b ++ [prepared]) (bs_waiters b) (bs_cache b))
    else
      acq ← try_acquire (event_id prepared) (fingerprint prepared) steady (bs_cache b);
      let '(r, c) := acq in
      Some
        match decision r with
        | AlreadyCommitted =>
            mkBatchState
              (accept_item (event_id prepared)
                 (mkResult true DuplicateCommitted EmptyString EmptyString (committed_received_at r)) (bs_result b))
              (bs_insert b) (bs_waiters b) c
        | PayloadConflict =>
            mkBatchState (reject_item (event_id prepared) (conflict_result received) (bs_result b)) (bs_insert b) (bs_waiters b) c
        | CoalescedInFlight =>
            mkBatchState (bs_result b) (bs_insert b) (bs_waiters b ++ [(event_id prepared, in_flight_future r)]) c
        | AcquiredNewInFlight => mkBatchState (bs_result b) (bs_insert b ++ [prepared]) (bs_waiters b) c
        end.

Fixpoint batch_loop (now steady : Z) (events : list AuditEvent) (b : BatchState) : option BatchState :=
  match events with
  | [] => Some b
  | evt :: events => b' ← batch_item now steady evt b; batch_loop now steady events b'
  end.

(** [on_batch_persisted] and [on_batch_failed]: one call on the cache per event; there
    is no cache to call when deduplication is disabled. *)
Fixpoint settle_all (steady : Z) (w : WriteOutcome) (events : list AuditEvent) (c : BoundedDeduplicationCache)
    : option BoundedDeduplicationCache :=
  match events with
  | [] => Some c
  | e :: events =>
      if negb dedup_enabled then settle_all steady w events c
      else r ← call (settle_call e steady w) c; settle_all steady w events r.2
  end.

(** The results of the inserted events. *)
Definition insert_results (r : RepositoryBatchWriteResult) (events : list AuditEvent) (b : BatchIngestionResult)
    : BatchIngestionResult :=
  let items := (fun e => (event_id e, write_result r (default 0 (received_at e)))) <$> events in
  if is_committed r then
    mkBatch (u32 (accepted_count b + u32 (Z.of_nat (length events)))) (rejected_count b) (rejected_event_ids b)
      (item_results b ++ items)
  else
    mkBatch (accepted_count b) (u32 (rejected_count b + u32 (Z.of_nat (length events))))
      (rejected_event_ids b ++ (event_id <$> events)) (item_results b ++ items).

(** The futures, read after the other threads' calls. *)
Definition await_item (now : Z) (c : BoundedDeduplicationCache) (b : BatchIngestionResult) (w : EventId * option nat)
    : BatchIngestionResult :=
  match w.2 ≫= (fun p => mjoin (promises c !! p)) with
  | Some ack =>
      if ack_ok ack then
        accept_item w.1 (mkResult true DuplicateCoalesced EmptyString EmptyString (ack_received_at ack)) b
      else
        reject_item w.1
          (mkResult false (ack_status ack) (ack_error_code ack) (ack_diagnostic_message ack) (ack_received_at ack)) b
  | None => reject_item w.1 (timeout_result now) b
  end.

(** The whole call.  [w] is the outcome of the insertion, [others] the calls other
    threads make on the cache before the futures are read; [Err] is the exception of
    the repository, which leaves the call. *)
Definition ingest_batch (now steady : Z) (w : WriteOutcome) (others : list DedupCall) (events : list AuditEvent)
    (c : BoundedDeduplicationCache) : option (result exn BatchIngestionResult * BoundedDeduplicationCache) :=
  match events with
  | [] => Some (Ok empty_result, c)
  | _ =>
      if 100 <? Z.of_nat (length events) then
        let too_many := mkResult false ValidationRejected "INVALID_ARGUMENT"
                          "Batch size exceeds maximum limit of 100 events" now in
        Some (Ok (mkBatch 0 (u32 (Z.of_nat (length events))) (event_id <$> events)
                    ((fun e => (event_id e, too_many)) <$> events)), c)
      else
        b ← batch_loop now steady events (mkBatchState empty_result [] [] c);
        match bs_insert b, w with
        | _ :: _, Threw _ => Some (Err runtime_error, bs_cache b)
        | [], _ =>
            c1 ← run others (bs_cache b);
            Some (Ok (foldl (await_item now c1) (bs_result b) (bs_waiters b)), c1)
        | _ :: _, Wrote r _ =>
            c1 ← settle_all steady w (bs_insert b) (bs_cache b);
            c2 ← run others c1;
            Some (Ok (foldl (await_item now c2) (insert_results r (bs_insert b) (bs_result b)) (bs_waiters b)), c2)
        end
  end.

(** *** Accounting *)

(** The counters agree with the lists, and [n] events are accounted for. *)
Record accounts (n : nat) (b : BatchIngestionResult) : Prop := {
  ac_accepted : 0 <= accepted_count b;
  ac_rejected : rejected_count b = Z.of_nat (length (rejected_event_ids b));
  ac_items : accepted_count b + rejected_count b = Z.of_nat (length (item_results b));
  ac_total : length (item_results b) = n }.

Lemma accept_accounts n id r b : (n < 1000)%nat -> accounts n b -> accounts (S n) (accept_item id r b).
Proof.
  intros Hn []. assert (accepted_count b <= Z.of_nat n) by lia. constructor; cbn.
  - apply u32_range.
  - done.
  - rewrite u32_small by (unfold in_u32; lia). rewrite length_app. cbn. lia.
  - rewrite length_app. cbn. lia.
Qed.

Lemma reject_accounts n id r b : (n < 1000)%nat -> accounts n b -> accounts (S n) (reject_item id r b).
Proof.
  intros Hn []. constructor; cbn; rewrite ?length_app; cbn; rewrite ?u32_small by (unfold in_u32; lia); try lia.
Qed.

Definition bs_count (b : BatchState) : nat := length (bs_insert b) + length (bs_waiters b).

Lemma batch_item_accounts now steady evt b b' n :
  (n < 1000)%nat -> (exists m, accounts m (bs_result b) /\ (m + bs_count b = n)%nat) ->
  batch_item now steady evt b = Some b' -> exists m, accounts m (bs_result b') /\ (m + bs_count b' = S n)%nat.
Proof.
  intros Hn (m & Hm & Hc). unfold batch_item, bs_count in *. destruct (negb (is_valid _)).
  { intros [= <-]. exists (S m). split; [apply reject_accounts; [lia|done]|cbn; lia]. }
  destruct (negb dedup_enabled).
  { intros [= <-]. exists m. split; [done|]. cbn. rewrite length_app. cbn. lia. }
  destruct (try_acquire _ _ _ _) as [[r c]|]; [|done]. cbn [mbind option_bind].
  destruct (decision r); intros [= <-]; cbn.
  - exists m. split; [done|]. rewrite length_app. cbn. lia.
  - exists m. split; [done|]. rewrite length_app. cbn. lia.
  - exists (S m). split; [apply accept_accounts; [lia|done]|lia].
  - exists (S m). split; [apply reject_accounts; [lia|done]|lia].
Qed.

Lemma batch_loop_accounts now steady events : forall b b' n,
  (n + length events < 1000)%nat -> (exists m, accounts m (bs_result b) /\ (m + bs_count b = n)%nat) ->
  batch_loop now steady events b = Some b' ->
  exists m, accounts m (bs_result b') /\ (m + bs_count b' = n + length events)%nat.
Proof.
  induction events as [|evt events IH]; intros b b' n Hn Hb; cbn [batch_loop length] in *.
  - intros [= <-]. destruct Hb as (m & ? & ?). exists m. split; [done|lia].
  - destruct (batch_item now steady evt b) as [b1|] eqn:Hi; [|done]. cbn [mbind option_bind]. intros Hl.
    destruct (IH b1 b' (S n)) as (m & ? & ?); [lia| |done|exists m; split; [done|lia]].
    eapply batch_item_accounts; [|done|done]. lia.
Qed.

Lemma insert_results_accounts r events b n :
  (n + length events < 1000)%nat -> accounts n b -> accounts (n + length events) (insert_results r events b).
Proof.
  intros Hn []. unfold insert_results. destruct (is_committed r); constructor; cbn;
    rewrite ?length_app, ?length_fmap, ?(u32_small (Z.of_nat _)), ?u32_small; unfold in_u32; lia.
Qed.

Lemma await_accounts now c ws : forall b n,
  (n + length ws < 1000)%nat -> accounts n b -> accounts (n + length ws) (foldl (await_item now c) b ws).
Proof.
  induction ws as [|w ws IH]; intros b n Hn Hb; cbn [foldl length] in *; [by rewrite Nat.add_0_r|].
  replace (n + S (length ws))%nat with (S n + length ws)%nat by lia. apply IH; [lia|]. unfold await_item.
  destruct (w.2 ≫= _) as [ack|]; [destruct (ack_ok ack)|]; [apply accept_accounts|apply reject_accounts..]; done || lia.
Qed.

(** *** Every call on a well-formed cache is defined *)

Lemma call_defined op c : cache_wf c -> exists r c', call op c = Some (r, c') /\ cache_wf c'.
Proof.
  intros Hc. destruct (call_ok c (cw_struct _ Hc) op) as (r & c' & H & Hm). exists r, c'. split; [done|by eapply call_wf].
Qed.

Lemma batch_item_defined now steady evt b :
  cache_wf (bs_cache b) -> exists b', batch_item now steady evt b = Some b' /\ cache_wf (bs_cache b').
Proof.
  intros Hc. unfold batch_item. destruct (negb (is_valid _)); [eauto|]. destruct (negb dedup_enabled); [eauto|].
  destruct (try_acquire_answer (bs_cache b) (event_id (set_received_at (received_or now evt) evt))
              (fingerprint (set_received_at (received_or now evt) evt)) steady Hc) as (c' & -> & Hc').
  cbn [mbind option_bind]. eexists. split; [reflexivity|]. by destruct (decision _).
Qed.

Lemma batch_loop_defined now steady events : forall b,
  cache_wf (bs_cache b) -> exists b', batch_loop now steady events b = Some b' /\ cache_wf (bs_cache b').
Proof.
  induction events as [|evt events IH]; intros b Hc; cbn [batch_loop]; [eauto|].
  destruct (batch_item_defined now steady evt b Hc) as (b1 & -> & Hc1). cbn [mbind option_bind]. by apply IH.
Qed.

Lemma settle_all_defined steady w events : forall c,
  cache_wf c -> exists c', settle_all steady w events c = Some c' /\ cache_wf c'.
Proof.
  induction events as [|e events IH]; intros c Hc; cbn [settle_all]; [eauto|]. destruct (negb dedup_enabled); [by apply IH|].
  destruct (call_defined (settle_call e steady w) c Hc) as (r & c' & -> & Hc'). cbn [mbind option_bind]. by apply IH.
Qed.

(** A batch is answered item by item: on a well-formed cache the call always ends,
    with the repository's exception or with a result in which every submitted event has
    exactly one entry, the counters of accepted and rejected events add up to the size
    of the batch, and the rejected ids are as many as counted; batches over one hundred
    events are rejected whole. *)
Theorem ingest_batch_accounts (now steady : Z) (w : WriteOutcome) (others : list DedupCall) (events : list AuditEvent)
    (c : BoundedDeduplicationCache) (Hc : cache_wf c) (Hlen : in_u32 (Z.of_nat (length events))) :
  exists r c', ingest_batch now steady w others events c = Some (r, c') /\
  forall b, r = Ok b ->
    accepted_count b + rejected_count b = Z.of_nat (length events) /\ length (item_results b) = length events /\
    rejected_count b = Z.of_nat (length (rejected_event_ids b)) /\ 0 <= accepted_count b /\
    (100 < Z.of_nat (length events) -> accepted_count b = 0).
Proof.
  unfold ingest_batch. destruct events as [|evt events]; [by eexists _, _; split; [done|]; intros b [= <-]|].
  set (l := evt :: events) in *. destruct (Z.ltb_spec 100 (Z.of_nat (length l))) as [Hbig|Hsmall].
  { eexists _, _. split; [done|]. intros b Hb. set (too := mkResult _ _ _ _ _) in Hb.
    assert (b = mkBatch 0 (u32 (Z.of_nat (length l))) (event_id <$> l) ((fun e => (event_id e, too)) <$> l)) as -> by congruence.
    cbn [accepted_count rejected_count rejected_event_ids item_results]. rewrite !length_fmap, u32_small by done. lia. }
  destruct (batch_loop_defined now steady l (mkBatchState empty_result [] [] c) Hc) as (b & Hb & Hcb). rewrite Hb.
  cbn [mbind option_bind].
  destruct (batch_loop_accounts now steady l (mkBatchState empty_result [] [] c) b 0 ltac:(lia)
              ltac:(exists 0%nat; by repeat split) Hb) as (m & Hm & Hcount).
  unfold bs_count in Hcount.
  assert (Hfin : forall c1 b1, accounts (m + length (bs_insert b)) b1 -> forall b2,
            Ok (E := exn) (foldl (await_item now c1) b1 (bs_waiters b)) = Ok b2 ->
            accepted_count b2 + rejected_count b2 = Z.of_nat (length l) /\ length (item_results b2) = length l /\
            rejected_count b2 = Z.of_nat (length (rejected_event_ids b2)) /\ 0 <= accepted_count b2 /\
            (100 < Z.of_nat (length l) -> accepted_count b2 = 0)).
  { intros c1 b1 H1 b2 [= <-]. destruct (await_accounts now c1 (bs_waiters b) b1 (m + length (bs_insert b)) ltac:(lia) H1). lia. }
  destruct (bs_insert b) as [|e0 ins] eqn:Hins.
  - destruct (run_wf others (bs_cache b) Hcb) as (c1 & -> & _). cbn [mbind option_bind]. eexists _, _. split; [done|].
    apply Hfin. by rewrite Nat.add_0_r.
  - rewrite <- Hins in *. destruct w as [r stored|stored]; [|by eexists _, _].
    destruct (settle_all_defined steady (Wrote r stored) (bs_insert b) (bs_cache b) Hcb) as (c1 & -> & Hc1).
    cbn [mbind option_bind]. destruct (run_wf others c1 Hc1) as (c2 & -> & _). cbn [mbind option_bind].
    eexists _, _. split; [done|]. apply Hfin. apply insert_results_accounts; [lia|done].
Qed.

(** A batch whose insertion throws leaves its reservations behind: unlike
    [ingest_single], which guards its reservation, nobody settles the events, so as
    long as nothing else does, every later submission of such an event is told to wait
    for an answer that never comes. *)
Theorem batch_throw_leaks_reservation (now steady : Z) (stored : bool) (others : list DedupCall) (e : AuditEvent)
    (c : BoundedDeduplicationCache)
    (Hc : cache_wf c) (Hnew : state_of c (event_id e) = Unseen) (Hvalid : is_valid (check now e) = true)
    (Hen : dedup_enabled = true) :
  exists c' p, ingest_batch now steady (Threw stored) others [e] c = Some (Err runtime_error, c') /\
  forall ops c'' steady', Forall (fun op => ~ settles (event_id e) op) ops -> run ops c' = Some c'' ->
    promises c'' !! p = Some None /\
    exists c3, try_acquire (event_id e) (fingerprint e) steady' c'' = Some (mkAcquire CoalescedInFlight 0 (Some p) None, c3).
Proof.
  unfold ingest_batch. cbn [length]. change (100 <? Z.of_nat 1) with false. cbn [batch_loop].
  unfold batch_item. rewrite Hvalid. cbn [negb bs_cache bs_result bs_insert bs_waiters app].
  replace (negb dedup_enabled) with false by (by rewrite Hen).
  set (e1 := set_received_at (received_or now e) e).
  destruct (try_acquire_ok c (cw_struct _ Hc) (event_id e) (fingerprint e) steady) as (r & c' & Hacq & Hm).
  change (try_acquire (event_id e1) (fingerprint e1) steady c) with (try_acquire (event_id e) (fingerprint e) steady c).
  rewrite Hacq. cbn [mbind option_bind].
  pose proof (cm_answer _ _ _ _ Hm _ _ _ eq_refl) as [= ->]. rewrite Hnew. cbn [spec_answer decision mbind option_bind bs_insert].
  exists c', (length (promises c)). split; [done|].
  pose proof (cm_concerned _ _ _ _ Hm _ eq_refl) as Hst. rewrite Hnew in Hst. cbn in Hst.
  intros ops c'' steady' Hops Hrun.
  destruct (in_flight_stays ops c' c'' _ _ _ (call_wf _ _ _ _ Hc Hm) Hst Hops Hrun) as [Hst2 Hc2].
  split; [by apply (cw_pending _ Hc2) in Hst2|].
  destruct (try_acquire_answer c'' (event_id e) (fingerprint e) steady' Hc2) as (c3 & Hc3 & _). exists c3.
  rewrite Hc3, Hst2. cbn. by rewrite bool_decide_false by tauto.
Qed.

End batch.

(** ** Concrete runs *)

Definition id_sha (l : list Z) : list Z := l.

Definition good_event : AuditEvent := sample_event "auth.login" [("ip", "10.0.0.1")].
Definition good_now : Z := from_ms 1700000000000.
Definition small_cache : BoundedDeduplicationCache := BoundedDeduplicationCache_new 4 100 2.

Lemma small_cache_wf : cache_wf small_cache.
Proof. apply new_cache_wf; lia. Qed.

Lemma ingest_batch_accounts_witness :
  exists b c', ingest_batch id_sha str_size 400 true good_now 0 (Wrote (insert_batch_classified true) true) []
      [good_event; good_event] small_cache = Some (Ok b, c') /\ accepted_count b + rejected_count b = 2.
Proof.
  destruct (ingest_batch_accounts id_sha str_size 400 true good_now 0 (Wrote (insert_batch_classified true) true) []
      [good_event; good_event] small_cache small_cache_wf ltac:(split; vm_compute; congruence)) as (r & c' & Hr & Hb).
  destruct r as [b|e].
  - exists b, c'. split; [exact Hr|]. exact (proj1 (Hb b eq_refl)).
  - exfalso. assert (H : (if ingest_batch id_sha str_size 400 true good_now 0 (Wrote (insert_batch_classified true) true) []
      [good_event; good_event] small_cache is Some (Ok _, _) then true else false) = true) by (vm_compute; reflexivity).
    rewrite Hr in H. discriminate.
Defined.

Lemma batch_throw_leaks_reservation_witness :
  exists c' p, ingest_batch id_sha str_size 400 true good_now 0 (Threw false) [] [good_event] small_cache
    = Some (Err runtime_error, c') /\ promises c' !! p = Some None.
Proof.
  destruct (batch_throw_leaks_reservation id_sha str_size 400 true good_now 0 false [] good_event small_cache
              small_cache_wf (new_cache_unseen 4 100 2 _)) as (c' & p & Hr & H).
  - vm_compute. reflexivity.
  - reflexivity.
  - exists c', p. split; [exact Hr|]. exact (proj1 (H [] c' 0 ltac:(constructor) eq_refl)).
Defined.

(** One call that persists its event. *)
Lemma sample_ingest :
  exists s, ingest_reachable id_sha str_size 400 true small_cache s /\
    exists r, calls s !! 0%nat = Some (Answered (set_received_at good_now good_event) r) /\ success r = true.
Proof.
  destruct (try_acquire_ok small_cache (cw_struct _ small_cache_wf) (event_id good_event) (compute_fingerprint id_sha good_event) 0)
    as (r & c & Hacq & Hm).
  pose proof (cm_answer _ _ _ _ Hm _ _ _ eq_refl) as Hr. apply (inj Some) in Hr.
  assert (Hun : state_of small_cache (event_id good_event) = Unseen) by apply new_cache_unseen.
  rewrite Hun in Hr. cbn [spec_answer] in Hr.
  set (w := Wrote (insert_batch_classified true) true).
  pose proof (ir_start id_sha str_size 400 true small_cache) as H.
  eapply ir_step in H; [|eapply (in_acquire _ _ _ _ _ 0 good_event good_now 0 r c);
    [reflexivity|vm_compute; reflexivity|reflexivity|exact Hacq]].
  rewrite Hr in H. cbn in H.
  eapply ir_step in H; [|eapply (in_insert _ _ _ _ _ 0 _ _ w); [reflexivity|reflexivity]]. cbn in H.
  destruct (call_defined (settle_call (set_received_at good_now good_event) 0 w) c (call_wf _ _ _ _ small_cache_wf Hm)) as (r2 & c2 & Hset & _).
  eapply ir_step in H; [|eapply (in_settle _ _ _ _ _ 0); [reflexivity|exact Hset]].
  eexists. split; [exact H|]. eexists. split; reflexivity.
Qed.

Lemma ingest_success_is_durable_witness :
  exists s row, ingest_reachable id_sha str_size 400 true small_cache s /\ row ∈ rows s /\ event_id row = event_id good_event.
Proof.
  destruct sample_ingest as (s & Hs & r & Hi & Hok).
  destruct (ingest_success_is_durable id_sha str_size 400 true 4 100 2 ltac:(lia) ltac:(lia) s 0 _ r Hs Hi Hok) as (row & Hin & Hid & _).
  exists s, row. split; [exact Hs|]. split; [exact Hin|exact Hid].
Defined.

Lemma ingest_reservations_exclusive_witness :
  exists s, ingest_reachable id_sha str_size 400 true small_cache s /\
    forall id fp p, state_of (cache s) id = InFlight fp p -> exists i pc e, calls s !! i = Some pc /\ owned pc = Some e /\ event_id e = id.
Proof.
  destruct sample_ingest as (s & Hs & _). exists s. split; [exact Hs|].
  exact (proj1 (proj2 (ingest_reservations_exclusive id_sha str_size 400 true 4 100 2 ltac:(lia) ltac:(lia) s Hs))).
Defined.
