(* ===== verification/Base64url.v ===== *)
(** * Base64url without padding

    Models [base64url_encode] and [base64url_decode] of
    [src/audit/query/audit_page_cursor.cpp], with the 32-bit accumulator [val] that
    keeps old bits and wraps, and the signed bit position [valb]. *)

From S2P Require Import Prelude Ids Bytes.
From Stdlib Require Import Ascii.

Definition kBase64UrlAlphabet : list ascii :=
  chars "ABCDEFGHIJKLMNOPQRSTUVWXYZabcdefghijklmnopqrstuvwxyz0123456789-_".

Definition alphabet_at (i : Z) : ascii := default zero (kBase64UrlAlphabet !! Z.to_nat i).

(** The inner loop [while (valb >= 0)]; [valb] is at most 6 here, so two turns. *)
Fixpoint emit (fuel : nat) (val valb : Z) : list ascii * Z :=
  match fuel with
  | O => ([], valb)
  | S fuel =>
      if 0 <=? valb then
        let '(out, valb') := emit fuel val (valb - 6) in
        (alphabet_at (Z.land (Z.shiftr val valb) 63) :: out, valb')
      else ([], valb)
  end.

Fixpoint encode_loop (val valb : Z) (data : list Z) : list ascii :=
  match data with
  | [] => if -6 <? valb then [alphabet_at (Z.land (Z.shiftr (u32 (Z.shiftl val 8)) (valb + 8)) 63)] else []
  | c :: data =>
      let val := u32 (u32 (Z.shiftl val 8) + c) in
      let '(out, valb) := emit 2 val (valb + 8) in
      out ++ encode_loop val valb data
  end.

Definition base64url_encode (data : list Z) : list ascii := encode_loop 0 (-6) data.

(** The table [T]: the position of a character in the alphabet, or -1. *)
Fixpoint index_of (c : ascii) (l : list ascii) (i : Z) : Z :=
  match l with
  | [] => -1
  | d :: l => if Ascii.eqb c d then i else index_of c l (i + 1)
  end.

Definition T (c : ascii) : Z := index_of c kBase64UrlAlphabet 0.

Fixpoint decode_loop (val valb : Z) (input : list ascii) : option (list Z) :=
  match input with
  | [] => Some []
  | c :: input =>
      let v := T c in
      if v =? -1 then None
      else
        let val := u32 (u32 (Z.shiftl val 6) + v) in
        let valb := valb + 6 in
        if 0 <=? valb then
          match decode_loop val (valb - 8) input with
          | Some out => Some (Z.land (Z.shiftr val valb) 255 :: out)
          | None => None
          end
        else decode_loop val valb input
  end.

Definition base64url_decode (input : list ascii) : option (list Z) := decode_loop 0 (-8) input.

(** ** Digits *)

Lemma T_alphabet i : 0 <= i < 64 -> T (alphabet_at i) = i.
Proof.
  intros Hi. assert (H : forallb (fun n => T (alphabet_at (Z.of_nat n)) =? Z.of_nat n) (seq 0 64) = true)
    by (vm_compute; reflexivity).
  rewrite forallb_forall in H. specialize (H (Z.to_nat i)). rewrite Z2Nat.id in H by lia.
  apply Z.eqb_eq, H, in_seq. lia.
Qed.

Lemma land_63 z : Z.land z 63 = z mod 64.
Proof. change 63 with (Z.ones 6). by rewrite Z.land_ones. Qed.

(** Shifts and masks as arithmetic. *)
Ltac bits_to_div :=
  rewrite ?land_63, ?Uuid.land_255, ?Z.shiftr_div_pow2, ?Z.shiftl_mul_pow2 by lia; unfold u32, wrap;
  change (2 ^ 32) with 4294967296 in *; change (2 ^ 8) with 256 in *; change (2 ^ 6) with 64 in *;
  change (2 ^ 4) with 16 in *; change (2 ^ 2) with 4 in *; change (2 ^ 0) with 1 in *.

Definition next8 (val c : Z) : Z := u32 (u32 (Z.shiftl val 8) + c).
Definition next6 (val v : Z) : Z := u32 (u32 (Z.shiftl val 6) + v).

(** The inner loop at the three positions it is entered. *)
Lemma emit_2 v : emit 2 v 2 = ([alphabet_at (Z.land (Z.shiftr v 2) 63)], -4).
Proof. done. Qed.
Lemma emit_4 v : emit 2 v 4 = ([alphabet_at (Z.land (Z.shiftr v 4) 63)], -2).
Proof. done. Qed.
Lemma emit_6 v :
  emit 2 v 6 = ([alphabet_at (Z.land (Z.shiftr v 6) 63); alphabet_at (Z.land (Z.shiftr v 0) 63)], -6).
Proof. done. Qed.

(** ** One byte in, from each of the three bit positions *)

Section steps.
Context (val c : Z) (Hc : 0 <= c < 256).

Lemma next8_low : next8 val c mod 16 = c mod 16 /\ next8 val c mod 4 = c mod 4.
Proof. unfold next8. bits_to_div. Z.to_euclidean_division_equations. lia. Qed.

Lemma encode_step_0 data :
  encode_loop val (-6) (c :: data) = alphabet_at (c / 4) :: encode_loop (next8 val c) (-4) data.
Proof.
  cbn [encode_loop]. fold (next8 val c). change (-6 + 8) with 2. rewrite emit_2. cbn [app]. f_equal. f_equal.
  unfold next8. bits_to_div. Z.to_euclidean_division_equations. lia.
Qed.

Lemma encode_step_1 data :
  encode_loop val (-4) (c :: data) = alphabet_at (val mod 4 * 16 + c / 16) :: encode_loop (next8 val c) (-2) data.
Proof.
  cbn [encode_loop]. fold (next8 val c). change (-4 + 8) with 4. rewrite emit_4. cbn [app]. f_equal. f_equal.
  unfold next8. bits_to_div. Z.to_euclidean_division_equations. lia.
Qed.

Lemma encode_step_2 data :
  encode_loop val (-2) (c :: data)
  = alphabet_at (val mod 16 * 4 + c / 64) :: alphabet_at (c mod 64) :: encode_loop (next8 val c) (-6) data.
Proof.
  cbn [encode_loop]. fold (next8 val c). change (-2 + 8) with 6. rewrite emit_6. cbn [app]. f_equal; [|f_equal]; f_equal.
  - unfold next8. bits_to_div. Z.to_euclidean_division_equations. lia.
  - unfold next8. bits_to_div. Z.to_euclidean_division_equations. lia.
Qed.

End steps.

(** The last digit, of the bits that are left. *)
Lemma encode_end_1 val : encode_loop val (-4) [] = [alphabet_at (val mod 4 * 16)].
Proof.
  cbn [encode_loop Z.ltb Z.compare Z.add Z.pos_sub]. f_equal. f_equal. bits_to_div. Z.to_euclidean_division_equations. lia.
Qed.

Lemma encode_end_2 val : encode_loop val (-2) [] = [alphabet_at (val mod 16 * 4)].
Proof.
  cbn [encode_loop Z.ltb Z.compare Z.add Z.pos_sub]. f_equal. f_equal. bits_to_div. Z.to_euclidean_division_equations. lia.
Qed.

(** ** One digit in, from each of the four bit positions *)

Section decode_steps.
Context (val d : Z) (Hd : 0 <= d < 64) (input : list ascii).

Lemma decode_digit valb :
  decode_loop val valb (alphabet_at d :: input)
  = if 0 <=? valb + 6 then
      match decode_loop (next6 val d) (valb + 6 - 8) input with
      | Some out => Some (Z.land (Z.shiftr (next6 val d) (valb + 6)) 255 :: out)
      | None => None
      end
    else decode_loop (next6 val d) (valb + 6) input.
Proof. cbn [decode_loop]. rewrite T_alphabet by done. destruct (Z.eqb_spec d (-1)); [lia|done]. Qed.

Lemma next6_low : next6 val d mod 64 = d /\ next6 val d mod 16 = d mod 16 /\ next6 val d mod 4 = d mod 4.
Proof. unfold next6. bits_to_div. Z.to_euclidean_division_equations. lia. Qed.

Lemma decode_step_0 : decode_loop val (-8) (alphabet_at d :: input) = decode_loop (next6 val d) (-2) input.
Proof. by rewrite decode_digit. Qed.

Lemma decode_step_1 :
  decode_loop val (-2) (alphabet_at d :: input)
  = (cons (val mod 64 * 4 + d / 16)) <$> decode_loop (next6 val d) (-4) input.
Proof.
  rewrite decode_digit. change (-2 + 6) with 4. change (4 - 8) with (-4). cbn [Z.leb Z.compare].
  destruct (decode_loop (next6 val d) (-4) input); [|done]. cbn. do 2 f_equal.
  unfold next6. bits_to_div. Z.to_euclidean_division_equations. lia.
Qed.

Lemma decode_step_2 :
  decode_loop val (-4) (alphabet_at d :: input)
  = (cons (val mod 16 * 16 + d / 4)) <$> decode_loop (next6 val d) (-6) input.
Proof.
  rewrite decode_digit. change (-4 + 6) with 2. change (2 - 8) with (-6). cbn [Z.leb Z.compare].
  destruct (decode_loop (next6 val d) (-6) input); [|done]. cbn. do 2 f_equal.
  unfold next6. bits_to_div. Z.to_euclidean_division_equations. lia.
Qed.

Lemma decode_step_3 :
  decode_loop val (-6) (alphabet_at d :: input)
  = (cons (val mod 4 * 64 + d)) <$> decode_loop (next6 val d) (-8) input.
Proof.
  rewrite decode_digit. change (-6 + 6) with 0. change (0 - 8) with (-8). cbn [Z.leb Z.compare].
  destruct (decode_loop (next6 val d) (-8) input); [|done]. cbn. do 2 f_equal.
  unfold next6. bits_to_div. Z.to_euclidean_division_equations. lia.
Qed.

End decode_steps.

(** ** Round trip *)

Ltac digit_range := Z.to_euclidean_division_equations; lia.

(** Two, three and four digits against the bytes they were made of. *)
Lemma decode_pair w a x input :
  0 <= a < 256 -> 0 <= x < 16 ->
  exists v, decode_loop w (-8) (alphabet_at (a / 4) :: alphabet_at (a mod 4 * 16 + x) :: input)
    = (cons a) <$> decode_loop v (-4) input /\ v mod 16 = x.
Proof.
  intros Ha Hx. rewrite decode_step_0 by digit_range. rewrite decode_step_1 by digit_range.
  destruct (next6_low w (a / 4) ltac:(digit_range)) as [-> _]. eexists. split.
  - f_equal. f_equal. digit_range.
  - destruct (next6_low (next6 w (a / 4)) (a mod 4 * 16 + x) ltac:(digit_range)) as (_ & -> & _). digit_range.
Qed.

Lemma decode_third v b x y input :
  0 <= b < 256 -> 0 <= y < 4 -> v mod 16 = b / 16 -> x = b mod 16 * 4 + y ->
  exists u, decode_loop v (-4) (alphabet_at x :: input) = (cons b) <$> decode_loop u (-6) input /\ u mod 4 = y.
Proof.
  intros Hb Hy Hv ->. rewrite decode_step_2 by digit_range. rewrite Hv. eexists. split.
  - f_equal. f_equal. digit_range.
  - destruct (next6_low v (b mod 16 * 4 + y) ltac:(digit_range)) as (_ & _ & ->). digit_range.
Qed.

Lemma decode_encode_loop data : forall val w,
  Forall Uuid.is_byte data -> decode_loop w (-8) (encode_loop val (-6) data) = Some data.
Proof.
  induction data as [data IH] using (induction_ltof1 _ (@length Z)). unfold ltof in IH. intros val w Hall.
  destruct data as [|a data]; [done|]. apply Forall_cons in Hall as [Ha Hall]. rewrite encode_step_0 by done.
  destruct (next8_low val a Ha) as [Hl16 Hl4].
  destruct data as [|b data].
  - rewrite encode_end_1, Hl4. destruct (decode_pair w a 0 [] Ha ltac:(lia)) as (v & Hv & _).
    rewrite Z.add_0_r in Hv. by rewrite Hv.
  - apply Forall_cons in Hall as [Hb Hall]. rewrite encode_step_1, Hl4 by done.
    edestruct (decode_pair w a (b / 16)) as (v & -> & Hvm); [done|unfold Uuid.is_byte in Hb; digit_range|].
    destruct (next8_low (next8 val a) b Hb) as [Hm16 _].
    destruct data as [|c data].
    + rewrite encode_end_2, Hm16. destruct (decode_third v b (b mod 16 * 4) 0 [] Hb ltac:(lia) Hvm ltac:(lia)) as (u & -> & _). done.
    + apply Forall_cons in Hall as [Hc Hall]. rewrite encode_step_2, Hm16 by done.
      edestruct (decode_third v b (b mod 16 * 4 + c / 64) (c / 64)) as (u & -> & Hum);
        [done|unfold Uuid.is_byte in Hc; digit_range|done|done|].
      rewrite decode_step_3 by (unfold Uuid.is_byte in Hc; digit_range). rewrite IH by (cbn; done || lia). cbn.
      rewrite Hum. do 4 f_equal. pose proof (Z.div_mod c 64). lia.
Qed.

Lemma base64url_roundtrip data : Forall Uuid.is_byte data -> base64url_decode (base64url_encode data) = Some data.
Proof. apply decode_encode_loop. Qed.
