(* ===== verification/AuditQuery.v ===== *)
(** * Queries of the audit service

    Models [src/audit/query]: the page token codec [audit_page_cursor.cpp], the
    authorizer [audit_query_authorizer.cpp], the validator [audit_query_validator.cpp]
    and the application service [audit_query_application_service.cpp] with the
    bulkhead [query_bulkhead_limiter.hpp].  SHA-256 and what the repository answers are
    parameters. *)

From S2P Require Import Prelude Ids Bytes CircuitBreaker AuditEvent AuditValidation Base64url.
From stdpp Require Import sorting.
From Stdlib Require Import Ascii.
#[local] Open Scope Z_scope.

(** ** Types *)

(** The enumeration, with the other values a [static_cast] of a byte can give. *)
Inductive SortOrder := Descending | Ascending | SortOther (v : Z).

#[export] Instance SortOrder_eq_dec : EqDecision SortOrder.
Proof. solve_decision. Defined.

Definition sort_value (o : SortOrder) : Z := match o with Descending => 0 | Ascending => 1 | SortOther v => v end.
Definition sort_of_value (v : Z) : SortOrder :=
  if v =? 0 then Descending else if v =? 1 then Ascending else SortOther v.

Record AuditQueryFilter := mkFilter {
  start_occurred_at : option Z;
  end_occurred_at : option Z;
  producer_services : list ProducerService;
  event_types : list string;
  severities : list Severity;
  f_actor_type : option ActorType;
  f_actor_id : option string;
  f_target_type : option TargetType;
  f_target_id : option string;
  f_correlation_id : option string;
  page_size : Z;
  page_token : string;
  sort_order : SortOrder }.

Definition empty_filter : AuditQueryFilter :=
  mkFilter None None [] [] [] None None None None None 100 EmptyString Descending.

Record AuditPageCursor := mkCursor {
  last_occurred_at_ms : Z;
  last_producer_service : string;
  last_event_type : string;
  last_event_id : EventId;
  c_sort_order : SortOrder;
  filter_hash : list Z }.

Record AuditQueryPageResult := mkPage {
  events : list AuditEvent;
  next_page_token : string;
  has_more : bool;
  effective_page_size : Z }.

(** ** The filter hash *)

(** [EVP_DigestUpdate(&count, 4)] on a little-endian machine. *)
Fixpoint le_bytes (n : nat) (v : Z) : list Z :=
  match n with
  | O => []
  | S n => Z.land v 255 :: le_bytes n (Z.shiftr v 8)
  end.

Definition hash_count (n : nat) : list Z := le_bytes 4 (u32 (Z.of_nat n)).
Definition time_ms (o : option Z) : Z := from_option to_ms 0 o.
Definition hash_opt_enum {A} (value : A -> Z) (o : option A) : list Z :=
  match o with Some a => [1; value a] | None => [0] end.

(** The order [std::sort] uses on enumerators. *)
Definition by_value {A} (value : A -> Z) : relation A := fun a b => value a <= value b.

#[export] Instance by_value_dec {A} (value : A -> Z) : RelDecision (by_value value).
Proof. intros a b. unfold by_value. apply _. Defined.

Definition filter_hash_input (f : AuditQueryFilter) : list Z :=
  be_bytes 8 (u64 (time_ms (start_occurred_at f))) ++ be_bytes 8 (u64 (time_ms (end_occurred_at f)))
  ++ hash_count (length (producer_services f))
  ++ (producer_value <$> merge_sort (by_value producer_value) (producer_services f))
  ++ hash_count (length (event_types f)) ++ mjoin (framed_string <$> merge_sort String.le (event_types f))
  ++ hash_count (length (severities f)) ++ (severity_value <$> merge_sort (by_value severity_value) (severities f))
  ++ hash_opt_enum actor_value (f_actor_type f) ++ framed_string (default EmptyString (f_actor_id f))
  ++ hash_opt_enum target_value (f_target_type f) ++ framed_string (default EmptyString (f_target_id f))
  ++ framed_string (default EmptyString (f_correlation_id f)) ++ [sort_value (sort_order f)].

Definition compute_filter_hash (sha256 : list Z -> list Z) (f : AuditQueryFilter) : list Z :=
  take 16 (sha256 (filter_hash_input f)).

(** ** The page token *)

Definition u16 (z : Z) : Z := wrap 16 z.

(** A string behind sixteen bits of length. *)
Definition short_string (s : string) : list Z := be_bytes 2 (u16 (str_size s)) ++ bytes_of s.

Definition cursor_bytes (c : AuditPageCursor) : list Z :=
  be_bytes 8 (u64 (last_occurred_at_ms c)) ++ short_string (last_producer_service c)
  ++ short_string (last_event_type c) ++ event_bytes (last_event_id c) ++ [sort_value (c_sort_order c)] ++ filter_hash c.

Definition cursor_encode (c : AuditPageCursor) : string := of_chars (base64url_encode (cursor_bytes c)).

(** [ts = (ts << 8) | byte] over the bytes. *)
Definition read_be (bytes : list Z) : Z := foldl (fun ts b => Z.lor (u64 (Z.shiftl ts 8)) b) 0 bytes.

(** Reads [n] bytes at the front if they are there. *)
Definition read (n : nat) (bytes : list Z) : option (list Z * list Z) :=
  if (n <=? length bytes)%nat then Some (take n bytes, drop n bytes) else None.

(** A length of sixteen bits and as many characters. *)
Definition read_short (bytes : list Z) : option (string * list Z) :=
  r ← read 2 bytes;
  let len := Z.to_nat (read_be r.1) in
  s ← read len r.2;
  Some (string_of s.1, s.2).

Definition cursor_of_bytes (bytes expected_filter_hash : list Z) : option AuditPageCursor :=
  if (length bytes <? 8 + 2 + 2 + 16 + 1 + 16)%nat then None
  else
    ts ← read 8 bytes;
    prod ← read_short ts.2;
    type ← read_short prod.2;
    uuid ← read 16 type.2;
    let id := mkEventId uuid.1 in
    if negb (EventId_is_nil id) && (negb (EventId_version id =? 7) || negb (EventId_variant id =? 2)) then None
    else
      sort ← read 1 uuid.2;
      if negb (length sort.2 =? 16)%nat then None
      else if bool_decide (sort.2 <> expected_filter_hash) then None
      else Some (mkCursor (i64 (read_be ts.1)) prod.1 type.1 id (sort_of_value (default 0 (sort.1 !! 0%nat))) sort.2).

Definition cursor_decode (token : string) (expected_filter_hash : list Z) : option AuditPageCursor :=
  if bool_decide (token = EmptyString) then None
  else bytes ← base64url_decode (chars token); cursor_of_bytes bytes expected_filter_hash.

(** ** [AuditQueryAuthorizer] *)

Record PeerIdentity := mkPeer {
  common_name : string; san_dns_names : list string; san_uri_names : list string; is_authenticated : bool }.

Record Status := mkStatus { status_code : StatusCode; status_message : string }.
Definition status_ok : Status := mkStatus OK EmptyString.

Definition producer_service_from_cn (cn : string) : option ProducerService :=
  first_match
    [(["auth.securecloud.internal"], Auth); (["messaging.securecloud.internal"], Messaging);
     (["files.securecloud.internal"], Files); (["gateway.securecloud.internal"], Gateway);
     (["audit.securecloud.internal"], Audit)] cn.

Definition authorize_query (peer : PeerIdentity) (f : AuditQueryFilter) : Status :=
  if negb (is_authenticated peer) then
    mkStatus UNAUTHENTICATED "Unauthenticated: Valid mTLS peer certificate required"
  else if String.eqb (common_name peer) "audit.securecloud.internal" then status_ok
  else if String.eqb (common_name peer) "gateway.securecloud.internal" then
    if bool_decide (producer_services f = [Gateway]) then status_ok
    else mkStatus PERMISSION_DENIED
           "ForbiddenOperatorContractNotEnabled: Human operator cross-service access contract not enabled"
  else
    match producer_service_from_cn (common_name peer) with
    | Some ((Auth | Messaging | Files) as caller_service) =>
        match producer_services f with
        | [] => mkStatus PERMISSION_DENIED "ForbiddenScope: Scoped caller must explicitly filter by its own producer_service"
        | _ =>
            if forallb (fun ps => bool_decide (ps = caller_service)) (producer_services f) then status_ok
            else mkStatus PERMISSION_DENIED
                   "ForbiddenScope: Caller is unauthorized to query audit logs outside its own producer scope"
        end
    | _ => mkStatus PERMISSION_DENIED "ForbiddenScope: Peer identity is not authorized to query audit service"
    end.

(** ** [AuditQueryValidator] *)

Record QueryConfig := mkConfig {
  workers : Z; max_page_limit : Z; default_page_limit : Z; query_timeout_ms : Z;
  default_time_window_hours : Z; max_time_window_hours : Z; max_result_bytes : Z }.

Definition ns_per_hour : Z := 3600 * ns_per_s.

(** [char] is signed: characters from 128 up are negative. *)
Definition signed_char (c : ascii) : Z := if code c <? 128 then code c else code c - 256.

Definition safe_char (c : ascii) : bool :=
  negb ((signed_char c <? 32) || (126 <? signed_char c) || (code c =? 39) || (code c =? 34) || (code c =? 96) || (code c =? 0)).

Definition is_safe_identifier (id : string) (max_len : Z) : bool :=
  if bool_decide (id = EmptyString) || (max_len <? str_size id) then false else forallb safe_char (chars id).

Definition is_valid_correlation_id (token : string) : bool := is_safe_identifier token 64.

Definition invalid (message : string) : Status := mkStatus INVALID_ARGUMENT message.

Definition set_window (start stop : Z) (f : AuditQueryFilter) : AuditQueryFilter :=
  mkFilter (Some start) (Some stop) (producer_services f) (event_types f) (severities f) (f_actor_type f) (f_actor_id f)
    (f_target_type f) (f_target_id f) (f_correlation_id f) (page_size f) (page_token f) (sort_order f).

Definition set_page_size (n : Z) (f : AuditQueryFilter) : AuditQueryFilter :=
  mkFilter (start_occurred_at f) (end_occurred_at f) (producer_services f) (event_types f) (severities f) (f_actor_type f)
    (f_actor_id f) (f_target_type f) (f_target_id f) (f_correlation_id f) n (page_token f) (sort_order f).

Section query.
Context (sha256 : list Z -> list Z).

(** Step 3: identifiers and the page token of the normalised filter. *)
Definition check_fields (f : AuditQueryFilter) : Status :=
  if (20 <? length (event_types f))%nat then
    invalid "TooManyEventTypes: Maximum allowed event_types filter count is 20"
  else if negb (forallb is_valid_event_type (event_types f)) then
    invalid "InvalidEventType: Event type format mismatch or exceeds 64 characters"
  else if bool_decide (is_Some (f_actor_id f)) && bool_decide (f_actor_type f = None) then
    invalid "InvalidActorTargetRequirement: actor_type must be specified when actor_id is present"
  else if negb (from_option (fun id => is_safe_identifier id 128) true (f_actor_id f)) then
    invalid "InvalidCharacterInIdentifier: actor_id contains forbidden control, quote, or null characters"
  else if bool_decide (is_Some (f_target_id f)) && bool_decide (f_target_type f = None) then
    invalid "InvalidActorTargetRequirement: target_type must be specified when target_id is present"
  else if negb (from_option (fun id => is_safe_identifier id 128) true (f_target_id f)) then
    invalid "InvalidCharacterInIdentifier: target_id contains forbidden control, quote, or null characters"
  else if negb (from_option is_valid_correlation_id true (f_correlation_id f)) then
    invalid "InvalidCorrelationId: correlation_id length must be <= 64 and contain printable ASCII"
  else if negb (bool_decide (page_token f = EmptyString))
          && bool_decide (cursor_decode (page_token f) (compute_filter_hash sha256 f) = None) then
    invalid "InvalidPageToken: Decoded cursor fingerprint does not match canonical filter hash"
  else status_ok.

(** Returns the status and the filter it leaves. *)
Definition validate_and_normalize (cfg : QueryConfig) (now : Z) (f : AuditQueryFilter) : Status * AuditQueryFilter :=
  let windowed :=
    match start_occurred_at f, end_occurred_at f with
    | None, None =>
        let start := now - default_time_window_hours cfg * ns_per_hour in
        let stop := now + 300 * ns_per_s in Some (start, stop, set_window start stop f)
    | Some start, Some stop => Some (start, stop, f)
    | _, _ => None
    end in
  match windowed with
  | None =>
      (invalid "MissingTimeRangeBound: Both start_occurred_at and end_occurred_at must be provided together", f)
  | Some (start, stop, f) =>
      if stop <=? start then
        (invalid "InvalidTimeRangeOrder: start_occurred_at must be strictly less than end_occurred_at", f)
      else if max_time_window_hours cfg <? Z.quot (stop - start) ns_per_hour then
        (invalid "TimeWindowExceeded: Requested time window exceeds maximum allowed duration", f)
      else if page_size f =? 0 then
        let f := set_page_size (default_page_limit cfg) f in (check_fields f, f)
      else if max_page_limit cfg <? page_size f then
        (invalid "PageSizeExceeded: Requested page_size exceeds maximum allowed limit", f)
      else (check_fields f, f)
  end.

(** ** [AuditQueryApplicationService] *)

Record QueryService := mkQueryService {
  active_queries : Z; rejections_total : Z;
  queries_executed_total : Z; queries_denied_total : Z; queries_failed_total : Z }.

Definition count_denied (s : QueryService) : QueryService :=
  mkQueryService (active_queries s) (rejections_total s) (queries_executed_total s) (u64 (queries_denied_total s + 1)) (queries_failed_total s).
Definition count_failed (s : QueryService) : QueryService :=
  mkQueryService (active_queries s) (rejections_total s) (queries_executed_total s) (queries_denied_total s) (u64 (queries_failed_total s + 1)).
Definition count_executed (s : QueryService) : QueryService :=
  mkQueryService (active_queries s) (rejections_total s) (u64 (queries_executed_total s + 1)) (queries_denied_total s) (queries_failed_total s).

(** [try_acquire] and the release in the destructor of the lease. *)
Definition bulkhead_try_acquire (cfg : QueryConfig) (s : QueryService) : bool * QueryService :=
  if active_queries s <? workers cfg then
    (true, mkQueryService (u32 (active_queries s + 1)) (rejections_total s) (queries_executed_total s) (queries_denied_total s) (queries_failed_total s))
  else
    (false, mkQueryService (active_queries s) (u64 (rejections_total s + 1)) (queries_executed_total s) (queries_denied_total s) (queries_failed_total s)).
Definition release_lease (s : QueryService) : QueryService :=
  mkQueryService (u32 (active_queries s - 1)) (rejections_total s) (queries_executed_total s) (queries_denied_total s) (queries_failed_total s).

(** What the repository does: rows, a ClickHouse exception, or another one. *)
Inductive RepositoryAnswer (A : Type) := Rows (a : A) | ThrowClickHouse | ThrowOther.
Arguments Rows {A} a.
Arguments ThrowClickHouse {A}.
Arguments ThrowOther {A}.

Definition cursor_after (f : AuditQueryFilter) (last_event : AuditEvent) : AuditPageCursor :=
  mkCursor (to_ms (occurred_at last_event)) (producer_to_string (producer_service last_event)) (event_type last_event)
    (event_id last_event) (sort_order f) (compute_filter_hash sha256 f).

(** Step 5: the lookahead row tells whether there is more. *)
Definition page_of (f : AuditQueryFilter) (raw_events : list AuditEvent) : AuditQueryPageResult :=
  if Z.of_nat (length raw_events) =? u32 (page_size f + 1) then
    let kept := removelast raw_events in
    mkPage kept (from_option (fun e => cursor_encode (cursor_after f e)) EmptyString (last kept)) true
      (u32 (Z.of_nat (length kept)))
  else mkPage raw_events EmptyString false (u32 (Z.of_nat (length raw_events))).

Definition execute_query (cfg : QueryConfig) (now : Z)
    (execute_paged_query : AuditQueryFilter -> option AuditPageCursor -> RepositoryAnswer (list AuditEvent))
    (caller : PeerIdentity) (filter : AuditQueryFilter) (s : QueryService)
    : result exn (Status * option AuditQueryPageResult) * QueryService :=
  let auth_status := authorize_query caller filter in
  if negb (bool_decide (status_code auth_status = OK)) then (Ok (auth_status, None), count_denied s)
  else
    let '(val_status, f) := validate_and_normalize cfg now filter in
    if negb (bool_decide (status_code val_status = OK)) then (Ok (val_status, None), count_failed s)
    else
      let cursor := if bool_decide (page_token f = EmptyString) then None
                    else cursor_decode (page_token f) (compute_filter_hash sha256 f) in
      if negb (bool_decide (page_token f = EmptyString)) && bool_decide (cursor = None) then
        (Ok (invalid "InvalidPageToken: Cursor filter fingerprint mismatch", None), count_failed s)
      else
        let '(acquired, s1) := bulkhead_try_acquire cfg s in
        if negb acquired then
          (Ok (mkStatus RESOURCE_EXHAUSTED "ResourceExhausted: Query execution bulkhead saturated", None), count_failed s1)
        else
          match execute_paged_query f cursor with
          | ThrowClickHouse => (Err runtime_error, release_lease (count_failed s1))
          | ThrowOther => (Ok (mkStatus INTERNAL "Database query execution failed", None), release_lease (count_failed s1))
          | Rows raw_events => (Ok (status_ok, Some (page_of f raw_events)), release_lease (count_executed s1))
          end.

Definition get_event_by_id (cfg : QueryConfig) (find_by_event_id : EventId -> RepositoryAnswer (option AuditEvent))
    (caller : PeerIdentity) (event_id_str : string) (s : QueryService)
    : result exn (Status * option AuditEvent) * QueryService :=
  if negb (is_authenticated caller) then (Ok (mkStatus UNAUTHENTICATED "Unauthenticated", None), count_denied s)
  else
    match EventId_from_string event_id_str with
    | None => (Ok (invalid "Invalid EventId UUIDv7 format", None), count_failed s)
    | Some id =>
        let auth_status := authorize_query caller empty_filter in
        if negb (bool_decide (status_code auth_status = OK)) then (Ok (auth_status, None), count_denied s)
        else
          let '(acquired, s1) := bulkhead_try_acquire cfg s in
          if negb acquired then
            (Ok (mkStatus RESOURCE_EXHAUSTED "ResourceExhausted: Query execution bulkhead saturated", None), count_failed s1)
          else
            match find_by_event_id id with
            | ThrowClickHouse => (Err runtime_error, release_lease (count_failed s1))
            | ThrowOther => (Ok (mkStatus INTERNAL "Database lookup failed", None), release_lease (count_failed s1))
            | Rows out_event => (Ok (status_ok, out_event), release_lease (count_executed s1))
            end
    end.

End query.
#[global] Arguments Rows {A} a.
#[global] Arguments ThrowClickHouse {A}.
#[global] Arguments ThrowOther {A}.

(** ** The page token round trip *)

Lemma lor_low k b : 0 <= b < 256 -> Z.lor (k * 256) b = k * 256 + b.
Proof.
  intros Hb. assert (Hland : Z.land (k * 256) b = 0).
  { apply Z.bits_inj'. intros i Hi. rewrite Z.land_spec, Z.bits_0.
    change 256 with (2 ^ 8). destruct (Z.lt_ge_cases i 8).
    - rewrite Z.mul_pow2_bits_low by done. done.
    - rewrite (Z.bits_above_log2 b i), andb_false_r; [done|lia|].
      destruct (decide (b = 0)) as [->|]; [cbn; lia|]. apply Z.log2_lt_pow2; [lia|].
      apply (Z.lt_le_trans _ (2 ^ 8)); [lia|]. apply Z.pow_le_mono_r; lia. }
  rewrite <- Z.lxor_lor by done. by rewrite Z.add_nocarry_lxor.
Qed.

Lemma read_be_spec l acc :
  Forall Uuid.is_byte l -> foldl (fun ts b => Z.lor (u64 (Z.shiftl ts 8)) b) acc l mod 2 ^ 64
    = (acc * 256 ^ Z.of_nat (length l) + Uuid.be l) mod 2 ^ 64.
Proof.
  intros Hl. revert acc. induction Hl as [|b l Hb _ IH]; intros acc; cbn [foldl length Uuid.be].
  - f_equal. lia.
  - rewrite IH. unfold u64, wrap. rewrite Z.shiftl_mul_pow2 by lia. change (2 ^ 8) with 256.
    replace (2 ^ 64) with (256 * 2 ^ 56) by done. rewrite (Z.mul_comm acc 256), Z.mul_mod_distr_l by lia.
    rewrite (Z.mul_comm 256 (acc mod 2 ^ 56)), lor_low by done.
    rewrite Nat2Z.inj_succ, Z.pow_succ_r by lia. set (p := 256 ^ Z.of_nat (length l)).
    replace (acc * (256 * p) + (b * p + Uuid.be l))
      with (((acc mod 2 ^ 56) * 256 + b) * p + Uuid.be l + (acc / 2 ^ 56 * p) * (256 * 2 ^ 56)).
    + by rewrite Z.mod_add by lia.
    + pose proof (Z.div_mod acc (2 ^ 56) ltac:(lia)) as Hd. rewrite Hd at 3. ring.
Qed.

Lemma read_be_be_bytes n v : (n <= 8)%nat -> read_be (be_bytes n v) mod 2 ^ 64 = v mod 2 ^ (8 * Z.of_nat n).
Proof.
  intros Hn. unfold read_be. rewrite read_be_spec by apply be_bytes_byte. rewrite Z.mul_0_l, Z.add_0_l, be_be_bytes.
  apply Z.mod_small. pose proof (Z.mod_pos_bound v (2 ^ (8 * Z.of_nat n)) ltac:(lia)).
  pose proof (Z.pow_le_mono_r 2 (8 * Z.of_nat n) 64 ltac:(lia) ltac:(lia)). lia.
Qed.

(** The accumulator of two bytes stays small. *)
Lemma read_be_2 v : 0 <= v < 2 ^ 16 -> read_be (be_bytes 2 v) = v.
Proof.
  intros Hv. assert (Hr : exists a b, be_bytes 2 v = [a; b] /\ Uuid.is_byte a /\ Uuid.is_byte b /\ Uuid.be [a; b] = v).
  { pose proof (be_bytes_byte 2 v) as Hb. pose proof (be_be_bytes 2 v) as He. cbn [be_bytes] in *.
    rewrite !Forall_cons in Hb. destruct Hb as (? & ? & _). eexists _, _. split; [reflexivity|]. split_and!; [done..|].
    rewrite He. by apply Z.mod_small. }
  destruct Hr as (a & b & -> & Ha & Hb & <-). unfold read_be, Uuid.is_byte in *. cbn [foldl Uuid.be length].
  rewrite (Z.shiftl_0_l 8). change (u64 0) with (0 * 256). rewrite lor_low by done.
  rewrite Z.shiftl_mul_pow2 by lia. change (2 ^ 8) with 256. rewrite u64_small by (unfold in_u64; lia).
  rewrite lor_low by done. cbn. lia.
Qed.

Lemma i64_mod z w : - 2 ^ 63 <= z < 2 ^ 63 -> w mod 2 ^ 64 = z mod 2 ^ 64 -> i64 w = z.
Proof.
  intros Hz Hw. unfold i64, u64, wrap. rewrite Hw. destruct (Z.ltb_spec (z mod 2 ^ 64) (2 ^ 63));
    Z.to_euclidean_division_equations; lia.
Qed.

Lemma read_app n l r : length l = n -> read n (l ++ r) = Some (l, r).
Proof.
  intros <-. unfold read. rewrite length_app, (proj2 (Nat.leb_le _ _)) by lia. by rewrite take_app_length, drop_app_length.
Qed.

Lemma read_short_app s r : str_size s < 2 ^ 16 -> read_short (short_string s ++ r) = Some (s, r).
Proof.
  intros Hs. pose proof (str_size_nonneg s). unfold read_short, short_string. rewrite <- app_assoc.
  rewrite read_app by apply length_be_bytes. cbn [mbind option_bind fst snd].
  rewrite read_be_2 by (unfold u16, wrap; by apply Z.mod_pos_bound).
  unfold u16, wrap. rewrite Z.mod_small by done. rewrite read_app.
  - cbn [mbind option_bind fst snd]. by rewrite string_of_bytes_of.
  - rewrite <- length_bytes_of. lia.
Qed.

Record wf_cursor (c : AuditPageCursor) : Prop := {
  wc_time : - 2 ^ 63 <= last_occurred_at_ms c < 2 ^ 63;
  wc_producer : str_size (last_producer_service c) < 2 ^ 16;
  wc_type : str_size (last_event_type c) < 2 ^ 16;
  wc_id : Uuid.wf (event_bytes (last_event_id c));
  wc_version : EventId_is_nil (last_event_id c) = true \/
    (EventId_version (last_event_id c) = 7 /\ EventId_variant (last_event_id c) = 2);
  wc_sort : 0 <= sort_value (c_sort_order c) < 256 /\ sort_of_value (sort_value (c_sort_order c)) = c_sort_order c;
  wc_hash : length (filter_hash c) = 16%nat /\ Forall Uuid.is_byte (filter_hash c) }.

Lemma cursor_bytes_byte c : wf_cursor c -> Forall Uuid.is_byte (cursor_bytes c).
Proof.
  intros []. unfold cursor_bytes, short_string. rewrite !Forall_app. split_and!; try apply be_bytes_byte; try apply bytes_of_byte.
  - apply wc_id0.
  - by constructor; [apply wc_sort0|].
  - apply wc_hash0.
Qed.

Lemma cursor_of_cursor_bytes c h :
  wf_cursor c -> cursor_of_bytes (cursor_bytes c) h = if bool_decide (filter_hash c = h) then Some c else None.
Proof.
  intros [Htime Hprod Htype [Hid _] Hver [_ Hsort] [Hhash _]]. unfold cursor_of_bytes, cursor_bytes.
  rewrite (proj2 (Nat.ltb_ge _ _)).
  2:{ unfold short_string. rewrite !length_app, !length_be_bytes, Hid, Hhash. cbn. lia. }
  rewrite read_app by apply length_be_bytes. cbn [mbind option_bind fst snd].
  rewrite read_short_app by done. cbn [mbind option_bind fst snd].
  rewrite read_short_app by done. cbn [mbind option_bind fst snd].
  rewrite read_app by done. cbn [mbind option_bind fst snd].
  assert (Hok : negb (EventId_is_nil (last_event_id c))
            && (negb (EventId_version (last_event_id c) =? 7) || negb (EventId_variant (last_event_id c) =? 2)) = false).
  { destruct Hver as [->|[-> ->]]; [done|]. cbn. by rewrite andb_false_r. }
  replace (mkEventId (event_bytes (last_event_id c))) with (last_event_id c) by (by destruct (last_event_id c)).
  rewrite Hok, read_app by done. cbn [mbind option_bind fst snd]. rewrite Hhash. cbn [Nat.eqb negb].
  destruct (bool_decide_reflect (filter_hash c = h)) as [<-|Hne]; [|by rewrite bool_decide_true].
  rewrite bool_decide_false by tauto. f_equal. cbn [lookup list_lookup default from_option id].
  rewrite (i64_mod (last_occurred_at_ms c) _ Htime).
  - cbn. rewrite Hsort. by destruct c.
  - rewrite read_be_be_bytes by lia. unfold u64, wrap. by rewrite Z.mod_mod.
Qed.

Lemma encode_nonempty data : data <> [] -> Forall Uuid.is_byte data -> base64url_encode data <> [].
Proof. destruct data as [|a data]; [done|]. intros _ [Ha _]%Forall_cons. unfold base64url_encode. by rewrite encode_step_0. Qed.

Lemma cursor_decode_encode c h :
  wf_cursor c -> cursor_decode (cursor_encode c) h = if bool_decide (filter_hash c = h) then Some c else None.
Proof.
  intros Hc. pose proof (cursor_bytes_byte c Hc) as Hb. unfold cursor_decode, cursor_encode.
  rewrite bool_decide_false.
  - rewrite chars_of_chars, base64url_roundtrip by done. cbn [mbind option_bind]. by apply cursor_of_cursor_bytes.
  - intros Hempty. apply (f_equal chars) in Hempty. rewrite chars_of_chars in Hempty.
    apply (encode_nonempty (cursor_bytes c)); [done|done|exact Hempty].
Qed.

Lemma cursor_encode_nonempty c : wf_cursor c -> cursor_encode c <> EmptyString.
Proof.
  intros Hc Hempty. pose proof (cursor_decode_encode c (filter_hash c) Hc) as H. rewrite Hempty in H.
  by rewrite bool_decide_true in H by done.
Qed.

Lemma cursor_decode_hash token h c : cursor_decode token h = Some c -> filter_hash c = h /\ length h = 16%nat.
Proof.
  unfold cursor_decode. case_bool_decide as Hempty; [done|]. intros (bytes & _ & H)%bind_Some. unfold cursor_of_bytes in H.
  destruct (_ <? _)%nat; [done|]. apply bind_Some in H as (ts & _ & H). apply bind_Some in H as (prod & _ & H).
  apply bind_Some in H as (type & _ & H). apply bind_Some in H as (uuid & _ & H).
  destruct (negb _ && _); [done|]. apply bind_Some in H as (sort & _ & H).
  destruct (Nat.eqb_spec (length sort.2) 16) as [Hlen|]; [|done]. cbn [negb] in H.
  case_bool_decide as Hh; [done|]. injection H as <-. cbn. by rewrite <- Hh.
Qed.

(** A page token is faithful and bound to its query: decoding the token of a cursor
    with the hash of the filter it was made for returns the cursor, with any other
    hash it is refused, and whatever token is accepted carries the hash expected. *)
Theorem page_token_roundtrip (c : AuditPageCursor) (Hc : wf_cursor c) :
  cursor_decode (cursor_encode c) (filter_hash c) = Some c /\
  (forall h, h <> filter_hash c -> cursor_decode (cursor_encode c) h = None) /\
  (forall token h c', cursor_decode token h = Some c' -> filter_hash c' = h).
Proof.
  split_and!.
  - rewrite cursor_decode_encode by done. by rewrite bool_decide_true.
  - intros h Hh. rewrite cursor_decode_encode by done. by rewrite bool_decide_false by congruence.
  - intros token h c' H. by apply cursor_decode_hash in H as [? _].
Qed.

Definition sample_cursor : AuditPageCursor :=
  mkCursor (-5) "auth" "auth.login" (EventId_generate_v7 1700000000000 (replicate 16 7)) Ascending (replicate 16 200).

Lemma page_token_roundtrip_witness : cursor_decode (cursor_encode sample_cursor) (replicate 16 200) = Some sample_cursor.
Proof.
  apply (page_token_roundtrip sample_cursor). constructor.
  - cbn. lia.
  - vm_compute. reflexivity.
  - vm_compute. reflexivity.
  - split; [reflexivity|]. repeat (constructor; [vm_compute; split; congruence|]). constructor.
  - right. split; vm_compute; reflexivity.
  - split; [cbn; lia|reflexivity].
  - split; [reflexivity|]. repeat (constructor; [vm_compute; split; congruence|]). constructor.
Defined.

(** ** Scope *)

(** The rows a caller may ask for. *)
Definition in_scope (caller : PeerIdentity) (f : AuditQueryFilter) : Prop :=
  is_authenticated caller = true /\
  (common_name caller = "audit.securecloud.internal"%string \/
   exists own, producer_service_from_cn (common_name caller) = Some own /\
     producer_services f <> [] /\ forall ps, ps ∈ producer_services f -> ps = own).

Lemma authorize_query_scope caller f : status_code (authorize_query caller f) = OK -> in_scope caller f.
Proof.
  unfold authorize_query, in_scope. destruct (is_authenticated caller); cbn [negb]; [|done].
  destruct (String.eqb_spec (common_name caller) "audit.securecloud.internal") as [Ha|_]; [by split; [|left]|].
  destruct (String.eqb_spec (common_name caller) "gateway.securecloud.internal") as [->|_].
  - case_bool_decide as Hp; [|done]. intros _. split; [done|]. right. exists Gateway. rewrite Hp. split_and!; [done..|].
    by intros ps ->%list_elem_of_singleton.
  - intros H. split; [done|]. right.
    assert (Hown : exists own, producer_service_from_cn (common_name caller) = Some own /\
              producer_services f <> [] /\ forallb (fun ps => bool_decide (ps = own)) (producer_services f) = true).
    { destruct (producer_service_from_cn (common_name caller)) as [[]|]; try done; eexists; (split; [reflexivity|]);
        destruct (producer_services f); try done; destruct (forallb _ _); done. }
    destruct Hown as (own & Hown & Hne & Hall). exists own. split_and!; [done..|]. intros ps Hps.
    rewrite forallb_forall in Hall. by apply list_elem_of_In, Hall, bool_decide_eq_true in Hps.
Qed.

Lemma set_window_producers start stop f : producer_services (set_window start stop f) = producer_services f.
Proof. done. Qed.

Lemma in_scope_producers caller f f' : producer_services f' = producer_services f -> in_scope caller f -> in_scope caller f'.
Proof. unfold in_scope. by intros ->. Qed.

(** What validation guarantees of the filter it leaves. *)
Record normalized (cfg : QueryConfig) (f : AuditQueryFilter) : Prop := {
  nz_window : exists start stop, start_occurred_at f = Some start /\ end_occurred_at f = Some stop /\
    start < stop /\ Z.quot (stop - start) ns_per_hour <= max_time_window_hours cfg;
  nz_size : page_size f = default_page_limit cfg \/ (page_size f <> 0 /\ page_size f <= max_page_limit cfg);
  nz_types : (length (event_types f) <= 20)%nat /\ forall t, t ∈ event_types f -> is_valid_event_type t = true;
  nz_actor : forall id, f_actor_id f = Some id -> f_actor_type f <> None /\ is_safe_identifier id 128 = true;
  nz_target : forall id, f_target_id f = Some id -> f_target_type f <> None /\ is_safe_identifier id 128 = true;
  nz_correlation : forall id, f_correlation_id f = Some id -> is_safe_identifier id 64 = true }.

Lemma check_fields_ok sha256 f :
  status_code (check_fields sha256 f) = OK ->
  (length (event_types f) <= 20)%nat /\ forallb is_valid_event_type (event_types f) = true /\
  (is_Some (f_actor_id f) -> f_actor_type f <> None) /\ from_option (fun id => is_safe_identifier id 128) true (f_actor_id f) = true /\
  (is_Some (f_target_id f) -> f_target_type f <> None) /\ from_option (fun id => is_safe_identifier id 128) true (f_target_id f) = true /\
  from_option is_valid_correlation_id true (f_correlation_id f) = true /\
  (page_token f <> EmptyString -> cursor_decode (page_token f) (compute_filter_hash sha256 f) <> None).
Proof.
  unfold check_fields. destruct (Nat.ltb_spec 20 (length (event_types f))); [done|].
  destruct (forallb _ _); [|done]. cbn [negb].
  destruct (bool_decide (is_Some (f_actor_id f)) && _) eqn:Ha; [done|].
  destruct (from_option _ true (f_actor_id f)); [|done]. cbn [negb].
  destruct (bool_decide (is_Some (f_target_id f)) && _) eqn:Ht; [done|].
  destruct (from_option _ true (f_target_id f)); [|done]. cbn [negb].
  destruct (from_option _ true (f_correlation_id f)); [|done]. cbn [negb].
  destruct (negb (bool_decide (page_token f = EmptyString)) && _) eqn:Hp; [done|].
  rewrite andb_false_iff, !bool_decide_eq_false in Ha, Ht.
  rewrite andb_false_iff, negb_false_iff, bool_decide_eq_true, bool_decide_eq_false in Hp.
  intros _. split_and!; try done; tauto.
Qed.

Lemma check_fields_normalized sha256 cfg f :
  (exists start stop, start_occurred_at f = Some start /\ end_occurred_at f = Some stop /\
    start < stop /\ Z.quot (stop - start) ns_per_hour <= max_time_window_hours cfg) ->
  (page_size f = default_page_limit cfg \/ (page_size f <> 0 /\ page_size f <= max_page_limit cfg)) ->
  status_code (check_fields sha256 f) = OK -> normalized cfg f.
Proof.
  intros Hw Hs (Hn & Ht & Ha & Ha' & Hg & Hg' & Hc & _)%check_fields_ok. constructor; try done.
  - split; [done|]. rewrite forallb_forall in Ht. intros t Hin. by apply Ht, list_elem_of_In.
  - intros id E. rewrite E in *. split; [by apply Ha|done].
  - intros id E. rewrite E in *. split; [by apply Hg|done].
  - intros id E. by rewrite E in *.
Qed.

Lemma validate_normalized sha256 cfg now f st f' :
  validate_and_normalize sha256 cfg now f = (st, f') -> status_code st = OK ->
  normalized cfg f' /\ producer_services f' = producer_services f.
Proof.
  unfold validate_and_normalize. destruct (match start_occurred_at f with Some _ => _ | None => _ end) as [[[start stop] g]|] eqn:Hw.
  2:{ intros [= <- <-]. done. }
  assert (Hg : start_occurred_at g = Some start /\ end_occurred_at g = Some stop /\ producer_services g = producer_services f).
  { destruct (start_occurred_at f) eqn:E1, (end_occurred_at f) eqn:E2; simplify_eq; [|done].
    by rewrite E1, E2. }
  destruct Hg as (Hs & He & <-).
  destruct (Z.leb_spec stop start); [by intros [= <- <-]|].
  destruct (Z.ltb_spec (max_time_window_hours cfg) (Z.quot (stop - start) ns_per_hour)); [by intros [= <- <-]|].
  destruct (Z.eqb_spec (page_size g) 0); [|destruct (Z.ltb_spec (max_page_limit cfg) (page_size g)); [by intros [= <- <-]|]].
  - intros [= <- <-] Hok. split; [|done]. apply (check_fields_normalized sha256); [|by left|done]. by exists start, stop.
  - intros [= <- <-] Hok. split; [|done]. apply (check_fields_normalized sha256); [|by right; lia|done]. by exists start, stop.
Qed.

(** How a query that returns a page went. *)
Lemma execute_query_page sha256 cfg now query caller f s st page s' :
  execute_query sha256 cfg now query caller f s = (Ok (st, Some page), s') ->
  exists f' cursor raw, validate_and_normalize sha256 cfg now f = (fst (validate_and_normalize sha256 cfg now f), f') /\
    status_code (fst (validate_and_normalize sha256 cfg now f)) = OK /\ status_code (authorize_query caller f) = OK /\
    query f' cursor = Rows raw /\ page = page_of sha256 f' raw /\ active_queries s < workers cfg /\ st = status_ok.
Proof.
  unfold execute_query. case_bool_decide as Ha; [|done]. cbn [negb].
  destruct (validate_and_normalize sha256 cfg now f) as [vs f'] eqn:Hv. case_bool_decide as Hok; [|done]. cbn [negb].
  destruct (negb _ && _); [done|]. unfold bulkhead_try_acquire.
  destruct (Z.ltb_spec (active_queries s) (workers cfg)); [|done]. cbn [negb].
  destruct (query f' _) as [raw| |] eqn:Hq; [|done..]. intros [= <- <- _].
  eexists f', _, raw. split_and!; [done..|exact Hq|done|done|done].
Qed.

(** No caller reads outside its scope: when a query returns a page, the rows came from
    a repository query for a filter that names at least one producer and only the
    caller's own service (any filter, for the audit service itself), the caller was
    authenticated, the time window and the page size are within the configured
    limits, and no identifier in the filter holds a quote or a control character. *)
Theorem query_scope_enforced sha256 cfg now query caller f s st page s'
    (Hrun : execute_query sha256 cfg now query caller f s = (Ok (st, Some page), s')) :
  exists f' cursor raw, query f' cursor = Rows raw /\ events page `sublist_of` raw /\
    in_scope caller f' /\ normalized cfg f' /\ active_queries s < workers cfg.
Proof.
  apply execute_query_page in Hrun as (f' & cursor & raw & Hv & Hok & Ha & Hq & -> & Hw & ->).
  apply validate_normalized in Hv as [Hn Hp]; [|done]. exists f', cursor, raw. split_and!; [done| |..|done|done].
  - unfold page_of. destruct (_ =? _); [|done]. cbn [events]. clear Hq. destruct raw as [|x l _] using rev_ind; [done|].
    rewrite removelast_last. by apply sublist_inserts_r.
  - eapply in_scope_producers; [exact Hp|]. by apply authorize_query_scope.
Qed.

Definition sample_config : QueryConfig := mkConfig 4 100 50 5000 24 720 1000000.
Definition sample_caller : PeerIdentity := mkPeer "files.securecloud.internal" [] [] true.
Definition sample_filter : AuditQueryFilter :=
  mkFilter (Some 0) (Some (ns_per_hour * 3)) [Files] ["files.deleted"%string] [] (Some ActorUser) (Some "alice"%string) None None None
    2 EmptyString Ascending.

Definition idle_service : QueryService := mkQueryService 0 0 0 0 0.

Lemma query_scope_enforced_witness :
  exists f' cursor raw, Rows (A := list AuditEvent) [] = Rows raw /\ events (page_of (fun m => m) sample_filter []) `sublist_of` raw /\
    in_scope sample_caller f' /\ normalized sample_config f' /\ cursor = @None AuditPageCursor.
Proof.
  destruct (query_scope_enforced (fun m => m) sample_config 7 (fun _ _ => Rows []) sample_caller sample_filter idle_service
    status_ok (page_of (fun m => m) sample_filter []) (mkQueryService 0 0 1 0 0) ltac:(vm_compute; reflexivity))
    as (f' & cursor & raw & H1 & H2 & H3 & H4 & H5).
  exists f', None, raw. auto.
Defined.
