(* ===== verification/Base32.v ===== *)
(** * Base32

    Models [src/auth/crypto/base32.cpp] (RFC 4648), with the 32-bit buffer that keeps
    old bits and wraps. *)

From S2P Require Import Prelude Ids Bytes AuditValidation.
From Stdlib Require Import Ascii.
#[local] Open Scope Z_scope.

Definition kBase32Alphabet : list ascii := chars "ABCDEFGHIJKLMNOPQRSTUVWXYZ234567".

Definition b32_at (i : Z) : ascii := default zero (kBase32Alphabet !! Z.to_nat i).

Definition base32_char_value (c : ascii) : Z :=
  if in_range "A" "Z" c then code c - code "A"
  else if in_range "a" "z" c then code c - code "a"
  else if in_range "2" "7" c then code c - code "2" + 26
  else -1.

(** [std::isspace] in the C locale. *)
Definition isspace (c : ascii) : bool := (code c =? 32) || ((9 <=? code c) && (code c <=? 13)).

(** The inner loop of [encode]; at most twelve bits are pending, so two turns. *)
Fixpoint b32_emit (fuel : nat) (buffer bits_left : Z) : list ascii * Z :=
  match fuel with
  | O => ([], bits_left)
  | S fuel =>
      if 5 <=? bits_left then
        let bits_left := bits_left - 5 in
        let '(out, rest) := b32_emit fuel buffer bits_left in
        (b32_at (Z.land (Z.shiftr buffer bits_left) 31) :: out, rest)
      else ([], bits_left)
  end.

Definition push_bits (n : Z) (buffer v : Z) : Z := Z.lor (u32 (Z.shiftl buffer n)) v.

Fixpoint b32_encode_loop (buffer bits_left : Z) (data : list Z) : list ascii :=
  match data with
  | [] => if 0 <? bits_left then [b32_at (Z.land (u32 (Z.shiftl buffer (5 - bits_left))) 31)] else []
  | byte :: data =>
      let buffer := push_bits 8 buffer byte in
      let '(out, bits_left) := b32_emit 2 buffer (bits_left + 8) in
      out ++ b32_encode_loop buffer bits_left data
  end.

(** [while (encoded.size() % 8 != 0) push_back('=')]. *)
Definition padding (n : nat) : list ascii := replicate ((8 - n `mod` 8) `mod` 8) "="%char.

Definition base32_encode (data : list Z) (include_padding : bool) : list ascii :=
  match data with
  | [] => []
  | _ =>
      let encoded := b32_encode_loop 0 0 data in
      if include_padding then encoded ++ padding (length encoded) else encoded
  end.

Fixpoint b32_decode_loop (buffer bits_left : Z) (padding_started : bool) (input : list ascii) : option (list Z) :=
  match input with
  | [] =>
      if (0 <? bits_left) && negb (Z.land buffer (Z.shiftl 1 bits_left - 1) =? 0) then None else Some []
  | c :: input =>
      if isspace c || Ascii.eqb c "-" then b32_decode_loop buffer bits_left padding_started input
      else if Ascii.eqb c "=" then b32_decode_loop buffer bits_left true input
      else if padding_started then None
      else
        let val := base32_char_value c in
        if val <? 0 then None
        else
          let buffer := push_bits 5 buffer val in
          let bits_left := bits_left + 5 in
          if 8 <=? bits_left then
            cons (Z.land (Z.shiftr buffer (bits_left - 8)) 255) <$> b32_decode_loop buffer (bits_left - 8) padding_started input
          else b32_decode_loop buffer bits_left padding_started input
  end.

Definition base32_decode (input : list ascii) : option (list Z) :=
  match input with [] => Some [] | _ => b32_decode_loop 0 0 false input end.

(** ** Digits and buffers *)

Lemma digit_facts i :
  0 <= i < 32 ->
  base32_char_value (b32_at i) = i /\ isspace (b32_at i) = false /\ Ascii.eqb (b32_at i) "-" = false /\ Ascii.eqb (b32_at i) "=" = false.
Proof.
  intros Hi. assert (H : forallb (fun n => let c := b32_at (Z.of_nat n) in
    (base32_char_value c =? Z.of_nat n) && negb (isspace c) && negb (Ascii.eqb c "-") && negb (Ascii.eqb c "=")) (seq 0 32) = true)
    by (vm_compute; reflexivity).
  rewrite forallb_forall in H. specialize (H (Z.to_nat i)). cbv zeta in H. rewrite Z2Nat.id in H by lia.
  assert (Hin : In (Z.to_nat i) (seq 0 32)) by (apply in_seq; lia). specialize (H Hin).
  rewrite !andb_true_iff, Z.eqb_eq, !negb_true_iff in H. intuition.
Qed.

Lemma lor_shifted k n v : 0 <= n -> 0 <= v < 2 ^ n -> Z.lor (k * 2 ^ n) v = k * 2 ^ n + v.
Proof.
  intros Hn Hv. assert (Hland : Z.land (k * 2 ^ n) v = 0).
  { apply Z.bits_inj'. intros i Hi. rewrite Z.land_spec, Z.bits_0. destruct (Z.lt_ge_cases i n).
    - by rewrite Z.mul_pow2_bits_low by lia.
    - destruct (decide (v = 0)) as [->|]; [by rewrite Z.bits_0, andb_false_r|].
      rewrite (Z.bits_above_log2 v i), andb_false_r; [done|lia|]. apply Z.log2_lt_pow2; [lia|].
      apply (Z.lt_le_trans _ (2 ^ n)); [lia|]. apply Z.pow_le_mono_r; lia. }
  rewrite <- Z.lxor_lor by done. by rewrite Z.add_nocarry_lxor.
Qed.

(** Pushing bits, as arithmetic on a wrapping buffer. *)
Lemma push_bits_mod n buffer v :
  0 <= n <= 8 -> 0 <= v < 2 ^ n -> push_bits n buffer v = (buffer mod 2 ^ (32 - n)) * 2 ^ n + v.
Proof.
  intros Hn Hv. unfold push_bits, u32, wrap. rewrite Z.shiftl_mul_pow2 by lia.
  replace (2 ^ 32) with (2 ^ (32 - n) * 2 ^ n) by (rewrite <- Z.pow_add_r by lia; f_equal; lia).
  rewrite Z.mul_mod_distr_r by (apply Z.pow_nonzero; lia). by apply lor_shifted; [lia|].
Qed.

Lemma land_31 z : Z.land z 31 = z mod 32.
Proof. change 31 with (Z.ones 5). by rewrite Z.land_ones. Qed.

Definition push8 (buffer c : Z) : Z := buffer mod 16777216 * 256 + c.
Definition push5 (buffer v : Z) : Z := buffer mod 134217728 * 32 + v.

Lemma push_byte buffer c : 0 <= c < 256 -> push_bits 8 buffer c = push8 buffer c.
Proof. intros Hc. by rewrite push_bits_mod. Qed.

Lemma push_digit buffer v : 0 <= v < 32 -> push_bits 5 buffer v = push5 buffer v.
Proof. intros Hv. by rewrite push_bits_mod. Qed.

(** ** One byte or digit at a time *)

Ltac bits_to_arith :=
  rewrite ?land_31, ?Uuid.land_255, ?Z.shiftr_div_pow2, ?Z.shiftl_mul_pow2 by lia; unfold u32, wrap, push8, push5;
  change (2 ^ 32) with 4294967296 in *; change (2 ^ 7) with 128 in *; change (2 ^ 6) with 64 in *; change (2 ^ 5) with 32 in *;
  change (2 ^ 4) with 16 in *; change (2 ^ 3) with 8 in *; change (2 ^ 2) with 4 in *; change (2 ^ 1) with 2 in *;
  change (2 ^ 0) with 1 in *.

(** The digits of a byte [c] that follows [e] pending bits [p]. *)
Definition digits (e p c : Z) : list Z :=
  if e =? 0 then [c / 8]
  else if e =? 3 then [p * 4 + c / 64; c / 2 mod 32]
  else if e =? 1 then [p * 16 + c / 16]
  else if e =? 4 then [p * 2 + c / 128; c / 4 mod 32]
  else [p * 8 + c / 32; c mod 32].

Definition next_pending (e : Z) : Z := (e + 3) mod 5.

Ltac arith_lia := Z.to_euclidean_division_equations; lia.

(** The digits the inner loop emits from each number of pending bits. *)
Lemma emit_bits b :
  b32_emit 2 b 8 = ([b32_at (b / 8 mod 32)], 3) /\ b32_emit 2 b 9 = ([b32_at (b / 16 mod 32)], 4) /\
  b32_emit 2 b 10 = ([b32_at (b / 32 mod 32); b32_at (b / 1 mod 32)], 0) /\
  b32_emit 2 b 11 = ([b32_at (b / 64 mod 32); b32_at (b / 2 mod 32)], 1) /\
  b32_emit 2 b 12 = ([b32_at (b / 128 mod 32); b32_at (b / 4 mod 32)], 2).
Proof.
  assert (Hd : forall k n, 0 <= k -> 2 ^ k = n -> b / n = Z.shiftr b k) by (intros k n Hk <-; by rewrite Z.shiftr_div_pow2).
  rewrite (Hd 0 1), (Hd 1 2), (Hd 2 4), (Hd 3 8), (Hd 4 16), (Hd 5 32), (Hd 6 64), (Hd 7 128) by done.
  rewrite <- !land_31. done.
Qed.

Lemma encode_byte e buffer c data :
  0 <= e < 5 -> 0 <= c < 256 ->
  b32_encode_loop buffer e (c :: data)
  = (b32_at <$> digits e (buffer mod 2 ^ e) c) ++ b32_encode_loop (push8 buffer c) (next_pending e) data.
Proof.
  intros He Hc. cbn [b32_encode_loop]. rewrite push_byte by done.
  destruct (emit_bits (push8 buffer c)) as (E0 & E1 & E2 & E3 & E4).
  assert (Hcases : e = 0 \/ e = 1 \/ e = 2 \/ e = 3 \/ e = 4) by lia.
  destruct Hcases as [-> |[-> |[-> |[-> | ->]]]].
  - change (0 + 8) with 8. rewrite E0. change (next_pending 0) with 3. cbn [digits Z.eqb fmap list_fmap app]. do 2 f_equal. unfold push8. arith_lia.
  - change (1 + 8) with 9. rewrite E1. change (next_pending 1) with 4. cbn [digits Z.eqb Pos.eqb fmap list_fmap app]. change (2 ^ 1) with 2. do 2 f_equal. unfold push8. arith_lia.
  - change (2 + 8) with 10. rewrite E2. change (next_pending 2) with 0. cbn [digits Z.eqb Pos.eqb fmap list_fmap app]. change (2 ^ 2) with 4.
    f_equal; [|f_equal]; f_equal; unfold push8; arith_lia.
  - change (3 + 8) with 11. rewrite E3. change (next_pending 3) with 1. cbn [digits Z.eqb Pos.eqb fmap list_fmap app]. change (2 ^ 3) with 8.
    f_equal; [|f_equal]; f_equal; unfold push8; arith_lia.
  - change (4 + 8) with 12. rewrite E4. change (next_pending 4) with 2. cbn [digits Z.eqb Pos.eqb fmap list_fmap app]. change (2 ^ 4) with 16.
    f_equal; [|f_equal]; f_equal; unfold push8; arith_lia.
Qed.

Lemma push8_pending e buffer c : 0 <= e < 5 -> push8 buffer c mod 2 ^ e = c mod 2 ^ e.
Proof.
  intros He. assert (Hcases : e = 0 \/ e = 1 \/ e = 2 \/ e = 3 \/ e = 4) by lia. unfold push8.
  destruct Hcases as [-> |[-> |[-> |[-> | ->]]]]; cbn [Z.pow Z.pow_pos Pos.iter Z.mul Pos.mul]; arith_lia.
Qed.

Lemma b32_decode_digit buffer bits_left v input :
  0 <= v < 32 ->
  b32_decode_loop buffer bits_left false (b32_at v :: input)
  = if 8 <=? bits_left + 5 then
      cons (push5 buffer v / 2 ^ (bits_left + 5 - 8) mod 256) <$> b32_decode_loop (push5 buffer v) (bits_left + 5 - 8) false input
    else b32_decode_loop (push5 buffer v) (bits_left + 5) false input.
Proof.
  intros Hv. destruct (digit_facts v Hv) as (Hval & Hs & Hd & He). cbn [b32_decode_loop]. rewrite Hs, Hd, He, Hval. cbn [orb].
  destruct (Z.ltb_spec v 0); [lia|]. rewrite push_digit by done. destruct (Z.leb_spec 8 (bits_left + 5)); [|done].
  by rewrite Uuid.land_255, Z.shiftr_div_pow2 by lia.
Qed.

(** A byte [c] behind the pending bits of [b]: the digits complete [b] and leave the
    decoder with the other bits of [c]. *)
Lemma decode_digits e b c dbuf input :
  0 < e < 5 -> 0 <= b < 256 -> 0 <= c < 256 -> dbuf mod 2 ^ (8 - e) = b / 2 ^ e ->
  exists dbuf', dbuf' mod 2 ^ (8 - next_pending e) = c / 2 ^ next_pending e /\
    b32_decode_loop dbuf (8 - e) false ((b32_at <$> digits e (b mod 2 ^ e) c) ++ input)
    = cons b <$> (if e =? 2 then cons c <$> b32_decode_loop dbuf' 0 false input
                  else b32_decode_loop dbuf' (8 - next_pending e) false input).
Proof.
  intros He Hb Hc Hd. assert (Hcases : e = 1 \/ e = 2 \/ e = 3 \/ e = 4) by lia.
  destruct Hcases as [-> |[-> |[-> | ->]]]; cbn [digits Z.eqb Pos.eqb fmap list_fmap app].
  - change (next_pending 1) with 4. change (2 ^ (8 - 1)) with 128 in Hd. change (2 ^ 1) with 2 in *. change (2 ^ (8 - 4)) with 16. change (2 ^ 4) with 16.
    rewrite b32_decode_digit by arith_lia. change (8 - 1 + 5) with 12. change (12 - 8) with 4. change (8 - 4) with 4. cbn [Z.leb Z.compare Pos.compare Pos.compare_cont].
    eexists. split; [|f_equal; f_equal; change (2 ^ 4) with 16; unfold push5; arith_lia]. unfold push5. arith_lia.
  - change (next_pending 2) with 0. change (2 ^ (8 - 2)) with 64 in Hd. change (2 ^ 2) with 4 in *. change (2 ^ (8 - 0)) with 256. change (2 ^ 0) with 1.
    rewrite b32_decode_digit by arith_lia. change (8 - 2 + 5) with 11. change (11 - 8) with 3. cbn [Z.leb Z.compare Pos.compare Pos.compare_cont].
    rewrite b32_decode_digit by arith_lia. change (3 + 5) with 8. change (8 - 8) with 0. cbn [Z.leb Z.compare Pos.compare Pos.compare_cont].
    eexists. split; [|f_equal; [f_equal; change (2 ^ 3) with 8; unfold push5; arith_lia|f_equal; f_equal; change (2 ^ 0) with 1; unfold push5; arith_lia]].
    unfold push5. arith_lia.
  - change (next_pending 3) with 1. change (2 ^ (8 - 3)) with 32 in Hd. change (2 ^ 3) with 8 in *. change (2 ^ (8 - 1)) with 128. change (2 ^ 1) with 2.
    rewrite b32_decode_digit by arith_lia. change (8 - 3 + 5) with 10. change (10 - 8) with 2. cbn [Z.leb Z.compare Pos.compare Pos.compare_cont].
    rewrite b32_decode_digit by arith_lia. change (2 + 5) with 7. change (8 - 1) with 7. cbn [Z.leb Z.compare Pos.compare Pos.compare_cont].
    eexists. split; [|f_equal; f_equal; change (2 ^ 2) with 4; unfold push5; arith_lia]. unfold push5. arith_lia.
  - change (next_pending 4) with 2. change (2 ^ (8 - 4)) with 16 in Hd. change (2 ^ 4) with 16 in *. change (2 ^ (8 - 2)) with 64. change (2 ^ 2) with 4.
    rewrite b32_decode_digit by arith_lia. change (8 - 4 + 5) with 9. change (9 - 8) with 1. cbn [Z.leb Z.compare Pos.compare Pos.compare_cont].
    rewrite b32_decode_digit by arith_lia. change (1 + 5) with 6. change (8 - 2) with 6. cbn [Z.leb Z.compare Pos.compare Pos.compare_cont].
    eexists. split; [|f_equal; f_equal; change (2 ^ 1) with 2; unfold push5; arith_lia]. unfold push5. arith_lia.
Qed.

Lemma decode_padding n buffer bits_left pad :
  0 <= bits_left -> buffer mod 2 ^ bits_left = 0 -> b32_decode_loop buffer bits_left pad (replicate n "="%char) = Some [].
Proof.
  intros Hb Hz. revert pad. induction n as [|n IH]; intros pad; cbn [replicate b32_decode_loop]; [|apply IH].
  rewrite Z.shiftl_mul_pow2, Z.mul_1_l by done. replace (2 ^ bits_left - 1) with (Z.ones bits_left) by (rewrite Z.ones_equiv; lia).
  rewrite Z.land_ones, Hz by done. by rewrite andb_false_r.
Qed.

(** The last digit, of the pending bits. *)
Lemma decode_end e b buffer dbuf n :
  0 < e < 5 -> 0 <= b < 256 -> buffer mod 2 ^ e = b mod 2 ^ e -> dbuf mod 2 ^ (8 - e) = b / 2 ^ e ->
  b32_decode_loop dbuf (8 - e) false (b32_encode_loop buffer e [] ++ replicate n "="%char) = Some [b].
Proof.
  intros He Hb Hp Hd. cbn [b32_encode_loop]. rewrite (proj2 (Z.ltb_lt 0 e)) by lia. rewrite land_31. cbn [app].
  set (v := u32 (Z.shiftl buffer (5 - e)) mod 32).
  assert (Hv : v = b mod 2 ^ e * 2 ^ (5 - e)).
  { unfold v, u32, wrap. rewrite <- Hp, Z.shiftl_mul_pow2 by lia.
    rewrite Z.mod_mod_divide by (exists (2 ^ 27); reflexivity).
    replace 32 with (2 ^ e * 2 ^ (5 - e)) by (rewrite <- Z.pow_add_r by lia; replace (e + (5 - e)) with 5 by lia; done).
    rewrite Z.mul_mod_distr_r; [done|apply Z.pow_nonzero; lia|apply Z.pow_nonzero; lia]. }
  assert (Hr : 0 <= v < 32) by (apply Z.mod_pos_bound; lia). rewrite b32_decode_digit by done.
  rewrite (proj2 (Z.leb_le 8 _)) by lia. replace (8 - e + 5 - 8) with (5 - e) by lia.
  assert (Hcases : e = 1 \/ e = 2 \/ e = 3 \/ e = 4) by lia. clearbody v.
  rewrite decode_padding; [|lia|]; destruct Hcases as [-> |[-> |[-> | ->]]];
    cbn [Z.sub Z.add Z.opp Z.pos_sub Pos.pred_double Z.pow Z.pow_pos Pos.iter Z.mul Pos.mul Z.succ_double Z.pred_double Z.double] in *;
    unfold push5; cbn [fmap option_fmap option_map]; try (do 2 f_equal); arith_lia.
Qed.

Lemma decode_encode_pending data n : forall e b buffer dbuf,
  Forall Uuid.is_byte data -> 0 < e < 5 -> Uuid.is_byte b ->
  buffer mod 2 ^ e = b mod 2 ^ e -> dbuf mod 2 ^ (8 - e) = b / 2 ^ e ->
  b32_decode_loop dbuf (8 - e) false (b32_encode_loop buffer e data ++ replicate n "="%char) = Some (b :: data).
Proof.
  induction data as [data IH] using (induction_ltof1 _ (@length Z)). unfold ltof in IH. intros e b buffer dbuf Hall He Hb Hp Hd.
  destruct data as [|c data]; [by apply decode_end|]. apply Forall_cons in Hall as [Hc Hall].
  rewrite encode_byte, <- app_assoc, Hp by (done || lia).
  destruct (decode_digits e b c dbuf (b32_encode_loop (push8 buffer c) (next_pending e) data ++ replicate n "="%char) He Hb Hc Hd) as (dbuf' & Hd' & ->).
  assert (Hnext : 0 <= next_pending e < 5) by (apply Z.mod_pos_bound; lia).
  destruct (Z.eqb_spec e 2) as [->|Hne].
  - change (next_pending 2) with 0 in *. destruct data as [|c' data].
    + cbn [b32_encode_loop Z.ltb Z.compare app]. rewrite decode_padding; [done|lia|]. by rewrite Z.mod_1_r.
    + apply Forall_cons in Hall as [Hc' Hall]. rewrite (encode_byte 0), <- app_assoc by (done || lia).
      cbn [digits Z.eqb fmap list_fmap app]. rewrite b32_decode_digit by (unfold Uuid.is_byte in Hc'; arith_lia).
      change (0 + 5) with (8 - 3). cbn [Z.leb Z.sub Z.compare Z.add Z.opp Z.pos_sub Pos.pred_double Pos.compare Pos.compare_cont].
      change (next_pending 0) with 3. change 5 with (8 - 3). rewrite IH with (b := c'); [done|cbn; lia|done|lia|done|by apply push8_pending|].
      change (2 ^ (8 - 3)) with 32. change (2 ^ 3) with 8. unfold Uuid.is_byte in Hc'. unfold push5. arith_lia.
  - assert (Hpos : 0 < next_pending e) by (assert (Hcases : e = 1 \/ e = 3 \/ e = 4) by lia; destruct Hcases as [-> |[-> | ->]]; done).
    rewrite IH with (b := c); [done|cbn; lia|done|lia|done|by apply push8_pending|done].
Qed.

Lemma decode_encode data n dbuf :
  Forall Uuid.is_byte data -> b32_decode_loop dbuf 0 false (b32_encode_loop 0 0 data ++ replicate n "="%char) = Some data.
Proof.
  intros Hall. destruct data as [|c data].
  - cbn [b32_encode_loop Z.ltb Z.compare app]. rewrite decode_padding; [done|lia|by rewrite Z.mod_1_r].
  - apply Forall_cons in Hall as [Hc Hall]. rewrite encode_byte, <- app_assoc by (done || lia). cbn [digits Z.eqb fmap list_fmap app].
    rewrite b32_decode_digit by (unfold Uuid.is_byte in Hc; arith_lia).
    cbn [Z.leb Z.sub Z.compare Z.add Z.opp Z.pos_sub Pos.pred_double Pos.compare Pos.compare_cont].
    change (next_pending 0) with 3. change 5 with (8 - 3). apply decode_encode_pending; [done|lia|done|by apply push8_pending|].
    change (2 ^ (8 - 3)) with 32. change (2 ^ 3) with 8. unfold Uuid.is_byte in Hc. unfold push5. arith_lia.
Qed.

(** Whatever the padding, decoding returns the bytes that were encoded. *)
Lemma base32_roundtrip data include_padding :
  Forall Uuid.is_byte data -> base32_decode (base32_encode data include_padding) = Some data.
Proof.
  intros Hall. destruct data as [|c data]; [done|]. unfold base32_encode.
  set (encoded := b32_encode_loop 0 0 (c :: data)).
  assert (Hn : exists n, (if include_padding then encoded ++ padding (length encoded) else encoded) = encoded ++ replicate n "="%char).
  { destruct include_padding; [by eexists|]. exists 0%nat. by rewrite app_nil_r. }
  destruct Hn as [n ->]. unfold base32_decode. destruct (encoded ++ replicate n "="%char) as [|x l] eqn:E.
  - pose proof (decode_encode (c :: data) n 0 Hall) as Hd. fold encoded in Hd. by rewrite E in Hd.
  - rewrite <- E. by apply decode_encode.
Qed.
