(* ===== verification/AuthStore.v ===== *)
(** * The store of the auth service

    Models the entities and enumerations of [src/auth/domain], and the PostgreSQL
    repositories of [src/auth/repository] for devices, sessions, refresh tokens and
    multi-factor authentication: every statement as what it does to its table.  A
    table is a map from the primary key; a transaction is a function on the whole
    store, which [transaction] of [Prog] rolls back when it throws. *)

From S2P Require Import Prelude Ids Bytes Prog.
#[local] Open Scope Z_scope.

(** ** Identifiers, times and enumerations *)

Record uuid := mkUuid { uuid_bytes : list Z }.

#[export] Instance uuid_eq_dec : EqDecision uuid.
Proof. solve_decision. Defined.
#[export] Program Instance uuid_countable : Countable uuid := inj_countable' uuid_bytes mkUuid _.
Next Obligation. by intros []. Qed.

Definition uuid_to_string (id : uuid) : string := Uuid.to_string (uuid_bytes id).

(** A time as [to_iso8601_utc] writes it and the database keeps it: microseconds, of a
    clock that counts nanoseconds. *)
Definition stored (t : Z) : Z := Z.quot t 1000 * 1000.

Inductive AccountStatus := AccountActive | AccountDisabled.
Inductive DeviceStatus := DevicePendingAuthorization | DeviceActive | DeviceRevoked.
Inductive KeyType := IdentitySigning | IdentityAgreement | SignedPrekey | OneTimePrekey.
Inductive KeyStatus := KeyActive | KeyReplaced | KeyRevoked | KeyClaimed.
Inductive SessionStatus := SessionActive | SessionRevoked | SessionExpired.
Inductive AuthenticationLevel := PrimaryOnly | MfaVerified.
Inductive TokenStatus := TokenActive | TokenRotated | TokenRevoked | TokenExpired.
Inductive MfaStatus := MfaPending | MfaEnabled | MfaDisabled.
Inductive MfaChallengePurpose := Login | StepUp.
Inductive MfaChallengeStatus := ChallengePending | ChallengeCompleted | ChallengeExpired | ChallengeFailed.

#[export] Instance AccountStatus_eq_dec : EqDecision AccountStatus.
Proof. solve_decision. Defined.
#[export] Instance KeyType_eq_dec : EqDecision KeyType.
Proof. solve_decision. Defined.
#[export] Instance KeyStatus_eq_dec : EqDecision KeyStatus.
Proof. solve_decision. Defined.
#[export] Instance DeviceStatus_eq_dec : EqDecision DeviceStatus.
Proof. solve_decision. Defined.
#[export] Instance SessionStatus_eq_dec : EqDecision SessionStatus.
Proof. solve_decision. Defined.
#[export] Instance AuthenticationLevel_eq_dec : EqDecision AuthenticationLevel.
Proof. solve_decision. Defined.
#[export] Instance TokenStatus_eq_dec : EqDecision TokenStatus.
Proof. solve_decision. Defined.
#[export] Instance MfaStatus_eq_dec : EqDecision MfaStatus.
Proof. solve_decision. Defined.
#[export] Instance MfaChallengeStatus_eq_dec : EqDecision MfaChallengeStatus.
Proof. solve_decision. Defined.

(** [is_terminal] and [can_transition] of session states. *)
Definition session_is_terminal (s : SessionStatus) : bool :=
  match s with SessionActive => false | SessionRevoked | SessionExpired => true end.

Definition session_can_transition (from to : SessionStatus) : bool :=
  if bool_decide (from = to) then true
  else
    match from with
    | SessionActive => match to with SessionRevoked | SessionExpired => true | SessionActive => false end
    | SessionRevoked | SessionExpired => false
    end.

(** ** Entities *)

Record UserEntity := mkUser {
  us_user_id : uuid; us_credential_identifier : string; us_password_verifier : string; us_password_algorithm : string;
  us_password_updated_at : Z; us_account_status : AccountStatus; us_created_at : Z; us_updated_at : Z; us_version : Z }.

Record DeviceEntity := mkDevice {
  dv_device_id : uuid; dv_user_id : uuid; dv_device_status : DeviceStatus; dv_registered_at : Z;
  dv_revoked_at : option Z; dv_revocation_reason : option string; dv_last_authenticated_at : Z;
  dv_created_at : Z; dv_updated_at : Z }.

Record DevicePublicKeyEntity := mkPublicKey {
  pk_key_id : uuid; pk_device_id : uuid; pk_key_type : KeyType; pk_public_key : list Z; pk_key_status : KeyStatus;
  pk_created_at : Z; pk_revoked_at : option Z; pk_replaced_by_key_id : option uuid; pk_signature : option (list Z) }.

(** The pairing code of a device that waits for authorization, kept in memory. *)
Record DevicePairingChallenge := mkPairing {
  pc_user_id : uuid; pc_pairing_code : string; pc_created_at : Z; pc_expires_at : Z; failed_attempts : Z;
  is_consumed : bool; is_locked_out : bool }.

Record SessionEntity := mkSession {
  se_session_id : uuid; se_user_id : uuid; se_device_id : uuid; se_session_status : SessionStatus;
  se_authentication_level : AuthenticationLevel; se_created_at : Z; se_expires_at : Z;
  se_revoked_at : option Z; se_last_used_at : Z }.

Record RefreshTokenEntity := mkRefreshToken {
  rt_refresh_token_id : uuid; rt_session_id : uuid; rt_device_id : uuid; rt_token_verifier : string;
  rt_token_status : TokenStatus; rt_issued_at : Z; rt_expires_at : Z; rt_revoked_at : option Z;
  rt_rotated_at : option Z; rt_replaced_by_token_id : option uuid }.

Record MfaConfigurationEntity := mkMfaConfiguration {
  mc_mfa_configuration_id : uuid; mc_user_id : uuid; mc_encrypted_secret : list Z; mc_status : MfaStatus;
  mc_created_at : Z; mc_enabled_at : option Z; mc_disabled_at : option Z; mc_version : Z }.

Record MfaChallengeEntity := mkMfaChallenge {
  ch_mfa_challenge_id : uuid; ch_user_id : uuid; ch_session_id : uuid; ch_challenge_purpose : MfaChallengePurpose;
  ch_challenge_status : MfaChallengeStatus; ch_created_at : Z; ch_expires_at : Z; ch_completed_at : option Z }.

(** The exceptions of [exceptions.hpp], and the ones of the driver that are not among
    them. *)
Inductive RepositoryExn :=
  | EntityNotFound | DuplicateEntity | OptimisticLock | InvalidEntityState | DatabaseExecution
  | DriverException.

#[export] Instance RepositoryExn_eq_dec : EqDecision RepositoryExn.
Proof. solve_decision. Defined.

(** The events handed to the audit publisher. *)
Inductive AuthEvent :=
  | session_revoked_attempt (session : uuid)
  | session_expired_attempt (session : uuid)
  | session_revoked (session user device : uuid)
  | token_reuse_detected (session device : uuid)
  | token_refreshed (session user device : uuid)
  | mfa_enrollment_initiated (user : uuid)
  | mfa_enrollment_confirmed (user : uuid)
  | mfa_disabled (user : uuid)
  | mfa_challenge_created (user session : uuid)
  | mfa_challenge_failed (user session : uuid)
  | mfa_recovery_code_used (user session : uuid)
  | mfa_challenge_succeeded (user session : uuid)
  | login_failed (identifier : string)
  | account_disabled_attempt (identifier : string)
  | login_succeeded (user device session : uuid)
  | device_enrolled (user device : uuid) (active : bool)
  | device_pairing_initiated (user device : uuid)
  | device_authorized (user device : uuid)
  | device_revoked (user device : uuid)
  | signed_prekey_rotated (user device : uuid)
  | prekeys_updated (user device : uuid) (active : Z)
  | prekey_inventory_low (user device : uuid) (remaining : Z)
  | prekey_inventory_exhausted (user device : uuid).

(** ** The store

    The tables, then the maps the [MfaManager] and the [DeviceManager] keep in memory
    behind their mutexes (their keys are the texts of ids), and what was published. *)
Record Auth := mkAuth {
  users : gmap uuid UserEntity;
  devices : gmap uuid DeviceEntity;
  device_public_keys : gmap uuid DevicePublicKeyEntity;
  sessions : gmap uuid SessionEntity;
  refresh_tokens : gmap uuid RefreshTokenEntity;
  mfa_configurations : gmap uuid MfaConfigurationEntity;
  mfa_challenges : gmap uuid MfaChallengeEntity;
  challenge_attempts_ : gmap uuid Z;
  last_used_time_steps_ : gmap uuid Z;
  user_recovery_codes_ : gmap uuid (list string);
  pairing_challenges_ : gmap uuid DevicePairingChallenge;
  published : list AuthEvent }.

Definition set_users (x : gmap uuid UserEntity) (s : Auth) : Auth :=
  mkAuth x (devices s) (device_public_keys s) (sessions s) (refresh_tokens s) (mfa_configurations s)
    (mfa_challenges s) (challenge_attempts_ s) (last_used_time_steps_ s) (user_recovery_codes_ s)
    (pairing_challenges_ s) (published s).
Definition set_devices (x : gmap uuid DeviceEntity) (s : Auth) : Auth :=
  mkAuth (users s) x (device_public_keys s) (sessions s) (refresh_tokens s) (mfa_configurations s)
    (mfa_challenges s) (challenge_attempts_ s) (last_used_time_steps_ s) (user_recovery_codes_ s)
    (pairing_challenges_ s) (published s).
Definition set_device_public_keys (x : gmap uuid DevicePublicKeyEntity) (s : Auth) : Auth :=
  mkAuth (users s) (devices s) x (sessions s) (refresh_tokens s) (mfa_configurations s) (mfa_challenges s)
    (challenge_attempts_ s) (last_used_time_steps_ s) (user_recovery_codes_ s) (pairing_challenges_ s)
    (published s).
Definition set_sessions (x : gmap uuid SessionEntity) (s : Auth) : Auth :=
  mkAuth (users s) (devices s) (device_public_keys s) x (refresh_tokens s) (mfa_configurations s)
    (mfa_challenges s) (challenge_attempts_ s) (last_used_time_steps_ s) (user_recovery_codes_ s)
    (pairing_challenges_ s) (published s).
Definition set_refresh_tokens (x : gmap uuid RefreshTokenEntity) (s : Auth) : Auth :=
  mkAuth (users s) (devices s) (device_public_keys s) (sessions s) x (mfa_configurations s) (mfa_challenges s)
    (challenge_attempts_ s) (last_used_time_steps_ s) (user_recovery_codes_ s) (pairing_challenges_ s)
    (published s).
Definition set_mfa_configurations (x : gmap uuid MfaConfigurationEntity) (s : Auth) : Auth :=
  mkAuth (users s) (devices s) (device_public_keys s) (sessions s) (refresh_tokens s) x (mfa_challenges s)
    (challenge_attempts_ s) (last_used_time_steps_ s) (user_recovery_codes_ s) (pairing_challenges_ s)
    (published s).
Definition set_mfa_challenges (x : gmap uuid MfaChallengeEntity) (s : Auth) : Auth :=
  mkAuth (users s) (devices s) (device_public_keys s) (sessions s) (refresh_tokens s) (mfa_configurations s) x
    (challenge_attempts_ s) (last_used_time_steps_ s) (user_recovery_codes_ s) (pairing_challenges_ s)
    (published s).
Definition set_challenge_attempts (x : gmap uuid Z) (s : Auth) : Auth :=
  mkAuth (users s) (devices s) (device_public_keys s) (sessions s) (refresh_tokens s) (mfa_configurations s)
    (mfa_challenges s) x (last_used_time_steps_ s) (user_recovery_codes_ s) (pairing_challenges_ s) (published
    s).
Definition set_last_used_time_steps (x : gmap uuid Z) (s : Auth) : Auth :=
  mkAuth (users s) (devices s) (device_public_keys s) (sessions s) (refresh_tokens s) (mfa_configurations s)
    (mfa_challenges s) (challenge_attempts_ s) x (user_recovery_codes_ s) (pairing_challenges_ s) (published
    s).
Definition set_user_recovery_codes (x : gmap uuid (list string)) (s : Auth) : Auth :=
  mkAuth (users s) (devices s) (device_public_keys s) (sessions s) (refresh_tokens s) (mfa_configurations s)
    (mfa_challenges s) (challenge_attempts_ s) (last_used_time_steps_ s) x (pairing_challenges_ s) (published
    s).
Definition set_pairing_challenges (x : gmap uuid DevicePairingChallenge) (s : Auth) : Auth :=
  mkAuth (users s) (devices s) (device_public_keys s) (sessions s) (refresh_tokens s) (mfa_configurations s)
    (mfa_challenges s) (challenge_attempts_ s) (last_used_time_steps_ s) (user_recovery_codes_ s) x (published
    s).
Definition set_published (x : list AuthEvent) (s : Auth) : Auth :=
  mkAuth (users s) (devices s) (device_public_keys s) (sessions s) (refresh_tokens s) (mfa_configurations s)
    (mfa_challenges s) (challenge_attempts_ s) (last_used_time_steps_ s) (user_recovery_codes_ s)
    (pairing_challenges_ s) x.

(** The answer of a repository call: what it returns or throws, and the store. *)
Definition Answer (A : Type) : Type := result RepositoryExn A * Auth.

(** ** Statements *)

(** [UPDATE t SET f WHERE p]: the new table; and whether a row was affected. *)
Definition sql_update `{Countable K} {A} (p : A -> bool) (f : A -> A) (t : gmap K A) : gmap K A :=
  (fun a => if p a then f a else a) <$> t.
Definition sql_count `{Countable K} {A} (p : A -> bool) (t : gmap K A) : Z := map_count p t.

(** A statement whose [WHERE] fixes the primary key: the row if it is there and passes
    the rest of the condition. *)
Definition sql_row `{Countable K} {A} (id : K) (p : A -> bool) (t : gmap K A) : option A :=
  x ← t !! id; if p x then Some x else None.

(** ** Devices ([device_repository.cpp]) *)

Definition device_row (d : DeviceEntity) : DeviceEntity :=
  mkDevice (dv_device_id d) (dv_user_id d) (dv_device_status d) (stored (dv_registered_at d)) (stored <$> dv_revoked_at d)
    (dv_revocation_reason d) (stored (dv_last_authenticated_at d)) (stored (dv_created_at d)) (stored (dv_updated_at d)).

Definition register_device (d : DeviceEntity) (s : Auth) : Answer unit :=
  if bool_decide (dv_device_status d = DeviceRevoked) then (Err InvalidEntityState, s)
  else if bool_decide (is_Some (devices s !! dv_device_id d)) then (Err DuplicateEntity, s)
  else if negb (bool_decide (is_Some (users s !! dv_user_id d))) then (Err DatabaseExecution, s)
  else (Ok tt, set_devices (<[dv_device_id d := device_row d]> (devices s)) s).

Definition device_find_by_id (id : uuid) (s : Auth) : Answer (option DeviceEntity) := (Ok (devices s !! id), s).

Definition authorize_device (id : uuid) (authorized_at : Z) (s : Auth) : Answer unit :=
  match sql_row id (fun d => bool_decide (dv_device_status d = DevicePendingAuthorization)) (devices s) with
  | Some d =>
      (Ok tt, set_devices (<[id := mkDevice (dv_device_id d) (dv_user_id d) DeviceActive (dv_registered_at d)
        (dv_revoked_at d) (dv_revocation_reason d) (dv_last_authenticated_at d) (dv_created_at d) (stored authorized_at)]>
        (devices s)) s)
  | None => (Err (if bool_decide (devices s !! id = None) then EntityNotFound else InvalidEntityState), s)
  end.

Definition revoke_device (id : uuid) (reason : string) (revoked_at now : Z) (s : Auth) : Answer unit :=
  match devices s !! id with
  | Some d =>
      (Ok tt, set_devices (<[id := mkDevice (dv_device_id d) (dv_user_id d) DeviceRevoked (dv_registered_at d)
        (Some (stored revoked_at)) (Some reason) (dv_last_authenticated_at d) (dv_created_at d) (stored now)]> (devices s)) s)
  | None => (Err EntityNotFound, s)
  end.

Definition update_last_authenticated (id : uuid) (auth_time now : Z) (s : Auth) : Answer unit :=
  match sql_row id (fun d => negb (bool_decide (dv_device_status d = DeviceRevoked))) (devices s) with
  | Some d =>
      (Ok tt, set_devices (<[id := mkDevice (dv_device_id d) (dv_user_id d) (dv_device_status d) (dv_registered_at d)
        (dv_revoked_at d) (dv_revocation_reason d) (stored auth_time) (dv_created_at d) (stored now)]> (devices s)) s)
  | None => (Err (if bool_decide (devices s !! id = None) then EntityNotFound else InvalidEntityState), s)
  end.

(** ** Sessions ([session_repository.cpp]) *)

Definition session_row (x : SessionEntity) : SessionEntity :=
  mkSession (se_session_id x) (se_user_id x) (se_device_id x) (se_session_status x) (se_authentication_level x)
    (stored (se_created_at x)) (stored (se_expires_at x)) (stored <$> se_revoked_at x) (stored (se_last_used_at x)).

Definition set_session_status (st : SessionStatus) (revoked_at : option Z) (x : SessionEntity) : SessionEntity :=
  mkSession (se_session_id x) (se_user_id x) (se_device_id x) st (se_authentication_level x) (se_created_at x)
    (se_expires_at x) revoked_at (se_last_used_at x).
Definition set_authentication_level (l : AuthenticationLevel) (x : SessionEntity) : SessionEntity :=
  mkSession (se_session_id x) (se_user_id x) (se_device_id x) (se_session_status x) l (se_created_at x)
    (se_expires_at x) (se_revoked_at x) (se_last_used_at x).
Definition set_last_used_at (t : Z) (x : SessionEntity) : SessionEntity :=
  mkSession (se_session_id x) (se_user_id x) (se_device_id x) (se_session_status x) (se_authentication_level x)
    (se_created_at x) (se_expires_at x) (se_revoked_at x) t.

Definition session_active (x : SessionEntity) : bool := bool_decide (se_session_status x = SessionActive).

Definition create_session (x : SessionEntity) (s : Auth) : Answer unit :=
  if bool_decide (is_Some (sessions s !! se_session_id x)) then (Err DuplicateEntity, s)
  else if negb (bool_decide (is_Some (users s !! se_user_id x)) && bool_decide (is_Some (devices s !! se_device_id x)))
  then (Err DatabaseExecution, s)
  else (Ok tt, set_sessions (<[se_session_id x := session_row x]> (sessions s)) s).

Definition session_find_by_id (id : uuid) (s : Auth) : Answer (option SessionEntity) := (Ok (sessions s !! id), s).

Definition update_authentication_level (id : uuid) (level : AuthenticationLevel) (s : Auth) : Answer unit :=
  match sql_row id session_active (sessions s) with
  | Some x => (Ok tt, set_sessions (<[id := set_authentication_level level x]> (sessions s)) s)
  | None => (Err (if bool_decide (sessions s !! id = None) then EntityNotFound else InvalidEntityState), s)
  end.

Definition revoke_session (id : uuid) (revoked_at : Z) (s : Auth) : Answer unit :=
  match sql_row id session_active (sessions s) with
  | Some x => (Ok tt, set_sessions (<[id := set_session_status SessionRevoked (Some (stored revoked_at)) x]> (sessions s)) s)
  | None => if bool_decide (sessions s !! id = None) then (Err EntityNotFound, s) else (Ok tt, s)
  end.

Definition revoke_session_atomic (id : uuid) (revoked_at : Z) (s : Auth) : Answer bool :=
  match sql_row id session_active (sessions s) with
  | Some x => (Ok true, set_sessions (<[id := set_session_status SessionRevoked (Some (stored revoked_at)) x]> (sessions s)) s)
  | None => (Ok false, s)
  end.

(** The statements on all active sessions of a device or of a user; the two methods of
    each kind, [..._sessions] and [..._sessions_atomic], run the same statement. *)
Definition revoke_sessions_where (p : SessionEntity -> bool) (revoked_at : Z) (s : Auth) : Answer Z :=
  let affected x := p x && session_active x in
  (Ok (sql_count affected (sessions s)),
   set_sessions (sql_update affected (set_session_status SessionRevoked (Some (stored revoked_at))) (sessions s)) s).
Definition revoke_all_device_sessions_atomic (device : uuid) : Z -> Auth -> Answer Z :=
  revoke_sessions_where (fun x => bool_decide (se_device_id x = device)).
Definition revoke_all_user_sessions_atomic (user : uuid) : Z -> Auth -> Answer Z :=
  revoke_sessions_where (fun x => bool_decide (se_user_id x = user)).

Definition touch_session_activity (id : uuid) (now : Z) (s : Auth) : Answer bool :=
  match sql_row id (fun x => session_active x && (stored now <? se_expires_at x)) (sessions s) with
  | Some x => (Ok true, set_sessions (<[id := set_last_used_at (stored now) x]> (sessions s)) s)
  | None => (Ok false, s)
  end.

Definition expire_stale_sessions (now : Z) (s : Auth) : Answer Z :=
  let affected x := session_active x && (se_expires_at x <=? stored now) in
  (Ok (sql_count affected (sessions s)),
   set_sessions (sql_update affected (fun x => set_session_status SessionExpired (se_revoked_at x) x) (sessions s)) s).

(** ** Refresh tokens ([refresh_token_repository.cpp]) *)

Definition token_row (t : RefreshTokenEntity) : RefreshTokenEntity :=
  mkRefreshToken (rt_refresh_token_id t) (rt_session_id t) (rt_device_id t) (rt_token_verifier t) (rt_token_status t)
    (stored (rt_issued_at t)) (stored (rt_expires_at t)) (stored <$> rt_revoked_at t) (stored <$> rt_rotated_at t)
    (rt_replaced_by_token_id t).

Definition token_active (t : RefreshTokenEntity) : bool := bool_decide (rt_token_status t = TokenActive).

(** The rows with a verifier; the column is unique. *)
Definition with_verifier (v : string) (t : gmap uuid RefreshTokenEntity) : list RefreshTokenEntity :=
  filter (fun x => rt_token_verifier x = v) (snd <$> map_to_list t).

Definition create_token (t : RefreshTokenEntity) (s : Auth) : Answer unit :=
  if bool_decide (is_Some (refresh_tokens s !! rt_refresh_token_id t))
     || negb (bool_decide (with_verifier (rt_token_verifier t) (refresh_tokens s) = [])) then (Err DuplicateEntity, s)
  else if negb (bool_decide (is_Some (sessions s !! rt_session_id t)) && bool_decide (is_Some (devices s !! rt_device_id t)))
  then (Err DatabaseExecution, s)
  else (Ok tt, set_refresh_tokens (<[rt_refresh_token_id t := token_row t]> (refresh_tokens s)) s).

Definition find_by_verifier (v : string) (s : Auth) : Answer (option RefreshTokenEntity) :=
  (Ok (head (with_verifier v (refresh_tokens s))), s).

Definition set_rotated (at_ : Z) (new : uuid) (t : RefreshTokenEntity) : RefreshTokenEntity :=
  mkRefreshToken (rt_refresh_token_id t) (rt_session_id t) (rt_device_id t) (rt_token_verifier t) TokenRotated
    (rt_issued_at t) (rt_expires_at t) (rt_revoked_at t) (Some at_) (Some new).
Definition set_token_revoked (at_ : Z) (t : RefreshTokenEntity) : RefreshTokenEntity :=
  mkRefreshToken (rt_refresh_token_id t) (rt_session_id t) (rt_device_id t) (rt_token_verifier t) TokenRevoked
    (rt_issued_at t) (rt_expires_at t) (Some at_) (rt_rotated_at t) (rt_replaced_by_token_id t).

(** The row is locked first, so the update that follows finds it as it was read. *)
Definition rotate_token_atomic (old_token_id : uuid) (new_token : RefreshTokenEntity) (now : Z) (s : Auth) : Answer unit :=
  match refresh_tokens s !! old_token_id with
  | None => (Err EntityNotFound, s)
  | Some old_token =>
      if negb (token_active old_token) then (Err InvalidEntityState, s)
      else if rt_expires_at old_token <? now then (Err InvalidEntityState, s)
      else
        match create_token new_token s with
        | (Err e, s1) => (Err e, s1)
        | (Ok _, s1) =>
            match sql_row old_token_id token_active (refresh_tokens s1) with
            | None => (Err OptimisticLock, s1)
            | Some t =>
                (Ok tt, set_refresh_tokens
                   (<[old_token_id := set_rotated (stored now) (rt_refresh_token_id new_token) t]> (refresh_tokens s1)) s1)
            end
        end
  end.

Definition handle_token_reuse (v : string) (now : Z) (s : Auth) : Answer unit :=
  match head (with_verifier v (refresh_tokens s)) with
  | None => (Err EntityNotFound, s)
  | Some token =>
      if negb (bool_decide (rt_token_status token = TokenRotated)) then (Err InvalidEntityState, s)
      else
        let s1 :=
          match sessions s !! rt_session_id token with
          | Some x => set_sessions (<[rt_session_id token := set_session_status SessionRevoked (Some (stored now)) x]> (sessions s)) s
          | None => s
          end in
        let sibling t := bool_decide (rt_session_id t = rt_session_id token) && token_active t in
        (Ok tt, set_refresh_tokens (sql_update sibling (set_token_revoked (stored now)) (refresh_tokens s1)) s1)
  end.

(** ** Multi-factor authentication ([mfa_repository.cpp])

    The table of configurations has no unique column but its key. *)

Definition configuration_row (c : MfaConfigurationEntity) : MfaConfigurationEntity :=
  mkMfaConfiguration (mc_mfa_configuration_id c) (mc_user_id c) (mc_encrypted_secret c) (mc_status c)
    (stored (mc_created_at c)) (stored <$> mc_enabled_at c) (stored <$> mc_disabled_at c)
    (if mc_version c =? 0 then 1 else mc_version c).

Definition store_mfa_configuration (c : MfaConfigurationEntity) (s : Auth) : Answer unit :=
  if bool_decide (is_Some (mfa_configurations s !! mc_mfa_configuration_id c)) then (Err DuplicateEntity, s)
  else if negb (bool_decide (is_Some (users s !! mc_user_id c))) then (Err DatabaseExecution, s)
  else (Ok tt, set_mfa_configurations (<[mc_mfa_configuration_id c := configuration_row c]> (mfa_configurations s)) s).

(** The rows of a user, in no order the statement asks for; [first_row] is the row the
    database happens to return first. *)
Definition configurations_of (user : uuid) (t : gmap uuid MfaConfigurationEntity) : list MfaConfigurationEntity :=
  filter (fun c => mc_user_id c = user) (snd <$> map_to_list t).

Definition find_mfa_config_by_user_id (first_row : list MfaConfigurationEntity -> option MfaConfigurationEntity)
    (user : uuid) (s : Auth) : Answer (option MfaConfigurationEntity) :=
  (Ok (first_row (configurations_of user (mfa_configurations s))), s).

(** [version] is a [BIGINT]: one more than the largest is an error of the statement. *)
Definition update_configuration (f : MfaConfigurationEntity -> MfaConfigurationEntity) (id : uuid) (expected_version : Z)
    (s : Auth) : Answer unit :=
  match sql_row id (fun c => mc_version c =? expected_version) (mfa_configurations s) with
  | Some c =>
      if mc_version c + 1 <? 2 ^ 63 then (Ok tt, set_mfa_configurations (<[id := f c]> (mfa_configurations s)) s)
      else (Err DatabaseExecution, s)
  | None => (Err (if bool_decide (mfa_configurations s !! id = None) then EntityNotFound else OptimisticLock), s)
  end.

Definition enable_mfa (id : uuid) (enabled_at expected_version : Z) : Auth -> Answer unit :=
  update_configuration (fun c => mkMfaConfiguration (mc_mfa_configuration_id c) (mc_user_id c) (mc_encrypted_secret c) MfaEnabled
    (mc_created_at c) (Some (stored enabled_at)) (mc_disabled_at c) (mc_version c + 1)) id expected_version.
Definition repository_disable_mfa (id : uuid) (disabled_at expected_version : Z) : Auth -> Answer unit :=
  update_configuration (fun c => mkMfaConfiguration (mc_mfa_configuration_id c) (mc_user_id c) (mc_encrypted_secret c) MfaDisabled
    (mc_created_at c) (mc_enabled_at c) (Some (stored disabled_at)) (mc_version c + 1)) id expected_version.

Definition challenge_row (c : MfaChallengeEntity) : MfaChallengeEntity :=
  mkMfaChallenge (ch_mfa_challenge_id c) (ch_user_id c) (ch_session_id c) (ch_challenge_purpose c) (ch_challenge_status c)
    (stored (ch_created_at c)) (stored (ch_expires_at c)) (stored <$> ch_completed_at c).

Definition create_challenge (c : MfaChallengeEntity) (s : Auth) : Answer unit :=
  if bool_decide (is_Some (mfa_challenges s !! ch_mfa_challenge_id c)) then (Err DuplicateEntity, s)
  else if negb (bool_decide (is_Some (users s !! ch_user_id c)) && bool_decide (is_Some (sessions s !! ch_session_id c)))
  then (Err DatabaseExecution, s)
  else (Ok tt, set_mfa_challenges (<[ch_mfa_challenge_id c := challenge_row c]> (mfa_challenges s)) s).

Definition find_challenge_by_id (id : uuid) (s : Auth) : Answer (option MfaChallengeEntity) := (Ok (mfa_challenges s !! id), s).

Definition set_challenge_status (st : MfaChallengeStatus) (completed_at : option Z) (c : MfaChallengeEntity) : MfaChallengeEntity :=
  mkMfaChallenge (ch_mfa_challenge_id c) (ch_user_id c) (ch_session_id c) (ch_challenge_purpose c) st (ch_created_at c)
    (ch_expires_at c) completed_at.

Definition challenge_pending (c : MfaChallengeEntity) : bool := bool_decide (ch_challenge_status c = ChallengePending).

Definition not_pending (id : uuid) (s : Auth) : RepositoryExn :=
  if bool_decide (mfa_challenges s !! id = None) then EntityNotFound else InvalidEntityState.

Definition complete_challenge (id : uuid) (completed_at now : Z) (s : Auth) : Answer unit :=
  match sql_row id (fun c => challenge_pending c && (stored now <? ch_expires_at c)) (mfa_challenges s) with
  | Some c => (Ok tt, set_mfa_challenges (<[id := set_challenge_status ChallengeCompleted (Some (stored completed_at)) c]> (mfa_challenges s)) s)
  | None => (Err (not_pending id s), s)
  end.

Definition fail_challenge (id : uuid) (s : Auth) : Answer unit :=
  match sql_row id challenge_pending (mfa_challenges s) with
  | Some c => (Ok tt, set_mfa_challenges (<[id := set_challenge_status ChallengeFailed (ch_completed_at c) c]> (mfa_challenges s)) s)
  | None => (Err (not_pending id s), s)
  end.

(** ** Users ([user_repository.cpp]) *)

Definition user_row (u : UserEntity) : UserEntity :=
  mkUser (us_user_id u) (us_credential_identifier u) (us_password_verifier u) (us_password_algorithm u)
    (stored (us_password_updated_at u)) (us_account_status u) (stored (us_created_at u)) (stored (us_updated_at u))
    (if us_version u =? 0 then 1 else us_version u).

(** The rows with a credential identifier; the column is unique. *)
Definition with_identifier (identifier : string) (t : gmap uuid UserEntity) : list UserEntity :=
  filter (fun u => us_credential_identifier u = identifier) (snd <$> map_to_list t).

Definition create_user (u : UserEntity) (s : Auth) : Answer unit :=
  if bool_decide (is_Some (users s !! us_user_id u)) || negb (bool_decide (with_identifier (us_credential_identifier u) (users s) = []))
  then (Err DuplicateEntity, s)
  else (Ok tt, set_users (<[us_user_id u := user_row u]> (users s)) s).

Definition user_find_by_id (id : uuid) (s : Auth) : Answer (option UserEntity) := (Ok (users s !! id), s).

Definition find_by_credential_identifier (identifier : string) (s : Auth) : Answer (option UserEntity) :=
  (Ok (head (with_identifier identifier (users s))), s).

Definition update_user (u : UserEntity) (s : Auth) : Answer unit :=
  match sql_row (us_user_id u) (fun x => us_version x =? us_version u) (users s) with
  | Some x =>
      if negb (bool_decide (filter (fun y => us_user_id y <> us_user_id u) (with_identifier (us_credential_identifier u) (users s)) = []))
      then (Err DuplicateEntity, s)
      else if us_version x + 1 <? 2 ^ 63 then
        (Ok tt, set_users (<[us_user_id u := mkUser (us_user_id x) (us_credential_identifier u) (us_password_verifier u)
          (us_password_algorithm u) (stored (us_password_updated_at u)) (us_account_status u) (us_created_at x)
          (stored (us_updated_at u)) (us_version x + 1)]> (users s)) s)
      else (Err DatabaseExecution, s)
  | None => (Err (if bool_decide (users s !! us_user_id u = None) then EntityNotFound else OptimisticLock), s)
  end.

Definition set_account_status (id : uuid) (status : AccountStatus) (expected_version now : Z) (s : Auth) : Answer unit :=
  match sql_row id (fun x => us_version x =? expected_version) (users s) with
  | Some x =>
      if us_version x + 1 <? 2 ^ 63 then
        (Ok tt, set_users (<[id := mkUser (us_user_id x) (us_credential_identifier x) (us_password_verifier x) (us_password_algorithm x)
          (us_password_updated_at x) status (us_created_at x) (stored now) (us_version x + 1)]> (users s)) s)
      else (Err DatabaseExecution, s)
  | None => (Err (if bool_decide (users s !! id = None) then EntityNotFound else OptimisticLock), s)
  end.

(** ** Public keys ([device_public_key_repository.cpp]) *)

(** The row that [ORDER BY created_at ... LIMIT 1] returns; several rows may share a
    time. *)
Record KeyOrder := mkKeyOrder {
  oldest : list DevicePublicKeyEntity -> option DevicePublicKeyEntity;
  newest : list DevicePublicKeyEntity -> option DevicePublicKeyEntity }.

Definition key_row (k : DevicePublicKeyEntity) : DevicePublicKeyEntity :=
  mkPublicKey (pk_key_id k) (pk_device_id k) (pk_key_type k) (pk_public_key k) (pk_key_status k) (stored (pk_created_at k))
    (stored <$> pk_revoked_at k) (pk_replaced_by_key_id k) (pk_signature k).

Definition store_public_key (k : DevicePublicKeyEntity) (s : Auth) : Answer unit :=
  if bool_decide (is_Some (device_public_keys s !! pk_key_id k)) then (Err DuplicateEntity, s)
  else if negb (bool_decide (is_Some (devices s !! pk_device_id k))
                && from_option (fun r => bool_decide (r = pk_key_id k \/ is_Some (device_public_keys s !! r))) true (pk_replaced_by_key_id k))
  then (Err DatabaseExecution, s)
  else (Ok tt, set_device_public_keys (<[pk_key_id k := key_row k]> (device_public_keys s)) s).

Definition key_active (k : DevicePublicKeyEntity) : bool := bool_decide (pk_key_status k = KeyActive).
Definition set_key_status (st : KeyStatus) (revoked_at : option Z) (replaced_by : option uuid) (k : DevicePublicKeyEntity)
    : DevicePublicKeyEntity :=
  mkPublicKey (pk_key_id k) (pk_device_id k) (pk_key_type k) (pk_public_key k) st (pk_created_at k) revoked_at replaced_by (pk_signature k).

Definition keys_where (p : DevicePublicKeyEntity -> bool) (s : Auth) : list DevicePublicKeyEntity :=
  filter (fun k => p k = true) (snd <$> map_to_list (device_public_keys s)).

Definition key_of_device (device : uuid) (type : KeyType) (status : KeyStatus) (k : DevicePublicKeyEntity) : bool :=
  bool_decide (pk_device_id k = device) && bool_decide (pk_key_type k = type) && bool_decide (pk_key_status k = status).

Definition key_find_by_id (id : uuid) (s : Auth) : Answer (option DevicePublicKeyEntity) := (Ok (device_public_keys s !! id), s).

(** The row is locked first. *)
Definition replace_key (old_key_id : uuid) (new_key : DevicePublicKeyEntity) (s : Auth) : Answer unit :=
  match device_public_keys s !! old_key_id with
  | None => (Err EntityNotFound, s)
  | Some old_key =>
      if negb (key_active old_key) then (Err InvalidEntityState, s)
      else
        match store_public_key new_key s with
        | (Err e, s1) => (Err e, s1)
        | (Ok _, s1) =>
            match sql_row old_key_id key_active (device_public_keys s1) with
            | None => (Err OptimisticLock, s1)
            | Some k =>
                (Ok tt, set_device_public_keys
                   (<[old_key_id := set_key_status KeyReplaced (pk_revoked_at k) (Some (pk_key_id new_key)) k]> (device_public_keys s1)) s1)
            end
        end
  end.

Definition revoke_all_device_keys (device : uuid) (revoked_at : Z) (s : Auth) : Answer unit :=
  (Ok tt, set_device_public_keys
     (sql_update (fun k => bool_decide (pk_device_id k = device) && key_active k)
        (fun k => set_key_status KeyRevoked (Some (stored revoked_at)) (pk_replaced_by_key_id k) k) (device_public_keys s)) s).

(** [FOR UPDATE SKIP LOCKED]: rows that other transactions hold are passed over. *)
Definition claim_one_time_prekey (order : KeyOrder) (skip : uuid -> bool) (device : uuid) (s : Auth)
    : Answer (option DevicePublicKeyEntity) :=
  match oldest order (keys_where (fun k => key_of_device device OneTimePrekey KeyActive k && negb (skip (pk_key_id k))) s) with
  | None => (Ok None, s)
  | Some entity =>
      let claimed := set_key_status KeyClaimed (pk_revoked_at entity) (pk_replaced_by_key_id entity) entity in
      match sql_row (pk_key_id entity) key_active (device_public_keys s) with
      | None => (Ok (Some claimed), s)
      | Some k =>
          (Ok (Some claimed), set_device_public_keys
             (<[pk_key_id entity := set_key_status KeyClaimed (pk_revoked_at k) (pk_replaced_by_key_id k) k]> (device_public_keys s)) s)
      end
  end.

(** A count is read as [int32_t]. *)
Definition count_one_time_prekeys (status : KeyStatus) (device : uuid) (s : Auth) : Answer Z :=
  let n := sql_count (key_of_device device OneTimePrekey status) (device_public_keys s) in
  (if n <? 2 ^ 31 then Ok n else Err DriverException, s).
Definition count_active_one_time_prekeys : uuid -> Auth -> Answer Z := count_one_time_prekeys KeyActive.
Definition count_claimed_one_time_prekeys : uuid -> Auth -> Answer Z := count_one_time_prekeys KeyClaimed.

Definition has_active_key_conflict (device : uuid) (public_key : list Z) (s : Auth) : Answer bool :=
  (Ok (negb (bool_decide (keys_where (fun k => bool_decide (pk_device_id k = device) && bool_decide (pk_public_key k = public_key)
     && key_active k) s = []))), s).

Definition find_active_identity_key (order : KeyOrder) (device : uuid) (s : Auth) : Answer (option DevicePublicKeyEntity) :=
  (Ok (newest order (keys_where (key_of_device device IdentitySigning KeyActive) s)), s).
Definition find_active_signed_prekey (order : KeyOrder) (device : uuid) (s : Auth) : Answer (option DevicePublicKeyEntity) :=
  (Ok (newest order (keys_where (key_of_device device SignedPrekey KeyActive) s)), s).

(** In one transaction; an id is drawn for every key. *)
Fixpoint store_one_time_prekeys (device : uuid) (keys : list (uuid * list Z)) (now : Z) (s : Auth) : Answer unit :=
  match keys with
  | [] => (Ok tt, s)
  | (id, key) :: keys =>
      match store_public_key (mkPublicKey id device OneTimePrekey key KeyActive now None None None) s with
      | (Err e, s) => (Err e, s)
      | (Ok _, s) => store_one_time_prekeys device keys now s
      end
  end.
