(* ===== verification/AuthTokens.v ===== *)
(** * Sessions and tokens of the auth service

    Models [src/auth/service/session_manager.cpp] and [token_manager.cpp]: every
    handler as a program of transactions, whose exceptions become results the way the
    [try] blocks make them.  The clocks, the random secrets and ids, SHA-256 and the
    serializer of signed tokens are arguments; diagnostic texts are left out. *)

From S2P Require Import Prelude Ids Bytes Prog AuthStore.
#[local] Open Scope Z_scope.

(** A repository call on its own connection. *)
Definition db {A} (t : Auth -> Answer A) : prog Auth (result RepositoryExn A) := transaction DriverException t.

Definition publish (e : AuthEvent) : prog Auth unit := locked (fun s => (tt, set_published (published s ++ [e]) s)).

(** [audit_publisher_] may be null here. *)
Definition publish_if (audit : bool) (e : AuthEvent) : prog Auth unit := if audit then publish e else Ret tt.

(** ** [SessionManager] *)

Inductive SessionEstablishmentStatus := EstablishSuccess | EstablishDeviceNotFound | EstablishDeviceRevoked | EstablishInternalError.

Record SessionEstablishmentResult := mkEstablished {
  es_status : SessionEstablishmentStatus; es_session : option SessionEntity; es_device : option DeviceEntity }.

Inductive SessionValidationStatus := Valid | NotFound | Revoked | Expired | DeviceMismatch | DeviceNotActive | InternalError.

Record SessionValidationResult := mkValidated { sv_status : SessionValidationStatus; sv_session : option SessionEntity }.

Inductive SessionRevocationStatus := RevocationSuccess | RevocationNotFound | AlreadyRevoked | RevocationInternalError.

Record SessionRevocationResult := mkRevocation { sr_status : SessionRevocationStatus; revoked_count : Z }.

Section managers.
Context (audit : bool) (session_ttl : Z).

Definition new_session (id user device : uuid) (now : Z) : SessionEntity :=
  mkSession id user device SessionActive PrimaryOnly now (now + session_ttl) None now.

Definition touched (d : DeviceEntity) (now : Z) : DeviceEntity :=
  mkDevice (dv_device_id d) (dv_user_id d) (dv_device_status d) (dv_registered_at d) (dv_revoked_at d)
    (dv_revocation_reason d) now (dv_created_at d) (dv_updated_at d).

Definition establish_session (user device_id session_id : uuid) (now now_device : Z) : prog Auth SessionEstablishmentResult :=
  let failed st := Ret (mkEstablished st None None) in
  let* device_opt := db (device_find_by_id device_id) in
  match device_opt with
  | Err _ => failed EstablishInternalError
  | Ok None => failed EstablishDeviceNotFound
  | Ok (Some device) =>
      if negb (bool_decide (dv_user_id device = user)) then failed EstablishDeviceNotFound
      else if negb (bool_decide (dv_device_status device = DeviceActive)) then failed EstablishDeviceRevoked
      else
        let session := new_session session_id user device_id now in
        let* created := db (create_session session) in
        match created with
        | Err _ => failed EstablishInternalError
        | Ok _ =>
            let* updated := db (update_last_authenticated device_id now now_device) in
            match updated with
            | Err _ => failed EstablishInternalError
            | Ok _ => Ret (mkEstablished EstablishSuccess (Some session) (Some (touched device now)))
            end
        end
  end.

Definition validate_session (session_id : uuid) (claimed_device_id : option uuid) (now : Z) : prog Auth SessionValidationResult :=
  let failed st := Ret (mkValidated st None) in
  let* session_opt := db (session_find_by_id session_id) in
  match session_opt with
  | Err _ => failed InternalError
  | Ok None => failed NotFound
  | Ok (Some session) =>
      if bool_decide (se_session_status session = SessionRevoked) then
        let* _ := publish_if audit (session_revoked_attempt session_id) in failed Revoked
      else if bool_decide (se_session_status session = SessionExpired) || (se_expires_at session <=? now) then
        let* _ := publish_if audit (session_expired_attempt session_id) in failed Expired
      else if from_option (fun d => negb (bool_decide (d = se_device_id session))) false claimed_device_id then
        failed DeviceMismatch
      else
        let* device_opt := db (device_find_by_id (se_device_id session)) in
        match device_opt with
        | Err _ => failed InternalError
        | Ok None => failed DeviceMismatch
        | Ok (Some device) =>
            if negb (bool_decide (dv_device_status device = DeviceActive)) then failed DeviceNotActive
            else
              let* touch := db (touch_session_activity session_id now) in
              match touch with
              | Err _ => failed InternalError
              | Ok _ => Ret (mkValidated Valid (Some (set_last_used_at now session)))
              end
        end
  end.

(** [SessionManager::revoke_session]. *)
Definition manager_revoke_session (session_id : uuid) (now : Z) : prog Auth SessionRevocationResult :=
  let failed st := Ret (mkRevocation st 0) in
  let* session_opt := db (session_find_by_id session_id) in
  match session_opt with
  | Err _ => failed RevocationInternalError
  | Ok None => failed RevocationNotFound
  | Ok (Some session) =>
      if bool_decide (se_session_status session = SessionRevoked) then failed AlreadyRevoked
      else if bool_decide (se_session_status session = SessionExpired) then failed AlreadyRevoked
      else
        let* revoked := db (revoke_session_atomic session_id now) in
        match revoked with
        | Err _ => failed RevocationInternalError
        | Ok false => failed AlreadyRevoked
        | Ok true =>
            let* _ := publish_if audit (session_revoked session_id (se_user_id session) (se_device_id session)) in
            Ret (mkRevocation RevocationSuccess 1)
        end
  end.

Definition revocation_of (r : result RepositoryExn Z) : SessionRevocationResult :=
  match r with Ok count => mkRevocation RevocationSuccess count | Err _ => mkRevocation RevocationInternalError 0 end.

Definition revoke_all_device_sessions (device : uuid) (now : Z) : prog Auth SessionRevocationResult :=
  let* r := db (revoke_all_device_sessions_atomic device now) in Ret (revocation_of r).
Definition revoke_all_user_sessions (user : uuid) (now : Z) : prog Auth SessionRevocationResult :=
  let* r := db (revoke_all_user_sessions_atomic user now) in Ret (revocation_of r).
End managers.

(** ** [TokenManager] *)

Record AccessTokenClaims := mkClaims {
  issuer : string; audience : string; cl_user_id : uuid; cl_device_id : uuid; cl_session_id : uuid;
  cl_issued_at : Z; cl_expires_at : Z; jti : uuid; scopes : list string; token_version : Z;
  cl_authentication_level : AuthenticationLevel }.

Record TokenManagerConfig := mkTokenConfig {
  access_token_ttl : Z; refresh_token_ttl : Z; cfg_issuer : string; cfg_audience : string;
  default_scopes : list string; concurrency_grace_window : Z }.

Record TokenPair := mkPair { access_token : string; refresh_token : string; pair_expires_at : Z }.

Inductive TokenRefreshStatus :=
  | RefreshSuccess | InvalidToken | ExpiredToken | RefreshDeviceMismatch | RefreshSessionRevoked
  | CompromiseDetected | ConcurrencyConflict | DatabaseError.

#[export] Instance TokenRefreshStatus_eq_dec : EqDecision TokenRefreshStatus.
Proof. solve_decision. Defined.

Record TokenRefreshResult := mkRefresh {
  rr_status : TokenRefreshStatus; rr_tokens : option TokenPair; rr_session_id : option uuid }.

(** What a call draws: a secret, the id of the token, the id of the access token, and
    the clock as the manager and the repositories read it. *)
Record Draw := mkDraw { raw_secret : string; token_id : uuid; token_jti : uuid; now : Z; now_rotate : Z; now_reuse : Z; now_touch : Z }.

Section tokens.
Context (audit : bool) (config_ : TokenManagerConfig) (sha256_hex : string -> string).
Context (serialize : AccessTokenClaims -> option string).

Definition claims_for (session : SessionEntity) (scopes : list string) (d : Draw) : AccessTokenClaims :=
  mkClaims (cfg_issuer config_) (cfg_audience config_) (se_user_id session) (se_device_id session) (se_session_id session)
    (now d) (now d + access_token_ttl config_) (token_jti d) scopes 1 (se_authentication_level session).

Definition new_token (session device : uuid) (d : Draw) : RefreshTokenEntity :=
  mkRefreshToken (token_id d) session device (sha256_hex (raw_secret d)) TokenActive (now d)
    (now d + refresh_token_ttl config_) None None None.

(** Throws [invalid_argument] for a session that is not usable, and whatever the
    serializer or the repository throws. *)
Definition issue_initial_tokens (session : SessionEntity) (scopes : list string) (d : Draw) : prog Auth (option TokenPair) :=
  if negb (session_active session) then Ret None
  else if se_expires_at session <? now d then Ret None
  else
    let claims := claims_for session (match scopes with [] => default_scopes config_ | _ => scopes end) d in
    match serialize claims with
    | None => Ret None
    | Some access =>
        let* created := db (create_token (new_token (se_session_id session) (se_device_id session) d)) in
        match created with
        | Err _ => Ret None
        | Ok _ => Ret (Some (mkPair access (raw_secret d) (cl_expires_at claims)))
        end
    end.

Definition refused (st : TokenRefreshStatus) : TokenRefreshResult := mkRefresh st None None.

(** From the rotation on; the claims carry the device of the request. *)
Definition rotate_and_issue (token : RefreshTokenEntity) (session : SessionEntity) (device_id : uuid) (d : Draw)
    : prog Auth (result RepositoryExn TokenRefreshResult) :=
  try* _ := db (rotate_token_atomic (rt_refresh_token_id token) (new_token (rt_session_id token) device_id d) (now_rotate d)) in
  try* _ := db (touch_session_activity (se_session_id session) (now d)) in
  try* _ := db (update_last_authenticated device_id (now d) (now_touch d)) in
  let claims :=
    mkClaims (cfg_issuer config_) (cfg_audience config_) (se_user_id session) device_id (se_session_id session)
      (now d) (now d + access_token_ttl config_) (token_jti d) (default_scopes config_) 1 (se_authentication_level session) in
  match serialize claims with
  | None => Ret (Err DriverException)
  | Some access =>
      let* _ := publish_if audit (token_refreshed (se_session_id session) (se_user_id session) device_id) in
      Ret (Ok (mkRefresh RefreshSuccess (Some (mkPair access (raw_secret d) (cl_expires_at claims))) (Some (se_session_id session))))
  end.

(** The checks of the [try] block. *)
Definition refresh_checked (verifier_hash : string) (device_id : uuid) (d : Draw)
    : prog Auth (result RepositoryExn TokenRefreshResult) :=
  let answer st := Ret (Ok (refused st)) in
  try* token_opt := db (find_by_verifier verifier_hash) in
  match token_opt with
  | None => answer InvalidToken
  | Some token =>
      if bool_decide (rt_token_status token = TokenRotated) then
        if from_option (fun at_ => now d - at_ <=? concurrency_grace_window config_) false (rt_rotated_at token)
        then answer ConcurrencyConflict
        else
          let* _ := db (handle_token_reuse verifier_hash (now_reuse d)) in
          let* _ := publish_if audit (token_reuse_detected (rt_session_id token) (rt_device_id token)) in
          answer CompromiseDetected
      else if bool_decide (rt_token_status token = TokenRevoked) then answer RefreshSessionRevoked
      else if negb (token_active token) then answer InvalidToken
      else if rt_expires_at token <? now d then answer ExpiredToken
      else if negb (bool_decide (rt_device_id token = device_id)) then answer RefreshDeviceMismatch
      else
        try* device_opt := db (device_find_by_id device_id) in
        match device_opt with
        | None => answer RefreshDeviceMismatch
        | Some device =>
            if negb (bool_decide (dv_device_status device = DeviceActive)) then answer RefreshDeviceMismatch
            else
              try* session_opt := db (session_find_by_id (rt_session_id token)) in
              match session_opt with
              | None => answer InvalidToken
              | Some session =>
                  if negb (session_active session) then answer RefreshSessionRevoked
                  else if se_expires_at session <? now d then answer RefreshSessionRevoked
                  else if negb (bool_decide (se_device_id session = device_id)) then answer RefreshDeviceMismatch
                  else if negb (bool_decide (dv_user_id device = se_user_id session)) then answer RefreshDeviceMismatch
                  else rotate_and_issue token session device_id d
              end
        end
  end.

Definition refresh_of (r : result RepositoryExn TokenRefreshResult) : TokenRefreshResult :=
  match r with
  | Ok res => res
  | Err OptimisticLock => refused ConcurrencyConflict
  | Err _ => refused DatabaseError
  end.

(** [TokenManager::refresh_tokens]. *)
Definition manager_refresh_tokens (refresh_token_secret : string) (device_id : uuid) (d : Draw) : prog Auth TokenRefreshResult :=
  if bool_decide (refresh_token_secret = EmptyString) then Ret (refused InvalidToken)
  else let* r := refresh_checked (sha256_hex refresh_token_secret) device_id d in Ret (refresh_of r).
End tokens.
