(* ===== verification/AccessTokens.v ===== *)
(** * Public keys and signed access tokens

    Models the validators [src/auth/crypto/device_key_validator.cpp],
    [prekey_validator.cpp] and [prekey_signature_verifier.cpp] (diagnostic texts are left
    out); [src/auth/domain/token_claims.cpp], the text of an access token, written by the
    auth service and read by the gateway; and [Base64Url], [Ed25519TokenSigner::sign] and
    [Ed25519TokenVerifier::verify] of [src/auth/crypto/token_crypto.cpp].

    The key formats and the signatures of OpenSSL are a class.  The JSON library (its
    printer and its parser, which reports errors with a text) is a parameter. *)

From S2P Require Import Prelude Ids Bytes AuditValidation Base32 AuthStore AuthTokens.
From Stdlib Require Import Ascii.
#[local] Open Scope Z_scope.

(** ** Validation *)

Definition kEd25519PublicKeySize : nat := 32.
Definition kX25519KeySize : nat := 32.
Definition kEd25519SignatureSize : nat := 64.
Definition kMaxOneTimePrekeys : nat := 100.
Definition kMinBatchSize : nat := 1.
Definition kMaxBatchSize : nat := 100.

Definition kPrivateKeyMarkers : list string :=
  ["private key"; "private_key"; "begin private key"; "begin ec private key"; "begin rsa private key";
   "begin openssh private key"; "begin ed25519 private key"; "encrypted private key"]%string.

Definition buffer_contains_ci_substring (buffer : list Z) (needle : string) : bool :=
  contains (tolower <$> chars needle) (tolower <$> (chr <$> buffer)).

(** The last index is read when the size is four, too, past the end of the buffer. *)
Definition contains_private_key_material (buffer : list Z) : bool :=
  match buffer with
  | [] => false
  | _ =>
      existsb (buffer_contains_ci_substring buffer) kPrivateKeyMarkers
      || ((4 <=? length buffer)%nat && bool_decide (buffer !! 0%nat = Some 48) && bool_decide (buffer !! 2%nat = Some 2)
          && bool_decide (buffer !! 3%nat = Some 1) && bool_decide (buffer !! 4%nat = Some 0))
  end.

(** The checks of OpenSSL: a well-formed key, and a good signature of a message. *)
Class Curves := mkCurves {
  ed25519_key : list Z -> bool; x25519_key : list Z -> bool; ed25519_verify : list Z -> list Z -> list Z -> bool }.

Section validators.
Context {curves : Curves}.

Definition validate_identity_key (identity_key : list Z) : bool :=
  (length identity_key =? kEd25519PublicKeySize)%nat && negb (contains_private_key_material identity_key)
  && ed25519_key identity_key.

Definition validate_signed_prekey (signed_prekey : list Z) : bool :=
  (length signed_prekey =? kX25519KeySize)%nat && negb (contains_private_key_material signed_prekey)
  && x25519_key signed_prekey.

Definition validate_signed_prekey_signature (identity_key signed_prekey signature : list Z) : bool :=
  validate_identity_key identity_key && validate_signed_prekey signed_prekey
  && (length signature =? kEd25519SignatureSize)%nat && negb (contains_private_key_material signature)
  && ed25519_key identity_key && ed25519_verify identity_key signature signed_prekey.

Definition validate_one_time_prekeys (prekeys : list (list Z)) : bool :=
  (length prekeys <=? kMaxOneTimePrekeys)%nat && forallb validate_signed_prekey prekeys.

Definition validate_registration_bundle (identity_key signed_prekey signature : list Z) (one_time_prekeys : list (list Z)) : bool :=
  validate_signed_prekey_signature identity_key signed_prekey signature && validate_one_time_prekeys one_time_prekeys.

Definition is_all_bytes (buffer : list Z) (val : Z) : bool := forallb (fun b => b =? val) buffer.

Definition validate_single_prekey (key_bytes : list Z) : bool :=
  (length key_bytes =? kX25519KeySize)%nat && negb (contains_private_key_material key_bytes)
  && negb (is_all_bytes key_bytes 0) && negb (is_all_bytes key_bytes 255) && x25519_key key_bytes.

Fixpoint validate_distinct (seen_keys : list (list Z)) (prekeys : list (list Z)) : bool :=
  match prekeys with
  | [] => true
  | key :: prekeys =>
      validate_single_prekey key && negb (bool_decide (key ∈ seen_keys)) && validate_distinct (key :: seen_keys) prekeys
  end.

Definition validate_prekey_batch (prekeys : list (list Z)) : bool :=
  (kMinBatchSize <=? length prekeys)%nat && (length prekeys <=? kMaxBatchSize)%nat && validate_distinct [] prekeys.
End validators.

(** ** [Base64Url] *)

Definition kBase64UrlChars : list ascii := chars "ABCDEFGHIJKLMNOPQRSTUVWXYZabcdefghijklmnopqrstuvwxyz0123456789-_".

Definition base64_char (i : Z) : ascii := default zero (kBase64UrlChars !! Z.to_nat i).

Definition base64_char_value (c : ascii) : Z :=
  if (code "A" <=? code c) && (code c <=? code "Z") then code c - code "A"
  else if (code "a" <=? code c) && (code c <=? code "z") then code c - code "a" + 26
  else if (code "0" <=? code c) && (code c <=? code "9") then code c - code "0" + 52
  else if Ascii.eqb c "-" then 62
  else if Ascii.eqb c "_" then 63
  else -1.

Definition triple_of (a b c : Z) : Z := Z.lor (Z.lor (Z.shiftl a 16) (Z.shiftl b 8)) c.
Definition sextet (triple shift : Z) : ascii := base64_char (Z.land (Z.shiftr triple shift) 63).

Fixpoint b64_encode (input : list Z) : list ascii :=
  match input with
  | [] => []
  | [a] => let t := triple_of a 0 0 in [sextet t 18; sextet t 12]
  | [a; b] => let t := triple_of a b 0 in [sextet t 18; sextet t 12; sextet t 6]
  | a :: b :: c :: input => let t := triple_of a b c in sextet t 18 :: sextet t 12 :: sextet t 6 :: sextet t 0 :: b64_encode input
  end.

Fixpoint strip_padding (reversed : list ascii) : list ascii :=
  match reversed with c :: l => if Ascii.eqb c "=" then strip_padding l else reversed | [] => [] end.

Definition octet (val shift : Z) : Z := Z.land (Z.shiftr val shift) 255.

(** The values of the characters of a chunk, or none if one of them is no digit. *)
Definition values (chunk : list ascii) : option (list Z) :=
  let vals := base64_char_value <$> chunk in if existsb (fun v => v <? 0) vals then None else Some vals.

Definition chunk_bytes (vals : list Z) : list Z :=
  match vals with
  | [a; b] => [octet (Z.lor (Z.shiftl a 6) b) 4]
  | [a; b; c] => let val := Z.lor (Z.lor (Z.shiftl a 12) (Z.shiftl b 6)) c in [octet val 10; octet val 2]
  | [a; b; c; d] =>
      let val := Z.lor (Z.lor (Z.lor (Z.shiftl a 18) (Z.shiftl b 12)) (Z.shiftl c 6)) d in [octet val 16; octet val 8; octet val 0]
  | _ => []
  end.

Fixpoint decode_chunks (input : list ascii) : option (list Z) :=
  match input with
  | [] => Some []
  | a :: b :: c :: d :: input => vals ← values [a; b; c; d]; rest ← decode_chunks input; Some (chunk_bytes vals ++ rest)
  | chunk => chunk_bytes <$> values chunk
  end.

Definition b64_decode (input : list ascii) : option (list Z) :=
  let input := rev (strip_padding (rev input)) in
  if bool_decide (input = []) then Some []
  else if (length input mod 4 =? 1)%nat then None
  else decode_chunks input.

(** ** JSON values *)

(** Of a number with a fraction only its cast to [int64_t] is used; the parser gives
    unsigned integers where there is no sign. *)
Inductive json :=
  | JNull | JBool (b : bool) | JString (s : string) | JInteger (z : Z) | JFloat (truncated : Z)
  | JArray (l : list json) | JObject (fields : list (string * json)).

Definition field (name : string) (fields : list (string * json)) : option json :=
  snd <$> List.find (fun f => bool_decide (fst f = name)) fields.

Definition text_value (j : json) : option string := match j with JString s => Some s | _ => None end.
Definition integer_value (j : json) : option Z := match j with JInteger z | JFloat z => Some (i64 z) | _ => None end.

(** ** The text of a token *)

Definition level_to_string (l : AuthenticationLevel) : string := match l with PrimaryOnly => "PRIMARY_ONLY" | MfaVerified => "MFA_VERIFIED" end.

Definition parse_level (s : string) : option AuthenticationLevel :=
  if bool_decide (s = "PRIMARY_ONLY" \/ s = "PrimaryOnly")%string then Some PrimaryOnly
  else if bool_decide (s = "MFA_VERIFIED" \/ s = "MfaVerified")%string then Some MfaVerified
  else None.

Definition ns_per_s : Z := 1000000000.

(** [duration_cast<seconds>], and a [time_point] of a number of seconds, in 64 bits. *)
Definition to_seconds (t : Z) : Z := Z.quot t ns_per_s.
Definition from_seconds (n : Z) : Z := i64 (n * ns_per_s).

(** The objects of the library hold their fields in the order of their names. *)
Definition header_json (key_id : string) : json :=
  JObject [("alg", JString "EdDSA"); ("kid", JString key_id); ("typ", JString "SC-Token")]%string.

Definition payload_json (c : AccessTokenClaims) : json :=
  JObject [("aal", JString (level_to_string (cl_authentication_level c))); ("aud", JString (audience c));
           ("did", JString (uuid_to_string (cl_device_id c))); ("exp", JInteger (to_seconds (cl_expires_at c)));
           ("iat", JInteger (to_seconds (cl_issued_at c))); ("iss", JString (issuer c)); ("jti", JString (uuid_to_string (jti c)));
           ("scp", JArray (JString <$> scopes c)); ("sid", JString (uuid_to_string (cl_session_id c)));
           ("sub", JString (uuid_to_string (cl_user_id c))); ("uid", JString (uuid_to_string (cl_user_id c)));
           ("ver", JInteger (token_version c))]%string.

(** The statuses other than [Valid], which stands for [Ok]. *)
Inductive TokenValidationStatus :=
  | TokenIsExpired | TokenBadSignature | TokenIsMalformed | TokenBadIssuer | TokenBadAudience | TokenBadDevice.

Record TokenFault := mkFault { tf_status : TokenValidationStatus; tf_message : string }.

Record TokenParseOptions := mkParseOptions {
  expected_issuer : string; expected_audience : string; clock_skew_tolerance : Z; current_time : Z }.

Definition malformed {A} (text : string) : result TokenFault A := Err (mkFault TokenIsMalformed text).

Definition quoted_mismatch (what found expected : string) : string :=
  String.concat EmptyString [what; " '"; found; "' does not match expected '"; expected; "'"]%string.

Definition parse_id (text : string) : option uuid := mkUuid <$> Uuid.from_string text.

(** A claim that must be a text, and one that must be an identifier. *)
Definition text_claim (name : string) (fields : list (string * json)) (missing : string) : result TokenFault string :=
  match field name fields ≫= text_value with Some s => Ok s | None => malformed missing end.

Definition id_claim (text bad : string) : result TokenFault uuid := match parse_id text with Some id => Ok id | None => malformed bad end.

Definition time_claim (name : string) (fields : list (string * json)) (missing : string) : result TokenFault Z :=
  match field name fields ≫= integer_value with Some n => Ok n | None => malformed missing end.

Definition user_claim (fields : list (string * json)) : result TokenFault string :=
  match field "uid" fields ≫= text_value with
  | Some s => Ok s
  | None => match field "sub" fields ≫= text_value with Some s => Ok s | None => malformed "Missing 'sub' or 'uid' user identifier claim" end
  end.

Definition jti_claim (fields : list (string * json)) : result TokenFault uuid :=
  match field "jti" fields ≫= text_value with
  | Some s => id_claim s "Invalid UUID format for 'jti' claim"
  | None => Ok (mkUuid Uuid.nil)
  end.

Definition scopes_claim (fields : list (string * json)) : list string :=
  match field "scp" fields with Some (JArray l) => omap text_value l | _ => [] end.

Definition version_claim (fields : list (string * json)) : Z :=
  match field "ver" fields with Some (JInteger z) => if 0 <=? z then u32 z else 1 | _ => 1 end.

Definition level_claim (fields : list (string * json)) : AuthenticationLevel :=
  default PrimaryOnly ((field "aal" fields ≫= text_value) ≫= parse_level).

Section envelope.
Context (dump : json -> list ascii) (parse : list ascii -> result string json) (decimal_text : Z -> string).

(** The checks of a payload in their order. *)
Definition claims_of (options : TokenParseOptions) (fields : list (string * json)) : result TokenFault AccessTokenClaims :=
  let? iss := text_claim "iss" fields "Missing or invalid 'iss' claim" in
  if negb (bool_decide (expected_issuer options = EmptyString)) && negb (bool_decide (iss = expected_issuer options))
  then Err (mkFault TokenBadIssuer (quoted_mismatch "Issuer" iss (expected_issuer options))) else
  let? aud := text_claim "aud" fields "Missing or invalid 'aud' claim" in
  if negb (bool_decide (expected_audience options = EmptyString)) && negb (bool_decide (aud = expected_audience options))
  then Err (mkFault TokenBadAudience (quoted_mismatch "Audience" aud (expected_audience options))) else
  let? user_text := user_claim fields in
  let? user := id_claim user_text "Invalid UUID format for user identifier" in
  let? device_text := text_claim "did" fields "Missing or invalid 'did' device identifier claim" in
  let? device := id_claim device_text "Invalid UUID format for device identifier" in
  let? session_text := text_claim "sid" fields "Missing or invalid 'sid' session identifier claim" in
  let? session := id_claim session_text "Invalid UUID format for session identifier" in
  let? iat := time_claim "iat" fields "Missing or invalid 'iat' issued-at timestamp claim" in
  let? exp := time_claim "exp" fields "Missing or invalid 'exp' expiration timestamp claim" in
  let skew := clock_skew_tolerance options * ns_per_s in
  if i64 (from_seconds exp + skew) <? current_time options
  then Err (mkFault TokenIsExpired (String.append "Access token expired at epoch " (decimal_text exp))) else
  if i64 (current_time options + skew) <? from_seconds iat then malformed "Token issued in future beyond clock skew tolerance" else
  let? token_id := jti_claim fields in
  Ok (mkClaims iss aud user device session (from_seconds iat) (from_seconds exp) token_id (scopes_claim fields) (version_claim fields) (level_claim fields)).

Definition parse_payload_internal (options : TokenParseOptions) (payload_b64 : list ascii) : result TokenFault AccessTokenClaims :=
  match b64_decode payload_b64 with
  | None => malformed "Payload is not valid Base64URL"
  | Some raw =>
      match parse (chars (string_of raw)) with
      | Err what => malformed (String.append "Malformed JSON in token payload: " what)
      | Ok (JObject fields) => claims_of options fields
      | Ok _ => malformed "Token payload JSON must be an object"
      end
  end.

(** The text before the first dot, and the text after it. *)
Fixpoint cut (l : list ascii) : option (list ascii * list ascii) :=
  match l with
  | [] => None
  | c :: l => if Ascii.eqb c "." then Some ([], l) else match cut l with Some (a, b) => Some (c :: a, b) | None => None end
  end.

(** ** Signatures *)

Context {curves : Curves}.

Definition verify (key : list Z) (payload signature_base64url : list ascii) : bool :=
  match b64_decode signature_base64url with Some signature => ed25519_verify key signature (code <$> payload) | None => false end.

Definition parse_and_validate (key : list Z) (options : TokenParseOptions) (token : list ascii) : result TokenFault AccessTokenClaims :=
  match cut token with
  | None => malformed "Missing first segment delimiter in token"
  | Some (header, rest) =>
      match cut rest with
      | None => malformed "Missing second segment delimiter in token"
      | Some (payload, signature) =>
          if bool_decide (is_Some (cut signature)) then malformed "Extraneous token segments detected; expected 3 segments"
          else if bool_decide (signature = []) then Err (mkFault TokenBadSignature "Empty token signature")
          else if negb (verify key (header ++ "."%char :: payload) signature)
          then Err (mkFault TokenBadSignature "Cryptographic signature verification failed")
          else parse_payload_internal options payload
      end
  end.

Definition parse_unverified (options : TokenParseOptions) (token : list ascii) : result TokenFault AccessTokenClaims :=
  match cut token with
  | None => malformed "Missing first segment delimiter in token"
  | Some (_, rest) =>
      match cut rest with
      | None => malformed "Missing second segment delimiter in token"
      | Some (payload, _) => parse_payload_internal options payload
      end
  end.

(** The signature of OpenSSL; [None] stands for its exceptions. *)
Context (sign_raw : list Z -> option (list Z)).

Definition sign (payload : list ascii) : option (list ascii) := b64_encode <$> sign_raw (code <$> payload).

Definition serialize (key_id : string) (c : AccessTokenClaims) : option (list ascii) :=
  let header_b64 := b64_encode (code <$> dump (header_json key_id)) in
  let payload_b64 := b64_encode (code <$> dump (payload_json c)) in
  let signing_input := header_b64 ++ "."%char :: payload_b64 in
  signature ← sign signing_input; Some (signing_input ++ "."%char :: signature).
End envelope.

(** ** Encoding and decoding *)

(** Digits put side by side. *)
Lemma lor_digits k n v m : 0 <= m -> 0 <= n -> 0 <= v < 2 ^ n -> Z.lor (k * 2 ^ (n + m)) (v * 2 ^ m) = (k * 2 ^ n + v) * 2 ^ m.
Proof.
  intros Hm Hn Hv. rewrite Z.pow_add_r, Z.mul_assoc by done. rewrite <-!(Z.shiftl_mul_pow2 _ m), <-Z.shiftl_lor by done. by rewrite lor_shifted.
Qed.

Lemma land_ones_mod a n : 0 <= n -> Z.land a (2 ^ n - 1) = a mod 2 ^ n.
Proof. intros Hn. rewrite <-Z.land_ones by done. by rewrite Z.ones_equiv, Z.sub_1_r. Qed.

Lemma base64_char_spec i : 0 <= i < 64 -> base64_char_value (base64_char i) = i /\ base64_char i <> "="%char /\ base64_char i <> "."%char.
Proof.
  intros Hi. assert (H : forallb (fun n => (base64_char_value (base64_char (Z.of_nat n)) =? Z.of_nat n) &&
    negb (Ascii.eqb (base64_char (Z.of_nat n)) "=") && negb (Ascii.eqb (base64_char (Z.of_nat n)) ".")) (seq 0 64) = true) by (vm_compute; reflexivity).
  rewrite forallb_forall in H. specialize (H (Z.to_nat i)). rewrite in_seq in H. specialize (H ltac:(lia)).
  rewrite Z2Nat.id in H by lia. rewrite !andb_true_iff, !negb_true_iff, Z.eqb_eq in H. destruct H as [[Hv He] Hd]. split_and!; [done| |];
    intros Heq; rewrite Heq in *; discriminate.
Qed.

Definition is_sextet (c : ascii) : Prop := exists i, 0 <= i < 64 /\ c = base64_char i.

Lemma sextet_ok t shift : is_sextet (sextet t shift).
Proof. exists (Z.land (Z.shiftr t shift) 63). split; [|done]. rewrite (land_ones_mod _ 6) by done. by apply Z.mod_pos_bound. Qed.

Lemma sextet_value t shift : 0 <= shift -> base64_char_value (sextet t shift) = t / 2 ^ shift mod 64.
Proof.
  intros Hs. unfold sextet. rewrite (land_ones_mod _ 6), Z.shiftr_div_pow2 by done. apply base64_char_spec. by apply Z.mod_pos_bound.
Qed.

Lemma encode_sextets data : Forall is_sextet (b64_encode data).
Proof.
  revert data. fix IH 1. intros [|a [|b [|c data]]]; cbn [b64_encode]; repeat constructor; try apply sextet_ok. apply IH.
Qed.

Lemma values_sextets (chunk : list ascii) : Forall is_sextet chunk -> values chunk = Some (base64_char_value <$> chunk).
Proof.
  intros H. unfold values. replace (existsb _ _) with false; [done|]. symmetry. apply not_true_iff_false. rewrite existsb_exists.
  intros (v & Hv & Hneg). apply list_elem_of_In, list_elem_of_fmap in Hv as (c & -> & Hc). rewrite Forall_forall in H. destruct (H c Hc) as (i & Hi & ->).
  destruct (base64_char_spec i Hi) as (Hv & _). apply Z.ltb_lt in Hneg. lia.
Qed.

Lemma octet_value v shift : 0 <= shift -> octet v shift = v / 2 ^ shift mod 256.
Proof. intros Hs. unfold octet. by rewrite (land_ones_mod _ 8), Z.shiftr_div_pow2. Qed.

Lemma triple_value a b c : Uuid.is_byte a -> Uuid.is_byte b -> Uuid.is_byte c -> triple_of a b c = a * 65536 + b * 256 + c.
Proof.
  unfold Uuid.is_byte. intros Ha Hb Hc. unfold triple_of. rewrite !Z.shiftl_mul_pow2 by done.
  change (2 ^ 16) with (2 ^ (8 + 8)). rewrite (lor_digits a 8 b 8) by lia. rewrite lor_shifted by lia. lia.
Qed.

(** Four digits of six bits. *)
Lemma quad_value a b c d :
  0 <= b < 64 -> 0 <= c < 64 -> 0 <= d < 64 ->
  Z.lor (Z.lor (Z.lor (Z.shiftl a 18) (Z.shiftl b 12)) (Z.shiftl c 6)) d = ((a * 64 + b) * 64 + c) * 64 + d.
Proof.
  intros Hb Hc Hd. rewrite !Z.shiftl_mul_pow2 by done. change (2 ^ 18) with (2 ^ (6 + 12)). rewrite (lor_digits a 6 b 12) by lia.
  change (2 ^ 12) with (2 ^ (6 + 6)). rewrite (lor_digits _ 6 c 6) by lia. rewrite lor_shifted by lia. lia.
Qed.

Lemma tri_value a b c :
  0 <= b < 64 -> 0 <= c < 64 -> Z.lor (Z.lor (Z.shiftl a 12) (Z.shiftl b 6)) c = (a * 64 + b) * 64 + c.
Proof.
  intros Hb Hc. rewrite !Z.shiftl_mul_pow2 by done. change (2 ^ 12) with (2 ^ (6 + 6)). rewrite (lor_digits a 6 b 6) by lia. rewrite lor_shifted by lia. lia.
Qed.

Lemma digit_range t n : 0 <= t / n mod 64 < 64.
Proof. by apply Z.mod_pos_bound. Qed.

Lemma chunk_roundtrip a b c :
  Uuid.is_byte a -> Uuid.is_byte b -> Uuid.is_byte c -> let t := triple_of a b c in
  chunk_bytes (base64_char_value <$> [sextet t 18; sextet t 12; sextet t 6; sextet t 0]) = [a; b; c].
Proof.
  intros Ha Hb Hc. cbv zeta. cbn [fmap list_fmap chunk_bytes]. rewrite !sextet_value by done.
  rewrite quad_value by apply digit_range. rewrite !octet_value, triple_value by done. unfold Uuid.is_byte in *.
  change (2 ^ 0) with 1. change (2 ^ 6) with 64. change (2 ^ 8) with 256. change (2 ^ 12) with 4096. change (2 ^ 16) with 65536. change (2 ^ 18) with 262144.
  f_equal; [|f_equal; [|f_equal]]; Z.to_euclidean_division_equations; lia.
Qed.

Lemma chunk_roundtrip_2 a b :
  Uuid.is_byte a -> Uuid.is_byte b -> let t := triple_of a b 0 in chunk_bytes (base64_char_value <$> [sextet t 18; sextet t 12; sextet t 6]) = [a; b].
Proof.
  intros Ha Hb. cbv zeta. cbn [fmap list_fmap chunk_bytes]. rewrite !sextet_value by done.
  rewrite tri_value by apply digit_range.
  rewrite !octet_value, triple_value by done. unfold Uuid.is_byte in *.
  change (2 ^ 2) with 4. change (2 ^ 6) with 64. change (2 ^ 10) with 1024. change (2 ^ 12) with 4096. change (2 ^ 18) with 262144.
  f_equal; [|f_equal]; Z.to_euclidean_division_equations; lia.
Qed.

Lemma chunk_roundtrip_1 a : Uuid.is_byte a -> let t := triple_of a 0 0 in chunk_bytes (base64_char_value <$> [sextet t 18; sextet t 12]) = [a].
Proof.
  intros Ha. cbv zeta. cbn [fmap list_fmap chunk_bytes]. rewrite !sextet_value by done.
  rewrite Z.shiftl_mul_pow2 by done. rewrite lor_shifted by (done || apply digit_range). rewrite octet_value, triple_value by done. unfold Uuid.is_byte in *.
  change (2 ^ 4) with 16. change (2 ^ 6) with 64. change (2 ^ 12) with 4096. change (2 ^ 18) with 262144. f_equal. Z.to_euclidean_division_equations; lia.
Qed.

Lemma decode_encoded data : Forall Uuid.is_byte data -> decode_chunks (b64_encode data) = Some data.
Proof.
  revert data. fix IH 1. intros [|a [|b [|c data]]] H; [done|..].
  - apply Forall_cons in H as [Ha _]. cbn [b64_encode decode_chunks]. rewrite values_sextets by (repeat constructor; apply sextet_ok).
    cbn [fmap option_fmap option_map]. f_equal. by apply chunk_roundtrip_1.
  - apply Forall_cons in H as [Ha [Hb _]%Forall_cons]. cbn [b64_encode decode_chunks]. rewrite values_sextets by (repeat constructor; apply sextet_ok).
    cbn [fmap option_fmap option_map]. f_equal. by apply chunk_roundtrip_2.
  - apply Forall_cons in H as [Ha [Hb [Hc Hd]%Forall_cons]%Forall_cons]. cbn [b64_encode decode_chunks].
    rewrite values_sextets by (repeat constructor; apply sextet_ok). cbn [mbind option_bind]. rewrite (IH data Hd). cbn [mbind option_bind].
    f_equal. exact (f_equal (fun x => x ++ data) (chunk_roundtrip a b c Ha Hb Hc)).
Qed.

Lemma encode_length data : (length (b64_encode data) mod 4 <> 1)%nat.
Proof.
  revert data. fix IH 1. intros [|a [|b [|c data]]]; [discriminate..|]. cbn [b64_encode length].
  replace (S (S (S (S (length (b64_encode data)))))) with (length (b64_encode data) + 1 * 4)%nat by lia. rewrite Nat.Div0.mod_add. apply IH.
Qed.

(** Nothing is stripped from a text of digits. *)
Lemma strip_sextets l : Forall is_sextet l -> strip_padding l = l.
Proof.
  intros H. destruct l as [|c l]; [done|]. apply Forall_cons in H as [(i & Hi & ->) _]. cbn [strip_padding].
  destruct (Ascii.eqb_spec (base64_char i) "=") as [He|]; [|done]. by destruct (base64_char_spec i Hi) as (_ & [] & _).
Qed.

Lemma b64_roundtrip data : Forall Uuid.is_byte data -> b64_decode (b64_encode data) = Some data.
Proof.
  intros H. unfold b64_decode. rewrite strip_sextets by (apply Forall_rev, encode_sextets). rewrite rev_involutive. case_bool_decide as He.
  - destruct data as [|a [|b [|c data]]]; done.
  - rewrite (proj2 (Nat.eqb_neq _ _) (encode_length data)). by apply decode_encoded.
Qed.

Lemma encode_nonempty_b64 data : data <> [] -> b64_encode data <> [].
Proof. by destruct data as [|a [|b [|c data]]]. Qed.

(** ** Tokens *)

Lemma sextets_nodot l : Forall is_sextet l -> cut l = None /\ forall rest, cut (l ++ "."%char :: rest) = Some (l, rest).
Proof.
  induction 1 as [|c l (i & Hi & ->) _ [IH1 IH2]]; [done|]. destruct (base64_char_spec i Hi) as (_ & _ & Hdot). cbn [cut app].
  rewrite (proj2 (Ascii.eqb_neq _ _) Hdot), IH1. split; [done|]. intros rest. by rewrite IH2.
Qed.

Lemma cut_spec l a b : cut l = Some (a, b) -> l = a ++ "."%char :: b.
Proof.
  revert a b. induction l as [|c l IH]; intros a b; cbn [cut]; [done|]. destruct (Ascii.eqb_spec c ".") as [->|]; [by intros [= <- <-]|].
  destruct (cut l) as [[a' b']|]; [|done]. intros [= <- <-]. by rewrite (IH _ _ eq_refl).
Qed.

Lemma code_bytes l : Forall Uuid.is_byte (code <$> l).
Proof. apply Forall_fmap, Forall_true. intros c. apply code_range. Qed.

Lemma string_of_codes l : chars (string_of (code <$> l)) = l.
Proof.
  unfold string_of. rewrite chars_of_chars, <-list_fmap_compose. rewrite (list_fmap_ext _ id) by (intros ? c _; apply chr_code). apply list_fmap_id.
Qed.

(** What the claims say after they were written and read: times lose their fraction of a
    second. *)
Definition truncated (t : Z) : Z := to_seconds t * ns_per_s.

Definition as_sent (c : AccessTokenClaims) : AccessTokenClaims :=
  mkClaims (issuer c) (audience c) (cl_user_id c) (cl_device_id c) (cl_session_id c) (truncated (cl_issued_at c)) (truncated (cl_expires_at c))
    (jti c) (scopes c) (token_version c) (cl_authentication_level c).

(** Claims as the auth service makes them: identifiers of 16 bytes, and times after 1970
    that fit their type. *)
Record claims_wf (c : AccessTokenClaims) : Prop := {
  cw_user : Uuid.wf (uuid_bytes (cl_user_id c)); cw_device : Uuid.wf (uuid_bytes (cl_device_id c));
  cw_session : Uuid.wf (uuid_bytes (cl_session_id c)); cw_jti : Uuid.wf (uuid_bytes (jti c));
  cw_version : in_u32 (token_version c);
  cw_issued : 0 <= cl_issued_at c < 2 ^ 63; cw_expires : 0 <= cl_expires_at c < 2 ^ 63 }.

(** The checks of issuer and audience, and the time they are made at. *)
Record options_fit (options : TokenParseOptions) (c : AccessTokenClaims) : Prop := {
  of_issuer : expected_issuer options = EmptyString \/ issuer c = expected_issuer options;
  of_audience : expected_audience options = EmptyString \/ audience c = expected_audience options;
  of_skew : 0 <= clock_skew_tolerance options; of_now : 0 <= current_time options;
  of_now_fits : current_time options + clock_skew_tolerance options * ns_per_s < 2 ^ 63;
  of_expiry_fits : cl_expires_at c + clock_skew_tolerance options * ns_per_s < 2 ^ 63 }.

Lemma truncated_range t : 0 <= t < 2 ^ 63 -> 0 <= to_seconds t < 2 ^ 63 /\ 0 <= truncated t <= t.
Proof.
  intros Ht. unfold truncated, to_seconds, ns_per_s. rewrite Z.quot_div_nonneg by lia.
  Z.to_euclidean_division_equations; lia.
Qed.

Lemma from_to_seconds t : 0 <= t < 2 ^ 63 -> from_seconds (i64 (to_seconds t)) = truncated t.
Proof.
  intros Ht. destruct (truncated_range t Ht) as [Hs Hr]. rewrite i64_small by done. unfold from_seconds. fold (truncated t). apply i64_small. lia.
Qed.

Lemma parse_printed id : Uuid.wf (uuid_bytes id) -> parse_id (uuid_to_string id) = Some id.
Proof. intros Hid. unfold parse_id, uuid_to_string. rewrite Uuid.from_to_string by done. by destruct id. Qed.

Lemma level_printed l : parse_level (level_to_string l) = Some l.
Proof. by destruct l. Qed.

Lemma texts_of (l : list string) : omap text_value (JString <$> l) = l.
Proof. induction l as [|s l IH]; [done|]. cbn. f_equal. apply IH. Qed.

Section tokens.
Context (dump : json -> list ascii) (parse : list ascii -> result string json) (decimal_text : Z -> string) {curves : Curves}.
Context (sign_raw : list Z -> option (list Z)).

Definition payload_fields (c : AccessTokenClaims) : list (string * json) := match payload_json c with JObject fields => fields | _ => [] end.

(** The answer for claims that were written by [serialize]. *)
Definition expected (options : TokenParseOptions) (c : AccessTokenClaims) : result TokenFault AccessTokenClaims :=
  let skew := clock_skew_tolerance options * ns_per_s in
  if truncated (cl_expires_at c) + skew <? current_time options
  then Err (mkFault TokenIsExpired (String.append "Access token expired at epoch " (decimal_text (to_seconds (cl_expires_at c)))))
  else if current_time options + skew <? truncated (cl_issued_at c) then malformed "Token issued in future beyond clock skew tolerance"
  else Ok (as_sent c).

Lemma name_accepted found wanted : wanted = EmptyString \/ found = wanted -> negb (bool_decide (wanted = EmptyString)) && negb (bool_decide (found = wanted)) = false.
Proof. intros [-> | ->]; [done|]. rewrite (bool_decide_eq_true_2 (wanted = wanted)) by done. apply andb_false_r. Qed.

Lemma claims_read options c : claims_wf c -> options_fit options c -> claims_of decimal_text options (payload_fields c) = expected options c.
Proof.
  intros Hc Ho. destruct (truncated_range _ (cw_expires _ Hc)) as [Hes Her], (truncated_range _ (cw_issued _ Hc)) as [His Hir].
  pose proof (of_skew _ _ Ho). pose proof (of_now _ _ Ho). pose proof (of_now_fits _ _ Ho). pose proof (of_expiry_fits _ _ Ho). unfold ns_per_s in *.
  set (fields := payload_fields c). unfold claims_of.
  change (text_claim "iss" fields _) with (Ok (issuer c) : result TokenFault string). cbn [bind].
  rewrite (name_accepted _ _ (of_issuer _ _ Ho)).
  change (text_claim "aud" fields _) with (Ok (audience c) : result TokenFault string). cbn [bind].
  rewrite (name_accepted _ _ (of_audience _ _ Ho)).
  change (user_claim fields) with (Ok (uuid_to_string (cl_user_id c)) : result TokenFault string).
  change (text_claim "did" fields _) with (Ok (uuid_to_string (cl_device_id c)) : result TokenFault string).
  change (text_claim "sid" fields _) with (Ok (uuid_to_string (cl_session_id c)) : result TokenFault string).
  change (time_claim "iat" fields _) with (Ok (i64 (to_seconds (cl_issued_at c))) : result TokenFault Z).
  change (time_claim "exp" fields _) with (Ok (i64 (to_seconds (cl_expires_at c))) : result TokenFault Z).
  change (jti_claim fields) with (id_claim (uuid_to_string (jti c)) "Invalid UUID format for 'jti' claim").
  change (scopes_claim fields) with (omap text_value (JString <$> scopes c)).
  change (version_claim fields) with (if 0 <=? token_version c then u32 (token_version c) else 1).
  change (level_claim fields) with (default PrimaryOnly (parse_level (level_to_string (cl_authentication_level c)))).
  cbn [bind]. unfold id_claim. rewrite !parse_printed by apply Hc. cbn [bind].
  rewrite !from_to_seconds by apply Hc. rewrite (i64_small (to_seconds (cl_expires_at c))) by done.
  rewrite !i64_small by (unfold ns_per_s; lia). rewrite texts_of, level_printed. pose proof (cw_version _ Hc) as Hv.
  rewrite (proj2 (Z.leb_le _ _)) by apply Hv. by rewrite u32_small.
Qed.

(** The signatures of a private key, which its public key verifies. *)
Definition key_pair (key : list Z) : Prop :=
  forall msg, exists sig, sign_raw msg = Some sig /\ length sig = 64%nat /\ Forall Uuid.is_byte sig /\ ed25519_verify key sig msg = true.

Lemma serialized_parts key key_id c :
  key_pair key -> exists header payload signature, serialize dump sign_raw key_id c = Some (header ++ "."%char :: payload ++ "."%char :: signature) /\
    Forall is_sextet header /\ Forall is_sextet payload /\ Forall is_sextet signature /\ signature <> [] /\
    payload = b64_encode (code <$> dump (payload_json c)) /\ verify key (header ++ "."%char :: payload) signature = true.
Proof.
  intros Hk. unfold serialize, sign. set (header := b64_encode (code <$> dump (header_json key_id))). set (payload := b64_encode (code <$> dump (payload_json c))).
  destruct (Hk (code <$> (header ++ "."%char :: payload))) as (sig & -> & Hlen & Hb & Hv). exists header, payload, (b64_encode sig).
  cbn [fmap option_fmap option_map mbind option_bind]. split_and!; [by rewrite <-app_assoc|apply encode_sextets..| |done|].
  - apply encode_nonempty_b64. by intros ->.
  - unfold verify. by rewrite b64_roundtrip.
Qed.

Lemma payload_read options c :
  parse (dump (payload_json c)) = Ok (payload_json c) -> claims_wf c -> options_fit options c ->
  parse_payload_internal parse decimal_text options (b64_encode (code <$> dump (payload_json c))) = expected options c.
Proof.
  intros Hj Hc Ho. unfold parse_payload_internal. rewrite b64_roundtrip, string_of_codes, Hj by apply code_bytes. by apply claims_read.
Qed.

(** ** What an accepted token is *)

(** The claims [c] stand in a payload under a signature that the key verifies; issuer and
    audience are the expected ones, and the time lies between issue and expiry up to the
    tolerance. *)
Definition certified (key : list Z) (options : TokenParseOptions) (token : list ascii) (c : AccessTokenClaims) : Prop :=
  exists header payload signature sig raw fields iat exp,
    token = header ++ "."%char :: payload ++ "."%char :: signature /\
    b64_decode signature = Some sig /\ ed25519_verify key sig (code <$> (header ++ "."%char :: payload)) = true /\
    b64_decode payload = Some raw /\ parse (chars (string_of raw)) = Ok (JObject fields) /\
    (field "iss" fields = Some (JString (issuer c)) /\ (expected_issuer options = EmptyString \/ issuer c = expected_issuer options)) /\
    (field "aud" fields = Some (JString (audience c)) /\ (expected_audience options = EmptyString \/ audience c = expected_audience options)) /\
    (exists text, user_claim fields = Ok text /\ parse_id text = Some (cl_user_id c)) /\
    (exists text, field "did" fields = Some (JString text) /\ parse_id text = Some (cl_device_id c)) /\
    (exists text, field "sid" fields = Some (JString text) /\ parse_id text = Some (cl_session_id c)) /\
    cl_authentication_level c = level_claim fields /\ scopes c = scopes_claim fields /\
    (field "iat" fields ≫= integer_value) = Some iat /\ (field "exp" fields ≫= integer_value) = Some exp /\
    cl_issued_at c = from_seconds iat /\ cl_expires_at c = from_seconds exp /\
    current_time options <= i64 (from_seconds exp + clock_skew_tolerance options * ns_per_s) /\
    from_seconds iat <= i64 (current_time options + clock_skew_tolerance options * ns_per_s).

Lemma text_claim_spec name fields missing s : text_claim name fields missing = Ok s -> field name fields = Some (JString s).
Proof. unfold text_claim. destruct (field name fields) as [[]|]; cbn; intros H; try discriminate H. by injection H as ->. Qed.

Lemma id_claim_spec text bad id : id_claim text bad = Ok id -> parse_id text = Some id.
Proof. unfold id_claim. destruct (parse_id text); [by intros [= ->]|done]. Qed.

Lemma name_checked found wanted : negb (bool_decide (wanted = EmptyString)) && negb (bool_decide (found = wanted)) = false -> wanted = EmptyString \/ found = wanted.
Proof. intros [H|H]%andb_false_iff; apply negb_false_iff, bool_decide_eq_true in H; auto. Qed.

Lemma parse_certified key options token c : parse_and_validate parse decimal_text key options token = Ok c -> certified key options token c.
Proof.
  unfold parse_and_validate. destruct (cut token) as [[header rest]|] eqn:E1; [|done]. destruct (cut rest) as [[payload signature]|] eqn:E2; [|done].
  apply cut_spec in E1, E2. case_bool_decide; [done|]. case_bool_decide; [done|]. unfold verify. destruct (b64_decode signature) as [sig|] eqn:Es; [|done].
  destruct (ed25519_verify _ _ _) eqn:Ev; [|done]. cbn [negb]. unfold parse_payload_internal. destruct (b64_decode payload) as [raw|] eqn:Ep; [|done].
  destruct (parse (chars (string_of raw))) as [[| | | | | |fields]|] eqn:Ej; try done. unfold claims_of. intros Hc.
  apply bind_ok in Hc as (iss & Hiss%text_claim_spec & Hc). destruct (negb _ && _) eqn:Ni in Hc; [done|]. apply name_checked in Ni.
  apply bind_ok in Hc as (aud & Haud%text_claim_spec & Hc). destruct (negb _ && _) eqn:Na in Hc; [done|]. apply name_checked in Na.
  apply bind_ok in Hc as (ut & Hut & Hc). apply bind_ok in Hc as (user & Hu%id_claim_spec & Hc).
  apply bind_ok in Hc as (dt & Hdt%text_claim_spec & Hc). apply bind_ok in Hc as (dev & Hd%id_claim_spec & Hc).
  apply bind_ok in Hc as (st & Hst%text_claim_spec & Hc). apply bind_ok in Hc as (sess & Hs%id_claim_spec & Hc).
  apply bind_ok in Hc as (iat & Hiat & Hc). apply bind_ok in Hc as (exp & Hexp & Hc).
  destruct (Z.ltb_spec (i64 (from_seconds exp + clock_skew_tolerance options * ns_per_s)) (current_time options)) as [|Hne]; [done|].
  destruct (Z.ltb_spec (i64 (current_time options + clock_skew_tolerance options * ns_per_s)) (from_seconds iat)) as [|Hni]; [done|].
  apply bind_ok in Hc as (tid & _ & Hc). injection Hc as <-. exists header, payload, signature, sig, raw, fields, iat, exp.
  unfold time_claim in *. cbn. split_and!; try done.
  - by subst.
  - by exists ut.
  - by exists dt.
  - by exists st.
  - destruct (field "iat" fields ≫= integer_value); [by injection Hiat as ->|done].
  - destruct (field "exp" fields ≫= integer_value); [by injection Hexp as ->|done].
Qed.

(** C37.  What the auth service writes into an access token, whoever verifies the token
    with the service's public key reads back: the text [serialize] makes of claims is
    accepted from (up to the tolerance) its issue to its expiry with exactly those claims,
    the two times cut to whole seconds, refused as expired after that and as malformed
    before.  [parse_unverified] reads the same.  The claims are those of a real token
    (identifiers of 16 bytes, times after 1970 that fit their type); the JSON library
    reads the payload it printed, and the public key verifies the signatures made with the
    private key. *)
Theorem access_token_roundtrip key key_id options c
    (Hkey : key_pair key) (Hjson : parse (dump (payload_json c)) = Ok (payload_json c)) (Hc : claims_wf c) (Ho : options_fit options c) :
  exists token, serialize dump sign_raw key_id c = Some token /\
    parse_and_validate parse decimal_text key options token = expected options c /\
    parse_unverified parse decimal_text options token = expected options c /\
    (parse_and_validate parse decimal_text key options token = Ok (as_sent c) <->
       truncated (cl_issued_at c) <= current_time options + clock_skew_tolerance options * ns_per_s /\
       current_time options <= truncated (cl_expires_at c) + clock_skew_tolerance options * ns_per_s).
Proof.
  destruct (serialized_parts key key_id c Hkey) as (header & payload & signature & -> & Hh & Hp & Hs & Hne & Hpay & Hv).
  set (token := header ++ _). exists token. split; [done|].
  assert (H1 : parse_and_validate parse decimal_text key options token = expected options c).
  { unfold parse_and_validate, token. rewrite (proj2 (sextets_nodot _ Hh)), (proj2 (sextets_nodot _ Hp)), (proj1 (sextets_nodot _ Hs)).
    rewrite bool_decide_eq_false_2 by apply is_Some_None. rewrite bool_decide_eq_false_2 by done. rewrite Hv, Hpay. by apply payload_read. }
  split; [done|]. split.
  - unfold parse_unverified, token. rewrite (proj2 (sextets_nodot _ Hh)), (proj2 (sextets_nodot _ Hp)), Hpay. by apply payload_read.
  - rewrite H1. unfold expected. destruct (Z.ltb_spec (truncated (cl_expires_at c) + clock_skew_tolerance options * ns_per_s) (current_time options)); [split; [done|lia]|].
    destruct (Z.ltb_spec (current_time options + clock_skew_tolerance options * ns_per_s) (truncated (cl_issued_at c))); split; [done|lia|done..].
Qed.
End tokens.

(** ** A token to look at *)

Module TokenExample.

Definition id_of (n : Z) : uuid := mkUuid (replicate 15 7 ++ [n]).

Lemma id_wf n : 0 <= n < 256 -> Uuid.wf (uuid_bytes (id_of n)).
Proof. intros Hn. split; [reflexivity|]. apply Forall_app. split; [by apply Forall_replicate|]. by apply Forall_singleton. Qed.

Definition sample : AccessTokenClaims :=
  mkClaims "https://auth.securecloud.io" "https://gateway.securecloud.io" (id_of 1) (id_of 2) (id_of 3) 1700000000123456789 1700000900123456789
    (id_of 4) ["access"; "files:read"]%string 1 MfaVerified.

Definition quote : ascii := "034"%char.
Definition quoted (s : string) : list ascii := quote :: chars s ++ [quote].

(** JSON without characters that need an escape. *)
Fixpoint print (j : json) : list ascii :=
  let comma (a b : list ascii) := a ++ ","%char :: b in
  match j with
  | JNull => chars "null"
  | JBool b => chars (if b then "true" else "false")
  | JString s => quoted s
  | JInteger z | JFloat z => chars (decimal z)
  | JArray l => "["%char :: foldr comma [] (map print l) ++ ["]"%char]
  | JObject l => "{"%char :: foldr comma [] (map (fun f => quoted f.1 ++ ":"%char :: print f.2) l) ++ ["}"%char]
  end.

Definition read (text : list ascii) : result string json :=
  if bool_decide (text = print (payload_json sample)) then Ok (payload_json sample) else Err "syntax error"%string.

(** Every key signs with the sum of the bytes. *)
Definition signature_of (msg : list Z) : list Z := replicate 64 (foldr Z.add 0 msg mod 256).

#[export] Instance sums : Curves := mkCurves (fun _ => true) (fun _ => true) (fun _ sig msg => bool_decide (sig = signature_of msg)).

Definition at_second (n : Z) : TokenParseOptions :=
  mkParseOptions "https://auth.securecloud.io" "https://gateway.securecloud.io" 30 (n * ns_per_s).
End TokenExample.

#[local] Existing Instance TokenExample.sums.

Lemma access_token_roundtrip_witness :
  exists token, serialize TokenExample.print (fun msg => Some (TokenExample.signature_of msg)) "k1" TokenExample.sample = Some token /\
    parse_and_validate TokenExample.read decimal [] (TokenExample.at_second 1700000930) token = Ok (as_sent TokenExample.sample).
Proof.
  destruct (access_token_roundtrip TokenExample.print TokenExample.read decimal (fun msg => Some (TokenExample.signature_of msg)) [] "k1"
    (TokenExample.at_second 1700000930) TokenExample.sample) as (token & Ht & _ & _ & Hok).
  - intros msg. exists (TokenExample.signature_of msg). split; [reflexivity|]. split; [apply length_replicate|]. split; [|apply bool_decide_eq_true_2; reflexivity].
    apply Forall_replicate. apply Z.mod_pos_bound. reflexivity.
  - vm_compute. reflexivity.
  - constructor; try (apply TokenExample.id_wf; lia); (split; [vm_compute; congruence|reflexivity]).
  - constructor; try (right; reflexivity); try reflexivity; vm_compute; congruence.
  - exists token. split; [exact Ht|]. apply Hok. vm_compute. split; congruence.
Defined.
