(* ===== verification/AuthInv.v ===== *)
(** * What the store of the auth service keeps to

    The invariant of the tables and the relation between the store before and after
    any step of any handler, with a lemma for every repository call.  The
    rely-guarantee logic of [Prog] is instantiated with the two.

    What can be taken once stands at the end: a refresh token is rotated once, a challenge
    completed once, a one-time prekey handed out once; each is a row that leaves its first
    status for good.  Rules for calls in the ownership logic of [Prog]. *)

From S2P Require Import Prelude Ids Bytes Prog AccessTokens AuthStore AuthTokens.
#[local] Open Scope Z_scope.

(** ** Rows only move forward *)

Definition map_later `{Countable K} {A} (R : A -> A -> Prop) (m m' : gmap K A) : Prop :=
  forall k x, m !! k = Some x -> exists y, m' !! k = Some y /\ R x y.

Section map_later.
Context `{Countable K} {A : Type} (R : A -> A -> Prop) `{!PreOrder R}.

#[export] Instance map_later_preorder : PreOrder (map_later (K := K) R).
Proof.
  split.
  - intros m k x Hx. by exists x.
  - intros m1 m2 m3 H12 H23 k x Hx. destruct (H12 k x Hx) as (y & Hy & Hxy). destruct (H23 k y Hy) as (z & Hz & Hyz).
    exists z. split; [done|]. by transitivity y.
Qed.

Lemma map_later_fresh (m : gmap K A) k x : m !! k = None -> map_later R m (<[k := x]> m).
Proof. intros Hk i y Hi. exists y. split; [|done]. rewrite lookup_insert_ne; [done|]. by intros ->; rewrite Hi in Hk. Qed.

Lemma map_later_insert (m : gmap K A) k x y : m !! k = Some x -> R x y -> map_later R m (<[k := y]> m).
Proof.
  intros Hk Hxy i z Hi. destruct (decide (i = k)) as [->|Hne].
  - exists y. rewrite lookup_insert_eq. split; [done|]. by rewrite Hk in Hi; injection Hi as <-.
  - exists z. by rewrite lookup_insert_ne.
Qed.

Lemma map_later_update (m : gmap K A) p f : (forall x, p x = true -> R x (f x)) -> map_later R m (sql_update p f m).
Proof.
  intros Hf k x Hk. exists (if p x then f x else x). unfold sql_update. rewrite lookup_fmap, Hk. split; [done|].
  destruct (p x) eqn:E; [by apply Hf|done].
Qed.
End map_later.

Record token_later (t t' : RefreshTokenEntity) : Prop := {
  tl_id : rt_refresh_token_id t' = rt_refresh_token_id t;
  tl_session : rt_session_id t' = rt_session_id t;
  tl_device : rt_device_id t' = rt_device_id t;
  tl_verifier : rt_token_verifier t' = rt_token_verifier t;
  tl_frozen : rt_token_status t <> TokenActive -> t' = t }.

Record session_later (x x' : SessionEntity) : Prop := {
  sl_id : se_session_id x' = se_session_id x;
  sl_user : se_user_id x' = se_user_id x;
  sl_device : se_device_id x' = se_device_id x;
  sl_expires : se_expires_at x' = se_expires_at x;
  sl_revoked : se_session_status x = SessionRevoked -> se_session_status x' = SessionRevoked;
  sl_ended : se_session_status x <> SessionActive -> se_session_status x' <> SessionActive;
  sl_level : se_authentication_level x = MfaVerified -> se_authentication_level x' = MfaVerified }.

Record device_later (d d' : DeviceEntity) : Prop := {
  dl_user : dv_user_id d' = dv_user_id d;
  dl_revoked : dv_device_status d = DeviceRevoked -> dv_device_status d' = DeviceRevoked;
  dl_pending : dv_device_status d' = DevicePendingAuthorization -> dv_device_status d = DevicePendingAuthorization }.

Record challenge_later (c c' : MfaChallengeEntity) : Prop := {
  cl_user : ch_user_id c' = ch_user_id c;
  cl_session : ch_session_id c' = ch_session_id c;
  cl_frozen : ch_challenge_status c <> ChallengePending -> c' = c }.

Record configuration_later (c c' : MfaConfigurationEntity) : Prop := {
  col_user : mc_user_id c' = mc_user_id c;
  col_secret : mc_encrypted_secret c' = mc_encrypted_secret c;
  col_version : mc_version c <= mc_version c' }.

Record user_later (u u' : UserEntity) : Prop := {
  ul_id : us_user_id u' = us_user_id u;
  ul_version : us_version u <= us_version u' }.

(** A key that is not active any more never is again, and keeps its bytes. *)
Record key_later (k k' : DevicePublicKeyEntity) : Prop := {
  kl_id : pk_key_id k' = pk_key_id k;
  kl_device : pk_device_id k' = pk_device_id k;
  kl_type : pk_key_type k' = pk_key_type k;
  kl_bytes : pk_public_key k' = pk_public_key k;
  kl_signature : pk_signature k' = pk_signature k;
  kl_frozen : pk_key_status k <> KeyActive -> k' = k }.

#[export] Instance token_later_preorder : PreOrder token_later.
Proof.
  split; [by constructor|]. intros t1 t2 t3 [] []. constructor; [congruence..|]. intros Hne.
  specialize (tl_frozen0 Hne) as ->. by apply tl_frozen1.
Qed.
#[export] Instance session_later_preorder : PreOrder session_later.
Proof. split; [by constructor|]. intros x1 x2 x3 [] []. constructor; try congruence; auto. Qed.
#[export] Instance device_later_preorder : PreOrder device_later.
Proof. split; [by constructor|]. intros x1 x2 x3 [] []. constructor; try congruence; auto. Qed.
#[export] Instance challenge_later_preorder : PreOrder challenge_later.
Proof.
  split; [by constructor|]. intros t1 t2 t3 [] []. constructor; [congruence..|]. intros Hne.
  specialize (cl_frozen0 Hne) as ->. by apply cl_frozen1.
Qed.

#[export] Instance configuration_later_preorder : PreOrder configuration_later.
Proof. split; [by constructor|]. intros c1 c2 c3 [] []. constructor; [congruence..|lia]. Qed.

#[export] Instance user_later_preorder : PreOrder user_later.
Proof. split; [by constructor|]. intros c1 c2 c3 [] []. constructor; [congruence|lia]. Qed.
#[export] Instance key_later_preorder : PreOrder key_later.
Proof.
  split; [by constructor|]. intros t1 t2 t3 [] []. constructor; [congruence..|]. intros Hne.
  specialize (kl_frozen0 Hne) as ->. by apply kl_frozen1.
Qed.

Record auth_later (s s' : Auth) : Prop := {
  al_devices : map_later device_later (devices s) (devices s');
  al_sessions : map_later session_later (sessions s) (sessions s');
  al_tokens : map_later token_later (refresh_tokens s) (refresh_tokens s');
  al_challenges : map_later challenge_later (mfa_challenges s) (mfa_challenges s');
  al_published : published s `prefix_of` published s';
  al_configurations : map_later configuration_later (mfa_configurations s) (mfa_configurations s');
  al_users : map_later user_later (users s) (users s');
  al_keys : map_later key_later (device_public_keys s) (device_public_keys s') }.

#[export] Instance auth_later_preorder : PreOrder auth_later.
Proof. split; [by constructor|]. intros s1 s2 s3 [] []. constructor; by etransitivity. Qed.

(** ** The invariant of the tables *)

Section inv.
Context {curves : Curves}.

Record token_ok (s : Auth) (id : uuid) (t : RefreshTokenEntity) : Prop := {
  to_key : rt_refresh_token_id t = id;
  to_session : exists x, sessions s !! rt_session_id t = Some x /\ se_device_id x = rt_device_id t;
  to_rotated : rt_token_status t = TokenRotated <-> is_Some (rt_replaced_by_token_id t);
  to_dated : rt_token_status t = TokenRotated -> is_Some (rt_rotated_at t);
  to_successor : forall n, rt_replaced_by_token_id t = Some n ->
    exists t', refresh_tokens s !! n = Some t' /\ rt_session_id t' = rt_session_id t }.

Record session_ok (s : Auth) (id : uuid) (x : SessionEntity) : Prop := {
  so_key : se_session_id x = id;
  so_device : exists d, devices s !! se_device_id x = Some d /\ dv_user_id d = se_user_id x;
  so_level : se_authentication_level x = MfaVerified ->
    exists i c, mfa_challenges s !! i = Some c /\ ch_session_id c = id /\ ch_challenge_status c = ChallengeCompleted }.

(** A signed prekey is signed by an identity key of its device. *)
Definition signed_ok (s : Auth) (k : DevicePublicKeyEntity) : Prop :=
  pk_key_type k = SignedPrekey ->
  exists i id_key, device_public_keys s !! i = Some id_key /\ pk_device_id id_key = pk_device_id k /\
    pk_key_type id_key = IdentitySigning /\
    validate_signed_prekey_signature (pk_public_key id_key) (pk_public_key k) (default [] (pk_signature k)) = true.

Record auth_inv (s : Auth) : Prop := {
  ai_tokens : forall id t, refresh_tokens s !! id = Some t -> token_ok s id t;
  ai_sessions : forall id x, sessions s !! id = Some x -> session_ok s id x;
  ai_verifiers : forall id id' t t', refresh_tokens s !! id = Some t -> refresh_tokens s !! id' = Some t' ->
    rt_token_verifier t = rt_token_verifier t' -> id = id';
  ai_predecessor : forall id id' t t' n, refresh_tokens s !! id = Some t -> refresh_tokens s !! id' = Some t' ->
    rt_replaced_by_token_id t = Some n -> rt_replaced_by_token_id t' = Some n -> id = id';
  ai_keys : forall id k, device_public_keys s !! id = Some k -> pk_key_id k = id /\ signed_ok s k;
  ai_devices : forall id d, devices s !! id = Some d -> dv_device_id d = id }.

(** What a call may do to the store. *)
Definition moves (s s' : Auth) : Prop := auth_inv s' /\ auth_later s s'.

Lemma moves_refl s : auth_inv s -> moves s s.
Proof. by split. Qed.

Lemma later_committed {A} (t : Auth -> Answer A) s :
  auth_inv s -> (is_ok (fst (t s)) = true -> moves s (snd (t s))) -> moves s (committed t s).
Proof. intros HI Ht. unfold committed. destruct (t s) as [[a|e] s']; cbn in *; [by apply Ht|by apply moves_refl]. Qed.

(** ** One table at a time *)

Lemma session_ok_devices s s' id x :
  map_later device_later (devices s) (devices s') -> map_later challenge_later (mfa_challenges s) (mfa_challenges s') ->
  session_ok s id x -> session_ok s' id x.
Proof.
  intros Hd Hc []. constructor; [done|..].
  - destruct so_device0 as (d & Hx & Hu). destruct (Hd _ _ Hx) as (d' & ? & []). exists d'. split; [done|congruence].
  - intros Hl. destruct (so_level0 Hl) as (i & c & Hi & Hs & Hst). destruct (Hc _ _ Hi) as (c' & ? & []). exists i, c'.
    rewrite cl_frozen0 by congruence. split_and!; [|done..]. by rewrite <- cl_frozen0 by congruence.
Qed.

Lemma token_ok_sessions s s' id t :
  map_later session_later (sessions s) (sessions s') -> refresh_tokens s' = refresh_tokens s ->
  token_ok s id t -> token_ok s' id t.
Proof.
  intros Hs Ht []. constructor; [done| |done|done|by rewrite Ht].
  destruct to_session0 as (x & Hx & Hd). destruct (Hs _ _ Hx) as (y & ? & []). exists y. split; [done|congruence].
Qed.

(** Everything but the refresh tokens may move. *)
Lemma moves_but_tokens s s' :
  auth_inv s -> auth_later s s' -> refresh_tokens s' = refresh_tokens s ->
  (forall id x, sessions s' !! id = Some x -> session_ok s' id x) ->
  (forall id k, device_public_keys s' !! id = Some k -> pk_key_id k = id /\ signed_ok s' k) ->
  (forall id d, devices s' !! id = Some d -> dv_device_id d = id) -> moves s s'.
Proof.
  intros HI Hl Ht Hx Hk Hd. split; [|done]. destruct Hl. constructor; [|done|rewrite Ht; apply HI..|done|done].
  intros id t Hid. rewrite Ht in Hid. eapply token_ok_sessions; [done|done|]. by apply HI.
Qed.

Lemma moves_devices s m :
  auth_inv s -> map_later device_later (devices s) m -> (forall id d, m !! id = Some d -> dv_device_id d = id) -> moves s (set_devices m s).
Proof.
  intros HI Hm Hk. apply moves_but_tokens; [done|by constructor|done| |apply HI|done]. intros id x Hx.
  eapply (session_ok_devices s); [done|done|]. by apply HI.
Qed.

Lemma moves_sessions s m :
  auth_inv s -> map_later session_later (sessions s) m -> (forall id x, m !! id = Some x -> session_ok s id x) ->
  moves s (set_sessions m s).
Proof.
  intros HI Hm Hok. apply moves_but_tokens; [done|by constructor|done| |apply HI|apply HI]. intros id x Hx. by apply (session_ok_devices s), Hok.
Qed.

Lemma moves_challenges s m : auth_inv s -> map_later challenge_later (mfa_challenges s) m -> moves s (set_mfa_challenges m s).
Proof.
  intros HI Hm. apply moves_but_tokens; [done|by constructor|done| |apply HI|apply HI]. intros id x Hx.
  eapply (session_ok_devices s); [done|done|]. by apply HI.
Qed.

(** The memory of the manager and the publisher are in no invariant. *)
Lemma moves_memory s s' :
  auth_inv s -> devices s' = devices s -> sessions s' = sessions s -> refresh_tokens s' = refresh_tokens s ->
  mfa_challenges s' = mfa_challenges s -> mfa_configurations s' = mfa_configurations s ->
  users s' = users s -> device_public_keys s' = device_public_keys s ->
  published s `prefix_of` published s' -> moves s s'.
Proof.
  intros HI Hd Hs Ht Hc Hm Hu Hk Hp. apply moves_but_tokens; [done| |done| |unfold signed_ok; rewrite Hk; apply HI|rewrite Hd; apply HI].
  - constructor; [by rewrite Hd|by rewrite Hs|by rewrite Ht|by rewrite Hc|done|by rewrite Hm|by rewrite Hu|by rewrite Hk].
  - intros id x Hx. rewrite Hs in Hx. apply (session_ok_devices s); [by rewrite Hd|by rewrite Hc|by apply HI].
Qed.

Lemma moves_configurations s m :
  auth_inv s -> map_later configuration_later (mfa_configurations s) m -> moves s (set_mfa_configurations m s).
Proof.
  intros HI Hm. apply moves_but_tokens; [done|by constructor|done| |apply HI|apply HI]. intros id x Hx.
  eapply (session_ok_devices s); [done|done|]. by apply HI.
Qed.

Lemma moves_users s m : auth_inv s -> map_later user_later (users s) m -> moves s (set_users m s).
Proof.
  intros HI Hm. apply moves_but_tokens; [done|by constructor|done| |apply HI|apply HI]. intros id x Hx.
  eapply (session_ok_devices s); [done|done|]. by apply HI.
Qed.

Lemma moves_keys s m :
  auth_inv s -> map_later key_later (device_public_keys s) m ->
  (forall id k, m !! id = Some k -> pk_key_id k = id /\ signed_ok (set_device_public_keys m s) k) ->
  moves s (set_device_public_keys m s).
Proof.
  intros HI Hm Hk. apply moves_but_tokens; [done|by constructor|done| |done|apply HI]. intros id x Hx.
  eapply (session_ok_devices s); [done|done|]. by apply HI.
Qed.

Lemma moves_tokens s m :
  auth_inv s -> map_later token_later (refresh_tokens s) m ->
  (forall id t, m !! id = Some t -> token_ok (set_refresh_tokens m s) id t) ->
  (forall id id' t t', m !! id = Some t -> m !! id' = Some t' -> rt_token_verifier t = rt_token_verifier t' -> id = id') ->
  (forall id id' t t' n, m !! id = Some t -> m !! id' = Some t' ->
    rt_replaced_by_token_id t = Some n -> rt_replaced_by_token_id t' = Some n -> id = id') ->
  moves s (set_refresh_tokens m s).
Proof.
  intros HI Hm Hok Hv Hp. split; [|by constructor]. constructor; [done| |done|done|apply HI|apply HI].
  intros id x Hx. apply (session_ok_devices s); [done|done|]. by apply HI.
Qed.

(** ** Devices and sessions *)

Lemma sql_row_Some `{Countable K} {A} (id : K) (p : A -> bool) (t : gmap K A) x :
  sql_row id p t = Some x <-> t !! id = Some x /\ p x = true.
Proof. unfold sql_row. rewrite bind_Some. split; [intros (y & Hy & Hp); destruct (p y) eqn:E; by simplify_eq|intros [Hx Hp]; exists x; by rewrite Hp]. Qed.

Lemma keyed_insert s id d :
  auth_inv s -> dv_device_id d = id -> forall i x, <[id := d]> (devices s) !! i = Some x -> dv_device_id x = i.
Proof. intros HI Hd i x [(-> & <-)|(_ & Hx)]%lookup_insert_Some; [done|by apply HI]. Qed.

Lemma register_device_moves d s : auth_inv s -> moves s (committed (register_device d) s).
Proof.
  intros HI. apply later_committed; [done|]. unfold register_device. repeat case_bool_decide; cbn; try done. intros _.
  apply moves_devices; [done| |by apply keyed_insert]. apply (map_later_fresh device_later). by apply eq_None_not_Some.
Qed.

Lemma authorize_device_moves id t s : auth_inv s -> moves s (committed (authorize_device id t) s).
Proof.
  intros HI. apply later_committed; [done|]. unfold authorize_device. destruct (sql_row _ _ _) as [d|] eqn:E; [|done]. intros _.
  apply sql_row_Some in E as [E Hst%bool_decide_eq_true]. apply moves_devices; [done| |apply keyed_insert; [done|exact (ai_devices _ HI _ _ E)]]. eapply (map_later_insert device_later); [done|].
  constructor; cbn; congruence.
Qed.

Lemma revoke_device_moves id r t n s : auth_inv s -> moves s (committed (revoke_device id r t n) s).
Proof.
  intros HI. apply later_committed; [done|]. unfold revoke_device. destruct (devices s !! id) as [d|] eqn:E; [|done]. intros _.
  apply moves_devices; [done| |apply keyed_insert; [done|exact (ai_devices _ HI _ _ E)]]. eapply (map_later_insert device_later); [done|]. by constructor.
Qed.

Lemma update_last_authenticated_moves id t n s : auth_inv s -> moves s (committed (update_last_authenticated id t n) s).
Proof.
  intros HI. apply later_committed; [done|]. unfold update_last_authenticated. destruct (sql_row _ _ _) as [d|] eqn:E; [|done]. intros _.
  apply sql_row_Some in E as [E _]. apply moves_devices; [done| |apply keyed_insert; [done|exact (ai_devices _ HI _ _ E)]]. eapply (map_later_insert device_later); [done|]. by constructor.
Qed.

(** A row that moves keeps what its session must satisfy, unless it gains assurance. *)
Lemma session_ok_later s id x y :
  session_ok s id x -> session_later x y -> (se_authentication_level y = MfaVerified -> se_authentication_level x = MfaVerified) ->
  session_ok s id y.
Proof.
  intros [Hk (d & Hd & Hu) Hlv] [] Hl. constructor; [congruence| |by intros ?%Hl%Hlv]. exists d. split; congruence.
Qed.

Lemma moves_session s id x y :
  auth_inv s -> sessions s !! id = Some x -> session_later x y ->
  (se_authentication_level y = MfaVerified -> se_authentication_level x = MfaVerified) ->
  moves s (set_sessions (<[id := y]> (sessions s)) s).
Proof.
  intros HI Hx Hl Hv. apply moves_sessions; [done|by eapply (map_later_insert session_later)|].
  intros i z [(-> & <-)|(_ & Hz)]%lookup_insert_Some; [|by apply HI]. eapply session_ok_later; [by apply HI|done|done].
Qed.

Lemma session_ended x st at_ :
  st <> SessionActive -> (se_session_status x = SessionRevoked -> st = SessionRevoked) -> session_later x (set_session_status st at_ x).
Proof. intros Hst Hr. by constructor. Qed.

Lemma moves_session_update s p f :
  auth_inv s -> (forall x, p x = true -> session_later x (f x) /\ se_authentication_level (f x) = se_authentication_level x) ->
  moves s (set_sessions (sql_update p f (sessions s)) s).
Proof.
  intros HI Hf. apply moves_sessions; [done|apply (map_later_update session_later); intros x Hx; by apply Hf|].
  intros id y Hy. unfold sql_update in Hy. rewrite lookup_fmap in Hy. apply fmap_Some in Hy as (x & Hx & ->).
  destruct (p x) eqn:E; [|by apply HI]. destruct (Hf x E) as [Hl Hv]. eapply session_ok_later; [by apply HI|done|congruence].
Qed.

Lemma create_session_moves x s :
  auth_inv s -> (exists d, devices s !! se_device_id x = Some d /\ dv_user_id d = se_user_id x) ->
  se_authentication_level x = PrimaryOnly -> moves s (committed (create_session x) s).
Proof.
  intros HI Hd Hl. apply later_committed; [done|]. unfold create_session. case_bool_decide as Hnew; [done|].
  destruct (negb _); [done|]. intros _. apply eq_None_not_Some in Hnew.
  apply moves_sessions; [done|by apply (map_later_fresh session_later)|].
  intros id y [(<- & <-)|(_ & Hy)]%lookup_insert_Some; [|by apply HI]. constructor; [done|done|]. cbn. congruence.
Qed.

Lemma update_authentication_level_moves id s :
  auth_inv s -> (exists i c, mfa_challenges s !! i = Some c /\ ch_session_id c = id /\ ch_challenge_status c = ChallengeCompleted) ->
  moves s (committed (update_authentication_level id MfaVerified) s).
Proof.
  intros HI Hc. apply later_committed; [done|]. unfold update_authentication_level.
  destruct (sql_row _ _ _) as [x|] eqn:E; [|done]. apply sql_row_Some in E as [E _]. intros _.
  apply moves_sessions; [done|eapply (map_later_insert session_later); [done|by constructor]|].
  intros i y [(<- & <-)|(_ & Hy)]%lookup_insert_Some; [|by apply HI]. destruct (ai_sessions _ HI _ _ E). by constructor.
Qed.

Lemma revoke_session_atomic_moves id t s : auth_inv s -> moves s (committed (revoke_session_atomic id t) s).
Proof.
  intros HI. apply later_committed; [done|]. unfold revoke_session_atomic. destruct (sql_row _ _ _) as [x|] eqn:E.
  - apply sql_row_Some in E as [E _]. intros _. eapply moves_session; [done|done|by apply session_ended|done].
  - intros _. by apply moves_refl.
Qed.

Lemma revoke_session_moves id t s : auth_inv s -> moves s (committed (revoke_session id t) s).
Proof.
  intros HI. apply later_committed; [done|]. unfold revoke_session. destruct (sql_row _ _ _) as [x|] eqn:E.
  - apply sql_row_Some in E as [E _]. intros _. eapply moves_session; [done|done|by apply session_ended|done].
  - case_bool_decide; [done|]. intros _. by apply moves_refl.
Qed.

Lemma revoke_sessions_where_moves p t s : auth_inv s -> moves s (committed (revoke_sessions_where p t) s).
Proof.
  intros HI. apply later_committed; [done|]. intros _. apply moves_session_update; [done|]. intros x _.
  split; [by apply session_ended|done].
Qed.

Lemma touch_session_activity_moves id t s : auth_inv s -> moves s (committed (touch_session_activity id t) s).
Proof.
  intros HI. apply later_committed; [done|]. unfold touch_session_activity. destruct (sql_row _ _ _) as [x|] eqn:E.
  - apply sql_row_Some in E as [E _]. intros _. eapply moves_session; [done|done|by constructor|done].
  - intros _. by apply moves_refl.
Qed.

Lemma expire_stale_sessions_moves t s : auth_inv s -> moves s (committed (expire_stale_sessions t) s).
Proof.
  intros HI. apply later_committed; [done|]. intros _. apply moves_session_update; [done|].
  intros x [Hx%bool_decide_eq_true _]%andb_prop. split; [|done]. apply session_ended; [done|congruence].
Qed.

(** ** Refresh tokens *)

Lemma elem_of_with_verifier v m t : t ∈ with_verifier v m <-> rt_token_verifier t = v /\ exists id, m !! id = Some t.
Proof.
  unfold with_verifier. rewrite list_elem_of_filter, list_elem_of_fmap. split.
  - intros (? & [id t'] & -> & Hin%elem_of_map_to_list). eauto.
  - intros (? & id & Hid). split; [done|]. exists (id, t). by rewrite elem_of_map_to_list.
Qed.

Lemma head_with_verifier v m t : head (with_verifier v m) = Some t -> rt_token_verifier t = v /\ exists id, m !! id = Some t.
Proof. intros H. apply elem_of_with_verifier. destruct (with_verifier v m); [done|]. injection H as ->. by left. Qed.

(** A new active token for a session of its device. *)
Record new_token_ok (s : Auth) (t : RefreshTokenEntity) : Prop := {
  nt_session : exists x, sessions s !! rt_session_id t = Some x /\ se_device_id x = rt_device_id t;
  nt_active : rt_token_status t = TokenActive;
  nt_unlinked : rt_replaced_by_token_id t = None }.

Lemma token_ok_tokens s m id t :
  map_later token_later (refresh_tokens s) m -> token_ok s id t -> token_ok (set_refresh_tokens m s) id t.
Proof.
  intros Hm []. constructor; [done..|]. intros n Hn. destruct (to_successor0 n Hn) as (t' & Ht' & Hs).
  destruct (Hm _ _ Ht') as (t2 & ? & []). exists t2. split; [done|congruence].
Qed.

Lemma create_token_spec t s s' :
  create_token t s = (Ok tt, s') ->
  refresh_tokens s !! rt_refresh_token_id t = None /\
  (forall id t', refresh_tokens s !! id = Some t' -> rt_token_verifier t' <> rt_token_verifier t) /\
  s' = set_refresh_tokens (<[rt_refresh_token_id t := token_row t]> (refresh_tokens s)) s.
Proof.
  unfold create_token. case_bool_decide as Hnew; [done|]. cbn [orb]. case_bool_decide as Hv; cbn [negb]; [|done].
  destruct (negb _); [done|]. intros [= <-]. split_and!; [by apply eq_None_not_Some| |done].
  intros id t' Hid Heq. assert (Hin : t' ∈ with_verifier (rt_token_verifier t) (refresh_tokens s)).
  { apply elem_of_with_verifier. eauto. }
  rewrite Hv in Hin. by apply elem_of_nil in Hin.
Qed.

Lemma add_token_moves t s s' : auth_inv s -> new_token_ok s t -> create_token t s = (Ok tt, s') -> moves s s'.
Proof.
  intros HI [] (Hnew & Hv & ->)%create_token_spec. assert (Hm : map_later token_later (refresh_tokens s)
    (<[rt_refresh_token_id t := token_row t]> (refresh_tokens s))) by (by apply (map_later_fresh token_later)).
  apply moves_tokens; [done|done|..].
  - intros id t' [(<- & <-)|(_ & Ht')]%lookup_insert_Some; [|by apply token_ok_tokens, HI]. constructor; cbn; [done|done|..].
    + rewrite nt_active0, nt_unlinked0. split; [done|by intros []].
    + by rewrite nt_active0.
    + by rewrite nt_unlinked0.
  - intros id id' t1 t2 [(<- & <-)|(Hne & H1)]%lookup_insert_Some [(<- & <-)|(Hne' & H2)]%lookup_insert_Some Heq; [done|..].
    + by destruct (Hv _ _ H2).
    + by destruct (Hv _ _ H1).
    + by eapply (ai_verifiers _ HI).
  - intros id id' t1 t2 n [(<- & <-)|(Hne & H1)]%lookup_insert_Some [(<- & <-)|(Hne' & H2)]%lookup_insert_Some;
      [done|cbn; congruence|cbn; congruence|]. by eapply (ai_predecessor _ HI).
Qed.

Lemma create_token_moves t s : auth_inv s -> new_token_ok s t -> moves s (committed (create_token t) s).
Proof.
  intros HI Ht. apply later_committed; [done|]. destruct (create_token t s) as [[[]|e] s'] eqn:E; [|done]. intros _.
  by eapply add_token_moves.
Qed.

(** What a rotation that commits did. *)
Lemma rotate_spec id new now s s' :
  rotate_token_atomic id new now s = (Ok tt, s') ->
  exists old s1, refresh_tokens s !! id = Some old /\ rt_token_status old = TokenActive /\ now <= rt_expires_at old /\
    create_token new s = (Ok tt, s1) /\ refresh_tokens s1 !! id = Some old /\
    s' = set_refresh_tokens (<[id := set_rotated (stored now) (rt_refresh_token_id new) old]> (refresh_tokens s1)) s1.
Proof.
  unfold rotate_token_atomic. destruct (refresh_tokens s !! id) as [old|] eqn:Hold; [|done].
  unfold token_active at 1. case_bool_decide as Hact; cbn [negb]; [|done]. destruct (Z.ltb_spec (rt_expires_at old) now); [done|].
  destruct (create_token new s) as [[[]|e] s1] eqn:Hc; [|done]. destruct (sql_row _ _ _) as [t|] eqn:Hrow; [|done].
  intros [= <-]. apply sql_row_Some in Hrow as [Hrow _]. exists old, s1. destruct (create_token_spec _ _ _ Hc) as (Hnew & _ & Hs1).
  assert (t = old) as ->.
  { subst s1. cbn in Hrow. rewrite lookup_insert_ne in Hrow by (intros Heq; by rewrite Heq, Hold in Hnew). by simplify_eq. }
  split_and!; done.
Qed.

Lemma rotated_later t at_ n : rt_token_status t = TokenActive -> token_later t (set_rotated at_ n t).
Proof. by constructor. Qed.

Lemma rotate_moves id new now s :
  auth_inv s -> new_token_ok s new ->
  (forall old, refresh_tokens s !! id = Some old -> rt_session_id new = rt_session_id old) ->
  moves s (committed (rotate_token_atomic id new now) s).
Proof.
  intros HI Hnew Hsame. apply later_committed; [done|].
  destruct (rotate_token_atomic id new now s) as [[[]|e] s'] eqn:E; [|done]. intros _. cbn [snd].
  destruct (rotate_spec _ _ _ _ _ E) as (old & s1 & Hold & Hact & _ & Hc & Hold1 & ->).
  destruct (add_token_moves _ _ _ HI Hnew Hc) as [HI1 Hl1]. destruct (create_token_spec _ _ _ Hc) as (Hfresh & _ & Hs1).
  assert (Hm : map_later token_later (refresh_tokens s1)
    (<[id := set_rotated (stored now) (rt_refresh_token_id new) old]> (refresh_tokens s1))).
  { eapply (map_later_insert token_later); [done|by apply rotated_later]. }
  assert (Hn : refresh_tokens s1 !! rt_refresh_token_id new = Some (token_row new)) by (subst s1; apply lookup_insert_eq).
  assert (Hne : id <> rt_refresh_token_id new) by (intros ->; congruence).
  assert (Hno : forall i t, refresh_tokens s1 !! i = Some t -> rt_replaced_by_token_id t <> Some (rt_refresh_token_id new)).
  { intros i t Hi Hr. subst s1. cbn in Hi. apply lookup_insert_Some in Hi as [(<- & <-)|(_ & Hi)].
    - cbn in Hr. by rewrite (nt_unlinked _ _ Hnew) in Hr.
    - destruct (to_successor _ _ _ (ai_tokens _ HI _ _ Hi) _ Hr) as (t' & Ht' & _). congruence. }
  destruct (moves_tokens s1 (<[id := set_rotated (stored now) (rt_refresh_token_id new) old]> (refresh_tokens s1)) HI1 Hm) as [HI2 Hl2].
  - intros i t [(<- & <-)|(_ & Ht)]%lookup_insert_Some; [|by apply token_ok_tokens, HI1].
    destruct (ai_tokens _ HI1 _ _ Hold1). constructor; cbn; [done|done|by split|by eauto|]. intros n [= <-].
    exists (token_row new). rewrite lookup_insert_ne by done. split; [done|]. by apply Hsame.
  - intros i i' t1 t2 [(<- & <-)|(Hi & H1)]%lookup_insert_Some [(<- & <-)|(Hi' & H2)]%lookup_insert_Some Heq; [done|..];
      by eapply (ai_verifiers _ HI1).
  - intros i i' t1 t2 n [(<- & <-)|(Hi & H1)]%lookup_insert_Some [(<- & <-)|(Hi' & H2)]%lookup_insert_Some; [done|..].
    + intros [= <-] Hr. by destruct (Hno _ _ H2).
    + intros Hr [= <-]. by destruct (Hno _ _ H1).
    + by eapply (ai_predecessor _ HI1).
  - split; [done|]. by transitivity s1.
Qed.

Lemma revoked_later t at_ : rt_token_status t = TokenActive -> token_later t (set_token_revoked at_ t).
Proof. by constructor. Qed.

(** Revoking active tokens. *)
Lemma revoke_tokens_moves p at_ s :
  auth_inv s -> (forall t, p t = true -> rt_token_status t = TokenActive) ->
  moves s (set_refresh_tokens (sql_update p (set_token_revoked at_) (refresh_tokens s)) s).
Proof.
  intros HI Hp. assert (Hm : map_later token_later (refresh_tokens s) (sql_update p (set_token_revoked at_) (refresh_tokens s))).
  { apply (map_later_update token_later). intros t Ht. by apply revoked_later, Hp. }
  assert (Hrow : forall id t', sql_update p (set_token_revoked at_) (refresh_tokens s) !! id = Some t' ->
    exists t, refresh_tokens s !! id = Some t /\ t' = (if p t then set_token_revoked at_ t else t)).
  { intros id t'. unfold sql_update. rewrite lookup_fmap. intros (t & Ht & ->)%fmap_Some. eauto. }
  assert (Hnone : forall id t, refresh_tokens s !! id = Some t -> p t = true -> rt_replaced_by_token_id t = None).
  { intros id t Ht Hpt. destruct (rt_replaced_by_token_id t) eqn:E; [|done].
    destruct (ai_tokens _ HI _ _ Ht). destruct to_rotated0 as [_ Hr]. rewrite (Hp t Hpt) in Hr. by discriminate Hr; rewrite E. }
  apply moves_tokens; [done|done|..].
  - intros id t' (t & Ht & ->)%Hrow. pose proof (token_ok_tokens _ _ _ _ Hm (ai_tokens _ HI _ _ Ht)) as [].
    destruct (p t) eqn:E; [|by constructor]. constructor; cbn; [done|done| |done|done].
    rewrite (Hnone _ _ Ht E). split; [done|by intros []].
  - intros id id' t1 t2 (t & Ht & ->)%Hrow (t' & Ht' & ->)%Hrow Heq. eapply (ai_verifiers _ HI); [done|done|].
    by destruct (p t), (p t').
  - intros id id' t1 t2 n (t & Ht & ->)%Hrow (t' & Ht' & ->)%Hrow H1 H2. eapply (ai_predecessor _ HI _ _ _ _ n); [done|done|..].
    + by destruct (p t).
    + by destruct (p t').
Qed.

Lemma handle_token_reuse_moves v now s : auth_inv s -> moves s (committed (handle_token_reuse v now) s).
Proof.
  intros HI. apply later_committed; [done|]. unfold handle_token_reuse. destruct (head _) as [token|]; [|done].
  case_bool_decide; cbn [negb]; [|done]. intros _. cbn [snd].
  set (s1 := match sessions s !! rt_session_id token with Some x => _ | None => s end).
  assert (Hs1 : moves s s1).
  { unfold s1. destruct (sessions s !! rt_session_id token) as [x|] eqn:E; [|by apply moves_refl].
    eapply moves_session; [done|done|by apply session_ended|done]. }
  destruct Hs1 as [HI1 Hl1].
  destruct (revoke_tokens_moves (fun t => bool_decide (rt_session_id t = rt_session_id token) && token_active t) (stored now) s1 HI1) as [HI2 Hl2].
  - intros t [_ Ht%bool_decide_eq_true]%andb_prop. done.
  - split; [done|]. by transitivity s1.
Qed.

(** ** Multi-factor authentication *)

Lemma store_mfa_configuration_moves c s : auth_inv s -> moves s (committed (store_mfa_configuration c) s).
Proof.
  intros HI. apply later_committed; [done|]. unfold store_mfa_configuration. case_bool_decide as Hnew; [done|].
  destruct (negb _); [done|]. intros _. apply moves_configurations; [done|]. apply (map_later_fresh configuration_later).
  by apply eq_None_not_Some.
Qed.

Lemma update_configuration_moves f id v s :
  auth_inv s -> (forall c, configuration_later c (f c)) -> moves s (committed (update_configuration f id v) s).
Proof.
  intros HI Hf. apply later_committed; [done|]. unfold update_configuration. destruct (sql_row _ _ _) as [c|] eqn:E; [|done].
  destruct (_ <? _); [|done]. apply sql_row_Some in E as [E _]. intros _. apply moves_configurations; [done|].
  by eapply (map_later_insert configuration_later).
Qed.

Lemma enable_mfa_moves id t v s : auth_inv s -> moves s (committed (enable_mfa id t v) s).
Proof. intros HI. apply update_configuration_moves; [done|]. constructor; cbn; [done..|lia]. Qed.

Lemma repository_disable_mfa_moves id t v s : auth_inv s -> moves s (committed (repository_disable_mfa id t v) s).
Proof. intros HI. apply update_configuration_moves; [done|]. constructor; cbn; [done..|lia]. Qed.

Lemma create_challenge_moves c s : auth_inv s -> moves s (committed (create_challenge c) s).
Proof.
  intros HI. apply later_committed; [done|]. unfold create_challenge. case_bool_decide as Hnew; [done|].
  destruct (negb _); [done|]. intros _. apply moves_challenges; [done|]. apply (map_later_fresh challenge_later).
  by apply eq_None_not_Some.
Qed.

Lemma challenge_status_later c st t : challenge_pending c = true -> challenge_later c (set_challenge_status st t c).
Proof. intros Hp%bool_decide_eq_true. by constructor. Qed.

Lemma complete_challenge_moves id t n s : auth_inv s -> moves s (committed (complete_challenge id t n) s).
Proof.
  intros HI. apply later_committed; [done|]. unfold complete_challenge. destruct (sql_row _ _ _) as [c|] eqn:E; [|done].
  apply sql_row_Some in E as [E [Hp _]%andb_prop]. intros _. apply moves_challenges; [done|].
  eapply (map_later_insert challenge_later); [done|]. by apply challenge_status_later.
Qed.

Lemma fail_challenge_moves id s : auth_inv s -> moves s (committed (fail_challenge id) s).
Proof.
  intros HI. apply later_committed; [done|]. unfold fail_challenge. destruct (sql_row _ _ _) as [c|] eqn:E; [|done].
  apply sql_row_Some in E as [E Hp]. intros _. apply moves_challenges; [done|].
  eapply (map_later_insert challenge_later); [done|]. by apply challenge_status_later.
Qed.

(** ** Users *)

Lemma create_user_moves u s : auth_inv s -> moves s (committed (create_user u) s).
Proof.
  intros HI. apply later_committed; [done|]. unfold create_user. case_bool_decide as Hnew; cbn [orb]; [done|].
  destruct (negb _); [done|]. intros _. apply moves_users; [done|]. apply (map_later_fresh user_later). by apply eq_None_not_Some.
Qed.

Lemma update_user_moves u s :
  auth_inv s -> (forall x, users s !! us_user_id u = Some x -> us_user_id x = us_user_id u) -> moves s (committed (update_user u) s).
Proof.
  intros HI Hid. apply later_committed; [done|]. unfold update_user. destruct (sql_row _ _ _) as [x|] eqn:E; [|done].
  apply sql_row_Some in E as [E _]. destruct (negb _); [done|]. destruct (_ <? _); [|done]. intros _. apply moves_users; [done|].
  eapply (map_later_insert user_later); [done|]. constructor; cbn; [done|lia].
Qed.

Lemma set_account_status_moves id st v now s : auth_inv s -> moves s (committed (set_account_status id st v now) s).
Proof.
  intros HI. apply later_committed; [done|]. unfold set_account_status. destruct (sql_row _ _ _) as [x|] eqn:E; [|done].
  apply sql_row_Some in E as [E _]. destruct (_ <? _); [|done]. intros _. apply moves_users; [done|].
  eapply (map_later_insert user_later); [done|]. constructor; cbn; [done|lia].
Qed.

(** ** Public keys *)

Lemma store_public_key_spec k s s' :
  store_public_key k s = (Ok tt, s') ->
  device_public_keys s !! pk_key_id k = None /\
  s' = set_device_public_keys (<[pk_key_id k := key_row k]> (device_public_keys s)) s.
Proof.
  unfold store_public_key. case_bool_decide as Hnew; [done|]. destruct (negb _); [done|]. intros [= <-].
  split; [by apply eq_None_not_Some|done].
Qed.

Lemma signed_ok_later s s' k k' :
  map_later key_later (device_public_keys s) (device_public_keys s') -> key_later k k' -> signed_ok s k -> signed_ok s' k'.
Proof.
  intros Hm [] Hs Ht. rewrite kl_type0 in Ht. destruct (Hs Ht) as (i & x & Hx & Hd & Hxt & Hv).
  destruct (Hm _ _ Hx) as (y & Hy & []). exists i, y. split_and!; congruence.
Qed.

Lemma moves_new_key k s s' : auth_inv s -> signed_ok s k -> store_public_key k s = (Ok tt, s') -> moves s s'.
Proof.
  intros HI Hk (Hnew & ->)%store_public_key_spec.
  assert (Hm : map_later key_later (device_public_keys s) (<[pk_key_id k := key_row k]> (device_public_keys s))) by (by apply (map_later_fresh key_later)).
  apply moves_keys; [done|done|]. intros id k' [(<- & <-)|(_ & Hk')]%lookup_insert_Some.
  - split; [done|]. intros Ht. destruct (Hk Ht) as (i & x & Hx & Hd & Hxt & Hv). destruct (Hm _ _ Hx) as (y & Hy & []).
    exists i, y. cbn. split_and!; congruence.
  - destruct (ai_keys _ HI _ _ Hk'). split; [done|]. by eapply signed_ok_later.
Qed.

Lemma store_public_key_moves k s : auth_inv s -> signed_ok s k -> moves s (committed (store_public_key k) s).
Proof.
  intros HI Hk. apply later_committed; [done|]. destruct (store_public_key k s) as [[[]|e] s'] eqn:E; [|done]. intros _.
  by eapply moves_new_key.
Qed.

Lemma moves_key s id k k' :
  auth_inv s -> device_public_keys s !! id = Some k -> key_later k k' ->
  moves s (set_device_public_keys (<[id := k']> (device_public_keys s)) s).
Proof.
  intros HI Hk Hl. assert (Hm : map_later key_later (device_public_keys s) (<[id := k']> (device_public_keys s))) by
    (by eapply (map_later_insert key_later)). apply moves_keys; [done|done|].
  intros i x [(<- & <-)|(_ & Hx)]%lookup_insert_Some.
  - destruct (ai_keys _ HI _ _ Hk). split; [by rewrite (kl_id _ _ Hl)|by eapply signed_ok_later].
  - destruct (ai_keys _ HI _ _ Hx). split; [done|by eapply signed_ok_later].
Qed.

Lemma key_status_later k st t r : key_active k = true -> key_later k (set_key_status st t r k).
Proof. intros Ha%bool_decide_eq_true. by constructor. Qed.

Lemma replace_key_moves id k s : auth_inv s -> signed_ok s k -> moves s (committed (replace_key id k) s).
Proof.
  intros HI Hk. apply later_committed; [done|]. unfold replace_key. destruct (device_public_keys s !! id) as [old|] eqn:Hold; [|done].
  destruct (negb _); [done|]. destruct (store_public_key k s) as [[[]|e] s1] eqn:E; [|done].
  destruct (moves_new_key _ _ _ HI Hk E) as [HI1 Hl1]. destruct (sql_row _ _ _) as [x|] eqn:Erow; [|done].
  apply sql_row_Some in Erow as [Erow Ha]. intros _. cbn [snd].
  destruct (moves_key s1 id x (set_key_status KeyReplaced (pk_revoked_at x) (Some (pk_key_id k)) x) HI1 Erow) as [HI2 Hl2];
    [by apply key_status_later|]. split; [done|]. by transitivity s1.
Qed.

Lemma revoke_all_device_keys_moves device t s : auth_inv s -> moves s (committed (revoke_all_device_keys device t) s).
Proof.
  intros HI. apply later_committed; [done|]. intros _. cbn [snd revoke_all_device_keys].
  set (p := fun k => bool_decide (pk_device_id k = device) && key_active k). set (f := fun k => set_key_status _ _ _ k).
  assert (Hf : forall k, p k = true -> key_later k (f k)) by (intros k [_ Ha]%andb_prop; by apply key_status_later).
  assert (Hm : map_later key_later (device_public_keys s) (sql_update p f (device_public_keys s))) by (by apply (map_later_update key_later)).
  apply moves_keys; [done|done|]. intros id k Hk. unfold sql_update in Hk. rewrite lookup_fmap in Hk. apply fmap_Some in Hk as (x & Hx & ->).
  destruct (ai_keys _ HI _ _ Hx) as [Hid Hs]. destruct (p x) eqn:E; (split; [done|]); eapply (signed_ok_later s); [done|by apply Hf|done|done|done|done].
Qed.

Lemma elem_of_keys_where p s k : k ∈ keys_where p s <-> p k = true /\ exists id, device_public_keys s !! id = Some k.
Proof.
  unfold keys_where. rewrite list_elem_of_filter, list_elem_of_fmap. split.
  - intros (? & [id k'] & -> & Hin%elem_of_map_to_list). eauto.
  - intros (? & id & Hid). split; [done|]. exists (id, k). by rewrite elem_of_map_to_list.
Qed.

(** The database returns one of the rows that qualify, the oldest or the newest. *)
Record order_ok (order : KeyOrder) : Prop := {
  oo_oldest : forall l k, oldest order l = Some k -> k ∈ l /\ forall k', k' ∈ l -> pk_created_at k <= pk_created_at k';
  oo_newest : forall l k, newest order l = Some k -> k ∈ l /\ forall k', k' ∈ l -> pk_created_at k' <= pk_created_at k;
  oo_oldest_none : forall l, oldest order l = None -> l = [];
  oo_newest_none : forall l, newest order l = None -> l = [] }.

(** A claim that found a key took an active one-time key of the device. *)
Lemma claim_spec order skip device s k s' :
  order_ok order -> auth_inv s -> claim_one_time_prekey order skip device s = (Ok (Some k), s') ->
  exists x, device_public_keys s !! pk_key_id k = Some x /\ key_of_device device OneTimePrekey KeyActive x = true /\
    k = set_key_status KeyClaimed (pk_revoked_at x) (pk_replaced_by_key_id x) x /\
    s' = set_device_public_keys (<[pk_key_id k := k]> (device_public_keys s)) s.
Proof.
  intros Ho HI. unfold claim_one_time_prekey. destruct (oldest order _) as [x|] eqn:E; [|done].
  apply (oo_oldest _ Ho) in E as [Hin _]. apply elem_of_keys_where in Hin as [[Hx _]%andb_prop (id & Hid)].
  destruct (ai_keys _ HI _ _ Hid) as [Hkey _]. rewrite <- Hkey in Hid.
  assert (Ha : key_active x = true) by (unfold key_of_device in Hx; by apply andb_prop in Hx as [_ Hx]).
  assert (Hrow : sql_row (pk_key_id x) key_active (device_public_keys s) = Some x) by (by apply sql_row_Some).
  rewrite Hrow. intros [= <- <-]. exists x. by split_and!.
Qed.

Lemma claim_moves order skip device s : order_ok order -> auth_inv s -> moves s (committed (claim_one_time_prekey order skip device) s).
Proof.
  intros Ho HI. apply later_committed; [done|].
  destruct (claim_one_time_prekey order skip device s) as [[[k|]|e] s'] eqn:E; cbn [fst snd is_ok]; intros Hok; [|..|done].
  - destruct (claim_spec _ _ _ _ _ _ Ho HI E) as (x & Hx & Hkd & Hk & ->). eapply moves_key; [done|done|]. rewrite Hk.
    apply key_status_later. unfold key_of_device in Hkd. by apply andb_prop in Hkd as [_ ?].
  - unfold claim_one_time_prekey in E. destruct (oldest _ _); [by destruct (sql_row _ _ _)|]. injection E as <-. by apply moves_refl.
Qed.

Lemma store_one_time_prekeys_moves device keys now s :
  auth_inv s -> moves s (committed (store_one_time_prekeys device keys now) s).
Proof.
  intros HI. apply later_committed; [done|]. revert s HI. induction keys as [|[id key] keys IH]; intros s HI Hok; cbn [store_one_time_prekeys] in *.
  - by apply moves_refl.
  - destruct (store_public_key _ s) as [[[]|e] s1] eqn:E; [|done].
    assert (Hs : signed_ok s (mkPublicKey id device OneTimePrekey key KeyActive now None None None)) by (by intros ?).
    destruct (moves_new_key _ _ _ HI Hs E) as [HI1 Hl1].
    destruct (IH s1 HI1 Hok) as [HI2 Hl2]. split; [done|]. by transitivity s1.
Qed.
End inv.

Inductive Resource := AToken (id : uuid) | AChallenge (id : uuid) | AKey (id : uuid).

Definition free (x : Resource) (s : Auth) : Prop :=
  match x with
  | AToken id => forall t, refresh_tokens s !! id = Some t -> rt_token_status t = TokenActive
  | AChallenge id => forall c, mfa_challenges s !! id = Some c -> ch_challenge_status c = ChallengePending
  | AKey id => forall k, device_public_keys s !! id = Some k -> pk_key_status k = KeyActive
  end.

Lemma not_all {A} (o : option A) (P : A -> Prop) `{forall a, Decision (P a)} :
  ~ (forall a, o = Some a -> P a) -> exists a, o = Some a /\ ~ P a.
Proof.
  intros Hn. destruct o as [a|]; [|by destruct Hn]. exists a. split; [done|]. intros HP. apply Hn. by intros ? [= <-].
Qed.

Lemma free_lost x s s' : ~ free x s -> auth_later s s' -> ~ free x s'.
Proof.
  intros Hn Hl Hf. destruct x as [id|id|id]; cbn in Hn, Hf; apply not_all in Hn as (a & Ha & Hst); try apply _.
  - destruct (al_tokens _ _ Hl _ _ Ha) as (b & Hb & Hlater). rewrite (tl_frozen _ _ Hlater) in Hb by done. by apply Hst, Hf.
  - destruct (al_challenges _ _ Hl _ _ Ha) as (b & Hb & Hlater). rewrite (cl_frozen _ _ Hlater) in Hb by done. by apply Hst, Hf.
  - destruct (al_keys _ _ Hl _ _ Ha) as (b & Hb & Hlater). rewrite (kl_frozen _ _ Hlater) in Hb by done. by apply Hst, Hf.
Qed.

Abbreviation wpa := (wpx auth_inv auth_later free).
Abbreviation stable_post := (xstable auth_inv auth_later).

(** A postcondition that does not say what was taken. *)
Definition plain {R} (Q : R -> Auth -> Prop) : R -> list Resource -> Auth -> Prop := fun r _ s => Q r s.

(** ** Rules *)

Section rules.
Context {curves : AccessTokens.Curves}.

Lemma wp_db {A R} (t : Auth -> Answer A) (k : result RepositoryExn A -> prog Auth R) K Q s :
  (forall s', auth_later s s' -> auth_inv s' ->
     moves s' (committed t s') /\
     (auth_inv (committed t s') -> exists K', takes free K K' s' (committed t s') /\ wpa (k (fst (t s'))) K' Q (committed t s')) /\
     wpa (k (Err DriverException)) K Q s' /\ wpa (k (Err DriverException)) K Q (committed t s')) ->
  wpa (pbind (db t) k) K Q s.
Proof.
  intros H. apply wpx_bind. intros s' Hl HI. destruct (H s' Hl HI) as ([HI' Hl'] & Hk & Hf & Hf').
  split_and!; [done|done|by apply Hk|done|done].
Qed.

Lemma wp_db_simple {A R} (t : Auth -> Answer A) (k : result RepositoryExn A -> prog Auth R) K Q s :
  (forall s', wpa (k (Err DriverException)) K Q s') ->
  (forall s', auth_later s s' -> auth_inv s' -> moves s' (committed t s') /\
     (auth_inv (committed t s') -> wpa (k (fst (t s'))) K Q (committed t s'))) ->
  wpa (pbind (db t) k) K Q s.
Proof.
  intros Hf H. apply wp_db. intros s' Hl HI. destruct (H s' Hl HI) as [Hm Hk]. split_and!; [done| |apply Hf..].
  intros HI'. exists K. split; [apply takes_refl|by apply Hk].
Qed.

Lemma wp_read {A R} (f : Auth -> A) (k : result RepositoryExn A -> prog Auth R) K Q s :
  (forall s', wpa (k (Err DriverException)) K Q s') ->
  (forall s', auth_later s s' -> auth_inv s' -> wpa (k (Ok (f s'))) K Q s') ->
  wpa (pbind (db (fun s => (Ok (f s), s))) k) K Q s.
Proof. intros Hf H. apply wp_db_simple; [done|]. intros s' Hl HI. split; [by apply moves_refl|]. intros _. by apply H. Qed.

Lemma wp_memory {A R} (f : Auth -> A * Auth) (k : A -> prog Auth R) K Q s :
  (forall s', auth_later s s' -> auth_inv s' -> moves s' (snd (f s')) /\ wpa (k (fst (f s'))) K Q (snd (f s'))) ->
  wpa (pbind (locked f) k) K Q s.
Proof.
  intros H. apply wpx_bind. intros s' Hl HI. destruct (H s' Hl HI) as [[HI' Hl'] Hk]. split_and!; [done|done|].
  exists K. split; [apply takes_refl|done].
Qed.

Lemma publish_moves e s : auth_inv s -> moves s (set_published (published s ++ [e]) s).
Proof. intros HI. apply moves_memory; try done. by eexists. Qed.

Lemma wp_publish {R} audit e (k : unit -> prog Auth R) K Q s :
  auth_inv s -> (forall s', auth_later s s' -> auth_inv s' -> wpa (k tt) K Q s') -> wpa (pbind (publish_if audit e) k) K Q s.
Proof.
  intros HI H. destruct audit; [|by apply H]. apply wp_memory. intros s' Hl HI'. pose proof (publish_moves e s' HI') as Hm.
  split; [done|]. cbn [fst snd]. apply H; [|apply Hm]. transitivity s'; [done|apply Hm].
Qed.


Lemma wp_publish_always {R} e (k : unit -> prog Auth R) K Q s :
  auth_inv s -> (forall s', auth_later s s' -> auth_inv s' -> wpa (k tt) K Q s') -> wpa (pbind (publish e) k) K Q s.
Proof. apply (wp_publish true). Qed.
End rules.
