(* ===== verification/AuthTokensSpec.v ===== *)
(** * Sessions and refresh tokens under concurrency

    Theorems about the programs of [AuthTokens], run by any number of threads that
    share the store, with transactions that may fail before or after they took
    effect. *)

From S2P Require Import Prelude Ids Bytes Prog AuthStore AuthTokens AuthInv.
#[local] Open Scope Z_scope.

Section tokens.
Context {curves : AccessTokens.Curves}.

(** ** Refreshing *)

(** What a refresh that succeeded shows of the store, given the store it started in. *)
Record rotated_by (sha256_hex : string -> string) (s0 : Auth) (secret : string) (device : uuid) (d : Draw)
    (session : option uuid) (K : list Resource) (s : Auth) : Prop := {
  rb_token : exists id t, AToken id ∈ K /\ refresh_tokens s !! id = Some t /\ rt_token_verifier t = sha256_hex secret /\
    rt_token_status t = TokenRotated /\ rt_replaced_by_token_id t = Some (token_id d) /\ rt_device_id t = device /\
    session = Some (rt_session_id t) /\
    (forall t0, refresh_tokens s0 !! id = Some t0 -> rt_token_status t0 = TokenActive) /\
    (forall x0, sessions s0 !! rt_session_id t = Some x0 -> se_session_status x0 = SessionActive);
  rb_device : forall d0, devices s0 !! device = Some d0 -> dv_device_status d0 <> DeviceRevoked;
  rb_new : exists n, refresh_tokens s !! token_id d = Some n /\ rt_token_verifier n = sha256_hex (raw_secret d) }.

Lemma rotated_by_stable sha s0 secret device d session K s s' :
  rotated_by sha s0 secret device d session K s -> auth_later s s' -> rotated_by sha s0 secret device d session K s'.
Proof.
  intros [(id & t & HK & Ht & Hv & Hst & Hr & Hdev & Hses & H0 & H0') Hd (n & Hn & Hnv)] Hl. constructor; [|done|].
  - exists id, t. destruct (al_tokens _ _ Hl _ _ Ht) as (t' & Ht' & []).
    rewrite tl_frozen in Ht' by congruence. split_and!; done.
  - destruct (al_tokens _ _ Hl _ _ Hn) as (n' & Hn' & []). exists n'. split; [done|congruence].
Qed.

Definition refresh_post (sha256_hex : string -> string) (s0 : Auth) (secret : string) (device : uuid) (d : Draw)
    (r : TokenRefreshResult) (K : list Resource) (s : Auth) : Prop :=
  rr_status r = RefreshSuccess -> rotated_by sha256_hex s0 secret device d (rr_session_id r) K s.

Lemma refresh_post_stable sha s0 secret device d : stable_post (refresh_post sha s0 secret device d).
Proof. intros r K s s' H Hl _ Hok. by eapply rotated_by_stable; [apply H|]. Qed.

Section refresh.
Context (audit : bool) (config_ : TokenManagerConfig) (sha256_hex : string -> string).
Context (serialize : AccessTokenClaims -> option string).
Context (secret : string) (device : uuid) (d : Draw) (s0 : Auth).

Abbreviation post := (fun r K s => refresh_post sha256_hex s0 secret device d (refresh_of r) K s).

Lemma post_refused st K s : st <> RefreshSuccess -> post (Ok (refused st)) K s.
Proof. by intros Hst ?. Qed.

Lemma post_error e K s : post (Err e) K s.
Proof. by destruct e. Qed.

(** What the checks established when they reach the rotation. *)
Record checked (token : RefreshTokenEntity) (session : SessionEntity) (s : Auth) : Prop := {
  ck_token : exists t, refresh_tokens s !! rt_refresh_token_id token = Some t /\ token_later token t;
  ck_verifier : rt_token_verifier token = sha256_hex secret;
  ck_device : rt_device_id token = device;
  ck_session : exists x, sessions s !! rt_session_id token = Some x /\ session_later session x;
  ck_key : se_session_id session = rt_session_id token;
  ck_bound : se_device_id session = device;
  ck_active0 : forall t0, refresh_tokens s0 !! rt_refresh_token_id token = Some t0 -> rt_token_status t0 = TokenActive;
  ck_session0 : forall x0, sessions s0 !! rt_session_id token = Some x0 -> se_session_status x0 = SessionActive;
  ck_device0 : forall d0, devices s0 !! device = Some d0 -> dv_device_status d0 <> DeviceRevoked }.

Lemma checked_later token session s s' : checked token session s -> auth_later s s' -> checked token session s'.
Proof.
  intros [] Hl. constructor; try done.
  - destruct ck_token0 as (t & Ht & Htl). destruct (al_tokens _ _ Hl _ _ Ht) as (t' & ? & ?). exists t'. split; [done|by transitivity t].
  - destruct ck_session1 as (x & Hx & Hxl). destruct (al_sessions _ _ Hl _ _ Hx) as (x' & ? & ?). exists x'. split; [done|by transitivity x].
Qed.

Lemma wp_rotate_and_issue token session s :
  auth_inv s -> checked token session s ->
  wpa (rotate_and_issue audit config_ sha256_hex serialize token session device d) [] post s.
Proof.
  intros HI Hck. unfold rotate_and_issue. apply wp_db. intros s1 Hl1 HI1.
  pose proof (checked_later _ _ _ _ Hck Hl1) as Hck1. destruct (ck_token _ _ _ Hck1) as (t & Ht & Htl).
  destruct (ck_session _ _ _ Hck1) as (x & Hx & Hxl). split_and!; [| |apply post_error|apply post_error].
  { apply rotate_moves; [done| |].
    - constructor; [|done|done]. cbn. exists x. split; [done|]. rewrite (sl_device _ _ Hxl). apply Hck1.
    - intros old Hold. cbn. simplify_eq. by rewrite (tl_session _ _ Htl). }
  intros HI2. unfold committed in *.
  destruct (rotate_token_atomic _ _ _ s1) as [[[]|e] s2] eqn:E; cbn [is_ok fst] in *;
    [|exists []; split; [apply takes_refl|apply post_error]].
  destruct (rotate_spec _ _ _ _ _ E) as (old & s1' & Hold & Hact & _ & Hc & Hold' & Hs2). assert (old = t) as -> by congruence.
  destruct (create_token_spec _ _ _ Hc) as (Hfresh & _ & Hs1'). cbn [rt_refresh_token_id new_token] in Hfresh.
  assert (Hrot : rotated_by sha256_hex s0 secret device d (Some (se_session_id session))
    [AToken (rt_refresh_token_id token)] s2).
  { subst s2. constructor; [|apply Hck1|].
    - eexists (rt_refresh_token_id token), _. split; [by left|]. cbn. rewrite lookup_insert_eq. split; [reflexivity|]. cbn.
      destruct Hck1. split_and!; [by rewrite (tl_verifier _ _ Htl)|done|done|by rewrite (tl_device _ _ Htl)| |done|by rewrite (tl_session _ _ Htl)].
      by rewrite (tl_session _ _ Htl), ck_key0.
    - eexists. subst s1'. cbn. rewrite lookup_insert_ne, lookup_insert_eq by (intros Heq; rewrite Heq in *; congruence).
      by split. }
  exists [AToken (rt_refresh_token_id token)]. split.
  { intros y ->%list_elem_of_singleton. right. cbn. split; [congruence|]. intros Hf. subst s2. cbn in Hf.
    by specialize (Hf _ (lookup_insert_eq _ _ _)). }
  apply wp_db_simple; [intros; apply post_error|]. intros s3 Hl3 HI3.
  pose proof (touch_session_activity_moves (se_session_id session) (now d) s3 HI3) as Hm3. split; [done|]. intros HI3'.
  destruct (fst (touch_session_activity _ _ s3)); [|apply post_error].
  apply wp_db_simple; [intros; apply post_error|]. intros s4 Hl4 HI4.
  pose proof (update_last_authenticated_moves device (now d) (now_touch d) s4 HI4) as Hm4. split; [done|]. intros HI4'.
  destruct (fst (update_last_authenticated _ _ _ s4)); [|apply post_error].
  destruct (serialize _) as [access|]; [|apply post_error]. apply wp_publish; [done|]. intros s5 Hl5 HI5. intros _. cbn [rr_session_id refresh_of].
  eapply rotated_by_stable; [exact Hrot|]. etransitivity; [exact Hl3|]. etransitivity; [apply Hm3|].
  etransitivity; [exact Hl4|]. etransitivity; [apply Hm4|]. exact Hl5.
Qed.

Lemma wp_refresh_checked :
  auth_inv s0 -> wpa (refresh_checked audit config_ sha256_hex serialize (sha256_hex secret) device d) [] post s0.
Proof.
  intros HI. unfold refresh_checked. apply wp_read; [intros; apply post_error|]. intros s1 Hl1 HI1.
  destruct (head _) as [token|] eqn:Hhead; [|by apply post_refused]. apply head_with_verifier in Hhead as [Hv (id & Hid)].
  assert (id = rt_refresh_token_id token) as -> by (by rewrite (to_key _ _ _ (ai_tokens _ HI1 _ _ Hid))).
  case_bool_decide as Hrot.
  { destruct (from_option _ _ _); [by apply post_refused|]. apply wp_db. intros s2 Hl2 HI2.
    pose proof (handle_token_reuse_moves (sha256_hex secret) (now_reuse d) s2 HI2) as Hm2. split; [done|].
    split_and!; [intros HI2'; exists []; split; [apply takes_refl|]|..];
      (apply wp_publish; [by apply Hm2 || done|]; intros; by apply post_refused). }
  case_bool_decide as Hrev; [by apply post_refused|]. destruct (token_active token) eqn:Hact; cbn [negb]; [|by apply post_refused].
  apply bool_decide_eq_true in Hact. destruct (_ <? _); [by apply post_refused|].
  case_bool_decide as Hdev; cbn [negb]; [|by apply post_refused].
  apply wp_read; [intros; apply post_error|]. intros s2 Hl2 HI2.
  destruct (devices s2 !! device) as [dev|] eqn:Hdv; [|by apply post_refused].
  case_bool_decide as Hda; cbn [negb]; [|by apply post_refused].
  apply wp_read; [intros; apply post_error|]. intros s3 Hl3 HI3.
  destruct (sessions s3 !! rt_session_id token) as [session|] eqn:Hses; [|by apply post_refused].
  unfold session_active. case_bool_decide as Hsa; cbn [negb]; [|by apply post_refused].
  destruct (_ <? _); [by apply post_refused|]. case_bool_decide as Hsd; cbn [negb]; [|by apply post_refused].
  case_bool_decide; cbn [negb]; [|by apply post_refused]. apply wp_rotate_and_issue; [done|].
  assert (Hl03 : auth_later s0 s3) by (transitivity s1; [done|]; by transitivity s2).
  constructor.
  - destruct (al_tokens _ _ (transitivity Hl2 Hl3) _ _ Hid) as (t & Ht & Htl). eauto.
  - done.
  - done.
  - by eexists.
  - apply (so_key _ _ _ (ai_sessions _ HI3 _ _ Hses)).
  - done.
  - intros t0 Ht0. destruct (al_tokens _ _ Hl1 _ _ Ht0) as (t & Ht & []). destruct (decide (rt_token_status t0 = TokenActive)); [done|].
    rewrite tl_frozen in Ht by done. congruence.
  - intros x0 Hx0. destruct (al_sessions _ _ Hl03 _ _ Hx0) as (x & Hx & []). destruct (decide (se_session_status x0 = SessionActive)); [done|].
    exfalso. apply sl_ended; [done|]. congruence.
  - intros d0 Hd0 Hr. destruct (al_devices _ _ (transitivity Hl1 Hl2) _ _ Hd0) as (dv & Hdv' & []). rewrite Hdv in Hdv'. simplify_eq.
    specialize (dl_revoked Hr). congruence.
Qed.

Lemma wp_refresh :
  auth_inv s0 ->
  wpa (manager_refresh_tokens audit config_ sha256_hex serialize secret device d) [] (refresh_post sha256_hex s0 secret device d) s0.
Proof.
  intros HI. unfold manager_refresh_tokens. case_bool_decide; [done|]. apply wpx_bind.
  eapply wpx_mono; [|by apply wp_refresh_checked]. done.
Qed.
End refresh.

(** ** Sessions *)

(** The entity is a reading of the row that is stored now. *)
Definition reading (x : SessionEntity) (s : Auth) : Prop :=
  exists y, sessions s !! se_session_id x = Some y /\ session_later x y.

Lemma reading_later x s s' : reading x s -> auth_later s s' -> reading x s'.
Proof.
  intros (y & Hy & Hl) Hs. destruct (al_sessions _ _ Hs _ _ Hy) as (z & Hz & Hyz). exists z. split; [done|by transitivity y].
Qed.

(** The device was usable when the call started. *)
Definition not_revoked (device : uuid) (s : Auth) : Prop :=
  forall d, devices s !! device = Some d -> dv_device_status d <> DeviceRevoked.

Lemma not_revoked_earlier device d s s' :
  auth_later s s' -> devices s' !! device = Some d -> dv_device_status d = DeviceActive -> not_revoked device s.
Proof.
  intros Hl Hd Ha d0 Hd0 Hr. destruct (al_devices _ _ Hl _ _ Hd0) as (d' & Hd' & []). simplify_eq. specialize (dl_revoked Hr). congruence.
Qed.

Definition establish_post (s0 : Auth) (user device session_id : uuid) (r : SessionEstablishmentResult) (s : Auth) : Prop :=
  es_status r = EstablishSuccess -> exists x, es_session r = Some x /\ se_session_id x = session_id /\ se_user_id x = user /\
    se_device_id x = device /\ se_session_status x = SessionActive /\ se_authentication_level x = PrimaryOnly /\
    (exists y, sessions s !! session_id = Some y /\ se_user_id y = user /\ se_device_id y = device) /\ not_revoked device s0 /\
    sessions s0 !! session_id = None.

Lemma establish_post_stable s0 user device id : stable_post (plain (establish_post s0 user device id)).
Proof.
  intros r K s s' H Hl _ Hok. destruct (H Hok) as (x & ? & ? & ? & ? & ? & ? & (y & Hy & Hu & Hd) & ? & ?). exists x. split_and!; try done.
  destruct (al_sessions _ _ Hl _ _ Hy) as (z & Hz & []). exists z. split_and!; congruence.
Qed.

Lemma wp_establish ttl user device id now now_device K s0 :
  auth_inv s0 -> wpa (establish_session ttl user device id now now_device) K (plain (establish_post s0 user device id)) s0.
Proof.
  intros HI. unfold establish_session. apply wp_read; [done|]. intros s1 Hl1 HI1.
  destruct (devices s1 !! device) as [d|] eqn:Hd; [|done]. case_bool_decide as Hu; cbn [negb]; [|done].
  case_bool_decide as Ha; cbn [negb]; [|done]. apply wp_db_simple; [done|]. intros s2 Hl2 HI2.
  split.
  { apply create_session_moves; [done| |done]. cbn. destruct (al_devices _ _ Hl2 _ _ Hd) as (d' & Hd' & []). exists d'. split; congruence. }
  intros HI2'. unfold committed in *. destruct (create_session _ s2) as [[[]|e] s2'] eqn:Hc; cbn [is_ok fst] in *; [|done].
  assert (Hrow : sessions s0 !! id = None /\ exists y, sessions s2' !! id = Some y /\ se_user_id y = user /\ se_device_id y = device).
  { unfold create_session in Hc. case_bool_decide as Hnew; [done|]. destruct (negb _); [done|]. injection Hc as <-. split.
    - apply eq_None_not_Some. intros [x Hx]. destruct (al_sessions _ _ (transitivity Hl1 Hl2) _ _ Hx) as (y & Hy & _). by apply Hnew; eexists.
    - eexists. cbn. rewrite lookup_insert_eq. split; [reflexivity|done]. }
  destruct Hrow as [Hfresh Hrow].
  apply wp_db_simple; [done|]. intros s3 Hl3 HI3. pose proof (update_last_authenticated_moves device now now_device s3 HI3) as Hm.
  split; [done|]. intros _. destruct (fst (update_last_authenticated _ _ _ s3)); [|done]. intros _. eexists. split_and!; [reflexivity|done..| | |done].
  - destruct Hrow as (y & Hy & Huy & Hdy). destruct (al_sessions _ _ (transitivity Hl3 (proj2 Hm)) _ _ Hy) as (z & Hz & []).
    exists z. split_and!; congruence.
  - by eapply not_revoked_earlier; [exact Hl1|..].
Qed.

Definition validate_post (s0 : Auth) (id : uuid) (claimed : option uuid) (now : Z) (r : SessionValidationResult) (s : Auth) : Prop :=
  sv_status r = Valid -> exists x, sv_session r = Some x /\ se_session_id x = id /\ reading x s /\
    se_session_status x = SessionActive /\ now < se_expires_at x /\ (forall d, claimed = Some d -> d = se_device_id x) /\
    (forall x0, sessions s0 !! id = Some x0 -> se_session_status x0 = SessionActive) /\ not_revoked (se_device_id x) s0 /\
    (se_authentication_level x = MfaVerified ->
       exists i c, mfa_challenges s !! i = Some c /\ ch_session_id c = id /\ ch_challenge_status c = ChallengeCompleted).

Lemma validate_post_stable s0 id claimed now : stable_post (plain (validate_post s0 id claimed now)).
Proof.
  intros r K s s' H Hl _ Hok. destruct (H Hok) as (x & ? & ? & Hr & ? & ? & ? & ? & ? & Hc). exists x.
  split_and!; try done; [by eapply reading_later|]. intros Hlv. destruct (Hc Hlv) as (i & c & Hi & Hs & Hst).
  destruct (al_challenges _ _ Hl _ _ Hi) as (c' & Hi' & []). exists i, c. rewrite cl_frozen in Hi' by congruence. by split_and!.
Qed.

Lemma wp_validate audit id claimed now K s0 :
  auth_inv s0 -> wpa (validate_session audit id claimed now) K (plain (validate_post s0 id claimed now)) s0.
Proof.
  intros HI. unfold validate_session. apply wp_read; [done|]. intros s1 Hl1 HI1.
  destruct (sessions s1 !! id) as [x|] eqn:Hx; [|done].
  case_bool_decide as Hrev; [by apply wp_publish|].
  destruct (bool_decide (se_session_status x = SessionExpired) || _) eqn:Hexp; [by apply wp_publish|].
  apply orb_false_iff in Hexp as [Hne%bool_decide_eq_false Hexp%Z.leb_gt].
  destruct (from_option _ _ claimed) eqn:Hcl; [done|]. apply wp_read; [done|]. intros s2 Hl2 HI2.
  destruct (devices s2 !! se_device_id x) as [d|] eqn:Hd; [|done]. case_bool_decide as Ha; cbn [negb]; [|done].
  apply wp_db_simple; [done|]. intros s3 Hl3 HI3. pose proof (touch_session_activity_moves id now s3 HI3) as Hm. split; [done|].
  intros _. destruct (fst (touch_session_activity _ _ s3)); [|done]. intros _.
  assert (Hact : se_session_status x = SessionActive) by (by destruct (se_session_status x)).
  pose proof (so_key _ _ _ (ai_sessions _ HI1 _ _ Hx)) as Hkey. assert (Hl : auth_later s1 (committed (touch_session_activity id now) s3)).
  { transitivity s2; [done|]. transitivity s3; [done|]. apply Hm. }
  eexists. split_and!; [reflexivity|done| |done|done| | | |].
  - destruct (al_sessions _ _ Hl _ _ Hx) as (y & Hy & []). exists y. cbn. rewrite Hkey. split; [done|]. by constructor.
  - intros d' ->. cbn in Hcl. by apply negb_false_iff, bool_decide_eq_true in Hcl.
  - intros x0 Hx0. destruct (al_sessions _ _ Hl1 _ _ Hx0) as (y & Hy & []). destruct (decide (se_session_status x0 = SessionActive)); [done|].
    exfalso. apply sl_ended; [done|]. congruence.
  - by eapply not_revoked_earlier; [exact (transitivity Hl1 Hl2)|..].
  - intros Hlv. destruct (so_level _ _ _ (ai_sessions _ HI1 _ _ Hx) Hlv) as (i & c & Hi & Hs & Hst).
    destruct (al_challenges _ _ Hl _ _ Hi) as (c' & Hi' & []). exists i, c. rewrite cl_frozen in Hi' by congruence. by split_and!.
Qed.

(** The session can never be used again. *)
Definition session_over (id : uuid) (s : Auth) : Prop := exists x, sessions s !! id = Some x /\ se_session_status x <> SessionActive.

Lemma session_over_later id s s' : session_over id s -> auth_later s s' -> session_over id s'.
Proof. intros (x & Hx & Hst) Hl. destruct (al_sessions _ _ Hl _ _ Hx) as (y & Hy & []). exists y. auto. Qed.

Lemma wp_manager_revoke_session audit id now K s :
  auth_inv s -> wpa (manager_revoke_session audit id now) K (plain (fun r s' => sr_status r = RevocationSuccess -> session_over id s')) s.
Proof.
  intros HI. unfold manager_revoke_session. apply wp_read; [done|]. intros s1 Hl1 HI1. destruct (sessions s1 !! id) as [x|]; [|done].
  repeat case_bool_decide; try done. apply wp_db_simple; [done|]. intros s2 Hl2 HI2. pose proof (revoke_session_atomic_moves id now s2 HI2) as Hm.
  split; [done|]. intros HI2'. unfold committed in *. destruct (revoke_session_atomic id now s2) as [[[]|] s2'] eqn:E; cbn [fst is_ok] in *; [|done..].
  apply wp_publish; [done|]. intros s3 Hl3 _ _. eapply session_over_later; [|exact Hl3]. unfold revoke_session_atomic in E.
  destruct (sql_row _ _ _) as [y|]; [|done]. injection E as <-. eexists. cbn. rewrite lookup_insert_eq. by split.
Qed.

Lemma wp_revoke_sessions_where p now K s :
  auth_inv s -> wpa (let* r := db (revoke_sessions_where p now) in Ret (revocation_of r)) K (plain (fun _ _ => True)) s.
Proof. intros HI. apply wp_db_simple; [done|]. intros s' Hl HI'. split; [by apply revoke_sessions_where_moves|done]. Qed.

Lemma wp_issue config_ sha serialize session scopes d K s :
  auth_inv s -> (exists y, sessions s !! se_session_id session = Some y /\ se_device_id y = se_device_id session) ->
  wpa (issue_initial_tokens config_ sha serialize session scopes d) K (plain (fun _ _ => True)) s.
Proof.
  intros HI Hr. unfold issue_initial_tokens. destruct (session_active session); cbn [negb]; [|done]. destruct (_ <? _); [done|].
  destruct (serialize _); [|done]. apply wp_db_simple; [done|]. intros s' Hl HI'. split; [|by intros _; destruct (fst _)].
  apply create_token_moves; [done|]. constructor; [|done|done]. destruct Hr as (y & Hy & Hd). destruct (al_sessions _ _ Hl _ _ Hy) as (z & Hz & []).
  exists z. split; [done|]. cbn. congruence.
Qed.

(** ** Replays *)

Lemma head_of_verifier s id t :
  auth_inv s -> refresh_tokens s !! id = Some t -> head (with_verifier (rt_token_verifier t) (refresh_tokens s)) = Some t.
Proof.
  intros HI Hid. assert (Hin : t ∈ with_verifier (rt_token_verifier t) (refresh_tokens s)) by (apply elem_of_with_verifier; eauto).
  destruct (head _) as [t'|] eqn:E; [|destruct (with_verifier _ _); [by apply elem_of_nil in Hin|done]].
  apply head_with_verifier in E as [Hv (id' & Hid')]. assert (id' = id) as -> by (by eapply (ai_verifiers _ HI)). congruence.
Qed.

Lemma handle_token_reuse_spec s id t now :
  auth_inv s -> refresh_tokens s !! id = Some t -> rt_token_status t = TokenRotated ->
  exists s', handle_token_reuse (rt_token_verifier t) now s = (Ok tt, s') /\ session_over (rt_session_id t) s' /\
    forall i x, refresh_tokens s' !! i = Some x -> rt_session_id x = rt_session_id t -> rt_token_status x <> TokenActive.
Proof.
  intros HI Hid Hst. unfold handle_token_reuse. rewrite (head_of_verifier s id t HI Hid), bool_decide_eq_true_2 by done. cbn [negb].
  destruct (to_session _ _ _ (ai_tokens _ HI _ _ Hid)) as (y & Hy & _). rewrite Hy. eexists. split; [reflexivity|]. split.
  - eexists. cbn. rewrite lookup_insert_eq. by split.
  - cbn [refresh_tokens set_refresh_tokens set_sessions]. intros i x Hx Hs. unfold sql_update in Hx. rewrite lookup_fmap in Hx.
    apply fmap_Some in Hx as (x0 & Hx0 & ->). destruct (bool_decide _ && token_active x0) eqn:E; [done|]. rewrite bool_decide_eq_true_2 in E by done.
    by apply bool_decide_eq_false in E.
Qed.

(** A token that is presented again after the grace window counts as stolen: the call
    says so and issues nothing, the session of the token is over and no token of that
    session is active. *)
Theorem reuse_revokes_family audit config_ sha256_hex serialize s id token secret device d rotated :
  auth_inv s -> refresh_tokens s !! id = Some token -> rt_token_verifier token = sha256_hex secret -> secret <> EmptyString ->
  rt_token_status token = TokenRotated -> rt_rotated_at token = Some rotated -> concurrency_grace_window config_ < now d - rotated ->
  exists s', solo (manager_refresh_tokens audit config_ sha256_hex serialize secret device d) s = (refused CompromiseDetected, s') /\
    session_over (rt_session_id token) s' /\
    forall i t, refresh_tokens s' !! i = Some t -> rt_session_id t = rt_session_id token -> rt_token_status t <> TokenActive.
Proof.
  intros HI Hid Hv Hne Hst Hat Hlate. destruct (handle_token_reuse_spec s id token (now_reuse d) HI Hid Hst) as (s1 & Hr & Hover & Hdead).
  unfold manager_refresh_tokens. rewrite bool_decide_eq_false_2 by done. rewrite solo_bind. unfold refresh_checked, db.
  rewrite solo_transaction. unfold committed at 1, find_by_verifier. cbn [fst snd is_ok]. rewrite <- Hv, (head_of_verifier s id token) by done.
  rewrite bool_decide_eq_true_2 by done. rewrite Hat. cbn [from_option]. rewrite (proj2 (Z.leb_gt _ _)) by lia.
  rewrite solo_transaction. unfold committed. rewrite Hr. cbn [fst is_ok]. destruct audit; (eexists; split; [reflexivity|done]).
Qed.
End tokens.
