(* ===== verification/Totp.v ===== *)
(** * Time-based one-time passwords

    Models [src/auth/crypto/totp_engine.cpp] (RFC 6238 over the truncation of
    RFC 4226).  HMAC is a parameter; [None] stands for an exception. *)

From S2P Require Import Prelude Ids Bytes Bucket AuditValidation Base32.
From Stdlib Require Import Ascii.
From stdpp Require Import pretty.
#[local] Open Scope Z_scope.

Inductive TotpHashAlgorithm := Sha1 | Sha256.

Record TotpConfig := mkTotpConfig {
  totp_digits : Z; time_step_seconds : Z; algorithm : TotpHashAlgorithm; drift_window_steps : Z }.

(** The constructor's checks. *)
Definition TotpEngine (config : TotpConfig) : option TotpConfig :=
  if (totp_digits config =? 0) || (10 <? totp_digits config) then None
  else if time_step_seconds config =? 0 then None
  else if drift_window_steps config <? 0 then None
  else Some config.

Record TotpVerificationResult := mkTotpResult { totp_valid : bool; matched_time_step : Z }.

(** The loop of [power_of_ten], on 32 bits. *)
Definition power_of_ten (digits : Z) : Z := Nat.iter (Z.to_nat digits) (fun val => u32 (val * 10)) 1.

(** [std::setw] and [std::setfill('0')] before a number. *)
Definition zero_filled (width : Z) (text : list ascii) : list ascii :=
  replicate (Z.to_nat width - length text) "0"%char ++ text.

Section engine.
Context (hmac : TotpHashAlgorithm -> list Z -> list Z -> option (list Z)) (config_ : TotpConfig).

Definition byte_at (hash : list Z) (i : Z) : Z := default 0 (hash !! Z.to_nat i).

(** The 31 bits that dynamic truncation selects. *)
Definition truncation_offset (hash : list Z) : Z := Z.land (byte_at hash (Z.of_nat (length hash) - 1)) 15.
Definition binary_code (hash : list Z) : Z :=
  let offset := truncation_offset hash in
  Z.lor (Z.lor (Z.lor (Z.shiftl (Z.land (byte_at hash offset) 127) 24) (Z.shiftl (Z.land (byte_at hash (offset + 1)) 255) 16))
    (Z.shiftl (Z.land (byte_at hash (offset + 2)) 255) 8)) (Z.land (byte_at hash (offset + 3)) 255).

Definition compute_code (secret : list Z) (timestamp_seconds : Z) : option (list ascii) :=
  match secret with
  | [] => None
  | _ =>
      let counter := timestamp_seconds / time_step_seconds config_ in
      hash ← hmac (algorithm config_) secret (be_bytes 8 counter);
      let otp := binary_code hash mod power_of_ten (totp_digits config_) in
      Some (zero_filled (totp_digits config_) (chars (decimal otp)))
  end.

(** The loop over the drift window, from the earliest step. *)
Fixpoint try_steps (secret : list Z) (clean_code : list ascii) (current_step : Z) (drifts : list Z)
    : option TotpVerificationResult :=
  match drifts with
  | [] => Some (mkTotpResult false 0)
  | drift :: drifts =>
      let step_to_test := current_step + drift in
      if step_to_test <? 0 then try_steps secret clean_code current_step drifts
      else
        candidate ← compute_code secret (u64 (step_to_test * time_step_seconds config_));
        if bool_decide (clean_code = candidate) then Some (mkTotpResult true step_to_test)
        else try_steps secret clean_code current_step drifts
  end.

Definition without_spaces (code : list ascii) : list ascii := filter (fun c => isspace c = false) code.

Definition verify_code (secret : list Z) (code : list ascii) (timestamp_seconds : Z) : option TotpVerificationResult :=
  let clean_code := without_spaces code in
  if negb (Z.of_nat (length clean_code) =? totp_digits config_) then Some (mkTotpResult false 0)
  else
    let window := drift_window_steps config_ in
    try_steps secret clean_code (i64 (timestamp_seconds / time_step_seconds config_)) (seqZ (- window) (2 * window + 1)).
End engine.

(** ** Provisioning links *)

(** [std::hex << std::uppercase]. *)
Definition hex_upper (d : Z) : ascii := if d <? 10 then chr (code "0" + d) else chr (code "A" + d - 10).

Definition unreserved (c : ascii) : bool :=
  isalnum c || Ascii.eqb c "-" || Ascii.eqb c "_" || Ascii.eqb c "." || Ascii.eqb c "~".

Definition url_encode_char (c : ascii) : list ascii :=
  if unreserved c then [c] else ["%"%char; hex_upper (Z.shiftr (code c) 4); hex_upper (Z.land (code c) 15)].
Definition url_encode (value : list ascii) : list ascii := mjoin (url_encode_char <$> value).

Definition generate_otpauth_uri (config_ : TotpConfig) (issuer account_name base32_secret : list ascii) : list ascii :=
  chars "otpauth://totp/"
  ++ (match issuer with [] => url_encode account_name | _ => url_encode issuer ++ chars ":" ++ url_encode account_name end)
  ++ chars "?secret=" ++ base32_secret
  ++ (match issuer with [] => [] | _ => chars "&issuer=" ++ url_encode issuer end)
  ++ chars "&algorithm=" ++ (match algorithm config_ with Sha256 => chars "SHA256" | Sha1 => chars "SHA1" end)
  ++ chars "&digits=" ++ chars (decimal (totp_digits config_))
  ++ chars "&period=" ++ chars (decimal (time_step_seconds config_)).

(** ** Numbers of a fixed width *)

Fixpoint fixed_digits (n : nat) (z : Z) : list ascii :=
  match n with O => [] | S n => fixed_digits n (z / 10) ++ [digit (z mod 10)] end.

Lemma length_fixed_digits n z : length (fixed_digits n z) = n.
Proof. revert z. induction n as [|n IH]; intros z; [done|]. cbn [fixed_digits]. rewrite length_app, IH. cbn. lia. Qed.

Lemma fixed_digits_0 n : fixed_digits n 0 = replicate n "0"%char.
Proof.
  induction n as [|n IH]; [done|]. cbn [fixed_digits]. change (0 / 10) with 0. rewrite IH. change [digit (0 mod 10)] with (replicate 1 "0"%char).
  rewrite <- replicate_add. f_equal. lia.
Qed.

(** The digits of a width tell a number below its bound. *)
Lemma fixed_digits_inj n : forall x y, 0 <= x < 10 ^ Z.of_nat n -> 0 <= y < 10 ^ Z.of_nat n ->
  fixed_digits n x = fixed_digits n y -> x = y.
Proof.
  induction n as [|n IH]; intros x y Hx Hy Heq; [cbn in *; lia|]. cbn [fixed_digits] in Heq.
  rewrite Nat2Z.inj_succ, Z.pow_succ_r in Hx, Hy by lia. apply app_inj_2 in Heq as [Hq Hr]; [|done]. injection Hr as Hr.
  apply IH in Hq; [|split; [apply Z.div_pos; lia|apply Z.div_lt_upper_bound; lia]..].
  assert (Hd : x mod 10 = y mod 10).
  { rewrite <- (digit_val_digit (x mod 10)), Hr, digit_val_digit; [done|apply is_dec_mod..]. }
  rewrite (Z.div_mod x 10), (Z.div_mod y 10) by lia. by rewrite Hq, Hd.
Qed.

Lemma pretty_N_char_digit d : 0 <= d < 10 -> pretty_N_char (Z.to_N d) = digit d.
Proof.
  intros Hd. assert (H : forallb (fun n => Ascii.eqb (pretty_N_char (N.of_nat n)) (digit (Z.of_nat n))) (seq 0 10) = true) by reflexivity.
  rewrite forallb_forall in H. specialize (H (Z.to_nat d)). rewrite Z_nat_N, Z2Nat.id in H by lia.
  apply Ascii.eqb_eq, H, in_seq. lia.
Qed.

Lemma pretty_go_fixed n : forall z s, 0 <= z < 10 ^ Z.of_nat n ->
  exists l, chars (pretty_N_go (Z.to_N z) s) = l ++ chars s /\ (length l <= n)%nat /\
    replicate (n - length l) "0"%char ++ l = fixed_digits n z.
Proof.
  induction n as [|n IH]; intros z s Hz.
  - exists []. cbn in Hz. assert (z = 0) as -> by lia. by rewrite pretty_N_go_0.
  - destruct (decide (z = 0)) as [->|Hne].
    + exists []. rewrite pretty_N_go_0, app_nil_r, fixed_digits_0. split_and!; [done|cbn; lia|done].
    + rewrite Nat2Z.inj_succ, Z.pow_succ_r in Hz by lia. rewrite pretty_N_go_step by lia.
      replace (Z.to_N z `div` 10)%N with (Z.to_N (z / 10)) by (by rewrite Z2N.inj_div by lia).
      replace (Z.to_N z `mod` 10)%N with (Z.to_N (z mod 10)) by (by rewrite Z2N.inj_mod by lia).
      rewrite pretty_N_char_digit by (by apply Z.mod_pos_bound).
      destruct (IH (z / 10) (String (digit (z mod 10)) s)) as (l & Hl & Hlen & Hrep).
      { split; [apply Z.div_pos; lia|apply Z.div_lt_upper_bound; lia]. }
      exists (l ++ [digit (z mod 10)]). rewrite Hl, length_app. cbn [length fixed_digits]. split_and!.
      * by rewrite <- app_assoc.
      * lia.
      * rewrite app_assoc. f_equal. rewrite <- Hrep. f_equal. f_equal. lia.
Qed.

Lemma zero_filled_decimal n z :
  0 <= z < 10 ^ n -> 0 < n -> zero_filled n (chars (decimal z)) = fixed_digits (Z.to_nat n) z.
Proof.
  intros Hz Hn. unfold zero_filled, decimal, pretty, pretty_N. case_decide as H0.
  - assert (z = 0) as -> by lia. rewrite fixed_digits_0. change (chars "0") with (replicate 1 "0"%char).
    rewrite <- replicate_add. f_equal. cbn. lia.
  - destruct (pretty_go_fixed (Z.to_nat n) z EmptyString) as (l & Hl & Hlen & Hrep); [by rewrite Z2Nat.id by lia|].
    by rewrite Hl, app_nil_r.
Qed.

(** ** Codes *)

Lemma power_of_ten_small n : 0 <= n <= 9 -> power_of_ten n = 10 ^ n.
Proof.
  intros Hn. assert (H : forallb (fun k => power_of_ten (Z.of_nat k) =? 10 ^ Z.of_nat k) (seq 0 10) = true) by reflexivity.
  rewrite forallb_forall in H. specialize (H (Z.to_nat n)). rewrite Z2Nat.id in H by lia. apply Z.eqb_eq, H, in_seq. lia.
Qed.

(** What RFC 4226 calls dynamic truncation: four bytes of the digest at an offset its
    last byte gives, as a number without its sign bit. *)
Definition rfc_truncation (hash : list Z) : Z :=
  Uuid.be (take 4 (drop (Z.to_nat (byte_at hash (Z.of_nat (length hash) - 1) mod 16)) hash)) mod 2 ^ 31.

(** A digest of HMAC with SHA-1 or SHA-256. *)
Definition digest_ok (hash : list Z) : Prop := (20 <= length hash)%nat /\ Forall Uuid.is_byte hash.

Lemma byte_at_lookup hash i b : 0 <= i -> hash !! Z.to_nat i = Some b -> byte_at hash i = b.
Proof. intros Hi Hb. unfold byte_at. by rewrite Hb. Qed.

Lemma byte_at_range hash i : Forall Uuid.is_byte hash -> Uuid.is_byte (byte_at hash i).
Proof.
  intros Hall. unfold byte_at. destruct (hash !! Z.to_nat i) as [b|] eqn:E; [|by unfold Uuid.is_byte].
  by eapply Forall_lookup_1.
Qed.

Lemma truncation_offset_range hash : truncation_offset hash = byte_at hash (Z.of_nat (length hash) - 1) mod 16 /\ 0 <= truncation_offset hash < 16.
Proof.
  unfold truncation_offset. change 15 with (Z.ones 4). rewrite Z.land_ones by lia. split; [done|]. by apply Z.mod_pos_bound.
Qed.

Lemma drop_four {A} (l : list A) (k : nat) a b c d :
  l !! k = Some a -> l !! (S k) = Some b -> l !! (S (S k)) = Some c -> l !! (S (S (S k))) = Some d ->
  take 4 (drop k l) = [a; b; c; d].
Proof. intros Ha Hb Hc Hd. by rewrite (drop_S l a), (drop_S l b), (drop_S l c), (drop_S l d). Qed.

Lemma shifted_bytes b0 b1 b2 b3 :
  Uuid.is_byte b0 -> Uuid.is_byte b1 -> Uuid.is_byte b2 -> Uuid.is_byte b3 ->
  Z.lor (Z.lor (Z.lor (Z.shiftl (Z.land b0 127) 24) (Z.shiftl (Z.land b1 255) 16)) (Z.shiftl (Z.land b2 255) 8)) (Z.land b3 255)
  = Uuid.be [b0; b1; b2; b3] mod 2 ^ 31.
Proof.
  unfold Uuid.is_byte. intros H0 H1 H2 H3. rewrite !Uuid.land_255. change 127 with (Z.ones 7). rewrite Z.land_ones by lia.
  rewrite !Z.shiftl_mul_pow2, !(Z.mod_small _ 256) by lia. change (2 ^ 7) with 128. pose proof (Z.mod_pos_bound b0 128 ltac:(lia)) as Hm.
  replace (b0 mod 128 * 2 ^ 24) with ((b0 mod 128 * 256) * 2 ^ 16) by lia.
  replace (Z.lor (b0 mod 128 * 256 * 2 ^ 16) (b1 * 2 ^ 16)) with ((b0 mod 128 * 256 + b1) * 2 ^ 16).
  2:{ rewrite <- !Z.shiftl_mul_pow2, <- Z.shiftl_lor by lia. f_equal. by rewrite <- (lor_shifted _ 8) by lia. }
  replace ((b0 mod 128 * 256 + b1) * 2 ^ 16) with (((b0 mod 128 * 256 + b1) * 256) * 2 ^ 8) by lia.
  replace (Z.lor (((b0 mod 128 * 256 + b1) * 256) * 2 ^ 8) (b2 * 2 ^ 8)) with (((b0 mod 128 * 256 + b1) * 256 + b2) * 2 ^ 8).
  2:{ rewrite <- !Z.shiftl_mul_pow2, <- Z.shiftl_lor by lia. f_equal. by rewrite <- (lor_shifted _ 8) by lia. }
  rewrite lor_shifted by lia. cbn [Uuid.be length]. change (256 ^ Z.of_nat 3) with 16777216. change (256 ^ Z.of_nat 2) with 65536.
  change (256 ^ Z.of_nat 1) with 256. change (256 ^ Z.of_nat 0) with 1. change (2 ^ 31) with 2147483648. change (2 ^ 8) with 256.
  Z.to_euclidean_division_equations. lia.
Qed.

(** The truncation reads four bytes of the digest, never past its end. *)
Lemma binary_code_rfc hash : digest_ok hash -> binary_code hash = rfc_truncation hash.
Proof.
  intros [Hlen Hall]. unfold binary_code, rfc_truncation. destruct (truncation_offset_range hash) as [<- Ho].
  set (o := truncation_offset hash) in *. clearbody o.
  assert (Hin : forall i, o <= i <= o + 3 -> hash !! Z.to_nat i = Some (byte_at hash i)).
  { intros i Hi. unfold byte_at. destruct (hash !! Z.to_nat i) eqn:E; [done|]. apply lookup_ge_None in E. lia. }
  rewrite shifted_bytes by (by apply byte_at_range).
  rewrite (drop_four hash (Z.to_nat o) (byte_at hash o) (byte_at hash (o + 1)) (byte_at hash (o + 2)) (byte_at hash (o + 3))); [done|..].
  - apply Hin. lia.
  - rewrite <- Hin by lia. f_equal. lia.
  - rewrite <- Hin by lia. f_equal. lia.
  - rewrite <- Hin by lia. f_equal. lia.
Qed.

Section codes.
Context (hmac : TotpHashAlgorithm -> list Z -> list Z -> option (list Z)) (config_ : TotpConfig).
Context (Hhmac : forall alg key msg, exists hash, hmac alg key msg = Some hash /\ digest_ok hash).
Context (Hconfig : TotpEngine config_ = Some config_) (Hstep : 0 < time_step_seconds config_ < 2 ^ 32) (Hdigits : 0 <= totp_digits config_).

Lemma engine_digits : 1 <= totp_digits config_ <= 10 /\ 0 <= drift_window_steps config_.
Proof using Hconfig Hdigits.
  unfold TotpEngine in Hconfig. destruct ((totp_digits config_ =? 0) || (10 <? totp_digits config_)) eqn:E; [done|].
  apply orb_false_iff in E as [E1%Z.eqb_neq E2%Z.ltb_ge]. destruct (_ =? 0); [done|].
  destruct (Z.ltb_spec (drift_window_steps config_) 0); [done|]. lia.
Qed.

Lemma power_of_ten_le n : 1 <= n <= 10 -> 0 < power_of_ten n <= 10 ^ n.
Proof.
  intros Hn. destruct (decide (n = 10)) as [->|]; [by vm_compute|]. rewrite power_of_ten_small by lia.
  split; [by apply Z.pow_pos_nonneg; lia|done].
Qed.

Lemma otp_range hash : 0 <= binary_code hash mod power_of_ten (totp_digits config_) < 10 ^ totp_digits config_.
Proof using Hconfig Hdigits.
  destruct engine_digits as [Hd _]. pose proof (power_of_ten_le _ Hd) as Hp.
  pose proof (Z.mod_pos_bound (binary_code hash) (power_of_ten (totp_digits config_)) ltac:(lia)). lia.
Qed.

(** A code exists for every secret and time, and has the width that is configured. *)
Lemma compute_code_total secret t :
  secret <> [] -> exists code, compute_code hmac config_ secret t = Some code /\ Z.of_nat (length code) = totp_digits config_.
Proof using Hhmac Hconfig Hdigits.
  intros Hne. unfold compute_code. destruct secret as [|b secret]; [done|].
  destruct (Hhmac (algorithm config_) (b :: secret) (be_bytes 8 (t / time_step_seconds config_))) as (hash & -> & _).
  eexists. split; [reflexivity|]. destruct engine_digits as [Hd _].
  rewrite zero_filled_decimal, length_fixed_digits by (apply otp_range || lia). lia.
Qed.

(** Up to nine digits, a code is the truncated digest of the time step, modulo a power
    of ten, in decimal with leading zeros. *)
Lemma compute_code_spec secret t hash :
  totp_digits config_ <= 9 -> secret <> [] ->
  hmac (algorithm config_) secret (be_bytes 8 (t / time_step_seconds config_)) = Some hash ->
  compute_code hmac config_ secret t
  = Some (fixed_digits (Z.to_nat (totp_digits config_)) (rfc_truncation hash mod 10 ^ totp_digits config_)).
Proof using Hhmac Hconfig Hdigits.
  intros H9 Hne Hh. unfold compute_code. destruct secret as [|b secret]; [done|]. rewrite Hh. cbn [mbind option_bind].
  destruct engine_digits as [Hd _]. rewrite zero_filled_decimal by (apply otp_range || lia).
  destruct (Hhmac (algorithm config_) (b :: secret) (be_bytes 8 (t / time_step_seconds config_))) as (hash' & Hh' & Hok).
  assert (hash' = hash) as -> by congruence. by rewrite binary_code_rfc, power_of_ten_small by (done || lia).
Qed.

(** The code of a time step. *)
Definition code_at (secret : list Z) (step : Z) : option (list ascii) :=
  compute_code hmac config_ secret (step * time_step_seconds config_).

(** The loop finds the first step of the window whose code it is given. *)
Definition first_match (P : Z -> Prop) (secret : list Z) (clean : list ascii) (r : TotpVerificationResult) : Prop :=
  if totp_valid r then P (matched_time_step r) /\ code_at secret (matched_time_step r) = Some clean /\
    (forall k, P k -> k < matched_time_step r -> code_at secret k <> Some clean)
  else forall k, P k -> code_at secret k <> Some clean.

Lemma try_steps_spec secret clean current n : forall lo,
  secret <> [] -> (current + lo + Z.of_nat n) * time_step_seconds config_ < 2 ^ 64 ->
  exists r, try_steps hmac config_ secret clean current (seqZ lo (Z.of_nat n)) = Some r /\
    first_match (fun k => 0 <= k /\ current + lo <= k < current + lo + Z.of_nat n) secret clean r.
Proof using Hhmac Hconfig Hstep Hdigits.
  induction n as [|n IH]; intros lo Hne Hb.
  - exists (mkTotpResult false 0). split; [done|]. intros k. cbn. lia.
  - rewrite seqZ_cons by lia. cbn [try_steps]. replace (Z.pred (Z.of_nat (S n))) with (Z.of_nat n) by lia.
    destruct (IH (Z.succ lo) Hne ltac:(lia)) as (r & Hr & Hm). destruct (Z.ltb_spec (current + lo) 0).
    + exists r. split; [done|]. unfold first_match in *. destruct (totp_valid r).
      * destruct Hm as (Hk & Hc & Hfirst). split_and!; [lia..|done|]. intros k Hk' Hlt. apply Hfirst; [|done]. lia.
      * intros k Hk. apply Hm. lia.
    + assert (Hu : u64 ((current + lo) * time_step_seconds config_) = (current + lo) * time_step_seconds config_).
      { apply u64_small. unfold in_u64. nia. }
      rewrite Hu. fold (code_at secret (current + lo)). destruct (compute_code_total secret ((current + lo) * time_step_seconds config_) Hne) as (c & Hc & _).
      fold (code_at secret (current + lo)) in Hc. rewrite Hc. cbn [mbind option_bind]. case_bool_decide as Heq.
      * exists (mkTotpResult true (current + lo)). split; [done|]. cbn. split_and!; [lia..|congruence|]. intros k. lia.
      * exists r. split; [done|]. unfold first_match in *.
        assert (Hhere : code_at secret (current + lo) <> Some clean) by congruence.
        assert (Hstart : forall k, current + lo <= k -> code_at secret k = Some clean -> current + lo < k).
        { intros k Hk Hck. destruct (decide (k = current + lo)) as [->|]; [done|lia]. }
        destruct (totp_valid r).
        -- destruct Hm as (Hk & Hck & Hfirst). split_and!; [lia..|done|]. intros k Hk' Hlt Hck'. apply (Hfirst k); [|done|done].
           pose proof (Hstart k ltac:(lia) Hck'). lia.
        -- intros k Hk Hck. pose proof (Hstart k ltac:(lia) Hck). apply (Hm k); [lia|done].
Qed.
End codes.

(** What the theorems ask of the engine and of the library: a configuration the
    constructor accepts, and a digest of at least twenty bytes for every message. *)
Record engine_ok (hmac : TotpHashAlgorithm -> list Z -> list Z -> option (list Z)) (config_ : TotpConfig) : Prop := {
  eo_hmac : forall alg key msg, exists hash, hmac alg key msg = Some hash /\ digest_ok hash;
  eo_config : TotpEngine config_ = Some config_;
  eo_step : 0 < time_step_seconds config_ < 2 ^ 32;
  eo_digits : 0 <= totp_digits config_ }.

(** With at most nine digits the engine computes the codes of RFC 6238: the four bytes
    of the digest of the time step that dynamic truncation selects, without the sign
    bit, modulo a power of ten, in decimal with leading zeros. *)
Theorem totp_code_rfc hmac config_ secret t hash :
  engine_ok hmac config_ -> totp_digits config_ <= 9 -> secret <> [] ->
  hmac (algorithm config_) secret (be_bytes 8 (t / time_step_seconds config_)) = Some hash ->
  compute_code hmac config_ secret t
  = Some (fixed_digits (Z.to_nat (totp_digits config_)) (rfc_truncation hash mod 10 ^ totp_digits config_)).
Proof. intros []. by apply compute_code_spec. Qed.

(** A stand-in for HMAC that spreads the last byte of the message. *)
Definition toy_hmac (alg : TotpHashAlgorithm) (key msg : list Z) : option (list Z) :=
  Some (replicate 19 (Z.land (byte_at msg 7 * 37) 255) ++ [Z.land (byte_at msg 7) 255]).
Definition default_totp : TotpConfig := mkTotpConfig 6 30 Sha1 1.

Lemma toy_engine_ok config_ :
  TotpEngine config_ = Some config_ -> 0 < time_step_seconds config_ < 2 ^ 32 -> 0 <= totp_digits config_ ->
  engine_ok toy_hmac config_.
Proof.
  intros Hc Hs Hd. constructor; [|done..]. intros alg key msg. eexists. split; [reflexivity|].
  split; [rewrite length_app, length_replicate; cbn; lia|]. rewrite !Uuid.land_255.
  apply Forall_app. split; [|constructor; [|done]]; [apply Forall_replicate|]; apply Z.mod_pos_bound; lia.
Qed.

Lemma totp_code_rfc_witness :
  compute_code toy_hmac default_totp [1; 2; 3] 1000
  = Some (fixed_digits 6 (rfc_truncation (replicate 19 197 ++ [33]) mod 10 ^ 6)).
Proof. apply (totp_code_rfc toy_hmac default_totp [1; 2; 3] 1000); [by apply toy_engine_ok|done..]. Defined.

Lemma verify_code_window hmac config_ secret code t :
  engine_ok hmac config_ -> secret <> [] -> 0 <= t ->
  (t / time_step_seconds config_ + drift_window_steps config_ + 1) * time_step_seconds config_ < 2 ^ 63 ->
  exists r, verify_code hmac config_ secret code t = Some r /\
    first_match hmac config_
      (fun k => 0 <= k /\ Z.abs (k - t / time_step_seconds config_) <= drift_window_steps config_) secret (without_spaces code) r.
Proof.
  intros [] Hne Ht Hb. destruct (engine_digits config_ eo_config0 eo_digits0) as [Hd Hw]. unfold verify_code.
  set (T := t / time_step_seconds config_) in *. assert (HT : 0 <= T) by (apply Z.div_pos; lia).
  rewrite i64_small by nia. destruct (Z.eqb_spec (Z.of_nat (length (without_spaces code))) (totp_digits config_)) as [Hlen|Hlen]; cbn [negb].
  - destruct (try_steps_spec hmac config_ eo_hmac0 eo_config0 eo_step0 eo_digits0 secret (without_spaces code) T
      (Z.to_nat (2 * drift_window_steps config_ + 1)) (- drift_window_steps config_) Hne) as (r & Hr & Hm).
    { rewrite Z2Nat.id by lia. replace (T + - drift_window_steps config_ + (2 * drift_window_steps config_ + 1)) with
        (T + drift_window_steps config_ + 1) by lia. lia. }
    rewrite Z2Nat.id in Hr, Hm by lia. exists r. split; [done|]. unfold first_match in *. destruct (totp_valid r).
    + destruct Hm as (Hk & Hc & Hf). split_and!; [lia..|done|]. intros k Hk' Hlt. apply Hf; [|done]. lia.
    + intros k Hk. apply Hm. lia.
  - eexists. split; [reflexivity|]. intros k _ Hk. apply Hlen.
    destruct (compute_code_total hmac config_ eo_hmac0 eo_config0 eo_digits0 secret (k * time_step_seconds config_) Hne) as (c & Hc & Hcl).
    unfold code_at in Hk. congruence.
Qed.

(** A code verifies exactly when, its spaces removed, it is the code of a time step of
    the window around the current one; the step reported is the first such step. *)
Theorem totp_window hmac config_ secret code t :
  engine_ok hmac config_ -> secret <> [] -> 0 <= t ->
  (t / time_step_seconds config_ + drift_window_steps config_ + 1) * time_step_seconds config_ < 2 ^ 63 ->
  exists r, verify_code hmac config_ secret code t = Some r /\
    first_match hmac config_
      (fun k => 0 <= k /\ Z.abs (k - t / time_step_seconds config_) <= drift_window_steps config_) secret (without_spaces code) r.
Proof. apply verify_code_window. Qed.

Lemma totp_window_witness :
  exists r, verify_code toy_hmac default_totp [1; 2; 3] (chars "100 0") 1000 = Some r /\
    first_match toy_hmac default_totp (fun k => 0 <= k /\ Z.abs (k - 33) <= 1) [1; 2; 3] (chars "1000") r.
Proof. apply (totp_window toy_hmac default_totp [1; 2; 3] (chars "100 0") 1000); [by apply toy_engine_ok|done..]. Defined.

(** With ten digits, which the constructor accepts, the power of ten wraps around 32
    bits: a digest whose truncation is 1410065408 gets the code [0000000000]. *)
Theorem ten_digits_wrap :
  TotpEngine (mkTotpConfig 10 30 Sha1 1) = Some (mkTotpConfig 10 30 Sha1 1) /\ power_of_ten 10 = 1410065408 /\
  exists hmac hash, engine_ok hmac (mkTotpConfig 10 30 Sha1 1) /\ (forall alg key msg, hmac alg key msg = Some hash) /\
    rfc_truncation hash = 1410065408 /\
    compute_code hmac (mkTotpConfig 10 30 Sha1 1) [1] 0 = Some (chars "0000000000").
Proof.
  split_and!; [done|by vm_compute|]. set (hash := [84; 11; 228; 0] ++ replicate 16 0). exists (fun _ _ _ => Some hash), hash.
  split_and!; [|done|by vm_compute|by vm_compute]. constructor; [|done..]. intros _ _ _. exists hash. split; [done|].
  split; [cbn; lia|]. repeat constructor; by vm_compute.
Qed.

(** ** Links *)

Definition hex_value (c : ascii) : Z := if isdigit c then code c - code "0" else code c - code "A" + 10.

(** How a reader of the link undoes the encoding. *)
Fixpoint url_decode (l : list ascii) : list ascii :=
  match l with
  | [] => []
  | c :: l =>
      if Ascii.eqb c "%" then
        match l with h :: l => match l with k :: l => chr (hex_value h * 16 + hex_value k) :: url_decode l | [] => [c; h] end | [] => [c] end
      else c :: url_decode l
  end.

Lemma url_encode_char_check c :
  (if unreserved c then negb (Ascii.eqb c "%")
   else bool_decide (chr (hex_value (hex_upper (Z.shiftr (code c) 4)) * 16 + hex_value (hex_upper (Z.land (code c) 15))) = c))
  && forallb (fun d => unreserved d || Ascii.eqb d "%") (url_encode_char c) = true.
Proof. revert c. apply Uuid.ascii_check_sound. by vm_compute. Qed.

Lemma url_encode_cons c value : url_encode (c :: value) = url_encode_char c ++ url_encode value.
Proof. done. Qed.

Lemma url_decode_encode value : url_decode (url_encode value) = value.
Proof.
  induction value as [|c value IH]; [done|]. rewrite url_encode_cons.
  pose proof (url_encode_char_check c) as Hc. apply andb_prop in Hc as [Hc _]. unfold url_encode_char.
  destruct (unreserved c) eqn:E; cbn [app url_decode].
  - apply negb_true_iff in Hc. by rewrite Hc, IH.
  - apply bool_decide_eq_true in Hc. by rewrite Hc, IH.
Qed.

(** An issuer or an account cannot add a parameter to the link: its encoding has only
    unreserved characters and escapes, and can be undone. *)
Lemma url_encode_clean value :
  url_decode (url_encode value) = value /\ Forall (fun c => unreserved c = true \/ c = "%"%char) (url_encode value).
Proof.
  split; [apply url_decode_encode|]. induction value as [|c value IH]; [done|]. rewrite url_encode_cons.
  apply Forall_app. split; [|done]. pose proof (url_encode_char_check c) as Hc. apply andb_prop in Hc as [_ Hc].
  apply Forall_forall. intros d Hd%list_elem_of_In. rewrite forallb_forall in Hc. specialize (Hc d Hd). apply orb_prop in Hc as [|Hc%Ascii.eqb_eq]; auto.
Qed.
