(* ===== verification/MfaFactors.v ===== *)
(** * Factors of multi-factor authentication

    Models [src/auth/crypto/mfa_secret_protector.cpp] (the stored form of a shared
    secret), [src/auth/service/totp_authenticator.cpp] and
    [src/auth/crypto/recovery_code_generator.cpp].  AES-256-GCM, SHA-256 and the random
    bytes are arguments; [None] stands for an exception. *)

From S2P Require Import Prelude Ids Bytes AuditValidation Base32 Totp.
From Stdlib Require Import Ascii.
#[local] Open Scope Z_scope.

(** ** Protected secrets *)

Definition kKeySize : nat := 32.
Definition kIvSize : nat := 12.
Definition kTagSize : nat := 16.
Definition kMinCipherSize : nat := kIvSize + kTagSize.

Definition hex_nibble (c : ascii) : Z :=
  if in_range "0" "9" c then code c - code "0"
  else if in_range "a" "f" c then code c - code "a" + 10
  else if in_range "A" "F" c then code c - code "A" + 10
  else -1.

Fixpoint parse_hex_key (l : list ascii) : option (list Z) :=
  match l with
  | a :: b :: l =>
      let hi := hex_nibble a in let lo := hex_nibble b in
      if (hi <? 0) || (lo <? 0) then None else cons (Z.lor (Z.shiftl hi 4) lo) <$> parse_hex_key l
  | _ => Some []
  end.

Definition parse_key (key_str : list ascii) : option (list Z) :=
  if (length key_str =? 32)%nat then Some (code <$> key_str)
  else if (length key_str =? 64)%nat then parse_hex_key key_str
  else None.

(** The cipher: the ciphertext and the tag of a plaintext, and the plaintext of a
    ciphertext whose tag is right. *)
Record Gcm := mkGcm {
  gcm_seal : list Z -> list Z -> list ascii -> list Z -> option (list Z * list Z);
  gcm_open : list Z -> list Z -> list ascii -> list Z -> list Z -> option (list Z) }.

Record gcm_ok (g : Gcm) : Prop := {
  go_seal : forall key iv aad pt, exists ct tag,
    gcm_seal g key iv aad pt = Some (ct, tag) /\ length ct = length pt /\ length tag = kTagSize;
  go_open : forall key iv aad pt ct tag, gcm_seal g key iv aad pt = Some (ct, tag) -> gcm_open g key iv aad ct tag = Some pt }.

Definition encrypt (g : Gcm) (kek : list Z) (iv : list Z) (plaintext : list Z) (aad : list ascii) : option (list Z) :=
  '(ciphertext, tag) ← gcm_seal g kek iv aad plaintext;
  Some (iv ++ ciphertext ++ tag).

Definition decrypt (g : Gcm) (kek : list Z) (encrypted_payload : list Z) (aad : list ascii) : option (list Z) :=
  if (length encrypted_payload <? kMinCipherSize)%nat then None
  else
    let ciphertext_size := (length encrypted_payload - kIvSize - kTagSize)%nat in
    gcm_open g kek (take kIvSize encrypted_payload) aad (take ciphertext_size (drop kIvSize encrypted_payload))
      (drop (kIvSize + ciphertext_size) encrypted_payload).

Lemma decrypt_encrypt g kek iv plaintext aad :
  gcm_ok g -> length iv = kIvSize ->
  exists payload, encrypt g kek iv plaintext aad = Some payload /\ decrypt g kek payload aad = Some plaintext /\ payload <> [].
Proof.
  intros [Hseal Hopen] Hiv. destruct (Hseal kek iv aad plaintext) as (ct & tag & Hs & _ & Htag). unfold encrypt. rewrite Hs. cbn.
  eexists. split; [reflexivity|]. unfold kIvSize, kTagSize in *. split; [|by destruct iv].
  unfold decrypt, kMinCipherSize, kIvSize, kTagSize. rewrite !length_app, Hiv, Htag.
  rewrite (proj2 (Nat.ltb_ge _ _)) by lia. replace (12 + (length ct + 16) - 12 - 16)%nat with (length ct) by lia.
  rewrite take_app_length' by done. rewrite <- Hiv at 1. rewrite drop_app_length, take_app_length.
  replace (12 + length ct)%nat with (length (iv ++ ct)) by (rewrite length_app; lia). rewrite app_assoc, drop_app_length. by apply Hopen.
Qed.

(** ** The authenticator *)

Section authenticator.
Context (hmac : TotpHashAlgorithm -> list Z -> list Z -> option (list Z)) (config_ : TotpConfig) (gcm : Gcm) (kek : list Z).

(** The step that matched, or none. *)
Definition verify_factor (encrypted_secret : list Z) (credential : list ascii) (timestamp_seconds : Z) (aad : list ascii)
    : option (option Z) :=
  match encrypted_secret, credential with
  | [], _ => Some None
  | _, [] => Some None
  | _, _ =>
      match decrypt gcm kek encrypted_secret aad with
      | None => Some None
      | Some plaintext_secret =>
          res ← verify_code hmac config_ plaintext_secret credential timestamp_seconds;
          Some (if totp_valid res then Some (matched_time_step res) else None)
      end
  end.

(** The code an authenticator shows at a step, of the secret in a stored configuration. *)
Definition factor_code (encrypted_secret : list Z) (aad : list ascii) (step : Z) : option (list ascii) :=
  secret ← decrypt gcm kek encrypted_secret aad; code_at hmac config_ secret step.

Lemma verify_factor_sound encrypted credential t aad k :
  engine_ok hmac config_ -> 0 <= t ->
  (t / time_step_seconds config_ + drift_window_steps config_ + 1) * time_step_seconds config_ < 2 ^ 63 ->
  verify_factor encrypted credential t aad = Some (Some k) ->
  0 <= k /\ Z.abs (k - t / time_step_seconds config_) <= drift_window_steps config_ /\
  factor_code encrypted aad k = Some (without_spaces credential).
Proof.
  intros Hok Ht Hb H. unfold verify_factor in H. destruct encrypted as [|b encrypted]; [done|]. destruct credential as [|c credential]; [done|].
  destruct (decrypt gcm kek (b :: encrypted) aad) as [secret|] eqn:Hd; [|done].
  destruct (verify_code hmac config_ secret (c :: credential) t) as [res|] eqn:Hv; [|done]. cbn in H.
  destruct (totp_valid res) eqn:Hvalid; [|done]. injection H as <-. unfold factor_code. rewrite Hd. cbn.
  assert (Hne : secret <> []).
  { intros ->. unfold verify_code in Hv. destruct (negb _); [injection Hv as <-; done|].
    revert Hv. generalize (i64 (t / time_step_seconds config_)). intros T.
    induction (seqZ (- drift_window_steps config_) (2 * drift_window_steps config_ + 1)) as [|x l IH]; intros Hv; cbn [try_steps] in Hv;
      [injection Hv as <-; done|]. destruct (_ <? 0); [by apply IH|done]. }
  destruct (verify_code_window hmac config_ secret (c :: credential) t Hok Hne Ht Hb) as (r & Hr & Hm). assert (r = res) as -> by congruence.
  unfold first_match in Hm. rewrite Hvalid in Hm. destruct Hm as ([? ?] & ? & _). by split_and!.
Qed.
End authenticator.

(** ** Recovery codes *)

Definition kDefaultCodeCount : nat := 8.
Definition kRecoveryAlphabet : list ascii := chars "23456789ABCDEFGHJKLMNPQRSTUVWXYZ".

Definition toupper (c : ascii) : ascii := if islower c then chr (code c - 32) else c.

Definition normalize_code (code : list ascii) : list ascii :=
  toupper <$> filter (fun c => Ascii.eqb c "-" || isspace c = false) code.

Definition recovery_char (b : Z) : ascii := default zero (kRecoveryAlphabet !! Z.to_nat (b mod 32)).

(** Eight random bytes as two groups of four characters. *)
Definition generate_single_code (rand_bytes : list Z) : list ascii :=
  (recovery_char <$> take 4 rand_bytes) ++ "-"%char :: (recovery_char <$> drop 4 rand_bytes).

Section recovery.
Context (sha256_hex : list ascii -> string).

Definition hash_code (code : list ascii) : string := sha256_hex (normalize_code code).

(** The plaintext codes and their hashes. *)
Definition generate_batch (rands : list (list Z)) : list (list ascii) * list string :=
  let codes := generate_single_code <$> rands in (codes, hash_code <$> codes).

Fixpoint find_hash (candidate_hash : string) (i : nat) (pool : list string) : option nat :=
  match pool with
  | [] => None
  | target :: pool => if bool_decide (candidate_hash = target) then Some i else find_hash candidate_hash (S i) pool
  end.

Definition verify_and_consume (raw_code : list ascii) (hashed_codes_pool : list string) : option nat :=
  match raw_code, hashed_codes_pool with
  | [], _ => None
  | _, [] => None
  | _, _ => find_hash (hash_code raw_code) 0 hashed_codes_pool
  end.

Lemma find_hash_Some h pool i k : find_hash h i pool = Some k -> (i <= k)%nat /\ pool !! (k - i)%nat = Some h.
Proof.
  revert i. induction pool as [|t pool IH]; intros i H; [done|]. cbn [find_hash] in H. case_bool_decide as Heq.
  - injection H as <-. by rewrite Nat.sub_diag, Heq.
  - apply IH in H as [Hle Hk]. split; [lia|]. by replace (k - i)%nat with (S (k - S i)) by lia.
Qed.

Lemma find_hash_None h pool i : find_hash h i pool = None <-> h ∉ pool.
Proof.
  revert i. induction pool as [|t pool IH]; intros i; cbn [find_hash]; [set_solver|]. case_bool_decide; set_solver.
Qed.

(** A match is the position of the hash of the code in the pool. *)
Lemma verify_and_consume_Some raw pool k :
  verify_and_consume raw pool = Some k -> pool !! k = Some (hash_code raw).
Proof.
  unfold verify_and_consume. destruct raw, pool; try done. intros H. apply find_hash_Some in H as [_ H]. by rewrite Nat.sub_0_r in H.
Qed.

Lemma verify_and_consume_None raw pool : raw <> [] -> verify_and_consume raw pool = None <-> hash_code raw ∉ pool.
Proof. intros Hne. unfold verify_and_consume. destruct raw; [done|]. destruct pool; [set_solver|]. apply find_hash_None. Qed.

(** A code of a batch is found in whatever case, with whatever spaces and dashes it is
    typed. *)
Lemma batch_code_verifies rands code typed :
  code ∈ fst (generate_batch rands) -> normalize_code typed = normalize_code code -> typed <> [] ->
  is_Some (verify_and_consume typed (snd (generate_batch rands))).
Proof.
  intros Hin Hn Hne. destruct (verify_and_consume typed _) eqn:E; [done|]. apply verify_and_consume_None in E; [|done].
  destruct E. cbn. unfold hash_code at 1. rewrite Hn. by apply (list_elem_of_fmap_2 hash_code).
Qed.
End recovery.
