(* ===== verification/Mfa.v ===== *)
(** * The MFA manager

    Models [src/auth/service/mfa_manager.cpp]: enrolment, disabling, challenges and
    their verification, as programs of transactions and locked sections.  A section
    that calls the repository while it holds a mutex is split where it does: on those
    paths it changes nothing the mutex guards.  An exception that is no repository
    exception is [DriverException]. *)

From S2P Require Import Prelude Ids Bytes Prog AuthStore AuthTokens Base32 Totp MfaFactors.
From Stdlib Require Import Ascii.
#[local] Open Scope Z_scope.

Definition kMaxChallengeAttempts : Z := 3.

Record MfaEnrollmentInitiation := mkInitiation {
  in_mfa_configuration_id : uuid; base32_secret : list ascii; otpauth_uri : list ascii }.

Inductive MfaEnrollmentStatus := EnrollSuccess | EnrollInvalidCode | ConfigurationNotFound | AlreadyEnabled | EnrollExpired.

Record MfaEnrollmentConfirmationResult := mkConfirmation { cf_status : MfaEnrollmentStatus; recovery_codes : list (list ascii) }.

Inductive MfaChallengeVerificationStatus :=
  | VerifySuccess | InvalidCode | ExpiredChallenge | MaxAttemptsExceeded | VerifyChallengeFailed | AlreadyCompleted.

#[export] Instance MfaChallengeVerificationStatus_eq_dec : EqDecision MfaChallengeVerificationStatus.
Proof. solve_decision. Defined.

Record MfaChallengeVerificationResult := mkVerification {
  vr_status : MfaChallengeVerificationStatus; vr_matched_time_step : Z; vr_session_id : option uuid; vr_user_id : option uuid }.

Definition mfa_failure (st : MfaChallengeVerificationStatus) : MfaChallengeVerificationResult := mkVerification st 0 None None.

(** Seconds since the epoch, as [uint64_t]. *)
Definition epoch_seconds (now : Z) : Z := u64 (Z.quot now 1000000000).

Definition aad_of (user : uuid) : list ascii := chars (uuid_to_string user).

Section manager.
Context (hmac : TotpHashAlgorithm -> list Z -> list Z -> option (list Z)) (totp_config : TotpConfig).
Context (gcm : Gcm) (kek : list Z) (sha256_hex : list ascii -> string).
Context (first_row : list MfaConfigurationEntity -> option MfaConfigurationEntity).

Abbreviation verify_factor := (verify_factor hmac totp_config gcm kek).
Abbreviation find_config := (find_mfa_config_by_user_id first_row).

Definition is_mfa_enabled_for_user (user : uuid) : prog Auth (result RepositoryExn bool) :=
  try* config := db (find_config user) in
  Ret (Ok (from_option (fun c => bool_decide (mc_status c = MfaEnabled)) false config)).

(** [id], [secret_bytes] and [iv] are drawn by the call. *)
Definition initiate_enrollment (user : uuid) (issuer account_name : list ascii) (id : uuid) (secret_bytes iv : list Z) (now : Z)
    : prog Auth (result RepositoryExn MfaEnrollmentInitiation) :=
  try* user_opt := db (fun s => (Ok (users s !! user), s)) in
  match user_opt with
  | None => Ret (Err DriverException)
  | Some u =>
      let account := match account_name with [] => chars (us_credential_identifier u) | _ => account_name end in
      try* existing := db (find_config user) in
      if from_option (fun c => bool_decide (mc_status c = MfaEnabled)) false existing then Ret (Err DriverException)
      else
        match encrypt gcm kek iv secret_bytes (aad_of user) with
        | None => Ret (Err DriverException)
        | Some encrypted_secret =>
            let text := base32_encode secret_bytes false in
            let uri := generate_otpauth_uri totp_config issuer account text in
            try* _ := db (store_mfa_configuration (mkMfaConfiguration id user encrypted_secret MfaPending now None None 1)) in
            let* _ := publish (mfa_enrollment_initiated user) in
            Ret (Ok (mkInitiation id text uri))
        end
  end.

(** [rands] are the random bytes of the recovery codes. *)
Definition confirm_enrollment (user : uuid) (code : list ascii) (rands : list (list Z)) (now : Z)
    : prog Auth (result RepositoryExn MfaEnrollmentConfirmationResult) :=
  let fail st := Ret (Ok (mkConfirmation st [])) in
  try* config_opt := db (find_config user) in
  match config_opt with
  | None => fail ConfigurationNotFound
  | Some config =>
      if bool_decide (mc_status config = MfaEnabled) then fail AlreadyEnabled
      else if negb (bool_decide (mc_status config = MfaPending)) then fail ConfigurationNotFound
      else
        match verify_factor (mc_encrypted_secret config) code (epoch_seconds now) (aad_of user) with
        | None => Ret (Err DriverException)
        | Some None => fail EnrollInvalidCode
        | Some (Some _) =>
            try* _ := db (enable_mfa (mc_mfa_configuration_id config) now (mc_version config)) in
            let batch := generate_batch sha256_hex (take kDefaultCodeCount rands) in
            let* _ := locked (fun s => (tt, set_user_recovery_codes (<[user := snd batch]> (user_recovery_codes_ s)) s)) in
            let* _ := publish (mfa_enrollment_confirmed user) in
            Ret (Ok (mkConfirmation EnrollSuccess (fst batch)))
        end
  end.

(** Whether the user has this recovery code. *)
Definition has_recovery_code (user : uuid) (credential : list ascii) (s : Auth) : option nat :=
  codes ← user_recovery_codes_ s !! user; verify_and_consume sha256_hex credential codes.

(** [MfaManager::disable_mfa]. *)
Definition disable_mfa (user : uuid) (code_or_recovery : list ascii) (now : Z) : prog Auth (result RepositoryExn bool) :=
  try* config_opt := db (find_config user) in
  match config_opt with
  | None => Ret (Ok false)
  | Some config =>
      if negb (bool_decide (mc_status config = MfaEnabled)) then Ret (Ok false)
      else
        match verify_factor (mc_encrypted_secret config) code_or_recovery (epoch_seconds now) (aad_of user) with
        | None => Ret (Err DriverException)
        | Some totp =>
            let* verified :=
              match totp with
              | Some _ => Ret true
              | None => locked (fun s => (bool_decide (is_Some (has_recovery_code user code_or_recovery s)), s))
              end in
            if negb verified then Ret (Ok false)
            else
              try* _ := db (repository_disable_mfa (mc_mfa_configuration_id config) now (mc_version config)) in
              let* _ := locked (fun s => (tt, set_user_recovery_codes (delete user (user_recovery_codes_ s)) s)) in
              let* _ := locked (fun s => (tt, set_last_used_time_steps (delete user (last_used_time_steps_ s)) s)) in
              let* _ := publish (mfa_disabled user) in
              Ret (Ok true)
        end
  end.

(** [MfaManager::create_challenge]. *)
Definition manager_create_challenge (user session : uuid) (purpose : MfaChallengePurpose) (ttl : Z) (id : uuid) (now : Z)
    : prog Auth (result RepositoryExn MfaChallengeEntity) :=
  let challenge := mkMfaChallenge id user session purpose ChallengePending now (now + ttl) None in
  try* _ := db (create_challenge challenge) in
  let* _ := publish (mfa_challenge_created user session) in
  Ret (Ok challenge).

(** *** Verification *)

(** [++challenge_attempts_[id]], on [uint32_t]. *)
Definition count_attempt (id : uuid) (s : Auth) : Z * Auth :=
  let n := u32 (default 0 (challenge_attempts_ s !! id) + 1) in
  (n, set_challenge_attempts (<[id := n]> (challenge_attempts_ s)) s).

(** Whether the step was the last one used; if not, it is now. *)
Definition use_step (user : uuid) (step : Z) (s : Auth) : bool * Auth :=
  if bool_decide (last_used_time_steps_ s !! user = Some step) then (true, s)
  else (false, set_last_used_time_steps (<[user := step]> (last_used_time_steps_ s)) s).

(** Whether the code was in the pool of the user; if so, it is removed. *)
Definition burn_recovery_code (user : uuid) (credential : list ascii) (s : Auth) : bool * Auth :=
  match user_recovery_codes_ s !! user with
  | None => (false, s)
  | Some codes =>
      match verify_and_consume sha256_hex credential codes with
      | None => (false, s)
      | Some i => (true, set_user_recovery_codes (<[user := delete i codes]> (user_recovery_codes_ s)) s)
      end
  end.

Section challenge.
Context (id : uuid) (credential : list ascii) (now now_complete : Z).

Abbreviation Verified := (result RepositoryExn MfaChallengeVerificationResult).

Definition fail_with (c : MfaChallengeEntity) (st : MfaChallengeVerificationStatus) : prog Auth Verified :=
  let* _ := publish (mfa_challenge_failed (ch_user_id c) (ch_session_id c)) in Ret (Ok (mfa_failure st)).

(** From [complete_challenge] on. *)
Definition promote (c : MfaChallengeEntity) (matched_step : Z) (is_recovery : bool) : prog Auth Verified :=
  try* _ := db (complete_challenge id now now_complete) in
  try* _ := db (update_authentication_level (ch_session_id c) MfaVerified) in
  try* _ := db (touch_session_activity (ch_session_id c) now) in
  let* _ := publish_if is_recovery (mfa_recovery_code_used (ch_user_id c) (ch_session_id c)) in
  let* _ := publish (mfa_challenge_succeeded (ch_user_id c) (ch_session_id c)) in
  let* _ := locked (fun s => (tt, set_challenge_attempts (delete id (challenge_attempts_ s)) s)) in
  Ret (Ok (mkVerification VerifySuccess matched_step (Some (ch_session_id c)) (Some (ch_user_id c)))).

(** From the lookup of the configuration on. *)
Definition check_factor (c : MfaChallengeEntity) (current_attempts : Z) : prog Auth Verified :=
  try* config_opt := db (find_config (ch_user_id c)) in
  match config_opt with
  | None => Ret (Ok (mfa_failure VerifyChallengeFailed))
  | Some config =>
      if negb (bool_decide (mc_status config = MfaEnabled)) then Ret (Ok (mfa_failure VerifyChallengeFailed))
      else
        match verify_factor (mc_encrypted_secret config) credential (epoch_seconds now) (aad_of (ch_user_id c)) with
        | None => Ret (Err DriverException)
        | Some (Some step) =>
            let* replayed := locked (use_step (ch_user_id c) step) in
            if replayed then
              try* _ := (if kMaxChallengeAttempts <=? current_attempts then db (fail_challenge id) else Ret (Ok tt)) in
              fail_with c InvalidCode
            else promote c step false
        | Some None =>
            let* burnt := locked (burn_recovery_code (ch_user_id c) credential) in
            if (burnt : bool) then promote c 0 true
            else if kMaxChallengeAttempts <=? current_attempts then
              try* _ := db (fail_challenge id) in fail_with c MaxAttemptsExceeded
            else fail_with c InvalidCode
        end
  end.

Definition verify_challenge : prog Auth Verified :=
  try* challenge_opt := db (find_challenge_by_id id) in
  match challenge_opt with
  | None => Ret (Ok (mfa_failure InvalidCode))
  | Some c =>
      if bool_decide (ch_challenge_status c = ChallengeCompleted) then Ret (Ok (mfa_failure AlreadyCompleted))
      else if bool_decide (ch_challenge_status c = ChallengeFailed) then Ret (Ok (mfa_failure MaxAttemptsExceeded))
      else if bool_decide (ch_challenge_status c = ChallengeExpired) || (ch_expires_at c <? now) then
        try* _ := db (fail_challenge id) in fail_with c ExpiredChallenge
      else
        let* current_attempts := locked (count_attempt id) in
        if kMaxChallengeAttempts <? current_attempts then
          try* _ := db (fail_challenge id) in fail_with c MaxAttemptsExceeded
        else check_factor c current_attempts
  end.
End challenge.
End manager.
