(* ===== verification/MfaSpec.v ===== *)
(** * Multi-factor authentication under concurrency

    What a verified challenge shows, proved of the programs of [Mfa] run by any number
    of threads; the lockout of a challenge after wrong codes; and two ways the manager
    fails its purpose. *)

From S2P Require Import Prelude Ids Bytes Prog AuthStore AuthTokens AuthInv Base32 Totp MfaFactors Mfa.
From Stdlib Require Import Ascii.
#[local] Open Scope Z_scope.

(** The database returns a row of the user when there is one. *)
Definition planner_ok (first_row : list MfaConfigurationEntity -> option MfaConfigurationEntity) : Prop :=
  (forall l c, first_row l = Some c -> c ∈ l) /\ (forall l, first_row l = None -> l = []).

Lemma elem_of_configurations user m c :
  c ∈ configurations_of user m <-> mc_user_id c = user /\ exists id, m !! id = Some c.
Proof.
  unfold configurations_of. rewrite list_elem_of_filter, list_elem_of_fmap. split.
  - intros (? & [id c'] & -> & Hin%elem_of_map_to_list). eauto.
  - intros (? & id & Hid). split; [done|]. exists (id, c). by rewrite elem_of_map_to_list.
Qed.

Section verification.
Context {curves : AccessTokens.Curves} (hmac : TotpHashAlgorithm -> list Z -> list Z -> option (list Z)) (totp_config : TotpConfig).
Context (gcm : Gcm) (kek : list Z) (sha256_hex : list ascii -> string).
Context (first_row : list MfaConfigurationEntity -> option MfaConfigurationEntity) (Hrow : planner_ok first_row).

(** At a moment between [s0] and [s] the user had an enabled configuration, and the
    credential was a code of its secret for the reported step, or a recovery code. *)
Definition credential_accepted (s0 : Auth) (user : uuid) (credential : list ascii) (now step : Z) (s : Auth) : Prop :=
  exists sm i cfg, auth_later s0 sm /\ auth_later sm s /\ mfa_configurations sm !! i = Some cfg /\ mc_user_id cfg = user /\
    mc_status cfg = MfaEnabled /\
    (verify_factor hmac totp_config gcm kek (mc_encrypted_secret cfg) credential (epoch_seconds now) (aad_of user) = Some (Some step) \/
     exists sb codes, auth_later sm sb /\ auth_later sb s /\ user_recovery_codes_ sb !! user = Some codes /\
       hash_code sha256_hex credential ∈ codes).

Lemma credential_accepted_later s0 user credential now step s s' :
  credential_accepted s0 user credential now step s -> auth_later s s' -> credential_accepted s0 user credential now step s'.
Proof.
  intros (sm & i & cfg & H0 & Hs & Hc & Hu & He & Hv) Hl. exists sm, i, cfg. split_and!; try done; [by transitivity s|].
  destruct Hv as [|(sb & codes & ? & ? & ? & ?)]; [by left|]. right. exists sb, codes. split_and!; try done. by transitivity s.
Qed.

(** What a verification that succeeded shows: its challenge is completed, at the time
    the call read, was pending when the call started, and the credential was good. *)
Definition verify_post (s0 : Auth) (id : uuid) (credential : list ascii) (now : Z)
    (r : result RepositoryExn MfaChallengeVerificationResult) (K : list Resource) (s : Auth) : Prop :=
  forall v, r = Ok v -> vr_status v = VerifySuccess ->
    AChallenge id ∈ K /\ exists c, mfa_challenges s !! id = Some c /\ ch_challenge_status c = ChallengeCompleted /\
      ch_completed_at c = Some (stored now) /\
      vr_session_id v = Some (ch_session_id c) /\ vr_user_id v = Some (ch_user_id c) /\
      (forall c0, mfa_challenges s0 !! id = Some c0 -> ch_challenge_status c0 = ChallengePending) /\
      credential_accepted s0 (ch_user_id c) credential now (vr_matched_time_step v) s.

Lemma verify_post_stable s0 id credential now : stable_post (verify_post s0 id credential now).
Proof.
  intros r K s s' H Hl _ v Hr Hok. destruct (H v Hr Hok) as (HK & c & Hc & Hst & Hat & Hs & Hu & H0 & Ha). split; [done|]. exists c.
  destruct (al_challenges _ _ Hl _ _ Hc) as (c' & Hc' & []). rewrite cl_frozen in Hc' by congruence.
  split_and!; try done. by eapply credential_accepted_later.
Qed.

Lemma verify_post_error s0 id credential now e K s : verify_post s0 id credential now (Err e) K s.
Proof. done. Qed.

Lemma verify_post_failure s0 id credential now st K s :
  st <> VerifySuccess -> verify_post s0 id credential now (Ok (mfa_failure st)) K s.
Proof. intros Hst v [= <-] Hok. by destruct Hst. Qed.

Section challenge.
Context (id : uuid) (credential : list ascii) (now now_complete : Z) (s0 : Auth).

Abbreviation post := (verify_post s0 id credential now).

Lemma wp_fail_with c st K s : auth_inv s -> st <> VerifySuccess -> wpa (fail_with c st) K post s.
Proof. intros HI Hst. apply wp_publish_always; [done|]. intros s' _ _. by apply verify_post_failure. Qed.

Lemma wp_fail_challenge c st K s : st <> VerifySuccess -> wpa (try* _ := db (fail_challenge id) in fail_with c st) K post s.
Proof.
  intros Hst. apply wp_db_simple; [done|]. intros s' Hl HI. split; [by apply fail_challenge_moves|]. intros HI'.
  destruct (fst (fail_challenge id s')); [by apply wp_fail_with|done].
Qed.

(** What is known of the challenge that was read. *)
Definition read_challenge (c : MfaChallengeEntity) (s : Auth) : Prop :=
  (exists c', mfa_challenges s !! id = Some c' /\ challenge_later c c') /\
  (forall c0, mfa_challenges s0 !! id = Some c0 -> ch_challenge_status c0 = ChallengePending).

Lemma read_challenge_later c s s' : read_challenge c s -> auth_later s s' -> read_challenge c s'.
Proof.
  intros [(c' & Hc & Hl) H0] Hs. split; [|done]. destruct (al_challenges _ _ Hs _ _ Hc) as (c2 & Hc2 & Hl2). exists c2.
  split; [done|by transitivity c'].
Qed.

Lemma wp_promote c step is_recovery s :
  auth_inv s -> read_challenge c s -> credential_accepted s0 (ch_user_id c) credential now step s ->
  wpa (promote id now now_complete c step is_recovery) [] post s.
Proof.
  intros HI Hc Hcred. apply wp_db. intros s1 Hl1 HI1.
  pose proof (complete_challenge_moves id now now_complete s1 HI1) as Hm1. split_and!; [done| |done|done]. intros HI1'.
  destruct (read_challenge_later _ _ _ Hc Hl1) as [(c1 & Hc1 & [Hu Hs _]) H0].
  unfold committed in *. destruct (complete_challenge id now now_complete s1) as [[[]|e] s1'] eqn:E; cbn [is_ok fst] in *;
    [|by exists []; split; [apply takes_refl|]].
  assert (Hdone : free (AChallenge id) s1 /\ exists c2, mfa_challenges s1' !! id = Some c2 /\ ch_challenge_status c2 = ChallengeCompleted /\
    ch_completed_at c2 = Some (stored now) /\ ch_session_id c2 = ch_session_id c /\ ch_user_id c2 = ch_user_id c).
  { unfold complete_challenge in E. destruct (sql_row _ _ _) as [x|] eqn:Erow; [|done]. apply sql_row_Some in Erow as [Erow [Hp%bool_decide_eq_true _]%andb_prop].
    injection E as <-. split; [cbn; congruence|]. eexists. cbn. rewrite lookup_insert_eq. split; [reflexivity|]. cbn. split_and!; [done..| |]; congruence. }
  destruct Hdone as (Hfree & c2 & Hc2 & Hst & Hat & Hss & Huu). exists [AChallenge id]. split.
  { intros y ->%list_elem_of_singleton. right. split; [done|]. intros Hf. specialize (Hf _ Hc2). congruence. }
  assert (Hkeep : forall s', auth_later s1' s' -> mfa_challenges s' !! id = Some c2).
  { intros s' Hl. destruct (al_challenges _ _ Hl _ _ Hc2) as (c' & Hc' & []). by rewrite cl_frozen in Hc' by congruence. }
  apply wp_db_simple; [done|]. intros s2 Hl2 HI2.
  assert (Hm2 : moves s2 (committed (update_authentication_level (ch_session_id c) MfaVerified) s2)).
  { apply update_authentication_level_moves; [done|]. exists id, c2. by split_and!; [apply Hkeep|..]. }
  split; [done|]. intros HI2'. destruct (fst (update_authentication_level _ _ s2)); [|done].
  apply wp_db_simple; [done|]. intros s3 Hl3 HI3. pose proof (touch_session_activity_moves (ch_session_id c) now s3 HI3) as Hm3.
  split; [done|]. intros HI3'. destruct (fst (touch_session_activity _ _ s3)); [|done].
  apply wp_publish; [done|]. intros s4 Hl4 HI4.
  apply wp_publish_always; [done|]. intros s5 Hl5 HI5.
  apply wp_memory. intros s6 Hl6 HI6.
  assert (Hm6 : moves s6 (set_challenge_attempts (delete id (challenge_attempts_ s6)) s6)) by (by apply moves_memory).
  split; [done|]. cbn [wpx fst snd]. intros v [= <-] _. split; [by left|]. cbn.
  assert (Hall : auth_later s1' (set_challenge_attempts (delete id (challenge_attempts_ s6)) s6)).
  { etransitivity; [exact Hl2|]. etransitivity; [apply Hm2|]. etransitivity; [exact Hl3|]. etransitivity; [apply Hm3|].
    etransitivity; [exact Hl4|]. etransitivity; [exact Hl5|]. etransitivity; [exact Hl6|]. apply Hm6. }
  exists c2. split_and!; [exact (Hkeep _ Hall)|done|done|by rewrite Hss|by rewrite Huu|done|]. rewrite Huu.
  eapply credential_accepted_later; [exact Hcred|]. etransitivity; [exact Hl1|]. etransitivity; [apply Hm1|]. exact Hall.
Qed.

Lemma use_step_moves user step s : auth_inv s -> moves s (snd (use_step user step s)).
Proof. intros HI. unfold use_step. case_bool_decide; [by apply moves_refl|]. by apply moves_memory. Qed.

Lemma burn_moves user s : auth_inv s -> moves s (snd (burn_recovery_code sha256_hex user credential s)).
Proof.
  intros HI. unfold burn_recovery_code. destruct (user_recovery_codes_ s !! user); [|by apply moves_refl].
  destruct (verify_and_consume _ _ _); [|by apply moves_refl]. by apply moves_memory.
Qed.

Lemma burn_true user s :
  fst (burn_recovery_code sha256_hex user credential s) = true ->
  exists codes, user_recovery_codes_ s !! user = Some codes /\ hash_code sha256_hex credential ∈ codes.
Proof.
  unfold burn_recovery_code. destruct (user_recovery_codes_ s !! user) as [codes|] eqn:E; [|done].
  destruct (verify_and_consume _ _ _) as [i|] eqn:Ei; [|done]. intros _. exists codes. split; [done|].
  apply verify_and_consume_Some in Ei. by eapply list_elem_of_lookup_2.
Qed.

Lemma wp_check_factor c n s :
  auth_later s0 s -> auth_inv s -> read_challenge c s ->
  wpa (check_factor hmac totp_config gcm kek sha256_hex first_row id credential now now_complete c n) [] post s.
Proof using Hrow.
  intros H0 HI Hc. unfold check_factor. apply wp_read; [done|]. intros s1 Hl1 HI1.
  destruct (first_row _) as [cfg|] eqn:Hcfg; [|by apply verify_post_failure]. apply Hrow, elem_of_configurations in Hcfg as [Hu (i & Hi)].
  case_bool_decide as Hen; cbn [negb]; [|by apply verify_post_failure].
  destruct (verify_factor _ _ _ _ _ _ _) as [[step|]|] eqn:Hv; [| |done].
  - apply wp_memory. intros s2 Hl2 HI2. pose proof (use_step_moves (ch_user_id c) step s2 HI2) as Hm2. split; [done|].
    destruct (use_step (ch_user_id c) step s2) as [[] s2'] eqn:E; cbn [fst snd] in *.
    + destruct (_ <=? _); [by apply wp_fail_challenge|]. apply wp_fail_with; [apply Hm2|done].
    + assert (Hl : auth_later s1 s2') by (transitivity s2; [done|apply Hm2]).
      apply wp_promote; [apply Hm2|by eapply read_challenge_later; [|transitivity s1]|].
      exists s1, i, cfg. split_and!; try done; [by transitivity s|by left].
  - apply wp_memory. intros s2 Hl2 HI2. pose proof (burn_moves (ch_user_id c) s2 HI2) as Hm2. split; [done|].
    destruct (burn_recovery_code sha256_hex (ch_user_id c) credential s2) as [[] s2'] eqn:E; cbn [fst snd] in *.
    + assert (Hl : auth_later s1 s2') by (transitivity s2; [done|apply Hm2]).
      apply wp_promote; [apply Hm2|by eapply read_challenge_later; [|transitivity s1]|].
      exists s1, i, cfg. split_and!; try done; [by transitivity s|]. right.
      destruct (burn_true (ch_user_id c) s2) as (codes & Hcodes & Hin); [by rewrite E|]. exists s2, codes. split_and!; try done. apply Hm2.
    + destruct (_ <=? _); [by apply wp_fail_challenge|]. apply wp_fail_with; [apply Hm2|done].
Qed.

Lemma count_attempt_moves s : auth_inv s -> moves s (snd (count_attempt id s)).
Proof. intros HI. by apply moves_memory. Qed.

Lemma wp_verify_challenge :
  auth_inv s0 -> wpa (verify_challenge hmac totp_config gcm kek sha256_hex first_row id credential now now_complete) [] post s0.
Proof using Hrow.
  intros HI. unfold verify_challenge. apply wp_read; [done|]. intros s1 Hl1 HI1.
  destruct (mfa_challenges s1 !! id) as [c|] eqn:Hc; [|by apply verify_post_failure].
  case_bool_decide as Hdone; [by apply verify_post_failure|]. case_bool_decide as Hfailed; [by apply verify_post_failure|].
  destruct (bool_decide (ch_challenge_status c = ChallengeExpired) || _) eqn:Hexp; [by apply wp_fail_challenge|].
  apply orb_false_iff in Hexp as [Hne%bool_decide_eq_false _].
  apply wp_memory. intros s2 Hl2 HI2. pose proof (count_attempt_moves s2 HI2) as Hm2. split; [done|].
  destruct (_ <? _); [by apply wp_fail_challenge|]. apply wp_check_factor; [|apply Hm2|].
  - transitivity s1; [done|]. transitivity s2; [done|apply Hm2].
  - eapply read_challenge_later; [|transitivity s2; [exact Hl2|apply Hm2]]. split; [by exists c|].
    intros c0 Hc0. destruct (al_challenges _ _ Hl1 _ _ Hc0) as (c1 & Hc1 & []). assert (c1 = c) as -> by congruence.
    destruct (decide (ch_challenge_status c0 = ChallengePending)) as [|Hp]; [done|]. rewrite <- (cl_frozen Hp) in Hp.
    by destruct (ch_challenge_status c).
Qed.
End challenge.
End verification.

(** ** Lockout

    A sequence of calls with nobody else around. *)

Section lockout.
Context (hmac : TotpHashAlgorithm -> list Z -> list Z -> option (list Z)) (totp_config : TotpConfig).
Context (gcm : Gcm) (kek : list Z) (sha256_hex : list ascii -> string).
Context (first_row : list MfaConfigurationEntity -> option MfaConfigurationEntity) (id : uuid).

Record Attempt := mkAttempt { at_credential : list ascii; at_now : Z; at_now_complete : Z }.

Definition attempt (a : Attempt) : prog Auth (result RepositoryExn MfaChallengeVerificationResult) :=
  verify_challenge hmac totp_config gcm kek sha256_hex first_row id (at_credential a) (at_now a) (at_now_complete a).

(** The challenge can still be answered, and the user has an enabled configuration. *)
Record answerable (s : Auth) (c : MfaChallengeEntity) (cfg : MfaConfigurationEntity) : Prop := {
  an_challenge : mfa_challenges s !! id = Some c;
  an_pending : ch_challenge_status c = ChallengePending;
  an_config : first_row (configurations_of (ch_user_id c) (mfa_configurations s)) = Some cfg;
  an_enabled : mc_status cfg = MfaEnabled }.

(** In time, but neither a code of the secret nor a recovery code. *)
Record wrong (s : Auth) (c : MfaChallengeEntity) (cfg : MfaConfigurationEntity) (a : Attempt) : Prop := {
  wr_in_time : at_now a <= ch_expires_at c;
  wr_code : verify_factor hmac totp_config gcm kek (mc_encrypted_secret cfg) (at_credential a) (epoch_seconds (at_now a))
    (aad_of (ch_user_id c)) = Some None;
  wr_recovery : fst (burn_recovery_code sha256_hex (ch_user_id c) (at_credential a) s) = false }.

Lemma burn_false user credential s :
  fst (burn_recovery_code sha256_hex user credential s) = false -> burn_recovery_code sha256_hex user credential s = (false, s).
Proof. unfold burn_recovery_code. destruct (_ !! user); [|done]. by destruct (verify_and_consume _ _ _). Qed.

Lemma solo_wrong s c cfg a n :
  answerable s c cfg -> wrong s c cfg a -> default 0 (challenge_attempts_ s !! id) = n -> 0 <= n < kMaxChallengeAttempts ->
  exists s', solo (attempt a) s = (Ok (mfa_failure (if n + 1 <? kMaxChallengeAttempts then InvalidCode else MaxAttemptsExceeded)), s') /\
    challenge_attempts_ s' !! id = Some (n + 1) /\
    mfa_challenges s' !! id = Some (if n + 1 <? kMaxChallengeAttempts then c else set_challenge_status ChallengeFailed (ch_completed_at c) c) /\
    mfa_configurations s' = mfa_configurations s /\ user_recovery_codes_ s' = user_recovery_codes_ s.
Proof.
  intros [Hc Hp Hcfg Hen] [Ht Hcode Hrec%burn_false] Hn Hmax. unfold kMaxChallengeAttempts in *.
  unfold attempt, verify_challenge, db. rewrite solo_transaction. unfold committed, find_challenge_by_id. cbn [fst snd is_ok]. rewrite Hc, Hp.
  cbn [bool_decide decide]. repeat (rewrite bool_decide_eq_false_2 by done). cbn [orb]. rewrite (proj2 (Z.ltb_ge _ _)) by lia.
  rewrite solo_locked. unfold count_attempt. cbn [fst snd]. rewrite Hn, u32_small by (unfold in_u32; lia).
  set (s1 := set_challenge_attempts _ s). unfold kMaxChallengeAttempts. rewrite (proj2 (Z.ltb_ge 3 _)) by lia.
  unfold check_factor, db. rewrite solo_transaction. unfold committed, find_mfa_config_by_user_id. cbn [fst snd is_ok].
  change (mfa_configurations s1) with (mfa_configurations s). rewrite Hcfg, bool_decide_eq_true_2 by done. cbn [negb].
  rewrite Hcode, solo_locked.
  assert (Hb : burn_recovery_code sha256_hex (ch_user_id c) (at_credential a) s1 = (false, s1)).
  { apply burn_false. revert Hrec. unfold burn_recovery_code, s1. cbn. destruct (user_recovery_codes_ s !! ch_user_id c); [|done].
    by destruct (verify_and_consume _ _ _). }
  rewrite Hb. cbn [fst snd]. unfold kMaxChallengeAttempts. destruct (Z.ltb_spec (n + 1) 3) as [Hlt|Hge].
  - rewrite (proj2 (Z.leb_gt 3 _)) by lia. eexists. split; [reflexivity|]. cbn. by rewrite lookup_insert_eq.
  - rewrite (proj2 (Z.leb_le 3 _)) by lia. rewrite solo_transaction. unfold committed, fail_challenge, sql_row.
    change (mfa_challenges s1) with (mfa_challenges s). rewrite Hc. cbn [mbind option_bind]. unfold challenge_pending.
    rewrite bool_decide_eq_true_2 by done. cbn [fst is_ok]. eexists. split; [reflexivity|]. cbn. by rewrite !lookup_insert_eq.
Qed.

Lemma solo_locked_out s c a :
  mfa_challenges s !! id = Some c -> ch_challenge_status c = ChallengeFailed ->
  solo (attempt a) s = (Ok (mfa_failure MaxAttemptsExceeded), s).
Proof.
  intros Hc Hf. unfold attempt, verify_challenge, db. rewrite solo_transaction. unfold committed, find_challenge_by_id. cbn [fst snd is_ok].
  rewrite Hc, Hf. by rewrite bool_decide_eq_false_2.
Qed.
End lockout.

(** C26.  Three wrong codes lock a challenge: the third fails it for good, and no code, right
    or wrong, is accepted after that. *)
Theorem mfa_lockout hmac totp_config gcm kek sha256_hex first_row id s c cfg a1 a2 a3 later :
  let attempt := attempt hmac totp_config gcm kek sha256_hex first_row id in
  answerable first_row id s c cfg -> challenge_attempts_ s !! id = None ->
  Forall (wrong hmac totp_config gcm kek sha256_hex s c cfg) [a1; a2; a3] ->
  fst (solo_all (attempt <$> [a1; a2; a3] ++ later) s)
  = [Ok (mfa_failure InvalidCode); Ok (mfa_failure InvalidCode); Ok (mfa_failure MaxAttemptsExceeded)]
    ++ ((fun _ => Ok (mfa_failure MaxAttemptsExceeded)) <$> later).
Proof.
  intros attempt Han Hnew Hall. rewrite !Forall_cons in Hall. destruct Hall as (W1 & W2 & W3 & _).
  assert (Hcopy : forall s', mfa_configurations s' = mfa_configurations s -> user_recovery_codes_ s' = user_recovery_codes_ s ->
    forall a, wrong hmac totp_config gcm kek sha256_hex s c cfg a -> wrong hmac totp_config gcm kek sha256_hex s' c cfg a).
  { intros s' _ Hr a []. constructor; [done|done|]. revert wr_recovery0. unfold burn_recovery_code. rewrite Hr.
    destruct (_ !! ch_user_id c); [|done]. by destruct (verify_and_consume _ _ _). }
  destruct Han as [Hc Hp Hcfg Hen].
  destruct (solo_wrong hmac totp_config gcm kek sha256_hex first_row id s c cfg a1 0) as (s1 & E1 & N1 & C1 & M1 & R1);
    [done|done|by rewrite Hnew|done|].
  destruct (solo_wrong hmac totp_config gcm kek sha256_hex first_row id s1 c cfg a2 1) as (s2 & E2 & N2 & C2 & M2 & R2);
    [by constructor; [..|rewrite M1|]|by apply Hcopy|by rewrite N1|done|].
  destruct (solo_wrong hmac totp_config gcm kek sha256_hex first_row id s2 c cfg a3 2) as (s3 & E3 & N3 & C3 & M3 & R3);
    [by constructor; [..|rewrite M2, M1|]|apply Hcopy; congruence|by rewrite N2|done|].
  cbn [fmap list_fmap app solo_all]. fold attempt in E1, E2, E3. rewrite E1, E2, E3.
  assert (Hrest : solo_all (attempt <$> later) s3 = ((fun _ => Ok (mfa_failure MaxAttemptsExceeded)) <$> later, s3)).
  { clear - C3. induction later as [|a later IH]; [done|]. cbn [fmap list_fmap solo_all]. unfold attempt at 1.
    erewrite solo_locked_out; [|exact C3|done]. by rewrite IH. }
  change (list_fmap _ _ attempt later) with (attempt <$> later). by rewrite Hrest.
Qed.

(** ** Examples *)

Module Example.
Definition id (n : Z) : uuid := mkUuid (replicate 15 0 ++ [n]).
Definition user : uuid := id 1.
Definition device : uuid := id 2.
Definition session : uuid := id 3.

Definition toy_gcm : Gcm :=
  mkGcm (fun _ _ _ pt => Some (pt, replicate kTagSize 0)) (fun _ _ _ ct tag => if bool_decide (tag = replicate kTagSize 0) then Some ct else None).
Definition toy_sha (l : list ascii) : string := of_chars l.

Lemma toy_gcm_ok : gcm_ok toy_gcm.
Proof. constructor; [by intros; eexists _, _|]. intros key iv aad pt ct tag [= <- <-]. done. Qed.

Definition sealed_secret : list Z := replicate 12 7 ++ [1; 2; 3] ++ replicate 16 0.
Definition config : MfaConfigurationEntity := mkMfaConfiguration (id 5) user sealed_secret MfaEnabled 0 (Some 0) None 2.
Definition challenge (n : Z) : MfaChallengeEntity :=
  mkMfaChallenge (id n) user session Login ChallengePending 0 (2000 * 1000000000) None.

(** A user with a device, a session, an enabled configuration and three challenges. *)
Definition store : Auth :=
  mkAuth {[user := mkUser user "alice@example.com" "verifier" "argon2id" 0 AccountActive 0 0 1]}
    {[device := mkDevice device user DeviceActive 0 None None 0 0 0]} ∅
    {[session := mkSession session user device SessionActive PrimaryOnly 0 (3000 * 1000000000) None 0]} ∅
    {[id 5 := config]}
    (<[id 4 := challenge 4]> (<[id 6 := challenge 6]> {[id 7 := challenge 7]})) ∅ ∅ {[user := ["ABCDEFGH"%string]]} ∅ [].

(** The code of a step, and a call that answers a challenge with it 1000 seconds after
    the epoch, in step 33. *)
Definition code_of (step : Z) : list ascii := default [] (code_at toy_hmac default_totp [1; 2; 3] step).
Definition at_1000 : Z := 1000 * 1000000000.
Definition answer (n : Z) (credential : list ascii) : prog Auth (result RepositoryExn MfaChallengeVerificationResult) :=
  verify_challenge toy_hmac default_totp toy_gcm [] toy_sha head (id n) credential at_1000 at_1000.
Definition status_of (r : result RepositoryExn MfaChallengeVerificationResult) : option MfaChallengeVerificationStatus :=
  match r with Ok v => Some (vr_status v) | Err _ => None end.
End Example.

Lemma mfa_lockout_witness :
  fst (solo_all (attempt toy_hmac default_totp Example.toy_gcm [] Example.toy_sha head (Example.id 4)
    <$> [mkAttempt (chars "111111") Example.at_1000 0; mkAttempt (chars "222222") Example.at_1000 0; mkAttempt (chars "333333") Example.at_1000 0]
        ++ [mkAttempt (Example.code_of 33) Example.at_1000 0]) Example.store)
  = [Ok (mfa_failure InvalidCode); Ok (mfa_failure InvalidCode); Ok (mfa_failure MaxAttemptsExceeded); Ok (mfa_failure MaxAttemptsExceeded)].
Proof.
  apply (mfa_lockout toy_hmac default_totp Example.toy_gcm [] Example.toy_sha head (Example.id 4) Example.store
    (Example.challenge 4) Example.config).
  - by constructor.
  - done.
  - repeat constructor; by vm_compute.
Defined.

(** The replay check remembers one step only: a code that was used is accepted again
    after a code of another step of the window. *)
Theorem used_code_accepted_again :
  let code := Example.code_of 33 in let other := Example.code_of 32 in
  Example.status_of <$> fst (solo_all [Example.answer 4 code; Example.answer 6 other; Example.answer 7 code] Example.store)
  = [Some VerifySuccess; Some VerifySuccess; Some VerifySuccess].
Proof. by vm_compute. Qed.

(** Right after it was used, the same code is refused. *)
Lemma used_code_refused_at_once :
  let code := Example.code_of 33 in
  Example.status_of <$> fst (solo_all [Example.answer 4 code; Example.answer 6 code] Example.store) = [Some VerifySuccess; Some InvalidCode].
Proof. by vm_compute. Qed.

(** A scan that returns rows that are not enabled first. *)
Definition pending_first (l : list MfaConfigurationEntity) : option MfaConfigurationEntity :=
  match filter (fun c => mc_status c <> MfaEnabled) l with c :: _ => Some c | [] => head l end.

Lemma pending_first_ok : planner_ok pending_first.
Proof.
  unfold pending_first. split; intros l.
  - intros c. destruct (filter _ l) as [|x f] eqn:E; [destruct l; [done|]; intros [= ->]; by left|]. intros [= ->].
    assert (Hin : c ∈ filter (fun c => mc_status c <> MfaEnabled) l) by (rewrite E; by left). by apply list_elem_of_filter in Hin as [_ ?].
  - destruct (filter _ l); [by destruct l|done].
Qed.

(** Enrolment can be started twice, and nothing says which of the two configurations a
    lookup returns: after a confirmed enrolment the user may count as one without
    multi-factor authentication. *)
Theorem enabled_mfa_hidden :
  exists first_row, planner_ok first_row /\
    let start n := initiate_enrollment default_totp Example.toy_gcm [] first_row Example.user [] [] (Example.id n) [1; 2; 3] (replicate 12 7) 0 in
    let confirm := confirm_enrollment toy_hmac default_totp Example.toy_gcm [] Example.toy_sha first_row Example.user
      (Example.code_of 33) (replicate 8 (replicate 8 0)) Example.at_1000 in
    let fresh := set_mfa_configurations ∅ Example.store in
    let s := snd (solo_all [start 8; start 9] fresh) in
    exists s' codes, solo confirm s = (Ok (mkConfirmation EnrollSuccess codes), s') /\
      (exists i cfg, mfa_configurations s' !! i = Some cfg /\ mc_user_id cfg = Example.user /\ mc_status cfg = MfaEnabled) /\
      fst (solo (is_mfa_enabled_for_user first_row Example.user) s') = Ok false.
Proof.
  exists pending_first. split; [apply pending_first_ok|]. cbv zeta. eexists _, _. split; [by vm_compute|]. split.
  - exists (Example.id 9). eexists. split; [by vm_compute|done].
  - by vm_compute.
Qed.
