(* ===== verification/KeyDirectory.v ===== *)
(** * The key directory of the auth service

    Models the fingerprints of [src/auth/crypto/key_fingerprint.cpp] and the managers
    [src/auth/service/prekey_manager.cpp] and [crypto_directory_manager.cpp].  SHA-256 is
    an argument; diagnostic texts are left out. *)

From S2P Require Import Prelude Ids Bytes AccessTokens Prog AuthStore AuthTokens Totp.
From Stdlib Require Import Ascii.
#[local] Open Scope Z_scope.

(** ** Fingerprints *)

(** "SHA256:XX:XX:..." *)
Fixpoint colon_hex (raw : list Z) : list ascii :=
  match raw with
  | [] => []
  | b :: raw =>
      hex_upper (Z.land (Z.shiftr b 4) 15) :: hex_upper (Z.land b 15)
      :: match raw with [] => [] | _ => ":"%char :: colon_hex raw end
  end.
Definition fingerprint_text (raw : list Z) : list ascii := chars "SHA256:" ++ colon_hex raw.

(** ** Answers *)

Inductive KeyStatusCode :=
  | KeySuccess | KeyNotFound | KeyDeviceRevoked | KeyPendingAuthorization | KeyDeviceNotActive | KeyPermissionDenied
  | KeyInvalidArgument | KeyConflict | KeyInternalError.

#[export] Instance KeyStatusCode_eq_dec : EqDecision KeyStatusCode.
Proof. solve_decision. Defined.

Inductive PrekeyExhaustionState := InventoryHealthy | InventoryLow | InventoryExhausted.

Record PrekeyBundle := mkBundle {
  pb_device_id : uuid; pb_identity_key : list Z; pb_identity_key_fingerprint : list ascii; pb_signed_prekey : list Z;
  pb_signed_prekey_signature : list Z; pb_signed_prekey_created_at : Z; pb_one_time_prekey : option (list Z);
  pb_one_time_prekey_id : option uuid }.

Record PrekeyInventoryStatus := mkInventory {
  active_one_time_prekeys : Z; claimed_one_time_prekeys : Z; is_low_inventory : bool; is_exhausted : bool;
  signed_prekey_created_at : option Z; signed_prekey_age_seconds : Z; signed_prekey_needs_rotation : bool }.

Record ClaimPrekeyBundleResult := mkClaim { cb_status : KeyStatusCode; cb_bundle : option (PrekeyBundle * PrekeyExhaustionState) }.
Record DirectoryResult := mkDirectory { dr_status : KeyStatusCode; dr_bundles : list (PrekeyBundle * Z) }.
Record UpdatePrekeysResult := mkUpdated { up_status : KeyStatusCode; up_rotated : bool; up_added : Z; up_total : Z }.
Record CryptoIdentityResult := mkIdentity { ci_status : KeyStatusCode; ci_bundle : option PrekeyBundle }.

Section managers.
Context {curves : Curves} (sha256 : list Z -> list Z) (order : KeyOrder).
Context (device_order : list DeviceEntity -> list DeviceEntity) (audit : bool).

Definition compute_sha256 (key : list Z) : list ascii := fingerprint_text (sha256 key).

Definition bundle_of (device : uuid) (id_key spk : DevicePublicKeyEntity) (otk : option DevicePublicKeyEntity) : PrekeyBundle :=
  mkBundle device (pk_public_key id_key) (compute_sha256 (pk_public_key id_key)) (pk_public_key spk)
    (default [] (pk_signature spk)) (pk_created_at spk) (pk_public_key <$> otk) (pk_key_id <$> otk).

(** *** [PrekeyManager] *)

Section prekeys.
Context (low_inventory_threshold max_signed_prekey_age : Z).

Definition get_inventory_status (device : uuid) (now : Z) : prog Auth (KeyStatusCode * option PrekeyInventoryStatus) :=
  let failed st := Ret (st, None) in
  let* dev_opt := db (device_find_by_id device) in
  match dev_opt with
  | Err _ => failed KeyInternalError
  | Ok None => failed KeyNotFound
  | Ok (Some dev) =>
      if bool_decide (dv_device_status dev = DeviceRevoked) then failed KeyDeviceRevoked
      else
        let* counted := (try* active := db (count_active_one_time_prekeys device) in
                         try* claimed := db (count_claimed_one_time_prekeys device) in
                         try* spk := db (find_active_signed_prekey order device) in Ret (Ok (active, claimed, spk))) in
        match counted with
        | Err _ => failed KeyInternalError
        | Ok (active, claimed, spk) =>
            let age t := let age := Z.quot (now - t) 1000000000 in if 0 <? age then age else 0 in
            Ret (KeySuccess, Some (mkInventory active claimed (active <=? low_inventory_threshold) (active =? 0)
              (pk_created_at <$> spk) (from_option (fun k => age (pk_created_at k)) 0 spk)
              (from_option (fun k => max_signed_prekey_age <=? age (pk_created_at k)) true spk)))
        end
  end.

(** The [try] block of a claim; [None]: a key of the device is missing. *)
Definition claim_keys (skip : uuid -> bool) (device : uuid)
    : prog Auth (result RepositoryExn (option (DevicePublicKeyEntity * DevicePublicKeyEntity * option DevicePublicKeyEntity * Z))) :=
  try* id_key_opt := db (find_active_identity_key order device) in
  try* spk_opt := db (find_active_signed_prekey order device) in
  match id_key_opt, spk_opt with
  | Some id_key, Some spk =>
      try* otk_opt := db (claim_one_time_prekey order skip device) in
      try* remaining_otk := db (count_active_one_time_prekeys device) in
      Ret (Ok (Some (id_key, spk, otk_opt, remaining_otk)))
  | _, _ => Ret (Ok None)
  end.

Definition claim_device_prekey_bundle (skip : uuid -> bool) (device : uuid) : prog Auth ClaimPrekeyBundleResult :=
  let failed st := Ret (mkClaim st None) in
  let* dev_opt := db (device_find_by_id device) in
  match dev_opt with
  | Err _ => failed KeyInternalError
  | Ok None => failed KeyNotFound
  | Ok (Some dev) =>
      if bool_decide (dv_device_status dev = DeviceRevoked) then failed KeyDeviceRevoked
      else if negb (bool_decide (dv_device_status dev = DeviceActive)) then failed KeyDeviceNotActive
      else
        let* keys := claim_keys skip device in
        match keys with
        | Err _ | Ok None => failed KeyInternalError
        | Ok (Some (id_key, spk, otk_opt, remaining_otk)) =>
            let success state := Ret (mkClaim KeySuccess (Some (bundle_of device id_key spk otk_opt, state))) in
            match otk_opt with
            | None => let* _ := publish_if audit (prekey_inventory_exhausted (dv_user_id dev) device) in success InventoryExhausted
            | Some _ =>
                if remaining_otk <=? low_inventory_threshold then
                  let* _ := publish_if audit (prekey_inventory_low (dv_user_id dev) device remaining_otk) in success InventoryLow
                else success InventoryHealthy
            end
        end
  end.

(** The checks on the caller and the device that the updates of [PrekeyManager] share. *)
Definition update_refused (caller_user caller_device target : uuid) (dev : DeviceEntity) : option KeyStatusCode :=
  if bool_decide (dv_device_status dev = DeviceRevoked) then Some KeyDeviceRevoked
  else if negb (bool_decide (caller_user = dv_user_id dev)) then Some KeyPermissionDenied
  else if negb (bool_decide (caller_device = target)) then Some KeyPermissionDenied
  else if negb (bool_decide (dv_device_status dev = DeviceActive)) then Some KeyDeviceNotActive
  else None.

Fixpoint any_conflict (device : uuid) (keys : list (list Z)) : prog Auth (result RepositoryExn bool) :=
  match keys with
  | [] => Ret (Ok false)
  | key :: keys =>
      try* conflict := db (has_active_key_conflict device key) in
      if (conflict : bool) then Ret (Ok true) else any_conflict device keys
  end.

Definition with_key_ids (ids : list uuid) (keys : list (list Z)) : list (uuid * list Z) := zip ids keys.

(** [ids] are drawn, one for every key. *)
Definition replenish_one_time_prekeys (caller_user caller_device target : uuid) (new_otks : list (list Z)) (ids : list uuid) (now : Z)
    : prog Auth (KeyStatusCode * Z) :=
  let failed st := Ret (st, 0) in
  let* dev_opt := db (device_find_by_id target) in
  match dev_opt with
  | Err _ => failed KeyInternalError
  | Ok None => failed KeyNotFound
  | Ok (Some dev) =>
      match update_refused caller_user caller_device target dev with
      | Some st => failed st
      | None =>
          if negb (validate_prekey_batch new_otks) then failed KeyInvalidArgument
          else
            let* stored_count := (try* conflict := any_conflict target new_otks in
                          if (conflict : bool) then Ret (Ok None)
                          else
                            try* _ := db (store_one_time_prekeys target (with_key_ids ids new_otks) now) in
                            try* active_count := db (count_active_one_time_prekeys target) in
                            let* _ := publish_if audit (prekeys_updated (dv_user_id dev) target active_count) in
                            Ret (Ok (Some active_count))) in
            match stored_count with
            | Err _ => failed KeyInternalError
            | Ok None => failed KeyConflict
            | Ok (Some active_count) => Ret (KeySuccess, active_count)
            end
      end
  end.

(** The new signed prekey replaces the current one, if there is one. *)
Definition put_signed_prekey (device : uuid) (key signature : list Z) (id : uuid) (now : Z) : prog Auth (result RepositoryExn unit) :=
  let entity := mkPublicKey id device SignedPrekey key KeyActive now None None (Some signature) in
  try* current := db (find_active_signed_prekey order device) in
  match current with
  | Some k => db (replace_key (pk_key_id k) entity)
  | None => db (store_public_key entity)
  end.

Definition rotate_signed_prekey (caller_user caller_device target : uuid) (new_signed_prekey new_signature : list Z) (id : uuid) (now : Z)
    : prog Auth KeyStatusCode :=
  let* dev_opt := db (device_find_by_id target) in
  match dev_opt with
  | Err _ => Ret KeyInternalError
  | Ok None => Ret KeyNotFound
  | Ok (Some dev) =>
      match update_refused caller_user caller_device target dev with
      | Some st => Ret st
      | None =>
          if negb (validate_single_prekey new_signed_prekey) then Ret KeyInvalidArgument
          else if negb (length new_signature =? 64)%nat then Ret KeyInvalidArgument
          else
            let* id_key_opt := db (find_active_identity_key order target) in
            match id_key_opt with
            | Err _ | Ok None => Ret KeyInternalError
            | Ok (Some id_key) =>
                if negb (validate_signed_prekey_signature (pk_public_key id_key) new_signed_prekey new_signature) then Ret KeyInvalidArgument
                else
                  let* put := put_signed_prekey target new_signed_prekey new_signature id now in
                  match put with
                  | Err _ => Ret KeyInternalError
                  | Ok _ => let* _ := publish_if audit (signed_prekey_rotated (dv_user_id dev) target) in Ret KeySuccess
                  end
            end
      end
  end.
End prekeys.

(** *** [CryptoDirectoryManager] *)

Definition get_crypto_identity (device : uuid) : prog Auth CryptoIdentityResult :=
  let failed st := Ret (mkIdentity st None) in
  let* dev_opt := db (device_find_by_id device) in
  match dev_opt with
  | Err _ => failed KeyInternalError
  | Ok None => failed KeyNotFound
  | Ok (Some dev) =>
      match dv_device_status dev with
      | DeviceRevoked => failed KeyDeviceRevoked
      | DevicePendingAuthorization => failed KeyPendingAuthorization
      | DeviceActive =>
          let* keys := (try* id_key := db (find_active_identity_key order device) in
                        try* spk := db (find_active_signed_prekey order device) in Ret (Ok (id_key, spk))) in
          match keys with
          | Ok (Some id_key, Some spk) => Ret (mkIdentity KeySuccess (Some (bundle_of device id_key spk None)))
          | _ => failed KeyInternalError
          end
      end
  end.

(** [ORDER BY created_at ASC] is [device_order]. *)
Definition list_active_by_user_id (user : uuid) (s : Auth) : Answer (list DeviceEntity) :=
  (Ok (device_order (filter (fun d => dv_user_id d = user /\ dv_device_status d = DeviceActive) (snd <$> map_to_list (devices s)))), s).

(** The loop over the devices. *)
Fixpoint collect_bundles (skip : uuid -> bool) (filter_ids : list uuid) (active_devices : list DeviceEntity)
    (bundles : list (PrekeyBundle * Z)) : prog Auth DirectoryResult :=
  match active_devices with
  | [] => Ret (mkDirectory KeySuccess bundles)
  | dev :: active_devices =>
      if negb (bool_decide (dv_device_status dev = DeviceActive)) then collect_bundles skip filter_ids active_devices bundles
      else if negb (bool_decide (filter_ids = []) || bool_decide (dv_device_id dev ∈ filter_ids)) then
        collect_bundles skip filter_ids active_devices bundles
      else
        let* keys := claim_keys skip (dv_device_id dev) in
        match keys with
        | Err _ => Ret (mkDirectory KeyInternalError [])
        | Ok None => collect_bundles skip filter_ids active_devices bundles
        | Ok (Some (id_key, spk, otk_opt, remaining_otk)) =>
            collect_bundles skip filter_ids active_devices (bundles ++ [(bundle_of (dv_device_id dev) id_key spk otk_opt, remaining_otk)])
        end
  end.

Definition get_device_crypto_directory (skip : uuid -> bool) (user : uuid) (filter_device_ids : list uuid) : prog Auth DirectoryResult :=
  let* active_devices := db (list_active_by_user_id user) in
  match active_devices with
  | Err _ => Ret (mkDirectory KeyInternalError [])
  | Ok active_devices => collect_bundles skip filter_device_ids active_devices []
  end.

Definition update_failed (st : KeyStatusCode) : UpdatePrekeysResult := mkUpdated st false 0 0.

(** The part that rotates the signed prekey: an answer to return at once, or whether it
    rotated. *)
Definition update_signed (target : uuid) (dev : DeviceEntity) (new_signed_prekey new_signature : list Z) (id : uuid) (now : Z)
    : prog Auth (result KeyStatusCode bool) :=
  match new_signed_prekey with
  | [] => Ret (Ok false)
  | _ =>
      if (length new_signature =? 0)%nat then Ret (Err KeyInvalidArgument)
      else if negb (validate_signed_prekey new_signed_prekey) then Ret (Err KeyInvalidArgument)
      else
        let* id_key_opt := db (find_active_identity_key order target) in
        match id_key_opt with
        | Err _ | Ok None => Ret (Err KeyInternalError)
        | Ok (Some id_key) =>
            if negb (validate_signed_prekey_signature (pk_public_key id_key) new_signed_prekey new_signature)
            then Ret (Err KeyInvalidArgument)
            else
              let* put := put_signed_prekey target new_signed_prekey new_signature id now in
              match put with
              | Err _ => Ret (Err KeyInternalError)
              | Ok _ => let* _ := publish_if audit (signed_prekey_rotated (dv_user_id dev) target) in Ret (Ok true)
              end
        end
  end.

(** The part that stores one-time prekeys: how many. *)
Definition update_one_time (target : uuid) (dev : DeviceEntity) (new_one_time_prekeys : list (list Z)) (ids : list uuid) (now : Z)
    : prog Auth (result KeyStatusCode Z) :=
  match new_one_time_prekeys with
  | [] => Ret (Ok 0)
  | _ =>
      if negb (validate_one_time_prekeys new_one_time_prekeys) then Ret (Err KeyInvalidArgument)
      else
        let* put := db (store_one_time_prekeys target (with_key_ids ids new_one_time_prekeys) now) in
        match put with
        | Err _ => Ret (Err KeyInternalError)
        | Ok _ =>
            let* count := db (count_active_one_time_prekeys target) in
            match count with
            | Err _ => Ret (Err KeyInternalError)
            | Ok n =>
                let* _ := publish_if audit (prekeys_updated (dv_user_id dev) target n) in
                Ret (Ok (Z.of_nat (length new_one_time_prekeys)))
            end
        end
  end.

Definition update_crypto_prekeys (caller_user caller_device target : uuid) (new_signed_prekey new_signature : list Z)
    (new_one_time_prekeys : list (list Z)) (id : uuid) (ids : list uuid) (now : Z) : prog Auth UpdatePrekeysResult :=
  if bool_decide (new_signed_prekey = []) && bool_decide (new_one_time_prekeys = []) then Ret (update_failed KeyInvalidArgument)
  else
    let* dev_opt := db (device_find_by_id target) in
    match dev_opt with
    | Err _ => Ret (update_failed KeyInternalError)
    | Ok None => Ret (update_failed KeyNotFound)
    | Ok (Some dev) =>
        if negb (bool_decide (caller_user = dv_user_id dev)) then Ret (update_failed KeyPermissionDenied)
        else if negb (bool_decide (caller_device = dv_device_id dev)) then Ret (update_failed KeyPermissionDenied)
        else if negb (bool_decide (dv_device_status dev = DeviceActive)) then Ret (update_failed KeyPermissionDenied)
        else
          let* signed := update_signed target dev new_signed_prekey new_signature id now in
          match signed with
          | Err st => Ret (update_failed st)
          | Ok rotated =>
              let* added := update_one_time target dev new_one_time_prekeys ids now in
              match added with
              | Err st => Ret (update_failed st)
              | Ok n =>
                  let* total := db (count_active_one_time_prekeys target) in
                  match total with
                  | Err _ => Ret (update_failed KeyInternalError)
                  | Ok total => Ret (mkUpdated KeySuccess rotated n total)
                  end
              end
          end
    end.
End managers.
