(* ===== verification/KeyDirectorySpec.v ===== *)
(** * The key directory under concurrency

    Every bundle carries a signed prekey that an identity key of the device signed, and
    a one-time prekey nobody else gets. *)

From S2P Require Import Prelude Ids Bytes AccessTokens Prog AuthStore AuthTokens AuthInv KeyDirectory.
#[local] Open Scope Z_scope.

Section directory.
Context {curves : Curves} (sha256 : list Z -> list Z) (order : KeyOrder) (Horder : order_ok order).
Context (device_order : list DeviceEntity -> list DeviceEntity) (audit : bool).

Abbreviation bundle_of := (bundle_of sha256).

(** What a bundle promises about the stored keys. *)
Record bundle_ok (device : uuid) (b : PrekeyBundle) (s : Auth) : Prop := {
  bo_device : pb_device_id b = device;
  bo_identity : exists i k, device_public_keys s !! i = Some k /\ pk_device_id k = device /\
    pk_key_type k = IdentitySigning /\ pk_public_key k = pb_identity_key b;
  bo_signed : exists i k, device_public_keys s !! i = Some k /\ pk_device_id k = device /\ pk_key_type k = IdentitySigning /\
    validate_signed_prekey_signature (pk_public_key k) (pb_signed_prekey b) (pb_signed_prekey_signature b) = true;
  bo_one_time : forall id, pb_one_time_prekey_id b = Some id -> exists k, device_public_keys s !! id = Some k /\
    pk_device_id k = device /\ pk_key_type k = OneTimePrekey /\ pk_key_status k = KeyClaimed /\ pb_one_time_prekey b = Some (pk_public_key k) }.

Lemma bundle_ok_later device b s s' : bundle_ok device b s -> auth_later s s' -> bundle_ok device b s'.
Proof.
  intros [Hd (i & k & Hk & Hkd & Hkt & Hkb) (j & x & Hx & Hxd & Hxt & Hxv) Ho] Hl. constructor; [done|..].
  - destruct (al_keys _ _ Hl _ _ Hk) as (k' & Hk' & []). exists i, k'. split_and!; congruence.
  - destruct (al_keys _ _ Hl _ _ Hx) as (x' & Hx' & []). exists j, x'. split_and!; congruence.
  - intros id Hid. destruct (Ho id Hid) as (y & Hy & Hyd & Hyt & Hys & Hyb). destruct (al_keys _ _ Hl _ _ Hy) as (y' & Hy' & []).
    rewrite kl_frozen in Hy' by congruence. exists y. by split_and!.
Qed.

(** The one-time prekeys a claim hands out. *)
Definition handed_out (b : PrekeyBundle) : list uuid := match pb_one_time_prekey_id b with Some id => [id] | None => [] end.

Lemma newest_key type device s k :
  newest order (keys_where (key_of_device device type KeyActive) s) = Some k ->
  (exists i, device_public_keys s !! i = Some k) /\ pk_device_id k = device /\ pk_key_type k = type.
Proof using Horder.
  intros H. apply (oo_newest _ Horder) in H as [Hin _]. apply elem_of_keys_where in Hin as [Hk Hi]. unfold key_of_device in Hk.
  apply andb_prop in Hk as [[Hd%bool_decide_eq_true Ht%bool_decide_eq_true]%andb_prop _]. done.
Qed.

Definition claim_post (s0 : Auth) (K0 : list Resource) (device : uuid)
    (r : result RepositoryExn (option (DevicePublicKeyEntity * DevicePublicKeyEntity * option DevicePublicKeyEntity * Z)))
    (K : list Resource) (s : Auth) : Prop :=
  forall o, r = Ok o -> auth_inv s /\ auth_later s0 s /\ K0 ⊆ K /\
    forall id_key spk otk n, o = Some (id_key, spk, otk, n) ->
      bundle_ok device (bundle_of device id_key spk otk) s /\
      (forall id, id ∈ handed_out (bundle_of device id_key spk otk) ->
         AKey id ∈ K /\ ~ free (AKey id) s /\ ~ ~ free (AKey id) s0).

Lemma wp_claim_keys skip device K s0 :
  auth_inv s0 -> wpa (claim_keys order skip device) K (claim_post s0 K device) s0.
Proof using Horder.
  intros HI. unfold claim_keys. apply wp_read; [done|]. intros s1 Hl1 HI1.
  destruct (newest order _) as [idk|] eqn:Hidk; (apply wp_read; [done|]; intros s2 Hl2 HI2).
  2:{ destruct (newest order _); intros o [= <-]; (split_and!; [done|by transitivity s1|done|done]). }
  destruct (newest order (keys_where (key_of_device device SignedPrekey KeyActive) s2)) as [spk|] eqn:Hspk;
    [|intros o [= <-]; by split_and!; [|transitivity s1| |]].
  apply newest_key in Hidk as ((i & Hi) & Hid & Hit). apply newest_key in Hspk as ((j & Hj) & Hsd & Hst).
  destruct (ai_keys _ HI2 _ _ Hj) as [_ Hsigned]. destruct (Hsigned Hst) as (l & x & Hx & Hxd & Hxt & Hxv).
  apply wp_db. intros s3 Hl3 HI3. pose proof (claim_moves order skip device s3 Horder HI3) as Hm3. split_and!; [done| |done|done].
  intros HI3'. assert (Hl03 : auth_later s0 s3) by (transitivity s1; [done|]; by transitivity s2).
  assert (Hbase : forall s otk, auth_later s3 s ->
    (forall id, (pk_key_id <$> otk) = Some id -> exists k, device_public_keys s !! id = Some k /\ pk_device_id k = device /\
       pk_key_type k = OneTimePrekey /\ pk_key_status k = KeyClaimed /\ (pk_public_key <$> otk) = Some (pk_public_key k)) ->
    bundle_ok device (bundle_of device idk spk otk) s).
  { intros s otk Hs Ho. constructor; [done|..|done].
    - destruct (al_keys _ _ (transitivity Hl2 (transitivity Hl3 Hs)) _ _ Hi) as (k' & Hk' & []). exists i, k'. cbn. split_and!; congruence.
    - destruct (al_keys _ _ (transitivity Hl3 Hs) _ _ Hx) as (x' & Hx' & []). exists l, x'. cbn. split_and!; congruence. }
  unfold committed in *. destruct (claim_one_time_prekey order skip device s3) as [[otk|e] s3'] eqn:E; cbn [is_ok fst] in *;
    [|by exists K; split; [apply takes_refl|]].
  destruct otk as [k|].
  - destruct (claim_spec _ _ _ _ _ _ Horder HI3 E) as (y & Hy & Hyk & Hk & Hs3').
    unfold key_of_device in Hyk. apply andb_prop in Hyk as [[Hyd%bool_decide_eq_true Hyt%bool_decide_eq_true]%andb_prop Hya%bool_decide_eq_true].
    assert (Hrow : device_public_keys s3' !! pk_key_id k = Some k) by (subst s3'; apply lookup_insert_eq).
    assert (Hf3 : free (AKey (pk_key_id k)) s3) by (cbn; congruence).
    assert (Hnf : ~ free (AKey (pk_key_id k)) s3') by (intros Hf; specialize (Hf _ Hrow); rewrite Hk in Hf; done).
    exists (AKey (pk_key_id k) :: K). split.
    { intros z [->|Hz]%elem_of_cons; [|by left]. by right. }
    apply wp_db_simple; [done|]. intros s4 Hl4 HI4.
    assert (Hs4 : committed (count_active_one_time_prekeys device) s4 = s4).
    { unfold committed, count_active_one_time_prekeys, count_one_time_prekeys. by destruct (_ <? _). }
    rewrite Hs4. split; [by apply moves_refl|]. intros _. destruct (fst (count_active_one_time_prekeys device s4)) as [n|e]; [|done].
    destruct (al_keys _ _ Hl4 _ _ Hrow) as (k4 & Hk4 & []). rewrite kl_frozen in Hk4 by (by rewrite Hk).
    intros o [= <-]. split_and!; [done|transitivity s3; [done|]; transitivity s3'; [apply Hm3|done]|set_solver|].
    intros id_key' spk' otk' n' [= <- <- <- <-]. split.
    + apply Hbase; [transitivity s3'; [apply Hm3|done]|]. intros id [= <-]. exists k. rewrite Hk. by split_and!; [rewrite <- Hk|..].
    + intros id Hin. assert (id = pk_key_id k) as -> by (by apply list_elem_of_singleton in Hin).
      split_and!; [by left|by eapply free_lost|].
      intros Hn. by eapply free_lost; [exact Hn|exact Hl03|].
  - exists K. split; [apply takes_refl|]. apply wp_db_simple; [done|]. intros s4 Hl4 HI4.
    assert (Hs4 : committed (count_active_one_time_prekeys device) s4 = s4).
    { unfold committed, count_active_one_time_prekeys, count_one_time_prekeys. by destruct (_ <? _). }
    rewrite Hs4. split; [by apply moves_refl|]. intros _. destruct (fst (count_active_one_time_prekeys device s4)) as [n|e]; [|done].
    assert (Hl34 : auth_later s3 s4) by (transitivity s3'; [apply Hm3|done]). intros o [= <-].
    split_and!; [done|by transitivity s3|done|]. intros id_key' spk' otk' n' [= <- <- <- <-].
    split; [by apply Hbase|]. by intros id ?%elem_of_nil.
Qed.

(** A claimed bundle. *)
Definition bundle_post (s0 : Auth) (device : uuid) (r : ClaimPrekeyBundleResult) (K : list Resource) (s : Auth) : Prop :=
  forall b st, cb_bundle r = Some (b, st) ->
    bundle_ok device b s /\ (forall id, id ∈ handed_out b -> AKey id ∈ K) /\
    (forall d, devices s0 !! device = Some d -> dv_device_status d <> DeviceRevoked).

Lemma bundle_post_stable s0 device : stable_post (bundle_post s0 device).
Proof. intros r K s s' H Hl _ b st Hb. destruct (H b st Hb) as (? & ? & ?). split_and!; [by eapply bundle_ok_later|done|done]. Qed.

Lemma wp_claim_device_prekey_bundle low skip device s0 :
  auth_inv s0 -> wpa (claim_device_prekey_bundle sha256 order audit low skip device) [] (bundle_post s0 device) s0.
Proof using Horder.
  intros HI. unfold claim_device_prekey_bundle. apply wp_read; [done|]. intros s1 Hl1 HI1.
  destruct (devices s1 !! device) as [d|] eqn:Hd; [|done]. case_bool_decide as Hrev; [done|].
  case_bool_decide as Hact; cbn [negb]; [|done].
  assert (H0 : forall d0, devices s0 !! device = Some d0 -> dv_device_status d0 <> DeviceRevoked).
  { intros d0 Hd0 Hr. destruct (al_devices _ _ Hl1 _ _ Hd0) as (d1 & Hd1 & []). simplify_eq. specialize (dl_revoked Hr). congruence. }
  apply wpx_bind. eapply wpx_mono; [|by apply (wp_claim_keys skip device [] s1)]. cbn.
  intros [[[[[idk spk] otk] n]|]|e] K s Hpost; [|done|done]. destruct (Hpost _ eq_refl) as (HIs & Hls & _ & Ho).
  destruct (Ho _ _ _ _ eq_refl) as (Hb & Hown).
  assert (Hfinal : forall state s', auth_later s s' ->
    bundle_post s0 device (mkClaim KeySuccess (Some (bundle_of device idk spk otk, state))) K s').
  { intros state s' Hs' b st [= <- <-]. split_and!; [by eapply bundle_ok_later| |done]. intros id Hin. by apply Hown. }
  destruct otk as [k|].
  - destruct (_ <=? _); [|by apply Hfinal]. apply wp_publish; [done|]. intros s' Hs' _. by apply Hfinal.
  - apply wp_publish; [done|]. intros s' Hs' _. by apply Hfinal.
Qed.

(** ** The directory of a user *)

Definition all_handed_out (bundles : list (PrekeyBundle * Z)) : list uuid := mjoin ((fun b => handed_out (fst b)) <$> bundles).

Record directory_ok (bundles : list (PrekeyBundle * Z)) (K : list Resource) (s : Auth) : Prop := {
  do_bundles : Forall (fun b => exists device, bundle_ok device (fst b) s) bundles;
  do_owned : forall id, id ∈ all_handed_out bundles -> AKey id ∈ K /\ ~ free (AKey id) s;
  do_distinct : NoDup (all_handed_out bundles) }.

Lemma directory_ok_later bundles K s s' : directory_ok bundles K s -> auth_later s s' -> directory_ok bundles K s'.
Proof.
  intros [] Hl. constructor; [|..|done].
  - eapply Forall_impl; [exact do_bundles0|]. intros b (d & Hb). exists d. by eapply bundle_ok_later.
  - intros id Hin. destruct (do_owned0 id Hin). split; [done|by eapply free_lost].
Qed.

(** [ORDER BY] gives back rows of the table. *)
Definition orders_rows : Prop := forall l d, d ∈ device_order l -> d ∈ l.

(** No bundle is of a device that was revoked when the call started. *)
Definition none_revoked (s0 : Auth) (bundles : list (PrekeyBundle * Z)) : Prop :=
  orders_rows -> Forall (fun b => forall d, devices s0 !! pb_device_id (fst b) = Some d -> dv_device_status d <> DeviceRevoked) bundles.

Definition directory_post (s0 : Auth) (r : DirectoryResult) (K : list Resource) (s : Auth) : Prop :=
  directory_ok (dr_bundles r) K s /\ none_revoked s0 (dr_bundles r).

Lemma directory_post_stable s0 : stable_post (directory_post s0).
Proof. intros r K s s' [H Hn] Hl _. split; [by eapply directory_ok_later|done]. Qed.

Lemma directory_ok_nil K s : directory_ok [] K s.
Proof. constructor; [done|by intros ? ?%elem_of_nil|apply NoDup_nil_2]. Qed.

Lemma all_handed_out_snoc bundles b n : all_handed_out (bundles ++ [(b, n)]) = all_handed_out bundles ++ handed_out b.
Proof. unfold all_handed_out. by rewrite fmap_app, join_app; cbn; rewrite app_nil_r. Qed.

(** The devices that were listed when the call had started. *)
Definition listed_usable (s0 : Auth) (devs : list DeviceEntity) : Prop :=
  orders_rows -> Forall (fun d => dv_device_status d = DeviceActive ->
    forall d0, devices s0 !! dv_device_id d = Some d0 -> dv_device_status d0 <> DeviceRevoked) devs.

Lemma wp_collect_bundles s0 skip ids devs : listed_usable s0 devs -> forall bundles K s,
  auth_inv s -> directory_ok bundles K s -> none_revoked s0 bundles ->
  wpa (collect_bundles sha256 order skip ids devs bundles) K (directory_post s0) s.
Proof using Horder.
  induction devs as [|d devs IH]; intros Hdevs bundles K s HI Hb Hn; cbn [collect_bundles]; [done|].
  assert (Hdevs' : listed_usable s0 devs) by (intros Ho; specialize (Hdevs Ho); by inversion Hdevs). specialize (IH Hdevs').
  case_bool_decide as Hact; cbn [negb]; [|by apply IH]. destruct (negb _); [by apply IH|]. apply wpx_bind.
  eapply wpx_mono; [|by apply (wp_claim_keys skip (dv_device_id d) K s)]. cbn beta.
  intros [o|e] K' s' Hpost; [|split; [apply directory_ok_nil|by intros _]]. destruct (Hpost o eq_refl) as (HI' & Hl & HK & Ho).
  assert (Hb' : directory_ok bundles K' s').
  { destruct (directory_ok_later _ _ _ _ Hb Hl). constructor; [done| |done]. intros id Hin. destruct (do_owned0 id Hin). split; [by apply HK|done]. }
  destruct o as [[[[idk spk] otk] n]|]; [|by apply IH]. destruct (Ho _ _ _ _ eq_refl) as [Hnew Hown]. apply IH; [done| |].
  2:{ intros Hrows. apply Forall_app. split; [by apply Hn|]. constructor; [|done]. specialize (Hdevs Hrows). inversion Hdevs; subst. auto. }
  destruct Hb'. constructor.
  - apply Forall_app. split; [done|]. constructor; [by exists (dv_device_id d)|done].
  - intros id Hin. rewrite all_handed_out_snoc in Hin. apply elem_of_app in Hin as [Hin|Hin]; [by apply do_owned0|]. by destruct (Hown id Hin) as (? & ? & _).
  - rewrite all_handed_out_snoc. apply NoDup_app. split_and!; [done| |].
    + intros id Hin Hin'. destruct (Hown id Hin') as (_ & _ & Hf). apply Hf. by apply (do_owned _ _ _ Hb).
    + unfold handed_out. destruct (pb_one_time_prekey_id _); [apply NoDup_singleton|apply NoDup_nil_2].
Qed.

Lemma wp_directory skip user ids s :
  auth_inv s -> wpa (get_device_crypto_directory sha256 order device_order skip user ids) [] (directory_post s) s.
Proof using Horder.
  intros HI. unfold get_device_crypto_directory. apply wp_read; [intros; split; [apply directory_ok_nil|by intros _]|]. intros s1 Hl1 HI1.
  apply wp_collect_bundles; [|done|apply directory_ok_nil|by intros _]. intros Hrows. apply Forall_forall. intros d Hd Ha d0 Hd0 Hr.
  apply Hrows, list_elem_of_filter in Hd as [_ Hd]. apply list_elem_of_fmap in Hd as ([i x] & Hx & Hd). cbn in Hx. subst x.
  apply elem_of_map_to_list in Hd. pose proof (ai_devices _ HI1 _ _ Hd) as Hi. destruct (al_devices _ _ Hl1 _ _ Hd0) as (d1 & Hd1 & []).
  rewrite Hi, Hd in Hd1. injection Hd1 as <-. specialize (dl_revoked Hr). congruence.
Qed.

(** ** Updates keep the invariant *)

Abbreviation any := (plain (fun _ _ => True)).

Lemma wp_count {R} device (k : result RepositoryExn Z -> prog Auth R) K Q s :
  (forall s', wpa (k (Err DriverException)) K Q s') -> (forall r s', auth_later s s' -> auth_inv s' -> wpa (k r) K Q s') ->
  wpa (pbind (db (count_active_one_time_prekeys device)) k) K Q s.
Proof.
  intros Hf Hk. apply wp_db_simple; [done|]. intros s' Hl HI.
  assert (Hs : committed (count_active_one_time_prekeys device) s' = s').
  { unfold committed, count_active_one_time_prekeys, count_one_time_prekeys. by destruct (_ <? _). }
  rewrite Hs. split; [by apply moves_refl|]. intros _. by apply Hk.
Qed.

(** A signed prekey is stored only after its signature was checked against an identity
    key of the device. *)
Lemma wp_put_signed_prekey {R} device key signature id now idk i (k : result RepositoryExn unit -> prog Auth R) K Q s :
  device_public_keys s !! i = Some idk -> pk_device_id idk = device -> pk_key_type idk = IdentitySigning ->
  validate_signed_prekey_signature (pk_public_key idk) key signature = true ->
  (forall s', wpa (k (Err DriverException)) K Q s') -> (forall r s', auth_later s s' -> auth_inv s' -> wpa (k r) K Q s') ->
  wpa (pbind (put_signed_prekey order device key signature id now) k) K Q s.
Proof using Horder.
  intros Hi Hd Ht Hv Hf Hk. unfold put_signed_prekey. apply wpx_bind. apply wp_read; [done|]. intros s1 Hl1 HI1.
  assert (Hsigned : forall s', auth_later s1 s' -> signed_ok s' (mkPublicKey id device SignedPrekey key KeyActive now None None (Some signature))).
  { intros s' Hl' _. destruct (al_keys _ _ (transitivity Hl1 Hl') _ _ Hi) as (x & Hx & []). exists i, x. cbn. split_and!; congruence. }
  assert (Hput : forall t, (forall s', auth_later s1 s' -> auth_inv s' -> moves s' (committed t s')) ->
    wpa (db t) K (fun r K s' => wpa (k r) K Q s') s1).
  { intros t Hm s' Hl' HI'. destruct (Hm s' Hl' HI') as [HIm Hlm].
    assert (Hlater : auth_later s (committed t s')) by (transitivity s1; [done|]; by transitivity s').
    split_and!; [done|done| |apply Hf|apply Hf]. exists K. split; [apply takes_refl|]. by apply Hk. }
  destruct (newest order _) as [cur|].
  - apply Hput. intros s' Hl' HI'. apply replace_key_moves; [done|by apply Hsigned].
  - apply Hput. intros s' Hl' HI'. apply store_public_key_moves; [done|by apply Hsigned].
Qed.

Lemma wp_rotate_signed_prekey cu cd target key signature id now K s :
  auth_inv s -> wpa (rotate_signed_prekey order audit cu cd target key signature id now) K any s.
Proof using Horder.
  intros HI. unfold rotate_signed_prekey. apply wp_read; [done|]. intros s1 Hl1 HI1. destruct (devices s1 !! target) as [d|]; [|done].
  destruct (update_refused _ _ _ _); [done|]. destruct (negb _); [done|]. destruct (negb _); [done|].
  apply wp_read; [done|]. intros s2 Hl2 HI2. destruct (newest order _) as [idk|] eqn:Hidk; [|done].
  apply newest_key in Hidk as ((i & Hi) & Hd & Ht). destruct (validate_signed_prekey_signature _ _ _) eqn:Hv; cbn [negb]; [|done].
  eapply wp_put_signed_prekey; [done|done|done|done|done|]. intros [[]|e] s' Hl' HI'; [|done]. by apply wp_publish.
Qed.

Lemma wp_update_signed {R} target dev key signature id now (k : result KeyStatusCode bool -> prog Auth R) K Q s :
  auth_inv s -> (forall r s', auth_inv s' -> wpa (k r) K Q s') -> (forall e s', wpa (k (Err e)) K Q s') ->
  wpa (pbind (update_signed order audit target dev key signature id now) k) K Q s.
Proof using Horder.
  intros HI Hk Hf. unfold update_signed. apply wpx_bind. destruct key as [|b key]; [by apply Hk|]. destruct (_ =? _)%nat; [by apply Hf|].
  destruct (negb _); [by apply Hf|]. apply wp_read; [intros; apply Hf|]. intros s2 Hl2 HI2. destruct (newest order _) as [idk|] eqn:Hidk; [|by apply Hf].
  apply newest_key in Hidk as ((i & Hi) & Hd & Ht). destruct (validate_signed_prekey_signature _ _ _) eqn:Hv; cbn [negb]; [|by apply Hf].
  eapply wp_put_signed_prekey; [done|done|done|done|intros; apply Hf|]. intros [[]|e] s' Hl' HI'; [|by apply Hf]. apply wp_publish; [done|].
  intros. by apply Hk.
Qed.

Lemma wp_update_one_time {R} target dev keys ids now (k : result KeyStatusCode Z -> prog Auth R) K Q s :
  auth_inv s -> (forall r s', auth_inv s' -> wpa (k r) K Q s') -> (forall e s', wpa (k (Err e)) K Q s') ->
  wpa (pbind (update_one_time audit target dev keys ids now) k) K Q s.
Proof.
  intros HI Hk Hf. unfold update_one_time. apply wpx_bind. destruct keys as [|key keys]; [by apply Hk|]. destruct (negb _); [by apply Hf|].
  apply wp_db_simple; [intros; apply Hf|]. intros s1 Hl1 HI1. split; [by apply store_one_time_prekeys_moves|]. intros HI1'.
  destruct (fst (store_one_time_prekeys _ _ _ s1)); [|by apply Hf]. apply wp_count; [intros; apply Hf|]. intros [n|e] s2 Hl2 HI2; [|by apply Hf].
  apply wp_publish; [done|]. intros. by apply Hk.
Qed.

Lemma wp_update_crypto_prekeys cu cd target key signature keys id ids now K s :
  auth_inv s -> wpa (update_crypto_prekeys order audit cu cd target key signature keys id ids now) K any s.
Proof using Horder.
  intros HI. unfold update_crypto_prekeys. destruct (_ && _); [done|]. apply wp_read; [done|]. intros s1 Hl1 HI1.
  destruct (devices s1 !! target) as [d|]; [|done]. repeat (destruct (negb _); [done|]).
  apply wp_update_signed; [done| |done]. intros [r|e] s2 HI2; [|done]. apply wp_update_one_time; [done| |done].
  intros [n|e] s3 HI3; [|done]. apply wp_count; [done|]. by intros [t|e] s4 _ _.
Qed.

Lemma wp_any_conflict device keys K s :
  auth_inv s -> wpa (any_conflict device keys) K (fun r K' s' => K' = K /\ (is_ok r = true -> auth_inv s')) s.
Proof.
  revert s. induction keys as [|key keys IH]; intros s HI; cbn [any_conflict]; [done|].
  apply (wp_read (fun s => negb (bool_decide (keys_where _ s = [])))); [done|]. intros s1 Hl1 HI1. destruct (negb _); [done|]. by apply IH.
Qed.

Lemma wp_replenish cu cd target keys ids now K s :
  auth_inv s -> wpa (replenish_one_time_prekeys audit cu cd target keys ids now) K any s.
Proof.
  intros HI. unfold replenish_one_time_prekeys. apply wp_read; [done|]. intros s1 Hl1 HI1. destruct (devices s1 !! target) as [d|]; [|done].
  destruct (update_refused _ _ _ _); [done|]. destruct (negb _); [done|]. apply wpx_bind. apply wpx_bind.
  eapply wpx_mono; [|by apply wp_any_conflict]. intros [[]|e] K' s2 [-> HI2]; [done| |done]. specialize (HI2 eq_refl). apply wp_db_simple; [done|].
  intros s3 Hl3 HI3. split; [by apply store_one_time_prekeys_moves|].
  intros HI3'. destruct (fst (store_one_time_prekeys _ _ _ s3)); [|done]. apply wp_count; [done|]. intros [n|e] s4 Hl4 HI4; [|done].
  by apply wp_publish.
Qed.

Lemma wp_inventory low age device now K s : auth_inv s -> wpa (get_inventory_status order low age device now) K any s.
Proof.
  intros HI. unfold get_inventory_status. apply wp_read; [done|]. intros s1 Hl1 HI1. destruct (devices s1 !! device) as [d|]; [|done].
  case_bool_decide; [done|]. apply wpx_bind. apply wp_count; [done|]. intros [n|e] s2 Hl2 HI2; [|done].
  apply wp_db_simple; [done|]. intros s3 Hl3 HI3.
  assert (Hs : committed (count_claimed_one_time_prekeys device) s3 = s3).
  { unfold committed, count_claimed_one_time_prekeys, count_one_time_prekeys. by destruct (_ <? _). }
  rewrite Hs. split; [by apply moves_refl|]. intros _. destruct (fst (count_claimed_one_time_prekeys device s3)); [|done]. by apply wp_read.
Qed.
End directory.
