(* ===== verification/Devices.v ===== *)
(** * The device manager

    Models [src/auth/service/device_manager.cpp]: enrolment of devices, pairing codes,
    authorization and revocation.  The section under [challenge_mutex_] in
    [authorize_device] also authorizes the device; it is split before that, which only
    adds interleavings. *)

From S2P Require Import Prelude Ids Bytes AuditValidation AccessTokens Prog AuthStore AuthTokens Base32 MfaFactors KeyDirectory.
From Stdlib Require Import Ascii.
#[local] Open Scope Z_scope.

Definition kMaxFailedPairingAttempts : Z := 3.
Definition kPairingAlphabet : list ascii := chars "23456789ABCDEFGHJKLMNPQRSTUVWXYZ".
Definition kPairingCodeLength : nat := 8.

(** [DeviceManager::normalize_code]. *)
Definition normalize_pairing_code (code : list ascii) : list ascii :=
  toupper <$> filter (fun c => Ascii.eqb c "-" || Ascii.eqb c " " || isspace c = false) code.

Definition pairing_char (b : Z) : ascii := default zero (kPairingAlphabet !! Z.to_nat (b mod 32)).
Definition generate_pairing_code_internal (rand_bytes : list Z) : list ascii := pairing_char <$> rand_bytes.
Definition formatted_code (raw_code : list ascii) : list ascii := take 4 raw_code ++ "-"%char :: take 4 (drop 4 raw_code).

Record DeviceEnrollmentResult := mkEnrollment {
  er_success : bool; er_device_id : option uuid; er_status : option DeviceStatus; er_pairing_code : option (list ascii);
  er_expires_at : option Z }.

Definition enrollment_failed : DeviceEnrollmentResult := mkEnrollment false None None None None.

Record DeviceAuthorizationResult := mkAuthorization { ar_success : bool; ar_status : option DeviceStatus; ar_locked_out : bool }.

Definition not_authorized (st : option DeviceStatus) (locked_out : bool) : DeviceAuthorizationResult := mkAuthorization false st locked_out.

Record DeviceRevocationResult := mkDeviceRevocation { dvr_success : bool; dvr_not_found : bool; dvr_permission_denied : bool }.

Section devices.
Context {curves : Curves} (audit : bool) (pairing_ttl : Z).

Definition pairing (user : uuid) (raw_code : list ascii) (now : Z) : DevicePairingChallenge :=
  mkPairing user (of_chars raw_code) now (now + pairing_ttl) 0 false false.

Definition store_pairing (device : uuid) (c : DevicePairingChallenge) : prog Auth unit :=
  locked (fun s => (tt, set_pairing_challenges (<[device := c]> (pairing_challenges_ s)) s)).

(** One transaction for every key. *)
Fixpoint store_keys (keys : list DevicePublicKeyEntity) : prog Auth (result RepositoryExn unit) :=
  match keys with
  | [] => Ret (Ok tt)
  | k :: keys => try* _ := db (store_public_key k) in store_keys keys
  end.

(** What an enrolment draws. *)
Record EnrollDraw := mkEnrollDraw {
  ed_device : uuid; ed_identity : uuid; ed_signed : uuid; ed_one_time : list uuid; ed_rand : list Z; ed_now : Z }.

Definition enrolled_keys (identity_key signed_prekey signature : list Z) (one_time_prekeys : list (list Z)) (d : EnrollDraw)
    : list DevicePublicKeyEntity :=
  [mkPublicKey (ed_identity d) (ed_device d) IdentitySigning identity_key KeyActive (ed_now d) None None None;
   mkPublicKey (ed_signed d) (ed_device d) SignedPrekey signed_prekey KeyActive (ed_now d) None None (Some signature)]
  ++ ((fun ik => mkPublicKey (fst ik) (ed_device d) OneTimePrekey (snd ik) KeyActive (ed_now d) None None None)
      <$> zip (ed_one_time d) one_time_prekeys).

Definition enroll_device (user : uuid) (identity_key signed_prekey signature : list Z) (one_time_prekeys : list (list Z))
    (caller_auth_level : AuthenticationLevel) (d : EnrollDraw) : prog Auth (result RepositoryExn DeviceEnrollmentResult) :=
  if negb (validate_registration_bundle identity_key signed_prekey signature one_time_prekeys) then Ret (Ok enrollment_failed)
  else
    let now := ed_now d in
    let initial_status := if bool_decide (caller_auth_level = MfaVerified) then DeviceActive else DevicePendingAuthorization in
    try* _ := db (register_device (mkDevice (ed_device d) user initial_status now None None now now now)) in
    try* _ := store_keys (enrolled_keys identity_key signed_prekey signature one_time_prekeys d) in
    if bool_decide (initial_status = DevicePendingAuthorization) then
      let raw_code := generate_pairing_code_internal (ed_rand d) in
      let* _ := store_pairing (ed_device d) (pairing user raw_code now) in
      let* _ := publish_if audit (device_enrolled user (ed_device d) false) in
      let* _ := publish_if audit (device_pairing_initiated user (ed_device d)) in
      Ret (Ok (mkEnrollment true (Some (ed_device d)) (Some DevicePendingAuthorization) (Some (formatted_code raw_code)) (Some (now + pairing_ttl))))
    else
      let* _ := publish_if audit (device_enrolled user (ed_device d) true) in
      let* _ := publish_if audit (device_authorized user (ed_device d)) in
      Ret (Ok (mkEnrollment true (Some (ed_device d)) (Some DeviceActive) None None)).

Definition initiate_device_pairing (user device : uuid) (rand_bytes : list Z) (now : Z)
    : prog Auth (result RepositoryExn (option (list ascii * Z))) :=
  try* dev := db (device_find_by_id device) in
  match dev with
  | None => Ret (Ok None)
  | Some dev =>
      if negb (bool_decide (dv_user_id dev = user)) then Ret (Ok None)
      else if negb (bool_decide (dv_device_status dev = DevicePendingAuthorization)) then Ret (Ok None)
      else
        let raw_code := generate_pairing_code_internal rand_bytes in
        let* _ := store_pairing device (pairing user raw_code now) in
        let* _ := publish_if audit (device_pairing_initiated user device) in
        Ret (Ok (Some (formatted_code raw_code, now + pairing_ttl)))
  end.

(** *** Pairing codes *)

Inductive PairingOutcome := PairingNotFound | PairingExpired | PairingLockedOut | PairingInvalid (locked_out : bool) | PairingMatched.

Definition set_pairing (attempts : Z) (consumed locked_out : bool) (c : DevicePairingChallenge) : DevicePairingChallenge :=
  mkPairing (pc_user_id c) (pc_pairing_code c) (pc_created_at c) (pc_expires_at c) attempts consumed locked_out.

Definition check_pairing (device : uuid) (pairing_code : list ascii) (now : Z) (s : Auth) : PairingOutcome * Auth :=
  match pairing_challenges_ s !! device with
  | None => (PairingNotFound, s)
  | Some c =>
      let put c := set_pairing_challenges (<[device := c]> (pairing_challenges_ s)) s in
      if is_consumed c then (PairingNotFound, s)
      else if pc_expires_at c <? now then (PairingExpired, s)
      else if is_locked_out c || (kMaxFailedPairingAttempts <=? failed_attempts c) then
        (PairingLockedOut, put (set_pairing (failed_attempts c) (is_consumed c) true c))
      else if negb (bool_decide (of_chars (normalize_pairing_code pairing_code) = pc_pairing_code c)) then
        let attempts := u32 (failed_attempts c + 1) in
        let locked_out := is_locked_out c || (kMaxFailedPairingAttempts <=? attempts) in
        (PairingInvalid locked_out, put (set_pairing attempts (is_consumed c) locked_out c))
      else (PairingMatched, put (set_pairing (failed_attempts c) true (is_locked_out c) c))
  end.

(** The call of the repository, whose own exceptions are caught. *)
Definition authorize_row (user device : uuid) (now : Z) : prog Auth (result RepositoryExn DeviceAuthorizationResult) :=
  let* r := db (authorize_device device now) in
  match r with
  | Err DriverException => Ret (Err DriverException)
  | Err _ => Ret (Ok (not_authorized (Some DeviceRevoked) false))
  | Ok _ =>
      let* _ := publish_if audit (device_authorized user device) in
      Ret (Ok (mkAuthorization true (Some DeviceActive) false))
  end.

(** [DeviceManager::authorize_device]. *)
Definition manager_authorize_device (user device : uuid) (pairing_code : list ascii) (caller_auth_level : AuthenticationLevel) (now : Z)
    : prog Auth (result RepositoryExn DeviceAuthorizationResult) :=
  try* dev := db (device_find_by_id device) in
  match dev with
  | None => Ret (Ok (not_authorized None false))
  | Some dev =>
      if negb (bool_decide (dv_user_id dev = user)) then Ret (Ok (not_authorized None false))
      else
        match dv_device_status dev with
        | DeviceRevoked => Ret (Ok (not_authorized (Some DeviceRevoked) false))
        | DeviceActive => Ret (Ok (not_authorized (Some DeviceActive) false))
        | DevicePendingAuthorization =>
            if bool_decide (caller_auth_level = MfaVerified) then
              let* _ := locked (fun s => (tt,
                match pairing_challenges_ s !! device with
                | Some c => set_pairing_challenges
                    (<[device := set_pairing (failed_attempts c) true (is_locked_out c) c]> (pairing_challenges_ s)) s
                | None => s
                end)) in
              authorize_row user device now
            else
              let* outcome := locked (check_pairing device pairing_code now) in
              match outcome with
              | PairingNotFound | PairingExpired => Ret (Ok (not_authorized None false))
              | PairingLockedOut => Ret (Ok (not_authorized None true))
              | PairingInvalid locked_out => Ret (Ok (not_authorized None locked_out))
              | PairingMatched => authorize_row user device now
              end
        end
  end.

(** [DeviceManager::revoke_device]; the answer of the session manager is not looked at. *)
Definition manager_revoke_device (user device : uuid) (reason : string) (caller_auth_level : AuthenticationLevel)
    (now now_device now_sessions : Z) : prog Auth (result RepositoryExn DeviceRevocationResult) :=
  if negb (bool_decide (caller_auth_level = MfaVerified)) then Ret (Ok (mkDeviceRevocation false false true))
  else
    try* dev_opt := db (device_find_by_id device) in
    match dev_opt with
    | None => Ret (Ok (mkDeviceRevocation false true false))
    | Some dev =>
        if negb (bool_decide (dv_user_id dev = user)) then Ret (Ok (mkDeviceRevocation false false true))
        else if bool_decide (dv_device_status dev = DeviceRevoked) then Ret (Ok (mkDeviceRevocation true false false))
        else
          let effective_reason := if bool_decide (reason = EmptyString) then "Device revoked by user"%string else reason in
          try* _ := db (revoke_device device effective_reason now now_device) in
          let* _ := revoke_all_device_sessions device now_sessions in
          try* _ := db (revoke_all_device_keys device now) in
          let* _ := locked (fun s => (tt, set_pairing_challenges (delete device (pairing_challenges_ s)) s)) in
          let* _ := publish_if audit (device_revoked user device) in
          Ret (Ok (mkDeviceRevocation true false false))
    end.
End devices.
