(* ===== verification/DevicesSpec.v ===== *)
(** * Devices under concurrency

    Who can activate a device and what a revocation leaves behind, proved of the
    programs of [Devices] run by any number of threads. *)

From S2P Require Import Prelude Ids Bytes AccessTokens Prog AuthStore AuthTokens AuthInv KeyDirectory Devices.
From Stdlib Require Import Ascii.
#[local] Open Scope Z_scope.

Section devices.
Context {curves : Curves} (audit : bool) (pairing_ttl : Z).

Abbreviation any := (plain (fun _ _ => True)).

(** ** Enrolment *)

(** The keys that are still to be stored can be stored. *)
Fixpoint storable (keys : list DevicePublicKeyEntity) (s : Auth) : Prop :=
  match keys with
  | [] => True
  | k :: keys =>
      signed_ok s k /\ forall s', auth_later s s' -> device_public_keys s' !! pk_key_id k = Some (key_row k) -> storable keys s'
  end.

Lemma storable_later keys s s' : storable keys s -> auth_later s s' -> storable keys s'.
Proof.
  destruct keys as [|k keys]; [done|]. intros [Hk Hrest] Hl. split; [by eapply signed_ok_later; [apply Hl|..]|].
  intros s'' Hl'. apply Hrest. by transitivity s'.
Qed.

Lemma wp_store_keys {R} keys (k : result RepositoryExn unit -> prog Auth R) K Q s :
  auth_inv s -> storable keys s -> (forall e s', wpa (k (Err e)) K Q s') -> (forall s', auth_later s s' -> auth_inv s' -> wpa (k (Ok tt)) K Q s') ->
  wpa (pbind (store_keys keys) k) K Q s.
Proof.
  intros HI Hs He Hk. apply wpx_bind. revert s HI Hs Hk. induction keys as [|x keys IH]; intros s HI Hs Hk; cbn [store_keys]; [by apply Hk|].
  apply wp_db_simple; [intros; apply He|]. intros s1 Hl1 HI1. destruct (storable_later _ _ _ Hs Hl1) as [Hx Hrest].
  pose proof (store_public_key_moves x s1 HI1 Hx) as Hm. split; [done|]. intros HI1'. unfold committed in *.
  destruct (store_public_key x s1) as [[[]|e] s1'] eqn:E; cbn [is_ok fst] in *; [|apply He]. apply IH; [done| |].
  - apply Hrest; [apply Hm|]. apply store_public_key_spec in E as [_ ->]. apply lookup_insert_eq.
  - intros s' Hl' HI'. apply Hk; [|done]. transitivity s1; [done|]. transitivity s1'; [apply Hm|done].
Qed.

Lemma one_time_storable device now l s :
  storable ((fun ik : uuid * list Z => mkPublicKey (fst ik) device OneTimePrekey (snd ik) KeyActive now None None None) <$> l) s.
Proof. revert s. induction l as [|[id key] l IH]; intros s; [done|]. split; [by intros ?|]. intros s' _ _. apply IH. Qed.

Lemma enrolled_keys_storable idk spk sig otks d s :
  validate_registration_bundle idk spk sig otks = true -> storable (enrolled_keys idk spk sig otks d) s.
Proof.
  intros [Hv _]%andb_prop. split; [by intros ?|]. intros s1 Hl1 Hid. split.
  - intros _. eexists _, _. split; [exact Hid|]. by split_and!.
  - intros s2 _ _. apply one_time_storable.
Qed.

(** A device starts active only for a caller with a second factor. *)
Definition enroll_post (user : uuid) (level : AuthenticationLevel) (r : result RepositoryExn DeviceEnrollmentResult) (s : Auth) : Prop :=
  forall e, r = Ok e -> er_success e = true ->
    exists device d, er_device_id e = Some device /\ devices s !! device = Some d /\ dv_user_id d = user /\
      (er_status e = Some DeviceActive -> level = MfaVerified).

Lemma enroll_post_stable user level : stable_post (plain (enroll_post user level)).
Proof.
  intros r K s s' H Hl _ e He Hok. destruct (H e He Hok) as (i & d & Hi & Hd & Hu & Hlv). destruct (al_devices _ _ Hl _ _ Hd) as (d' & Hd' & []).
  exists i, d'. split_and!; [done|done|congruence|done].
Qed.

Lemma wp_enroll user idk spk sig otks level d K s :
  auth_inv s -> wpa (enroll_device audit pairing_ttl user idk spk sig otks level d) K (plain (enroll_post user level)) s.
Proof.
  intros HI. unfold enroll_device. destruct (validate_registration_bundle idk spk sig otks) eqn:Hv; cbn [negb].
  2:{ intros e [= <-]. done. }
  apply wp_db_simple; [done|]. intros s1 Hl1 HI1. pose proof (register_device_moves (mkDevice (ed_device d) user
    (if bool_decide (level = MfaVerified) then DeviceActive else DevicePendingAuthorization) (ed_now d) None None (ed_now d) (ed_now d) (ed_now d)) s1 HI1) as Hm1.
  split; [done|]. intros HI1'. unfold committed in *. destruct (register_device _ s1) as [[[]|e] s1'] eqn:E; cbn [is_ok fst] in *; [|done].
  assert (Hrow : exists dv, devices s1' !! ed_device d = Some dv /\ dv_user_id dv = user).
  { unfold register_device in E. destruct (bool_decide _); [done|]. destruct (bool_decide _); [done|]. destruct (negb _); [done|].
    injection E as <-. eexists. cbn. rewrite lookup_insert_eq. by split. }
  apply wp_store_keys; [done|by apply enrolled_keys_storable|done|]. intros s2 Hl2 HI2.
  assert (Hfinal : forall st code ex s', auth_later s2 s' -> (st = Some DeviceActive -> level = MfaVerified) ->
    enroll_post user level (Ok (mkEnrollment true (Some (ed_device d)) st code ex)) s').
  { intros st code ex s' Hl' Hst e [= <-] _. destruct Hrow as (dv & Hdv & Hu).
    destruct (al_devices _ _ (transitivity Hl2 Hl') _ _ Hdv) as (d' & Hd' & []). exists (ed_device d), d'. cbn. split_and!; [done|done|congruence|done]. }
  case_bool_decide as Hlv; [case_bool_decide as Hc; [done|]|rewrite bool_decide_eq_true_2 by done].
  - apply wp_publish; [done|]. intros s3 Hl3 HI3. apply wp_publish; [done|]. intros s4 Hl4 HI4. apply Hfinal; [by transitivity s3|done].
  - apply wp_memory. intros s3 Hl3 HI3.
    assert (Hm3 : moves s3 (snd ((fun s => (tt, set_pairing_challenges (<[ed_device d := pairing pairing_ttl user
      (generate_pairing_code_internal (ed_rand d)) (ed_now d)]> (pairing_challenges_ s)) s)) s3))) by (by apply moves_memory).
    split; [done|]. cbn [fst snd]. apply wp_publish; [apply Hm3|]. intros s4 Hl4 HI4. apply wp_publish; [done|]. intros s5 Hl5 HI5.
    apply Hfinal; [|done]. transitivity s3; [done|]. etransitivity; [apply Hm3|]. by transitivity s4.
Qed.

Lemma wp_initiate_pairing user device rand now K s :
  auth_inv s -> wpa (initiate_device_pairing audit pairing_ttl user device rand now) K any s.
Proof.
  intros HI. unfold initiate_device_pairing. apply wp_read; [done|]. intros s1 Hl1 HI1. destruct (devices s1 !! device); [|done].
  destruct (negb _); [done|]. destruct (negb _); [done|]. apply wp_memory. intros s2 Hl2 HI2. split; [by apply moves_memory|].
  cbn [fst snd]. apply wp_publish; [|done]. by apply (moves_memory s2).
Qed.

(** ** Authorization *)

(** At some moment the device had a pairing code that was neither consumed, expired nor
    locked, and it was the code the call presented. *)
Definition paired (s0 : Auth) (device : uuid) (code : list ascii) (now : Z) (s : Auth) : Prop :=
  exists sm c, auth_later s0 sm /\ auth_later sm s /\ pairing_challenges_ sm !! device = Some c /\ is_consumed c = false /\
    is_locked_out c = false /\ failed_attempts c < kMaxFailedPairingAttempts /\ now <= pc_expires_at c /\
    of_chars (normalize_pairing_code code) = pc_pairing_code c.

Definition authorize_post (s0 : Auth) (user device : uuid) (code : list ascii) (level : AuthenticationLevel) (now : Z)
    (r : result RepositoryExn DeviceAuthorizationResult) (s : Auth) : Prop :=
  forall a, r = Ok a -> ar_success a = true ->
    (exists d, devices s !! device = Some d /\ dv_user_id d = user) /\
    (forall d0, devices s0 !! device = Some d0 -> dv_device_status d0 = DevicePendingAuthorization) /\
    (level = MfaVerified \/ paired s0 device code now s).

Lemma authorize_post_stable s0 user device code level now : stable_post (plain (authorize_post s0 user device code level now)).
Proof.
  intros r K s s' H Hl _ a Ha Hok. destruct (H a Ha Hok) as ((d & Hd & Hu) & H0 & Hp). split_and!; [|done|].
  - destruct (al_devices _ _ Hl _ _ Hd) as (d' & ? & []). exists d'. split; congruence.
  - destruct Hp as [|(sm & c & ? & Hs & ?)]; [by left|]. right. exists sm, c. split; [done|]. split; [by transitivity s|done].
Qed.

Lemma check_pairing_moves device code now s : auth_inv s -> moves s (snd (check_pairing device code now s)).
Proof.
  intros HI. unfold check_pairing. destruct (_ !! device); [|by apply moves_refl]. destruct (is_consumed _); [by apply moves_refl|].
  destruct (_ <? _); [by apply moves_refl|]. destruct (_ || _); [by apply moves_memory|]. destruct (negb _); by apply moves_memory.
Qed.

Lemma check_pairing_matched device code now s :
  fst (check_pairing device code now s) = PairingMatched -> auth_inv s -> auth_later s (snd (check_pairing device code now s)) ->
  paired s device code now (snd (check_pairing device code now s)).
Proof.
  intros Hm HI Hl. exists s. revert Hm Hl. unfold check_pairing. destruct (_ !! device) as [c|] eqn:Hc; [|done].
  destruct (is_consumed c) eqn:Hcons; [done|]. destruct (Z.ltb_spec (pc_expires_at c) now) as [|Hexp]; [done|].
  destruct (is_locked_out c || _) eqn:Hlock; [done|]. apply orb_false_iff in Hlock as [Hlock Hatt%Z.leb_gt].
  case_bool_decide as Hcode; cbn [negb]; [|done]. intros _ Hl. exists c. by split_and!.
Qed.

Lemma wp_authorize_row user device now K s P :
  auth_inv s -> (forall a s', auth_later s s' -> plain P (Ok a) K s') -> (forall e s', plain P (Err e) K s') ->
  wpa (authorize_row audit user device now) K (plain P) s.
Proof.
  intros HI HP HE. unfold authorize_row. apply wp_db. intros s1 Hl1 HI1. pose proof (authorize_device_moves device now s1 HI1) as Hm1.
  split_and!; [done| |apply HE|apply HE]. intros HI1'. exists K. split; [apply takes_refl|].
  assert (Hl : auth_later s (committed (authorize_device device now) s1)) by (transitivity s1; [done|apply Hm1]).
  destruct (fst (authorize_device device now s1)) as [u|e].
  - apply wp_publish; [done|]. intros s2 Hl2 HI2. apply HP. by etransitivity.
  - destruct e; try (by apply HP). apply HE.
Qed.

Lemma wp_authorize user device code level now K s0 :
  auth_inv s0 -> wpa (manager_authorize_device audit user device code level now) K (plain (authorize_post s0 user device code level now)) s0.
Proof.
  intros HI. unfold manager_authorize_device. assert (Hno : forall st b s, authorize_post s0 user device code level now (Ok (not_authorized st b)) s).
  { intros st b s a [= <-]. done. }
  apply wp_read; [done|]. intros s1 Hl1 HI1. destruct (devices s1 !! device) as [d|] eqn:Hd; [|apply Hno].
  case_bool_decide as Hu; cbn [negb]; [|apply Hno]. destruct (dv_device_status d) eqn:Hst; [|apply Hno|apply Hno].
  assert (Hbase : forall s, auth_later s1 s -> (level = MfaVerified \/ paired s1 device code now s) ->
    forall a, authorize_post s0 user device code level now (Ok a) s).
  { intros s Hl Hp a a' [= <-] _. split_and!.
    - destruct (al_devices _ _ Hl _ _ Hd) as (d' & ? & []). exists d'. split; congruence.
    - intros d0 Hd0. destruct (al_devices _ _ Hl1 _ _ Hd0) as (d1 & Hd1 & []). simplify_eq.
      by apply dl_pending.
    - destruct Hp as [|(sm & c & ? & ?)]; [by left|]. right. exists sm, c. split; [by transitivity s1|done]. }
  case_bool_decide as Hlv.
  - apply wp_memory. intros s2 Hl2 HI2. cbn [fst snd].
    set (s2' := match pairing_challenges_ s2 !! device with Some _ => _ | None => s2 end). assert (Hm2 : moves s2 s2').
    { unfold s2'. destruct (pairing_challenges_ s2 !! device); [by apply moves_memory|by apply moves_refl]. }
    split; [done|]. apply wp_authorize_row; [apply Hm2| |done]. intros a s' Hl'. apply Hbase; [|by left].
    transitivity s2; [done|]. etransitivity; [apply Hm2|done].
  - apply wp_memory. intros s2 Hl2 HI2. pose proof (check_pairing_moves device code now s2 HI2) as Hm2. split; [done|].
    destruct (fst (check_pairing device code now s2)) eqn:E; try apply Hno. apply wp_authorize_row; [apply Hm2| |done].
    assert (Hl2' : auth_later s1 (snd (check_pairing device code now s2))) by (transitivity s2; [done|apply Hm2]).
    intros a s' Hl'. apply Hbase; [by etransitivity|]. right.
    destruct (check_pairing_matched device code now s2 E HI2 (proj2 Hm2)) as (sm & c & H1 & H2 & ?). exists sm, c.
    split; [by transitivity s2|]. split; [by etransitivity|done].
Qed.

(** ** Revocation *)

(** A revocation that succeeded found the device revoked already, or left it revoked
    with no active key. *)
Definition revoke_device_post (s0 : Auth) (user device : uuid) (level : AuthenticationLevel) (r : result RepositoryExn DeviceRevocationResult)
    (s : Auth) : Prop :=
  forall v, r = Ok v -> dvr_success v = true ->
    level = MfaVerified /\ (exists d, devices s !! device = Some d /\ dv_user_id d = user /\ dv_device_status d = DeviceRevoked) /\
    ((forall id k, device_public_keys s0 !! id = Some k -> pk_device_id k = device ->
        exists k', device_public_keys s !! id = Some k' /\ pk_key_status k' <> KeyActive) \/
     exists sm d, auth_later s0 sm /\ auth_later sm s /\ devices sm !! device = Some d /\ dv_device_status d = DeviceRevoked).

Lemma revoke_device_post_stable s0 user device level : stable_post (plain (revoke_device_post s0 user device level)).
Proof.
  intros r K s s' H Hl _ v Hv Hok. destruct (H v Hv Hok) as (Hlv & (d & Hd & Hu & Hst) & Hk). split_and!; [done|..].
  - destruct (al_devices _ _ Hl _ _ Hd) as (d' & ? & []). exists d'. split_and!; [done|congruence|auto].
  - destruct Hk as [Hk|(sm & dm & ? & ? & ? & ?)].
    + left. intros id k Hid Hdev. destruct (Hk id k Hid Hdev) as (k' & Hk' & Hs'). destruct (al_keys _ _ Hl _ _ Hk') as (k2 & Hk2 & []).
      exists k2. split; [done|]. by rewrite kl_frozen.
    + right. exists sm, dm. split_and!; try done. by transitivity s.
Qed.

Lemma wp_revoke_device user device reason level now now_device now_sessions K s0 :
  auth_inv s0 ->
  wpa (manager_revoke_device audit user device reason level now now_device now_sessions) K (plain (revoke_device_post s0 user device level)) s0.
Proof.
  intros HI. unfold manager_revoke_device. case_bool_decide as Hlv; cbn [negb]; [|by intros v [= <-]].
  apply wp_read; [done|]. intros s1 Hl1 HI1. destruct (devices s1 !! device) as [d|] eqn:Hd; [|by intros v [= <-]].
  case_bool_decide as Hu; cbn [negb]; [|by intros v [= <-]]. case_bool_decide as Hrev.
  { intros v [= <-] _. split_and!; [done|by exists d|]. right. by exists s1, d. }
  set (why := if bool_decide _ then _ else _). apply wp_db_simple; [done|]. intros s2 Hl2 HI2.
  pose proof (revoke_device_moves device why now now_device s2 HI2) as Hm2. split; [done|]. intros HI2'.
  destruct (al_devices _ _ Hl2 _ _ Hd) as (d2 & Hd2 & []). unfold committed in *. unfold revoke_device in *. rewrite Hd2 in *. cbn [fst is_ok] in *.
  set (s2' := set_devices _ s2) in *. assert (Hd2' : exists x, devices s2' !! device = Some x /\ dv_user_id x = user /\ dv_device_status x = DeviceRevoked).
  { eexists. unfold s2'. cbn. rewrite lookup_insert_eq. split; [done|]. cbn. split; [congruence|done]. }
  unfold revoke_all_device_sessions. apply wpx_bind. apply wp_db. intros s3 Hl3 HI3.
  pose proof (revoke_sessions_where_moves (fun x => bool_decide (se_device_id x = device)) now_sessions s3 HI3) as Hm3. split; [done|].
  assert (Hrest : forall s4, auth_later s2' s4 -> auth_inv s4 -> wpa (try* _ := db (revoke_all_device_keys device now) in
      let* _ := locked (fun s => (tt, set_pairing_challenges (delete device (pairing_challenges_ s)) s)) in
      let* _ := publish_if audit (device_revoked user device) in Ret (Ok (mkDeviceRevocation true false false)))
      K (plain (revoke_device_post s0 user device level)) s4).
  { intros s4 Hl4 HI4. apply wp_db_simple; [done|]. intros s5 Hl5 HI5. pose proof (revoke_all_device_keys_moves device now s5 HI5) as Hm5.
    split; [done|]. intros HI5'. cbn [fst revoke_all_device_keys]. set (s5' := committed _ s5) in *.
    apply wp_memory. intros s6 Hl6 HI6. assert (Hm6 : moves s6 (set_pairing_challenges (delete device (pairing_challenges_ s6)) s6)) by (by apply moves_memory).
    split; [done|]. cbn [fst snd]. apply wp_publish; [apply Hm6|]. intros s7 Hl7 HI7 v [= <-] _.
    assert (Hl57 : auth_later s5' s7) by (transitivity s6; [done|]; etransitivity; [apply Hm6|done]).
    split_and!; [done|..].
    - destruct Hd2' as (x & Hx & Hxu & Hxs). assert (Hl : auth_later s2' s7) by (transitivity s4; [done|]; transitivity s5; [done|]; etransitivity; [apply Hm5|done]).
      destruct (al_devices _ _ Hl _ _ Hx) as (y & ? & []). exists y. split_and!; [done|congruence|auto].
    - left. intros id k Hk Hkd. assert (Hl05 : auth_later s0 s5).
      { transitivity s1; [done|]. transitivity s2; [done|]. transitivity s2'; [apply Hm2|]. by transitivity s4. }
      destruct (al_keys _ _ Hl05 _ _ Hk) as (k5 & Hk5 & [_ Hd5 _ _ _ _]).
      set (k5' := if bool_decide (pk_device_id k5 = device) && key_active k5
                  then set_key_status KeyRevoked (Some (stored now)) (pk_replaced_by_key_id k5) k5 else k5).
      assert (Hk5' : device_public_keys s5' !! id = Some k5').
      { unfold s5', committed, revoke_all_device_keys, sql_update. cbn. by rewrite lookup_fmap, Hk5. }
      assert (Hst5 : pk_key_status k5' <> KeyActive).
      { unfold k5'. rewrite bool_decide_eq_true_2 by congruence. cbn [andb]. destruct (key_active k5) eqn:E; [done|]. by apply bool_decide_eq_false in E. }
      destruct (al_keys _ _ Hl57 _ _ Hk5') as (k7 & Hk7 & []). exists k7. split; [done|]. by rewrite kl_frozen. }
  assert (Hl3' : auth_later s2' (committed (revoke_all_device_sessions_atomic device now_sessions) s3)) by (transitivity s3; [done|apply Hm3]).
  split_and!; [intros HI3'; exists K; split; [apply takes_refl|]| |]; apply Hrest; done || apply Hm3.
Qed.
End devices.
