(* ===== verification/AuthServer.v ===== *)
(** * The RPC handlers of the auth service

    Models the handlers of [src/auth/service/auth_service_impl.cpp] that change state,
    with [CredentialVerifier] ([credential_verifier.cpp]) and the value objects of
    [src/auth/domain/credentials.hpp].  All managers are configured; an exception that
    leaves a handler reaches the client as [UNKNOWN]; the peer address, the log and the
    texts of statuses are left out. *)

From S2P Require Import Prelude Ids Bytes AuditValidation AccessTokens Prog AuthStore AuthTokens Base32 Totp MfaFactors Mfa KeyDirectory Devices.
From Stdlib Require Import Ascii.
#[local] Open Scope Z_scope.

Inductive StatusCode :=
  | INVALID_ARGUMENT | UNAUTHENTICATED | PERMISSION_DENIED | NOT_FOUND | INTERNAL | ABORTED | DEADLINE_EXCEEDED
  | FAILED_PRECONDITION | UNKNOWN.

(** ** Credentials *)

Definition trimmed_char (c : ascii) : bool := (code c =? 32) || (code c =? 9) || (code c =? 13) || (code c =? 10).

Fixpoint trim_front (l : list ascii) : list ascii :=
  match l with c :: l' => if trimmed_char c then trim_front l' else l | [] => [] end.
Definition trim_whitespace (l : list ascii) : list ascii := rev (trim_front (rev (trim_front l))).

(** [CredentialIdentifier::create]. *)
Definition CredentialIdentifier_create (raw : list ascii) : option (list ascii) :=
  let trimmed := trim_whitespace raw in
  if (length trimmed <? 3)%nat || (255 <? length trimmed)%nat then None
  else if existsb (fun ch => (code ch <? 32) || (code ch =? 127)) trimmed then None
  else Some trimmed.

(** [PasswordCredential::create]. *)
Definition PasswordCredential_create (raw : string) : option string := if 1024 <? str_size raw then None else Some raw.

Inductive AuthenticationStatus := AuthSuccess (user : UserEntity) | InvalidCredentials | AccountIsDisabled | AuthInternalError.

(** [verify_password] of the hasher: whether the password matches the stored verifier,
    or an exception. *)
Definition verify_credentials (verify_password : string -> string -> option bool) (identifier : list ascii) (password : string)
    : prog Auth AuthenticationStatus :=
  let* user_opt := db (find_by_credential_identifier (of_chars identifier)) in
  match user_opt with
  | Err _ => Ret AuthInternalError
  | Ok None => Ret InvalidCredentials
  | Ok (Some user) =>
      if negb (bool_decide (us_account_status user = AccountActive)) then Ret AccountIsDisabled
      else
        match verify_password password (us_password_verifier user) with
        | None => Ret AuthInternalError
        | Some false => Ret InvalidCredentials
        | Some true => Ret (AuthSuccess user)
        end
  end.

(** ** Who calls *)

(** The metadata of a call, as the gateway sends it. *)
Definition Metadata := gmap string string.

Definition says_mfa (val : string) : bool :=
  bool_decide (val = "mfa_verified"%string \/ val = "AUTHENTICATION_LEVEL_MFA_VERIFIED"%string \/ val = "2"%string).

Definition extract_caller_auth_level (metadata : Metadata) : AuthenticationLevel :=
  if from_option says_mfa false (metadata !! "x-auth-level"%string) then MfaVerified
  else if from_option says_mfa false (metadata !! "x-authentication-level"%string) then MfaVerified
  else PrimaryOnly.

Definition is_caller_mfa_verified (metadata : Metadata) : bool :=
  if from_option says_mfa false (metadata !! "x-auth-level"%string) then true
  else from_option says_mfa false (metadata !! "x-authentication-level"%string).

Definition parse_uuid (text : string) : option uuid := mkUuid <$> Uuid.from_string text.

Definition extract_caller_user_id (metadata : Metadata) : option uuid := text ← metadata !! "x-user-id"%string; parse_uuid text.
Definition extract_caller_device_id (metadata : Metadata) : option uuid := text ← metadata !! "x-device-id"%string; parse_uuid text.

(** ** Replies *)

Record AuthenticateResponse := mkAuthenticated {
  au_session_id : uuid; au_user_id : uuid; au_mfa_required : bool; au_mfa_challenge_id : option uuid;
  au_tokens : option TokenPair; au_expires_at_epoch_ms : Z }.

Inductive Reply :=
  | Failed (code : StatusCode)
  | Authenticated (r : AuthenticateResponse)
  | SessionIs (session : option SessionEntity)
  | SessionWasRevoked (revoked : bool)
  | Refreshed (session : uuid) (tokens : TokenPair)
  | ChallengePassed (session : SessionEntity) (tokens : TokenPair)
  | EnrollmentStarted (r : MfaEnrollmentInitiation)
  | EnrollmentConfirmed (codes : list (list ascii))
  | MfaIsDisabled
  | DeviceRegistered (r : DeviceEnrollmentResult)
  | PairingStarted (code : list ascii) (expires_at_epoch_ms : Z)
  | DeviceIsAuthorized (status : option DeviceStatus)
  | DeviceIsRevoked
  | Bundles (bundles : list (PrekeyBundle * Z))
  | Bundle (bundle : PrekeyBundle) (state : PrekeyExhaustionState)
  | PrekeysUpdated (active : Z).

Section server.
Context {curves : Curves}.
Context (audit : bool) (session_ttl challenge_ttl pairing_ttl low_inventory : Z) (config_ : TokenManagerConfig) (totp_config : TotpConfig).
Context (sha256_hex : string -> string) (sha256_hex_chars : list ascii -> string) (sha256 : list Z -> list Z).
Context (serialize : AccessTokenClaims -> option string) (hmac : TotpHashAlgorithm -> list Z -> list Z -> option (list Z)).
Context (gcm : Gcm) (kek : list Z) (verify_password : string -> string -> option bool).
Context (first_row : list MfaConfigurationEntity -> option MfaConfigurationEntity) (order : KeyOrder).
Context (device_order : list DeviceEntity -> list DeviceEntity).

Abbreviation failed code := (Ret (Failed code)).

(** A handler that lets exceptions through. *)
Definition or_unknown {A} (r : result RepositoryExn A) (k : A -> prog Auth Reply) : prog Auth Reply :=
  match r with Ok a => k a | Err _ => failed UNKNOWN end.

(** What [Authenticate] draws: the session, the clocks, the challenge and the tokens. *)
Record LoginDraw := mkLoginDraw {
  ld_session : uuid; ld_now : Z; ld_now_device : Z; ld_challenge : uuid; ld_now_challenge : Z; ld_tokens : Draw }.

(** From the session on. *)
Definition finish_login (user : UserEntity) (session : SessionEntity) (d : LoginDraw) : prog Auth Reply :=
  let* mfa_enabled := is_mfa_enabled_for_user first_row (us_user_id user) in
  or_unknown mfa_enabled (fun mfa_enabled =>
    if (mfa_enabled : bool) then
      let* challenge := manager_create_challenge (us_user_id user) (se_session_id session) Login challenge_ttl (ld_challenge d) (ld_now_challenge d) in
      or_unknown challenge (fun challenge =>
        Ret (Authenticated (mkAuthenticated (se_session_id session) (us_user_id user) true (Some (ch_mfa_challenge_id challenge)) None
          (to_ms (ch_expires_at challenge)))))
    else
      let* tokens := issue_initial_tokens config_ sha256_hex serialize session [] (ld_tokens d) in
      match tokens with
      | None => failed UNKNOWN
      | Some tokens =>
          Ret (Authenticated (mkAuthenticated (se_session_id session) (us_user_id user) false None (Some tokens) (to_ms (pair_expires_at tokens))))
      end).

Definition Authenticate (credential_identifier : list ascii) (password device_id : string) (d : LoginDraw) : prog Auth Reply :=
  let reject e code := let* _ := publish_if audit e in failed code in
  match CredentialIdentifier_create credential_identifier with
  | None => reject (login_failed (of_chars credential_identifier)) INVALID_ARGUMENT
  | Some identifier =>
      let id := of_chars identifier in
      match PasswordCredential_create password with
      | None => reject (login_failed id) INVALID_ARGUMENT
      | Some password =>
          match parse_uuid device_id with
          | None => reject (login_failed id) INVALID_ARGUMENT
          | Some device =>
              let* auth_result := verify_credentials verify_password identifier password in
              match auth_result with
              | InvalidCredentials => reject (login_failed id) UNAUTHENTICATED
              | AccountIsDisabled => reject (account_disabled_attempt id) PERMISSION_DENIED
              | AuthInternalError => failed INTERNAL
              | AuthSuccess user =>
                  let* session_result := establish_session session_ttl (us_user_id user) device (ld_session d) (ld_now d) (ld_now_device d) in
                  match es_status session_result with
                  | EstablishDeviceNotFound => reject (login_failed id) NOT_FOUND
                  | EstablishDeviceRevoked => reject (login_failed id) PERMISSION_DENIED
                  | EstablishInternalError => failed INTERNAL
                  | EstablishSuccess =>
                      match es_session session_result with
                      | None => failed INTERNAL
                      | Some session =>
                          let* _ := publish_if audit (login_succeeded (us_user_id user) device (se_session_id session)) in
                          finish_login user session d
                      end
                  end
              end
          end
      end
  end.

Definition ValidateSession (session_id : string) (now : Z) : prog Auth Reply :=
  match parse_uuid session_id with
  | None => failed INVALID_ARGUMENT
  | Some session =>
      let* result := validate_session audit session None now in
      Ret (SessionIs (match sv_status result with Valid => sv_session result | _ => None end))
  end.

Definition RevokeSession (session_id : string) (now : Z) : prog Auth Reply :=
  match parse_uuid session_id with
  | None => failed INVALID_ARGUMENT
  | Some session =>
      let* result := manager_revoke_session audit session now in
      Ret (SessionWasRevoked (match sr_status result with RevocationSuccess => true | _ => false end))
  end.

Definition RefreshSession (refresh_token device_id : string) (d : Draw) : prog Auth Reply :=
  if bool_decide (refresh_token = EmptyString) then failed INVALID_ARGUMENT
  else
    match parse_uuid device_id with
    | None => failed INVALID_ARGUMENT
    | Some device =>
        let* result := manager_refresh_tokens audit config_ sha256_hex serialize refresh_token device d in
        match rr_status result with
        | RefreshSuccess =>
            match rr_tokens result, rr_session_id result with
            | Some tokens, Some session => Ret (Refreshed session tokens)
            | _, _ => failed INTERNAL
            end
        | InvalidToken | ExpiredToken | RefreshSessionRevoked | CompromiseDetected => failed UNAUTHENTICATED
        | RefreshDeviceMismatch => failed PERMISSION_DENIED
        | ConcurrencyConflict => failed ABORTED
        | DatabaseError => failed INTERNAL
        end
    end.

(** What [VerifyMfaChallenge] draws. *)
Record VerifyDraw := mkVerifyDraw { vd_now : Z; vd_now_complete : Z; vd_now_validate : Z; vd_tokens : Draw }.

Definition VerifyMfaChallenge (challenge_id : string) (code : list ascii) (d : VerifyDraw) : prog Auth Reply :=
  match code with
  | [] => failed INVALID_ARGUMENT
  | _ =>
      match parse_uuid challenge_id with
      | None => failed INVALID_ARGUMENT
      | Some challenge =>
          let* verified := verify_challenge hmac totp_config gcm kek sha256_hex_chars first_row challenge code (vd_now d) (vd_now_complete d) in
          or_unknown verified (fun verified =>
            match vr_status verified with
            | VerifySuccess =>
                match vr_session_id verified with
                | None => failed INTERNAL
                | Some session =>
                    let* session_val := validate_session audit session None (vd_now_validate d) in
                    match sv_status session_val, sv_session session_val with
                    | Valid, Some session =>
                        let* tokens := issue_initial_tokens config_ sha256_hex serialize session [] (vd_tokens d) in
                        match tokens with Some tokens => Ret (ChallengePassed session tokens) | None => failed UNKNOWN end
                    | _, _ => failed INTERNAL
                    end
                end
            | ExpiredChallenge => failed DEADLINE_EXCEEDED
            | MaxAttemptsExceeded | VerifyChallengeFailed => failed PERMISSION_DENIED
            | InvalidCode | AlreadyCompleted => failed UNAUTHENTICATED
            end)
      end
  end.

(** [id], [secret_bytes] and [iv] are drawn. *)
Definition InitiateMfaEnrollment (user_id : string) (issuer account_name : list ascii) (id : uuid) (secret_bytes iv : list Z) (now : Z)
    : prog Auth Reply :=
  match parse_uuid user_id with
  | None => failed INVALID_ARGUMENT
  | Some user =>
      let issuer := match issuer with [] => chars "SecureCloud" | _ => issuer end in
      let* r := initiate_enrollment totp_config gcm kek first_row user issuer account_name id secret_bytes iv now in
      match r with Ok r => Ret (EnrollmentStarted r) | Err _ => failed FAILED_PRECONDITION end
  end.

Definition ConfirmMfaEnrollment (user_id : string) (code : list ascii) (rands : list (list Z)) (now : Z) : prog Auth Reply :=
  match parse_uuid user_id with
  | None => failed INVALID_ARGUMENT
  | Some user =>
      match code with
      | [] => failed INVALID_ARGUMENT
      | _ =>
          let* r := confirm_enrollment hmac totp_config gcm kek sha256_hex_chars first_row user code rands now in
          or_unknown r (fun r =>
            match cf_status r with EnrollSuccess => Ret (EnrollmentConfirmed (recovery_codes r)) | _ => failed UNAUTHENTICATED end)
      end
  end.

Definition DisableMfa (metadata : Metadata) (user_id : string) (code : list ascii) (now : Z) : prog Auth Reply :=
  if negb (is_caller_mfa_verified metadata) then failed PERMISSION_DENIED
  else
    match parse_uuid user_id with
    | None => failed INVALID_ARGUMENT
    | Some user =>
        match code with
        | [] => failed INVALID_ARGUMENT
        | _ =>
            let* r := disable_mfa hmac totp_config gcm kek sha256_hex_chars first_row user code now in
            or_unknown r (fun disabled => if (disabled : bool) then Ret MfaIsDisabled else failed UNAUTHENTICATED)
        end
    end.

Definition RegisterDevice (metadata : Metadata) (user_id : string) (identity_key signed_prekey signature : list Z)
    (one_time_prekeys : list (list Z)) (d : EnrollDraw) : prog Auth Reply :=
  match parse_uuid user_id with
  | None => failed INVALID_ARGUMENT
  | Some user =>
      let* r := enroll_device audit pairing_ttl user identity_key signed_prekey signature one_time_prekeys (extract_caller_auth_level metadata) d in
      or_unknown r (fun r => if er_success r then Ret (DeviceRegistered r) else failed INVALID_ARGUMENT)
  end.

Definition InitiateDevicePairing (user_id device_id : string) (rand_bytes : list Z) (now : Z) : prog Auth Reply :=
  match parse_uuid user_id, parse_uuid device_id with
  | Some user, Some device =>
      let* r := initiate_device_pairing audit pairing_ttl user device rand_bytes now in
      or_unknown r (fun r => match r with Some (code, expires) => Ret (PairingStarted code (to_ms expires)) | None => failed NOT_FOUND end)
  | _, _ => failed INVALID_ARGUMENT
  end.

Definition AuthorizeDevice (metadata : Metadata) (user_id device_id : string) (pairing_code : list ascii) (now : Z) : prog Auth Reply :=
  match parse_uuid user_id, parse_uuid device_id with
  | Some user, Some device =>
      let* r := manager_authorize_device audit user device pairing_code (extract_caller_auth_level metadata) now in
      match r with
      | Err _ => failed PERMISSION_DENIED
      | Ok r =>
          if ar_success r then Ret (DeviceIsAuthorized (ar_status r))
          else failed (if ar_locked_out r then PERMISSION_DENIED else UNAUTHENTICATED)
      end
  | _, _ => failed INVALID_ARGUMENT
  end.

Definition RevokeDevice (metadata : Metadata) (user_id device_id reason : string) (now now_device now_sessions : Z) : prog Auth Reply :=
  if negb (is_caller_mfa_verified metadata) then failed PERMISSION_DENIED
  else
    match parse_uuid device_id with
    | None => failed INVALID_ARGUMENT
    | Some device =>
        let user := default (mkUuid Uuid.nil) (parse_uuid user_id) in
        let* r := manager_revoke_device audit user device reason MfaVerified now now_device now_sessions in
        or_unknown r (fun r =>
          if dvr_success r then Ret DeviceIsRevoked else failed (if dvr_not_found r then NOT_FOUND else PERMISSION_DENIED))
    end.

Fixpoint parse_all (texts : list string) : option (list uuid) :=
  match texts with [] => Some [] | t :: ts => id ← parse_uuid t; ids ← parse_all ts; Some (id :: ids) end.

Definition GetDeviceCryptoDirectory (user_id : string) (device_ids : list string) (skip : uuid -> bool) : prog Auth Reply :=
  match parse_uuid user_id, parse_all device_ids with
  | Some user, Some filter_ids =>
      let* r := get_device_crypto_directory sha256 order device_order skip user filter_ids in
      match dr_status r with KeySuccess => Ret (Bundles (dr_bundles r)) | _ => failed INTERNAL end
  | _, _ => failed INVALID_ARGUMENT
  end.

Definition ClaimPrekeyBundle (device_id : string) (skip : uuid -> bool) : prog Auth Reply :=
  match parse_uuid device_id with
  | None => failed INVALID_ARGUMENT
  | Some device =>
      let* r := claim_device_prekey_bundle sha256 order audit low_inventory skip device in
      match cb_status r, cb_bundle r with
      | KeySuccess, Some (bundle, state) => Ret (Bundle bundle state)
      | KeyNotFound, _ => failed NOT_FOUND
      | KeyDeviceRevoked, _ => failed PERMISSION_DENIED
      | KeyDeviceNotActive, _ => failed FAILED_PRECONDITION
      | _, _ => failed INTERNAL
      end
  end.

Definition UpdateCryptoPrekeys (metadata : Metadata) (device_id : string) (signed_prekey signature : list Z) (one_time_prekeys : list (list Z))
    (id : uuid) (ids : list uuid) (now : Z) : prog Auth Reply :=
  match extract_caller_user_id metadata, extract_caller_device_id metadata with
  | Some caller_user, Some caller_device =>
      match parse_uuid device_id with
      | None => failed INVALID_ARGUMENT
      | Some target =>
          let* r := update_crypto_prekeys order audit caller_user caller_device target signed_prekey signature one_time_prekeys id ids now in
          match up_status r with
          | KeySuccess => Ret (PrekeysUpdated (up_total r))
          | KeyPermissionDenied => failed PERMISSION_DENIED
          | KeyNotFound => failed NOT_FOUND
          | KeyInvalidArgument => failed INVALID_ARGUMENT
          | _ => failed INTERNAL
          end
      end
  | _, _ => failed UNAUTHENTICATED
  end.

(** ** The server *)

Inductive Request :=
  | DoAuthenticate (credential_identifier : list ascii) (password device_id : string) (d : LoginDraw)
  | DoValidateSession (session_id : string) (now : Z)
  | DoRevokeSession (session_id : string) (now : Z)
  | DoRefreshSession (refresh_token device_id : string) (d : Draw)
  | DoVerifyMfaChallenge (challenge_id : string) (code : list ascii) (d : VerifyDraw)
  | DoInitiateMfaEnrollment (user_id : string) (issuer account_name : list ascii) (id : uuid) (secret_bytes iv : list Z) (now : Z)
  | DoConfirmMfaEnrollment (user_id : string) (code : list ascii) (rands : list (list Z)) (now : Z)
  | DoDisableMfa (metadata : Metadata) (user_id : string) (code : list ascii) (now : Z)
  | DoRegisterDevice (metadata : Metadata) (user_id : string) (identity_key signed_prekey signature : list Z)
      (one_time_prekeys : list (list Z)) (d : EnrollDraw)
  | DoInitiateDevicePairing (user_id device_id : string) (rand_bytes : list Z) (now : Z)
  | DoAuthorizeDevice (metadata : Metadata) (user_id device_id : string) (pairing_code : list ascii) (now : Z)
  | DoRevokeDevice (metadata : Metadata) (user_id device_id reason : string) (now now_device now_sessions : Z)
  | DoGetDeviceCryptoDirectory (user_id : string) (device_ids : list string) (skip : uuid -> bool)
  | DoClaimPrekeyBundle (device_id : string) (skip : uuid -> bool)
  | DoUpdateCryptoPrekeys (metadata : Metadata) (device_id : string) (signed_prekey signature : list Z)
      (one_time_prekeys : list (list Z)) (id : uuid) (ids : list uuid) (now : Z).

Definition serve (req : Request) : prog Auth Reply :=
  match req with
  | DoAuthenticate identifier password device d => Authenticate identifier password device d
  | DoValidateSession session now => ValidateSession session now
  | DoRevokeSession session now => RevokeSession session now
  | DoRefreshSession token device d => RefreshSession token device d
  | DoVerifyMfaChallenge challenge code d => VerifyMfaChallenge challenge code d
  | DoInitiateMfaEnrollment user issuer account id secret iv now => InitiateMfaEnrollment user issuer account id secret iv now
  | DoConfirmMfaEnrollment user code rands now => ConfirmMfaEnrollment user code rands now
  | DoDisableMfa metadata user code now => DisableMfa metadata user code now
  | DoRegisterDevice metadata user ik spk sig otks d => RegisterDevice metadata user ik spk sig otks d
  | DoInitiateDevicePairing user device rand now => InitiateDevicePairing user device rand now
  | DoAuthorizeDevice metadata user device code now => AuthorizeDevice metadata user device code now
  | DoRevokeDevice metadata user device reason now now_device now_sessions => RevokeDevice metadata user device reason now now_device now_sessions
  | DoGetDeviceCryptoDirectory user devices skip => GetDeviceCryptoDirectory user devices skip
  | DoClaimPrekeyBundle device skip => ClaimPrekeyBundle device skip
  | DoUpdateCryptoPrekeys metadata device spk sig otks id ids now => UpdateCryptoPrekeys metadata device spk sig otks id ids now
  end.
End server.
