(* ===== verification/AuthServerSpec.v ===== *)
(** * The auth service, under concurrency

    Every handler of [AuthServer] keeps the invariant of the store and establishes its
    postcondition, whatever the other threads do and whichever transactions fail; the
    theorems about whole runs follow. *)

From S2P Require Import Prelude Ids Bytes AccessTokens Prog AuthStore AuthTokens AuthInv AuthTokensSpec Base32 Totp MfaFactors Mfa MfaSpec KeyDirectory KeyDirectorySpec Devices DevicesSpec AuthServer.
From Stdlib Require Import Ascii.
#[local] Open Scope Z_scope.

(** What the theorems take from outside the service: the library functions, and the
    database's choice among rows. *)
Record Environment := mkEnvironment {
  env_curves : Curves; env_audit : bool; env_session_ttl : Z; env_challenge_ttl : Z; env_pairing_ttl : Z; env_low : Z;
  env_tokens : TokenManagerConfig; env_totp : TotpConfig; env_sha256_hex : string -> string; env_sha256_hex_chars : list ascii -> string;
  env_sha256 : list Z -> list Z; env_serialize : AccessTokenClaims -> option string;
  env_hmac : TotpHashAlgorithm -> list Z -> list Z -> option (list Z); env_gcm : Gcm; env_kek : list Z;
  env_verify_password : string -> string -> option bool;
  env_first_row : list MfaConfigurationEntity -> option MfaConfigurationEntity; env_order : KeyOrder;
  env_device_order : list DeviceEntity -> list DeviceEntity }.

Record env_ok (e : Environment) : Prop := { eo_row : planner_ok (env_first_row e); eo_order : order_ok (env_order e) }.

(** The server in an environment. *)
Definition serve_in (e : Environment) : Request -> prog Auth Reply :=
  serve (curves := env_curves e) (env_audit e) (env_session_ttl e) (env_challenge_ttl e) (env_pairing_ttl e) (env_low e) (env_tokens e) (env_totp e)
    (env_sha256_hex e) (env_sha256_hex_chars e) (env_sha256 e) (env_serialize e) (env_hmac e) (env_gcm e) (env_kek e)
    (env_verify_password e) (env_first_row e) (env_order e) (env_device_order e).

Section spec.
Context (e : Environment) (Henv : env_ok e).
#[local] Instance curves_of : Curves := env_curves e.

(** One call after another. *)
Lemma wp_seq {A R} (p : prog Auth A) (k : A -> prog Auth R) K P Q s :
  auth_inv s -> wpa p K P s -> (forall r K' s', P r K' s' -> auth_inv s' -> auth_later s s' -> wpa (k r) K' Q s') -> wpa (pbind p k) K Q s.
Proof.
  intros HI Hp Hk. apply wpx_bind. eapply wpx_mono; [|by apply wpx_inv; [apply _|done|exact Hp]].
  intros r K' s' (HP & HI' & Hl). by apply Hk.
Qed.

(** A call that takes nothing, in a program that has taken something already. *)
Lemma wp_seq_keep {A R} (p : prog Auth A) (k : A -> prog Auth R) K P Q s :
  auth_inv s -> wpa p [] (plain P) s ->
  (forall r K' s', K ⊆ K' -> P r s' -> auth_inv s' -> auth_later s s' -> wpa (k r) K' Q s') -> wpa (pbind p k) K Q s.
Proof.
  intros HI Hp Hk. eapply (wp_seq p k K (fun r K' s => K ⊆ K' /\ P r s)); [done| |by intros r K' s' []; auto].
  rewrite <- (app_nil_r K). eapply wpx_mono; [|by eapply (wpx_frame _ _ _ _ K), Hp]. intros r K' s' (K'' & -> & HP).
  rewrite app_nil_r. split; [set_solver|done].
Qed.

Abbreviation any := (plain (fun _ _ => True)).

(** ** The rest of the MFA manager *)

Definition counts_as_enabled (user : uuid) (s : Auth) : bool :=
  from_option (fun c => bool_decide (mc_status c = MfaEnabled)) false (env_first_row e (configurations_of user (mfa_configurations s))).

Lemma wp_is_enabled user K s :
  auth_inv s -> wpa (is_mfa_enabled_for_user (env_first_row e) user) K
    (fun r K' s' => K' = K /\ (r = Ok false -> counts_as_enabled user s' = false)) s.
Proof. intros HI. apply wp_read; [done|]. intros s1 Hl1 HI1. split; [done|]. by intros [= ?]. Qed.

Lemma wp_create_challenge user session purpose ttl id now K s :
  auth_inv s -> wpa (manager_create_challenge user session purpose ttl id now) K (fun _ K' _ => K' = K) s.
Proof.
  intros HI. apply wp_db_simple; [done|]. intros s1 Hl1 HI1. split; [by apply create_challenge_moves|]. intros HI1'.
  destruct (fst (create_challenge _ s1)); [|done]. by apply wp_publish_always.
Qed.

Lemma wp_initiate_enrollment user issuer account id secret iv now K s :
  auth_inv s -> wpa (initiate_enrollment (env_totp e) (env_gcm e) (env_kek e) (env_first_row e) user issuer account id secret iv now) K any s.
Proof.
  intros HI. unfold initiate_enrollment. apply wp_read; [done|]. intros s1 Hl1 HI1. destruct (users s1 !! user); [|done].
  apply wp_read; [done|]. intros s2 Hl2 HI2. destruct (from_option _ _ _); [done|]. destruct (encrypt _ _ _ _ _); [|done].
  apply wp_db_simple; [done|]. intros s3 Hl3 HI3. split; [by apply store_mfa_configuration_moves|]. intros HI3'.
  destruct (fst (store_mfa_configuration _ s3)); [|done]. by apply wp_publish_always.
Qed.

Lemma wp_confirm_enrollment user code rands now K s :
  auth_inv s ->
  wpa (confirm_enrollment (env_hmac e) (env_totp e) (env_gcm e) (env_kek e) (env_sha256_hex_chars e) (env_first_row e) user code rands now) K any s.
Proof.
  intros HI. unfold confirm_enrollment. apply wp_read; [done|]. intros s1 Hl1 HI1. destruct (env_first_row e _) as [cfg|]; [|done].
  case_bool_decide; [done|]. destruct (negb _); [done|]. destruct (verify_factor _ _ _ _ _ _ _) as [[step|]|]; [|done|done].
  apply wp_db_simple; [done|]. intros s2 Hl2 HI2. split; [by apply enable_mfa_moves|]. intros HI2'. destruct (fst (enable_mfa _ _ _ s2)); [|done].
  apply wp_memory. intros s3 Hl3 HI3. split; [by apply moves_memory|]. cbn [fst snd]. apply wp_publish_always; [|done]. by apply (moves_memory s3).
Qed.

Lemma wp_disable_mfa user code now K s :
  auth_inv s -> wpa (disable_mfa (env_hmac e) (env_totp e) (env_gcm e) (env_kek e) (env_sha256_hex_chars e) (env_first_row e) user code now) K any s.
Proof.
  intros HI. unfold disable_mfa. apply wp_read; [done|]. intros s1 Hl1 HI1. destruct (env_first_row e _) as [cfg|]; [|done].
  destruct (negb _); [done|]. destruct (verify_factor _ _ _ _ _ _ _) as [totp|]; [|done].
  assert (Hrest : forall (verified : bool) s2, auth_inv s2 -> wpa (if negb verified then Ret (Ok false)
      else try* _ := db (repository_disable_mfa (mc_mfa_configuration_id cfg) now (mc_version cfg)) in
           let* _ := locked (fun s => (tt, set_user_recovery_codes (delete user (user_recovery_codes_ s)) s)) in
           let* _ := locked (fun s => (tt, set_last_used_time_steps (delete user (last_used_time_steps_ s)) s)) in
           let* _ := publish (mfa_disabled user) in Ret (Ok true)) K any s2).
  { intros [] s2 HI2; cbn [negb]; [|done]. apply wp_db_simple; [done|]. intros s3 Hl3 HI3. split; [by apply repository_disable_mfa_moves|].
    intros HI3'. destruct (fst (repository_disable_mfa _ _ _ s3)); [|done]. apply wp_memory. intros s4 Hl4 HI4. split; [by apply moves_memory|].
    apply wp_memory. intros s5 Hl5 HI5. split; [by apply moves_memory|]. cbn [fst snd]. apply wp_publish_always; [|done]. by apply (moves_memory s5). }
  destruct totp; [by apply Hrest|]. apply wp_memory. intros s2 Hl2 HI2. split; [by apply moves_refl|]. by apply Hrest.
Qed.

(** ** Logging in *)

Record login_ok (s0 : Auth) (identifier : list ascii) (password device : string) (r : AuthenticateResponse) (s : Auth) : Prop := {
  lo_user : exists sm i u id, auth_later s0 sm /\ auth_later sm s /\ users sm !! i = Some u /\
    CredentialIdentifier_create identifier = Some id /\ us_credential_identifier u = of_chars id /\
    us_account_status u = AccountActive /\ env_verify_password e password (us_password_verifier u) = Some true /\ au_user_id r = us_user_id u;
  lo_session : exists dev y, parse_uuid device = Some dev /\ sessions s !! au_session_id r = Some y /\
    se_user_id y = au_user_id r /\ se_device_id y = dev /\ not_revoked dev s0 /\ sessions s0 !! au_session_id r = None;
  lo_factor : is_Some (au_tokens r) -> exists sm, auth_later s0 sm /\ auth_later sm s /\ counts_as_enabled (au_user_id r) sm = false }.

Lemma login_ok_later s0 identifier password device r s s' :
  login_ok s0 identifier password device r s -> auth_later s s' -> login_ok s0 identifier password device r s'.
Proof.
  intros [(sm & i & u & id & ? & ? & ?) (dev & y & ? & Hy & ? & ? & ? & ?) Hf] Hl. constructor.
  - exists sm, i, u, id. split_and!; [done|by transitivity s|tauto..].
  - destruct (al_sessions _ _ Hl _ _ Hy) as (z & Hz & []). exists dev, z. split_and!; done || congruence.
  - intros Ht. destruct (Hf Ht) as (sf & ? & ? & ?). exists sf. split_and!; [done|by transitivity s|done].
Qed.

Definition reply_login (s0 : Auth) (identifier : list ascii) (password device : string) (reply : Reply) (s : Auth) : Prop :=
  match reply with Authenticated r => login_ok s0 identifier password device r s | Failed _ => True | _ => False end.

Lemma wp_verify_credentials identifier password K s :
  auth_inv s -> wpa (verify_credentials (env_verify_password e) identifier password) K
    (fun r K' s' => K' = K /\ forall u, r = AuthSuccess u -> (exists i, users s' !! i = Some u) /\
       us_credential_identifier u = of_chars identifier /\ us_account_status u = AccountActive /\
       env_verify_password e password (us_password_verifier u) = Some true) s.
Proof.
  intros HI. unfold verify_credentials. apply wp_read; [done|]. intros s1 Hl1 HI1. destruct (head _) as [u|] eqn:Hu; [|done].
  assert (Hin : u ∈ with_identifier (of_chars identifier) (users s1)) by (destruct (with_identifier _ _); [done|]; injection Hu as ->; by left).
  apply list_elem_of_filter in Hin as [Hid Hin]. apply list_elem_of_fmap in Hin as ([i u'] & -> & Hi%elem_of_map_to_list).
  case_bool_decide as Ha; cbn [negb]; [|done]. destruct (env_verify_password e _ _) as [[]|] eqn:Hv; [|done..].
  split; [done|]. intros u [= <-]. split_and!; [by exists i|done..].
Qed.

Lemma wp_finish_login s0 identifier password device user session d K s :
  auth_inv s -> login_ok s0 identifier password device (mkAuthenticated (se_session_id session) (us_user_id user) true None None 0) s ->
  auth_later s0 s -> (exists y, sessions s !! se_session_id session = Some y /\ se_device_id y = se_device_id session) ->
  wpa (finish_login (env_challenge_ttl e) (env_tokens e) (env_sha256_hex e) (env_serialize e) (env_first_row e) user session d) K
    (plain (reply_login s0 identifier password device)) s.
Proof.
  intros HI Hlogin H0 Hsess. unfold finish_login. eapply wp_seq; [done|by apply wp_is_enabled|]. intros en K1 s1 [-> Hen] HI1 Hl1.
  destruct en as [[]|]; cbn [or_unknown]; [|..|done].
  - eapply wp_seq; [done|by apply wp_create_challenge|]. intros [c|] K2 s2 -> HI2 Hl2; [|done]. cbn.
    eapply login_ok_later in Hlogin as []; [|by transitivity s1]. constructor; cbn in *; [done|done|by intros []].
  - eapply wp_seq; [done|apply wp_issue; [done|]|].
    + destruct Hsess as (y & Hy & Hd). destruct (al_sessions _ _ Hl1 _ _ Hy) as (z & Hz & []). exists z. split; congruence.
    + intros [t|] K2 s2 _ HI2 Hl2; [|done]. cbn.
      pose proof (login_ok_later _ _ _ _ _ _ s2 Hlogin ltac:(by transitivity s1)) as []. constructor; cbn in *; [done|done|].
      intros _. exists s1. split_and!; [by transitivity s|done|by apply Hen].
Qed.

Lemma wp_authenticate identifier password device d s0 :
  auth_inv s0 ->
  wpa (Authenticate (env_audit e) (env_session_ttl e) (env_challenge_ttl e) (env_tokens e) (env_sha256_hex e) (env_serialize e)
    (env_verify_password e) (env_first_row e) identifier password device d) [] (plain (reply_login s0 identifier password device)) s0.
Proof.
  intros HI. unfold Authenticate. destruct (CredentialIdentifier_create identifier) as [id|] eqn:Hid; [|by apply wp_publish].
  unfold PasswordCredential_create. destruct (_ <? _); [by apply wp_publish|].
  destruct (parse_uuid device) as [dev|] eqn:Hdev; [|by apply wp_publish].
  eapply wp_seq; [done|by apply wp_verify_credentials|]. intros r K1 s1 [-> Hr] HI1 Hl1. destruct r as [u| | |]; [|by apply wp_publish..|done].
  destruct (Hr u eq_refl) as ((i & Hi) & Hui & Hua & Hup).
  eapply wp_seq; [done|by apply wp_establish|]. intros es K2 s2 Hes HI2 Hl2.
  destruct (es_status es) eqn:Hst; [|by apply wp_publish..|done]. destruct (Hes Hst) as (x & Hx & Hxid & Hxu & Hxd & _ & _ & (y & Hy & Hyu & Hyd) & Hnr & Hfresh).
  assert (Hs : not_revoked dev s0).
  { intros d0 Hd0 Hrev. destruct (al_devices _ _ Hl1 _ _ Hd0) as (d1 & Hd1 & []). by apply (Hnr d1), dl_revoked. }
  rewrite Hx. apply wp_publish; [done|]. intros s3 Hl3 HI3. destruct (al_sessions _ _ Hl3 _ _ Hy) as (z & Hz & []). rewrite <- Hxid in Hz.
  assert (Hl03 : auth_later s1 s3) by (by transitivity s2). apply wp_finish_login; [done| |by transitivity s1|].
  - constructor; cbn.
    + exists s1, i, u, id. by split_and!.
    + exists dev, z. assert (sessions s0 !! ld_session d = None).
      { apply eq_None_not_Some. intros [x0 Hx0]. destruct (al_sessions _ _ Hl1 _ _ Hx0) as (x1 & Hx1 & _). congruence. }
      split_and!; done || congruence.
    + by intros [].
  - exists z. split; congruence.
Qed.

(** ** Replies *)

Definition enrolled_post (s : Auth) (metadata : Metadata) (user : string) (r : DeviceEnrollmentResult) : Prop :=
  exists u device d, parse_uuid user = Some u /\ er_device_id r = Some device /\ devices s !! device = Some d /\ dv_user_id d = u /\
    (er_status r = Some DeviceActive -> extract_caller_auth_level metadata = MfaVerified).

(** What a reply shows, given the store when the request arrived. *)
Definition reply_post (s0 : Auth) (req : Request) (reply : Reply) (K : list Resource) (s : Auth) : Prop :=
  match req, reply with
  | DoAuthenticate identifier password device _, Authenticated r => login_ok s0 identifier password device r s
  | DoValidateSession text now, SessionIs (Some x) =>
      exists id, parse_uuid text = Some id /\ validate_post s0 id None now (mkValidated Valid (Some x)) s
  | DoRevokeSession text _, SessionWasRevoked true => exists id, parse_uuid text = Some id /\ session_over id s
  | DoRefreshSession secret device d, Refreshed session _ =>
      exists dev, parse_uuid device = Some dev /\ rotated_by (env_sha256_hex e) s0 secret dev d (Some session) K s
  | DoVerifyMfaChallenge text code d, ChallengePassed x _ =>
      exists id c step, parse_uuid text = Some id /\ AChallenge id ∈ K /\ mfa_challenges s !! id = Some c /\
        ch_challenge_status c = ChallengeCompleted /\ ch_session_id c = se_session_id x /\
        (forall c0, mfa_challenges s0 !! id = Some c0 -> ch_challenge_status c0 = ChallengePending) /\
        ~ session_over (se_session_id x) s0 /\ not_revoked (se_device_id x) s0 /\
        credential_accepted (env_hmac e) (env_totp e) (env_gcm e) (env_kek e) (env_sha256_hex_chars e) s0 (ch_user_id c) code (vd_now d) step s
  | DoRegisterDevice metadata user _ _ _ _ _, DeviceRegistered r => enrolled_post s metadata user r
  | DoAuthorizeDevice metadata user device code now, DeviceIsAuthorized _ =>
      exists u dev, parse_uuid user = Some u /\ parse_uuid device = Some dev /\
        authorize_post s0 u dev code (extract_caller_auth_level metadata) now (Ok (mkAuthorization true None false)) s
  | DoRevokeDevice metadata user device _ _ _ _, DeviceIsRevoked =>
      exists dev d, parse_uuid device = Some dev /\ is_caller_mfa_verified metadata = true /\
        devices s !! dev = Some d /\ dv_device_status d = DeviceRevoked
  | DoGetDeviceCryptoDirectory _ _ _, Bundles bundles => directory_ok bundles K s /\ none_revoked (env_device_order e) s0 bundles
  | DoClaimPrekeyBundle device _, Bundle b _ =>
      exists dev, parse_uuid device = Some dev /\ bundle_ok dev b s /\ (forall id, id ∈ handed_out b -> AKey id ∈ K) /\ not_revoked dev s0
  | DoDisableMfa metadata _ _ _, MfaIsDisabled => is_caller_mfa_verified metadata = true
  | DoValidateSession _ _, SessionIs None | DoRevokeSession _ _, SessionWasRevoked false
  | DoInitiateMfaEnrollment _ _ _ _ _ _ _, EnrollmentStarted _ | DoConfirmMfaEnrollment _ _ _ _, EnrollmentConfirmed _
  | DoInitiateDevicePairing _ _ _ _, PairingStarted _ _ | DoUpdateCryptoPrekeys _ _ _ _ _ _ _ _, PrekeysUpdated _ => True
  | _, Failed _ => True
  | _, _ => False
  end.

Lemma reply_post_stable s0 req : stable_post (reply_post s0 req).
Proof.
  intros reply K s s' H Hl HI. destruct req, reply; try done; cbn in *.
  - by eapply login_ok_later.
  - destruct session as [x|]; [|done]. destruct H as (i & ? & Hp). exists i. split; [done|]. by eapply (validate_post_stable s0 i None now _ K).
  - destruct revoked; [|done]. destruct H as (i & ? & Ho). exists i. split; [done|]. by eapply session_over_later.
  - destruct H as (dev & ? & Hr). exists dev. split; [done|]. by eapply rotated_by_stable.
  - destruct H as (i & c & step & ? & ? & Hc & ? & ? & ? & ? & ? & Ha). exists i, c, step.
    destruct (al_challenges _ _ Hl _ _ Hc) as (c' & Hc' & []). rewrite cl_frozen in Hc' by congruence.
    split_and!; try done. by eapply credential_accepted_later.
  - destruct H as (u & i & dv & ? & ? & Hd & ? & ?). destruct (al_devices _ _ Hl _ _ Hd) as (dv' & Hd' & []). exists u, i, dv'.
    split_and!; done || congruence.
  - destruct H as (u & dev & ? & ? & Hp). exists u, dev. split_and!; [done|done|]. by eapply (authorize_post_stable s0 u dev _ _ _ _ K).
  - destruct H as (dev & dv & ? & ? & Hd & ?). destruct (al_devices _ _ Hl _ _ Hd) as (dv' & Hd' & []). exists dev, dv'. split_and!; auto.
  - destruct H as [H ?]. split; [by eapply directory_ok_later|done].
  - destruct H as (dev & ? & ? & ? & ?). exists dev. split_and!; [done|by eapply bundle_ok_later|done|done].
Qed.

Lemma reply_failed s0 req code K s : reply_post s0 req (Failed code) K s.
Proof. by destruct req. Qed.
#[local] Hint Resolve reply_failed : core.

Lemma wp_plain_seq {A R} (p : prog Auth A) (k : A -> prog Auth R) K Q s :
  auth_inv s -> wpa p K any s -> (forall r K' s', wpa (k r) K' Q s') -> wpa (pbind p k) K Q s.
Proof. intros HI Hp Hk. eapply wp_seq; [done|exact Hp|]. intros r K' s' _ _ _. apply Hk. Qed.

Lemma not_revoked_before device s s' : auth_later s s' -> not_revoked device s' -> not_revoked device s.
Proof.
  intros Hl Hn d Hd Hr. destruct (al_devices _ _ Hl _ _ Hd) as (d' & Hd' & []). by apply (Hn d'), dl_revoked.
Qed.

Lemma wp_verify_handler text code d s0 :
  auth_inv s0 ->
  wpa (VerifyMfaChallenge (env_audit e) (env_tokens e) (env_totp e) (env_sha256_hex e) (env_sha256_hex_chars e) (env_serialize e) (env_hmac e)
    (env_gcm e) (env_kek e) (env_first_row e) text code d) [] (reply_post s0 (DoVerifyMfaChallenge text code d)) s0.
Proof using Henv.
  intros HI. unfold VerifyMfaChallenge. destruct code as [|c0 code]; [done|]. destruct (parse_uuid text) as [id|] eqn:Hid; [|done].
  eapply wp_seq; [done|by apply wp_verify_challenge; [apply Henv|]|]. intros [v|] K1 s1 Hv HI1 Hl1; cbn [or_unknown]; [|done].
  destruct (vr_status v) eqn:Hst; try done. destruct (Hv v eq_refl Hst) as (HK & c & Hc & Hdone & _ & Hs & Hu & H0 & Ha). rewrite Hs.
  eapply (wp_seq_keep _ _ K1); [done|by apply wp_validate|]. intros sv K2 s2 HK2 Hsv HI2 Hl2. destruct (sv_status sv) eqn:Hvs; try (by destruct (sv_session sv)).
  destruct (Hsv Hvs) as (x & Hx & Hxid & Hread & _ & _ & _ & Hopen & Hdev & _). rewrite Hx. eapply (wp_seq_keep _ _ K2); [done|apply wp_issue; [done|]|].
  { destruct Hread as (y & Hy & []). by exists y. }
  intros [t|] K3 s3 HK3 _ HI3 Hl3; [|done]. cbn. exists id, c, (vr_matched_time_step v). assert (Hl : auth_later s1 s3) by (by transitivity s2).
  destruct (al_challenges _ _ Hl _ _ Hc) as (c' & Hc' & []). rewrite cl_frozen in Hc' by congruence.
  split_and!; [done|by apply HK3, HK2|done|done|done|done| |by eapply not_revoked_before|by eapply credential_accepted_later].
  rewrite Hxid. intros Ho. destruct (session_over_later _ _ _ Ho Hl1) as (x1 & Hx1 & Hst1). by apply Hst1, Hopen.
Qed.

(** ** The handlers *)

Lemma wp_refresh_handler token device d s0 :
  auth_inv s0 ->
  wpa (RefreshSession (env_audit e) (env_tokens e) (env_sha256_hex e) (env_serialize e) token device d) []
    (reply_post s0 (DoRefreshSession token device d)) s0.
Proof.
  intros HI. unfold RefreshSession. case_bool_decide; [done|]. destruct (parse_uuid device) as [dev|] eqn:Hdev; [|done].
  eapply wp_seq; [done|by apply wp_refresh|]. intros r K s Hr _ _. destruct (rr_status r) eqn:Hst; try done.
  destruct (rr_tokens r) as [t|]; [|done]. destruct (rr_session_id r) as [session|] eqn:Hses; [|done]. exists dev. split; [done|].
  rewrite <- Hses. by apply Hr.
Qed.

Lemma wp_revoke_handler metadata user device reason now now_device now_sessions s0 :
  auth_inv s0 ->
  wpa (RevokeDevice (env_audit e) metadata user device reason now now_device now_sessions) []
    (reply_post s0 (DoRevokeDevice metadata user device reason now now_device now_sessions)) s0.
Proof.
  intros HI. unfold RevokeDevice. destruct (is_caller_mfa_verified metadata) eqn:Hm; cbn [negb]; [|done].
  destruct (parse_uuid device) as [dev|] eqn:Hdev; [|done]. eapply wp_seq; [done|by apply wp_revoke_device|].
  intros [r|] K s Hr HI' _; cbn [or_unknown]; [|done]. destruct (dvr_success r) eqn:Hok; [|by destruct (dvr_not_found r)].
  destruct (Hr r eq_refl Hok) as (_ & (d & Hd & _ & Hst) & _). by exists dev, d.
Qed.

Lemma wp_device_handlers req s0 :
  auth_inv s0 ->
  match req with DoRegisterDevice _ _ _ _ _ _ _ | DoInitiateDevicePairing _ _ _ _ | DoAuthorizeDevice _ _ _ _ _ => True | _ => False end ->
  wpa (serve_in e req) [] (reply_post s0 req) s0.
Proof.
  intros HI Hreq. destruct req; try done; cbn [serve_in serve].
  - unfold RegisterDevice. destruct (parse_uuid user_id) as [u|] eqn:Hu; [|done]. eapply wp_seq; [done|by apply wp_enroll|].
    intros [r|] K s Hr _ _; cbn [or_unknown]; [|done]. destruct (er_success r) eqn:Hok; [|done].
    destruct (Hr r eq_refl Hok) as (i & dv & ? & ? & ? & ?). by exists u, i, dv.
  - unfold InitiateDevicePairing. destruct (parse_uuid user_id); [|done]. destruct (parse_uuid device_id); [|done].
    apply wp_plain_seq; [done|by apply wp_initiate_pairing|]. by intros [[[code ?]|]|] K s.
  - unfold AuthorizeDevice. destruct (parse_uuid user_id) as [u|] eqn:Hu; [|done]. destruct (parse_uuid device_id) as [dev|] eqn:Hdev; [|done].
    eapply wp_seq; [done|by apply wp_authorize|]. intros [r|] K s Hr _ _; [|done].
    destruct (ar_success r) eqn:Hok; [|by destruct (ar_locked_out r)]. exists u, dev. split_and!; [done|done|]. intros a [= <-] _. by apply (Hr r).
Qed.

Lemma wp_key_handlers req s0 :
  auth_inv s0 ->
  match req with DoGetDeviceCryptoDirectory _ _ _ | DoClaimPrekeyBundle _ _ | DoUpdateCryptoPrekeys _ _ _ _ _ _ _ _ => True | _ => False end ->
  wpa (serve_in e req) [] (reply_post s0 req) s0.
Proof using Henv.
  intros HI Hreq. destruct req; try done; cbn [serve_in serve].
  - unfold GetDeviceCryptoDirectory. destruct (parse_uuid user_id); [|done]. destruct (parse_all device_ids); [|done].
    eapply wp_seq; [done|by apply wp_directory; [apply Henv|]|]. intros r K s Hr _ _. by destruct (dr_status r).
  - unfold ClaimPrekeyBundle. destruct (parse_uuid device_id) as [dev|] eqn:Hdev; [|done].
    eapply wp_seq; [done|by apply wp_claim_device_prekey_bundle; [apply Henv|]|]. intros r K s Hr _ _.
    destruct (cb_status r), (cb_bundle r) as [[b st]|] eqn:Hb; try done. exists dev. split; [done|]. by apply (Hr b st).
  - unfold UpdateCryptoPrekeys. destruct (extract_caller_user_id metadata); [|done]. destruct (extract_caller_device_id metadata); [|done].
    destruct (parse_uuid device_id); [|done]. apply wp_plain_seq; [done|by apply wp_update_crypto_prekeys; [apply Henv|]|].
    intros r K s. by destruct (up_status r).
Qed.

Lemma serve_ok req s0 : auth_inv s0 -> wpa (serve_in e req) [] (reply_post s0 req) s0.
Proof using Henv.
  intros HI. destruct req; cbn [serve_in serve].
  - eapply wpx_mono; [|by apply wp_authenticate]. intros r K s Hr. by destruct r.
  - unfold ValidateSession. destruct (parse_uuid session_id) as [i|] eqn:Hi; [|done]. eapply wp_seq; [done|by apply wp_validate|].
    intros [st o] K s Hr _ _. destruct st, o as [x|]; try done. exists i. by split.
  - unfold RevokeSession. destruct (parse_uuid session_id) as [i|] eqn:Hi; [|done]. eapply wp_seq; [done|by apply wp_manager_revoke_session|].
    intros r K s Hr _ _. destruct (sr_status r) eqn:Hst; [|done..]. eexists. by split; [|apply Hr].
  - by apply wp_refresh_handler.
  - by apply wp_verify_handler.
  - unfold InitiateMfaEnrollment. destruct (parse_uuid user_id); [|done]. apply wp_plain_seq; [done|by apply wp_initiate_enrollment|].
    by intros [r|] K s.
  - unfold ConfirmMfaEnrollment. destruct (parse_uuid user_id); [|done]. destruct code; [done|].
    apply wp_plain_seq; [done|by apply wp_confirm_enrollment|]. intros [r|] K s; cbn [or_unknown]; [|done]. by destruct (cf_status r).
  - unfold DisableMfa. destruct (is_caller_mfa_verified metadata) eqn:Hm; cbn [negb]; [|done]. destruct (parse_uuid user_id); [|done]. destruct code; [done|].
    apply wp_plain_seq; [done|by apply wp_disable_mfa|]. by intros [[]|] K s.
  - by apply (wp_device_handlers (DoRegisterDevice _ _ _ _ _ _ _)).
  - by apply (wp_device_handlers (DoInitiateDevicePairing _ _ _ _)).
  - by apply (wp_device_handlers (DoAuthorizeDevice _ _ _ _ _)).
  - by apply wp_revoke_handler.
  - by apply (wp_key_handlers (DoGetDeviceCryptoDirectory _ _ _)).
  - by apply (wp_key_handlers (DoClaimPrekeyBundle _ _)).
  - by apply (wp_key_handlers (DoUpdateCryptoPrekeys _ _ _ _ _ _ _ _)).
Qed.
End spec.
