(* ===== verification/AuthRuns.v ===== *)
(** * Runs of the auth service

    What holds of every run of the server: any number of threads, any interleaving of
    their transactions, transactions that fail before or after they took effect. *)

From S2P Require Import Prelude Ids Bytes AccessTokens Prog AuthStore AuthTokens AuthInv AuthTokensSpec Base32 Totp MfaFactors Mfa MfaSpec KeyDirectory KeyDirectorySpec Devices DevicesSpec AuthServer AuthServerSpec.
From Stdlib Require Import Ascii.
#[local] Open Scope Z_scope.

Section runs.
Context (e : Environment).
#[local] Instance curves_here : Curves := env_curves e.

Abbreviation Server := (Pool (S := Auth) (Req := Request) (Resp := Reply)).

(** The server goes on. *)
Definition continues : Server -> Server -> Prop := rtc (pool_step (serve_in e)).

(** A run from a store. *)
Definition run (s : Auth) (w : Server) : Prop := continues (mkPool [] s) w.

Definition answered (w : Server) (i : nat) (req : Request) (reply : Reply) : Prop := threads w !! i = Some (req, Ret reply).

(** Thread [i] started in the second part of a run. *)
Definition since (s : Auth) (w : Server) (i : nat) : Auth :=
  if (i <? length (threads w))%nat then s else shared w.

Definition started (s : Auth) (req : Request) (r : Reply) (K : list Resource) (s' : Auth) : Prop :=
  exists sa, auth_later s sa /\ reply_post e sa req r K s'.

Lemma started_stable I s req : (forall s', I s' -> auth_inv s') -> xstable I auth_later (started s req).
Proof. intros HI r K s1 s2 (sa & Hl & Hp) Hl2 HI2. exists sa. split; [done|]. eapply (reply_post_stable e); [done|done|by apply HI]. Qed.

Context (Henv : env_ok e).

Abbreviation later_inv s := (fun s' => auth_inv s' /\ auth_later s s').

Lemma serve_started s req s' : later_inv s s' -> wpx (later_inv s) auth_later free (serve_in e req) [] (started s req) s'.
Proof using Henv.
  intros [HI Hl]. apply (wpx_strengthen auth_inv (auth_later s)); [by intros; etransitivity|].
  eapply wpx_mono; [|by apply serve_ok]. intros r K s1 Hp. by exists s'.
Qed.

(** What is known at the end of a run in two parts: every answer has its postcondition,
    given a store its thread started in; no two answers took the same. *)
Lemma run_answers s w w' :
  auth_inv s -> run s w -> continues w w' ->
  auth_inv (shared w') /\ auth_later (shared w) (shared w') /\
  (exists own : nat -> list Resource,
    (forall i req r, answered w' i req r -> started (since s w i) req r (own i) (shared w')) /\
    (forall i j x, x ∈ own i -> x ∈ own j -> i = j)).
Proof using Henv.
  intros HI Hr Hc. destruct (pool_reachable_owned (serve_in e) (later_inv s) auth_later free free_lost (fun _ => started s)) with (3 := Hr)
    (Ks := @nil (list Resource)) as [Ks Hw].
  - intros _ req. apply started_stable. by intros ? [].
  - intros _ req s'. apply serve_started.
  - by apply owns_nil.
  - destruct Hw as (HIw & Hw').
    destruct (pool_reachable_owned (serve_in e) (fun s' => later_inv s s' /\ auth_later (shared w) s') auth_later free free_lost
      (fun i => started (since s w i))) with (3 := Hc) (Ks := Ks) as [Ks' Hw2].
    + intros i req. apply started_stable. by intros ? [[] ?].
    + intros i req s' [[HI' Hl'] Hl2]. apply (wpx_strengthen (later_inv s) (auth_later (shared w))); [by intros; etransitivity|].
      unfold since. destruct (_ <? _)%nat; [by apply serve_started|].
      eapply (wpx_strengthen auth_inv (auth_later s)); [by intros; etransitivity|]. eapply wpx_mono; [|by apply serve_ok].
      intros r K s1 Hp. by exists s'.
    + apply (owns_strengthen (later_inv s) (auth_later (shared w)) _ _ (fun _ => started s)); [by intros; etransitivity|done| |exact (conj HIw Hw')].
      intros i req r K s1 Hi Hp. unfold since. by rewrite (proj2 (Nat.ltb_lt _ _)).
    + pose proof (owns_answers _ _ _ _ _ _ Hw2) as Hown. destruct Hw2 as ([[HI2 _] Hl2] & _). split_and!; done.
Qed.

Lemma run_all s w :
  auth_inv s -> run s w ->
  auth_inv (shared w) /\ auth_later s (shared w) /\
  (exists own : nat -> list Resource,
    (forall i req r, answered w i req r -> started s req r (own i) (shared w)) /\
    (forall i j x, x ∈ own i -> x ∈ own j -> i = j)).
Proof using Henv.
  intros HI Hr. destruct (run_answers s (mkPool [] s) w HI) as (HIw & Hl & own & Hown & Hd); [apply rtc_refl|done|]. split_and!; [done|done|].
  exists own. split; [|done]. intros i req r Ha. specialize (Hown i req r Ha). unfold since in Hown. by destruct (_ <? _)%nat.
Qed.
End runs.

Abbreviation inv_in e := (auth_inv (curves := env_curves e)).

(** ** What replies grant *)

(** The session a reply lets its client use. *)
Definition grants (reply : Reply) : option uuid :=
  match reply with
  | Authenticated r => Some (au_session_id r)
  | SessionIs (Some x) => Some (se_session_id x)
  | Refreshed id _ => Some id
  | ChallengePassed x _ => Some (se_session_id x)
  | _ => None
  end.

(** The devices a reply accepts as the client's, or as recipients of messages. *)
Definition accepts (req : Request) (reply : Reply) : list uuid :=
  match req, reply with
  | DoAuthenticate _ _ device _, Authenticated _ => option_list (parse_uuid device)
  | _, SessionIs (Some x) => [se_device_id x]
  | DoRefreshSession _ device _, Refreshed _ _ => option_list (parse_uuid device)
  | _, ChallengePassed x _ => [se_device_id x]
  | DoAuthorizeDevice _ _ device _ _, DeviceIsAuthorized _ => option_list (parse_uuid device)
  | _, Bundle b _ => [pb_device_id b]
  | _, Bundles bs => (fun b => pb_device_id (fst b)) <$> bs
  | _, _ => []
  end.

(** The one-time prekeys a reply hands out. *)
Definition prekeys_of (reply : Reply) : list uuid :=
  match reply with
  | Bundle b _ => handed_out b
  | Bundles bs => all_handed_out bs
  | _ => []
  end.

Definition bundles_of (reply : Reply) : list PrekeyBundle :=
  match reply with Bundle b _ => [b] | Bundles bs => fst <$> bs | _ => [] end.

Section consequences.
Context (e : Environment).
#[local] Instance curves_in : Curves := env_curves e.

Lemma validated_open s0 id now x s :
  validate_post s0 id None now (mkValidated Valid (Some x)) s ->
  se_session_id x = id /\ ~ session_over id s0 /\ not_revoked (se_device_id x) s0.
Proof.
  intros H. destruct (H eq_refl) as (y & [= <-] & Hid & _ & _ & _ & _ & Hopen & Hdev & _). split_and!; [done| |done].
  intros (x0 & Hx0 & Hst). by apply Hst, Hopen.
Qed.

Lemma grants_open s0 req reply K s id : reply_post e s0 req reply K s -> grants reply = Some id -> ~ session_over id s0.
Proof.
  intros Hp Hg. destruct reply; try done; destruct req; try done; cbn in Hg, Hp.
  - injection Hg as <-. destruct Hp as [_ (dev & y & _ & _ & _ & _ & _ & Hfresh) _]. intros (x & Hx & _). congruence.
  - destruct session as [x|]; [|done]. injection Hg as <-. destruct Hp as (id & _ & Hv). by destruct (validated_open _ _ _ _ _ Hv) as (-> & ? & _).
  - injection Hg as <-. destruct Hp as (dev & _ & [(i & t & _ & _ & _ & _ & _ & _ & [= ->] & _ & Hopen) _ _]).
    intros (x & Hx & Hst). by apply Hst, Hopen.
  - injection Hg as <-. by destruct Hp as (? & ? & ? & _ & _ & _ & _ & _ & _ & ? & _).
Qed.

Lemma accepts_usable s0 req reply K s device :
  reply_post e s0 req reply K s -> orders_rows (env_device_order e) -> device ∈ accepts req reply -> not_revoked device s0.
Proof.
  intros Hp Hrows Ha. destruct req, reply; try done; try (by apply elem_of_nil in Ha); cbn in Ha, Hp.
  - destruct Hp as [_ (dev & y & Hdev & _ & _ & _ & Hn & _) _]. rewrite Hdev in Ha. by apply list_elem_of_singleton in Ha as ->.
  - destruct session as [x|]; [|by apply elem_of_nil in Ha]. apply list_elem_of_singleton in Ha as ->. destruct Hp as (id & _ & Hv).
    by destruct (validated_open _ _ _ _ _ Hv) as (_ & _ & ?).
  - destruct Hp as (dev & Hdev & [_ Hd _]). rewrite Hdev in Ha. apply list_elem_of_singleton in Ha as ->. exact Hd.
  - apply list_elem_of_singleton in Ha as ->. by destruct Hp as (? & ? & ? & _ & _ & _ & _ & _ & _ & _ & ? & _).
  - destruct Hp as (u & dev & _ & Hdev & Hp). rewrite Hdev in Ha. apply list_elem_of_singleton in Ha as ->.
    destruct (Hp _ eq_refl eq_refl) as (_ & Hpend & _). intros d Hd Hr. specialize (Hpend d Hd). congruence.
  - apply list_elem_of_fmap in Ha as (b & -> & Hb). destruct Hp as [_ Hn]. specialize (Hn Hrows). rewrite Forall_forall in Hn. exact (Hn b Hb).
  - apply list_elem_of_singleton in Ha as ->. destruct Hp as (dev & _ & Hb & _ & Hn). by rewrite (bo_device _ _ _ Hb).
Qed.

Lemma prekeys_owned s0 req reply K s :
  reply_post e s0 req reply K s -> NoDup (prekeys_of reply) /\ forall id, id ∈ prekeys_of reply -> AKey id ∈ K.
Proof.
  intros Hp. assert (Hno : forall id : uuid, id ∈ @nil uuid -> AKey id ∈ K) by (by intros ? ?%elem_of_nil).
  destruct reply; cbn [prekeys_of]; try (split; [apply NoDup_nil_2|exact Hno]); destruct req; try done; cbn in Hp.
  - destruct Hp as [[_ Hown Hd] _]. split; [done|]. intros id Hin. by apply Hown.
  - destruct Hp as (dev & _ & _ & Hown & _). split; [|done]. unfold handed_out. destruct (pb_one_time_prekey_id _); [apply NoDup_singleton|apply NoDup_nil_2].
Qed.

Lemma bundles_signed s0 req reply K s b :
  reply_post e s0 req reply K s -> b ∈ bundles_of reply -> bundle_ok (pb_device_id b) b s.
Proof.
  intros Hp Hb. destruct reply; cbn [bundles_of] in Hb; try (by apply elem_of_nil in Hb); destruct req; try done; cbn in Hp.
  - apply list_elem_of_fmap in Hb as (x & -> & Hx). destruct Hp as [[Hall _ _] _]. rewrite Forall_forall in Hall.
    destruct (Hall x Hx) as (d & Hd). by rewrite (bo_device _ _ _ Hd).
  - apply list_elem_of_singleton in Hb as ->. destruct Hp as (dev & _ & Hd & _). by rewrite (bo_device _ _ _ Hd).
Qed.
End consequences.

(** ** Theorems about runs *)

(** C24.  In every run the store keeps its invariant: tokens belong to sessions of the same
    device, no two tokens share a verifier or a successor, a rotated token names its
    successor, a session at the second level has a completed challenge, a signed prekey
    carries a signature of an identity key of its device, and rows are stored under their
    own ids. *)
Theorem auth_store_invariant e s w : env_ok e -> inv_in e s -> run e s w -> inv_in e (shared w).
Proof. intros He HI Hr. by apply (run_all e He s w). Qed.

(** C17.  A refresh token is used once: a request that refreshed with it leaves it rotated to
    the new token, and no other request with the same secret, at any time of the run,
    gets tokens. *)
Theorem refresh_token_single_use e s w i j secret device device' d d' session tokens reply :
  env_ok e -> inv_in e s -> run e s w ->
  answered w i (DoRefreshSession secret device d) (Refreshed session tokens) ->
  answered w j (DoRefreshSession secret device' d') reply -> i <> j ->
  (exists code, reply = Failed code) /\
  exists id t, refresh_tokens (shared w) !! id = Some t /\ rt_token_verifier t = env_sha256_hex e secret /\ rt_session_id t = session /\
    rt_token_status t = TokenRotated /\ rt_replaced_by_token_id t = Some (token_id d).
Proof.
  intros He HI Hr Hi Hj Hne. destruct (run_all e He s w HI Hr) as (HIw & _ & own & Hown & Hd).
  destruct (Hown _ _ _ Hi) as (sa & _ & dev & _ & [(id & t & HK & Ht & Hv & Hst & Hrep & _ & [= Hses] & _ & _) _ _]).
  split; [|by exists id, t]. destruct (Hown _ _ _ Hj) as (sb & _ & Hp). destruct reply; try done; [by eexists|]. exfalso.
  destruct Hp as (dev' & _ & [(id' & t' & HK' & Ht' & Hv' & _) _ _]). apply Hne.
  assert (id = id') as <- by (eapply (ai_verifiers _ HIw); [done|done|congruence]). by eapply Hd.
Qed.

(** C18.  After a request to revoke a session was answered with success, no request that
    arrives lets anyone use the session, whatever was under way. *)
Theorem logout_is_final e s w w' j text now id i req reply :
  env_ok e -> inv_in e s -> run e s w -> answered w j (DoRevokeSession text now) (SessionWasRevoked true) ->
  parse_uuid text = Some id -> continues e w w' -> (length (threads w) <= i)%nat -> answered w' i req reply ->
  grants reply <> Some id.
Proof.
  intros He HI Hr Hj Hid Hc Hi Ha Hg. destruct (run_all e He s w HI Hr) as (_ & _ & own & Hown & _).
  destruct (Hown _ _ _ Hj) as (sa & _ & id' & Hid' & Hover). assert (id' = id) as -> by congruence.
  destruct (run_answers e He s w w' HI Hr Hc) as (_ & _ & own' & Hown' & _). destruct (Hown' _ _ _ Ha) as (sb & Hl & Hp).
  unfold since in Hl. rewrite (proj2 (Nat.ltb_ge _ _) Hi) in Hl. eapply grants_open; [exact Hp|exact Hg|]. by eapply session_over_later.
Qed.

(** C19.  After a device was reported revoked, no request that arrives logs in on it, uses or
    refreshes one of its sessions, authorizes it, or claims its keys, neither in a bundle
    of its own nor in the directory of its user.  ([ORDER BY] is assumed to give back rows
    of the table only.) *)
Theorem device_revocation_is_final e s w w' j metadata user text reason now now_device now_sessions device i req reply :
  env_ok e -> orders_rows (env_device_order e) -> inv_in e s -> run e s w ->
  answered w j (DoRevokeDevice metadata user text reason now now_device now_sessions) DeviceIsRevoked ->
  parse_uuid text = Some device -> continues e w w' -> (length (threads w) <= i)%nat -> answered w' i req reply ->
  device ∉ accepts req reply.
Proof.
  intros He Hrows HI Hr Hj Hdev Hc Hi Ha Hacc. destruct (run_all e He s w HI Hr) as (_ & _ & own & Hown & _).
  destruct (Hown _ _ _ Hj) as (sa & _ & dev & d & Hdev' & _ & Hd & Hst). assert (dev = device) as -> by congruence.
  destruct (run_answers e He s w w' HI Hr Hc) as (_ & _ & own' & Hown' & _). destruct (Hown' _ _ _ Ha) as (sb & Hl & Hp).
  unfold since in Hl. rewrite (proj2 (Nat.ltb_ge _ _) Hi) in Hl. destruct (al_devices _ _ Hl _ _ Hd) as (d' & Hd' & []).
  by eapply (accepts_usable e); [exact Hp|exact Hrows|exact Hacc|exact Hd'|apply dl_revoked].
Qed.

(** C20.  A challenge is passed once, and only with a good credential: it is completed, and
    while the run went on its user had an enabled configuration for which the credential
    was a code of the window or a recovery code.  No other request passes it. *)
Theorem mfa_challenge_passed_once e s w i j text text' code code' d d' session tokens reply :
  env_ok e -> inv_in e s -> run e s w ->
  answered w i (DoVerifyMfaChallenge text code d) (ChallengePassed session tokens) ->
  answered w j (DoVerifyMfaChallenge text' code' d') reply -> parse_uuid text' = parse_uuid text -> i <> j ->
  (exists status, reply = Failed status) /\
  exists id c step, parse_uuid text = Some id /\ mfa_challenges (shared w) !! id = Some c /\
    ch_challenge_status c = ChallengeCompleted /\ ch_session_id c = se_session_id session /\
    credential_accepted (env_hmac e) (env_totp e) (env_gcm e) (env_kek e) (env_sha256_hex_chars e) s (ch_user_id c) code (vd_now d) step (shared w).
Proof.
  intros He HI Hr Hi Hj Htext Hne. destruct (run_all e He s w HI Hr) as (HIw & _ & own & Hown & Hd).
  destruct (Hown _ _ _ Hi) as (sa & Hsa & id & c & step & Hid & HK & Hc & Hst & Hses & _ & _ & _ & (sm & k & cfg & Hsm & ?)).
  split.
  - destruct (Hown _ _ _ Hj) as (sb & _ & Hp). destruct reply; try done; [by eexists|].
    exfalso. destruct Hp as (id' & c' & step' & Hid' & HK' & _). apply Hne. assert (id = id') as <- by congruence. by eapply Hd.
  - exists id, c, step. split_and!; try done. exists sm, k, cfg. split; [by transitivity sa|done].
Qed.

(** C21.  A one-time prekey is handed out once: no reply has one twice, and no two replies,
    to claims of a bundle or of a directory, have one in common. *)
Theorem one_time_prekeys_single_use e s w i j req req' reply reply' :
  env_ok e -> inv_in e s -> run e s w -> answered w i req reply -> answered w j req' reply' -> i <> j ->
  NoDup (prekeys_of reply ++ prekeys_of reply').
Proof.
  intros He HI Hr Hi Hj Hne. destruct (run_all e He s w HI Hr) as (_ & _ & own & Hown & Hd).
  destruct (Hown _ _ _ Hi) as (sa & _ & Hpa). destruct (Hown _ _ _ Hj) as (sb & _ & Hpb).
  destruct (prekeys_owned e _ _ _ _ _ Hpa) as [Hna Hka]. destruct (prekeys_owned e _ _ _ _ _ Hpb) as [Hnb Hkb].
  apply NoDup_app. split_and!; [done| |done]. intros id Hin Hin'. by apply Hne; eapply (Hd i j); [apply Hka|apply Hkb].
Qed.

(** C22.  The bundles that are handed out are the device's own: the identity key is one the
    device registered, the signed prekey is signed by an identity key of the device,
    and a one-time prekey is a key of the device that nobody can claim again. *)
Theorem bundles_authentic e s w i req reply b :
  env_ok e -> inv_in e s -> run e s w -> answered w i req reply -> b ∈ bundles_of reply ->
  bundle_ok (curves := env_curves e) (pb_device_id b) b (shared w).
Proof.
  intros He HI Hr Hi Hb. destruct (run_all e He s w HI Hr) as (_ & _ & own & Hown & _). destruct (Hown _ _ _ Hi) as (sa & _ & Hp).
  by eapply bundles_signed.
Qed.

(** C23.  A login that succeeds had the right password of an active account and a device that
    was not revoked; it opens a new session of that user on that device, and hands out
    tokens only when the lookup of the user's second factor said there is none. *)
Theorem login_sound e s w i identifier password device d r :
  env_ok e -> inv_in e s -> run e s w -> answered w i (DoAuthenticate identifier password device d) (Authenticated r) ->
  login_ok e s identifier password device r (shared w).
Proof.
  intros He HI Hr Hi. destruct (run_all e He s w HI Hr) as (_ & _ & own & Hown & _).
  destruct (Hown _ _ _ Hi) as (sa & Hsa & [(sm & k & u & id & Hsm & ?) (dev & y & ? & ? & ? & ? & Hnr & Hfresh) Hf]). constructor.
  - exists sm, k, u, id. split; [by transitivity sa|done].
  - exists dev, y. split_and!; try done; [by eapply not_revoked_before|]. apply eq_None_not_Some. intros [x Hx].
    destruct (al_sessions _ _ Hsa _ _ Hx) as (x' & Hx' & _). congruence.
  - intros Ht. destruct (Hf Ht) as (sf & ? & ?). exists sf. split; [by transitivity sa|done].
Qed.

(** C25.  A device becomes usable through a second factor or a pairing code: an answer that it
    was authorized means the caller had passed multi-factor authentication, or presented
    the device's pairing code while it was neither used, expired nor locked. *)
Theorem device_authorization_earned e s w i metadata user text code now status :
  env_ok e -> inv_in e s -> run e s w -> answered w i (DoAuthorizeDevice metadata user text code now) (DeviceIsAuthorized status) ->
  exists u device x, parse_uuid user = Some u /\ parse_uuid text = Some device /\ devices (shared w) !! device = Some x /\ dv_user_id x = u /\
    (extract_caller_auth_level metadata = MfaVerified \/ paired s device code now (shared w)).
Proof.
  intros He HI Hr Hi. destruct (run_all e He s w HI Hr) as (_ & _ & own & Hown & _).
  destruct (Hown _ _ _ Hi) as (sa & Hsa & u & device & Hu & Hdev & Hp). destruct (Hp _ eq_refl eq_refl) as ((x & Hx & Hxu) & _ & Hwhy).
  exists u, device, x. split_and!; try done. destruct Hwhy as [|(sm & c & Hsm & ?)]; [by left|]. right. exists sm, c. split; [by transitivity sa|done].
Qed.
