(* ===== verification/AuthExamples.v ===== *)
(** * A server to run

    A concrete environment and store, which show that the hypotheses of the theorems of
    [AuthRuns] can hold, and the theorems applied to runs of that server; replays of
    refresh tokens; and how a device revocation can be incomplete. *)

From S2P Require Import Prelude Ids Bytes AccessTokens Prog AuthStore AuthTokens AuthInv AuthTokensSpec Base32 Totp MfaFactors Mfa MfaSpec KeyDirectory KeyDirectorySpec Devices DevicesSpec AuthServer AuthServerSpec AuthRuns.
From Stdlib Require Import Ascii.
#[local] Open Scope Z_scope.

(** Requests served one after the other are a run. *)
Fixpoint serial (e : Environment) (reqs : list Request) (w : Pool) : Pool :=
  match reqs with
  | [] => w
  | req :: reqs =>
      let r := scripted (serve_in e req) [] (shared w) in
      serial e reqs (mkPool (threads w ++ [(req, Ret (fst r))]) (snd r))
  end.

Lemma serial_continues e reqs w : continues e w (serial e reqs w).
Proof.
  revert w. induction reqs as [|req reqs IH]; intros w; [apply rtc_refl|]. cbn [serial]. unfold continues in *.
  etransitivity; [|apply IH]. destruct w as [l s]. apply (scripted_pool (serve_in e) req [] l s).
Qed.

Lemma serial_run e reqs s : run e s (serial e reqs (mkPool [] s)).
Proof. apply serial_continues. Qed.

(** ** An order of keys *)

Fixpoint first_by (before : Z -> Z -> bool) (l : list DevicePublicKeyEntity) : option DevicePublicKeyEntity :=
  match l with
  | [] => None
  | k :: l =>
      match first_by before l with
      | None => Some k
      | Some k' => if before (pk_created_at k') (pk_created_at k) then Some k' else Some k
      end
  end.

Lemma first_by_Some before l k :
  (forall x y, before x y = true \/ before y x = true) -> (forall x y z, before x y = true -> before y z = true -> before x z = true) ->
  first_by before l = Some k -> k ∈ l /\ forall k', k' ∈ l -> before (pk_created_at k) (pk_created_at k') = true.
Proof.
  intros Htot Htrans. assert (Hrefl : forall x, before x x = true) by (intros x; by destruct (Htot x x)).
  revert k. induction l as [|a l IH]; intros k; [done|]. cbn [first_by]. destruct (first_by before l) as [b|] eqn:E.
  - destruct (IH b eq_refl) as [Hin Hmin]. destruct (before (pk_created_at b) (pk_created_at a)) eqn:Hb; intros [= <-].
    + split; [by right|]. intros k' [->|Hk']%elem_of_cons; auto.
    + split; [by left|]. intros k' [->|Hk']%elem_of_cons; [done|]. destruct (Htot (pk_created_at a) (pk_created_at b)); [|congruence]. eauto.
  - destruct l as [|c l]; [|cbn in E; destruct (first_by before l); [by destruct (before _ _)|done]]. intros [= <-].
    split; [by left|]. intros k' [->|Hk'%elem_of_nil]%elem_of_cons; done.
Qed.

Lemma first_by_None before l : first_by before l = None -> l = [].
Proof. destruct l as [|k l]; [done|]. cbn. destruct (first_by before l); [by destruct (before _ _)|done]. Qed.

Definition by_age : KeyOrder := mkKeyOrder (first_by Z.leb) (first_by Z.geb).

Lemma by_age_ok : order_ok by_age.
Proof.
  constructor; cbn.
  - intros l k Hk. apply first_by_Some in Hk as [? Hmin]; [|intros x y; lia..]. split; [done|]. intros k' Hk'. apply Hmin in Hk'. lia.
  - intros l k Hk. apply first_by_Some in Hk as [? Hmin]; [|intros x y; lia..]. split; [done|]. intros k' Hk'. apply Hmin in Hk'. lia.
  - intros l. apply first_by_None.
  - intros l. apply first_by_None.
Qed.

(** ** The environment and the store *)

Module World.
Import MfaSpec.Example.

Definition curves : Curves := mkCurves (fun _ => true) (fun _ => true) (fun _ _ _ => true).
Definition tokens : TokenManagerConfig := mkTokenConfig 900 86400 "issuer" "audience" [] (5 * 1000000000).

Definition env : Environment :=
  mkEnvironment curves true 3600 300 300 5 tokens default_totp (fun x => x) toy_sha (fun x => x) (fun _ => Some "jwt"%string)
    toy_hmac toy_gcm [] (fun p v => Some (bool_decide (p = v))) head by_age (fun l => l).

Lemma head_ok : planner_ok head.
Proof. split; [by intros [|x l] c; [|intros [= <-]; left]|by intros [|x l]]. Qed.

Lemma env_is_ok : env_ok env.
Proof. constructor; [apply head_ok|apply by_age_ok]. Qed.

Definition key (n : Z) (type : KeyType) (signature : option (list Z)) : DevicePublicKeyEntity :=
  mkPublicKey (id n) device type (replicate 32 n) KeyActive n None None signature.

Definition keys : gmap uuid DevicePublicKeyEntity :=
  <[id 9 := key 9 IdentitySigning None]> (<[id 10 := key 10 SignedPrekey (Some (replicate 64 1))]>
    (<[id 11 := key 11 OneTimePrekey None]> {[id 12 := key 12 OneTimePrekey None]})).

Definition token : RefreshTokenEntity := mkRefreshToken (id 8) session device "secret" TokenActive 0 (3000 * 1000000000) None None None.
Definition open_session : SessionEntity := mkSession session user device SessionActive PrimaryOnly 0 (3000 * 1000000000) None 0.

(** The store of [MfaSpec.Example] with an active refresh token and the keys of the
    device, two of them one-time prekeys. *)
Definition start : Auth :=
  set_device_public_keys keys
    (set_refresh_tokens {[id 8 := token]} store).

Lemma start_store_ok : auth_inv (curves := curves) start.
Proof.
  assert (Htokens : refresh_tokens start = {[id 8 := token]}) by done.
  assert (Hsessions : sessions start = {[session := open_session]}) by done.
  constructor.
  - intros i t Ht. rewrite Htokens in Ht. apply lookup_singleton_Some in Ht as [<- <-].
    constructor; [done| |by split; [|intros []]|done|done]. exists open_session. split; [by vm_compute|done].
  - intros i x Hx. rewrite Hsessions in Hx. apply lookup_singleton_Some in Hx as [<- <-]. constructor; [done| |done].
    eexists. split; [by vm_compute|done].
  - intros i i' t t' Ht Ht' _. rewrite Htokens in Ht. rewrite Htokens in Ht'. apply lookup_singleton_Some in Ht as [<- _].
    by apply lookup_singleton_Some in Ht' as [<- _].
  - intros i i' t t' n Ht _ Hn. rewrite Htokens in Ht. by apply lookup_singleton_Some in Ht as [_ <-].
  - intros i k Hk. change (device_public_keys start) with keys in Hk. assert (H9 : keys !! id 9 = Some (key 9 IdentitySigning None)) by apply lookup_insert_eq.
    unfold keys in Hk. repeat (apply lookup_insert_Some in Hk as [[<- <-]|[_ Hk]]; [split; [done|]; intros Ht; try done|]).
    + exists (id 9), (key 9 IdentitySigning None). split; [exact H9|]. split_and!; [done|done|by vm_compute].
    + apply lookup_singleton_Some in Hk as [<- <-]. split; [done|]. by intros Ht.
  - intros i d Hd. change (devices start) with ({[device := mkDevice device user DeviceActive 0 None None 0 0 0]} : gmap uuid DeviceEntity) in Hd.
    by apply lookup_singleton_Some in Hd as [<- <-].
Qed.

(** Texts of identifiers, a clock, a caller with a second factor. *)
Definition text (n : Z) : string := Uuid.to_string (uuid_bytes (id n)).
Definition t0 : Z := 1000 * 1000000000.
Definition draw (n : Z) (secret : string) : Draw := mkDraw secret (id n) (id n) t0 t0 t0 t0.
Definition pair_of (secret : string) : TokenPair := mkPair "jwt" secret (t0 + 900).
Definition with_mfa : Metadata := {["x-auth-level"%string := "2"%string]}.

Definition refresh (n : Z) : Request := DoRefreshSession "secret" (text 2) (draw n "next").
Definition verify (n : Z) (code : list ascii) : Request := DoVerifyMfaChallenge (text 4) code (mkVerifyDraw t0 t0 t0 (draw n "other")).
Definition claim (n : Z) : Request := DoClaimPrekeyBundle (text n) (fun _ => false).
Definition directory : Request := DoGetDeviceCryptoDirectory (text 1) [] (fun _ => false).
Definition login : Request :=
  DoAuthenticate (chars "alice@example.com") "verifier" (text 2) (mkLoginDraw (id 30) t0 t0 (id 31) t0 (draw 32 "login")).
Definition register (n : Z) : Request :=
  DoRegisterDevice ∅ (text 1) (replicate 32 1) (replicate 32 2) (replicate 64 3) [] (mkEnrollDraw (id n) (id (n + 1)) (id (n + 2)) [] (replicate 8 1) t0).
Definition authorize (n : Z) : Request := DoAuthorizeDevice ∅ (text 1) (text n) (chars "3333-3333") t0.
Definition revoke_device (n : Z) : Request := DoRevokeDevice with_mfa (text 1) (text n) "" t0 t0 t0.

Definition after (reqs : list Request) : Pool := serial env reqs (mkPool [] start).
Definition reply_at (w : Pool (S := Auth) (Req := Request) (Resp := Reply)) (i : nat) : Reply :=
  match threads w !! i with Some (_, Ret r) => r | _ => Failed UNKNOWN end.
Definition verified : SessionEntity := mkSession session user device SessionActive MfaVerified 0 (3000 * 1000000000) None t0.
End World.

Section witnesses.
Import MfaSpec.Example World.

Lemma auth_store_invariant_witness : inv_in env (shared (after [refresh 20; verify 22 (code_of 33); login; claim 2; revoke_device 2])).
Proof. apply (auth_store_invariant env start); [apply env_is_ok|apply start_store_ok|apply serial_run]. Defined.

Lemma refresh_token_single_use_witness :
  let w := after [refresh 20; refresh 21] in
  (exists code, reply_at w 1 = Failed code) /\
  exists i t, refresh_tokens (shared w) !! i = Some t /\ rt_token_verifier t = env_sha256_hex env "secret" /\ rt_session_id t = session /\
    rt_token_status t = TokenRotated /\ rt_replaced_by_token_id t = Some (id 20).
Proof.
  apply (refresh_token_single_use env start (after [refresh 20; refresh 21]) 0 1 "secret" (text 2) (text 2) (draw 20 "next") (draw 21 "next") session (pair_of "next"));
    [apply env_is_ok|apply start_store_ok|apply serial_run|by vm_compute|by vm_compute|done].
Defined.

Lemma logout_is_final_witness :
  let w := after [DoRevokeSession (text 3) t0] in
  grants (reply_at (serial env [DoValidateSession (text 3) t0] w) 1) <> Some session /\
  grants (reply_at (serial env [DoValidateSession (text 3) t0] (mkPool [] start)) 0) = Some session.
Proof.
  split; [|by vm_compute].
  apply (logout_is_final env start (after [DoRevokeSession (text 3) t0]) (serial env [DoValidateSession (text 3) t0] (after [DoRevokeSession (text 3) t0]))
    0 (text 3) t0 session 1 (DoValidateSession (text 3) t0));
    [apply env_is_ok|apply start_store_ok|apply serial_run|by vm_compute|by vm_compute|apply serial_continues|by vm_compute|by vm_compute].
Defined.

Lemma device_revocation_is_final_witness :
  let w := after [revoke_device 2] in
  (device ∉ accepts directory (reply_at (serial env [directory] w) 1)) /\ accepts directory (reply_at (after [directory]) 0) = [device].
Proof.
  split; [|by vm_compute].
  apply (device_revocation_is_final env start (after [revoke_device 2]) (serial env [directory] (after [revoke_device 2])) 0 with_mfa (text 1) (text 2) "" t0 t0 t0 device 1 directory);
    [apply env_is_ok|by intros l d|apply start_store_ok|apply serial_run|by vm_compute|by vm_compute|apply serial_continues|by vm_compute|by vm_compute].
Defined.

Lemma mfa_challenge_passed_once_witness :
  let w := after [verify 22 (code_of 33); verify 23 (code_of 32)] in
  (exists status, reply_at w 1 = Failed status) /\
  exists i c step, parse_uuid (text 4) = Some i /\ mfa_challenges (shared w) !! i = Some c /\
    ch_challenge_status c = ChallengeCompleted /\ ch_session_id c = session /\
    credential_accepted toy_hmac default_totp toy_gcm [] toy_sha start (ch_user_id c) (code_of 33) t0 step (shared w).
Proof.
  apply (mfa_challenge_passed_once env start (after [verify 22 (code_of 33); verify 23 (code_of 32)]) 0 1 (text 4) (text 4) (code_of 33) (code_of 32)
    (mkVerifyDraw t0 t0 t0 (draw 22 "other")) (mkVerifyDraw t0 t0 t0 (draw 23 "other")) verified (pair_of "other"));
    [apply env_is_ok|apply start_store_ok|apply serial_run|by vm_compute|by vm_compute|done|done].
Defined.

Lemma one_time_prekeys_single_use_witness :
  let w := after [claim 2; directory] in
  NoDup (prekeys_of (reply_at w 0) ++ prekeys_of (reply_at w 1)) /\ prekeys_of (reply_at w 0) ++ prekeys_of (reply_at w 1) = [id 11; id 12].
Proof.
  split; [|by vm_compute].
  apply (one_time_prekeys_single_use env start (after [claim 2; directory]) 0 1 (claim 2) directory);
    [apply env_is_ok|apply start_store_ok|apply serial_run|by vm_compute|by vm_compute|done].
Defined.

Lemma bundles_authentic_witness :
  exists b, bundles_of (reply_at (after [claim 2]) 0) = [b] /\ bundle_ok (curves := curves) (pb_device_id b) b (shared (after [claim 2])).
Proof.
  destruct (bundles_of (reply_at (after [claim 2]) 0)) as [|b [|b' l]] eqn:E; [by vm_compute in E| |by vm_compute in E]. exists b. split; [done|].
  apply (bundles_authentic env start (after [claim 2]) 0 (claim 2) (reply_at (after [claim 2]) 0));
    [apply env_is_ok|apply start_store_ok|apply serial_run|by vm_compute|rewrite E; by left].
Defined.

Lemma login_sound_witness :
  login_ok env start (chars "alice@example.com") "verifier" (text 2) (mkAuthenticated (id 30) user true (Some (id 31)) None 1000000) (shared (after [login])).
Proof.
  apply (login_sound env start (after [login]) 0 (chars "alice@example.com") "verifier" (text 2) (mkLoginDraw (id 30) t0 t0 (id 31) t0 (draw 32 "login")));
    [apply env_is_ok|apply start_store_ok|apply serial_run|by vm_compute].
Defined.

Lemma device_authorization_earned_witness :
  let w := after [register 50; authorize 50] in
  exists u device x, parse_uuid (text 1) = Some u /\ parse_uuid (text 50) = Some device /\ devices (shared w) !! device = Some x /\ dv_user_id x = u /\
    (extract_caller_auth_level ∅ = MfaVerified \/ paired start device (chars "3333-3333") t0 (shared w)).
Proof.
  apply (device_authorization_earned env start (after [register 50; authorize 50]) 1 ∅ (text 1) (text 50) (chars "3333-3333") t0 (Some DeviceActive));
    [apply env_is_ok|apply start_store_ok|apply serial_run|by vm_compute].
Defined.

(** The token of the store, rotated, and presented again ten seconds later. *)
Lemma reuse_revokes_family_witness :
  let s := shared (after [refresh 20]) in
  let replay := mkDraw "again" (id 21) (id 21) (t0 + 10 * 1000000000) t0 t0 t0 in
  exists s', solo (manager_refresh_tokens true tokens (fun x => x) (fun _ => Some "jwt"%string) "secret" device replay) s = (refused CompromiseDetected, s') /\
    session_over session s' /\ forall i t, refresh_tokens s' !! i = Some t -> rt_session_id t = session -> rt_token_status t <> TokenActive.
Proof.
  apply (reuse_revokes_family (curves := curves) true tokens (fun x => x) (fun _ => Some "jwt"%string) (shared (after [refresh 20])) (id 8)
    (mkRefreshToken (id 8) session device "secret" TokenRotated 0 (3000 * 1000000000) None (Some t0) (Some (id 20))) "secret" device
    (mkDraw "again" (id 21) (id 21) (t0 + 10 * 1000000000) t0 t0 t0) t0);
    [|by vm_compute|done|done|done|done|done].
  eapply (run_all env env_is_ok start); [apply start_store_ok|apply serial_run].
Defined.

(** ** Revocations that are incomplete *)

(** A revocation that succeeds leaves the refresh tokens of the device active. *)
Theorem revoked_device_keeps_tokens :
  let w := after [revoke_device 2] in
  reply_at w 0 = DeviceIsRevoked /\ refresh_tokens (shared w) !! id 8 = Some token /\ rt_token_status token = TokenActive.
Proof. split_and!; by vm_compute. Qed.

(** The answer of the session manager is not looked at: the revocation succeeds with the
    sessions of the device still active. *)
Theorem revoked_device_keeps_sessions :
  let r := scripted (serve_in env (revoke_device 2)) [true; true; false] start in
  fst r = DeviceIsRevoked /\ sessions (snd r) !! session = Some open_session /\ se_session_status open_session = SessionActive.
Proof. split_and!; by vm_compute. Qed.

(** When the keys could not be revoked the call fails, and a second call succeeds
    without revoking them. *)
Theorem revoked_device_keeps_keys :
  let r := scripted (serve_in env (revoke_device 2)) [true; true; true; false] start in
  let r' := scripted (serve_in env (revoke_device 2)) [] (snd r) in
  fst r = Failed UNKNOWN /\ fst r' = DeviceIsRevoked /\
  pk_key_status <$> device_public_keys (snd r') !! id 9 = Some KeyActive.
Proof. split_and!; by vm_compute. Qed.
End witnesses.
