(* ===== verification/FilesTypes.v ===== *)
(** * Files: entities and the lifecycle of a file

    Models [src/files/domain]: the entities of [file_entity.hpp],
    [encrypted_file_metadata_entity.hpp], [file_version_entity.hpp],
    [file_transfer_entity.hpp], [file_chunk_entity.hpp], [file_access_entity.hpp] and
    [files_outbox_entity.hpp], the state machine of [lifecycle_state_machine.cpp], the
    exceptions of the service, and the text of the enumerations in
    [db/pqxx_mappers.cpp].  Time points are nanoseconds since 1970, payloads are lists
    of bytes. *)

From S2P Require Import Prelude Ids.

(** ** Exceptions *)

(** The classes the service throws; [StdException] is any other [std::exception]. *)
Inductive FilesExn :=
  | RepositoryException | InvalidStateTransitionException | UniqueConstraintViolationException
  | EntityNotFoundException | ChunkIntegrityException
  | FileNotFoundException | UnauthorizedFileAccessException | ImmutableVersionException
  | FileLifecycleValidationException | InvalidCapabilityException | InvalidDownloadPreconditionException
  | TransferException | TransferNotFoundException | TransferExpiredException
  | TransferCancelledException | UnauthorizedTransferException
  | FinalizationPreconditionException | InvalidLifecycleTransitionException
  | InvalidEnumException | TimestampParseException | ByteaParseException
  | S3ObjectNotFoundException | S3IntegrityException | S3ConnectionException
  | OutOfRange | InvalidArgument | StdException.

#[export] Instance FilesExn_eq_dec : EqDecision FilesExn.
Proof. solve_decision. Defined.

(** ** Enumerations and their names in the database *)

Module FileStatus.
Inductive t := Created | Uploading | Finalizing | Available | Expired | Deleted | Failed.

#[global] Instance eq_dec : EqDecision t.
Proof. solve_decision. Defined.

Definition to_string (status : t) : string :=
  match status with
  | Created => "CREATED"
  | Uploading => "UPLOADING"
  | Finalizing => "FINALIZING"
  | Available => "AVAILABLE"
  | Expired => "EXPIRED"
  | Deleted => "DELETED"
  | Failed => "FAILED"
  end.

Definition from_string (str : string) : result FilesExn t :=
  if bool_decide (str = "CREATED") then Ok Created
  else if bool_decide (str = "UPLOADING") then Ok Uploading
  else if bool_decide (str = "FINALIZING") then Ok Finalizing
  else if bool_decide (str = "AVAILABLE") then Ok Available
  else if bool_decide (str = "EXPIRED") then Ok Expired
  else if bool_decide (str = "DELETED") then Ok Deleted
  else if bool_decide (str = "FAILED") then Ok Failed
  else Err InvalidEnumException.

Lemma status_roundtrip status : from_string (to_string status) = Ok status.
Proof. by destruct status. Qed.

Lemma status_string_inj a b : to_string a = to_string b -> a = b.
Proof. by destruct a, b. Qed.
End FileStatus.

Module TransferType.
Inductive t := Upload | Download.

#[global] Instance eq_dec : EqDecision t.
Proof. solve_decision. Defined.

Definition to_string (type : t) : string := match type with Upload => "UPLOAD" | Download => "DOWNLOAD" end.

Definition from_string (str : string) : result FilesExn t :=
  if bool_decide (str = "UPLOAD") then Ok Upload
  else if bool_decide (str = "DOWNLOAD") then Ok Download
  else Err InvalidEnumException.

Lemma transfer_type_roundtrip type : from_string (to_string type) = Ok type.
Proof. by destruct type. Qed.
End TransferType.

Module TransferStatus.
Inductive t := Created | Transferring | Finalizing | Completed | Failed | Expired | Cancelled.

#[global] Instance eq_dec : EqDecision t.
Proof. solve_decision. Defined.

Definition to_string (status : t) : string :=
  match status with
  | Created => "CREATED"
  | Transferring => "TRANSFERRING"
  | Finalizing => "FINALIZING"
  | Completed => "COMPLETED"
  | Failed => "FAILED"
  | Expired => "EXPIRED"
  | Cancelled => "CANCELLED"
  end.

Definition from_string (str : string) : result FilesExn t :=
  if bool_decide (str = "CREATED") then Ok Created
  else if bool_decide (str = "TRANSFERRING") then Ok Transferring
  else if bool_decide (str = "FINALIZING") then Ok Finalizing
  else if bool_decide (str = "COMPLETED") then Ok Completed
  else if bool_decide (str = "FAILED") then Ok Failed
  else if bool_decide (str = "EXPIRED") then Ok Expired
  else if bool_decide (str = "CANCELLED") then Ok Cancelled
  else Err InvalidEnumException.

Lemma transfer_status_roundtrip status : from_string (to_string status) = Ok status.
Proof. by destruct status. Qed.
End TransferStatus.

Module ChunkStatus.
Inductive t := Received | Committed.

#[global] Instance eq_dec : EqDecision t.
Proof. solve_decision. Defined.

Definition to_string (status : t) : string := match status with Received => "RECEIVED" | Committed => "COMMITTED" end.

Definition from_string (str : string) : result FilesExn t :=
  if bool_decide (str = "RECEIVED") then Ok Received
  else if bool_decide (str = "COMMITTED") then Ok Committed
  else Err InvalidEnumException.

Lemma chunk_status_roundtrip status : from_string (to_string status) = Ok status.
Proof. by destruct status. Qed.
End ChunkStatus.

Module FilePermission.
Inductive t := Read | Write | Admin.

#[global] Instance eq_dec : EqDecision t.
Proof. solve_decision. Defined.

Definition to_string (permission : t) : string := match permission with Read => "READ" | Write => "WRITE" | Admin => "ADMIN" end.

Definition from_string (str : string) : result FilesExn t :=
  if bool_decide (str = "READ") then Ok Read
  else if bool_decide (str = "WRITE") then Ok Write
  else if bool_decide (str = "ADMIN") then Ok Admin
  else Err InvalidEnumException.

Lemma permission_roundtrip permission : from_string (to_string permission) = Ok permission.
Proof. by destruct permission. Qed.
End FilePermission.

Module OutboxStatus.
Inductive t := Pending | Published | Failed.

#[global] Instance eq_dec : EqDecision t.
Proof. solve_decision. Defined.

Definition to_string (status : t) : string := match status with Pending => "PENDING" | Published => "PUBLISHED" | Failed => "FAILED" end.

Definition from_string (str : string) : result FilesExn t :=
  if bool_decide (str = "PENDING") then Ok Pending
  else if bool_decide (str = "PUBLISHED") then Ok Published
  else if bool_decide (str = "FAILED") then Ok Failed
  else Err InvalidEnumException.

Lemma outbox_status_roundtrip status : from_string (to_string status) = Ok status.
Proof. by destruct status. Qed.
End OutboxStatus.

(** ** Entities *)

Record FileEntity := mkFileEntity {
  file_id : string; owner_user_id : string; owner_device_id : string; conversation_id : option string;
  encrypted_size : Z; content_type : option string; encryption_algorithm : string; file_status : FileStatus.t;
  retention_until : option Z; file_created_at : Z; file_updated_at : Z }.

Record EncryptedFileMetadataEntity := mkMetadataEntity {
  meta_file_id : string; encrypted_filename : list Z; encrypted_mime_type : option (list Z);
  metadata_nonce : list Z; metadata_tag : list Z; client_encryption_metadata_json : string; meta_updated_at : Z }.

Record FileVersionEntity := mkVersionEntity {
  version_id : string; version_file_id : string; version_number : Z; version_size : Z; minio_object_key : string;
  checksum_sha256 : string; version_created_at : Z; is_active : bool }.

Record FileTransferEntity := mkTransferEntity {
  transfer_id : string; transfer_file_id : string; transfer_type : TransferType.t; initiator_user_id : string;
  initiator_device_id : string; transfer_status : TransferStatus.t; total_chunks : Z; accepted_chunks : Z;
  total_bytes : Z; transferred_bytes : Z; transfer_created_at : Z; transfer_updated_at : Z; expires_at : Z }.

Record FileChunkEntity := mkChunkEntity {
  chunk_id : string; chunk_transfer_id : string; chunk_index : Z; byte_offset : Z; chunk_size : Z;
  chunk_hash_sha256 : string; minio_chunk_key : string; chunk_status : ChunkStatus.t; chunk_created_at : Z }.

Record FileAccessEntity := mkAccessEntity {
  access_id : string; access_file_id : string; grantee_user_id : string; grantee_device_id : option string;
  permission : FilePermission.t; granted_by : string; granted_at : Z; revoked_at : option Z }.

Record FilesOutboxEntity := mkOutboxEntity {
  event_id : string; aggregate_type : string; aggregate_id : string; event_type : string; payload_json : string;
  outbox_status : OutboxStatus.t; retry_count : Z; outbox_created_at : Z; processed_at : option Z }.

#[export] Instance FileChunkEntity_eq_dec : EqDecision FileChunkEntity.
Proof. solve_decision. Defined.

(** ** The lifecycle of a file *)

Definition is_valid_state_transition (from to : FileStatus.t) : bool :=
  match from with
  | FileStatus.Created =>
      bool_decide (to = FileStatus.Uploading) || bool_decide (to = FileStatus.Failed) || bool_decide (to = FileStatus.Deleted)
  | FileStatus.Uploading =>
      bool_decide (to = FileStatus.Finalizing) || bool_decide (to = FileStatus.Failed) || bool_decide (to = FileStatus.Expired)
      || bool_decide (to = FileStatus.Deleted)
  | FileStatus.Finalizing => bool_decide (to = FileStatus.Available) || bool_decide (to = FileStatus.Failed)
  | FileStatus.Available => bool_decide (to = FileStatus.Expired) || bool_decide (to = FileStatus.Deleted)
  | FileStatus.Expired => bool_decide (to = FileStatus.Deleted)
  | FileStatus.Deleted | FileStatus.Failed => false
  end.

Definition is_terminal_state (status : FileStatus.t) : bool :=
  bool_decide (status = FileStatus.Deleted) || bool_decide (status = FileStatus.Failed).

Definition assert_valid_state_transition (from to : FileStatus.t) : result FilesExn unit :=
  if negb (is_valid_state_transition from to) then Err InvalidLifecycleTransitionException else Ok tt.

(** The names of [lifecycle_state_machine.cpp], which parse either case. *)
Definition lifecycle_status_from_string (str : string) : option FileStatus.t :=
  if bool_decide (str = "CREATED") || bool_decide (str = "created") then Some FileStatus.Created
  else if bool_decide (str = "UPLOADING") || bool_decide (str = "uploading") then Some FileStatus.Uploading
  else if bool_decide (str = "FINALIZING") || bool_decide (str = "finalizing") then Some FileStatus.Finalizing
  else if bool_decide (str = "AVAILABLE") || bool_decide (str = "available") then Some FileStatus.Available
  else if bool_decide (str = "EXPIRED") || bool_decide (str = "expired") then Some FileStatus.Expired
  else if bool_decide (str = "DELETED") || bool_decide (str = "deleted") then Some FileStatus.Deleted
  else if bool_decide (str = "FAILED") || bool_decide (str = "failed") then Some FileStatus.Failed
  else None.

(** The states of the protocol buffer, with [FILE_LIFECYCLE_STATE_UNSPECIFIED]. *)
Inductive FileLifecycleState := StateUnspecified | StateOf (status : FileStatus.t).

Definition to_proto (status : FileStatus.t) : FileLifecycleState := StateOf status.

Definition from_proto (state : FileLifecycleState) : result FilesExn FileStatus.t :=
  match state with StateOf status => Ok status | StateUnspecified => Err InvalidArgument end.

(** How the status of a file may move in any number of transitions. *)
Definition lifecycle_step (from to : FileStatus.t) : Prop := is_valid_state_transition from to = true.
Definition lifecycle_reach : relation FileStatus.t := rtc lifecycle_step.

#[export] Instance lifecycle_reach_preorder : PreOrder lifecycle_reach.
Proof. apply _. Qed.

Lemma terminal_stuck from to : is_terminal_state from = true -> is_valid_state_transition from to = false.
Proof. by destruct from. Qed.

Lemma terminal_reach from to : is_terminal_state from = true -> lifecycle_reach from to -> to = from.
Proof.
  intros Hterm Hr. destruct Hr as [|from mid to Hs _]; [done|]. unfold lifecycle_step in Hs.
  by rewrite terminal_stuck in Hs.
Qed.

(** Every transition but those into the terminal states moves a file forward. *)
Definition lifecycle_rank (status : FileStatus.t) : nat :=
  match status with
  | FileStatus.Created => 0 | FileStatus.Uploading => 1 | FileStatus.Finalizing => 2 | FileStatus.Available => 3
  | FileStatus.Expired => 4 | FileStatus.Deleted | FileStatus.Failed => 5
  end.

Lemma lifecycle_step_rank from to : lifecycle_step from to -> (lifecycle_rank from < lifecycle_rank to)%nat.
Proof. unfold lifecycle_step. destruct from, to; cbn; intros; try done; lia. Qed.

Lemma lifecycle_reach_rank from to : lifecycle_reach from to -> from = to \/ (lifecycle_rank from < lifecycle_rank to)%nat.
Proof.
  induction 1 as [|from mid to Hs _ IH]; [by left|right]. apply lifecycle_step_rank in Hs.
  destruct IH as [<-|]; [done|lia].
Qed.
