(* ===== verification/FilesText.v ===== *)
(** * Files: the text of numbers, times and bytes in the database

    Models the conversions of [src/files/db/pqxx_mappers.cpp] and of [pqxx::field] in
    [db/pqxx_compat.hpp]: decimal numbers, ISO 8601 time stamps through the civil
    calendar, and [bytea] in hexadecimal; and proves that what is written is read back,
    and how far the order of the texts is the order of the times. *)

From S2P Require Import Prelude Ids Bytes Bucket FilesTypes.
From Stdlib Require Import Ascii.
From stdpp Require Import pretty.

#[local] Open Scope Z_scope.

(** ** Decimal numbers *)

(** [std::to_string] of a signed number. *)
Definition to_decimal (z : Z) : string := if z <? 0 then String.append "-" (decimal (- z)) else decimal z.

Fixpoint span_digits (l : list ascii) : list ascii * list ascii :=
  match l with
  | c :: l' => if is_digit c then let '(ds, rest) := span_digits l' in (c :: ds, rest) else ([], l)
  | [] => ([], [])
  end.

Definition digits_val (l : list ascii) : Z := foldl (fun v c => v * 10 + digit_val c) 0 l.

Definition is_space (c : ascii) : bool := (code c =? 32) || ((9 <=? code c) && (code c <=? 13)).

Fixpoint skip_spaces (l : list ascii) : list ascii :=
  match l with
  | c :: l' => if is_space c then skip_spaces l' else l
  | [] => []
  end.

Definition in_i64 (z : Z) : Prop := - 2 ^ 63 <= z < 2 ^ 63.
#[global] Instance in_i64_dec z : Decision (in_i64 z).
Proof. unfold in_i64. apply _. Defined.

(** [std::stoll] reads the longest number at the front. *)
Definition stoll (str : string) : result FilesExn Z :=
  let l := skip_spaces (chars str) in
  let '(sign, l) :=
    match l with
    | c :: l' => if Ascii.eqb c "-" then (-1, l') else if Ascii.eqb c "+" then (1, l') else (1, l)
    | [] => (1, [])
    end in
  let '(ds, _) := span_digits l in
  match ds with
  | [] => Err InvalidArgument
  | _ => let v := sign * digits_val ds in if bool_decide (in_i64 v) then Ok v else Err OutOfRange
  end.

(** ** The civil calendar *)

Definition days_from_civil (y m d : Z) : Z :=
  let y := y - (if m <=? 2 then 1 else 0) in
  let era := Z.quot (if 0 <=? y then y else y - 399) 400 in
  let yoe := y - era * 400 in
  let doy := (153 * (if 2 <? m then m - 3 else m + 9) + 2) / 5 + d - 1 in
  let doe := yoe * 365 + yoe / 4 - yoe / 100 + doy in
  era * 146097 + doe - 719468.

(** The day of the era, its year, month and day in the year that starts in March. *)
Definition civil_of_doe (doe : Z) : Z * Z * Z :=
  let yoe := (doe - doe / 1460 + doe / 36524 - doe / 146096) / 365 in
  let doy := doe - (365 * yoe + yoe / 4 - yoe / 100) in
  let mp := (5 * doy + 2) / 153 in
  let d := doy - (153 * mp + 2) / 5 + 1 in
  let m := if mp <? 10 then mp + 3 else mp - 9 in
  (yoe, m, d).

Definition civil_from_days (days : Z) : Z * Z * Z :=
  let days := days + 719468 in
  let era := Z.quot (if 0 <=? days then days else days - 146096) 146097 in
  let doe := days - era * 146097 in
  let '(yoe, m, d) := civil_of_doe doe in
  let y := yoe + era * 400 in
  (y + (if m <=? 2 then 1 else 0), m, d).

(** ** Time stamps *)

Definition us_of (tp : Z) : Z := Z.quot tp 1000.

(** The value that survives the database: microseconds. *)
Definition stored_us (tp : Z) : Z := us_of tp * 1000.

Definition digits2 (z : Z) : list ascii := digit <$> [z / 10 mod 10; z mod 10].
Definition digits4 (z : Z) : list ascii := digit <$> [z / 1000 mod 10; z / 100 mod 10; z / 10 mod 10; z mod 10].
Definition digits6 (z : Z) : list ascii :=
  digit <$> [z / 100000 mod 10; z / 10000 mod 10; z / 1000 mod 10; z / 100 mod 10; z / 10 mod 10; z mod 10].

(** The fields [to_iso8601] computes: seconds, rounded down, and microseconds. *)
Definition split_us (us : Z) : Z * Z :=
  let sec := Z.quot us 1000000 in
  let frac := Z.rem us 1000000 in
  if frac <? 0 then (sec - 1, frac + 1000000) else (sec, frac).

Definition split_day (sec : Z) : Z * Z :=
  let days := Z.quot sec 86400 in
  let sec_in_day := Z.rem sec 86400 in
  if sec_in_day <? 0 then (days - 1, sec_in_day + 86400) else (days, sec_in_day).

(** [%04d-%02u-%02uT%02d:%02d:%02d] of a year under 10000. *)
Definition iso_seconds (sec : Z) : list ascii :=
  let '(days, sec_in_day) := split_day sec in
  let '(y, m, d) := civil_from_days days in
  digits4 y ++ "-"%char :: digits2 m ++ "-"%char :: digits2 d ++ "T"%char :: digits2 (sec_in_day / 3600)
  ++ ":"%char :: digits2 (sec_in_day mod 3600 / 60) ++ ":"%char :: digits2 (sec_in_day mod 60).

Definition iso_fraction (frac : Z) : list ascii :=
  if frac =? 0 then ["Z"%char] else "."%char :: digits6 frac ++ ["Z"%char].

Definition to_iso8601 (tp : Z) : string :=
  let '(sec, frac) := split_us (us_of tp) in of_chars (iso_seconds sec ++ iso_fraction frac).

Fixpoint parse_int_from (val : Z) (s : list ascii) : result FilesExn Z :=
  match s with
  | [] => Ok val
  | c :: s => if is_digit c then parse_int_from (val * 10 + digit_val c) s else Err TimestampParseException
  end.
Definition parse_int (s : list ascii) : result FilesExn Z := parse_int_from 0 s.

Definition substr (s : list ascii) (pos n : nat) : list ascii := take n (drop pos s).

(** The first six digits of the fraction; [factor] is the weight of the next one. *)
Fixpoint micros (frac_part : list ascii) (factor : Z) (n : nat) : Z :=
  match n, frac_part with
  | S n, c :: frac_part => digit_val c * factor + micros frac_part (factor / 10) n
  | _, _ => 0
  end.

Definition parse_fraction (s : list ascii) : result FilesExn (Z * list ascii) :=
  match s with
  | c :: s' =>
      if Ascii.eqb c "." then
        let '(frac_part, rest) := span_digits s' in
        match frac_part with
        | [] => Err TimestampParseException
        | _ => Ok (micros frac_part 100000 6, rest)
        end
      else Ok (0, s)
  | [] => Ok (0, [])
  end.

Definition parse_zone (tz : list ascii) : result FilesExn Z :=
  match tz with
  | [] => Ok 0
  | c :: tz_digits =>
      if bool_decide (tz = ["Z"%char]) || bool_decide (tz = ["z"%char]) then Ok 0
      else if Ascii.eqb c "+" || Ascii.eqb c "-" then
        let sign := if Ascii.eqb c "+" then 1 else -1 in
        if (length tz_digits =? 2)%nat then
          let? tz_h := parse_int tz_digits in Ok (sign * (tz_h * 3600))
        else if (length tz_digits =? 5)%nat && Ascii.eqb (Uuid.char_at tz_digits 2) ":" then
          let? tz_h := parse_int (substr tz_digits 0 2) in
          let? tz_m := parse_int (substr tz_digits 3 2) in Ok (sign * (tz_h * 3600 + tz_m * 60))
        else if (length tz_digits =? 4)%nat then
          let? tz_h := parse_int (substr tz_digits 0 2) in
          let? tz_m := parse_int (substr tz_digits 2 2) in Ok (sign * (tz_h * 3600 + tz_m * 60))
        else Err TimestampParseException
      else Err TimestampParseException
  end.

(** Nanoseconds since the epoch, not bounded; the values written by [to_iso8601] come from
    time points, which fit. *)
Definition from_iso8601 (text : string) : result FilesExn Z :=
  let str := chars text in
  let at_ := Uuid.char_at str in
  if (length str <? 19)%nat then Err TimestampParseException
  else if negb (Ascii.eqb (at_ 4%nat) "-") || negb (Ascii.eqb (at_ 7%nat) "-") then Err TimestampParseException
  else
    let? year := parse_int (substr str 0 4) in
    let? month := parse_int (substr str 5 2) in
    let? day := parse_int (substr str 8 2) in
    if (month <? 1) || (12 <? month) || (day <? 1) || (31 <? day) then Err TimestampParseException
    else
      let sep := at_ 10%nat in
      if negb (Ascii.eqb sep "T") && negb (Ascii.eqb sep " ") && negb (Ascii.eqb sep "t") then Err TimestampParseException
      else if negb (Ascii.eqb (at_ 13%nat) ":") || negb (Ascii.eqb (at_ 16%nat) ":") then Err TimestampParseException
      else
        let? hour := parse_int (substr str 11 2) in
        let? minute := parse_int (substr str 14 2) in
        let? second := parse_int (substr str 17 2) in
        if (hour <? 0) || (23 <? hour) || (minute <? 0) || (59 <? minute) || (second <? 0) || (60 <? second)
        then Err TimestampParseException
        else
          let? (microsec, tz) := parse_fraction (drop 19 str) in
          let? tz_offset_seconds := parse_zone tz in
          let days := days_from_civil year month day in
          let total_sec := days * 86400 + hour * 3600 + minute * 60 + second - tz_offset_seconds in
          Ok ((total_sec * 1000000 + microsec) * 1000).

(** ** Bytes *)

Definition hex_digits (b : Z) : list ascii :=
  [Uuid.hex_digit (Z.land (Z.shiftr b 4) 15); Uuid.hex_digit (Z.land b 15)].

Fixpoint hex_text (bytes : list Z) : list ascii :=
  match bytes with
  | [] => []
  | b :: bytes => hex_digits b ++ hex_text bytes
  end.

Definition to_bytea_hex (bytes : list Z) : string := of_chars ("\"%char :: "x"%char :: hex_text bytes).

Fixpoint hex_pairs (s : list ascii) : option (list Z) :=
  match s with
  | [] => Some []
  | h :: l :: s =>
      let hi := Uuid.hex_val h in
      let lo := Uuid.hex_val l in
      if (hi <? 0) || (lo <? 0) then None
      else bs ← hex_pairs s; Some (wrap 8 (Z.lor (Z.shiftl hi 4) lo) :: bs)
  | _ => None
  end.

Definition strip_prefix (s : list ascii) : list ascii :=
  match s with
  | a :: b :: s' =>
      if Ascii.eqb a "\" && Ascii.eqb b "x" then s'
      else match s' with
           | c :: s'' => if Ascii.eqb a "\" && Ascii.eqb b "\" && Ascii.eqb c "x" then s'' else s
           | [] => s
           end
  | _ => s
  end.

(** An odd length and a character that is no digit are refused alike. *)
Definition from_bytea_hex (hex_str : string) : result FilesExn (list Z) :=
  match hex_pairs (strip_prefix (chars hex_str)) with Some bytes => Ok bytes | None => Err ByteaParseException end.

(** ** Numbers survive *)

Lemma span_digits_all ds rest :
  Forall (fun c => is_digit c = true) ds -> (forall c r, rest = c :: r -> is_digit c = false) ->
  span_digits (ds ++ rest) = (ds, rest).
Proof.
  intros Hds Hrest. induction Hds as [|c ds Hc _ IH]; cbn [app span_digits].
  - destruct rest as [|c r]; [done|]. cbn. by rewrite (Hrest c r eq_refl).
  - by rewrite Hc, IH.
Qed.

Lemma digits_val_from v l : foldl (fun v c => v * 10 + digit_val c) v l = v * 10 ^ Z.of_nat (length l) + digits_val l.
Proof.
  unfold digits_val. revert v. induction l as [|c l IH]; intros v; cbn [foldl length]; [rewrite Z.pow_0_r; lia|].
  rewrite IH, (IH (0 * 10 + _)). rewrite Nat2Z.inj_succ, Z.pow_succ_r by lia. lia.
Qed.

Lemma digits_val_cons c l : digits_val (c :: l) = digit_val c * 10 ^ Z.of_nat (length l) + digits_val l.
Proof. unfold digits_val at 1. cbn [foldl]. rewrite digits_val_from. lia. Qed.

Lemma pretty_char_is_digit x : (x < 10)%N -> is_digit (pretty_N_char x) = true /\ digit_val (pretty_N_char x) = Z.of_N x.
Proof.
  intros Hx. assert (Hc : (x = 0 \/ x = 1 \/ x = 2 \/ x = 3 \/ x = 4 \/ x = 5 \/ x = 6 \/ x = 7 \/ x = 8 \/ x = 9)%N) by lia.
  repeat (destruct Hc as [->|Hc]; [by vm_compute|]). by subst x.
Qed.

Lemma pretty_N_go_digits x s :
  Forall (fun c => is_digit c = true) (chars s) ->
  Forall (fun c => is_digit c = true) (chars (pretty_N_go x s)) /\
  digits_val (chars (pretty_N_go x s)) = Z.of_N x * 10 ^ Z.of_nat (length (chars s)) + digits_val (chars s).
Proof.
  revert s. induction (N.lt_wf_0 x) as [x _ IH]; intros s Hs. destruct (decide (0 < x)%N) as [Hx|Hx].
  - rewrite pretty_N_go_step by done. pose proof (N.mod_lt x 10 ltac:(lia)) as Hm. apply pretty_char_is_digit in Hm as [Hd Hv].
    destruct (IH (x `div` 10)%N ltac:(by apply N.div_lt) (String (pretty_N_char (x `mod` 10)) s)) as [HF HV]; [by constructor|].
    split; [done|]. rewrite HV. change (chars (String ?c s)) with (c :: chars s). rewrite digits_val_cons, Hv.
    cbn [length]. rewrite Nat2Z.inj_succ, Z.pow_succ_r, N2Z.inj_mod, N2Z.inj_div by lia.
    pose proof (Z.div_mod (Z.of_N x) 10 ltac:(lia)). change (Z.of_N 10) with 10. nia.
  - assert (x = 0%N) as -> by lia. rewrite pretty_N_go_0. split; [done|lia].
Qed.

Lemma decimal_digits z :
  0 <= z -> Forall (fun c => is_digit c = true) (chars (decimal z)) /\ digits_val (chars (decimal z)) = z /\ chars (decimal z) <> [].
Proof.
  intros Hz. unfold decimal, pretty, pretty_N. destruct (decide (Z.to_N z = 0%N)) as [H0|H0].
  - assert (z = 0) as -> by lia. split_and!; [repeat constructor|done|done].
  - destruct (pretty_N_go_digits (Z.to_N z) EmptyString ltac:(constructor)) as [HF HV].
    change (chars EmptyString) with (@nil ascii) in HV. cbn [length] in HV. change (digits_val []) with 0 in HV.
    rewrite Z.pow_0_r in HV. split_and!; [done|lia|]. intros Hnil. rewrite Hnil in HV. change (digits_val []) with 0 in HV. lia.
Qed.

Lemma is_digit_not c : is_digit c = true -> is_space c = false /\ Ascii.eqb c "-" = false /\ Ascii.eqb c "+" = false.
Proof.
  intros Hc. assert (H : negb (is_digit c) || (negb (is_space c) && negb (Ascii.eqb c "-") && negb (Ascii.eqb c "+")) = true)
    by (clear Hc; revert c; apply Uuid.ascii_check_sound; vm_compute; reflexivity).
  rewrite Hc in H. cbn in H. by bool_to_prop.
Qed.

Lemma decimal_inj a b : 0 <= a -> 0 <= b -> decimal a = decimal b -> a = b.
Proof. intros Ha Hb H. destruct (decimal_digits a Ha) as (_ & <- & _). destruct (decimal_digits b Hb) as (_ & <- & _). by rewrite H. Qed.

Lemma stoll_to_decimal z : in_i64 z -> stoll (to_decimal z) = Ok z.
Proof.
  intros Hz. unfold stoll, to_decimal.
  assert (Hspan : forall ds, Forall (fun c => is_digit c = true) ds -> span_digits ds = (ds, []))
    by (intros ds Hds; rewrite <- (app_nil_r ds) at 1; by apply span_digits_all).
  destruct (Z.ltb_spec z 0) as [Hneg|Hpos].
  - destruct (decimal_digits (- z) ltac:(lia)) as (HF & HV & Hne). change (chars (String.append "-" ?s)) with ("-"%char :: chars s).
    cbn [skip_spaces]. change (is_space "-") with false. cbn iota. change (Ascii.eqb "-" "-") with true. cbn iota. rewrite Hspan by done.
    destruct (chars (decimal (- z))) as [|c ds]; [done|]. rewrite HV. replace (-1 * - z) with z by lia. by rewrite bool_decide_eq_true_2.
  - destruct (decimal_digits z ltac:(lia)) as (HF & HV & Hne). destruct (chars (decimal z)) as [|c ds] eqn:Hl; [done|].
    pose proof (Forall_inv HF) as Hc. destruct (is_digit_not c Hc) as (Hs & Hm & Hp). cbn [skip_spaces]. rewrite Hs, Hm, Hp.
    rewrite Hspan by done. rewrite HV. replace (1 * z) with z by lia. by rewrite bool_decide_eq_true_2.
Qed.

(** ** The calendar *)

(** The rank of a date within the era. *)
Definition doe_key (doe : Z) : Z :=
  let '(yoe, m, d) := civil_of_doe doe in (yoe + (if m <=? 2 then 1 else 0)) * 10000 + m * 100 + d.

(** The day of the era on which a year starts, and its last day. *)
Definition year_start (y : Z) : Z := 365 * y + y / 4 - y / 100.
Definition year_end (y : Z) : Z := if y =? 399 then 146096 else year_start (y + 1) - 1.

Definition civil_of_doy (doy : Z) : Z * Z :=
  let mp := (5 * doy + 2) / 153 in (if mp <? 10 then mp + 3 else mp - 9, doy - (153 * mp + 2) / 5 + 1).

Definition scaled (doe : Z) : Z := doe - doe / 1460 + doe / 36524 - doe / 146096.

Lemma scaled_mono a b : a <= b -> scaled a <= scaled b.
Proof.
  intros Hab. unfold scaled. change 146096 with (36524 * 4). rewrite <- !Z.div_div by lia.
  assert (a / 36524 <= b / 36524) by (apply Z.div_le_mono; lia).
  assert (forall p q, p <= q -> p - p / 4 <= q - q / 4) as H4 by (intros; Z.to_euclidean_division_equations; lia).
  specialize (H4 _ _ H). assert (a - a / 1460 <= b - b / 1460) by (clear H4; Z.to_euclidean_division_equations; lia). lia.
Qed.

(** Facts about years and about days of a year are decided one by one. *)
Lemma year_check y :
  0 <= y < 400 -> scaled (year_start y) / 365 = y /\ scaled (year_end y) / 365 = y /\
    year_start y <= year_end y <= year_start y + 365.
Proof.
  intros Hy. assert (H : forallb (fun n => let y := Z.of_nat n in (scaled (year_start y) / 365 =? y) && (scaled (year_end y) / 365 =? y)
      && (year_start y <=? year_end y) && (year_end y <=? year_start y + 365)) (seq 0 400) = true) by (vm_compute; reflexivity).
  rewrite forallb_forall in H. specialize (H (Z.to_nat y) ltac:(apply in_seq; lia)). rewrite Z2Nat.id in H by lia.
  cbv zeta in H. bool_to_prop. lia.
Qed.

Lemma doy_check doy m d :
  0 <= doy <= 365 -> civil_of_doy doy = (m, d) ->
  1 <= m <= 12 /\ 1 <= d <= 31 /\ (153 * (if 2 <? m then m - 3 else m + 9) + 2) / 5 + d - 1 = doy /\ (m <=? 2) = (306 <=? doy).
Proof.
  intros Hd Heq. assert (H : forallb (fun n => let doy := Z.of_nat n in let '(m, d) := civil_of_doy doy in
      (1 <=? m) && (m <=? 12) && (1 <=? d) && (d <=? 31) && ((153 * (if 2 <? m then m - 3 else m + 9) + 2) / 5 + d - 1 =? doy)
      && Bool.eqb (m <=? 2) (306 <=? doy)) (seq 0 366) = true) by (vm_compute; reflexivity).
  rewrite forallb_forall in H. specialize (H (Z.to_nat doy) ltac:(apply in_seq; lia)). rewrite Z2Nat.id in H by lia.
  cbv zeta in H. rewrite Heq in H. apply andb_true_iff in H as [H He]. apply Bool.eqb_prop in He. bool_to_prop. auto with lia.
Qed.

Lemma year_found doe : 0 <= doe < 146097 -> exists y, 0 <= y < 400 /\ year_start y <= doe <= year_end y.
Proof.
  intros Hd. assert (Hn : forall n, (n <= 399)%nat -> doe < year_start (Z.of_nat n) -> exists y, 0 <= y < Z.of_nat n /\ year_start y <= doe < year_start (y + 1)).
  { induction n as [|n IH]; intros Hn Hlt; [change (year_start (Z.of_nat 0)) with 0 in Hlt; lia|].
    destruct (Z.lt_ge_cases doe (year_start (Z.of_nat n))) as [Hc|Hc].
    - destruct (IH ltac:(lia) Hc) as (y & Hy & ?). exists y. lia.
    - exists (Z.of_nat n). replace (Z.of_nat n + 1) with (Z.of_nat (S n)) by lia. lia. }
  destruct (Z.lt_ge_cases doe (year_start 399)) as [Hc|Hc].
  - destruct (Hn 399%nat ltac:(lia) Hc) as (y & Hy & Hd'). exists y. unfold year_end. rewrite (proj2 (Z.eqb_neq y 399)) by lia. lia.
  - exists 399. change (year_end 399) with 146096. lia.
Qed.

(** The date of a day of the era, by its year and the day of that year. *)
Lemma civil_of_doe_eq doe y :
  0 <= y < 400 -> year_start y <= doe <= year_end y ->
  civil_of_doe doe = (let '(m, d) := civil_of_doy (doe - year_start y) in (y, m, d)).
Proof.
  intros Hy Hd. destruct (year_check y Hy) as (Hs & He & _). unfold civil_of_doe. fold (scaled doe).
  assert (scaled doe / 365 = y) as ->.
  { pose proof (scaled_mono _ _ (proj1 Hd)). pose proof (scaled_mono _ _ (proj2 Hd)).
    assert (scaled (year_start y) / 365 <= scaled doe / 365) by (apply Z.div_le_mono; lia).
    assert (scaled doe / 365 <= scaled (year_end y) / 365) by (apply Z.div_le_mono; lia). lia. }
  unfold civil_of_doy. by fold (year_start y).
Qed.

Lemma doe_facts doe yoe m d :
  0 <= doe < 146097 -> civil_of_doe doe = (yoe, m, d) ->
  0 <= yoe < 400 /\ 1 <= m <= 12 /\ 1 <= d <= 31 /\
  yoe * 365 + yoe / 4 - yoe / 100 + ((153 * (if 2 <? m then m - 3 else m + 9) + 2) / 5 + d - 1) = doe /\
  (yoe + (if m <=? 2 then 1 else 0) <= 399 <-> doe < 146037).
Proof.
  intros Hd Heq. destruct (year_found doe Hd) as (y & Hy & Hin). destruct (year_check y Hy) as (_ & _ & Hlen).
  rewrite (civil_of_doe_eq doe y Hy Hin) in Heq. destruct (civil_of_doy _) as [m' d'] eqn:Hdoy. injection Heq as -> -> ->.
  destruct (doy_check (doe - year_start yoe) _ _ ltac:(lia) Hdoy) as (Hm & Hdd & Hinv & Hb). rewrite Hinv, Hb. split_and!; try lia.
  - fold (year_start yoe). unfold year_start. lia.
  - destruct (Z.eq_dec yoe 399) as [->|Hne].
    + change (year_start 399) with 145731. destruct (Z.leb_spec 306 (doe - 145731)); lia.
    + assert (year_start (yoe + 1) <= 145734) by (unfold year_start; Z.to_euclidean_division_equations; lia).
      unfold year_end in Hin. rewrite (proj2 (Z.eqb_neq yoe 399)) in Hin by done. destruct (Z.leb_spec 306 (doe - year_start yoe)); lia.
Qed.

Lemma doe_key_succ doe : 0 <= doe < 146096 -> doe_key doe < doe_key (doe + 1).
Proof.
  intros Hd. destruct (year_found doe ltac:(lia)) as (y & Hy & Hin). destruct (year_check y Hy) as (_ & _ & Hlen). unfold doe_key.
  rewrite (civil_of_doe_eq doe y Hy Hin).
  assert (Hdoys : forallb (fun n => let doy := Z.of_nat n in let '(m, d) := civil_of_doy doy in let '(m', d') := civil_of_doy (doy + 1) in
      ((if m <=? 2 then 1 else 0) * 10000 + m * 100 + d <? 10301) &&
      ((if m <=? 2 then 1 else 0) * 10000 + m * 100 + d <? (if m' <=? 2 then 1 else 0) * 10000 + m' * 100 + d')) (seq 0 365) = true)
    by (vm_compute; reflexivity).
  rewrite forallb_forall in Hdoys. destruct (Z.lt_ge_cases doe (year_end y)) as [Hc|Hc].
  - rewrite (civil_of_doe_eq (doe + 1) y Hy ltac:(lia)). replace (doe + 1 - year_start y) with (doe - year_start y + 1) by lia.
    specialize (Hdoys (Z.to_nat (doe - year_start y)) ltac:(apply in_seq; lia)). rewrite Z2Nat.id in Hdoys by lia. cbv zeta in Hdoys.
    destruct (civil_of_doy (doe - year_start y)) as [m d], (civil_of_doy (doe - year_start y + 1)) as [m' d']. bool_to_prop. lia.
  - assert (Hy9 : y <> 399) by (intros ->; change (year_end 399) with 146096 in *; lia).
    assert (Hnext : doe + 1 = year_start (y + 1)) by (unfold year_end in *; rewrite (proj2 (Z.eqb_neq y 399)) in * by lia; lia).
    destruct (year_check (y + 1) ltac:(lia)) as (_ & _ & Hlen').
    rewrite (civil_of_doe_eq (doe + 1) (y + 1)) by lia. rewrite Hnext, Z.sub_diag. change (civil_of_doy 0) with (3, 1).
    destruct (civil_of_doy (doe - year_start y)) as [m d] eqn:Hdoy. destruct (doy_check (doe - year_start y) _ _ ltac:(lia) Hdoy) as (Hm & Hdd & _ & _).
    cbn iota. change (3 <=? 2) with false. cbn iota. destruct (Z.leb_spec m 2); lia.
Qed.

Lemma floor_quot z n : 0 < n -> Z.quot (if 0 <=? z then z else z - (n - 1)) n = z / n.
Proof.
  intros Hn. destruct (Z.leb_spec 0 z); [by apply Z.quot_div_nonneg|].
  rewrite <- (Z.opp_involutive (z - (n - 1))), Z.quot_opp_l, Z.quot_div_nonneg by lia.
  apply Z.div_unique_pos with (r := z - n * (- ((n - 1 - z) / n))).
  - pose proof (Z.div_mod (n - 1 - z) n ltac:(lia)). pose proof (Z.mod_pos_bound (n - 1 - z) n Hn). lia.
  - replace (- (z - (n - 1))) with (n - 1 - z) by lia. lia.
Qed.

Definition era_of (days : Z) : Z := (days + 719468) / 146097.
Definition doe_of (days : Z) : Z := (days + 719468) mod 146097.

Lemma doe_of_range days : 0 <= doe_of days < 146097.
Proof. by apply Z.mod_pos_bound. Qed.

Lemma civil_from_days_eq days :
  civil_from_days days =
  (let '(yoe, m, d) := civil_of_doe (doe_of days) in (yoe + era_of days * 400 + (if m <=? 2 then 1 else 0), m, d)).
Proof.
  unfold civil_from_days. change 146096 with (146097 - 1). rewrite floor_quot by lia.
  replace (days + 719468 - (days + 719468) / 146097 * 146097) with (doe_of days); [done|].
  unfold doe_of. rewrite Z.mod_eq by lia. lia.
Qed.

(** The date of a day is a date, and counts back to the day. *)
Lemma civil_roundtrip days y m d :
  civil_from_days days = (y, m, d) -> days_from_civil y m d = days /\ 1 <= m <= 12 /\ 1 <= d <= 31.
Proof.
  rewrite civil_from_days_eq. destruct (civil_of_doe (doe_of days)) as [[yoe m'] d'] eqn:Hc. intros [= <- <- <-].
  destruct (doe_facts _ _ _ _ (doe_of_range days) Hc) as (Hy & Hm & Hd & Hinv & _). split; [|lia].
  unfold days_from_civil. replace (yoe + era_of days * 400 + (if m' <=? 2 then 1 else 0) - (if m' <=? 2 then 1 else 0)) with (yoe + era_of days * 400) by lia.
  change 399 with (400 - 1). rewrite floor_quot, Z.div_add, Z.div_small by lia. cbv zeta.
  replace (yoe + era_of days * 400 - (0 + era_of days) * 400) with yoe by lia.
  pose proof (Z.div_mod (days + 719468) 146097 ltac:(lia)) as Hdm. fold (era_of days) (doe_of days) in Hdm. lia.
Qed.

(** Days of the years 0 to 9999. *)
Definition day_range (days : Z) : Prop := -719528 <= days < 2932897.

Lemma civil_year days y m d : day_range days -> civil_from_days days = (y, m, d) -> 0 <= y <= 9999.
Proof.
  unfold day_range. intros Hdays. rewrite civil_from_days_eq. destruct (civil_of_doe (doe_of days)) as [[yoe m'] d'] eqn:Hc. intros [= <- <- <-].
  pose proof (doe_of_range days) as Hr. destruct (doe_facts _ _ _ _ Hr Hc) as (Hy & _ & _ & _ & H399).
  pose proof (Z.div_mod (days + 719468) 146097 ltac:(lia)) as Hdm. fold (era_of days) (doe_of days) in Hdm.
  assert (era_of days = -1 \/ 0 <= era_of days <= 24) as He by (unfold era_of in *; Z.to_euclidean_division_equations; lia).
  destruct (m' <=? 2); lia.
Qed.

(** Dates are ordered like days. *)
Definition date_key (days : Z) : Z := let '(y, m, d) := civil_from_days days in y * 10000 + m * 100 + d.

Lemma date_key_eq days : date_key days = doe_key (doe_of days) + era_of days * 4000000.
Proof.
  unfold date_key, doe_key. rewrite civil_from_days_eq. destruct (civil_of_doe _) as [[yoe m] d]. lia.
Qed.

Lemma date_key_succ days : date_key days < date_key (days + 1).
Proof.
  rewrite !date_key_eq. pose proof (doe_of_range days) as Hr.
  destruct (Z.eq_dec (doe_of days) 146096) as [Hlast|Hlast].
  - assert (doe_of (days + 1) = 0 /\ era_of (days + 1) = era_of days + 1) as [-> ->]
      by (unfold doe_of, era_of in *; Z.to_euclidean_division_equations; lia).
    rewrite Hlast. assert (doe_key 146096 < doe_key 0 + 4000000) by (by vm_compute). lia.
  - assert (doe_of (days + 1) = doe_of days + 1 /\ era_of (days + 1) = era_of days) as [-> ->]
      by (unfold doe_of, era_of in *; Z.to_euclidean_division_equations; lia).
    pose proof (doe_key_succ (doe_of days) ltac:(lia)). lia.
Qed.

Lemma date_key_lt a b : a < b -> date_key a < date_key b.
Proof.
  intros Hab. assert (Hn : forall n, (0 < n)%nat -> date_key a < date_key (a + Z.of_nat n)).
  { induction n as [|n IH]; [lia|]. intros _. pose proof (date_key_succ (a + Z.of_nat n)) as Hs.
    replace (a + Z.of_nat (S n)) with (a + Z.of_nat n + 1) by lia. destruct n; [|specialize (IH ltac:(lia)); lia].
    replace (a + Z.of_nat 0) with a in * by lia. done. }
  specialize (Hn (Z.to_nat (b - a)) ltac:(lia)). by replace (a + Z.of_nat (Z.to_nat (b - a))) with b in Hn by lia.
Qed.

(** ** Time stamps survive, to the microsecond *)

Lemma split_us_eq us sec frac : split_us us = (sec, frac) -> us = sec * 1000000 + frac /\ 0 <= frac < 1000000.
Proof.
  unfold split_us. pose proof (Z.quot_rem us 1000000 ltac:(lia)). pose proof (Z.rem_bound_abs us 1000000 ltac:(lia)).
  destruct (Z.ltb_spec (Z.rem us 1000000) 0); intros [= <- <-]; lia.
Qed.

Lemma split_day_eq sec days sod : split_day sec = (days, sod) -> sec = days * 86400 + sod /\ 0 <= sod < 86400.
Proof.
  unfold split_day. pose proof (Z.quot_rem sec 86400 ltac:(lia)). pose proof (Z.rem_bound_abs sec 86400 ltac:(lia)).
  destruct (Z.ltb_spec (Z.rem sec 86400) 0); intros [= <- <-]; lia.
Qed.

(** The second a time point lies in, and times of the years 0 to 9999. *)
Definition second_of (tp : Z) : Z := fst (split_us (us_of tp)).
Definition iso_range (tp : Z) : Prop := -719528 * 86400 <= second_of tp < 2932897 * 86400.

Lemma split_day_range sec : -719528 * 86400 <= sec < 2932897 * 86400 -> day_range (split_day sec).1.
Proof.
  intros Hs. destruct (split_day sec) as [days sod] eqn:H. apply split_day_eq in H. unfold day_range. cbn. lia.
Qed.

Lemma parse_int_digits l : Forall is_dec l -> parse_int (digit <$> l) = Ok (dec l).
Proof.
  intros Hl. unfold parse_int. enough (H : forall v, parse_int_from v (digit <$> l) = Ok (v * 10 ^ Z.of_nat (length l) + dec l)) by (rewrite H; f_equal; lia).
  induction Hl as [|d l Hd _ IH]; intros v; cbn [fmap list_fmap parse_int_from dec length]; [f_equal; rewrite Z.pow_0_r; lia|].
  rewrite is_digit_digit by done. rewrite digit_val_digit by done. fold (digit <$> l). rewrite IH. f_equal. rewrite Nat2Z.inj_succ, Z.pow_succ_r by lia. lia.
Qed.

Lemma digits2_dec z : 0 <= z < 100 -> parse_int (digits2 z) = Ok z.
Proof.
  intros Hz. unfold digits2. rewrite parse_int_digits by (repeat constructor; apply is_dec_mod). f_equal. cbn.
  Z.to_euclidean_division_equations; lia.
Qed.

Lemma digits4_dec z : 0 <= z < 10000 -> parse_int (digits4 z) = Ok z.
Proof.
  intros Hz. unfold digits4. rewrite parse_int_digits by (repeat constructor; apply is_dec_mod). f_equal. cbn.
  Z.to_euclidean_division_equations; lia.
Qed.

Lemma micros_digits6 z : 0 <= z < 1000000 -> micros (digits6 z) 100000 6 = z.
Proof.
  intros Hz. unfold digits6. cbn [fmap list_fmap micros]. rewrite !digit_val_digit by apply is_dec_mod.
  change (100000 / 10) with 10000. change (10000 / 10) with 1000. change (1000 / 10) with 100. change (100 / 10) with 10. change (10 / 10) with 1.
  Z.to_euclidean_division_equations; lia.
Qed.

Lemma parse_fraction_iso frac : 0 <= frac < 1000000 -> parse_fraction (iso_fraction frac) = Ok (frac, ["Z"%char]).
Proof.
  intros Hf. unfold iso_fraction. destruct (Z.eqb_spec frac 0) as [->|Hne]; [done|]. cbn [parse_fraction].
  change (Ascii.eqb "." ".") with true. cbn iota. rewrite span_digits_all.
  - assert (H6 : digits6 frac <> []) by done. destruct (digits6 frac) as [|c l] eqn:Hd; [done|]. rewrite <- Hd, micros_digits6 by done. done.
  - apply Forall_fmap, Forall_forall. intros d Hd. apply is_digit_digit. unfold digits6 in Hd.
    repeat (apply elem_of_cons in Hd as [->|Hd]; [apply is_dec_mod|]). by apply elem_of_nil in Hd.
  - by intros c r [= <- _].
Qed.

Lemma from_iso_chars y m d hh mi ss tail :
  0 <= y < 10000 -> 1 <= m <= 12 -> 1 <= d <= 31 -> 0 <= hh < 24 -> 0 <= mi < 60 -> 0 <= ss < 60 ->
  from_iso8601 (of_chars (digits4 y ++ "-"%char :: digits2 m ++ "-"%char :: digits2 d ++ "T"%char :: digits2 hh
                          ++ ":"%char :: digits2 mi ++ ":"%char :: digits2 ss ++ tail)) =
  (let? (microsec, tz) := parse_fraction tail in
   let? tz_offset_seconds := parse_zone tz in
   Ok (((days_from_civil y m d * 86400 + hh * 3600 + mi * 60 + ss - tz_offset_seconds) * 1000000 + microsec) * 1000)).
Proof.
  intros Hy Hm Hd Hh Hmi Hs. unfold from_iso8601. rewrite chars_of_chars.
  change (substr _ 0 4) with (digits4 y). change (substr _ 5 2) with (digits2 m). change (substr _ 8 2) with (digits2 d).
  change (substr _ 11 2) with (digits2 hh). change (substr _ 14 2) with (digits2 mi). change (substr _ 17 2) with (digits2 ss).
  change (drop 19 _) with tail. change (length _ <? 19)%nat with false. cbn iota.
  change (Uuid.char_at _ 4) with "-"%char. change (Uuid.char_at _ 7) with "-"%char. change (Uuid.char_at _ 10) with "T"%char.
  change (Uuid.char_at _ 13) with ":"%char. change (Uuid.char_at _ 16) with ":"%char.
  change (negb (Ascii.eqb "-" "-") || negb (Ascii.eqb "-" "-")) with false. cbn iota. rewrite digits4_dec, !digits2_dec by lia. cbn [bind].
  rewrite (proj2 (Z.ltb_ge m 1)), (proj2 (Z.ltb_ge 12 m)), (proj2 (Z.ltb_ge d 1)), (proj2 (Z.ltb_ge 31 d)) by lia. cbn [orb].
  change (negb (Ascii.eqb "T" "T") && _ && _) with false. change (negb (Ascii.eqb ":" ":") || negb (Ascii.eqb ":" ":")) with false. cbn iota.
  rewrite (proj2 (Z.ltb_ge hh 0)), (proj2 (Z.ltb_ge 23 hh)), (proj2 (Z.ltb_ge mi 0)), (proj2 (Z.ltb_ge 59 mi)), (proj2 (Z.ltb_ge ss 0)), (proj2 (Z.ltb_ge 60 ss)) by lia.
  done.
Qed.

Lemma iso_roundtrip tp : iso_range tp -> from_iso8601 (to_iso8601 tp) = Ok (stored_us tp).
Proof.
  unfold iso_range, second_of, to_iso8601, stored_us. destruct (split_us (us_of tp)) as [sec frac] eqn:Hus. cbn [fst]. intros Hr.
  apply split_us_eq in Hus as [Hus Hf]. pose proof (split_day_range _ Hr) as Hday. unfold iso_seconds.
  destruct (split_day sec) as [days sod] eqn:Hsd. apply split_day_eq in Hsd as [Hsec Hsod]. cbn [fst] in Hday.
  destruct (civil_from_days days) as [[y m] d] eqn:Hc. pose proof (civil_year _ _ _ _ Hday Hc) as Hy.
  apply civil_roundtrip in Hc as (Hback & Hm & Hd).
  repeat (rewrite <- app_assoc; cbn [app]). rewrite from_iso_chars by (Z.to_euclidean_division_equations; lia).
  rewrite parse_fraction_iso by done. cbn [bind]. change (parse_zone ["Z"%char]) with (@Ok FilesExn Z 0). cbn [bind]. f_equal.
  rewrite Hback, Hus, Hsec. Z.to_euclidean_division_equations; lia.
Qed.

(** ** Time stamps are ordered like the seconds they lie in *)

Definition then_cmp (c d : comparison) : comparison := match c with Eq => d | _ => c end.

Lemma compare_app a b x y :
  length a = length b ->
  String.compare (of_chars (a ++ x)) (of_chars (b ++ y)) =
  then_cmp (String.compare (of_chars a) (of_chars b)) (String.compare (of_chars x) (of_chars y)).
Proof.
  revert b. induction a as [|c a IH]; intros [|e b] Hlen; try done.
  injection Hlen as Hlen. cbn. specialize (IH b Hlen). unfold of_chars in *. rewrite IH. by destruct (Ascii.compare c e).
Qed.

Lemma compare_cons c x y : String.compare (of_chars (c :: x)) (of_chars (c :: y)) = String.compare (of_chars x) (of_chars y).
Proof. cbn. unfold Ascii.compare. by rewrite N.compare_refl. Qed.

Lemma compare_digits2 a b :
  0 <= a < 100 -> 0 <= b < 100 -> String.compare (of_chars (digits2 a)) (of_chars (digits2 b)) = Z.compare a b.
Proof.
  intros Ha Hb. unfold digits2. rewrite compare_digits by (done || (repeat constructor; apply is_dec_mod)).
  f_equal; cbn; Z.to_euclidean_division_equations; lia.
Qed.

Lemma compare_digits4 a b :
  0 <= a < 10000 -> 0 <= b < 10000 -> String.compare (of_chars (digits4 a)) (of_chars (digits4 b)) = Z.compare a b.
Proof.
  intros Ha Hb. unfold digits4. rewrite compare_digits by (done || (repeat constructor; apply is_dec_mod)).
  f_equal; cbn; Z.to_euclidean_division_equations; lia.
Qed.

Lemma then_lt a b c : a < b \/ (a = b /\ c = Lt) -> then_cmp (Z.compare a b) c = Lt.
Proof. intros [H|[-> ->]]; [by rewrite (proj2 (Z.compare_lt_iff a b))|by rewrite Z.compare_refl]. Qed.

Lemma length_iso_seconds a b : length (iso_seconds a) = length (iso_seconds b).
Proof.
  unfold iso_seconds. destruct (split_day a) as [d1 s1], (split_day b) as [d2 s2].
  by destruct (civil_from_days d1) as [[? ?] ?], (civil_from_days d2) as [[? ?] ?].
Qed.

Lemma iso_seconds_lt a b :
  -719528 * 86400 <= a < 2932897 * 86400 -> -719528 * 86400 <= b < 2932897 * 86400 -> a < b ->
  String.compare (of_chars (iso_seconds a)) (of_chars (iso_seconds b)) = Lt.
Proof.
  intros Ha Hb Hab. pose proof (split_day_range _ Ha) as Hra. pose proof (split_day_range _ Hb) as Hrb. unfold iso_seconds.
  destruct (split_day a) as [d1 s1] eqn:H1, (split_day b) as [d2 s2] eqn:H2. apply split_day_eq in H1 as [H1 Hs1], H2 as [H2 Hs2].
  cbn [fst] in *. assert (Hkey : d1 < d2 -> date_key d1 < date_key d2) by apply date_key_lt. unfold date_key in Hkey.
  destruct (civil_from_days d1) as [[y1 m1] e1] eqn:Hc1, (civil_from_days d2) as [[y2 m2] e2] eqn:Hc2.
  pose proof (civil_year _ _ _ _ Hra Hc1). pose proof (civil_year _ _ _ _ Hrb Hc2).
  assert (Hsame : d1 = d2 -> y1 = y2 /\ m1 = m2 /\ e1 = e2) by (intros ->; rewrite Hc1 in Hc2; by injection Hc2).
  apply civil_roundtrip in Hc1 as (_ & ? & ?), Hc2 as (_ & ? & ?).
  rewrite !(compare_app (digits4 _)), !compare_cons, !(compare_app (digits2 _)), !compare_cons, !(compare_app (digits2 _)), !compare_cons,
    !(compare_app (digits2 _)), !compare_cons, !(compare_app (digits2 _)), !compare_cons by done.
  rewrite compare_digits4, !compare_digits2 by (Z.to_euclidean_division_equations; lia).
  assert (Hcase : d1 < d2 \/ (d1 = d2 /\ s1 < s2)) by lia. clear Ha Hb Hra Hrb H1 H2 Hab.
  destruct Hcase as [Hlt|[Heq Hlt]].
  - specialize (Hkey Hlt). clear Hsame Hlt.
    assert (y1 < y2 \/ (y1 = y2 /\ (m1 < m2 \/ (m1 = m2 /\ e1 < e2)))) as [?|[-> [?|[-> ?]]]] by lia; apply then_lt; auto;
      right; (split; [done|]); apply then_lt; auto; right; (split; [done|]); apply then_lt; auto.
  - destruct (Hsame Heq) as (-> & -> & ->). rewrite !Z.compare_refl. cbn [then_cmp].
    apply then_lt.
    destruct (Z.eq_dec (s1 / 3600) (s2 / 3600)) as [Hq|Hq]; [right; split; [exact Hq|]|left; Z.to_euclidean_division_equations; lia].
    apply then_lt. destruct (Z.eq_dec (s1 mod 3600 / 60) (s2 mod 3600 / 60)) as [Hp|Hp]; [right; split; [exact Hp|]|left]; [apply Z.compare_lt_iff|];
      Z.to_euclidean_division_equations; lia.
Qed.

(** The text of a time in an earlier second comes first. *)
Lemma iso_lt a b :
  iso_range a -> iso_range b -> second_of a < second_of b -> String.compare (to_iso8601 a) (to_iso8601 b) = Lt.
Proof.
  unfold iso_range, second_of, to_iso8601. destruct (split_us (us_of a)) as [s1 f1], (split_us (us_of b)) as [s2 f2]. cbn [fst].
  intros Ha Hb Hab. rewrite compare_app by apply length_iso_seconds. by rewrite iso_seconds_lt.
Qed.

Lemma iso_le_second a b :
  iso_range a -> iso_range b -> String.leb (to_iso8601 a) (to_iso8601 b) = true -> second_of a <= second_of b.
Proof.
  intros Ha Hb Hle. destruct (Z.le_gt_cases (second_of a) (second_of b)); [done|].
  assert (Hlt : String.compare (to_iso8601 b) (to_iso8601 a) = Lt) by by apply iso_lt.
  unfold String.leb in Hle. rewrite String.compare_antisym, Hlt in Hle. done.
Qed.

Lemma iso_lt_leb a b :
  iso_range a -> iso_range b -> second_of a < second_of b -> String.leb (to_iso8601 a) (to_iso8601 b) = true.
Proof. intros. unfold String.leb. by rewrite iso_lt. Qed.

(** ** Bytes survive *)

Lemma hex_pairs_text bytes : Forall Uuid.is_byte bytes -> hex_pairs (hex_text bytes) = Some bytes.
Proof.
  induction 1 as [|b bytes Hb _ IH]; [done|]. cbn [hex_text hex_digits app hex_pairs].
  assert (H : let hi := Uuid.hex_val (Uuid.hex_digit (Z.land (Z.shiftr b 4) 15)) in let lo := Uuid.hex_val (Uuid.hex_digit (Z.land b 15)) in
    negb ((hi <? 0) || (lo <? 0)) && (wrap 8 (Z.lor (Z.shiftl hi 4) lo) =? b) = true).
  { revert Hb. apply (Uuid.byte_check (fun b => let hi := Uuid.hex_val (Uuid.hex_digit (Z.land (Z.shiftr b 4) 15)) in let lo := Uuid.hex_val (Uuid.hex_digit (Z.land b 15)) in
    negb ((hi <? 0) || (lo <? 0)) && (wrap 8 (Z.lor (Z.shiftl hi 4) lo) =? b))). vm_compute. reflexivity. }
  cbv zeta in *. apply andb_true_iff in H as [Hn Hv]. apply negb_true_iff in Hn. apply Z.eqb_eq in Hv. by rewrite Hn, IH, Hv.
Qed.

Lemma bytea_roundtrip bytes : Forall Uuid.is_byte bytes -> from_bytea_hex (to_bytea_hex bytes) = Ok bytes.
Proof.
  intros Hb. unfold from_bytea_hex, to_bytea_hex. rewrite chars_of_chars. cbn [strip_prefix].
  change (Ascii.eqb "\" "\" && Ascii.eqb "x" "x") with true. cbn iota. by rewrite hex_pairs_text.
Qed.

(** C36.  Numbers, times of the years 0 to 9999 and bytes written to the database are read
    back, times to the microsecond; and the text of a time in an earlier second sorts
    before that of a later one. *)
Theorem database_text_roundtrip :
  (forall z, in_i64 z -> stoll (to_decimal z) = Ok z) /\
  (forall tp, iso_range tp -> from_iso8601 (to_iso8601 tp) = Ok (stored_us tp)) /\
  (forall bytes, Forall Uuid.is_byte bytes -> from_bytea_hex (to_bytea_hex bytes) = Ok bytes) /\
  (forall a b, iso_range a -> iso_range b -> second_of a < second_of b -> String.ltb (to_iso8601 a) (to_iso8601 b) = true).
Proof.
  split_and!; [apply stoll_to_decimal|apply iso_roundtrip|apply bytea_roundtrip|].
  intros a b Ha Hb Hab. unfold String.ltb. by rewrite iso_lt.
Qed.

Lemma database_text_roundtrip_witness :
  stoll (to_decimal (-42)) = Ok (-42) /\
  from_iso8601 (to_iso8601 1700000000123456789) = Ok 1700000000123456000 /\ from_bytea_hex (to_bytea_hex [0; 171; 255]) = Ok [0; 171; 255] /\
  String.ltb (to_iso8601 1700000000999999000) (to_iso8601 1700000001000000000) = true.
Proof.
  pose proof database_text_roundtrip as (H1 & H2 & H3 & H4).
  split_and!; [apply H1; by vm_compute|apply (H2 1700000000123456789); by vm_compute|apply H3; repeat constructor; by vm_compute|apply H4; by vm_compute].
Defined.
