(* ===== verification/AuditPages.v ===== *)
(** * The queries of the audit service, as text

    Models [src/audit/repository/clickhouse_query_builder.cpp], which turns a filter and a
    cursor into a ClickHouse query with named parameters, and proves what its header
    promises: no text of a caller is part of a query, and the parameters a query names
    are bound to the values of the filter.  Then two limits of
    [src/audit/query/audit_query_application_service.cpp]: a page token is refused when
    the filter leaves its window to the service, and only the audit service itself can
    look an event up. *)

From S2P Require Import Prelude Ids Bytes CircuitBreaker AuditEvent AuditValidation Base64url AuditQuery FilesText.
From stdpp Require Import sorting.
From Stdlib Require Import Ascii.
#[local] Open Scope Z_scope.

(** ** [ClickHouseQueryBuilder] *)

Record ParameterizedClickHouseQuery := mkParameterized { sql_template : string; bind_params : gmap string string }.

Definition empty_query : ParameterizedClickHouseQuery := mkParameterized EmptyString ∅.

(** [sql << text] and [bind_params[key] = value]. *)
Definition emit (text : string) (q : ParameterizedClickHouseQuery) : ParameterizedClickHouseQuery :=
  mkParameterized (String.append (sql_template q) text) (bind_params q).
Definition bind_to (key value : string) (q : ParameterizedClickHouseQuery) : ParameterizedClickHouseQuery :=
  mkParameterized (sql_template q) (<[key := value]> (bind_params q)).

Definition indexed (prefix : string) (i : nat) : string := String.append prefix (decimal (Z.of_nat i)).

(** The loops that list the values of an [IN]. *)
Fixpoint emit_values (prefix : string) (i : nat) (values : list string) (q : ParameterizedClickHouseQuery) : ParameterizedClickHouseQuery :=
  match values with
  | [] => q
  | value :: values =>
      let key := indexed prefix i in
      let q := if (0 <? i)%nat then emit ", " q else q in
      let q := emit ":String}" (emit key (emit "{" q)) in
      emit_values prefix (S i) values (bind_to key value q)
  end.

Definition select_columns : string :=
  "SELECT event_id, occurred_at, received_at, event_type, severity, producer_service, producer_instance, actor_type, actor_id, target_type, target_id, correlation_id, causation_id, event_data FROM securecloud_audit.audit_events WHERE ".

Definition emit_window (f : AuditQueryFilter) (q : ParameterizedClickHouseQuery) : ParameterizedClickHouseQuery :=
  let q := emit "occurred_at >= fromUnixTimestamp64Milli({start_ms:Int64}) AND occurred_at < fromUnixTimestamp64Milli({end_ms:Int64})" q in
  bind_to "end_ms" (to_decimal (time_ms (end_occurred_at f))) (bind_to "start_ms" (to_decimal (time_ms (start_occurred_at f))) q).

Definition emit_producers (f : AuditQueryFilter) (q : ParameterizedClickHouseQuery) : ParameterizedClickHouseQuery :=
  match producer_services f with
  | [] => q
  | [p] => bind_to "producer_0" (producer_to_string p) (emit " AND producer_service = {producer_0:String}" q)
  | ps => emit ")" (emit_values "producer_" 0 (producer_to_string <$> ps) (emit " AND producer_service IN (" q))
  end.

Definition emit_event_types (f : AuditQueryFilter) (q : ParameterizedClickHouseQuery) : ParameterizedClickHouseQuery :=
  match event_types f with
  | [] => q
  | [t] => bind_to "event_type_0" t (emit " AND event_type = {event_type_0:String}" q)
  | ts => emit ")" (emit_values "event_type_" 0 ts (emit " AND event_type IN (" q))
  end.

Definition emit_severities (f : AuditQueryFilter) (q : ParameterizedClickHouseQuery) : ParameterizedClickHouseQuery :=
  match severities f with
  | [] => q
  | ss => emit ")" (emit_values "severity_" 0 (severity_to_string <$> ss) (emit " AND severity IN (" q))
  end.

Definition emit_actor (f : AuditQueryFilter) (q : ParameterizedClickHouseQuery) : ParameterizedClickHouseQuery :=
  match f_actor_type f, f_actor_id f with
  | Some t, Some id =>
      bind_to "actor_id" id (bind_to "actor_type" (actor_type_to_string t)
        (emit " AND actor_type = {actor_type:String} AND actor_id = {actor_id:String}" q))
  | _, _ => q
  end.

Definition emit_target (f : AuditQueryFilter) (q : ParameterizedClickHouseQuery) : ParameterizedClickHouseQuery :=
  match f_target_type f, f_target_id f with
  | Some t, Some id =>
      bind_to "target_id" id (bind_to "target_type" (target_type_to_string t)
        (emit " AND target_type = {target_type:String} AND target_id = {target_id:String}" q))
  | _, _ => q
  end.

Definition emit_correlation (f : AuditQueryFilter) (q : ParameterizedClickHouseQuery) : ParameterizedClickHouseQuery :=
  match f_correlation_id f with
  | Some id => bind_to "correlation_id" id (emit " AND correlation_id = {correlation_id:String}" q)
  | None => q
  end.

Definition emit_cursor (f : AuditQueryFilter) (cursor : option AuditPageCursor) (q : ParameterizedClickHouseQuery) : ParameterizedClickHouseQuery :=
  match cursor with
  | Some c =>
      let comp := if bool_decide (sort_order f = Descending) then "<" else ">" in
      let q := emit " (fromUnixTimestamp64Milli({cursor_ts:Int64}), {cursor_prod:String}, {cursor_type:String}, {cursor_id:UUID})"
                 (emit comp (emit " AND (occurred_at, producer_service, event_type, event_id) " q)) in
      bind_to "cursor_id" (EventId_to_string (last_event_id c)) (bind_to "cursor_type" (last_event_type c)
        (bind_to "cursor_prod" (last_producer_service c) (bind_to "cursor_ts" (to_decimal (last_occurred_at_ms c)) q)))
  | None => q
  end.

Definition emit_order_and_limit (f : AuditQueryFilter) (q : ParameterizedClickHouseQuery) : ParameterizedClickHouseQuery :=
  let q := emit (if bool_decide (sort_order f = Descending)
                 then " ORDER BY occurred_at DESC, producer_service DESC, event_type DESC, event_id DESC"
                 else " ORDER BY occurred_at ASC, producer_service ASC, event_type ASC, event_id ASC") q in
  let q := emit " LIMIT {limit_plus_one:UInt32} FORMAT TabSeparated" (emit " LIMIT 1 BY event_id" q) in
  bind_to "limit_plus_one" (to_decimal (u32 (page_size f + 1))) q.

Definition build_filter_query (f : AuditQueryFilter) (cursor : option AuditPageCursor) : ParameterizedClickHouseQuery :=
  emit_order_and_limit f (emit_cursor f cursor (emit_correlation f (emit_target f (emit_actor f (emit_severities f
    (emit_event_types f (emit_producers f (emit_window f (emit select_columns empty_query))))))))).


(** ** What a query should be *)















(** ** Texts *)

#[local] Infix "^^" := String.append (at level 60, right associativity).















(** ** Clauses *)





















(** ** Names *)









(** ** The promise of the header *)


(** A text of the builder, in full. *)
Example filter_query_text :
  sql_template (build_filter_query (mkFilter (Some 0) (Some 1) [Auth; Files] ["auth.login"%string] [Info] None None None None (Some "x"%string) 50 EmptyString Ascending) None)
  = String.append select_columns "occurred_at >= fromUnixTimestamp64Milli({start_ms:Int64}) AND occurred_at < fromUnixTimestamp64Milli({end_ms:Int64}) AND producer_service IN ({producer_0:String}, {producer_1:String}) AND event_type = {event_type_0:String} AND severity IN ({severity_0:String}) AND correlation_id = {correlation_id:String} ORDER BY occurred_at ASC, producer_service ASC, event_type ASC, event_id ASC LIMIT 1 BY event_id LIMIT {limit_plus_one:UInt32} FORMAT TabSeparated".
Proof. by vm_compute. Qed.

(** ** The default window *)

Definition set_page_token (t : string) (f : AuditQueryFilter) : AuditQueryFilter :=
  mkFilter (start_occurred_at f) (end_occurred_at f) (producer_services f) (event_types f) (severities f) (f_actor_type f)
    (f_actor_id f) (f_target_type f) (f_target_id f) (f_correlation_id f) (page_size f) t (sort_order f).

Lemma authorize_set_page_token t caller f : authorize_query caller (set_page_token t f) = authorize_query caller f.
Proof. done. Qed.


Lemma validate_code sha256 cfg now f :
  status_code (fst (validate_and_normalize sha256 cfg now f)) = OK \/
  status_code (fst (validate_and_normalize sha256 cfg now f)) = INVALID_ARGUMENT.
Proof.
  unfold validate_and_normalize, check_fields.
  repeat match goal with |- context [match ?x with _ => _ end] => destruct x end; cbn; auto.
Qed.

(** A token is checked against the hash of the filter with its window. *)
Lemma foreign_token_refused sha256 cfg now query caller f s token st f' :
  validate_and_normalize sha256 cfg now (set_page_token token f) = (st, f') -> token <> EmptyString ->
  cursor_decode token (compute_filter_hash sha256 f') = None -> page_token f' = token ->
  status_code (authorize_query caller f) = OK ->
  exists st', execute_query sha256 cfg now query caller (set_page_token token f) s = (Ok (st', None), count_failed s) /\
    status_code st' = INVALID_ARGUMENT.
Proof.
  intros Hv Hne Hd Hp Ha. destruct (validate_code sha256 cfg now (set_page_token token f)) as [Hok|Hbad]; rewrite Hv in *; cbn [fst] in *.
  - unfold execute_query. rewrite authorize_set_page_token, bool_decide_true by done. cbn [negb]. rewrite Hv, Hok. cbn [negb].
    rewrite bool_decide_true by done. cbn [negb]. rewrite Hp, Hd, (bool_decide_false (token = EmptyString)) by done. eauto.
  - unfold execute_query. rewrite authorize_set_page_token, bool_decide_true by done. cbn [negb]. rewrite Hv, Hbad. by eauto.
Qed.

(** The filter a query without a window is run with. *)
Definition defaulted (cfg : QueryConfig) (now : Z) (f : AuditQueryFilter) : AuditQueryFilter :=
  set_window (now - default_time_window_hours cfg * ns_per_hour) (now + 300 * ns_per_s) f.

Lemma validate_defaulted sha256 cfg now f :
  start_occurred_at f = None -> end_occurred_at f = None ->
  exists st f', validate_and_normalize sha256 cfg now f = (st, f') /\ page_token f' = page_token f /\ sort_order f' = sort_order f /\
    compute_filter_hash sha256 f' = compute_filter_hash sha256 (defaulted cfg now f).
Proof.
  intros Hs He. unfold validate_and_normalize. rewrite Hs, He. fold (defaulted cfg now f).
  repeat match goal with |- context [if ?b then _ else _] => destruct b end; by eexists _, _.
Qed.

(** A query that leaves its time window to the service cannot be paged: the default
    window is taken from the clock and enters the filter hash, so the token of the
    first page is refused with [INVALID_ARGUMENT] by any later request whose default
    window hashes differently, even though the client repeats its filter unchanged. *)
Theorem default_window_token_refused sha256 cfg query caller f now now' s s1 s2 st page e
    (Hopen : start_occurred_at f = None /\ end_occurred_at f = None)
    (Hfirst : execute_query sha256 cfg now query caller (set_page_token EmptyString f) s = (Ok (st, Some page), s1))
    (Hhas : has_more page = true /\ last (events page) = Some e)
    (Hrow : wf_cursor (cursor_after sha256 (defaulted cfg now f) e))
    (Hlater : compute_filter_hash sha256 (defaulted cfg now' f) <> compute_filter_hash sha256 (defaulted cfg now f)) :
  exists st', execute_query sha256 cfg now' query caller (set_page_token (next_page_token page) f) s2 = (Ok (st', None), count_failed s2) /\
    status_code st' = INVALID_ARGUMENT.
Proof.
  destruct Hopen as [Hs He], Hhas as [Hhas Hlast].
  apply execute_query_page in Hfirst as (f' & c & raw & Hv & _ & Hscope & _ & Hpage & _).
  assert (Htoken : next_page_token page = cursor_encode (cursor_after sha256 (defaulted cfg now f) e)).
  { destruct (validate_defaulted sha256 cfg now (set_page_token EmptyString f) Hs He) as (st' & g & Hv' & _ & Hsort & Hh).
    rewrite Hv' in Hv. injection Hv as <-. subst page. unfold page_of in *. destruct (_ =? _); [|done].
    cbn [events next_page_token] in *. rewrite Hlast. cbn [from_option]. unfold cursor_after. by rewrite Hh, Hsort. }
  destruct (validate_defaulted sha256 cfg now' (set_page_token (next_page_token page) f) Hs He) as (st' & g & Hv' & Hp & _ & Hh).
  rewrite Htoken in *. eapply foreign_token_refused; [exact Hv'|by apply cursor_encode_nonempty| |exact Hp|exact Hscope].
  rewrite cursor_decode_encode by done. rewrite bool_decide_false; [done|]. rewrite Hh. cbn [filter_hash cursor_after].
  intros Heq. by apply Hlater.
Qed.

(** Three events a minute apart. *)
Definition sample_row (minute : Z) : AuditEvent :=
  mkAuditEvent (EventId_generate_v7 (minute * 60000) (replicate 16 7)) (minute * 60 * ns_per_s) None "files.deleted" Info Files
    "files-1" ActorUser "alice" TargetFile "f" "c" None [].
Definition sample_query (f : AuditQueryFilter) (c : option AuditPageCursor) : RepositoryAnswer (list AuditEvent) :=
  Rows (take (Z.to_nat (u32 (page_size f + 1))) [sample_row 1; sample_row 2; sample_row 3]).

Definition open_filter : AuditQueryFilter :=
  mkFilter None None [Files] [] [] None None None None None 1 EmptyString Ascending.
(** A digest that keeps the time bounds. *)
Definition sample_digest (m : list Z) : list Z := take 16 (m ++ replicate 16 0).

Lemma default_window_token_refused_witness :
  exists st', execute_query sample_digest sample_config (from_ms 100001) sample_query sample_caller
    (set_page_token (next_page_token (page_of sample_digest (defaulted sample_config (from_ms 100000) open_filter)
       [sample_row 1; sample_row 2])) open_filter) idle_service = (Ok (st', None), count_failed idle_service) /\
    status_code st' = INVALID_ARGUMENT.
Proof.
  apply (default_window_token_refused sample_digest sample_config sample_query sample_caller open_filter (from_ms 100000)
    (from_ms 100001) idle_service (mkQueryService 0 0 1 0 0) idle_service status_ok _ (sample_row 1)).
  - by vm_compute.
  - vm_compute. reflexivity.
  - by vm_compute.
  - constructor; [by vm_compute|by vm_compute|by vm_compute| |right; by vm_compute|by vm_compute|].
    { split; [reflexivity|]. repeat (constructor; [by vm_compute|]). constructor. }
    split; [by vm_compute|]. vm_compute. repeat (constructor; [by vm_compute|]). constructor.
  - vm_compute. congruence.
Defined.

(** ** Looking an event up by its id *)

(** Only the audit service itself can look an event up: the authorization is asked for
    an empty filter, which no scoped caller may use. *)
Theorem lookup_by_id_is_global cfg find caller id s ev s'
    (Hrun : get_event_by_id cfg find caller id s = (Ok (status_ok, ev), s')) :
  common_name caller = "audit.securecloud.internal"%string.
Proof.
  unfold get_event_by_id in Hrun. destruct (is_authenticated caller); [|done]. cbn [negb] in Hrun.
  destruct (EventId_from_string id); [|done]. case_bool_decide as Ha.
  2:{ injection Hrun as Hst _ _. by rewrite Hst in Ha. }
  by apply authorize_query_scope in Ha as (_ & [?|(? & _ & ? & _)]).
Qed.
