(* ===== verification/FilesValidation.v ===== *)
(** * Files: validation of requests, chunks and ranges

    Models [src/files/domain/metadata_validator.cpp], [chunk_validator.cpp],
    [download_validator.cpp] and [finalization_validator.cpp].  A validator answers
    [Ok] or the message it refuses with, without the values the code prints into it.
    The JSON parser is an argument, and so is SHA-256. *)

From S2P Require Import Prelude Ids Bytes AuditValidation FilesTypes.
From Stdlib Require Import Ascii.
From stdpp Require Import sorting.

#[local] Open Scope Z_scope.

(** ** Identifiers, digests and sizes *)

Definition k_max_file_size_bytes : Z := 5 * 1024 * 1024 * 1024.
Definition k_standard_chunk_size : Z := 4 * 1024 * 1024.
Definition k_xchacha20_nonce_bytes : nat := 24.
Definition k_poly1305_tag_bytes : nat := 16.
Definition k_approved_encryption_algorithm : string := "XChaCha20-Poly1305".
Definition k_max_chunk_size : Z := 8 * 1024 * 1024.
Definition k_min_chunk_size : Z := 1.

Definition is_empty (s : string) : bool := bool_decide (s = EmptyString).

Definition is_valid_uuid (str : string) : bool :=
  let sv := chars str in
  (length sv =? 36)%nat &&
  forallb (fun i => if Uuid.dash_at i then Ascii.eqb (Uuid.char_at sv i) "-" else 0 <=? Uuid.hex_val (Uuid.char_at sv i)) (seq 0 36).

Definition is_valid_sha256_hex (hex_str : string) : bool :=
  (length (chars hex_str) =? 64)%nat && forallb (fun c => 0 <=? Uuid.hex_val c) (chars hex_str).

Definition calculate_expected_chunk_count (file_size_bytes chunk_size : Z) : Z :=
  if (file_size_bytes =? 0) || (chunk_size =? 0) then 0
  else u32 (u64 (file_size_bytes + chunk_size - 1) / chunk_size).

(** The comparisons of digests that ignore case. *)
Definition hashes_equal (a b : string) : bool :=
  bool_decide (length (chars a) = length (chars b)) && bool_decide (Uuid.lower <$> chars a = Uuid.lower <$> chars b).

(** [generate_uuid_v7]: the clock and the random bytes are its inputs. *)
Definition generate_uuid_v7 (now : Z) (rand_bytes : list Z) : string := Uuid.to_string (Uuid.generate_v7 (to_ms now) rand_bytes).

(** ** Requests *)

Record CreateFileRequestDto := mkCreateFile {
  cf_file_id : string; cf_owner_user_id : string; cf_owner_device_id : string; cf_conversation_id : option string;
  cf_encrypted_size_bytes : Z; cf_expected_chunk_count : Z; cf_encryption_algorithm : string;
  cf_encrypted_filename : list Z; cf_encrypted_mime_type : option (list Z); cf_metadata_nonce : list Z;
  cf_metadata_tag : list Z; cf_client_encryption_metadata_json : string; cf_retention_until : option Z }.

Record CreateFileVersionRequestDto := mkCreateVersion {
  cv_file_id : string; cv_version_number : Z; cv_encrypted_size_bytes : Z; cv_minio_object_key : string;
  cv_checksum_sha256 : string }.

Definition validate_create_file_request (dto : CreateFileRequestDto) (now : Z) : result string unit :=
  if negb (is_valid_uuid (cf_file_id dto)) then Err "file_id is not a valid UUIDv7 format"
  else if negb (is_valid_uuid (cf_owner_user_id dto)) then Err "owner_user_id is not a valid UUID format"
  else if negb (is_valid_uuid (cf_owner_device_id dto)) then Err "owner_device_id is not a valid UUID format"
  else if negb (from_option is_valid_uuid true (cf_conversation_id dto)) then Err "conversation_id is not a valid UUID format"
  else if cf_encrypted_size_bytes dto =? 0 then Err "encrypted_size_bytes must be greater than zero"
  else if k_max_file_size_bytes <? cf_encrypted_size_bytes dto then Err "encrypted_size_bytes exceeds maximum allowed limit (5 GiB)"
  else if negb (cf_expected_chunk_count dto =? calculate_expected_chunk_count (cf_encrypted_size_bytes dto) k_standard_chunk_size)
  then Err "expected_chunk_count does not match calculated count"
  else if negb (bool_decide (cf_encryption_algorithm dto = k_approved_encryption_algorithm)) then Err "Unsupported encryption_algorithm"
  else if bool_decide (cf_encrypted_filename dto = []) then Err "encrypted_filename must not be empty"
  else if negb (length (cf_metadata_nonce dto) =? k_xchacha20_nonce_bytes)%nat then Err "metadata_nonce must be exactly 24 bytes (XChaCha20 nonce)"
  else if negb (length (cf_metadata_tag dto) =? k_poly1305_tag_bytes)%nat then Err "metadata_tag must be exactly 16 bytes (Poly1305 tag)"
  else if from_option (fun until => until <=? now) false (cf_retention_until dto) then Err "retention_until must be in the future"
  else Ok tt.

Definition validate_create_version_request (dto : CreateFileVersionRequestDto) : result string unit :=
  if negb (is_valid_uuid (cv_file_id dto)) then Err "file_id is not a valid UUIDv7 format"
  else if cv_version_number dto <=? 0 then Err "version_number must be greater than zero"
  else if cv_encrypted_size_bytes dto =? 0 then Err "encrypted_size_bytes must be greater than zero"
  else if k_max_file_size_bytes <? cv_encrypted_size_bytes dto then Err "encrypted_size_bytes exceeds maximum allowed limit (5 GiB)"
  else if is_empty (cv_minio_object_key dto) then Err "minio_object_key must not be empty"
  else if contains (chars "..") (chars (cv_minio_object_key dto)) || Ascii.eqb (Uuid.char_at (chars (cv_minio_object_key dto)) 0) "/"
  then Err "minio_object_key contains invalid path traversal or leading slash"
  else if negb (is_valid_sha256_hex (cv_checksum_sha256 dto)) then Err "checksum_sha256 must be a valid 64-hex SHA-256 digest"
  else Ok tt.

(** ** The metadata a client encrypted *)

Fixpoint decode_hex_chars (s : list ascii) : option (list Z) :=
  match s with
  | [] => Some []
  | h :: l :: s =>
      let hi := Uuid.hex_val h in
      let lo := Uuid.hex_val l in
      if (hi <? 0) || (lo <? 0) then None
      else bs ← decode_hex_chars s; Some (wrap 8 (Z.lor (Z.shiftl hi 4) lo) :: bs)
  | _ => None
  end.
Definition decode_hex (hex_str : string) : option (list Z) := decode_hex_chars (chars hex_str).

(** A JSON object as the code reads it: the members that are strings, and how
    [dump] prints it. *)
Record JsonObject := mkJson { json_string : string -> option string; json_dump : string }.

Section unpack.
Context (parse_json : list Z -> option JsonObject).

(** What the fields of the object do to the request: [Err] refuses it; [true] means
    that a required field was found. *)
Definition unpack_hex (j : JsonObject) (key fallback : string) : result string (option (list Z)) :=
  match json_string j key with
  | Some hex => match decode_hex hex with Some bytes => Ok (Some bytes) | None => Err "Invalid hex" end
  | None => match json_string j fallback with Some hex => Ok (decode_hex hex) | None => Ok None end
  end.

Definition unpack_packed (raw : list Z) (dto : CreateFileRequestDto) : result string CreateFileRequestDto :=
  if (k_xchacha20_nonce_bytes + k_poly1305_tag_bytes + 1 <=? length raw)%nat then
    Ok (mkCreateFile (cf_file_id dto) (cf_owner_user_id dto) (cf_owner_device_id dto) (cf_conversation_id dto)
          (cf_encrypted_size_bytes dto) (cf_expected_chunk_count dto) (cf_encryption_algorithm dto)
          (drop (k_xchacha20_nonce_bytes + k_poly1305_tag_bytes) raw) (cf_encrypted_mime_type dto)
          (take k_xchacha20_nonce_bytes raw) (take k_poly1305_tag_bytes (drop k_xchacha20_nonce_bytes raw)) "{}"
          (cf_retention_until dto))
  else Err "Malformed client_crypto_metadata: payload is neither valid JSON nor valid packed binary format".

(** The fields that were found before the fallback stay in the request. *)
Definition unpack_client_crypto_metadata (raw : list Z) (dto : CreateFileRequestDto) : result string CreateFileRequestDto :=
  if bool_decide (raw = []) then Err "client_crypto_metadata payload is empty"
  else
    match parse_json raw with
    | None => unpack_packed raw dto
    | Some j =>
        let? filename := unpack_hex j "encrypted_filename_hex" "encrypted_filename" in
        let? mime :=
          match json_string j "encrypted_mime_type_hex" with
          | Some hex => match decode_hex hex with Some bytes => Ok (Some bytes) | None => Err "Invalid hex" end
          | None => Ok None
          end in
        let? nonce := unpack_hex j "metadata_nonce_hex" "nonce_hex" in
        let? tag := unpack_hex j "metadata_tag_hex" "tag_hex" in
        let found_fields := bool_decide (is_Some filename) || bool_decide (is_Some nonce) || bool_decide (is_Some tag) in
        let dto :=
          mkCreateFile (cf_file_id dto) (cf_owner_user_id dto) (cf_owner_device_id dto) (cf_conversation_id dto)
            (cf_encrypted_size_bytes dto) (cf_expected_chunk_count dto) (cf_encryption_algorithm dto)
            (default (cf_encrypted_filename dto) filename)
            (match mime with Some m => Some m | None => cf_encrypted_mime_type dto end)
            (default (cf_metadata_nonce dto) nonce) (default (cf_metadata_tag dto) tag)
            (if found_fields then json_dump j else cf_client_encryption_metadata_json dto) (cf_retention_until dto) in
        if found_fields then Ok dto else unpack_packed raw dto
    end.
End unpack.

(** ** Chunks *)

Record ChunkPayloadDto := mkChunkPayload {
  cp_upload_id : string; cp_chunk_index : Z; cp_encrypted_data : list Z; cp_chunk_size_bytes : Z; cp_claimed_sha256 : string }.

Section hashing.
Context (sha256 : list Z -> list Z).

Definition compute_sha256_hex (data : list Z) : string :=
  of_chars (flat_map (fun b => [Uuid.hex_digit (Z.land (Z.shiftr b 4) 15); Uuid.hex_digit (Z.land b 15)]) (sha256 data)).

Definition bytes_size (data : list Z) : Z := Z.of_nat (length data).

Definition validate_chunk_payload (dto : ChunkPayloadDto) (total_chunks total_file_size_bytes : Z) : result string string :=
  if negb (is_valid_uuid (cp_upload_id dto)) then Err "upload_id must be a valid RFC 4122 / UUIDv7 string"
  else if total_chunks =? 0 then Err "total_chunks must be greater than zero"
  else if total_chunks <=? cp_chunk_index dto then Err "chunk_index is out of bounds for total_chunks"
  else if negb (cp_chunk_size_bytes dto =? bytes_size (cp_encrypted_data dto)) then Err "chunk_size_bytes does not match encrypted_data size"
  else if cp_chunk_size_bytes dto <? k_min_chunk_size then Err "chunk_size_bytes must be at least 1 byte"
  else if k_max_chunk_size <? cp_chunk_size_bytes dto then Err "chunk_size_bytes exceeds maximum allowed chunk size of 8 MiB"
  else
    let? _ :=
      (if cp_chunk_index dto <? total_chunks - 1 then
         if negb (cp_chunk_size_bytes dto =? k_standard_chunk_size) then Err "Non-terminal chunk size must equal standard chunk size of 4 MiB"
         else Ok tt
       else
         let prior_bytes := u64 (cp_chunk_index dto * k_standard_chunk_size) in
         if total_file_size_bytes <? prior_bytes then Err "total_file_size_bytes is less than cumulative chunk offset"
         else if negb (cp_chunk_size_bytes dto =? total_file_size_bytes - prior_bytes)
         then Err "Terminal chunk size does not match expected remaining size"
         else Ok tt) in
    if negb (is_valid_sha256_hex (cp_claimed_sha256 dto)) then Err "claimed_sha256 must be a 64-character hexadecimal string"
    else
      let computed_hash := compute_sha256_hex (cp_encrypted_data dto) in
      if negb (hashes_equal (cp_claimed_sha256 dto) computed_hash) then Err "Cryptographic SHA-256 digest mismatch"
      else Ok computed_hash.
End hashing.

(** ** Ranges of a download *)

Record ChunkByteRange := mkRange { start_byte : Z; end_byte : Z; range_size : Z; range_total_chunks : Z }.

Definition calculate_chunk_byte_range (total_file_size chunk_index standard_chunk_size : Z) : option ChunkByteRange :=
  if standard_chunk_size =? 0 then None
  else if total_file_size =? 0 then (if chunk_index =? 0 then Some (mkRange 0 0 0 0) else None)
  else
    let total_chunks := u32 (u64 (total_file_size + standard_chunk_size - 1) / standard_chunk_size) in
    if total_chunks <=? chunk_index then None
    else
      let start_byte := u64 (chunk_index * standard_chunk_size) in
      let end_byte := Z.min (u64 (start_byte + standard_chunk_size - 1)) (u64 (total_file_size - 1)) in
      Some (mkRange start_byte end_byte (u32 (end_byte - start_byte + 1)) total_chunks).

Record DownloadValidationInput := mkDownloadInput {
  dl_file_id : string; dl_requested_version : Z; dl_chunk_index : Z; dl_file : FileEntity;
  dl_version : option FileVersionEntity; dl_caller_user_id : string; dl_has_read_permission : bool }.

(** The refusal the caller tells apart by the text of its message. *)
Inductive DownloadRefusal := ChunkOutOfBounds | DownloadRefused (message : string).

Definition validate_download_preconditions (input : DownloadValidationInput) : result DownloadRefusal unit :=
  let file := dl_file input in
  if negb (is_valid_uuid (dl_file_id input)) then Err (DownloadRefused "Invalid file_id format")
  else if is_empty (file_id file) || negb (bool_decide (file_id file = dl_file_id input))
  then Err (DownloadRefused "File record does not match requested file_id")
  else
    let is_owner := negb (is_empty (dl_caller_user_id input)) && bool_decide (dl_caller_user_id input = owner_user_id file) in
    if negb is_owner && negb (dl_has_read_permission input) then Err (DownloadRefused "Caller lacks READ authorization for file")
    else if negb (bool_decide (file_status file = FileStatus.Available)) then Err (DownloadRefused "File is not available for download")
    else
      match dl_version input with
      | None => Err (DownloadRefused "File version snapshot not found")
      | Some version =>
          if (0 <? dl_requested_version input) && negb (version_number version =? dl_requested_version input)
          then Err (DownloadRefused "Requested version does not match retrieved snapshot version")
          else
            match calculate_chunk_byte_range (u64 (version_size version)) (dl_chunk_index input) k_standard_chunk_size with
            | None => Err ChunkOutOfBounds
            | Some _ => Ok tt
            end
      end.

(** ** Preconditions of finalization *)

Definition chunk_le (a b : FileChunkEntity) : Prop := chunk_index a <= chunk_index b.
#[global] Instance chunk_le_dec : RelDecision chunk_le.
Proof. intros a b. unfold chunk_le. apply _. Defined.
#[global] Instance chunk_le_total : Total chunk_le.
Proof. intros a b. unfold chunk_le. lia. Qed.
#[global] Instance chunk_le_trans : Transitive chunk_le.
Proof. intros a b c. unfold chunk_le. lia. Qed.

Definition sort_chunks (chunks : list FileChunkEntity) : list FileChunkEntity := merge_sort chunk_le chunks.

Record FinalizationValidationInput := mkFinalizationInput {
  fin_transfer : FileTransferEntity; fin_file : FileEntity; fin_chunks : list FileChunkEntity; fin_expected_sha256 : string }.

(** The loop over the sorted chunks from index [i] on, with the bytes so far. *)
Fixpoint check_chunks (total_bytes i accumulated_bytes : Z) (sorted_chunks : list FileChunkEntity) : result string Z :=
  match sorted_chunks with
  | [] => Ok accumulated_bytes
  | chunk :: sorted_chunks =>
      if (chunk_index chunk <? 0) || negb (chunk_index chunk =? i) then Err "Missing chunk"
      else if is_empty (minio_chunk_key chunk) then Err "Chunk has missing or empty storage key"
      else if negb (is_valid_sha256_hex (chunk_hash_sha256 chunk)) then Err "Chunk has invalid SHA-256 digest format"
      else if (chunk_size chunk =? 0) && (0 <? total_bytes) then Err "Chunk has invalid zero chunk_size for non-empty transfer"
      else if chunk_size chunk <? 0 then Err "Chunk has negative chunk_size"
      else check_chunks total_bytes (i + 1) (u64 (accumulated_bytes + chunk_size chunk)) sorted_chunks
  end.

Definition validate_finalization_preconditions (input : FinalizationValidationInput) : result string unit :=
  let transfer := fin_transfer input in
  let file := fin_file input in
  let created_empty := total_chunks transfer =? 0 in
  if is_empty (transfer_id transfer) then Err "Transfer ID must not be empty"
  else
    let? _ :=
      match transfer_status transfer with
      | TransferStatus.Cancelled => Err "Cannot finalize a cancelled transfer session"
      | TransferStatus.Expired => Err "Cannot finalize an expired transfer session"
      | TransferStatus.Failed => Err "Cannot finalize a failed transfer session"
      | TransferStatus.Transferring | TransferStatus.Finalizing => Ok tt
      | TransferStatus.Created => if created_empty then Ok tt else Err "Transfer session is in invalid state for finalization"
      | TransferStatus.Completed => Err "Transfer session is in invalid state for finalization"
      end in
    let? _ :=
      match file_status file with
      | FileStatus.Deleted => Err "Cannot finalize a deleted file"
      | FileStatus.Expired => Err "Cannot finalize an expired file"
      | FileStatus.Failed => Err "Cannot finalize a failed file"
      | FileStatus.Uploading | FileStatus.Finalizing => Ok tt
      | FileStatus.Created => if created_empty then Ok tt else Err "File is in invalid state for finalization"
      | FileStatus.Available => Err "File is in invalid state for finalization"
      end in
    if (total_chunks transfer <? 0) || negb (Z.of_nat (length (fin_chunks input)) =? total_chunks transfer)
    then Err "Chunk count mismatch"
    else if negb (accepted_chunks transfer =? total_chunks transfer) then Err "Not all chunks have been accepted"
    else
      let? accumulated_bytes := check_chunks (total_bytes transfer) 0 0 (sort_chunks (fin_chunks input)) in
      if (total_bytes transfer <? 0) || negb (accumulated_bytes =? u64 (total_bytes transfer))
      then Err "Cumulative chunk byte size mismatch"
      else if negb (encrypted_size file =? total_bytes transfer) then Err "Transfer total bytes does not match file encrypted size"
      else if negb (is_empty (fin_expected_sha256 input)) && negb (is_valid_sha256_hex (fin_expected_sha256 input))
      then Err "Provided expected_ciphertext_sha256 is not a valid 64-character hex string"
      else Ok tt.

(** ** Chunks tile the file *)

(** Sizes for which nothing wraps: the count of chunks fits in 32 bits. *)
Definition tileable (size chunk : Z) : Prop :=
  0 < chunk < 2 ^ 32 /\ 0 < size /\ size + chunk <= 2 ^ 64 /\ (size + chunk - 1) / chunk < 2 ^ 32.

Lemma expected_chunk_count_eq size chunk :
  tileable size chunk -> calculate_expected_chunk_count size chunk = (size + chunk - 1) / chunk.
Proof.
  intros (Hc & Hs & Hw & Hn). unfold calculate_expected_chunk_count.
  rewrite (proj2 (Z.eqb_neq size 0)), (proj2 (Z.eqb_neq chunk 0)) by lia. cbn [orb].
  rewrite u64_small by (unfold in_u64; lia). rewrite u32_small; [done|]. unfold in_u32.
  split; [apply Z.div_pos; lia|done].
Qed.

Lemma chunk_count_bounds size chunk n :
  0 < chunk -> 0 < size -> n = (size + chunk - 1) / chunk -> 0 < n /\ (n - 1) * chunk < size <= n * chunk.
Proof.
  intros Hc Hs ->. pose proof (Z.div_mod (size + chunk - 1) chunk ltac:(lia)). pose proof (Z.mod_pos_bound (size + chunk - 1) chunk Hc).
  split; [apply Z.div_str_pos; lia|]. nia.
Qed.

Lemma chunk_range_eq size i chunk :
  tileable size chunk -> 0 <= i ->
  calculate_chunk_byte_range size i chunk =
  (if i <? calculate_expected_chunk_count size chunk
   then Some (mkRange (i * chunk) (Z.min (i * chunk + chunk - 1) (size - 1)) (Z.min chunk (size - i * chunk)) (calculate_expected_chunk_count size chunk))
   else None).
Proof.
  intros Ht Hi. pose proof (expected_chunk_count_eq _ _ Ht) as Hcount. destruct Ht as (Hc & Hs & Hw & Hn).
  destruct (chunk_count_bounds size chunk _ ltac:(lia) Hs eq_refl) as (Hpos & Hlo & Hhi).
  unfold calculate_chunk_byte_range. rewrite (proj2 (Z.eqb_neq size 0)), (proj2 (Z.eqb_neq chunk 0)) by lia.
  rewrite u64_small by (unfold in_u64; lia). rewrite u32_small by (unfold in_u32; lia). rewrite Hcount. cbv zeta.
  destruct (Z.ltb_spec i ((size + chunk - 1) / chunk)) as [Hlt|Hge].
  - rewrite (proj2 (Z.leb_gt _ _)) by lia. assert (Hmul : i * chunk <= ((size + chunk - 1) / chunk - 1) * chunk) by (apply Z.mul_le_mono_nonneg_r; lia).
    rewrite (u64_small (i * chunk)) by (unfold in_u64; nia). rewrite !u64_small by (unfold in_u64; nia).
    do 2 f_equal. rewrite u32_small by (unfold in_u32; nia). lia.
  - by rewrite (proj2 (Z.leb_le _ _)) by lia.
Qed.

(** The ranges of [calculate_chunk_byte_range] are those of the chunks
    [calculate_expected_chunk_count] counts, and they tile the file: the chunk
    [p / chunk] is the only one whose range holds the byte [p]. *)
Theorem chunk_ranges_tile (size chunk : Z) (Ht : tileable size chunk) :
  (forall i, 0 <= i -> is_Some (calculate_chunk_byte_range size i chunk) <-> i < calculate_expected_chunk_count size chunk) /\
  (forall i r, 0 <= i -> calculate_chunk_byte_range size i chunk = Some r ->
     range_total_chunks r = calculate_expected_chunk_count size chunk /\ range_size r = end_byte r - start_byte r + 1 /\ 0 < range_size r <= chunk) /\
  (forall p, 0 <= p < size -> exists r, calculate_chunk_byte_range size (p / chunk) chunk = Some r /\ start_byte r <= p <= end_byte r) /\
  (forall p i r, 0 <= i -> calculate_chunk_byte_range size i chunk = Some r -> start_byte r <= p <= end_byte r -> i = p / chunk /\ 0 <= p < size).
Proof.
  pose proof Ht as (Hc & Hs & Hw & Hn). pose proof (expected_chunk_count_eq _ _ Ht) as Hcount.
  destruct (chunk_count_bounds size chunk _ ltac:(lia) Hs (expected_chunk_count_eq _ _ Ht)) as (Hpos & Hlo & Hhi).
  split_and!.
  - intros i Hi. rewrite chunk_range_eq by done. destruct (Z.ltb_spec i (calculate_expected_chunk_count size chunk)); split; try done; try lia; by intros [? [=]].
  - intros i r Hi. rewrite chunk_range_eq by done. destruct (Z.ltb_spec i (calculate_expected_chunk_count size chunk)); [|done].
    intros [= <-]. cbn. nia.
  - intros p Hp. pose proof (Z.div_mod p chunk ltac:(lia)). pose proof (Z.mod_pos_bound p chunk ltac:(lia)).
    rewrite chunk_range_eq by (done || apply Z.div_pos; lia). rewrite (proj2 (Z.ltb_lt _ _)) by nia. eexists. split; [done|]. cbn. lia.
  - intros p i r Hi. rewrite chunk_range_eq by done. destruct (Z.ltb_spec i (calculate_expected_chunk_count size chunk)); [|done].
    intros [= <-]. cbn. intros Hp. split; [|nia]. apply Z.div_unique_pos with (r := p - i * chunk); lia.
Qed.

Lemma chunk_ranges_tile_witness :
  tileable (10 * 1024 * 1024) k_standard_chunk_size /\
  (is_Some (calculate_chunk_byte_range (10 * 1024 * 1024) 2 k_standard_chunk_size) <-> 2 < calculate_expected_chunk_count (10 * 1024 * 1024) k_standard_chunk_size).
Proof.
  assert (Ht : tileable (10 * 1024 * 1024) k_standard_chunk_size) by (split_and!; by vm_compute).
  split; [done|]. apply (proj1 (chunk_ranges_tile _ _ Ht)). lia.
Defined.

(** What an accepted chunk satisfies. *)
Lemma validate_chunk_payload_inv sha256 dto n size hash :
  validate_chunk_payload sha256 dto n size = Ok hash ->
  0 <> n /\ cp_chunk_index dto < n /\ cp_chunk_size_bytes dto = bytes_size (cp_encrypted_data dto) /\
  k_min_chunk_size <= cp_chunk_size_bytes dto <= k_max_chunk_size /\
  (if cp_chunk_index dto <? n - 1 then cp_chunk_size_bytes dto = k_standard_chunk_size
   else u64 (cp_chunk_index dto * k_standard_chunk_size) <= size /\
        cp_chunk_size_bytes dto = size - u64 (cp_chunk_index dto * k_standard_chunk_size)) /\
  is_valid_uuid (cp_upload_id dto) = true /\ is_valid_sha256_hex (cp_claimed_sha256 dto) = true /\
  hashes_equal (cp_claimed_sha256 dto) hash = true /\ hash = compute_sha256_hex sha256 (cp_encrypted_data dto).
Proof.
  unfold validate_chunk_payload. intros H. split_ifs; try done; cbn [bind] in H; split_ifs; try done; injection H as <-; auto 20 with lia.
Qed.

(** The size check of an upload and the byte ranges of a download agree: an accepted
    chunk has exactly the size of its range, so the accepted chunks of a transfer are the
    file cut into its ranges. *)
Theorem accepted_chunk_has_its_range sha256 (dto : ChunkPayloadDto) (size : Z) (hash : string)
    (Hsize : 0 < size <= k_max_file_size_bytes) (Hi : 0 <= cp_chunk_index dto)
    (Hok : validate_chunk_payload sha256 dto (calculate_expected_chunk_count size k_standard_chunk_size) size = Ok hash) :
  exists r, calculate_chunk_byte_range size (cp_chunk_index dto) k_standard_chunk_size = Some r /\
    range_size r = bytes_size (cp_encrypted_data dto).
Proof.
  unfold k_max_file_size_bytes in Hsize. assert (Ht : tileable size k_standard_chunk_size).
  { unfold tileable, k_standard_chunk_size. split_and!; try lia. apply Z.div_lt_upper_bound; lia. }
  apply validate_chunk_payload_inv in Hok as (_ & Hlt & Hbytes & _ & Hsz & _). rewrite chunk_range_eq by done.
  rewrite (proj2 (Z.ltb_lt _ _)) by done. eexists. split; [done|]. cbn [range_size]. rewrite <- Hbytes.
  destruct (chunk_count_bounds size k_standard_chunk_size _ ltac:(done) ltac:(lia) (expected_chunk_count_eq _ _ Ht)) as (Hpos & Hlo & Hhi).
  unfold k_standard_chunk_size in *. destruct (Z.ltb_spec (cp_chunk_index dto) (calculate_expected_chunk_count size (4 * 1024 * 1024) - 1)) as [Hc|Hc].
  - rewrite Hsz. nia.
  - destruct Hsz as [_ ->]. rewrite u64_small by (unfold in_u64; nia). nia.
Qed.

Lemma accepted_chunk_has_its_range_witness :
  let dto := mkChunkPayload "00000000-0000-4000-8000-000000000001" 0 [1; 2; 3] 3
               "0000000000000000000000000000000000000000000000000000000000000000" in
  exists r, calculate_chunk_byte_range 3 0 k_standard_chunk_size = Some r /\ range_size r = 3.
Proof.
  intros dto. apply (accepted_chunk_has_its_range (fun _ => replicate 32 0) dto 3
    "0000000000000000000000000000000000000000000000000000000000000000"); by vm_compute.
Defined.

(** ** What a validated finalization guarantees *)

Definition sum_sizes (chunks : list FileChunkEntity) : Z := foldr (fun c n => chunk_size c + n) 0 chunks.

Lemma check_chunks_inv total i acc chunks n :
  0 <= acc -> check_chunks total i acc chunks = Ok n -> acc + sum_sizes chunks < 2 ^ 64 ->
  n = acc + sum_sizes chunks /\ 0 <= sum_sizes chunks /\
  (forall k c, chunks !! k = Some c -> chunk_index c = i + Z.of_nat k /\ is_empty (minio_chunk_key c) = false /\
     is_valid_sha256_hex (chunk_hash_sha256 c) = true /\ 0 <= chunk_size c).
Proof.
  revert i acc. induction chunks as [|c chunks IH]; intros i acc Hacc Hok Hsum; cbn [check_chunks] in Hok.
  { injection Hok as <-. cbn. split_and!; [lia|lia|]. by intros k c. }
  cbn [sum_sizes foldr] in *. fold (sum_sizes chunks) in *. split_ifs; try done.
  assert (Hpos : 0 <= sum_sizes chunks \/ sum_sizes chunks < 0) by lia.
  destruct Hpos as [Hpos|Hneg].
  - destruct (IH (i + 1) (u64 (acc + chunk_size c)) ltac:(apply u64_range) Hok) as (-> & Hs & Hall).
    { rewrite u64_small by (unfold in_u64; lia). lia. }
    rewrite u64_small by (unfold in_u64; lia). split_and!; [lia|lia|].
    intros [|k] c' Hk; [injection Hk as <-; auto with lia|]. apply Hall in Hk as (-> & ?). auto with lia.
  - exfalso. assert (Hu : u64 (acc + chunk_size c) + sum_sizes chunks < 2 ^ 64) by (pose proof (u64_range (acc + chunk_size c)); unfold in_u64 in *; lia).
    destruct (IH (i + 1) (u64 (acc + chunk_size c)) ltac:(apply u64_range) Hok Hu) as (_ & Hs & _). lia.
Qed.

Lemma sum_sizes_perm a b : a ≡ₚ b -> sum_sizes a = sum_sizes b.
Proof. induction 1; cbn; unfold sum_sizes in *; lia. Qed.

(** A finalization whose preconditions hold has every chunk of the file once, in the
    order of their indices, and their sizes sum to the size of the file. *)
Lemma finalization_preconditions_sound (input : FinalizationValidationInput)
    (Hok : validate_finalization_preconditions input = Ok tt) (Hsum : sum_sizes (fin_chunks input) < 2 ^ 64)
    (Hbytes : total_bytes (fin_transfer input) < 2 ^ 63) :
  let sorted := sort_chunks (fin_chunks input) in
  sorted ≡ₚ fin_chunks input /\ Z.of_nat (length sorted) = total_chunks (fin_transfer input) /\
  chunk_index <$> sorted = Z.of_nat <$> seq 0 (length sorted) /\
  sum_sizes sorted = encrypted_size (fin_file input) /\
  Forall (fun c => is_empty (minio_chunk_key c) = false /\ is_valid_sha256_hex (chunk_hash_sha256 c) = true /\ 0 <= chunk_size c) sorted.
Proof.
  cbv zeta. pose proof (merge_sort_Permutation chunk_le (fin_chunks input)) as Hperm. fold (sort_chunks (fin_chunks input)) in Hperm.
  unfold validate_finalization_preconditions in Hok. destruct (is_empty _); [done|].
  apply bind_ok in Hok as ([] & _ & Hok). apply bind_ok in Hok as ([] & _ & Hok).
  destruct (_ || _) eqn:Hcount; [done|]. destruct (negb (accepted_chunks _ =? _)); [done|].
  apply bind_ok in Hok as (acc & Hacc & Hok). split_ifs; try done;
    (rewrite <- (sum_sizes_perm _ _ Hperm) in Hsum; destruct (check_chunks_inv _ 0 0 _ _ ltac:(lia) Hacc ltac:(lia)) as (Hn & Hs & Hall);
     rewrite u64_small in * by (unfold in_u64; lia); split_and!; [done|apply Permutation_length in Hperm; lia| |lia|]).
  1: apply list_eq; intros k; rewrite !list_lookup_fmap; destruct (sort_chunks (fin_chunks input) !! k) as [c|] eqn:Hk; cbn;
    [apply Hall in Hk as Hk'; rewrite lookup_seq_lt by (by eapply lookup_lt_Some); cbn; f_equal; lia
    |rewrite lookup_seq_ge by (by apply lookup_ge_None); done].
  all: apply Forall_lookup; intros k c Hk; apply Hall in Hk as (_ & ?); done.
Qed.
