(* ===== verification/FilesDb.v ===== *)
(** * Files: the database of the service

    Models [src/files/db/pqxx_compat.hpp], the in-memory database that serves the
    repositories in every build that does not define [SECURECLOUD_FILES_USE_REAL_PQXX]
    (none does): the tables of [MockStorage], the write set of a [pqxx::work] and the
    statements of [execute], each under the mutex of the store.  A statement reads the
    write set before the tables; [commit] writes the write set over the tables.

    A service is a program of such statements: [tx A] is code that runs in a [work] and
    may throw. *)

From S2P Require Import Prelude Ids Prog FilesTypes FilesText FilesValidation.
From stdpp Require Import sorting.

#[local] Open Scope Z_scope.

(** ** Tables *)

Record StoredFile := mkStoredFile {
  sf_file_id : string; sf_owner_user_id : string; sf_owner_device_id : string; sf_conversation_id : option string;
  sf_encrypted_size : string; sf_content_type : option string; sf_encryption_algorithm : string; sf_status : string;
  sf_retention_until : option string; sf_created_at : string; sf_updated_at : string }.

Record StoredMetadata := mkStoredMetadata {
  sm_file_id : string; sm_encrypted_filename : string; sm_encrypted_mime_type : option string;
  sm_metadata_nonce : string; sm_metadata_tag : string; sm_client_encryption_metadata : string; sm_updated_at : string }.

Record StoredVersion := mkStoredVersion {
  sv_version_id : string; sv_file_id : string; sv_version_number : Z; sv_encrypted_size : string;
  sv_minio_object_key : string; sv_checksum_sha256 : string; sv_created_at : string; sv_is_active : bool }.

Record StoredTransfer := mkStoredTransfer {
  st_transfer_id : string; st_file_id : string; st_transfer_type : string; st_initiator_user_id : string;
  st_initiator_device_id : string; st_status : string; st_total_chunks : Z; st_accepted_chunks : Z;
  st_total_bytes : Z; st_transferred_bytes : Z; st_created_at : string; st_updated_at : string; st_expires_at : string }.

Record StoredChunk := mkStoredChunk {
  sc_chunk_id : string; sc_transfer_id : string; sc_chunk_index : Z; sc_byte_offset : Z; sc_chunk_size : Z;
  sc_chunk_hash_sha256 : string; sc_minio_chunk_key : string; sc_status : string; sc_created_at : string }.

Record StoredAccess := mkStoredAccess {
  sa_access_id : string; sa_file_id : string; sa_grantee_user_id : string; sa_grantee_device_id : option string;
  sa_permission : string; sa_granted_by : string; sa_granted_at : string; sa_revoked_at : option string }.

Record StoredOutbox := mkStoredOutbox {
  so_event_id : string; so_aggregate_type : string; so_aggregate_id : string; so_event_type : string;
  so_payload_json : string; so_status : string; so_retry_count : Z; so_created_at : string; so_processed_at : option string }.

Record MockStorage := mkStorage {
  files_ : gmap string StoredFile;
  metadata_ : gmap string StoredMetadata;
  versions_ : gmap (string * Z) StoredVersion;
  transfers_ : gmap string StoredTransfer;
  chunks_ : gmap (string * Z) StoredChunk;
  access_ : gmap (string * string) StoredAccess;
  outbox_ : gmap string StoredOutbox }.

Definition empty_storage : MockStorage := mkStorage ∅ ∅ ∅ ∅ ∅ ∅ ∅.

Definition set_files m d := mkStorage m (metadata_ d) (versions_ d) (transfers_ d) (chunks_ d) (access_ d) (outbox_ d).
Definition set_metadata m d := mkStorage (files_ d) m (versions_ d) (transfers_ d) (chunks_ d) (access_ d) (outbox_ d).
Definition set_versions m d := mkStorage (files_ d) (metadata_ d) m (transfers_ d) (chunks_ d) (access_ d) (outbox_ d).
Definition set_transfers m d := mkStorage (files_ d) (metadata_ d) (versions_ d) m (chunks_ d) (access_ d) (outbox_ d).
Definition set_chunks m d := mkStorage (files_ d) (metadata_ d) (versions_ d) (transfers_ d) m (access_ d) (outbox_ d).
Definition set_access m d := mkStorage (files_ d) (metadata_ d) (versions_ d) (transfers_ d) (chunks_ d) m (outbox_ d).
Definition set_outbox m d := mkStorage (files_ d) (metadata_ d) (versions_ d) (transfers_ d) (chunks_ d) (access_ d) m.

(** ** Transactions *)

(** The write set has one map per table, like the store. *)
Record work := mkWork { committed_ : bool; staged : MockStorage }.
Definition new_work : work := mkWork false empty_storage.
Definition stage (f : MockStorage -> MockStorage) (w : work) : work := mkWork (committed_ w) (f (staged w)).

Definition overlay (top bottom : MockStorage) : MockStorage :=
  mkStorage (files_ top ∪ files_ bottom) (metadata_ top ∪ metadata_ bottom) (versions_ top ∪ versions_ bottom)
    (transfers_ top ∪ transfers_ bottom) (chunks_ top ∪ chunks_ bottom) (access_ top ∪ access_ bottom) (outbox_ top ∪ outbox_ bottom).

Definition commit_work (w : work) (db : MockStorage) : work * MockStorage :=
  if committed_ w then (w, db) else (mkWork true empty_storage, overlay (staged w) db).

Definition abort_work (w : work) : work := mkWork true empty_storage.

(** The copy of a row that an update changes in place: the staged one, or a copy of the
    stored one, which is staged even if the update then changes nothing. *)
Definition staged_copy {K V} `{Countable K} (sm m : gmap K V) (k : K) : option V :=
  match sm !! k with Some v => Some v | None => m !! k end.

(** ** Statements *)

(** Rows of strings are ordered like [std::string]; ties keep the order of the keys. *)
Definition by_text {V} (text key : V -> string) (a b : V) : Prop :=
  String.ltb (text a) (text b) = true \/ (text a = text b /\ String.leb (key a) (key b) = true).
#[global] Instance by_text_dec {V} (text key : V -> string) : RelDecision (by_text text key).
Proof. intros a b. unfold by_text. apply _. Defined.

Definition insert_file (f : StoredFile) : work -> work :=
  stage (fun d => set_files (<[sf_file_id f := f]> (files_ d)) d).

Definition insert_metadata (m : StoredMetadata) : work -> work :=
  stage (fun d => set_metadata (<[sm_file_id m := m]> (metadata_ d)) d).

Definition select_file (id : string) (w : work) (db : MockStorage) : option StoredFile :=
  staged_copy (files_ (staged w)) (files_ db) id.

Definition select_metadata (id : string) (w : work) (db : MockStorage) : option StoredMetadata :=
  staged_copy (metadata_ (staged w)) (metadata_ db) id.

Definition with_file_status (status updated_at : string) (f : StoredFile) : StoredFile :=
  mkStoredFile (sf_file_id f) (sf_owner_user_id f) (sf_owner_device_id f) (sf_conversation_id f) (sf_encrypted_size f)
    (sf_content_type f) (sf_encryption_algorithm f) status (sf_retention_until f) (sf_created_at f) updated_at.

Definition update_file_status (new_status updated_at id exp_status : string) (w : work) (db : MockStorage) : bool * work :=
  match select_file id w db with
  | None => (false, w)
  | Some f =>
      let hit := bool_decide (sf_status f = exp_status) in
      let f' := if hit then with_file_status new_status updated_at f else f in
      (hit, stage (fun d => set_files (<[id := f']> (files_ d)) d) w)
  end.

Definition update_file_deleted (updated_at id : string) (w : work) (db : MockStorage) : bool * work :=
  match select_file id w db with
  | None => (false, w)
  | Some f => (true, stage (fun d => set_files (<[id := with_file_status "DELETED" updated_at f]> (files_ d)) d) w)
  end.

Definition select_expired (now_str : string) (limit : Z) (w : work) (db : MockStorage) : list StoredFile :=
  let expired := filter (fun f => (from_option (fun r => String.leb r now_str) false (sf_retention_until f) = true) /\ sf_status f <> "DELETED")
                   (snd <$> map_to_list (files_ (staged w) ∪ files_ db)) in
  take (Z.to_nat limit) (merge_sort (by_text (fun f => default EmptyString (sf_retention_until f)) sf_file_id) expired).

Definition insert_version (v : StoredVersion) (w : work) (db : MockStorage) : result FilesExn unit * work :=
  let key := (sv_file_id v, sv_version_number v) in
  if bool_decide (is_Some (staged_copy (versions_ (staged w)) (versions_ db) key)) then (Err UniqueConstraintViolationException, w)
  else (Ok tt, stage (fun d => set_versions (<[key := v]> (versions_ d)) d) w).

Definition inactive (v : StoredVersion) : StoredVersion :=
  mkStoredVersion (sv_version_id v) (sv_file_id v) (sv_version_number v) (sv_encrypted_size v) (sv_minio_object_key v)
    (sv_checksum_sha256 v) (sv_created_at v) false.

Definition deactivated (id : string) (ver_num : Z) (key : string * Z) (v : StoredVersion) : StoredVersion :=
  if bool_decide (key.1 = id) && negb (key.2 =? ver_num) then inactive v else v.

(** The rows of the store are changed in place, before any commit. *)
Definition deactivate_versions (id : string) (ver_num : Z) (w : work) (db : MockStorage) : work * MockStorage :=
  let hit := filter (fun kv : (string * Z) * StoredVersion => kv.1.1 = id /\ kv.1.2 <> ver_num /\ sv_is_active kv.2 = true) (versions_ db) in
  (stage (fun d => set_versions (map_imap (fun k v => Some (deactivated id ver_num k v)) (hit ∪ versions_ d)) d) w,
   set_versions (map_imap (fun k v => Some (deactivated id ver_num k v)) (versions_ db)) db).

Definition versions_of (id : string) (w : work) (db : MockStorage) : list StoredVersion :=
  snd <$> filter (fun kv : (string * Z) * StoredVersion => kv.1.1 = id) (map_to_list (versions_ (staged w) ∪ versions_ db)).

(** The active version with the highest number. *)
Definition latest (l : list StoredVersion) : option StoredVersion :=
  foldl (fun best v => match best with Some b => if sv_version_number b <? sv_version_number v then Some v else best | None => Some v end) None l.

Definition version_le (a b : StoredVersion) : Prop := sv_version_number a <= sv_version_number b.
#[global] Instance version_le_dec : RelDecision version_le.
Proof. intros a b. unfold version_le. apply _. Defined.

Definition select_active_version (id : string) (w : work) (db : MockStorage) : option StoredVersion :=
  latest (filter (fun v => sv_is_active v = true) (merge_sort version_le (versions_of id w db))).

Definition select_versions (id : string) (w : work) (db : MockStorage) : list StoredVersion :=
  merge_sort version_le (versions_of id w db).

Definition insert_transfer (t : StoredTransfer) : work -> work :=
  stage (fun d => set_transfers (<[st_transfer_id t := t]> (transfers_ d)) d).

Definition select_transfer (id : string) (w : work) (db : MockStorage) : option StoredTransfer :=
  staged_copy (transfers_ (staged w)) (transfers_ db) id.

Definition with_transfer_status (status updated_at : string) (t : StoredTransfer) : StoredTransfer :=
  mkStoredTransfer (st_transfer_id t) (st_file_id t) (st_transfer_type t) (st_initiator_user_id t) (st_initiator_device_id t)
    status (st_total_chunks t) (st_accepted_chunks t) (st_total_bytes t) (st_transferred_bytes t) (st_created_at t) updated_at (st_expires_at t).

Definition update_transfer_status (new_status updated_at id : string) (w : work) (db : MockStorage) : bool * work :=
  match select_transfer id w db with
  | None => (false, w)
  | Some t => (true, stage (fun d => set_transfers (<[id := with_transfer_status new_status updated_at t]> (transfers_ d)) d) w)
  end.

Definition with_progress (bytes_added : Z) (updated_at : string) (t : StoredTransfer) : StoredTransfer :=
  mkStoredTransfer (st_transfer_id t) (st_file_id t) (st_transfer_type t) (st_initiator_user_id t) (st_initiator_device_id t)
    (st_status t) (st_total_chunks t) (st_accepted_chunks t + 1) (st_total_bytes t) (st_transferred_bytes t + bytes_added)
    (st_created_at t) updated_at (st_expires_at t).

Definition increment_progress (bytes_added : Z) (updated_at id : string) (w : work) (db : MockStorage) : bool * work :=
  match select_transfer id w db with
  | None => (false, w)
  | Some t => (true, stage (fun d => set_transfers (<[id := with_progress bytes_added updated_at t]> (transfers_ d)) d) w)
  end.

(** [ON CONFLICT DO NOTHING]: the number of rows tells whether it was inserted. *)
Definition insert_chunk (c : StoredChunk) (w : work) (db : MockStorage) : bool * work :=
  let key := (sc_transfer_id c, sc_chunk_index c) in
  if bool_decide (is_Some (staged_copy (chunks_ (staged w)) (chunks_ db) key)) then (false, w)
  else (true, stage (fun d => set_chunks (<[key := c]> (chunks_ d)) d) w).

(** A row whose hash is empty is not found. *)
Definition select_chunk_hash (id : string) (index : Z) (w : work) (db : MockStorage) : option string :=
  c ← staged_copy (chunks_ (staged w)) (chunks_ db) (id, index);
  if is_empty (sc_chunk_hash_sha256 c) then None else Some (sc_chunk_hash_sha256 c).

Definition chunk_row_le (a b : StoredChunk) : Prop := sc_chunk_index a <= sc_chunk_index b.
#[global] Instance chunk_row_le_dec : RelDecision chunk_row_le.
Proof. intros a b. unfold chunk_row_le. apply _. Defined.

Definition chunks_of (id : string) (w : work) (db : MockStorage) : list ((string * Z) * StoredChunk) :=
  filter (fun kv : (string * Z) * StoredChunk => kv.1.1 = id) (map_to_list (chunks_ (staged w) ∪ chunks_ db)).

Definition select_chunks (id : string) (w : work) (db : MockStorage) : list StoredChunk :=
  merge_sort chunk_row_le (snd <$> chunks_of id w db).

Definition select_chunk_indices (id : string) (w : work) (db : MockStorage) : list Z :=
  merge_sort Z.le ((fun kv => kv.1.2) <$> chunks_of id w db).

Definition count_chunks (id : string) (w : work) (db : MockStorage) : Z := Z.of_nat (length (chunks_of id w db)).

Definition select_chunk_present (id : string) (index : Z) (w : work) (db : MockStorage) : bool :=
  bool_decide (is_Some (staged_copy (chunks_ (staged w)) (chunks_ db) (id, index))).

Definition insert_access (a : StoredAccess) : work -> work :=
  stage (fun d => set_access (<[(sa_file_id a, sa_grantee_user_id a) := a]> (access_ d)) d).

Definition select_grant (id user : string) (w : work) (db : MockStorage) : option StoredAccess :=
  staged_copy (access_ (staged w)) (access_ db) (id, user).

Definition select_active_grant (id user : string) (w : work) (db : MockStorage) : option StoredAccess :=
  a ← select_grant id user w db; if bool_decide (sa_revoked_at a = None) then Some a else None.

Definition revoked (at_ : string) (a : StoredAccess) : StoredAccess :=
  mkStoredAccess (sa_access_id a) (sa_file_id a) (sa_grantee_user_id a) (sa_grantee_device_id a) (sa_permission a)
    (sa_granted_by a) (sa_granted_at a) (Some at_).

Definition update_access_revoked (revoked_at id user : string) (w : work) (db : MockStorage) : bool * work :=
  match select_grant id user w db with
  | None => (false, w)
  | Some a =>
      let hit := bool_decide (sa_revoked_at a = None) in
      let a' := if hit then revoked revoked_at a else a in
      (hit, stage (fun d => set_access (<[(id, user) := a']> (access_ d)) d) w)
  end.

Definition select_grants (id : string) (w : work) (db : MockStorage) : list StoredAccess :=
  merge_sort (by_text sa_granted_at sa_grantee_user_id)
    (filter (fun a => sa_revoked_at a = None)
      (snd <$> filter (fun kv : (string * string) * StoredAccess => kv.1.1 = id) (map_to_list (access_ (staged w) ∪ access_ db)))).

Definition insert_outbox (o : StoredOutbox) : work -> work :=
  stage (fun d => set_outbox (<[so_event_id o := o]> (outbox_ d)) d).

Definition select_pending (limit : Z) (w : work) (db : MockStorage) : list StoredOutbox :=
  take (Z.to_nat limit)
    (merge_sort (by_text so_created_at so_event_id)
      (filter (fun o => so_status o = "PENDING") (snd <$> map_to_list (outbox_ (staged w) ∪ outbox_ db)))).

Definition select_event (id : string) (w : work) (db : MockStorage) : option StoredOutbox :=
  staged_copy (outbox_ (staged w)) (outbox_ db) id.

Definition published (at_ : string) (o : StoredOutbox) : StoredOutbox :=
  mkStoredOutbox (so_event_id o) (so_aggregate_type o) (so_aggregate_id o) (so_event_type o) (so_payload_json o)
    "PUBLISHED" (so_retry_count o) (so_created_at o) (Some at_).

Definition failed (o : StoredOutbox) : StoredOutbox :=
  mkStoredOutbox (so_event_id o) (so_aggregate_type o) (so_aggregate_id o) (so_event_type o) (so_payload_json o)
    "FAILED" (so_retry_count o + 1) (so_created_at o) (so_processed_at o).

Definition update_event (f : StoredOutbox -> StoredOutbox) (id : string) (w : work) (db : MockStorage) : bool * work :=
  match select_event id w db with
  | None => (false, w)
  | Some o => (true, stage (fun d => set_outbox (<[id := f o]> (outbox_ d)) d) w)
  end.
