(* ===== verification/FilesRepo.v ===== *)
(** * Files: repositories

    Models the mappers of [src/files/db/pqxx_mappers.cpp] and the repositories of
    [src/files/repository]: files, transfers, chunks, versions, access grants and the
    outbox; and the state the service shares: the database, the bucket of the object
    store, the cache of upload sessions and the revoked devices.

    The clock and the random bytes are functions from the number of the reading, so that
    any behaviour of them is some environment. *)

From S2P Require Import Prelude Ids Prog FilesTypes FilesText FilesValidation FilesDb.

#[local] Open Scope Z_scope.

(** ** State and environment *)

(** The states of a transfer in the protocol buffer. *)
Inductive ProtoTransferStatus := StatusPending | StatusInProgress | StatusCompleted | StatusFailed | StatusCancelled.

#[global] Instance ProtoTransferStatus_eq_dec : EqDecision ProtoTransferStatus.
Proof. solve_decision. Defined.

Record UploadSession := mkSession {
  us_upload_id : string; us_file_id : string; us_owner_user_id : string; us_owner_device_id : string;
  us_conversation_id : string; us_encrypted_size_bytes : Z; us_expected_chunk_count : Z; us_uploaded_chunk_count : Z;
  us_encryption_version : string; us_status : ProtoTransferStatus; us_expires_at : Z }.

Record FilesState := mkFiles {
  store : MockStorage;
  objects : gmap string (list Z);
  in_memory_cache : gmap string UploadSession;
  revoked_devices : gset string;
  clock_reads : nat;
  random_reads : nat }.

Definition set_store db s := mkFiles db (objects s) (in_memory_cache s) (revoked_devices s) (clock_reads s) (random_reads s).
Definition set_objects m s := mkFiles (store s) m (in_memory_cache s) (revoked_devices s) (clock_reads s) (random_reads s).
Definition set_cache m s := mkFiles (store s) (objects s) m (revoked_devices s) (clock_reads s) (random_reads s).
Definition set_revoked m s := mkFiles (store s) (objects s) (in_memory_cache s) m (clock_reads s) (random_reads s).

(** A member of the objects the service prints with [nlohmann::json]. *)
Inductive JsonField := JText (s : string) | JNumber (z : Z).

(** What the service is given: readings of the clock, random bytes, SHA-256 and the JSON
    library. *)
Record FilesEnv := mkFilesEnv {
  clock : nat -> Z;
  random : nat -> list Z;
  sha256 : list Z -> list Z;
  parse_json : list Z -> option JsonObject;
  print_json : list (string * JsonField) -> string }.

(** ** Code that runs in a transaction *)

Definition fprog (A : Type) : Type := prog FilesState A.
Definition tx (A : Type) : Type := work -> fprog (result FilesExn A * work).

Definition tx_ret {A} (a : A) : tx A := fun w => Ret (Ok a, w).
Definition tx_throw {A} (e : FilesExn) : tx A := fun w => Ret (Err e, w).
Definition tx_bind {A B} (m : tx A) (f : A -> tx B) : tx B :=
  fun w => let* (r, w) := m w in match r with Ok a => f a w | Err e => Ret (Err e, w) end.

Declare Scope tx_scope.
Delimit Scope tx_scope with tx.
Notation "'let!' x := m 'in' k" := (tx_bind m (fun x => k))
  (at level 10, x pattern, m at level 100, k at level 200) : tx_scope.
#[global] Open Scope tx_scope.

Definition tx_result {A} (r : result FilesExn A) : tx A := fun w => Ret (r, w).
Definition tx_lift {A} (p : fprog A) : tx A := fun w => let* a := p in Ret (Ok a, w).

(** Statements, which run under the mutex of the store. *)
Definition query {A} (q : work -> MockStorage -> A) : tx A :=
  fun w => Atomic (fun s => s) (fun s => Ret (Ok (q w (store s)), w)).
Definition write (f : work -> work) : tx unit := fun w => Atomic (fun s => s) (fun _ => Ret (Ok tt, f w)).
Definition update {A} (q : work -> MockStorage -> A * work) : tx A :=
  fun w => Atomic (fun s => s) (fun s => let '(a, w') := q w (store s) in Ret (Ok a, w')).
Definition update_throwing {A} (q : work -> MockStorage -> result FilesExn A * work) : tx A :=
  fun w => Atomic (fun s => s) (fun s => let '(a, w') := q w (store s) in Ret (a, w')).
Definition update_store (q : work -> MockStorage -> work * MockStorage) : tx unit :=
  fun w => Atomic (fun s => set_store (q w (store s)).2 s) (fun s => Ret (Ok tt, (q w (store s)).1)).

Definition commit : tx unit := update_store commit_work.
Definition abort : tx unit := fun w => Ret (Ok tt, abort_work w).

(** [pqxx::work tx;] and its scope: the destructor drops what was not committed. *)
Definition with_work {A} (m : tx A) : fprog (result FilesExn A) := let* (r, _) := m new_work in Ret r.

(** The repository methods without a transaction argument. *)
Definition committing (m : tx bool) : fprog (result FilesExn bool) :=
  with_work (let! done := m in if done : bool then let! _ := commit in tx_ret done else tx_ret done).

Section environment.
Context (env : FilesEnv).

Definition system_clock_now : fprog Z :=
  Atomic (fun s => mkFiles (store s) (objects s) (in_memory_cache s) (revoked_devices s) (S (clock_reads s)) (random_reads s))
    (fun s => Ret (clock env (clock_reads s))).

Definition rand_bytes : fprog (list Z) :=
  Atomic (fun s => mkFiles (store s) (objects s) (in_memory_cache s) (revoked_devices s) (clock_reads s) (S (random_reads s)))
    (fun s => Ret (random env (random_reads s))).

Definition new_uuid : fprog string :=
  let* now := system_clock_now in let* rnd := rand_bytes in Ret (generate_uuid_v7 now rnd).

End environment.

(** ** Mappers *)

Definition optional {A B} (f : A -> result FilesExn B) (o : option A) : result FilesExn (option B) :=
  match o with None => Ok None | Some a => let? b := f a in Ok (Some b) end.

Definition file_from_row (row : StoredFile) : result FilesExn FileEntity :=
  let? size := stoll (sf_encrypted_size row) in
  let? status := FileStatus.from_string (sf_status row) in
  let? until := optional from_iso8601 (sf_retention_until row) in
  let? created := from_iso8601 (sf_created_at row) in
  let? updated := from_iso8601 (sf_updated_at row) in
  Ok (mkFileEntity (sf_file_id row) (sf_owner_user_id row) (sf_owner_device_id row) (sf_conversation_id row) size
        (sf_content_type row) (sf_encryption_algorithm row) status until created updated).

Definition encrypted_metadata_from_row (row : StoredMetadata) : result FilesExn EncryptedFileMetadataEntity :=
  let? filename := from_bytea_hex (sm_encrypted_filename row) in
  let? mime := optional from_bytea_hex (sm_encrypted_mime_type row) in
  let? nonce := from_bytea_hex (sm_metadata_nonce row) in
  let? tag := from_bytea_hex (sm_metadata_tag row) in
  let? updated := from_iso8601 (sm_updated_at row) in
  Ok (mkMetadataEntity (sm_file_id row) filename mime nonce tag (sm_client_encryption_metadata row) updated).

Definition file_version_from_row (row : StoredVersion) : result FilesExn FileVersionEntity :=
  let? size := stoll (sv_encrypted_size row) in
  let? created := from_iso8601 (sv_created_at row) in
  Ok (mkVersionEntity (sv_version_id row) (sv_file_id row) (sv_version_number row) size (sv_minio_object_key row)
        (sv_checksum_sha256 row) created (sv_is_active row)).

Definition file_transfer_from_row (row : StoredTransfer) : result FilesExn FileTransferEntity :=
  let? type := TransferType.from_string (st_transfer_type row) in
  let? status := TransferStatus.from_string (st_status row) in
  let? created := from_iso8601 (st_created_at row) in
  let? updated := from_iso8601 (st_updated_at row) in
  let? expires := from_iso8601 (st_expires_at row) in
  Ok (mkTransferEntity (st_transfer_id row) (st_file_id row) type (st_initiator_user_id row) (st_initiator_device_id row) status
        (st_total_chunks row) (st_accepted_chunks row) (st_total_bytes row) (st_transferred_bytes row) created updated expires).

Definition file_chunk_from_row (row : StoredChunk) : result FilesExn FileChunkEntity :=
  let? status := ChunkStatus.from_string (sc_status row) in
  let? created := from_iso8601 (sc_created_at row) in
  Ok (mkChunkEntity (sc_chunk_id row) (sc_transfer_id row) (sc_chunk_index row) (sc_byte_offset row) (sc_chunk_size row)
        (sc_chunk_hash_sha256 row) (sc_minio_chunk_key row) status created).

Definition file_access_from_row (row : StoredAccess) : result FilesExn FileAccessEntity :=
  let? perm := FilePermission.from_string (sa_permission row) in
  let? granted := from_iso8601 (sa_granted_at row) in
  let? revoked_at := optional from_iso8601 (sa_revoked_at row) in
  Ok (mkAccessEntity (sa_access_id row) (sa_file_id row) (sa_grantee_user_id row) (sa_grantee_device_id row) perm
        (sa_granted_by row) granted revoked_at).

Definition files_outbox_from_row (row : StoredOutbox) : result FilesExn FilesOutboxEntity :=
  let? status := OutboxStatus.from_string (so_status row) in
  let? created := from_iso8601 (so_created_at row) in
  let? processed := optional from_iso8601 (so_processed_at row) in
  Ok (mkOutboxEntity (so_event_id row) (so_aggregate_type row) (so_aggregate_id row) (so_event_type row) (so_payload_json row)
        status (so_retry_count row) created processed).

(** ** Parameters of the inserts *)

Definition file_row (file : FileEntity) : StoredFile :=
  mkStoredFile (file_id file) (owner_user_id file) (owner_device_id file) (conversation_id file)
    (to_decimal (encrypted_size file)) (content_type file) (encryption_algorithm file) (FileStatus.to_string (file_status file))
    (to_iso8601 <$> retention_until file) (to_iso8601 (file_created_at file)) (to_iso8601 (file_updated_at file)).

Definition metadata_row (m : EncryptedFileMetadataEntity) : StoredMetadata :=
  mkStoredMetadata (meta_file_id m) (to_bytea_hex (encrypted_filename m)) (to_bytea_hex <$> encrypted_mime_type m)
    (to_bytea_hex (metadata_nonce m)) (to_bytea_hex (metadata_tag m)) (client_encryption_metadata_json m) (to_iso8601 (meta_updated_at m)).

Definition version_row (v : FileVersionEntity) : StoredVersion :=
  mkStoredVersion (version_id v) (version_file_id v) (version_number v) (to_decimal (version_size v)) (minio_object_key v)
    (checksum_sha256 v) (to_iso8601 (version_created_at v)) (is_active v).

Definition transfer_row (t : FileTransferEntity) : StoredTransfer :=
  mkStoredTransfer (transfer_id t) (transfer_file_id t) (TransferType.to_string (transfer_type t)) (initiator_user_id t)
    (initiator_device_id t) (TransferStatus.to_string (transfer_status t)) (total_chunks t) (accepted_chunks t) (total_bytes t)
    (transferred_bytes t) (to_iso8601 (transfer_created_at t)) (to_iso8601 (transfer_updated_at t)) (to_iso8601 (expires_at t)).

Definition chunk_row (c : FileChunkEntity) : StoredChunk :=
  mkStoredChunk (chunk_id c) (chunk_transfer_id c) (chunk_index c) (byte_offset c) (chunk_size c) (chunk_hash_sha256 c)
    (minio_chunk_key c) (ChunkStatus.to_string (chunk_status c)) (to_iso8601 (chunk_created_at c)).

Definition access_row (a : FileAccessEntity) : StoredAccess :=
  mkStoredAccess (access_id a) (access_file_id a) (grantee_user_id a) (grantee_device_id a) (FilePermission.to_string (permission a))
    (granted_by a) (to_iso8601 (granted_at a)) (to_iso8601 <$> revoked_at a).

Definition outbox_row (e : FilesOutboxEntity) : StoredOutbox :=
  mkStoredOutbox (event_id e) (if is_empty (aggregate_type e) then "FILE" else aggregate_type e)%string (aggregate_id e) (event_type e)
    (payload_json e) (OutboxStatus.to_string (outbox_status e)) (retry_count e) (to_iso8601 (outbox_created_at e)) (to_iso8601 <$> processed_at e).

(** ** Files *)

Definition find_row {A B} (id : string) (select : string -> work -> MockStorage -> option A) (from_row : A -> result FilesExn B) : tx (option B) :=
  if is_empty id then tx_ret None
  else let! row := query (select id) in tx_result (optional from_row row).

Module FileRepository.
Section repository.
Context (env : FilesEnv).

Definition create_file (file : FileEntity) (metadata : EncryptedFileMetadataEntity) : tx unit :=
  if is_empty (file_id file) then tx_throw RepositoryException
  else if negb (bool_decide (file_id file = meta_file_id metadata)) then tx_throw RepositoryException
  else let! _ := write (insert_file (file_row file)) in write (insert_metadata (metadata_row metadata)).

Definition find_by_id (id : string) : tx (option FileEntity) := find_row id select_file file_from_row.

Definition find_encrypted_metadata (id : string) : tx (option EncryptedFileMetadataEntity) :=
  find_row id select_metadata encrypted_metadata_from_row.

Definition update_status (id : string) (expected_current new_status : FileStatus.t) : tx bool :=
  if negb (is_valid_state_transition expected_current new_status) then tx_throw InvalidStateTransitionException
  else
    let! now := tx_lift (system_clock_now env) in
    update (update_file_status (FileStatus.to_string new_status) (to_iso8601 now) id (FileStatus.to_string expected_current)).

Definition delete_file_logical (id : string) : tx bool :=
  let! now := tx_lift (system_clock_now env) in update (update_file_deleted (to_iso8601 now) id).

Definition find_expired_files (now limit : Z) : tx (list FileEntity) :=
  let! rows := query (select_expired (to_iso8601 now) limit) in tx_result (map_result file_from_row rows).

End repository.
End FileRepository.

(** ** Transfers *)

Module FileTransferRepository.
Section repository.
Context (env : FilesEnv).

Definition create_transfer (transfer : FileTransferEntity) : tx unit :=
  if is_empty (transfer_id transfer) || is_empty (transfer_file_id transfer) || is_empty (initiator_user_id transfer)
  then tx_throw RepositoryException
  else write (insert_transfer (transfer_row transfer)).

Definition find_by_id (id : string) : tx (option FileTransferEntity) := find_row id select_transfer file_transfer_from_row.

Definition update_status (id : string) (status : TransferStatus.t) : tx bool :=
  if is_empty id then tx_ret false
  else
    let! now := tx_lift (system_clock_now env) in
    update (update_transfer_status (TransferStatus.to_string status) (to_iso8601 now) id).

Definition increment_chunk_progress (id : string) (bytes_added : Z) : tx bool :=
  if is_empty id then tx_ret false
  else let! now := tx_lift (system_clock_now env) in update (increment_progress bytes_added (to_iso8601 now) id).

End repository.
End FileTransferRepository.

(** ** Chunks *)

(** [ConflictHashMismatch] is thrown as [ChunkIntegrityException] instead. *)
Inductive ChunkRecordResult := NewlyInserted | AlreadyExistsIdentical | ConflictHashMismatch.

Module FileChunkRepository.

Definition record_chunk (chunk : FileChunkEntity) : tx ChunkRecordResult :=
  if is_empty (chunk_id chunk) || is_empty (chunk_transfer_id chunk) then tx_throw RepositoryException
  else if chunk_index chunk <? 0 then tx_throw RepositoryException
  else if chunk_size chunk <? 0 then tx_throw RepositoryException
  else if is_empty (chunk_hash_sha256 chunk) then tx_throw RepositoryException
  else
    let! inserted := update (insert_chunk (chunk_row chunk)) in
    if inserted : bool then tx_ret NewlyInserted
    else
      let! existing := query (select_chunk_hash (chunk_transfer_id chunk) (chunk_index chunk)) in
      match existing with
      | None => tx_throw RepositoryException
      | Some existing_hash =>
          if bool_decide (existing_hash = chunk_hash_sha256 chunk) then tx_ret AlreadyExistsIdentical
          else tx_throw ChunkIntegrityException
      end.

Definition get_accepted_chunk_indices (id : string) : tx (list Z) :=
  if is_empty id then tx_ret [] else query (select_chunk_indices id).

Definition count_accepted_chunks (id : string) : tx Z := if is_empty id then tx_ret 0 else query (count_chunks id).

Definition is_chunk_present (id : string) (index : Z) : tx bool :=
  if is_empty id || (index <? 0) then tx_ret false else query (select_chunk_present id index).

Definition list_chunks_for_transfer (id : string) : tx (list FileChunkEntity) :=
  if is_empty id then tx_ret []
  else let! rows := query (select_chunks id) in tx_result (map_result file_chunk_from_row rows).

End FileChunkRepository.

(** ** Versions *)

Module FileVersionRepository.

Definition create_version (version : FileVersionEntity) : tx unit :=
  if is_empty (version_id version) || is_empty (version_file_id version) then tx_throw RepositoryException
  else if version_number version <=? 0 then tx_throw RepositoryException
  else
    let! _ := update_throwing (insert_version (version_row version)) in
    if is_active version then update_store (deactivate_versions (version_file_id version) (version_number version)) else tx_ret tt.

Definition find_active_version (id : string) : tx (option FileVersionEntity) := find_row id select_active_version file_version_from_row.

Definition list_versions (id : string) : tx (list FileVersionEntity) :=
  if is_empty id then tx_ret []
  else let! rows := query (select_versions id) in tx_result (map_result file_version_from_row rows).

End FileVersionRepository.

(** ** Access *)

Definition satisfies (granted required : FilePermission.t) : bool :=
  match granted with
  | FilePermission.Admin => true
  | FilePermission.Write => bool_decide (required = FilePermission.Write) || bool_decide (required = FilePermission.Read)
  | FilePermission.Read => bool_decide (required = FilePermission.Read)
  end.

Module FileAccessRepository.
Section repository.
Context (env : FilesEnv).

Definition grant_access (grant : FileAccessEntity) : tx unit :=
  if is_empty (access_id grant) || is_empty (access_file_id grant) || is_empty (grantee_user_id grant) || is_empty (granted_by grant)
  then tx_throw RepositoryException
  else write (insert_access (access_row grant)).

Definition check_access (id user : string) (required : FilePermission.t) : tx bool :=
  if is_empty id || is_empty user then tx_ret false
  else
    let! owner := query (select_file id) in
    match owner with
    | None => tx_ret false
    | Some f =>
        if bool_decide (sf_owner_user_id f = user) then tx_ret true
        else
          let! grant := query (select_active_grant id user) in
          match grant with
          | None => tx_ret false
          | Some row => let! a := tx_result (file_access_from_row row) in tx_ret (satisfies (permission a) required)
          end
    end.

Definition revoke_access (id user : string) : tx bool :=
  if is_empty id || is_empty user then tx_ret false
  else let! now := tx_lift (system_clock_now env) in update (update_access_revoked (to_iso8601 now) id user).

Definition list_grantees (id : string) : tx (list FileAccessEntity) :=
  if is_empty id then tx_ret []
  else let! rows := query (select_grants id) in tx_result (map_result file_access_from_row rows).

Definition find_grant (id user : string) : tx (option FileAccessEntity) :=
  if is_empty id || is_empty user then tx_ret None
  else let! row := query (select_grant id user) in tx_result (optional file_access_from_row row).

End repository.
End FileAccessRepository.

(** ** Outbox *)

Module FilesOutboxRepository.
Section repository.
Context (env : FilesEnv).

Definition stage_event (event : FilesOutboxEntity) : tx unit :=
  if is_empty (event_id event) || is_empty (aggregate_id event) || is_empty (event_type event) || is_empty (payload_json event)
  then tx_throw RepositoryException
  else write (insert_outbox (outbox_row event)).

Definition fetch_pending_events (limit : Z) : tx (list FilesOutboxEntity) :=
  let! rows := query (select_pending limit) in tx_result (map_result files_outbox_from_row rows).

Definition mark_published (id : string) : tx bool :=
  if is_empty id then tx_ret false
  else let! now := tx_lift (system_clock_now env) in update (update_event (published (to_iso8601 now)) id).

Definition mark_failed (id : string) : tx bool := if is_empty id then tx_ret false else update (update_event failed id).

Definition find_by_id (id : string) : tx (option FilesOutboxEntity) := find_row id select_event files_outbox_from_row.

End repository.
End FilesOutboxRepository.
