(* ===== verification/FilesUpload.v ===== *)
(** * Files: upload sessions, chunks and finalization

    Models [src/files/service/upload_session_manager.cpp], [chunk_storage_service.cpp],
    [object_assembly_engine.cpp] and [file_finalization_service.cpp] with a database
    pool and an object store, as [main.cpp] configures them.  The object store keeps the
    body of every key; a request to it may fail, before or after it took effect, and
    is then reported as [S3ConnectionException].  Locks
    of the services only exclude interleavings and are left out. *)

From S2P Require Import Prelude Ids Prog FilesTypes FilesText FilesValidation FilesDb FilesRepo.

#[local] Open Scope Z_scope.

(** ** The object store *)

Definition put_object (key : string) (body : list Z) : fprog (result FilesExn unit) :=
  Tx (fun s => set_objects (<[key := body]> (objects s)) s) (fun _ => Ret (Ok tt)) (Ret (Err S3ConnectionException)).

Definition get_object (key : string) : fprog (result FilesExn (list Z)) :=
  Tx (fun s => s) (fun s => Ret (match objects s !! key with Some body => Ok body | None => Err S3ObjectNotFoundException end))
    (Ret (Err S3ConnectionException)).

(** The bytes from [first] to [last] that the object has; none is an error. *)
Definition get_object_range (key : string) (first last : Z) : fprog (result FilesExn (list Z)) :=
  Tx (fun s => s)
    (fun s => Ret (match objects s !! key with
                   | Some body =>
                       if bytes_size body <=? first then Err StdException
                       else Ok (take (Z.to_nat (last - first + 1)) (drop (Z.to_nat first) body))
                   | None => Err S3ObjectNotFoundException
                   end))
    (Ret (Err S3ConnectionException)).

Definition delete_object (key : string) : fprog (result FilesExn unit) :=
  Tx (fun s => set_objects (delete key (objects s)) s) (fun _ => Ret (Ok tt)) (Ret (Err S3ConnectionException)).

Definition tx_of {A} (p : fprog (result FilesExn A)) : tx A := fun w => let* r := p in Ret (r, w).
Definition tx_catch {A} (m : tx A) (handler : FilesExn -> tx A) : tx A :=
  fun w => let* (r, w) := m w in match r with Ok a => Ret (Ok a, w) | Err e => handler e w end.
Definition abort_throw {A} (e : FilesExn) : tx A := let! _ := abort in tx_throw e.

Definition ns_per_hour : Z := 3600 * 1000000000.

Section service.
Context (env : FilesEnv).

(** ** Upload sessions *)

Record CreateFileUploadRequest := mkUploadRequest {
  cu_file_id : string; cu_owner_user_id : string; cu_owner_device_id : string; cu_conversation_id : string;
  cu_encrypted_size_bytes : Z; cu_expected_chunk_count : Z; cu_encryption_version : string;
  cu_client_crypto_metadata : list Z }.

Definition cache_session (session : UploadSession) : fprog unit :=
  Atomic (fun s => set_cache (<[us_upload_id session := session]> (in_memory_cache s)) s) (fun _ => Ret tt).

Definition cached_session (upload_id : string) : fprog (option UploadSession) :=
  Atomic (fun s => s) (fun s => Ret (in_memory_cache s !! upload_id)).

Definition create_session (request : CreateFileUploadRequest) : fprog (option UploadSession) :=
  let* upload_id := new_uuid env in
  let* now := system_clock_now env in
  let expires_at := now + 24 * ns_per_hour in
  let* stored :=
    with_work (
      let! _ := FileTransferRepository.create_transfer
                  (mkTransferEntity upload_id (cu_file_id request) TransferType.Upload (cu_owner_user_id request)
                     (cu_owner_device_id request) TransferStatus.Created (i32 (cu_expected_chunk_count request)) 0
                     (i64 (cu_encrypted_size_bytes request)) 0 now now expires_at) in
      commit) in
  match stored with
  | Err _ => Ret None
  | Ok _ =>
      let session := mkSession upload_id (cu_file_id request) (cu_owner_user_id request) (cu_owner_device_id request)
                       (cu_conversation_id request) (cu_encrypted_size_bytes request) (cu_expected_chunk_count request) 0
                       (cu_encryption_version request) StatusPending expires_at in
      let* _ := cache_session session in Ret (Some session)
  end.

Definition proto_status (status : TransferStatus.t) : ProtoTransferStatus :=
  match status with
  | TransferStatus.Created => StatusPending
  | TransferStatus.Transferring => StatusInProgress
  | TransferStatus.Finalizing | TransferStatus.Completed => StatusCompleted
  | TransferStatus.Expired | TransferStatus.Failed => StatusFailed
  | TransferStatus.Cancelled => StatusCancelled
  end.

(** A lookup whose failure is logged and counts as nothing found. *)
Definition find_transfer (upload_id : string) : fprog (option FileTransferEntity) :=
  let* r := with_work (FileTransferRepository.find_by_id upload_id) in
  Ret (match r with Ok t => t | Err _ => None end).

Definition accepted_indices (upload_id : string) : fprog (list Z) :=
  let* r := with_work (FileChunkRepository.get_accepted_chunk_indices upload_id) in
  Ret (match r with Ok l => l | Err _ => [] end).

Definition reconstruct_session_from_storage (upload_id : string) : fprog (result FilesExn UploadSession) :=
  let* transfer_opt := find_transfer upload_id in
  match transfer_opt with
  | None =>
      let* cached := cached_session upload_id in
      Ret (match cached with Some session => Ok session | None => Err TransferNotFoundException end)
  | Some transfer =>
      let* accepted := accepted_indices upload_id in
      let* now := system_clock_now env in
      let expired := (expires_at transfer <? now) && negb (bool_decide (transfer_status transfer = TransferStatus.Cancelled))
                     && negb (bool_decide (transfer_status transfer = TransferStatus.Completed)) in
      let session := mkSession (transfer_id transfer) (transfer_file_id transfer) (initiator_user_id transfer)
                       (initiator_device_id transfer) EmptyString (u64 (total_bytes transfer)) (u32 (total_chunks transfer))
                       (Z.of_nat (length accepted)) EmptyString
                       (if expired then StatusFailed else proto_status (transfer_status transfer)) (expires_at transfer) in
      let* _ := Atomic (fun s => set_cache (<[upload_id := session]> (in_memory_cache s)) s) (fun _ => Ret tt) in
      Ret (Ok session)
  end.

Definition with_session_status (status : ProtoTransferStatus) (x : UploadSession) : UploadSession :=
  mkSession (us_upload_id x) (us_file_id x) (us_owner_user_id x) (us_owner_device_id x) (us_conversation_id x)
    (us_encrypted_size_bytes x) (us_expected_chunk_count x) (us_uploaded_chunk_count x) (us_encryption_version x) status (us_expires_at x).

Definition set_session (upload_id : string) (session : UploadSession) : fprog unit :=
  Atomic (fun s => set_cache (<[upload_id := session]> (in_memory_cache s)) s) (fun _ => Ret tt).

Definition get_session (upload_id : string) : fprog (option UploadSession) :=
  let* cached := cached_session upload_id in
  match cached with
  | Some session =>
      let* now := system_clock_now env in
      if (us_expires_at session <? now) && negb (bool_decide (us_status session = StatusCancelled))
         && negb (bool_decide (us_status session = StatusCompleted))
      then let session := with_session_status StatusFailed session in let* _ := set_session upload_id session in Ret (Some session)
      else Ret (Some session)
  | None => let* r := reconstruct_session_from_storage upload_id in Ret (match r with Ok session => Some session | Err _ => None end)
  end.

Record TransferProgress := mkProgress {
  tp_transfer_id : string; tp_file_id : string; tp_status : TransferStatus.t; tp_total_chunks : Z; tp_accepted_chunks : Z;
  tp_transferred_bytes : Z; tp_total_bytes : Z; tp_accepted_chunk_indices : list Z; tp_missing_chunk_indices : list Z;
  tp_expires_at : Z; tp_is_expired : bool; tp_is_complete : bool }.

(** [for (i = first; i < last; ++i)]. *)
Definition range (first last : Z) : list Z := (fun k => first + Z.of_nat k) <$> seq 0 (Z.to_nat (last - first)).

Definition missing_indices (total : Z) (accepted : list Z) : list Z :=
  filter (fun i => i ∉ accepted) (range 0 total).

(** Progress from the cache, for a session the database does not know. *)
Definition cached_progress (now : Z) (x : UploadSession) : TransferProgress :=
  let is_expired := us_expires_at x <=? now in
  let full := (us_uploaded_chunk_count x =? us_expected_chunk_count x) && (0 <? us_expected_chunk_count x) in
  let status :=
    if bool_decide (us_status x = StatusCancelled) then TransferStatus.Cancelled
    else if is_expired then TransferStatus.Expired
    else if full then TransferStatus.Completed
    else if 0 <? us_uploaded_chunk_count x then TransferStatus.Transferring
    else TransferStatus.Created in
  mkProgress (us_upload_id x) (us_file_id x) status (us_expected_chunk_count x) (us_uploaded_chunk_count x) 0
    (i64 (us_encrypted_size_bytes x)) (range 0 (us_uploaded_chunk_count x))
    (range (us_uploaded_chunk_count x) (us_expected_chunk_count x)) (us_expires_at x) is_expired full.

Definition stored_progress (transfer : FileTransferEntity) (status : TransferStatus.t) (is_expired : bool) (accepted : list Z) : TransferProgress :=
  mkProgress (transfer_id transfer) (transfer_file_id transfer) status (u32 (total_chunks transfer)) (Z.of_nat (length accepted))
    (transferred_bytes transfer) (total_bytes transfer) accepted (missing_indices (total_chunks transfer) accepted) (expires_at transfer)
    is_expired ((0 <? total_chunks transfer) && (Z.of_nat (length accepted) =? total_chunks transfer)).

Definition get_transfer_progress (upload_id : string) : fprog (result FilesExn TransferProgress) :=
  let* transfer_opt := find_transfer upload_id in
  let* now := system_clock_now env in
  match transfer_opt with
  | Some transfer =>
      let is_expired := expires_at transfer <=? now in
      let expire := is_expired && negb (bool_decide (transfer_status transfer = TransferStatus.Cancelled))
                    && negb (bool_decide (transfer_status transfer = TransferStatus.Completed)) in
      let* _ := (if expire then let* _ := committing (FileTransferRepository.update_status env upload_id TransferStatus.Expired) in Ret tt
                 else Ret tt) in
      let* accepted := accepted_indices upload_id in
      Ret (Ok (stored_progress transfer (if expire then TransferStatus.Expired else transfer_status transfer) is_expired accepted))
  | None =>
      let* cached := cached_session upload_id in
      Ret (match cached with Some x => Ok (cached_progress now x) | None => Err TransferNotFoundException end)
  end.

Definition get_missing_chunk_indices (upload_id : string) : fprog (result FilesExn (list Z)) :=
  try* progress := get_transfer_progress upload_id in Ret (Ok (tp_missing_chunk_indices progress)).

(** Changes the cached session, if there is one. *)
Definition touch_session (upload_id : string) (f : UploadSession -> UploadSession) : fprog bool :=
  Atomic (fun s => match in_memory_cache s !! upload_id with
                   | Some x => set_cache (<[upload_id := f x]> (in_memory_cache s)) s
                   | None => s
                   end)
    (fun s => Ret (bool_decide (is_Some (in_memory_cache s !! upload_id)))).

Definition cancel_session (upload_id : string) : fprog bool :=
  let* transfer_opt := find_transfer upload_id in
  let* found :=
    match transfer_opt with
    | Some _ =>
        let* r := committing (FileTransferRepository.update_status env upload_id TransferStatus.Cancelled) in
        Ret (is_ok r)
    | None => Ret false
    end in
  let* cached := touch_session upload_id (with_session_status StatusCancelled) in
  Ret (found || cached).

Definition record_chunk_upload (upload_id : string) : fprog bool :=
  touch_session upload_id (fun x =>
    mkSession (us_upload_id x) (us_file_id x) (us_owner_user_id x) (us_owner_device_id x) (us_conversation_id x)
      (us_encrypted_size_bytes x) (us_expected_chunk_count x) (u32 (us_uploaded_chunk_count x + 1)) (us_encryption_version x)
      StatusInProgress (us_expires_at x)).

Definition finalize_session (upload_id : string) : fprog bool := touch_session upload_id (with_session_status StatusCompleted).

(** ** Chunks *)

Record ChunkStoreResult := mkChunkStored {
  cs_accepted : bool; cs_is_duplicate : bool; cs_received_sha256 : string; cs_chunk_index : Z; cs_bytes_written : Z }.

Definition build_staging_key (upload_id : string) (chunk_index : Z) : string :=
  String.append "staging/" (String.append upload_id (String.append "/" (decimal chunk_index))).

Definition chunk_stored (dto : ChunkPayloadDto) (is_duplicate : bool) : ChunkStoreResult :=
  mkChunkStored true is_duplicate (cp_claimed_sha256 dto) (cp_chunk_index dto) (cp_chunk_size_bytes dto).

(** Who may upload to the transfer besides its initiator. *)
Definition trusted_uploader (caller : string) : bool :=
  is_empty caller || bool_decide (caller = "gateway") || bool_decide (caller = "DNS:gateway").

Definition store_chunk (dto : ChunkPayloadDto) (caller_user_id : string) : fprog (result FilesExn ChunkStoreResult) :=
  let staging_key := build_staging_key (cp_upload_id dto) (cp_chunk_index dto) in
  let* now := system_clock_now env in
  with_work (
    let! transfer_opt := FileTransferRepository.find_by_id (cp_upload_id dto) in
    match transfer_opt with
    | None => abort_throw TransferNotFoundException
    | Some transfer =>
        if negb (trusted_uploader caller_user_id) && negb (bool_decide (initiator_user_id transfer = caller_user_id))
        then abort_throw UnauthorizedTransferException
        else if bool_decide (transfer_status transfer = TransferStatus.Cancelled) then abort_throw TransferCancelledException
        else if bool_decide (transfer_status transfer = TransferStatus.Expired) then abort_throw TransferExpiredException
        else if bool_decide (transfer_status transfer = TransferStatus.Completed) then abort_throw TransferException
        else if expires_at transfer <? now then
          let! _ := FileTransferRepository.update_status env (cp_upload_id dto) TransferStatus.Expired in
          let! _ := commit in tx_throw TransferExpiredException
        else
          let! existing_chunks := FileChunkRepository.list_chunks_for_transfer (cp_upload_id dto) in
          match List.find (fun ec => chunk_index ec =? i32 (cp_chunk_index dto)) existing_chunks with
          | Some ec =>
              if hashes_equal (chunk_hash_sha256 ec) (cp_claimed_sha256 dto)
              then let! _ := commit in tx_ret (chunk_stored dto true)
              else abort_throw ChunkIntegrityException
          | None =>
              let! _ := tx_of (put_object staging_key (cp_encrypted_data dto)) in
              let! chunk_id := tx_lift (new_uuid env) in
              let! recorded := FileChunkRepository.record_chunk
                  (mkChunkEntity chunk_id (cp_upload_id dto) (i32 (cp_chunk_index dto)) (cp_chunk_index dto * k_standard_chunk_size)
                     (i32 (cp_chunk_size_bytes dto)) (cp_claimed_sha256 dto) staging_key ChunkStatus.Received now) in
              match recorded with
              | ConflictHashMismatch => abort_throw ChunkIntegrityException
              | AlreadyExistsIdentical => let! _ := commit in tx_ret (chunk_stored dto true)
              | NewlyInserted =>
                  let! _ :=
                    (if bool_decide (transfer_status transfer = TransferStatus.Created) then
                       let! _ := FileTransferRepository.update_status env (cp_upload_id dto) TransferStatus.Transferring in
                       FileRepository.update_status env (transfer_file_id transfer) FileStatus.Created FileStatus.Uploading
                     else tx_ret true) in
                  let! _ := FileTransferRepository.increment_chunk_progress env (cp_upload_id dto) (cp_chunk_size_bytes dto) in
                  let! accepted_count := FileChunkRepository.count_accepted_chunks (cp_upload_id dto) in
                  let! _ :=
                    (if (0 <? total_chunks transfer) && (total_chunks transfer <=? accepted_count)
                     then FileTransferRepository.update_status env (cp_upload_id dto) TransferStatus.Finalizing
                     else tx_ret true) in
                  let! _ := commit in tx_ret (chunk_stored dto false)
              end
          end
    end).

(** ** Assembly of a version *)

Record AssemblyResult := mkAssembly { target_object_key : string; as_total_bytes : Z; computed_sha256 : string }.

Definition build_version_key (id : string) (version : Z) : string :=
  String.append "objects/" (String.append id (String.append "/" (decimal version))).

(** The bodies of the chunks, in order, each checked against its recorded digest. *)
Fixpoint fetch_chunks (chunks : list FileChunkEntity) : fprog (result FilesExn (list Z)) :=
  match chunks with
  | [] => Ret (Ok [])
  | chunk :: chunks =>
      try* body := get_object (minio_chunk_key chunk) in
      if negb (hashes_equal (compute_sha256_hex (sha256 env) body) (chunk_hash_sha256 chunk)) then Ret (Err S3IntegrityException)
      else try* rest := fetch_chunks chunks in Ret (Ok (body ++ rest))
  end.

Definition assemble_version_object (id : string) (target_version : Z) (ordered_chunks : list FileChunkEntity)
  : fprog (result FilesExn AssemblyResult) :=
  let target_key := build_version_key id target_version in
  let* payload :=
    (if bool_decide (ordered_chunks = []) then Ret (Ok []) else fetch_chunks (sort_chunks ordered_chunks)) in
  match payload with
  | Err e => Ret (Err e)
  | Ok assembled_payload =>
      try* _ := put_object target_key assembled_payload in
      Ret (Ok (mkAssembly target_key (bytes_size assembled_payload) (compute_sha256_hex (sha256 env) assembled_payload)))
  end.

(** Failures are logged. *)
Fixpoint cleanup_staging_chunks (ordered_chunks : list FileChunkEntity) : fprog unit :=
  match ordered_chunks with
  | [] => Ret tt
  | chunk :: rest =>
      let* _ := (if is_empty (minio_chunk_key chunk) then Ret (Ok tt) else delete_object (minio_chunk_key chunk)) in
      cleanup_staging_chunks rest
  end.

(** ** Finalization *)

Record FinalizeUploadRequestDto := mkFinalizeRequest {
  fr_upload_id : string; fr_file_id : string; fr_caller_user_id : string; fr_expected_ciphertext_sha256 : string }.

Record FinalizeUploadResultDto := mkFinalizeResult {
  ff_file_id : string; ff_version_number : Z; ff_total_bytes : Z; ff_checksum_sha256 : string; ff_available_at : Z;
  ff_is_idempotent_replay : bool }.

Definition replay_of (id : string) (v : FileVersionEntity) : FinalizeUploadResultDto :=
  mkFinalizeResult id (version_number v) (u64 (version_size v)) (checksum_sha256 v) (version_created_at v) true.

(** Steps 1 to 4: the session, its file and the caller. *)
Definition finalize_lookup (request : FinalizeUploadRequestDto) : tx (FileTransferEntity * FileEntity) :=
  let! transfer_opt := FileTransferRepository.find_by_id (fr_upload_id request) in
  match transfer_opt with
  | None => abort_throw EntityNotFoundException
  | Some transfer =>
      if negb (is_empty (fr_file_id request)) && negb (bool_decide (fr_file_id request = transfer_file_id transfer))
      then abort_throw FinalizationPreconditionException
      else
        let! file_opt := FileRepository.find_by_id (transfer_file_id transfer) in
        match file_opt with
        | None => abort_throw EntityNotFoundException
        | Some file =>
            if negb (is_empty (fr_caller_user_id request)) && negb (bool_decide (owner_user_id file = fr_caller_user_id request))
            then abort_throw FinalizationPreconditionException
            else tx_ret (transfer, file)
        end
  end.

Definition with_status_finalizing (t : FileTransferEntity) : FileTransferEntity :=
  mkTransferEntity (transfer_id t) (transfer_file_id t) (transfer_type t) (initiator_user_id t) (initiator_device_id t)
    TransferStatus.Finalizing (total_chunks t) (accepted_chunks t) (total_bytes t) (transferred_bytes t) (transfer_created_at t)
    (transfer_updated_at t) (expires_at t).

Definition with_file_finalizing (f : FileEntity) : FileEntity :=
  mkFileEntity (file_id f) (owner_user_id f) (owner_device_id f) (conversation_id f) (encrypted_size f) (content_type f)
    (encryption_algorithm f) FileStatus.Finalizing (retention_until f) (file_created_at f) (file_updated_at f).

(** Steps 7 to 11: both rows move to [Finalizing], the chunks are validated and
    assembled, and the digest is compared. *)
Definition finalize_assemble (request : FinalizeUploadRequestDto) (transfer : FileTransferEntity) (file : FileEntity)
  : tx (list FileChunkEntity * Z * AssemblyResult) :=
  let! _ := FileTransferRepository.update_status env (transfer_id transfer) TransferStatus.Finalizing in
  let! _ := FileRepository.update_status env (file_id file) (file_status file) FileStatus.Finalizing in
  let! chunks := FileChunkRepository.list_chunks_for_transfer (transfer_id transfer) in
  match validate_finalization_preconditions
          (mkFinalizationInput (with_status_finalizing transfer) (with_file_finalizing file) chunks (fr_expected_ciphertext_sha256 request)) with
  | Err _ => abort_throw FinalizationPreconditionException
  | Ok _ =>
      let! latest_ver := FileVersionRepository.find_active_version (file_id file) in
      let target_version := match latest_ver with Some v => u32 (version_number v + 1) | None => 1 end in
      let! assembly := tx_of (assemble_version_object (file_id file) target_version chunks) in
      if negb (is_empty (fr_expected_ciphertext_sha256 request))
         && negb (hashes_equal (computed_sha256 assembly) (fr_expected_ciphertext_sha256 request))
      then abort_throw ChunkIntegrityException
      else tx_ret (chunks, target_version, assembly)
  end.

Definition quoted (s : string) : string := String.append (String (chr 34) s) (String (chr 34) EmptyString).

Definition available_payload (file : FileEntity) (target_version : Z) (assembly : AssemblyResult) : string :=
  String.concat EmptyString
    [ "{"; quoted "file_id"; ":"; quoted (file_id file); ","; quoted "version_number"; ":"; decimal target_version;
      ","; quoted "owner_user_id"; ":"; quoted (owner_user_id file); ","; quoted "checksum_sha256"; ":";
      quoted (computed_sha256 assembly); ","; quoted "total_bytes"; ":"; decimal (as_total_bytes assembly); "}" ].

(** Step 12: the version, the states and the event in one commit. *)
Definition publish_version (transfer : FileTransferEntity) (file : FileEntity) (target_version : Z) (assembly : AssemblyResult)
    (version_id : string) (now : Z) : tx FinalizeUploadResultDto :=
  let! _ := FileVersionRepository.create_version
              (mkVersionEntity version_id (file_id file) (i32 target_version) (i64 (as_total_bytes assembly)) (target_object_key assembly)
                 (computed_sha256 assembly) now true) in
  let! _ := FileRepository.update_status env (file_id file) FileStatus.Finalizing FileStatus.Available in
  let! _ := FileTransferRepository.update_status env (transfer_id transfer) TransferStatus.Completed in
  let! event_id := tx_lift (new_uuid env) in
  let! _ := FilesOutboxRepository.stage_event
              (mkOutboxEntity event_id "FILE" (file_id file) "FILE_AVAILABLE" (available_payload file target_version assembly)
                 OutboxStatus.Pending 0 now None) in
  let! _ := commit in
  tx_ret (mkFinalizeResult (file_id file) (i32 target_version) (as_total_bytes assembly) (computed_sha256 assembly) now false).

(** The version was published by somebody else: answer with theirs. *)
Definition replay_published (id : string) : fprog (result FilesExn FinalizeUploadResultDto) :=
  with_work (
    let! active_ver := FileVersionRepository.find_active_version id in
    match active_ver with
    | Some v => let! _ := commit in tx_ret (replay_of id v)
    | None => tx_throw UniqueConstraintViolationException
    end).

Definition publish_lost_race (file : FileEntity) : tx FinalizeUploadResultDto :=
  let! _ := abort in tx_of (replay_published (file_id file)).

Definition finalize_file_upload (request : FinalizeUploadRequestDto) : fprog (result FilesExn FinalizeUploadResultDto) :=
  if is_empty (fr_upload_id request) then Ret (Err FinalizationPreconditionException)
  else
    with_work (
      let! (transfer, file) := finalize_lookup request in
      let! replay :=
        (if bool_decide (transfer_status transfer = TransferStatus.Completed) || bool_decide (file_status file = FileStatus.Available)
         then FileVersionRepository.find_active_version (file_id file) else tx_ret None) in
      match replay with
      | Some active_ver => let! _ := commit in tx_ret (replay_of (file_id file) active_ver)
      | None =>
          if bool_decide (transfer_status transfer = TransferStatus.Cancelled) || bool_decide (transfer_status transfer = TransferStatus.Expired)
             || bool_decide (transfer_status transfer = TransferStatus.Failed)
          then abort_throw FinalizationPreconditionException
          else
            let! (chunks, target_version, assembly) := finalize_assemble request transfer file in
            let! now := tx_lift (system_clock_now env) in
            let! version_id := tx_lift (new_uuid env) in
            let! result :=
              tx_catch (publish_version transfer file target_version assembly version_id now)
                (fun e => if bool_decide (e = UniqueConstraintViolationException) then publish_lost_race file else tx_throw e) in
            if ff_is_idempotent_replay result then tx_ret result
            else let! _ := tx_lift (cleanup_staging_chunks chunks) in tx_ret result
      end).

End service.
