(* ===== verification/FilesLifecycle.v ===== *)
(** * Files: lifecycle, metadata and downloads

    Models [src/files/service/file_lifecycle_service.cpp], [metadata_manager.hpp],
    [chunk_download_engine.cpp] and [download_manager.cpp]: creation, versions,
    transitions, deletion and expiry of files, the checks of ownership and grants, and
    the lookup and fetch of a chunk. *)

From S2P Require Import Prelude Ids Prog FilesTypes FilesText FilesValidation FilesDb FilesRepo FilesUpload.

#[local] Open Scope Z_scope.

Section service.
Context (env : FilesEnv).

(** ** Lifecycle *)

Definition event_type_for_status (status : FileStatus.t) : string :=
  match status with
  | FileStatus.Available => "FILE_AVAILABLE"
  | FileStatus.Failed => "FILE_FAILED"
  | FileStatus.Expired => "FILE_EXPIRED"
  | FileStatus.Deleted => "FILE_DELETED"
  | FileStatus.Uploading => "FILE_UPLOADING"
  | FileStatus.Finalizing => "FILE_FINALIZING"
  | FileStatus.Created => "FILE_CREATED"
  end.

(** An event about a file, as every operation stages it. *)
Definition stage_file_event (id type : string) (payload : list (string * JsonField)) (now : Z) : tx unit :=
  let! event_id := tx_lift (new_uuid env) in
  FilesOutboxRepository.stage_event (mkOutboxEntity event_id "FILE" id type (print_json env payload) OutboxStatus.Pending 0 now None).

Definition trusted_caller (caller : string) : bool :=
  is_empty caller || bool_decide (caller = "system") || bool_decide (caller = "authenticated_peer") || bool_decide (caller = "gateway").

Definition check_ownership_or_access (file : FileEntity) (caller_user_id permission : string) : tx bool :=
  if trusted_caller caller_user_id then tx_ret true
  else if bool_decide (owner_user_id file = caller_user_id) then tx_ret true
  else
    let perm := if bool_decide (permission = "WRITE") || bool_decide (permission = "ADMIN") then FilePermission.Write else FilePermission.Read in
    FileAccessRepository.check_access (file_id file) caller_user_id perm.

Definition create_file (dto : CreateFileRequestDto) (now : Z) : fprog (result FilesExn string) :=
  match validate_create_file_request dto now with
  | Err _ => Ret (Err FileLifecycleValidationException)
  | Ok _ =>
      with_work (
        let! existing := FileRepository.find_by_id (cf_file_id dto) in
        match existing with
        | Some _ => tx_throw FileLifecycleValidationException
        | None =>
            let file := mkFileEntity (cf_file_id dto) (cf_owner_user_id dto) (cf_owner_device_id dto) (cf_conversation_id dto)
                          (i64 (cf_encrypted_size_bytes dto)) None (cf_encryption_algorithm dto) FileStatus.Created
                          (cf_retention_until dto) now now in
            let meta := mkMetadataEntity (cf_file_id dto) (cf_encrypted_filename dto) (cf_encrypted_mime_type dto) (cf_metadata_nonce dto)
                          (cf_metadata_tag dto) (cf_client_encryption_metadata_json dto) now in
            let! _ := FileRepository.create_file file meta in
            let! _ := stage_file_event (cf_file_id dto) "FILE_CREATED"
                        [("file_id", JText (cf_file_id dto)); ("owner_user_id", JText (cf_owner_user_id dto));
                         ("encrypted_size", JNumber (cf_encrypted_size_bytes dto)); ("chunk_count", JNumber (cf_expected_chunk_count dto))]%string now in
            let! _ := commit in tx_ret (cf_file_id dto)
        end)
  end.

(** A version whose object key is that of another content may not be created. *)
Definition key_reused (dto : CreateFileVersionRequestDto) (v : FileVersionEntity) : bool :=
  bool_decide (minio_object_key v = cv_minio_object_key dto) && negb (bool_decide (checksum_sha256 v = cv_checksum_sha256 dto)).

Definition max_version (versions : list FileVersionEntity) : Z := foldl (fun m v => if m <? version_number v then version_number v else m) 0 versions.

Definition create_file_version (dto : CreateFileVersionRequestDto) (caller_user_id : string) : fprog (result FilesExn FileVersionEntity) :=
  match validate_create_version_request dto with
  | Err _ => Ret (Err FileLifecycleValidationException)
  | Ok _ =>
      with_work (
        let! file_opt := FileRepository.find_by_id (cv_file_id dto) in
        match file_opt with
        | None => tx_throw FileNotFoundException
        | Some file =>
            let! allowed := check_ownership_or_access file caller_user_id "WRITE" in
            if negb allowed then tx_throw UnauthorizedFileAccessException
            else
              let! existing_versions := FileVersionRepository.list_versions (cv_file_id dto) in
              if existsb (key_reused dto) existing_versions then tx_throw ImmutableVersionException
              else
                let max_ver := max_version existing_versions in
                let assigned_version := if max_ver <? cv_version_number dto then cv_version_number dto else i32 (max_ver + 1) in
                let! now := tx_lift (system_clock_now env) in
                let! version_id := tx_lift (new_uuid env) in
                let version := mkVersionEntity version_id (cv_file_id dto) assigned_version (i64 (cv_encrypted_size_bytes dto))
                                 (cv_minio_object_key dto) (cv_checksum_sha256 dto) now true in
                let! _ := FileVersionRepository.create_version version in
                let! _ := stage_file_event (cv_file_id dto) "FILE_VERSION_CREATED"
                            [("file_id", JText (cv_file_id dto)); ("version_id", JText version_id);
                             ("version_number", JNumber assigned_version); ("minio_object_key", JText (cv_minio_object_key dto));
                             ("checksum_sha256", JText (cv_checksum_sha256 dto))]%string now in
                let! _ := commit in tx_ret version
        end)
  end.

Definition reason_field (reason : string) : list (string * JsonField) :=
  if is_empty reason then [] else [("reason"%string, JText reason)].

Definition transition_lifecycle (id : string) (expected_current new_status : FileStatus.t) (caller_user_id reason : string)
  : fprog (result FilesExn bool) :=
  match assert_valid_state_transition expected_current new_status with
  | Err e => Ret (Err e)
  | Ok _ =>
      with_work (
        let! file_opt := FileRepository.find_by_id id in
        match file_opt with
        | None => tx_throw FileNotFoundException
        | Some file =>
            let! allowed := check_ownership_or_access file caller_user_id "WRITE" in
            if negb allowed then tx_throw UnauthorizedFileAccessException
            else
              let! updated := FileRepository.update_status env id expected_current new_status in
              if negb updated then tx_ret false
              else
                let! now := tx_lift (system_clock_now env) in
                let! _ := stage_file_event id (event_type_for_status new_status)
                            ([("file_id", JText id); ("old_status", JText (FileStatus.to_string expected_current));
                              ("new_status", JText (FileStatus.to_string new_status))]%string ++ reason_field reason) now in
                let! _ := commit in tx_ret true
        end)
  end.

Record FileMetadataSummary := mkSummary {
  sum_file : FileEntity; sum_encrypted_meta : option EncryptedFileMetadataEntity; sum_active_version : option FileVersionEntity;
  sum_all_versions : list FileVersionEntity; sum_expected_chunk_count : Z }.

(** A missing metadata row leaves a default entity, [None] here. *)
Definition get_file_metadata (id caller_user_id : string) : fprog (result FilesExn (option FileMetadataSummary)) :=
  with_work (
    let! file_opt := FileRepository.find_by_id id in
    match file_opt with
    | None => tx_ret None
    | Some file =>
        let! allowed := check_ownership_or_access file caller_user_id "READ" in
        if negb allowed then tx_throw UnauthorizedFileAccessException
        else
          let! meta_opt := FileRepository.find_encrypted_metadata id in
          let! active_version := FileVersionRepository.find_active_version id in
          let! all_versions := FileVersionRepository.list_versions id in
          tx_ret (Some (mkSummary file meta_opt active_version all_versions
                          (calculate_expected_chunk_count (u64 (encrypted_size file)) k_standard_chunk_size)))
    end).

Definition delete_file (id caller_user_id reason : string) : fprog (result FilesExn bool) :=
  with_work (
    let! file_opt := FileRepository.find_by_id id in
    match file_opt with
    | None => tx_throw FileNotFoundException
    | Some file =>
        let! allowed := check_ownership_or_access file caller_user_id "WRITE" in
        if negb allowed then tx_throw UnauthorizedFileAccessException
        else if bool_decide (file_status file = FileStatus.Deleted) then tx_ret true
        else
          let! _ := tx_result (assert_valid_state_transition (file_status file) FileStatus.Deleted) in
          let! updated := FileRepository.update_status env id (file_status file) FileStatus.Deleted in
          if negb updated then tx_ret false
          else
            let! now := tx_lift (system_clock_now env) in
            let! _ := stage_file_event id "FILE_DELETED"
                        ([("file_id", JText id); ("deleted_at", JNumber (to_ms now))]%string ++ reason_field reason) now in
            let! _ := commit in tx_ret true
    end).

(** The loop over the files found; each may be moved to [Expired]. *)
Fixpoint expire_each (now : Z) (expired_files : list FileEntity) (count : Z) : tx Z :=
  match expired_files with
  | [] => tx_ret count
  | file :: rest =>
      if is_valid_state_transition (file_status file) FileStatus.Expired then
        let! updated := FileRepository.update_status env (file_id file) (file_status file) FileStatus.Expired in
        if updated : bool then
          let! _ := stage_file_event (file_id file) "FILE_EXPIRED"
                      [("file_id", JText (file_id file)); ("expired_at", JNumber (to_ms now))]%string now in
          expire_each now rest (count + 1)
        else expire_each now rest count
      else expire_each now rest count
  end.

Definition evaluate_and_expire_files (now batch_size : Z) : fprog (result FilesExn Z) :=
  with_work (
    let! expired_files := FileRepository.find_expired_files now batch_size in
    let! count := expire_each now expired_files 0 in
    let! _ := commit in tx_ret count).

(** ** The metadata manager, which answers [false] for every failure *)

Definition update_file_state (id : string) (new_state : FileLifecycleState) : fprog bool :=
  let* current_meta := get_file_metadata id "system" in
  match current_meta with
  | Ok (Some summary) =>
      match from_proto new_state with
      | Ok target_status =>
          let* r := transition_lifecycle id (file_status (sum_file summary)) target_status "system" EmptyString in
          Ret (match r with Ok b => b | Err _ => false end)
      | Err _ => Ret false
      end
  | _ => Ret false
  end.

Definition mark_file_deleted (id : string) : fprog bool :=
  let* r := delete_file id "system" EmptyString in Ret (match r with Ok b => b | Err _ => false end).

(** ** Downloads *)

Record ChunkFetchResult := mkFetched {
  cd_version_number : Z; cd_chunk_index : Z; cd_encrypted_data : list Z; cd_chunk_size_bytes : Z; cd_ciphertext_sha256 : string }.

Definition fetch_chunk (id : string) (version chunk_index total_file_size standard_chunk_size : Z) : fprog (result FilesExn ChunkFetchResult) :=
  match calculate_chunk_byte_range total_file_size chunk_index standard_chunk_size with
  | None => Ret (Err OutOfRange)
  | Some r =>
      if total_file_size =? 0 then Ret (Ok (mkFetched version 0 [] 0 (compute_sha256_hex (sha256 env) [])))
      else
        try* body := get_object_range (build_version_key id version) (start_byte r) (end_byte r) in
        Ret (Ok (mkFetched version chunk_index body (u32 (bytes_size body)) (compute_sha256_hex (sha256 env) body)))
  end.

(** Steps 1 to 4 of a download: the file, the permission, its state and the version. *)
Definition download_lookup (id : string) (version : Z) (caller_user_id : string) : tx (FileEntity * FileVersionEntity * bool) :=
  let! file_opt := FileRepository.find_by_id id in
  match file_opt with
  | None => tx_throw FileNotFoundException
  | Some file =>
      let is_trusted_peer := trusted_caller caller_user_id in
      let is_owner := negb (is_empty caller_user_id) && bool_decide (owner_user_id file = caller_user_id) in
      let! has_read_perm :=
        (if negb is_owner && negb is_trusted_peer && negb (is_empty caller_user_id)
         then FileAccessRepository.check_access id caller_user_id FilePermission.Read else tx_ret is_trusted_peer) in
      if negb is_owner && negb has_read_perm then tx_throw UnauthorizedFileAccessException
      else if negb (bool_decide (file_status file = FileStatus.Available)) then tx_throw InvalidDownloadPreconditionException
      else
        let! version_opt :=
          (if 0 <? version then
             let! versions := FileVersionRepository.list_versions id in tx_ret (List.find (fun v => version_number v =? version) versions)
           else FileVersionRepository.find_active_version id) in
        match version_opt with
        | None => tx_throw EntityNotFoundException
        | Some v => tx_ret (file, v, is_owner || has_read_perm)
        end
  end.

Definition get_chunk_versioned (id : string) (version chunk_index : Z) (caller_user_id : string) : fprog (result FilesExn ChunkFetchResult) :=
  with_work (
    let! (file, v, permitted) := download_lookup id version caller_user_id in
    match validate_download_preconditions (mkDownloadInput id version chunk_index file (Some v) caller_user_id permitted) with
    | Err ChunkOutOfBounds => tx_throw OutOfRange
    | Err (DownloadRefused _) => tx_throw InvalidDownloadPreconditionException
    | Ok _ => tx_of (fetch_chunk id (version_number v) chunk_index (u64 (version_size v)) k_standard_chunk_size)
    end).

Definition get_chunk (id : string) (chunk_index : Z) : fprog (option ChunkFetchResult) :=
  let* r := get_chunk_versioned id 0 chunk_index EmptyString in Ret (match r with Ok c => Some c | Err _ => None end).

Definition authorize_download (id caller_user_id : string) : fprog bool :=
  if is_empty caller_user_id then Ret false
  else if bool_decide (caller_user_id = "system") || bool_decide (caller_user_id = "authenticated_peer") || bool_decide (caller_user_id = "gateway")
  then Ret true
  else
    let* r := with_work (
      let! file_opt := FileRepository.find_by_id id in
      match file_opt with
      | None => tx_ret false
      | Some file =>
          if bool_decide (owner_user_id file = caller_user_id) then tx_ret true
          else FileAccessRepository.check_access id caller_user_id FilePermission.Read
      end) in
    Ret (match r with Ok b => b | Err _ => false end).

Record DownloadResumeModel := mkResume {
  rs_version_number : Z; rs_starting_chunk : Z; rs_total_chunks : Z; rs_total_bytes : Z; rs_ciphertext_sha256 : string }.

Definition prepare_resume_session (id : string) (version starting_chunk : Z) (caller_user_id : string) : fprog (result FilesExn DownloadResumeModel) :=
  with_work (
    let! (_, v, _) := download_lookup id version caller_user_id in
    let total_bytes := u64 (version_size v) in
    let total_chunks := if total_bytes =? 0 then 0 else u32 (u64 (total_bytes + k_standard_chunk_size - 1) / k_standard_chunk_size) in
    if (0 <? starting_chunk) && (total_chunks <=? starting_chunk) then tx_throw OutOfRange
    else tx_ret (mkResume (version_number v) starting_chunk total_chunks total_bytes (checksum_sha256 v))).

End service.
