(* ===== verification/FilesServer.v ===== *)
(** * Files: the gRPC service and the outbox relay

    Models the seven handlers of [src/files/service/files_service_impl.cpp] in the
    configuration of [main.cpp] (a pool, an object store, no bulkheads and no memory
    tracker), the capability check they share and the polling of
    [audit/files_outbox_relay.cpp].  A reply is a response or the code of a status. *)

From S2P Require Import Prelude Ids Prog FilesTypes FilesText FilesValidation FilesDb FilesRepo FilesUpload FilesLifecycle.

#[local] Open Scope Z_scope.

Inductive StatusCode :=
  | INVALID_ARGUMENT | NOT_FOUND | FAILED_PRECONDITION | PERMISSION_DENIED | UNAUTHENTICATED | RESOURCE_EXHAUSTED
  | DEADLINE_EXCEEDED | OUT_OF_RANGE | INTERNAL | UNAVAILABLE.

#[global] Instance StatusCode_eq_dec : EqDecision StatusCode.
Proof. solve_decision. Defined.

(** ** The peer *)

(** What mTLS tells about the caller: nothing, or the identity in its certificate. *)
Inductive Peer := Unauthenticated | Authenticated (identity : option string).

Definition check_peer_authorization (expected_client_identity : string) (peer : Peer) : result StatusCode string :=
  if negb (is_empty expected_client_identity) then
    match peer with
    | Unauthenticated => Err UNAUTHENTICATED
    | Authenticated identity =>
        match identity with
        | Some name => if bool_decide (name = expected_client_identity) then Ok name else Err PERMISSION_DENIED
        | None => Err PERMISSION_DENIED
        end
    end
  else
    match peer with
    | Authenticated identity => Ok (default "authenticated_peer"%string identity)
    | Unauthenticated => Ok "unauthenticated"%string
    end.

Definition validate_size (bytes max_allowed_bytes : Z) : bool := negb (bytes =? 0) && (bytes <=? max_allowed_bytes).

Record ServerConfig := mkServerConfig {
  expected_client_identity : string; max_chunk_request_bytes : Z; max_file_transfer_bytes : Z }.

Definition default_config : ServerConfig := mkServerConfig "gateway" (5 * 1024 * 1024) (10 * 1024 * 1024 * 1024).

Section server.
Context (env : FilesEnv) (config : ServerConfig).

Definition as_peer {A} (peer : Peer) (k : string -> fprog (result StatusCode A)) : fprog (result StatusCode A) :=
  match check_peer_authorization (expected_client_identity config) peer with
  | Err code => Ret (Err code)
  | Ok peer_identity => k peer_identity
  end.

(** ** CreateFileUpload *)

Record CreateFileUploadResponse := mkUploadResponse { ur_upload_id : string; ur_file_id : string; ur_expires_at_unix_ms : Z }.

Definition upload_dto (target_file_id : string) (request : CreateFileUploadRequest) : CreateFileRequestDto :=
  mkCreateFile target_file_id (cu_owner_user_id request) (cu_owner_device_id request)
    (if is_empty (cu_conversation_id request) then None else Some (cu_conversation_id request)) (cu_encrypted_size_bytes request)
    (cu_expected_chunk_count request)
    (if is_empty (cu_encryption_version request) then k_approved_encryption_algorithm else cu_encryption_version request)
    [] None [] [] "{}" None.

Definition for_file (target_file_id : string) (request : CreateFileUploadRequest) : CreateFileUploadRequest :=
  mkUploadRequest target_file_id (cu_owner_user_id request) (cu_owner_device_id request) (cu_conversation_id request)
    (cu_encrypted_size_bytes request) (cu_expected_chunk_count request) (cu_encryption_version request) (cu_client_crypto_metadata request).

Definition CreateFileUpload (peer : Peer) (request : CreateFileUploadRequest) : fprog (result StatusCode CreateFileUploadResponse) :=
  as_peer peer (fun _ =>
    if (0 <? cu_encrypted_size_bytes request) && negb (validate_size (cu_encrypted_size_bytes request) (max_file_transfer_bytes config))
    then Ret (Err INVALID_ARGUMENT)
    else
      let* target_file_id := (if is_empty (cu_file_id request) then new_uuid env else Ret (cu_file_id request)) in
      if bool_decide (cu_client_crypto_metadata request = []) then Ret (Err INVALID_ARGUMENT)
      else
        match unpack_client_crypto_metadata (parse_json env) (cu_client_crypto_metadata request) (upload_dto target_file_id request) with
        | Err _ => Ret (Err INVALID_ARGUMENT)
        | Ok dto =>
            let* now := system_clock_now env in
            let* created := create_file env dto now in
            match created with
            | Err FileLifecycleValidationException => Ret (Err INVALID_ARGUMENT)
            | Err _ => Ret (Err INTERNAL)
            | Ok _ =>
                let* _ := new_uuid env in
                let* session := create_session env (for_file target_file_id request) in
                match session with
                | Some session => Ret (Ok (mkUploadResponse (us_upload_id session) target_file_id (to_ms (us_expires_at session))))
                | None => Ret (Err INTERNAL)
                end
            end
        end).

(** ** UploadChunk *)

Definition transfer_status_code (e : FilesExn) : StatusCode :=
  match e with
  | ChunkIntegrityException => FAILED_PRECONDITION
  | TransferNotFoundException => NOT_FOUND
  | TransferExpiredException => DEADLINE_EXCEEDED
  | TransferCancelledException => FAILED_PRECONDITION
  | UnauthorizedTransferException => PERMISSION_DENIED
  | _ => INTERNAL
  end.

(** The checks on the payload, by what is known of the transfer. *)
Definition payload_ok (dto : ChunkPayloadDto) (total_chunks total_bytes : Z) : bool :=
  if 0 <? total_chunks then is_ok (validate_chunk_payload (sha256 env) dto total_chunks total_bytes)
  else (cp_chunk_size_bytes dto =? bytes_size (cp_encrypted_data dto)) && is_valid_sha256_hex (cp_claimed_sha256 dto)
       && bool_decide (compute_sha256_hex (sha256 env) (cp_encrypted_data dto) = cp_claimed_sha256 dto).

Definition UploadChunk (peer : Peer) (dto : ChunkPayloadDto) : fprog (result StatusCode ChunkStoreResult) :=
  as_peer peer (fun peer_identity =>
    if negb (is_valid_uuid (cp_upload_id dto)) then Ret (Err INVALID_ARGUMENT)
    else
      let chunk_bytes := if 0 <? cp_chunk_size_bytes dto then cp_chunk_size_bytes dto else bytes_size (cp_encrypted_data dto) in
      if negb (validate_size chunk_bytes (max_chunk_request_bytes config)) then Ret (Err INVALID_ARGUMENT)
      else
        let* progress := get_transfer_progress env (cp_upload_id dto) in
        match progress with
        | Err e => Ret (Err (transfer_status_code e))
        | Ok progress =>
            if bool_decide (tp_status progress = TransferStatus.Cancelled) then Ret (Err FAILED_PRECONDITION)
            else if bool_decide (tp_status progress = TransferStatus.Expired) || tp_is_expired progress then Ret (Err DEADLINE_EXCEEDED)
            else if negb (payload_ok dto (tp_total_chunks progress) (u64 (tp_total_bytes progress))) then Ret (Err INVALID_ARGUMENT)
            else
              let* stored := store_chunk env dto peer_identity in
              match stored with
              | Err e => Ret (Err (transfer_status_code e))
              | Ok store_result => let* _ := record_chunk_upload (cp_upload_id dto) in Ret (Ok store_result)
              end
        end).

(** ** FinalizeFileUpload *)

Definition finalize_status_code (e : FilesExn) : StatusCode :=
  match e with
  | EntityNotFoundException | S3ObjectNotFoundException => NOT_FOUND
  | FinalizationPreconditionException | ChunkIntegrityException | S3IntegrityException => FAILED_PRECONDITION
  | S3ConnectionException => DEADLINE_EXCEEDED
  | InvalidArgument => INVALID_ARGUMENT
  | _ => INTERNAL
  end.

Record FinalizeFileUploadResponse := mkFinalizeResponse { fu_file_id : string; fu_lifecycle_state : FileLifecycleState; fu_available_at_unix_ms : Z }.

Definition FinalizeFileUpload (peer : Peer) (upload_id id expected_sha256 : string) : fprog (result StatusCode FinalizeFileUploadResponse) :=
  as_peer peer (fun _ =>
    if negb (is_valid_uuid upload_id) then Ret (Err INVALID_ARGUMENT)
    else if negb (is_empty id) && negb (is_valid_uuid id) then Ret (Err INVALID_ARGUMENT)
    else
      let* r := finalize_file_upload env (mkFinalizeRequest upload_id id EmptyString expected_sha256) in
      Ret (match r with
           | Ok result => Ok (mkFinalizeResponse (ff_file_id result) (StateOf FileStatus.Available) (to_ms (ff_available_at result)))
           | Err e => Err (finalize_status_code e)
           end)).

(** ** GetFileMetadata *)

Record GetFileMetadataResponse := mkMetadataResponse {
  gm_file_id : string; gm_lifecycle_state : FileLifecycleState; gm_encrypted_size_bytes : Z; gm_chunk_count : Z;
  gm_encryption_version : string; gm_ciphertext_integrity_hash : string; gm_created_at_unix_ms : Z;
  gm_available_at_unix_ms : Z; gm_expires_at_unix_ms : Z }.

Definition GetFileMetadata (peer : Peer) (id : string) : fprog (result StatusCode GetFileMetadataResponse) :=
  as_peer peer (fun peer_identity =>
    if negb (is_valid_uuid id) then Ret (Err INVALID_ARGUMENT)
    else
      let* r := get_file_metadata id peer_identity in
      Ret (match r with
           | Err UnauthorizedFileAccessException => Err PERMISSION_DENIED
           | Err _ => Err INTERNAL
           | Ok None => Err NOT_FOUND
           | Ok (Some summary) =>
               let file := sum_file summary in
               Ok (mkMetadataResponse (file_id file) (to_proto (file_status file)) (u64 (encrypted_size file))
                     (sum_expected_chunk_count summary) (encryption_algorithm file)
                     (from_option checksum_sha256 EmptyString (sum_active_version summary)) (to_ms (file_created_at file))
                     (from_option (fun v => to_ms (version_created_at v)) 0 (sum_active_version summary))
                     (from_option to_ms 0 (retention_until file)))
           end)).

(** ** DownloadChunk *)

(** What the capability manager answers for a presented token. *)
Inductive CapabilityCheck := CapabilityAccepted | CapabilityInvalid | CapabilityUnauthorized.

Definition download_status_code (e : FilesExn) : StatusCode :=
  match e with
  | UnauthorizedFileAccessException => PERMISSION_DENIED
  | FileNotFoundException | EntityNotFoundException | S3ObjectNotFoundException => NOT_FOUND
  | InvalidDownloadPreconditionException => FAILED_PRECONDITION
  | OutOfRange => OUT_OF_RANGE
  | S3ConnectionException => DEADLINE_EXCEEDED
  | InvalidArgument => INVALID_ARGUMENT
  | _ => INTERNAL
  end.

(** [capability] is [None] when the client presented no token. *)
Definition DownloadChunk (peer : Peer) (capability : option CapabilityCheck) (id : string) (chunk_index : Z)
  : fprog (result StatusCode ChunkFetchResult) :=
  as_peer peer (fun peer_identity =>
    if negb (is_valid_uuid id) then Ret (Err INVALID_ARGUMENT)
    else
      match capability with
      | Some CapabilityInvalid => Ret (Err UNAUTHENTICATED)
      | Some CapabilityUnauthorized => Ret (Err PERMISSION_DENIED)
      | Some CapabilityAccepted | None =>
          let* r := get_chunk_versioned env id 0 chunk_index peer_identity in
          Ret (match r with
               | Err e => Err (download_status_code e)
               | Ok chunk_res =>
                   if negb (validate_size (cd_chunk_size_bytes chunk_res) (max_chunk_request_bytes config)) then Err OUT_OF_RANGE
                   else Ok chunk_res
               end)
      end).

(** ** CancelFileUpload and DeleteFile *)

Definition CancelFileUpload (peer : Peer) (upload_id : string) : fprog (result StatusCode unit) :=
  as_peer peer (fun _ =>
    if negb (is_valid_uuid upload_id) then Ret (Err INVALID_ARGUMENT)
    else
      let* cancelled := cancel_session env upload_id in
      Ret (if cancelled : bool then Ok tt else Err NOT_FOUND)).

(** What [delete_file] answers is not looked at. *)
Definition DeleteFile (peer : Peer) (id : string) : fprog (result StatusCode unit) :=
  as_peer peer (fun peer_identity =>
    if negb (is_valid_uuid id) then Ret (Err INVALID_ARGUMENT)
    else
      let* r := delete_file env id peer_identity "Client requested deletion" in
      Ret (match r with
           | Ok _ => Ok tt
           | Err FileNotFoundException => Err NOT_FOUND
           | Err UnauthorizedFileAccessException => Err PERMISSION_DENIED
           | Err InvalidLifecycleTransitionException => Err FAILED_PRECONDITION
           | Err _ => Err INTERNAL
           end)).

(** ** The outbox relay *)

(** [submit_batch] of the audit client: accepted, or refused or lost. *)
Fixpoint mark_each (success : bool) (events : list FilesOutboxEntity) : fprog unit :=
  match events with
  | [] => Ret tt
  | ev :: rest =>
      let* _ := committing (if success then FilesOutboxRepository.mark_published env (event_id ev) else FilesOutboxRepository.mark_failed (event_id ev)) in
      mark_each success rest
  end.

Definition poll_and_dispatch (submit_batch : list FilesOutboxEntity -> bool) (batch_size : Z) : fprog Z :=
  if batch_size =? 0 then Ret 0
  else
    let* events := with_work (FilesOutboxRepository.fetch_pending_events batch_size) in
    match events with
    | Err _ => Ret 0
    | Ok [] => Ret 0
    | Ok events => let* _ := mark_each (submit_batch events) events in Ret (Z.of_nat (length events))
    end.

End server.
