(* ===== verification/FilesLogic.v ===== *)
(** * Files: reasoning about transactions that run alone

    A statement sees the write set over the tables; [view] is that database, and every
    statement is a function of it.  [wp] is the postcondition of code in a transaction
    with nobody else around and any failures of the object store; [keeps] is the rule for
    properties of the database that every statement preserves.  A property that is
    [closed] under the statements is preserved by every operation of the service, whatever
    requests to the object store fail. *)

From S2P Require Import Prelude Ids Prog FilesTypes FilesText FilesValidation FilesDb FilesRepo FilesUpload FilesLifecycle FilesServer.
From stdpp Require Import sorting.
#[local] Open Scope Z_scope.

(** ** The database a transaction sees *)

Definition view (w : work) (s : FilesState) : MockStorage := overlay (staged w) (store s).

Lemma overlay_empty d : overlay empty_storage d = d.
Proof. destruct d. unfold overlay, empty_storage. cbn. by rewrite !(left_id_L ∅ (∪)). Qed.

Lemma view_new s : view new_work s = store s.
Proof. apply overlay_empty. Qed.

Lemma staged_copy_view {K V} `{Countable K} (sm m : gmap K V) k : staged_copy sm m k = (sm ∪ m) !! k.
Proof. unfold staged_copy. rewrite lookup_union. by destruct (sm !! k), (m !! k). Qed.

Lemma select_file_view id w s : select_file id w (store s) = files_ (view w s) !! id.
Proof. apply staged_copy_view. Qed.
Lemma select_metadata_view id w s : select_metadata id w (store s) = metadata_ (view w s) !! id.
Proof. apply staged_copy_view. Qed.
Lemma select_transfer_view id w s : select_transfer id w (store s) = transfers_ (view w s) !! id.
Proof. apply staged_copy_view. Qed.
Lemma select_grant_view id user w s : select_grant id user w (store s) = access_ (view w s) !! (id, user).
Proof. apply staged_copy_view. Qed.
Lemma select_event_view id w s : select_event id w (store s) = outbox_ (view w s) !! id.
Proof. apply staged_copy_view. Qed.

(** Staging a row inserts it into the view. *)
Lemma view_stage_files id f w s :
  view (stage (fun d => set_files (<[id := f]> (files_ d)) d) w) s = set_files (<[id := f]> (files_ (view w s))) (view w s).
Proof. unfold view, overlay, stage, set_files. cbn. by rewrite insert_union_l. Qed.
Lemma view_stage_metadata id f w s :
  view (stage (fun d => set_metadata (<[id := f]> (metadata_ d)) d) w) s = set_metadata (<[id := f]> (metadata_ (view w s))) (view w s).
Proof. unfold view, overlay, stage, set_metadata. cbn. by rewrite insert_union_l. Qed.
Lemma view_stage_versions k f w s :
  view (stage (fun d => set_versions (<[k := f]> (versions_ d)) d) w) s = set_versions (<[k := f]> (versions_ (view w s))) (view w s).
Proof. unfold view, overlay, stage, set_versions. cbn. by rewrite insert_union_l. Qed.
Lemma view_stage_transfers id f w s :
  view (stage (fun d => set_transfers (<[id := f]> (transfers_ d)) d) w) s = set_transfers (<[id := f]> (transfers_ (view w s))) (view w s).
Proof. unfold view, overlay, stage, set_transfers. cbn. by rewrite insert_union_l. Qed.
Lemma view_stage_chunks k f w s :
  view (stage (fun d => set_chunks (<[k := f]> (chunks_ d)) d) w) s = set_chunks (<[k := f]> (chunks_ (view w s))) (view w s).
Proof. unfold view, overlay, stage, set_chunks. cbn. by rewrite insert_union_l. Qed.
Lemma view_stage_access k f w s :
  view (stage (fun d => set_access (<[k := f]> (access_ d)) d) w) s = set_access (<[k := f]> (access_ (view w s))) (view w s).
Proof. unfold view, overlay, stage, set_access. cbn. by rewrite insert_union_l. Qed.
Lemma view_stage_outbox id f w s :
  view (stage (fun d => set_outbox (<[id := f]> (outbox_ d)) d) w) s = set_outbox (<[id := f]> (outbox_ (view w s))) (view w s).
Proof. unfold view, overlay, stage, set_outbox. cbn. by rewrite insert_union_l. Qed.

(** ** Postconditions *)

Definition wp {A} (m : tx A) (w : work) (Q : result FilesExn A -> work -> FilesState -> Prop) (s : FilesState) : Prop :=
  alone_post (m w) (fun rw s' => Q rw.1 rw.2 s') s.

Section rules.
Context {A B : Type}.
Implicit Types (Q : result FilesExn A -> work -> FilesState -> Prop) (w : work) (s : FilesState).

Lemma wp_mono (m : tx A) w Q Q' s : (forall r w s, Q r w s -> Q' r w s) -> wp m w Q s -> wp m w Q' s.
Proof. intros HQ. apply alone_post_mono. auto. Qed.

Lemma wp_ret (a : A) w Q s : Q (Ok a) w s -> wp (tx_ret a) w Q s.
Proof. done. Qed.

Lemma wp_throw e w Q s : Q (Err e) w s -> wp (tx_throw e) w Q s.
Proof. done. Qed.

Lemma wp_result r w Q s : Q r w s -> wp (tx_result r) w Q s.
Proof. done. Qed.

Lemma wp_bind (m : tx B) (f : B -> tx A) w Q s :
  wp m w (fun r w' s' => match r with Ok b => wp (f b) w' Q s' | Err e => Q (Err e) w' s' end) s -> wp (tx_bind m f) w Q s.
Proof.
  intros H. apply alone_post_bind. eapply alone_post_mono; [|exact H]. intros [r w'] s' Hr. cbn in *. by destruct r.
Qed.

Lemma wp_lift (p : fprog A) w Q s : alone_post p (fun a s' => Q (Ok a) w s') s -> wp (tx_lift p) w Q s.
Proof. intros H. apply alone_post_bind. eapply alone_post_mono; [|exact H]. done. Qed.

Lemma wp_of (p : fprog (result FilesExn A)) w Q s : alone_post p (fun r s' => Q r w s') s -> wp (tx_of p) w Q s.
Proof. intros H. apply alone_post_bind. eapply alone_post_mono; [|exact H]. done. Qed.

Lemma wp_catch (m : tx A) handler w Q s :
  wp m w (fun r w' s' => match r with Ok a => Q (Ok a) w' s' | Err e => wp (handler e) w' Q s' end) s -> wp (tx_catch m handler) w Q s.
Proof.
  intros H. apply alone_post_bind. eapply alone_post_mono; [|exact H]. intros [r w'] s' Hr. cbn in *. by destruct r.
Qed.

Lemma wp_query (q : work -> MockStorage -> A) w Q s : Q (Ok (q w (store s))) w s -> wp (query q) w Q s.
Proof. done. Qed.

Lemma wp_update (q : work -> MockStorage -> A * work) w Q s :
  Q (Ok (q w (store s)).1) (q w (store s)).2 s -> wp (update q) w Q s.
Proof. unfold wp, update. cbn [alone_post]. by destruct (q w (store s)). Qed.

Lemma with_work_post (m : tx A) (Q : result FilesExn A -> FilesState -> Prop) s :
  wp m new_work (fun r _ s' => Q r s') s -> alone_post (with_work m) Q s.
Proof. intros H. apply alone_post_bind. eapply alone_post_mono; [|exact H]. by intros [r w'] s' Hr. Qed.
End rules.

(** A live transaction writes its view over the tables. *)
Lemma wp_commit w Q s :
  committed_ w = false -> (forall w', Q (Ok tt) w' (set_store (view w s) s)) -> wp commit w Q s.
Proof. intros Hw HQ. unfold wp, commit, update_store, commit_work. cbn [alone_post]. rewrite Hw. apply HQ. Qed.

Definition unchanged (s s' : FilesState) : Prop :=
  store s' = store s /\ objects s' = objects s /\ in_memory_cache s' = in_memory_cache s /\ revoked_devices s' = revoked_devices s.

Lemma unchanged_view w s s' : unchanged s s' -> view w s' = view w s.
Proof. intros (H & _). unfold view. by rewrite H. Qed.

#[global] Instance unchanged_preorder : PreOrder unchanged.
Proof.
  split; [by intros s; unfold unchanged|]. intros a b c (H1 & H2 & H3 & H4) (K1 & K2 & K3 & K4).
  unfold unchanged. split_and!; etrans; eauto.
Qed.

(** ** Clock and identifiers *)

(** Clocks show times of the years 0 to 9999, also a day later, and random bytes are ten
    bytes. *)
Record env_ok (env : FilesEnv) : Prop := mkEnvOk {
  env_clock : forall n, iso_range (clock env n) /\ iso_range (clock env n + 24 * ns_per_hour);
  env_random : forall n, length (random env n) = 10%nat /\ Forall Uuid.is_byte (random env n);
  env_json : forall payload, print_json env payload <> EmptyString }.

Definition ticked (s s' : FilesState) : Prop := unchanged s s' /\ random_reads s' = random_reads s.

Lemma clock_post env Q s :
  env_ok env -> (forall t s', iso_range t -> iso_range (t + 24 * ns_per_hour) -> ticked s s' -> Q t s') ->
  alone_post (system_clock_now env) Q s.
Proof. intros He HQ. apply HQ; [apply He|apply He|]. by split. Qed.

Lemma new_uuid_post env Q s :
  (forall t s', unchanged s s' -> random_reads s' = S (random_reads s) -> Q (generate_uuid_v7 t (random env (random_reads s))) s') ->
  alone_post (new_uuid env) Q s.
Proof. intros HQ. unfold new_uuid. cbn [alone_post pbind system_clock_now rand_bytes]. by apply HQ. Qed.

Lemma generate_uuid_nonempty t rnd : generate_uuid_v7 t rnd <> EmptyString.
Proof. done. Qed.

(** ** Properties every statement preserves *)

Definition property : Type := MockStorage -> gmap string (list Z) -> Prop.

Definition staging (key : string) : Prop := exists rest, key = String.append "staging/" rest.

(** A file whose row can be read back. *)
Definition file_ok (f : FileEntity) : Prop :=
  file_id f <> EmptyString /\ 0 < encrypted_size f <= k_max_file_size_bytes /\ from_option iso_range True (retention_until f) /\
  iso_range (file_created_at f) /\ iso_range (file_updated_at f).

(** A transfer of which this is known. *)
Definition in_i32 (z : Z) : Prop := - 2 ^ 31 <= z < 2 ^ 31.

Definition transfer_ok (t : FileTransferEntity) : Prop :=
  transfer_id t <> EmptyString /\ in_i32 (total_chunks t) /\ in_i64 (total_bytes t) /\
  iso_range (transfer_created_at t) /\ iso_range (transfer_updated_at t) /\ iso_range (expires_at t).

Lemma i32_range z : in_i32 (i32 z).
Proof.
  unfold in_i32, i32, u32, wrap. pose proof (Z.mod_pos_bound z (2 ^ 32) ltac:(lia)). destruct (Z.ltb_spec (z mod 2 ^ 32) (2 ^ 31)); lia.
Qed.

Lemma i64_range z : in_i64 (i64 z).
Proof.
  unfold in_i64, i64, u64, wrap. pose proof (Z.mod_pos_bound z (2 ^ 64) ltac:(lia)). destruct (Z.ltb_spec (z mod 2 ^ 64) (2 ^ 63)); lia.
Qed.

(** What a property of the database and the bucket has to allow; [allow] tells which
    states a file may move to. *)
Record closed (P : property) (allow : FileStatus.t -> Prop) : Prop := mkClosed {
  closed_new_file : forall d o f,
    P d o -> files_ d !! file_id f = None -> file_status f = FileStatus.Created -> file_ok f ->
    P (set_files (<[file_id f := file_row f]> (files_ d)) d) o;
  closed_metadata : forall d o m, P d o -> P (set_metadata m d) o;
  closed_file : forall d o id f old new t,
    P d o -> files_ d !! id = Some f -> sf_status f = FileStatus.to_string old -> is_valid_state_transition old new = true -> allow new ->
    iso_range t -> P (set_files (<[id := with_file_status (FileStatus.to_string new) (to_iso8601 t) f]> (files_ d)) d) o;
  closed_transfer : forall d o id t f,
    P d o -> transfers_ d !! id = Some t -> iso_range f ->
    (forall status, P (set_transfers (<[id := with_transfer_status (TransferStatus.to_string status) (to_iso8601 f) t]> (transfers_ d)) d) o) /\
    (forall n, P (set_transfers (<[id := with_progress n (to_iso8601 f) t]> (transfers_ d)) d) o);
  closed_new_transfer : forall d o t,
    P d o -> transfer_ok t -> P (set_transfers (<[transfer_id t := transfer_row t]> (transfers_ d)) d) o;
  closed_event : forall d o e,
    P d o -> iso_range (outbox_created_at e) -> processed_at e = None -> P (set_outbox (<[event_id e := outbox_row e]> (outbox_ d)) d) o;
  closed_marked : forall d o id e t,
    P d o -> outbox_ d !! id = Some e -> iso_range t ->
    P (set_outbox (<[id := published (to_iso8601 t) e]> (outbox_ d)) d) o /\ P (set_outbox (<[id := failed e]> (outbox_ d)) d) o }.

(** The same for chunks and their bodies, whatever they are. *)
Record closed_staging (P : property) : Prop := mkClosedStaging {
  closed_chunk : forall d o c,
    P d o -> chunks_ d !! (chunk_transfer_id c, chunk_index c) = None -> iso_range (chunk_created_at c) -> staging (minio_chunk_key c) ->
    P (set_chunks (<[(chunk_transfer_id c, chunk_index c) := chunk_row c]> (chunks_ d)) d) o;
  closed_object : forall d o key body, P d o -> staging key -> P d (<[key := body]> o) /\ P d (delete key o) }.

Section keeps.
Context (P : property) (allow : FileStatus.t -> Prop) (HP : closed P allow) (env : FilesEnv) (He : env_ok env).

Definition kept (w : work) (s : FilesState) : Prop := P (view w s) (objects s) /\ P (store s) (objects s).

Definition keeps {A} (m : tx A) : Prop := forall w s, kept w s -> wp m w (fun _ w' s' => kept w' s') s.
Definition keeps_alone {A} (p : fprog A) : Prop := forall s, P (store s) (objects s) -> alone_post p (fun _ s' => P (store s') (objects s')) s.

Lemma keeps_wp {A} (m : tx A) w s : keeps m -> kept w s -> wp m w (fun _ w' s' => kept w' s') s.
Proof. intros Hm. apply Hm. Qed.

Lemma kept_unchanged w s s' : unchanged s s' -> kept w s -> kept w s'.
Proof. intros Hs [Hv Hst]. unfold kept. rewrite (unchanged_view w s s' Hs). destruct Hs as (-> & -> & _). done. Qed.

Lemma kept_new s : P (store s) (objects s) -> kept new_work s.
Proof. intros H. split; [by rewrite view_new|done]. Qed.

Lemma keeps_ret {A} (a : A) : keeps (tx_ret a).
Proof. by intros w s. Qed.

Lemma keeps_throw {A} e : keeps (@tx_throw A e).
Proof. by intros w s. Qed.

Lemma keeps_result {A} (r : result FilesExn A) : keeps (tx_result r).
Proof. by intros w s. Qed.

Lemma keeps_bind {A B} (m : tx A) (f : A -> tx B) : keeps m -> (forall a, keeps (f a)) -> keeps (tx_bind m f).
Proof.
  intros Hm Hf w s Hk. apply wp_bind. eapply wp_mono; [|by apply Hm]. intros [a|e] w' s' Hk'; [by apply Hf|done].
Qed.

Lemma keeps_query {A} (q : work -> MockStorage -> A) : keeps (query q).
Proof. by intros w s. Qed.

Lemma keeps_lift {A} (p : fprog A) : (forall s, alone_post p (fun _ s' => unchanged s s') s) -> keeps (tx_lift p).
Proof.
  intros Hp w s Hk. apply wp_lift. eapply alone_post_mono; [|apply Hp]. intros a s' Hs. exact (kept_unchanged w s s' Hs Hk).
Qed.

Lemma keeps_clock : keeps (tx_lift (system_clock_now env)).
Proof. apply keeps_lift. by intros s. Qed.

Lemma keeps_uuid : keeps (tx_lift (new_uuid env)).
Proof. apply keeps_lift. by intros s. Qed.

Lemma keeps_commit : keeps commit.
Proof.
  intros w s [Hv Hs]. unfold wp, commit, update_store, commit_work. cbn [alone_post]. destruct (committed_ w); [split; [exact Hv|exact Hs]|].
  cbn. split; cbn; [|done]. unfold view. cbn. by rewrite overlay_empty.
Qed.

Lemma keeps_abort : keeps abort.
Proof. intros w s [Hv Hs]. split; [|done]. cbn. unfold view. cbn. by rewrite overlay_empty. Qed.

Lemma keeps_abort_throw {A} e : keeps (@abort_throw A e).
Proof. apply keeps_bind; [apply keeps_abort|intros ?; apply keeps_throw]. Qed.

Lemma keeps_catch {A} (m : tx A) handler : keeps m -> (forall e, keeps (handler e)) -> keeps (tx_catch m handler).
Proof.
  intros Hm Hh w s Hk. apply wp_catch. eapply wp_mono; [|by apply Hm]. intros [a|e] w' s' Hk'; [done|by apply Hh].
Qed.

Lemma keeps_clock_bind {A} (f : Z -> tx A) :
  (forall t, iso_range t -> keeps (f t)) -> keeps (let! t := tx_lift (system_clock_now env) in f t).
Proof using He.
  intros Hf w s Hk. apply wp_bind, wp_lift, clock_post; [done|]. intros t s' Ht _ [Hs _]. apply Hf; [done|].
  exact (kept_unchanged w s s' Hs Hk).
Qed.

(** A transaction starts from the tables. *)
Lemma with_work_keeps {A} (m : tx A) : keeps m -> keeps_alone (with_work m).
Proof. intros Hm s Hs. apply with_work_post. eapply wp_mono; [|apply Hm, kept_new, Hs]. by intros r w s' [_ ?]. Qed.

Lemma committing_keeps (m : tx bool) : keeps m -> keeps_alone (committing m).
Proof.
  intros Hm. apply with_work_keeps, keeps_bind; [done|]. intros [].
  - apply keeps_bind; [apply keeps_commit|intros ?; apply keeps_ret].
  - apply keeps_ret.
Qed.

Lemma keeps_alone_bind {A B} (p : fprog A) (f : A -> fprog B) : keeps_alone p -> (forall a, keeps_alone (f a)) -> keeps_alone (pbind p f).
Proof. intros Hp Hf s Hs. apply alone_post_bind. eapply alone_post_mono; [|by apply Hp]. intros a s' Hs'. by apply Hf. Qed.

Lemma keeps_alone_ret {A} (a : A) : keeps_alone (Ret a).
Proof. by intros s. Qed.

Lemma keeps_alone_unchanged {A} (p : fprog A) : (forall s, alone_post p (fun _ s' => store s' = store s /\ objects s' = objects s) s) -> keeps_alone p.
Proof. intros Hp s Hs. eapply alone_post_mono; [|apply Hp]. by intros a s' (-> & ->). Qed.

Lemma keeps_alone_clock {A} (f : Z -> fprog A) :
  (forall t, iso_range t -> iso_range (t + 24 * ns_per_hour) -> keeps_alone (f t)) -> keeps_alone (let* t := system_clock_now env in f t).
Proof using He.
  intros Hf s Hs. apply alone_post_bind, clock_post; [done|]. intros t s' Ht Ht' [Hu _]. apply Hf; [done|done|].
  by destruct Hu as (-> & -> & _).
Qed.

Lemma keeps_alone_uuid : keeps_alone (new_uuid env).
Proof. by intros s. Qed.

(** *** Repositories *)

Lemma keeps_create_file file metadata :
  file_status file = FileStatus.Created -> file_ok file ->
  forall w s, kept w s -> files_ (view w s) !! file_id file = None ->
  wp (FileRepository.create_file file metadata) w (fun _ w' s' => kept w' s') s.
Proof using HP.
  intros Hst Hok w s [Hv Hs] Hn. unfold FileRepository.create_file. split_ifs; [by split..|].
  split; [|done]. cbn [snd]. unfold insert_metadata, insert_file. rewrite view_stage_metadata, view_stage_files.
  by apply (closed_metadata _ _ HP), (closed_new_file _ _ HP).
Qed.

Lemma keeps_find_row {X Y} id (select : string -> work -> MockStorage -> option X) (from_row : X -> result FilesExn Y) :
  keeps (find_row id select from_row).
Proof. unfold find_row. destruct (is_empty id); [apply keeps_ret|]. apply keeps_bind; [apply keeps_query|intros ?; apply keeps_result]. Qed.

Lemma keeps_file_status id old new : allow new -> keeps (FileRepository.update_status env id old new).
Proof using HP He.
  intros Hallow. unfold FileRepository.update_status. destruct (is_valid_state_transition old new) eqn:Hvalid; [|apply keeps_throw]. cbn [negb].
  intros w s Hk. apply wp_bind, wp_lift, clock_post; [done|]. intros t s' Ht _ [Hs _]. apply (kept_unchanged _ _ _ Hs) in Hk.
  apply wp_update. unfold update_file_status. rewrite select_file_view. destruct (files_ (view w s') !! id) as [f|] eqn:Hf; [|done].
  destruct Hk as [Hv Hst]. split; [|done]. cbn [snd]. rewrite view_stage_files. destruct (bool_decide_reflect (sf_status f = FileStatus.to_string old)).
  - by eapply closed_file.
  - rewrite insert_id by done. by destruct (view w s').
Qed.

Lemma keeps_transfer_status id status : keeps (FileTransferRepository.update_status env id status).
Proof using HP He.
  unfold FileTransferRepository.update_status. destruct (is_empty id); [apply keeps_ret|].
  intros w s Hk. apply wp_bind, wp_lift, clock_post; [done|]. intros t s' Ht _ [Hs _]. apply (kept_unchanged _ _ _ Hs) in Hk.
  apply wp_update. unfold update_transfer_status. rewrite select_transfer_view. destruct (transfers_ (view w s') !! id) as [f|] eqn:Hf; [|done].
  destruct Hk as [Hv Hst]. split; [|done]. cbn [snd]. rewrite view_stage_transfers. exact (proj1 (closed_transfer _ _ HP _ _ _ _ _ Hv Hf Ht) _).
Qed.

Lemma keeps_progress id n : keeps (FileTransferRepository.increment_chunk_progress env id n).
Proof using HP He.
  unfold FileTransferRepository.increment_chunk_progress. destruct (is_empty id); [apply keeps_ret|].
  intros w s Hk. apply wp_bind, wp_lift, clock_post; [done|]. intros t s' Ht _ [Hs _]. apply (kept_unchanged _ _ _ Hs) in Hk.
  apply wp_update. unfold increment_progress. rewrite select_transfer_view. destruct (transfers_ (view w s') !! id) as [f|] eqn:Hf; [|done].
  destruct Hk as [Hv Hst]. split; [|done]. cbn [snd]. rewrite view_stage_transfers. exact (proj2 (closed_transfer _ _ HP _ _ _ _ _ Hv Hf Ht) _).
Qed.

Lemma keeps_list_chunks id : keeps (FileChunkRepository.list_chunks_for_transfer id).
Proof. unfold FileChunkRepository.list_chunks_for_transfer. destruct (is_empty id); [apply keeps_ret|]. apply keeps_bind; [apply keeps_query|intros ?; apply keeps_result]. Qed.

Lemma keeps_count_chunks id : keeps (FileChunkRepository.count_accepted_chunks id).
Proof. unfold FileChunkRepository.count_accepted_chunks. destruct (is_empty id); [apply keeps_ret|apply keeps_query]. Qed.

Lemma keeps_indices id : keeps (FileChunkRepository.get_accepted_chunk_indices id).
Proof. unfold FileChunkRepository.get_accepted_chunk_indices. destruct (is_empty id); [apply keeps_ret|apply keeps_query]. Qed.

Lemma keeps_list_versions id : keeps (FileVersionRepository.list_versions id).
Proof. unfold FileVersionRepository.list_versions. destruct (is_empty id); [apply keeps_ret|]. apply keeps_bind; [apply keeps_query|intros ?; apply keeps_result]. Qed.

Lemma keeps_check_access id user required : keeps (FileAccessRepository.check_access id user required).
Proof.
  unfold FileAccessRepository.check_access. destruct (_ || _); [apply keeps_ret|]. apply keeps_bind; [apply keeps_query|]. intros [f|]; [|apply keeps_ret].
  destruct (bool_decide _); [apply keeps_ret|]. apply keeps_bind; [apply keeps_query|]. intros [g|]; [|apply keeps_ret].
  apply keeps_bind; [apply keeps_result|intros ?; apply keeps_ret].
Qed.

Lemma keeps_stage_event e : iso_range (outbox_created_at e) -> processed_at e = None -> keeps (FilesOutboxRepository.stage_event e).
Proof using HP.
  intros Ht Hp. unfold FilesOutboxRepository.stage_event. destruct (_ || _); [apply keeps_throw|]. intros w s [Hv Hs].
  split; [|done]. cbn [snd]. unfold insert_outbox. rewrite view_stage_outbox. by apply (closed_event _ _ HP).
Qed.

Lemma keeps_mark_published id : keeps (FilesOutboxRepository.mark_published env id).
Proof using HP He.
  unfold FilesOutboxRepository.mark_published. destruct (is_empty id); [apply keeps_ret|].
  intros w s Hk. apply wp_bind, wp_lift, clock_post; [done|]. intros t s' Ht _ [Hs _]. apply (kept_unchanged _ _ _ Hs) in Hk.
  apply wp_update. unfold update_event. rewrite select_event_view. destruct (outbox_ (view w s') !! id) as [f|] eqn:Hf; [|done].
  destruct Hk as [Hv Hst]. split; [|done]. cbn [snd]. rewrite view_stage_outbox. exact (proj1 (closed_marked _ _ HP _ _ _ _ _ Hv Hf Ht)).
Qed.

Lemma keeps_mark_failed id : keeps (FilesOutboxRepository.mark_failed id).
Proof using HP He.
  unfold FilesOutboxRepository.mark_failed. destruct (is_empty id); [apply keeps_ret|].
  intros w s Hk. apply wp_update. unfold update_event. rewrite select_event_view. destruct (outbox_ (view w s) !! id) as [f|] eqn:Hf; [|done].
  destruct Hk as [Hv Hst]. split; [|done]. cbn [snd]. rewrite view_stage_outbox. exact (proj2 (closed_marked _ _ HP _ _ _ _ _ Hv Hf (proj1 (env_clock env He 0)))).
Qed.

(** *** Chunks and their bodies *)

Section staging.
Context (HS : closed_staging P).

Lemma keeps_record_chunk c : iso_range (chunk_created_at c) -> staging (minio_chunk_key c) -> keeps (FileChunkRepository.record_chunk c).
Proof using HS.
  intros Ht Hkey. unfold FileChunkRepository.record_chunk. split_ifs; try apply keeps_throw. apply keeps_bind.
  - intros w s [Hv Hs]. apply wp_update. unfold insert_chunk. rewrite staged_copy_view. destruct (bool_decide_reflect (is_Some ((chunks_ (staged w) ∪ chunks_ (store s)) !! (sc_transfer_id (chunk_row c), sc_chunk_index (chunk_row c))))) as [|Hn]; [by split|].
    split; [|done]. cbn [snd]. rewrite view_stage_chunks. apply eq_None_not_Some in Hn. by apply (closed_chunk _ HS).
  - intros []; [apply keeps_ret|]. apply keeps_bind; [apply keeps_query|]. intros [h|]; [|apply keeps_throw].
    destruct (bool_decide _); [apply keeps_ret|apply keeps_throw].
Qed.

Lemma keeps_put key body : staging key -> keeps (tx_of (put_object key body)).
Proof using HS.
  intros Hkey w s [Hv Hs]. apply wp_of. unfold put_object. cbn [alone_post]. split_and!; [|by split|];
    (split; cbn; [eapply (closed_object _ HS) in Hv as [Hv _]; [exact Hv|done]|eapply (closed_object _ HS) in Hs as [Hs _]; [exact Hs|done]]).
Qed.

Lemma keeps_alone_delete key : staging key -> keeps_alone (delete_object key).
Proof using HS.
  intros Hkey s Hs. unfold delete_object. cbn [alone_post]. pose proof (closed_object _ HS _ _ _ [] Hs Hkey) as [_ Hd]. by split_and!.
Qed.

End staging.
End keeps.

Create HintDb keeps discriminated.
#[global] Hint Resolve keeps_ret keeps_throw keeps_result keeps_query keeps_clock keeps_uuid keeps_commit keeps_abort keeps_abort_throw
  keeps_find_row keeps_file_status keeps_transfer_status keeps_progress keeps_record_chunk keeps_list_chunks keeps_count_chunks
  keeps_indices keeps_list_versions keeps_check_access keeps_stage_event keeps_mark_published keeps_mark_failed keeps_put
  keeps_alone_ret keeps_alone_uuid keeps_alone_delete : keeps.
#[global] Hint Extern 1 (keeps _ (FileRepository.find_by_id _)) => apply keeps_find_row : keeps.
#[global] Hint Extern 1 (keeps _ (FileRepository.find_encrypted_metadata _)) => apply keeps_find_row : keeps.
#[global] Hint Extern 1 (keeps _ (FileTransferRepository.find_by_id _)) => apply keeps_find_row : keeps.
#[global] Hint Extern 1 (keeps _ (FileVersionRepository.find_active_version _)) => apply keeps_find_row : keeps.

(** Walks through a transaction, one statement after the other. *)
Ltac keeps_walk :=
  repeat lazymatch goal with
  | |- keeps _ (tx_bind (tx_lift (system_clock_now _)) _) => eapply keeps_clock_bind; [eassumption|intros ? ?]
  | |- keeps _ (tx_bind _ _) => apply keeps_bind; [|intros ?]
  | |- keeps _ (tx_catch _ _) => apply keeps_catch; [|intros ?]
  | |- keeps _ (match ?x with _ => _ end) => destruct x eqn:?
  | |- keeps _ _ => solve [eauto with keeps]
  end.

(** The same outside of transactions. *)
Ltac keeps_run :=
  repeat lazymatch goal with
  | |- keeps_alone _ (pbind (system_clock_now _) _) => eapply keeps_alone_clock; [eassumption|intros ? ? ?]
  | |- keeps_alone _ (pbind _ _) => apply keeps_alone_bind; [|intros ?]
  | |- keeps_alone _ (with_work _) => apply with_work_keeps
  | |- keeps_alone _ (committing _) => apply committing_keeps
  | |- keeps_alone _ (match ?x with _ => _ end) => destruct x eqn:?
  | |- keeps_alone _ _ => solve [eauto with keeps]
  | |- keeps _ _ => progress keeps_walk
  end.

Section operations.
Context (P : property) (allow : FileStatus.t -> Prop) (HP : closed P allow) (env : FilesEnv) (He : env_ok env).

(** ** Upload sessions *)

Lemma set_cache_keeps {A} (f : FilesState -> gmap string UploadSession) (k : FilesState -> A) :
  keeps_alone P (Atomic (fun s => set_cache (f s) s) (fun s => Ret (k s))).
Proof. by intros s Hs. Qed.

Lemma cached_session_keeps id : keeps_alone P (cached_session id).
Proof. by intros s Hs. Qed.

Lemma touch_session_keeps id f : keeps_alone P (touch_session id f).
Proof. intros s Hs. unfold touch_session. cbn. by destruct (in_memory_cache s !! id). Qed.

#[local] Hint Resolve set_cache_keeps cached_session_keeps touch_session_keeps : keeps.
#[local] Hint Extern 1 (keeps_alone _ (set_session _ _)) => apply set_cache_keeps : keeps.
#[local] Hint Extern 1 (keeps_alone _ (cache_session _)) => apply set_cache_keeps : keeps.
#[local] Hint Extern 1 (keeps_alone _ (Atomic _ _)) => apply set_cache_keeps : keeps.

Lemma keeps_create_transfer t :
  in_i32 (total_chunks t) -> in_i64 (total_bytes t) -> iso_range (transfer_created_at t) -> iso_range (transfer_updated_at t) ->
  iso_range (expires_at t) -> keeps P (FileTransferRepository.create_transfer t).
Proof using HP.
  intros Hn Hb Hc Hu Hx. unfold FileTransferRepository.create_transfer. split_ifs; [by auto with keeps..|].
  intros w s [Hv Hs]. split; [|done]. cbn [snd]. unfold insert_transfer. rewrite view_stage_transfers.
  apply (closed_new_transfer _ _ HP); [done|]. split_and!; [|done..]. intros Hid. by rewrite Hid in *.
Qed.
#[local] Hint Resolve keeps_create_transfer i32_range i64_range : keeps.

Lemma create_session_keeps request : keeps_alone P (create_session env request).
Proof using HP He.
  unfold create_session. keeps_run.
Qed.

Lemma find_transfer_keeps id : keeps_alone P (find_transfer id).
Proof. unfold find_transfer. keeps_run. Qed.

Lemma accepted_indices_keeps id : keeps_alone P (accepted_indices id).
Proof. unfold accepted_indices. keeps_run. Qed.
#[local] Hint Resolve find_transfer_keeps accepted_indices_keeps : keeps.

Lemma reconstruct_keeps id : keeps_alone P (reconstruct_session_from_storage env id).
Proof using He. unfold reconstruct_session_from_storage. keeps_run. Qed.
#[local] Hint Resolve reconstruct_keeps : keeps.

Lemma get_session_keeps id : keeps_alone P (get_session env id).
Proof using He. unfold get_session. keeps_run. Qed.

Lemma get_transfer_progress_keeps id : keeps_alone P (get_transfer_progress env id).
Proof using HP He. unfold get_transfer_progress. keeps_run. Qed.

Lemma cancel_session_keeps id : keeps_alone P (cancel_session env id).
Proof using HP He. unfold cancel_session. keeps_run. Qed.

(** ** Chunks *)

Lemma staging_key_staging id i : staging (build_staging_key id i).
Proof. by eexists. Qed.
#[local] Hint Resolve staging_key_staging : keeps.

Lemma store_chunk_keeps (HS : closed_staging P) dto caller : allow FileStatus.Uploading -> keeps_alone P (store_chunk env dto caller).
Proof using HP He. intros Hallow. unfold store_chunk. keeps_run. Qed.

(** ** Lifecycle *)

Lemma stage_file_event_keeps id type payload now : iso_range now -> keeps P (stage_file_event env id type payload now).
Proof using HP He. intros Hnow. unfold stage_file_event. keeps_walk. Qed.

Lemma check_ownership_keeps file caller permission : keeps P (check_ownership_or_access file caller permission).
Proof. unfold check_ownership_or_access. keeps_walk. Qed.
#[local] Hint Resolve stage_file_event_keeps check_ownership_keeps : keeps.

Lemma transition_keeps id old new caller reason : allow new -> keeps_alone P (transition_lifecycle env id old new caller reason).
Proof using HP He. intros Hallow. unfold transition_lifecycle. keeps_run. Qed.

Lemma get_file_metadata_keeps id caller : keeps_alone P (get_file_metadata id caller).
Proof. unfold get_file_metadata. keeps_run. Qed.

Lemma delete_file_keeps id caller reason : allow FileStatus.Deleted -> keeps_alone P (delete_file env id caller reason).
Proof using HP He. intros Hallow. unfold delete_file. keeps_run. Qed.

Lemma expire_each_keeps now files count : iso_range now -> allow FileStatus.Expired -> keeps P (expire_each env now files count).
Proof using HP He. intros Hnow Hallow. revert count. induction files; intros count; cbn [expire_each]; keeps_walk. Qed.
#[local] Hint Resolve expire_each_keeps transition_keeps get_file_metadata_keeps delete_file_keeps : keeps.

Lemma evaluate_keeps now batch : iso_range now -> allow FileStatus.Expired -> keeps_alone P (evaluate_and_expire_files env now batch).
Proof using HP He.
  intros Hnow Hallow. unfold evaluate_and_expire_files, FileRepository.find_expired_files. keeps_run.
Qed.

Lemma update_file_state_keeps id new : (forall status, allow status) -> keeps_alone P (update_file_state env id new).
Proof using HP He. intros Hallow. unfold update_file_state. keeps_run. Qed.

Lemma mark_file_deleted_keeps id : allow FileStatus.Deleted -> keeps_alone P (mark_file_deleted env id).
Proof using HP He. intros Hallow. unfold mark_file_deleted. keeps_run. Qed.

(** A file is created only where there is none. *)
Lemma find_by_id_none id w s Q :
  id <> EmptyString ->
  (forall r, match r with Ok None => files_ (view w s) !! id = None | _ => True end -> Q r w s) ->
  wp (FileRepository.find_by_id id) w Q s.
Proof.
  intros Hid HQ. unfold FileRepository.find_by_id, find_row, is_empty. rewrite bool_decide_eq_false_2 by done.
  apply wp_bind, wp_query, wp_result, HQ. rewrite select_file_view. destruct (files_ (view w s) !! id) as [f|]; [|done]. cbn.
  by destruct (file_from_row f).
Qed.

Lemma valid_uuid_nonempty id : is_valid_uuid id = true -> id <> EmptyString.
Proof. by intros H ->. Qed.

Lemma created_file_ok dto now until :
  validate_create_file_request dto now = Ok tt -> 0 <= cf_encrypted_size_bytes dto -> iso_range now -> from_option iso_range True until ->
  file_ok (mkFileEntity (cf_file_id dto) (cf_owner_user_id dto) (cf_owner_device_id dto) (cf_conversation_id dto)
             (i64 (cf_encrypted_size_bytes dto)) None (cf_encryption_algorithm dto) FileStatus.Created until now now).
Proof.
  intros Hv Hpos Hnow Hu. unfold validate_create_file_request in Hv. destruct (is_valid_uuid (cf_file_id dto)) eqn:Hid; [|done].
  assert (Hsize : 0 < cf_encrypted_size_bytes dto <= k_max_file_size_bytes) by (clear -Hv Hpos; split_ifs; try done; lia).
  assert (Hi : i64 (cf_encrypted_size_bytes dto) = cf_encrypted_size_bytes dto).
  { apply i64_small. unfold k_max_file_size_bytes in Hsize. lia. }
  split_and!; cbn; [by apply valid_uuid_nonempty|rewrite Hi; apply Hsize..|done|done|done].
Qed.

Lemma create_file_keeps dto now :
  0 <= cf_encrypted_size_bytes dto -> iso_range now -> from_option iso_range True (cf_retention_until dto) ->
  keeps_alone P (create_file env dto now).
Proof using HP He.
  intros Hpos Hnow Hu. unfold create_file. destruct (validate_create_file_request dto now) as [[]|] eqn:Hv; [|keeps_run].
  pose proof (created_file_ok dto now _ Hv Hpos Hnow Hu) as Hok. apply with_work_keeps. intros w s Hk.
  apply wp_bind, find_by_id_none; [apply Hok|]. intros [[f|]|e] Hr; [exact Hk| |exact Hk].
  apply wp_bind. eapply wp_mono; [|by eapply keeps_create_file]. intros [[]|e] w' s' Hk'; [|done].
  apply keeps_wp; [|done]. keeps_walk.
Qed.

(** ** Downloads *)

Lemma keeps_of_unchanged {A} (p : fprog (result FilesExn A)) : (forall s, alone_post p (fun _ s' => unchanged s s') s) -> keeps P (tx_of p).
Proof.
  intros Hp w s Hk. apply wp_of. eapply alone_post_mono; [|apply Hp]. intros a s' Hs. exact (kept_unchanged P w s s' Hs Hk).
Qed.

Lemma fetch_chunk_unchanged id version index size chunk s :
  alone_post (fetch_chunk env id version index size chunk) (fun _ s' => unchanged s s') s.
Proof.
  unfold fetch_chunk. destruct (calculate_chunk_byte_range size index chunk) as [r|]; [|done]. destruct (size =? 0); [done|].
  unfold get_object_range. cbn [alone_post pbind]. destruct (objects s !! build_version_key id version) as [body|]; [|done].
  by destruct (bytes_size body <=? start_byte r).
Qed.

Lemma download_lookup_keeps id version caller : keeps P (download_lookup id version caller).
Proof. unfold download_lookup. keeps_walk. Qed.
#[local] Hint Resolve download_lookup_keeps : keeps.

Lemma get_chunk_versioned_keeps id version index caller : keeps_alone P (get_chunk_versioned env id version index caller).
Proof.
  unfold get_chunk_versioned. keeps_run. apply keeps_of_unchanged. intros s. apply fetch_chunk_unchanged.
Qed.

(** ** Remote calls *)

Lemma as_peer_keeps {A} config peer (k : string -> fprog (result StatusCode A)) :
  (forall identity, keeps_alone P (k identity)) -> keeps_alone P (as_peer config peer k).
Proof. intros Hk. unfold as_peer. destruct (check_peer_authorization _ peer); keeps_run. Qed.

Lemma unpack_frame raw dto dto' :
  unpack_client_crypto_metadata (parse_json env) raw dto = Ok dto' ->
  cf_retention_until dto' = cf_retention_until dto /\ cf_encrypted_size_bytes dto' = cf_encrypted_size_bytes dto.
Proof.
  unfold unpack_client_crypto_metadata, unpack_packed. intros H. destruct (bool_decide _); [done|].
  destruct (parse_json env raw) as [j|]; [|by split_ifs; simplify_eq].
  repeat match goal with H : bind _ _ = Ok _ |- _ => apply bind_ok in H as (? & _ & H) end. by split_ifs; simplify_eq.
Qed.

Lemma CreateFileUpload_keeps config peer request : 0 <= cu_encrypted_size_bytes request -> keeps_alone P (CreateFileUpload env config peer request).
Proof using HP He.
  intros Hpos. unfold CreateFileUpload. apply as_peer_keeps. intros _. destruct (_ && _); [keeps_run|].
  apply keeps_alone_bind; [keeps_run|]. intros id. destruct (bool_decide _); [keeps_run|].
  destruct (unpack_client_crypto_metadata _ _ _) as [dto|] eqn:Hu; [|keeps_run]. apply unpack_frame in Hu as [Hu Hsz]. cbn in Hu, Hsz.
  eapply keeps_alone_clock; [exact He|]. intros now Hnow _. apply keeps_alone_bind; [by apply create_file_keeps; [rewrite Hsz| |rewrite Hu]|].
  intros [f|e]; [|keeps_run]. pose proof create_session_keeps. keeps_run.
Qed.

Lemma UploadChunk_keeps (HS : closed_staging P) config peer dto : allow FileStatus.Uploading -> keeps_alone P (UploadChunk env config peer dto).
Proof using HP He.
  intros Hallow. unfold UploadChunk. apply as_peer_keeps. intros identity.
  pose proof get_transfer_progress_keeps. pose proof (store_chunk_keeps HS dto identity Hallow). keeps_run.
Qed.

Lemma GetFileMetadata_keeps config peer id : keeps_alone P (GetFileMetadata config peer id).
Proof. unfold GetFileMetadata. apply as_peer_keeps. intros identity. keeps_run. Qed.

Lemma DownloadChunk_keeps config peer capability id index : keeps_alone P (DownloadChunk env config peer capability id index).
Proof.
  unfold DownloadChunk. apply as_peer_keeps. intros identity. pose proof get_chunk_versioned_keeps. keeps_run.
Qed.

Lemma CancelFileUpload_keeps config peer id : keeps_alone P (CancelFileUpload env config peer id).
Proof using HP He. unfold CancelFileUpload. apply as_peer_keeps. intros identity. pose proof cancel_session_keeps. keeps_run. Qed.

Lemma DeleteFile_keeps config peer id : allow FileStatus.Deleted -> keeps_alone P (DeleteFile env config peer id).
Proof using HP He. intros Hallow. unfold DeleteFile. apply as_peer_keeps. intros identity. keeps_run. Qed.

(** ** The relay *)

Lemma mark_each_keeps success events : keeps_alone P (mark_each env success events).
Proof using HP He. induction events; cbn [mark_each]; keeps_run. Qed.

Lemma poll_keeps submit batch : keeps_alone P (poll_and_dispatch env submit batch).
Proof using HP He.
  unfold poll_and_dispatch, FilesOutboxRepository.fetch_pending_events. pose proof mark_each_keeps. keeps_run.
Qed.

End operations.
