(* ===== verification/FilesContracts.v ===== *)
(** * Files: contracts of the operations

    What one operation does to the database and the bucket on each of its outcomes, when
    it runs alone and requests to the object store may fail. *)

From S2P Require Import Prelude Ids Prog FilesTypes FilesText FilesValidation FilesDb FilesRepo FilesUpload FilesLifecycle FilesServer FilesLogic.
From stdpp Require Import sorting.

#[local] Open Scope Z_scope.

(** ** Statements, seen through the view *)

(** The transaction [w'] sees [d] after a statement of [w], and nobody else sees a
    difference. *)
Definition stepped (w : work) (s : FilesState) (d : MockStorage) (w' : work) (s' : FilesState) : Prop :=
  committed_ w' = committed_ w /\ view w' s' = d /\ unchanged s s'.

Lemma stepped_ticked w s s' : unchanged s s' -> stepped w s (view w s) w s'.
Proof. intros Hs. split_and!; [done|by apply unchanged_view|done]. Qed.

Lemma stepped_trans w s d w1 s1 d2 w2 s2 : stepped w s d w1 s1 -> stepped w1 s1 d2 w2 s2 -> stepped w s d2 w2 s2.
Proof. intros (H1 & _ & H3) (K1 & K2 & K3). split_and!; [congruence|done|by transitivity s1]. Qed.

Definition named_row {A} (id : string) (m : gmap string A) : option A := if is_empty id then None else m !! id.

Lemma wp_find_row {A B} id (select : string -> work -> MockStorage -> option A) (from_row : A -> result FilesExn B) w s Q :
  Q (optional from_row (if is_empty id then None else select id w (store s))) w s -> wp (find_row id select from_row) w Q s.
Proof. unfold find_row. destruct (is_empty id); [done|]. intros HQ. by apply wp_bind, wp_query, wp_result. Qed.

Lemma wp_find_file id w s Q :
  Q (optional file_from_row (named_row id (files_ (view w s)))) w s -> wp (FileRepository.find_by_id id) w Q s.
Proof. intros HQ. apply wp_find_row. by rewrite select_file_view. Qed.

Lemma wp_find_transfer id w s Q :
  Q (optional file_transfer_from_row (named_row id (transfers_ (view w s)))) w s -> wp (FileTransferRepository.find_by_id id) w Q s.
Proof. intros HQ. apply wp_find_row. by rewrite select_transfer_view. Qed.

Section statements.
Context (env : FilesEnv) (He : env_ok env).

Lemma wp_clock {A} (f : Z -> tx A) w s Q :
  (forall t s', iso_range t -> unchanged s s' -> wp (f t) w Q s') -> wp (let! t := tx_lift (system_clock_now env) in f t) w Q s.
Proof using He. intros Hf. apply wp_bind, wp_lift, clock_post; [done|]. intros t s' Ht _ [Hs _]. by apply Hf. Qed.

Lemma wp_uuid {A} (f : string -> tx A) w s Q :
  (forall id s', id <> EmptyString -> unchanged s s' -> wp (f id) w Q s') -> wp (let! id := tx_lift (new_uuid env) in f id) w Q s.
Proof. intros Hf. apply wp_bind, wp_lift, new_uuid_post. intros t s' Hs _. by apply Hf. Qed.

Definition status_update (id : string) (old new : FileStatus.t) (t : Z) (d : MockStorage) : bool * MockStorage :=
  match files_ d !! id with
  | Some f =>
      if bool_decide (sf_status f = FileStatus.to_string old)
      then (true, set_files (<[id := with_file_status (FileStatus.to_string new) (to_iso8601 t) f]> (files_ d)) d)
      else (false, d)
  | None => (false, d)
  end.

Lemma wp_file_status id old new w s Q :
  is_valid_state_transition old new = true ->
  (forall t w' s', iso_range t -> stepped w s (status_update id old new t (view w s)).2 w' s' ->
     Q (Ok (status_update id old new t (view w s)).1) w' s') ->
  wp (FileRepository.update_status env id old new) w Q s.
Proof using He.
  intros Hvalid HQ. unfold FileRepository.update_status. rewrite Hvalid. cbn [negb]. apply wp_clock. intros t s' Ht Hs.
  apply wp_update. unfold update_file_status. rewrite select_file_view, (unchanged_view w s s' Hs).
  specialize (HQ t). unfold status_update in HQ. destruct (files_ (view w s) !! id) as [f|] eqn:Hf; [|by apply HQ, stepped_ticked].
  case_bool_decide as Hst; cbn [fst snd] in *; apply HQ; [done| |done|]; (split_and!; [done| |done]); rewrite view_stage_files, (unchanged_view w s s' Hs).
  - done.
  - rewrite insert_id by done. by destruct (view w s).
Qed.

Definition transfer_update (id : string) (status : TransferStatus.t) (t : Z) (d : MockStorage) : MockStorage :=
  match named_row id (transfers_ d) with
  | Some x => set_transfers (<[id := with_transfer_status (TransferStatus.to_string status) (to_iso8601 t) x]> (transfers_ d)) d
  | None => d
  end.

Lemma wp_transfer_status id status w s Q :
  (forall r t w' s', iso_range t -> stepped w s (transfer_update id status t (view w s)) w' s' -> Q (Ok r) w' s') ->
  wp (FileTransferRepository.update_status env id status) w Q s.
Proof using He.
  intros HQ. unfold FileTransferRepository.update_status. unfold transfer_update, named_row in HQ.
  destruct (is_empty id); [by eapply (HQ _ _ _ _ (proj1 (env_clock env He 0))), stepped_ticked|].
  apply wp_clock. intros t s' Ht Hs. apply wp_update. unfold update_transfer_status.
  rewrite select_transfer_view, (unchanged_view w s s' Hs). specialize (HQ false t) as HF. specialize (HQ true t) as HT.
  destruct (transfers_ (view w s) !! id) as [x|]; [|by apply HF, stepped_ticked].
  apply HT; [done|]. split_and!; [done| |done]. cbn [snd]. by rewrite view_stage_transfers, (unchanged_view w s s' Hs).
Qed.

Definition progress_update (id : string) (n t : Z) (d : MockStorage) : MockStorage :=
  match named_row id (transfers_ d) with
  | Some x => set_transfers (<[id := with_progress n (to_iso8601 t) x]> (transfers_ d)) d
  | None => d
  end.

Lemma wp_progress id n w s Q :
  (forall r t w' s', iso_range t -> stepped w s (progress_update id n t (view w s)) w' s' -> Q (Ok r) w' s') ->
  wp (FileTransferRepository.increment_chunk_progress env id n) w Q s.
Proof using He.
  intros HQ. unfold FileTransferRepository.increment_chunk_progress. unfold progress_update, named_row in HQ.
  destruct (is_empty id); [by eapply (HQ _ _ _ _ (proj1 (env_clock env He 0))), stepped_ticked|].
  apply wp_clock. intros t s' Ht Hs. apply wp_update. unfold increment_progress.
  rewrite select_transfer_view, (unchanged_view w s s' Hs). specialize (HQ false t) as HF. specialize (HQ true t) as HT.
  destruct (transfers_ (view w s) !! id) as [x|]; [|by apply HF, stepped_ticked].
  apply HT; [done|]. split_and!; [done| |done]. cbn [snd]. by rewrite view_stage_transfers, (unchanged_view w s s' Hs).
Qed.

(** An event with every field is staged. *)
Lemma wp_stage_event e w s Q :
  event_id e <> EmptyString -> aggregate_id e <> EmptyString -> event_type e <> EmptyString -> payload_json e <> EmptyString ->
  (forall w' s', stepped w s (set_outbox (<[event_id e := outbox_row e]> (outbox_ (view w s))) (view w s)) w' s' -> Q (Ok tt) w' s') ->
  wp (FilesOutboxRepository.stage_event e) w Q s.
Proof.
  intros H1 H2 H3 H4 HQ. unfold FilesOutboxRepository.stage_event, is_empty. rewrite !bool_decide_eq_false_2 by done. cbn [orb].
  apply HQ. split_and!; [done| |done]. cbn [snd]. unfold insert_outbox. by rewrite view_stage_outbox.
Qed.

Lemma wp_stage_file_event id type payload now w s Q :
  id <> EmptyString -> type <> EmptyString ->
  (forall event_id w' s', let e := mkOutboxEntity event_id "FILE" id type (print_json env payload) OutboxStatus.Pending 0 now None in
     stepped w s (set_outbox (<[event_id := outbox_row e]> (outbox_ (view w s))) (view w s)) w' s' -> Q (Ok tt) w' s') ->
  wp (stage_file_event env id type payload now) w Q s.
Proof using He.
  intros Hid Htype HQ. unfold stage_file_event. apply wp_uuid. intros ev s1 Hev Hs1. apply wp_stage_event; [done..|apply (env_json env He)|].
  intros w' s' Hs'. apply (HQ ev). eapply stepped_trans; [by apply stepped_ticked|]. by rewrite <- (unchanged_view w s s1 Hs1).
Qed.

(** The tables after a commit are what the transaction saw. *)
Lemma wp_commit_step (w0 w : work) s0 s d Q :
  committed_ w0 = false -> stepped w0 s0 d w s ->
  (forall w' s', store s' = d -> objects s' = objects s0 -> in_memory_cache s' = in_memory_cache s0 -> Q (Ok tt) w' s') -> wp commit w Q s.
Proof.
  intros H0 (Hc & Hv & Hu) HQ. apply wp_commit; [congruence|]. intros w'. apply HQ; cbn; [done|apply Hu|apply Hu].
Qed.

End statements.

(** ** Permissions *)

Definition access_answer (d : MockStorage) (id user : string) (required : FilePermission.t) : result FilesExn bool :=
  if is_empty id || is_empty user then Ok false
  else
    match files_ d !! id with
    | None => Ok false
    | Some f =>
        if bool_decide (sf_owner_user_id f = user) then Ok true
        else
          match access_ d !! (id, user) with
          | Some a => if bool_decide (sa_revoked_at a = None) then let? e := file_access_from_row a in Ok (satisfies (permission e) required) else Ok false
          | None => Ok false
          end
    end.

Lemma wp_check_access id user required w s Q :
  Q (access_answer (view w s) id user required) w s -> wp (FileAccessRepository.check_access id user required) w Q s.
Proof.
  intros HQ. unfold FileAccessRepository.check_access, access_answer in *. destruct (_ || _); [done|].
  apply wp_bind, wp_query. rewrite select_file_view. destruct (files_ (view w s) !! id) as [f|]; [|done].
  destruct (bool_decide _); [done|]. apply wp_bind, wp_query. unfold select_active_grant. rewrite select_grant_view. unfold mbind, option_bind.
  destruct (access_ (view w s) !! (id, user)) as [a|]; [|done]. destruct (bool_decide _); [|done].
  apply wp_bind, wp_result. by destruct (file_access_from_row a).
Qed.

(** What a caller may do with a file: the trusted peers, its owner, and by grant. *)
Definition permitted (d : MockStorage) (file : FileEntity) (caller permission : string) : result FilesExn bool :=
  if trusted_caller caller then Ok true
  else if bool_decide (owner_user_id file = caller) then Ok true
  else access_answer d (file_id file) caller
         (if bool_decide (permission = "WRITE") || bool_decide (permission = "ADMIN") then FilePermission.Write else FilePermission.Read).

Lemma wp_check_ownership file caller permission w s Q :
  Q (permitted (view w s) file caller permission) w s -> wp (check_ownership_or_access file caller permission) w Q s.
Proof.
  unfold permitted, check_ownership_or_access. destruct (trusted_caller caller); [done|]. destruct (bool_decide _); [done|]. apply wp_check_access.
Qed.

(** ** Lifecycle operations *)

(** The row moves and one pending event tells about it. *)
Definition moved_file (id : string) (new : FileStatus.t) (type : string) (d d' : MockStorage) : Prop :=
  exists f t ev, files_ d !! id = Some f /\ iso_range t /\
    aggregate_id ev = id /\ event_type ev = type /\ outbox_status ev = OutboxStatus.Pending /\
    d' = set_outbox (<[event_id ev := outbox_row ev]> (outbox_ d))
           (set_files (<[id := with_file_status (FileStatus.to_string new) (to_iso8601 t) f]> (files_ d)) d).

Definition transition_answer (d : MockStorage) (id : string) (old new : FileStatus.t) (caller : string) : result FilesExn bool :=
  let? _ := assert_valid_state_transition old new in
  let? found := optional file_from_row (named_row id (files_ d)) in
  match found with
  | None => Err FileNotFoundException
  | Some file =>
      let? allowed := permitted d file caller "WRITE" in
      if negb allowed then Err UnauthorizedFileAccessException else Ok (bool_decide (file_status file = old))
  end.

Definition delete_answer (d : MockStorage) (id caller : string) : result FilesExn bool :=
  let? found := optional file_from_row (named_row id (files_ d)) in
  match found with
  | None => Err FileNotFoundException
  | Some file =>
      let? allowed := permitted d file caller "WRITE" in
      if negb allowed then Err UnauthorizedFileAccessException
      else if bool_decide (file_status file = FileStatus.Deleted) then Ok true
      else let? _ := assert_valid_state_transition (file_status file) FileStatus.Deleted in Ok true
  end.

Lemma status_from_string_ok str status : FileStatus.from_string str = Ok status -> str = FileStatus.to_string status.
Proof. unfold FileStatus.from_string. intros H. repeat (case_bool_decide; [by simplify_eq|]). done. Qed.

Lemma file_row_inv row file :
  file_from_row row = Ok file -> file_id file = sf_file_id row /\ owner_user_id file = sf_owner_user_id row /\
    sf_status row = FileStatus.to_string (file_status file) /\ stoll (sf_encrypted_size row) = Ok (encrypted_size file).
Proof.
  unfold file_from_row. intros H. repeat (apply bind_ok in H as (? & ? & H)). simplify_eq/=. by split_and!; [| |apply status_from_string_ok|].
Qed.

Lemma status_update_hit id old new t d f file :
  files_ d !! id = Some f -> file_from_row f = Ok file ->
  status_update id old new t d =
    (if bool_decide (file_status file = old)
     then (true, set_files (<[id := with_file_status (FileStatus.to_string new) (to_iso8601 t) f]> (files_ d)) d) else (false, d)).
Proof.
  intros Hf Hrow. unfold status_update. rewrite Hf. apply file_row_inv in Hrow as (_ & _ & -> & _).
  rewrite (bool_decide_ext (FileStatus.to_string (file_status file) = FileStatus.to_string old) (file_status file = old)); [done|].
  split; [|congruence]. intros H. apply (f_equal FileStatus.from_string) in H. rewrite !FileStatus.status_roundtrip in H. by simplify_eq.
Qed.

Section lifecycle.
Context (env : FilesEnv) (He : env_ok env).

Lemma event_type_nonempty status : event_type_for_status status <> EmptyString.
Proof. by destruct status. Qed.

(** The end of both operations: the row, the event, the commit. *)
Lemma wp_move id old new type payload f file s (Q : result FilesExn bool -> work -> FilesState -> Prop) :
  is_valid_state_transition old new = true -> is_empty id = false -> type <> EmptyString ->
  files_ (store s) !! id = Some f -> file_from_row f = Ok file ->
  (forall w' s', objects s' = objects s ->
     (if bool_decide (file_status file = old) then moved_file id new type (store s) (store s') else store s' = store s) ->
     Q (Ok (bool_decide (file_status file = old))) w' s') ->
  wp (let! updated := FileRepository.update_status env id old new in
      if negb updated then tx_ret false
      else
        let! now := tx_lift (system_clock_now env) in
        let! _ := stage_file_event env id type (payload now) now in
        let! _ := commit in tx_ret true) new_work Q s.
Proof using He.
  intros Hv Hid Htype Hf Hrow HQ. apply wp_bind, wp_file_status; [done..|]. intros t w1 s1 Ht Hs1.
  rewrite view_new, (status_update_hit _ _ _ _ _ _ _ Hf Hrow) in *.
  case_bool_decide as Hold; cbn [fst snd negb] in *; [|apply HQ; apply Hs1].
  apply wp_clock; [done|]. intros now s2 Hnow Hs2. apply wp_bind, wp_stage_file_event; [done|by intros ->|done|].
  intros ev w3 s3 e Hs3. apply wp_bind. eapply (wp_commit_step new_work); [done| |].
  { eapply stepped_trans; [exact Hs1|]. eapply stepped_trans; [apply stepped_ticked, Hs2|exact Hs3]. }
  rewrite (unchanged_view w1 s1 s2 Hs2). destruct Hs1 as (_ & -> & _). intros w4 s4 Hst Hobj _. apply HQ; [done|].
  exists f, t, e. by split_and!.
Qed.

Lemma transition_post id old new caller reason s :
  alone_post (transition_lifecycle env id old new caller reason)
    (fun r s' => r = transition_answer (store s) id old new caller /\ objects s' = objects s /\
       match r with Ok true => moved_file id new (event_type_for_status new) (store s) (store s') | _ => store s' = store s end) s.
Proof using He.
  unfold transition_lifecycle, transition_answer, assert_valid_state_transition.
  destruct (is_valid_state_transition old new) eqn:Hv; [|done]. cbn [bind negb].
  apply with_work_post, wp_bind, wp_find_file. rewrite view_new. unfold named_row. destruct (is_empty id) eqn:Hid; [done|].
  destruct (files_ (store s) !! id) as [f|] eqn:Hf; [|done]. cbn [optional]. destruct (file_from_row f) as [file|] eqn:Hrow; [|done]. cbn [bind].
  apply wp_bind, wp_check_ownership. rewrite view_new. destruct (permitted (store s) file caller "WRITE") as [[]|]; [|done..]. cbn [bind negb].
  apply (wp_move _ _ _ _ (fun _ => _) f file); [done..|apply event_type_nonempty|done|done|]. intros w' s' Hobj Hst. split_and!; [done..|].
  by destruct (bool_decide _).
Qed.

(** Whether the row of a file says that it is deleted. *)
Definition already_deleted (id : string) (d : MockStorage) : Prop :=
  exists f, files_ d !! id = Some f /\ sf_status f = FileStatus.to_string FileStatus.Deleted.

#[export] Instance already_deleted_dec id d : Decision (already_deleted id d).
Proof.
  destruct (files_ d !! id) as [f|] eqn:Hf; [|right; intros (f & Hf' & _); congruence].
  destruct (decide (sf_status f = FileStatus.to_string FileStatus.Deleted)); [left; by exists f|right]. intros (f' & Hf' & ?). congruence.
Defined.

(** A deletion that is granted moves the row, unless the row says it is deleted. *)
Definition deleted_once (id : string) (r : result FilesExn bool) (d d' : MockStorage) : Prop :=
  match r with
  | Ok true => if decide (already_deleted id d) then d' = d else moved_file id FileStatus.Deleted "FILE_DELETED" d d'
  | _ => d' = d
  end.

Lemma deleted_already id d : already_deleted id d -> deleted_once id (Ok true) d d.
Proof. intros H. unfold deleted_once. by destruct (decide _). Qed.

Lemma deleted_now id d d' : ~ already_deleted id d -> moved_file id FileStatus.Deleted "FILE_DELETED" d d' -> deleted_once id (Ok true) d d'.
Proof. intros H1 H2. unfold deleted_once. by destruct (decide _). Qed.

Lemma delete_post id caller reason s :
  alone_post (delete_file env id caller reason)
    (fun r s' => r = delete_answer (store s) id caller /\ objects s' = objects s /\ deleted_once id r (store s) (store s')) s.
Proof using He.
  unfold delete_file, delete_answer. apply with_work_post, wp_bind, wp_find_file. rewrite view_new. unfold named_row.
  destruct (is_empty id) eqn:Hid; [done|]. destruct (files_ (store s) !! id) as [f|] eqn:Hf; [|done]. cbn [optional].
  destruct (file_from_row f) as [file|] eqn:Hrow; [|done]. cbn [bind].
  apply wp_bind, wp_check_ownership. rewrite view_new. destruct (permitted (store s) file caller "WRITE") as [[]|]; [|done..]. cbn [bind negb].
  pose proof (file_row_inv _ _ Hrow) as (_ & _ & Hstatus & _).
  case_bool_decide as Hdel; [by split_and!; [..|apply deleted_already; exists f; rewrite Hstatus, Hdel]|].
  apply wp_bind, wp_result. unfold assert_valid_state_transition.
  destruct (is_valid_state_transition (file_status file) FileStatus.Deleted) eqn:Hv; [|done]. cbn [negb bind].
  apply (wp_move _ _ _ _ (fun now => _) f file); [done..|]. intros w' s' Hobj Hst. rewrite bool_decide_eq_true_2 in * by done.
  split_and!; [done..|]. apply deleted_now; [|done]. intros (f' & Hf' & H'). rewrite Hf in Hf'. injection Hf' as <-.
  rewrite Hstatus in H'. by apply FileStatus.status_string_inj in H'.
Qed.

End lifecycle.

(** ** Storing a chunk *)

(** Every chunk is under its own key. *)
Definition keyed_chunks (d : MockStorage) : Prop :=
  forall k c, chunks_ d !! k = Some c -> k = (sc_transfer_id c, sc_chunk_index c).

Lemma map_result_elem {E A B} (f : A -> result E B) l bs :
  map_result f l = Ok bs -> (forall a, a ∈ l -> exists b, f a = Ok b /\ b ∈ bs) /\ (forall b, b ∈ bs -> exists a, f a = Ok b /\ a ∈ l).
Proof.
  revert bs. induction l as [|a l IH]; intros bs H; cbn in H; [simplify_eq; split; intros ? H; inversion H|].
  apply bind_ok in H as (b & Hb & H). apply bind_ok in H as (bs' & Hbs & H). simplify_eq. destruct (IH _ Hbs) as [I1 I2]. split.
  - intros x [->|Hx]%elem_of_cons; [exists b; split; [done|left]|]. destruct (I1 x Hx) as (y & ? & ?). exists y. split; [done|by right].
  - intros y [->|Hy]%elem_of_cons; [exists a; split; [done|left]|]. destruct (I2 y Hy) as (x & ? & ?). exists x. split; [done|by right].
Qed.

(** The rows of a transfer, in the order of their indices. *)
Definition chunk_rows (id : string) (d : MockStorage) : list StoredChunk :=
  merge_sort chunk_row_le (snd <$> filter (fun kv : (string * Z) * StoredChunk => kv.1.1 = id) (map_to_list (chunks_ d))).

Definition chunk_count (id : string) (d : MockStorage) : Z :=
  Z.of_nat (length (filter (fun kv : (string * Z) * StoredChunk => kv.1.1 = id) (map_to_list (chunks_ d)))).

Lemma chunk_rows_elem id d c : c ∈ chunk_rows id d <-> exists i, chunks_ d !! (id, i) = Some c.
Proof.
  unfold chunk_rows. rewrite merge_sort_Permutation, list_elem_of_fmap. split.
  - intros ([[id' i] c'] & -> & Hin). apply list_elem_of_filter in Hin as [Hid Hin]. cbn in Hid. subst. exists i. by apply elem_of_map_to_list.
  - intros (i & Hc). exists ((id, i), c). split; [done|]. apply list_elem_of_filter. split; [done|]. by apply elem_of_map_to_list.
Qed.

Lemma wp_list_chunks id w s Q :
  is_empty id = false -> Q (map_result file_chunk_from_row (chunk_rows id (view w s))) w s ->
  wp (FileChunkRepository.list_chunks_for_transfer id) w Q s.
Proof. intros Hid HQ. unfold FileChunkRepository.list_chunks_for_transfer. rewrite Hid. by apply wp_bind, wp_query, wp_result. Qed.

Lemma wp_count_chunks id w s Q :
  is_empty id = false -> Q (Ok (chunk_count id (view w s))) w s -> wp (FileChunkRepository.count_accepted_chunks id) w Q s.
Proof. intros Hid HQ. unfold FileChunkRepository.count_accepted_chunks. rewrite Hid. by apply wp_query. Qed.

Lemma wp_record_chunk c w s (Q : result FilesExn ChunkRecordResult -> work -> FilesState -> Prop) :
  chunks_ (view w s) !! (chunk_transfer_id c, chunk_index c) = None -> (forall e, Q (Err e) w s) ->
  (forall w' s', stepped w s (set_chunks (<[(chunk_transfer_id c, chunk_index c) := chunk_row c]> (chunks_ (view w s))) (view w s)) w' s' ->
     Q (Ok NewlyInserted) w' s') ->
  wp (FileChunkRepository.record_chunk c) w Q s.
Proof.
  intros Hn HE HQ. unfold FileChunkRepository.record_chunk. split_ifs; [by apply wp_throw..|].
  apply wp_bind, wp_update. unfold insert_chunk. rewrite staged_copy_view.
  change ((chunks_ (staged w) ∪ chunks_ (store s)) !! _) with (chunks_ (view w s) !! (chunk_transfer_id c, chunk_index c)). rewrite Hn.
  rewrite bool_decide_eq_false_2 by by intros []. apply HQ. split_and!; [done| |done]. cbn [snd]. by rewrite view_stage_chunks.
Qed.

Lemma chunk_row_inv row c : file_chunk_from_row row = Ok c ->
  chunk_transfer_id c = sc_transfer_id row /\ chunk_index c = sc_chunk_index row /\ chunk_size c = sc_chunk_size row /\
  chunk_hash_sha256 c = sc_chunk_hash_sha256 row /\ minio_chunk_key c = sc_minio_chunk_key row.
Proof. unfold file_chunk_from_row. intros H. repeat (apply bind_ok in H as (? & ? & H)). by simplify_eq. Qed.

Lemma find_chunk d id i l :
  keyed_chunks d -> map_result file_chunk_from_row (chunk_rows id d) = Ok l ->
  match List.find (fun ec => chunk_index ec =? i) l with
  | Some ec => exists c, chunks_ d !! (id, i) = Some c /\ sc_chunk_hash_sha256 c = chunk_hash_sha256 ec
  | None => chunks_ d !! (id, i) = None
  end.
Proof.
  intros Hk Hl. apply map_result_elem in Hl as [H1 H2]. destruct (List.find _ l) as [ec|] eqn:Hf.
  - apply List.find_some in Hf as [Hin Hi%Z.eqb_eq]. apply list_elem_of_In in Hin. destruct (H2 ec Hin) as (c & Hc & Hrow).
    apply chunk_rows_elem in Hrow as (j & Hj). apply chunk_row_inv in Hc as (_ & Hci & _ & Hh & _). pose proof (Hk _ _ Hj). simplify_eq.
    exists c. split; [congruence|done].
  - apply eq_None_not_Some. intros (c & Hc). destruct (H1 c) as (ec & Hec & Hin); [apply chunk_rows_elem; by exists i|].
    apply chunk_row_inv in Hec as (_ & Hci & _). pose proof (Hk _ _ Hc). simplify_eq. apply list_elem_of_In in Hin.
    pose proof (List.find_none _ _ Hf ec Hin) as Hne. cbn in Hne. rewrite Hci, Z.eqb_refl in Hne. done.
Qed.

(** What accepting a chunk writes. *)
Definition stored_chunk (dto : ChunkPayloadDto) (id : string) (now : Z) : FileChunkEntity :=
  mkChunkEntity id (cp_upload_id dto) (i32 (cp_chunk_index dto)) (cp_chunk_index dto * k_standard_chunk_size)
    (i32 (cp_chunk_size_bytes dto)) (cp_claimed_sha256 dto) (build_staging_key (cp_upload_id dto) (cp_chunk_index dto)) ChunkStatus.Received now.

Definition chunk_recorded (dto : ChunkPayloadDto) (d d' : MockStorage) : Prop :=
  exists id now transfer row t1 t2 t3 t4,
    iso_range now /\ is_empty (cp_upload_id dto) = false /\ transfers_ d !! cp_upload_id dto = Some row /\ file_transfer_from_row row = Ok transfer /\
    chunks_ d !! (cp_upload_id dto, i32 (cp_chunk_index dto)) = None /\ iso_range t1 /\ iso_range t2 /\ iso_range t3 /\ iso_range t4 /\
    let d1 := set_chunks (<[(cp_upload_id dto, i32 (cp_chunk_index dto)) := chunk_row (stored_chunk dto id now)]> (chunks_ d)) d in
    let d2 := if bool_decide (transfer_status transfer = TransferStatus.Created)
              then (status_update (transfer_file_id transfer) FileStatus.Created FileStatus.Uploading t2
                      (transfer_update (cp_upload_id dto) TransferStatus.Transferring t1 d1)).2 else d1 in
    let d3 := progress_update (cp_upload_id dto) (cp_chunk_size_bytes dto) t3 d2 in
    d' = if (0 <? total_chunks transfer) && (total_chunks transfer <=? chunk_count (cp_upload_id dto) d3)
         then transfer_update (cp_upload_id dto) TransferStatus.Finalizing t4 d3 else d3.

Section chunks.
Context (env : FilesEnv) (He : env_ok env).

Definition chunk_stored_post (dto : ChunkPayloadDto) (s : FilesState) (r : result FilesExn ChunkStoreResult) (s' : FilesState) : Prop :=
  let key := (cp_upload_id dto, i32 (cp_chunk_index dto)) in
  let put := <[build_staging_key (cp_upload_id dto) (cp_chunk_index dto) := cp_encrypted_data dto]> (objects s) in
  match r with
  | Ok res =>
      if cs_is_duplicate res
      then store s' = store s /\ objects s' = objects s /\ res = chunk_stored dto true /\
           exists c, chunks_ (store s) !! key = Some c /\ hashes_equal (sc_chunk_hash_sha256 c) (cp_claimed_sha256 dto) = true
      else chunk_recorded dto (store s) (store s') /\ objects s' = put /\ res = chunk_stored dto false
  | Err e =>
      (store s' = store s \/
         e = TransferExpiredException /\ exists t, iso_range t /\ store s' = transfer_update (cp_upload_id dto) TransferStatus.Expired t (store s)) /\
      (objects s' = objects s \/ chunks_ (store s) !! key = None /\ objects s' = put)
  end.

(** Once the body is in the bucket: the rows. *)
Lemma wp_record_upload dto transfer row now s0 s (Q : result FilesExn ChunkStoreResult -> work -> FilesState -> Prop) :
  let key := (cp_upload_id dto, i32 (cp_chunk_index dto)) in
  let put := <[build_staging_key (cp_upload_id dto) (cp_chunk_index dto) := cp_encrypted_data dto]> (objects s0) in
  store s = store s0 -> objects s = put -> iso_range now -> is_empty (cp_upload_id dto) = false ->
  transfers_ (store s0) !! cp_upload_id dto = Some row -> file_transfer_from_row row = Ok transfer -> chunks_ (store s0) !! key = None ->
  (forall r w' s', chunk_stored_post dto s0 r s' -> Q r w' s') ->
  wp (let! id := tx_lift (new_uuid env) in
      let! recorded := FileChunkRepository.record_chunk (stored_chunk dto id now) in
      match recorded with
      | ConflictHashMismatch => abort_throw ChunkIntegrityException
      | AlreadyExistsIdentical => let! _ := commit in tx_ret (chunk_stored dto true)
      | NewlyInserted =>
          let! _ :=
            (if bool_decide (transfer_status transfer = TransferStatus.Created) then
               let! _ := FileTransferRepository.update_status env (cp_upload_id dto) TransferStatus.Transferring in
               FileRepository.update_status env (transfer_file_id transfer) FileStatus.Created FileStatus.Uploading
             else tx_ret true) in
          let! _ := FileTransferRepository.increment_chunk_progress env (cp_upload_id dto) (cp_chunk_size_bytes dto) in
          let! accepted_count := FileChunkRepository.count_accepted_chunks (cp_upload_id dto) in
          let! _ :=
            (if (0 <? total_chunks transfer) && (total_chunks transfer <=? accepted_count)
             then FileTransferRepository.update_status env (cp_upload_id dto) TransferStatus.Finalizing
             else tx_ret true) in
          let! _ := commit in tx_ret (chunk_stored dto false)
      end) new_work Q s.
Proof using He.
  intros key put Hst Hobj Hnow Hid Hrow Htr Hn HQ. apply wp_uuid. intros id s1 _ Hs1. apply wp_bind.
  assert (Hv1 : view new_work s1 = store s0) by (rewrite view_new; destruct Hs1 as (-> & _); done).
  apply wp_record_chunk; [by rewrite Hv1|intros e; apply HQ; split; [left; destruct Hs1 as (-> & _); done|right; split; [done|destruct Hs1 as (_ & -> & _); done]]|].
  intros w2 s2 Hs2. rewrite Hv1 in Hs2. set (d1 := set_chunks _ _) in Hs2.
  set (d2 t1 t2 := if bool_decide (transfer_status transfer = TransferStatus.Created)
              then (status_update (transfer_file_id transfer) FileStatus.Created FileStatus.Uploading t2
                      (transfer_update (cp_upload_id dto) TransferStatus.Transferring t1 d1)).2 else d1).
  apply wp_bind. eapply wp_mono with (Q := fun r w' s' => exists a t1 t2, r = Ok a /\ iso_range t1 /\ iso_range t2 /\ stepped new_work s1 (d2 t1 t2) w' s').
  2: { unfold d2. destruct (bool_decide _).
    - apply wp_bind, wp_transfer_status; [done|]. intros r1 t1 w3 s3 Ht1 Hs3. apply wp_file_status; [done..|]. intros t2 w4 s4 Ht2 Hs4.
      eexists _, t1, t2. split_and!; [done..|]. eapply stepped_trans; [exact Hs2|]. eapply stepped_trans; [exact Hs3|].
      destruct Hs3 as (_ & Hv3 & _). destruct Hs2 as (_ & Hv2 & _). by rewrite Hv3, Hv2 in Hs4.
    - apply wp_ret. exists true, now, now. by split_and!. }
  intros ? w3 s3 (a & t1 & t2 & -> & Ht1 & Ht2 & Hs3). apply wp_bind, wp_progress; [done|]. intros r3 t3 w4 s4 Ht3 Hs4.
  apply wp_bind, wp_count_chunks; [done|]. pose proof (stepped_trans _ _ _ _ _ _ _ _ Hs3 Hs4) as Hs4'.
  destruct Hs3 as (_ & Hv3 & _). rewrite Hv3 in Hs4, Hs4'. destruct (Hs4) as (_ & -> & _). set (d3 := progress_update _ _ _ _) in *.
  apply wp_bind. set (full := (0 <? _) && _) in *.
  eapply wp_mono with (Q := fun r w' s' => exists a t4, r = Ok a /\ iso_range t4 /\
    stepped new_work s1 (if full then transfer_update (cp_upload_id dto) TransferStatus.Finalizing t4 d3 else d3) w' s').
  2: { destruct full; [|apply wp_ret; by exists true, now]. apply wp_transfer_status; [done|]. intros r5 t4 w5 s5 Ht4 Hs5. exists r5, t4. split_and!; [done..|].
    eapply stepped_trans; [exact Hs4'|]. destruct Hs4 as (_ & Hv4 & _). by rewrite Hv4 in Hs5. }
  intros ? w5 s5 (a' & t4 & -> & Ht4 & Hs5). apply wp_bind. eapply (wp_commit_step new_work); [done|exact Hs5|].
  intros w6 s6 Hst6 Hobj6 _. apply HQ. cbn [chunk_stored_post cs_is_duplicate chunk_stored]. split_and!; [|destruct Hs1 as (_ & Ho1 & _); by rewrite Hobj6, Ho1, Hobj|done].
  exists id, now, transfer, row, t1, t2, t3, t4. by split_and!.
Qed.

Lemma store_chunk_post dto caller s :
  keyed_chunks (store s) -> alone_post (store_chunk env dto caller) (chunk_stored_post dto s) s.
Proof using He.
  intros Hkeyed. unfold store_chunk. apply alone_post_bind, clock_post; [done|]. intros now s0 Hnow _ [Hs0 _].
  assert (Hpost : forall r s', chunk_stored_post dto s0 r s' -> chunk_stored_post dto s r s')
    by (destruct Hs0 as (H1 & H2 & _); intros r s'; unfold chunk_stored_post; by rewrite H1, H2).
  destruct Hs0 as (Hst0 & Hobj0 & _). rewrite <- Hst0 in Hkeyed.
  assert (Herr : forall e, chunk_stored_post dto s (Err e) s0) by (intros e; apply Hpost; by split; left).
  apply with_work_post, wp_bind, wp_find_transfer. rewrite view_new. unfold named_row. destruct (is_empty (cp_upload_id dto)) eqn:Hid; [apply Herr|].
  destruct (transfers_ (store s0) !! cp_upload_id dto) as [row|] eqn:Hrow; [|apply Herr]. cbn [optional].
  destruct (file_transfer_from_row row) as [transfer|] eqn:Htr; [|apply Herr]. cbn [bind].
  destruct (_ && _); [apply Herr|]. do 3 (destruct (bool_decide _); [apply Herr|]). destruct (_ <? _).
  { apply wp_bind, wp_transfer_status; [done|]. intros r1 t w1 s1 Ht Hs1. rewrite view_new in Hs1.
    apply wp_bind. eapply (wp_commit_step new_work); [done|exact Hs1|]. intros w2 s2 Hst2 Hobj2 _. apply Hpost. split; [|by left]. right. eauto. }
  apply wp_bind, wp_list_chunks; [done|]. rewrite view_new. destruct (map_result _ _) as [l|] eqn:Hl; [|apply Herr].
  pose proof (find_chunk _ _ (i32 (cp_chunk_index dto)) _ Hkeyed Hl) as Hfind. destruct (List.find _ l) as [ec|].
  - destruct Hfind as (c & Hc & Hh). destruct (hashes_equal _ _) eqn:Heq; [|apply Herr]. apply wp_bind, wp_commit; [done|].
    intros w1. apply Hpost. cbn. rewrite view_new, overlay_empty || rewrite view_new. split_and!; [done..|]. exists c. by rewrite Hh.
  - apply wp_bind, wp_of. unfold put_object. cbn [alone_post]. split_and!.
    + apply (wp_record_upload dto transfer row now s0); [done..|]. intros r w' s'. apply Hpost.
    + apply Herr.
    + apply Hpost. split; [by left|]. by right.
Qed.

End chunks.
