(* ===== verification/FilesRuns.v ===== *)
(** * Files: histories of calls

    The calls of the service one after the other, with any failures of the object store:
    what happens to a file over its life. *)

From S2P Require Import Prelude Ids Prog FilesTypes FilesText FilesValidation FilesDb FilesRepo FilesUpload FilesLifecycle FilesServer FilesLogic.

#[local] Open Scope Z_scope.

(** ** Calls *)

(** The remote procedures, the polls of the relay, and the operations of the lifecycle
    service that other code of the process may call. *)
Inductive FilesCall :=
  | CallCreate (peer : Peer) (request : CreateFileUploadRequest)
  | CallUpload (peer : Peer) (dto : ChunkPayloadDto)
  | CallFinalize (peer : Peer) (upload_id id expected_sha256 : string)
  | CallMetadata (peer : Peer) (id : string)
  | CallDownload (peer : Peer) (capability : option CapabilityCheck) (id : string) (chunk_index : Z)
  | CallCancel (peer : Peer) (upload_id : string)
  | CallDelete (peer : Peer) (id : string)
  | CallPoll (submit_batch : list FilesOutboxEntity -> bool) (batch_size : Z)
  | CallExpire (batch_size : Z)
  | CallTransition (id : string) (expected_current new_status : FileStatus.t) (caller_user_id reason : string)
  | CallState (id : string) (new_state : FileLifecycleState)
  | CallMarkDeleted (id : string)
  | CallVersion (dto : CreateFileVersionRequestDto) (caller_user_id : string).

(** The numbers of a message are 64 and 32 bits wide. *)
Definition wire_request (r : CreateFileUploadRequest) : CreateFileUploadRequest :=
  mkUploadRequest (cu_file_id r) (cu_owner_user_id r) (cu_owner_device_id r) (cu_conversation_id r) (u64 (cu_encrypted_size_bytes r))
    (u32 (cu_expected_chunk_count r)) (cu_encryption_version r) (cu_client_crypto_metadata r).

Definition wire_chunk (dto : ChunkPayloadDto) : ChunkPayloadDto :=
  mkChunkPayload (cp_upload_id dto) (u32 (cp_chunk_index dto)) (cp_encrypted_data dto) (u32 (cp_chunk_size_bytes dto)) (cp_claimed_sha256 dto).

Definition forget {A} (p : fprog A) : fprog unit := let* _ := p in Ret tt.

Definition serve_files (env : FilesEnv) (config : ServerConfig) (call : FilesCall) : fprog unit :=
  match call with
  | CallCreate peer request => forget (CreateFileUpload env config peer (wire_request request))
  | CallUpload peer dto => forget (UploadChunk env config peer (wire_chunk dto))
  | CallFinalize peer upload_id id expected => forget (FinalizeFileUpload env config peer upload_id id expected)
  | CallMetadata peer id => forget (GetFileMetadata config peer id)
  | CallDownload peer capability id index => forget (DownloadChunk env config peer capability id (u32 index))
  | CallCancel peer upload_id => forget (CancelFileUpload env config peer upload_id)
  | CallDelete peer id => forget (DeleteFile env config peer id)
  | CallPoll submit batch => forget (poll_and_dispatch env submit batch)
  | CallExpire batch => forget (let* now := system_clock_now env in evaluate_and_expire_files env now batch)
  | CallTransition id old new caller reason => forget (transition_lifecycle env id old new caller reason)
  | CallState id new => forget (update_file_state env id new)
  | CallMarkDeleted id => forget (mark_file_deleted env id)
  | CallVersion dto caller => forget (create_file_version env dto caller)
  end.

(** ** Properties of the files alone *)

Section files_only.
Context (P : property) (HP : closed P (fun _ => True)) (env : FilesEnv) (He : env_ok env).
Context (HPv : forall d o v, P d o -> P (set_versions v d) o) (HPo : forall d o o', P d o -> P d o').

Lemma keeps_create_version v : keeps P (FileVersionRepository.create_version v).
Proof using HPv.
  unfold FileVersionRepository.create_version. destruct (_ || _); [auto with keeps|]. destruct (_ <=? _); [auto with keeps|].
  apply keeps_bind.
  - intros w s [Hv Hs]. unfold wp, update_throwing, insert_version. cbn [alone_post]. destruct (bool_decide _); [by split|].
    split; [|done]. exact (HPv _ _ _ Hv).
  - intros _. destruct (is_active v); [|auto with keeps]. intros w s [Hv Hs]. split; [exact (HPv _ _ _ Hv)|exact (HPv _ _ _ Hs)].
Qed.

Lemma keeps_of_store {A} (p : fprog (result FilesExn A)) :
  (forall s, alone_post p (fun _ s' => store s' = store s) s) -> keeps P (tx_of p).
Proof using HPo.
  intros Hp w s [Hv Hs]. apply wp_of. eapply alone_post_mono; [|apply Hp]. intros a s' Hst. unfold kept, view. rewrite Hst.
  split; by eapply HPo.
Qed.

Lemma fetch_chunks_store chunks s : alone_post (fetch_chunks env chunks) (fun _ s' => store s' = store s /\ objects s' = objects s) s.
Proof.
  induction chunks as [|c chunks IH]; [done|]. cbn [fetch_chunks get_object pbind alone_post]. split_and!; [|done..].
  destruct (objects s !! minio_chunk_key c) as [body|]; [|done]. destruct (negb _); [done|].
  apply alone_post_bind. eapply alone_post_mono; [|apply IH]. by intros [rest|e] s' Hs.
Qed.

Lemma assemble_store id version chunks s :
  alone_post (assemble_version_object env id version chunks) (fun _ s' => store s' = store s) s.
Proof.
  unfold assemble_version_object. apply alone_post_bind. eapply alone_post_mono with (Q := fun _ s' => store s' = store s).
  - intros [payload|e] s' Hs'; [|done]. by split_and!.
  - destruct (bool_decide _); [done|]. eapply alone_post_mono; [|apply fetch_chunks_store]. by intros ? ? [? _].
Qed.

Lemma cleanup_store chunks s : alone_post (cleanup_staging_chunks chunks) (fun _ s' => store s' = store s) s.
Proof.
  revert s. induction chunks as [|c chunks IH]; intros s; [done|]. cbn [cleanup_staging_chunks].
  destruct (is_empty _); cbn [pbind alone_post delete_object]; [apply IH|]. split_and!; eapply alone_post_mono; [|apply IH| |apply IH| |apply IH]; done.
Qed.

Lemma keeps_cleanup chunks : keeps P (tx_lift (cleanup_staging_chunks chunks)).
Proof using HPo.
  intros w s [Hv Hs]. apply wp_lift. eapply alone_post_mono; [|apply cleanup_store]. intros a s' Hst. unfold kept, view. rewrite Hst.
  split; by eapply HPo.
Qed.

(** A transaction that wrote nothing commits nothing. *)
Lemma replay_unchanged id s : alone_post (replay_published id) (fun _ s' => unchanged s s') s.
Proof.
  unfold replay_published, FileVersionRepository.find_active_version, find_row. destruct (is_empty id); [done|].
  cbn [with_work pbind tx_bind query tx_result alone_post]. destruct (optional _ _) as [[v|]|]; [|done..].
  cbn. unfold unchanged. cbn. by rewrite overlay_empty.
Qed.

Lemma finalize_keeps request : keeps_alone P (finalize_file_upload env request).
Proof using HP HPo HPv He.
  unfold finalize_file_upload, finalize_lookup, finalize_assemble, publish_version, publish_lost_race.
  pose proof keeps_create_version. pose proof keeps_cleanup.
  assert (Ha : forall id v l, keeps P (tx_of (assemble_version_object env id v l))) by (intros; apply keeps_of_store, assemble_store).
  assert (Hr : forall id, keeps P (tx_of (replay_published id))) by (intros; apply keeps_of_unchanged; intros; apply replay_unchanged).
  keeps_run; by eapply keeps_file_status.
Qed.

Lemma create_file_version_keeps dto caller : keeps_alone P (create_file_version env dto caller).
Proof using HP HPv He.
  unfold create_file_version. pose proof keeps_create_version. pose proof check_ownership_keeps.
  pose proof (stage_file_event_keeps P _ HP env He). keeps_run.
Qed.

End files_only.

(** ** The life of a file *)

(** What an upload fixes once and for all. *)
Definition same_file (f f' : StoredFile) : Prop :=
  sf_file_id f' = sf_file_id f /\ sf_owner_user_id f' = sf_owner_user_id f /\ sf_owner_device_id f' = sf_owner_device_id f /\
  sf_conversation_id f' = sf_conversation_id f /\ sf_encrypted_size f' = sf_encrypted_size f /\
  sf_content_type f' = sf_content_type f /\ sf_encryption_algorithm f' = sf_encryption_algorithm f /\
  sf_retention_until f' = sf_retention_until f /\ sf_created_at f' = sf_created_at f.

(** How the text in the column may change. *)
Definition status_reach (x y : string) : Prop :=
  x = y \/ exists a b, x = FileStatus.to_string a /\ y = FileStatus.to_string b /\ lifecycle_reach a b.

Definition file_after (f f' : StoredFile) : Prop := same_file f f' /\ status_reach (sf_status f) (sf_status f').

#[global] Instance status_reach_preorder : PreOrder status_reach.
Proof.
  split; [by left|]. intros x y z [->|(a & b & -> & -> & H1)] [<-|(c & d & Hc & -> & H2)]; [by left|by right; eauto|by right; exists a, b|].
  apply FileStatus.status_string_inj in Hc as <-. right. exists a, d. split_and!; [done..|by etrans].
Qed.

#[global] Instance same_file_preorder : PreOrder same_file.
Proof.
  split; [by intros f|]. unfold same_file. intros a b c (?&?&?&?&?&?&?&?&?) (?&?&?&?&?&?&?&?&?). split_and!; by etrans.
Qed.

#[global] Instance file_after_preorder : PreOrder file_after.
Proof.
  split; [by intros f; split|]. intros a b c [H1 H2] [K1 K2]. split; [by transitivity b|by transitivity (sf_status b)].
Qed.

(** Every file of [d0] is still there. *)
Definition grown (d0 : MockStorage) : property :=
  fun d _ => forall id f, files_ d0 !! id = Some f -> exists f', files_ d !! id = Some f' /\ file_after f f'.

Lemma grown_insert d0 d o id f' :
  grown d0 d o -> (forall f, files_ d !! id = Some f -> file_after f f') -> grown d0 (set_files (<[id := f']> (files_ d)) d) o.
Proof.
  intros HP Hf' id' f Hf. destruct (HP id' f Hf) as (f1 & Hf1 & Ha). cbn. destruct (decide (id = id')) as [<-|Hne].
  - exists f'. rewrite lookup_insert_eq. split; [done|]. transitivity f1; [done|by apply Hf'].
  - exists f1. by rewrite lookup_insert_ne.
Qed.

Lemma grown_closed d0 : closed (grown d0) (fun _ => True).
Proof.
  constructor; try by intros.
  - intros d o f HP Hn _ _. apply grown_insert; [done|]. intros f1. by rewrite Hn.
  - intros d o id f old new t HP Hf Hold Hvalid _ _. apply grown_insert; [done|]. intros f1 Hf1. simplify_eq. split; [done|].
    right. exists old, new. split_and!; [done..|by apply rtc_once].
Qed.

Lemma grown_staging d0 : closed_staging (grown d0).
Proof. by constructor. Qed.

Lemma serve_grown env config call d0 : env_ok env -> keeps_alone (grown d0) (serve_files env config call).
Proof.
  intros He. pose proof (grown_closed d0) as HP.
  assert (HPv : forall d o v, grown d0 d o -> grown d0 (set_versions v d) o) by done.
  assert (HPo : forall d o o', grown d0 d o -> grown d0 d o') by done.
  destruct call; cbn [serve_files]; unfold forget; (apply keeps_alone_bind; [|intros ?; apply keeps_alone_ret]).
  - eapply CreateFileUpload_keeps; [done..|apply u64_range].
  - eapply UploadChunk_keeps; [done..|apply grown_staging|done].
  - unfold FinalizeFileUpload. apply as_peer_keeps. intros _. pose proof (finalize_keeps _ HP env He HPv HPo). keeps_run.
  - apply GetFileMetadata_keeps.
  - apply DownloadChunk_keeps.
  - by eapply CancelFileUpload_keeps.
  - by eapply DeleteFile_keeps.
  - by eapply poll_keeps.
  - eapply keeps_alone_clock; [done|]. intros now Hnow _. by eapply evaluate_keeps.
  - by eapply transition_keeps.
  - by eapply update_file_state_keeps.
  - by eapply mark_file_deleted_keeps.
  - by eapply create_file_version_keeps.
Qed.

Lemma grown_self d o : grown d d o.
Proof. intros id f Hf. by exists f. Qed.

(** C34.  Over any history of calls, one after the other and with any failures of the
    object store, a file never disappears, its owner, device, conversation, size and
    algorithm never change, and its status only moves along the transitions of the
    lifecycle; so a deleted or failed file stays deleted or failed. *)
Theorem file_life env config s s' (He : env_ok env) (Hr : one_by_one (serve_files env config) s s') :
  forall id f, files_ (store s) !! id = Some f ->
  exists f', files_ (store s') !! id = Some f' /\ same_file f f' /\ status_reach (sf_status f) (sf_status f') /\
    (forall status, sf_status f = FileStatus.to_string status -> is_terminal_state status = true -> sf_status f' = sf_status f).
Proof.
  intros id f Hf.
  pose proof (one_by_one_keeps (serve_files env config) (fun s' => grown (store s) (store s') (objects s'))
    (fun call => serve_grown env config call _ He) s s' Hr (grown_self _ _)) as Hg.
  destruct (Hg id f Hf) as (f' & Hf' & Hsame & Hreach). exists f'. split_and!; [done..|]. intros status Hst Hterm.
  destruct Hreach as [->|(a & b & Ha & Hb & Hab)]; [done|]. rewrite Hst in Ha. apply FileStatus.status_string_inj in Ha as <-.
  apply terminal_reach in Hab as ->; [|done]. congruence.
Qed.
