(* ===== verification/FilesInv.v ===== *)
(** * Files: the invariant of the service

    What every call leaves behind: rows that can be read, chunks that describe the bodies
    in the bucket, and versions that describe the assembled objects. *)

From S2P Require Import Prelude Ids Prog FilesTypes FilesText FilesValidation FilesDb FilesRepo FilesUpload FilesLifecycle FilesServer FilesLogic FilesContracts FilesRuns.

From Stdlib Require Import Ascii.

#[local] Open Scope Z_scope.

(** ** Keys of the bucket *)

Lemma split_last {A} (x : A) a1 a2 b1 b2 : x ∉ b1 -> x ∉ b2 -> a1 ++ x :: b1 = a2 ++ x :: b2 -> a1 = a2 /\ b1 = b2.
Proof.
  revert a2. induction a1 as [|y a1 IH]; intros [|z a2] H1 H2 H; cbn in H; simplify_eq; [done| | |].
  - exfalso. apply H1. set_solver.
  - exfalso. apply H2. set_solver.
  - destruct (IH a2 H1 H2 ltac:(done)) as [-> ->]. done.
Qed.

Lemma decimal_no_slash z : 0 <= z -> "/"%char ∉ chars (decimal z).
Proof.
  intros Hz Hin. destruct (decimal_digits z Hz) as (HF & _). rewrite Forall_forall in HF. by specialize (HF _ Hin).
Qed.

(** Both kinds of key: a prefix, an identifier, a slash and a number. *)
Lemma key_inj prefix t t' i i' :
  0 <= i -> 0 <= i' ->
  String.append prefix (String.append t (String.append "/" (decimal i))) = String.append prefix (String.append t' (String.append "/" (decimal i'))) ->
  t = t' /\ i = i'.
Proof.
  intros Hi Hi' H. apply (f_equal chars) in H. rewrite !chars_append in H. apply app_inv_head in H.
  apply (split_last "/"%char) in H as [Ht Hd]; [|by apply decimal_no_slash..]. split; [by apply chars_inj|]. apply decimal_inj; [done..|]. by apply chars_inj.
Qed.

Lemma staging_key_inj t t' i i' : 0 <= i -> 0 <= i' -> build_staging_key t i = build_staging_key t' i' -> t = t' /\ i = i'.
Proof. apply key_inj. Qed.

Lemma version_key_inj t t' : build_version_key t 1 = build_version_key t' 1 -> t = t'.
Proof. intros H. by apply key_inj in H as [-> _]. Qed.

Lemma staging_not_version t i id n : build_staging_key t i <> build_version_key id n.
Proof. done. Qed.

(** ** The invariant *)

Section invariant.
Context (env : FilesEnv).

Definition digest (body : list Z) : string := compute_sha256_hex (sha256 env) body.

(** A recorded chunk names its body, which has its size and digest for as long as it is
    in the bucket. *)
Definition chunk_ok (o : gmap string (list Z)) (k : string * Z) (c : StoredChunk) : Prop :=
  exists idx, 0 <= idx /\ k = (sc_transfer_id c, sc_chunk_index c) /\ sc_chunk_index c = i32 idx /\
    sc_minio_chunk_key c = build_staging_key (sc_transfer_id c) idx /\ 0 <= sc_chunk_size c < 2 ^ 31 /\
    forall body, o !! sc_minio_chunk_key c = Some body ->
      bytes_size body = sc_chunk_size c /\ hashes_equal (sc_chunk_hash_sha256 c) (digest body) = true.

(** A version is the first of its file, which is beyond uploading; its object is in the
    bucket, as long as the file and with the digest of the row. *)
Definition version_ok (d : MockStorage) (o : gmap string (list Z)) (id : string) (v : StoredVersion) : Prop :=
  exists f status body vid created, files_ d !! id = Some f /\ sf_status f = FileStatus.to_string status /\
    (2 <= lifecycle_rank status)%nat /\ iso_range created /\
    v = version_row (mkVersionEntity vid id 1 (bytes_size body) (build_version_key id 1) (digest body) created true) /\
    o !! build_version_key id 1 = Some body /\ sf_encrypted_size f = to_decimal (bytes_size body).

Record files_inv (d : MockStorage) (o : gmap string (list Z)) : Prop := mkFilesInv {
  inv_file : forall id f, files_ d !! id = Some f -> exists e, f = file_row e /\ file_id e = id /\ file_ok e;
  inv_transfer : forall id t, transfers_ d !! id = Some t -> st_transfer_id t = id /\ in_i32 (st_total_chunks t) /\ in_i64 (st_total_bytes t);
  inv_chunk : forall k c, chunks_ d !! k = Some c -> chunk_ok o k c;
  inv_version : forall id n v, versions_ d !! (id, n) = Some v -> n = 1 /\ version_ok d o id v;
  inv_available : forall id f, files_ d !! id = Some f -> sf_status f = "AVAILABLE"%string -> is_Some (versions_ d !! (id, 1)) }.

Definition with_status (new : FileStatus.t) (t : Z) (e : FileEntity) : FileEntity :=
  mkFileEntity (file_id e) (owner_user_id e) (owner_device_id e) (conversation_id e) (encrypted_size e) (content_type e)
    (encryption_algorithm e) new (retention_until e) (file_created_at e) t.

(** Versions stay described when their files move forward and their objects stay. *)
Lemma version_ok_mono d d' o o' id v :
  version_ok d o id v ->
  (forall f status, files_ d !! id = Some f -> sf_status f = FileStatus.to_string status -> exists f' status', files_ d' !! id = Some f' /\
     sf_encrypted_size f' = sf_encrypted_size f /\ sf_status f' = FileStatus.to_string status' /\ (lifecycle_rank status <= lifecycle_rank status')%nat) ->
  o' !! build_version_key id 1 = o !! build_version_key id 1 -> version_ok d' o' id v.
Proof.
  intros (f & status & body & vid & created & Hf & Hst & Hr & Hc & -> & Ho & Hb) Hd Ho'. destruct (Hd f status Hf Hst) as (f' & st' & Hf' & Hsz & Hst' & Hr').
  exists f', st', body, vid, created. rewrite Hsz, Ho'. split_and!; [done|done|lia|done..].
Qed.

(** A file changes its status and nothing else. *)
Lemma files_inv_move d o id f old new t :
  files_inv d o -> files_ d !! id = Some f -> sf_status f = FileStatus.to_string old -> is_valid_state_transition old new = true ->
  new <> FileStatus.Available -> iso_range t ->
  files_inv (set_files (<[id := with_file_status (FileStatus.to_string new) (to_iso8601 t) f]> (files_ d)) d) o.
Proof.
  intros [If It Ic Iv Ia] Hf Hold Hstep Hnew Ht. constructor; cbn; [| | | |].
  - intros id' f' [[<- <-]|[_ Hf']]%lookup_insert_Some; [|by apply If]. destruct (If _ _ Hf) as (e & -> & Hid & Hok).
    exists (with_status new t e). split_and!; [done..|]. destruct Hok as (? & [? ?] & ? & ? & ?). by split_and!.
  - done.
  - done.
  - intros id' n v Hv. destruct (Iv _ _ _ Hv) as [-> Hvok]. split; [done|]. apply (version_ok_mono d _ o); [done| |done]. intros f0 status Hf0 Hst0.
    cbn. destruct (decide (id = id')) as [<-|Hne].
    + simplify_eq. rewrite Hst0 in Hold. apply FileStatus.status_string_inj in Hold as ->. eexists _, new. rewrite lookup_insert_eq. split_and!; [done..|].
      apply lifecycle_step_rank in Hstep. lia.
    + exists f0, status. by rewrite lookup_insert_ne.
  - intros id' f' [[<- <-]|[_ Hf']]%lookup_insert_Some Hst; [|by eapply Ia]. cbn in Hst. by destruct new.
Qed.

Lemma files_inv_new d o e :
  files_inv d o -> files_ d !! file_id e = None -> file_status e = FileStatus.Created -> file_ok e ->
  files_inv (set_files (<[file_id e := file_row e]> (files_ d)) d) o.
Proof.
  intros [If It Ic Iv Ia] Hn Hst Hok. constructor; cbn; [|done|done| |].
  - intros id f [[<- <-]|[_ Hf]]%lookup_insert_Some; [by exists e|by apply If].
  - intros id n v Hv. destruct (Iv _ _ _ Hv) as [-> Hvok]. split; [done|]. apply (version_ok_mono d _ o); [done| |done]. intros f status Hf Hs.
    exists f, status. cbn. rewrite lookup_insert_ne; [done|]. intros <-. by rewrite Hn in Hf.
  - intros id f [[<- <-]|[_ Hf]]%lookup_insert_Some Hs; [|by eapply Ia]. cbn in Hs. by rewrite Hst in Hs.
Qed.

Lemma files_inv_frame d d' o :
  files_inv d o -> files_ d' = files_ d -> versions_ d' = versions_ d -> chunks_ d' = chunks_ d ->
  (forall id t, transfers_ d' !! id = Some t -> st_transfer_id t = id /\ in_i32 (st_total_chunks t) /\ in_i64 (st_total_bytes t)) -> files_inv d' o.
Proof.
  intros [If It Ic Iv Ia] Hf Hv Hc Ht. constructor; rewrite ?Hf, ?Hv, ?Hc; [done..| |done].
  intros id n v Hver. destruct (Iv _ _ _ Hver) as [-> Hok]. split; [done|]. unfold version_ok. by rewrite Hf.
Qed.

Lemma files_inv_transfer d o id t t' :
  files_inv d o -> transfers_ d !! id = Some t -> st_transfer_id t' = st_transfer_id t -> st_total_chunks t' = st_total_chunks t -> st_total_bytes t' = st_total_bytes t ->
  files_inv (set_transfers (<[id := t']> (transfers_ d)) d) o.
Proof.
  intros I Ht H0 H1 H2. apply (files_inv_frame d); [done..|]. cbn. intros id' x [[<- <-]|[_ Hx]]%lookup_insert_Some; [|by eapply inv_transfer].
  rewrite H0, H1, H2. by eapply inv_transfer.
Qed.

Lemma files_inv_closed : closed files_inv (fun status => status <> FileStatus.Available).
Proof.
  constructor.
  - intros. by apply files_inv_new.
  - intros d o m I. apply (files_inv_frame d); [done..|]. apply (inv_transfer _ _ I).
  - intros. by eapply files_inv_move.
  - intros d o id t f I Ht _. split; intros; by eapply files_inv_transfer.
  - intros d o t I (? & ? & ? & _). apply (files_inv_frame d); [done..|]. cbn.
    intros id' x [[<- <-]|[_ Hx]]%lookup_insert_Some; [done|by eapply inv_transfer].
  - intros d o e I _ _. apply (files_inv_frame d); [done..|]. apply (inv_transfer _ _ I).
  - intros d o id e t I _ _. split; (apply (files_inv_frame d); [done..|]; apply (inv_transfer _ _ I)).
Qed.

(** ** Chunks *)

Lemma files_inv_keyed d o : files_inv d o -> keyed_chunks d.
Proof. intros I k c Hc. by destruct (inv_chunk _ _ I k c Hc) as (idx & _ & Hk & _). Qed.

Lemma files_inv_put d o t idx body :
  files_inv d o -> 0 <= idx -> chunks_ d !! (t, i32 idx) = None -> files_inv d (<[build_staging_key t idx := body]> o).
Proof.
  intros [If It Ic Iv Ia] Hidx Hn. constructor; [done|done| | |done].
  - intros k c Hc. destruct (Ic k c Hc) as (j & Hj & Hk & Hcj & Hkey & Hsz & Hbody). exists j. split_and!; [done..|lia|lia|].
    intros b. rewrite lookup_insert_ne; [apply Hbody|]. rewrite Hkey. intros [-> ->]%staging_key_inj; [|done..]. by rewrite Hk, Hcj, Hn in Hc.
  - intros id n v Hv. destruct (Iv _ _ _ Hv) as [-> Hvok]. split; [done|]. apply (version_ok_mono d _ o); [done|eauto 10|].
    apply lookup_insert_ne, staging_not_version.
Qed.

Lemma files_inv_chunk d o k c : files_inv d o -> chunk_ok o k c -> files_inv (set_chunks (<[k := c]> (chunks_ d)) d) o.
Proof.
  intros [If It Ic Iv Ia] Hc. constructor; [done|done| | |done]; cbn; [|done].
  intros k' c' [[<- <-]|[_ Hc']]%lookup_insert_Some; [done|by apply Ic].
Qed.

Lemma named_row_Some {A} id (m : gmap string A) x : named_row id m = Some x -> m !! id = Some x.
Proof. unfold named_row. by destruct (is_empty id). Qed.

Lemma files_inv_transfer_update id status t d o : files_inv d o -> files_inv (transfer_update id status t d) o.
Proof.
  intros I. unfold transfer_update. destruct (named_row id (transfers_ d)) as [x|] eqn:Hx; [|done]. apply named_row_Some in Hx.
  by apply (files_inv_transfer _ _ _ x).
Qed.

Lemma files_inv_progress id n t d o : files_inv d o -> files_inv (progress_update id n t d) o.
Proof.
  intros I. unfold progress_update. destruct (named_row id (transfers_ d)) as [x|] eqn:Hx; [|done]. apply named_row_Some in Hx.
  by apply (files_inv_transfer _ _ _ x).
Qed.

Lemma files_inv_status id old new t d o :
  files_inv d o -> is_valid_state_transition old new = true -> new <> FileStatus.Available -> iso_range t -> files_inv (status_update id old new t d).2 o.
Proof.
  intros I Hv Hnew Ht. unfold status_update. destruct (files_ d !! id) as [f|] eqn:Hf; [|done]. case_bool_decide; [|done]. by eapply files_inv_move.
Qed.

Lemma chunk_recorded_inv dto d d' o :
  files_inv d o -> 0 <= cp_chunk_index dto -> bytes_size (cp_encrypted_data dto) = cp_chunk_size_bytes dto -> cp_chunk_size_bytes dto < 2 ^ 31 ->
  hashes_equal (cp_claimed_sha256 dto) (digest (cp_encrypted_data dto)) = true -> chunk_recorded dto d d' ->
  files_inv d' (<[build_staging_key (cp_upload_id dto) (cp_chunk_index dto) := cp_encrypted_data dto]> o).
Proof.
  intros I Hidx Hsize Hlt Hhash (id & now & transfer & row & t1 & t2 & t3 & t4 & Hnow & Hid & Hrow & Htr & Hn & Ht1 & Ht2 & Ht3 & Ht4 & ->).
  assert (I1 : files_inv (set_chunks (<[(cp_upload_id dto, i32 (cp_chunk_index dto)) := chunk_row (stored_chunk dto id now)]> (chunks_ d)) d)
                (<[build_staging_key (cp_upload_id dto) (cp_chunk_index dto) := cp_encrypted_data dto]> o)).
  { apply files_inv_chunk; [by apply files_inv_put|]. exists (cp_chunk_index dto). cbn.
    assert (0 <= bytes_size (cp_encrypted_data dto)) by (unfold bytes_size; lia). rewrite (i32_small (cp_chunk_size_bytes dto)) by lia.
    split_and!; [done..|lia|lia|]. intros body. rewrite lookup_insert_eq. by intros [= <-]. }
  assert (I2 : forall b : bool, files_inv (if b then (status_update (transfer_file_id transfer) FileStatus.Created FileStatus.Uploading t2
     (transfer_update (cp_upload_id dto) TransferStatus.Transferring t1
       (set_chunks (<[(cp_upload_id dto, i32 (cp_chunk_index dto)) := chunk_row (stored_chunk dto id now)]> (chunks_ d)) d))).2
     else set_chunks (<[(cp_upload_id dto, i32 (cp_chunk_index dto)) := chunk_row (stored_chunk dto id now)]> (chunks_ d)) d)
     (<[build_staging_key (cp_upload_id dto) (cp_chunk_index dto) := cp_encrypted_data dto]> o)).
  { intros []; [|done]. by apply files_inv_status; [apply files_inv_transfer_update|..]. }
  destruct (_ && _); [apply files_inv_transfer_update|]; apply files_inv_progress, I2.
Qed.

Lemma store_chunk_inv (He : env_ok env) dto caller s :
  0 <= cp_chunk_index dto -> bytes_size (cp_encrypted_data dto) = cp_chunk_size_bytes dto -> cp_chunk_size_bytes dto < 2 ^ 31 ->
  hashes_equal (cp_claimed_sha256 dto) (digest (cp_encrypted_data dto)) = true -> files_inv (store s) (objects s) ->
  alone_post (store_chunk env dto caller) (fun _ s' => files_inv (store s') (objects s')) s.
Proof.
  intros Hidx Hsize Hlt Hhash I. eapply alone_post_mono; [|apply (store_chunk_post env He); by eapply files_inv_keyed].
  intros [res|e] s'; cbn [chunk_stored_post].
  - destruct (cs_is_duplicate res); [by intros (-> & -> & _)|]. intros (Hrec & -> & _). by eapply chunk_recorded_inv.
  - intros [Hst Hobj]. assert (I' : files_inv (store s') (objects s)) by (destruct Hst as [->|(_ & t & _ & ->)]; [done|by apply files_inv_transfer_update]).
    destruct Hobj as [->|[Hn ->]]; [done|]. apply files_inv_put; [done..|]. destruct Hst as [->|(_ & t & _ & ->)]; [done|].
    unfold transfer_update. by destruct (named_row _ _).
Qed.

(** The payload was checked before. *)
Lemma payload_ok_inv dto n size :
  payload_ok env dto n size = true ->
  bytes_size (cp_encrypted_data dto) = cp_chunk_size_bytes dto /\ hashes_equal (cp_claimed_sha256 dto) (digest (cp_encrypted_data dto)) = true.
Proof.
  unfold payload_ok. destruct (0 <? n).
  - destruct (validate_chunk_payload _ dto n size) as [hash|] eqn:Hv; [|done]. intros _.
    apply validate_chunk_payload_inv in Hv as (_ & _ & -> & _ & _ & _ & _ & Hh & ->). done.
  - intros [[H1%Z.eqb_eq _]%andb_true_iff H2%bool_decide_eq_true]%andb_true_iff. split; [done|]. unfold digest. rewrite H2.
    unfold hashes_equal. by rewrite !bool_decide_eq_true_2.
Qed.

Lemma UploadChunk_inv (He : env_ok env) config peer dto :
  max_chunk_request_bytes config < 2 ^ 31 -> 0 <= cp_chunk_index dto -> keeps_alone files_inv (UploadChunk env config peer dto).
Proof.
  intros Hmax Hidx. unfold UploadChunk. apply as_peer_keeps. intros identity. destruct (negb _); [apply keeps_alone_ret|].
  destruct (negb (validate_size _ _)) eqn:Hsize; [apply keeps_alone_ret|].
  apply keeps_alone_bind; [by eapply get_transfer_progress_keeps; [apply files_inv_closed|]|]. intros [progress|e]; [|apply keeps_alone_ret].
  destruct (bool_decide _); [apply keeps_alone_ret|]. destruct (_ || _); [apply keeps_alone_ret|].
  destruct (negb (payload_ok _ _ _ _)) eqn:Hp; [apply keeps_alone_ret|]. apply negb_false_iff, payload_ok_inv in Hp as [Hbytes Hhash].
  assert (Hlt : cp_chunk_size_bytes dto < 2 ^ 31).
  { apply negb_false_iff in Hsize. unfold validate_size in Hsize. destruct (Z.ltb_spec 0 (cp_chunk_size_bytes dto)); lia. }
  apply keeps_alone_bind; [|intros [res|e]; [|apply keeps_alone_ret]].
  - intros s Hs. by apply store_chunk_inv.
  - apply keeps_alone_bind; [apply touch_session_keeps|intros ?; apply keeps_alone_ret].
Qed.

End invariant.
