(* ===== verification/FilesFinalize.v ===== *)
(** * Files: finalization

    What [finalize_file_upload] does on each of its outcomes, and that it keeps the
    invariant of the service. *)

From S2P Require Import Prelude Ids Prog FilesTypes FilesText FilesValidation FilesDb FilesRepo FilesUpload FilesLifecycle FilesServer FilesLogic FilesContracts FilesRuns FilesInv.

#[local] Open Scope Z_scope.

Section finalize.
Context (env : FilesEnv) (He : env_ok env).

Abbreviation digest := (digest env).
Abbreviation files_inv := (files_inv env).

(** ** The object store *)

Definition body_of (s : FilesState) (c : FileChunkEntity) (body : list Z) : Prop :=
  objects s !! minio_chunk_key c = Some body /\ hashes_equal (digest body) (chunk_hash_sha256 c) = true.

Lemma fetch_chunks_post chunks s :
  alone_post (fetch_chunks env chunks)
    (fun r s' => s' = s /\ match r with Ok body => exists bodies, Forall2 (body_of s) chunks bodies /\ body = concat bodies | Err _ => True end) s.
Proof.
  induction chunks as [|c chunks IH]; cbn [fetch_chunks get_object pbind alone_post]; [split; [done|]; exists []; by split|].
  split_and!; [|done..]. destruct (objects s !! minio_chunk_key c) as [body|] eqn:Hb; [|done].
  destruct (hashes_equal _ _) eqn:Hh; cbn [negb]; [|done]. apply alone_post_bind. eapply alone_post_mono; [|exact IH].
  intros [rest|e] s' [-> Hr]; [|done]. split; [done|]. destruct Hr as (bodies & HF & ->). exists (body :: bodies). split; [by constructor|done].
Qed.

Definition assembled (s : FilesState) (id : string) (body : list Z) : FilesState := set_objects (<[build_version_key id 1 := body]> (objects s)) s.

Lemma assemble_post id chunks s :
  alone_post (assemble_version_object env id 1 chunks)
    (fun r s' => match r with
                 | Ok a => exists bodies, Forall2 (body_of s) (sort_chunks chunks) bodies /\ s' = assembled s id (concat bodies) /\
                     a = mkAssembly (build_version_key id 1) (bytes_size (concat bodies)) (digest (concat bodies))
                 | Err _ => s' = s \/ exists body, s' = assembled s id body
                 end) s.
Proof.
  unfold assemble_version_object. apply alone_post_bind. eapply alone_post_mono; [|].
  2: { instantiate (1 := fun r s' => s' = s /\ match r with Ok body => exists bodies, Forall2 (body_of s) (sort_chunks chunks) bodies /\ body = concat bodies | Err _ => True end).
       case_bool_decide as Hc; [|apply fetch_chunks_post]. subst. split; [done|]. exists []. split; [constructor|done]. }
  intros [payload|e] s' [-> Hr]; [|by left]. destruct Hr as (bodies & HF & ->). unfold put_object. cbn [pbind alone_post]. split_and!; [|by left|right; by eexists].
  exists bodies. by split_and!.
Qed.

Lemma cleanup_post chunks s :
  alone_post (cleanup_staging_chunks chunks)
    (fun _ s' => store s' = store s /\
       forall key, objects s' !! key = objects s !! key \/ objects s' !! key = None /\ exists c, c ∈ chunks /\ minio_chunk_key c = key) s.
Proof.
  revert s. induction chunks as [|c chunks IH]; intros s; cbn [cleanup_staging_chunks]; [split; [done|]; by left|].
  assert (Hskip : forall s1, store s1 = store s -> (objects s1 = objects s \/ objects s1 = delete (minio_chunk_key c) (objects s)) ->
    alone_post (cleanup_staging_chunks chunks) (fun _ s' => store s' = store s /\
       forall key, objects s' !! key = objects s !! key \/ objects s' !! key = None /\ exists c', c' ∈ c :: chunks /\ minio_chunk_key c' = key) s1).
  { intros s1 Hs1 Ho1. eapply alone_post_mono; [|apply IH]. intros _ s' [Hst Hobj]. split; [congruence|]. intros key.
    destruct (Hobj key) as [->|[-> (c' & ? & ?)]]; [|right; split; [done|]; exists c'; split; [by right|done]].
    destruct Ho1 as [->| ->]; [by left|]. destruct (decide (minio_chunk_key c = key)) as [<-|Hne]; [|left; by apply lookup_delete_ne].
    right. rewrite lookup_delete_eq. split; [done|]. exists c. split; [left|done]. }
  destruct (is_empty _); cbn [pbind alone_post delete_object]; [apply Hskip; [done|by left]|]. split_and!; apply Hskip; auto.
Qed.

(** ** Versions *)

(** Without other versions of the file nothing is deactivated. *)
Lemma deactivate_nothing id n w s :
  (forall m v, versions_ (view w s) !! (id, m) = Some v -> m = n) -> (forall m, versions_ (store s) !! (id, m) = None) ->
  deactivate_versions id n w (store s) = (w, store s).
Proof.
  intros Hw Hs. assert (Hmap : forall m : gmap (string * Z) StoredVersion, (forall k v, m !! (id, k) = Some v -> k = n) ->
    map_imap (fun k v => Some (deactivated id n k v)) m = m).
  { intros m Hm. apply map_eq. intros [id' k]. rewrite map_lookup_imap. destruct (m !! (id', k)) as [v|] eqn:Hv; [|done]. cbn. f_equal.
    unfold deactivated. cbn. case_bool_decide as Hid; [|done]. subst. apply Hm in Hv as ->. by rewrite Z.eqb_refl. }
  assert (Hhit : filter (fun kv : (string * Z) * StoredVersion => kv.1.1 = id /\ kv.1.2 <> n /\ sv_is_active kv.2 = true) (versions_ (store s)) = ∅).
  { apply map_empty_filter. intros [id' k] v Hv (Hid & _). cbn in Hid. subst. by rewrite Hs in Hv. }
  unfold deactivate_versions. rewrite Hhit. rewrite (Hmap (versions_ (store s))) by (intros k v; by rewrite Hs).
  f_equal; [|by destruct (store s)]. destruct w as [cm st]. unfold stage. cbn. f_equal. rewrite (left_id_L ∅ (∪)), Hmap; [by destruct st|].
  intros k v Hv. apply (Hw k v). unfold view, overlay. cbn. by apply lookup_union_Some_l.
Qed.

Lemma wp_create_version v w s Q :
  version_id v <> EmptyString -> version_file_id v <> EmptyString -> 0 < version_number v -> is_active v = true ->
  (forall m, versions_ (view w s) !! (version_file_id v, m) = None) ->
  (forall w' s', stepped w s (set_versions (<[(version_file_id v, version_number v) := version_row v]> (versions_ (view w s))) (view w s)) w' s' -> Q (Ok tt) w' s') ->
  wp (FileVersionRepository.create_version v) w Q s.
Proof.
  intros H1 H2 H3 H4 Hn HQ. unfold FileVersionRepository.create_version, is_empty. rewrite !bool_decide_eq_false_2 by done. cbn [orb].
  destruct (Z.leb_spec (version_number v) 0); [lia|]. apply wp_bind. unfold wp, update_throwing, insert_version. cbn [alone_post].
  rewrite staged_copy_view. change ((versions_ (staged w) ∪ versions_ (store s)) !! _) with (versions_ (view w s) !! (version_file_id v, version_number v)).
  rewrite Hn, bool_decide_eq_false_2 by by intros []. cbn [alone_post fst snd]. rewrite H4. unfold update_store. cbn [alone_post].
  set (w' := stage _ w).
  assert (Hv : view w' s = set_versions (<[(version_file_id v, version_number v) := version_row v]> (versions_ (view w s))) (view w s)) by apply view_stage_versions.
  assert (Hs : forall m, versions_ (store s) !! (version_file_id v, m) = None).
  { intros m. specialize (Hn m). unfold view, overlay in Hn. cbn in Hn. by apply lookup_union_None in Hn as [_ ?]. }
  rewrite deactivate_nothing; [|intros m x; rewrite Hv; cbn; rewrite lookup_insert_Some, Hn; naive_solver|done].
  cbn [fst snd]. apply HQ. split_and!; [done| |done]. by rewrite <- Hv.
Qed.

Lemma no_active_version id w s Q :
  (forall m, versions_ (view w s) !! (id, m) = None) -> Q (Ok None) w s -> wp (FileVersionRepository.find_active_version id) w Q s.
Proof.
  intros Hn HQ. apply wp_find_row. destruct (is_empty id); [done|]. unfold select_active_version, versions_of.
  change (versions_ (staged w) ∪ versions_ (store s)) with (versions_ (view w s)).
  replace (filter (fun kv : (string * Z) * StoredVersion => kv.1.1 = id) (map_to_list (versions_ (view w s)))) with (@nil ((string * Z) * StoredVersion)); [done|].
  symmetry. apply elem_of_nil_inv. intros [[id' n] v] [Hid Hin]%list_elem_of_filter. cbn in Hid. subst. apply elem_of_map_to_list in Hin. by rewrite Hn in Hin.
Qed.

(** ** The steps of a finalization *)

(** What is found under the identifiers of the request. *)
Record found (request : FinalizeUploadRequestDto) (d : MockStorage) (transfer : FileTransferEntity) (trow : StoredTransfer)
    (file : FileEntity) (frow : StoredFile) : Prop := mkFound {
  found_upload : is_empty (fr_upload_id request) = false;
  found_trow : transfers_ d !! fr_upload_id request = Some trow;
  found_transfer : file_transfer_from_row trow = Ok transfer;
  found_named : is_empty (transfer_file_id transfer) = false;
  found_asked : is_empty (fr_file_id request) = true \/ fr_file_id request = transfer_file_id transfer;
  found_frow : files_ d !! transfer_file_id transfer = Some frow;
  found_file : file_from_row frow = Ok file;
  found_caller : is_empty (fr_caller_user_id request) = true \/ owner_user_id file = fr_caller_user_id request }.

Lemma wp_finalize_lookup request s Q :
  (forall e w', Q (Err e) w' s) -> (forall transfer trow file frow, found request (store s) transfer trow file frow -> Q (Ok (transfer, file)) new_work s) ->
  wp (finalize_lookup request) new_work Q s.
Proof.
  intros HE HQ. unfold finalize_lookup. apply wp_bind, wp_find_transfer. rewrite view_new. unfold named_row at 1.
  destruct (is_empty (fr_upload_id request)) eqn:Hid; [apply HE|]. destruct (transfers_ (store s) !! fr_upload_id request) as [trow|] eqn:Htrow; [|apply HE].
  cbn [optional]. destruct (file_transfer_from_row trow) as [transfer|] eqn:Htr; [|apply HE]. cbn [bind]. destruct (_ && _) eqn:Hasked; [apply HE|].
  apply wp_bind, wp_find_file. rewrite view_new. unfold named_row. destruct (is_empty (transfer_file_id transfer)) eqn:Hfid; [apply HE|].
  destruct (files_ (store s) !! transfer_file_id transfer) as [frow|] eqn:Hfrow; [|apply HE]. cbn [optional].
  destruct (file_from_row frow) as [file|] eqn:Hfile; [|apply HE]. cbn [bind]. destruct (negb (is_empty (fr_caller_user_id request)) && _) eqn:Hcaller; [apply HE|].
  apply wp_ret, (HQ transfer trow file frow). constructor; [done..| |done|done|].
  - destruct (is_empty (fr_file_id request)); [by left|right]. by apply negb_false_iff, bool_decide_eq_true in Hasked.
  - destruct (is_empty (fr_caller_user_id request)); [by left|right]. by apply negb_false_iff, bool_decide_eq_true in Hcaller.
Qed.

Lemma transfer_row_inv row t : file_transfer_from_row row = Ok t ->
  transfer_id t = st_transfer_id row /\ transfer_file_id t = st_file_id row /\ total_chunks t = st_total_chunks row /\ total_bytes t = st_total_bytes row.
Proof. unfold file_transfer_from_row. intros H. repeat (apply bind_ok in H as (? & ? & H)). by simplify_eq. Qed.

Lemma found_ids request d o transfer trow file frow :
  files_inv d o -> found request d transfer trow file frow ->
  transfer_id transfer = fr_upload_id request /\ file_id file = transfer_file_id transfer /\ in_i32 (total_chunks transfer) /\ in_i64 (total_bytes transfer).
Proof.
  intros I F. destruct (transfer_row_inv _ _ (found_transfer _ _ _ _ _ _ F)) as (H1 & _ & H3 & H4).
  destruct (inv_transfer _ _ _ I _ _ (found_trow _ _ _ _ _ _ F)) as (Hid & Hn & Hb).
  destruct (inv_file _ _ _ I _ _ (found_frow _ _ _ _ _ _ F)) as (e & He' & Hfid & _). pose proof (found_file _ _ _ _ _ _ F) as Hf.
  apply file_row_inv in Hf as (Hf & _). rewrite He' in Hf. cbn in Hf. split_and!; [congruence|congruence|by rewrite H3|by rewrite H4].
Qed.

Lemma found_size request d o transfer trow file frow :
  files_inv d o -> found request d transfer trow file frow -> 0 < encrypted_size file <= k_max_file_size_bytes.
Proof.
  intros I F. destruct (inv_file _ _ _ I _ _ (found_frow _ _ _ _ _ _ F)) as (e & He' & _ & Hok). pose proof (found_file _ _ _ _ _ _ F) as Hf.
  apply file_row_inv in Hf as (_ & _ & _ & Hf). destruct Hok as (_ & Hsz & _). rewrite He' in Hf. cbn in Hf.
  rewrite stoll_to_decimal in Hf by (unfold in_i64, k_max_file_size_bytes in *; lia). injection Hf as <-. exact Hsz.
Qed.

(** The chunks of a transfer that is ready, with their bodies. *)
Record ready (request : FinalizeUploadRequestDto) (s : FilesState) (transfer : FileTransferEntity) (file : FileEntity)
    (chunks : list FileChunkEntity) (bodies : list (list Z)) : Prop := mkReady {
  ready_uploading : file_status file = FileStatus.Uploading;
  ready_chunks : map_result file_chunk_from_row (chunk_rows (transfer_id transfer) (store s)) = Ok chunks;
  ready_count : Z.of_nat (length chunks) = total_chunks transfer;
  ready_indices : chunk_index <$> sort_chunks chunks = Z.of_nat <$> seq 0 (length chunks);
  ready_bodies : Forall2 (body_of s) (sort_chunks chunks) bodies;
  ready_size : bytes_size (concat bodies) = encrypted_size file;
  ready_digest : is_empty (fr_expected_ciphertext_sha256 request) = true \/
    hashes_equal (digest (concat bodies)) (fr_expected_ciphertext_sha256 request) = true }.

Lemma chunk_entities_ok d o id chunks :
  files_inv d o -> map_result file_chunk_from_row (chunk_rows id d) = Ok chunks ->
  Forall (fun c => 0 <= chunk_size c < 2 ^ 31 /\ staging (minio_chunk_key c) /\
            forall body, o !! minio_chunk_key c = Some body -> bytes_size body = chunk_size c) chunks.
Proof.
  intros I Hl. apply Forall_forall. intros c Hin. destruct (map_result_elem _ _ _ Hl) as [_ H2]. destruct (H2 c Hin) as (row & Hrow & Hr).
  apply chunk_rows_elem in Hr as (i & Hi). destruct (inv_chunk _ _ _ I _ _ Hi) as (idx & _ & _ & _ & Hkey & Hsz & Hbody).
  apply chunk_row_inv in Hrow as (_ & _ & -> & _ & ->). split_and!; [lia|lia|rewrite Hkey; by eexists|]. intros body Hb. by destruct (Hbody body Hb).
Qed.

Lemma bodies_size s chunks bodies :
  Forall (fun c => forall body, objects s !! minio_chunk_key c = Some body -> bytes_size body = chunk_size c) chunks ->
  Forall2 (body_of s) chunks bodies -> bytes_size (concat bodies) = sum_sizes chunks.
Proof.
  intros HF H2. induction H2 as [|c body chunks bodies [Hb _] _ IH]; [done|]. inversion HF as [|? ? Hc HF']; subst. specialize (IH HF').
  specialize (Hc body Hb). unfold bytes_size, sum_sizes in *. cbn. rewrite length_app. lia.
Qed.

Lemma sum_sizes_bound chunks : Forall (fun c => 0 <= chunk_size c < 2 ^ 31) chunks -> 0 <= sum_sizes chunks <= 2 ^ 31 * Z.of_nat (length chunks).
Proof. induction 1 as [|c chunks Hc _ IH]; unfold sum_sizes in *; cbn [foldr length] in *; lia. Qed.

Lemma ready_intro request s transfer file chunks bodies :
  files_inv (store s) (objects s) -> file_status file = FileStatus.Uploading -> in_i32 (total_chunks transfer) -> in_i64 (total_bytes transfer) ->
  map_result file_chunk_from_row (chunk_rows (transfer_id transfer) (store s)) = Ok chunks ->
  validate_finalization_preconditions (mkFinalizationInput (with_status_finalizing transfer) (with_file_finalizing file) chunks
    (fr_expected_ciphertext_sha256 request)) = Ok tt ->
  Forall2 (body_of s) (sort_chunks chunks) bodies ->
  (is_empty (fr_expected_ciphertext_sha256 request) = true \/ hashes_equal (digest (concat bodies)) (fr_expected_ciphertext_sha256 request) = true) ->
  ready request s transfer file chunks bodies.
Proof.
  intros I Hst Hn Hb Hl Hv HF Hd. pose proof (chunk_entities_ok _ _ _ _ I Hl) as Hok.
  assert (Hlen : Z.of_nat (length chunks) = total_chunks transfer).
  { clear -Hv. unfold validate_finalization_preconditions in Hv. destruct (is_empty _); [done|]. apply bind_ok in Hv as ([] & _ & Hv).
    apply bind_ok in Hv as ([] & _ & Hv). destruct (_ || _) eqn:Hc; [done|]. apply orb_false_iff in Hc as [_ Hc]. apply negb_false_iff, Z.eqb_eq in Hc. exact Hc. }
  assert (Hsum : 0 <= sum_sizes chunks <= 2 ^ 31 * Z.of_nat (length chunks)).
  { apply sum_sizes_bound. eapply Forall_impl; [exact Hok|]. by intros c [? _]. }
  unfold in_i32, in_i64 in *. destruct (finalization_preconditions_sound _ Hv) as (Hperm & Hlen' & Hidx & Hsz & _); [cbn [fin_chunks]; lia|cbn [fin_transfer with_status_finalizing total_bytes]; lia|].
  cbn [fin_chunks fin_file fin_transfer] in *. pose proof (Permutation_length Hperm) as Hpl. constructor; [done..|by rewrite <- Hpl|done| |done].
  rewrite (bodies_size s (sort_chunks chunks)); [exact Hsz| |done]. rewrite Hperm. eapply Forall_impl; [exact Hok|]. by intros c (_ & _ & ?).
Qed.

Lemma no_versions d o id f :
  files_inv d o -> files_ d !! id = Some f -> sf_status f = FileStatus.to_string FileStatus.Uploading -> forall m, versions_ d !! (id, m) = None.
Proof.
  intros I Hf Hst m. apply eq_None_not_Some. intros (v & Hv). destruct (inv_version _ _ _ I _ _ _ Hv) as (_ & f' & status & _ & _ & _ & Hf' & Hst' & Hr & _).
  simplify_eq. rewrite Hst in Hst'. apply FileStatus.status_string_inj in Hst' as <-. cbn in Hr. lia.
Qed.

(** Both rows in [Finalizing], which only this transaction sees. *)
Definition finalizing_db (d : MockStorage) (tid id : string) (trow : StoredTransfer) (frow : StoredFile) (t1 t2 : Z) : MockStorage :=
  set_files (<[id := with_file_status (FileStatus.to_string FileStatus.Finalizing) (to_iso8601 t2) frow]> (files_ d))
    (set_transfers (<[tid := with_transfer_status (TransferStatus.to_string TransferStatus.Finalizing) (to_iso8601 t1) trow]> (transfers_ d)) d).

(** A failure leaves the tables alone, and in the bucket at most the object of a file that
    has no version yet. *)
Definition not_finalized (s s' : FilesState) : Prop :=
  store s' = store s /\
  (objects s' = objects s \/
   exists id f body, files_ (store s) !! id = Some f /\ sf_status f = FileStatus.to_string FileStatus.Uploading /\
     objects s' = <[build_version_key id 1 := body]> (objects s)).

Lemma not_finalized_unchanged s s' : unchanged s s' -> not_finalized s s'.
Proof. intros (H1 & H2 & _). split; [done|by left]. Qed.

Lemma wp_finalize_assemble request transfer trow file frow s (Q : result FilesExn (list FileChunkEntity * Z * AssemblyResult) -> work -> FilesState -> Prop) :
  files_inv (store s) (objects s) -> found request (store s) transfer trow file frow ->
  (forall e w' s', not_finalized s s' -> Q (Err e) w' s') ->
  (forall chunks bodies t1 t2 w' s', ready request s transfer file chunks bodies -> iso_range t1 -> iso_range t2 ->
     stepped new_work (assembled s (file_id file) (concat bodies)) (finalizing_db (store s) (transfer_id transfer) (file_id file) trow frow t1 t2) w' s' ->
     Q (Ok (chunks, 1, mkAssembly (build_version_key (file_id file) 1) (bytes_size (concat bodies)) (digest (concat bodies)))) w' s') ->
  wp (finalize_assemble env request transfer file) new_work Q s.
Proof using He.
  intros I F HE HQ. destruct (found_ids _ _ _ _ _ _ _ I F) as (Htid & Hfid & Hn & Hb). unfold finalize_assemble.
  pose proof (found_frow _ _ _ _ _ _ F) as Hfrow. pose proof (found_file _ _ _ _ _ _ F) as Hfile. rewrite <- Hfid in Hfrow.
  apply wp_bind, wp_transfer_status; [done|]. intros r1 t1 w1 s1 Ht1 Hs1. rewrite view_new in Hs1.
  apply wp_bind. destruct (is_valid_state_transition (file_status file) FileStatus.Finalizing) eqn:Hvalid.
  2: { unfold FileRepository.update_status. rewrite Hvalid. apply HE, not_finalized_unchanged, Hs1. }
  assert (Hup : file_status file = FileStatus.Uploading) by by destruct (file_status file).
  assert (Hfst : sf_status frow = FileStatus.to_string FileStatus.Uploading) by (apply file_row_inv in Hfile as (_ & _ & -> & _); by rewrite Hup).
  apply wp_file_status; [done..|]. intros t2 w2 s2 Ht2 Hs2. pose proof (stepped_trans _ _ _ _ _ _ _ _ Hs1 Hs2) as Hs2'.
  destruct Hs1 as (_ & Hv1 & _). rewrite Hv1 in Hs2'. clear Hs2.
  assert (Hdb : (status_update (file_id file) (file_status file) FileStatus.Finalizing t2 (transfer_update (transfer_id transfer) TransferStatus.Finalizing t1 (store s))).2
     = finalizing_db (store s) (transfer_id transfer) (file_id file) trow frow t1 t2).
  { unfold transfer_update, named_row. rewrite Htid, (found_upload _ _ _ _ _ _ F), (found_trow _ _ _ _ _ _ F). unfold status_update. cbn.
    by rewrite Hfrow, Hfst, Hup, bool_decide_eq_true_2. }
  rewrite Hdb in Hs2'. clear Hdb. destruct Hs2' as (Hc2 & Hv2 & Hu2).
  apply wp_bind, wp_list_chunks; [rewrite Htid; apply F|]. rewrite Hv2. change (chunk_rows ?i (finalizing_db _ _ _ _ _ _ _)) with (chunk_rows i (store s)).
  destruct (map_result _ _) as [chunks|] eqn:Hl; [|by apply HE, not_finalized_unchanged].
  destruct (validate_finalization_preconditions _) as [[]|] eqn:Hv; [|by apply HE, not_finalized_unchanged].
  apply wp_bind, no_active_version; [rewrite Hv2; by apply (no_versions _ _ _ _ I Hfrow)|].
  apply wp_bind, wp_of. eapply alone_post_mono; [|apply assemble_post]. destruct Hu2 as (Hst2 & Hob2 & Hca2 & Hre2).
  assert (Hnf : forall body s', s' = assembled s2 (file_id file) body -> not_finalized s s').
  { intros body s' ->. split; [done|]. right. exists (file_id file), frow, body. split_and!; [done..|]. cbn. by rewrite Hob2. }
  intros [a|e] s3; [|by intros [->|[body ->]]; apply HE; [split; [done|by left]|by eapply Hnf]].
  intros (bodies & HF & Hs3 & ->). destruct (negb _ && _) eqn:Hexp; cbn [computed_sha256] in *; [eapply HE, Hnf; exact Hs3|].
  apply wp_ret, (HQ chunks bodies t1 t2); [| done|done|].
  - apply ready_intro; [done..| |].
    + eapply Forall2_impl; [exact HF|]. unfold body_of. by rewrite Hob2.
    + destruct (is_empty _); [by left|right]. by apply negb_false_iff in Hexp.
  - subst s3. split_and!; [done|unfold view in *; cbn in *; congruence|]. unfold unchanged, assembled. cbn. by rewrite Hst2, Hob2, Hca2, Hre2.
Qed.

(** The tables after the commit. *)
Definition published_version (vid id : string) (now : Z) (body : list Z) : FileVersionEntity :=
  mkVersionEntity vid id 1 (bytes_size body) (build_version_key id 1) (digest body) now true.

Definition published_db (d : MockStorage) (tid id : string) (trow : StoredTransfer) (frow : StoredFile) (v : FileVersionEntity)
    (ev : FilesOutboxEntity) (t t' : Z) : MockStorage :=
  mkStorage (<[id := with_file_status (FileStatus.to_string FileStatus.Available) (to_iso8601 t) frow]> (files_ d)) (metadata_ d)
    (<[(id, 1) := version_row v]> (versions_ d))
    (<[tid := with_transfer_status (TransferStatus.to_string TransferStatus.Completed) (to_iso8601 t') trow]> (transfers_ d))
    (chunks_ d) (access_ d) (<[event_id ev := outbox_row ev]> (outbox_ d)).

Lemma wp_publish_version transfer trow file frow body vid now d t1 t2 w s0 s (Q : result FilesExn FinalizeUploadResultDto -> work -> FilesState -> Prop) :
  committed_ w = false -> stepped w s0 (finalizing_db d (transfer_id transfer) (file_id file) trow frow t1 t2) w s ->
  is_empty (transfer_id transfer) = false -> file_id file <> EmptyString -> vid <> EmptyString -> bytes_size body < 2 ^ 63 ->
  (forall m, versions_ d !! (file_id file, m) = None) ->
  (forall ev t t' w' s', iso_range t -> iso_range t' -> aggregate_id ev = file_id file -> event_type ev = "FILE_AVAILABLE"%string ->
     outbox_status ev = OutboxStatus.Pending ->
     store s' = published_db d (transfer_id transfer) (file_id file) trow frow (published_version vid (file_id file) now body) ev t t' ->
     objects s' = objects s0 -> Q (Ok (mkFinalizeResult (file_id file) 1 (bytes_size body) (digest body) now false)) w' s') ->
  wp (publish_version env transfer file 1 (mkAssembly (build_version_key (file_id file) 1) (bytes_size body) (digest body)) vid now) w Q s.
Proof using He.
  intros Hlive Hs Htid Hfid Hvid Hsize Hnv HQ. unfold publish_version. cbn [as_total_bytes target_object_key computed_sha256].
  change (i32 1) with 1. rewrite i64_small by (unfold bytes_size in *; lia). fold (published_version vid (file_id file) now body).
  assert (Hv : view w s = finalizing_db d (transfer_id transfer) (file_id file) trow frow t1 t2) by apply Hs.
  apply wp_bind, wp_create_version; [done..|by rewrite Hv|]. intros w1 s1 Hs1. pose proof (stepped_trans _ _ _ _ _ _ _ _ Hs Hs1) as S1.
  apply wp_bind, wp_file_status; [done..|]. intros t w2 s2 Ht Hs2. pose proof (stepped_trans _ _ _ _ _ _ _ _ S1 Hs2) as S2.
  apply wp_bind, wp_transfer_status; [done|]. intros r3 t' w3 s3 Ht' Hs3. pose proof (stepped_trans _ _ _ _ _ _ _ _ S2 Hs3) as S3.
  apply wp_uuid. intros ev s4 Hev Hu4. apply wp_bind, wp_stage_event; [done|done|done|done|]. intros w5 s5 Hs5.
  pose proof (stepped_trans _ _ _ _ _ _ _ _ (stepped_trans _ _ _ _ _ _ _ _ S3 (stepped_ticked _ _ _ Hu4)) Hs5) as S5.
  apply wp_bind. eapply (wp_commit_step w); [done|exact S5|]. intros w6 s6 Hst6 Hob6 _. 
  apply (HQ (mkOutboxEntity ev "FILE" (file_id file) "FILE_AVAILABLE"
    (available_payload file 1 (mkAssembly (build_version_key (file_id file) 1) (bytes_size body) (digest body))) OutboxStatus.Pending 0 now None) t t');
    [done..| |done].
  rewrite Hst6, (unchanged_view _ _ _ Hu4). destruct S3 as (_ & -> & _). destruct S2 as (_ & -> & _). destruct S1 as (_ & -> & _). rewrite Hv.
  unfold status_update. cbn. rewrite lookup_insert_eq. cbn. rewrite bool_decide_eq_true_2 by done. unfold transfer_update, named_row. rewrite Htid. cbn.
  rewrite lookup_insert_eq. unfold set_outbox, set_transfers, set_files, set_versions, published_db. cbn. by rewrite !insert_insert_eq.
Qed.

(** ** The contract *)

Definition published_upload (request : FinalizeUploadRequestDto) (s : FilesState) (res : FinalizeUploadResultDto) (s' : FilesState) : Prop :=
  exists transfer trow file frow chunks bodies vid ev now t t',
    found request (store s) transfer trow file frow /\ ready request s transfer file chunks bodies /\
    (transfer_status transfer ∉ [TransferStatus.Cancelled; TransferStatus.Expired; TransferStatus.Failed]) /\
    iso_range now /\ iso_range t /\ iso_range t' /\
    aggregate_id ev = file_id file /\ event_type ev = "FILE_AVAILABLE"%string /\ outbox_status ev = OutboxStatus.Pending /\
    store s' = published_db (store s) (fr_upload_id request) (file_id file) trow frow
                 (published_version vid (file_id file) now (concat bodies)) ev t t' /\
    objects s' !! build_version_key (file_id file) 1 = Some (concat bodies) /\
    (forall key, objects s' !! key = objects (assembled s (file_id file) (concat bodies)) !! key \/
       objects s' !! key = None /\ exists c, c ∈ chunks /\ minio_chunk_key c = key) /\
    res = mkFinalizeResult (file_id file) 1 (bytes_size (concat bodies)) (digest (concat bodies)) now false.

(** The request names a file that was published before. *)
Definition published_already (request : FinalizeUploadRequestDto) (d : MockStorage) (transfer : FileTransferEntity) (trow : StoredTransfer)
    (file : FileEntity) (frow : StoredFile) (row : StoredVersion) : Prop :=
  found request d transfer trow file frow /\
  (transfer_status transfer = TransferStatus.Completed \/ file_status file = FileStatus.Available) /\
  versions_ d !! (file_id file, 1) = Some row.

Definition finalized (request : FinalizeUploadRequestDto) (s : FilesState) (r : result FilesExn FinalizeUploadResultDto) (s' : FilesState) : Prop :=
  match r with
  | Err _ => not_finalized s s'
  | Ok res =>
      if ff_is_idempotent_replay res
      then store s' = store s /\ objects s' = objects s /\
           exists transfer trow file frow row v, published_already request (store s) transfer trow file frow row /\
             file_version_from_row row = Ok v /\ res = replay_of (file_id file) v
      else published_upload request s res s'
  end.

Lemma latest_elem l v : latest l = Some v -> v ∈ l.
Proof.
  unfold latest. assert (H : forall best, foldl (fun best v => match best with Some b => if sv_version_number b <? sv_version_number v then Some v else best | None => Some v end) best l = Some v ->
    v ∈ l \/ best = Some v).
  { induction l as [|x l IH]; intros best Hf; cbn in Hf; [by right|]. apply IH in Hf as [Hin|Hb]; [left; by right|].
    destruct best as [b|]; [destruct (_ <? _)|]; simplify_eq; [left; left|by right|left; left]. }
  intros Hl. by destruct (H None Hl).
Qed.

Lemma wp_active_version id w s (Q : result FilesExn (option FileVersionEntity) -> work -> FilesState -> Prop) :
  (forall e, Q (Err e) w s) -> Q (Ok None) w s ->
  (forall n row v, versions_ (view w s) !! (id, n) = Some row -> file_version_from_row row = Ok v -> Q (Ok (Some v)) w s) ->
  wp (FileVersionRepository.find_active_version id) w Q s.
Proof.
  intros HE HN HS. apply wp_find_row. destruct (is_empty id); [done|]. unfold select_active_version.
  destruct (latest _) as [row|] eqn:Hl; [|done]. apply latest_elem in Hl. apply list_elem_of_filter in Hl as [_ Hl]. rewrite sorting.merge_sort_Permutation in Hl.
  apply list_elem_of_fmap in Hl as ([[id' n] row'] & -> & Hin). apply list_elem_of_filter in Hin as [Hid Hin]. cbn in Hid. subst.
  apply elem_of_map_to_list in Hin. cbn [optional snd]. destruct (file_version_from_row row') as [v|] eqn:Hv; [|apply HE]. by apply (HS n row').
Qed.

(** From the decision to go on to the answer. *)
Lemma wp_finalize_publish request transfer trow file frow s (Q : result FilesExn FinalizeUploadResultDto -> work -> FilesState -> Prop) :
  files_inv (store s) (objects s) -> found request (store s) transfer trow file frow ->
  transfer_status transfer ∉ [TransferStatus.Cancelled; TransferStatus.Expired; TransferStatus.Failed] ->
  (forall r w' s', finalized request s r s' -> Q r w' s') ->
  wp (let! (chunks, target_version, assembly) := finalize_assemble env request transfer file in
      let! now := tx_lift (system_clock_now env) in
      let! version_id := tx_lift (new_uuid env) in
      let! result :=
        tx_catch (publish_version env transfer file target_version assembly version_id now)
          (fun e => if bool_decide (e = UniqueConstraintViolationException) then publish_lost_race file else tx_throw e) in
      if ff_is_idempotent_replay result then tx_ret result
      else let! _ := tx_lift (cleanup_staging_chunks chunks) in tx_ret result) new_work Q s.
Proof using He.
  intros I F Hts HQ. destruct (found_ids _ _ _ _ _ _ _ I F) as (Htid & Hfid & _). apply wp_bind.
  eapply (wp_finalize_assemble _ _ trow _ frow); [done|done|by intros e w' s' Hn; apply HQ|].
  intros chunks bodies t1 t2 w1 s1 R Ht1 Ht2 Hs1. apply wp_clock; [done|]. intros now s2 Hnow Hu2. apply wp_uuid. intros vid s3 Hvid Hu3.
  assert (Hs3 : stepped w1 (assembled s (file_id file) (concat bodies)) (finalizing_db (store s) (transfer_id transfer) (file_id file) trow frow t1 t2) w1 s3).
  { destruct Hs1 as (_ & Hv1 & Hu1). split_and!; [done| |by transitivity s2; [transitivity s1|]].
    by rewrite (unchanged_view _ _ _ Hu3), (unchanged_view _ _ _ Hu2). }
  assert (Hlive : committed_ w1 = false) by apply Hs1. pose proof (found_size _ _ _ _ _ _ _ I F) as Hsize.
  assert (Hup : sf_status frow = FileStatus.to_string FileStatus.Uploading).
  { pose proof (found_file _ _ _ _ _ _ F) as Hf. apply file_row_inv in Hf as (_ & _ & -> & _). by rewrite (ready_uploading _ _ _ _ _ _ R). }
  apply wp_bind, wp_catch. eapply (wp_publish_version _ trow _ frow (concat bodies) vid now (store s) t1 t2 _ (assembled s (file_id file) (concat bodies)));
    [done|done|rewrite Htid; apply F|intros Hnil; pose proof (found_named _ _ _ _ _ _ F) as Hne; by rewrite <- Hfid, Hnil in Hne|done
    |rewrite (ready_size _ _ _ _ _ _ R); unfold k_max_file_size_bytes in Hsize; lia
    |rewrite Hfid; apply (no_versions _ _ _ _ I (found_frow _ _ _ _ _ _ F)), Hup|].
  intros ev t t' w4 s4 Ht Ht' Hev1 Hev2 Hev3 Hst4 Hob4. cbn [ff_is_idempotent_replay]. apply wp_bind, wp_lift. eapply alone_post_mono; [|apply cleanup_post].
  intros _ s5 [Hst5 Hob5]. apply wp_ret, HQ. cbn [finalized ff_is_idempotent_replay].
  exists transfer, trow, file, frow, chunks, bodies, vid, ev, now, t, t'. rewrite <- Htid, Hst5. rewrite Hob4 in Hob5. split_and!; [done..| |done|done].
  destruct (Hob5 (build_version_key (file_id file) 1)) as [->|[_ (c & Hc & Hkey)]]; [cbn; by rewrite lookup_insert_eq|].
  pose proof (chunk_entities_ok _ _ _ _ I (ready_chunks _ _ _ _ _ _ R)) as Hok. rewrite Forall_forall in Hok. destruct (Hok c Hc) as (_ & [rest Hstg] & _).
  by rewrite Hkey in Hstg.
Qed.

Lemma finalize_post request s :
  files_inv (store s) (objects s) -> alone_post (finalize_file_upload env request) (finalized request s) s.
Proof using He.
  intros I. unfold finalize_file_upload. assert (Herr : forall e, finalized request s (Err e) s) by (intros e; split; [done|by left]).
  destruct (is_empty (fr_upload_id request)); [apply Herr|]. apply with_work_post, wp_bind, wp_finalize_lookup; [intros; apply Herr|].
  intros transfer trow file frow F. destruct (found_ids _ _ _ _ _ _ _ I F) as (_ & Hfid & _).
  assert (Hgo : wp (if bool_decide (transfer_status transfer = TransferStatus.Cancelled) || bool_decide (transfer_status transfer = TransferStatus.Expired)
             || bool_decide (transfer_status transfer = TransferStatus.Failed)
          then abort_throw FinalizationPreconditionException
          else
            let! (chunks, target_version, assembly) := finalize_assemble env request transfer file in
            let! now := tx_lift (system_clock_now env) in
            let! version_id := tx_lift (new_uuid env) in
            let! result :=
              tx_catch (publish_version env transfer file target_version assembly version_id now)
                (fun e => if bool_decide (e = UniqueConstraintViolationException) then publish_lost_race file else tx_throw e) in
            if ff_is_idempotent_replay result then tx_ret result
            else let! _ := tx_lift (cleanup_staging_chunks chunks) in tx_ret result) new_work (fun r _ s' => finalized request s r s') s).
  { destruct (_ || _) eqn:Hts; [apply Herr|]. apply (wp_finalize_publish _ _ trow _ frow); [done..| |done].
    apply orb_false_iff in Hts as [[H1 H2]%orb_false_iff H3]. apply bool_decide_eq_false in H1, H2, H3. rewrite !not_elem_of_cons. by split_and!; [..|apply not_elem_of_nil]. }
  apply wp_bind. destruct (bool_decide (transfer_status transfer = TransferStatus.Completed) || _) eqn:Hdone; [|exact Hgo].
  apply orb_prop in Hdone as Hdone. rewrite !bool_decide_eq_true in Hdone. apply wp_active_version; [intros; apply Herr|exact Hgo|].
  intros n row v Hv Hrow. rewrite view_new in Hv. destruct (inv_version _ _ _ I _ _ _ Hv) as [-> _]. apply wp_bind, wp_commit; [done|]. intros w'.
  rewrite view_new. split_and!; [by destruct s|done|]. by exists transfer, trow, file, frow, row, v.
Qed.

(** ** The invariant *)

(** The object of a file without versions may be replaced. *)
Lemma files_inv_object d o o' id :
  files_inv d o -> (forall m, versions_ d !! (id, m) = None) ->
  (forall key, key <> build_version_key id 1 -> o' !! key = o !! key \/ o' !! key = None /\ staging key) -> files_inv d o'.
Proof.
  intros [If It Ic Iv Ia] Hn Ho. constructor; [done|done| | |done].
  - intros k c Hc. destruct (Ic k c Hc) as (j & Hj & Hk & Hcj & Hkey & Hsz & Hbody). exists j. split_and!; [done..|lia|lia|].
    intros body. destruct (Ho (sc_minio_chunk_key c)) as [->|[-> _]]; [rewrite Hkey; apply staging_not_version|apply Hbody|done].
  - intros id' n v Hv. destruct (Iv _ _ _ Hv) as [-> Hvok]. split; [done|]. apply (version_ok_mono env d _ o); [done|eauto 10|].
    destruct (Ho (build_version_key id' 1)) as [->|[_ [rest Hr]]]; [|done|done]. intros ->%version_key_inj. by rewrite Hn in Hv.
Qed.

Lemma published_inv request s res s' :
  files_inv (store s) (objects s) -> published_upload request s res s' -> files_inv (store s') (objects s').
Proof.
  intros I (transfer & trow & file & frow & chunks & bodies & vid & ev & now & t & t' & F & R & _ & Hnow & Ht & Ht' & _ & _ & _ & -> & Hbody & Hobj & _).
  destruct (found_ids _ _ _ _ _ _ _ I F) as (_ & Hfid & _). pose proof (found_frow _ _ _ _ _ _ F) as Hfrow. rewrite <- Hfid in Hfrow.
  assert (Hup : sf_status frow = FileStatus.to_string FileStatus.Uploading).
  { pose proof (found_file _ _ _ _ _ _ F) as Hf. apply file_row_inv in Hf as (_ & _ & -> & _). by rewrite (ready_uploading _ _ _ _ _ _ R). }
  pose proof (no_versions _ _ _ _ I Hfrow Hup) as Hnv.
  assert (I1 : files_inv (store s) (objects s')).
  { apply (files_inv_object _ (objects s) _ (file_id file)); [done..|]. intros key Hkey. pose proof (chunk_entities_ok _ _ _ _ I (ready_chunks _ _ _ _ _ _ R)) as Hok.
    destruct (Hobj key) as [->|[Hno (c & Hc & <-)]]; [left; by apply lookup_insert_ne|right]. rewrite Forall_forall in Hok. by destruct (Hok c Hc) as (_ & ? & _). }
  destruct I1 as [If It Ic Iv Ia]. constructor; cbn.
  - intros id f [[<- <-]|[_ Hf]]%lookup_insert_Some; [|by apply If]. destruct (If _ _ Hfrow) as (e & -> & Hid & (H1 & [H2 H3] & H4 & H5 & H6)).
    exists (with_status FileStatus.Available t e). by split_and!.
  - intros id x [[<- <-]|[_ Hx]]%lookup_insert_Some; [|by apply It]. apply (It _ _ (found_trow _ _ _ _ _ _ F)).
  - exact Ic.
  - intros id n v [[[= <- <-] <-]|[_ Hv]]%lookup_insert_Some.
    + split; [done|]. eexists _, FileStatus.Available, (concat bodies), vid, now. split_and!; [apply lookup_insert_eq|done|cbn; lia|done|done|done|].
      cbn. destruct (If _ _ Hfrow) as (e & -> & Hid & Hok). rewrite (ready_size _ _ _ _ _ _ R). pose proof (found_file _ _ _ _ _ _ F) as Hf.
      apply file_row_inv in Hf as (_ & _ & _ & Hf). cbn in *. rewrite stoll_to_decimal in Hf; [by injection Hf as <-|].
      destruct Hok as (_ & Hsz & _). unfold in_i64, k_max_file_size_bytes in *. lia.
    + destruct (Iv _ _ _ Hv) as [-> Hvok]. split; [done|]. apply (version_ok_mono env (store s) _ (objects s')); [done| |done]. intros f status Hf Hst.
      exists f, status. cbn. rewrite lookup_insert_ne; [done|]. intros <-. by rewrite Hnv in Hv.
  - intros id f [[<- <-]|[Hne Hf]]%lookup_insert_Some Hst; [by rewrite lookup_insert_eq|]. rewrite lookup_insert_ne by congruence. by eapply Ia.
Qed.

Lemma finalized_inv request s r s' : files_inv (store s) (objects s) -> finalized request s r s' -> files_inv (store s') (objects s').
Proof.
  intros I. destruct r as [res|e]; cbn [finalized].
  - destruct (ff_is_idempotent_replay res); [by intros (-> & -> & _)|]. by apply published_inv.
  - intros [-> [->|(id & f & body & Hf & Hst & ->)]]; [done|]. apply (files_inv_object _ (objects s) _ id); [done|by eapply no_versions|].
    intros key Hkey. left. by apply lookup_insert_ne.
Qed.

End finalize.

(** ** Histories *)

(** The calls of the deployed service; the lifecycle service offers two more that could
    publish a file by hand. *)
Definition deployed (call : FilesCall) : bool :=
  match call with CallTransition _ _ _ _ _ | CallState _ _ | CallVersion _ _ => false | _ => true end.

Lemma serve_inv env config call :
  env_ok env -> max_chunk_request_bytes config < 2 ^ 31 -> deployed call = true -> keeps_alone (files_inv env) (serve_files env config call).
Proof.
  intros He Hmax Hdep. pose proof (files_inv_closed env) as HP.
  destruct call; cbn [serve_files]; try done; unfold forget; (apply keeps_alone_bind; [|intros ?; apply keeps_alone_ret]).
  - eapply CreateFileUpload_keeps; [done..|apply u64_range].
  - apply UploadChunk_inv; [done..|apply u32_range].
  - assert (Hf : forall request, keeps_alone (files_inv env) (finalize_file_upload env request)).
    { intros request s Hs. eapply alone_post_mono; [|by apply (finalize_post env He)]. intros r s' Hr. by eapply finalized_inv. }
    unfold FinalizeFileUpload. apply as_peer_keeps. intros _. keeps_run.
  - apply GetFileMetadata_keeps.
  - apply DownloadChunk_keeps.
  - by eapply CancelFileUpload_keeps.
  - by eapply DeleteFile_keeps.
  - by eapply poll_keeps.
  - eapply keeps_alone_clock; [done|]. intros now Hnow _. by eapply evaluate_keeps.
  - by eapply mark_file_deleted_keeps.
Qed.
