(* ===== verification/FilesSpec.v ===== *)
(** * Files: what the service promises

    The chunks a client downloads from an available file are the assembled object, cut
    into the ranges of the protocol; the contracts of the other operations and the
    invariant of their histories. *)

From S2P Require Import Prelude Ids Prog FilesTypes FilesText FilesValidation FilesDb FilesRepo FilesUpload FilesLifecycle FilesServer FilesLogic FilesContracts FilesRuns FilesInv FilesFinalize.
From stdpp Require Import sorting.
#[local] Open Scope Z_scope.

(** ** Slices *)

Definition slice (chunk : nat) (body : list Z) (i : nat) : list Z := take chunk (drop (i * chunk) body).

Lemma slices_concat chunk body n : (length body <= n * chunk)%nat -> concat (slice chunk body <$> seq 0 n) = body.
Proof.
  revert body. induction n as [|n IH]; intros body Hlen; [by destruct body; cbn in *; [|lia]|].
  rewrite <- cons_seq, fmap_cons. cbn [concat]. unfold slice at 1. rewrite Nat.mul_0_l, drop_0. rewrite <- (take_drop chunk body) at 3. f_equal.
  rewrite <- fmap_S_seq, <- list_fmap_compose. rewrite <- (IH (drop chunk body)) by (rewrite length_drop; lia). f_equal.
  apply list_fmap_ext. intros ? i _. unfold slice, compose. rewrite drop_drop. do 2 f_equal; lia.
Qed.

(** ** Rows read back *)

Lemma file_row_decodes e : file_ok e -> exists e', file_from_row (file_row e) = Ok e' /\ file_id e' = file_id e /\ owner_user_id e' = owner_user_id e /\
  file_status e' = file_status e /\ encrypted_size e' = encrypted_size e.
Proof.
  intros (H1 & H2 & H3 & H4 & H5). unfold file_from_row, file_row. cbn -[stoll to_decimal from_iso8601 to_iso8601 FileStatus.from_string FileStatus.to_string].
  rewrite stoll_to_decimal by (unfold in_i64, k_max_file_size_bytes in *; lia). cbn [bind]. rewrite FileStatus.status_roundtrip. cbn [bind].
  destruct (retention_until e) as [u|]; cbn [fmap option_fmap option_map optional bind from_option] in *; rewrite ?iso_roundtrip by done; cbn [bind]; by eexists.
Qed.

Lemma version_row_decodes vid id size key checksum created active :
  in_i64 size -> iso_range created ->
  file_version_from_row (version_row (mkVersionEntity vid id 1 size key checksum created active)) =
  Ok (mkVersionEntity vid id 1 size key checksum (stored_us created) active).
Proof. intros Hs Hc. unfold file_version_from_row, version_row. cbn -[stoll to_decimal from_iso8601 to_iso8601]. by rewrite stoll_to_decimal, iso_roundtrip. Qed.

(** The only version of a file is the active one. *)
Lemma only_version (m : gmap (string * Z) StoredVersion) id row :
  m !! (id, 1) = Some row -> (forall n v, m !! (id, n) = Some v -> n = 1) ->
  filter (fun kv : (string * Z) * StoredVersion => kv.1.1 = id) (map_to_list m) = [((id, 1), row)].
Proof.
  intros Hrow Hone. assert (Hall : forall kv, kv ∈ filter (fun kv : (string * Z) * StoredVersion => kv.1.1 = id) (map_to_list m) <-> kv = ((id, 1), row)).
  { intros [[id' n] v]. rewrite list_elem_of_filter, elem_of_map_to_list. cbn. split; [intros [-> Hv]|by intros [= -> -> ->]].
    pose proof (Hone _ _ Hv). subst. congruence. }
  assert (Hnd : NoDup (filter (fun kv : (string * Z) * StoredVersion => kv.1.1 = id) (map_to_list m))) by apply NoDup_filter, NoDup_map_to_list.
  destruct (filter _ _) as [|a [|b l]].
  - exfalso. by apply (not_elem_of_nil ((id, 1), row)), Hall.
  - f_equal. apply Hall. left.
  - exfalso. apply NoDup_cons in Hnd as [Hn _]. apply Hn. replace a with b; [left|].
    transitivity ((id, 1), row); [apply Hall; right; left|symmetry; apply Hall; left].
Qed.

(** A body as long as the row of its file says. *)
Lemma declared_size e (body : list Z) :
  file_ok e -> sf_encrypted_size (file_row e) = to_decimal (bytes_size body) ->
  0 < bytes_size body <= k_max_file_size_bytes /\ bytes_size body = encrypted_size e.
Proof.
  intros Hok Hsz. assert (Hbody : bytes_size body = encrypted_size e).
  { destruct Hok as (_ & Hr & _). unfold k_max_file_size_bytes in Hr. cbn in Hsz. unfold to_decimal in Hsz.
    destruct (Z.ltb_spec (encrypted_size e) 0); [lia|]. destruct (Z.ltb_spec (bytes_size body) 0) as [Hneg|]; [unfold bytes_size in Hneg; lia|].
    symmetry. by apply decimal_inj. }
  split; [rewrite Hbody; apply Hok|done].
Qed.

Section download.
Context (env : FilesEnv) (config : ServerConfig).

(** What is known of an available file. *)
Lemma available_file d o id f :
  files_inv env d o -> files_ d !! id = Some f -> sf_status f = "AVAILABLE"%string ->
  exists e body vid created row, file_from_row f = Ok e /\ file_id e = id /\ file_status e = FileStatus.Available /\
    bytes_size body = encrypted_size e /\ 0 < bytes_size body <= k_max_file_size_bytes /\ o !! build_version_key id 1 = Some body /\
    versions_ d !! (id, 1) = Some row /\ sv_checksum_sha256 row = digest env body /\ sv_minio_object_key row = build_version_key id 1 /\
    select_active_version id new_work d = Some row /\
    file_version_from_row row = Ok (mkVersionEntity vid id 1 (bytes_size body) (build_version_key id 1) (digest env body) created true).
Proof.
  intros I Hf Hst. destruct (inv_available _ _ _ I _ _ Hf Hst) as (row & Hrow).
  destruct (inv_version _ _ _ I _ _ _ Hrow) as (_ & f' & status & body & vid & created & Hf' & Hst' & _ & Hc & Hv & Ho & Hsz). simplify_eq.
  destruct (inv_file _ _ _ I _ _ Hf) as (e & -> & Hid & Hok). destruct (file_row_decodes e Hok) as (e' & He' & Hid' & _ & Hst'' & Hsz').
  destruct (declared_size e body Hok Hsz) as [Hr Hbody].
  exists e', body, vid, (stored_us created), (version_row (mkVersionEntity vid id 1 (bytes_size body) (build_version_key id 1) (digest env body) created true)).
  split_and!; [done|congruence| |congruence|lia|lia|done|done|done|done| |].
  - rewrite Hst''. apply FileStatus.status_string_inj. exact Hst.
  - unfold select_active_version, versions_of. cbn [staged new_work versions_ empty_storage]. rewrite (left_id_L ∅ (∪)).
    by rewrite (only_version _ _ _ Hrow) by (intros n v Hv; by apply (inv_version _ _ _ I) in Hv as [-> _]).
  - apply version_row_decodes; [|done]. unfold in_i64, k_max_file_size_bytes in *. lia.
Qed.

(** The answer for a chunk of [body]. *)
Definition chunk_of (body : list Z) (i : nat) : ChunkFetchResult :=
  let data := slice (Z.to_nat k_standard_chunk_size) body i in
  mkFetched 1 (Z.of_nat i) data (bytes_size data) (digest env data).

Definition chunk_total (body : list Z) : nat := Z.to_nat (calculate_expected_chunk_count (bytes_size body) k_standard_chunk_size).

Lemma body_tileable body : 0 < bytes_size body <= k_max_file_size_bytes -> tileable (bytes_size body) k_standard_chunk_size.
Proof. unfold k_max_file_size_bytes, tileable, k_standard_chunk_size. intros H. split_and!; try lia. apply Z.div_lt_upper_bound; lia. Qed.

Lemma chunk_bounds body i :
  0 < bytes_size body <= k_max_file_size_bytes -> (i < chunk_total body)%nat ->
  Z.of_nat i * k_standard_chunk_size < bytes_size body /\ (length body <= chunk_total body * Z.to_nat k_standard_chunk_size)%nat.
Proof.
  intros Hb Hi. pose proof (body_tileable body Hb) as Ht. unfold chunk_total in *.
  destruct (chunk_count_bounds (bytes_size body) k_standard_chunk_size _ ltac:(done) ltac:(lia) (expected_chunk_count_eq _ _ Ht)) as (Hpos & Hlo & Hhi).
  unfold bytes_size, k_standard_chunk_size in *. split; lia.
Qed.

(** The request of a chunk: the object's range, unless the connection fails. *)
Lemma range_of_chunk body i :
  0 < bytes_size body <= k_max_file_size_bytes -> (i < chunk_total body)%nat ->
  exists r, calculate_chunk_byte_range (bytes_size body) (Z.of_nat i) k_standard_chunk_size = Some r /\ start_byte r < bytes_size body /\
    take (Z.to_nat (end_byte r - start_byte r + 1)) (drop (Z.to_nat (start_byte r)) body) = slice (Z.to_nat k_standard_chunk_size) body i.
Proof.
  intros Hb Hi. destruct (chunk_bounds body i Hb Hi) as [Hlo _]. rewrite chunk_range_eq by (lia || by apply body_tileable).
  rewrite (proj2 (Z.ltb_lt _ _)) by (unfold chunk_total in Hi; lia). eexists. split; [done|]. cbn [start_byte end_byte]. split; [done|]. unfold slice.
  replace (Z.to_nat (Z.of_nat i * k_standard_chunk_size)) with (i * Z.to_nat k_standard_chunk_size)%nat by (unfold k_standard_chunk_size; lia).
  unfold bytes_size in *. destruct (Z.le_gt_cases (Z.of_nat i * k_standard_chunk_size + k_standard_chunk_size - 1) (Z.of_nat (length body) - 1)).
  - rewrite Z.min_l by done. f_equal. lia.
  - rewrite Z.min_r by lia. rewrite !take_ge; [done|rewrite length_drop; unfold k_standard_chunk_size in *; lia..].
Qed.

Lemma u32_data data : bytes_size data <= k_standard_chunk_size -> u32 (bytes_size data) = bytes_size data.
Proof. intros H. apply u32_small. unfold in_u32, bytes_size, k_standard_chunk_size in *. lia. Qed.

Lemma slice_size body i : bytes_size (slice (Z.to_nat k_standard_chunk_size) body i) <= k_standard_chunk_size.
Proof. unfold bytes_size, slice. rewrite length_take. unfold k_standard_chunk_size. lia. Qed.

Lemma fetch_chunk_outcomes id body i s :
  0 < bytes_size body <= k_max_file_size_bytes -> (i < chunk_total body)%nat -> objects s !! build_version_key id 1 = Some body ->
  solo (fetch_chunk env id 1 (Z.of_nat i) (bytes_size body) k_standard_chunk_size) s = (Ok (chunk_of body i), s) /\
  alone_post (fetch_chunk env id 1 (Z.of_nat i) (bytes_size body) k_standard_chunk_size)
    (fun r s' => s' = s /\ (r = Ok (chunk_of body i) \/ r = Err S3ConnectionException)) s.
Proof.
  intros Hb Hi Ho. destruct (range_of_chunk body i Hb Hi) as (r & Hr & Hlt & Hslice). unfold fetch_chunk. rewrite Hr, (proj2 (Z.eqb_neq _ 0)) by lia.
  unfold get_object_range. cbn [pbind solo alone_post]. rewrite Ho, (proj2 (Z.leb_gt _ _)) by lia. rewrite Hslice. cbn [pbind solo alone_post].
  rewrite u32_data by apply slice_size. by split_and!; [|done|left|..]; auto.
Qed.

(** Up to the request, a trusted peer's download only reads. *)
Lemma solo_tx_bind {A B} (m : tx A) (f : A -> tx B) w s :
  solo (tx_bind m f w) s = (let '((r, w'), s') := solo (m w) s in match r with Ok a => solo (f a w') s' | Err e => ((Err e, w'), s') end).
Proof. unfold tx_bind. rewrite solo_bind. destruct (solo (m w) s) as [[[a|e] w'] s']; done. Qed.

Lemma lookup_available id f e row v caller s :
  trusted_caller caller = true -> is_empty id = false -> files_ (store s) !! id = Some f -> file_from_row f = Ok e -> file_status e = FileStatus.Available ->
  select_active_version id new_work (store s) = Some row -> file_version_from_row row = Ok v ->
  solo (download_lookup id 0 caller new_work) s = ((Ok (e, v, true), new_work), s) /\
  forall Q, Q (Ok (e, v, true)) new_work s -> wp (download_lookup id 0 caller) new_work Q s.
Proof.
  intros Htrust Hid Hf He Hst Hrow Hv. unfold download_lookup, FileRepository.find_by_id, FileVersionRepository.find_active_version, find_row.
  rewrite Hid, Htrust. cbn [negb andb].
  assert (Hsel : select_file id new_work (store s) = Some f) by (by rewrite select_file_view, view_new).
  split; [|intros Q HQ].
  - rewrite solo_tx_bind. cbn [tx_bind query tx_result pbind solo]. rewrite Hsel. cbn [optional]. rewrite He. cbn [bind].
    rewrite andb_false_r. cbn [andb tx_bind tx_ret pbind solo negb]. rewrite andb_false_r, Hst, bool_decide_eq_true_2 by done. cbn [negb Z.ltb Z.compare]. rewrite solo_tx_bind. cbn [tx_bind query tx_result pbind solo].
    rewrite Hrow. cbn [optional]. rewrite Hv. cbn [bind tx_ret solo]. by rewrite orb_true_r.
  - apply wp_bind, wp_bind, wp_query, wp_result. rewrite Hsel. cbn [optional]. rewrite He. cbn [bind]. rewrite andb_false_r. cbn [andb]. apply wp_bind, wp_ret. cbn [negb]. rewrite andb_false_r.
    rewrite Hst, bool_decide_eq_true_2 by done. cbn [negb Z.ltb Z.compare]. apply wp_bind, wp_bind, wp_query, wp_result. rewrite Hrow. cbn [optional]. rewrite Hv.
    cbn [bind]. apply wp_ret. by rewrite orb_true_r.
Qed.

Lemma validated id e v caller i :
  is_valid_uuid id = true -> file_id e = id -> file_status e = FileStatus.Available ->
  is_Some (calculate_chunk_byte_range (u64 (version_size v)) i k_standard_chunk_size) ->
  validate_download_preconditions (mkDownloadInput id 0 i e (Some v) caller true) = Ok tt.
Proof.
  intros Hu Hid Hst [r Hr]. unfold validate_download_preconditions. cbn [dl_file_id dl_file dl_version dl_requested_version dl_chunk_index dl_has_read_permission dl_caller_user_id].
  rewrite Hu, Hid, Hst, Hr. rewrite !bool_decide_eq_true_2 by done. cbn [negb]. rewrite andb_false_r, orb_false_r. cbn [Z.ltb Z.compare andb].
  unfold is_empty. by rewrite bool_decide_eq_false_2 by (by apply valid_uuid_nonempty).
Qed.

Lemma get_chunk_outcomes id f caller s :
  files_inv env (store s) (objects s) -> trusted_caller caller = true -> is_valid_uuid id = true -> files_ (store s) !! id = Some f ->
  sf_status f = "AVAILABLE"%string ->
  exists row body, versions_ (store s) !! (id, 1) = Some row /\ objects s !! sv_minio_object_key row = Some body /\ sv_checksum_sha256 row = digest env body /\
    0 < bytes_size body <= k_max_file_size_bytes /\
    (forall i, (i < chunk_total body)%nat ->
     solo (get_chunk_versioned env id 0 (Z.of_nat i) caller) s = (Ok (chunk_of body i), s) /\
     alone_post (get_chunk_versioned env id 0 (Z.of_nat i) caller) (fun r s' => s' = s /\ (r = Ok (chunk_of body i) \/ r = Err S3ConnectionException)) s).
Proof.
  intros I Htrust Hu Hf Hst. destruct (available_file _ _ _ _ I Hf Hst) as (e & body & vid & created & row & He & Hid & Hav & Hsz & Hb & Ho & Hrow & Hck & Hkey & Hact & Hv).
  exists row, body. rewrite Hkey. split_and!; [done..|lia|lia|]. intros i Hi.
  destruct (fetch_chunk_outcomes id body i s Hb Hi Ho) as [Hsolo Halone]. destruct (range_of_chunk body i Hb Hi) as (r & Hr & _).
  assert (Hu64 : u64 (bytes_size body) = bytes_size body) by (apply u64_small; unfold in_u64, k_max_file_size_bytes in *; lia).
  destruct (lookup_available id f e row _ caller s Htrust ltac:(unfold is_empty; by rewrite bool_decide_eq_false_2 by by apply valid_uuid_nonempty) Hf He Hav Hact Hv) as [Lsolo Lwp].
  unfold get_chunk_versioned. set (v := mkVersionEntity _ _ _ _ _ _ _ _) in *.
  assert (Hok : validate_download_preconditions (mkDownloadInput id 0 (Z.of_nat i) e (Some v) caller true) = Ok tt).
  { apply validated; [done..|]. cbn. rewrite Hu64. by exists r. }
  split.
  - unfold with_work. rewrite solo_bind, solo_tx_bind, Lsolo, Hok. cbn [version_number version_size v]. rewrite Hu64. unfold tx_of. by rewrite solo_bind, Hsolo.
  - apply with_work_post, wp_bind, Lwp. rewrite Hok. cbn [version_number version_size v]. rewrite Hu64. by apply wp_of.
Qed.

Lemma as_peer_ok {A} peer name (k : string -> fprog (result StatusCode A)) :
  check_peer_authorization (expected_client_identity config) peer = Ok name -> as_peer config peer k = k name.
Proof. intros H. unfold as_peer. by rewrite H. Qed.

Lemma DownloadChunk_outcomes peer name id f s :
  files_inv env (store s) (objects s) -> check_peer_authorization (expected_client_identity config) peer = Ok name -> trusted_caller name = true ->
  k_standard_chunk_size <= max_chunk_request_bytes config -> is_valid_uuid id = true -> files_ (store s) !! id = Some f -> sf_status f = "AVAILABLE"%string ->
  exists row body, versions_ (store s) !! (id, 1) = Some row /\ objects s !! sv_minio_object_key row = Some body /\ sv_checksum_sha256 row = digest env body /\
    0 < bytes_size body <= k_max_file_size_bytes /\
    forall i, (i < chunk_total body)%nat ->
      solo (DownloadChunk env config peer None id (Z.of_nat i)) s = (Ok (chunk_of body i), s) /\
      alone_post (DownloadChunk env config peer None id (Z.of_nat i)) (fun r s' => s' = s /\ (r = Ok (chunk_of body i) \/ r = Err DEADLINE_EXCEEDED)) s.
Proof.
  intros I Hpeer Htrust Hmax Hu Hf Hst. destruct (get_chunk_outcomes id f name s I Htrust Hu Hf Hst) as (row & body & Hrow & Ho & Hck & Hb & Hget).
  exists row, body. split_and!; [done..|lia|lia|]. intros i Hi. destruct (Hget i Hi) as [Hsolo Halone]. unfold DownloadChunk. rewrite (as_peer_ok _ _ _ Hpeer), Hu. cbn [negb].
  assert (Hsize : validate_size (cd_chunk_size_bytes (chunk_of body i)) (max_chunk_request_bytes config) = true).
  { unfold validate_size, chunk_of. cbn [cd_chunk_size_bytes]. pose proof (slice_size body i). destruct (chunk_bounds body i Hb Hi) as [Hlo _].
    assert (0 < bytes_size (slice (Z.to_nat k_standard_chunk_size) body i)); [|lia]. unfold bytes_size, slice in *. rewrite length_take, length_drop.
    unfold k_standard_chunk_size in *. lia. }
  split.
  - by rewrite solo_bind, Hsolo, Hsize.
  - apply alone_post_bind. eapply alone_post_mono; [|exact Halone]. intros r s' [-> [->| ->]]; cbn [alone_post]; [rewrite Hsize; auto|auto].
Qed.

End download.

(** C33.  Downloading every chunk of an available file through the trusted peer gives
    back, in the order of the chunks, exactly the object whose digest and size the
    database records.  A run without failures of the object store answers each request;
    with failures a request is answered with the same chunk or with an error, never with
    other bytes, and nothing changes. *)
Theorem downloads_reassemble env config peer name id f s
    (I : files_inv env (store s) (objects s)) (Hpeer : check_peer_authorization (expected_client_identity config) peer = Ok name)
    (Htrust : trusted_caller name = true) (Hmax : k_standard_chunk_size <= max_chunk_request_bytes config) (Hu : is_valid_uuid id = true)
    (Hf : files_ (store s) !! id = Some f) (Hst : sf_status f = "AVAILABLE"%string) :
  exists row body, versions_ (store s) !! (id, 1) = Some row /\ sv_checksum_sha256 row = compute_sha256_hex (sha256 env) body /\
    objects s !! sv_minio_object_key row = Some body /\
    concat ((fun i => cd_encrypted_data (chunk_of env body i)) <$> seq 0 (chunk_total body)) = body /\
    forall i, (i < chunk_total body)%nat ->
      solo (DownloadChunk env config peer None id (Z.of_nat i)) s = (Ok (chunk_of env body i), s) /\
      forall r s', alone (DownloadChunk env config peer None id (Z.of_nat i)) s r s' ->
        s' = s /\ (r = Ok (chunk_of env body i) \/ r = Err DEADLINE_EXCEEDED).
Proof.
  destruct (DownloadChunk_outcomes env config peer name id f s I Hpeer Htrust Hmax Hu Hf Hst) as (row & body & Hrow & Ho & Hck & Hb & Hd).
  exists row, body. split_and!; [done..| |].
  - assert (Hn : (0 < chunk_total body)%nat).
    { pose proof (body_tileable body Hb) as Ht. destruct (chunk_count_bounds (bytes_size body) k_standard_chunk_size _ ltac:(done) ltac:(lia)
        (expected_chunk_count_eq _ _ Ht)) as (Hpos & _). unfold chunk_total. lia. }
    apply slices_concat. by destruct (chunk_bounds body 0 Hb Hn) as [_ ?].
  - intros i Hi. destruct (Hd i Hi) as [Hsolo Halone]. split; [done|]. intros r s' Hr. exact (alone_post_sound _ _ _ _ _ Halone Hr).
Qed.

(** ** Lifecycle *)

(** C35.  Moving a file through its lifecycle, or deleting it, has the answer that the
    rows, the transition table and the permissions give, when the call runs alone.  If
    the answer is yes, it has moved the row and staged one pending event about it in the
    same commit, except that deleting a file whose row already says it is deleted changes
    nothing; with every other answer the database is as it was.  The bucket stays as it
    is. *)
Theorem lifecycle_moves_are_recorded env id caller reason s (He : env_ok env) :
  (forall old new r s', alone (transition_lifecycle env id old new caller reason) s r s' ->
     r = transition_answer (store s) id old new caller /\ objects s' = objects s /\
     match r with Ok true => moved_file id new (event_type_for_status new) (store s) (store s') | _ => store s' = store s end) /\
  (forall r s', alone (delete_file env id caller reason) s r s' ->
     r = delete_answer (store s) id caller /\ objects s' = objects s /\
     match r with
     | Ok true => if decide (already_deleted id (store s)) then store s' = store s
                  else moved_file id FileStatus.Deleted "FILE_DELETED" (store s) (store s')
     | _ => store s' = store s
     end).
Proof.
  split.
  - intros old new r s' Hr. exact (alone_post_sound _ _ _ _ _ (transition_post env He id old new caller reason s) Hr).
  - intros r s' Hr. exact (alone_post_sound _ _ _ _ _ (delete_post env He id caller reason s) Hr).
Qed.

(** ** Chunks *)

(** What a new chunk changes: its row, the progress of its transfer, and the first chunk
    the status of its file. *)
Definition chunk_effect (dto : ChunkPayloadDto) (d d' : MockStorage) : Prop :=
  let t := cp_upload_id dto in
  exists c x x', chunks_ d !! (t, i32 (cp_chunk_index dto)) = None /\
    chunks_ d' = <[(t, i32 (cp_chunk_index dto)) := c]> (chunks_ d) /\ sc_chunk_hash_sha256 c = cp_claimed_sha256 dto /\
    sc_chunk_size c = i32 (cp_chunk_size_bytes dto) /\ sc_minio_chunk_key c = build_staging_key t (cp_chunk_index dto) /\
    transfers_ d !! t = Some x /\ transfers_ d' = <[t := x']> (transfers_ d) /\ st_file_id x' = st_file_id x /\
    st_accepted_chunks x' = st_accepted_chunks x + 1 /\ st_transferred_bytes x' = st_transferred_bytes x + cp_chunk_size_bytes dto /\
    st_status x' = (if (0 <? st_total_chunks x) && (st_total_chunks x <=? chunk_count t d') then "FINALIZING"%string
                    else if bool_decide (st_status x = "CREATED"%string) then "TRANSFERRING"%string else st_status x) /\
    (files_ d' = files_ d \/
     exists f at_, files_ d !! st_file_id x = Some f /\ sf_status f = "CREATED"%string /\
       files_ d' = <[st_file_id x := with_file_status "UPLOADING" at_ f]> (files_ d)) /\
    metadata_ d' = metadata_ d /\ versions_ d' = versions_ d /\ access_ d' = access_ d /\ outbox_ d' = outbox_ d.

Lemma transfer_status_string_ok str status : TransferStatus.from_string str = Ok status -> str = TransferStatus.to_string status.
Proof. unfold TransferStatus.from_string. intros H. repeat (case_bool_decide; [by simplify_eq|]). done. Qed.

Lemma transfer_status_inv row t : file_transfer_from_row row = Ok t -> st_status row = TransferStatus.to_string (transfer_status t).
Proof.
  unfold file_transfer_from_row. intros H. apply bind_ok in H as (? & ? & H). apply bind_ok in H as (status & Hst & H). apply transfer_status_string_ok in Hst.
  repeat (apply bind_ok in H as (? & ? & H)). by simplify_eq.
Qed.

Lemma status_update_frame id old new t d :
  (status_update id old new t d).2 = d \/
  exists f, files_ d !! id = Some f /\ sf_status f = FileStatus.to_string old /\
    (status_update id old new t d).2 = set_files (<[id := with_file_status (FileStatus.to_string new) (to_iso8601 t) f]> (files_ d)) d.
Proof. unfold status_update. destruct (files_ d !! id) as [f|] eqn:Hf; [|by left]. case_bool_decide; [right|by left]. by exists f. Qed.

(** The tables other than the transfers and the files. *)
Definition same_rest (d d' : MockStorage) : Prop :=
  chunks_ d' = chunks_ d /\ metadata_ d' = metadata_ d /\ versions_ d' = versions_ d /\ access_ d' = access_ d /\ outbox_ d' = outbox_ d.

(** The first chunk of a transfer. *)
Lemma first_chunk_effect t row file_id t1 t2 (created : bool) d :
  is_empty t = false -> transfers_ d !! t = Some row ->
  let d' := if created then (status_update file_id FileStatus.Created FileStatus.Uploading t2 (transfer_update t TransferStatus.Transferring t1 d)).2 else d in
  let row' := if created then with_transfer_status "TRANSFERRING" (to_iso8601 t1) row else row in
  transfers_ d' = <[t := row']> (transfers_ d) /\ same_rest d d' /\
  (files_ d' = files_ d \/
   exists f at_, files_ d !! file_id = Some f /\ sf_status f = "CREATED"%string /\ files_ d' = <[file_id := with_file_status "UPLOADING" at_ f]> (files_ d)).
Proof.
  intros Hid Hrow. destruct created; cbv zeta; [|rewrite insert_id by done; by split_and!; [..|left]].
  unfold transfer_update, named_row. rewrite Hid, Hrow.
  destruct (status_update_frame file_id FileStatus.Created FileStatus.Uploading t2 (set_transfers (<[t := with_transfer_status (TransferStatus.to_string TransferStatus.Transferring) (to_iso8601 t1) row]> (transfers_ d)) d))
    as [->|(f & Hf & Hst & ->)]; split_and!; try done; [by left|right]. by exists f, (to_iso8601 t2).
Qed.

Lemma progress_effect t row n t3 t4 (full : bool) d :
  is_empty t = false -> transfers_ d !! t = Some row ->
  let d3 := progress_update t n t3 d in
  let d' := if full then transfer_update t TransferStatus.Finalizing t4 d3 else d3 in
  exists row', transfers_ d' = <[t := row']> (transfers_ d) /\ same_rest d d' /\ files_ d' = files_ d /\ st_file_id row' = st_file_id row /\
    st_accepted_chunks row' = st_accepted_chunks row + 1 /\ st_transferred_bytes row' = st_transferred_bytes row + n /\
    st_status row' = if full then "FINALIZING"%string else st_status row.
Proof.
  intros Hid Hrow. cbv zeta. unfold progress_update, named_row. rewrite Hid, Hrow. destruct full.
  - unfold transfer_update, named_row. rewrite Hid. cbn [transfers_ set_transfers]. rewrite lookup_insert_eq. eexists. cbn. rewrite insert_insert_eq. by split_and!.
  - eexists. by split_and!.
Qed.

Lemma chunk_recorded_effect dto d d' : chunk_recorded dto d d' -> chunk_effect dto d d'.
Proof.
  intros (id & now & transfer & row & t1 & t2 & t3 & t4 & Hnow & Hid & Hrow & Htr & Hn & _ & _ & _ & _ & Hd').
  destruct (transfer_row_inv _ _ Htr) as (_ & Hfid & Htot & _). pose proof (transfer_status_inv _ _ Htr) as Hst.
  cbv zeta in Hd'. set (d1 := set_chunks _ d) in Hd'. set (created := bool_decide (transfer_status transfer = TransferStatus.Created)) in Hd'.
  set (d2 := if created then _ else _) in Hd'.
  destruct (first_chunk_effect (cp_upload_id dto) row (transfer_file_id transfer) t1 t2 created d1 Hid Hrow)
    as (Hx2 & (Hc2 & Hm2 & Hv2 & Ha2 & Ho2) & Hf2). fold d2 in Hx2, Hc2, Hm2, Hv2, Ha2, Ho2, Hf2. set (row2 := if created then _ else row) in Hx2.
  assert (Hrow2 : transfers_ d2 !! cp_upload_id dto = Some row2) by (rewrite Hx2; apply lookup_insert_eq).
  set (full := (0 <? total_chunks transfer) && _) in Hd'.
  destruct (progress_effect (cp_upload_id dto) row2 (cp_chunk_size_bytes dto) t3 t4 full d2 Hid Hrow2)
    as (row3 & Hx3 & (Hc3 & Hm3 & Hv3 & Ha3 & Ho3) & Hf3 & Hfid3 & Hacc3 & Hby3 & Hst3). rewrite <- Hd' in *.
  assert (Hfull : full = (0 <? st_total_chunks row) && (st_total_chunks row <=? chunk_count (cp_upload_id dto) d')).
  { unfold full. rewrite Htot. do 2 f_equal. unfold chunk_count. rewrite Hc3. unfold progress_update. by destruct (named_row _ _). }
  exists (chunk_row (stored_chunk dto id now)), row, row3.
  assert (Hrow2' : st_file_id row2 = st_file_id row /\ st_accepted_chunks row2 = st_accepted_chunks row /\ st_transferred_bytes row2 = st_transferred_bytes row /\
    st_status row2 = if bool_decide (st_status row = "CREATED"%string) then "TRANSFERRING"%string else st_status row).
  { unfold row2, created. rewrite Hst. destruct (transfer_status transfer) eqn:Hs; cbn; by rewrite ?Hst. }
  destruct Hrow2' as (H1 & H2 & H3 & H4). rewrite <- Hfull. split_and!; try done.
  - by rewrite Hc3, Hc2.
  - rewrite Hx3, Hx2. by rewrite insert_insert_eq.
  - congruence.
  - congruence.
  - congruence.
  - rewrite Hst3. destruct full; [done|]. by rewrite H4.
  - rewrite Hf3, <- Hfid. exact Hf2.
  - by rewrite Hm3, Hm2.
  - by rewrite Hv3, Hv2.
  - by rewrite Ha3, Ha2.
  - by rewrite Ho3, Ho2.
Qed.

(** Storing a chunk that runs alone, whatever the object store does: a chunk whose
    index was recorded before is answered as a duplicate if the digests agree and
    changes nothing; a new one is in the bucket and counted exactly once; an error
    leaves the database alone, except that an expired transfer is marked as such, and
    never touches the body of a recorded chunk. *)
Theorem store_chunk_contract env dto caller s r s' (He : env_ok env) (Hk : keyed_chunks (store s)) (Hr : alone (store_chunk env dto caller) s r s') :
  let key := (cp_upload_id dto, i32 (cp_chunk_index dto)) in
  let put := <[build_staging_key (cp_upload_id dto) (cp_chunk_index dto) := cp_encrypted_data dto]> (objects s) in
  match r with
  | Ok res =>
      res = chunk_stored dto (cs_is_duplicate res) /\
      if cs_is_duplicate res
      then store s' = store s /\ objects s' = objects s /\
           exists c, chunks_ (store s) !! key = Some c /\ hashes_equal (sc_chunk_hash_sha256 c) (cp_claimed_sha256 dto) = true
      else chunk_effect dto (store s) (store s') /\ objects s' = put
  | Err e =>
      (store s' = store s \/
         e = TransferExpiredException /\ exists t, iso_range t /\ store s' = transfer_update (cp_upload_id dto) TransferStatus.Expired t (store s)) /\
      (objects s' = objects s \/ chunks_ (store s) !! key = None /\ objects s' = put)
  end.
Proof.
  pose proof (alone_post_sound _ _ _ _ _ (store_chunk_post env He dto caller s Hk) Hr) as Hpost. cbv zeta. destruct r as [res|e]; [|exact Hpost].
  cbn [chunk_stored_post] in Hpost. destruct (cs_is_duplicate res).
  - by destruct Hpost as (H1 & H2 & -> & H4).
  - destruct Hpost as (H1 & H2 & ->). split_and!; [done|by apply chunk_recorded_effect|done].
Qed.

(** ** Finalization *)









(** ** Histories *)

Definition serve_deployed (env : FilesEnv) (config : ServerConfig) (call : FilesCall) : fprog unit :=
  if deployed call then serve_files env config call else Ret tt.

(** C31.  Over any history of the deployed calls, one after the other and with any failures
    of the object store, the invariant holds; so every available file has its version,
    and the object of the version is in the bucket with the recorded digest and the
    size of the file. *)
Theorem available_files_intact env config s s' (He : env_ok env) (Hmax : max_chunk_request_bytes config < 2 ^ 31)
    (I : files_inv env (store s) (objects s)) (Hr : one_by_one (serve_deployed env config) s s') :
  files_inv env (store s') (objects s') /\
  forall id f, files_ (store s') !! id = Some f -> sf_status f = "AVAILABLE"%string ->
    exists row body, versions_ (store s') !! (id, 1) = Some row /\ objects s' !! sv_minio_object_key row = Some body /\
      sv_checksum_sha256 row = compute_sha256_hex (sha256 env) body /\ sv_encrypted_size row = to_decimal (bytes_size body) /\
      sf_encrypted_size f = to_decimal (bytes_size body).
Proof.
  assert (I' : files_inv env (store s') (objects s')).
  { apply (one_by_one_keeps (serve_deployed env config) (fun s => files_inv env (store s) (objects s))) with s; [|done..].
    intros call s1 I1. unfold serve_deployed. destruct (deployed call) eqn:Hd; [|done]. by apply serve_inv. }
  split; [done|]. intros id f Hf Hst. destruct (inv_available _ _ _ I' _ _ Hf Hst) as (row & Hrow).
  destruct (inv_version _ _ _ I' _ _ _ Hrow) as (_ & f' & status & body & vid & created & Hf' & _ & _ & _ & -> & Ho & Hsz). simplify_eq.
  by exists (version_row (mkVersionEntity vid id 1 (bytes_size body) (build_version_key id 1) (digest env body) created true)), body.
Qed.

(** ** The relay *)

Definition keyed_outbox (d : MockStorage) : Prop := forall id o, outbox_ d !! id = Some o -> so_event_id o = id.

Definition mark (success : bool) : string := if success then "PUBLISHED" else "FAILED".

Definition marked_event (success : bool) (id : string) (d d' : MockStorage) : Prop :=
  (forall id', id' <> id -> outbox_ d' !! id' = outbox_ d !! id') /\
  (id <> EmptyString -> is_Some (outbox_ d !! id) -> exists o, outbox_ d' !! id = Some o /\ so_status o = mark success).

Lemma mark_post env (He : env_ok env) (success : bool) id s :
  alone_post (committing (if success then FilesOutboxRepository.mark_published env id else FilesOutboxRepository.mark_failed id))
    (fun _ s' => marked_event success id (store s) (store s')) s.
Proof.
  assert (Hnone : id = EmptyString \/ outbox_ (store s) !! id = None -> forall s', store s' = store s -> marked_event success id (store s) (store s')).
  { intros H s' ->. split; [done|]. intros H1 [o H2]. destruct H as [H|H]; congruence. }
  assert (Hsome : forall f s' s'' o, unchanged s s' -> outbox_ (store s) !! id = Some o -> so_status (f o) = mark success ->
    store s'' = view (stage (fun d => set_outbox (<[id := f o]> (outbox_ d)) d) new_work) s' -> marked_event success id (store s) (store s'')).
  { intros f s' s'' o Hu Ho Hst Hs''. rewrite view_stage_outbox, view_new in Hs''. destruct Hu as (Hu & _). rewrite Hu in Hs''. rewrite Hs''. split; cbn.
    - intros id' Hne. by rewrite lookup_insert_ne.
    - intros _ _. exists (f o). by rewrite lookup_insert_eq. }
  unfold committing. apply with_work_post, wp_bind. destruct success.
  - unfold FilesOutboxRepository.mark_published, is_empty. case_bool_decide as Hid; [by apply Hnone; [left|]|]. apply wp_clock; [done|]. intros t s1 _ Hu.
    apply wp_update. unfold update_event. rewrite select_event_view, (unchanged_view _ _ _ Hu), view_new.
    destruct (outbox_ (store s) !! id) as [o|] eqn:Ho; [|apply Hnone; [by right|apply Hu]]. cbn [fst snd]. apply wp_bind, wp_commit; [done|]. intros w.
    by apply (Hsome (published (to_iso8601 t)) s1 _ o).
  - unfold FilesOutboxRepository.mark_failed, is_empty. case_bool_decide as Hid; [by apply Hnone; [left|]|].
    apply wp_update. unfold update_event. rewrite select_event_view, view_new.
    destruct (outbox_ (store s) !! id) as [o|] eqn:Ho; [|by apply Hnone; [right|]]. cbn [fst snd]. apply wp_bind, wp_commit; [done|]. intros w.
    by apply (Hsome failed s _ o).
Qed.

Lemma mark_each_post env (He : env_ok env) (success : bool) events s :
  alone_post (mark_each env success events)
    (fun _ s' => (forall id, id ∉ event_id <$> events -> outbox_ (store s') !! id = outbox_ (store s) !! id) /\
       forall id, id ∈ event_id <$> events -> id <> EmptyString -> is_Some (outbox_ (store s) !! id) ->
         exists o, outbox_ (store s') !! id = Some o /\ so_status o = mark success) s.
Proof.
  revert s. induction events as [|ev events IH]; intros s; cbn [mark_each]; [split; [done|]; intros id H; by apply not_elem_of_nil in H|].
  apply alone_post_bind. eapply alone_post_mono; [|apply (mark_post env He)]. intros _ s1 [Hne Heq].
  eapply alone_post_mono; [|apply IH]. intros _ s2 [Hout Hin]. cbn [fmap list_fmap]. split.
  - intros id [H1 H2]%not_elem_of_cons. rewrite Hout by done. by apply Hne.
  - intros id Hid Hnil Hsome. destruct (decide (id ∈ event_id <$> events)) as [Hl|Hl].
    + apply Hin; [done..|]. destruct (decide (id = event_id ev)) as [->|Hd]; [destruct (Heq Hnil Hsome) as (o & -> & _); by eexists|by rewrite Hne].
    + apply elem_of_cons in Hid as [->|Hid]; [|done]. rewrite Hout by done. by apply Heq.
Qed.

Lemma outbox_row_inv row ev : files_outbox_from_row row = Ok ev -> event_id ev = so_event_id row.
Proof. unfold files_outbox_from_row. intros H. repeat (apply bind_ok in H as (? & ? & H)). by simplify_eq. Qed.

Lemma pending_rows batch d o :
  o ∈ select_pending batch new_work d -> so_status o = "PENDING"%string /\ exists id, outbox_ d !! id = Some o.
Proof.
  unfold select_pending. intros Hin. apply elem_of_take in Hin as (k & Hk & _). apply list_elem_of_lookup_2 in Hk. rewrite sorting.merge_sort_Permutation in Hk.
  apply list_elem_of_filter in Hk as [Hst Hk]. split; [done|]. apply list_elem_of_fmap in Hk as ([id o'] & -> & Hk). exists id.
  apply elem_of_map_to_list in Hk. cbn in Hk. by rewrite (left_id_L ∅ (∪)) in Hk.
Qed.

(** A poll of the relay that runs alone marks the events of its batch, which were all
    pending, and no other event: published if the audit service accepted the batch, and
    failed if not.  The header of the relay promises delivery at least once, which the
    mark of a refused batch does not give: no later poll takes those events again. *)
Theorem poll_marks_its_batch env submit batch s r s' (He : env_ok env) (Hk : keyed_outbox (store s))
    (Hr : alone (poll_and_dispatch env submit batch) s r s') :
  r = 0 /\ store s' = store s \/
  exists events, map_result files_outbox_from_row (select_pending batch new_work (store s)) = Ok events /\ r = Z.of_nat (length events) /\
    (forall id, id ∉ event_id <$> events -> outbox_ (store s') !! id = outbox_ (store s) !! id) /\
    forall ev, ev ∈ events -> event_id ev <> EmptyString ->
      exists o o', outbox_ (store s) !! event_id ev = Some o /\ so_status o = "PENDING"%string /\
        outbox_ (store s') !! event_id ev = Some o' /\ so_status o' = mark (submit events).
Proof.
  revert r s' Hr. refine (fun r s' => alone_post_sound _ (fun r s' => _ \/ _) s r s' _). unfold poll_and_dispatch. destruct (batch =? 0); [by left|].
  apply alone_post_bind, with_work_post. unfold FilesOutboxRepository.fetch_pending_events. apply wp_bind, wp_query, wp_result.
  destruct (map_result _ _) as [events|] eqn:Hev; [|by left]. destruct (map_result_elem _ _ _ Hev) as [_ Hback].
  assert (Hrow : forall ev, ev ∈ events -> exists o, outbox_ (store s) !! event_id ev = Some o /\ so_status o = "PENDING"%string).
  { intros ev Hin. destruct (Hback ev Hin) as (o & Ho & Hrow). apply pending_rows in Hrow as (Hst & id & Hid). exists o. split; [|done].
    rewrite (outbox_row_inv _ _ Ho), (Hk _ _ Hid). done. }
  destruct events as [|ev events]; [by left|]. apply alone_post_bind. eapply alone_post_mono; [|apply (mark_each_post env He)].
  intros _ s1 [Hout Hin]. right. exists (ev :: events). split_and!; [done|done|exact Hout|]. intros ev' Hl Hne. destruct (Hrow ev' Hl) as (o & Ho & Hst).
  destruct (Hin (event_id ev')) as (o' & Ho' & Hst'); [by apply list_elem_of_fmap_2|done|by eexists|]. by exists o, o'.
Qed.
