(* ===== verification/FilesExamples.v ===== *)
(** * Files: examples

    A service with one file, from its creation to its download, and the histories that
    show the limits of the service. *)

From S2P Require Import Prelude Ids Prog FilesTypes FilesText FilesValidation FilesDb FilesRepo FilesUpload FilesLifecycle FilesServer FilesLogic FilesContracts FilesRuns FilesInv FilesFinalize FilesSpec.

#[local] Open Scope Z_scope.

(** ** A service *)

Module FilesWorld.

Definition env : FilesEnv :=
  mkFilesEnv (fun _ => 1700000000 * 1000000000) (fun n => replicate 9 7 ++ [Z.of_nat n mod 256])
    (fun body => replicate 32 (foldr Z.add 0 body mod 256)) (fun _ => None) (fun _ => "{}"%string).

Lemma files_env_ok : env_ok env.
Proof.
  constructor.
  - intros n. split; (split; [by vm_compute|by vm_compute]).
  - intros n. split; [done|]. cbn [random env]. apply Forall_app. split; [by apply Forall_replicate|].
    repeat constructor; unfold Uuid.is_byte; apply Z.mod_pos_bound; lia.
  - done.
Qed.

Definition start : FilesState := mkFiles empty_storage ∅ ∅ ∅ 0 0.

Lemma start_inv : files_inv env (store start) (objects start).
Proof. by constructor. Qed.

Definition gateway : Peer := Authenticated (Some "gateway"%string).
Definition config : ServerConfig := default_config.
Definition id : string := "00000000-0000-4000-8000-00000000000a".
Definition user : string := "00000000-0000-4000-8000-00000000000b".
Definition body : list Z := [10; 20; 30].

Definition request : CreateFileUploadRequest :=
  mkUploadRequest id user "00000000-0000-4000-8000-00000000000c" EmptyString 3 1 EmptyString (replicate 41 1).

Definition after_create : FilesState := snd (solo (serve_files env config (CallCreate gateway request)) start).

Definition upload_id : string :=
  match fst (solo (CreateFileUpload env config gateway request) start) with Ok r => ur_upload_id r | Err _ => EmptyString end.

Definition chunk : ChunkPayloadDto := mkChunkPayload upload_id 0 body 3 (compute_sha256_hex (sha256 env) body).
Definition finalize : FilesCall := CallFinalize gateway upload_id id EmptyString.

(** Calls one after the other, without failures. *)
Definition run (calls : list FilesCall) (s : FilesState) : FilesState := foldl (fun s call => snd (solo (serve_deployed env config call) s)) s calls.

Lemma run_history calls s : one_by_one (serve_deployed env config) s (run calls s).
Proof. revert s. induction calls as [|call calls IH]; intros s; [constructor|]. cbn. econstructor; [apply solo_alone|apply IH]. Qed.

Definition finished : FilesState := run [CallCreate gateway request; CallUpload gateway chunk; finalize] start.

Lemma reached_inv calls : files_inv env (store (run calls start)) (objects (run calls start)).
Proof.
  apply (one_by_one_keeps (serve_deployed env config) (fun s => files_inv env (store s) (objects s))) with start; [|apply run_history|apply start_inv].
  intros call s I. unfold serve_deployed. destruct (deployed call) eqn:Hd; [|done]. apply serve_inv; [apply files_env_ok|done|done|done].
Qed.

Definition status_of (s : FilesState) : option string := sf_status <$> files_ (store s) !! id.

Lemma status_row s status : status_of s = Some status -> exists f, files_ (store s) !! id = Some f /\ sf_status f = status.
Proof. unfold status_of. destruct (files_ (store s) !! id) as [f|]; [|done]. intros [= <-]. by exists f. Qed.

Lemma one_by_one_run calls s : one_by_one (serve_files env config) s (foldl (fun s call => snd (solo (serve_files env config call) s)) s calls).
Proof. revert s. induction calls as [|call calls IH]; intros s; [constructor|]. cbn. econstructor; [apply solo_alone|apply IH]. Qed.
End FilesWorld.

Import FilesWorld.

(** ** Witnesses *)

Section witnesses.

Lemma available_files_intact_witness :
  exists row body', versions_ (store finished) !! (id, 1) = Some row /\ objects finished !! sv_minio_object_key row = Some body' /\
    sv_checksum_sha256 row = compute_sha256_hex (sha256 env) body'.
Proof.
  destruct (status_row finished "AVAILABLE") as (f & Hf & Hst); [by vm_compute|].
  destruct (proj2 (available_files_intact env config start finished files_env_ok eq_refl start_inv (run_history _ start)) id f Hf Hst) as (row & body' & H1 & H2 & H3 & _).
  exists row, body'. exact (conj H1 (conj H2 H3)).
Defined.

Lemma downloads_reassemble_witness :
  exists row body', versions_ (store finished) !! (id, 1) = Some row /\
    concat ((fun i => cd_encrypted_data (chunk_of env body' i)) <$> seq 0 (chunk_total body')) = body'.
Proof.
  destruct (status_row finished "AVAILABLE") as (f & Hf & Hst); [by vm_compute|].
  destruct (downloads_reassemble env config gateway "gateway" id f finished (reached_inv _) eq_refl eq_refl ltac:(by vm_compute) ltac:(by vm_compute) Hf Hst)
    as (row & body' & H1 & _ & _ & H4 & _). exists row, body'. exact (conj H1 H4).
Defined.


Lemma store_chunk_contract_witness :
  let r := solo (store_chunk env chunk user) after_create in
  exists res, fst r = Ok res /\ res = chunk_stored chunk false /\ chunk_effect chunk (store after_create) (store (snd r)).
Proof.
  intros r. assert (Hr : fst r = Ok (chunk_stored chunk false)) by by vm_compute. exists (chunk_stored chunk false). split_and!; [done..|].
  pose proof (store_chunk_contract env chunk user after_create (fst r) (snd r) files_env_ok (files_inv_keyed env _ _ (reached_inv [CallCreate gateway request]))
    (solo_alone _ _)) as H. rewrite Hr in H. exact (proj1 (proj2 H)).
Defined.

Lemma lifecycle_moves_are_recorded_witness :
  let r := solo (delete_file env id user "x") after_create in
  fst r = Ok true /\ moved_file id FileStatus.Deleted "FILE_DELETED" (store after_create) (store (snd r)).
Proof.
  intros r. assert (Hr : fst r = Ok true) by by vm_compute. split; [exact Hr|].
  assert (Hnot : bool_decide (already_deleted id (store after_create)) = false) by by vm_compute.
  pose proof (proj2 (lifecycle_moves_are_recorded env id user "x" after_create files_env_ok) (fst r) (snd r) (solo_alone _ _)) as (_ & _ & H).
  rewrite Hr in H. destruct (decide (already_deleted id (store after_create))) as [Hd|_]; [|exact H].
  apply (bool_decide_eq_false_1 _ Hnot) in Hd. destruct Hd.
Defined.

Lemma file_life_witness :
  exists f', files_ (store (foldl (fun s call => snd (solo (serve_files env config call) s)) after_create [CallUpload gateway chunk; CallDelete gateway id])) !! id = Some f' /\
    sf_owner_user_id f' = user.
Proof.
  destruct (status_row after_create "CREATED") as (f & Hf & _); [by vm_compute|].
  destruct (file_life env config after_create _ files_env_ok (one_by_one_run [CallUpload gateway chunk; CallDelete gateway id] after_create) id f Hf) as (f' & Hf' & Hsame & _).
  exists f'. split; [exact Hf'|]. destruct Hsame as (_ & Ho & _). assert (Hu : sf_owner_user_id <$> files_ (store after_create) !! id = Some user) by by vm_compute.
  rewrite Hf in Hu. injection Hu as Hu. rewrite Ho. exact Hu.
Defined.

End witnesses.

(** ** Limits *)

(** Two calls at once: a chunk is stored while the file is deleted.  The commit of the
    chunk writes back the row it read before, and the deleted file is uploading again. *)
Theorem deleted_file_comes_back :
  exists deleted later : @Pool FilesState FilesCall unit,
    rtc (pool_step (serve_files env config)) (mkPool [] after_create) deleted /\ rtc (pool_step (serve_files env config)) deleted later /\
    status_of (shared deleted) = Some "DELETED"%string /\ status_of (shared later) = Some "UPLOADING"%string.
Proof.
  set (up := serve_files env config (CallUpload gateway chunk)). set (del := serve_files env config (CallDelete gateway id)).
  set (s1 := snd (advance 14 up after_create)). set (p1 := fst (advance 14 up after_create)).
  set (s2 := snd (advance 100 del s1)). set (q2 := fst (advance 100 del s1)).
  exists (mkPool [(CallUpload gateway chunk, p1); (CallDelete gateway id, q2)] s2),
    (mkPool [(CallUpload gateway chunk, fst (advance 100 p1 s2)); (CallDelete gateway id, q2)] (snd (advance 100 p1 s2))). split_and!.
  - eapply rtc_l; [apply (pool_arrive _ (CallUpload gateway chunk))|]. etransitivity; [exact (advance_pool (serve_files env config) 14 0 (CallUpload gateway chunk) up [(CallUpload gateway chunk, up)] after_create eq_refl)|].
    eapply rtc_l; [apply (pool_arrive _ (CallDelete gateway id))|]. exact (advance_pool (serve_files env config) 100 1 (CallDelete gateway id) del [(CallUpload gateway chunk, p1); (CallDelete gateway id, del)] s1 eq_refl).
  - exact (advance_pool (serve_files env config) 100 0 (CallUpload gateway chunk) p1 [(CallUpload gateway chunk, p1); (CallDelete gateway id, q2)] s2 eq_refl).
  - by vm_compute.
  - by vm_compute.
Qed.

(** A refused batch is marked as failed, and the next polls find nothing to send. *)
Theorem refused_batch_is_not_retried :
  let refused := solo (poll_and_dispatch env (fun _ => false) 10) after_create in
  fst refused = 1 /\ fst (solo (poll_and_dispatch env (fun _ => true) 10) (snd refused)) = 0.
Proof. by vm_compute. Qed.

(** Retention times are compared as text, and a fraction of a second sorts before the
    whole second: a file that is kept for another half second counts as expired. *)
Theorem expires_early :
  let now := 1700000000 * 1000000000 in String.leb (to_iso8601 (now + 500000000)) (to_iso8601 now) = true.
Proof. by vm_compute. Qed.

(** The version that the protocol buffer documents is refused. *)
Theorem documented_encryption_version_refused :
  fst (solo (CreateFileUpload env config gateway
    (mkUploadRequest id user "00000000-0000-4000-8000-00000000000c" EmptyString 3 1 "v1" (replicate 41 1))) start) = Err INVALID_ARGUMENT.
Proof. by vm_compute. Qed.

(** A finalized upload can still be cancelled. *)
Theorem completed_transfer_cancelled :
  let r := solo (CancelFileUpload env config gateway upload_id) finished in
  (st_status <$> transfers_ (store finished) !! upload_id) = Some "COMPLETED"%string /\ fst r = Ok tt /\
  (st_status <$> transfers_ (store (snd r)) !! upload_id) = Some "CANCELLED"%string /\ status_of (snd r) = Some "AVAILABLE"%string.
Proof. by vm_compute. Qed.

(** ** The expiry sweep *)

(** Two files are due.  The sweep takes one file at a time, the oldest first; a file it
    has already expired is still the oldest, so the other one is never reached. *)
Definition kept_until (i : string) (until : Z) : StoredFile :=
  file_row (mkFileEntity i user user None 3 None k_approved_encryption_algorithm FileStatus.Available (Some until) 0 0).

Definition two_due : FilesState :=
  mkFiles (set_files (<["a" := kept_until "a" 1000000000]> (<["b" := kept_until "b" 2000000000]> ∅)) empty_storage) ∅ ∅ ∅ 0 0.

Definition sweep (s : FilesState) : FilesState := snd (solo (serve_files env config (CallExpire 1)) s).
Definition statuses (s : FilesState) : option string * option string := (sf_status <$> files_ (store s) !! "a"%string, sf_status <$> files_ (store s) !! "b"%string).

Theorem expiry_starved :
  statuses (sweep two_due) = (Some "EXPIRED", Some "AVAILABLE")%string /\ store (sweep (sweep two_due)) = store (sweep two_due).
Proof. by vm_compute. Qed.
