(* ===== verification/Http.v ===== *)
(** * HTTP requests, responses and identities at the gateway

    The data the perimeter of the gateway works on: requests and responses of
    cpp-httplib, the verified identity of a caller ([authenticated_context.{hpp,cpp}],
    [token_validation_result.hpp]), the context a request runs in
    ([request_context.{hpp,cpp}]) and the problem details every refusal carries
    ([errors/error_mapper.cpp]).

    cpp-httplib is not part of the repository: a header collection is the list of its
    fields, in the order an iteration visits them, and looking up and adding fields are
    the operations of the class [HttpHeaders], with what its documentation promises as
    laws.  The JSON text of a problem is represented by its fields. *)

From S2P Require Import Prelude Ids AuditValidation.
From Stdlib Require Import Ascii.
#[local] Open Scope Z_scope.

(** ** Header fields *)

Definition Headers : Type := list (string * string).

Definition to_lower_copy (s : string) : string := of_chars (to_lower_string (chars s)).

(** Field names are compared without case. *)
Definition same_name (a b : string) : Prop := to_lower_copy a = to_lower_copy b.

#[export] Instance same_name_dec a b : Decision (same_name a b).
Proof. unfold same_name. apply _. Defined.

#[export] Instance same_name_equiv : Equivalence same_name.
Proof. unfold same_name. split; [intros a|intros a b|intros a b c]; congruence. Qed.

(** A field whose value is refused (it contains a line break) is not added. *)
Class HttpHeaders := {
  has_header : Headers -> string -> bool;
  get_header_value : Headers -> string -> string;
  set_header : string -> string -> Headers -> Headers;
  has_header_spec hs name : has_header hs name = true <-> exists name' v, (name', v) ∈ hs /\ same_name name name';
  get_header_found hs name : has_header hs name = true -> exists name', (name', get_header_value hs name) ∈ hs /\ same_name name name';
  set_header_adds name v hs f : f ∈ set_header name v hs -> f ∈ hs \/ f = (name, v);
  set_header_keeps name v hs f : f ∈ hs -> f ∈ set_header name v hs }.

(** A collection that behaves so: the fields in the order they were added. *)
Module FieldList.

Definition has (hs : Headers) (name : string) : bool := existsb (fun f => bool_decide (same_name name (fst f))) hs.

Definition get (hs : Headers) (name : string) : string :=
  from_option snd EmptyString (List.find (fun f => bool_decide (same_name name (fst f))) hs).

Definition set (name v : string) (hs : Headers) : Headers := hs ++ [(name, v)].

Lemma has_spec hs name : has hs name = true <-> exists name' v, (name', v) ∈ hs /\ same_name name name'.
Proof.
  unfold has. rewrite existsb_exists. split.
  - intros ([name' v] & Hin & Hs). exists name', v. rewrite list_elem_of_In. by apply bool_decide_eq_true in Hs.
  - intros (name' & v & Hin & Hs). exists (name', v). rewrite <- list_elem_of_In. split; [done|]. by apply bool_decide_eq_true.
Qed.

Lemma get_found hs name : has hs name = true -> exists name', (name', get hs name) ∈ hs /\ same_name name name'.
Proof.
  intros Hh. unfold get. destruct (List.find _ hs) as [[name' v]|] eqn:Hf.
  - apply List.find_some in Hf as [Hin Hs]. apply bool_decide_eq_true in Hs. exists name'. cbn. by rewrite list_elem_of_In.
  - exfalso. apply has_spec in Hh as (name' & v & Hin & Hs). apply list_elem_of_In in Hin.
    pose proof (List.find_none _ _ Hf _ Hin) as Hn. cbn in Hn. by apply bool_decide_eq_false in Hn.
Qed.

Lemma set_adds name v hs f : f ∈ set name v hs -> f ∈ hs \/ f = (name, v).
Proof. unfold set. rewrite elem_of_app, list_elem_of_singleton. done. Qed.

Lemma set_keeps name v hs f : f ∈ hs -> f ∈ set name v hs.
Proof. unfold set. rewrite elem_of_app. by left. Qed.

End FieldList.

Definition field_list : HttpHeaders :=
  {| has_header := FieldList.has; get_header_value := FieldList.get; set_header := FieldList.set;
     has_header_spec := FieldList.has_spec; get_header_found := FieldList.get_found;
     set_header_adds := FieldList.set_adds; set_header_keeps := FieldList.set_keeps |}.

(** ** Requests and responses *)

Record Request := mkRequest {
  method : string; path : string; headers : Headers; body : string; remote_addr : string; path_params : gmap string string }.

Definition set_headers (hs : Headers) (req : Request) : Request :=
  mkRequest (method req) (path req) hs (body req) (remote_addr req) (path_params req).
Definition set_path_params (ps : gmap string string) (req : Request) : Request :=
  mkRequest (method req) (path req) (headers req) (body req) (remote_addr req) ps.

(** The problem details of a refusal; absent members are empty. *)
Record ProblemDetails := mkProblem {
  pd_type : string; pd_title : string; pd_status : Z; pd_detail : string; pd_code : string; pd_request_id : string;
  pd_missing_scopes : list string; pd_assurance_error : bool }.

(** What a handler produced is opaque here. *)
Inductive Content := NoContent | Problem (p : ProblemDetails) | Payload (s : string).

Record Response := mkResponse { status : Z; res_headers : Headers; content : Content }.

Definition set_res_headers (hs : Headers) (res : Response) : Response := mkResponse (status res) hs (content res).
Definition respond (code : Z) (c : Content) (res : Response) : Response := mkResponse code (res_headers res) c.

(** ** Error mapper *)

Definition k_type_of (suffix : string) : string := String.append "https://securecloud.internal/errors/" suffix.

Definition http_status_to_default_type (http_status : Z) : string :=
  k_type_of (if http_status =? 400 then "bad-request" else if http_status =? 401 then "unauthenticated"
    else if http_status =? 403 then "forbidden" else if http_status =? 404 then "not-found"
    else if http_status =? 409 then "conflict" else if http_status =? 412 then "precondition-failed"
    else if http_status =? 429 then "rate-limited" else if http_status =? 499 then "client-cancelled"
    else if http_status =? 501 then "not-implemented" else if http_status =? 503 then "service-unavailable"
    else if http_status =? 504 then "gateway-timeout" else "internal-error").

Definition http_status_to_default_title (http_status : Z) : string :=
  if http_status =? 400 then "Bad Request" else if http_status =? 401 then "Unauthorized"
  else if http_status =? 403 then "Forbidden" else if http_status =? 404 then "Not Found"
  else if http_status =? 409 then "Conflict" else if http_status =? 412 then "Precondition Failed"
  else if http_status =? 429 then "Too Many Requests" else if http_status =? 499 then "Client Closed Request"
  else if http_status =? 501 then "Not Implemented" else if http_status =? 503 then "Service Unavailable"
  else if http_status =? 504 then "Gateway Timeout" else "Internal Server Error".

Definition if_empty (s alternative : string) : string := if bool_decide (s = EmptyString) then alternative else s.

Definition format_problem_details (http_status : Z) (type_uri title detail error_code request_id : string) : ProblemDetails :=
  mkProblem (if_empty type_uri (http_status_to_default_type http_status)) (if_empty title (http_status_to_default_title http_status))
    http_status detail (if_empty error_code "INTERNAL_ERROR") request_id [] false.

Definition format_error_json (code message request_id : string) (http_status : Z) : ProblemDetails :=
  format_problem_details http_status (http_status_to_default_type http_status) (http_status_to_default_title http_status)
    message code request_id.

Definition write_error (http_status : Z) (code message request_id : string) : Response -> Response :=
  respond http_status (Problem (format_error_json code message request_id http_status)).

(** ** Identities *)

(** [securecloud::auth::v1::AuthenticationLevel]; an enumeration of proto3 may hold any
    number. *)
Definition AUTHENTICATION_LEVEL_UNSPECIFIED : Z := 0.
Definition AUTHENTICATION_LEVEL_PRIMARY : Z := 1.
Definition AUTHENTICATION_LEVEL_MFA_VERIFIED : Z := 2.

Record AuthenticatedContext := mkContext {
  user_id : string; device_id : string; session_id : string; auth_level : Z; scopes : list string; expires_at_epoch_ms : Z }.

#[export] Instance AuthenticatedContext_eq_dec : EqDecision AuthenticatedContext.
Proof. solve_decision. Defined.

Definition is_mfa_verified (ctx : AuthenticatedContext) : bool := auth_level ctx =? AUTHENTICATION_LEVEL_MFA_VERIFIED.

Definition is_expired (ctx : AuthenticatedContext) (current_epoch_ms : Z) : bool :=
  if expires_at_epoch_ms ctx <=? 0 then false else expires_at_epoch_ms ctx <=? current_epoch_ms.

Definition is_valid_at (ctx : AuthenticatedContext) (current_epoch_ms : Z) : bool := negb (is_expired ctx current_epoch_ms).

Inductive TokenValidationErrorKind :=
  | TokenExpired | SessionRevoked | InvalidSignature | MfaRequired | InsufficientScope | ServiceUnavailable | MalformedToken
  | InternalError.

Record TokenValidationError := mkTokenError { te_kind : TokenValidationErrorKind; te_message : string }.

(** ** The context of a request

    Two thread-local pointers: the request the thread serves, and the identity
    [AuthenticationMiddleware] verified. *)

Record RequestContext := mkRequestContext {
  rc_request_id : string; rc_client_ip : string; rc_timestamp_ms : Z; rc_auth_context : option AuthenticatedContext }.

Record ThreadLocals := mkThread {
  tl_current_request_context : option RequestContext; tl_current_authenticated_context : option AuthenticatedContext }.

Definition no_context : ThreadLocals := mkThread None None.
