(* ===== verification/Credentials.v ===== *)
(** * Bearer tokens, scopes and identity headers

    What the gateway reads off a request before it trusts anything:
    [auth/bearer_token_extractor.cpp], [auth/scope_matcher.cpp] and
    [auth/header_sanitizer.cpp] of [src/gateway/http].  Each is compared with a
    specification that does not mention the way the code searches: the grammar of an
    [Authorization] header, the meaning of a scope with a wildcard. *)

From S2P Require Import Prelude Ids AuditValidation Http.
From Stdlib Require Import Ascii.
#[local] Open Scope Z_scope.

(** ** Scopes *)

Definition matches (granted_scope required_scope : string) : bool :=
  let granted := chars granted_scope in let required := chars required_scope in
  if bool_decide (granted = []) || bool_decide (required = []) then false
  else if bool_decide (granted = chars "*") then true
  else if bool_decide (granted = required) then true
  else if (3 <=? length granted)%nat && bool_decide (drop (length granted - 2) granted = chars ":*") then
    let granted_domain := take (length granted - 2) granted in
    if bool_decide (granted_domain = []) || bool_decide ("*"%char ∈ granted_domain) then false
    else (length granted_domain + 1 <? length required)%nat && bool_decide (take (length granted_domain) required = granted_domain)
         && bool_decide (required !! length granted_domain = Some ":"%char)
  else false.

Definition has_scope (granted_scopes : list string) (required_scope : string) : bool :=
  if bool_decide (required_scope = EmptyString) then false else existsb (fun granted => matches granted required_scope) granted_scopes.

Definition has_all_scopes (granted_scopes required_scopes : list string) : bool :=
  forallb (fun required => has_scope granted_scopes required) required_scopes.

Definition has_any_scope (granted_scopes alternative_scopes : list string) : bool :=
  if bool_decide (alternative_scopes = []) then true else existsb (fun alternative => has_scope granted_scopes alternative) alternative_scopes.

Definition find_missing_scopes (granted_scopes required_scopes : list string) : list string :=
  List.filter (fun required => negb (has_scope granted_scopes required)) required_scopes.

(** What a granted scope stands for: everything, itself, or the actions of a domain. *)
Definition grants (granted required : string) : Prop :=
  required <> EmptyString /\
  (granted = "*"%string \/ granted = required \/
   exists domain action, granted = String.append domain ":*" /\ domain <> EmptyString /\ ("*"%char ∉ chars domain) /\
     action <> EmptyString /\ required = String.append domain (String.append ":" action)).

Lemma chars_nil s : chars s = [] <-> s = EmptyString.
Proof. split; [|by intros ->]. intros H. by apply chars_inj. Qed.

Lemma split_last2 (l : list ascii) x y :
  (3 <= length l)%nat -> drop (length l - 2) l = [x; y] -> l = take (length l - 2) l ++ [x; y] /\ take (length l - 2) l <> [].
Proof.
  intros Hl Hd. split; [by rewrite <- Hd, take_drop|]. intros H. apply (f_equal length) in H. rewrite length_take in H. cbn in H. lia.
Qed.

Lemma after_prefix (d r : list ascii) c :
  take (length d) r = d -> r !! length d = Some c -> r = d ++ c :: drop (S (length d)) r.
Proof. intros Ht Hc. rewrite <- (take_drop_middle _ _ _ Hc) at 1. by rewrite Ht. Qed.

(** The matcher decides what the syntax of scopes means. *)
Lemma matches_spec granted required : matches granted required = true <-> grants granted required.
Proof.
  unfold matches, grants. split.
  - intros H. case_bool_decide as Hg; [done|]. case_bool_decide as Hr; [done|]. cbn [orb] in H.
    split; [by rewrite <- chars_nil|]. case_bool_decide as Hs; [left; by apply chars_inj|]. case_bool_decide as He; [right; left; by apply chars_inj|].
    right; right. destruct (Nat.leb_spec 3 (length (chars granted))) as [Hl|]; [|done]. cbn [andb] in H. case_bool_decide as Hd; [|done].
    destruct (split_last2 _ _ _ Hl Hd) as [Hsplit Hne]. set (d := take (length (chars granted) - 2) (chars granted)) in *.
    destruct (bool_decide (d = [])) eqn:Hd0; [done|]. case_bool_decide as Hstar; [done|]. cbn [orb] in H.
    apply andb_true_iff in H as [[Hlt%Nat.ltb_lt Ht%bool_decide_eq_true]%andb_true_iff Hc%bool_decide_eq_true].
    exists (of_chars d), (of_chars (drop (S (length d)) (chars required))). rewrite chars_of_chars. split_and!; [|..|done| |].
    + apply chars_inj. by rewrite chars_append, chars_of_chars, Hsplit at 1.
    + intros Hn. apply Hne. rewrite <- (chars_of_chars d), Hn. done.
    + intros Hn. apply (f_equal chars), (f_equal length) in Hn. rewrite chars_of_chars, length_drop in Hn. cbn in Hn. lia.
    + apply chars_inj. rewrite !chars_append, !chars_of_chars. by apply after_prefix.
  - intros (Hr & Hcase). assert (Hr' : chars required <> []) by by rewrite chars_nil.
    rewrite (bool_decide_eq_false_2 (chars required = [])) by done. destruct Hcase as [->|[->|(d & a & -> & Hd & Hstar & Ha & ->)]].
    + done.
    + rewrite bool_decide_eq_false_2 by done. cbn [orb]. case_bool_decide; [done|]. by rewrite bool_decide_eq_true_2.
    + assert (Hdl : (0 < length (chars d))%nat) by (destruct (chars d) eqn:E; [by apply chars_nil in E|cbn; lia]).
      rewrite !chars_append. change (chars ":*") with [":"; "*"]%char. change (chars ":") with [":"]%char.
      rewrite bool_decide_eq_false_2 by (destruct (chars d); done). cbn [orb]. do 2 (case_bool_decide; [done|]).
      rewrite length_app. cbn [length]. rewrite (proj2 (Nat.leb_le _ _)) by lia. replace (length (chars d) + 2 - 2)%nat with (length (chars d)) by lia.
      rewrite take_app_length, drop_app_length, bool_decide_eq_true_2 by done. cbn [andb].
      rewrite (bool_decide_eq_false_2 (chars d = [])) by (by rewrite chars_nil). rewrite bool_decide_eq_false_2 by done. cbn [orb].
      rewrite take_app_length, bool_decide_eq_true_2, lookup_app_r, Nat.sub_diag by done. cbn. rewrite andb_true_r, andb_true_r, length_app. cbn [length].
      apply Nat.ltb_lt. destruct (chars a) eqn:E; [by apply chars_nil in E|cbn; lia].
Qed.

Lemma has_scope_spec granted required : has_scope granted required = true <-> exists g, g ∈ granted /\ grants g required.
Proof.
  unfold has_scope. case_bool_decide as He.
  - split; [done|]. by intros (g & _ & Hn & _).
  - rewrite existsb_exists. setoid_rewrite matches_spec. by setoid_rewrite <- list_elem_of_In.
Qed.

Lemma has_all_scopes_spec granted required :
  has_all_scopes granted required = true <-> forall r, r ∈ required -> exists g, g ∈ granted /\ grants g r.
Proof.
  unfold has_all_scopes. rewrite forallb_forall. setoid_rewrite has_scope_spec. by setoid_rewrite <- list_elem_of_In.
Qed.

Lemma has_any_scope_spec granted alternatives :
  alternatives <> [] -> has_any_scope granted alternatives = true <-> exists r g, r ∈ alternatives /\ g ∈ granted /\ grants g r.
Proof.
  intros Hne. unfold has_any_scope. rewrite bool_decide_eq_false_2 by done. rewrite existsb_exists. setoid_rewrite has_scope_spec.
  setoid_rewrite <- list_elem_of_In. naive_solver.
Qed.

(** A refusal names exactly the scopes that are missing. *)
Lemma find_missing_scopes_spec granted required r :
  r ∈ find_missing_scopes granted required <-> r ∈ required /\ ~ exists g, g ∈ granted /\ grants g r.
Proof.
  unfold find_missing_scopes. rewrite list_elem_of_In, List.filter_In, <- list_elem_of_In, negb_true_iff.
  rewrite <- not_true_iff_false, has_scope_spec. done.
Qed.

Lemma missing_none granted required : find_missing_scopes granted required = [] <-> has_all_scopes granted required = true.
Proof.
  rewrite has_all_scopes_spec. split.
  - intros H r Hr. destruct (decide (has_scope granted r = true)) as [Hs|Hs]; [by apply has_scope_spec|]. exfalso.
    rewrite has_scope_spec in Hs. assert (Hin : r ∈ find_missing_scopes granted required) by by apply find_missing_scopes_spec.
    rewrite H in Hin. by apply elem_of_nil in Hin.
  - intros H. apply elem_of_nil_inv. intros r [Hr Hn]%find_missing_scopes_spec. by apply Hn, H.
Qed.

(** ** Bearer tokens *)

Inductive TokenExtractionErrorKind := MissingAuthorizationHeader | InvalidScheme | EmptyToken | TokenMalformed | TokenTooLarge.

Definition k_authorization_header : string := "Authorization".
Definition k_bearer_scheme : string := "Bearer".
Definition k_max_token_length : Z := 4096.

Definition blank (c : ascii) : bool := bool_decide (c ∈ [" "; "009"; "013"; "010"]%char).

Fixpoint trim_front (sv : list ascii) : list ascii :=
  match sv with [] => [] | c :: rest => if blank c then trim_front rest else sv end.

Definition trim_whitespace (sv : list ascii) : list ascii := rev (trim_front (rev (trim_front sv))).

Definition iequals_scheme (actual expected : list ascii) : bool :=
  if negb (length actual =? length expected)%nat then false
  else forallb (fun p => bool_decide (tolower (fst p) = tolower (snd p))) (zip actual expected).

Definition is_valid_b64token_char (c : ascii) : bool := isalnum c || bool_decide (c ∈ ["-"; "."; "_"; "~"; "+"; "/"; "="]%char).

(** [find_first_of(" \t")]: what is before the separator and from it on. *)
Fixpoint split_separator (sv : list ascii) : option (list ascii * list ascii) :=
  match sv with
  | [] => None
  | c :: rest =>
      if bool_decide (c ∈ [" "; "009"]%char) then Some ([], sv)
      else match split_separator rest with Some (scheme, token_part) => Some (c :: scheme, token_part) | None => None end
  end.

Definition extract_from_header (header_value : string) : result TokenExtractionErrorKind string :=
  let trimmed := trim_whitespace (chars header_value) in
  if bool_decide (trimmed = []) then Err MissingAuthorizationHeader
  else
    match split_separator trimmed with
    | None => if iequals_scheme trimmed (chars k_bearer_scheme) then Err EmptyToken else Err InvalidScheme
    | Some (scheme, token_part) =>
        if negb (iequals_scheme scheme (chars k_bearer_scheme)) then Err InvalidScheme
        else
          let token_part := trim_whitespace token_part in
          if bool_decide (token_part = []) then Err EmptyToken
          else if k_max_token_length <? Z.of_nat (length token_part) then Err TokenTooLarge
          else if negb (forallb is_valid_b64token_char token_part) then Err TokenMalformed
          else Ok (of_chars token_part)
    end.

Definition extract `{HttpHeaders} (hs : Headers) : result TokenExtractionErrorKind string :=
  if negb (has_header hs k_authorization_header) then Err MissingAuthorizationHeader
  else extract_from_header (get_header_value hs k_authorization_header).

(** The grammar: blanks, the scheme in any case, a separator, the token, blanks. *)
Definition bearer_header (header token : string) : Prop :=
  exists before scheme c sep after,
    chars header = before ++ scheme ++ (c :: sep) ++ chars token ++ after /\
    Forall blank before /\ to_lower_string scheme = chars "bearer" /\ (c ∈ [" "; "009"]%char) /\ Forall blank sep /\ Forall blank after /\
    token <> EmptyString /\ Z.of_nat (length (chars token)) <= k_max_token_length /\ Forall is_valid_b64token_char (chars token).

Lemma trim_front_spec l : exists p, l = p ++ trim_front l /\ Forall blank p.
Proof.
  induction l as [|c l (p & Hp & Hb)]; [by exists []|]. cbn [trim_front]. destruct (blank c) eqn:Hc.
  - exists (c :: p). cbn. split; [by rewrite <- Hp|]. constructor; [by rewrite Hc|done].
  - by exists [].
Qed.

Lemma trim_front_blanks p l : Forall blank p -> trim_front (p ++ l) = trim_front l.
Proof. induction 1 as [|c p Hc _ IH]; [done|]. cbn. apply Is_true_true in Hc as ->. done. Qed.

Lemma trim_front_id l : (forall c, head l = Some c -> blank c = false) -> trim_front l = l.
Proof. destruct l as [|c l]; [done|]. intros Hc. cbn. by rewrite Hc. Qed.

Lemma trim_spec l : exists p q, l = p ++ trim_whitespace l ++ q /\ Forall blank p /\ Forall blank q.
Proof.
  destruct (trim_front_spec l) as (p & Hp & Hbp). destruct (trim_front_spec (rev (trim_front l))) as (q & Hq & Hbq).
  exists p, (rev q). unfold trim_whitespace. split_and!; [|done|by apply Forall_rev].
  rewrite Hp at 1. f_equal. by rewrite <- rev_app_distr, <- Hq, rev_involutive.
Qed.

Lemma head_rev_last {A} (l : list A) : head (rev l) = last l.
Proof. induction l as [|x l _] using rev_ind; [done|]. by rewrite rev_app_distr, last_snoc. Qed.

Lemma trim_between p l q :
  Forall blank p -> Forall blank q -> (forall c, head l = Some c -> blank c = false) -> (forall c, last l = Some c -> blank c = false) ->
  trim_whitespace (p ++ l ++ q) = l.
Proof.
  intros Hp Hq Hh Hl. unfold trim_whitespace. rewrite trim_front_blanks by done. destruct l as [|c l].
  - cbn. assert (Hn : trim_front q = []) by (rewrite <- (app_nil_r q), trim_front_blanks; done). by rewrite Hn.
  - rewrite (trim_front_id ((c :: l) ++ q)) by done. rewrite rev_app_distr, trim_front_blanks by (by apply Forall_rev).
    rewrite trim_front_id; [by rewrite rev_involutive|]. intros d. rewrite head_rev_last. apply Hl.
Qed.


Lemma split_separator_spec l scheme part :
  split_separator l = Some (scheme, part) <->
  l = scheme ++ part /\ (exists c rest, part = c :: rest /\ c ∈ [" "; "009"]%char) /\ Forall (fun c => c ∉ [" "; "009"]%char) scheme.
Proof.
  revert scheme part. induction l as [|c l IH]; intros scheme part; cbn [split_separator].
  - split; [done|]. intros (H & (c & rest & -> & _) & _). by destruct scheme.
  - case_bool_decide as Hc.
    + split; [intros [= <- <-]; eauto 10|]. intros (H & (d & rest & -> & Hd) & Hs). destruct scheme as [|e scheme]; [by simplify_eq/=|].
      injection H as <- _. by apply Forall_cons in Hs as [? _].
    + destruct (split_separator l) as [[s p]|] eqn:E.
      * split; [intros [= <- <-]|intros (H & Hp & Hs)].
        -- destruct (proj1 (IH s p) eq_refl) as (-> & ? & ?). split_and!; [done..|]. by constructor.
        -- destruct scheme as [|e scheme]; [destruct Hp as (d & rest & -> & Hd); by simplify_eq/=|]. injection H as <- ->.
           apply Forall_cons in Hs as [_ Hs]. pose proof (proj2 (IH scheme part) ltac:(done)) as H'. by simplify_eq.
      * split; [done|]. intros (H & Hp & Hs). destruct scheme as [|e scheme]; [destruct Hp as (d & rest & -> & Hd); by simplify_eq/=|].
        injection H as <- ->. apply Forall_cons in Hs as [_ Hs]. pose proof (proj2 (IH scheme part) ltac:(done)) as H'. by simplify_eq.
Qed.

Lemma iequals_scheme_spec actual expected :
  iequals_scheme actual expected = true <-> to_lower_string actual = to_lower_string expected.
Proof.
  unfold iequals_scheme, to_lower_string. revert expected. induction actual as [|a actual IH]; intros [|e expected]; cbn; try done.
  specialize (IH expected). destruct (length actual =? length expected)%nat; cbn [negb] in *.
  - rewrite andb_true_iff, bool_decide_eq_true, IH. split; [by intros [-> ->]|]. intros [= ? ?]. done.
  - split; [done|]. intros [= _ H]. by apply IH in H.
Qed.

Lemma scheme_plain scheme : to_lower_string scheme = chars "bearer" -> Forall (fun c => blank c = false) scheme.
Proof.
  intros H. apply Forall_forall. intros c Hc. assert (Hl : tolower c ∈ chars "bearer") by (rewrite <- H; by apply list_elem_of_fmap_2).
  destruct (blank c) eqn:Hb; [|done]. exfalso. apply bool_decide_eq_true in Hb. revert Hb Hl.
  rewrite !elem_of_cons, elem_of_nil. intros [->|[->|[->|[->|[]]]]] Hl; apply (bool_decide_eq_true_2 _) in Hl; by vm_compute in Hl.
Qed.

Lemma token_plain token : Forall is_valid_b64token_char token -> Forall (fun c => blank c = false) token.
Proof.
  intros H. eapply Forall_impl; [exact H|]. intros c Hc. destruct (blank c) eqn:Hb; [|done]. exfalso. apply bool_decide_eq_true in Hb.
  revert Hb Hc. rewrite !elem_of_cons, elem_of_nil. by intros [->|[->|[->|[->|[]]]]].
Qed.

Lemma plain_ends (l : list ascii) :
  Forall (fun c => blank c = false) l -> (forall c, head l = Some c -> blank c = false) /\ (forall c, last l = Some c -> blank c = false).
Proof.
  intros H. rewrite Forall_forall in H. split; intros c Hc; apply H; [by apply head_Some_elem_of|by apply last_Some_elem_of].
Qed.

Lemma separator_blank c : c ∈ [" "; "009"]%char -> blank c = true.
Proof. intros H. apply bool_decide_eq_true. revert H. rewrite !elem_of_cons. tauto. Qed.

Lemma extract_from_header_sound header token : extract_from_header header = Ok token -> bearer_header header token.
Proof.
  unfold extract_from_header. destruct (trim_spec (chars header)) as (p & q & Heq & Hp & Hq).
  set (trimmed := trim_whitespace (chars header)) in *. case_bool_decide; [done|].
  destruct (split_separator trimmed) as [[scheme part]|] eqn:Hs; [|by case_match].
  apply split_separator_spec in Hs as (Htr & (c & rest & -> & Hc) & _).
  destruct (iequals_scheme scheme _) eqn:Hi; [|done]. cbn [negb]. apply iequals_scheme_spec in Hi.
  assert (Ht : trim_whitespace (c :: rest) = trim_whitespace rest).
  { unfold trim_whitespace at 1. cbn [trim_front]. by rewrite (separator_blank _ Hc). }
  rewrite Ht. destruct (trim_spec rest) as (p2 & q2 & Heq2 & Hp2 & Hq2). case_bool_decide as Hne; [done|].
  destruct (Z.ltb_spec k_max_token_length (Z.of_nat (length (trim_whitespace rest)))) as [|Hlen]; [done|].
  destruct (forallb is_valid_b64token_char (trim_whitespace rest)) eqn:Hv; [|done]. cbn [negb]. intros [= <-].
  exists p, scheme, c, p2, (q2 ++ q). rewrite chars_of_chars. split_and!; try done.
  - rewrite Heq, Htr, Heq2 at 1. by rewrite <- !app_assoc, <- app_comm_cons, <- !app_assoc.
  - by apply Forall_app.
  - intros H'. apply Hne. by rewrite <- (chars_of_chars (trim_whitespace rest)), H'.
  - apply Forall_forall. intros d Hd. rewrite forallb_forall in Hv. rewrite Hv; [done|]. by apply list_elem_of_In.
Qed.

Lemma extract_from_header_complete header token : bearer_header header token -> extract_from_header header = Ok token.
Proof.
  intros (p & scheme & c & sep & q & Heq & Hp & Hs & Hc & Hsep & Hq & Hne & Hlen & Hv). unfold extract_from_header.
  assert (Hscheme : scheme <> []) by (by intros ->).
  assert (Htok : chars token <> []) by (by rewrite chars_nil).
  assert (Htrim : trim_whitespace (chars header) = scheme ++ (c :: sep) ++ chars token).
  { rewrite Heq. replace (scheme ++ (c :: sep) ++ chars token ++ q) with ((scheme ++ (c :: sep) ++ chars token) ++ q) by (by rewrite <- !app_assoc).
    apply trim_between; [done|done|..]; intros d Hd.
    - destruct scheme as [|e scheme]; [done|]. exact (proj1 (plain_ends _ (scheme_plain _ Hs)) _ Hd).
    - rewrite app_assoc, last_app in Hd. destruct (last (chars token)) as [e|] eqn:He; [|by apply last_None in He].
      simplify_eq/=. exact (proj2 (plain_ends _ (token_plain _ Hv)) _ He). }
  rewrite Htrim, bool_decide_eq_false_2 by (by destruct scheme).
  rewrite (proj2 (split_separator_spec _ scheme ((c :: sep) ++ chars token))).
  2:{ split_and!; [done|cbn; eauto|]. eapply Forall_impl; [exact (scheme_plain _ Hs)|]. intros d Hd Hin. apply separator_blank in Hin. simpl in *. congruence. }
  rewrite (proj2 (iequals_scheme_spec _ _)) by (by rewrite Hs). cbn [negb].
  assert (Htp : trim_whitespace ((c :: sep) ++ chars token) = chars token).
  { rewrite <- (app_nil_r (chars token)) at 1. apply trim_between; [constructor; [by rewrite separator_blank|done]|done|..]; apply (plain_ends _ (token_plain _ Hv)). }
  rewrite Htp, bool_decide_eq_false_2 by done. rewrite (proj2 (Z.ltb_ge _ _)) by done.
  rewrite (proj2 (forallb_forall _ _)); [by rewrite of_chars_chars|]. intros d Hd%list_elem_of_In. rewrite Forall_forall in Hv. by apply Is_true_true, Hv.
Qed.

(** ** Identity headers *)

Definition identity_headers : list string :=
  ["x-user-id"; "x-device-id"; "x-auth-level"; "x-scopes"; "x-session-id"; "x-authenticated-user"; "x-authenticated-device";
   "x-authenticated-scope"; "x-authenticated-scopes"; "x-authenticated-level"]%string.

Definition is_identity_header (header_name : string) : bool :=
  let lower := to_lower_string (chars header_name) in
  if existsb (fun name => bool_decide (lower = chars name)) identity_headers then true
  else starts_with (chars "x-authenticated-") lower || starts_with (chars "x-securecloud-identity-") lower.

Definition sanitize (hs : Headers) : Headers := List.filter (fun f => negb (is_identity_header (fst f))) hs.

Lemma sanitize_spec hs f : f ∈ sanitize hs <-> f ∈ hs /\ is_identity_header (fst f) = false.
Proof. unfold sanitize. by rewrite list_elem_of_In, List.filter_In, <- list_elem_of_In, negb_true_iff. Qed.

(** The case of a name does not matter. *)
Lemma is_identity_header_same a b : same_name a b -> is_identity_header a = is_identity_header b.
Proof.
  unfold same_name, to_lower_copy, is_identity_header. intros H. apply (f_equal chars) in H. rewrite !chars_of_chars in H. by rewrite H.
Qed.

Lemma sanitize_removes `{HttpHeaders} hs name : is_identity_header name = true -> has_header (sanitize hs) name = false.
Proof.
  intros Hi. apply not_true_iff_false. rewrite has_header_spec. intros (name' & v & [_ Hf]%sanitize_spec & Hs). cbn in Hf.
  rewrite <- (is_identity_header_same _ _ Hs) in Hf. congruence.
Qed.

(** ** Properties *)

(** The matcher of scopes decides exactly what a granted scope stands for: every
    scope for the global wildcard, itself for a plain scope, and for a domain wildcard
    every scope of that domain with a non-empty action; and the refusal of a request
    lists exactly the required scopes that no granted scope stands for. *)
Theorem scope_matching_means :
  (forall granted required, matches granted required = true <-> grants granted required) /\
  (forall granted required, has_all_scopes granted required = true <-> forall r, r ∈ required -> exists g, g ∈ granted /\ grants g r) /\
  (forall granted required r, r ∈ find_missing_scopes granted required <-> r ∈ required /\ ~ exists g, g ∈ granted /\ grants g r) /\
  (forall granted required, find_missing_scopes granted required = [] <-> has_all_scopes granted required = true).
Proof.
  split_and!; [apply matches_spec|apply has_all_scopes_spec|apply find_missing_scopes_spec|apply missing_none].
Qed.

(** A token is extracted from an [Authorization] header exactly when the header
    has the form blanks, the word Bearer in any case, a space or tab and further blanks, a
    token of 1 to 4096 characters of the b64token alphabet, blanks; and the result is
    that token.  So a token never contains a blank, a line break or the separator of the
    validation cache. *)
Theorem bearer_grammar header token : extract_from_header header = Ok token <-> bearer_header header token.
Proof. split; [apply extract_from_header_sound|apply extract_from_header_complete]. Qed.
