(* ===== verification/RoutePolicy.v ===== *)
(** * The security policy of the gateway's routes

    Models [src/gateway/http/auth/gateway_security_policy.{hpp,cpp}]: rules registered
    for exact paths, for patterns with parameters and for prefixes; the evaluation of a
    request against them; and the rules of the deployed gateway.  The shared mutex
    serialises registration, and nothing registers after start-up.

    A pattern is compiled to a regular expression that contains only literal characters,
    the group [([^/]+)] and, since the code does not escape it, the alternation bar. *)

From S2P Require Import Prelude Ids AuditValidation Http Credentials.
From Stdlib Require Import Ascii Sorted.
#[local] Open Scope Z_scope.

(** ** Patterns *)

Inductive Token := Lit (c : ascii) | Group | Bar.

Definition name_char (c : ascii) : bool := isalnum c || bool_decide (c = "_"%char).

Fixpoint span (f : ascii -> bool) (l : list ascii) : list ascii * list ascii :=
  match l with
  | [] => ([], [])
  | c :: rest => if f c then let '(a, b) := span f rest in (c :: a, b) else ([], l)
  end.

(** [path.find('}', i)]: the name before the brace and what follows it. *)
Fixpoint until_brace (l : list ascii) : option (list ascii * list ascii) :=
  match l with
  | [] => None
  | c :: rest =>
      if bool_decide (c = "}"%char) then Some ([], rest)
      else match until_brace rest with Some (a, b) => Some (c :: a, b) | None => None end
  end.

(** The loop over the pattern; it takes at least one character in each turn. *)
Fixpoint compile_loop (fuel : nat) (path : list ascii) : list Token * list string :=
  match fuel, path with
  | S fuel, c :: rest =>
      if bool_decide (c = ":"%char) && match rest with d :: _ => name_char d | [] => false end then
        let '(name, rest) := span name_char rest in
        let '(regex, param_names) := compile_loop fuel rest in (Group :: regex, of_chars name :: param_names)
      else if bool_decide (c = "{"%char) then
        match until_brace rest with
        | Some (name, rest) => let '(regex, param_names) := compile_loop fuel rest in (Group :: regex, of_chars name :: param_names)
        | None => let '(regex, param_names) := compile_loop fuel rest in (Lit c :: regex, param_names)
        end
      else let '(regex, param_names) := compile_loop fuel rest in
           ((if bool_decide (c = "|"%char) then Bar else Lit c) :: regex, param_names)
  | _, _ => ([], [])
  end.

Definition compile_pattern (path : string) : list Token * list string := compile_loop (length (chars path)) (chars path).
Definition compile_pattern_regex (path : string) : list Token := fst (compile_pattern path).

(** ** Matching

    [std::regex_match] wants the whole text.  A group takes as many characters as it can
    and gives back until the rest matches; alternatives are tried from the left, and the
    groups of the others are empty. *)

Fixpoint alternatives (regex : list Token) : list (list Token) :=
  match regex with
  | [] => [[]]
  | Bar :: regex => [] :: alternatives regex
  | t :: regex => match alternatives regex with [] => [[t]] | alt :: alts => (t :: alt) :: alts end
  end.

(** The first answer for [n], [n - 1], ..., [1]. *)
Fixpoint greedy {A} (f : nat -> option A) (n : nat) : option A :=
  match n with O => None | S n' => match f n with Some a => Some a | None => greedy f n' end end.

Definition not_slash (c : ascii) : bool := bool_decide (c <> "/"%char).

Fixpoint match_tokens (regex : list Token) (text : list ascii) : option (list string) :=
  match regex with
  | [] => if bool_decide (text = []) then Some [] else None
  | Group :: regex =>
      greedy (fun n => match match_tokens regex (drop n text) with Some caps => Some (of_chars (take n text) :: caps) | None => None end)
        (length (fst (span not_slash text)))
  | Lit c :: regex => match text with d :: text => if bool_decide (c = d) then match_tokens regex text else None | [] => None end
  | Bar :: _ => None
  end.

Definition groups (regex : list Token) : nat := length (List.filter (fun t => match t with Group => true | _ => false end) regex).

Fixpoint match_alternatives (before : nat) (alts : list (list Token)) (text : list ascii) : option (list string) :=
  match alts with
  | [] => None
  | alt :: alts =>
      match match_tokens alt text with
      | Some caps => Some (replicate before EmptyString ++ caps ++ replicate (sum_list_with groups alts) EmptyString)
      | None => match_alternatives (before + groups alt) alts text
      end
  end.

Definition regex_match (text : string) (regex : list Token) : option (list string) :=
  match_alternatives 0 (alternatives regex) (chars text).

Definition is_parameterized_pattern (path : string) : bool :=
  bool_decide (":"%char ∈ chars path) || bool_decide ("{"%char ∈ chars path).

(** ** Rules *)

Inductive RouteAccess := Public | Protected | Sensitive.

#[export] Instance RouteAccess_eq_dec : EqDecision RouteAccess.
Proof. solve_decision. Defined.

Record RouteSecurityRule := mkRule {
  access : RouteAccess; min_auth_level : Z; required_scopes : list string; alternative_scopes : list string;
  require_device_bound : bool }.

#[export] Instance RouteSecurityRule_eq_dec : EqDecision RouteSecurityRule.
Proof. solve_decision. Defined.

Definition is_public (rule : RouteSecurityRule) : bool := bool_decide (access rule = Public).

Definition requires_mfa (rule : RouteSecurityRule) : bool :=
  bool_decide (access rule = Sensitive) || (min_auth_level rule =? AUTHENTICATION_LEVEL_MFA_VERIFIED).

(** The scopes of a rule: all the required ones, or one of the alternatives. *)
Definition scopes_satisfied (rule : RouteSecurityRule) (granted : list string) : bool :=
  let satisfied :=
    if negb (bool_decide (required_scopes rule = [])) then has_all_scopes granted (required_scopes rule)
    else bool_decide (alternative_scopes rule = []) in
  if negb satisfied && negb (bool_decide (alternative_scopes rule = [])) then has_any_scope granted (alternative_scopes rule) else satisfied.

Definition satisfies (rule : RouteSecurityRule) (ctx : AuthenticatedContext) : bool :=
  if is_public rule then true
  else if requires_mfa rule && negb (is_mfa_verified ctx) then false
  else if auth_level ctx <? min_auth_level rule then false
  else if require_device_bound rule && bool_decide (device_id ctx = EmptyString) then false
  else scopes_satisfied rule (scopes ctx).

(** ** The policy *)

Record PrefixRule := mkPrefixRule { pr_method : string; pr_prefix : string; pr_rule : RouteSecurityRule }.
Record ParameterizedRule := mkParamRule { pm_method : string; pm_pattern : string; pm_regex : list Token; pm_rule : RouteSecurityRule }.

Record GatewaySecurityPolicy := mkPolicy {
  exact_rules : gmap string RouteSecurityRule; prefix_rules : list PrefixRule; parameterized_rules : list ParameterizedRule }.

Definition empty_policy : GatewaySecurityPolicy := mkPolicy ∅ [] [].

(** [find('?')], leading and trailing slash. *)
Definition strip_query (l : list ascii) : list ascii := fst (span (fun c => bool_decide (c <> "?"%char)) l).

Definition normalize_path (raw_path : string) : string :=
  if bool_decide (raw_path = EmptyString) then "/"%string
  else
    let normalized := strip_query (chars raw_path) in
    let normalized := match normalized with c :: _ => if bool_decide (c = "/"%char) then normalized else "/"%char :: normalized
                                          | [] => ["/"%char] end in
    let normalized := if (1 <? length normalized)%nat && bool_decide (last normalized = Some "/"%char)
                      then removelast normalized else normalized in
    of_chars normalized.

Definition make_exact_key (method path : string) : string := String.append method (String.append " " path).

(** [std::stable_sort] by descending length of the prefix. *)
Fixpoint insert_prefix (r : PrefixRule) (l : list PrefixRule) : list PrefixRule :=
  match l with
  | [] => [r]
  | r' :: l' => if (String.length (pr_prefix r) <? String.length (pr_prefix r'))%nat then r' :: insert_prefix r l' else r :: l
  end.

Definition sort_prefixes (l : list PrefixRule) : list PrefixRule := foldr insert_prefix [] l.

Definition ends_with (suffix l : list ascii) : bool := starts_with (rev suffix) (rev l).

Definition add_security_rule (method path_pattern : string) (rule : RouteSecurityRule) (policy : GatewaySecurityPolicy) : GatewaySecurityPolicy :=
  if ends_with (chars "/*") (chars path_pattern) then
    let prefix := of_chars (take (length (chars path_pattern) - 1) (chars path_pattern)) in
    mkPolicy (exact_rules policy) (sort_prefixes (prefix_rules policy ++ [mkPrefixRule method prefix rule])) (parameterized_rules policy)
  else if is_parameterized_pattern path_pattern then
    mkPolicy (exact_rules policy) (prefix_rules policy)
      (parameterized_rules policy ++ [mkParamRule method path_pattern (compile_pattern_regex path_pattern) rule])
  else
    mkPolicy (<[make_exact_key method (normalize_path path_pattern) := rule]> (exact_rules policy)) (prefix_rules policy)
      (parameterized_rules policy).

Definition add_rule (method path_pattern : string) (acc : RouteAccess) (required : list string) (min_level : Z)
    (alternative : list string) (device_bound : bool) : GatewaySecurityPolicy -> GatewaySecurityPolicy :=
  let min_level :=
    if min_level =? AUTHENTICATION_LEVEL_UNSPECIFIED then
      match acc with
      | Public => AUTHENTICATION_LEVEL_UNSPECIFIED
      | Sensitive => AUTHENTICATION_LEVEL_MFA_VERIFIED
      | Protected => AUTHENTICATION_LEVEL_PRIMARY
      end
    else min_level in
  add_security_rule method path_pattern (mkRule acc min_level required alternative device_bound).

Definition default_rule : RouteSecurityRule := mkRule Protected AUTHENTICATION_LEVEL_PRIMARY [] [] false.

Definition applies_to (rule_method method : string) : bool := bool_decide (rule_method = "*"%string) || bool_decide (rule_method = method).

Definition prefix_matches (normalized : string) (r : PrefixRule) : bool :=
  starts_with (chars (pr_prefix r)) (chars normalized)
  || (ends_with ["/"%char] (chars (pr_prefix r)) && (1 <? length (chars (pr_prefix r)))%nat
      && bool_decide (chars normalized = take (length (chars (pr_prefix r)) - 1) (chars (pr_prefix r)))).

Definition evaluate (policy : GatewaySecurityPolicy) (method raw_path : string) : RouteSecurityRule :=
  let normalized := normalize_path raw_path in
  match exact_rules policy !! make_exact_key method normalized with
  | Some rule => rule
  | None =>
      match exact_rules policy !! make_exact_key "*" normalized with
      | Some rule => rule
      | None =>
          match List.find (fun r => applies_to (pm_method r) method && bool_decide (is_Some (regex_match normalized (pm_regex r))))
                  (parameterized_rules policy) with
          | Some r => pm_rule r
          | None =>
              match List.find (fun r => applies_to (pr_method r) method && prefix_matches normalized r) (prefix_rules policy) with
              | Some r => pr_rule r
              | None => default_rule
              end
          end
      end
  end.

(** ** The rules of the deployed gateway *)

(** The arguments of one [add_rule] after the method and the pattern. *)
Record Grant := mkGrant { g_access : RouteAccess; g_required : list string; g_level : Z; g_alternative : list string; g_device : bool }.

Definition add_grant (policy : GatewaySecurityPolicy) (r : string * string * Grant) : GatewaySecurityPolicy :=
  let '(method, pattern, g) := r in
  add_rule method pattern (g_access g) (g_required g) (g_level g) (g_alternative g) (g_device g) policy.

Definition default_grants : list (string * string * Grant) :=
  let UNSPECIFIED := AUTHENTICATION_LEVEL_UNSPECIFIED in
  let PRIMARY := AUTHENTICATION_LEVEL_PRIMARY in
  let MFA_VERIFIED := AUTHENTICATION_LEVEL_MFA_VERIFIED in
  [
   ("GET", "/health/live", mkGrant Public [] UNSPECIFIED [] false);
   ("GET", "/health/ready", mkGrant Public [] UNSPECIFIED [] false);
   ("POST", "/api/v1/auth/register", mkGrant Public [] UNSPECIFIED [] false);
   ("POST", "/api/v1/auth/login", mkGrant Public [] UNSPECIFIED [] false);
   ("POST", "/api/v1/auth/refresh", mkGrant Public [] UNSPECIFIED [] false);
   ("POST", "/api/v1/auth/device/register", mkGrant Sensitive ["device:manage"] MFA_VERIFIED ["auth:device:register"] true);
   ("*", "/api/v1/auth/security/*", mkGrant Sensitive ["auth:keys:rotate"] MFA_VERIFIED [] false);
   ("POST", "/api/v1/auth/mfa/disable", mkGrant Sensitive [] MFA_VERIFIED [] false);
   ("POST", "/api/v1/auth/devices/revoke", mkGrant Sensitive [] MFA_VERIFIED [] false);
   ("DELETE", "/api/v1/user/delete", mkGrant Sensitive [] MFA_VERIFIED [] false);
   ("*", "/api/v1/admin/*", mkGrant Sensitive [] MFA_VERIFIED [] false);
   ("POST", "/api/v1/devices/register", mkGrant Sensitive [] MFA_VERIFIED [] false);
   ("POST", "/api/v1/devices/authorize", mkGrant Sensitive [] MFA_VERIFIED [] false);
   ("POST", "/api/v1/devices/:device_id/authorize", mkGrant Sensitive [] MFA_VERIFIED [] false);
   ("POST", "/api/v1/devices/revoke", mkGrant Sensitive [] MFA_VERIFIED [] false);
   ("POST", "/api/v1/devices/:device_id/revoke", mkGrant Sensitive [] MFA_VERIFIED [] false);
   ("DELETE", "/api/v1/devices/*", mkGrant Sensitive [] MFA_VERIFIED [] false);
   ("DELETE", "/api/v1/devices/:device_id", mkGrant Sensitive [] MFA_VERIFIED [] false);
   ("POST", "/api/v1/devices/pairing", mkGrant Protected [] PRIMARY [] false);
   ("POST", "/api/v1/devices/pair", mkGrant Protected [] PRIMARY [] false);
   ("GET", "/api/v1/devices", mkGrant Protected [] PRIMARY [] false);
   ("GET", "/api/v1/devices/:device_id", mkGrant Protected [] PRIMARY [] false);
   ("GET", "/api/v1/devices/*", mkGrant Protected [] PRIMARY [] false);
   ("POST", "/api/v1/auth/devices/register", mkGrant Sensitive [] MFA_VERIFIED [] false);
   ("POST", "/api/v1/auth/devices/authorize", mkGrant Sensitive [] MFA_VERIFIED [] false);
   ("GET", "/api/v1/auth/devices", mkGrant Protected [] PRIMARY [] false);
   ("GET", "/api/v1/auth/devices/*", mkGrant Protected [] PRIMARY [] false);
   ("GET", "/api/v1/users/:user_id/devices/crypto-directory", mkGrant Protected [] PRIMARY [] false);
   ("GET", "/api/v1/devices/:device_id/crypto-identity", mkGrant Protected [] PRIMARY [] false);
   ("POST", "/api/v1/devices/:device_id/prekeys", mkGrant Protected [] PRIMARY [] false);
   ("GET", "/api/v1/devices/:device_id/prekeys/inventory", mkGrant Protected [] PRIMARY [] false);
   ("POST", "/api/v1/devices/:device_id/prekeys/claim", mkGrant Protected [] PRIMARY [] false);
   ("POST", "/api/v1/auth/revoke", mkGrant Protected ["auth:revoke"] PRIMARY ["access"] false);
   ("GET", "/api/v1/auth/me", mkGrant Protected ["user:profile"] PRIMARY ["auth:profile"] false);
   ("POST", "/api/v1/auth/mfa/enroll", mkGrant Protected [] PRIMARY [] false);
   ("POST", "/api/v1/auth/mfa/confirm", mkGrant Protected [] PRIMARY [] false);
   ("POST", "/api/v1/auth/mfa/verify", mkGrant Protected [] PRIMARY [] false);
   ("POST", "/api/v1/auth/mfa/challenge", mkGrant Protected [] PRIMARY [] false);
   ("POST", "/api/v1/messages/send", mkGrant Protected ["messages:send"] PRIMARY ["messages:write"] false);
   ("GET", "/api/v1/messages/inbox", mkGrant Protected ["messages:read"] UNSPECIFIED [] false);
   ("GET", "/api/v1/messages/history", mkGrant Protected ["messages:read"] UNSPECIFIED [] false);
   ("GET", "/api/v1/messages/*", mkGrant Protected ["messages:read"] UNSPECIFIED [] false);
   ("*", "/api/v1/messages/*", mkGrant Protected ["messages:read"] UNSPECIFIED [] false);
   ("POST", "/api/v1/files/upload", mkGrant Protected ["files:upload"] PRIMARY ["files:write"] false);
   ("GET", "/api/v1/files/download", mkGrant Protected ["files:read"] UNSPECIFIED [] false);
   ("DELETE", "/api/v1/files/delete", mkGrant Protected ["files:delete"] UNSPECIFIED [] false);
   ("GET", "/api/v1/files/*", mkGrant Protected ["files:read"] UNSPECIFIED [] false);
   ("*", "/api/v1/files/*", mkGrant Protected ["files:read"] UNSPECIFIED [] false);
   ("GET", "/api/v1/audit/logs", mkGrant Sensitive ["audit:read"] MFA_VERIFIED [] false);
   ("*", "/api/v1/audit/*", mkGrant Sensitive ["audit:read"] MFA_VERIFIED [] false)]%string.

Definition create_default : GatewaySecurityPolicy := foldl add_grant empty_policy default_grants.

(** ** What a policy means

    The specification reads the list of registrations: the last registration of the
    exact path wins, the method of the request before the wildcard; then the first
    pattern that matches; then the longest prefix, the first registered of those of the
    same length. *)

Definition Registration : Type := string * string * RouteSecurityRule.

Definition policy_of (rules : list Registration) : GatewaySecurityPolicy :=
  foldl (fun policy r => add_security_rule r.1.1 r.1.2 r.2 policy) empty_policy rules.

Definition is_prefix_pattern (pattern : string) : bool := ends_with (chars "/*") (chars pattern).
Definition is_exact_pattern (pattern : string) : bool := negb (is_prefix_pattern pattern) && negb (is_parameterized_pattern pattern).

Definition exact_at (m normalized : string) (r : Registration) : option RouteSecurityRule :=
  if is_exact_pattern r.1.2 && bool_decide (r.1.1 = m) && bool_decide (normalize_path r.1.2 = normalized) then Some r.2 else None.

Definition pattern_at (m normalized : string) (r : Registration) : option RouteSecurityRule :=
  if negb (is_prefix_pattern r.1.2) && is_parameterized_pattern r.1.2 && applies_to r.1.1 m
     && bool_decide (is_Some (regex_match normalized (compile_pattern_regex r.1.2))) then Some r.2 else None.

Definition prefix_of (r : Registration) : option PrefixRule :=
  if is_prefix_pattern r.1.2 then Some (mkPrefixRule r.1.1 (of_chars (take (length (chars r.1.2) - 1) (chars r.1.2))) r.2) else None.

Definition longer (best : option PrefixRule) (r : PrefixRule) : option PrefixRule :=
  match best with
  | None => Some r
  | Some b => if (String.length (pr_prefix b) <? String.length (pr_prefix r))%nat then Some r else Some b
  end.

Definition longest (l : list PrefixRule) : option PrefixRule := foldl longer None l.

Definition governs (m normalized : string) (r : PrefixRule) : bool := applies_to (pr_method r) m && prefix_matches normalized r.

Definition spec_evaluate (rules : list Registration) (m raw_path : string) : RouteSecurityRule :=
  let n := normalize_path raw_path in
  match last (omap (exact_at m n) rules), last (omap (exact_at "*" n) rules), head (omap (pattern_at m n) rules),
        longest (List.filter (governs m n) (omap prefix_of rules)) with
  | Some rule, _, _, _ => rule
  | None, Some rule, _, _ => rule
  | None, None, Some rule, _ => rule
  | None, None, None, Some r => pr_rule r
  | None, None, None, None => default_rule
  end.

(** *** Prefixes *)

Definition represents (l l' : list PrefixRule) : Prop := forall f b, foldl longer b (List.filter f l) = foldl longer b (List.filter f l').

Definition by_length (r r' : PrefixRule) : Prop := (String.length (pr_prefix r') <= String.length (pr_prefix r))%nat.

Lemma longer_swap b r r' :
  (String.length (pr_prefix r) < String.length (pr_prefix r'))%nat -> longer (longer b r) r' = longer (longer b r') r.
Proof.
  intros H. destruct b as [b|]; cbn [longer];
    repeat match goal with |- context [(?a <? ?b)%nat] => destruct (Nat.ltb_spec a b); cbn [longer] end; done || (exfalso; lia).
Qed.

Lemma insert_represents r l : represents (insert_prefix r l) (r :: l).
Proof.
  intros f. induction l as [|r' l IH]; intros b; [done|]. cbn [insert_prefix].
  destruct (Nat.ltb_spec (String.length (pr_prefix r)) (String.length (pr_prefix r'))) as [Hlt|]; [|done].
  specialize (IH (if f r' then longer b r' else b)). cbn [List.filter] in *. destruct (f r'), (f r); cbn [foldl] in *; rewrite IH; try done.
  by rewrite (longer_swap b r r' Hlt).
Qed.

Lemma sort_represents l : represents (sort_prefixes l) l.
Proof.
  induction l as [|r l IH]; intros f b; [done|]. cbn [sort_prefixes foldr]. rewrite (insert_represents r _ f b).
  cbn [List.filter]. destruct (f r); cbn [foldl]; apply IH.
Qed.

Lemma insert_sorted r l : StronglySorted by_length l -> StronglySorted by_length (insert_prefix r l).
Proof.
  intros Hl. induction Hl as [|r' l Hl IH Hr']; cbn [insert_prefix]; [repeat constructor|].
  destruct (Nat.ltb_spec (String.length (pr_prefix r)) (String.length (pr_prefix r'))) as [Hlt|Hge].
  - constructor; [done|]. apply Forall_forall. intros x Hx. assert (Hx' : x = r \/ x ∈ l).
    { clear -Hx. induction l as [|y l IHl]; cbn [insert_prefix] in Hx; [apply list_elem_of_singleton in Hx; auto|]. case_match.
      - apply elem_of_cons in Hx as [->|Hx]; [right; by left|]. destruct (IHl Hx); [auto|right; by right].
      - by apply elem_of_cons in Hx. }
    destruct Hx' as [->|Hx']; [unfold by_length; lia|]. rewrite Forall_forall in Hr'. by apply Hr'.
  - constructor; [by constructor|]. constructor; [done|]. eapply Forall_impl; [exact Hr'|]. unfold by_length. intros x ?. lia.
Qed.

Lemma sort_sorted l : StronglySorted by_length (sort_prefixes l).
Proof. induction l as [|r l IH]; [constructor|]. by apply insert_sorted. Qed.

Lemma longest_head b l : Forall (by_length b) l -> foldl longer (Some b) l = Some b.
Proof.
  induction 1 as [|x l Hx _ IH]; [done|]. cbn [foldl longer]. unfold by_length in Hx. by rewrite (proj2 (Nat.ltb_ge _ _)).
Qed.

Lemma find_longest f l : StronglySorted by_length l -> List.find f l = longest (List.filter f l).
Proof.
  induction 1 as [|r l Hl IH Hr]; [done|]. cbn [List.find List.filter]. destruct (f r); [|done]. unfold longest. cbn [foldl longer].
  symmetry. apply longest_head. apply Forall_forall. intros x Hx%list_elem_of_In%List.filter_In. rewrite Forall_forall in Hr.
  apply Hr. by apply list_elem_of_In, Hx.
Qed.

(** *** The policy built from a list of registrations *)

Lemma policy_of_snoc rules r : policy_of (rules ++ [r]) = add_security_rule r.1.1 r.1.2 r.2 (policy_of rules).
Proof. unfold policy_of. by rewrite foldl_app. Qed.

Lemma omap_snoc {A B} (f : A -> option B) l x : omap f (l ++ [x]) = omap f l ++ option_list (f x).
Proof. rewrite omap_app. cbn. by destruct (f x). Qed.

Lemma find_app {A} (f : A -> bool) l1 l2 : List.find f (l1 ++ l2) = match List.find f l1 with Some x => Some x | None => List.find f l2 end.
Proof. induction l1 as [|x l1 IH]; [done|]. cbn. by destruct (f x). Qed.

Lemma prefix_rules_of rules :
  StronglySorted by_length (prefix_rules (policy_of rules)) /\ represents (prefix_rules (policy_of rules)) (omap prefix_of rules).
Proof.
  induction rules as [|r rules [IHs IHr]] using rev_ind; [by split; [constructor|]|].
  rewrite policy_of_snoc, omap_snoc. unfold add_security_rule, prefix_of at 2, is_prefix_pattern.
  destruct (ends_with _ _); cbn [prefix_rules option_list]; [|rewrite app_nil_r; by case_match].
  split; [apply sort_sorted|]. intros f b. rewrite (sort_represents _ f b), !List.filter_app, !foldl_app. by rewrite (IHr f b).
Qed.

Lemma parameterized_rules_of rules m n :
  pm_rule <$> List.find (fun r => applies_to (pm_method r) m && bool_decide (is_Some (regex_match n (pm_regex r)))) (parameterized_rules (policy_of rules))
  = head (omap (pattern_at m n) rules).
Proof.
  induction rules as [|r rules IH] using rev_ind; [done|]. rewrite policy_of_snoc, omap_snoc, head_app, <- IH.
  unfold add_security_rule, pattern_at, is_prefix_pattern. destruct (ends_with _ _); cbn [parameterized_rules negb andb].
  { cbn. by destruct (List.find _ _). }
  destruct (is_parameterized_pattern _); cbn [parameterized_rules andb]; [|cbn; by destruct (List.find _ _)].
  rewrite find_app. destruct (List.find _ (parameterized_rules (policy_of rules))); [done|]. cbn. by destruct (_ && _).
Qed.

Lemma split_at_unique {A} (x : A) l1 l2 r1 r2 : x ∉ l1 -> x ∉ r1 -> l1 ++ x :: l2 = r1 ++ x :: r2 -> l1 = r1 /\ l2 = r2.
Proof.
  revert r1. induction l1 as [|a l1 IH]; intros [|b r1] Hl Hr H; cbn in H; simplify_eq; [done|set_solver|set_solver|].
  by destruct (IH r1) as [-> ->]; [set_solver..|done|].
Qed.

Lemma exact_key_inj m n m' n' : " "%char ∉ chars m -> " "%char ∉ chars m' -> make_exact_key m n = make_exact_key m' n' -> m = m' /\ n = n'.
Proof.
  intros Hm Hm' H. apply (f_equal chars) in H. unfold make_exact_key in H. rewrite !chars_append in H.
  apply (split_at_unique " "%char) in H as [H1 H2]; [|done|done]. split; by apply chars_inj.
Qed.

Definition one_word (s : string) : Prop := " "%char ∉ chars s.

#[export] Instance one_word_dec s : Decision (one_word s).
Proof. unfold one_word. apply _. Defined.

Lemma exact_rules_of rules m n :
  one_word m -> Forall (fun r : Registration => one_word r.1.1) rules ->
  exact_rules (policy_of rules) !! make_exact_key m n = last (omap (exact_at m n) rules).
Proof.
  intros Hm. induction rules as [|r rules IH] using rev_ind; intros Hr; [done|].
  apply Forall_app in Hr as [Hrules Hr%Forall_inv]. specialize (IH Hrules). rewrite policy_of_snoc, omap_snoc.
  unfold add_security_rule, exact_at at 2, is_exact_pattern, is_prefix_pattern. destruct (ends_with _ _); cbn [exact_rules negb andb].
  { by rewrite app_nil_r. }
  destruct (is_parameterized_pattern _); cbn [exact_rules negb andb]; [by rewrite app_nil_r|].
  destruct (decide (r.1.1 = m /\ normalize_path r.1.2 = n)) as [[<- <-]|Hne].
  - rewrite lookup_insert_eq, !bool_decide_eq_true_2 by done. cbn. by rewrite last_snoc.
  - rewrite lookup_insert_ne by (intros H; exact (Hne (exact_key_inj _ _ _ _ Hr Hm H))). rewrite IH.
    assert (Hf : bool_decide (r.1.1 = m) && bool_decide (normalize_path r.1.2 = n) = false).
    { apply andb_false_iff. rewrite !bool_decide_eq_false. destruct (decide (r.1.1 = m)); tauto. }
    by rewrite Hf, app_nil_r.
Qed.

Lemma star_one_word : one_word "*".
Proof. apply (bool_decide_unpack _). by vm_compute. Qed.

(** C30.  The policy means what its documentation says, whatever was registered in
    whatever order: an exact rule for the method, then one for any method, the last one
    registered; then the first registered pattern that matches; then the longest prefix;
    and a path that no rule covers is protected. *)
Theorem policy_precedence rules m raw_path
    (Hm : one_word m) (Hr : Forall (fun r : Registration => one_word r.1.1) rules) :
  evaluate (policy_of rules) m raw_path = spec_evaluate rules m raw_path.
Proof.
  unfold evaluate, spec_evaluate. rewrite (exact_rules_of rules m), (exact_rules_of rules "*") by (done || apply star_one_word).
  destruct (last (omap (exact_at m _) rules)); [done|]. destruct (last (omap (exact_at "*" _) rules)); [done|].
  rewrite <- (parameterized_rules_of rules m). destruct (List.find _ (parameterized_rules _)); [done|]. cbn [fmap option_fmap option_map].
  destruct (prefix_rules_of rules) as [Hs Hrep]. rewrite find_longest by done. unfold longest. rewrite (Hrep _ None).
  by destruct (foldl longer None _).
Qed.

Lemma policy_precedence_witness :
  let rules := [("*", "/a/*", default_rule); ("GET", "/a/b/*", mkRule Public 0 [] [] false); ("GET", "/a/:x/c", default_rule)]%string in
  Forall (fun r : Registration => one_word r.1.1) rules /\
  evaluate (policy_of rules) "GET" "/a/b/c" = default_rule /\ evaluate (policy_of rules) "GET" "/a/b/d/" = mkRule Public 0 [] [] false.
Proof.
  intros rules. assert (Hr : Forall (fun r : Registration => one_word r.1.1) rules) by (repeat constructor; apply (bool_decide_unpack _); by vm_compute).
  assert (Hget : one_word "GET") by (apply (bool_decide_unpack _); by vm_compute).
  split; [done|]. split; (rewrite (policy_precedence rules "GET" _ Hget Hr); by vm_compute).
Defined.

(** ** What the deployed policy leaves open *)

Definition public_routes : list (string * string) :=
  [("GET", "/health/live"); ("GET", "/health/ready"); ("POST", "/api/v1/auth/register"); ("POST", "/api/v1/auth/login");
   ("POST", "/api/v1/auth/refresh")]%string.

Lemma split_at_only {A} (x : A) l1 l2 r1 r2 : x ∉ r1 -> x ∉ r2 -> l1 ++ x :: l2 = r1 ++ x :: r2 -> l1 = r1 /\ l2 = r2.
Proof.
  revert r1. induction l1 as [|a l1 IH]; intros [|b r1] Hr Hr2 H; cbn in H; simplify_eq; [done|set_solver|set_solver|].
  by destruct (IH r1) as [-> ->]; [set_solver..|done|].
Qed.

Lemma public_exact_keys :
  bool_decide (map_Forall (fun key rule => is_public rule = true -> key ∈ (fun r => make_exact_key r.1 r.2) <$> public_routes) (exact_rules create_default)) = true.
Proof. by vm_compute. Qed.

Lemma open_elsewhere :
  forallb (fun r => negb (is_public (pm_rule r))) (parameterized_rules create_default)
  && forallb (fun r => negb (is_public (pr_rule r))) (prefix_rules create_default) = true.
Proof. by vm_compute. Qed.

Lemma public_words : Forall (fun r => one_word r.1 /\ one_word r.2) public_routes.
Proof. repeat constructor; apply (bool_decide_unpack _); by vm_compute. Qed.

Lemma public_key m n rule :
  exact_rules create_default !! make_exact_key m n = Some rule -> is_public rule = true -> (m, n) ∈ public_routes.
Proof.
  intros Hl Hp. pose proof (bool_decide_eq_true_1 _ public_exact_keys _ _ Hl Hp) as Hk.
  apply list_elem_of_fmap in Hk as ([m' n'] & Heq & Hin). cbn in Heq. pose proof public_words as Hw. rewrite Forall_forall in Hw.
  destruct (Hw _ Hin) as [Hm Hn]. apply (f_equal chars) in Heq. unfold make_exact_key in Heq. rewrite !chars_append in Heq.
  apply (split_at_only " "%char) in Heq as [H1 H2]; [|done|done]. apply chars_inj in H1 as ->, H2 as ->. done.
Qed.

Lemma public_keys_open : Forall (fun r => (is_public <$> exact_rules create_default !! make_exact_key r.1 r.2) = Some true) public_routes.
Proof. repeat constructor; by vm_compute. Qed.

(** C29.  The deployed policy answers requests without a token for five routes only: the
    two health probes, registration, login and refresh; every other method and path, also
    one that no rule names, needs a verified identity. *)
Theorem public_surface m raw_path :
  is_public (evaluate create_default m raw_path) = true <-> (m, normalize_path raw_path) ∈ public_routes.
Proof.
  unfold evaluate. set (n := normalize_path raw_path). split.
  - destruct (exact_rules create_default !! make_exact_key m n) as [rule|] eqn:E1; [by apply public_key|].
    destruct (exact_rules create_default !! make_exact_key "*" n) as [rule|] eqn:E2.
    { intros Hp. pose proof (public_key _ _ _ E2 Hp) as Hin. unfold public_routes in Hin. rewrite !elem_of_cons, elem_of_nil in Hin. clear -Hin.
      by destruct Hin as [[=]|[[=]|[[=]|[[=]|[[=]|[]]]]]]. }
    pose proof open_elsewhere as [Hpm Hpr]%andb_true_iff. rewrite forallb_forall in Hpm, Hpr.
    destruct (List.find _ (parameterized_rules create_default)) as [r|] eqn:E3.
    { apply List.find_some in E3 as [Hin _]. intros Hp. specialize (Hpm _ Hin). by rewrite Hp in Hpm. }
    destruct (List.find _ (prefix_rules create_default)) as [r|] eqn:E4; [|done].
    apply List.find_some in E4 as [Hin _]. intros Hp. specialize (Hpr _ Hin). by rewrite Hp in Hpr.
  - intros Hin. pose proof public_keys_open as Ho. rewrite Forall_forall in Ho. specialize (Ho _ Hin). cbn [fst snd] in Ho.
    destruct (exact_rules create_default !! make_exact_key m n) as [rule|]; [|done]. by injection Ho.
Qed.

(** ** What a rule asks for *)

Definition authorized (rule : RouteSecurityRule) (ctx : AuthenticatedContext) : Prop :=
  (requires_mfa rule = true -> auth_level ctx = AUTHENTICATION_LEVEL_MFA_VERIFIED) /\ min_auth_level rule <= auth_level ctx /\
  (require_device_bound rule = true -> device_id ctx <> EmptyString) /\
  ((forall r, r ∈ required_scopes rule -> exists g, g ∈ scopes ctx /\ grants g r) /\ (required_scopes rule = [] -> alternative_scopes rule = []) \/
   exists r g, r ∈ alternative_scopes rule /\ g ∈ scopes ctx /\ grants g r).

Lemma scopes_satisfied_spec rule granted :
  scopes_satisfied rule granted = true <->
  (forall r, r ∈ required_scopes rule -> exists g, g ∈ granted /\ grants g r) /\ (required_scopes rule = [] -> alternative_scopes rule = []) \/
  exists r g, r ∈ alternative_scopes rule /\ g ∈ granted /\ grants g r.
Proof.
  unfold scopes_satisfied. rewrite <- has_all_scopes_spec. destruct (decide (alternative_scopes rule = [])) as [Ha|Ha].
  - rewrite (bool_decide_eq_true_2 (alternative_scopes rule = [])) by done. cbn [negb]. rewrite andb_false_r, Ha. split.
    + intros H. left. split; [|done]. case_bool_decide as Hr; cbn [negb] in H; [by rewrite Hr|done].
    + intros [[H _]|(r & g & Hin & _)]; [by case_bool_decide|by apply elem_of_nil in Hin].
  - rewrite <- has_any_scope_spec by done. rewrite (bool_decide_eq_false_2 (alternative_scopes rule = [])) by done. cbn [negb]. rewrite andb_true_r.
    case_bool_decide as Hr; cbn [negb]; [naive_solver|]. destruct (has_all_scopes granted (required_scopes rule)); cbn [negb]; naive_solver.
Qed.

Lemma satisfies_spec rule ctx : is_public rule = false -> satisfies rule ctx = true <-> authorized rule ctx.
Proof.
  intros Hp. unfold satisfies, authorized. rewrite Hp, <- scopes_satisfied_spec. unfold is_mfa_verified.
  destruct (requires_mfa rule), (Z.eqb_spec (auth_level ctx) AUTHENTICATION_LEVEL_MFA_VERIFIED) as [He|He]; cbn [andb negb];
    destruct (Z.ltb_spec (auth_level ctx) (min_auth_level rule)); destruct (require_device_bound rule); cbn [andb];
    try case_bool_decide; split; intros H'; try naive_solver lia.
Qed.
