(* ===== verification/RateLimiter.v ===== *)
(** * The gateway's rate limiter

    Models [acquire], [prune_expired] and [clear] of
    [src/gateway/http/middleware/rate_limiter_middleware.{hpp,cpp}]: one token bucket for
    each client, and a list that keeps the clients in the order of their last request so
    that the number of buckets stays bounded.  The mutex serialises the operations; the
    value [clock_fn_] returns is an argument.

    A [double] is a binary64 number of [SpecFloat], the definition of IEEE 754 arithmetic
    in the standard library of Rocq.  An entry of the map holds an iterator to the node of
    its key in the list; the node is the one that holds the key, so the iterator is left
    out. *)

From S2P Require Import Prelude.
From Stdlib Require Import SpecFloat.
#[local] Open Scope Z_scope.

(** ** Doubles *)

Definition double : Type := spec_float.
Definition dadd : double -> double -> double := SFadd 53 1024.
Definition dsub : double -> double -> double := SFsub 53 1024.
Definition dmul : double -> double -> double := SFmul 53 1024.
Definition ddiv : double -> double -> double := SFdiv 53 1024.
Definition dlt : double -> double -> bool := SFltb.
Definition dle : double -> double -> bool := SFleb.

(** [static_cast<double>] of an integer. *)
Definition to_double (z : Z) : double := binary_normalize 53 1024 z 0 false.

Definition dzero : double := to_double 0.
Definition done_ : double := to_double 1.

(** [std::min(a, b)]. *)
Definition dmin (a b : double) : double := if dlt b a then b else a.

(** [std::floor] and [std::ceil] of a finite number, as an integer. *)
Definition floor (x : double) : Z :=
  match x with
  | S754_finite s m e =>
      let v := if s then Z.neg m else Z.pos m in if 0 <=? e then v * 2 ^ e else v / 2 ^ (- e)
  | _ => 0
  end.

Definition ceil (x : double) : Z :=
  match x with
  | S754_finite s m e =>
      let v := if s then Z.neg m else Z.pos m in if 0 <=? e then v * 2 ^ e else - (- v / 2 ^ (- e))
  | _ => 0
  end.

(** [std::chrono::duration<double>] of a difference in nanoseconds. *)
Definition seconds (ns : Z) : double := ddiv (to_double ns) (to_double 1000000000).

(** ** State *)

Record GatewayRateLimitingConfig := mkRateConfig {
  rl_enabled : bool; refill_rate_per_sec : double; burst_capacity : Z; max_tracked_clients : Z; client_ttl : Z }.

Record ClientEntry := mkClient { tokens : double; last_refill : Z }.

(** The front of the list is the client that was served last. *)
Record RateLimiter := mkLimiter { lru_list : list string; client_map : gmap string ClientEntry }.

Definition empty_limiter : RateLimiter := mkLimiter [] ∅.

(** The number of seconds to wait; a cast of a number out of range is undefined, and the
    number itself is kept. *)
Record AcquireResult := mkAcquire { allowed : bool; remaining : Z; limit : Z; retry_after_sec : Z; reset_sec : Z }.

(** ** Operations *)

(** The eviction loop: from the back, while the map is full. *)
Fixpoint evict_oldest (max : Z) (oldest_first : list string) (m : gmap string ClientEntry) : list string * gmap string ClientEntry :=
  match oldest_first with
  | [] => ([], m)
  | oldest_key :: rest =>
      if max <=? Z.of_nat (size m) then evict_oldest max rest (delete oldest_key m) else (oldest_first, m)
  end.

Section operations.
Context (config : GatewayRateLimitingConfig).

Definition refilled (now : Z) (e : ClientEntry) : ClientEntry :=
  let elapsed_sec := seconds (now - last_refill e) in
  let elapsed_sec := if dlt elapsed_sec dzero then dzero else elapsed_sec in
  mkClient
    (if dle (to_double (client_ttl config)) elapsed_sec then to_double (burst_capacity config)
     else dmin (to_double (burst_capacity config)) (dadd (tokens e) (dmul elapsed_sec (refill_rate_per_sec config))))
    now.

(** The entry of the client, moved to the front, or a new one with a full bucket. *)
Definition track (key : string) (now : Z) (rl : RateLimiter) : ClientEntry * RateLimiter :=
  match client_map rl !! key with
  | Some e =>
      let e := refilled now e in
      (e, mkLimiter (key :: List.filter (fun k => negb (bool_decide (k = key))) (lru_list rl)) (<[key := e]> (client_map rl)))
  | None =>
      let '(oldest_first, m) := evict_oldest (max_tracked_clients config) (rev (lru_list rl)) (client_map rl) in
      let e := mkClient (to_double (burst_capacity config)) now in
      (e, mkLimiter (key :: rev oldest_first) (<[key := e]> m))
  end.

Definition at_least_one (z : Z) : Z := if z =? 0 then 1 else z.

Definition acquire_slot (key : string) (now : Z) (rl : RateLimiter) : AcquireResult * RateLimiter :=
  let burst := burst_capacity config in
  let rate := refill_rate_per_sec config in
  if negb (rl_enabled config) then (mkAcquire true burst burst 0 0, rl)
  else
    let '(e, rl) := track key now rl in
    if dle done_ (tokens e) then
      let left := dsub (tokens e) done_ in
      let missing_for_full := dsub (to_double burst) left in
      (mkAcquire true (floor left) burst 0
         (if dle missing_for_full dzero || dle rate dzero then 0 else ceil (ddiv missing_for_full rate)),
       mkLimiter (lru_list rl) (<[key := mkClient left (last_refill e)]> (client_map rl)))
    else
      let missing_for_one := dsub done_ (tokens e) in
      let '(retry_after, reset) :=
        if dlt dzero rate then (ceil (ddiv missing_for_one rate), ceil (ddiv (dsub (to_double burst) (tokens e)) rate)) else (1, 1) in
      (mkAcquire false 0 burst (at_least_one retry_after) (at_least_one reset), rl).

(** From the back; a key without an entry is skipped. *)
Definition idle (now : Z) (rl : RateLimiter) (key : string) : bool :=
  match client_map rl !! key with
  | Some e => dle (to_double (client_ttl config)) (seconds (now - last_refill e))
  | None => false
  end.

Definition prune_expired (now : Z) (rl : RateLimiter) : Z * RateLimiter :=
  (Z.of_nat (length (List.filter (idle now rl) (lru_list rl))),
   mkLimiter (List.filter (fun key => negb (idle now rl key)) (lru_list rl))
     (filter (fun kv => idle now rl kv.1 = false) (client_map rl))).

Definition clear (rl : RateLimiter) : RateLimiter := empty_limiter.

Definition tracked_client_count (rl : RateLimiter) : Z := Z.of_nat (size (client_map rl)).

End operations.

Definition default_rate_limits : GatewayRateLimitingConfig := mkRateConfig true (to_double 50) 100 10000 300.

(** ** Invariant *)

Inductive LimiterCall := Acquire (key : string) (now : Z) | Prune (now : Z) | Clear.

Definition limiter_step (config : GatewayRateLimitingConfig) (call : LimiterCall) (rl : RateLimiter) : RateLimiter :=
  match call with
  | Acquire key now => snd (acquire_slot config key now rl)
  | Prune now => snd (prune_expired config now rl)
  | Clear => clear rl
  end.

(** The list holds the keys of the map, each once, and the map is bounded.  A limit of
    zero still leaves room for the client that is being served. *)
Record limiter_ok (config : GatewayRateLimitingConfig) (rl : RateLimiter) : Prop := mkLimiterOk {
  lru_unique : NoDup (lru_list rl);
  lru_keys : forall k, k ∈ lru_list rl <-> is_Some (client_map rl !! k);
  lru_bounded : tracked_client_count rl <= Z.max 1 (max_tracked_clients config) }.

Lemma evict_spec max l m :
  NoDup l -> (forall k, k ∈ l <-> is_Some (m !! k)) ->
  let '(l', m') := evict_oldest max l m in
  NoDup l' /\ (forall k, k ∈ l' <-> is_Some (m' !! k)) /\ (Z.of_nat (size m') < max \/ m' = ∅) /\ Z.of_nat (size m') <= Z.of_nat (size m) /\
  (exists gone, l = gone ++ l' /\ (Z.of_nat (size m) < max -> gone = []) /\ forall k, k ∉ gone -> m' !! k = m !! k).
Proof.
  revert m. induction l as [|x l IH]; intros m Hnd Hk; cbn [evict_oldest].
  - split_and!; [done|done| |lia|by exists []]. right. apply map_empty. intros k. apply eq_None_not_Some. rewrite <- Hk. apply not_elem_of_nil.
  - apply NoDup_cons in Hnd as [Hx Hnd]. destruct (Z.leb_spec max (Z.of_nat (size m))) as [Hle|Hlt].
    + specialize (IH (delete x m) Hnd). destruct (evict_oldest max l (delete x m)) as [l' m'].
      assert (Hsz : (size (delete x m) <= size m)%nat) by (rewrite map_size_delete; destruct (m !! x); cbn; lia).
      destruct IH as (IH1 & IH2 & IH3 & IH4 & gone & -> & Hg1 & Hg2).
      { intros k. destruct (decide (k = x)) as [->|Hne]; [rewrite lookup_delete_eq; split; [done|by intros []]|].
        rewrite lookup_delete_ne, <- Hk by done. set_solver. }
      split_and!; [done..|lia|]. exists (x :: gone). split_and!; [done|intros; lia|]. intros k Hkg. rewrite Hg2 by set_solver.
      apply lookup_delete_ne. set_solver.
    + split_and!; [by apply NoDup_cons|done|by left|lia|by exists []].
Qed.

Lemma elem_of_remove key (l : list string) k : k ∈ List.filter (fun k => negb (bool_decide (k = key))) l <-> k ∈ l /\ k <> key.
Proof. rewrite list_elem_of_In, List.filter_In, <- list_elem_of_In, negb_true_iff, bool_decide_eq_false. done. Qed.

Lemma elem_of_rev {A} (l : list A) k : k ∈ rev l <-> k ∈ l.
Proof. rewrite !list_elem_of_In. symmetry. apply List.in_rev. Qed.

Lemma NoDup_rev {A} (l : list A) : NoDup l -> NoDup (rev l).
Proof. intros H. apply NoDup_ListNoDup. apply NoDup_ListNoDup in H. by apply List.NoDup_rev. Qed.

(** Serving a client keeps the others, except those it evicts because the map was full. *)
Lemma track_ok config key now rl :
  limiter_ok config rl ->
  let '(e, rl') := track config key now rl in
  limiter_ok config rl' /\ client_map rl' !! key = Some e /\
  (forall k, k <> key -> client_map rl' !! k = client_map rl !! k \/
     client_map rl' !! k = None /\ client_map rl !! key = None /\ max_tracked_clients config <= tracked_client_count rl).
Proof.
  intros [Hnd Hk Hb]. unfold track, tracked_client_count in *. destruct (client_map rl !! key) as [e|] eqn:He.
  - split_and!; cbn [client_map lru_list].
    + split; cbn [client_map lru_list tracked_client_count].
      * apply NoDup_cons. split; [rewrite elem_of_remove; tauto|by apply NoDup_filter_bool].
      * intros k. rewrite elem_of_cons, elem_of_remove, Hk. destruct (decide (k = key)) as [->|Hne]; [rewrite lookup_insert_eq; naive_solver|].
        rewrite lookup_insert_ne by done. naive_solver.
      * unfold tracked_client_count. cbn [client_map]. by rewrite map_size_insert_Some by (by eexists).
    + by rewrite lookup_insert_eq.
    + intros k Hne. left. by rewrite lookup_insert_ne.
  - pose proof (evict_spec (max_tracked_clients config) (rev (lru_list rl)) (client_map rl)) as Hev.
    destruct (evict_oldest _ _ _) as [l' m'].
    destruct Hev as (Hnd' & Hk' & Hsize & _ & gone & Hgone & Hnone & Hsame).
    { by apply NoDup_rev. }
    { intros k. rewrite <- Hk. apply elem_of_rev. }
    assert (Hkey : m' !! key = None).
    { apply eq_None_not_Some. rewrite <- Hk'. intros Hin. assert (Hin' : key ∈ rev (lru_list rl)) by (rewrite Hgone; set_solver).
      rewrite elem_of_rev, Hk, He in Hin'. by destruct Hin'. }
    split_and!; cbn [client_map lru_list].
    + split; cbn [client_map lru_list].
      * apply NoDup_cons. rewrite elem_of_rev, Hk', Hkey. split; [by intros []|by apply NoDup_rev].
      * intros k. rewrite elem_of_cons, elem_of_rev, Hk'. destruct (decide (k = key)) as [->|Hne]; [rewrite lookup_insert_eq; naive_solver|].
        rewrite lookup_insert_ne by done. naive_solver.
      * unfold tracked_client_count. cbn [client_map]. rewrite map_size_insert_None by done. destruct Hsize as [?| ->]; [lia|rewrite map_size_empty; lia].
    + by rewrite lookup_insert_eq.
    + intros k Hne. rewrite lookup_insert_ne by done. destruct (decide (k ∈ gone)) as [Hg|Hg]; [|left; by apply Hsame].
      right. split_and!; [|done|].
      * apply eq_None_not_Some. rewrite <- Hk'. intros Hin. assert (Hd : NoDup (gone ++ l')) by (rewrite <- Hgone; by apply NoDup_rev).
        apply NoDup_app in Hd as (_ & Hd & _). by apply (Hd k).
      * destruct (decide (max_tracked_clients config <= Z.of_nat (size (client_map rl)))); [done|]. rewrite Hnone in Hg by lia. by apply elem_of_nil in Hg.
Qed.

Lemma limiter_acquire_ok config key now rl :
  limiter_ok config rl -> limiter_ok config (snd (acquire_slot config key now rl)) /\
  (forall k, k <> key -> client_map (snd (acquire_slot config key now rl)) !! k = client_map rl !! k \/
     client_map (snd (acquire_slot config key now rl)) !! k = None /\ client_map rl !! key = None /\
     max_tracked_clients config <= tracked_client_count rl).
Proof.
  intros Hok. unfold acquire_slot. destruct (rl_enabled config); [|by split; [|left]]. cbn [negb].
  pose proof (track_ok config key now rl Hok) as Ht. destruct (track config key now rl) as [e rl']. destruct Ht as (Hok' & He & Hother).
  destruct (dle done_ (tokens e)); [|by destruct (if dlt dzero _ then _ else _)]. cbn [snd client_map]. split.
  - destruct Hok' as [H1 H2 H3]. split; cbn [lru_list client_map]; [done| |].
    + intros k. rewrite H2. destruct (decide (k = key)) as [->|Hne]; [rewrite lookup_insert_eq, He; naive_solver|by rewrite lookup_insert_ne].
    + unfold tracked_client_count in *. cbn [client_map]. by rewrite map_size_insert_Some by (by eexists).
  - intros k Hne. rewrite lookup_insert_ne by done. by apply Hother.
Qed.

Lemma prune_ok config now rl : limiter_ok config rl -> limiter_ok config (snd (prune_expired config now rl)).
Proof.
  intros [H1 H2 H3]. split; cbn [prune_expired snd lru_list client_map].
  - by apply NoDup_filter_bool.
  - intros k. rewrite list_elem_of_In, List.filter_In, <- list_elem_of_In, negb_true_iff, H2. split.
    + intros [[e He] Hi]. exists e. by apply map_lookup_filter_Some.
    + intros [e [He Hi]%map_lookup_filter_Some]. split; [by eexists|done].
  - unfold tracked_client_count in *. cbn [client_map prune_expired snd].
    pose proof (map_size_filter (fun kv : string * ClientEntry => idle config now rl kv.1 = false) (client_map rl)). lia.
Qed.

Lemma empty_limiter_ok config : limiter_ok config empty_limiter.
Proof.
  split; cbn [empty_limiter lru_list client_map]; [by apply NoDup_nil| |unfold tracked_client_count; cbn [empty_limiter client_map]; rewrite map_size_empty; lia].
  intros k. rewrite lookup_empty. split; [by intros ?%elem_of_nil|by intros []].
Qed.

Lemma limiter_step_ok config call rl : limiter_ok config rl -> limiter_ok config (limiter_step config call rl).
Proof.
  intros Hok. destruct call as [key now|now|]; cbn [limiter_step]; [by apply limiter_acquire_ok|by apply prune_ok|].
  apply empty_limiter_ok.
Qed.

(** After any sequence of requests and clean-ups the limiter tracks at most
    [max_tracked_clients] clients, each once, whatever keys the requests come with; and a
    request leaves the bucket of every other client alone, unless the table is full and
    the client of the request is new. *)
Theorem rate_limiter_bounded config calls :
  let rl := exec_all (limiter_step config) calls empty_limiter in
  limiter_ok config rl /\
  forall key now k, k <> key ->
    client_map (limiter_step config (Acquire key now) rl) !! k = client_map rl !! k \/
    client_map rl !! key = None /\ max_tracked_clients config <= tracked_client_count rl.
Proof.
  intros rl. assert (Hok : limiter_ok config rl).
  { apply (exec_all_inv (limiter_step config) (limiter_ok config) (fun _ => True)); [intros; by apply limiter_step_ok|by apply Forall_true|apply empty_limiter_ok]. }
  split; [done|]. intros key now k Hne. destruct (proj2 (limiter_acquire_ok config key now rl Hok) k Hne) as [?|(_ & ? & ?)]; auto.
Qed.

(** The default limits: a client that does not wait gets its burst of a hundred. *)
Lemma default_burst :
  let answers := fst (foldl (fun '(l, rl) _ => let '(r, rl) := acquire_slot default_rate_limits "ip:10.0.0.1" 7 rl in (l ++ [allowed r], rl)) ([], empty_limiter) (seq 0 120)) in
  answers = replicate 100 true ++ replicate 20 false.
Proof. by vm_compute. Qed.
