(* ===== verification/Gateway.v ===== *)
(** * The gateway's perimeter

    A request passes the middlewares of [src/gateway/http] in the order [main.cpp] puts
    them in and reaches the router: request id, logging, drain, resource limits,
    authentication, rate limit, authorization, dispatch.  This file models them as
    programs over the state the threads of the server share; the two thread-local
    pointers are passed along.

    - [middleware/*.cpp]: [request_id_middleware], [logging_middleware],
      [drain_middleware], [resource_limiter_middleware], [rate_limiter_middleware];
    - [auth/authentication_middleware.cpp], [auth/authorization_middleware.cpp];
    - [routing/router.cpp] and the routes that [routing/gateway_route_registrar.cpp] and
      the proxies register;
    - the assembly in [main.cpp].

    The token validator is the interface [ITokenValidator] of the code: a program and, as
    its contract, what it vouches for.  The bodies of the route handlers are a parameter;
    that a handler ran, on which request and for which identity, is kept in [served].  A
    handler may throw; the middlewares themselves do not. *)

From S2P Require Import Prelude Ids AuditValidation Prog Retry Http Credentials RoutePolicy RateLimiter.
From Stdlib Require Import Ascii.
#[local] Open Scope Z_scope.

(** ** Handlers *)

Inductive Handler :=
  | health_live | health_ready | handle_login | handle_refresh | handle_revoke | handle_get_me | handle_register_device
  | handle_get_device_crypto_directory | handle_get_crypto_identity | handle_update_crypto_prekeys | handle_get_prekey_inventory
  | handle_claim_device_prekey | handle_initiate_mfa_enrollment | handle_confirm_mfa_enrollment | handle_verify_mfa_challenge
  | handle_disable_mfa | handle_list_devices | handle_get_device | handle_initiate_device_pairing | handle_authorize_device
  | handle_revoke_device | handle_upload_init | handle_upload_chunk | handle_upload_finalize | handle_upload_cancel
  | handle_get_metadata | handle_download_chunk | handle_streaming_download | handle_delete_file
  | messaging_stub | audit_stub.

#[export] Instance Handler_eq_dec : EqDecision Handler.
Proof. solve_decision. Defined.

(** A call of a handler: the request as the handler sees it, the identity it is given,
    and when and from where the request came. *)
Record HandlerCall := mkHandlerCall {
  hc_handler : Handler; hc_request : Request; hc_context : option AuthenticatedContext; hc_request_context : option RequestContext }.

(** ** Shared state *)

Record CacheEntry := mkCacheEntry { ce_context : AuthenticatedContext; valid_until : Z }.

Record ValidateSessionResponse := mkVerdict {
  vs_is_valid : bool; vs_user_id : string; vs_device_id : string; vs_authentication_level : Z; vs_expires_at_epoch_ms : Z }.

(** One call of [ValidateSession] at the auth service, with the time at which the
    validator began, and its answer. *)
Record Validation := mkValidation {
  va_token : string; va_session_id : string; va_time : Z; va_answer : result DependencyError ValidateSessionResponse }.

Record GatewayState := mkGateway {
  token_cache : gmap string CacheEntry;
  validations : list Validation;
  limiter : RateLimiter;
  active_connections : Z;
  is_draining : bool;
  in_flight_requests : Z;
  served : list HandlerCall;
  system_reads : nat; steady_reads : nat; random_reads : nat }.

Definition set_token_cache c s := mkGateway c (validations s) (limiter s) (active_connections s) (is_draining s) (in_flight_requests s) (served s) (system_reads s) (steady_reads s) (random_reads s).
Definition set_validations l s := mkGateway (token_cache s) l (limiter s) (active_connections s) (is_draining s) (in_flight_requests s) (served s) (system_reads s) (steady_reads s) (random_reads s).
Definition set_limiter rl s := mkGateway (token_cache s) (validations s) rl (active_connections s) (is_draining s) (in_flight_requests s) (served s) (system_reads s) (steady_reads s) (random_reads s).
Definition set_active_connections n s := mkGateway (token_cache s) (validations s) (limiter s) n (is_draining s) (in_flight_requests s) (served s) (system_reads s) (steady_reads s) (random_reads s).
Definition set_drain_state d n s := mkGateway (token_cache s) (validations s) (limiter s) (active_connections s) d n (served s) (system_reads s) (steady_reads s) (random_reads s).
Definition set_served l s := mkGateway (token_cache s) (validations s) (limiter s) (active_connections s) (is_draining s) (in_flight_requests s) l (system_reads s) (steady_reads s) (random_reads s).
Definition set_reads a b c s := mkGateway (token_cache s) (validations s) (limiter s) (active_connections s) (is_draining s) (in_flight_requests s) (served s) a b c.

Definition gprog (A : Type) : Type := prog GatewayState A.

(** ** The world outside *)

Record GatewayEnv := mkGatewayEnv {
  system_clock : nat -> Z;
  steady_clock : nat -> Z;
  random_bytes : nat -> list Z;
  auth_service : nat -> string -> string -> result DependencyError ValidateSessionResponse;
  first_entry : gmap string CacheEntry -> option string;
  run_handler : nat -> HandlerCall -> Response -> Response * bool }.

Section environment.
Context (env : GatewayEnv).

Definition system_clock_now : gprog Z :=
  Atomic (fun s => set_reads (S (system_reads s)) (steady_reads s) (random_reads s) s) (fun s => Ret (system_clock env (system_reads s))).

Definition steady_clock_now : gprog Z :=
  Atomic (fun s => set_reads (system_reads s) (S (steady_reads s)) (random_reads s) s) (fun s => Ret (steady_clock env (steady_reads s))).

Definition rand_bytes : gprog (list Z) :=
  Atomic (fun s => set_reads (system_reads s) (steady_reads s) (S (random_reads s)) s) (fun s => Ret (random_bytes env (random_reads s))).

End environment.

(** ** Middlewares *)

Definition Next : Type := ThreadLocals -> Request -> Response -> gprog (ThreadLocals * Request * Response).
Definition Middleware : Type := Next -> Next.

(** [MiddlewarePipeline::execute] wraps the terminal handler from the last middleware to
    the first. *)
Definition execute_pipeline (middlewares : list Middleware) (terminal_handler : Next) : Next :=
  foldr (fun mw next => mw next) terminal_handler middlewares.

Definition refuse (tl : ThreadLocals) (req : Request) (res : Response) : gprog (ThreadLocals * Request * Response) := Ret (tl, req, res).

(** A problem that is written field by field. *)
Definition write_problem (code_ : Z) (type title detail code request_id : string) (missing : list string) (assurance : bool) : Response -> Response :=
  respond code_ (Problem (mkProblem type title code_ detail code request_id missing assurance)).

Definition text (parts : list string) : string := foldr String.append EmptyString parts.

(** The value of a [WWW-Authenticate] field, with its quotation marks. *)
Definition quoted (s : string) : string := text [of_chars [chr 34]; s; of_chars [chr 34]].
Definition bearer_error (error description : string) : string := text ["Bearer error="; quoted error; ", error_description="; quoted description]%string.

Definition k_request_id_header : string := "X-Request-Id".

(** [generate_uuid_v4]. *)
Definition uuid_v4_bytes (bytes : list Z) : list Z :=
  let b i := default 0 (bytes !! i) in
  <[8%nat := Z.lor (Z.land (b 8%nat) 63) 128]> (<[6%nat := Z.lor (Z.land (b 6%nat) 15) 64]> bytes).

Definition generate_uuid_v4 (bytes : list Z) : string := Uuid.to_string (uuid_v4_bytes bytes).

(** The policy, limits and configuration [main.cpp] builds the pipeline from. *)
Record GatewayResourceLimits := mkLimits { max_header_bytes : Z; max_body_bytes : Z; max_concurrent_connections : Z }.

Record GatewaySettings := mkSettings {
  security_policy : GatewaySecurityPolicy; limits : GatewayResourceLimits; rate_limiting : GatewayRateLimitingConfig }.

Definition str_bytes (s : string) : Z := Z.of_nat (String.length s).

Definition calculate_total_header_bytes (req : Request) : Z := foldr (fun f total => str_bytes (fst f) + str_bytes (snd f) + total) 0 (headers req).

(** [std::from_chars] for [size_t]: the leading digits, if there are any and they fit. *)
Definition from_chars (s : string) : option Z :=
  let digits := fst (span isdigit (chars s)) in
  let value := foldl (fun acc c => 10 * acc + (code c - code "0")) 0 digits in
  if bool_decide (digits = []) || (2 ^ 64 <=? value) then None else Some value.

Section perimeter.
Context `{HttpHeaders} (env : GatewayEnv) (settings : GatewaySettings).

Definition header_or (hs : Headers) (name alternative : string) : string := if has_header hs name then get_header_value hs name else alternative.

Definition RequestIdMiddleware : Middleware := fun next tl req res =>
  let req_id := header_or (headers req) k_request_id_header EmptyString in
  let* req_id := (if bool_decide (req_id = EmptyString) then let* bytes := rand_bytes env in Ret (generate_uuid_v4 bytes) else Ret req_id) in
  let* (tl, req, res) := next tl req (set_res_headers (set_header k_request_id_header req_id (res_headers res)) res) in
  Ret (tl, req, if has_header (res_headers res) k_request_id_header then res
                else set_res_headers (set_header k_request_id_header req_id (res_headers res)) res).

(** The line it prints is not modelled. *)
Definition LoggingMiddleware : Middleware := fun next tl req res =>
  let* start_time := steady_clock_now env in
  let* r := next tl req res in
  let* end_time := steady_clock_now env in Ret r.

(** [DrainManager::try_acquire] and the release of the lease. *)
Definition load_draining : gprog bool := locked (fun s => (is_draining s, s)).
Definition add_in_flight (n : Z) : gprog unit := locked (fun s => (tt, set_drain_state (is_draining s) (u64 (in_flight_requests s + n)) s)).

Definition try_acquire_lease : gprog bool :=
  let* draining := load_draining in
  if draining then Ret false
  else
    let* _ := add_in_flight 1 in
    let* draining := load_draining in
    if draining then let* _ := add_in_flight (-1) in Ret false else Ret true.

Definition drain_rejection (request_id : string) (res : Response) : Response :=
  write_problem 503 (k_type_of "server-shutting-down") "Server Shutting Down"
    "Server is undergoing graceful shutdown and cannot accept new requests" "SERVER_SHUTTING_DOWN" request_id [] false
    (set_res_headers (set_header "Connection" "close" (set_header "Retry-After" "5" (res_headers res))) res).

Definition DrainMiddleware : Middleware := fun next tl req res =>
  if bool_decide (path req = "/health/live"%string) || bool_decide (path req = "/health/ready"%string) then next tl req res
  else
    let* admitted := try_acquire_lease in
    if negb admitted then
      let request_id := from_option rc_request_id EmptyString (tl_current_request_context tl) in
      let request_id := if_empty request_id (header_or (res_headers res) k_request_id_header EmptyString) in
      let request_id := if_empty request_id (header_or (headers req) k_request_id_header EmptyString) in
      refuse tl req (drain_rejection request_id res)
    else
      let* r := next tl req res in
      let* _ := add_in_flight (-1) in Ret r.

(** [ResourceLimiterMiddleware]. *)
Definition limit_request_id (req : Request) (res : Response) : string :=
  header_or (res_headers res) k_request_id_header (header_or (headers req) k_request_id_header EmptyString).

Definition limit_problem (code_ : Z) (type title detail request_id : string) (res : Response) : Response :=
  write_problem code_ type title detail EmptyString request_id [] false
    (set_res_headers (set_header "Connection" "close" (res_headers res)) res).

(** The declared length; one that does not parse is not checked. *)
Definition declared_length (req : Request) : Z :=
  if has_header (headers req) "Content-Length" then default 0 (from_chars (get_header_value (headers req) "Content-Length")) else 0.

Definition ResourceLimiterMiddleware : Middleware := fun next tl req res =>
  let req_id := limit_request_id req res in
  if max_header_bytes (limits settings) <? calculate_total_header_bytes req then
    refuse tl req (limit_problem 431 "urn:securecloud:error:header_too_large" "Request Header Fields Too Large"
                     (text ["Request headers total size ("; decimal (calculate_total_header_bytes req); " bytes) exceeds maximum limit of ";
                            decimal (max_header_bytes (limits settings)); " bytes"]%string) req_id res)
  else if (max_body_bytes (limits settings) <? declared_length req) then
    refuse tl req (limit_problem 413 "urn:securecloud:error:payload_too_large" "Payload Too Large"
                     (text ["Content-Length ("; decimal (declared_length req); " bytes) exceeds maximum limit of ";
                            decimal (max_body_bytes (limits settings)); " bytes"]%string) req_id res)
  else if max_body_bytes (limits settings) <? str_bytes (body req) then
    refuse tl req (limit_problem 413 "urn:securecloud:error:payload_too_large" "Payload Too Large"
                     (text ["Request body size ("; decimal (str_bytes (body req)); " bytes) exceeds maximum limit of ";
                            decimal (max_body_bytes (limits settings)); " bytes"]%string) req_id res)
  else
    let* current := locked (fun s => (active_connections s, set_active_connections (u64 (active_connections s + 1)) s)) in
    if max_concurrent_connections (limits settings) <=? current then
      let* _ := locked (fun s => (tt, set_active_connections (u64 (active_connections s - 1)) s)) in
      refuse tl req (limit_problem 503 "urn:securecloud:error:service_unavailable" "Service Unavailable"
                       (String.append "Active in-flight requests reached concurrency capacity limit of " (decimal (max_concurrent_connections (limits settings)))) req_id
                       (set_res_headers (set_header "Retry-After" "5" (res_headers res)) res))
    else
      let* r := next tl req res in
      let* _ := locked (fun s => (tt, set_active_connections (u64 (active_connections s - 1)) s)) in Ret r.

(** *** Authentication *)

(** The checks of an identity against a rule that both middlewares make, in their order. *)
Inductive Refusal := mfa_required | insufficient_assurance | device_binding_required | insufficient_scope (missing_scopes : list string).

Definition check_rule (rule : RouteSecurityRule) (ctx : AuthenticatedContext) : option Refusal :=
  if requires_mfa rule && negb (is_mfa_verified ctx) then Some mfa_required
  else if auth_level ctx <? min_auth_level rule then Some insufficient_assurance
  else if require_device_bound rule && bool_decide (device_id ctx = EmptyString) then Some device_binding_required
  else
    let '(satisfied, missing_scopes) :=
      if negb (bool_decide (required_scopes rule = [])) then
        let ok := has_all_scopes (scopes ctx) (required_scopes rule) in
        (ok, if ok then [] else find_missing_scopes (scopes ctx) (required_scopes rule))
      else (bool_decide (alternative_scopes rule = []), []) in
    let '(satisfied, missing_scopes) :=
      if negb satisfied && negb (bool_decide (alternative_scopes rule = [])) then
        if has_any_scope (scopes ctx) (alternative_scopes rule) then (true, []) else (satisfied, missing_scopes)
      else (satisfied, missing_scopes) in
    if negb satisfied then Some (insufficient_scope missing_scopes) else None.

Definition scope_detail (missing_scopes : list string) : string :=
  match missing_scopes with
  | [] => "Token lacks required authorization scope"
  | missing :: _ => String.append "Token lacks required authorization scope: " missing
  end.

(** How [AuthenticationMiddleware] words the refusals. *)
Definition authentication_refusal (request_id : string) (r : Refusal) : Response -> Response :=
  match r with
  | mfa_required => write_problem 403 (k_type_of "mfa-required") "MFA Required"
      "Endpoint requires verified multi-factor authentication (MFA)" "MFA_REQUIRED" request_id [] false
  | insufficient_assurance => write_problem 403 (k_type_of "insufficient-assurance") "Forbidden"
      "Authentication assurance level is insufficient" "INSUFFICIENT_ASSURANCE" request_id [] false
  | device_binding_required => write_problem 403 (k_type_of "device-binding-required") "Device Binding Required"
      "Endpoint requires an attested device binding" "DEVICE_BINDING_REQUIRED" request_id [] false
  | insufficient_scope missing => write_problem 403 (k_type_of "insufficient-scope") "Forbidden"
      (scope_detail missing) "INSUFFICIENT_SCOPE" request_id missing false
  end.

Definition set_response_header (name v : string) (res : Response) : Response := set_res_headers (set_header name v (res_headers res)) res.

(** The switch over the kind of a validation error. *)
Definition validation_refusal (request_id : string) (err : TokenValidationError) (res : Response) : Response :=
  let say default := if_empty (te_message err) default in
  match te_kind err with
  | TokenExpired => write_error 401 "TOKEN_EXPIRED" (say "Access token has expired") request_id
      (set_response_header "WWW-Authenticate" (bearer_error "invalid_token" "The access token expired") res)
  | SessionRevoked => write_error 401 "SESSION_REVOKED" (say "Session has been revoked or is no longer active") request_id
      (set_response_header "WWW-Authenticate" (bearer_error "invalid_token" "The session was revoked") res)
  | ServiceUnavailable => write_error 503 "SERVICE_UNAVAILABLE" (say "Authentication authority unavailable") request_id
      (set_response_header "Retry-After" "5" res)
  | InvalidSignature | MalformedToken => write_error 401 "INVALID_TOKEN" (say "Invalid access token") request_id
      (set_response_header "WWW-Authenticate" (bearer_error "invalid_token" "Invalid token signature or structure") res)
  | MfaRequired => write_error 403 "MFA_REQUIRED" (say "Multi-factor authentication (MFA) required") request_id res
  | InsufficientScope => write_error 403 "INSUFFICIENT_SCOPE" (say "Token lacks required authorization scope") request_id res
  | InternalError => write_error 500 "INTERNAL_ERROR" "Internal authentication failure" request_id res
  end.

(** [ScopedRequestContext] restores the previous context; [ScopedContextBinding] resets
    its pointer to null. *)
Definition with_request_context (rc : RequestContext) (next : Next) : Next := fun tl req res =>
  let* (tl', req, res) := next (mkThread (Some rc) (tl_current_authenticated_context tl)) req res in
  Ret (mkThread (tl_current_request_context tl) (tl_current_authenticated_context tl'), req, res).

Definition with_identity (ctx : AuthenticatedContext) (next : Next) : Next := fun tl req res =>
  let* (tl', req, res) := next (mkThread (tl_current_request_context tl) (Some ctx)) req res in
  Ret (mkThread (tl_current_request_context tl') None, req, res).

(** The validator takes the token and the session identifier the client sent, if any. *)
Context (validate : string -> string -> gprog (result TokenValidationError AuthenticatedContext)).

Definition AuthenticationMiddleware : Middleware := fun next tl req res =>
  let session := header_or (headers req) "x-session-id" EmptyString in
  let req := set_headers (sanitize (headers req)) req in
  let request_id := header_or (headers req) "x-request-id" (header_or (res_headers res) "x-request-id" EmptyString) in
  let* now := system_clock_now env in
  let now_ms := to_ms now in
  let client_ip := remote_addr req in
  let rule := evaluate (security_policy settings) (method req) (path req) in
  if is_public rule then with_request_context (mkRequestContext request_id client_ip now_ms None) next tl req res
  else
    match extract (headers req) with
    | Err _ => refuse tl req (write_error 401 "UNAUTHENTICATED" "Missing or malformed Authorization header" request_id
                 (set_response_header "WWW-Authenticate" (bearer_error "invalid_token" "Missing or malformed Authorization header") res))
    | Ok token =>
        let* verdict := validate token session in
        match verdict with
        | Err err => refuse tl req (validation_refusal request_id err res)
        | Ok ctx =>
            match check_rule rule ctx with
            | Some r => refuse tl req (authentication_refusal request_id r res)
            | None => with_request_context (mkRequestContext request_id client_ip now_ms (Some ctx)) (with_identity ctx next) tl req res
            end
        end
    end.

(** *** Rate limit *)

(** The first address of [X-Forwarded-For], else the address of the peer. *)
Definition first_forwarded (xff : string) : list ascii := trim_whitespace (fst (span (fun c => bool_decide (c <> ","%char)) (chars xff))).

Definition address_key (req : Request) : string :=
  let forwarded := if has_header (headers req) "X-Forwarded-For" then first_forwarded (get_header_value (headers req) "X-Forwarded-For") else [] in
  if negb (bool_decide (forwarded = [])) then String.append "ip:" (of_chars forwarded)
  else if negb (bool_decide (remote_addr req = EmptyString)) then String.append "ip:" (remote_addr req)
  else "ip:anonymous"%string.

Definition current_identity (tl : ThreadLocals) : option AuthenticatedContext :=
  match tl_current_request_context tl with Some rc => rc_auth_context rc | None => None end.

Definition resolve_client_key (tl : ThreadLocals) (req : Request) : string :=
  match current_identity tl with
  | Some ctx => if bool_decide (user_id ctx = EmptyString) then address_key req else String.append "user:" (user_id ctx)
  | None => address_key req
  end.

Definition rate_request_id (tl : ThreadLocals) (req : Request) (res : Response) : string :=
  if_empty (from_option rc_request_id EmptyString (tl_current_request_context tl))
    (header_or (res_headers res) "X-Request-ID" (header_or (headers req) "X-Request-ID" EmptyString)).

(** The clock is read under the lock of the limiter. *)
Definition acquire_now (key : string) : gprog AcquireResult :=
  locked (fun s =>
    let '(r, rl) := acquire_slot (rate_limiting settings) key (steady_clock env (steady_reads s)) (limiter s) in
    (r, set_limiter rl (set_reads (system_reads s) (S (steady_reads s)) (random_reads s) s))).

Definition prune_now : gprog Z :=
  locked (fun s =>
    let '(pruned, rl) := prune_expired (rate_limiting settings) (steady_clock env (steady_reads s)) (limiter s) in
    (pruned, set_limiter rl (set_reads (system_reads s) (S (steady_reads s)) (random_reads s) s))).

Definition RateLimiterMiddleware : Middleware := fun next tl req res =>
  if negb (rl_enabled (rate_limiting settings)) then next tl req res
  else
    let key := resolve_client_key tl req in
    let* result := acquire_now key in
    if allowed result then
      next tl req (set_response_header "X-RateLimit-Remaining" (decimal (remaining result))
                     (set_response_header "X-RateLimit-Limit" (decimal (limit result)) res))
    else
      let res := set_response_header "X-RateLimit-Reset" (decimal (reset_sec result))
        (set_response_header "X-RateLimit-Remaining" "0" (set_response_header "X-RateLimit-Limit" (decimal (limit result))
        (set_response_header "Retry-After" (decimal (retry_after_sec result)) (set_response_header "Content-Type" "application/problem+json" res)))) in
      refuse tl req (respond 429 (Problem (format_problem_details 429 (k_type_of "rate-limit-exceeded") "Too Many Requests"
        "Client rate limit exceeded; retry after backoff" "RATE_LIMIT_EXCEEDED" (rate_request_id tl req res))) res).

(** *** Authorization *)

(** [Router::get_authenticated_context]. *)
Definition authenticated_context_of (tl : ThreadLocals) : option AuthenticatedContext :=
  match current_identity tl with Some ctx => Some ctx | None => tl_current_authenticated_context tl end.

Definition authorization_refusal (request_id : string) (r : Refusal) : Response -> Response :=
  match r with
  | mfa_required => write_problem 403 (k_type_of "mfa-required") "MFA Required"
      "Operation requires multi-factor authentication" "MFA_REQUIRED" request_id [] true
  | _ => authentication_refusal request_id r
  end.

(** The identity is written into the request for the services behind the gateway. *)
Definition propagate_identity (ctx : AuthenticatedContext) (hs : Headers) : Headers :=
  let hs := if bool_decide (user_id ctx = EmptyString) then hs else set_header "x-user-id" (user_id ctx) hs in
  let hs := if bool_decide (device_id ctx = EmptyString) then hs else set_header "x-device-id" (device_id ctx) hs in
  set_header "x-auth-level" (if is_mfa_verified ctx then "mfa_verified" else "primary") hs.

Definition AuthorizationMiddleware : Middleware := fun next tl req res =>
  let request_id := header_or (headers req) "x-request-id" (header_or (res_headers res) "x-request-id"
                      (from_option rc_request_id EmptyString (tl_current_request_context tl))) in
  let rule := evaluate (security_policy settings) (method req) (path req) in
  if is_public rule then next tl req res
  else
    match authenticated_context_of tl with
    | None => refuse tl req (write_problem 401 (k_type_of "unauthenticated") "Unauthorized" "Authentication required for this route"
                "UNAUTHENTICATED" request_id [] false
                (set_response_header "WWW-Authenticate" (bearer_error "unauthorized" "Authentication required") res))
    | Some ctx =>
        match check_rule rule ctx with
        | Some r => refuse tl req (authorization_refusal request_id r res)
        | None => next tl (set_headers (propagate_identity ctx (headers req)) req) res
        end
    end.

(** ** Router *)

(** A registered handler; [Authenticated] is the wrapper of [add_authenticated_route]. *)
Inductive RouteHandler := Plain (h : Handler) | Authenticated (h : Handler).

Record ParameterizedRoute := mkParamRoute {
  r_method : string; raw_path : string; param_names : list string; r_regex : list Token; r_handler : RouteHandler }.

Record Router := mkRouter {
  routes : gmap (string * string) RouteHandler; path_methods : gmap string (list string); parameterized_routes : list ParameterizedRoute }.

Definition empty_router : Router := mkRouter ∅ ∅ [].

Definition add_route (m p : string) (h : RouteHandler) (router : Router) : Router :=
  let methods := <[p := default [] (path_methods router !! p) ++ [m]]> (path_methods router) in
  if is_parameterized_pattern p then
    let '(re, params) := compile_pattern p in
    mkRouter (routes router) methods (parameterized_routes router ++ [mkParamRoute m p params re h])
  else mkRouter (<[(m, p) := h]> (routes router)) methods (parameterized_routes router).

(** A handler that runs is recorded; what it answers, and whether it throws, is up to it. *)
Definition run_route (h : Handler) (ctx : option AuthenticatedContext) (tl : ThreadLocals) (req : Request) (res : Response) : gprog (Response * bool) :=
  let call := mkHandlerCall h req ctx (tl_current_request_context tl) in
  locked (fun s => (run_handler env (length (served s)) call res, set_served (served s ++ [call]) s)).

Definition response_request_id (res : Response) : string := header_or (res_headers res) k_request_id_header EmptyString.

Definition call_route (h : RouteHandler) (tl : ThreadLocals) (req : Request) (res : Response) : gprog (Response * bool) :=
  match h with
  | Plain h => run_route h None tl req res
  | Authenticated h =>
      match authenticated_context_of tl with
      | None => Ret (write_error 401 "UNAUTHENTICATED" "Authenticated context missing from request execution scope" (response_request_id res) res, false)
      | Some ctx => run_route h (Some ctx) tl req res
      end
  end.

(** An exception of the handler is caught in [dispatch_route]. *)
Definition caught (tl : ThreadLocals) (req : Request) (r : Response * bool) : gprog (ThreadLocals * Request * Response) :=
  let '(res, threw) := r in
  Ret (tl, req, if threw : bool then write_error 500 "INTERNAL_ERROR" "An internal error occurred" (response_request_id res) res else res).

(** The first route of the method whose pattern matches, with the values of its groups. *)
Fixpoint find_route (m p : string) (l : list ParameterizedRoute) : option (ParameterizedRoute * list string) :=
  match l with
  | [] => None
  | r :: l =>
      if bool_decide (r_method r = m) || bool_decide (r_method r = "*"%string) then
        match regex_match p (r_regex r) with Some caps => Some (r, caps) | None => find_route m p l end
      else find_route m p l
  end.

Definition bind_params (names values : list string) (req : Request) : Request :=
  set_path_params (foldl (fun ps nv => <[fst nv := snd nv]> ps) (path_params req) (zip names values)) req.

Definition allow_header (methods : list string) : string :=
  match methods with [] => EmptyString | m :: rest => text (m :: ((fun m => String.append ", " m) <$> rest)) end.

Definition method_not_allowed (methods : list string) (res : Response) : Response :=
  let res := set_response_header "Allow" (allow_header methods) res in
  write_error 405 "METHOD_NOT_ALLOWED" "Method not allowed for requested path" (response_request_id res) res.

Definition dispatch_route (router : Router) : Next := fun tl req res =>
  match routes router !! (method req, path req) with
  | Some h => let* r := call_route h tl req res in caught tl req r
  | None =>
      match find_route (method req) (path req) (parameterized_routes router) with
      | Some (route, caps) =>
          let req := bind_params (param_names route) caps req in
          let* r := call_route (r_handler route) tl req res in caught tl req r
      | None =>
          match path_methods router !! path req with
          | Some methods => Ret (tl, req, method_not_allowed methods res)
          | None =>
              let param_allowed_methods :=
                r_method <$> List.filter (fun r => bool_decide (is_Some (regex_match (path req) (r_regex r)))) (parameterized_routes router) in
              if negb (bool_decide (param_allowed_methods = [])) then Ret (tl, req, method_not_allowed param_allowed_methods res)
              else Ret (tl, req, write_error 404 "NOT_FOUND" "Resource not found" (response_request_id res) res)
          end
      end
  end.

(** ** Assembly *)

(** [Router::Router] and the calls of [use] in [main.cpp]. *)
Definition middlewares : list Middleware :=
  [RequestIdMiddleware; RequestIdMiddleware; LoggingMiddleware; DrainMiddleware; ResourceLimiterMiddleware;
   AuthenticationMiddleware; RateLimiterMiddleware; AuthorizationMiddleware].

Definition handle (router : Router) : Next := execute_pipeline middlewares (dispatch_route router).

End perimeter.

(** The routes that [register_all_routes] registers in the deployed gateway, which has a
    proxy for files and none for messages. *)
Definition deployed_routes : list (string * string * RouteHandler) :=
  [("GET", "/health/live", Plain health_live);
   ("GET", "/health/ready", Plain health_ready);
   ("POST", "/api/v1/auth/login", Plain handle_login);
   ("POST", "/api/v1/auth/refresh", Plain handle_refresh);
   ("POST", "/api/v1/auth/revoke", Authenticated handle_revoke);
   ("GET", "/api/v1/users/me", Authenticated handle_get_me);
   ("POST", "/api/v1/devices", Authenticated handle_register_device);
   ("GET", "/api/v1/users/:user_id/devices/crypto-directory", Authenticated handle_get_device_crypto_directory);
   ("GET", "/api/v1/devices/:device_id/crypto-identity", Authenticated handle_get_crypto_identity);
   ("POST", "/api/v1/devices/:device_id/prekeys", Authenticated handle_update_crypto_prekeys);
   ("GET", "/api/v1/devices/:device_id/prekeys/inventory", Authenticated handle_get_prekey_inventory);
   ("POST", "/api/v1/devices/:device_id/prekeys/claim", Authenticated handle_claim_device_prekey);
   ("POST", "/api/v1/auth/mfa/enroll", Authenticated handle_initiate_mfa_enrollment);
   ("POST", "/api/v1/auth/mfa/confirm", Authenticated handle_confirm_mfa_enrollment);
   ("POST", "/api/v1/auth/mfa/verify", Authenticated handle_verify_mfa_challenge);
   ("POST", "/api/v1/auth/mfa/challenge", Authenticated handle_verify_mfa_challenge);
   ("POST", "/api/v1/auth/mfa/disable", Authenticated handle_disable_mfa);
   ("GET", "/api/v1/devices", Authenticated handle_list_devices);
   ("GET", "/api/v1/devices/:device_id", Authenticated handle_get_device);
   ("POST", "/api/v1/devices/pairing", Authenticated handle_initiate_device_pairing);
   ("POST", "/api/v1/devices/pair", Authenticated handle_initiate_device_pairing);
   ("POST", "/api/v1/devices/:device_id/authorize", Authenticated handle_authorize_device);
   ("DELETE", "/api/v1/devices/:device_id", Authenticated handle_revoke_device);
   ("POST", "/api/v1/devices/:device_id/revoke", Authenticated handle_revoke_device);
   ("GET", "/api/v1/auth/me", Authenticated handle_get_me);
   ("POST", "/api/v1/auth/device/register", Authenticated handle_register_device);
   ("POST", "/api/v1/auth/logout", Authenticated handle_revoke);
   ("POST", "/api/v1/files/upload/init", Authenticated handle_upload_init);
   ("POST", "/api/v1/files/upload/chunk", Authenticated handle_upload_chunk);
   ("POST", "/api/v1/files/upload/finalize", Authenticated handle_upload_finalize);
   ("POST", "/api/v1/files/upload/cancel", Authenticated handle_upload_cancel);
   ("GET", "/api/v1/files/:file_id/metadata", Authenticated handle_get_metadata);
   ("GET", "/api/v1/files/:file_id/chunks/:chunk_index", Authenticated handle_download_chunk);
   ("GET", "/api/v1/files/:file_id/download", Authenticated handle_streaming_download);
   ("DELETE", "/api/v1/files/:file_id", Authenticated handle_delete_file);
   ("POST", "/api/v1/messages/send", Authenticated messaging_stub);
   ("GET", "/api/v1/messages/inbox", Authenticated messaging_stub);
   ("GET", "/api/v1/messages/conversations", Authenticated messaging_stub);
   ("GET", "/api/v1/audit/events", Authenticated audit_stub)]%string.

Definition deployed_router : Router := foldl (fun router r => add_route r.1.1 r.1.2 r.2 router) empty_router deployed_routes.

