(* ===== verification/GatewaySpec.v ===== *)
(** * What the perimeter guarantees

    A handler behind the gateway runs only on requests that the policy opens to
    everybody, or for an identity that the validator vouched for and that the rule of the
    route accepts; and it sees no identity header that the client wrote.  The threads of
    the server interleave at every step of every middleware; the validator is any program
    that keeps the contract [ValidatorSpec]. *)

From S2P Require Import Prelude Ids AuditValidation Prog Retry Http Credentials RoutePolicy RateLimiter Gateway.
From Stdlib Require Import Ascii.
#[local] Open Scope Z_scope.

(** ** Rely and guarantee: the logs only grow *)

Definition grows (s s' : GatewayState) : Prop :=
  validations s `prefix_of` validations s' /\ served s `prefix_of` served s' /\ (system_reads s <= system_reads s')%nat.

#[export] Instance grows_preorder : PreOrder grows.
Proof.
  unfold grows. split.
  - intros s. split_and!; [done|done|lia].
  - intros a b c (? & ? & ?) (? & ? & ?). split_and!; [by etransitivity|by etransitivity|lia].
Qed.

(** ** The contract of a token validator *)

(** A request is received when [AuthenticationMiddleware] reads the clock: [received] is
    the number of that reading, and the validator reads the clock after it.  Nothing is
    assumed about the times the clock shows. *)

(** A token as the extractor returns it. *)
Definition plain_token (token : string) : Prop := token <> EmptyString /\ Forall is_valid_b64token_char (chars token).

Class ValidatorSpec (validate : string -> string -> gprog (result TokenValidationError AuthenticatedContext)) := {
  validator_inv : GatewayState -> Prop;
  vouches : GatewayState -> string -> string -> nat -> AuthenticatedContext -> Prop;
  validator_frame s s' : token_cache s' = token_cache s -> validations s' = validations s -> validator_inv s -> validator_inv s';
  vouches_grows s s' token session received ctx : grows s s' -> vouches s token session received ctx -> vouches s' token session received ctx;
  validate_spec (J : GatewayState -> Prop) token session received s :
    (forall s s', grows s s' -> served s' = served s -> J s -> J s') -> plain_token token -> (received < system_reads s)%nat ->
    validator_inv s -> J s ->
    wpr (fun s => validator_inv s /\ J s) grows (validate token session)
      (fun r s' => forall ctx, r = Ok ctx -> vouches s' token session received ctx) s }.

(** ** What a call of a handler must satisfy *)

Section perimeter.
Context `{HttpHeaders} (env : GatewayEnv) (settings : GatewaySettings).
Context (validate : string -> string -> gprog (result TokenValidationError AuthenticatedContext)) `{!ValidatorSpec validate}.
Context (router : Router).
(** The requests that arrive. *)
Context (arrives : Request -> Prop).

Definition rule_of (req : Request) : RouteSecurityRule := evaluate (security_policy settings) (method req) (path req).

Definition presents (req : Request) (token : string) : Prop :=
  exists name v, (name, v) ∈ headers req /\ same_name k_authorization_header name /\ extract_from_header v = Ok token.

Definition no_identity (req : Request) : Prop := forall f, f ∈ headers req -> is_identity_header (fst f) = false.

Definition identity_of (ctx : AuthenticatedContext) (req : Request) : Prop :=
  forall f, f ∈ headers req -> is_identity_header (fst f) = true ->
  f = ("x-user-id", user_id ctx)%string \/ f = ("x-device-id", device_id ctx)%string \/
  f = ("x-auth-level"%string, if is_mfa_verified ctx then "mfa_verified" else "primary")%string.

(** The session the client named, or none. *)
Definition named_session (req : Request) : string := header_or (headers req) "x-session-id" EmptyString.

(** A request on its way through the middlewares. *)
Definition stems_from (req0 req : Request) : Prop := arrives req0 /\ method req = method req0 /\ path req = path req0.

(** The identity a protected request runs under. *)
Definition identified (s : GatewayState) (rc : RequestContext) (req : Request) (ctx : AuthenticatedContext) : Prop :=
  is_public (rule_of req) = false /\ authorized (rule_of req) ctx /\ rc_auth_context rc = Some ctx /\
  exists req0 token received, stems_from req0 req /\ presents req token /\ rc_timestamp_ms rc = to_ms (system_clock env received) /\
    vouches s token (named_session req0) received ctx.

(** The router sends the request to the handler. *)
Definition handler_of (h : RouteHandler) : Handler := match h with Plain h => h | Authenticated h => h end.

Definition routes_to (req : Request) (rh : RouteHandler) : Prop :=
  routes router !! (method req, path req) = Some rh \/
  exists r caps, r ∈ parameterized_routes router /\ (r_method r = method req \/ r_method r = "*"%string) /\
    regex_match (path req) (r_regex r) = Some caps /\ r_handler r = rh.

(** A call was routed, and the handler of an authenticated route has an identity. *)
Definition routed (call : HandlerCall) : Prop :=
  exists rh, routes_to (hc_request call) rh /\ handler_of rh = hc_handler call /\
    match rh with Plain _ => hc_context call = None | Authenticated _ => is_Some (hc_context call) end.

Definition justified (s : GatewayState) (call : HandlerCall) : Prop :=
  routed call /\
  exists rc, hc_request_context call = Some rc /\
  ((is_public (rule_of (hc_request call)) = true /\ hc_context call = None /\ no_identity (hc_request call)) \/
   exists ctx, identified s rc (hc_request call) ctx /\ identity_of ctx (hc_request call) /\ (hc_context call = None \/ hc_context call = Some ctx)).

Definition served_ok (s : GatewayState) : Prop := forall call, call ∈ served s -> justified s call.
Definition gateway_inv (s : GatewayState) : Prop := validator_inv s /\ served_ok s.

Lemma identified_grows s s' rc req ctx : grows s s' -> identified s rc req ctx -> identified s' rc req ctx.
Proof.
  intros Hg (H1 & H2 & H3 & req0 & token & received & H4 & H5 & H6 & H7). split_and!; [done..|]. exists req0, token, received.
  split_and!; [done..|]. by eapply vouches_grows.
Qed.

Lemma justified_grows s s' call : grows s s' -> justified s call -> justified s' call.
Proof.
  intros Hg (Hr & rc & Hrc & [Hp|(ctx & Hi & Hh & Hc)]); (split; [done|]); exists rc; (split; [done|]); [by left|right]. exists ctx.
  split; [by eapply identified_grows|done].
Qed.

Lemma served_frame s s' : grows s s' -> served s' = served s -> served_ok s -> served_ok s'.
Proof. intros Hg He Hs call Hc. rewrite He in Hc. eapply justified_grows; [done|by apply Hs]. Qed.

(** A step that touches none of the logs. *)
Definition unrelated (s s' : GatewayState) : Prop :=
  token_cache s' = token_cache s /\ validations s' = validations s /\ served s' = served s /\ (system_reads s <= system_reads s')%nat.

Lemma unrelated_grows s s' : unrelated s s' -> grows s s'.
Proof. intros (_ & Hv & Hs & ?). unfold grows. rewrite Hv, Hs. by split_and!. Qed.

Lemma unrelated_inv s s' : unrelated s s' -> gateway_inv s -> gateway_inv s'.
Proof.
  intros Hu [Hv Hs]. split; [|by eapply served_frame; [apply unrelated_grows|apply Hu|]]. destruct Hu as (? & ? & _). by eapply validator_frame.
Qed.

Abbreviation safely := (wpr gateway_inv grows).

Lemma safely_locked {A R} (f : GatewayState -> A * GatewayState) (k : A -> gprog R) Q s :
  (forall s', unrelated s' (snd (f s'))) -> (forall a s', grows s s' -> gateway_inv s' -> safely (k a) Q s') -> safely (pbind (locked f) k) Q s.
Proof.
  intros Hf Hk. apply wpr_locked. intros s' Hs HI. specialize (Hf s'). assert (gateway_inv (snd (f s'))) by by eapply unrelated_inv.
  assert (grows s' (snd (f s'))) by by apply unrelated_grows. split_and!; [done..|]. apply Hk; [by transitivity s'|done].
Qed.

Lemma safely_clock {R} (k : Z -> gprog R) Q s :
  (forall n s', (n < system_reads s')%nat -> grows s s' -> gateway_inv s' -> safely (k (system_clock env n)) Q s') ->
  safely (pbind (system_clock_now env) k) Q s.
Proof.
  intros Hk s' Hs HI. cbn [pbind].
  assert (Hu : unrelated s' (set_reads (S (system_reads s')) (steady_reads s') (random_reads s') s')) by (split_and!; cbn; [done..|lia]).
  split_and!; [by eapply unrelated_inv|by apply unrelated_grows|]. apply Hk.
  - cbn. lia.
  - transitivity s'; [done|by apply unrelated_grows].
  - by eapply unrelated_inv.
Qed.

Lemma safely_steady {R} (k : Z -> gprog R) Q s :
  (forall now s', grows s s' -> gateway_inv s' -> safely (k now) Q s') -> safely (pbind (steady_clock_now env) k) Q s.
Proof.
  intros Hk s' Hs HI. assert (Hu : unrelated s' (set_reads (system_reads s') (S (steady_reads s')) (random_reads s') s')) by (split_and!; cbn; done || lia).
  split_and!; [by eapply unrelated_inv|by apply unrelated_grows|]. apply Hk; [|by eapply unrelated_inv]. transitivity s'; [done|by apply unrelated_grows].
Qed.

Lemma safely_random {R} (k : list Z -> gprog R) Q s :
  (forall bytes s', grows s s' -> gateway_inv s' -> safely (k bytes) Q s') -> safely (pbind (rand_bytes env) k) Q s.
Proof.
  intros Hk s' Hs HI. assert (Hu : unrelated s' (set_reads (system_reads s') (steady_reads s') (S (random_reads s')) s')) by (split_and!; cbn; done || lia).
  split_and!; [by eapply unrelated_inv|by apply unrelated_grows|]. apply Hk; [|by eapply unrelated_inv]. transitivity s'; [done|by apply unrelated_grows].
Qed.

(** ** Middlewares, one by one

    A chain is safe under a condition on the thread and the request if it keeps the
    invariant and gives the thread-local pointers back as it found them. *)

Definition Condition : Type := ThreadLocals -> Request -> GatewayState -> Prop.

Definition safe (P : Condition) (next : Next) : Prop :=
  forall tl req res s, gateway_inv s -> P tl req s -> safely (next tl req res) (fun r _ => r.1.1 = tl) s.

Definition stable (P : Condition) : Prop := forall tl req s s', grows s s' -> P tl req s -> P tl req s'.

(** A middleware that passes the request on unchanged. *)
Lemma safe_then P next {R} (k : ThreadLocals * Request * Response -> gprog R) tl req res s (Q : R -> GatewayState -> Prop) :
  safe P next -> gateway_inv s -> P tl req s ->
  (forall req' res' s', gateway_inv s' -> grows s s' -> safely (k (tl, req', res')) Q s') -> safely (pbind (next tl req res) k) Q s.
Proof.
  intros Hn HI HP Hk. apply wpr_bind; [apply _|done|]. eapply wpr_mono; [|by apply Hn]. intros [[tl' req'] res'] s' Htl HI' Hs'. cbn in Htl. subst.
  by apply Hk.
Qed.

Lemma RequestId_safe P next : stable P -> safe P next -> safe P (RequestIdMiddleware env next).
Proof.
  intros HP Hn tl req res s HI Hpre. unfold RequestIdMiddleware. apply wpr_bind; [apply _|done|].
  assert (Hgo : forall id s', gateway_inv s' -> grows s s' ->
    safely (let* (tl, req, res) := next tl req (set_res_headers (set_header k_request_id_header id (res_headers res)) res) in
      Ret (tl, req, if has_header (res_headers res) k_request_id_header then res
                else set_res_headers (set_header k_request_id_header id (res_headers res)) res)) (fun r _ => r.1.1 = tl) s').
  { intros id s' HI' Hs'. eapply safe_then; [exact Hn|done|by eapply HP|]. by intros req' res' s'' _ _. }
  case_bool_decide.
  - apply safely_random. intros bytes s' Hs' HI' HI'' _. by apply Hgo.
  - intros HI' Hs'. by apply Hgo.
Qed.

Lemma Logging_safe P next : stable P -> safe P next -> safe P (LoggingMiddleware env next).
Proof.
  intros HP Hn tl req res s HI Hpre. unfold LoggingMiddleware. apply safely_steady. intros now s' Hs' HI'.
  eapply safe_then; [exact Hn|done|by eapply HP|]. intros req' res' s'' HI'' Hs''. apply safely_steady. by intros _ s3 _ _.
Qed.

Lemma drain_unrelated b n s : unrelated s (set_drain_state b n s).
Proof. by split_and!. Qed.

Lemma Drain_safe P next : stable P -> safe P next -> safe P (DrainMiddleware next).
Proof.
  intros HP Hn tl req res s HI Hpre. unfold DrainMiddleware. destruct (_ || _); [by apply Hn|].
  apply wpr_bind; [apply _|done|]. unfold try_acquire_lease, load_draining, add_in_flight.
  apply safely_locked; [by intros s'; split_and!|]. intros draining s1 Hs1 HI1.
  assert (Hrefuse : forall s', gateway_inv s' -> grows s s' -> gateway_inv s' -> grows s s' ->
    safely (refuse tl req (drain_rejection (if_empty (if_empty (from_option rc_request_id EmptyString (tl_current_request_context tl))
      (header_or (res_headers res) k_request_id_header EmptyString)) (header_or (headers req) k_request_id_header EmptyString)) res))
      (fun r _ => r.1.1 = tl) s') by done.
  destruct draining; [by intros HI' Hs'; apply Hrefuse|].
  apply safely_locked; [by intros s'; apply drain_unrelated|]. intros _ s2 Hs2 HI2.
  apply safely_locked; [by intros s'; split_and!|]. intros draining s3 Hs3 HI3. destruct draining.
  - apply safely_locked; [by intros s'; apply drain_unrelated|]. intros _ s4 Hs4 HI4 HI' Hs'. by apply Hrefuse.
  - intros HI' Hs'. cbn [negb]. eapply safe_then; [exact Hn|done|by eapply HP|]. intros req' res' s5 HI5 Hs5.
    apply safely_locked; [by intros s'; apply drain_unrelated|]. by intros _ s6 _ _.
Qed.

Lemma ResourceLimiter_safe P next : stable P -> safe P next -> safe P (ResourceLimiterMiddleware settings next).
Proof.
  intros HP Hn tl req res s HI Hpre. unfold ResourceLimiterMiddleware. do 3 (case_match; [done|]).
  apply safely_locked; [by intros s'; split_and!|]. intros current s1 Hs1 HI1. case_match.
  - apply safely_locked; [by intros s'; split_and!|]. by intros _ s2 _ _.
  - eapply safe_then; [exact Hn|done|by eapply HP|]. intros req' res' s2 HI2 Hs2. apply safely_locked; [by intros s'; split_and!|]. by intros _ s3 _ _.
Qed.

Lemma RateLimiter_safe P next : stable P -> safe P next -> safe P (RateLimiterMiddleware env settings next).
Proof.
  intros HP Hn tl req res s HI Hpre. unfold RateLimiterMiddleware. case_match; [by apply Hn|].
  apply safely_locked; [intros s'; by destruct (acquire_slot _ _ _ _)|]. intros result s2 Hs2 HI2. case_match; [|done].
  apply Hn; [done|]. by eapply HP.
Qed.

(** ** Dispatch *)

(** What holds of a thread and its request behind the authentication, and behind the
    authorization. *)
Definition entered (headers_ok : option AuthenticatedContext -> Request -> Prop) : Condition := fun tl req s =>
  exists rc, tl_current_request_context tl = Some rc /\
  ((is_public (rule_of req) = true /\ rc_auth_context rc = None /\ tl_current_authenticated_context tl = None /\ headers_ok None req) \/
   exists ctx, identified s rc req ctx /\ headers_ok (Some ctx) req).

Definition behind_authentication : Condition := entered (fun _ req => no_identity req).
Definition behind_authorization : Condition :=
  entered (fun ctx req => match ctx with None => no_identity req | Some ctx => identity_of ctx req end).

Lemma entered_stable ok : stable (entered ok).
Proof.
  intros tl req s s' Hs (rc & Hrc & [Hp|(ctx & Hi & Hh)]); exists rc; (split; [done|]); [by left|right].
  exists ctx. split; [by eapply identified_grows|done].
Qed.

Lemma identity_seen tl rc : tl_current_request_context tl = Some rc -> current_identity tl = rc_auth_context rc.
Proof. unfold current_identity. by intros ->. Qed.

Lemma run_route_safe h ctx tl req res s :
  gateway_inv s ->
  (forall s', grows s s' -> justified s' (mkHandlerCall h req ctx (tl_current_request_context tl))) ->
  safely (run_route env h ctx tl req res) (fun _ _ => True) s.
Proof.
  intros HI Hj. unfold run_route. set (call := mkHandlerCall _ _ _ _) in *. intros s' Hs HI'. cbn [fst snd].
  assert (Hg : grows s' (set_served (served s' ++ [call]) s')) by (split_and!; cbn; [done|by eexists|done]).
  split; [|by split]. split; [apply (validator_frame s'); [done|done|apply HI']|].
  intros c Hc. cbn [served set_served] in Hc. apply elem_of_app in Hc as [Hc|Hc%list_elem_of_singleton].
  - eapply justified_grows; [done|by apply HI'].
  - subst c. apply Hj. by transitivity s'.
Qed.

Lemma call_route_safe h tl req res s :
  gateway_inv s -> behind_authorization tl req s -> routes_to req h -> safely (call_route env h tl req res) (fun _ _ => True) s.
Proof.
  intros HI Hpre Hroute.
  assert (Hj : forall ctx, (match h with Plain _ => ctx = None | Authenticated _ => is_Some ctx end) ->
    (ctx = None \/ ctx = authenticated_context_of tl) ->
    forall s', grows s s' -> justified s' (mkHandlerCall (handler_of h) req ctx (tl_current_request_context tl))).
  { intros ctx Hsome Hctx s' Hs'. split; [by exists h|].
    destruct (entered_stable _ _ _ _ _ Hs' Hpre) as (rc & Hrc & [(Hp & Hn & Htl & Hh)|(c & Hi & Hh)]); exists rc; (split; [done|]).
    - left. cbn. split_and!; [done| |done]. destruct Hctx as [->| ->]; [done|]. unfold authenticated_context_of. by rewrite (identity_seen _ _ Hrc), Hn.
    - right. exists c. split_and!; [done|done|]. cbn. destruct Hctx as [->| ->]; [by left|right]. unfold authenticated_context_of.
      rewrite (identity_seen _ _ Hrc). by destruct Hi as (_ & _ & -> & _). }
  destruct h as [h|h]; cbn [call_route]; [apply run_route_safe; [done|]; apply Hj; by try left|].
  destruct (authenticated_context_of tl) as [ctx|] eqn:E; [|done]. apply run_route_safe; [done|]. apply Hj; [by eexists|by right].
Qed.

Lemma caught_safe h tl req req0 res s :
  gateway_inv s -> behind_authorization tl req s -> routes_to req h -> safely (pbind (call_route env h tl req res) (caught tl req0)) (fun r _ => r.1.1 = tl) s.
Proof.
  intros HI Hpre Hroute. apply wpr_bind; [apply _|done|]. eapply wpr_mono; [|by apply call_route_safe]. by intros [res' threw] s' _ _ _.
Qed.

Lemma find_route_spec m p l r caps :
  find_route m p l = Some (r, caps) -> r ∈ l /\ (r_method r = m \/ r_method r = "*"%string) /\ regex_match p (r_regex r) = Some caps.
Proof.
  induction l as [|r' l IH]; cbn [find_route]; [done|]. intros Hf.
  assert (Hrest : find_route m p l = Some (r, caps) -> r ∈ r' :: l /\ (r_method r = m \/ r_method r = "*"%string) /\ regex_match p (r_regex r) = Some caps).
  { intros Hf'. destruct (IH Hf') as (? & ? & ?). split_and!; [by right|done|done]. }
  destruct (bool_decide (r_method r' = m) || bool_decide (r_method r' = "*"%string)) eqn:Hm; [|by apply Hrest].
  destruct (regex_match p (r_regex r')) as [c|] eqn:Hr; [|by apply Hrest]. injection Hf as <- <-. split_and!; [by left| |done].
  apply orb_true_iff in Hm as [Hm|Hm]; apply bool_decide_eq_true in Hm; auto.
Qed.

Lemma dispatch_safe : safe behind_authorization (dispatch_route env router).
Proof.
  intros tl req res s HI Hpre. unfold dispatch_route. destruct (routes router !! _) as [h|] eqn:Hr.
  { apply caught_safe; [done|done|]. by left. }
  destruct (find_route _ _ _) as [[route caps]|] eqn:Hf.
  - apply caught_safe; [done|destruct Hpre as (rc & Hrc & Hcase); by exists rc|]. apply find_route_spec in Hf as (Hin & Hm & Hre).
    right. by exists route, caps.
  - destruct (path_methods router !! _); [done|]. by case_match.
Qed.

(** ** Authorization *)

Lemma check_rule_satisfies rule ctx : is_public rule = false -> check_rule rule ctx = None <-> satisfies rule ctx = true.
Proof.
  intros Hp. unfold check_rule, satisfies. rewrite Hp. destruct (requires_mfa rule && _); [done|]. destruct (_ <? _); [done|].
  destruct (require_device_bound rule && _); [done|]. unfold scopes_satisfied.
  destruct (bool_decide (required_scopes rule = [])), (bool_decide (alternative_scopes rule = [])), (has_all_scopes _ _), (has_any_scope _ _); cbn; done.
Qed.

Lemma check_rule_none rule ctx : is_public rule = false -> check_rule rule ctx = None <-> authorized rule ctx.
Proof. intros Hp. by rewrite check_rule_satisfies, satisfies_spec. Qed.

Lemma propagated_headers ctx req :
  no_identity req -> identity_of ctx (set_headers (propagate_identity ctx (headers req)) req).
Proof.
  intros Hn f Hf Hi. cbn [headers set_headers] in Hf. unfold propagate_identity in Hf. apply set_header_adds in Hf as [Hf| ->]; [|by right; right].
  assert (Hf' : f ∈ headers req \/ f = ("x-user-id", user_id ctx)%string \/ f = ("x-device-id", device_id ctx)%string).
  { revert Hf. repeat case_bool_decide; intros Hf; repeat (apply set_header_adds in Hf as [Hf| ->]; [|tauto]); by left. }
  destruct Hf' as [Hf'|[->| ->]]; [|tauto|tauto]. by rewrite Hn in Hi.
Qed.

Lemma kept_header ctx req f : f ∈ headers req -> f ∈ propagate_identity ctx (headers req).
Proof. intros Hf. unfold propagate_identity. repeat case_bool_decide; auto using set_header_keeps. Qed.

Lemma Authorization_safe next : safe behind_authorization next -> safe behind_authentication (AuthorizationMiddleware settings next).
Proof.
  intros Hn tl req res s HI (rc & Hrc & Hcase). unfold AuthorizationMiddleware. fold (rule_of req).
  destruct Hcase as [(Hp & Hc & Htl & Hh)|(ctx & (Hp & Ha & Hc & req0 & token & received & Hfrom & Ht & Hv) & Hh)]; rewrite Hp.
  - apply Hn; [done|]. exists rc. split; [done|]. by left.
  - unfold authenticated_context_of. rewrite (identity_seen _ _ Hrc), Hc, (proj2 (check_rule_none _ _ Hp) Ha). apply Hn; [done|].
    exists rc. split; [done|right]. exists ctx. split; [|by apply propagated_headers]. split_and!; [done..|]. exists req0, token, received. split; [done|]. split; [|done].
    destruct Ht as (name & v & Hin & Hs & He). exists name, v. split_and!; [|done|done]. by apply kept_header.
Qed.

(** ** Authentication *)

Definition fresh_thread : Condition := fun tl req _ => tl_current_authenticated_context tl = None /\ arrives req.

Lemma extract_presents req token : extract (headers req) = Ok token -> presents req token /\ plain_token token.
Proof.
  unfold extract. destruct (has_header (headers req) k_authorization_header) eqn:Hh; [|done]. cbn [negb]. intros He.
  destruct (get_header_found _ _ Hh) as (name & Hin & Hs). split; [by exists name, (get_header_value (headers req) k_authorization_header)|].
  apply extract_from_header_sound in He as (? & ? & ? & ? & ? & _ & _ & _ & _ & _ & _ & Hne & _ & Hv). done.
Qed.

Lemma sanitized req : no_identity (set_headers (sanitize (headers req)) req).
Proof. intros f Hf. by destruct (proj1 (sanitize_spec _ _) Hf). Qed.

Lemma Authentication_safe next :
  safe behind_authentication next -> safe fresh_thread (AuthenticationMiddleware env settings validate next).
Proof.
  intros Hn tl req0 res s HI [Htl Harr]. unfold AuthenticationMiddleware. fold (named_session req0). set (req := set_headers _ req0).
  pose proof (sanitized req0 : no_identity req) as Hclean. set (request_id := header_or (headers req) "x-request-id" _). fold (rule_of req).
  apply safely_clock. intros n s1 Hn1 Hs1 HI1. set (now := system_clock env n). destruct (is_public (rule_of req)) eqn:Hp.
  - unfold with_request_context. eapply safe_then; [exact Hn|done| |].
    + exists (mkRequestContext request_id (remote_addr req) (to_ms now) None). split; [done|left]. by split_and!.
    + intros req' res' s2 _ _. cbn. by destruct tl.
  - destruct (extract (headers req)) as [token|] eqn:He; [|done]. apply extract_presents in He as [Hpres Hplain].
    apply wpr_bind; [apply _|done|]. eapply wpr_mono; [|apply (validate_spec served_ok token (named_session req0) n)].
    + cbn beta. intros [ctx|err] s2 Hv HI2 Hs2; [|done]. specialize (Hv ctx eq_refl). destruct (check_rule (rule_of req) ctx) as [r|] eqn:Hr; [done|].
      apply (check_rule_none _ _ Hp) in Hr. unfold with_request_context, with_identity. apply wpr_bind; [apply _|done|]. eapply safe_then; [exact Hn|done| |].
      * exists (mkRequestContext request_id (remote_addr req) (to_ms now) (Some ctx)). split; [done|right]. exists ctx. split; [|done].
        split_and!; [done..|]. by exists req0, token, n.
      * intros req' res' s3 _ _ _ _. cbn. destruct tl as [rc a]. cbn in *. by subst.
    + intros a b Hab Heq Ha. by eapply served_frame.
    + done.
    + done.
    + apply HI1.
    + apply HI1.
Qed.

Lemma fresh_stable : stable fresh_thread.
Proof. by intros tl req s s' _. Qed.

(** The whole pipeline. *)
Lemma handle_safe : safe fresh_thread (handle env settings validate router).
Proof.
  unfold handle, middlewares, execute_pipeline. cbn [foldr].
  do 2 (apply RequestId_safe; [apply fresh_stable|]). apply Logging_safe; [apply fresh_stable|]. apply Drain_safe; [apply fresh_stable|].
  apply ResourceLimiter_safe; [apply fresh_stable|]. apply Authentication_safe. apply RateLimiter_safe; [apply entered_stable|].
  apply Authorization_safe, dispatch_safe.
Qed.

End perimeter.

