(* ===== verification/TokenValidators.v ===== *)
(** * Token validators

    The two implementations of [ITokenValidator], and the choice between them.

    - [src/gateway/http/auth/auth_service_token_validator.{hpp,cpp}]: a token is validated
      by a call to the auth service, and a positive answer is kept for [cache_ttl].  The
      lookup and the update are two sections under the mutex of the cache, with the call
      between them.  The iteration order of [std::unordered_map] decides which entry is
      dropped from a full cache; it is a parameter.
    - [src/gateway/http/auth/local_token_verifier.{hpp,cpp}]: a token is verified with the
      public key of the auth service, without a call.
    - [src/gateway/main.cpp]: which of the two the gateway uses.  Reading a PEM text is
      OpenSSL's and a parameter.

    Both keep the contract of [GatewaySpec].  At the auth service a token is accepted only
    on a positive answer for that token and session, less than [cache_ttl] old, and not
    after its expiry; locally only with claims under a verified signature, and for the
    session they name. *)

From S2P Require Import Prelude Ids AuthStore AuthTokens AccessTokens AuditValidation Prog Retry Http Credentials RoutePolicy RateLimiter Gateway GatewaySpec.
From Stdlib Require Import Ascii.
#[local] Open Scope Z_scope.

Definition ns_per_second : Z := 1000000000.

Record TokenValidatorOptions := mkValidatorOptions { cache_ttl : Z; max_cache_entries : Z }.

Definition default_options : TokenValidatorOptions := mkValidatorOptions 10 10000.

Definition unit_separator : ascii := "031"%char.

Definition build_cache_key (token session : string) : string := String.append token (String unit_separator session).

Definition erase_expired (now : Z) (cache : gmap string CacheEntry) : gmap string CacheEntry :=
  filter (fun kv => now < valid_until kv.2) cache.

(** The loop removes an entry in each turn. *)
Fixpoint erase_overflow (first : gmap string CacheEntry -> option string) (max : Z) (fuel : nat) (cache : gmap string CacheEntry)
  : gmap string CacheEntry :=
  match fuel with
  | O => cache
  | S fuel =>
      if (max <=? Z.of_nat (size cache)) && negb (bool_decide (cache = ∅)) then
        match first cache with Some key => erase_overflow first max fuel (delete key cache) | None => cache end
      else cache
  end.

Definition evict_expired_or_overflow (first : gmap string CacheEntry -> option string) (max now : Z) (cache : gmap string CacheEntry)
  : gmap string CacheEntry :=
  let cache := erase_expired now cache in erase_overflow first max (size cache) cache.

(** An answer of the auth service as the identity of the caller. *)
Definition granted_scopes (level : Z) : list string :=
  ["access"; "messages:read"; "messages:write"; "files:read"; "files:write"; "auth:profile"]%string
  ++ (if level =? AUTHENTICATION_LEVEL_MFA_VERIFIED then ["auth:device:register"; "auth:keys:rotate"]%string else []).

Definition context_of (session : string) (resp : ValidateSessionResponse) : AuthenticatedContext :=
  mkContext (vs_user_id resp) (vs_device_id resp) session (vs_authentication_level resp) (granted_scopes (vs_authentication_level resp))
    (vs_expires_at_epoch_ms resp).

Definition rpc_error (err : DependencyError) : TokenValidationError :=
  match err_kind err with
  | KTimeout | KServiceUnavailable => mkTokenError ServiceUnavailable (err_message err)
  | KUnauthenticated | KInvalidArgument => mkTokenError InvalidSignature (err_message err)
  | KNotFound => mkTokenError SessionRevoked (err_message err)
  | _ => mkTokenError InternalError (err_message err)
  end.

Section validator.
Context (env : GatewayEnv) (options : TokenValidatorOptions).

(** The call of [ValidateSession]; it is recorded with the time the validator began. *)
Definition call_auth_service (token session : string) (now : Z) : gprog (result DependencyError ValidateSessionResponse) :=
  locked (fun s =>
    let answer := auth_service env (length (validations s)) token session in
    (answer, set_validations (validations s ++ [mkValidation token session now answer]) s)).

Definition lookup_cache (key : string) (now : Z) : gprog (option AuthenticatedContext) :=
  locked (fun s =>
    match token_cache s !! key with
    | Some e => if now <? valid_until e then (Some (ce_context e), s) else (None, set_token_cache (delete key (token_cache s)) s)
    | None => (None, s)
    end).

Definition update_cache (key : string) (now : Z) (resp : ValidateSessionResponse) (context : AuthenticatedContext) : gprog unit :=
  locked (fun s =>
    let cache := evict_expired_or_overflow (first_entry env) (max_cache_entries options) now (token_cache s) in
    let ttl_end := now + cache_ttl options * ns_per_second in
    let token_expiry_tp := if 0 <? vs_expires_at_epoch_ms resp then from_ms (vs_expires_at_epoch_ms resp) else ttl_end in
    (tt, set_token_cache (<[key := mkCacheEntry context (Z.min ttl_end token_expiry_tp)]> cache) s)).

Definition validate_token (token session : string) : gprog (result TokenValidationError AuthenticatedContext) :=
  if bool_decide (token = EmptyString) then Ret (Err (mkTokenError InvalidSignature "Bearer token must not be empty"))
  else
    let* now := system_clock_now env in
    let cache_key := build_cache_key token session in
    let* hit := (if 0 <? cache_ttl options then lookup_cache cache_key now else Ret None) in
    match hit with
    | Some context => Ret (Ok context)
    | None =>
        let* rpc_result := call_auth_service token session now in
        match rpc_result with
        | Err err => Ret (Err (rpc_error err))
        | Ok resp =>
            if negb (vs_is_valid resp) then Ret (Err (mkTokenError SessionRevoked "Session or token is revoked or no longer active"))
            else if (0 <? vs_expires_at_epoch_ms resp) && (vs_expires_at_epoch_ms resp <=? to_ms now) then
              Ret (Err (mkTokenError TokenExpired "Access token has expired"))
            else
              let context := context_of session resp in
              let* _ := (if 0 <? cache_ttl options then update_cache cache_key now resp context else Ret tt) in
              Ret (Ok context)
        end
    end.

Definition clear_cache : gprog unit := locked (fun s => (tt, set_token_cache ∅ s)).

Definition token_cache_size : gprog Z := locked (fun s => (Z.of_nat (size (token_cache s)), s)).

(** ** Invariant *)

(** The positive answer that an entry of the cache stands for. *)
Definition backed (l : list Validation) (key : string) (e : CacheEntry) : Prop :=
  exists v resp, v ∈ l /\ key = build_cache_key (va_token v) (va_session_id v) /\ va_answer v = Ok resp /\ vs_is_valid resp = true /\
    ce_context e = context_of (va_session_id v) resp /\ valid_until e <= va_time v + cache_ttl options * ns_per_second /\
    (0 < vs_expires_at_epoch_ms resp -> valid_until e <= from_ms (vs_expires_at_epoch_ms resp)).

Definition cache_inv (s : GatewayState) : Prop :=
  (forall v, v ∈ validations s -> plain_token (va_token v)) /\
  (forall key e, token_cache s !! key = Some e -> backed (validations s) key e).

(** The auth service accepted the token for the session.  The validator read the clock
    after the request was received; it asked at that time, or the answer it found was not
    older than [cache_ttl] then, and the session had not expired. *)
Definition accepted (s : GatewayState) (token session : string) (received : nat) (ctx : AuthenticatedContext) : Prop :=
  exists n v resp, (received < n < system_reads s)%nat /\ v ∈ validations s /\ va_token v = token /\ va_session_id v = session /\
    va_answer v = Ok resp /\ vs_is_valid resp = true /\ ctx = context_of session resp /\
    (va_time v = system_clock env n \/ system_clock env n < va_time v + cache_ttl options * ns_per_second) /\
    (0 < vs_expires_at_epoch_ms resp -> system_clock env n < from_ms (vs_expires_at_epoch_ms resp)).

Lemma separator_not_token : is_valid_b64token_char unit_separator = false.
Proof. by vm_compute. Qed.

Lemma build_cache_key_inj token session token' session' :
  plain_token token -> plain_token token' -> build_cache_key token session = build_cache_key token' session' -> token = token' /\ session = session'.
Proof.
  intros [_ Ht] [_ Ht'] Heq. apply (f_equal chars) in Heq. unfold build_cache_key in Heq. rewrite !chars_append in Heq.
  assert (Hno : forall t, Forall is_valid_b64token_char (chars t) -> unit_separator ∉ chars t).
  { intros t H Hin. rewrite Forall_forall in H. specialize (H _ Hin). by rewrite separator_not_token in H. }
  apply (split_at_unique unit_separator) in Heq as [H1 H2]; [|by apply Hno|by apply Hno]. split; by apply chars_inj.
Qed.

Lemma not_expired now ms : 0 < ms -> to_ms now < ms -> now < from_ms ms.
Proof.
  intros Hms. unfold from_ms, to_ms, ns_per_ms. intros Hlt. destruct (Z.lt_ge_cases now 0); [lia|]. rewrite Z.quot_div_nonneg in Hlt by lia.
  Z.to_euclidean_division_equations; lia.
Qed.

Lemma backed_grows l l' key e : l `prefix_of` l' -> backed l key e -> backed l' key e.
Proof. intros [k ->] (v & resp & Hin & Hrest). exists v, resp. split; [apply elem_of_app; by left|done]. Qed.

(** Dropping entries does no harm. *)
Lemma erase_overflow_sub first max fuel cache key e : erase_overflow first max fuel cache !! key = Some e -> cache !! key = Some e.
Proof.
  revert cache. induction fuel as [|fuel IH]; intros cache; cbn [erase_overflow]; [done|]. case_match; [|done]. destruct (first cache) as [k|]; [|done].
  intros Hl. apply IH in Hl. by apply lookup_delete_Some in Hl as [_ ?].
Qed.

Lemma evict_sub first max now cache key e :
  evict_expired_or_overflow first max now cache !! key = Some e -> cache !! key = Some e.
Proof. unfold evict_expired_or_overflow. intros Hl%erase_overflow_sub. by apply map_lookup_filter_Some in Hl as [? _]. Qed.

(** The cache never outgrows its limit. *)
Lemma erase_overflow_size first max fuel cache :
  (forall m, m <> ∅ -> exists k, first m = Some k /\ is_Some (m !! k)) -> (size cache <= fuel)%nat -> 1 <= max ->
  Z.of_nat (size (erase_overflow first max fuel cache)) < max.
Proof.
  intros Hfirst. revert cache. induction fuel as [|fuel IH]; intros cache Hf Hm; cbn [erase_overflow]; [lia|].
  destruct (Z.leb_spec max (Z.of_nat (size cache))) as [Hle|]; cbn [andb]; [|lia]. case_bool_decide as Hc; [subst; rewrite map_size_empty in Hle; lia|]. cbn [andb negb].
  destruct (Hfirst _ Hc) as (k & -> & [e Hk]). apply IH; [|done]. rewrite map_size_delete, Hk. cbn. lia.
Qed.

(** ** The contract *)

Lemma cache_inv_frame s s' : token_cache s' = token_cache s -> validations s' = validations s -> cache_inv s -> cache_inv s'.
Proof. unfold cache_inv. by intros -> ->. Qed.

Lemma accepted_grows s s' token session received ctx : grows s s' -> accepted s token session received ctx -> accepted s' token session received ctx.
Proof. intros ([k Hv] & _ & Hn) (n & v & resp & Hr & Hin & Hrest). exists n, v, resp. split; [lia|]. split; [rewrite Hv; apply elem_of_app; by left|done]. Qed.

Section contract.
Context (J : GatewayState -> Prop) (HJ : forall s s', grows s s' -> served s' = served s -> J s -> J s').

Definition kept (s : GatewayState) : Prop := cache_inv s /\ J s.

(** A section under the mutex that changes the cache only, and only to backed entries. *)
Lemma kept_cache c s : kept s -> (forall key e, c !! key = Some e -> backed (validations s) key e) ->
  kept (set_token_cache c s) /\ grows s (set_token_cache c s).
Proof.
  intros [[Ht _] Hj] Hc. assert (Hg : grows s (set_token_cache c s)) by by split_and!. split; [|done]. split; [by split|]. by eapply HJ.
Qed.

Lemma lookup_step key now s :
  kept s -> let s' := snd (match token_cache s !! key with
    | Some e => if now <? valid_until e then (Some (ce_context e), s) else (None, set_token_cache (delete key (token_cache s)) s)
    | None => (None, s) end) in kept s' /\ grows s s'.
Proof.
  intros Hk. destruct (token_cache s !! key) as [e|]; [|by split]. destruct (now <? valid_until e); [by split|]. apply kept_cache; [done|].
  intros k e' [_ Hl]%lookup_delete_Some. by apply Hk.
Qed.

Lemma update_wp key now resp context s Q :
  kept s -> (exists v, v ∈ validations s /\ key = build_cache_key (va_token v) (va_session_id v) /\ va_answer v = Ok resp /\ vs_is_valid resp = true /\
     context = context_of (va_session_id v) resp /\ va_time v = now) ->
  (forall s', kept s' -> grows s s' -> Q (Ok context) s') ->
  wpr kept grows (let* _ := (if 0 <? cache_ttl options then update_cache key now resp context else Ret tt) in Ret (Ok context : result TokenValidationError _)) Q s.
Proof.
  intros Hk (v & Hin & Hkey & Hans & Hvalid & Hctx & Htime) HQ. case_match; [|by apply HQ]. apply wpr_locked. intros s' Hs Hk'. cbn [snd fst].
  assert (Hv : v ∈ validations s') by (destruct Hs as [[l ->] _]; apply elem_of_app; by left).
  destruct (kept_cache (<[key := mkCacheEntry context (Z.min (now + cache_ttl options * ns_per_second)
    (if 0 <? vs_expires_at_epoch_ms resp then from_ms (vs_expires_at_epoch_ms resp) else now + cache_ttl options * ns_per_second))]>
    (evict_expired_or_overflow (first_entry env) (max_cache_entries options) now (token_cache s'))) s' Hk') as [Hk'' Hg'].
  { intros k e [[<- <-]|[_ Hl]]%lookup_insert_Some; [|apply Hk'; by eapply evict_sub].
    exists v, resp. split_and!; [done..|cbn; lia|]. cbn. intros Hpos. rewrite (proj2 (Z.ltb_lt _ _)) by done. lia. }
  split; [done|split; [done|]]. cbn. apply HQ; [done|by transitivity s'].
Qed.

Lemma validate_wp token session received s :
  plain_token token -> (received < system_reads s)%nat -> cache_inv s -> J s ->
  wpr kept grows (validate_token token session) (fun r s' => forall ctx, r = Ok ctx -> accepted s' token session received ctx) s.
Proof using HJ.
  intros Hplain Hrec Hc Hj. unfold validate_token. rewrite bool_decide_eq_false_2 by apply Hplain.
  intros s1 Hs1 Hk1. cbn [pbind].
  assert (Hu : grows s1 (set_reads (S (system_reads s1)) (steady_reads s1) (random_reads s1) s1)) by (split_and!; cbn; [done|done|lia]).
  split; [split; [by apply (cache_inv_frame s1); [..|apply Hk1]|by eapply HJ; [..|apply Hk1]]|]. split; [done|].
  set (n := system_reads s1) in *. set (now := system_clock env n). set (s2 := set_reads _ _ _ _) in *.
  assert (Hn : (received < n < system_reads s2)%nat) by (destruct Hs1 as (_ & _ & ?); cbn; lia). clear Hrec Hs1 Hc Hj.
  assert (Hk2 : kept s2) by (split; [by apply (cache_inv_frame s1); [..|apply Hk1]|by eapply HJ; [..|apply Hk1]]). clear Hk1 Hu. clearbody s2 n.
  assert (Hcall : forall s3, kept s3 -> grows s2 s3 ->
    wpr kept grows (let* rpc_result := call_auth_service token session now in
        match rpc_result with
        | Err err => Ret (Err (rpc_error err))
        | Ok resp =>
            if negb (vs_is_valid resp) then Ret (Err (mkTokenError SessionRevoked "Session or token is revoked or no longer active"))
            else if (0 <? vs_expires_at_epoch_ms resp) && (vs_expires_at_epoch_ms resp <=? to_ms now) then
              Ret (Err (mkTokenError TokenExpired "Access token has expired"))
            else
              let context := context_of session resp in
              let* _ := (if 0 <? cache_ttl options then update_cache (build_cache_key token session) now resp context else Ret tt) in
              Ret (Ok context)
        end) (fun r s' => forall ctx, r = Ok ctx -> accepted s' token session received ctx) s3).
  { intros s3 Hk3 Hg3. apply wpr_locked. intros s4 Hs4 Hk4. cbn [fst snd]. set (answer := auth_service _ _ _ _). set (v := mkValidation _ _ _ _).
    set (s5 := set_validations _ s4). assert (Hg5 : grows s4 s5) by (split_and!; cbn; [by eexists|done|done]).
    assert (Hk5 : kept s5).
    { split; [|by eapply HJ; [..|apply Hk4]]. split; cbn.
      - intros w [Hw|Hw%list_elem_of_singleton]%elem_of_app; [by apply Hk4|by subst w].
      - intros k e Hl. eapply backed_grows; [by eexists|]. by apply Hk4. }
    split; [done|split; [done|]]. destruct answer as [resp|err] eqn:Hans; [|done]. destruct (vs_is_valid resp) eqn:Hval; [|done]. cbn [negb].
    destruct ((0 <? vs_expires_at_epoch_ms resp) && (vs_expires_at_epoch_ms resp <=? to_ms now)) eqn:Hexp; [done|].
    assert (Hin : v ∈ validations s5) by (cbn; apply elem_of_app; right; by apply list_elem_of_singleton).
    apply update_wp; [done|by exists v|]. intros s6 Hk6 Hg6 ctx [= <-]. eapply accepted_grows; [exact Hg6|].
    assert (grows s2 s5) as (_ & _ & ?) by (transitivity s3; [done|by transitivity s4]). exists n, v, resp.
    split_and!; [lia|lia|done..|by left|]. intros Hpos. apply not_expired; [done|]. fold now.
    apply andb_false_iff in Hexp as [Hexp|Hexp]; [apply Z.ltb_ge in Hexp|apply Z.leb_gt in Hexp]; lia. }
  destruct (0 <? cache_ttl options); [|by apply Hcall]. apply wpr_locked. intros s3 Hs3 Hk3.
  destruct (lookup_step (build_cache_key token session) now s3 Hk3) as [Hk3' Hg3']. split; [exact Hk3'|split; [exact Hg3'|]].
  destruct (token_cache s3 !! build_cache_key token session) as [e|] eqn:Hl; [|apply Hcall; [done|by transitivity s3]].
  destruct (Z.ltb_spec now (valid_until e)) as [Hlt|]; [|apply Hcall; [done|by transitivity s3]]. cbn [fst snd wpr]. intros ctx [= <-].
  destruct Hk3 as [[Htok Hcache] _]. destruct (Hcache _ _ Hl) as (v & resp & Hin & Hkey & Hans & Hval & Hctx & Hu & Hexp).
  apply build_cache_key_inj in Hkey as [-> ->]; [|done|by apply Htok]. destruct Hs3 as (_ & _ & ?). exists n, v, resp. split_and!; [lia|lia|done..|right; fold now; lia|].
  intros Hpos. specialize (Hexp Hpos). fold now. lia.
Qed.

End contract.

Definition auth_service_validator : ValidatorSpec validate_token :=
  {| validator_inv := cache_inv; vouches := accepted; validator_frame := cache_inv_frame; vouches_grows := accepted_grows;
     validate_spec := fun J token session received s HJ Hp Hr Hc Hj => validate_wp J HJ token session received s Hp Hr Hc Hj |}.

End validator.


(** ** Verification without a call *)

Record LocalTokenVerifierOptions := mkLocalOptions { lo_issuer : string; lo_audience : string; lo_clock_skew_tolerance : Z }.

Definition default_local_options : LocalTokenVerifierOptions :=
  mkLocalOptions "https://auth.securecloud.io" "https://gateway.securecloud.io" 30.

Definition gateway_level (l : AuthenticationLevel) : Z := match l with MfaVerified => AUTHENTICATION_LEVEL_MFA_VERIFIED | PrimaryOnly => AUTHENTICATION_LEVEL_PRIMARY end.

Definition context_of_claims (c : AccessTokenClaims) : AuthenticatedContext :=
  mkContext (uuid_to_string (cl_user_id c)) (uuid_to_string (cl_device_id c)) (uuid_to_string (cl_session_id c))
    (gateway_level (cl_authentication_level c)) (AuthTokens.scopes c) (to_ms (cl_expires_at c)).

Definition fault_kind (status : TokenValidationStatus) : TokenValidationErrorKind :=
  match status with
  | TokenIsExpired => Http.TokenExpired
  | TokenBadSignature => InvalidSignature
  | TokenIsMalformed | TokenBadIssuer | TokenBadAudience | TokenBadDevice => MalformedToken
  end.

Section local_verifier.
Context (env : GatewayEnv) (parse : list ascii -> result string json) (decimal_text : Z -> string) {curves : Curves}.
Context (options : LocalTokenVerifierOptions) (key : list Z).

Definition parse_options (now : Z) : TokenParseOptions :=
  mkParseOptions (lo_issuer options) (lo_audience options) (lo_clock_skew_tolerance options) now.

Definition verify_locally (token session : string) : gprog (result TokenValidationError AuthenticatedContext) :=
  if bool_decide (token = EmptyString) then Ret (Err (mkTokenError MalformedToken "Bearer token string cannot be empty"))
  else
    let* now := system_clock_now env in
    match parse_and_validate parse decimal_text key (parse_options now) (chars token) with
    | Err fault => Ret (Err (mkTokenError (fault_kind (tf_status fault)) (tf_message fault)))
    | Ok claims =>
        if negb (bool_decide (session = EmptyString)) && negb (bool_decide (uuid_to_string (cl_session_id claims) = session)) then
          Ret (Err (mkTokenError SessionRevoked "Session identifier does not match token session claim"))
        else Ret (Ok (context_of_claims claims))
    end.

(** The identity stands in the token under a signature of the key, was good at a time the
    verifier read after the request was received, and is for the session the client named,
    if it named one. *)
Definition signed_for (s : GatewayState) (token session : string) (received : nat) (ctx : AuthenticatedContext) : Prop :=
  exists n claims, (received < n < system_reads s)%nat /\ certified parse key (parse_options (system_clock env n)) (chars token) claims /\
    ctx = context_of_claims claims /\ (session = EmptyString \/ session_id ctx = session).

Lemma signed_for_grows s s' token session received ctx : grows s s' -> signed_for s token session received ctx -> signed_for s' token session received ctx.
Proof. intros (_ & _ & Hn) (n & claims & Hr & Hrest). exists n, claims. split; [lia|done]. Qed.

Lemma verify_locally_wp (J : GatewayState -> Prop) token session received s :
  (forall s s', grows s s' -> served s' = served s -> J s -> J s') -> (received < system_reads s)%nat -> J s ->
  wpr (fun s => True /\ J s) grows (verify_locally token session) (fun r s' => forall ctx, r = Ok ctx -> signed_for s' token session received ctx) s.
Proof.
  intros HJ Hr Hj. unfold verify_locally. case_bool_decide; [done|]. intros s1 (Hs1 & Hs1' & Hs1'') [_ Hj1]. cbn [pbind].
  set (s2 := set_reads _ _ _ _). assert (Hg : grows s1 s2) by (split_and!; cbn; [done|done|lia]). split; [split; [done|by eapply HJ]|]. split; [done|].
  destruct (parse_and_validate _ _ _ _ _) as [claims|fault] eqn:Hp; [|done]. apply parse_certified in Hp.
  destruct (negb _ && _) eqn:Hs; [done|]. intros ctx [= <-]. exists (system_reads s1), claims. split; [cbn; lia|]. split; [done|]. split; [done|].
  apply andb_false_iff in Hs as [Hs|Hs]; apply negb_false_iff, bool_decide_eq_true in Hs; auto.
Qed.

Definition local_verifier : ValidatorSpec verify_locally :=
  {| validator_inv := fun _ => True; vouches := signed_for; validator_frame := fun _ _ _ _ _ => I; vouches_grows := signed_for_grows;
     validate_spec := fun J token session received s HJ _ Hr _ Hj => verify_locally_wp J token session received s HJ Hr Hj |}.
End local_verifier.

(** ** The validator of the gateway *)

Inductive TokenValidator := RemoteValidator | LocalVerifier (key : list Z).

(** What [main] finds when it starts: its configuration, the contents of the key file if
    one is configured and can be read, and the answer of the auth service when asked for
    the key. *)
Record Startup := mkStartup {
  token_verification_mode : string; auth_public_key_pem : string; key_file : option string; signing_key : option string }.

Definition if_missing (pem : string) (found : option string) : string :=
  if bool_decide (pem = EmptyString) then default EmptyString found else pem.

Definition select_validator (load_pem : string -> option (list Z)) (start : Startup) : TokenValidator :=
  if bool_decide (token_verification_mode start = "local"%string) then
    let public_key_pem := if_missing (if_missing (auth_public_key_pem start) (key_file start)) (signing_key start) in
    if bool_decide (public_key_pem = EmptyString) then RemoteValidator
    else match load_pem public_key_pem with Some key => LocalVerifier key | None => RemoteValidator end
  else RemoteValidator.

Section deployed_validator.
Context (env : GatewayEnv) (parse : list ascii -> result string json) (decimal_text : Z -> string) {curves : Curves}.

Definition validate_with (v : TokenValidator) : string -> string -> gprog (result TokenValidationError AuthenticatedContext) :=
  match v with
  | RemoteValidator => validate_token env default_options
  | LocalVerifier key => verify_locally env parse decimal_text default_local_options key
  end.

#[export] Instance deployed_validator v : ValidatorSpec (validate_with v) :=
  match v with
  | RemoteValidator => auth_service_validator env default_options
  | LocalVerifier key => local_verifier env parse decimal_text default_local_options key
  end.

(** The grounds on which the validator accepts a token. *)
Definition grounds (v : TokenValidator) (s : GatewayState) (token session : string) (received : nat) (ctx : AuthenticatedContext) : Prop :=
  match v with
  | RemoteValidator => accepted env default_options s token session received ctx
  | LocalVerifier key => signed_for env parse default_local_options key s token session received ctx
  end.

Lemma vouches_grounds v s token session received ctx : vouches (validate := validate_with v) s token session received ctx -> grounds v s token session received ctx.
Proof. by destruct v. Qed.

Lemma start_validator_inv v s : token_cache s = ∅ -> validations s = [] -> validator_inv (validate := validate_with v) s.
Proof.
  intros Hc Hv. destruct v as [|key]; [|done]. split; [rewrite Hv; by intros x Hx%elem_of_nil|]. rewrite Hc. intros k e Hl. by rewrite lookup_empty in Hl.
Qed.
End deployed_validator.
