(* ===== verification/GatewayRuns.v ===== *)
(** * The deployed gateway

    The router and the policy look a request up independently of each other, with
    different ideas of the path: the policy cuts the path at a question mark and drops a
    trailing slash, the router takes it as it is.  The first part relates the two for the
    routes that need multi-factor authentication.

    Then the server of [main.cpp]: requests, the start of a drain and the clean-up of the
    rate limiter, served by any number of threads.  The theorems are about every state such
    a server can reach. *)

From S2P Require Import Prelude Ids Prog Retry AuditValidation Http Credentials RoutePolicy RateLimiter Gateway GatewaySpec AccessTokens TokenValidators.
From Stdlib Require Import Ascii.
#[local] Open Scope Z_scope.

#[export] Instance Token_eq_dec : EqDecision Token.
Proof. solve_decision. Defined.

(** ** What a pattern matches *)

Lemma greedy_spec {A} (f : nat -> option A) n a : greedy f n = Some a -> exists k, (1 <= k <= n)%nat /\ f k = Some a.
Proof.
  induction n as [|n IH]; cbn [greedy]; [done|]. destruct (f (S n)) eqn:E.
  - intros [= <-]. exists (S n). split; [lia|done].
  - intros H. destruct (IH H) as (k & ? & ?). exists k. split; [lia|done].
Qed.

Lemma span_spec (f : ascii -> bool) l : l = fst (span f l) ++ snd (span f l) /\ Forall f (fst (span f l)).
Proof.
  induction l as [|c l IH]; [done|]. cbn [span]. destruct (f c) eqn:Hc; [|done]. destruct (span f l) as [a b]. cbn in *. destruct IH as [-> IH].
  split; [done|]. constructor; [by rewrite Hc|done].
Qed.

Lemma span_all (f : ascii -> bool) l : Forall f l -> span f l = (l, []).
Proof. induction 1 as [|c l Hc _ IH]; [done|]. cbn [span]. apply Is_true_true in Hc as ->. by rewrite IH. Qed.

Lemma match_group regex text caps :
  match_tokens (Group :: regex) text = Some caps ->
  exists seg rest caps', text = seg ++ rest /\ seg <> [] /\ Forall not_slash seg /\ match_tokens regex rest = Some caps'.
Proof.
  cbn [match_tokens]. intros H. apply greedy_spec in H as (k & Hk & Hm). destruct (match_tokens regex (drop k text)) as [caps'|] eqn:E; [|done].
  destruct (span_spec not_slash text) as [Heq Hall]. exists (take k text), (drop k text), caps'.
  assert (Hlen : (length (fst (span not_slash text)) <= length text)%nat) by (rewrite Heq at 2; rewrite length_app; lia).
  split_and!; [by rewrite take_drop| |rewrite Heq, take_app_le by lia; by apply Forall_take|done].
  intros Hn. apply (f_equal length) in Hn. rewrite length_take in Hn. cbn in Hn. lia.
Qed.

Lemma match_lit c regex text caps : match_tokens (Lit c :: regex) text = Some caps -> exists rest, text = c :: rest /\ match_tokens regex rest = Some caps.
Proof. cbn [match_tokens]. destruct text as [|d rest]; [done|]. case_bool_decide; [|done]. subst. eauto. Qed.

Lemma match_prefix pre regex text : match_tokens ((Lit <$> pre) ++ regex) (pre ++ text) = match_tokens regex text.
Proof. induction pre as [|c pre IH]; [done|]. cbn. by rewrite bool_decide_eq_true_2. Qed.

(** A pattern that does not end in a slash matches no path that does. *)
Lemma match_last regex text caps :
  match_tokens regex text = Some caps -> regex <> [] -> last regex <> Some (Lit "/"%char) -> exists d, last text = Some d /\ d <> "/"%char.
Proof.
  revert text caps. induction regex as [|t regex IH]; intros text caps Hm Hne Hl; [done|]. clear Hne. destruct t as [c| |]; [| |done].
  - apply match_lit in Hm as (rest & -> & Hm). destruct regex as [|t' regex].
    + cbn in Hm. case_bool_decide; [|done]. subst. exists c. split; [done|]. intros ->. by apply Hl.
    + destruct (IH _ _ Hm ltac:(done) Hl) as (d & Hd & ?). exists d. split; [|done]. by destruct rest.
  - apply match_group in Hm as (seg & rest & caps' & -> & Hseg & Hall & Hm). destruct regex as [|t' regex].
    + cbn in Hm. case_bool_decide; [|done]. subst. rewrite app_nil_r. destruct (last seg) as [d|] eqn:Hd; [|by apply last_None in Hd].
      exists d. split; [done|]. apply last_Some_elem_of in Hd. rewrite Forall_forall in Hall. specialize (Hall d Hd). by apply bool_decide_unpack in Hall.
    + destruct (IH _ _ Hm ltac:(done) Hl) as (d & Hd & ?). exists d. split; [|done]. by rewrite last_app, Hd.
Qed.

Lemma normalize_id p caps regex :
  match_tokens (Lit "/"%char :: regex) (chars p) = Some caps -> regex <> [] -> last regex <> Some (Lit "/"%char) -> "?"%char ∉ chars p ->
  normalize_path p = p.
Proof.
  intros Hm Hne Hl Hq. destruct (match_last _ _ _ Hm ltac:(done)) as (d & Hd & Hd'); [by destruct regex|].
  apply match_lit in Hm as (rest & Hp & _). unfold normalize_path.
  rewrite bool_decide_eq_false_2 by (intros ->; done). unfold strip_query. rewrite span_all.
  2:{ apply Forall_forall. intros c Hc. apply bool_decide_pack. by intros ->. }
  cbn [fst]. rewrite Hp in *. rewrite bool_decide_eq_true_2 by done. rewrite (bool_decide_eq_false_2 (last _ = _)) by congruence.
  rewrite andb_false_r, <- Hp. apply of_chars_chars.
Qed.

(** ** Patterns whose every match needs multi-factor authentication *)

Definition exact_rules_need_mfa (m : string) (regex : list Token) : bool :=
  bool_decide (map_Forall (fun key rule =>
    requires_mfa rule = true \/ match_tokens ((Lit <$> (chars m ++ [" "%char])) ++ regex) (chars key) = None) (exact_rules create_default)).

Definition pattern_needs_mfa (m : string) (k : nat) : bool :=
  match parameterized_rules create_default !! k with
  | None => false
  | Some x =>
      applies_to (pm_method x) m && bool_decide (alternatives (pm_regex x) = [pm_regex x])
      && exact_rules_need_mfa m (pm_regex x) && exact_rules_need_mfa "*" (pm_regex x)
      && forallb (fun r => negb (applies_to (pm_method r) m) || requires_mfa (pm_rule r)) (take (S k) (parameterized_rules create_default))
  end.

Lemma regex_match_single p regex caps : alternatives regex = [regex] -> regex_match p regex = Some caps -> is_Some (match_tokens regex (chars p)).
Proof. unfold regex_match. intros ->. cbn. by destruct (match_tokens regex (chars p)) eqn:E. Qed.

Lemma exact_key_mfa m regex p caps rule :
  exact_rules_need_mfa m regex = true -> match_tokens regex (chars p) = Some caps ->
  exact_rules create_default !! make_exact_key m p = Some rule -> requires_mfa rule = true.
Proof.
  intros Hok Hm Hl. apply bool_decide_eq_true_1 in Hok. destruct (Hok _ _ Hl) as [?|Hn]; [done|]. exfalso.
  unfold make_exact_key in Hn. rewrite !chars_append in Hn. change (chars " ") with [" "%char] in Hn.
  rewrite app_assoc, match_prefix in Hn. congruence.
Qed.

Lemma find_before {A} (f : A -> bool) l k x r : l !! k = Some x -> f x = true -> List.find f l = Some r -> r ∈ take (S k) l /\ f r = true.
Proof.
  revert k. induction l as [|a l IH]; intros [|k] Hk Hx Hf; cbn in *; try done.
  - injection Hk as ->. rewrite Hx in Hf. injection Hf as <-. split; [by left|done].
  - destruct (f a) eqn:Ha; [injection Hf as <-; split; [by left|done]|]. destruct (IH k Hk Hx Hf). split; [by right|done].
Qed.

Lemma pattern_mfa m k p x :
  pattern_needs_mfa m k = true -> parameterized_rules create_default !! k = Some x -> normalize_path p = p ->
  is_Some (match_tokens (pm_regex x) (chars p)) -> requires_mfa (evaluate create_default m p) = true.
Proof.
  unfold pattern_needs_mfa. intros Hok Hx Hn [caps Hm]. rewrite Hx in Hok.
  apply andb_true_iff in Hok as [Hok Hall]. apply andb_true_iff in Hok as [Hok Hstar]. apply andb_true_iff in Hok as [Hok Hex].
  apply andb_true_iff in Hok as [Happ H2]. apply bool_decide_eq_true_1 in H2. unfold evaluate. rewrite Hn.
  destruct (exact_rules create_default !! make_exact_key m p) as [rule|] eqn:E1; [exact (exact_key_mfa m _ p caps rule Hex Hm E1)|].
  destruct (exact_rules create_default !! make_exact_key "*" p) as [rule|] eqn:E2; [exact (exact_key_mfa "*" _ p caps rule Hstar Hm E2)|].
  set (f := fun r => applies_to (pm_method r) m && bool_decide (is_Some (regex_match p (pm_regex r)))).
  assert (Hfx : f x = true).
  { unfold f. rewrite Happ. apply bool_decide_eq_true. unfold regex_match. rewrite H2. cbn. rewrite Hm. by eexists. }
  destruct (List.find f (parameterized_rules create_default)) as [r|] eqn:E3.
  - destruct (find_before f _ k x r Hx Hfx E3) as [Hin Hfr]. rewrite forallb_forall in Hall. specialize (Hall r (proj1 (list_elem_of_In _ _) Hin)).
    unfold f in Hfr. apply andb_true_iff in Hfr as [Ha _]. rewrite Ha in Hall. exact Hall.
  - exfalso. pose proof (List.find_none _ _ E3 x) as Hnone. rewrite Hfx in Hnone. apply list_elem_of_lookup_2, list_elem_of_In in Hx. discriminate (Hnone Hx).
Qed.

Lemma authorize_pattern_mfa : pattern_needs_mfa "POST" 0 = true.
Proof. by vm_compute. Qed.

Lemma revoke_pattern_mfa : pattern_needs_mfa "POST" 1 = true.
Proof. by vm_compute. Qed.

Lemma delete_pattern_mfa : pattern_needs_mfa "DELETE" 2 = true.
Proof. by vm_compute. Qed.

(** ** The routes of the handlers that need it *)

Definition mfa_handlers : list Handler := [handle_authorize_device; handle_revoke_device; handle_disable_mfa].

(** The rule of the policy with the same pattern as a route. *)
Definition twin (r : ParameterizedRoute) : option nat :=
  fst <$> list_find (fun x => pm_method x = r_method r /\ pm_pattern x = raw_path r) (parameterized_rules create_default).

Definition route_needs_mfa (r : ParameterizedRoute) : bool :=
  match r_regex r with
  | Lit c :: regex =>
      bool_decide (c = "/"%char) && negb (bool_decide (regex = [])) && negb (bool_decide (last regex = Some (Lit "/"%char)))
      && bool_decide (alternatives (r_regex r) = [r_regex r]) && negb (bool_decide (r_method r = "*"%string))
      && match twin r with
         | Some k => pattern_needs_mfa (r_method r) k && bool_decide ((pm_regex <$> parameterized_rules create_default !! k) = Some (r_regex r))
         | None => false
         end
  | _ => false
  end.

Lemma parameterized_mfa_routes :
  forallb (fun r => negb (bool_decide (handler_of (r_handler r) ∈ mfa_handlers)) || route_needs_mfa r) (parameterized_routes deployed_router) = true.
Proof. by vm_compute. Qed.

Lemma exact_mfa_routes :
  bool_decide (map_Forall (fun k rh => handler_of rh ∈ mfa_handlers -> requires_mfa (evaluate create_default k.1 k.2) = true) (routes deployed_router)) = true.
Proof. by vm_compute. Qed.

Lemma route_mfa r p caps :
  route_needs_mfa r = true -> regex_match p (r_regex r) = Some caps -> "?"%char ∉ chars p -> requires_mfa (evaluate create_default (r_method r) p) = true.
Proof.
  unfold route_needs_mfa. destruct (r_regex r) as [|[c| |] regex] eqn:Hre; try done. intros Hok Hm Hq.
  repeat (apply andb_true_iff in Hok as [Hok ?]). apply bool_decide_eq_true in Hok as ->. apply negb_true_iff, bool_decide_eq_false in H3, H2.
  apply bool_decide_eq_true in H1. apply regex_match_single in Hm as [caps' Hm]; [|done].
  destruct (twin r) as [k|]; [|done]. apply andb_true_iff in H as [Hk Heq%bool_decide_eq_true].
  destruct (parameterized_rules create_default !! k) as [x|] eqn:Hx; [|done]. injection Heq as Heq.
  eapply pattern_mfa; [exact Hk|exact Hx|by eapply normalize_id|]. rewrite Heq. by eexists.
Qed.

Lemma route_needs_method r : route_needs_mfa r = true -> r_method r <> "*"%string.
Proof.
  unfold route_needs_mfa. destruct (r_regex r) as [|[c| |] regex]; try done. intros Hok Hstar.
  apply andb_true_iff in Hok as [Hok _]. apply andb_true_iff in Hok as [_ Hok]. by rewrite bool_decide_eq_true_2 in Hok.
Qed.

(** Devices are authorized and revoked, and multi-factor authentication is switched off,
    on routes whose rule asks for multi-factor authentication. *)
Lemma mfa_routes req rh :
  handler_of rh ∈ mfa_handlers -> routes_to deployed_router req rh -> "?"%char ∉ chars (path req) ->
  requires_mfa (evaluate create_default (method req) (path req)) = true.
Proof.
  intros Hh [Hl|(r & caps & Hin & Hm & Hre & <-)] Hq.
  - by apply (bool_decide_eq_true_1 _ exact_mfa_routes _ _ Hl).
  - pose proof parameterized_mfa_routes as Hall. rewrite forallb_forall in Hall. specialize (Hall r (proj1 (list_elem_of_In _ _) Hin)).
    rewrite bool_decide_eq_true_2 in Hall by done. cbn [negb orb] in Hall. assert (Hmeth : r_method r = method req).
    { destruct Hm as [?|Hstar]; [done|]. by apply route_needs_method in Hall. }
    rewrite <- Hmeth. by eapply route_mfa.
Qed.

Lemma mfa_routes_authenticated req rh :
  handler_of rh ∈ mfa_handlers -> routes_to deployed_router req rh -> match rh with Plain _ => False | Authenticated _ => True end.
Proof.
  assert (Hexact : bool_decide (map_Forall (fun _ rh => handler_of rh ∈ mfa_handlers -> match rh with Plain _ => false | Authenticated _ => true end = true)
    (routes deployed_router)) = true) by by vm_compute.
  assert (Hparam : forallb (fun r => negb (bool_decide (handler_of (r_handler r) ∈ mfa_handlers)) ||
    match r_handler r with Plain _ => false | Authenticated _ => true end) (parameterized_routes deployed_router) = true) by by vm_compute.
  intros Hh [Hl|(r & caps & Hin & _ & _ & <-)].
  - pose proof (bool_decide_eq_true_1 _ Hexact _ _ Hl Hh) as H. by destruct rh.
  - rewrite forallb_forall in Hparam. specialize (Hparam r (proj1 (list_elem_of_In _ _) Hin)). rewrite bool_decide_eq_true_2 in Hparam by done.
    by destruct (r_handler r).
Qed.

#[export] Instance Request_eq_dec : EqDecision Request.
Proof. solve_decision. Defined.

Inductive GatewayCall := HttpCall (req : Request) | StartDrain | PruneLimiter.

#[export] Instance GatewayCall_eq_dec : EqDecision GatewayCall.
Proof. solve_decision. Defined.

(** A response of cpp-httplib before anything was written to it. *)
Definition new_response : Response := mkResponse (-1) [] NoContent.

Definition start_state : GatewayState := mkGateway ∅ [] empty_limiter 0 false 0 [] 0 0 0.

Section server.
Context `{HttpHeaders} (env : GatewayEnv) (settings : GatewaySettings) (router : Router).
Context (parse : list ascii -> result string json) (decimal_text : Z -> string) {curves : Curves}.
Context (validator : TokenValidator).

Abbreviation validate := (validate_with env parse decimal_text validator).

(** A thread of the server has no context when a request arrives. *)
Definition serve_gateway (call : GatewayCall) : gprog (option (ThreadLocals * Response)) :=
  match call with
  | HttpCall req => let* (tl, _, res) := handle env settings validate router no_context req new_response in Ret (Some (tl, res))
  | StartDrain => let* _ := locked (fun s => (tt, set_drain_state true (in_flight_requests s) s)) in Ret None
  | PruneLimiter => let* _ := prune_now env settings in Ret None
  end.

Section arrivals.
Context (arrives : Request -> Prop).
Abbreviation inv := (gateway_inv env settings validate router arrives).

Definition returned (call : GatewayCall) (r : option (ThreadLocals * Response)) (s : GatewayState) : Prop :=
  forall tl res, r = Some (tl, res) -> tl = no_context.

(** Calls other than the requests that arrive are not served. *)
Definition among (call : GatewayCall) : Prop := match call with HttpCall req => arrives req | _ => True end.

Lemma serve_safe call s : among call -> inv s -> wpr inv grows (serve_gateway call) (returned call) s.
Proof.
  intros Ha HI. destruct call as [req| |]; cbn [serve_gateway].
  - eapply (safe_then env settings _ router arrives (fresh_thread arrives)); [apply handle_safe|done|done|]. intros req' res' s' _ _ tl res [= <- <-]. done.
  - apply safely_locked; [by intros s'; split_and!|]. by intros _ s' _ _.
  - apply safely_locked; [by intros s'; destruct (prune_expired _ _ _); split_and!|]. by intros _ s' _ _.
Qed.

Lemma gateway_start_inv : inv start_state.
Proof. split; [|by intros call Hc%elem_of_nil]. by apply start_validator_inv. Qed.
End arrivals.

Definition arrived (w : @Pool GatewayState GatewayCall (option (ThreadLocals * Response))) (req : Request) : Prop := HttpCall req ∈ (threads w).*1.

Lemma reachable_safe w :
  rtc (pool_step serve_gateway) (mkPool [] start_state) w ->
  gateway_inv env settings validate router (arrived w) (shared w) /\
  forall i call r, threads w !! i = Some (call, Ret r) -> returned call r (shared w).
Proof.
  intros Hr. set (serve' := fun call => if bool_decide (call ∈ (threads w).*1) then serve_gateway call else Ret None).
  assert (Hr' : rtc (pool_step serve') (mkPool [] start_state) w).
  { apply (pool_among (fun call => call ∈ (threads w).*1) serve_gateway); [|done|by apply Forall_forall].
    intros call Hc. unfold serve'. by rewrite bool_decide_eq_true_2. }
  apply (pool_wpr _ grows serve' returned start_state); [by intros| |apply gateway_start_inv|done].
  intros call s HI. unfold serve'. case_bool_decide as Hc; [|by intros tl res]. apply serve_safe; [|done]. by destruct call.
Qed.

(** C27.  In every state the gateway reaches, whatever requests arrive, interleave and
    fail, every call of a handler was routed to it and is either on a route that the
    policy opens to everybody, without any identity, or stems from a request that arrived
    and is for an identity that the rule of its route accepts.  The validator has its
    grounds for that identity, for the very token in the request's [Authorization] header
    and the session the arrived request named, at a reading of the clock after the one that
    dates the request: with [AuthServiceTokenValidator], a positive answer of the auth
    service that was asked for at that time or less than the lifetime of a cache entry
    before it, with an expiry after it; with [LocalTokenVerifier], claims in the token
    under a signature that the key verifies, from the expected issuer for the expected
    audience, within their times up to the tolerance, and for the session named if one is.
    The identity headers the handler sees are those of this identity and never the
    client's.  And a thread that has answered a request carries no identity over to the
    next one.  Nothing is assumed of the clock. *)
Theorem perimeter_sound w (Hr : rtc (pool_step serve_gateway) (mkPool [] start_state) w) :
  (forall call, call ∈ served (shared w) -> routed router call /\
     exists rc, hc_request_context call = Some rc /\
     ((is_public (rule_of settings (hc_request call)) = true /\ hc_context call = None /\ no_identity (hc_request call)) \/
      exists req ctx token received,
        HttpCall req ∈ (threads w).*1 /\ method (hc_request call) = method req /\ path (hc_request call) = path req /\
        authorized (rule_of settings (hc_request call)) ctx /\ presents (hc_request call) token /\
        rc_timestamp_ms rc = to_ms (system_clock env received) /\
        grounds env parse validator (shared w) token (named_session req) received ctx /\
        identity_of ctx (hc_request call) /\ (hc_context call = None \/ hc_context call = Some ctx))) /\
  (forall i req tl res, threads w !! i = Some (HttpCall req, Ret (Some (tl, res))) -> tl = no_context).
Proof.
  destruct (reachable_safe w Hr) as [[_ Hserved] Hret]. split.
  - intros call Hc. destruct (Hserved call Hc) as (Hroute & rc & Hrc & Hcase). split; [done|]. exists rc. split; [done|].
    destruct Hcase as [?|(ctx & (Hp & Ha & _ & req & token & received & (Harr & Hm & Hpath) & Ht & Hdate & Hv) & Hid & Hctx)]; [by left|right].
    exists req, ctx, token, received. split_and!; try done. by apply (vouches_grounds env parse decimal_text).
  - intros i req tl res Hi. by apply (Hret _ _ _ Hi tl res).
Qed.

End server.

(** C28.  In the deployed gateway, with its policy, its routes and the validator it selects
    when it starts, the handlers that authorize or revoke a device or switch multi-factor
    authentication off run only for an identity with multi-factor authentication, which the
    validator has its grounds for, as long as the path of the request contains no question
    mark. *)
Theorem sensitive_handlers_need_mfa `{HttpHeaders} env settings parse decimal_text {curves : Curves} load_pem start w call
    (Hpolicy : security_policy settings = create_default)
    (Hr : rtc (pool_step (serve_gateway env settings deployed_router parse decimal_text (select_validator load_pem start))) (mkPool [] start_state) w)
    (Hcall : call ∈ served (shared w)) (Hh : hc_handler call ∈ mfa_handlers) (Hq : "?"%char ∉ chars (path (hc_request call))) :
  exists ctx req token received, hc_context call = Some ctx /\ auth_level ctx = AUTHENTICATION_LEVEL_MFA_VERIFIED /\
    HttpCall req ∈ (threads w).*1 /\ presents (hc_request call) token /\
    grounds env parse (select_validator load_pem start) (shared w) token (named_session req) received ctx.
Proof.
  destruct (reachable_safe env settings deployed_router parse decimal_text (select_validator load_pem start) w Hr) as [[_ Hserved] _].
  destruct (Hserved call Hcall) as ((rh & Hroute & Hhd & Hsome) & rc & _ & Hcase). rewrite <- Hhd in Hh.
  pose proof (mfa_routes _ _ Hh Hroute Hq) as Hmfa. pose proof (mfa_routes_authenticated _ _ Hh Hroute) as Hauth. destruct rh as [h|h]; [destruct Hauth|].
  destruct Hsome as [ctx Hctx].
  destruct Hcase as [(_ & Hnone & _)|(ctx' & (_ & (Hl & _) & _ & req & token & received & (Harr & _) & Ht & _ & Hv) & _ & Hc)]; rewrite Hctx in *; [discriminate Hnone|].
  destruct Hc as [Hc|[= <-]]; [discriminate Hc|]. exists ctx, req, token, received. split_and!; [done| |done|done|by eapply vouches_grounds].
  apply Hl. unfold rule_of. rewrite Hpolicy. exact Hmfa.
Qed.
