(* ===== verification/GatewayExamples.v ===== *)
(** * A gateway to run

    A concrete environment for the gateway, requests served by it, the theorems of
    [GatewayRuns] applied to that run, and requests on which the deployed policy and the
    deployed routes do not mean the same thing. *)

From S2P Require Import Prelude Ids AccessTokens AuditValidation Prog Retry Http Credentials RoutePolicy RateLimiter Gateway GatewaySpec TokenValidators GatewayRuns.
From Stdlib Require Import Ascii.
#[local] Open Scope Z_scope.

Module GatewayWorld.

#[export] Existing Instance field_list.

Definition some_entry (m : gmap string CacheEntry) : option string := fst <$> head (map_to_list m).

(** The auth service knows two tokens; one belongs to a session with multi-factor
    authentication. *)
Definition verdicts (_ : nat) (token _ : string) : result DependencyError ValidateSessionResponse :=
  if bool_decide (token = "mfa"%string) then Ok (mkVerdict true "alice" "phone" 2 0)
  else if bool_decide (token = "plain"%string) then Ok (mkVerdict true "alice" "phone" 1 0)
  else Ok (mkVerdict false EmptyString EmptyString 0 0).

Definition env : GatewayEnv :=
  mkGatewayEnv (fun n => 1000000000 * (1700000100 + Z.of_nat n)) (fun n => 1000000 * Z.of_nat n) (fun n => replicate 16 (Z.of_nat n))
    verdicts some_entry (fun _ _ res => (respond 200 (Payload "ok") res, false)).

Definition deployed_settings : GatewaySettings := mkSettings create_default (mkLimits 16384 10485760 1024) default_rate_limits.

(** The gateway asks the auth service, or verifies tokens itself, as it is started. *)
Definition asking : Startup := mkStartup "remote" EmptyString None None.
Definition verifying : Startup := mkStartup "local" EmptyString None (Some "key of the auth service"%string).

Definition load_pem (_ : string) : option (list Z) := Some [].

#[export] Existing Instance TokenExample.sums.

Definition GatewayPool : Type := @Pool GatewayState GatewayCall (option (ThreadLocals * Response)).

Section started.
Context (start : Startup).

Definition serve_call (call : GatewayCall) : gprog (option (ThreadLocals * Response)) :=
  serve_gateway env deployed_settings deployed_router TokenExample.read decimal (select_validator load_pem start) call.

Fixpoint serial (calls : list GatewayCall) (w : GatewayPool) : GatewayPool :=
  match calls with
  | [] => w
  | call :: calls =>
      let r := scripted (serve_call call) [] (shared w) in
      serial calls (mkPool (threads w ++ [(call, Ret (fst r))]) (snd r))
  end.

Lemma serial_gateway_run calls w : rtc (pool_step serve_call) w (serial calls w).
Proof.
  revert w. induction calls as [|call calls IH]; intros w; [apply rtc_refl|]. cbn [serial].
  etransitivity; [|apply IH]. destruct w as [l s]. apply (scripted_pool serve_call call [] l s).
Qed.

Definition after (calls : list GatewayCall) : GatewayPool := serial calls (mkPool [] start_state).

(** What ran, and at which level. *)
Definition ran (calls : list GatewayCall) : list (Handler * option Z) :=
  (fun c => (hc_handler c, auth_level <$> hc_context c)) <$> served (shared (after calls)).

Definition statuses (calls : list GatewayCall) : list (option Z) :=
  (fun t => match snd t with Ret (Some (_, res)) => Some (status res) | _ => None end) <$> threads (after calls).
End started.

Definition request (m p token : string) : GatewayCall :=
  HttpCall (mkRequest m p [("Authorization", String.append "Bearer " token); ("x-user-id", "mallory")]%string EmptyString "10.0.0.1" ∅).

(** The token of [TokenExample], as the auth service writes it. *)
Definition signed_token : string :=
  of_chars (default [] (serialize TokenExample.print (fun msg => Some (TokenExample.signature_of msg)) "k1" TokenExample.sample)).

Definition session_of_sample : string := AuthStore.uuid_to_string (TokenExample.id_of 3).

Definition request_in (session m p token : string) : GatewayCall :=
  HttpCall (mkRequest m p [("Authorization", String.append "Bearer " token); ("x-session-id", session)]%string EmptyString "10.0.0.1" ∅).
End GatewayWorld.

Import GatewayWorld.

Definition visit : list GatewayCall :=
  [request "POST" "/api/v1/auth/login" "none"; request "POST" "/api/v1/devices/d2/authorize" "plain";
   request "POST" "/api/v1/devices/d2/authorize" "mfa"; request "GET" "/api/v1/users/me" "none"]%string.

Example visit_ran : ran asking visit = [(handle_login, None); (handle_authorize_device, Some 2)].
Proof. by vm_compute. Qed.

Example visit_statuses : statuses asking visit = [Some 200; Some 403; Some 200; Some 401].
Proof. by vm_compute. Qed.

(** Without a call to the auth service: a signed token, for its session and for another,
    and tokens that nobody signed. *)
Definition signed_visit : list GatewayCall :=
  [request_in session_of_sample "POST" "/api/v1/devices/d2/authorize" signed_token;
   request_in "another session" "POST" "/api/v1/devices/d2/authorize" signed_token;
   request "POST" "/api/v1/devices/d2/authorize" "mfa"; request "POST" "/api/v1/devices/d2/authorize" (String.append signed_token "A")]%string.

Example signed_visit_ran : ran verifying signed_visit = [(handle_authorize_device, Some 2)] /\ statuses verifying signed_visit = [Some 200; Some 401; Some 401; Some 401].
Proof. split; vm_compute; reflexivity. Qed.

(** ** Witnesses *)

Lemma perimeter_sound_witness :
  length (served (shared (after asking visit))) = 2%nat /\
  forall call, call ∈ served (shared (after asking visit)) ->
    exists rc, hc_request_context call = Some rc /\
    ((is_public (rule_of deployed_settings (hc_request call)) = true /\ hc_context call = None /\ no_identity (hc_request call)) \/
     exists req ctx token received,
       HttpCall req ∈ (threads (after asking visit)).*1 /\ method (hc_request call) = method req /\ path (hc_request call) = path req /\
       authorized (rule_of deployed_settings (hc_request call)) ctx /\ presents (hc_request call) token /\
       rc_timestamp_ms rc = to_ms (system_clock env received) /\
       accepted env default_options (shared (after asking visit)) token (named_session req) received ctx /\
       identity_of ctx (hc_request call) /\ (hc_context call = None \/ hc_context call = Some ctx)).
Proof.
  split; [by vm_compute|]. intros call Hc.
  exact (proj2 (proj1 (perimeter_sound env deployed_settings deployed_router TokenExample.read decimal RemoteValidator (after asking visit)
    (serial_gateway_run asking visit _)) call Hc)).
Defined.

Lemma sensitive_handlers_need_mfa_witness :
  exists call ctx req token received, served (shared (after verifying signed_visit)) = [call] /\ hc_handler call = handle_authorize_device /\
    hc_context call = Some ctx /\ auth_level ctx = AUTHENTICATION_LEVEL_MFA_VERIFIED /\
    signed_for env TokenExample.read default_local_options [] (shared (after verifying signed_visit)) token (named_session req) received ctx.
Proof.
  assert (Hran : (fun c => (hc_handler c, path (hc_request c))) <$> served (shared (after verifying signed_visit)) =
    [(handle_authorize_device, "/api/v1/devices/d2/authorize"%string)]) by (vm_compute; reflexivity).
  destruct (served (shared (after verifying signed_visit))) as [|call [|call' l]] eqn:Hcall; [discriminate Hran| |discriminate Hran].
  cbn [fmap list_fmap] in Hran. injection Hran as Hh Hp.
  destruct (sensitive_handlers_need_mfa env deployed_settings TokenExample.read decimal load_pem verifying (after verifying signed_visit) call eq_refl
    (serial_gateway_run verifying signed_visit _)) as (ctx & req & token & received & Hctx & Hl & _ & _ & Hg).
  - rewrite Hcall. left.
  - rewrite Hh. left.
  - rewrite Hp. apply (bool_decide_unpack _). vm_compute. exact I.
  - exists call, ctx, req, token, received. exact (conj eq_refl (conj Hh (conj Hctx (conj Hl Hg)))).
Defined.

(** ** Where policy and routes disagree *)

(** The policy cuts a path at a question mark before it looks for a rule, the router does
    not: a device is authorized from a session without multi-factor authentication when
    its path holds an encoded question mark at the right place. *)
Lemma question_mark_evades_mfa : ran asking [request "POST" "/api/v1/devices/pair?x/authorize" "plain"]%string = [(handle_authorize_device, Some 1)].
Proof. vm_compute. reflexivity. Qed.

(** The sensitive rule for the registration of a device names a path without a route; the
    registered route falls under a rule that asks for no second factor. *)
Lemma device_registration_without_mfa :
  requires_mfa (evaluate create_default "POST" "/api/v1/devices/register") = true /\
  statuses asking [request "POST" "/api/v1/devices/register" "mfa"] = [Some 405] /\
  ran asking [request "POST" "/api/v1/devices" "plain"] = [(handle_register_device, Some 1)].
Proof. split_and!; vm_compute; reflexivity. Qed.

(** The scopes for uploading and deleting are asked on paths without a route. *)
Lemma file_scopes_of_routes :
  required_scopes (evaluate create_default "DELETE" "/api/v1/files/f1") = ["files:read"%string] /\
  required_scopes (evaluate create_default "POST" "/api/v1/files/upload/init") = ["files:read"%string].
Proof. split; vm_compute; reflexivity. Qed.

(** A client without identity is counted under the address it writes into
    [X-Forwarded-For]; with a new address in each request it never runs out of tokens. *)
Definition login_from (address : string) : GatewayCall :=
  HttpCall (mkRequest "POST" "/api/v1/auth/login" [("X-Forwarded-For"%string, address)] EmptyString "10.0.0.1" ∅).

Lemma forwarded_address_evades_limit :
  let attempts (name : nat -> string) := statuses asking ((fun n => login_from (name n)) <$> seq 0 150) in
  existsb (fun r => bool_decide (r = Some 429)) (attempts (fun _ => "10.1.1.1"%string)) = true /\
  attempts (fun n => decimal (Z.of_nat n)) = replicate 150 (Some 200).
Proof. split; vm_compute; reflexivity. Qed.
