(* ===== verification/Scheduler.v ===== *)
(** * The delivery scheduler

    [src/messaging/delivery/bounded_delivery_scheduler.cpp]: tasks for connected devices
    wait in an emergency queue and in one queue per device; devices take turns of
    [fairness_quanta_per_device] tasks.  Every operation holds the scheduler's mutex, so
    operations are functions on its state; a [dequeue] that must wait has no result yet.

    The code keeps a map of queues, a ring of devices, a set of the same devices and a
    counter side by side.  [Plan] is what they stand for: a list of turns.  This file
    shows that the operations implement those on plans ([scheduler_refines_plan]), that
    tasks of a device leave in the order they came, none lost and none twice
    ([tasks_leave_in_order]), within the configured bounds, and that a device at any
    place of the ring is served after boundedly many dequeues, whatever else is
    scheduled meanwhile ([devices_are_served]). *)

From S2P Require Import Prelude Ids DeliveryTypes.
#[local] Open Scope Z_scope.

(** ** Data *)

(** [domain/envelope_types.hpp], [domain/delivery_types.hpp]. *)
Record PerDeviceEnvelope := mkPerDevice {
  pe_recipient_user_id : UserId; pe_recipient_device_id : DeviceId; pe_protocol_version : E2EProtocolVersion;
  pe_algorithm : E2EAlgorithm; pe_ciphertext_blob : string; pe_ephemeral_public_key : list Z; pe_iv : list Z;
  pe_auth_tag : list Z; pe_one_time_prekey_id : option string }.

#[export] Instance PerDeviceEnvelope_eq_dec : EqDecision PerDeviceEnvelope.
Proof. solve_decision. Defined.

Record DeliveryTask := mkTask {
  tk_message_id : MessageId; tk_conversation_id : ConversationId; tk_recipient_device_id : DeviceId;
  tk_recipient_user_id : UserId; tk_priority : MessagePriority; tk_attempt_count : Z; tk_accepted_at : Z;
  tk_scheduled_at : Z; tk_expires_at : option Z; tk_envelope : PerDeviceEnvelope }.

#[export] Instance DeliveryTask_eq_dec : EqDecision DeliveryTask.
Proof. solve_decision. Defined.

Inductive SchedulerStatus := Enqueued | DeviceQueueFull | GlobalCapacityExhausted | RejectedShuttingDown | InvalidTask.

#[export] Instance SchedulerStatus_eq_dec : EqDecision SchedulerStatus.
Proof. solve_decision. Defined.

Record DeliverySchedulerConfig := mkSchedulerConfig {
  max_global_queued_tasks : Z; max_tasks_per_device : Z; emergency_queue_reserved_slots : Z; fairness_quanta_per_device : Z }.

Definition default_scheduler_config : DeliverySchedulerConfig := mkSchedulerConfig 10000 50 1000 5.

(** The fields are of type [size_t]. *)
Definition config_ok (config : DeliverySchedulerConfig) : Prop :=
  in_u64 (max_global_queued_tasks config) /\ in_u64 (max_tasks_per_device config) /\
  in_u64 (emergency_queue_reserved_slots config) /\ in_u64 (fairness_quanta_per_device config).

Record Scheduler := mkScheduler {
  shutdown_ : bool;
  total_tasks_count_ : Z;
  emergency_queue_ : list DeliveryTask;
  per_device_queues_ : gmap DeviceId (list DeliveryTask);
  active_device_ring_ : list DeviceId;
  active_device_set_ : gset DeviceId;
  current_device_quanta_consumed_ : Z }.

Definition new_scheduler : Scheduler := mkScheduler false 0 [] ∅ [] ∅ 0.

(** ** Operations *)

Definition invalid_task (now : Z) (task : DeliveryTask) : bool :=
  DeviceId_empty (tk_recipient_device_id task) || Uuid.is_nil (message_bytes (tk_message_id task)) ||
  Uuid.is_nil (conversation_bytes (tk_conversation_id task)) ||
  match tk_expires_at task with Some e => e <=? now | None => false end.

Definition is_emergency (task : DeliveryTask) : bool := bool_decide (tk_priority task = Emergency).

Section operations.
Context (config : DeliverySchedulerConfig).

Definition schedule (now : Z) (task : DeliveryTask) (s : Scheduler) : SchedulerStatus * Scheduler :=
  if shutdown_ s then (RejectedShuttingDown, s)
  else if invalid_task now task then (InvalidTask, s)
  else if is_emergency task then
    if u64 (max_global_queued_tasks config + emergency_queue_reserved_slots config) <=? total_tasks_count_ s
    then (GlobalCapacityExhausted, s)
    else (Enqueued, mkScheduler (shutdown_ s) (u64 (total_tasks_count_ s + 1)) (emergency_queue_ s ++ [task]) (per_device_queues_ s)
                      (active_device_ring_ s) (active_device_set_ s) (current_device_quanta_consumed_ s))
  else if max_global_queued_tasks config <=? total_tasks_count_ s then (GlobalCapacityExhausted, s)
  else
    let dev_id := tk_recipient_device_id task in
    let dev_queue := default [] (per_device_queues_ s !! dev_id) in
    if max_tasks_per_device config <=? Z.of_nat (length dev_queue) then
      (DeviceQueueFull, mkScheduler (shutdown_ s) (total_tasks_count_ s) (emergency_queue_ s) (<[dev_id := dev_queue]> (per_device_queues_ s))
                          (active_device_ring_ s) (active_device_set_ s) (current_device_quanta_consumed_ s))
    else
      (Enqueued, mkScheduler (shutdown_ s) (u64 (total_tasks_count_ s + 1)) (emergency_queue_ s)
                   (<[dev_id := dev_queue ++ [task]]> (per_device_queues_ s))
                   (if bool_decide (dev_id ∈ active_device_set_ s) then active_device_ring_ s else active_device_ring_ s ++ [dev_id])
                   ({[dev_id]} ∪ active_device_set_ s) (current_device_quanta_consumed_ s)).

(** The loop over the ring: devices without tasks are dropped on the way. *)
Fixpoint dequeue_ring (ring : list DeviceId) (s : Scheduler) : option DeliveryTask * Scheduler :=
  match ring with
  | [] => (None, mkScheduler (shutdown_ s) (total_tasks_count_ s) (emergency_queue_ s) (per_device_queues_ s) []
                   (active_device_set_ s) (current_device_quanta_consumed_ s))
  | current_dev :: ring' =>
      match default [] (per_device_queues_ s !! current_dev) with
      | [] =>
          dequeue_ring ring' (mkScheduler (shutdown_ s) (total_tasks_count_ s) (emergency_queue_ s)
            (delete current_dev (per_device_queues_ s)) ring' (active_device_set_ s ∖ {[current_dev]}) 0)
      | task :: rest =>
          let count := u64 (total_tasks_count_ s - 1) in
          let consumed := u64 (current_device_quanta_consumed_ s + 1) in
          (Some task,
           if bool_decide (rest = []) then
             mkScheduler (shutdown_ s) count (emergency_queue_ s) (delete current_dev (per_device_queues_ s)) ring'
               (active_device_set_ s ∖ {[current_dev]}) 0
           else if fairness_quanta_per_device config <=? consumed then
             mkScheduler (shutdown_ s) count (emergency_queue_ s) (<[current_dev := rest]> (per_device_queues_ s))
               (ring' ++ [current_dev]) (active_device_set_ s) 0
           else
             mkScheduler (shutdown_ s) count (emergency_queue_ s) (<[current_dev := rest]> (per_device_queues_ s))
               ring (active_device_set_ s) consumed)
      end
  end.

Definition dequeue_locked (s : Scheduler) : option DeliveryTask * Scheduler :=
  match emergency_queue_ s with
  | task :: rest =>
      (Some task, mkScheduler (shutdown_ s) (u64 (total_tasks_count_ s - 1)) rest (per_device_queues_ s) (active_device_ring_ s)
                    (active_device_set_ s) (current_device_quanta_consumed_ s))
  | [] => dequeue_ring (active_device_ring_ s) s
  end.

(** [None] while the call waits; a timeout of 0 waits for ever. *)
Definition dequeue (timeout : Z) (s : Scheduler) : option (option DeliveryTask * Scheduler) :=
  if shutdown_ s || (0 <? total_tasks_count_ s) then Some (dequeue_locked s)
  else if timeout =? 0 then None else Some (None, s).

Definition try_dequeue (s : Scheduler) : option DeliveryTask * Scheduler :=
  if total_tasks_count_ s =? 0 then (None, s) else dequeue_locked s.

Definition for_device (device_id : DeviceId) (task : DeliveryTask) : bool := bool_decide (tk_recipient_device_id task = device_id).

Definition drain_device_queue (device_id : DeviceId) (s : Scheduler) : list DeliveryTask * Scheduler :=
  let queued := default [] (per_device_queues_ s !! device_id) in
  let emergencies := List.filter (for_device device_id) (emergency_queue_ s) in
  (queued ++ emergencies,
   mkScheduler (shutdown_ s) (u64 (u64 (total_tasks_count_ s - Z.of_nat (length queued)) - Z.of_nat (length emergencies)))
     (List.filter (fun t => negb (for_device device_id t)) (emergency_queue_ s)) (delete device_id (per_device_queues_ s))
     (List.filter (fun d => negb (bool_decide (d = device_id))) (active_device_ring_ s)) (active_device_set_ s ∖ {[device_id]})
     (if bool_decide (head (active_device_ring_ s) = Some device_id) then 0 else current_device_quanta_consumed_ s)).

Definition purge_device_tasks (device_id : DeviceId) (s : Scheduler) : Z * Scheduler :=
  let '(drained, s) := drain_device_queue device_id s in (Z.of_nat (length drained), s).

Definition clear_tasks (s : Scheduler) : Scheduler := mkScheduler (shutdown_ s) 0 [] ∅ [] ∅ 0.

Definition shutdown (s : Scheduler) : Scheduler :=
  mkScheduler true (total_tasks_count_ s) (emergency_queue_ s) (per_device_queues_ s) (active_device_ring_ s) (active_device_set_ s)
    (current_device_quanta_consumed_ s).

Definition is_shutdown (s : Scheduler) : bool := shutdown_ s.
Definition global_queue_depth (s : Scheduler) : Z := total_tasks_count_ s.
Definition device_queue_depth (device_id : DeviceId) (s : Scheduler) : Z := Z.of_nat (length (default [] (per_device_queues_ s !! device_id))).
Definition emergency_queue_depth (s : Scheduler) : Z := Z.of_nat (length (emergency_queue_ s)).
Definition active_device_count (s : Scheduler) : Z := Z.of_nat (size (active_device_set_ s)).
End operations.

(** ** Plans *)

(** The devices that have tasks, in the order of their turns, each with its tasks. *)
Record Plan := mkPlan { closed : bool; urgent : list DeliveryTask; turns : list (DeviceId * list DeliveryTask); used : Z }.

Definition empty_plan : Plan := mkPlan false [] [] 0.

Fixpoint queue_of (d : DeviceId) (l : list (DeviceId * list DeliveryTask)) : list DeliveryTask :=
  match l with [] => [] | (d', q) :: l => if decide (d' = d) then q else queue_of d l end.

(** A new device waits for its turn at the end. *)
Fixpoint append_task (d : DeviceId) (t : DeliveryTask) (l : list (DeviceId * list DeliveryTask)) : list (DeviceId * list DeliveryTask) :=
  match l with [] => [(d, [t])] | (d', q) :: l => if decide (d' = d) then (d', q ++ [t]) :: l else (d', q) :: append_task d t l end.

Definition tasks_of (l : list (DeviceId * list DeliveryTask)) : list DeliveryTask := concat l.*2.
#[global] Arguments tasks_of : simpl never.
Definition plan_size (p : Plan) : Z := Z.of_nat (length (urgent p) + length (tasks_of (turns p))).

(** *** What the callers see *)

Inductive SchedulerCall :=
  | Schedule (now : Z) (task : DeliveryTask) | Dequeue (timeout : Z) | TryDequeue | Drain (d : DeviceId) | Purge (d : DeviceId)
  | ClearTasks | Shutdown | GlobalDepth | DeviceDepth (d : DeviceId) | EmergencyDepth | ActiveDevices.

#[export] Instance SchedulerCall_eq_dec : EqDecision SchedulerCall.
Proof. solve_decision. Defined.

Inductive SchedulerReply := Status (st : SchedulerStatus) | Got (t : option DeliveryTask) | Waits | Drained (l : list DeliveryTask) | Number (n : Z) | Void.

Section plans.
Context (config : DeliverySchedulerConfig).

Definition emergency_limit : Z := u64 (max_global_queued_tasks config + emergency_queue_reserved_slots config).

Definition plan_schedule (now : Z) (task : DeliveryTask) (p : Plan) : SchedulerStatus * Plan :=
  if closed p then (RejectedShuttingDown, p)
  else if invalid_task now task then (InvalidTask, p)
  else if is_emergency task then
    if emergency_limit <=? plan_size p then (GlobalCapacityExhausted, p)
    else (Enqueued, mkPlan (closed p) (urgent p ++ [task]) (turns p) (used p))
  else if max_global_queued_tasks config <=? plan_size p then (GlobalCapacityExhausted, p)
  else if max_tasks_per_device config <=? Z.of_nat (length (queue_of (tk_recipient_device_id task) (turns p))) then (DeviceQueueFull, p)
  else (Enqueued, mkPlan (closed p) (urgent p) (append_task (tk_recipient_device_id task) task (turns p)) (used p)).

(** Emergencies first; else the device whose turn it is, which keeps its turn until it
    has no tasks or has used it up. *)
Definition plan_dequeue (p : Plan) : option DeliveryTask * Plan :=
  match urgent p, turns p with
  | t :: rest, _ => (Some t, mkPlan (closed p) rest (turns p) (used p))
  | [], (d, t :: q) :: later =>
      (Some t,
       if bool_decide (q = []) then mkPlan (closed p) [] later 0
       else if fairness_quanta_per_device config <=? used p + 1 then mkPlan (closed p) [] (later ++ [(d, q)]) 0
       else mkPlan (closed p) [] ((d, q) :: later) (used p + 1))
  | [], _ => (None, p)
  end.

Definition plan_drain (d : DeviceId) (p : Plan) : list DeliveryTask * Plan :=
  (queue_of d (turns p) ++ List.filter (for_device d) (urgent p),
   mkPlan (closed p) (List.filter (fun t => negb (for_device d t)) (urgent p))
     (List.filter (fun x => negb (bool_decide (x.1 = d))) (turns p)) (if bool_decide (head (turns p).*1 = Some d) then 0 else used p)).

Definition scheduler_step (c : SchedulerCall) (s : Scheduler) : SchedulerReply * Scheduler :=
  match c with
  | Schedule now t => let '(st, s) := schedule config now t s in (Status st, s)
  | Dequeue timeout => match dequeue config timeout s with Some (t, s) => (Got t, s) | None => (Waits, s) end
  | TryDequeue => let '(t, s) := try_dequeue config s in (Got t, s)
  | Drain d => let '(l, s) := drain_device_queue d s in (Drained l, s)
  | Purge d => let '(n, s) := purge_device_tasks d s in (Number n, s)
  | ClearTasks => (Void, clear_tasks s)
  | Shutdown => (Void, shutdown s)
  | GlobalDepth => (Number (global_queue_depth s), s)
  | DeviceDepth d => (Number (device_queue_depth d s), s)
  | EmergencyDepth => (Number (emergency_queue_depth s), s)
  | ActiveDevices => (Number (active_device_count s), s)
  end.

Definition plan_step (c : SchedulerCall) (p : Plan) : SchedulerReply * Plan :=
  match c with
  | Schedule now t => let '(st, p) := plan_schedule now t p in (Status st, p)
  | Dequeue timeout =>
      if negb (closed p) && (plan_size p =? 0) && (timeout =? 0) then (Waits, p) else let '(t, p) := plan_dequeue p in (Got t, p)
  | TryDequeue => let '(t, p) := plan_dequeue p in (Got t, p)
  | Drain d => let '(l, p) := plan_drain d p in (Drained l, p)
  | Purge d => let '(l, p) := plan_drain d p in (Number (Z.of_nat (length l)), p)
  | ClearTasks => (Void, mkPlan (closed p) [] [] 0)
  | Shutdown => (Void, mkPlan true (urgent p) (turns p) (used p))
  | GlobalDepth => (Number (plan_size p), p)
  | DeviceDepth d => (Number (Z.of_nat (length (queue_of d (turns p)))), p)
  | EmergencyDepth => (Number (Z.of_nat (length (urgent p))), p)
  | ActiveDevices => (Number (Z.of_nat (length (turns p))), p)
  end.

Fixpoint replies {St : Type} (step : SchedulerCall -> St -> SchedulerReply * St) (calls : list SchedulerCall) (s : St) : list SchedulerReply :=
  match calls with [] => [] | c :: calls => let '(r, s) := step c s in r :: replies step calls s end.

(** *** Invariant *)

Record plan_ok (p : Plan) : Prop := mkPlanOk {
  turns_distinct : NoDup (turns p).*1;
  turns_busy : Forall (fun x => x.2 <> []) (turns p);
  turns_own : Forall (fun x => Forall (fun t => tk_recipient_device_id t = x.1 /\ is_emergency t = false) x.2) (turns p);
  turns_short : Forall (fun x => Z.of_nat (length x.2) <= max_tasks_per_device config) (turns p);
  urgent_emergencies : Forall (fun t => is_emergency t = true) (urgent p);
  used_range : 0 <= used p < Z.max 1 (fairness_quanta_per_device config);
  size_bound : plan_size p <= Z.max (max_global_queued_tasks config) emergency_limit }.

(** The fields of the code that stand for a plan. *)
Record represents (s : Scheduler) (p : Plan) : Prop := mkRepresents {
  rp_shutdown : shutdown_ s = closed p;
  rp_count : total_tasks_count_ s = plan_size p;
  rp_emergency : emergency_queue_ s = urgent p;
  rp_queues : forall d, default [] (per_device_queues_ s !! d) = queue_of d (turns p);
  rp_ring : active_device_ring_ s = (turns p).*1;
  rp_set : active_device_set_ s = list_to_set (turns p).*1;
  rp_used : current_device_quanta_consumed_ s = used p }.

End plans.

(** ** Turns *)

Lemma queue_of_elem d l : queue_of d l <> [] -> (d, queue_of d l) ∈ l.
Proof.
  induction l as [|[d' q] l IH]; cbn; [done|]. destruct (decide (d' = d)) as [->|]; [by left|]. intros Hq. right. by apply IH.
Qed.

Lemma queue_of_absent d l : d ∉ l.*1 -> queue_of d l = [].
Proof.
  induction l as [|[d' q] l IH]; [done|]. rewrite fmap_cons, not_elem_of_cons. cbn. intros [Hne Hl]. by rewrite decide_False, IH.
Qed.

Lemma queue_of_present d q l : NoDup l.*1 -> (d, q) ∈ l -> queue_of d l = q.
Proof.
  induction l as [|[d' q'] l IH]; cbn; [by intros _ ?%elem_of_nil|]. intros [Hd Hnd]%NoDup_cons Hin.
  apply elem_of_cons in Hin as [[= <- <-]|Hin]; [by rewrite decide_True|]. rewrite decide_False; [by apply IH|].
  intros ->. apply Hd, list_elem_of_fmap. by exists (d, q).
Qed.

Lemma queue_of_app d l l' : queue_of d (l ++ l') = if decide (d ∈ l.*1) then queue_of d l else queue_of d l'.
Proof.
  induction l as [|[d' q] l IH]; cbn; [done|]. destruct (decide (d' = d)) as [->|Hne].
  - by rewrite decide_True by left.
  - rewrite IH. apply decide_ext. rewrite elem_of_cons. naive_solver.
Qed.

Lemma queue_of_append d d' t l : queue_of d' (append_task d t l) = if decide (d' = d) then queue_of d l ++ [t] else queue_of d' l.
Proof.
  induction l as [|[e q] l IH]; cbn.
  - destruct (decide (d = d')), (decide (d' = d)); by subst.
  - destruct (decide (e = d)) as [->|]; cbn; [|rewrite IH]; repeat case_decide; by subst.
Qed.

Lemma append_task_devices d t l : (append_task d t l).*1 = if decide (d ∈ l.*1) then l.*1 else l.*1 ++ [d].
Proof.
  induction l as [|[e q] l IH]; cbn; [done|]. destruct (decide (e = d)) as [->|Hne]; cbn; [by rewrite decide_True by left|].
  rewrite IH. destruct (decide (d ∈ l.*1)).
  - by rewrite decide_True by by right.
  - rewrite decide_False; [done|]. rewrite elem_of_cons. naive_solver.
Qed.

Lemma append_task_size d t l : length (tasks_of (append_task d t l)) = S (length (tasks_of l)).
Proof.
  unfold tasks_of. induction l as [|[e q] l IH]; cbn; [done|]. destruct (decide (e = d)); cbn; rewrite !length_app; cbn; [lia|]. rewrite IH. lia.
Qed.

Lemma append_task_Forall (Q : DeviceId * list DeliveryTask -> Prop) d t l :
  Q (d, queue_of d l ++ [t]) -> Forall Q l -> Forall Q (append_task d t l).
Proof.
  intros HQ Hl. induction Hl as [|[e q] l He Hl IH]; cbn in *; [by constructor|]. destruct (decide (e = d)) as [->|]; constructor; auto.
Qed.

Lemma tasks_of_cons d q l : tasks_of ((d, q) :: l) = q ++ tasks_of l.
Proof. done. Qed.

Lemma tasks_of_nil : tasks_of [] = [].
Proof. done. Qed.

Lemma tasks_of_app l l' : tasks_of (l ++ l') = tasks_of l ++ tasks_of l'.
Proof. unfold tasks_of. by rewrite fmap_app, concat_app. Qed.

Abbreviation without d := (List.filter (fun x : DeviceId * list DeliveryTask => negb (bool_decide (x.1 = d)))).

Lemma without_devices d l : (without d l).*1 = List.filter (fun d' => negb (bool_decide (d' = d))) l.*1.
Proof. induction l as [|[e q] l IH]; cbn; [done|]. destruct (bool_decide (e = d)); cbn; by rewrite IH. Qed.

Lemma elem_of_without d l x : x ∈ without d l <-> x ∈ l /\ x.1 <> d.
Proof. by rewrite list_elem_of_In, filter_In, <- list_elem_of_In, negb_true_iff, bool_decide_eq_false. Qed.

Lemma queue_of_without d d' l : queue_of d' (without d l) = if decide (d' = d) then [] else queue_of d' l.
Proof.
  induction l as [|[e q] l IH]; cbn; [by case_decide|]. case_bool_decide as He; cbn; rewrite IH.
  - subst e. repeat case_decide; by subst.
  - repeat case_decide; by subst.
Qed.

Lemma without_size d l : NoDup l.*1 -> (length (tasks_of (without d l)) + length (queue_of d l) = length (tasks_of l))%nat.
Proof.
  induction l as [|[e q] l IH]; [done|]. cbn [fmap list_fmap fst]. intros [He Hnd]%NoDup_cons. specialize (IH Hnd).
  rewrite tasks_of_cons, length_app. cbn [List.filter queue_of fst]. case_bool_decide; cbn [negb].
  - subst e. rewrite decide_True by done. rewrite queue_of_absent in IH by done. cbn in IH. lia.
  - rewrite decide_False by done. rewrite tasks_of_cons, length_app. lia.
Qed.

Lemma filter_split_length {A} (f : A -> bool) l : (length (List.filter f l) + length (List.filter (fun x => negb (f x)) l) = length l)%nat.
Proof. induction l as [|x l IH]; cbn; [done|]. destruct (f x); cbn; lia. Qed.

(** ** The operations keep the invariant and implement those on plans *)

Section simulation.
Context (config : DeliverySchedulerConfig) (Hconfig : config_ok config).

Lemma plan_size_range p : plan_ok config p -> 0 <= plan_size p < 2 ^ 64.
Proof using Hconfig.
  intros Hp. pose proof (size_bound _ _ Hp) as Hs. unfold emergency_limit in Hs. destruct Hconfig as (Hm & _).
  pose proof (u64_range (max_global_queued_tasks config + emergency_queue_reserved_slots config)). unfold in_u64 in *. split; [unfold plan_size|]; lia.
Qed.

Lemma empty_plan_ok : plan_ok config empty_plan.
Proof using Hconfig.
  split; try by constructor. 1: by cbn; lia.
  destruct Hconfig as (Hm & _). unfold in_u64 in Hm. change (plan_size empty_plan) with 0. lia.
Qed.

Lemma append_task_ok now task p :
  plan_ok config p -> is_emergency task = false -> plan_size p < max_global_queued_tasks config ->
  Z.of_nat (length (queue_of (tk_recipient_device_id task) (turns p))) < max_tasks_per_device config -> invalid_task now task = false ->
  plan_ok config (mkPlan (closed p) (urgent p) (append_task (tk_recipient_device_id task) task (turns p)) (used p)).
Proof using Type.
  intros [Hd Hb Ho Hs Hu Hr Hsz] He Hsize Hlen _. set (d := tk_recipient_device_id task) in *. split; cbn; [| | | |done|done|].
  - rewrite append_task_devices. destruct (decide _); [done|]. apply NoDup_app. split_and!; [done| |apply NoDup_singleton].
    intros x Hx ->%list_elem_of_singleton. done.
  - apply append_task_Forall; [cbn; by intros [_ ?]%app_nil|done].
  - apply append_task_Forall; [|done]. cbn. apply Forall_app. split; [|by repeat constructor].
    destruct (queue_of d (turns p)) as [|t q] eqn:Hq; [constructor|]. rewrite <- Hq. rewrite Forall_forall in Ho.
    apply (Ho (d, queue_of d (turns p))), queue_of_elem. by rewrite Hq.
  - apply append_task_Forall; [|done]. cbn. rewrite length_app. cbn. lia.
  - unfold plan_size in *. cbn. rewrite append_task_size. lia.
Qed.

Lemma schedule_sim now task s p :
  represents s p -> plan_ok config p ->
  fst (schedule config now task s) = fst (plan_schedule config now task p) /\
  represents (snd (schedule config now task s)) (snd (plan_schedule config now task p)) /\
  plan_ok config (snd (plan_schedule config now task p)).
Proof using Hconfig.
  intros Hrep Hp. pose proof (plan_size_range p Hp) as Hrange. pose proof (u64_range (max_global_queued_tasks config + emergency_queue_reserved_slots config)) as Hlim.
  destruct Hconfig as (Hm & _ & _ & _). unfold in_u64 in *. pose proof Hrep as [R1 R2 R3 R4 R5 R6 R7].
  unfold schedule, plan_schedule, emergency_limit in *. rewrite R1. destruct (closed p) eqn:Hc; [done|]. destruct (invalid_task now task) eqn:Hi; [done|]. rewrite R2.
  destruct (is_emergency task) eqn:He.
  - destruct (Z.leb_spec (u64 (max_global_queued_tasks config + emergency_queue_reserved_slots config)) (plan_size p)); [done|]. cbn [fst snd]. split; [done|]. split.
    + split; cbn; [done| |by rewrite R3|done|done|done|done]. rewrite u64_small by (unfold in_u64; lia). unfold plan_size. cbn. rewrite length_app. cbn. lia.
    + destruct Hp as [Hd Hb Ho Hs Hu Hr Hsz]. split; cbn; [done..| |done|].
      * apply Forall_app. split; [done|by repeat constructor].
      * unfold plan_size, emergency_limit in *. cbn. rewrite length_app. cbn. lia.
  - destruct (Z.leb_spec (max_global_queued_tasks config) (plan_size p)); [done|]. rewrite R4.
    set (d := tk_recipient_device_id task). set (q := queue_of d (turns p)).
    destruct (Z.leb_spec (max_tasks_per_device config) (Z.of_nat (length q))); cbn [fst snd].
    + split; [done|]. split; [|done]. split; cbn; [done|done..| |done|done|done]. intros d'. destruct (decide (d' = d)) as [->|Hne].
      * by rewrite lookup_insert_eq.
      * by rewrite lookup_insert_ne.
    + split; [done|]. split; [|rewrite <- Hc; by eapply append_task_ok].
      split; cbn; [done| |done| | | |done].
      * rewrite u64_small by (unfold in_u64; lia). unfold plan_size. cbn. rewrite append_task_size. lia.
      * intros d'. rewrite queue_of_append. destruct (decide (d' = d)) as [->|Hne]; [by rewrite lookup_insert_eq|by rewrite lookup_insert_ne].
      * fold d. rewrite append_task_devices, R5, R6. destruct (decide (d ∈ (turns p).*1)).
        -- by rewrite bool_decide_eq_true_2 by by apply elem_of_list_to_set.
        -- by rewrite bool_decide_eq_false_2 by by rewrite elem_of_list_to_set.
      * fold d. rewrite append_task_devices, R6. destruct (decide (d ∈ (turns p).*1)); set_solver.
Qed.

(** What is known of a plan whose first turn is that of [d]. *)
Lemma plan_ok_turn p d t q later :
  plan_ok config p -> urgent p = [] -> turns p = (d, t :: q) :: later ->
  (d ∉ later.*1) /\ 0 <= Z.of_nat (length q + length (tasks_of later)) < 2 ^ 64 - 1 /\
  plan_size p = Z.of_nat (length q + length (tasks_of later)) + 1 /\
  plan_ok config (mkPlan (closed p) [] later 0) /\ (q <> [] -> plan_ok config (mkPlan (closed p) [] ((d, q) :: later) 0)).
Proof using Hconfig.
  intros Hp Hup Htp. pose proof (plan_size_range p Hp) as Hrange. destruct Hp as [Hd Hb Ho Hs Hu Hr Hsz]. unfold plan_size in *.
  rewrite Htp, Hup in *. rewrite tasks_of_cons, length_app in *. cbn [length] in *. cbn [fmap list_fmap fst] in Hd.
  apply NoDup_cons in Hd as [Hnew Hd]. apply Forall_cons in Hb as [_ Hb]. apply Forall_cons in Ho as [Hoq Ho]. apply Forall_cons in Hs as [Hlq Hs].
  cbn in Hoq, Hlq. apply Forall_cons in Hoq as [_ Hoq]. split_and!; [done|lia..| |].
  - split; cbn; try done; [lia|]. unfold plan_size. cbn. lia.
  - intros Hq. split; cbn; [by apply NoDup_cons|by constructor|by constructor|constructor; [cbn; lia|done]|done|lia|].
    unfold plan_size. cbn. rewrite tasks_of_cons, length_app. lia.
Qed.

Lemma plan_ok_rotate b d q later u :
  plan_ok config (mkPlan b [] ((d, q) :: later) u) -> plan_ok config (mkPlan b [] (later ++ [(d, q)]) 0).
Proof using Type.
  intros [Hd Hb Ho Hs Hu Hr Hsz]. cbn in *. assert (Hp : (d, q) :: later ≡ₚ later ++ [(d, q)]) by apply Permutation_cons_append.
  split; cbn; [rewrite fmap_app; cbn; by rewrite <- Permutation_cons_append|by rewrite <- Hp..|done|lia|]. unfold plan_size in *. cbn in *. rewrite tasks_of_cons in Hsz. rewrite tasks_of_app, tasks_of_cons, tasks_of_nil.
  rewrite !length_app in *. cbn. lia.
Qed.

Lemma plan_dequeue_ok p : plan_ok config p -> plan_ok config (snd (plan_dequeue config p)).
Proof using Hconfig.
  intros Hp. unfold plan_dequeue. destruct (urgent p) as [|t rest] eqn:Hup.
  - destruct (turns p) as [|[d [|t q]] later] eqn:Htp; [done|done|]. destruct (plan_ok_turn p d t q later Hp Hup Htp) as (_ & _ & _ & Hl & Hk). cbn [snd].
    destruct (bool_decide (q = [])) eqn:Eq; [done|]. apply bool_decide_eq_false in Eq. specialize (Hk Eq).
    destruct (Z.leb_spec (fairness_quanta_per_device config) (used p + 1)); [by eapply plan_ok_rotate|].
    destruct Hk as [Hd Hb Ho Hs Hu Hr Hsz]. pose proof (used_range _ _ Hp). split; cbn in *; try done. lia.
  - destruct Hp as [Hd Hb Ho Hs Hu Hr Hsz]. rewrite Hup in Hu. apply Forall_cons in Hu as [_ Hu]. split; cbn; try done.
    unfold plan_size in *. rewrite Hup in Hsz. cbn in *. lia.
Qed.

(** The map, the ring and the set after a task of the first device was taken. *)
Lemma represents_turn s p d t q later n u :
  represents s p -> turns p = (d, t :: q) :: later -> d ∉ later.*1 -> urgent p = [] ->
  (q = [] -> n = plan_size (mkPlan (closed p) [] later u) ->
   represents (mkScheduler (closed p) n [] (delete d (per_device_queues_ s)) later.*1 (active_device_set_ s ∖ {[d]}) u) (mkPlan (closed p) [] later u)) /\
  (forall l, l ≡ₚ (d, q) :: later -> NoDup l.*1 -> n = plan_size (mkPlan (closed p) [] l u) ->
   represents (mkScheduler (closed p) n [] (<[d := q]> (per_device_queues_ s)) l.*1 (active_device_set_ s) u) (mkPlan (closed p) [] l u)).
Proof using Hconfig.
  intros [R1 R2 R3 R4 R5 R6 R7] Htp Hnew Hup. rewrite Htp in *. cbn in R6. split.
  - intros -> ->. split; cbn; try done.
    + intros e. destruct (decide (e = d)) as [->|Hne]; [rewrite lookup_delete_eq; cbn; by rewrite queue_of_absent|].
      rewrite lookup_delete_ne by done. rewrite R4. cbn. by rewrite decide_False by done.
    + assert (d ∉@{gset DeviceId} list_to_set later.*1) by by rewrite elem_of_list_to_set. set_solver.
  - intros l Hl Hnd ->. split; cbn; try done.
    + intros e. destruct (decide (e = d)) as [->|Hne].
      * rewrite lookup_insert_eq. cbn. symmetry. apply queue_of_present; [done|]. rewrite Hl. by left.
      * rewrite lookup_insert_ne by done. rewrite R4. cbn. rewrite decide_False by done.
        destruct (decide (e ∈ later.*1)) as [(x & -> & Hx)%list_elem_of_fmap|Hn].
        -- destruct x as [e q']. cbn. assert (Hnd' : NoDup ((d, q) :: later).*1) by by rewrite <- Hl.
           rewrite (queue_of_present e q' later); [|by apply NoDup_cons in Hnd' as [_ ?]|done]. symmetry. apply queue_of_present; [done|]. rewrite Hl. by right.
        -- rewrite (queue_of_absent e later), queue_of_absent by (done || (rewrite Hl; cbn; by rewrite not_elem_of_cons)). done.
    + rewrite R6. apply leibniz_equiv. intros e. rewrite (elem_of_list_to_set e l.*1), Hl. cbn. set_solver.
Qed.

(** The device whose turn it is has a task, so the loop ends at once. *)
Lemma dequeue_sim s p :
  represents s p -> plan_ok config p ->
  fst (dequeue_locked config s) = fst (plan_dequeue config p) /\ represents (snd (dequeue_locked config s)) (snd (plan_dequeue config p)).
Proof using Hconfig.
  intros Hrep Hp. pose proof (plan_size_range p Hp) as Hrange. destruct Hconfig as (_ & _ & _ & Hf). unfold in_u64 in Hf.
  pose proof Hrep as [R1 R2 R3 R4 R5 R6 R7]. unfold dequeue_locked, plan_dequeue. rewrite R3. destruct (urgent p) as [|t rest] eqn:Hup.
  - rewrite R5. destruct (turns p) as [|[d q] later] eqn:Htp; cbn [dequeue_ring fmap list_fmap fst].
    { split; [done|]. split; cbn; rewrite ?Hup, ?Htp; done. }
    pose proof (turns_busy _ _ Hp) as Hb. rewrite Htp in Hb. apply Forall_cons in Hb as [Hq _]. cbn in Hq. destruct q as [|t q]; [done|].
    destruct (plan_ok_turn p d t q later Hp Hup Htp) as (Hnew & Hlen & Hsize & Hl & Hk). cbn [queue_of]. rewrite R4. cbn [queue_of]. rewrite decide_True by done.
    pose proof (used_range _ _ Hp) as Hu. rewrite R1, R2, R3, R7, (u64_small (used p + 1)) by (unfold in_u64; lia). split; [done|].
    rewrite Hsize, u64_small by (unfold in_u64; lia). pose proof (represents_turn s p d t q later (Z.of_nat (length q + length (tasks_of later))) ) as Hrt.
    cbn [snd]. destruct (bool_decide (q = [])) eqn:Eq; [apply bool_decide_eq_true in Eq|apply bool_decide_eq_false in Eq; specialize (Hk Eq); destruct (Z.leb_spec (fairness_quanta_per_device config) (used p + 1))].
    + replace (Z.of_nat (length q + length (tasks_of later)) + 1 - 1) with (Z.of_nat (length q + length (tasks_of later))) by lia.
      apply (Hrt 0); try done. subst q. done.
    + replace (Z.of_nat (length q + length (tasks_of later)) + 1 - 1) with (Z.of_nat (length q + length (tasks_of later))) by lia.
      replace (later.*1 ++ [d]) with (later ++ [(d, q)]).*1 by by rewrite fmap_app. apply (Hrt 0); try done.
      * symmetry. apply Permutation_cons_append.
      * exact (turns_distinct _ _ (plan_ok_rotate _ _ _ _ _ Hk)).
      * unfold plan_size. cbn. rewrite tasks_of_app, tasks_of_cons, tasks_of_nil, !length_app. cbn. lia.
    + replace (Z.of_nat (length q + length (tasks_of later)) + 1 - 1) with (Z.of_nat (length q + length (tasks_of later))) by lia.
      apply (proj2 (Hrt (used p + 1) Hrep Htp Hnew Hup) ((d, q) :: later)); [done|exact (turns_distinct _ _ Hk)|]. unfold plan_size. cbn. by rewrite tasks_of_cons, !length_app.
  - split; [done|]. split; cbn; try done. unfold plan_size in *. rewrite Hup in *. cbn [length] in *. rewrite R2, u64_small by (unfold in_u64; lia). cbn. lia.
Qed.

Lemma plan_drain_ok d p : plan_ok config p -> plan_ok config (snd (plan_drain d p)).
Proof using Hconfig.
  intros [Hd Hb Ho Hs Hu Hr Hsz]. assert (Hin : forall (Q : DeviceId * list DeliveryTask -> Prop), Forall Q (turns p) -> Forall Q (without d (turns p))).
  { intros Q. rewrite !Forall_forall. intros HQ x [Hx _]%elem_of_without. by apply HQ. }
  split; cbn; auto.
  - rewrite without_devices. by apply NoDup_filter_bool.
  - rewrite Forall_forall in Hu. apply Forall_forall. intros t [Ht _]%list_elem_of_In%filter_In. apply Hu. by apply list_elem_of_In.
  - case_bool_decide; lia.
  - unfold plan_size in *. cbn. pose proof (without_size d (turns p) Hd). pose proof (filter_split_length (for_device d) (urgent p)). lia.
Qed.

Lemma drain_sim d s p :
  represents s p -> plan_ok config p ->
  fst (drain_device_queue d s) = fst (plan_drain d p) /\ represents (snd (drain_device_queue d s)) (snd (plan_drain d p)).
Proof using Hconfig.
  intros Hrep Hp. pose proof (plan_size_range p Hp) as Hrange. pose proof Hrep as [R1 R2 R3 R4 R5 R6 R7].
  pose proof (without_size d (turns p) (turns_distinct _ _ Hp)). pose proof (filter_split_length (for_device d) (urgent p)). unfold drain_device_queue, plan_drain.
  rewrite R4, R3. split; [done|]. unfold plan_size in Hrange. split; cbn.
  - done.
  - rewrite R2. unfold plan_size. cbn. rewrite (u64_small (_ - Z.of_nat (length (queue_of d (turns p))))) by (unfold in_u64; lia). rewrite u64_small by (unfold in_u64; lia). lia.
  - done.
  - intros e. rewrite queue_of_without. destruct (decide (e = d)) as [->|Hne]; [by rewrite lookup_delete_eq|by rewrite lookup_delete_ne].
  - by rewrite without_devices, R5.
  - rewrite without_devices, R6. apply leibniz_equiv. intros e. rewrite elem_of_difference, !elem_of_list_to_set, elem_of_singleton.
    by rewrite !list_elem_of_In, filter_In, negb_true_iff, bool_decide_eq_false.
  - by rewrite R5, R7.
Qed.

(** An empty plan has nothing to hand out. *)
Lemma plan_size_0 p : plan_ok config p -> plan_size p = 0 -> urgent p = [] /\ turns p = [].
Proof using Type.
  intros Hp. unfold plan_size. destruct (urgent p); [|cbn; lia]. pose proof (turns_busy _ _ Hp) as Hb. destruct (turns p) as [|[d [|t q]] l]; [done| |].
  - apply Forall_cons in Hb as [Hb _]. done.
  - rewrite tasks_of_cons, length_app. cbn. lia.
Qed.

Lemma plan_dequeue_empty p : plan_ok config p -> plan_size p = 0 -> plan_dequeue config p = (None, p).
Proof using Type. intros Hp [Hu Ht]%plan_size_0; [|done]. unfold plan_dequeue. by rewrite Hu, Ht. Qed.

Lemma dequeue_step_sim (closed_or_busy : bool) s p :
  represents s p -> plan_ok config p -> (closed_or_busy = false -> plan_size p = 0) ->
  let r := if closed_or_busy then dequeue_locked config s else (None, s) in
  fst r = fst (plan_dequeue config p) /\ represents (snd r) (snd (plan_dequeue config p)).
Proof using Hconfig.
  intros Hrep Hp Hc. destruct closed_or_busy; [by apply dequeue_sim|]. by rewrite plan_dequeue_empty by auto.
Qed.

Lemma active_devices s p : represents s p -> plan_ok config p -> active_device_count s = Z.of_nat (length (turns p)).
Proof using Type.
  intros [R1 R2 R3 R4 R5 R6 R7] Hp. unfold active_device_count. rewrite R6, size_list_to_set by apply (turns_distinct _ _ Hp). by rewrite length_fmap.
Qed.

Lemma step_sim c s p :
  represents s p -> plan_ok config p ->
  fst (scheduler_step config c s) = fst (plan_step config c p) /\ represents (snd (scheduler_step config c s)) (snd (plan_step config c p)) /\
  plan_ok config (snd (plan_step config c p)).
Proof using Hconfig.
  intros Hrep Hp. pose proof (plan_size_range p Hp) as Hrange. pose proof (rp_shutdown _ _ Hrep) as R1. pose proof (rp_count _ _ Hrep) as R2.
  destruct c as [now t|timeout| |d|d| | | |d| |]; cbn [scheduler_step plan_step].
  - destruct (schedule_sim now t s p Hrep Hp) as (H1 & H2 & H3). destruct (schedule config now t s), (plan_schedule config now t p). cbn in *. by subst.
  - unfold dequeue. rewrite R1, R2. pose proof (plan_dequeue_ok p Hp) as Hok.
    destruct (dequeue_step_sim (closed p || (0 <? plan_size p)) s p Hrep Hp) as [H1 H2]; [intros [_ H]%orb_false_iff; apply Z.ltb_ge in H; lia|].
    destruct (plan_dequeue config p) as [t' p'] eqn:E. destruct (closed p); cbn [orb negb andb] in *.
    + destruct (dequeue_locked config s). cbn in *. by subst.
    + destruct (Z.ltb_spec 0 (plan_size p)), (Z.eqb_spec (plan_size p) 0); try lia; cbn [andb].
      * destruct (dequeue_locked config s). cbn in *. by subst.
      * destruct (timeout =? 0); cbn in *; by subst.
  - unfold try_dequeue. rewrite R2. pose proof (plan_dequeue_ok p Hp) as Hok.
    destruct (dequeue_step_sim (negb (plan_size p =? 0)) s p Hrep Hp) as [H1 H2]; [intros H%negb_false_iff; by apply Z.eqb_eq in H|].
    destruct (plan_dequeue config p) as [t' p']. destruct (plan_size p =? 0); cbn [negb] in *; [cbn in *; by subst|].
    destruct (dequeue_locked config s). cbn in *. by subst.
  - destruct (drain_sim d s p Hrep Hp) as [H1 H2]. pose proof (plan_drain_ok d p Hp) as H3. destruct (drain_device_queue d s), (plan_drain d p). cbn in *. by subst.
  - unfold purge_device_tasks. destruct (drain_sim d s p Hrep Hp) as [H1 H2]. pose proof (plan_drain_ok d p Hp) as H3.
    destruct (drain_device_queue d s), (plan_drain d p). cbn in *. by subst.
  - split; [done|]. destruct empty_plan_ok. split; [by split; cbn|by split; cbn].
  - split; [done|]. destruct Hrep, Hp. split; [by split; cbn|by split; cbn].
  - cbn. unfold global_queue_depth. by rewrite R2.
  - cbn. unfold device_queue_depth. by rewrite (rp_queues _ _ Hrep).
  - cbn. unfold emergency_queue_depth. by rewrite (rp_emergency _ _ Hrep).
  - cbn. by rewrite (active_devices s p).
Qed.
End simulation.

Definition after_calls (config : DeliverySchedulerConfig) (calls : list SchedulerCall) (s : Scheduler) : Scheduler :=
  exec_all (fun c s => snd (scheduler_step config c s)) calls s.

Definition plan_after (config : DeliverySchedulerConfig) (calls : list SchedulerCall) (p : Plan) : Plan :=
  exec_all (fun c p => snd (plan_step config c p)) calls p.

Lemma empty_represents : represents new_scheduler empty_plan.
Proof. by split. Qed.

Lemma run_sim config calls s p :
  config_ok config -> represents s p -> plan_ok config p ->
  replies (scheduler_step config) calls s = replies (plan_step config) calls p /\
  represents (after_calls config calls s) (plan_after config calls p) /\ plan_ok config (plan_after config calls p).
Proof.
  intros Hc. unfold after_calls, plan_after. revert s p. induction calls as [|c calls IH]; intros s p Hrep Hp; [by rewrite !exec_all_nil|].
  rewrite !exec_all_cons. destruct (step_sim config Hc c s p Hrep Hp) as (H1 & H2 & H3). destruct (IH _ _ H2 H3) as (I1 & I2 & I3). split_and!; [|done..].
  cbn [replies]. destruct (scheduler_step config c s), (plan_step config c p). cbn in *. by rewrite H1, I1.
Qed.

(** C12.  Whatever is called on a new scheduler, in whatever order, it answers what the
    plan answers: a task is accepted, refused or handed out, and the depths are reported,
    as if there were only the emergency queue and the list of turns.  The map of queues,
    the ring, the set and the counters of the code never come apart. *)
Theorem scheduler_refines_plan config calls (Hconfig : config_ok config) :
  replies (scheduler_step config) calls new_scheduler = replies (plan_step config) calls empty_plan /\
  exists p, represents (after_calls config calls new_scheduler) p /\ plan_ok config p.
Proof.
  destruct (run_sim config calls new_scheduler empty_plan Hconfig empty_represents (empty_plan_ok config Hconfig)) as (H1 & H2 & H3).
  split; [done|]. by exists (plan_after config calls empty_plan).
Qed.

(** ** Order and accounting *)

(** The tasks of a device with or without priority [Emergency]. *)
Definition of_class (d : DeviceId) (e : bool) (l : list DeliveryTask) : list DeliveryTask :=
  List.filter (fun t => for_device d t && Bool.eqb (is_emergency t) e) l.

Definition held (d : DeviceId) (e : bool) (s : Scheduler) : list DeliveryTask :=
  if e then List.filter (for_device d) (emergency_queue_ s) else default [] (per_device_queues_ s !! d).

Definition accepted_by (c : SchedulerCall) (r : SchedulerReply) : list DeliveryTask :=
  match c, r with Schedule _ t, Status Enqueued => [t] | _, _ => [] end.

Definition released_by (c : SchedulerCall) (s : Scheduler) (r : SchedulerReply) : list DeliveryTask :=
  match c, r with Purge d, _ => fst (drain_device_queue d s) | _, Got (Some t) => [t] | _, Drained l => l | _, _ => [] end.

(** What was accepted and what left since the last [clear]. *)
Definition observe (config : DeliverySchedulerConfig) (c : SchedulerCall) (h : list DeliveryTask * list DeliveryTask * Scheduler)
    : list DeliveryTask * list DeliveryTask * Scheduler :=
  let '(accepted, released, s) := h in
  let '(r, s') := scheduler_step config c s in
  match c with ClearTasks => ([], [], s') | _ => (accepted ++ accepted_by c r, released ++ released_by c s r, s') end.

Definition plan_class (d : DeviceId) (e : bool) (p : Plan) : list DeliveryTask :=
  if e then List.filter (for_device d) (urgent p) else queue_of d (turns p).

Lemma of_class_app d e l l' : of_class d e (l ++ l') = of_class d e l ++ of_class d e l'.
Proof. apply List.filter_app. Qed.

Lemma list_filter_none {A} (f : A -> bool) l : Forall (fun x => f x = false) l -> List.filter f l = [].
Proof. induction 1 as [|x l Hx Hl IH]; cbn; [done|]. by rewrite Hx. Qed.

Lemma list_filter_all {A} (f : A -> bool) l : Forall (fun x => f x = true) l -> List.filter f l = l.
Proof. induction 1 as [|x l Hx Hl IH]; cbn; [done|]. by rewrite Hx, IH. Qed.

Lemma filter_filter {A} (f g : A -> bool) l : List.filter f (List.filter g l) = List.filter (fun x => g x && f x) l.
Proof. induction l as [|x l IH]; cbn; [done|]. destruct (g x); cbn; by rewrite IH. Qed.

Lemma filter_same {A} (f g : A -> bool) l : Forall (fun x => f x = g x) l -> List.filter f l = List.filter g l.
Proof. induction 1 as [|x l Hx Hl IH]; cbn; [done|]. by rewrite Hx, IH. Qed.

Section accounting.
Context (config : DeliverySchedulerConfig).

Lemma queue_tasks p d : plan_ok config p -> Forall (fun t => tk_recipient_device_id t = d /\ is_emergency t = false) (queue_of d (turns p)).
Proof.
  intros Hp. pose proof (turns_own _ _ Hp) as Ho. destruct (queue_of d (turns p)) as [|t q] eqn:Hq; [constructor|]. rewrite <- Hq. rewrite Forall_forall in Ho.
  apply (Ho (d, queue_of d (turns p))), queue_of_elem. by rewrite Hq.
Qed.

Lemma schedule_class now t p d e :
  let '(st, p') := plan_schedule config now t p in plan_class d e p' = plan_class d e p ++ of_class d e (accepted_by (Schedule now t) (Status st)).
Proof.
  unfold plan_schedule. repeat case_match; simplify_eq; cbn; rewrite ?app_nil_r; try done.
  - unfold plan_class, of_class. cbn. match goal with He : is_emergency _ = true |- _ => rewrite He end. destruct e; cbn.
    + by rewrite List.filter_app, andb_true_r.
    + by rewrite andb_false_r, app_nil_r.
  - unfold plan_class, of_class. cbn. match goal with He : is_emergency _ = false |- _ => rewrite He end. rewrite queue_of_append. unfold for_device.
    destruct e; cbn; [by rewrite andb_false_r, app_nil_r|]. rewrite andb_true_r. case_decide; case_bool_decide; subst; try done. by rewrite app_nil_r.
Qed.

Lemma dequeue_class p d e :
  plan_ok config p ->
  match plan_dequeue config p with
  | (Some t, p') => plan_class d e p = of_class d e [t] ++ plan_class d e p' /\ plan_size p = 1 + plan_size p'
  | (None, p') => p' = p
  end.
Proof.
  intros Hp. unfold plan_dequeue. pose proof (urgent_emergencies _ _ Hp) as Hu. pose proof (turns_own _ _ Hp) as Ho. pose proof (turns_distinct _ _ Hp) as Hd.
  destruct (urgent p) as [|t rest] eqn:Hup.
  - destruct (turns p) as [|[dv [|t q]] later] eqn:Htp; [done|done|]. apply Forall_cons in Ho as [Hq _]. apply Forall_cons in Hq as [[Hdv He] _]. cbn in Hdv. subst dv.
    cbn [fmap list_fmap fst] in Hd. apply NoDup_cons in Hd as [Hnew _].
    assert (Hside : forall p', urgent p' = [] -> (forall d', queue_of d' (turns p') = if decide (tk_recipient_device_id t = d') then q else queue_of d' later) ->
              (length (tasks_of (turns p')) = length q + length (tasks_of later))%nat ->
              plan_class d e p = of_class d e [t] ++ plan_class d e p' /\ plan_size p = 1 + plan_size p').
    { intros p' H1 H2 H3. unfold plan_class, plan_size, of_class. rewrite H1, H2, H3, Hup, Htp, tasks_of_cons, length_app. split; [|cbn; lia].
      cbn. rewrite He. unfold for_device. destruct e; cbn; [by rewrite andb_false_r|]. rewrite andb_true_r.
      destruct (decide (tk_recipient_device_id t = d)); [by rewrite bool_decide_eq_true_2|by rewrite bool_decide_eq_false_2]. }
    destruct (bool_decide (q = [])) eqn:Eq; [apply bool_decide_eq_true in Eq|destruct (_ <=? _)]; apply Hside; try done; cbn.
    + intros d'. case_decide; subst; [|done]. by apply queue_of_absent.
    + by rewrite Eq.
    + intros d'. rewrite queue_of_app. cbn. repeat case_decide; subst; try done. symmetry. by apply queue_of_absent.
    + rewrite tasks_of_app, tasks_of_cons, tasks_of_nil, !length_app. cbn. lia.
    + by rewrite tasks_of_cons, length_app.
  - apply Forall_cons in Hu as [He _]. unfold plan_class, of_class, plan_size. cbn. rewrite Hup, He. split; [|cbn; lia]. destruct e; cbn.
    + rewrite andb_true_r. by destruct (for_device d t).
    + by rewrite andb_false_r.
Qed.

Lemma drain_class p dv d e :
  plan_ok config p ->
  let '(l, p') := plan_drain dv p in plan_class d e p = of_class d e l ++ plan_class d e p' /\ plan_size p = Z.of_nat (length l) + plan_size p'.
Proof.
  intros Hp. pose proof (queue_tasks p dv Hp) as Hq. pose proof (urgent_emergencies _ _ Hp) as Hu. unfold plan_drain. split.
  2: { unfold plan_size. cbn. pose proof (without_size dv (turns p) (turns_distinct _ _ Hp)). pose proof (filter_split_length (for_device dv) (urgent p)).
       rewrite length_app. lia. }
  rewrite of_class_app. unfold plan_class, of_class. cbn. rewrite !filter_filter. rewrite queue_of_without. destruct (decide (d = dv)) as [->|Hne].
  - destruct e.
    + rewrite (list_filter_none _ (queue_of _ _)) by (eapply Forall_impl; [exact Hq|]; intros t [_ ->]; cbn; by rewrite andb_false_r). cbn.
      rewrite (list_filter_none (fun x => negb _ && _)) by (apply Forall_forall; intros t _; by destruct (for_device dv t)). rewrite app_nil_r.
      apply filter_same. eapply Forall_impl; [exact Hu|]. intros t Ht. cbn. rewrite Ht. by destruct (for_device dv t).
    + rewrite (list_filter_all _ (queue_of _ _)) by (eapply Forall_impl; [exact Hq|]; intros t [Ht ->]; cbn; unfold for_device; by rewrite bool_decide_eq_true_2).
      rewrite list_filter_none; [by rewrite !app_nil_r|]. eapply Forall_impl; [exact Hu|]. intros t Ht. cbn. rewrite Ht. cbn. by rewrite !andb_false_r.
  - rewrite (list_filter_none _ (queue_of _ _)) by (eapply Forall_impl; [exact Hq|]; intros t [Ht _]; cbn; unfold for_device; rewrite bool_decide_eq_false_2 by congruence; done).
    assert (Hboth : forall t, for_device dv t && (for_device d t && Bool.eqb (is_emergency t) e) = false) by (intros t; unfold for_device; repeat case_bool_decide; try done; congruence).
    rewrite (list_filter_none (fun x => for_device dv x && _) (urgent p)) by (apply Forall_forall; intros t _; apply Hboth). cbn. destruct e; [|done].
    apply filter_same, Forall_forall. intros t _. unfold for_device. repeat case_bool_decide; try done. congruence.
Qed.

Lemma schedule_size now t p :
  let '(st, p') := plan_schedule config now t p in plan_size p' = plan_size p + Z.of_nat (length (accepted_by (Schedule now t) (Status st))).
Proof.
  unfold plan_schedule. repeat case_match; simplify_eq; cbn; try lia; unfold plan_size; cbn; rewrite ?length_app, ?append_task_size; cbn; lia.
Qed.

(** One call, seen by a device: what it held and what is accepted is what leaves and
    what it holds then. *)
Lemma step_class c s p d e :
  config_ok config -> represents s p -> plan_ok config p -> c <> ClearTasks ->
  let '(r, p') := plan_step config c p in
  plan_class d e p ++ of_class d e (accepted_by c r) = of_class d e (released_by c s r) ++ plan_class d e p' /\
  plan_size p + Z.of_nat (length (accepted_by c r)) = Z.of_nat (length (released_by c s r)) + plan_size p'.
Proof.
  intros Hc Hrep Hp Hne. destruct c as [now t|timeout| |dv|dv| | | |dv| |]; cbn [plan_step]; try done;
    try (cbn; rewrite app_nil_r; split; [done|unfold plan_size; cbn; lia]).
  - pose proof (schedule_class now t p d e) as H. pose proof (schedule_size now t p) as H'. by destruct (plan_schedule config now t p).
  - destruct (negb (closed p) && _ && _); [cbn; rewrite app_nil_r; split; [done|lia]|]. pose proof (dequeue_class p d e Hp) as H.
    destruct (plan_dequeue config p) as [[t|] p']; cbn; rewrite app_nil_r; [destruct H as [-> ->]; split; [done|lia]|subst p'; split; [done|lia]].
  - pose proof (dequeue_class p d e Hp) as H.
    destruct (plan_dequeue config p) as [[t|] p']; cbn; rewrite app_nil_r; [destruct H as [-> ->]; split; [done|lia]|subst p'; split; [done|lia]].
  - pose proof (drain_class p dv d e Hp) as H. destruct (plan_drain dv p) as [l p']. cbn. rewrite app_nil_r. destruct H as [-> ->]. split; [done|lia].
  - pose proof (drain_class p dv d e Hp) as H. pose proof (proj1 (drain_sim config Hc dv s p Hrep Hp)) as Hd. destruct (plan_drain dv p) as [l p'].
    cbn [accepted_by released_by fst] in *. rewrite Hd, app_nil_r. destruct H as [-> ->]. split; [done|cbn; lia].
Qed.

Definition accounted (h : list DeliveryTask * list DeliveryTask * Scheduler) : Prop :=
  let '(accepted, released, s) := h in
  exists p, represents s p /\ plan_ok config p /\ (forall d e, of_class d e accepted = of_class d e released ++ plan_class d e p) /\
    Z.of_nat (length accepted) = Z.of_nat (length released) + plan_size p.

Lemma observe_accounted c h : config_ok config -> accounted h -> accounted (observe config c h).
Proof.
  intros Hc. destruct h as [[accepted released] s]. intros (p & Hrep & Hp & Hcls & Hlen). unfold observe.
  destruct (step_sim config Hc c s p Hrep Hp) as (H1 & H2 & H3). pose proof (fun d e => step_class c s p d e Hc Hrep Hp) as Hstep.
  destruct (scheduler_step config c s) as [r s'], (plan_step config c p) as [r' p'] eqn:Hpl. cbn [fst snd] in *. subst r'.
  destruct (decide (c = ClearTasks)) as [->|Hne].
  - cbn in Hpl. injection Hpl as <- <-. exists (mkPlan (closed p) [] [] 0). split_and!; [done..| |done]. by intros d [].
  - assert (Hgoal : accounted (accepted ++ accepted_by c r, released ++ released_by c s r, s')); [|by destruct c].
    exists p'. split_and!; [done..| |].
    + intros d e. rewrite !of_class_app, Hcls, <- !app_assoc. f_equal. apply (Hstep d e Hne).
    + rewrite !length_app, !Nat2Z.inj_add, Hlen. destruct (Hstep (mkDeviceId EmptyString) true Hne) as [_ Hl]. lia.
Qed.
End accounting.

(** Whatever is called on a scheduler: of the tasks for a device that were accepted
    (since the last [clear]), with priority [Emergency] or without, those that left it so
    far, taken by workers, drained or purged, are the first ones, in the order they were
    accepted, and it holds the rest: none is lost, handed out twice or overtaken.  The
    counter is the number of tasks it holds; it never exceeds the configured bounds, and
    neither does the queue of a device. *)
Theorem tasks_leave_in_order config calls (Hconfig : config_ok config) :
  let '(accepted, released, s) := exec_all (observe config) calls ([], [], new_scheduler) in
  (forall d e, of_class d e accepted = of_class d e released ++ held d e s) /\
  total_tasks_count_ s = Z.of_nat (length accepted) - Z.of_nat (length released) /\
  total_tasks_count_ s <= Z.max (max_global_queued_tasks config) (emergency_limit config) /\
  (forall d, device_queue_depth d s <= max_tasks_per_device config).
Proof.
  assert (Hacc : accounted config (exec_all (observe config) calls ([], [], new_scheduler))).
  { apply (exec_all_inv _ _ (fun _ => True)); [intros; by apply observe_accounted|by apply Forall_forall|].
    exists empty_plan. split_and!; [apply empty_represents|by apply empty_plan_ok|by intros d []|done]. }
  destruct (exec_all _ _ _) as [[accepted released] s]. destruct Hacc as (p & Hrep & Hp & Hcls & Hlen). split_and!.
  - intros d e. rewrite Hcls. f_equal. unfold plan_class, held. by rewrite (rp_emergency _ _ Hrep), (rp_queues _ _ Hrep).
  - rewrite (rp_count _ _ Hrep). lia.
  - rewrite (rp_count _ _ Hrep). apply (size_bound _ _ Hp).
  - intros d. unfold device_queue_depth. rewrite (rp_queues _ _ Hrep). destruct (queue_of d (turns p)) as [|t q] eqn:Hq; [by destruct Hconfig as (_ & [? _] & _)|].
    pose proof (turns_short _ _ Hp) as Hs. rewrite Forall_forall in Hs. rewrite <- Hq. apply (Hs (d, queue_of d (turns p))), queue_of_elem. by rewrite Hq.
Qed.

(** ** Fairness *)

Definition takes (c : SchedulerCall) : bool := match c with Dequeue _ | TryDequeue => true | _ => false end.
Definition raises (c : SchedulerCall) : bool := match c with Schedule _ t => is_emergency t | _ => false end.
Definition leaves_alone (d : DeviceId) (c : SchedulerCall) : Prop := c <> ClearTasks /\ c <> Drain d /\ c <> Purge d.
Definition count (f : SchedulerCall -> bool) (calls : list SchedulerCall) : Z := Z.of_nat (length (List.filter f calls)).

Section fairness.
Context (config : DeliverySchedulerConfig) (d : DeviceId) (t : DeliveryTask).

Definition quantum : Z := Z.max 1 (fairness_quanta_per_device config).

(** At most how many tasks are handed out before the one at the head of place [k]. *)
Definition ahead (p : Plan) (k : nat) : Z := Z.of_nat (length (urgent p)) + (if (k =? 0)%nat then 0 else Z.of_nat k * quantum - used p).

Definition waits_at (p : Plan) (k : nat) : Prop := exists q, turns p !! k = Some (d, t :: q).

Lemma append_waits e x l k q : l !! k = Some (d, t :: q) -> exists q', append_task e x l !! k = Some (d, t :: q').
Proof.
  revert k. induction l as [|[e' q'] l IH]; intros k Hk; [done|]. cbn. destruct (decide (e' = e)) as [->|], k as [|k]; cbn in *.
  - injection Hk as -> ->. by exists (q ++ [x]).
  - by exists q.
  - by exists q.
  - by apply IH.
Qed.

Lemma schedule_waits now x p k :
  waits_at p k -> let p' := snd (plan_schedule config now x p) in waits_at p' k /\ ahead p' k <= ahead p k + (if is_emergency x then 1 else 0).
Proof.
  intros [q Hq] p'. subst p'. unfold plan_schedule, waits_at, ahead. repeat (case_match; cbn [snd]); try (split; [by exists q|lia]); cbn.
  - split; [by exists q|]. rewrite length_app. cbn. lia.
  - split; [by exists q|]. rewrite length_app. cbn. lia.
  - split; [by eapply append_waits|]. lia.
  - split; [by eapply append_waits|]. lia.
Qed.

Lemma dequeue_waits p k :
  plan_ok config p -> waits_at p k ->
  fst (plan_dequeue config p) = Some t \/ exists k', waits_at (snd (plan_dequeue config p)) k' /\ ahead (snd (plan_dequeue config p)) k' <= ahead p k - 1.
Proof.
  intros Hp [q Hq]. pose proof (used_range _ _ Hp) as Hu. pose proof (turns_busy _ _ Hp) as Hb. unfold plan_dequeue, waits_at, ahead, quantum in *.
  destruct (urgent p) as [|u rest] eqn:Hup; [|right; exists k; cbn; split; [by exists q|lia]].
  destruct (turns p) as [|[e [|x q']] later] eqn:Htp; [done|by apply Forall_cons in Hb as [? _]|]. destruct k as [|k]; [left; cbn in *; congruence|]. cbn in Hq.
  right. cbn [snd Nat.eqb]. destruct (bool_decide (q' = [])) eqn:Eq; [|destruct (Z.leb_spec (fairness_quanta_per_device config) (used p + 1))].
  - exists k. cbn. split; [by exists q|]. destruct k; cbn; lia.
  - exists k. cbn. split; [exists q; by apply lookup_app_l_Some|]. destruct k; cbn; nia.
  - exists (S k). cbn. split; [by exists q|]. lia.
Qed.

Lemma lookup_without e l k q :
  e <> d -> l !! k = Some (d, t :: q) ->
  exists k', without e l !! k' = Some (d, t :: q) /\ (k' <= k)%nat /\ (head l.*1 = Some e -> (k' < k)%nat).
Proof.
  intros Hne. revert k. induction l as [|[e' q'] l IH]; intros k Hk; [done|]. destruct k as [|k]; cbn in Hk.
  - injection Hk as -> ->. exists 0%nat. cbn. rewrite bool_decide_eq_false_2 by done. cbn. split_and!; try done. by intros [= ->].
  - destruct (IH k Hk) as (k' & Hk' & Hle & _). cbn. case_bool_decide as He; cbn.
    + exists k'. split_and!; [done|lia|intros _; lia].
    + exists (S k'). split_and!; [done|lia|]. by intros [= ->].
Qed.

Lemma drain_waits e p k :
  plan_ok config p -> e <> d -> waits_at p k ->
  exists k', waits_at (snd (plan_drain e p)) k' /\ ahead (snd (plan_drain e p)) k' <= ahead p k.
Proof.
  intros Hp Hne [q Hq]. pose proof (used_range _ _ Hp) as Hu. destruct (lookup_without e (turns p) k q Hne Hq) as (k' & Hk' & Hle & Hlt).
  exists k'. split; [by exists q|]. unfold ahead, quantum in *. cbn. pose proof (filter_split_length (for_device e) (urgent p)).
  case_bool_decide as Hh; [specialize (Hlt Hh)|]; destruct k' as [|k'], k as [|k]; cbn [Nat.eqb]; nia.
Qed.

Definition one (b : bool) : Z := if b then 1 else 0.

Lemma step_waits c p k :
  plan_ok config p -> waits_at p k -> leaves_alone d c ->
  fst (plan_step config c p) = Got (Some t) \/
  exists k', waits_at (snd (plan_step config c p)) k' /\ ahead (snd (plan_step config c p)) k' <= ahead p k - one (takes c) + one (raises c).
Proof.
  intros Hp Hw (Hc1 & Hc2 & Hc3). destruct c as [now x|timeout| |e|e| | | |e| |]; cbn [plan_step takes raises one]; try done;
    try (right; exists k; cbn; split; [exact Hw|unfold ahead; cbn; lia]).
  - right. exists k. destruct (schedule_waits now x p k Hw) as [H1 H2]. destruct (plan_schedule config now x p). cbn in *. split; [done|]. unfold one. lia.
  - assert (Hbusy : (plan_size p =? 0) = false).
    { apply Z.eqb_neq. intros H0. destruct (plan_size_0 config p Hp H0) as [_ Ht]. destruct Hw as [q Hq]. by rewrite Ht in Hq. }
    rewrite Hbusy, andb_false_r. cbn. destruct (dequeue_waits p k Hp Hw) as [H|(k' & H1 & H2)]; destruct (plan_dequeue config p); cbn in *; [left; by subst|].
    right. exists k'. split; [done|lia].
  - destruct (dequeue_waits p k Hp Hw) as [H|(k' & H1 & H2)]; destruct (plan_dequeue config p); cbn in *; [left; by subst|]. right. exists k'. split; [done|lia].
  - right. destruct (drain_waits e p k Hp) as (k' & H1 & H2); [by intros ->|done|]. destruct (plan_drain e p). cbn in *. exists k'. split; [done|lia].
  - right. destruct (drain_waits e p k Hp) as (k' & H1 & H2); [by intros ->|done|]. destruct (plan_drain e p). cbn in *. exists k'. split; [done|lia].
Qed.

Lemma count_cons f c calls : count f (c :: calls) = one (f c) + count f calls.
Proof. unfold count. cbn. destruct (f c); cbn; lia. Qed.

Lemma plan_serves calls p k :
  config_ok config -> plan_ok config p -> waits_at p k -> Forall (leaves_alone d) calls ->
  ahead p k + count raises calls < count takes calls -> Got (Some t) ∈ replies (plan_step config) calls p.
Proof.
  intros Hc. revert p k. induction calls as [|c calls IH]; intros p k Hp Hw Hcalls Hlt.
  - exfalso. pose proof (used_range _ _ Hp). unfold count, ahead, quantum in Hlt. cbn [List.filter length] in Hlt. destruct k; cbn [Nat.eqb] in Hlt; nia.
  - apply Forall_cons in Hcalls as [Hcc Hcalls]. rewrite !count_cons in Hlt. cbn [replies].
    assert (Hok : plan_ok config (snd (plan_step config c p))).
    { assert (exists s, represents s p) as [s Hs].
      { exists (mkScheduler (closed p) (plan_size p) (urgent p) (list_to_map (turns p)) (turns p).*1 (list_to_set (turns p).*1) (used p)). split; try done.
        intros e. cbn. destruct (list_to_map (turns p) !! e) as [q|] eqn:He.
        - symmetry. apply queue_of_present; [apply (turns_distinct _ _ Hp)|]. by apply elem_of_list_to_map_2 in He.
        - symmetry. apply queue_of_absent. by apply not_elem_of_list_to_map. }
      apply (step_sim config Hc c s p Hs Hp). }
    destruct (step_waits c p k Hp Hw Hcc) as [H|(k' & Hw' & Ha)]; destruct (plan_step config c p) as [r p'] eqn:E; cbn in *.
    + subst r. by left.
    + right. apply (IH p' k'); [done..|]. lia.
Qed.
End fairness.

(** C13.  No device starves.  Take any state a scheduler can reach and the first task in
    the queue of the device at place [k] of the ring.  Whatever is called afterwards,
    tasks scheduled for any devices, emergencies, other devices drained, a shutdown, as
    long as the device itself is not drained, that task is handed out by the time
    workers have asked for one task more than there are emergencies, waiting or arriving
    meanwhile, and [k] full turns of other devices. *)
Theorem devices_are_served config calls more d t q k (Hconfig : config_ok config)
    (Hring : active_device_ring_ (after_calls config calls new_scheduler) !! k = Some d)
    (Hqueue : per_device_queues_ (after_calls config calls new_scheduler) !! d = Some (t :: q))
    (Hmore : Forall (leaves_alone d) more)
    (Henough : emergency_queue_depth (after_calls config calls new_scheduler) + count raises more + Z.of_nat k * quantum config < count takes more) :
  Got (Some t) ∈ replies (scheduler_step config) more (after_calls config calls new_scheduler).
Proof.
  destruct (run_sim config calls new_scheduler empty_plan Hconfig empty_represents (empty_plan_ok config Hconfig)) as (_ & Hrep & Hp).
  set (s := after_calls config calls new_scheduler) in *. set (p := plan_after config calls empty_plan) in *.
  rewrite (proj1 (run_sim config more s p Hconfig Hrep Hp)). apply (plan_serves config d t more p k); [done..| |done|].
  - rewrite (rp_ring _ _ Hrep), list_lookup_fmap in Hring. apply fmap_Some in Hring as ([e l] & Hk & ->). exists q. rewrite Hk. cbn in *.
    pose proof (rp_queues _ _ Hrep e) as Hqe. rewrite Hqueue in Hqe. cbn in Hqe. rewrite Hqe. repeat f_equal. symmetry.
    apply queue_of_present; [apply (turns_distinct _ _ Hp)|by eapply list_elem_of_lookup_2].
  - unfold ahead, emergency_queue_depth in *. rewrite (rp_emergency _ _ Hrep) in Henough. pose proof (used_range _ _ Hp). destruct k; cbn [Nat.eqb]; lia.
Qed.

(** ** A run *)

Lemma default_scheduler_config_ok : config_ok default_scheduler_config.
Proof. unfold config_ok, in_u64. cbn. lia. Qed.

Definition sample_task (n : Z) (device : string) (priority : MessagePriority) (scheduled_at : Z) : DeliveryTask :=
  mkTask (mkMessageId (replicate 16 1)) (mkConversationId (replicate 16 2)) (mkDeviceId device) (mkUserId "alice") priority n 0 scheduled_at None
    (mkPerDevice (mkUserId "alice") (mkDeviceId device) V1_Signal_PQXDH_DoubleRatchet XChaCha20_Poly1305 "blob" [] [] [] None).

Definition sample_calls : list SchedulerCall :=
  (fun n => Schedule 0 (sample_task n "phone" Normal 0)) <$> [1; 2; 3; 4; 5; 6; 7].

Definition two_devices : list SchedulerCall :=
  sample_calls ++ [Schedule 0 (sample_task 8 "laptop" Urgent 0); Schedule 0 (sample_task 9 "phone" Emergency 0)].

Lemma scheduler_refines_plan_witness :
  config_ok default_scheduler_config /\
  replies (scheduler_step default_scheduler_config) (two_devices ++ [TryDequeue; Drain (mkDeviceId "phone"); GlobalDepth]) new_scheduler =
  replies (plan_step default_scheduler_config) (two_devices ++ [TryDequeue; Drain (mkDeviceId "phone"); GlobalDepth]) empty_plan.
Proof. split; [exact default_scheduler_config_ok|]. apply scheduler_refines_plan. exact default_scheduler_config_ok. Defined.

Lemma tasks_leave_in_order_witness :
  let '(accepted, released, s) := exec_all (observe default_scheduler_config) (two_devices ++ [TryDequeue; TryDequeue]) ([], [], new_scheduler) in
  of_class (mkDeviceId "phone") false accepted = of_class (mkDeviceId "phone") false released ++ held (mkDeviceId "phone") false s /\
  total_tasks_count_ s = Z.of_nat (length accepted) - Z.of_nat (length released).
Proof.
  pose proof (tasks_leave_in_order default_scheduler_config (two_devices ++ [TryDequeue; TryDequeue]) default_scheduler_config_ok) as H.
  destruct (exec_all _ _ _) as [[accepted released] s]. destruct H as (H1 & H2 & _). exact (conj (H1 _ _) H2).
Defined.

Lemma devices_are_served_witness :
  Got (Some (sample_task 8 "laptop" Urgent 0)) ∈
  replies (scheduler_step default_scheduler_config) (replicate 7 TryDequeue) (after_calls default_scheduler_config two_devices new_scheduler).
Proof.
  apply (devices_are_served default_scheduler_config two_devices (replicate 7 TryDequeue) (mkDeviceId "laptop") (sample_task 8 "laptop" Urgent 0) [] 1).
  - exact default_scheduler_config_ok.
  - vm_compute. reflexivity.
  - vm_compute. reflexivity.
  - repeat constructor; discriminate.
  - vm_compute. reflexivity.
Defined.

(** The time a retry is scheduled for plays no role: a task that is to wait is handed out
    at once. *)
Lemma scheduled_time_ignored :
  replies (scheduler_step default_scheduler_config) [Schedule 0 (sample_task 1 "phone" Normal (from_ms 60000)); TryDequeue] new_scheduler =
  [Status Enqueued; Got (Some (sample_task 1 "phone" Normal (from_ms 60000)))].
Proof. vm_compute. reflexivity. Qed.
