(* ===== verification/Connections.v ===== *)
(** * Connections and presence

    Which devices are connected to a messaging node and which users are therefore
    present:

    - [src/messaging/delivery/device_connection_registry.cpp]: the registry of delivery
      channels, with its limits and its index by user;
    - [src/messaging/service/presence_coordinator.cpp]: presence derived from the leases
      of a user's devices, and the statuses users choose;
    - [src/messaging/delivery/connection_lifecycle_manager.cpp]: sessions, heartbeats,
      and the reaper, on top of both.

    Each operation of the registry and of the coordinator holds its lock and is a
    function on its state; an operation of the manager is a program of such steps, and
    the calls of other threads come between them.  A channel is an object of the
    transport: whether it is active is asked of [active] at the time of the call.  Clock
    readings are arguments.  Metrics are left out.

    Then what holds in every run: the registry under any interleaving of calls
    ([registry_bounded]), and the agreement of registry, sessions and presence when calls
    come one after the other ([connections_agree]); and two runs that show what the limits
    and the agreement depend on. *)

From S2P Require Import Prelude Ids Prog Credentials.
#[local] Open Scope Z_scope.

(** ** The registry *)

Record Channel := mkChannel { ch_object : nat; ch_device_id : DeviceId; ch_user_id : UserId }.

#[export] Instance Channel_eq_dec : EqDecision Channel.
Proof. solve_decision. Defined.

Record ConnectionCapacityConfig := mkCapacity { max_devices_per_user : Z; max_global_connections : Z; default_lease_timeout : Z }.

Definition default_capacity : ConnectionCapacityConfig := mkCapacity 10 100000 (from_ms 60000).

(** An entry always has a channel: [register_channel] does nothing without one. *)
Record ChannelEntry := mkEntry { en_channel : Channel; last_active_at : Z }.

Record Registry := mkRegistry { channels_ : gmap DeviceId ChannelEntry; user_to_devices_ : gmap UserId (list DeviceId) }.

Definition empty_registry : Registry := mkRegistry ∅ ∅.

Inductive ConnectionLimitExceeded := GlobalLimit | UserLimit.

Definition erase_device (d : DeviceId) (l : list DeviceId) : list DeviceId := List.filter (fun x => negb (bool_decide (x = d))) l.

(** A user without devices has no entry. *)
Definition drop_device (d : DeviceId) (u : UserId) (m : gmap UserId (list DeviceId)) : gmap UserId (list DeviceId) :=
  let rest := erase_device d (default [] (m !! u)) in if bool_decide (rest = []) then delete u m else <[u := rest]> m.

Definition add_device (d : DeviceId) (u : UserId) (m : gmap UserId (list DeviceId)) : gmap UserId (list DeviceId) :=
  let devs := default [] (m !! u) in <[u := if bool_decide (d ∈ devs) then devs else devs ++ [d]]> m.

Section registry.
Context (config : ConnectionCapacityConfig).

(** Answers whether a channel was superseded. *)
Definition register_channel (ch : Channel) (now : Z) (r : Registry) : result ConnectionLimitExceeded bool * Registry :=
  let id := ch_device_id ch in
  let uid := ch_user_id ch in
  match channels_ r !! id with
  | Some e =>
      let old_uid := ch_user_id (en_channel e) in
      let index := if bool_decide (old_uid = uid) then user_to_devices_ r else drop_device id old_uid (user_to_devices_ r) in
      (Ok true, mkRegistry (<[id := mkEntry ch now]> (channels_ r)) (add_device id uid index))
  | None =>
      if (0 <? max_global_connections config) && (max_global_connections config <=? Z.of_nat (size (channels_ r))) then (Err GlobalLimit, r)
      else
        let devs := default [] (user_to_devices_ r !! uid) in
        if (0 <? max_devices_per_user config) && (max_devices_per_user config <=? Z.of_nat (length devs))
        then (Err UserLimit, mkRegistry (channels_ r) (<[uid := devs]> (user_to_devices_ r)))
        else (Ok false, mkRegistry (<[id := mkEntry ch now]> (channels_ r)) (add_device id uid (user_to_devices_ r)))
  end.

(** The entry is erased together with its place in the index. *)
Definition erase_channel (id : DeviceId) (e : ChannelEntry) (r : Registry) : Registry :=
  mkRegistry (delete id (channels_ r))
    (match user_to_devices_ r !! ch_user_id (en_channel e) with
     | Some _ => drop_device id (ch_user_id (en_channel e)) (user_to_devices_ r)
     | None => user_to_devices_ r
     end).

Definition unregister_channel (id : DeviceId) (r : Registry) : bool * Registry :=
  match channels_ r !! id with Some e => (true, erase_channel id e r) | None => (false, r) end.

Definition user_device_count (u : UserId) (r : Registry) : Z := Z.of_nat (length (default [] (user_to_devices_ r !! u))).

(** The lease of a channel: no time out when the configured one is not positive. *)
Definition leased (active : Channel -> bool) (now : Z) (e : ChannelEntry) : bool :=
  active (en_channel e) && negb ((0 <? default_lease_timeout config) && (default_lease_timeout config <? now - last_active_at e)).

Definition get_channel (active : Channel -> bool) (now : Z) (id : DeviceId) (r : Registry) : option Channel :=
  match channels_ r !! id with Some e => if leased active now e then Some (en_channel e) else None | None => None end.

Definition is_online (active : Channel -> bool) (now : Z) (id : DeviceId) (r : Registry) : bool := bool_decide (is_Some (get_channel active now id r)).

Definition filter_online_devices (active : Channel -> bool) (now : Z) (ids : list DeviceId) (r : Registry) : list DeviceId :=
  List.filter (fun id => match channels_ r !! id with
                         | Some e => active (en_channel e) && ((default_lease_timeout config <=? 0) || (now - last_active_at e <=? default_lease_timeout config))
                         | None => false
                         end) ids.

Definition connected_device_count (r : Registry) : Z := Z.of_nat (size (channels_ r)).

Definition touch_channel (active : Channel -> bool) (now : Z) (id : DeviceId) (r : Registry) : bool * Registry :=
  match channels_ r !! id with
  | Some e => if active (en_channel e) then (true, mkRegistry (<[id := mkEntry (en_channel e) now]> (channels_ r)) (user_to_devices_ r)) else (false, r)
  | None => (false, r)
  end.

Definition is_stale (active : Channel -> bool) (now max_idle : Z) (e : ChannelEntry) : bool :=
  let limit := if 0 <? max_idle then max_idle else default_lease_timeout config in
  negb (active (en_channel e)) || ((0 <? limit) && (limit <? now - last_active_at e)).

(** The iteration over the hash map, here in the order of its keys. *)
Definition evict_stale_channels (active : Channel -> bool) (now max_idle : Z) (r : Registry) : list DeviceId * Registry :=
  foldl (fun '(ids, r) '(id, e) => if is_stale active now max_idle e then (ids ++ [id], erase_channel id e r) else (ids, r))
    ([], r) (map_to_list (channels_ r)).
End registry.

(** ** The presence coordinator *)

Inductive PresenceStatus := PresenceUnspecified | Online | Away | Busy | Offline.

#[export] Instance PresenceStatus_eq_dec : EqDecision PresenceStatus.
Proof. solve_decision. Defined.

Definition presence_status_to_string (st : PresenceStatus) : string :=
  match st with PresenceUnspecified => "UNSPECIFIED" | Online => "ONLINE" | Away => "AWAY" | Busy => "BUSY" | Offline => "OFFLINE" end.

Definition parse_presence_status (sv : string) : option PresenceStatus :=
  if String.eqb sv "ONLINE" || String.eqb sv "online" then Some Online
  else if String.eqb sv "AWAY" || String.eqb sv "away" then Some Away
  else if String.eqb sv "BUSY" || String.eqb sv "busy" then Some Busy
  else if String.eqb sv "OFFLINE" || String.eqb sv "offline" then Some Offline
  else if String.eqb sv "UNSPECIFIED" || String.eqb sv "unspecified" || String.eqb sv "UNKNOWN" || String.eqb sv "unknown" then Some PresenceUnspecified
  else None.

Record DeviceEntry := mkDeviceEntry { de_user_id : UserId; last_active_steady : Z; last_active_system : Z }.
Record UserOverride := mkOverride { ov_status : PresenceStatus; ov_custom_message : string; ov_updated_at : Z }.

Record UserPresence := mkPresence {
  up_user_id : UserId; up_status : PresenceStatus; up_last_active_at : Z; up_custom_status_message : string; up_active_device_count : Z }.

Record Presence := mkCoordinator {
  user_devices_ : gmap UserId (gset DeviceId);
  device_states_ : gmap DeviceId DeviceEntry;
  user_overrides_ : gmap UserId UserOverride;
  user_last_seen_ : gmap UserId Z }.

Definition empty_presence : Presence := mkCoordinator ∅ ∅ ∅ ∅.

Definition on_device_connected (u : UserId) (d : DeviceId) (steady system : Z) (p : Presence) : Presence :=
  if UserId_empty u || DeviceId_empty d then p
  else mkCoordinator (<[u := {[d]} ∪ default ∅ (user_devices_ p !! u)]> (user_devices_ p)) (<[d := mkDeviceEntry u steady system]> (device_states_ p))
         (user_overrides_ p) (<[u := system]> (user_last_seen_ p)).

Definition on_device_disconnected (u : UserId) (d : DeviceId) (system : Z) (p : Presence) : Presence :=
  if UserId_empty u || DeviceId_empty d then p
  else mkCoordinator
         (match user_devices_ p !! u with
          | Some ds => let rest := ds ∖ {[d]} in if bool_decide (rest = ∅) then delete u (user_devices_ p) else <[u := rest]> (user_devices_ p)
          | None => user_devices_ p
          end) (delete d (device_states_ p)) (user_overrides_ p) (<[u := system]> (user_last_seen_ p)).

Definition on_device_heartbeat (u : UserId) (d : DeviceId) (steady system : Z) (p : Presence) : Presence :=
  if UserId_empty u || DeviceId_empty d then p
  else
    match device_states_ p !! d with
    | Some e => mkCoordinator (user_devices_ p) (<[d := mkDeviceEntry (de_user_id e) steady system]> (device_states_ p)) (user_overrides_ p)
                  (<[u := system]> (user_last_seen_ p))
    | None => mkCoordinator (<[u := {[d]} ∪ default ∅ (user_devices_ p !! u)]> (user_devices_ p)) (<[d := mkDeviceEntry u steady system]> (device_states_ p))
                (user_overrides_ p) (<[u := system]> (user_last_seen_ p))
    end.

Definition k_max_custom_status_length : Z := 140.

Definition sanitize_status_message (message : string) : string :=
  of_chars (take (Z.to_nat k_max_custom_status_length) (trim_whitespace (chars message))).

Definition set_user_override (u : UserId) (status : PresenceStatus) (custom_message : string) (system : Z) (p : Presence) : Presence :=
  if UserId_empty u then p
  else mkCoordinator (user_devices_ p) (device_states_ p)
         (<[u := mkOverride status (sanitize_status_message custom_message) system]> (user_overrides_ p)) (user_last_seen_ p).

Definition clear_user_override (u : UserId) (p : Presence) : Presence :=
  if UserId_empty u then p else mkCoordinator (user_devices_ p) (device_states_ p) (delete u (user_overrides_ p)) (user_last_seen_ p).

Section presence.
Context (lease_timeout : Z).

Definition device_live (now : Z) (e : DeviceEntry) : bool := (lease_timeout <=? 0) || (now - last_active_steady e <=? lease_timeout).

(** The loop over the devices of the user; the epoch is the initial maximum. *)
Definition active_devices (now : Z) (u : UserId) (p : Presence) : list DeviceEntry :=
  List.filter (device_live now) (omap (fun d => device_states_ p !! d) (elements (default ∅ (user_devices_ p !! u)))).

Definition latest (l : list DeviceEntry) : Z := foldr (fun e t => Z.max (last_active_system e) t) 0 l.

Definition evaluate_user_presence (now : Z) (u : UserId) (p : Presence) : UserPresence :=
  let active := active_devices now u p in
  let count := Z.of_nat (length active) in
  if 0 <? count then
    match user_overrides_ p !! u with
    | Some o =>
        if bool_decide (ov_status o = PresenceUnspecified) then mkPresence u Online (latest active) EmptyString count
        else mkPresence u (ov_status o) (latest active) (ov_custom_message o) count
    | None => mkPresence u Online (latest active) EmptyString count
    end
  else
    match user_last_seen_ p !! u with
    | Some seen => mkPresence u Offline seen EmptyString 0
    | None => mkPresence u PresenceUnspecified 0 EmptyString 0
    end.

Definition get_user_presence (now : Z) (u : UserId) (p : Presence) : UserPresence := evaluate_user_presence now u p.
Definition batch_get_presence (now : Z) (us : list UserId) (p : Presence) : list UserPresence := (fun u => evaluate_user_presence now u p) <$> us.
Definition tracked_users_count (p : Presence) : Z := Z.of_nat (size (user_last_seen_ p)).
Definition tracked_devices_count (p : Presence) : Z := Z.of_nat (size (device_states_ p)).

Definition online_users_count (now : Z) (p : Presence) : Z :=
  Z.of_nat (size (filter (fun kv => existsb (fun d => from_option (device_live now) false (device_states_ p !! d)) (elements kv.2) = true) (user_devices_ p))).
End presence.

(** ** The lifecycle manager *)

Inductive ConnectionState := Connecting | ConnActive | Stale | Terminated.

#[export] Instance ConnectionState_eq_dec : EqDecision ConnectionState.
Proof. solve_decision. Defined.

Definition is_valid_connection_transition (from to : ConnectionState) : bool :=
  match from with
  | Connecting => bool_decide (to = ConnActive) || bool_decide (to = Terminated)
  | ConnActive => bool_decide (to = Stale) || bool_decide (to = Terminated)
  | Stale => bool_decide (to = ConnActive) || bool_decide (to = Terminated)
  | Terminated => false
  end.

Definition connection_state_to_string (st : ConnectionState) : string :=
  match st with Connecting => "CONNECTING" | ConnActive => "ACTIVE" | Stale => "STALE" | Terminated => "TERMINATED" end.

Definition parse_connection_state (sv : string) : option ConnectionState :=
  if String.eqb sv "CONNECTING" || String.eqb sv "connecting" then Some Connecting
  else if String.eqb sv "ACTIVE" || String.eqb sv "active" then Some ConnActive
  else if String.eqb sv "STALE" || String.eqb sv "stale" then Some Stale
  else if String.eqb sv "TERMINATED" || String.eqb sv "terminated" then Some Terminated
  else None.

Lemma presence_text st : parse_presence_status (presence_status_to_string st) = Some st.
Proof. by destruct st. Qed.

Lemma connection_text st : parse_connection_state (connection_state_to_string st) = Some st.
Proof. by destruct st. Qed.

(** A device is connecting only once, and a terminated connection stays so. *)
Lemma connection_life from to : is_valid_connection_transition from to = true -> to <> Connecting /\ from <> Terminated.
Proof. by destruct from, to. Qed.

Record ConnectionSession := mkConnSession {
  cs_connection_id : string; cs_device_id : DeviceId; cs_user_id : UserId; cs_client_ip : string; cs_user_agent : string;
  cs_protocol_version : Z; cs_state : ConnectionState; cs_connected_at : Z; cs_last_heartbeat_at : Z }.

Record ConnectionsState := mkConnections { registry_ : Registry; sessions_ : gmap DeviceId ConnectionSession; presence_ : Presence }.

Definition no_connections : ConnectionsState := mkConnections empty_registry ∅ empty_presence.

Definition set_registry (r : Registry) (s : ConnectionsState) : ConnectionsState := mkConnections r (sessions_ s) (presence_ s).
Definition set_sessions (m : gmap DeviceId ConnectionSession) (s : ConnectionsState) : ConnectionsState := mkConnections (registry_ s) m (presence_ s).
Definition set_presence (p : Presence) (s : ConnectionsState) : ConnectionsState := mkConnections (registry_ s) (sessions_ s) p.

Definition cprog (A : Type) : Type := prog ConnectionsState A.

Definition on_registry {A} (f : Registry -> A * Registry) : cprog A := locked (fun s => let '(a, r) := f (registry_ s) in (a, set_registry r s)).
Definition on_presence (f : Presence -> Presence) : cprog unit := locked (fun s => (tt, set_presence (f (presence_ s)) s)).

(** The callback of the manager, the one the registry has. *)
Definition on_registry_disconnect (d : DeviceId) (system : Z) : cprog unit :=
  let* uid := locked (fun s => (cs_user_id <$> sessions_ s !! d, set_sessions (delete d (sessions_ s)) s)) in
  match uid with Some u => on_presence (on_device_disconnected u d system) | None => Ret tt end.

Fixpoint notify_all (ids : list DeviceId) (system : Z) : cprog unit :=
  match ids with [] => Ret tt | d :: ids => let* _ := on_registry_disconnect d system in notify_all ids system end.

(** Readings of the clocks during a call. *)
Record Readings := mkReadings { rd_start : Z; rd_registry : Z; rd_disconnect : Z; rd_steady : Z; rd_system : Z }.

Section manager.
Context (config : ConnectionCapacityConfig) (lease_timeout : Z).

(** Whoever listens to new connections runs afterwards and is not part of this state. *)
Definition establish_connection (ch : Channel) (connection_id client_ip user_agent : string) (version : Z) (t : Readings)
    : cprog (result ConnectionLimitExceeded ConnectionSession) :=
  let dev_id := ch_device_id ch in
  let* r := on_registry (register_channel config ch (rd_registry t)) in
  match r with
  | Err e => Ret (Err e)
  | Ok superseding =>
      let* _ := (if superseding then on_registry_disconnect dev_id (rd_disconnect t) else Ret tt) in
      let session := mkConnSession connection_id dev_id (ch_user_id ch) client_ip user_agent version ConnActive (rd_start t) (rd_start t) in
      let* _ := locked (fun s => (tt, set_sessions (<[dev_id := session]> (sessions_ s)) s)) in
      let* _ := on_presence (on_device_connected (ch_user_id ch) dev_id (rd_steady t) (rd_system t)) in
      Ret (Ok session)
  end.

Definition terminate_connection (d : DeviceId) (t : Readings) : cprog unit :=
  let* found := on_registry (unregister_channel d) in
  if found : bool then on_registry_disconnect d (rd_disconnect t) else Ret tt.

Definition beat (now : Z) (c : ConnectionSession) : ConnectionSession :=
  mkConnSession (cs_connection_id c) (cs_device_id c) (cs_user_id c) (cs_client_ip c) (cs_user_agent c) (cs_protocol_version c) ConnActive
    (cs_connected_at c) now.

Definition record_heartbeat (active : Channel -> bool) (d : DeviceId) (t : Readings) : cprog bool :=
  let* uid := locked (fun s => match sessions_ s !! d with
                               | Some c => (Some (cs_user_id c), set_sessions (<[d := beat (rd_start t) c]> (sessions_ s)) s)
                               | None => (None, s)
                               end) in
  match uid with
  | None => Ret false
  | Some u =>
      let* _ := on_registry (touch_channel active (rd_registry t) d) in
      let* _ := on_presence (on_device_heartbeat u d (rd_steady t) (rd_system t)) in
      Ret true
  end.

Definition get_session (d : DeviceId) : cprog (option ConnectionSession) := locked (fun s => (sessions_ s !! d, s)).
Definition active_session_count : cprog Z := locked (fun s => (Z.of_nat (size (sessions_ s)), s)).

Definition sweep_stale_connections (active : Channel -> bool) (t : Readings) : cprog Z :=
  let* ids := on_registry (evict_stale_channels config active (rd_registry t) lease_timeout) in
  let* _ := notify_all ids (rd_disconnect t) in
  Ret (Z.of_nat (length ids)).

Inductive ConnectionCall :=
  | Establish (ch : Channel) (connection_id client_ip user_agent : string) (version : Z) (t : Readings)
  | Terminate (d : DeviceId) (t : Readings)
  | Heartbeat (active : Channel -> bool) (d : DeviceId) (t : Readings)
  | Sweep (active : Channel -> bool) (t : Readings)
  | SetOverride (u : UserId) (status : PresenceStatus) (message : string) (t : Readings)
  | ClearOverride (u : UserId).

Definition serve_connection (c : ConnectionCall) : cprog unit :=
  match c with
  | Establish ch id ip ua v t => let* _ := establish_connection ch id ip ua v t in Ret tt
  | Terminate d t => terminate_connection d t
  | Heartbeat active d t => let* _ := record_heartbeat active d t in Ret tt
  | Sweep active t => let* _ := sweep_stale_connections active t in Ret tt
  | SetOverride u st m t => on_presence (set_user_override u st m (rd_system t))
  | ClearOverride u => on_presence (clear_user_override u)
  end.
End manager.

(** ** The index of the registry *)

(** The user each registered device belongs to. *)
Definition users_of (r : Registry) : gmap DeviceId UserId := (fun e => ch_user_id (en_channel e)) <$> channels_ r.

(** An index by user of a map from devices to users. *)
Record indexes (index : gmap UserId (list DeviceId)) (users : gmap DeviceId UserId) : Prop := mkIndexes {
  index_agrees : forall u d, d ∈ default [] (index !! u) <-> users !! d = Some u;
  index_once : forall u, NoDup (default [] (index !! u));
  index_tight : forall u, index !! u <> Some [] }.

Record registry_ok (config : ConnectionCapacityConfig) (r : Registry) : Prop := mkRegistryOk {
  ok_index : indexes (user_to_devices_ r) (users_of r);
  ok_keys : forall d e, channels_ r !! d = Some e -> ch_device_id (en_channel e) = d;
  ok_global : 0 < max_global_connections config -> connected_device_count r <= max_global_connections config }.

Lemma erase_device_spec d l : erase_device d l = filter (fun x => x <> d) l.
Proof. unfold erase_device. induction l as [|x l IH]; cbn [List.filter]; [done|]. rewrite filter_cons, IH. by repeat case_decide || case_bool_decide. Qed.

Lemma drop_device_lookup d u m v : default [] (drop_device d u m !! v) = if decide (v = u) then erase_device d (default [] (m !! u)) else default [] (m !! v).
Proof.
  unfold drop_device. cbn zeta. case_bool_decide as Hr; case_decide as Hv; subst.
  - by rewrite lookup_delete_eq, Hr.
  - by rewrite lookup_delete_ne by done.
  - by rewrite lookup_insert_eq.
  - by rewrite lookup_insert_ne by done.
Qed.

Lemma drop_device_tight d u m v : m !! v <> Some [] -> drop_device d u m !! v <> Some [].
Proof.
  unfold drop_device. cbn zeta. intros Hm. destruct (decide (u = v)) as [->|]; case_bool_decide as Hr.
  - by rewrite lookup_delete_eq.
  - rewrite lookup_insert_eq. congruence.
  - by rewrite lookup_delete_ne.
  - by rewrite lookup_insert_ne.
Qed.

Lemma add_device_lookup d u m v :
  default [] (add_device d u m !! v) = if decide (v = u) then let l := default [] (m !! u) in if bool_decide (d ∈ l) then l else l ++ [d] else default [] (m !! v).
Proof. unfold add_device. cbn zeta. case_decide; subst; [by rewrite lookup_insert_eq|by rewrite lookup_insert_ne by done]. Qed.

Lemma add_device_tight d u m v : m !! v <> Some [] -> add_device d u m !! v <> Some [].
Proof.
  unfold add_device. cbn zeta. intros Hm. destruct (decide (u = v)) as [->|]; [|by rewrite lookup_insert_ne].
  rewrite lookup_insert_eq. case_bool_decide as Hd; intros [= He].
  - rewrite He in Hd. by apply elem_of_nil in Hd.
  - by apply app_eq_nil in He as [_ ?].
Qed.

Lemma elem_of_erase_device x d l : x ∈ erase_device d l <-> x ∈ l /\ x <> d.
Proof. rewrite erase_device_spec, list_elem_of_filter. tauto. Qed.

Lemma elem_of_add (x d : DeviceId) l : (x ∈ if bool_decide (d ∈ l) then l else l ++ [d]) <-> x = d \/ x ∈ l.
Proof. case_bool_decide; [split; [auto|intros [->|]; done]|]. rewrite elem_of_app, list_elem_of_singleton. tauto. Qed.

Lemma NoDup_erase_device d l : NoDup l -> NoDup (erase_device d l).
Proof. rewrite erase_device_spec. apply NoDup_filter. Qed.

Lemma NoDup_add (d : DeviceId) l : NoDup l -> NoDup (if bool_decide (d ∈ l) then l else l ++ [d]).
Proof. intros Hl. case_bool_decide; [done|]. apply NoDup_app. split_and!; [done| |apply NoDup_singleton]. intros x Hx ->%list_elem_of_singleton. done. Qed.

Lemma indexes_empty : indexes ∅ ∅.
Proof. split; intros u; rewrite ?lookup_empty; [|apply NoDup_nil_2|done]. intros d. rewrite lookup_empty. cbn. split; [by intros ?%elem_of_nil|done]. Qed.

Lemma indexes_drop index users d u : indexes index users -> users !! d = Some u -> indexes (drop_device d u index) (delete d users).
Proof.
  intros [Ha Ho Ht] Hd. split; intros v; [intros x|..|by apply drop_device_tight]; rewrite drop_device_lookup; case_decide; subst; auto using NoDup_erase_device.
  - rewrite elem_of_erase_device, Ha, lookup_delete_Some. naive_solver.
  - rewrite Ha, lookup_delete_Some. naive_solver.
Qed.

Lemma indexes_add index users d u :
  indexes index users -> (forall v, users !! d = Some v -> v = u) -> indexes (add_device d u index) (<[d := u]> users).
Proof.
  intros [Ha Ho Ht] Hd. split; intros v; [intros x|..|by apply add_device_tight]; rewrite add_device_lookup; cbn zeta; case_decide; subst; auto using NoDup_add.
  - rewrite elem_of_add, Ha, lookup_insert_Some. destruct (decide (x = d)) as [->|]; naive_solver.
  - rewrite Ha, lookup_insert_Some. destruct (decide (x = d)) as [->|]; naive_solver.
Qed.

(** ** What the operations of the registry do *)

Section registry.
Context (config : ConnectionCapacityConfig).

Lemma users_of_insert r id e m : users_of (mkRegistry (<[id := e]> (channels_ r)) m) = <[id := ch_user_id (en_channel e)]> (users_of r).
Proof. unfold users_of. cbn [channels_]. by rewrite fmap_insert. Qed.

Lemma users_of_erase id e r : users_of (erase_channel id e r) = delete id (users_of r).
Proof. unfold users_of, erase_channel. cbn [channels_]. by rewrite fmap_delete. Qed.

(** A refused channel changes nothing. *)
Lemma register_refused ch now r e : registry_ok config r -> fst (register_channel config ch now r) = Err e -> snd (register_channel config ch now r) = r.
Proof.
  intros Hok. unfold register_channel. cbn zeta. destruct (channels_ r !! _); [done|]. destruct (_ && _); [done|].
  destruct ((0 <? _) && _) eqn:Hfull; [|done]. intros _. destruct r as [cs us]. cbn [snd channels_ user_to_devices_] in *. f_equal.
  destruct (us !! ch_user_id ch) as [l|] eqn:Hu; cbn [from_option] in *; [by rewrite insert_id|]. cbn in Hfull. apply andb_true_iff in Hfull as [?%Z.ltb_lt ?%Z.leb_le]. cbn in *. lia.
Qed.

Lemma users_of_register ch now r b :
  fst (register_channel config ch now r) = Ok b ->
  users_of (snd (register_channel config ch now r)) = <[ch_device_id ch := ch_user_id ch]> (users_of r) /\ b = bool_decide (is_Some (channels_ r !! ch_device_id ch)).
Proof.
  unfold register_channel. cbn zeta. destruct (channels_ r !! _) eqn:Hc.
  - intros [= <-]. split; [apply users_of_insert|]. by rewrite bool_decide_eq_true_2.
  - destruct (_ && _); [done|]. destruct ((0 <? max_devices_per_user config) && _); [done|]. intros [= <-]. split; [apply users_of_insert|].
    rewrite bool_decide_eq_false_2; [done|]. by intros [? ?].
Qed.

Lemma register_ok ch now r : registry_ok config r -> registry_ok config (snd (register_channel config ch now r)).
Proof.
  intros [Hi Hk Hg]. unfold register_channel. cbn zeta. destruct (channels_ r !! ch_device_id ch) as [e|] eqn:Hc.
  - assert (Hu : users_of r !! ch_device_id ch = Some (ch_user_id (en_channel e))) by (unfold users_of; by rewrite lookup_fmap, Hc).
    cbn [snd]. split.
    + rewrite users_of_insert. cbn [user_to_devices_ en_channel]. case_bool_decide as Heq.
      * apply indexes_add; [done|]. intros v. congruence.
      * rewrite <-(insert_delete_eq (users_of r)). apply indexes_add; [by apply indexes_drop|]. intros v. by rewrite lookup_delete_eq.
    + cbn [channels_]. intros d e'. rewrite lookup_insert_Some. intros [[<- <-]|[_ ?]]; [done|by apply Hk].
    + unfold connected_device_count in *. cbn [channels_]. rewrite map_size_insert_Some by eauto. done.
  - assert (Hu : users_of r !! ch_device_id ch = None) by (unfold users_of; by rewrite lookup_fmap, Hc).
    destruct ((0 <? max_global_connections config) && _) eqn:Hfull; [by split|]. destruct ((0 <? max_devices_per_user config) && _) eqn:Hdev.
    + pose proof (register_refused ch now r UserLimit (mkRegistryOk config r Hi Hk Hg)) as Hsame. unfold register_channel in Hsame. cbn zeta in Hsame.
      rewrite Hc, Hfull, Hdev in Hsame. rewrite Hsame by done. by split.
    + cbn [snd]. split.
      * rewrite users_of_insert. apply indexes_add; [done|]. intros v. congruence.
      * cbn [channels_]. intros d e'. rewrite lookup_insert_Some. intros [[<- <-]|[_ ?]]; [done|by apply Hk].
      * unfold connected_device_count in *. cbn [channels_]. rewrite map_size_insert_None by done. lia.
Qed.

Lemma erase_ok id e r : registry_ok config r -> channels_ r !! id = Some e -> registry_ok config (erase_channel id e r).
Proof.
  intros [Hi Hk Hg] Hc. assert (Hu : users_of r !! id = Some (ch_user_id (en_channel e))) by (unfold users_of; by rewrite lookup_fmap, Hc). split.
  - rewrite users_of_erase. unfold erase_channel. cbn [user_to_devices_]. pose proof (index_agrees _ _ Hi (ch_user_id (en_channel e)) id) as [_ Hin].
    specialize (Hin Hu). destruct (user_to_devices_ r !! ch_user_id (en_channel e)) eqn:Hl; [by apply indexes_drop|]. by apply elem_of_nil in Hin.
  - unfold erase_channel. cbn [channels_]. intros d e' [_ ?]%lookup_delete_Some. by apply Hk.
  - unfold erase_channel, connected_device_count in *. cbn [channels_]. intros H. specialize (Hg H).
    rewrite map_size_delete, Hc. lia.
Qed.

Lemma unregister_ok id r : registry_ok config r -> registry_ok config (snd (unregister_channel id r)).
Proof. intros Hok. unfold unregister_channel. destruct (channels_ r !! id) eqn:Hc; cbn [snd]; [by apply erase_ok|done]. Qed.

Lemma users_of_touch active now id r : users_of (snd (touch_channel active now id r)) = users_of r.
Proof.
  unfold touch_channel. destruct (channels_ r !! id) as [e|] eqn:Hc; [|done]. destruct (active _); [|done]. cbn [snd].
  rewrite users_of_insert. cbn [en_channel]. apply insert_id. unfold users_of. by rewrite lookup_fmap, Hc.
Qed.

Lemma touch_ok active now id r : registry_ok config r -> registry_ok config (snd (touch_channel active now id r)).
Proof.
  intros [Hi Hk Hg]. split.
  - rewrite users_of_touch. unfold touch_channel. by destruct (channels_ r !! id) as [e|]; [destruct (active _)|].
  - unfold touch_channel. destruct (channels_ r !! id) as [e|] eqn:Hc; [|done]. destruct (active _); [|done]. cbn [snd channels_].
    intros d e'. rewrite lookup_insert_Some. intros [[<- <-]|[_ ?]]; [by apply (Hk id e)|by apply Hk].
  - unfold touch_channel. destruct (channels_ r !! id) as [e|] eqn:Hc; [|done]. destruct (active _); [|done]. unfold connected_device_count in *.
    cbn [snd channels_]. rewrite map_size_insert_Some by eauto. done.
Qed.

(** The eviction erases the stale channels and only them. *)
Definition evict_one (active : Channel -> bool) (now max_idle : Z) : list DeviceId * Registry -> DeviceId * ChannelEntry -> list DeviceId * Registry :=
  fun '(ids, r) '(id, e) => if is_stale config active now max_idle e then (ids ++ [id], erase_channel id e r) else (ids, r).

Lemma evict_fold active now max_idle (P : Registry -> Prop) l ids r :
  (forall id e r, P r -> channels_ r !! id = Some e -> P (erase_channel id e r)) -> NoDup l.*1 -> (forall id e, (id, e) ∈ l -> channels_ r !! id = Some e) -> P r ->
  let '(ids', r') := foldl (evict_one active now max_idle) (ids, r) l in
  P r' /\ exists gone, ids' = ids ++ gone /\ users_of r' = foldr delete (users_of r) (rev gone) /\
    forall d, d ∈ gone <-> exists e, (d, e) ∈ l /\ is_stale config active now max_idle e = true.
Proof.
  intros HP. revert ids r. induction l as [|[id e] l IH]; intros ids r Hnd Hin Hr; cbn [foldl].
  - split; [done|]. exists []. rewrite app_nil_r. split_and!; [done|done|]. intros d. split; [by intros ?%elem_of_nil|]. by intros (? & ?%elem_of_nil & _).
  - apply NoDup_cons in Hnd as [Hid Hnd]. assert (He : channels_ r !! id = Some e) by (apply Hin; by left).
    assert (Hother : forall id' e', (id', e') ∈ l -> id' <> id) by (intros id' e' Hl ->; apply Hid; apply list_elem_of_fmap; by exists (id, e')).
    cbn [evict_one]. destruct (is_stale config active now max_idle e) eqn:Hs.
    + specialize (IH (ids ++ [id]) (erase_channel id e r) Hnd). destruct (foldl _ _ _) as [ids' r']. destruct IH as (HP' & gone & -> & Hu & Hg).
      * intros id' e' Hl. unfold erase_channel. cbn [channels_]. rewrite lookup_delete_ne by (intros <-; by eapply Hother). apply Hin. by right.
      * by apply HP.
      * split; [done|]. exists (id :: gone). rewrite <-app_assoc. split_and!; [done| |].
        -- rewrite Hu, users_of_erase. cbn [rev]. by rewrite foldr_app.
        -- intros d. rewrite elem_of_cons, Hg. setoid_rewrite elem_of_cons. split.
           ++ intros [->|(e' & ? & ?)]; eauto.
           ++ intros (e' & [[= -> ->]|?] & ?); eauto.
    + specialize (IH ids r Hnd). destruct (foldl _ _ _) as [ids' r']. destruct IH as (HP' & gone & -> & Hu & Hg); [intros; apply Hin; by right|done|].
      split; [done|]. exists gone. split_and!; [done|done|]. intros d. rewrite Hg. setoid_rewrite elem_of_cons. split.
      * intros (e' & ? & ?). eauto.
      * intros (e' & [[= -> ->]|?] & ?); [congruence|eauto].
Qed.

Lemma evict_stale_spec active now max_idle (P : Registry -> Prop) r :
  (forall id e r, P r -> channels_ r !! id = Some e -> P (erase_channel id e r)) -> P r ->
  let '(ids, r') := evict_stale_channels config active now max_idle r in
  P r' /\ users_of r' = foldr delete (users_of r) (rev ids) /\
  forall d, d ∈ ids <-> exists e, channels_ r !! d = Some e /\ is_stale config active now max_idle e = true.
Proof.
  intros HP Hr. pose proof (evict_fold active now max_idle P (map_to_list (channels_ r)) [] r HP (NoDup_fst_map_to_list _)) as H.
  change (evict_stale_channels config active now max_idle r) with (foldl (evict_one active now max_idle) ([], r) (map_to_list (channels_ r))).
  destruct (foldl _ _ _) as [ids r']. destruct H as (HP' & gone & -> & Hu & Hg); [by intros id e ?%elem_of_map_to_list|done|].
  split_and!; [done|done|]. intros d. cbn [app]. rewrite Hg. by setoid_rewrite elem_of_map_to_list.
Qed.

(** ** The limit per user *)

Definition within_user (r : Registry) : Prop := 0 < max_devices_per_user config -> forall u, user_device_count u r <= max_devices_per_user config.

Lemma erase_device_length d l : (length (erase_device d l) <= length l)%nat.
Proof. rewrite erase_device_spec. apply length_filter. Qed.

Lemma erase_within id e r : within_user r -> within_user (erase_channel id e r).
Proof.
  intros Hw Hm u. specialize (Hw Hm u). unfold user_device_count, erase_channel in *. cbn [user_to_devices_].
  destruct (user_to_devices_ r !! ch_user_id (en_channel e)); [|done]. rewrite drop_device_lookup. case_decide; [subst|done].
  pose proof (erase_device_length id (default [] (user_to_devices_ r !! ch_user_id (en_channel e)))). lia.
Qed.

(** A device that comes back comes back for the same user. *)
Lemma register_within ch now r :
  registry_ok config r -> (forall u, users_of r !! ch_device_id ch = Some u -> u = ch_user_id ch) -> within_user r -> within_user (snd (register_channel config ch now r)).
Proof.
  intros Hok Hsame Hw Hm u. pose proof (Hw Hm u) as Hu. pose proof (index_agrees _ _ (ok_index _ _ Hok)) as Ha.
  unfold register_channel. cbn zeta. unfold user_device_count, users_of in *. destruct (channels_ r !! ch_device_id ch) as [e|] eqn:Hc.
  - specialize (Hsame (ch_user_id (en_channel e))). rewrite lookup_fmap, Hc in Hsame. specialize (Hsame eq_refl). rewrite bool_decide_eq_true_2 by done.
    cbn [snd user_to_devices_]. rewrite add_device_lookup. cbn zeta. case_decide; [subst|done]. rewrite bool_decide_eq_true_2; [done|].
    apply Ha. rewrite lookup_fmap, Hc. cbn. by f_equal.
  - destruct ((0 <? max_global_connections config) && _); [done|]. destruct ((0 <? max_devices_per_user config) && _) eqn:Hfull; cbn [snd user_to_devices_].
    + destruct (decide (u = ch_user_id ch)) as [->|]; [by rewrite lookup_insert_eq|by rewrite lookup_insert_ne by done].
    + rewrite add_device_lookup. cbn zeta. case_decide; [subst|done]. case_bool_decide; [done|]. rewrite length_app. cbn [length]. lia.
Qed.

Lemma touch_within active now id r : within_user r -> within_user (snd (touch_channel active now id r)).
Proof. unfold touch_channel. by destruct (channels_ r !! id) as [e|]; [destruct (active _)|]. Qed.
End registry.

(** ** Any interleaving of calls *)

(** Connections that keep to [owner]: a device always connects for the same user. *)
Definition keeps_owner (owner : DeviceId -> UserId) (c : ConnectionCall) : Prop :=
  match c with Establish ch _ _ _ _ _ => ch_user_id ch = owner (ch_device_id ch) | _ => True end.

#[export] Instance keeps_owner_dec owner c : Decision (keeps_owner owner c).
Proof. destruct c; cbn [keeps_owner]; apply _. Defined.

Section interleaving.
Context (config : ConnectionCapacityConfig) (lease_timeout : Z).

Definition any_step (s s' : ConnectionsState) : Prop := True.
#[export] Instance any_step_preorder : PreOrder any_step.
Proof. by split. Qed.

(** A property of the registry alone that every operation on it keeps is kept by every
    call. *)
Section keeps.
Context (P : Registry -> Prop) (allowed : ConnectionCall -> Prop).
Context (Hregister : forall ch id ip ua v t r, allowed (Establish ch id ip ua v t) -> P r -> P (snd (register_channel config ch (rd_registry t) r))).
Context (Herase : forall id e r, P r -> channels_ r !! id = Some e -> P (erase_channel id e r)).
Context (Htouch : forall active now id r, P r -> P (snd (touch_channel active now id r))).

Let I (s : ConnectionsState) : Prop := P (registry_ s).

Lemma disconnect_keeps d t s : wpr I any_step (on_registry_disconnect d t) (fun _ _ => True) s.
Proof using Type. unfold on_registry_disconnect. apply wpr_locked. intros s' _ HI. split_and!; [done|done|]. cbn [fst snd]. destruct (_ <$> _); [|done]. by intros ? _ ?. Qed.

Lemma notify_keeps ids t s : I s -> wpr I any_step (notify_all ids t) (fun _ _ => True) s.
Proof using Type.
  revert s. induction ids as [|d ids IH]; intros s HI; cbn [notify_all]; [done|]. apply wpr_bind; [apply _|done|].
  eapply wpr_mono; [|apply disconnect_keeps]. intros _ s' _ ? _. by apply IH.
Qed.

Lemma on_registry_keeps {A R} (f : Registry -> A * Registry) (k : A -> cprog R) Q s :
  (forall r, P r -> P (snd (f r))) -> (forall a s', I s' -> wpr I any_step (k a) Q s') -> wpr I any_step (pbind (on_registry f) k) Q s.
Proof using Type.
  intros Hf Hk. apply wpr_locked. intros s' _ HI. specialize (Hf _ HI). destruct (f (registry_ s')) as [a r]. split_and!; [done|done|]. by apply Hk.
Qed.

Lemma serve_keeps c s : allowed c -> I s -> wpr I any_step (serve_connection config lease_timeout c) (fun _ _ => True) s.
Proof using Herase Hregister Htouch.
  intros Hc HI. destruct c as [ch id ip ua v t|d t|active d t|active t|u st m t|u]; cbn [serve_connection].
  - apply wpr_bind; [apply _|done|]. apply on_registry_keeps; [intros r; by eapply Hregister|]. intros [sup|e] s1 HI1; [|done].
    apply wpr_bind; [apply _|done|]. eapply (wpr_mono _ _ _ (fun _ _ => True)).
    + intros _ s2 _ HI2 _. apply wpr_locked. intros s3 _ HI3. split_and!; [done|done|]. by apply wpr_locked.
    + destruct sup; [apply disconnect_keeps|done].
  - apply on_registry_keeps.
    + intros r Hr. unfold unregister_channel. destruct (channels_ r !! d) eqn:He; cbn [snd]; [by apply Herase|done].
    + intros [] s1 HI1; [apply disconnect_keeps|done].
  - apply wpr_bind; [apply _|done|]. unfold record_heartbeat. apply wpr_locked. intros s1 _ HI1. destruct (sessions_ s1 !! d); cbn [fst snd]; [|by split_and!].
    split_and!; [done|done|]. apply on_registry_keeps; [intros r; apply Htouch|]. intros _ s2 HI2. by apply wpr_locked.
  - apply wpr_bind; [apply _|done|]. apply on_registry_keeps.
    + intros r Hr. pose proof (evict_stale_spec config active (rd_registry t) lease_timeout P r Herase Hr) as H. destruct (evict_stale_channels _ _ _ _ _) as [ids r']. apply H.
    + intros ids s1 HI1. apply wpr_bind; [apply _|done|]. eapply wpr_mono; [|by apply notify_keeps]. done.
  - by apply wpr_locked.
  - by apply wpr_locked.
Qed.

Lemma run_keeps w : (forall c, Decision (allowed c)) ->
  P empty_registry -> rtc (pool_step (serve_connection config lease_timeout)) (mkPool [] no_connections) w -> Forall allowed (threads w).*1 -> P (registry_ (shared w)).
Proof using Herase Hregister Htouch.
  intros Hdec H0 Hr Hall. pose (serve' := fun c => if decide (allowed c) then serve_connection config lease_timeout c else Ret tt).
  assert (Hr' : rtc (pool_step serve') (mkPool [] no_connections) w).
  { eapply pool_among; [|exact Hr|exact Hall]. intros c Hc. unfold serve'. by rewrite decide_True. }
  refine (proj1 (pool_wpr I any_step serve' (fun _ _ _ => True) no_connections w _ _ H0 Hr')); [done|].
  intros c s HI. unfold serve'. case_decide; [by apply serve_keeps|done].
Qed.
End keeps.

Lemma empty_registry_ok : registry_ok config empty_registry.
Proof using Type. split; cbn; [unfold users_of; cbn; rewrite fmap_empty; apply indexes_empty|by intros d e; rewrite lookup_empty|unfold connected_device_count; cbn; rewrite map_size_empty; lia]. Qed.

Record owned_registry (owner : DeviceId -> UserId) (r : Registry) : Prop := mkOwned {
  owned_ok : registry_ok config r;
  owned_users : forall d u, users_of r !! d = Some u -> u = owner d;
  owned_within : within_user config r }.

Lemma register_owned owner ch now r :
  ch_user_id ch = owner (ch_device_id ch) -> owned_registry owner r -> owned_registry owner (snd (register_channel config ch now r)).
Proof using Type.
  intros Hch [Hok Hu Hw]. split; [by apply register_ok| |apply register_within; [done| |done]; intros u ->%Hu; done].
  destruct (fst (register_channel config ch now r)) as [b|e] eqn:Hf.
  - apply users_of_register in Hf as [-> _]. intros d u. rewrite lookup_insert_Some. intros [[<- <-]|[_ ?]]; [done|by apply Hu].
  - rewrite (register_refused config _ _ _ e) by done. done.
Qed.

Lemma erase_owned owner id e r : owned_registry owner r -> channels_ r !! id = Some e -> owned_registry owner (erase_channel id e r).
Proof using Type.
  intros [Hok Hu Hw] He. split; [by apply erase_ok| |by apply erase_within]. rewrite users_of_erase. intros d u [_ ?]%lookup_delete_Some. by apply Hu.
Qed.

Lemma touch_owned owner active now id r : owned_registry owner r -> owned_registry owner (snd (touch_channel active now id r)).
Proof using Type. intros [Hok Hu Hw]. split; [by apply touch_ok|by rewrite users_of_touch|by apply touch_within]. Qed.

(** C14.  The connection registry of a messaging node, under any interleaving of
    connections, terminations, heartbeats and sweeps: the index by user always lists, once
    each, exactly the devices with a registered channel of that user; every channel is
    filed under its own device; and there are never more channels than the configured
    global maximum.  If every device always connects for the same user, no user ever has
    more registered devices than the configured maximum per user. *)
Theorem registry_bounded w :
  rtc (pool_step (serve_connection config lease_timeout)) (mkPool [] no_connections) w ->
  let r := registry_ (shared w) in
  (forall u d, d ∈ default [] (user_to_devices_ r !! u) <-> exists e, channels_ r !! d = Some e /\ ch_user_id (en_channel e) = u) /\
  (forall u, NoDup (default [] (user_to_devices_ r !! u))) /\
  (forall d e, channels_ r !! d = Some e -> ch_device_id (en_channel e) = d) /\
  (0 < max_global_connections config -> connected_device_count r <= max_global_connections config) /\
  (forall owner, Forall (keeps_owner owner) (threads w).*1 -> 0 < max_devices_per_user config ->
     forall u, user_device_count u r <= max_devices_per_user config).
Proof using Type.
  intros Hr r.
  assert (registry_ok config r) as [[Ha Ho _] Hk Hg].
  { apply (run_keeps (registry_ok config) (fun _ => True)) with (w := w); eauto using register_ok, erase_ok, touch_ok, empty_registry_ok; [apply _|].
    by apply Forall_forall. }
  split_and!; [|done|done|done|].
  - intros u d. rewrite Ha. unfold users_of. rewrite lookup_fmap, fmap_Some. naive_solver.
  - intros owner Hall Hm. refine (owned_within owner _ (run_keeps (owned_registry owner) (keeps_owner owner) _ _ _ w _ _ Hr Hall) Hm).
    + intros ch id ip ua v t r' Hch. by apply register_owned.
    + apply erase_owned.
    + apply touch_owned.
    + split; [apply empty_registry_ok|unfold users_of; cbn; intros d u; by rewrite fmap_empty, lookup_empty|].
      intros _ u. unfold user_device_count. cbn. rewrite lookup_empty. cbn. lia.
Qed.
End interleaving.

(** ** Calls one after the other *)

(** Presence ignores empty identifiers. *)
Definition tracked (d : DeviceId) (u : UserId) : bool := negb (UserId_empty u || DeviceId_empty d).

(** Sessions and presence say which device is connected for which user. *)
Record tracks (users : gmap DeviceId UserId) (s : ConnectionsState) : Prop := mkTracks {
  tr_sessions : cs_user_id <$> sessions_ s = users;
  tr_devices : forall d, de_user_id <$> device_states_ (presence_ s) !! d = (users !! d ≫= fun u => if tracked d u then Some u else None);
  tr_users : forall u d, d ∈ default ∅ (user_devices_ (presence_ s) !! u) <-> de_user_id <$> device_states_ (presence_ s) !! d = Some u }.

Lemma tracks_proj users s u d : tracks users s -> users !! d = Some u <-> exists c, sessions_ s !! d = Some c /\ cs_user_id c = u.
Proof. intros [<- _ _]. rewrite lookup_fmap, fmap_Some. naive_solver. Qed.

Lemma remove_device_lookup (m : gmap UserId (gset DeviceId)) u d v ds : m !! u = Some ds ->
  default ∅ ((if bool_decide (ds ∖ {[d]} = ∅) then delete u m else <[u := ds ∖ {[d]}]> m) !! v) = if decide (v = u) then ds ∖ {[d]} else default ∅ (m !! v).
Proof.
  intros Hu. case_bool_decide as He; case_decide; subst.
  - by rewrite lookup_delete_eq, He.
  - by rewrite lookup_delete_ne by done.
  - by rewrite lookup_insert_eq.
  - by rewrite lookup_insert_ne by done.
Qed.

(** Presence forgets a device. *)
Lemma disconnected_tracks users d u system r s ss :
  tracks users s -> users !! d = Some u -> cs_user_id <$> ss = delete d users ->
  tracks (delete d users) (mkConnections r ss (on_device_disconnected u d system (presence_ s))).
Proof.
  intros [_ Hd Hu] Hlook Hss. pose proof (Hd d) as Hdd. rewrite Hlook in Hdd. cbn in Hdd. unfold on_device_disconnected, tracked in *.
  destruct (UserId_empty u || DeviceId_empty d); cbn [negb] in Hdd.
  - split; cbn [sessions_ presence_]; [done| |done]. intros x. rewrite Hd. destruct (decide (x = d)) as [->|].
    + rewrite lookup_delete_eq, <-Hd. by rewrite Hdd.
    + by rewrite lookup_delete_ne by done.
  - split; cbn [sessions_ presence_ device_states_ user_devices_]; [done|..].
    + intros x. destruct (decide (x = d)) as [->|]; [by rewrite !lookup_delete_eq|]. rewrite !lookup_delete_ne by done. apply Hd.
    + intros v x. assert (Hin : d ∈ default ∅ (user_devices_ (presence_ s) !! u)) by (by apply Hu).
      destruct (user_devices_ (presence_ s) !! u) as [ds|] eqn:Hds; [|by apply elem_of_empty in Hin]. cbn in Hin.
      cbv zeta. rewrite (remove_device_lookup _ u d v ds Hds). specialize (Hu v x). case_decide as Hv.
      * subst v. rewrite Hds in Hu. cbn in Hu. rewrite elem_of_difference, elem_of_singleton, Hu.
        destruct (decide (x = d)) as [->|]; [rewrite lookup_delete_eq; naive_solver|rewrite lookup_delete_ne by done; naive_solver].
      * rewrite Hu. destruct (decide (x = d)) as [->|]; [rewrite lookup_delete_eq, Hdd; naive_solver|by rewrite lookup_delete_ne by done].
Qed.

(** Presence hears of a device it does not know. *)
Lemma connected_tracks users d u steady system r s ss p :
  tracks users s -> users !! d = None -> cs_user_id <$> ss = <[d := u]> users ->
  p = on_device_connected u d steady system (presence_ s) -> tracks (<[d := u]> users) (mkConnections r ss p).
Proof.
  intros [_ Hd Hu] Hlook Hss ->. pose proof (Hd d) as Hdd. rewrite Hlook in Hdd. cbn in Hdd.
  assert (Hif : forall x, (<[d := u]> users !! x ≫= fun v => if tracked x v then Some v else None) =
                          if decide (x = d) then if tracked d u then Some u else None else de_user_id <$> device_states_ (presence_ s) !! x).
  { intros x. case_decide; [subst; by rewrite lookup_insert_eq|rewrite lookup_insert_ne by done; symmetry; apply Hd]. }
  assert (Ht : tracked d u = negb (UserId_empty u || DeviceId_empty d)) by done. rewrite Ht in Hif. clear Ht.
  unfold on_device_connected. destruct (UserId_empty u || DeviceId_empty d); cbn [negb] in Hif.
  - split; cbn [sessions_ presence_]; [done| |done]. intros x. rewrite Hif. case_decide; by subst.
  - split; cbn [sessions_ presence_ device_states_ user_devices_]; [done|..].
    + intros x. rewrite Hif. case_decide; [subst; by rewrite lookup_insert_eq|by rewrite lookup_insert_ne by done].
    + intros v x. specialize (Hu v x). destruct (decide (v = u)) as [->|Hv].
      * rewrite lookup_insert_eq. change (x ∈ {[d]} ∪ default ∅ (user_devices_ (presence_ s) !! u) <-> de_user_id <$> <[d := mkDeviceEntry u steady system]> (device_states_ (presence_ s)) !! x = Some u).
        rewrite elem_of_union, elem_of_singleton, Hu. destruct (decide (x = d)) as [->|]; [rewrite lookup_insert_eq; cbn; naive_solver|rewrite lookup_insert_ne by done; naive_solver].
      * rewrite lookup_insert_ne by done. rewrite Hu. destruct (decide (x = d)) as [->|]; [|by rewrite lookup_insert_ne by done].
        rewrite lookup_insert_eq, Hdd. cbn. naive_solver.
Qed.

Lemma disconnect_alone d t users s :
  tracks users s -> alone_post (on_registry_disconnect d t) (fun _ s' => tracks (delete d users) s' /\ registry_ s' = registry_ s) s.
Proof.
  intros Ht. unfold on_registry_disconnect. apply alone_post_bind. cbn [locked alone_post fst snd]. pose proof (tracks_proj users s) as Hp.
  destruct (sessions_ s !! d) as [c|] eqn:Hc; cbn [fmap option_fmap option_map].
  - split; [|done]. unfold set_presence, set_sessions. cbn [registry_ sessions_ presence_]. apply disconnected_tracks; [done| |].
    + apply Hp; [done|]. by exists c.
    + by rewrite fmap_delete, (tr_sessions _ _ Ht).
  - split; [|done]. assert (users !! d = None) by (rewrite <-(tr_sessions _ _ Ht), lookup_fmap, Hc; done).
    rewrite delete_id by done. unfold set_sessions. rewrite delete_id by done. destruct Ht. by split.
Qed.

Lemma notify_alone ids t users s :
  tracks users s -> alone_post (notify_all ids t) (fun _ s' => tracks (foldr delete users (rev ids)) s' /\ registry_ s' = registry_ s) s.
Proof.
  revert users s. induction ids as [|d ids IH]; intros users s Ht; cbn [notify_all rev]; [done|]. apply alone_post_bind.
  eapply alone_post_mono; [|by apply disconnect_alone]. intros _ s' [Ht' Hr]. rewrite foldr_app. cbn [foldr]. rewrite <-Hr. by apply IH.
Qed.

Lemma heartbeat_tracks users d u steady system r s ss :
  tracks users s -> users !! d = Some u -> cs_user_id <$> ss = users ->
  tracks users (mkConnections r ss (on_device_heartbeat u d steady system (presence_ s))).
Proof.
  intros [_ Hd Hu] Hlook Hss. pose proof (Hd d) as Hdd. rewrite Hlook in Hdd. cbn in Hdd. unfold on_device_heartbeat, tracked in *.
  destruct (UserId_empty u || DeviceId_empty d); cbn [negb] in Hdd; [by split|].
  destruct (device_states_ (presence_ s) !! d) as [x|] eqn:Hx; cbn in Hdd; [|done]. injection Hdd as Hxu.
  assert (Hsame : forall y, de_user_id <$> <[d := mkDeviceEntry (de_user_id x) steady system]> (device_states_ (presence_ s)) !! y = de_user_id <$> device_states_ (presence_ s) !! y).
  { intros y. destruct (decide (y = d)) as [->|]; [by rewrite lookup_insert_eq, Hx|by rewrite lookup_insert_ne by done]. }
  split; cbn [sessions_ presence_ device_states_ user_devices_]; [done|..]; intros; rewrite Hsame; [apply Hd|apply Hu].
Qed.

Section serial.
Context (config : ConnectionCapacityConfig) (lease_timeout : Z).

Definition agree (s : ConnectionsState) : Prop := registry_ok config (registry_ s) /\ tracks (users_of (registry_ s)) s.

Lemma agree_start : agree no_connections.
Proof using Type.
  split; [apply empty_registry_ok|]. unfold users_of, no_connections. cbn. rewrite fmap_empty. split; cbn; [by rewrite fmap_empty|..].
  - intros d. by rewrite !lookup_empty.
  - intros u d. rewrite !lookup_empty. cbn. split; [by intros ?%elem_of_empty|done].
Qed.

Lemma establish_agrees ch id ip ua v t s : agree s -> alone_post (establish_connection config ch id ip ua v t) (fun _ s' => agree s') s.
Proof using Type.
  intros [Hok Ht]. unfold establish_connection. apply alone_post_bind. unfold on_registry. cbn [locked alone_post].
  pose proof (register_ok config ch (rd_registry t) _ Hok) as Hok'. pose proof (users_of_register config ch (rd_registry t) (registry_ s)) as Hreg.
  pose proof (register_refused config ch (rd_registry t) (registry_ s)) as Href.
  destruct (register_channel config ch (rd_registry t) (registry_ s)) as [[sup|e] r]; cbn [fst snd] in *.
  - destruct (Hreg sup eq_refl) as [Hus Hsup]. apply alone_post_bind. set (d := ch_device_id ch) in *.
    eapply (alone_post_mono _ (fun _ s' => tracks (delete d (users_of (registry_ s))) s' /\ registry_ s' = r)).
    + intros _ s' [Ht' Hr]. unfold on_presence, set_sessions, set_presence. cbn [locked pbind alone_post fst snd registry_ sessions_ presence_].
      split; cbn [registry_]; [by rewrite Hr|]. rewrite Hr, Hus, <-insert_delete_eq. eapply connected_tracks; [exact Ht'|by rewrite lookup_delete_eq| |done].
      by rewrite fmap_insert, (tr_sessions _ _ Ht').
    + assert (Ht0 : tracks (users_of (registry_ s)) (set_registry r s)) by (destruct Ht; by split).
      destruct sup; [apply (disconnect_alone d (rd_disconnect t) _ _ Ht0)|]. split; [|done]. rewrite delete_id; [done|].
      unfold users_of. rewrite lookup_fmap. destruct (channels_ (registry_ s) !! d); [|done]. by rewrite bool_decide_eq_true_2 in Hsup.
  - rewrite (Href e Hok eq_refl). split; [done|]. destruct Ht. by split.
Qed.

Lemma serve_agrees c s : agree s -> alone_post (serve_connection config lease_timeout c) (fun _ s' => agree s') s.
Proof using Type.
  intros [Hok Ht]. destruct c as [ch id ip ua v t|d t|active d t|active t|u st m t|u]; cbn [serve_connection].
  - apply alone_post_bind. eapply alone_post_mono; [|by apply establish_agrees]. done.
  - unfold terminate_connection. apply alone_post_bind. unfold on_registry. cbn [locked alone_post]. pose proof (unregister_ok config d _ Hok) as Hok'.
    unfold unregister_channel in *. destruct (channels_ (registry_ s) !! d) as [e|] eqn:He; cbn [fst snd] in *; [|destruct Ht; by split].
    eapply alone_post_mono; [|apply (disconnect_alone d _ (users_of (registry_ s))); destruct Ht; by split]. intros _ s' [Ht' Hr]. cbn [set_registry registry_] in Hr.
    split; rewrite Hr; [done|]. by rewrite users_of_erase.
  - apply alone_post_bind. unfold record_heartbeat. apply alone_post_bind. cbn [locked alone_post].
    destruct (sessions_ s !! d) as [c|] eqn:Hc; cbn [fst snd alone_post]; [|done]. apply alone_post_bind. unfold on_registry. cbn [locked alone_post set_sessions registry_].
    pose proof (touch_ok config active (rd_registry t) d _ Hok) as Hok'. pose proof (users_of_touch active (rd_registry t) d (registry_ s)) as Hus.
    destruct (touch_channel _ _ _ _) as [b r]. cbn [fst snd] in *. unfold on_presence, set_registry, set_presence. cbn [locked pbind alone_post fst snd registry_ sessions_ presence_].
    split; cbn [registry_]; [done|]. rewrite Hus. apply (heartbeat_tracks _ _ _ _ _ _ s); [done| |].
    + apply (tracks_proj _ _ _ _ Ht). by exists c.
    + unfold set_sessions. cbn [sessions_]. rewrite fmap_insert. cbn [beat cs_user_id]. rewrite (tr_sessions _ _ Ht). apply insert_id. apply (tracks_proj _ _ _ _ Ht). by exists c.
  - apply alone_post_bind. unfold sweep_stale_connections. apply alone_post_bind. unfold on_registry. cbn [locked alone_post].
    pose proof (evict_stale_spec config active (rd_registry t) lease_timeout (registry_ok config) (registry_ s) (erase_ok config) Hok) as Hev.
    destruct (evict_stale_channels _ _ _ _ _) as [ids r]. destruct Hev as (Hok' & Hus & _). cbn [fst snd]. apply alone_post_bind.
    eapply alone_post_mono; [|apply (notify_alone ids _ (users_of (registry_ s))); destruct Ht; by split]. intros _ s' [Ht' Hr]. cbn [set_registry registry_ alone_post] in *.
    split; rewrite Hr; [done|]. by rewrite Hus.
  - cbn. unfold set_user_override. destruct (UserId_empty u); [by destruct s|]. destruct Ht. by split.
  - cbn. unfold clear_user_override. destruct (UserId_empty u); [by destruct s|]. destruct Ht. by split.
Qed.

(** The devices presence counts. *)
Lemma active_devices_spec now u p e :
  e ∈ active_devices lease_timeout now u p <->
  exists d, d ∈ default ∅ (user_devices_ p !! u) /\ device_states_ p !! d = Some e /\ device_live lease_timeout now e = true.
Proof using Type.
  unfold active_devices. rewrite list_elem_of_In, filter_In, <-list_elem_of_In, list_elem_of_omap. setoid_rewrite elem_of_elements. naive_solver.
Qed.

Lemma omap_length_le {A B} (f : A -> option B) l : (length (omap f l) <= length l)%nat.
Proof using Type. induction l as [|x l IH]; cbn; [done|]. destruct (f x); cbn; lia. Qed.

Lemma active_count_bound now u s : agree s -> (length (active_devices lease_timeout now u (presence_ s)) <= length (default [] (user_to_devices_ (registry_ s) !! u)))%nat.
Proof using Type.
  intros [Hok Ht]. unfold active_devices. set (ds := default ∅ (user_devices_ (presence_ s) !! u)).
  etransitivity; [apply filter_length_le|]. etransitivity; [apply omap_length_le|]. apply submseteq_length, NoDup_submseteq; [apply NoDup_elements|].
  intros d Hd%elem_of_elements. apply (index_agrees _ _ (ok_index _ _ Hok)). apply (tr_users _ _ Ht) in Hd.
  rewrite (tr_devices _ _ Ht) in Hd. destruct (users_of (registry_ s) !! d) as [v|] eqn:Hv; cbn in Hd; [|done]. by destruct (tracked d v); simplify_eq.
Qed.

Lemma presence_sees now u s : agree s -> UserId_empty u = false ->
  active_devices lease_timeout now u (presence_ s) <> [] <->
  exists d e x, DeviceId_empty d = false /\ channels_ (registry_ s) !! d = Some e /\ ch_user_id (en_channel e) = u /\
    device_states_ (presence_ s) !! d = Some x /\ device_live lease_timeout now x = true.
Proof using Type.
  intros [Hok Ht] Hu. assert (Hdev : forall d x, device_states_ (presence_ s) !! d = Some x ->
    (d ∈ default ∅ (user_devices_ (presence_ s) !! u) <-> DeviceId_empty d = false /\ users_of (registry_ s) !! d = Some u)).
  { intros d x Hx. rewrite (tr_users _ _ Ht), (tr_devices _ _ Ht). unfold tracked. destruct (users_of (registry_ s) !! d) as [v|] eqn:Hv; cbn; [|naive_solver].
    pose proof (tr_devices _ _ Ht d) as Hd. rewrite Hx, Hv in Hd. cbn in Hd. unfold tracked in Hd. destruct (UserId_empty v || DeviceId_empty d) eqn:He; [done|].
    apply orb_false_iff in He as [_ ->]. cbn. naive_solver. }
  split.
  - intros Hne. destruct (active_devices lease_timeout now u (presence_ s)) as [|x l] eqn:Ha; [done|]. assert (Hx : x ∈ active_devices lease_timeout now u (presence_ s)) by (rewrite Ha; by left).
    apply active_devices_spec in Hx as (d & Hd & Hx & Hl). apply (Hdev d x Hx) in Hd as [Hd Hus]. unfold users_of in Hus. rewrite lookup_fmap, fmap_Some in Hus.
    destruct Hus as (e & He & ->). by exists d, e, x.
  - intros (d & e & x & Hd & He & Heu & Hx & Hl). assert (Hin : x ∈ active_devices lease_timeout now u (presence_ s)).
    { apply active_devices_spec. exists d. split_and!; [|done|done]. apply (Hdev d x Hx). split; [done|]. unfold users_of. by rewrite lookup_fmap, He, <-Heu. }
    intros Hnil. rewrite Hnil in Hin. by apply elem_of_nil in Hin.
Qed.

(** C16.  When the calls of the lifecycle manager come one after the other, what it tells
    about connections is true: a device has a session exactly when it has a registered
    channel, for the same user; a user's presence counts at least one device exactly when
    one of its registered devices has sent a sign of life within the lease time, and never
    more devices than are registered for it; with no such device the user is shown offline
    or unknown, and with one, and without a status of its own choice, online. *)
Theorem connections_agree s :
  one_by_one (serve_connection config lease_timeout) no_connections s ->
  (forall d u, (exists e, channels_ (registry_ s) !! d = Some e /\ ch_user_id (en_channel e) = u) <->
               exists c, sessions_ s !! d = Some c /\ cs_user_id c = u) /\
  (forall u now, UserId_empty u = false ->
     let seen := get_user_presence lease_timeout now u (presence_ s) in
     (0 < up_active_device_count seen <->
      exists d e x, DeviceId_empty d = false /\ channels_ (registry_ s) !! d = Some e /\ ch_user_id (en_channel e) = u /\
        device_states_ (presence_ s) !! d = Some x /\ device_live lease_timeout now x = true) /\
     up_active_device_count seen <= user_device_count u (registry_ s) /\
     (up_active_device_count seen = 0 -> up_status seen = Offline \/ up_status seen = PresenceUnspecified) /\
     (0 < up_active_device_count seen -> user_overrides_ (presence_ s) !! u = None -> up_status seen = Online)).
Proof using Type.
  intros Hrun. assert (Ha : agree s) by exact (one_by_one_keeps _ _ serve_agrees _ _ Hrun agree_start). split.
  - intros d u. destruct Ha as [_ Ht]. rewrite <-(tracks_proj _ _ _ _ Ht). unfold users_of. rewrite lookup_fmap, fmap_Some. naive_solver.
  - intros u now Hu. cbn zeta. pose proof (presence_sees now u s Ha Hu) as Hsees. pose proof (active_count_bound now u s Ha) as Hb.
    unfold get_user_presence, evaluate_user_presence. cbn zeta. unfold user_device_count. destruct (active_devices lease_timeout now u (presence_ s)) as [|x l] eqn:Hact.
    + cbn [length] in *. rewrite Z.ltb_irrefl. destruct (user_last_seen_ (presence_ s) !! u); cbn [up_active_device_count up_status];
        (split_and!; [|lia|auto|lia]); (split; [lia|]); intros H%Hsees; done.
    + assert (Hpos : 0 < Z.of_nat (length (x :: l))) by (cbn [length]; lia). rewrite (proj2 (Z.ltb_lt _ _) Hpos).
      assert (Hsome : x :: l <> []) by done. apply Hsees in Hsome.
      destruct (user_overrides_ (presence_ s) !! u); [case_bool_decide|]; cbn [up_active_device_count up_status]; split_and!; try done; lia.
Qed.
End serial.

(** ** Runs *)

Definition one_device : ConnectionCapacityConfig := mkCapacity 1 100 1000.
Definition at_time (n : Z) : Readings := mkReadings n n n n n.
Definition connects (object : nat) (device user : string) (n : Z) : ConnectionCall :=
  Establish (mkChannel object (mkDeviceId device) (mkUserId user)) "c" "10.0.0.1" "app" 1 (at_time n).

(** Calls one after the other, and the pool that ran them. *)
Fixpoint connected_by (calls : list ConnectionCall) (s : ConnectionsState) : ConnectionsState :=
  match calls with [] => s | c :: calls => connected_by calls (snd (solo (serve_connection one_device 1000 c) s)) end.

Lemma connected_by_runs calls s : one_by_one (serve_connection one_device 1000) s (connected_by calls s).
Proof. revert s. induction calls as [|c calls IH]; intros s; cbn [connected_by]; [constructor|]. eapply calls_next; [apply solo_alone|apply IH]. Qed.

Lemma registry_bounded_witness :
  exists w : @Pool ConnectionsState ConnectionCall unit, user_device_count (mkUserId "alice") (registry_ (shared w)) <= 1 /\ connected_device_count (registry_ (shared w)) = 1.
Proof.
  pose (phone := connects 1 "phone" "alice" 0).
  pose proof (scripted_pool (serve_connection one_device 1000) phone [] [] no_connections) as Hrun.
  exists (mkPool ([] ++ [(phone, Ret (fst (scripted (serve_connection one_device 1000 phone) [] no_connections)))])
            (snd (scripted (serve_connection one_device 1000 phone) [] no_connections))).
  split; [|vm_compute; reflexivity]. destruct (registry_bounded one_device 1000 _ Hrun) as (_ & _ & _ & _ & H).
  apply (H (fun _ => mkUserId "alice")); [|reflexivity]. repeat constructor.
Defined.

Lemma connections_agree_witness :
  let s := connected_by [connects 1 "phone" "alice" 0; connects 2 "phone" "alice" 50] no_connections in
  up_active_device_count (get_user_presence 1000 900 (mkUserId "alice") (presence_ s)) <= user_device_count (mkUserId "alice") (registry_ s) /\
  up_status (get_user_presence 1000 900 (mkUserId "alice") (presence_ s)) = Online.
Proof.
  intros s. destruct (connections_agree one_device 1000 s (connected_by_runs _ _)) as [_ H].
  destruct (H (mkUserId "alice") 900 eq_refl) as (_ & Hle & _ & Hon). split; [exact Hle|]. apply Hon; vm_compute; reflexivity.
Defined.

(** A device that comes back for another user is not counted against that user's limit:
    with a limit of one device, two devices of the same user are registered. *)
Lemma user_change_exceeds_limit :
  let s := connected_by [connects 1 "phone" "alice" 0; connects 2 "tablet" "bob" 10; connects 3 "tablet" "alice" 20] no_connections in
  max_devices_per_user one_device = 1 /\ user_device_count (mkUserId "alice") (registry_ s) = 2.
Proof. vm_compute. by split. Qed.

(** The sweep tells the manager of an eviction after it has released the registry.  A
    device that reconnects in between keeps its channel and loses its session and its
    presence: its heartbeats are refused and its user is shown offline. *)
Lemma sweep_ends_new_session :
  exists w, rtc (pool_step (serve_connection one_device 1000)) (mkPool [] no_connections) w /\
    Forall (fun c => exists r, c.2 = Ret r) (threads w) /\
    get_channel one_device (fun _ => true) 5010 (mkDeviceId "phone") (registry_ (shared w)) = Some (mkChannel 2 (mkDeviceId "phone") (mkUserId "alice")) /\
    sessions_ (shared w) !! mkDeviceId "phone" = None /\
    up_status (get_user_presence 1000 5010 (mkUserId "alice") (presence_ (shared w))) = Offline /\
    fst (solo (record_heartbeat (fun _ => true) (mkDeviceId "phone") (at_time 5010)) (shared w)) = false.
Proof.
  pose (serve := serve_connection one_device 1000). pose (first := connects 1 "phone" "alice" 0). pose (again := connects 2 "phone" "alice" 5000).
  pose (sweep := Sweep (fun _ => true) (at_time 5000)). pose (s1 := snd (scripted (serve first) [] no_connections)).
  pose (p1 := fst (advance 1 (serve sweep) s1)). pose (s2 := snd (advance 1 (serve sweep) s1)).
  pose (s3 := snd (advance 10 (serve again) s2)). pose (q3 := fst (advance 10 (serve again) s2)).
  pose (s4 := snd (advance 10 p1 s3)). pose (p4 := fst (advance 10 p1 s3)).
  exists (mkPool [(first, Ret tt); (sweep, p4); (again, q3)] s4). split_and!.
  - etransitivity; [exact (scripted_pool serve first [] [] no_connections)|].
    eapply rtc_l; [apply (pool_arrive _ sweep)|]. etransitivity; [exact (advance_pool serve 1 1 sweep (serve sweep) [(first, Ret tt); (sweep, serve sweep)] s1 eq_refl)|].
    eapply rtc_l; [apply (pool_arrive _ again)|].
    etransitivity; [exact (advance_pool serve 10 2 again (serve again) [(first, Ret tt); (sweep, p1); (again, serve again)] s2 eq_refl)|].
    exact (advance_pool serve 10 1 sweep p1 [(first, Ret tt); (sweep, p1); (again, q3)] s3 eq_refl).
  - repeat constructor; exists tt; vm_compute; reflexivity.
  - vm_compute. reflexivity.
  - vm_compute. reflexivity.
  - vm_compute. reflexivity.
  - vm_compute. reflexivity.
Qed.
