(* ===== verification/DeliveryPlane.v ===== *)
(** * The delivery plane

    How a stored message reaches a device:

    - [src/messaging/delivery/outbox_delivery_consumer.cpp]: pending outbox events become
      tasks for the devices that are connected;
    - [src/messaging/delivery/realtime_delivery_accelerator.cpp]: a device that connects
      gets what is pending for it;
    - [src/messaging/delivery/durable_delivery_recovery_service.cpp]: a periodic sweep over
      the pending records;
    - [src/messaging/delivery/delivery_worker.cpp]: a task is sent over the channel of its
      device and its record is updated.

    The parts share the repository of delivery states, the outbox, the scheduler and the
    registry of channels, each behind its own lock; a call is a program of steps on them
    and other calls run in between.  The clocks and the set of closed channels are part of
    the state and change between the steps too.  What was handed to a channel and what was
    saved as pending are kept as lists.  The parser of the event payload is a parameter,
    as are the answer of the transport, the jittered delay of a retry and the random
    identifier of an event.  An exception leaves a call as a value of type [exn]. *)

From S2P Require Import Prelude Ids Bucket Scylla DeliveryTypes DeliveryRepo Conversation ConversationService Outbox Prog Scheduler Connections.
#[local] Open Scope Z_scope.

(** What the consumer finds in a payload. *)
Inductive PayloadField := NoMessageId | NotText | Text (s : string).

Record DeliveryRecoveryConfig := mkRecoveryConfig { batch_size : Z; max_retry_attempts : Z; max_delivery_ttl : Z }.
Record RealtimeDeliveryAcceleratorConfig := mkAcceleratorConfig { max_fast_track_batch : Z; accelerator_ttl : Z }.

Definition from_hours (h : Z) : Z := h * 3600 * ns_per_s.
Definition default_recovery_config : DeliveryRecoveryConfig := mkRecoveryConfig 100 5 (from_hours 24).

(** ** Tasks *)

Definition no_user : UserId := mkUserId EmptyString.

(** The envelope of a record; the two recipient fields keep their default except in the
    consumer. *)
Definition envelope_of (user : UserId) (device : DeviceId) (rec : DeviceDeliveryRecord) : PerDeviceEnvelope :=
  mkPerDevice user device (dr_protocol_version rec) (dr_algorithm rec) (dr_ciphertext_blob rec) (dr_ephemeral_public_key rec) (dr_iv rec)
    (dr_auth_tag rec) (dr_one_time_prekey_id rec).

Definition task_of (user : UserId) (scheduled_at : Z) (envelope : PerDeviceEnvelope) (rec : DeviceDeliveryRecord) : DeliveryTask :=
  mkTask (dr_message_id rec) (dr_conversation_id rec) (dr_device_id rec) user (dr_message_priority rec) (dr_attempt_count rec) (dr_accepted_at rec)
    scheduled_at None envelope.

(** The first of the states that is about the device. *)
Definition recipient_of (device : DeviceId) (states : list RecipientDeliveryState) : UserId :=
  from_option rs_recipient_user_id no_user (List.find (fun s => bool_decide (rs_recipient_device_id s = device)) states).

Definition with_attempt (n : Z) (t : DeliveryTask) : DeliveryTask :=
  mkTask (tk_message_id t) (tk_conversation_id t) (tk_recipient_device_id t) (tk_recipient_user_id t) (tk_priority t) n (tk_accepted_at t)
    (tk_scheduled_at t) (tk_expires_at t) (tk_envelope t).

Definition with_schedule (at_ : Z) (t : DeliveryTask) : DeliveryTask :=
  mkTask (tk_message_id t) (tk_conversation_id t) (tk_recipient_device_id t) (tk_recipient_user_id t) (tk_priority t) (tk_attempt_count t)
    (tk_accepted_at t) at_ (tk_expires_at t) (tk_envelope t).

(** The event of a delivery. *)
Definition delivered_event (event_id : MessageId) (t : DeliveryTask) (delivered_at : Z) : OutboxEvent :=
  mkOutboxEvent (MessageId_to_string event_id) (tk_conversation_id t) MessageDelivered
    (String.append "{" (String.append (json_field "message_id" (MessageId_to_string (tk_message_id t)))
      (String.append "," (String.append (json_field "recipient_device_id" (device_str (tk_recipient_device_id t)))
        (String.append "," (String.append (json_field "recipient_user_id" (user_str (tk_recipient_user_id t)))
          (String.append "," (String.append (quote "delivered_at_unix_ms") (String.append ":" (String.append (decimal (to_ms delivered_at)) "}"))))))))))
    delivered_at.

Section plane.
Context {TP TS T : Type}.
Context `{!CqlTable TP PendingPartition PendingCluster, !CqlTable TS string string, !CqlTable T string OutboxCluster}.
#[local] Abbreviation repo_t := (DeliveryStateRepository TP TS).

(** ** The shared state *)

Record Plane := mkPlane {
  pl_repo : repo_t;
  pl_outbox : T;
  pl_scheduler : Scheduler;
  pl_registry : Registry;
  pl_closed : gset nat;
  pl_steady : Z;
  pl_system : Z;
  pl_sent : list (Channel * DeliveryTask);
  pl_saved : list DeviceDeliveryRecord }.

Definition set_repo (r : repo_t) (s : Plane) : Plane :=
  mkPlane r (pl_outbox s) (pl_scheduler s) (pl_registry s) (pl_closed s) (pl_steady s) (pl_system s) (pl_sent s) (pl_saved s).
Definition set_outbox (o : T) (s : Plane) : Plane :=
  mkPlane (pl_repo s) o (pl_scheduler s) (pl_registry s) (pl_closed s) (pl_steady s) (pl_system s) (pl_sent s) (pl_saved s).
Definition set_scheduler (q : Scheduler) (s : Plane) : Plane :=
  mkPlane (pl_repo s) (pl_outbox s) q (pl_registry s) (pl_closed s) (pl_steady s) (pl_system s) (pl_sent s) (pl_saved s).
Definition set_channels (r : Registry) (s : Plane) : Plane :=
  mkPlane (pl_repo s) (pl_outbox s) (pl_scheduler s) r (pl_closed s) (pl_steady s) (pl_system s) (pl_sent s) (pl_saved s).

(** [channel->is_active()]. *)
Definition is_active (s : Plane) (ch : Channel) : bool := negb (bool_decide (ch_object ch ∈ pl_closed s)).

Context (scheduler_config : DeliverySchedulerConfig) (capacity : ConnectionCapacityConfig) (retry_limit : Z).
Context (recovery : DeliveryRecoveryConfig) (accelerator : RealtimeDeliveryAcceleratorConfig) (payload_field : string -> PayloadField).

#[local] Abbreviation call A := (prog Plane (result exn A)).

Definition reading {A} (f : Plane -> A) : prog Plane A := locked (fun s => (f s, s)).
Definition system_now : prog Plane Z := reading pl_system.
Definition online (d : DeviceId) : prog Plane bool := reading (fun s => is_online capacity (is_active s) (pl_steady s) d (pl_registry s)).

Definition update_status (d : DeviceId) (bucket : string) (accepted_at : Z) (mid : MessageId) (state : DeliveryState) (attempts : Z) (next_retry : option Z)
    : prog Plane unit :=
  locked (fun s => (tt, set_repo (update_device_delivery_status d bucket accepted_at mid state attempts next_retry (pl_repo s)) s)).

Definition schedule_task (t : DeliveryTask) : prog Plane SchedulerStatus :=
  locked (fun s => let '(st, q) := schedule scheduler_config (pl_system s) t (pl_scheduler s) in (st, set_scheduler q s)).

Definition publish (ev : OutboxEventRecord) : prog Plane unit :=
  locked (fun s => (tt, set_outbox (mark_event_published (or_outbox_bucket ev) (or_created_at ev) (or_event_id ev) (pl_system s) (pl_outbox s)) s)).

(** ** [delivery_worker.cpp] *)

(** The status of the record of a task. *)
Definition mark_task (t : DeliveryTask) (bucket : string) (state : DeliveryState) (next_retry : option Z) : prog Plane unit :=
  update_status (tk_recipient_device_id t) bucket (tk_accepted_at t) (tk_message_id t) state (tk_attempt_count t) next_retry.

(** A worker polls with a positive time out: a poll that finds nothing gives up. *)
Definition next_task (poll_timeout : Z) : prog Plane (option DeliveryTask) :=
  locked (fun s => match dequeue scheduler_config poll_timeout (pl_scheduler s) with
                   | Some (t, q) => (t, set_scheduler q s)
                   | None => (None, s)
                   end).

(** The channel takes the envelope, whatever it answers. *)
Definition send_envelope (ch : Channel) (t : DeliveryTask) : prog Plane unit :=
  locked (fun s => (tt, mkPlane (pl_repo s) (pl_outbox s) (pl_scheduler s) (pl_registry s) (pl_closed s) (pl_steady s) (pl_system s)
                          (pl_sent s ++ [(ch, t)]) (pl_saved s))).

(** The [switch] on the answer of the channel. *)
Definition settle (t : DeliveryTask) (bucket : string) (attempt : DeliveryAttemptResult) (delay : Z) (event_id : MessageId) : prog Plane unit :=
  match attempt with
  | Success =>
      let* delivered_at := system_now in
      let* _ := locked (fun s => (tt, set_repo (record_delivery_ack (tk_message_id t) (tk_recipient_device_id t) delivered_at (pl_repo s)) s)) in
      let* _ := mark_task t bucket Delivered None in
      locked (fun s => (tt, set_outbox (default (pl_outbox s) (enqueue_event (delivered_event event_id t delivered_at) EmptyString (pl_outbox s))) s))
  | RecipientOffline => mark_task t bucket Queued None
  | TransientFailure =>
      let t := with_attempt (i32 (tk_attempt_count t + 1)) t in
      let* now := system_now in
      let expires_at := default (now + from_hours (24 * 30)) (tk_expires_at t) in
      let* later := system_now in
      if is_retryable retry_limit attempt (tk_attempt_count t) (Some expires_at) later then
        let next_retry := now + from_ms delay in
        let t := with_schedule next_retry t in
        let* _ := mark_task t bucket RetryWait (Some next_retry) in
        let* _ := schedule_task t in
        Ret tt
      else mark_task t bucket Expired None
  | TerminalFailure => mark_task t bucket Expired None
  end.

Definition process_single_task (poll_timeout : Z) (attempt : DeliveryAttemptResult) (delay : Z) (event_id : MessageId) : call bool :=
  let* task_opt := next_task poll_timeout in
  match task_opt with
  | None => Ret (Ok false)
  | Some t =>
      match from_time_point (tk_accepted_at t) with
      | Err e => Ret (Err e)
      | Ok b =>
          let* channel := reading (fun s => get_channel capacity (is_active s) (pl_steady s) (tk_recipient_device_id t) (pl_registry s)) in
          let* still := (match channel with Some ch => reading (fun s => is_active s ch) | None => Ret false end) in
          match channel with
          | Some ch =>
              if still : bool then
                let* _ := mark_task t (bucket_value b) Delivering None in
                let* _ := send_envelope ch t in
                let* _ := settle t (bucket_value b) attempt delay event_id in
                Ret (Ok true)
              else let* _ := mark_task t (bucket_value b) Queued None in Ret (Ok true)
          | None => let* _ := mark_task t (bucket_value b) Queued None in Ret (Ok true)
          end
      end
  end.

(** ** Pending records of a device *)

Definition pending_for (d : DeviceId) (bucket : string) (limit : Z) : call (list DeviceDeliveryRecord) :=
  reading (fun s => fetch_pending_for_device d bucket limit (pl_repo s)).
Definition states_for (mid : MessageId) : call (list RecipientDeliveryState) := reading (fun s => get_delivery_states_for_message mid (pl_repo s)).

Definition hydratable (rec : DeviceDeliveryRecord) : bool :=
  bool_decide (dr_delivery_state rec = Queued) || bool_decide (dr_delivery_state rec = Delivering).

(** The user of a record, from the delivery states of its message. *)
Definition resolve_user (rec : DeviceDeliveryRecord) : call UserId :=
  try* states := states_for (dr_message_id rec) in Ret (Ok (recipient_of (dr_device_id rec) states)).

(** [realtime_delivery_accelerator.cpp] and [recover_pending_for_device] run the same
    loop: records that are too old expire, the others are scheduled until the scheduler
    refuses one. *)
Fixpoint hydrate (d : DeviceId) (bucket : string) (now ttl : Z) (user_of : DeviceDeliveryRecord -> call UserId) (records : list DeviceDeliveryRecord) (count : Z)
    : call Z :=
  match records with
  | [] => Ret (Ok count)
  | rec :: records =>
      if negb (hydratable rec) then hydrate d bucket now ttl user_of records count
      else if ttl <? now - dr_accepted_at rec then
        let* _ := update_status d bucket (dr_accepted_at rec) (dr_message_id rec) Expired (dr_attempt_count rec) None in
        hydrate d bucket now ttl user_of records count
      else
        try* user := user_of rec in
        let* status := schedule_task (task_of user now (envelope_of no_user (mkDeviceId EmptyString) rec) rec) in
        if bool_decide (status = Enqueued) then hydrate d bucket now ttl user_of records (count + 1) else Ret (Ok count)
  end.

Definition bucket_or_current (bucket : string) (now : Z) : result exn string :=
  if bool_decide (bucket = EmptyString) then let? b := from_time_point now in Ok (bucket_value b) else Ok bucket.

(** [RealtimeDeliveryAccelerator::on_device_connected]. *)
Definition accelerate (d : DeviceId) (user : UserId) (delivery_bucket : string) : call Z :=
  let* up := online d in
  if negb up then Ret (Ok 0)
  else
    let* now := system_now in
    match bucket_or_current delivery_bucket now with
    | Err e => Ret (Err e)
    | Ok bucket =>
        try* records := pending_for d bucket (max_fast_track_batch accelerator) in
        hydrate d bucket now (accelerator_ttl accelerator) (fun rec => if negb (UserId_empty user) then Ret (Ok user) else resolve_user rec) records 0
    end.

(** ** [durable_delivery_recovery_service.cpp] *)

Definition recover_pending_for_device (d : DeviceId) (bucket : string) : call Z :=
  let* up := online d in
  if negb up then Ret (Ok 0)
  else
    let* now := system_now in
    try* records := pending_for d bucket (batch_size recovery) in
    hydrate d bucket now (max_delivery_ttl recovery) resolve_user records 0.

Fixpoint sweep_loop (d : DeviceId) (bucket : string) (now : Z) (records : list DeviceDeliveryRecord) (count : Z) : call Z :=
  match records with
  | [] => Ret (Ok count)
  | rec :: records =>
      let set state := update_status d bucket (dr_accepted_at rec) (dr_message_id rec) state (dr_attempt_count rec) None in
      if negb (bool_decide (dr_delivery_state rec = RetryWait)) then sweep_loop d bucket now records count
      else if max_retry_attempts recovery <=? dr_attempt_count rec then
        let* _ := set Expired in sweep_loop d bucket now records count
      else if match dr_next_retry_at rec with Some at_ => now <? at_ | None => false end then sweep_loop d bucket now records count
      else
        let* _ := set Queued in
        try* user := resolve_user rec in
        let* status := schedule_task (task_of user now (envelope_of no_user (mkDeviceId EmptyString) rec) rec) in
        if bool_decide (status = Enqueued) then sweep_loop d bucket now records (count + 1) else Ret (Ok count)
  end.

Definition sweep_retries_for_device (d : DeviceId) (bucket : string) (now : Z) : call Z :=
  let* up := online d in
  if negb up then Ret (Ok 0)
  else try* records := pending_for d bucket (batch_size recovery) in sweep_loop d bucket now records 0.

Fixpoint purge_loop (d : DeviceId) (bucket : string) (now : Z) (records : list DeviceDeliveryRecord) (count : Z) : call Z :=
  match records with
  | [] => Ret (Ok count)
  | rec :: records =>
      if bool_decide (dr_delivery_state rec ∈ [Delivered; Read; Expired]) then purge_loop d bucket now records count
      else if max_delivery_ttl recovery <? now - dr_accepted_at rec then
        let* _ := update_status d bucket (dr_accepted_at rec) (dr_message_id rec) Expired (dr_attempt_count rec) None in
        purge_loop d bucket now records (count + 1)
      else purge_loop d bucket now records count
  end.

Definition purge_expired_for_device (d : DeviceId) (bucket : string) (now : Z) : call Z :=
  try* records := pending_for d bucket (batch_size recovery) in purge_loop d bucket now records 0.

Fixpoint recover_devices (devices : list DeviceId) (bucket : string) (now total : Z) : call Z :=
  match devices with
  | [] => Ret (Ok total)
  | d :: devices =>
      try* _ := purge_expired_for_device d bucket now in
      try* retried := sweep_retries_for_device d bucket now in
      try* recovered := recover_pending_for_device d bucket in
      recover_devices devices bucket now (total + retried + recovered)
  end.

(** Without candidates there is nothing to do. *)
Definition run_recovery_cycle (candidate_devices : list DeviceId) (delivery_bucket : string) : call Z :=
  let* now := system_now in
  match bucket_or_current delivery_bucket now with
  | Err e => Ret (Err e)
  | Ok bucket => recover_devices candidate_devices bucket now 0
  end.

(** ** [outbox_delivery_consumer.cpp] *)

(** The devices a message is for: those that are connected get a task. *)
Fixpoint dispatch_each (mid : MessageId) (bucket : string) (states : list RecipientDeliveryState) : call unit :=
  match states with
  | [] => Ret (Ok tt)
  | r_state :: states =>
      let* up := online (rs_recipient_device_id r_state) in
      if negb up then dispatch_each mid bucket states
      else
        try* records := pending_for (rs_recipient_device_id r_state) bucket 100 in
        let* _ := (match List.find (fun rec => bool_decide (dr_message_id rec = mid)) records with
                   | Some rec =>
                       let* _ := schedule_task (task_of (rs_recipient_user_id r_state) (dr_accepted_at rec)
                                   (envelope_of (rs_recipient_user_id r_state) (dr_device_id rec) rec) rec) in Ret tt
                   | None => Ret tt
                   end) in
        dispatch_each mid bucket states
  end.

(** One event: whether it is counted. *)
Definition consume_event (ev : OutboxEventRecord) : call bool :=
  match payload_field (or_payload_json ev) with
  | NoMessageId => let* _ := publish ev in Ret (Ok false)
  | NotText => Ret (Err runtime_error)
  | Text text =>
      match MessageId_from_string text with
      | None => let* _ := publish ev in Ret (Ok false)
      | Some mid =>
          match from_time_point (or_created_at ev) with
          | Err e => Ret (Err e)
          | Ok b =>
              try* states := states_for mid in
              try* _ := dispatch_each mid (bucket_value b) states in
              let* _ := publish ev in Ret (Ok true)
          end
      end
  end.

(** Exceptions of one event do not stop the others. *)
Fixpoint consume_loop (events : list OutboxEventRecord) (processed : Z) : call Z :=
  match events with
  | [] => Ret (Ok processed)
  | ev :: events =>
      if negb (bool_decide (or_event_type ev = "MessageSent"%string)) then consume_loop events processed
      else
        let* r := consume_event ev in
        consume_loop events (match r with Ok true => processed + 1 | _ => processed end)
  end.

Definition poll_events (outbox_bucket : string) (limit : Z) : call Z :=
  try* events := reading (fun s => fetch_pending_events outbox_bucket limit (pl_outbox s)) in consume_loop events 0.

(** ** Calls *)

(** The calls of the delivery plane, and what happens around it: the submission of
    messages writes records, states and events; devices connect and disconnect; channels
    close and time passes. *)
Inductive PlaneCall :=
  | Work (poll_timeout : Z) (attempt : DeliveryAttemptResult) (delay : Z) (event_id : MessageId)
  | Consume (outbox_bucket : string) (limit : Z)
  | Accelerate (d : DeviceId) (user : UserId) (bucket : string)
  | RecoveryCycle (devices : list DeviceId) (bucket : string)
  | SaveRecord (r : DeviceDeliveryRecord)
  | SaveRecipient (st : RecipientDeliveryState)
  | Announce (e : OutboxEvent)
  | Connect (ch : Channel)
  | Disconnect (d : DeviceId)
  | Close (object : nat)
  | Tick (steady system : Z).

Definition answered {A} (p : call A) : call unit := try* _ := p in Ret (Ok tt).
Definition applied (f : Plane -> Plane) : call unit := locked (fun s => (Ok tt, f s)).

Definition serve_plane (c : PlaneCall) : call unit :=
  match c with
  | Work poll attempt delay id => answered (process_single_task poll attempt delay id)
  | Consume bucket limit => answered (poll_events bucket limit)
  | Accelerate d u bucket => answered (accelerate d u bucket)
  | RecoveryCycle devices bucket => answered (run_recovery_cycle devices bucket)
  | SaveRecord r => applied (fun s => mkPlane (save_pending_one r (pl_repo s)) (pl_outbox s) (pl_scheduler s) (pl_registry s) (pl_closed s) (pl_steady s)
                                        (pl_system s) (pl_sent s) (pl_saved s ++ [r]))
  | SaveRecipient st => applied (fun s => set_repo (save_state_one st (pl_repo s)) s)
  | Announce e => applied (fun s => set_outbox (default (pl_outbox s) (enqueue_event e EmptyString (pl_outbox s))) s)
  | Connect ch => applied (fun s => set_channels (snd (register_channel capacity ch (pl_steady s) (pl_registry s))) s)
  | Disconnect d => applied (fun s => set_channels (snd (unregister_channel d (pl_registry s))) s)
  | Close object => applied (fun s => mkPlane (pl_repo s) (pl_outbox s) (pl_scheduler s) (pl_registry s) ({[object]} ∪ pl_closed s) (pl_steady s) (pl_system s)
                                        (pl_sent s) (pl_saved s))
  | Tick steady system => applied (fun s => mkPlane (pl_repo s) (pl_outbox s) (pl_scheduler s) (pl_registry s) (pl_closed s) steady system (pl_sent s) (pl_saved s))
  end.
End plane.
#[global] Arguments Plane : clear implicits.
