(* ===== verification/DeliveryPlaneSpec.v ===== *)
(** * The delivery plane: what reaches a device

    Under any interleaving of its calls ([envelopes_reach_their_device]); then what one
    worker does with one task ([worker_settles_task]), and two runs that show duplicates. *)

From S2P Require Import Prelude Ids Bucket Scylla DeliveryTypes DeliveryRepo DeliveryRepoSpec Conversation ConversationService Outbox Prog Scheduler Connections DeliveryPlane.
#[local] Open Scope Z_scope.

(** ** What a task is made of *)

(** The record a task was made from: its message, its device, its ciphertext. *)
Definition carries (r : DeviceDeliveryRecord) (t : DeliveryTask) : Prop :=
  tk_message_id t = dr_message_id r /\ tk_conversation_id t = dr_conversation_id r /\ tk_recipient_device_id t = dr_device_id r /\
  tk_priority t = dr_message_priority r /\ tk_accepted_at t = stored_time (dr_accepted_at r) /\
  tk_envelope t = envelope_of (pe_recipient_user_id (tk_envelope t)) (pe_recipient_device_id (tk_envelope t)) r.

Definition issued (saved : list DeviceDeliveryRecord) (t : DeliveryTask) : Prop := exists r, r ∈ saved /\ carries r t.

(** A stored row and the record it was saved as: only the status has changed. *)
Definition row_of (r x : DeviceDeliveryRecord) : Prop :=
  x = set_status (dr_delivery_state x) (dr_attempt_count x) (dr_next_retry_at x) (stored_record r).

(** Records as the submission of messages writes them: filed under the month they were
    accepted in. *)
Definition filed (r : DeviceDeliveryRecord) : Prop :=
  record_wf r /\ 0 <= dr_accepted_at r /\ exists b, from_time_point (dr_accepted_at r) = Ok b /\ bucket_value b = dr_delivery_bucket r.

Lemma row_of_set r x st n nr : row_of r x -> row_of r (set_status st n nr x).
Proof. unfold row_of. intros ->. done. Qed.

Lemma row_of_stored r : row_of r (stored_record r).
Proof. by destruct r. Qed.

Lemma row_of_key r x : row_of r x -> pending_key x = pending_key r.
Proof. unfold row_of. intros ->. unfold pending_key, pending_partition, pending_cluster. cbn. by rewrite to_ms_stored_time. Qed.

Lemma row_of_task r x user at_ eu ed : row_of r x -> carries r (task_of user at_ (envelope_of eu ed x) x).
Proof. unfold row_of. intros ->. by repeat split. Qed.

Lemma carries_attempt r t n : carries r t -> carries r (with_attempt n t).
Proof. done. Qed.

Lemma carries_schedule r t n : carries r t -> carries r (with_schedule n t).
Proof. done. Qed.

(** A time and what is stored of it are in the same month. *)
Lemma from_time_point_stored t : 0 <= t -> from_time_point (stored_time t) = from_time_point t.
Proof.
  intros Ht. unfold from_time_point. cbn zeta. replace (Z.quot (stored_time t) ns_per_s) with (Z.quot t ns_per_s); [done|].
  unfold stored_time, from_ms, to_ms, ns_per_ms, ns_per_s. rewrite (Z.quot_div_nonneg t 1000000) by lia.
  pose proof (Z.div_pos t 1000000 Ht ltac:(lia)). rewrite !Z.quot_div_nonneg by lia.
  change 1000000000 with (1000 * 1000000) at 2. rewrite Z.div_mul_cancel_r, Z.div_div by lia. done.
Qed.

(** The key the worker uses is that of the record. *)
Lemma carries_key r t b : filed r -> carries r t -> from_time_point (tk_accepted_at t) = Ok b ->
  update_key (tk_recipient_device_id t) (bucket_value b) (tk_accepted_at t) (tk_message_id t) = pending_key r.
Proof.
  intros (_ & Hpos & b' & Hb' & Hv) (-> & _ & -> & _ & -> & _). rewrite from_time_point_stored by done. rewrite Hb'. intros [= <-].
  unfold update_key, pending_key, pending_partition, pending_cluster. by rewrite to_ms_stored_time, Hv.
Qed.

(** ** The tasks of the scheduler *)

Definition all_tasks (P : DeliveryTask -> Prop) (q : Scheduler) : Prop :=
  Forall P (emergency_queue_ q) /\ map_Forall (fun _ l => Forall P l) (per_device_queues_ q).

Lemma all_tasks_queue P q d : all_tasks P q -> Forall P (default [] (per_device_queues_ q !! d)).
Proof. intros [_ Hm]. destruct (per_device_queues_ q !! d) as [l|] eqn:Hd; [by apply (Hm d l)|constructor]. Qed.

Lemma all_tasks_mono (P P' : DeliveryTask -> Prop) q : (forall t, P t -> P' t) -> all_tasks P q -> all_tasks P' q.
Proof.
  intros HP [He Hm]. split; [by eapply Forall_impl|]. intros d l Hl. eapply Forall_impl; [exact (Hm d l Hl)|done].
Qed.

Lemma schedule_all P config now t q : P t -> all_tasks P q -> all_tasks P (snd (schedule config now t q)).
Proof.
  intros Ht Hq. pose proof (all_tasks_queue P q (tk_recipient_device_id t) Hq) as Hd. destruct Hq as [He Hm]. unfold schedule.
  assert (Hsnoc : forall l, Forall P l -> Forall P (l ++ [t])) by (intros l Hl; apply Forall_app; split; [done|by constructor]).
  repeat case_match; cbn [snd]; split; cbn [emergency_queue_ per_device_queues_]; auto; apply map_Forall_insert_2; auto.
Qed.

Lemma dequeue_ring_all P config ring q : all_tasks P q ->
  let '(t, q') := dequeue_ring config ring q in all_tasks P q' /\ from_option P True t.
Proof.
  revert q. induction ring as [|d ring IH]; intros q Hq; cbn [dequeue_ring]; [by destruct Hq|].
  pose proof (all_tasks_queue P q d Hq) as Hd. destruct Hq as [He Hm]. destruct (default [] (per_device_queues_ q !! d)) as [|t rest].
  - apply IH. split; [done|]. cbn [per_device_queues_]. by apply map_Forall_delete.
  - apply Forall_cons in Hd as [Ht Hrest]. cbn zeta. split; [|done].
    repeat case_match; (split; [done|]); cbn [per_device_queues_]; first [by apply map_Forall_delete | by apply map_Forall_insert_2].
Qed.

Lemma dequeue_all P config timeout q t q' : all_tasks P q -> dequeue config timeout q = Some (t, q') -> all_tasks P q' /\ from_option P True t.
Proof.
  intros Hq. unfold dequeue. destruct (_ || _); [|destruct (timeout =? 0); [done|by intros [= <- <-]]]. intros [= Hd]. unfold dequeue_locked in Hd.
  destruct (emergency_queue_ q) as [|x rest] eqn:He.
  - pose proof (dequeue_ring_all P config (active_device_ring_ q) q Hq) as H. by rewrite Hd in H.
  - injection Hd as <- <-. destruct Hq as [Hq Hm]. rewrite He in Hq. apply Forall_cons in Hq as [Hx Hrest]. by split.
Qed.

(** ** The invariant *)

Section plane.
Context {TP TS T : Type}.
Context `{!CqlTable TP PendingPartition PendingCluster, !CqlTable TS string string, !CqlTable T string OutboxCluster}.
#[local] Abbreviation repo_t := (DeliveryStateRepository TP TS).
#[local] Abbreviation plane_t := (Plane TP TS T).

(** Whatever the limit, a fetch answers with rows of the partition. *)
Lemma fetch_pending_sound (repo : repo_t) m d bucket limit l rec :
  pending_repr repo m -> fetch_pending_for_device d bucket limit repo = Ok l -> rec ∈ l ->
  exists c : PendingCluster, m !! ((device_str d, bucket), c) = Some rec.
Proof using Type.
  intros Hrepr Hf Hin. unfold fetch_pending_for_device in Hf. destruct (limit_param limit) as [n|]; cbn [bind] in Hf; [|done].
  rewrite map_result_fmap in Hf. set (p := (device_str d, bucket)) in *.
  assert (Hd : map_result (fun cr => row_to_delivery_record (pending_row p cr)) (take n (scan p (pending_table repo))) = Ok (take n (pending_list p repo m))).
  { unfold pending_list, entities. rewrite <-(entities_take _ _ _ _ _ n _ Hrepr) by done.
    eapply (decode_rows _ _ (fun p cr => row_to_delivery_record (pending_row p cr)) decode_pending_row); [exact Hrepr|].
    intros x Hx. by apply elem_of_take in Hx as (i & Hx%list_elem_of_lookup_2 & _). }
  rewrite Hd in Hf. injection Hf as <-. apply elem_of_take in Hin as (i & Hin%list_elem_of_lookup_2 & _).
  by apply (elem_of_pending_list repo m p rec Hrepr).
Qed.

(** What is stored, queued and sent comes from what was saved. *)
Record plane_ok (s : plane_t) : Prop := mkPlaneOk {
  ok_saved : Forall filed (pl_saved s);
  ok_rows : exists m, pending_repr (pl_repo s) m /\ (forall r, r ∈ pl_saved s -> is_Some (m !! pending_key r)) /\
                      (forall k x, m !! k = Some x -> exists r, r ∈ pl_saved s /\ row_of r x);
  ok_queued : all_tasks (issued (pl_saved s)) (pl_scheduler s);
  ok_sent : Forall (fun ct => ch_device_id ct.1 = tk_recipient_device_id ct.2 /\ issued (pl_saved s) ct.2) (pl_sent s);
  ok_channels : forall d e, channels_ (pl_registry s) !! d = Some e -> ch_device_id (en_channel e) = d }.

Definition saves (s s' : plane_t) : Prop := pl_saved s ⊆ pl_saved s'.
#[export] Instance saves_preorder : PreOrder saves.
Proof. unfold saves. split; [intros s x; done|intros s1 s2 s3 H1 H2 x Hx; by apply H2, H1]. Qed.

Lemma issued_later s s' t : saves s s' -> issued (pl_saved s) t -> issued (pl_saved s') t.
Proof using Type. intros Hs (r & Hr & Hc). exists r. split; [by apply Hs|done]. Qed.

(** A write that leaves records, tasks and channels alone. *)
Lemma plane_ok_same s s' :
  pl_repo s' = pl_repo s -> pl_scheduler s' = pl_scheduler s -> pl_sent s' = pl_sent s -> pl_saved s' = pl_saved s ->
  pl_registry s' = pl_registry s -> plane_ok s -> plane_ok s'.
Proof using Type. intros Hr Hq Hs Hv Hc [H1 H2 H3 H4 H5]. split; rewrite ?Hr, ?Hq, ?Hs, ?Hv, ?Hc; done. Qed.

Lemma status_ok s r d bucket accepted mid st n nr :
  plane_ok s -> r ∈ pl_saved s -> update_key d bucket accepted mid = pending_key r ->
  plane_ok (set_repo (update_device_delivery_status d bucket accepted mid st n nr (pl_repo s)) s).
Proof using Type.
  intros [H1 (m & Hm & Hfiled & Hrows) H3 H4 H5] Hr Hk. split; [done| |done|done|done]. cbn [set_repo pl_repo pl_saved].
  pose proof (pending_sim (UpdateStatus d bucket accepted mid st n nr) _ m Hm) as Hsim. cbn [pending_step pending_spec pending_admissible] in Hsim.
  rewrite Hk in Hsim. destruct (Hfiled r Hr) as [x Hx]. rewrite Hx in Hsim. eexists. split; [apply Hsim; by eexists|]. split.
  - intros r' Hr'. apply lookup_insert_is_Some'. right. by apply Hfiled.
  - intros k y. rewrite lookup_insert_Some. intros [[<- <-]|[_ Hy]]; [|by eapply Hrows]. destruct (Hrows _ _ Hx) as (r0 & Hr0 & Hrow).
    exists r0. split; [done|by apply row_of_set].
Qed.

Lemma schedule_ok config now s t :
  plane_ok s -> issued (pl_saved s) t -> plane_ok (set_scheduler (snd (schedule config now t (pl_scheduler s))) s).
Proof using Type. intros [H1 H2 H3 H4 H5] Ht. split; [done|done| |done|done]. cbn [set_scheduler pl_scheduler pl_saved]. by apply schedule_all. Qed.

Lemma save_ok s r : plane_ok s -> filed r ->
  plane_ok (mkPlane (save_pending_one r (pl_repo s)) (pl_outbox s) (pl_scheduler s) (pl_registry s) (pl_closed s) (pl_steady s) (pl_system s) (pl_sent s) (pl_saved s ++ [r])).
Proof using Type.
  intros [H1 (m & Hm & Hfiled & Hrows) H3 H4 H5] Hr.
  assert (Hmono : forall t, issued (pl_saved s) t -> issued (pl_saved s ++ [r]) t).
  { intros t (r0 & Hin & Hc). exists r0. split; [apply elem_of_app; by left|done]. }
  split; cbn [pl_saved pl_repo pl_scheduler pl_sent pl_registry]; [apply Forall_app; split; [done|by apply Forall_singleton]| | | |done].
  - exists (pending_spec (SavePending r) m). split; [apply (pending_sim (SavePending r)); [done|apply Hr]|]. cbn [pending_spec]. split.
    + intros r' [Hr'|Hr']%elem_of_app; apply lookup_insert_is_Some'; [right; by apply Hfiled|left]. by apply list_elem_of_singleton in Hr' as ->.
    + intros k x. rewrite lookup_insert_Some. intros [[<- <-]|[_ Hx]].
      * exists r. split; [apply elem_of_app; right; by apply list_elem_of_singleton|apply row_of_stored].
      * destruct (Hrows _ _ Hx) as (r0 & Hr0 & Hrow). exists r0. split; [apply elem_of_app; by left|done].
  - by eapply all_tasks_mono.
  - eapply Forall_impl; [exact H4|]. intros [ch t] [? ?]. split; [done|by apply Hmono].
Qed.

(** ** Every call keeps the invariant *)

Definition safe {A} (p : prog plane_t A) (s : plane_t) : Prop := wpr plane_ok saves p (fun _ _ => True) s.

Lemma safe_bind {A B} (p : prog plane_t A) (g : A -> prog plane_t B) s :
  plane_ok s -> safe p s -> (forall a s', plane_ok s' -> saves s s' -> safe (g a) s') -> safe (pbind p g) s.
Proof using Type. intros Hs Hp Hg. apply wpr_bind; [apply _|done|]. eapply wpr_mono; [|exact Hp]. intros a s' _ Hs' Hle. by apply Hg. Qed.

Lemma safe_reading {A B} (f : plane_t -> A) (g : A -> prog plane_t B) s :
  (forall s', plane_ok s' -> saves s s' -> safe (g (f s')) s') -> safe (pbind (reading f) g) s.
Proof using Type. intros Hg. apply wpr_locked. intros s' Hle Hs'. split_and!; [done|done|]. by apply Hg. Qed.

Lemma safe_write {A} (f : plane_t -> A * plane_t) s : (forall s', plane_ok s' -> saves s s' -> plane_ok (snd (f s')) /\ saves s' (snd (f s'))) -> safe (locked f) s.
Proof using Type. intros Hf s' Hle Hs'. destruct (Hf s' Hs' Hle). by split_and!. Qed.

Lemma safe_update s r d bucket accepted mid st n nr :
  r ∈ pl_saved s -> update_key d bucket accepted mid = pending_key r -> safe (update_status d bucket accepted mid st n nr) s.
Proof using Type. intros Hr Hk. apply safe_write. intros s' Hs' Hle. split; [|by intros x]. eapply status_ok; [done|by apply Hle|done]. Qed.

Section calls.
Context (scheduler_config : DeliverySchedulerConfig) (capacity : ConnectionCapacityConfig) (retry_limit : Z).
Context (recovery : DeliveryRecoveryConfig) (accelerator : RealtimeDeliveryAcceleratorConfig) (payload_field : string -> PayloadField).

Lemma safe_schedule s t : issued (pl_saved s) t -> safe (schedule_task scheduler_config t) s.
Proof using Type.
  intros Ht. apply safe_write. intros s' Hs' Hle. pose proof (schedule_ok scheduler_config (pl_system s') s' t Hs' (issued_later _ _ _ Hle Ht)) as H.
  destruct (schedule _ _ _ _) as [st q]. split; [exact H|by intros x].
Qed.

(** A row that a fetch for the device returned. *)
Definition fetched (s : plane_t) (d : DeviceId) (bucket : string) (rec : DeviceDeliveryRecord) : Prop :=
  exists r, r ∈ pl_saved s /\ row_of r rec /\ update_key d bucket (dr_accepted_at rec) (dr_message_id rec) = pending_key r.

Lemma fetched_later s s' d bucket records : saves s s' -> Forall (fetched s d bucket) records -> Forall (fetched s' d bucket) records.
Proof using Type. intros Hs Hf. eapply Forall_impl; [exact Hf|]. intros rec (r & Hr & H). exists r. split; [by apply Hs|done]. Qed.

Lemma pending_fetched s d bucket limit records :
  plane_ok s -> fetch_pending_for_device d bucket limit (pl_repo s) = Ok records -> Forall (fetched s d bucket) records.
Proof using Type.
  intros [_ (m & Hm & _ & Hrows) _ _ _] Hf. apply Forall_forall. intros rec Hin. destruct (fetch_pending_sound _ m d bucket limit _ rec Hm Hf Hin) as [c Hc].
  destruct (Hrows _ _ Hc) as (r & Hr & Hrow). exists r. split_and!; [done|done|]. rewrite <-(row_of_key _ _ Hrow).
  destruct Hm as [_ Hm]. destruct (map_Forall_lookup_1 _ _ _ _ Hm Hc) as (_ & _ & Hk). apply (f_equal fst) in Hk. cbn [fst pending_key] in Hk.
  unfold update_key, pending_key, pending_cluster. by rewrite Hk.
Qed.

Lemma safe_pending {B} d bucket limit (g : list DeviceDeliveryRecord -> prog plane_t (result exn B)) s :
  (forall records s', plane_ok s' -> saves s s' -> Forall (fetched s' d bucket) records -> safe (g records) s') ->
  safe (try* records := pending_for d bucket limit in g records) s.
Proof using Type.
  intros Hg. apply safe_reading. intros s' Hs' Hle. destruct (fetch_pending_for_device _ _ _ _) as [records|e] eqn:Hf; [|done].
  apply Hg; [done|done|]. by eapply pending_fetched.
Qed.

Lemma fetched_task s d bucket rec user at_ eu ed : fetched s d bucket rec -> issued (pl_saved s) (task_of user at_ (envelope_of eu ed rec) rec).
Proof using Type. intros (r & Hr & Hrow & _). exists r. split; [done|by apply row_of_task]. Qed.

Lemma safe_fetched_update s d bucket rec st n nr : fetched s d bucket rec -> safe (update_status d bucket (dr_accepted_at rec) (dr_message_id rec) st n nr) s.
Proof using Type. intros (r & Hr & _ & Hk). by eapply safe_update. Qed.

Lemma safe_try {A B} (p : prog plane_t (result exn A)) (g : A -> prog plane_t (result exn B)) s :
  plane_ok s -> safe p s -> (forall a s', plane_ok s' -> saves s s' -> safe (g a) s') -> safe (try* a := p in g a) s.
Proof using Type. intros Hs Hp Hg. apply safe_bind; [done|done|]. intros [a|e] s' Hs' Hle; [by apply Hg|done]. Qed.

Lemma safe_resolve rec s : plane_ok s -> safe (resolve_user rec) s.
Proof using Type. intros Hs. apply safe_reading. intros s' _ _. by destruct (get_delivery_states_for_message _ _). Qed.

Lemma safe_hydrate d bucket now ttl user_of records count s :
  (forall rec s, plane_ok s -> safe (user_of rec) s) -> plane_ok s -> Forall (fetched s d bucket) records ->
  safe (hydrate scheduler_config d bucket now ttl user_of records count) s.
Proof using Type.
  intros Hu. revert count s. induction records as [|rec records IH]; intros count s Hs Hf; cbn [hydrate]; [done|].
  apply Forall_cons in Hf as [Hrec Hf]. destruct (negb (hydratable rec)); [by apply IH|]. destruct (ttl <? _).
  - apply safe_bind; [done|by apply safe_fetched_update|]. intros _ s' Hs' Hle. apply IH; [done|by eapply fetched_later].
  - apply safe_try; [done|by apply Hu|]. intros user s1 Hs1 Hle1. apply safe_bind; [done| |].
    + apply safe_schedule. eapply issued_later; [exact Hle1|]. by eapply fetched_task.
    + intros st s2 Hs2 Hle2. case_bool_decide; [|done]. apply IH; [done|]. eapply fetched_later; [|exact Hf]. by etransitivity.
Qed.

Lemma safe_sweep d bucket now records count s :
  plane_ok s -> Forall (fetched s d bucket) records -> safe (sweep_loop scheduler_config recovery d bucket now records count) s.
Proof using Type.
  revert count s. induction records as [|rec records IH]; intros count s Hs Hf; cbn [sweep_loop]; [done|].
  apply Forall_cons in Hf as [Hrec Hf]. destruct (negb _); [by apply IH|]. destruct (_ <=? _).
  - apply safe_bind; [done|by apply safe_fetched_update|]. intros _ s' Hs' Hle. apply IH; [done|by eapply fetched_later].
  - destruct (match dr_next_retry_at rec with Some _ => _ | None => _ end); [by apply IH|].
    apply safe_bind; [done|by apply safe_fetched_update|]. intros _ s0 Hs0 Hle0. apply safe_try; [done|by apply safe_resolve|].
    intros user s1 Hs1 Hle1. assert (Hle : saves s s1) by (by transitivity s0). apply safe_bind; [done| |].
    + apply safe_schedule. eapply issued_later; [exact Hle|]. by eapply fetched_task.
    + intros st s2 Hs2 Hle2. case_bool_decide; [|done]. apply IH; [done|]. eapply fetched_later; [|exact Hf]. by transitivity s1.
Qed.

Lemma safe_purge d bucket now records count s :
  plane_ok s -> Forall (fetched s d bucket) records -> safe (purge_loop recovery d bucket now records count) s.
Proof using Type.
  revert count s. induction records as [|rec records IH]; intros count s Hs Hf; cbn [purge_loop]; [done|].
  apply Forall_cons in Hf as [Hrec Hf]. destruct (bool_decide _); [by apply IH|]. destruct (_ <? _); [|by apply IH].
  apply safe_bind; [done|by apply safe_fetched_update|]. intros _ s' Hs' Hle. apply IH; [done|by eapply fetched_later].
Qed.

Lemma safe_online {B} d (g : bool -> prog plane_t B) s : (forall b s', plane_ok s' -> saves s s' -> safe (g b) s') -> safe (pbind (online capacity d) g) s.
Proof using Type. intros Hg. apply safe_reading. intros s' Hs' Hle. by apply Hg. Qed.

Lemma safe_accelerate d u bucket s : plane_ok s -> safe (accelerate scheduler_config capacity accelerator d u bucket) s.
Proof using Type.
  intros Hs. apply safe_online. intros [] s1 Hs1 _; [|done]. apply safe_reading. intros s2 Hs2 _. destruct (bucket_or_current _ _) as [b|e]; [|done].
  apply safe_pending. intros records s3 Hs3 _ Hf. apply safe_hydrate; [|done|done]. intros rec s4 Hs4. destruct (negb _); [done|by apply safe_resolve].
Qed.

Lemma safe_recover d bucket s : plane_ok s -> safe (recover_pending_for_device scheduler_config capacity recovery d bucket) s.
Proof using Type.
  intros Hs. apply safe_online. intros [] s1 Hs1 _; [|done]. apply safe_reading. intros s2 Hs2 _.
  apply safe_pending. intros records s3 Hs3 _ Hf. apply safe_hydrate; [|done|done]. intros. by apply safe_resolve.
Qed.

Lemma safe_devices devices bucket now total s : plane_ok s -> safe (recover_devices scheduler_config capacity recovery devices bucket now total) s.
Proof using Type.
  revert total s. induction devices as [|d devices IH]; intros total s Hs; cbn [recover_devices]; [done|].
  apply safe_try; [done|apply safe_pending; intros; by apply safe_purge|]. intros _ s1 Hs1 _. apply safe_try; [done| |].
  - apply safe_online. intros [] s2 Hs2 _; [|done]. apply safe_pending. intros. by apply safe_sweep.
  - intros n s2 Hs2 _. apply safe_try; [done|by apply safe_recover|]. intros n' s3 Hs3 _. by apply IH.
Qed.

Lemma safe_outbox {A} (f : plane_t -> A) (o : plane_t -> T) s : safe (locked (fun s => (f s, set_outbox (o s) s))) s.
Proof using Type. apply safe_write. intros s' Hs' _. split; [by apply (plane_ok_same s')|by intros x]. Qed.

Lemma safe_dispatch mid bucket states s : plane_ok s -> safe (dispatch_each scheduler_config capacity mid bucket states) s.
Proof using Type.
  revert s. induction states as [|st states IH]; intros s Hs; cbn [dispatch_each]; [done|]. apply safe_online. intros [] s1 Hs1 _; [|by apply IH].
  apply safe_pending. intros records s2 Hs2 _ Hf. apply safe_bind; [done| |intros; by apply IH].
  destruct (List.find _ records) as [rec|] eqn:Hfind; [|done]. apply List.find_some in Hfind as [Hin%list_elem_of_In _].
  apply safe_bind; [done|apply safe_schedule; eapply fetched_task, (Forall_forall _ _); done|done].
Qed.

Lemma safe_consume ev s : plane_ok s -> safe (consume_event scheduler_config capacity payload_field ev) s.
Proof using Type.
  intros Hs. assert (Hpub : forall (b : bool) s, plane_ok s -> safe (pbind (publish ev) (fun _ => Ret (Ok b : result exn bool))) s).
  { intros b s' Hs'. apply safe_bind; [done|apply safe_outbox|done]. }
  unfold consume_event. destruct (payload_field _) as [| |text]; [by apply Hpub|done|]. destruct (MessageId_from_string text) as [mid|]; [|by apply Hpub].
  destruct (from_time_point _) as [b|e]; [|done]. apply safe_reading. intros s1 Hs1 _. destruct (get_delivery_states_for_message _ _) as [states|e]; [|done].
  apply safe_try; [done|by apply safe_dispatch|]. intros _ s2 Hs2 _. by apply Hpub.
Qed.

Lemma safe_consume_loop events n s : plane_ok s -> safe (consume_loop scheduler_config capacity payload_field events n) s.
Proof using Type.
  revert n s. induction events as [|ev events IH]; intros n s Hs; cbn [consume_loop]; [done|]. destruct (negb _); [by apply IH|].
  apply safe_bind; [done|by apply safe_consume|]. intros r s' Hs' _. by apply IH.
Qed.

Lemma safe_mark s t b st nr n : plane_ok s -> issued (pl_saved s) t -> from_time_point (tk_accepted_at t) = Ok b ->
  safe (mark_task (with_attempt n t) (bucket_value b) st nr) s.
Proof using Type.
  intros Hs (r & Hr & Hc) Hb. eapply safe_update; [exact Hr|]. apply (carries_key r (with_attempt n t) b); [|done|done].
  by apply (proj1 (Forall_forall _ _) (ok_saved _ Hs)).
Qed.

Lemma safe_mark_task s t b st nr : plane_ok s -> issued (pl_saved s) t -> from_time_point (tk_accepted_at t) = Ok b ->
  safe (mark_task t (bucket_value b) st nr) s.
Proof using Type. intros Hs Ht Hb. exact (safe_mark s t b st nr (tk_attempt_count t) Hs Ht Hb). Qed.

Lemma safe_settle s t b attempt delay id : plane_ok s -> issued (pl_saved s) t -> from_time_point (tk_accepted_at t) = Ok b ->
  safe (settle scheduler_config retry_limit t (bucket_value b) attempt delay id) s.
Proof using Type.
  intros Hs Ht Hb. destruct attempt; cbn [settle].
  - apply safe_reading. intros s1 Hs1 Hle1. apply safe_bind; [done| |].
    + apply safe_write. intros s2 Hs2 _. split; [|by intros x]. destruct Hs2 as [H1 H2 H3 H4 H5]. by split.
    + intros _ s2 Hs2 Hle2. apply safe_bind; [done| |intros; apply safe_outbox]. apply safe_mark_task; [done| |done].
      eapply issued_later; [|exact Ht]. by etransitivity.
  - by apply safe_mark_task.
  - apply safe_reading. intros s1 Hs1 Hle1. apply safe_reading. intros s2 Hs2 Hle2. assert (Ht2 : issued (pl_saved s2) t) by (eapply issued_later; [|exact Ht]; by etransitivity).
    destruct (is_retryable _ _ _ _ _); [|by apply safe_mark]. apply safe_bind; [done| |].
    + apply (safe_mark_task s2 (with_schedule _ (with_attempt _ t)) b); [done|done|done].
    + intros _ s3 Hs3 Hle3. apply safe_bind; [done|apply safe_schedule|done]. by eapply issued_later in Ht2; [|exact Hle3].
  - by apply safe_mark_task.
Qed.

Lemma get_channel_device s d ch active now : plane_ok s -> get_channel capacity active now d (pl_registry s) = Some ch -> ch_device_id ch = d.
Proof using Type.
  intros Hs. unfold get_channel. destruct (channels_ (pl_registry s) !! d) as [e|] eqn:He; [|done]. destruct (leased _ _ _ _); [|done]. intros [= <-].
  by apply (ok_channels _ Hs).
Qed.

Lemma safe_work timeout attempt delay id s : plane_ok s -> safe (process_single_task scheduler_config capacity retry_limit timeout attempt delay id) s.
Proof using Type.
  intros Hs. apply wpr_locked. intros s1 _ Hs1. destruct (dequeue scheduler_config timeout (pl_scheduler s1)) as [[t_opt q]|] eqn:Hd; cbn [fst snd]; [|by split; [done|split]].
  destruct (dequeue_all _ _ _ _ _ _ (ok_queued _ Hs1) Hd) as [Hq Ht]. assert (Hs1' : plane_ok (set_scheduler q s1)) by (destruct Hs1; by split).
  split; [done|split; [by intros x|]]. destruct t_opt as [t|]; [|done]. cbn [from_option] in Ht. destruct (from_time_point (tk_accepted_at t)) as [b|e] eqn:Hb; [|done].
  apply safe_reading. intros s2 Hs2 Hle2. pose proof (issued_later _ _ _ Hle2 Ht) as Ht2. pose proof (get_channel_device s2 (tk_recipient_device_id t)) as Hdev.
  destruct (get_channel _ _ _ _ _) as [ch|] eqn:Hch; cbn [pbind].
  - specialize (Hdev ch _ _ Hs2 Hch). apply safe_reading. intros s3 Hs3 Hle3. pose proof (issued_later _ _ _ Hle3 Ht2) as Ht3.
    destruct (is_active s3 ch); [|apply safe_bind; [done|by apply safe_mark_task|done]].
    apply safe_bind; [done|by apply safe_mark_task|]. intros _ s4 Hs4 Hle4. pose proof (issued_later _ _ _ Hle4 Ht3) as Ht4. apply safe_bind; [done| |].
    + apply safe_write. intros s5 Hs5 Hle5. split; [|by intros x]. destruct Hs5 as [H1 H2 H3 H4 H5]. split; [done|done|done| |done].
      cbn [snd pl_sent pl_saved]. apply Forall_app. split; [done|]. apply Forall_singleton. split; [done|by eapply issued_later].
    + intros _ s5 Hs5 Hle5. apply safe_bind; [done|apply safe_settle; [done|by eapply issued_later|done]|done].
  - apply safe_bind; [done|by apply safe_mark_task|done].
Qed.

(** What the submission of messages saves is filed as it files it. *)
Definition proper (c : PlaneCall) : Prop := match c with SaveRecord r => filed r | _ => True end.

#[local] Abbreviation served_by := (serve_plane scheduler_config capacity retry_limit recovery accelerator payload_field).

Lemma register_keyed ch now r :
  (forall d e, channels_ r !! d = Some e -> ch_device_id (en_channel e) = d) ->
  forall d e, channels_ (snd (register_channel capacity ch now r)) !! d = Some e -> ch_device_id (en_channel e) = d.
Proof using Type.
  intros Hk d e. unfold register_channel. cbn zeta. repeat case_match; cbn [snd channels_]; try apply Hk;
    rewrite lookup_insert_Some; (intros [[<- <-]|[_ ?]]; [done|by apply Hk]).
Qed.

Lemma serve_safe_plane c s : proper c -> plane_ok s -> safe (served_by c) s.
Proof using Type.
  intros Hc Hs. assert (Hans : forall A (p : prog plane_t (result exn A)), safe p s -> safe (answered p) s) by (intros; by apply safe_try).
  assert (Happ : forall f, (forall s, plane_ok s -> plane_ok (f s) /\ saves s (f s)) -> safe (applied f) s).
  { intros f Hf. apply safe_write. intros s' Hs' _. by apply Hf. }
  destruct c as [timeout attempt delay id|bucket limit|d u bucket|devices bucket|r|st|e|ch|d|obj|steady system]; cbn [serve_plane].
  - by apply Hans, safe_work.
  - apply Hans. apply safe_reading. intros s1 Hs1 _. destruct (fetch_pending_events _ _ _); [by apply safe_consume_loop|done].
  - by apply Hans, safe_accelerate.
  - apply Hans. apply safe_reading. intros s1 Hs1 _. destruct (bucket_or_current _ _); [by apply safe_devices|done].
  - apply Happ. intros s' Hs'. split; [by apply save_ok|]. intros x Hx. apply elem_of_app. by left.
  - apply Happ. intros s' [H1 H2 H3 H4 H5]. split; [by split|by intros x].
  - apply Happ. intros s' Hs'. split; [by apply (plane_ok_same s')|by intros x].
  - apply Happ. intros s' [H1 H2 H3 H4 H5]. split; [|by intros x]. split; [done..|]. by apply register_keyed.
  - apply Happ. intros s' [H1 H2 H3 H4 H5]. split; [|by intros x]. split; [done..|]. unfold unregister_channel.
    destruct (channels_ (pl_registry s') !! d); [|done]. intros d' e'. cbn. intros [_ ?]%lookup_delete_Some. by apply H5.
  - apply Happ. intros s' Hs'. split; [by apply (plane_ok_same s')|by intros x].
  - apply Happ. intros s' Hs'. split; [by apply (plane_ok_same s')|by intros x].
Qed.

Definition fresh_plane (repo : repo_t) (outbox : T) (steady system : Z) : plane_t :=
  mkPlane repo outbox new_scheduler empty_registry ∅ steady system [] [].

Lemma fresh_ok repo outbox steady system : pending_repr repo ∅ -> plane_ok (fresh_plane repo outbox steady system).
Proof using Type.
  intros Hr. split; cbn; [constructor| |split; [constructor|apply map_Forall_empty]|constructor|intros d e; by rewrite lookup_empty].
  exists ∅. split_and!; [done|by intros r ?%elem_of_nil|intros k x; by rewrite lookup_empty].
Qed.
End calls.
End plane.

#[export] Instance filed_dec r : Decision (filed r).
Proof.
  unfold filed, record_wf, Uuid.wf, in_u64. destruct (from_time_point (dr_accepted_at r)) as [b|e].
  - destruct (decide (bucket_value b = dr_delivery_bucket r)) as [Hb|Hb].
    + assert (Hex : Decision (exists b0, (Ok b : result exn MessageBucket) = Ok b0 /\ bucket_value b0 = dr_delivery_bucket r)) by (left; by exists b). apply _.
    + right. intros (_ & _ & b' & [= <-] & ?). done.
  - right. by intros (_ & _ & b' & ? & _).
Defined.


#[export] Instance proper_dec c : Decision (proper c).
Proof. destruct c; cbn [proper]; apply _. Defined.

Section guarantee.
Context {TP TS T : Type}.
Context `{!CqlTable TP PendingPartition PendingCluster, !CqlTable TS string string, !CqlTable T string OutboxCluster}.
Context (scheduler_config : DeliverySchedulerConfig) (capacity : ConnectionCapacityConfig) (retry_limit : Z).
Context (recovery : DeliveryRecoveryConfig) (accelerator : RealtimeDeliveryAcceleratorConfig) (payload_field : string -> PayloadField).
#[local] Abbreviation served_by := (serve_plane (TP := TP) (TS := TS) (T := T) scheduler_config capacity retry_limit recovery accelerator payload_field).

Lemma plane_run_ok s w : plane_ok s -> rtc (pool_step served_by) (mkPool [] s) w -> Forall proper (threads w).*1 -> plane_ok (shared w).
Proof using Type.
  intros Hs Hr Hall. pose (serve' := fun c => if decide (proper c) then served_by c else Ret (Ok tt)).
  assert (Hr' : rtc (pool_step serve') (mkPool [] s) w).
  { eapply pool_among; [|exact Hr|exact Hall]. intros c Hc. unfold serve'. by rewrite decide_True. }
  refine (proj1 (pool_wpr plane_ok saves serve' (fun _ _ _ => True) s w _ _ Hs Hr')); [done|].
  intros c s' Hs'. unfold serve'. case_decide; [by apply serve_safe_plane|done].
Qed.

(** C10.  Whatever the interleaving of workers, outbox polls, reconnections, recovery cycles,
    submissions, connections and clock changes, and whatever the channels answer: every
    envelope handed to a channel is the envelope of a record that was saved for the device
    of that channel, bit for bit (message, ciphertext, key material, algorithm and
    version); and no saved record is lost: its row stays in the table of pending
    deliveries, readable, and differs from what was saved in its status only. *)
Theorem envelopes_reach_their_device (repo : DeliveryStateRepository TP TS) (outbox : T) (steady system : Z) w
    (Hstart : pending_repr repo ∅)
    (Hrun : rtc (pool_step served_by) (mkPool [] (fresh_plane repo outbox steady system)) w)
    (Hsaves : Forall proper (threads w).*1) :
  (forall ch t, (ch, t) ∈ pl_sent (shared w) ->
     exists r, r ∈ pl_saved (shared w) /\ dr_device_id r = ch_device_id ch /\ tk_message_id t = dr_message_id r /\
       tk_conversation_id t = dr_conversation_id r /\ pe_ciphertext_blob (tk_envelope t) = dr_ciphertext_blob r /\
       pe_ephemeral_public_key (tk_envelope t) = dr_ephemeral_public_key r /\ pe_iv (tk_envelope t) = dr_iv r /\
       pe_auth_tag (tk_envelope t) = dr_auth_tag r /\ pe_algorithm (tk_envelope t) = dr_algorithm r /\
       pe_protocol_version (tk_envelope t) = dr_protocol_version r /\ pe_one_time_prekey_id (tk_envelope t) = dr_one_time_prekey_id r) /\
  (exists m, pending_repr (pl_repo (shared w)) m /\
     forall r, r ∈ pl_saved (shared w) ->
       exists x r', m !! pending_key r = Some x /\ r' ∈ pl_saved (shared w) /\ pending_key r' = pending_key r /\ row_of r' x).
Proof using Type.
  destruct (plane_run_ok _ w (fresh_ok repo outbox steady system Hstart) Hrun Hsaves) as [_ (m & Hm & Hfiled & Hrows) _ Hsent _]. split.
  - intros ch t Hin. destruct (proj1 (Forall_forall _ _) Hsent _ Hin) as [Hdev (r & Hr & Hmid & Hconv & Hd & _ & _ & Henv)]. cbn [fst snd] in *.
    exists r. rewrite Henv. split_and!; try reflexivity; congruence.
  - exists m. split; [done|]. intros r Hr. destruct (Hfiled r Hr) as [x Hx]. destruct (Hrows _ _ Hx) as (r' & Hr' & Hrow). exists x, r'.
    split_and!; [done|done| |done]. rewrite <-(row_of_key _ _ Hrow). destruct Hm as [_ Hm]. by destruct (map_Forall_lookup_1 _ _ _ _ Hm Hx) as (_ & _ & ?).
Qed.

(** ** One task, one worker *)

(** The channel a task can be sent over, if any. *)
Definition channel_for (s : Plane TP TS T) (t : DeliveryTask) : option Channel :=
  get_channel capacity (is_active s) (pl_steady s) (tk_recipient_device_id t) (pl_registry s).

(** Whether a failed attempt is tried again, at the current time. *)
Definition tries_again (s : Plane TP TS T) (t : DeliveryTask) : bool :=
  (i32 (tk_attempt_count t + 1) <? retry_limit) && match tk_expires_at t with Some e => pl_system s <? e | None => true end.

(** The status a record should have after an attempt: state, attempts, next retry. *)
Definition settled (s : Plane TP TS T) (t : DeliveryTask) (attempt : DeliveryAttemptResult) (delay : Z) : DeliveryState * Z * option Z :=
  match channel_for s t, attempt with
  | None, _ => (Queued, tk_attempt_count t, None)
  | Some _, Success => (Delivered, tk_attempt_count t, None)
  | Some _, RecipientOffline => (Queued, tk_attempt_count t, None)
  | Some _, TransientFailure =>
      if tries_again s t then (RetryWait, i32 (tk_attempt_count t + 1), Some (pl_system s + from_ms delay)) else (Expired, i32 (tk_attempt_count t + 1), None)
  | Some _, TerminalFailure => (Expired, tk_attempt_count t, None)
  end.

Lemma retryable_now now expires n :
  is_retryable retry_limit TransientFailure n (Some (default (now + from_hours (24 * 30)) expires)) now =
  (n <? retry_limit) && match expires with Some e => now <? e | None => true end.
Proof using Type.
  unfold is_retryable, from_hours, ns_per_s. rewrite !bool_decide_eq_false_2 by done. cbn [orb].
  destruct expires as [e|]; cbn [from_option]; unfold id; repeat case_match; lia.
Qed.

(** The status of the row of a task. *)
Lemma update_row (repo : DeliveryStateRepository TP TS) m d bucket a mid x st n nr :
  pending_repr repo m -> m !! update_key d bucket a mid = Some x ->
  pending_repr (update_device_delivery_status d bucket a mid st n nr repo) (<[update_key d bucket a mid := set_status st n (stored_time <$> nr) x]> m).
Proof using Type.
  intros Hm Hx. pose proof (pending_sim (UpdateStatus d bucket a mid st n nr) repo m Hm) as H. cbn [pending_step pending_spec pending_admissible] in H.
  rewrite Hx in H. apply H. by eexists.
Qed.

Lemma channel_active s t ch : channel_for s t = Some ch -> is_active s ch = true.
Proof using Type.
  unfold channel_for, get_channel. destruct (channels_ _ !! _) as [e|]; [|done]. destruct (leased capacity (is_active s) (pl_steady s) e) eqn:Hl; [|done].
  intros [= <-]. unfold leased in Hl. by apply andb_true_iff in Hl as [? _].
Qed.

#[local] Abbreviation worker_call := (process_single_task (TP := TP) (TS := TS) (T := T) scheduler_config capacity retry_limit).

(** C11.  A worker that takes a task nobody interferes with finishes it, and the record of
    the task ends in the state its outcome calls for: queued when the device has no live
    channel or went away, delivered when the channel took the envelope, waiting for a retry
    with one more attempt (and the task back in the scheduler) while attempts and lifetime
    last, expired otherwise; it is never left as being delivered.  The envelope is sent at
    most once, over the channel of the device; the acknowledgement and its event are
    written exactly when the delivery succeeded. *)
Theorem worker_settles_task (s : Plane TP TS T) m x t q b timeout attempt delay id
    (Hrepr : pending_repr (pl_repo s) m)
    (Hdequeue : dequeue scheduler_config timeout (pl_scheduler s) = Some (Some t, q))
    (Hbucket : from_time_point (tk_accepted_at t) = Ok b)
    (Hrow : m !! update_key (tk_recipient_device_id t) (bucket_value b) (tk_accepted_at t) (tk_message_id t) = Some x) :
  let '(r, s') := solo (worker_call timeout attempt delay id) s in
  let '(state, attempts, next_retry) := settled s t attempt delay in
  r = Ok true /\ state <> Delivering /\
  pending_repr (pl_repo s') (<[update_key (tk_recipient_device_id t) (bucket_value b) (tk_accepted_at t) (tk_message_id t) :=
                               set_status state attempts (stored_time <$> next_retry) x]> m) /\
  pl_sent s' = pl_sent s ++ (match channel_for s t with Some ch => [(ch, t)] | None => [] end) /\
  pl_scheduler s' = (match next_retry with
                     | Some at_ => snd (schedule scheduler_config (pl_system s) (with_schedule at_ (with_attempt attempts t)) q)
                     | None => q
                     end) /\
  (if bool_decide (state = Delivered)
   then state_table (pl_repo s') = state_table (record_delivery_ack (tk_message_id t) (tk_recipient_device_id t) (pl_system s) (pl_repo s)) /\
        pl_outbox s' = default (pl_outbox s) (enqueue_event (delivered_event id t (pl_system s)) EmptyString (pl_outbox s))
   else state_table (pl_repo s') = state_table (pl_repo s) /\ pl_outbox s' = pl_outbox s).
Proof using Type.
  set (key := update_key _ _ _ _) in *. pose proof (fun st n nr => update_row _ _ _ _ _ _ _ st n nr Hrepr Hrow) as Hup. fold key in Hup.
  assert (Hup2 : forall st1 n1 nr1 st n nr, pending_repr (update_device_delivery_status (tk_recipient_device_id t) (bucket_value b) (tk_accepted_at t) (tk_message_id t) st n nr
      (update_device_delivery_status (tk_recipient_device_id t) (bucket_value b) (tk_accepted_at t) (tk_message_id t) st1 n1 nr1 (pl_repo s)))
      (<[key := set_status st n (stored_time <$> nr) x]> m)).
  { intros. pose proof (update_row _ _ _ _ _ _ _ st n nr (Hup st1 n1 nr1) (lookup_insert_eq _ _ _)) as H. fold key in H. by rewrite insert_insert_eq in H. }
  unfold process_single_task, next_task. cbn [locked pbind solo]. rewrite Hdequeue. cbn [fst snd]. rewrite Hbucket.
  cbn [reading locked pbind solo fst snd]. unfold settled. pose proof (channel_active s t) as Hact.
  change (get_channel capacity (is_active (set_scheduler q s)) (pl_steady (set_scheduler q s)) (tk_recipient_device_id t) (pl_registry (set_scheduler q s))) with (channel_for s t).
  destruct (channel_for s t) as [ch|]; cbn [pbind solo reading locked fst snd].
  - change (is_active (set_scheduler q s) ch) with (is_active s ch). rewrite (Hact ch eq_refl).
    unfold mark_task, update_status, send_envelope. cbn [locked pbind solo fst snd]. destruct attempt.
    + cbn. split_and!; try done; apply Hup2.
    + cbn. split_and!; try done; apply Hup2.
    + unfold settle, system_now, reading. cbn [locked pbind solo fst snd]. cbn [with_attempt tk_attempt_count tk_expires_at].
      match goal with |- context [is_retryable ?a ?b ?c ?d ?e] => replace (is_retryable a b c d e) with (tries_again s t) by (symmetry; apply retryable_now) end.
      destruct (tries_again s t).
      * unfold mark_task, update_status, schedule_task. cbn [locked pbind solo fst snd]. cbn [pl_scheduler set_repo set_scheduler pl_system pl_repo].
        destruct (schedule _ _ _ _) as [st q'] eqn:Hsch. cbn. split_and!; try done; apply Hup2.
      * cbn. split_and!; try done; apply Hup2.
    + cbn. split_and!; try done; apply Hup2.
  - cbn. split_and!; try done; first [apply Hup|by rewrite app_nil_r].
Qed.
End guarantee.


(** ** Runs *)

#[local] Abbreviation sample_plane := (Plane (GTable PendingPartition PendingCluster) (GTable string string) (GTable string OutboxCluster)).

Definition no_field (payload : string) : PayloadField := NoMessageId.
Definition plane_capacity : ConnectionCapacityConfig := mkCapacity 10 100 0.
Definition sample_accelerator : RealtimeDeliveryAcceleratorConfig := mkAcceleratorConfig 50 (from_hours 168).

#[local] Abbreviation serve_sample :=
  (serve_plane (TP := GTable PendingPartition PendingCluster) (TS := GTable string string) (T := GTable string OutboxCluster)
     default_scheduler_config plane_capacity 5 default_recovery_config sample_accelerator no_field).

(** Calls one after the other. *)
Fixpoint served_one_by_one (calls : list PlaneCall) (w : Pool) : Pool :=
  match calls with
  | [] => w
  | c :: calls =>
      let r := scripted (serve_sample c) [] (shared w) in
      served_one_by_one calls (mkPool (threads w ++ [(c, Ret (fst r))]) (snd r))
  end.

Lemma served_run calls w : rtc (pool_step serve_sample) w (served_one_by_one calls w).
Proof.
  revert w. induction calls as [|c calls IH]; intros w; cbn [served_one_by_one]; [done|]. etransitivity; [|apply IH]. destruct w as [l s].
  apply (scripted_pool serve_sample c [] l s).
Qed.

Definition fresh_sample : sample_plane := fresh_plane empty_repo ∅ 0 0.
Definition after_plane (calls : list PlaneCall) : sample_plane := shared (served_one_by_one calls (mkPool [] fresh_sample)).

(** A message for one device, waiting for its second attempt. *)
Definition waiting (state : DeliveryState) (attempts : Z) : DeviceDeliveryRecord :=
  {| dr_device_id := mkDeviceId "phone"; dr_delivery_bucket := "197001"; dr_accepted_at := 0;
     dr_message_id := mkMessageId (replicate 16 1); dr_conversation_id := mkConversationId (replicate 16 2);
     dr_message_sequence := 7; dr_message_priority := Normal; dr_delivery_state := state;
     dr_attempt_count := attempts; dr_next_retry_at := None; dr_ciphertext_blob := "abc";
     dr_ephemeral_public_key := [3]; dr_iv := [1; 2]; dr_auth_tag := []; dr_algorithm := AES_256_GCM;
     dr_protocol_version := V2_Hybrid_PostQuantum; dr_one_time_prekey_id := None |}.

Definition phone_channel : Channel := mkChannel 1 (mkDeviceId "phone") (mkUserId "alice").
Definition work_succeeds : PlaneCall := Work 100 Success 0 (mkMessageId (replicate 16 9)).

Definition states_of_phone (s : sample_plane) : result exn (list DeliveryState) :=
  let? l := fetch_pending_for_device (mkDeviceId "phone") "197001" 10 (pl_repo s) in Ok (dr_delivery_state <$> l).

Definition delivery_run : list PlaneCall :=
  [SaveRecord (waiting Queued 0); Connect phone_channel; RecoveryCycle [mkDeviceId "phone"] EmptyString; work_succeeds].

Lemma envelopes_reach_their_device_witness :
  let s := after_plane delivery_run in
  length (pl_sent s) = 1%nat /\
  forall ch t, (ch, t) ∈ pl_sent s -> exists r, r ∈ pl_saved s /\ dr_device_id r = ch_device_id ch /\ pe_ciphertext_blob (tk_envelope t) = dr_ciphertext_blob r.
Proof.
  split; [vm_compute; reflexivity|].
  destruct (envelopes_reach_their_device default_scheduler_config plane_capacity 5 default_recovery_config sample_accelerator no_field empty_repo ∅ 0 0
              (served_one_by_one delivery_run (mkPool [] fresh_sample)) empty_pending_repr (served_run _ _)) as [H _].
  - apply (bool_decide_unpack _). vm_compute. exact I.
  - intros ch t Hin. destruct (H ch t Hin) as (r & Hr & Hd & _ & _ & Hc & _). exists r. split; [exact Hr|split; [exact Hd|exact Hc]].
Defined.

(** The state before the last call of the run above, for the contract of the worker. *)
Definition ready_plane : sample_plane := after_plane (take 3 delivery_run).

Lemma worker_settles_task_witness :
  exists t q b m x, dequeue default_scheduler_config 100 (pl_scheduler ready_plane) = Some (Some t, q) /\ from_time_point (tk_accepted_at t) = Ok b /\
    (let '(r, s') := solo (process_single_task default_scheduler_config plane_capacity 5 100 Success 0 (mkMessageId (replicate 16 9))) ready_plane in
     r = Ok true /\ pending_repr (pl_repo s') (<[update_key (mkDeviceId "phone") "197001" 0 (mkMessageId (replicate 16 1)) := set_status Delivered 0 None x]> m)).
Proof.
  pose (t := task_of no_user 0 (envelope_of no_user (mkDeviceId EmptyString) (waiting Queued 0)) (waiting Queued 0)).
  pose (m := {[update_key (mkDeviceId "phone") "197001" 0 (mkMessageId (replicate 16 1)) := waiting Queued 0]} : PendingMap).
  assert (Hm : pending_repr (pl_repo ready_plane) m).
  { apply (pending_sim (SavePending (waiting Queued 0)) empty_repo ∅ empty_pending_repr). apply (bool_decide_unpack _). vm_compute. exact I. }
  exists t. eexists. exists (mkBucket "197001" 1970 1), m, (waiting Queued 0). split; [vm_compute; reflexivity|]. split; [vm_compute; reflexivity|].
  pose proof (worker_settles_task default_scheduler_config plane_capacity 5 ready_plane m (waiting Queued 0) t (snd (dequeue_locked default_scheduler_config (pl_scheduler ready_plane)))
    (mkBucket "197001" 1970 1) 100 Success 0 (mkMessageId (replicate 16 9)) Hm eq_refl eq_refl eq_refl) as H.
  destruct (solo _ _) as [r s']. change (settled plane_capacity 5 ready_plane t Success 0) with (Delivered, 0, @None Z) in H. destruct H as (Hr & _ & Hp & _).
  split; [exact Hr|exact Hp].
Defined.

(** A recovery cycle schedules a record that waits for a retry twice: the sweep marks it
    queued and schedules it, and the recovery of pending records, which comes next, finds
    it queued and schedules it again.  Two workers send the same envelope. *)
Lemma retry_is_sent_twice :
  let start := [SaveRecord (waiting RetryWait 1); Connect phone_channel; RecoveryCycle [mkDeviceId "phone"] EmptyString] in
  global_queue_depth (pl_scheduler (after_plane start)) = 2 /\
  (fun ct => tk_message_id ct.2) <$> pl_sent (after_plane (start ++ [work_succeeds; work_succeeds])) = [mkMessageId (replicate 16 1); mkMessageId (replicate 16 1)].
Proof. vm_compute. by split. Qed.

(** A second task of a delivered message takes its record back to queued when the device
    has gone away: the worker writes the status without looking at it. *)
Lemma delivered_goes_back_to_queued :
  let start := [SaveRecord (waiting RetryWait 1); Connect phone_channel; RecoveryCycle [mkDeviceId "phone"] EmptyString; work_succeeds] in
  states_of_phone (after_plane start) = Ok [Delivered] /\
  states_of_phone (after_plane (start ++ [Disconnect (mkDeviceId "phone"); work_succeeds])) = Ok [Queued].
Proof. vm_compute. by split. Qed.

(** Events the consumer does not handle stay pending and fill its batches: a message behind
    them is not dispatched however often it polls. *)
Lemma other_events_block_consumer :
  let text := fun (_ : string) => Text (MessageId_to_string (mkMessageId (replicate 16 1))) in
  let event := fun id kind => mkOutboxEvent id (mkConversationId (replicate 16 2)) kind "{}" 0 in
  let poll := serve_plane (TP := GTable PendingPartition PendingCluster) (TS := GTable string string) (T := GTable string OutboxCluster)
                default_scheduler_config plane_capacity 5 default_recovery_config sample_accelerator text in
  let run := fun calls => foldl (fun s c => snd (solo (poll c) s)) fresh_sample calls in
  let state := mkRecipientState (mkMessageId (replicate 16 1)) (mkDeviceId "phone") (mkUserId "alice") Queued None None in
  let base := [SaveRecord (waiting Queued 0); SaveRecipient state; Connect phone_channel] in
  let polls := replicate 10 (Consume "1970010100" 1) in
  global_queue_depth (pl_scheduler (run (base ++ [Announce (event "b" MessageSent)] ++ polls))) = 1 /\
  global_queue_depth (pl_scheduler (run (base ++ [Announce (event "a" ConversationCreated); Announce (event "b" MessageSent)] ++ polls))) = 0.
Proof. vm_compute. by split. Qed.
