(* ===== verification/Envelopes.v ===== *)
(** * Envelopes and their recipients

    Before a message is accepted, its envelope is checked, and its targets are compared
    with the devices the auth service knows:

    - [src/messaging/service/protocol_version_policy.cpp]: versions, algorithms and sizes;
    - [src/messaging/service/e2e_envelope_validator.cpp]: the rules for an envelope;
    - [src/messaging/service/recipient_device_resolution_service.cpp]: the devices of a
      user, kept in a bounded cache for some time, and the check of the targets.

    The directory of the auth service is reached by a remote call: [dw_answers_] is how it
    answers now, and changes at any time.  A lookup is a program: the cache, the call and
    the cache again, with other threads in between.  Every answer of the auth service is
    kept in a list.  The texts of refusals are left out. *)

From S2P Require Import Prelude Ids Base32 DeliveryTypes Submission Prog RateLimiter Scheduler.
From Stdlib Require Import Ascii.
#[local] Open Scope Z_scope.

(** ** [protocol_version_policy.cpp] *)

Definition k_max_ciphertext_bytes : Z := 16 * 1024 * 1024.
Definition k_min_ephemeral_key_bytes : Z := 32.
Definition k_min_auth_tag_bytes : Z := 16.
Definition k_min_xchacha20_iv_bytes : Z := 24.
Definition k_min_aes_gcm_iv_bytes : Z := 12.

Definition is_supported_protocol_version (v : E2EProtocolVersion) : bool :=
  match v with V1_Signal_PQXDH_DoubleRatchet | V2_Hybrid_PostQuantum => true | ProtoUnspecified => false end.

Definition is_supported_version_number (version_raw : Z) : bool :=
  match e2e_protocol_version_from_int version_raw with Some v => is_supported_protocol_version v | None => false end.

Definition is_approved_algorithm (a : E2EAlgorithm) : bool :=
  match a with XChaCha20_Poly1305 | AES_256_GCM => true | AlgoUnspecified => false end.

Definition is_approved_algorithm_name (algo_str : string) : bool :=
  match e2e_algorithm_from_string algo_str with Some a => is_approved_algorithm a | None => false end.

Definition get_canonical_algorithm_name (a : E2EAlgorithm) : string :=
  match a with XChaCha20_Poly1305 => "XChaCha20-Poly1305" | AES_256_GCM => "AES-256-GCM" | AlgoUnspecified => "UNSPECIFIED" end.

Definition get_minimum_iv_size (a : E2EAlgorithm) : Z :=
  match a with XChaCha20_Poly1305 => k_min_xchacha20_iv_bytes | AES_256_GCM => k_min_aes_gcm_iv_bytes | AlgoUnspecified => 0 end.
Definition get_minimum_auth_tag_size (a : E2EAlgorithm) : Z := if is_approved_algorithm a then k_min_auth_tag_bytes else 0.
Definition get_minimum_ephemeral_key_size (a : E2EAlgorithm) : Z := if is_approved_algorithm a then k_min_ephemeral_key_bytes else 0.

(** Why an envelope is refused; only the text of [TooLarge] says "exceeds maximum". *)
Inductive EnvelopeFault := BadVersion | BadAlgorithm | NoCiphertext | TooLarge | ShortIv | ShortTag | ShortKey.

Definition validate_envelope_security (e : PerDeviceEnvelope) : option EnvelopeFault :=
  if negb (is_supported_protocol_version (pe_protocol_version e)) then Some BadVersion
  else if negb (is_approved_algorithm (pe_algorithm e)) then Some BadAlgorithm
  else if bool_decide (pe_ciphertext_blob e = EmptyString) then Some NoCiphertext
  else if k_max_ciphertext_bytes <? Z.of_nat (String.length (pe_ciphertext_blob e)) then Some TooLarge
  else if Z.of_nat (length (pe_iv e)) <? get_minimum_iv_size (pe_algorithm e) then Some ShortIv
  else if Z.of_nat (length (pe_auth_tag e)) <? get_minimum_auth_tag_size (pe_algorithm e) then Some ShortTag
  else if Z.of_nat (length (pe_ephemeral_public_key e)) <? get_minimum_ephemeral_key_size (pe_algorithm e) then Some ShortKey
  else None.

(** ** The guard against plain text *)

Fixpoint skip_space (l : list ascii) : list ascii := match l with c :: l' => if isspace c then skip_space l' else l | [] => [] end.

Definition printable (c : ascii) : bool :=
  let n := Z.of_N (N_of_ascii c) in ((32 <=? n) && (n <=? 126)) || bool_decide (c ∈ ["010"; "013"; "009"]%char).

(** The literal 0.90 is the double nearest to 9/10. *)
Definition ninety_percent : double := ddiv (to_double 9) (to_double 10).

Definition looks_like_json (sample : list ascii) : bool :=
  match skip_space sample with
  | c :: d :: _ =>
      (bool_decide (c = "{"%char) && bool_decide (d ∈ [chr 34; " "; "010"]%char))
      || (bool_decide (c = "["%char) && bool_decide (d ∈ ["{"; chr 34]%char))
  | _ => false
  end.

Definition is_suspected_unencrypted_plaintext (payload : string) : bool :=
  if bool_decide (payload = EmptyString) then false
  else
    let sample := take 256 (chars payload) in
    let sample_len := Z.of_nat (length sample) in
    if looks_like_json sample then true
    else if 16 <=? sample_len then
      dle ninety_percent (ddiv (to_double (Z.of_nat (length (List.filter printable sample)))) (to_double sample_len))
    else false.

(** ** The directory of devices *)

Inductive ProtoDeviceStatus := DEVICE_STATUS_UNSPECIFIED | DEVICE_STATUS_ACTIVE | DEVICE_STATUS_REVOKED | DEVICE_STATUS_PENDING_AUTHORIZATION.

#[export] Instance ProtoDeviceStatus_eq_dec : EqDecision ProtoDeviceStatus.
Proof. solve_decision. Defined.

(** The keys a record also carries are not looked at here. *)
Record DeviceCryptoRecord := mkCryptoRecord { cr_device_id : DeviceId; cr_user_id : UserId; cr_status : ProtoDeviceStatus }.

#[export] Instance DeviceCryptoRecord_eq_dec : EqDecision DeviceCryptoRecord.
Proof. solve_decision. Defined.

Inductive CryptoDirectoryErrorKind :=
  DirTimeout | DirServiceUnavailable | DirUnauthenticated | DirPermissionDenied | DirInvalidArgument | DirNotFound | DirInternal.

(** An entry also holds an iterator to the node of its key in the list; the node is the
    one that holds the key. *)
Record DirectoryEntry := mkDirEntry { de_records : list DeviceCryptoRecord; de_cached_at : Z }.
Record DeviceDirectoryCache := mkDirCache { dc_entries : gmap UserId DirectoryEntry; dc_lru : list UserId }.

Definition empty_directory_cache : DeviceDirectoryCache := mkDirCache ∅ [].

Definition remove_user (u : UserId) (l : list UserId) : list UserId := List.filter (fun x => negb (bool_decide (x = u))) l.

(** [capacity_(capacity > 0 ? capacity : 1)]. *)
Definition directory_capacity (capacity : Z) : Z := if 0 <? capacity then capacity else 1.

Definition cache_get (ttl now : Z) (u : UserId) (c : DeviceDirectoryCache) : option (list DeviceCryptoRecord) * DeviceDirectoryCache :=
  match dc_entries c !! u with
  | None => (None, c)
  | Some e =>
      if ttl <? now - de_cached_at e then (None, mkDirCache (delete u (dc_entries c)) (remove_user u (dc_lru c)))
      else (Some (de_records e), mkDirCache (dc_entries c) (u :: remove_user u (dc_lru c)))
  end.

Definition cache_put (capacity now : Z) (u : UserId) (records : list DeviceCryptoRecord) (c : DeviceDirectoryCache) : DeviceDirectoryCache :=
  match dc_entries c !! u with
  | Some _ => mkDirCache (<[u := mkDirEntry records now]> (dc_entries c)) (u :: remove_user u (dc_lru c))
  | None =>
      let '(entries, lru) :=
        match last (dc_lru c) with
        | Some oldest =>
            if directory_capacity capacity <=? Z.of_nat (size (dc_entries c)) then (delete oldest (dc_entries c), removelast (dc_lru c))
            else (dc_entries c, dc_lru c)
        | None => (dc_entries c, dc_lru c)
        end in
      mkDirCache (<[u := mkDirEntry records now]> entries) (u :: lru)
  end.

Definition cache_invalidate (u : UserId) (c : DeviceDirectoryCache) : DeviceDirectoryCache :=
  match dc_entries c !! u with Some _ => mkDirCache (delete u (dc_entries c)) (remove_user u (dc_lru c)) | None => c end.

Definition mentions (d : DeviceId) (e : DirectoryEntry) : bool := existsb (fun r => bool_decide (cr_device_id r = d)) (de_records e).

Definition invalidate_users (users_to_invalidate : list UserId) (c : DeviceDirectoryCache) : DeviceDirectoryCache :=
  foldl (fun c u => cache_invalidate u c) c users_to_invalidate.

Definition users_to_invalidate (d : DeviceId) (c : DeviceDirectoryCache) : list UserId :=
  (map_to_list (filter (fun ue => mentions d ue.2 = true) (dc_entries c))).*1.

Definition cache_invalidate_device (d : DeviceId) (c : DeviceDirectoryCache) : DeviceDirectoryCache := invalidate_users (users_to_invalidate d c) c.

Definition directory_cache_size (c : DeviceDirectoryCache) : Z := Z.of_nat (size (dc_entries c)).

(** ** What the threads share *)

Record DirectoryWorld := mkDirWorld {
  dw_cache : DeviceDirectoryCache;
  dw_now : Z;
  dw_answers_ : UserId -> result CryptoDirectoryErrorKind (list DeviceCryptoRecord);
  dw_log : list (UserId * list DeviceCryptoRecord) }.

Definition set_dir_cache (c : DeviceDirectoryCache) (s : DirectoryWorld) : DirectoryWorld := mkDirWorld c (dw_now s) (dw_answers_ s) (dw_log s).

Abbreviation dprog A := (prog DirectoryWorld A).

(** The remote call. *)
Definition ask_directory (u : UserId) : dprog (result CryptoDirectoryErrorKind (list DeviceCryptoRecord)) :=
  locked (fun s => match dw_answers_ s u with
                   | Ok records => (Ok records, mkDirWorld (dw_cache s) (dw_now s) (dw_answers_ s) (dw_log s ++ [(u, records)]))
                   | Err e => (Err e, s)
                   end).

(** ** [recipient_device_resolution_service.cpp] *)

Inductive Verdict := Accepted (omitted : list DeviceId) | Refused (code : MessagingErrorCode) (omitted : list DeviceId).

Definition is_active_record (r : DeviceCryptoRecord) : bool := bool_decide (cr_status r = DEVICE_STATUS_ACTIVE).
Definition find_device (d : DeviceId) (records : list DeviceCryptoRecord) : option DeviceCryptoRecord :=
  List.find (fun r => bool_decide (cr_device_id r = d)) records.

(** The first fault a loop over the targets meets. *)
Fixpoint first_fault {A E} (fault : A -> option E) (l : list A) : option E :=
  match l with [] => None | a :: l => match fault a with Some e => Some e | None => first_fault fault l end end.

Section resolution.
Context (capacity ttl : Z).

Definition resolve_devices_for_user (u : UserId) : dprog (result CryptoDirectoryErrorKind (list DeviceCryptoRecord)) :=
  let* cached := locked (fun s => let '(r, c) := cache_get ttl (dw_now s) u (dw_cache s) in (r, set_dir_cache c s)) in
  match cached with
  | Some records => Ret (Ok records)
  | None =>
      try* records := ask_directory u in
      let* _ := locked (fun s => (tt, set_dir_cache (cache_put capacity (dw_now s) u records (dw_cache s)) s)) in
      Ret (Ok records)
  end.

Fixpoint resolve_devices_for_users (us : list UserId) (m : gmap UserId (list DeviceCryptoRecord))
    : dprog (result CryptoDirectoryErrorKind (gmap UserId (list DeviceCryptoRecord))) :=
  match us with
  | [] => Ret (Ok m)
  | u :: us =>
      if bool_decide (is_Some (m !! u)) then resolve_devices_for_users us m
      else try* records := resolve_devices_for_user u in resolve_devices_for_users us (<[u := records]> m)
  end.

Section targets.
Context (participants : list UserId) (targets : list PerDeviceEnvelope) (sender_device : DeviceId) (sender_user : UserId).

(** Step 1. *)
Definition membership_fault (t : PerDeviceEnvelope) : option MessagingErrorCode :=
  if negb (DeviceId_empty sender_device) && bool_decide (pe_recipient_device_id t = sender_device) then Some INVALID_TARGET_DEVICE
  else if negb (bool_decide (pe_recipient_user_id t ∈ participants)) then Some NOT_A_PARTICIPANT
  else None.

(** Step 2. *)
Definition query_users : list UserId :=
  if negb (UserId_empty sender_user) && negb (bool_decide (sender_user ∈ participants)) then participants ++ [sender_user] else participants.

(** Step 3. *)
Definition device_fault (dir : gmap UserId (list DeviceCryptoRecord)) (t : PerDeviceEnvelope) : option MessagingErrorCode :=
  match dir !! pe_recipient_user_id t with
  | None => Some NOT_A_PARTICIPANT
  | Some records =>
      match find_device (pe_recipient_device_id t) records with
      | None => Some INVALID_TARGET_DEVICE
      | Some r => if is_active_record r then None else Some DEVICE_REVOKED
      end
  end.

(** Step 4: a sender device the directory does not list passes. *)
Definition sender_fault (dir : gmap UserId (list DeviceCryptoRecord)) : option MessagingErrorCode :=
  if negb (DeviceId_empty sender_device) && negb (UserId_empty sender_user) then
    match dir !! sender_user ≫= find_device sender_device with
    | Some r => if is_active_record r then None else Some DEVICE_REVOKED
    | None => None
    end
  else None.

(** Step 5. *)
Definition targeted (u : UserId) (d : DeviceId) : bool :=
  existsb (fun t => bool_decide (pe_recipient_user_id t = u) && bool_decide (pe_recipient_device_id t = d)) targets.

Definition untargeted (u : UserId) (records : list DeviceCryptoRecord) : list DeviceId :=
  cr_device_id <$> List.filter (fun r => is_active_record r && negb (targeted u (cr_device_id r))) records.

Definition omitted_recipients (dir : gmap UserId (list DeviceCryptoRecord)) : list DeviceId :=
  concat ((fun u => if bool_decide (u = sender_user) then [] else untargeted u (default [] (dir !! u))) <$> participants).

Definition omitted_companions (dir : gmap UserId (list DeviceCryptoRecord)) : list DeviceId :=
  if UserId_empty sender_user then []
  else untargeted sender_user (List.filter (fun r => negb (bool_decide (cr_device_id r = sender_device))) (default [] (dir !! sender_user))).

Definition judge (enforce_completeness : bool) (dir : gmap UserId (list DeviceCryptoRecord)) : Verdict :=
  match first_fault (device_fault dir) targets with
  | Some e => Refused e []
  | None =>
      match sender_fault dir with
      | Some e => Refused e []
      | None =>
          let omitted := omitted_recipients dir ++ omitted_companions dir in
          if enforce_completeness && negb (bool_decide (omitted = [])) then Refused INVALID_TARGET_DEVICE omitted else Accepted omitted
      end
  end.

Definition validate_submission_targets (enforce_completeness : bool) : dprog Verdict :=
  if bool_decide (targets = []) then Ret (Refused INVALID_TARGET_DEVICE [])
  else
    match first_fault membership_fault targets with
    | Some e => Ret (Refused e [])
    | None =>
        let* r := resolve_devices_for_users query_users ∅ in
        match r with
        | Err _ => Ret (Refused UNSPECIFIED [])
        | Ok dir => Ret (judge enforce_completeness dir)
        end
    end.
End targets.

Definition get_device_status (u : UserId) (d : DeviceId) : dprog (option ProtoDeviceStatus) :=
  let* r := resolve_devices_for_user u in
  Ret (match r with Ok records => cr_status <$> find_device d records | Err _ => None end).

(** ** [e2e_envelope_validator.cpp] *)

Record E2EMessageEnvelope := mkE2E {
  ee_sender_user_id : UserId; ee_sender_device_id : DeviceId; ee_protocol_version : E2EProtocolVersion; ee_per_device_envelopes : list PerDeviceEnvelope }.

(** The ids of [MessagingCallerContext]. *)
Record EnvelopeCaller := mkEnvCaller { ec_user_id : string; ec_device_id : string }.

Definition envelope_fault (e : PerDeviceEnvelope) : option MessagingErrorCode :=
  if negb (is_supported_protocol_version (pe_protocol_version e)) then Some UNSPECIFIED
  else
    match validate_envelope_security e with
    | Some TooLarge => Some PAYLOAD_TOO_LARGE
    | Some _ => Some INVALID_TARGET_DEVICE
    | None => if is_suspected_unencrypted_plaintext (pe_ciphertext_blob e) then Some INVALID_TARGET_DEVICE else None
    end.

Definition validate_envelope (env : E2EMessageEnvelope) (caller : EnvelopeCaller) (participants : list UserId) (enforce_completeness : bool) : dprog Verdict :=
  if negb (bool_decide (ec_user_id caller = user_str (ee_sender_user_id env))) then Ret (Refused NOT_A_PARTICIPANT [])
  else if negb (bool_decide (ec_device_id caller = EmptyString)) && negb (bool_decide (ec_device_id caller = device_str (ee_sender_device_id env)))
  then Ret (Refused DEVICE_REVOKED [])
  else if negb (is_supported_protocol_version (ee_protocol_version env)) then Ret (Refused UNSPECIFIED [])
  else if bool_decide (ee_per_device_envelopes env = []) then Ret (Refused INVALID_TARGET_DEVICE [])
  else
    match first_fault envelope_fault (ee_per_device_envelopes env) with
    | Some e => Ret (Refused e [])
    | None => validate_submission_targets participants (ee_per_device_envelopes env) (ee_sender_device_id env) (ee_sender_user_id env) enforce_completeness
    end.

(** ** Calls *)

Inductive DirectoryCall :=
  | ValidateEnvelope (env : E2EMessageEnvelope) (caller : EnvelopeCaller) (participants : list UserId) (enforce_completeness : bool)
  | DeviceStatusOf (u : UserId) (d : DeviceId)
  | InvalidateUser (u : UserId)
  | InvalidateDevice (d : DeviceId)
  | ClearDirectory
  | TimePasses (now : Z)
  | AuthAnswers (answers : UserId -> result CryptoDirectoryErrorKind (list DeviceCryptoRecord)).

Definition updated (f : DirectoryWorld -> DirectoryWorld) : dprog (option Verdict) := locked (fun s => (None, f s)).

Definition serve_directory (c : DirectoryCall) : dprog (option Verdict) :=
  match c with
  | ValidateEnvelope env caller participants enforce => let* v := validate_envelope env caller participants enforce in Ret (Some v)
  | DeviceStatusOf u d => let* _ := get_device_status u d in Ret None
  | InvalidateUser u => updated (fun s => set_dir_cache (cache_invalidate u (dw_cache s)) s)
  | InvalidateDevice d => updated (fun s => set_dir_cache (cache_invalidate_device d (dw_cache s)) s)
  | ClearDirectory => updated (fun s => set_dir_cache empty_directory_cache s)
  | TimePasses now => updated (fun s => mkDirWorld (dw_cache s) now (dw_answers_ s) (dw_log s))
  | AuthAnswers answers => updated (fun s => mkDirWorld (dw_cache s) (dw_now s) answers (dw_log s))
  end.
End resolution.

(** ** The guard, without doubles *)

(** A text: it starts like a JSON object or list, or nine characters out of ten are
    printable. *)
Definition plain_text (payload : string) : Prop :=
  let sample := take 256 (chars payload) in
  looks_like_json sample = true \/
  (16 <= length sample /\ 9 * length sample <= 10 * length (List.filter printable sample))%nat.

Lemma ratios_agree :
  forallb (fun len => let d := to_double len in
    forallb (fun count => Bool.eqb (dle ninety_percent (ddiv (to_double count) d)) (9 * len <=? 10 * count)) (seqZ 0 (len + 1)))
    (seqZ 1 256) = true.
Proof. vm_compute. reflexivity. Qed.

(** The rounding of the quotient never matters. *)
Lemma ratio_exact (len count : Z) :
  1 <= len <= 256 -> 0 <= count <= len -> dle ninety_percent (ddiv (to_double count) (to_double len)) = (9 * len <=? 10 * count).
Proof.
  intros Hlen Hcount. pose proof ratios_agree as H. rewrite forallb_forall in H. specialize (H len). rewrite <-list_elem_of_In, elem_of_seqZ in H.
  specialize (H ltac:(lia)). cbv beta zeta in H. rewrite forallb_forall in H. specialize (H count). rewrite <-list_elem_of_In, elem_of_seqZ in H.
  apply Bool.eqb_prop, H. lia.
Qed.

Lemma guard_means payload : is_suspected_unencrypted_plaintext payload = true <-> plain_text payload.
Proof.
  unfold is_suspected_unencrypted_plaintext, plain_text. case_bool_decide as Hempty.
  { subst payload. split; [discriminate|]. cbn. intros [?|[? _]]; [discriminate|lia]. }
  cbv zeta. set (sample := take 256 (chars payload)). destruct (looks_like_json sample); [split; auto|].
  assert (Hlen : (length sample <= 256)%nat) by (unfold sample; rewrite length_take; lia).
  pose proof (List.filter_length_le printable sample) as Hcount. destruct (Z.leb_spec 16 (Z.of_nat (length sample))).
  - rewrite ratio_exact by lia. rewrite Z.leb_le. split; [right; split; lia|]. intros [?|[_ ?]]; [discriminate|lia].
  - split; [discriminate|]. intros [?|[? _]]; [discriminate|lia].
Qed.

(** The names of the approved algorithms, and no others, are approved. *)
Lemma canonical_names_approved a : is_approved_algorithm_name (get_canonical_algorithm_name a) = is_approved_algorithm a.
Proof. by destruct a. Qed.

(** ** The cache *)

Definition cache_ok (capacity : Z) (c : DeviceDirectoryCache) : Prop :=
  NoDup (dc_lru c) /\ (forall u, u ∈ dc_lru c <-> is_Some (dc_entries c !! u)) /\ directory_cache_size c <= directory_capacity capacity.

Lemma elem_of_remove_user u x l : x ∈ remove_user u l <-> x ∈ l /\ x <> u.
Proof. unfold remove_user. rewrite !list_elem_of_In, filter_In. case_bool_decide; cbn; naive_solver. Qed.

Lemma NoDup_remove_user u l : NoDup l -> NoDup (remove_user u l).
Proof. rewrite !NoDup_ListNoDup. apply List.NoDup_filter. Qed.

Lemma capacity_positive capacity : 1 <= directory_capacity capacity.
Proof. unfold directory_capacity. destruct (Z.ltb_spec 0 capacity); lia. Qed.

(** Dropping a user, and moving it to the front. *)
Lemma cache_drop capacity u c :
  cache_ok capacity c -> cache_ok capacity (mkDirCache (delete u (dc_entries c)) (remove_user u (dc_lru c))).
Proof.
  intros (Hnd & Hdom & Hsize). unfold cache_ok, directory_cache_size in *. cbn [dc_lru dc_entries]. split_and!.
  - by apply NoDup_remove_user.
  - intros x. rewrite elem_of_remove_user, Hdom, lookup_delete_is_Some. naive_solver.
  - rewrite map_size_delete. destruct (dc_entries c !! u); cbn; lia.
Qed.

Lemma cache_front capacity u c entries :
  cache_ok capacity c -> is_Some (dc_entries c !! u) -> dom entries = dom (dc_entries c) ->
  cache_ok capacity (mkDirCache entries (u :: remove_user u (dc_lru c))).
Proof.
  intros (Hnd & Hdom & Hsize) Hu Heq. unfold cache_ok, directory_cache_size in *. cbn [dc_lru dc_entries]. split_and!.
  - constructor; [rewrite elem_of_remove_user; naive_solver|by apply NoDup_remove_user].
  - intros x. rewrite elem_of_cons, elem_of_remove_user, Hdom, <-!elem_of_dom, Heq, !elem_of_dom. destruct (decide (x = u)); naive_solver.
  - by rewrite <-size_dom, Heq, size_dom.
Qed.

Lemma cache_get_ok capacity ttl now u c : cache_ok capacity c -> cache_ok capacity (snd (cache_get ttl now u c)).
Proof.
  intros Hok. unfold cache_get. destruct (dc_entries c !! u) as [e|] eqn:Hu; [|done]. destruct (_ <? _); cbn [snd].
  - by apply cache_drop.
  - by apply cache_front.
Qed.

Lemma cache_put_ok capacity now u records c : cache_ok capacity c -> cache_ok capacity (cache_put capacity now u records c).
Proof.
  intros Hok. unfold cache_put. destruct (dc_entries c !! u) as [e|] eqn:Hu.
  { apply cache_front; [done|done|]. apply dom_insert_lookup_L. by rewrite Hu. }
  destruct Hok as (Hnd & Hdom & Hsize). unfold cache_ok, directory_cache_size in *. pose proof (capacity_positive capacity).
  assert (Hu' : u ∉ dc_lru c) by (rewrite Hdom, Hu; by intros [? ?]).
  destruct (last (dc_lru c)) as [oldest|] eqn:Hlast.
  - apply last_Some in Hlast as [l Hl]. destruct (Z.leb_spec (directory_capacity capacity) (Z.of_nat (size (dc_entries c)))); cbn [dc_lru dc_entries].
    + rewrite Hl in *. rewrite removelast_last. apply NoDup_app in Hnd as (Hnd & Hout & _).
      assert (Hold : is_Some (dc_entries c !! oldest)) by (apply Hdom, elem_of_app; right; by constructor).
      assert (Hul : u ∉ l) by (intros ?; apply Hu', elem_of_app; by left). split_and!; [by constructor| |].
      * intros x. rewrite elem_of_cons, lookup_insert_is_Some, lookup_delete_is_Some, <-Hdom, elem_of_app, list_elem_of_singleton.
        assert (x ∈ l -> x <> oldest) by (intros Hx ->; by apply (Hout _ Hx), list_elem_of_singleton).
        destruct (decide (x = u)); naive_solver.
      * destruct Hold as [e Hold]. rewrite map_size_insert, map_size_delete, Hold, (proj2 (lookup_delete_None _ _ _) (or_intror Hu)).
        assert (size (dc_entries c) <> 0%nat) by (rewrite map_size_ne_0_lookup; eauto). cbn. lia.
    + split_and!; [by constructor| |].
      * intros x. rewrite elem_of_cons, lookup_insert_is_Some, Hdom. destruct (decide (x = u)); naive_solver.
      * rewrite map_size_insert, Hu. cbn. lia.
  - apply last_None in Hlast. rewrite Hlast in *. assert (Hemp : dc_entries c = ∅).
    { apply map_eq. intros x. rewrite lookup_empty. destruct (dc_entries c !! x) eqn:Hx; [|done].
      assert (Hin : x ∈ ([] : list UserId)) by (apply Hdom; by rewrite Hx). by apply elem_of_nil in Hin. }
    rewrite Hemp. cbn [dc_lru dc_entries]. split_and!; [apply NoDup_singleton| |].
    + intros x. rewrite list_elem_of_singleton, lookup_insert_is_Some, lookup_empty. destruct (decide (x = u)); [naive_solver|].
      split; [done|]. intros [?|[_ [? ?]]]; congruence.
    + rewrite map_size_insert, lookup_empty, map_size_empty. cbn. lia.
Qed.

Lemma cache_invalidate_ok capacity u c : cache_ok capacity c -> cache_ok capacity (cache_invalidate u c).
Proof. intros Hok. unfold cache_invalidate. destruct (_ !! u); [by apply cache_drop|done]. Qed.

Lemma invalidate_users_ok capacity l c : cache_ok capacity c -> cache_ok capacity (invalidate_users l c).
Proof. revert c. induction l as [|u l IH]; intros c Hok; [done|]. by apply (IH (cache_invalidate u c)), cache_invalidate_ok. Qed.

Lemma empty_cache_ok capacity : cache_ok capacity empty_directory_cache.
Proof.
  pose proof (capacity_positive capacity). unfold cache_ok, directory_cache_size, empty_directory_cache. cbn [dc_lru dc_entries].
  rewrite map_size_empty. split_and!; [apply NoDup_nil_2| |lia]. 
  intros u. rewrite elem_of_nil, lookup_empty. split; [done|]. by intros [? ?].
Qed.

(** Where the records of the cache come from. *)
Definition recorded (log : list (UserId * list DeviceCryptoRecord)) (c : DeviceDirectoryCache) : Prop :=
  forall u e, dc_entries c !! u = Some e -> (u, de_records e) ∈ log.

Lemma cache_invalidate_sub u c : dc_entries (cache_invalidate u c) ⊆ dc_entries c.
Proof. unfold cache_invalidate. destruct (_ !! u); [apply delete_subseteq|done]. Qed.

Lemma invalidate_users_sub l c : dc_entries (invalidate_users l c) ⊆ dc_entries c.
Proof. revert c. induction l as [|u l IH]; intros c; [done|]. etrans; [apply (IH (cache_invalidate u c))|apply cache_invalidate_sub]. Qed.

Lemma invalidate_users_gone u l c : u ∈ l -> dc_entries (invalidate_users l c) !! u = None.
Proof.
  revert c. induction l as [|v l IH]; intros c Hu; [by apply elem_of_nil in Hu|].
  apply elem_of_cons in Hu as [<-|Hu]; [|by apply (IH (cache_invalidate v c))].
  apply (lookup_weaken_None _ (dc_entries (cache_invalidate u c))); [|apply (invalidate_users_sub l (cache_invalidate u c))].
  unfold cache_invalidate. destruct (dc_entries c !! u) eqn:Hc; [apply lookup_delete_eq|done].
Qed.

Lemma cache_get_sub ttl now u c : dc_entries (snd (cache_get ttl now u c)) ⊆ dc_entries c.
Proof. unfold cache_get. destruct (_ !! u); [|done]. destruct (_ <? _); [apply delete_subseteq|done]. Qed.

(** What the cache gives back was put there at most [ttl] ago. *)
Lemma cache_get_fresh ttl now u c records :
  fst (cache_get ttl now u c) = Some records ->
  exists e, dc_entries c !! u = Some e /\ de_records e = records /\ now - de_cached_at e <= ttl.
Proof.
  unfold cache_get. destruct (dc_entries c !! u) as [e|]; [|discriminate]. destruct (Z.ltb_spec ttl (now - de_cached_at e)); [discriminate|].
  intros [= <-]. by exists e.
Qed.

Lemma cache_put_entry capacity now u records c v e :
  dc_entries (cache_put capacity now u records c) !! v = Some e -> (v = u /\ e = mkDirEntry records now) \/ dc_entries c !! v = Some e.
Proof.
  unfold cache_put. destruct (dc_entries c !! u) eqn:Hu; [|destruct (last _); [destruct (_ <=? _)|]]; cbn [dc_entries];
    rewrite lookup_insert_Some; try rewrite lookup_delete_Some; naive_solver.
Qed.

Lemma recorded_sub log c c' : recorded log c -> dc_entries c' ⊆ dc_entries c -> recorded log c'.
Proof. intros Hr Hsub u e Hu. apply Hr. by eapply lookup_weaken. Qed.

(** After a device is invalidated, no entry mentions it. *)
Lemma invalidated_device_gone d c u e : dc_entries (cache_invalidate_device d c) !! u = Some e -> mentions d e = false.
Proof.
  intros Hu. destruct (mentions d e) eqn:Hm; [exfalso|done]. unfold cache_invalidate_device in Hu. rewrite invalidate_users_gone in Hu; [discriminate|].
  apply list_elem_of_fmap. exists (u, e). split; [done|]. apply elem_of_map_to_list, map_lookup_filter_Some. split; [|done].
  eapply lookup_weaken; [exact Hu|apply invalidate_users_sub].
Qed.

(** ** Threads *)

Definition directory_inv (capacity : Z) (s : DirectoryWorld) : Prop := cache_ok capacity (dw_cache s) /\ recorded (dw_log s) (dw_cache s).

Definition answers_kept (s s' : DirectoryWorld) : Prop := dw_log s `prefix_of` dw_log s'.

#[export] Instance answers_kept_preorder : PreOrder answers_kept.
Proof. split; [intros s; unfold answers_kept; reflexivity|]. intros s1 s2 s3. unfold answers_kept. by etrans. Qed.

Lemma same_answers s s' : dw_log s' = dw_log s -> answers_kept s s'.
Proof. unfold answers_kept. by intros ->. Qed.

Lemma answers_kept_in s s' x : answers_kept s s' -> x ∈ dw_log s -> x ∈ dw_log s'.
Proof. intros [l ->] Hx. apply elem_of_app. by left. Qed.

Section runs.
Context (capacity ttl : Z).
#[local] Abbreviation wp := (wpr (directory_inv capacity) answers_kept).

(** A directory whose lists were all answers of the auth service. *)
Definition from_auth (log : list (UserId * list DeviceCryptoRecord)) (dir : gmap UserId (list DeviceCryptoRecord)) : Prop :=
  forall u records, dir !! u = Some records -> (u, records) ∈ log.

Lemma from_auth_later s s' dir : from_auth (dw_log s) dir -> answers_kept s s' -> from_auth (dw_log s') dir.
Proof. intros Hd Hs u records Hu. by eapply answers_kept_in, Hd. Qed.

Lemma resolve_wpr u s :
  directory_inv capacity s ->
  wp (resolve_devices_for_user capacity ttl u) (fun r s' => forall records, r = Ok records -> (u, records) ∈ dw_log s') s.
Proof.
  intros HI. apply wpr_locked. intros s1 _ [Hok Hrec].
  pose proof (cache_get_ok capacity ttl (dw_now s1) u _ Hok) as Hok'. pose proof (cache_get_sub ttl (dw_now s1) u (dw_cache s1)) as Hsub.
  pose proof (cache_get_fresh ttl (dw_now s1) u (dw_cache s1)) as Hfresh. destruct (cache_get _ _ _ _) as [cached c]. cbn [fst snd] in *.
  split; [split; [done|by eapply recorded_sub]|]. split; [by apply same_answers|].
  destruct cached as [records|].
  - intros records' [= <-]. destruct (Hfresh records eq_refl) as (e & He & <- & _). by apply (Hrec u e).
  - apply wpr_locked. intros s2 _ [Hok2 Hrec2]. destruct (dw_answers_ s2 u) as [records|e] eqn:Ha; cbn [fst snd].
    2: { split; [done|]. split; [reflexivity|]. cbn. discriminate. }
    split; [split; [done|]|].
    { intros v e He. apply elem_of_app. left. by apply Hrec2. }
    split; [by exists [(u, records)]|]. apply wpr_locked. intros s3 Hs3 [Hok3 Hrec3]. cbn [fst snd].
    assert (Hin : (u, records) ∈ dw_log s3) by (eapply answers_kept_in; [exact Hs3|]; cbn; apply elem_of_app; right; by constructor).
    split; [split; [by apply cache_put_ok|]|]. 
    { intros v e He. cbn [dw_cache dw_log set_dir_cache] in *. apply cache_put_entry in He as [[-> ->]|He]; [done|by apply Hrec3]. }
    split; [by apply same_answers|]. intros records' [= <-]. exact Hin.
Qed.

Lemma resolve_all_wpr us : forall m s,
  directory_inv capacity s -> from_auth (dw_log s) m ->
  wp (resolve_devices_for_users capacity ttl us m)
     (fun r s' => forall dir, r = Ok dir -> from_auth (dw_log s') dir /\ forall u, u ∈ us \/ is_Some (m !! u) -> is_Some (dir !! u)) s.
Proof.
  induction us as [|u us IH]; intros m s HI Hm; cbn [resolve_devices_for_users].
  { intros dir [= <-]. split; [done|]. intros u [Hu|Hu]; [by apply elem_of_nil in Hu|done]. }
  case_bool_decide as Hu.
  { eapply wpr_mono; [|by apply IH]. intros r s' Hr dir ->. destruct (Hr dir eq_refl) as [? Hall]. split; [done|].
    intros v [[->|Hv]%elem_of_cons|Hv]; apply Hall; auto. }
  apply (wpr_bind _ _); [done|]. eapply wpr_mono; [|by apply resolve_wpr]. intros [records|e] s1 Hr HI1 Hs1; [|by intros dir [=]].
  eapply wpr_mono; [|apply IH; [done|]].
  - intros r s' Hr' dir ->. destruct (Hr' dir eq_refl) as [? Hall]. split; [done|].
    intros v [[->|Hv]%elem_of_cons|Hv]; apply Hall; [right; by rewrite lookup_insert_eq|by left|]. right. by rewrite lookup_insert_is_Some'; right.
  - intros v recs [[<- <-]|[_ Hv]]%lookup_insert_Some; [by apply Hr|]. by apply (from_auth_later s s1 m).
Qed.

Lemma first_fault_none {A E} (fault : A -> option E) l : first_fault fault l = None -> forall a, a ∈ l -> fault a = None.
Proof.
  induction l as [|b l IH]; intros Hl a Ha; [by apply elem_of_nil in Ha|]. cbn in Hl. destruct (fault b) eqn:Hb; [discriminate|].
  apply elem_of_cons in Ha as [->|Ha]; [done|by apply IH].
Qed.

(** A device the directory lists for the user, as active. *)
Definition active_in (dir : gmap UserId (list DeviceCryptoRecord)) (u : UserId) (d : DeviceId) : Prop :=
  exists records r, dir !! u = Some records /\ find_device d records = Some r /\ cr_status r = DEVICE_STATUS_ACTIVE.

(** The devices a message of the sender must reach: the active ones of all participants,
    and of the sender those it does not send from. *)
Definition must_reach (participants : list UserId) (sender_user : UserId) (sender_device : DeviceId)
    (dir : gmap UserId (list DeviceCryptoRecord)) (u : UserId) (d : DeviceId) : Prop :=
  (u ∈ participants \/ u = sender_user) /\ (u = sender_user -> UserId_empty sender_user = false /\ d <> sender_device) /\
  exists records r, dir !! u = Some records /\ r ∈ records /\ cr_status r = DEVICE_STATUS_ACTIVE /\ cr_device_id r = d.

Lemma untargeted_in targets u records r :
  r ∈ records -> cr_status r = DEVICE_STATUS_ACTIVE ->
  cr_device_id r ∈ untargeted targets u records \/
  exists t, t ∈ targets /\ pe_recipient_user_id t = u /\ pe_recipient_device_id t = cr_device_id r.
Proof.
  intros Hr Ha. destruct (targeted targets u (cr_device_id r)) eqn:Ht.
  - right. apply existsb_exists in Ht as (t & Hin & [Hu Hd]%andb_true_iff). exists t. rewrite list_elem_of_In.
    split; [done|]. split; by eapply bool_decide_eq_true_1.
  - left. apply list_elem_of_fmap. exists r. split; [done|]. rewrite list_elem_of_In in *. apply filter_In. split; [done|].
    unfold is_active_record. rewrite bool_decide_eq_true_2 by done. by rewrite Ht.
Qed.

(** A device that must be reached is a target, or is reported as omitted. *)
Lemma omitted_or_targeted participants targets sender_device sender_user dir u d :
  must_reach participants sender_user sender_device dir u d ->
  d ∈ omitted_recipients participants targets sender_user dir ++ omitted_companions targets sender_device sender_user dir \/
  exists t, t ∈ targets /\ pe_recipient_user_id t = u /\ pe_recipient_device_id t = d.
Proof.
  intros (Hu & Hself & records & r & Hdir & Hr & Ha & <-). destruct (decide (u = sender_user)) as [->|Hne].
  - destruct (Hself eq_refl) as [Hempty Hdev]. unfold omitted_companions. rewrite Hempty, Hdir. cbn [default from_option id].
    assert (Hr' : r ∈ List.filter (fun r => negb (bool_decide (cr_device_id r = sender_device))) records).
    { rewrite list_elem_of_In in *. apply filter_In. split; [done|]. by rewrite bool_decide_eq_false_2. }
    destruct (untargeted_in targets sender_user _ r Hr' Ha); [left; apply elem_of_app; by right|by right].
  - destruct Hu as [Hu|?]; [|done]. destruct (untargeted_in targets u _ r Hr Ha) as [Hin|]; [left|by right].
    apply elem_of_app. left. apply list_elem_of_In, in_concat. exists (untargeted targets u records). rewrite <-!list_elem_of_In.
    split; [|done]. apply list_elem_of_fmap. exists u. split; [|done]. by rewrite bool_decide_eq_false_2, Hdir by done.
Qed.

Lemma judge_accepted participants targets sender_device sender_user enforce dir omitted :
  judge participants targets sender_device sender_user enforce dir = Accepted omitted ->
  (forall t, t ∈ targets -> active_in dir (pe_recipient_user_id t) (pe_recipient_device_id t)) /\
  sender_fault sender_device sender_user dir = None /\
  (forall u d, must_reach participants sender_user sender_device dir u d ->
     (enforce = false /\ d ∈ omitted) \/ exists t, t ∈ targets /\ pe_recipient_user_id t = u /\ pe_recipient_device_id t = d).
Proof.
  unfold judge. destruct (first_fault _ _) eqn:Hf; [discriminate|]. destruct (sender_fault _ _ _); [discriminate|]. cbv zeta.
  intros Hacc. split; [|split; [done|]].
  - intros t Ht. pose proof (first_fault_none _ _ Hf t Ht) as Hd. unfold device_fault in Hd. destruct (dir !! _) as [records|] eqn:Hdir; [|discriminate].
    destruct (find_device _ _) as [r|] eqn:Hr; [|discriminate]. unfold is_active_record in Hd. case_bool_decide; [|discriminate]. by exists records, r.
  - intros u d Hu. destruct (omitted_or_targeted _ targets _ _ _ _ _ Hu) as [Hin|]; [left|by right]. destruct enforce; cbn [andb] in Hacc.
    + case_bool_decide as Hnil; [|discriminate]. rewrite Hnil in Hin. by apply elem_of_nil in Hin.
    + injection Hacc as <-. by split.
Qed.

(** An envelope for one device that is encrypted as the policy asks for. *)
Definition sealed (e : PerDeviceEnvelope) : Prop :=
  is_supported_protocol_version (pe_protocol_version e) = true /\ is_approved_algorithm (pe_algorithm e) = true /\
  0 < Z.of_nat (String.length (pe_ciphertext_blob e)) <= k_max_ciphertext_bytes /\
  match pe_algorithm e with XChaCha20_Poly1305 => 24 | _ => 12 end <= Z.of_nat (length (pe_iv e)) /\
  16 <= Z.of_nat (length (pe_auth_tag e)) /\ 32 <= Z.of_nat (length (pe_ephemeral_public_key e)) /\
  ~ plain_text (pe_ciphertext_blob e).

Lemma envelope_fault_sealed e : envelope_fault e = None <-> sealed e.
Proof.
  unfold envelope_fault, sealed, validate_envelope_security. rewrite <-guard_means.
  destruct (is_supported_protocol_version _); cbn [negb]; [|split; [discriminate|by intros [? _]]].
  destruct (pe_algorithm e); cbn [is_approved_algorithm negb get_minimum_iv_size get_minimum_auth_tag_size get_minimum_ephemeral_key_size];
    [split; [discriminate|by intros (_ & ? & _)]|..];
    (case_bool_decide as Hc; [rewrite Hc; split; [discriminate|intros (_ & _ & [? _] & _); cbn in *; lia]|]);
    (assert (String.length (pe_ciphertext_blob e) <> 0%nat) by (by destruct (pe_ciphertext_blob e)));
    unfold get_minimum_auth_tag_size, get_minimum_ephemeral_key_size, k_min_auth_tag_bytes, k_min_ephemeral_key_bytes, k_min_xchacha20_iv_bytes, k_min_aes_gcm_iv_bytes;
    cbn [is_approved_algorithm];
    repeat (match goal with |- context [?a <? ?b] => destruct (Z.ltb_spec a b) end; [split; [discriminate|intros (_ & _ & ? & ? & ? & ? & _); lia]|]);
    (destruct (is_suspected_unencrypted_plaintext _); [split; [discriminate|by intros (_ & _ & _ & _ & _ & _ & [])]|]);
    (split; [intros _; split_and!; done || lia|done]).
Qed.

(** What the sender of an accepted message can rely on, where [log] holds the answers of
    the auth service. *)
Definition acceptance_checked (log : list (UserId * list DeviceCryptoRecord)) (env : E2EMessageEnvelope) (caller : EnvelopeCaller)
    (participants : list UserId) (enforce : bool) (omitted : list DeviceId) : Prop :=
  let sender := ee_sender_user_id env in
  let device := ee_sender_device_id env in
  let targets := ee_per_device_envelopes env in
  ec_user_id caller = user_str sender /\ (ec_device_id caller = EmptyString \/ ec_device_id caller = device_str device) /\
  is_supported_protocol_version (ee_protocol_version env) = true /\ targets <> [] /\
  exists dir, from_auth log dir /\ (forall u, u ∈ participants -> is_Some (dir !! u)) /\
    (forall t, t ∈ targets ->
       sealed t /\ pe_recipient_user_id t ∈ participants /\ (DeviceId_empty device = false -> pe_recipient_device_id t <> device) /\
       active_in dir (pe_recipient_user_id t) (pe_recipient_device_id t)) /\
    sender_fault device sender dir = None /\
    (forall u d, must_reach participants sender device dir u d ->
       (enforce = false /\ d ∈ omitted) \/ exists t, t ∈ targets /\ pe_recipient_user_id t = u /\ pe_recipient_device_id t = d).

Lemma acceptance_later log log' env caller participants enforce omitted :
  log `prefix_of` log' -> acceptance_checked log env caller participants enforce omitted -> acceptance_checked log' env caller participants enforce omitted.
Proof.
  intros [l ->] (Hu & Hd & Hv & Ht & dir & Hauth & Hrest). split_and!; [done|done|done|done|]. exists dir. split; [|done].
  intros u records Hr. apply elem_of_app. left. by apply Hauth.
Qed.

Lemma query_users_all participants sender u : u ∈ participants -> u ∈ query_users participants sender.
Proof. intros Hu. unfold query_users. destruct (_ && _); [apply elem_of_app; by left|done]. Qed.

(** The answer of a call. *)
Definition call_checked (c : DirectoryCall) (r : option Verdict) (s : DirectoryWorld) : Prop :=
  forall env caller participants enforce omitted,
    c = ValidateEnvelope env caller participants enforce -> r = Some (Accepted omitted) ->
    acceptance_checked (dw_log s) env caller participants enforce omitted.

Lemma targets_wpr participants targets sender_device sender_user enforce s :
  directory_inv capacity s ->
  wp (validate_submission_targets capacity ttl participants targets sender_device sender_user enforce)
     (fun v s' => forall omitted, v = Accepted omitted ->
        (forall t, t ∈ targets -> membership_fault participants sender_device t = None) /\
        exists dir, from_auth (dw_log s') dir /\ (forall u, u ∈ participants -> is_Some (dir !! u)) /\
          judge participants targets sender_device sender_user enforce dir = Accepted omitted) s.
Proof.
  intros HI. unfold validate_submission_targets. case_bool_decide; [by intros ? [=]|].
  destruct (first_fault _ _) eqn:Hf; [by intros ? [=]|]. apply (wpr_bind _ _); [done|].
  eapply wpr_mono; [|apply resolve_all_wpr; [done|by intros ? ? ?]]. intros [dir|e] s' Hr HI' _; [|by intros ? [=]].
  intros omitted Hj. split; [by apply first_fault_none|]. destruct (Hr dir eq_refl) as [Hauth Hall]. exists dir. split_and!; [done| |done].
  intros u Hu. apply Hall. left. by apply query_users_all.
Qed.

Lemma validate_wpr env caller participants enforce s :
  directory_inv capacity s ->
  wp (validate_envelope capacity ttl env caller participants enforce)
     (fun v s' => forall omitted, v = Accepted omitted -> acceptance_checked (dw_log s') env caller participants enforce omitted) s.
Proof.
  intros HI. unfold validate_envelope. case_bool_decide as Hu; cbn [negb]; [|by intros ? [=]].
  destruct (negb _ && negb _) eqn:Hd; [by intros ? [=]|].
  assert (Hdev : ec_device_id caller = EmptyString \/ ec_device_id caller = device_str (ee_sender_device_id env)).
  { apply andb_false_iff in Hd as [Hd|Hd]; apply negb_false_iff, bool_decide_eq_true_1 in Hd; auto. }
  clear Hd. destruct (is_supported_protocol_version _) eqn:Hv; cbn [negb]; [|by intros ? [=]].
  case_bool_decide as Ht; [by intros ? [=]|]. destruct (first_fault envelope_fault _) eqn:Hf; [by intros ? [=]|].
  eapply wpr_mono; [|by apply targets_wpr]. intros v s' Hr omitted ->. destruct (Hr omitted eq_refl) as (Hm & dir & Hauth & Hall & Hj).
  apply judge_accepted in Hj as (Hact & Hsender & Hreach). unfold acceptance_checked. cbv zeta. split_and!; [done|done|done|done|].
  exists dir. split_and!; [done|done| |done|done]. intros t Hin. pose proof (Hm t Hin) as Hmt. unfold membership_fault in Hmt.
  split; [by apply envelope_fault_sealed, (first_fault_none _ _ Hf)|]. destruct (negb _ && _) eqn:Hself; [discriminate|].
  case_bool_decide as Hp; [|discriminate]. split_and!; [done| |by apply Hact]. intros Hne. rewrite Hne in Hself. cbn in Hself.
  by apply bool_decide_eq_false_1 in Hself.
Qed.

Lemma updated_wpr f (Q : option Verdict -> DirectoryWorld -> Prop) s :
  (forall s, cache_ok capacity (dw_cache s) -> cache_ok capacity (dw_cache (f s))) ->
  (forall s, dc_entries (dw_cache (f s)) ⊆ dc_entries (dw_cache s)) -> (forall s, dw_log (f s) = dw_log s) -> (forall s, Q None s) ->
  wp (updated f) Q s.
Proof.
  intros Hok Hsub Hlog HQ s' _ [Hok' Hrec]. cbn [fst snd wpr]. split; [split; [by apply Hok|]|split; [by apply same_answers|apply HQ]].
  rewrite Hlog. by eapply recorded_sub.
Qed.

Lemma serve_directory_wpr c s : directory_inv capacity s -> wp (serve_directory capacity ttl c) (call_checked c) s.
Proof.
  intros HI. destruct c as [env caller participants enforce|u d|u|d| |now|answers]; cbn [serve_directory].
  - apply (wpr_bind _ _); [done|]. eapply wpr_mono; [|by apply validate_wpr]. intros v s' Hv _ _ env' caller' participants' enforce' omitted [= <- <- <- <-] [= ->].
    by apply Hv.
  - apply (wpr_bind _ _); [done|]. unfold get_device_status. apply (wpr_bind _ _); [done|]. eapply wpr_mono; [|by apply resolve_wpr].
    intros r s' _ _ _ _ _. by intros ? ? ? ? ? [=].
  - apply updated_wpr; cbn; [intros; by apply cache_invalidate_ok|intros; apply cache_invalidate_sub|done|by intros ? ? ? ? ? ? [=]].
  - apply updated_wpr; cbn; [intros; by apply invalidate_users_ok|intros; apply invalidate_users_sub|done|by intros ? ? ? ? ? ? [=]].
  - apply updated_wpr; cbn; [intros _ _; apply empty_cache_ok|intros; apply map_empty_subseteq|done|by intros ? ? ? ? ? ? [=]].
  - apply updated_wpr; cbn; [done|done|done|by intros ? ? ? ? ? ? [=]].
  - apply updated_wpr; cbn; [done|done|done|by intros ? ? ? ? ? ? [=]].
Qed.

Lemma directory_runs s w :
  directory_inv capacity s -> rtc (pool_step (serve_directory capacity ttl)) (mkPool [] s) w ->
  directory_inv capacity (shared w) /\ forall i c r, threads w !! i = Some (c, Ret r) -> call_checked c r (shared w).
Proof.
  apply (pool_wpr _ answers_kept (serve_directory capacity ttl) call_checked).
  - intros c r s1 s2 Hc Hs _ env caller participants enforce omitted Hreq Hr. eapply acceptance_later; [exact Hs|by apply Hc].
  - apply serve_directory_wpr.
Qed.
End runs.

(** ** A call alone *)

(** The auth service still gives the answers that were cached. *)
Definition coherent (s : DirectoryWorld) : Prop :=
  forall u e, dc_entries (dw_cache s) !! u = Some e -> dw_answers_ s u = Ok (de_records e).

(** A lookup gives what the auth service answers, from the cache or not. *)
Lemma resolve_alone capacity ttl u s :
  coherent s ->
  exists s', solo (resolve_devices_for_user capacity ttl u) s = (dw_answers_ s u, s') /\ coherent s' /\ dw_answers_ s' = dw_answers_ s.
Proof.
  intros Hs. unfold resolve_devices_for_user. rewrite solo_locked. pose proof (cache_get_sub ttl (dw_now s) u (dw_cache s)) as Hsub.
  pose proof (cache_get_fresh ttl (dw_now s) u (dw_cache s)) as Hfresh. destruct (cache_get _ _ _ _) as [cached c]. cbn [fst snd] in *.
  assert (Hc : coherent (set_dir_cache c s)) by (intros v e He; apply Hs; by eapply lookup_weaken).
  destruct cached as [records|]; [|rewrite solo_bind; unfold ask_directory, locked; cbn [solo fst snd dw_answers_ set_dir_cache]].
  - destruct (Hfresh records eq_refl) as (e & He & <- & _). rewrite (Hs u e He). by exists (set_dir_cache c s).
  - destruct (dw_answers_ s u) as [records|err] eqn:Ha; [|by exists (set_dir_cache c s)].
    cbn [solo fst snd pbind]. eexists. split; [reflexivity|]. split; [|done]. intros v e He. cbn [dw_cache dw_answers_ set_dir_cache] in *.
    apply cache_put_entry in He as [[-> ->]|He]; [done|]. by apply (Hc v e).
Qed.

Lemma resolve_all_alone capacity ttl us : forall m s,
  coherent s -> (forall u, u ∈ us -> exists records, dw_answers_ s u = Ok records) ->
  (forall u records, m !! u = Some records -> dw_answers_ s u = Ok records) ->
  exists dir s', solo (resolve_devices_for_users capacity ttl us m) s = (Ok dir, s') /\
    (forall u records, dir !! u = Some records -> dw_answers_ s u = Ok records) /\ (forall u, u ∈ us \/ is_Some (m !! u) -> is_Some (dir !! u)).
Proof.
  induction us as [|u us IH]; intros m s Hs Hus Hm; cbn [resolve_devices_for_users].
  { exists m, s. split; [done|]. split; [done|]. intros u [Hu|Hu]; [by apply elem_of_nil in Hu|done]. }
  case_bool_decide as Hu.
  - destruct (IH m s Hs) as (dir & s' & Hrun & Hdir & Hall); [intros v Hv; apply Hus; by right|done|]. exists dir, s'. split_and!; [done|done|].
    intros v [[->|Hv]%elem_of_cons|Hv]; apply Hall; auto.
  - rewrite solo_bind. destruct (resolve_alone capacity ttl u s Hs) as (s1 & -> & Hs1 & Hans). destruct (Hus u) as [records Hr]; [by left|]. rewrite Hr.
    destruct (IH (<[u := records]> m) s1 Hs1) as (dir & s' & Hrun & Hdir & Hall); rewrite ?Hans in *; [|..].
    + intros v Hv. apply Hus. by right.
    + intros v recs [[<- <-]|[_ Hv]]%lookup_insert_Some; [done|by apply Hm].
    + exists dir, s'. split_and!; [done|done|]. intros v [[->|Hv]%elem_of_cons|Hv]; apply Hall; [right; by rewrite lookup_insert_eq|by left|].
      right. by rewrite lookup_insert_is_Some'; right.
Qed.

Lemma first_fault_all {A E} (fault : A -> option E) l : (forall a, a ∈ l -> fault a = None) -> first_fault fault l = None.
Proof. induction l as [|a l IH]; intros Hl; cbn; [done|]. rewrite (Hl a) by (by left). apply IH. intros b Hb. apply Hl. by right. Qed.

Lemma untargeted_none targets u records :
  (forall r, r ∈ records -> cr_status r = DEVICE_STATUS_ACTIVE -> exists t, t ∈ targets /\ pe_recipient_user_id t = u /\ pe_recipient_device_id t = cr_device_id r) ->
  untargeted targets u records = [].
Proof.
  intros Hall. unfold untargeted. rewrite (list_filter_none _ records); [done|].
  apply Forall_forall. intros r Hr. unfold is_active_record. case_bool_decide as Ha; [|done]. destruct (Hall r Hr Ha) as (t & Ht & Hu & Hd).
  cbn. apply negb_false_iff, existsb_exists. exists t. rewrite <-list_elem_of_In. split; [done|]. by rewrite !bool_decide_eq_true_2.
Qed.

(** When every device that must be reached is a target, none is reported as omitted. *)
Lemma omitted_none participants targets sender_device sender_user dir :
  (forall u d, must_reach participants sender_user sender_device dir u d ->
     exists t, t ∈ targets /\ pe_recipient_user_id t = u /\ pe_recipient_device_id t = d) ->
  omitted_recipients participants targets sender_user dir ++ omitted_companions targets sender_device sender_user dir = [].
Proof.
  intros Hall. apply app_nil. split.
  - unfold omitted_recipients. apply concat_nil_Forall, Forall_fmap, Forall_forall. intros u Hu. cbn. case_bool_decide as Hne; [done|].
    apply untargeted_none. intros r Hr Ha. destruct (dir !! u) as [records|] eqn:Hdir; cbn in Hr; [|by apply elem_of_nil in Hr].
    apply Hall. split; [by left|]. split; [done|]. by exists records, r.
  - unfold omitted_companions. destruct (UserId_empty sender_user) eqn:Hempty; [done|]. apply untargeted_none. intros r Hr Ha.
    rewrite list_elem_of_In, filter_In in Hr. destruct Hr as [Hr Hd]. apply negb_true_iff, bool_decide_eq_false_1 in Hd. rewrite <-list_elem_of_In in Hr.
    destruct (dir !! sender_user) as [records|] eqn:Hdir; cbn in Hr; [|by apply elem_of_nil in Hr].
    apply Hall. split; [by right|]. split; [done|]. by exists records, r.
Qed.

(** The envelope of an honest client, where [dir] lists the devices of the users. *)
Definition acceptable (env : E2EMessageEnvelope) (caller : EnvelopeCaller) (participants : list UserId) (dir : gmap UserId (list DeviceCryptoRecord)) : Prop :=
  let sender := ee_sender_user_id env in
  let device := ee_sender_device_id env in
  let targets := ee_per_device_envelopes env in
  ec_user_id caller = user_str sender /\ (ec_device_id caller = EmptyString \/ ec_device_id caller = device_str device) /\
  is_supported_protocol_version (ee_protocol_version env) = true /\ targets <> [] /\
  (forall t, t ∈ targets ->
     sealed t /\ pe_recipient_user_id t ∈ participants /\ (DeviceId_empty device = false -> pe_recipient_device_id t <> device) /\
     active_in dir (pe_recipient_user_id t) (pe_recipient_device_id t)) /\
  sender_fault device sender dir = None /\
  (forall u d, must_reach participants sender device dir u d -> exists t, t ∈ targets /\ pe_recipient_user_id t = u /\ pe_recipient_device_id t = d).

Lemma query_users_sender participants sender : UserId_empty sender = false -> sender ∈ query_users participants sender.
Proof.
  intros Hne. unfold query_users. rewrite Hne. cbn [negb andb]. case_bool_decide; [done|]. apply elem_of_app. right. by constructor.
Qed.

Lemma judge_acceptable env caller participants dir dir' enforce :
  acceptable env caller participants dir -> (forall u, u ∈ query_users participants (ee_sender_user_id env) -> dir' !! u = dir !! u) ->
  judge participants (ee_per_device_envelopes env) (ee_sender_device_id env) (ee_sender_user_id env) enforce dir' = Accepted [].
Proof.
  intros (_ & _ & _ & _ & Ht & Hsender & Hreach) Heq. cbv zeta in *. unfold judge. rewrite first_fault_all.
  - assert (Hs : sender_fault (ee_sender_device_id env) (ee_sender_user_id env) dir' = None).
    { rewrite <-Hsender. unfold sender_fault. destruct (UserId_empty (ee_sender_user_id env)) eqn:Hne; [by rewrite !andb_false_r|].
      by rewrite (Heq _ (query_users_sender _ _ Hne)). }
    rewrite Hs, omitted_none; [by rewrite andb_false_r|]. intros u d (Hu & Hself & records & r & Hdir & Hr). apply Hreach.
    split; [done|]. split; [done|]. exists records, r. split; [|done]. rewrite <-Hdir. symmetry. apply Heq.
    destruct Hu as [Hu|Hu]; [by apply query_users_all|]. rewrite Hu. by apply query_users_sender, Hself.
  - intros t Hin. destruct (Ht t Hin) as (_ & Hp & _ & records & r & Hdir & Hr & Ha). unfold device_fault.
    rewrite (Heq _ (query_users_all _ _ _ Hp)), Hdir, Hr. unfold is_active_record. by rewrite bool_decide_eq_true_2.
Qed.

Lemma validate_acceptable capacity ttl s dir env caller participants enforce :
  coherent s -> acceptable env caller participants dir ->
  (forall u, u ∈ query_users participants (ee_sender_user_id env) -> exists records, dw_answers_ s u = Ok records /\ dir !! u = Some records) ->
  fst (solo (validate_envelope capacity ttl env caller participants enforce) s) = Accepted [].
Proof.
  intros Hs Hok Hdir. pose proof Hok as (Hu & Hd & Hv & Hne & Ht & _). cbv zeta in *. unfold validate_envelope.
  rewrite bool_decide_eq_true_2 by done. cbn [negb]. destruct (negb _ && negb _) eqn:Hdev.
  { exfalso. apply andb_true_iff in Hdev as [H1 H2]. apply negb_true_iff, bool_decide_eq_false_1 in H1, H2. naive_solver. }
  rewrite Hv, bool_decide_eq_false_2 by done. cbn [negb]. rewrite first_fault_all by (intros t Hin; apply envelope_fault_sealed; by apply Ht).
  unfold validate_submission_targets. rewrite bool_decide_eq_false_2 by done. rewrite first_fault_all.
  - destruct (resolve_all_alone capacity ttl (query_users participants (ee_sender_user_id env)) ∅ s Hs) as (dir' & s' & Hrun & Hans & Hall).
    { intros u Hin. destruct (Hdir u Hin) as (records & ? & _). by exists records. }
    { by intros u records. }
    rewrite solo_bind, Hrun. cbn [solo fst]. apply (judge_acceptable env caller participants dir); [done|]. intros u Hin.
    destruct (Hdir u Hin) as (records & Ha & ->). destruct (Hall u) as [records' Hr]; [by left|]. rewrite Hr. apply Hans in Hr. congruence.
  - intros t Hin. destruct (Ht t Hin) as (_ & Hp & Hself & _). unfold membership_fault. destruct (DeviceId_empty _); cbn [negb andb].
    + by rewrite bool_decide_eq_true_2.
    + by rewrite bool_decide_eq_false_2, bool_decide_eq_true_2 by auto.
Qed.

(** ** The theorems *)

(** C5.  In every run of calls that share the cache, while the auth service changes its
    answers and the clock moves, an envelope is accepted only when its sender is the
    authenticated caller, its version is supported and it has targets; when every target
    is encrypted as the policy asks for (approved algorithm, sizes, no plain text), is
    addressed to a participant and not to the sending device, and to a device which an
    answer of the auth service for that user lists as active; and when, with completeness
    enforced, no active device of a participant in these answers is left out, except the
    sending one. *)
Theorem accepted_envelopes_checked capacity ttl s w i env caller participants enforce omitted :
  directory_inv capacity s -> rtc (pool_step (serve_directory capacity ttl)) (mkPool [] s) w ->
  threads w !! i = Some (ValidateEnvelope env caller participants enforce, Ret (Some (Accepted omitted))) ->
  acceptance_checked (dw_log (shared w)) env caller participants enforce omitted.
Proof. intros Hs Hr Hi. destruct (directory_runs _ _ _ _ Hs Hr) as [_ Hcalls]. by eapply Hcalls. Qed.

(** C6.  The converse, for a call alone: while the auth service answers for every user
    who is asked for, and answers what was cached, the envelope of an honest client (with
    the right sender, supported version, encrypted targets, all and only active devices
    of the participants) is accepted and no device is reported as omitted, whatever the
    cache holds, however small it is, and whether its entries have expired or not. *)
Theorem honest_envelopes_accepted capacity ttl s dir env caller participants enforce :
  coherent s -> acceptable env caller participants dir ->
  (forall u, u ∈ query_users participants (ee_sender_user_id env) -> exists records, dw_answers_ s u = Ok records /\ dir !! u = Some records) ->
  fst (solo (serve_directory capacity ttl (ValidateEnvelope env caller participants enforce)) s) = Some (Accepted []).
Proof.
  intros Hs Hok Hdir. pose proof (validate_acceptable capacity ttl s dir env caller participants enforce Hs Hok Hdir) as Hv.
  cbn [serve_directory]. rewrite solo_bind. destruct (solo _ s) as [v s']. cbn [solo fst] in *. by rewrite Hv.
Qed.

(** C15.  In every run, the cache holds at most its capacity of users (one, when the
    capacity is zero), its list holds every one of them once, and all it holds are
    answers of the auth service. *)
Theorem directory_cache_sound capacity ttl s w :
  directory_inv capacity s -> rtc (pool_step (serve_directory capacity ttl)) (mkPool [] s) w ->
  let c := dw_cache (shared w) in
  directory_cache_size c <= Z.max 1 capacity /\ NoDup (dc_lru c) /\ (forall u, u ∈ dc_lru c <-> is_Some (dc_entries c !! u)) /\
  forall u e, dc_entries c !! u = Some e -> (u, de_records e) ∈ dw_log (shared w).
Proof.
  intros Hs Hr. destruct (directory_runs _ _ _ _ Hs Hr) as [[(Hnd & Hdom & Hsize) Hrec] _]. cbv zeta. split_and!; [|done|done|done].
  unfold directory_capacity in Hsize. destruct (Z.ltb_spec 0 capacity); lia.
Qed.

(** ** Runs *)

Module DirectoryRuns.
Definition alice : UserId := mkUserId "a11ce".
Definition bob : UserId := mkUserId "b0b".
Definition phone : DeviceId := mkDeviceId "d1".
Definition laptop : DeviceId := mkDeviceId "d2".

Definition listing (status : ProtoDeviceStatus) (u : UserId) : result CryptoDirectoryErrorKind (list DeviceCryptoRecord) :=
  Ok (if bool_decide (u = bob) then [mkCryptoRecord laptop bob status] else [mkCryptoRecord phone alice DEVICE_STATUS_ACTIVE]).

Definition start : DirectoryWorld := mkDirWorld empty_directory_cache 0 (listing DEVICE_STATUS_ACTIVE) [].

Definition envelope : E2EMessageEnvelope :=
  mkE2E alice phone V1_Signal_PQXDH_DoubleRatchet
    [mkPerDevice bob laptop V1_Signal_PQXDH_DoubleRatchet AES_256_GCM "ciphertext" (repeat 7 32) (repeat 7 12) (repeat 7 16) None].
Definition submit : DirectoryCall := ValidateEnvelope envelope (mkEnvCaller "a11ce" "d1") [alice; bob] true.

Lemma no_answers_inv capacity : directory_inv capacity start.
Proof. split; [apply empty_cache_ok|by intros u e]. Qed.

Lemma listed_users u : u ∈ query_users [alice; bob] (ee_sender_user_id envelope) -> u = alice \/ u = bob.
Proof. change (query_users _ _) with [alice; bob]. rewrite !elem_of_cons, elem_of_nil. naive_solver. Qed.

Lemma envelope_acceptable :
  acceptable envelope (mkEnvCaller "a11ce" "d1") [alice; bob]
    (<[alice := [mkCryptoRecord phone alice DEVICE_STATUS_ACTIVE]]> (<[bob := [mkCryptoRecord laptop bob DEVICE_STATUS_ACTIVE]]> ∅)).
Proof.
  unfold acceptable. cbv zeta. split_and!; [done|by right|done|done| |vm_compute; reflexivity|].
  - intros t Ht. apply list_elem_of_singleton in Ht as ->. split_and!; [apply envelope_fault_sealed; vm_compute; reflexivity| |done|].
    + apply list_elem_of_further, list_elem_of_here.
    + by eexists [_], _.
  - intros u d (Hu & Hself & records & r & Hdir & Hr & Ha & <-). exists (hd (mkPerDevice bob laptop ProtoUnspecified AlgoUnspecified EmptyString [] [] [] None) (ee_per_device_envelopes envelope)).
    split; [apply list_elem_of_here|]. destruct (decide (u = alice)) as [->|Hne].
    + destruct (Hself eq_refl) as [_ Hd]. injection Hdir as <-. apply list_elem_of_singleton in Hr as ->. by destruct Hd.
    + rewrite lookup_insert_ne in Hdir by done. apply lookup_insert_Some in Hdir as [[<- <-]|[_ Hdir]]; [|by rewrite lookup_empty in Hdir].
      apply list_elem_of_singleton in Hr as ->. done.
Qed.

(** The device of bob is revoked while a thread that already has the answer of the auth
    service has not yet put it into the cache.  The invalidation finds nothing; the
    answer is put into the cache after it; and until it expires, messages for the
    revoked device are accepted. *)
Lemma invalidation_overtaken :
  exists w, rtc (pool_step (serve_directory 10 300)) (mkPool [] start) w /\
    dw_answers_ (shared w) bob = Ok [mkCryptoRecord laptop bob DEVICE_STATUS_REVOKED] /\
    threads w !! 2%nat = Some (InvalidateDevice laptop, Ret None) /\
    fst (solo (serve_directory 10 300 submit) (shared w)) = Some (Accepted []).
Proof.
  pose (serve := serve_directory 10 300). pose (revoke := AuthAnswers (listing DEVICE_STATUS_REVOKED)). pose (invalidate := InvalidateDevice laptop).
  pose (a := advance 5 (serve submit) start). pose (b := advance 5 (serve revoke) (snd a)). pose (c := advance 5 (serve invalidate) (snd b)).
  pose (d := advance 10 (fst a) (snd c)).
  exists (mkPool [(submit, fst d); (revoke, fst b); (invalidate, fst c)] (snd d)). split; [|split_and!].
  - eapply rtc_l; [apply (pool_arrive _ submit)|]. etransitivity; [exact (advance_pool serve 5 0 submit (serve submit) [(submit, serve submit)] start eq_refl)|].
    eapply rtc_l; [apply (pool_arrive _ revoke)|].
    etransitivity; [exact (advance_pool serve 5 1 revoke (serve revoke) [(submit, fst a); (revoke, serve revoke)] (snd a) eq_refl)|].
    eapply rtc_l; [apply (pool_arrive _ invalidate)|].
    etransitivity; [exact (advance_pool serve 5 2 invalidate (serve invalidate) [(submit, fst a); (revoke, fst b); (invalidate, serve invalidate)] (snd b) eq_refl)|].
    exact (advance_pool serve 10 0 submit (fst a) [(submit, fst a); (revoke, fst b); (invalidate, fst c)] (snd c) eq_refl).
  - vm_compute. reflexivity.
  - vm_compute. reflexivity.
  - vm_compute. reflexivity.
Qed.
End DirectoryRuns.

Import DirectoryRuns.

Lemma accepted_envelopes_checked_witness :
  exists s, acceptance_checked (dw_log s) envelope (mkEnvCaller "a11ce" "d1") [alice; bob] true [].
Proof.
  exists (snd (scripted (serve_directory 10 300 submit) [] start)).
  refine (accepted_envelopes_checked 10 300 start _ 0 envelope (mkEnvCaller "a11ce" "d1") [alice; bob] true [] (no_answers_inv 10)
           (scripted_pool (serve_directory 10 300) submit [] [] start) _).
  vm_compute. reflexivity.
Defined.

Lemma directory_cache_sound_witness :
  exists s, directory_cache_size (dw_cache s) = 1 /\ directory_cache_size (dw_cache s) <= Z.max 1 0.
Proof.
  exists (snd (scripted (serve_directory 0 300 submit) [] start)). split; [vm_compute; reflexivity|].
  exact (proj1 (directory_cache_sound 0 300 start _ (no_answers_inv 0) (scripted_pool (serve_directory 0 300) submit [] [] start))).
Defined.

Lemma honest_envelopes_accepted_witness :
  fst (solo (serve_directory 1 300 submit) start) = Some (Accepted []).
Proof.
  refine (honest_envelopes_accepted 1 300 start (<[alice := [mkCryptoRecord phone alice DEVICE_STATUS_ACTIVE]]>
           (<[bob := [mkCryptoRecord laptop bob DEVICE_STATUS_ACTIVE]]> ∅)) envelope (mkEnvCaller "a11ce" "d1") [alice; bob] true _ _ _).
  - by intros u e.
  - apply envelope_acceptable.
  - intros u Hu. apply listed_users in Hu as [->| ->]; eexists; split; reflexivity.
Defined.
